(* ===== verification/_CoqProject ===== *)
-Q . S2P
Prelude.v
StateMonad.v
Ranges.v
PageAlloc.v
CMem.v
NlString.v
NlMalloc.v
Dtoa.v
InitFs.v
Vfs.v
VfsPath.v
VfsDisk.v
VfsSafe.v
VfsFd.v
Env.v
Stdio.v
StdioOut.v
Printf.v
StdioIn.v
StdioImage.v
Fdt.v
FdtWalk.v
SchedLinks.v
Sched.v
SchedSim.v
SchedInv.v
SchedMoves.v
SchedSpawn.v
SchedCalls.v
SchedPark.v
SchedSafe.v
SchedThms.v
SchedOrder.v
SchedStable.v
SchedTurn.v
Rc.v
RcWord.v
RcGraph.v
RcTrial.v
RcMark.v
RcScan.v
RcCollect.v
RcExact.v
RcInv.v
RcStep.v
RcRelease.v
RcSweep.v
RcGarbage.v
RcDrop.v
RcLevel.v
RcRun.v
RcClient.v
RcOps.v
RcThms.v
Float.v
Pow5Table.v
Atof.v
AtofBig.v
AtofExact.v
AtofPack.v
AtofApprox.v
AtofValue.v
AtofText.v
AtofPrint.v
AtofThms.v
Ryu.v
RyuTable.v
RyuFloor.v
RyuLoop.v
RyuTrim.v
RyuScale.v
RyuSides.v
RyuShortest.v
RyuText.v
RyuPrint.v
RyuThms.v
