(* ===== verification/Prelude.v ===== *)
(** The NURL runtime, verified: the freestanding image, and the reference
    counting and number texts of all programs.

    NURL programs can be built as a unikernel: the compiled program, a small C
    library, a cooperative scheduler and a boot layer are one image that runs
    on a bare (virtual) machine.  This development models the C code of that
    image, function by function, and of the runtime core that hosted programs
    share with it three parts with an algorithm of their own: reference counting
    with its collector of cycles, the conversion of decimal text to doubles,
    and the shortest text of a double.  The model is a shallow embedding: a C function is a Rocq function on an explicit
    state, a fault (a store outside a buffer, a read outside the mapped memory,
    a dereference of a freed block) is [None], and every machine word keeps its
    width where the code can wrap.

    ** The parts of the program and where they are

    Files are given under [src/unikernel/], but for the last three parts.

    - [boot/pagealloc.c], the pages of the guest: [PageAlloc].  The static data
      is the record [pa_state]; [pa_init], [pa_alloc], [pa_free] and the
      queries are definitions of the same names.
    - [nolibc/string.c], memory and string functions: [NlString], over the
      byte-addressed memory of [CMem].
    - [nolibc/malloc.c], the heap, and the mappings of [boot/platform_x86.c]
      it is fed from: [NlMalloc].  The heap is written against the classes
      [PageMap] and [PageMapLaws]; the page allocator is their instance.
    - [nolibc/dtoa.c], exact decimal output of doubles: [Dtoa].
    - [boot/initfs.c], the tar archive in the image: [InitFs].
    - [boot/vfs.c] and the descriptor calls of [boot/platform_x86.c]: [Vfs] has
      every operation, over the class [Disk] of the weakly linked disk layer;
      [VfsPath] path resolution, [VfsDisk] the contract of the disk layer and
      a disk in memory that keeps it, [VfsSafe] the invariant of the tables,
      [VfsFd] what the descriptors do.
    - [nolibc/misc.c], environment, exit handlers, thread-local keys: [Env].
    - [nolibc/stdio.c], streams and formatted output: [Stdio] has every
      operation, over the class [Fds] of the descriptor layer; [StdioOut] and
      [StdioIn] compare a stream with what it stands for, [Printf] the printf
      subset with a description of formats, [StdioImage] puts stdio, vfs and
      the archive together.
    - [boot/fdt.c], the device tree of the ARM and RISC-V machines: [Fdt], and
      [FdtWalk] for what the walk reports.
    - [runtime_bare.c], the scheduler: [SchedLinks] has the intrusive queues,
      [Sched] every handler, written once over the interface [Links] of the
      queues, [SchedSim] carries a relation between two implementations of
      the queues over to runs. The invariant is in [SchedInv]; [SchedMoves],
      [SchedSpawn], [SchedCalls] and [SchedPark] show how parking, ending,
      spawning, resuming, granting and waiting keep it, [SchedSafe] that every
      call does; [SchedThms] and [SchedOrder] say what follows for the clients,
      [SchedStable] and [SchedTurn] who runs next and what becomes of an unpark
      that comes early.

    - [src/stdlib/runtime_core.c] from the cycle collector to the end of the
      context, and the handles of [src/stdlib/std/rc.nu]: [Rc] has every
      operation.  [RcWord] is about the cc word, [RcGraph] about counting
      edges; [RcTrial], [RcMark], [RcScan], [RcCollect] and [RcExact] follow
      trial deletion phase by phase.  [RcInv] is the invariant of the heap and
      the collector's state, [RcStep] and [RcRelease] show that the steps of a
      release keep it, [RcSweep] and [RcGarbage] those of a collection,
      [RcDrop], [RcLevel] and [RcRun] close the recursion of drops and
      collections, [RcClient] and [RcOps] are the program that uses handles,
      [RcThms] has the theorems.
    - [src/stdlib/runtime_core.c] section 2c and [src/stdlib/nurl_pow5_table.h],
      decimal text to a double: [Atof] has every function, [Pow5Table] the
      table.  [Float] says what a double is and when it is the nearest;
      [AtofBig] and [AtofExact] are about the big integers and the search of
      the exact path, [AtofPack] and [AtofApprox] about the 128-bit product,
      [AtofValue] about the three paths together, [AtofText] about the grammar
      of the text, [AtofPrint] about text that [dtoa.c] printed; [AtofThms] has
      the theorems.
    - [src/stdlib/runtime_core.c] section 2b, the shortest text of a double
      (nurl_str_float): [Ryu] has every function.  [RyuFloor] shows that the
      products with the table are exact floors, from rows of neighbouring
      fractions in [RyuTable]; [RyuLoop] says what an interval of reals leaves
      as output and [RyuTrim] that the loops leave it; [RyuScale] and
      [RyuSides] that the interval is the one that rounds to the double,
      [RyuShortest] what follows for the digits; [RyuText] and [RyuPrint] are
      about the text, [RyuThms] has the theorems.

    [Prelude], [StateMonad] and [Ranges] hold what the components share: words
    and list lemmas, the monad of stateful C code, address ranges.

    ** How the parts interact

    malloc asks [nl_map] for pages, which asks the page allocator: [NlMalloc]
    discharges the laws of [PageMap] with the theorems of [PageAlloc].  A stream
    calls read and write of the platform, these ask vfs whose descriptor it is,
    vfs asks the archive or the disk: [Stdio.guest_fds] is an instance of
    [Fds] built from the operations of [Vfs], whose archive half is [InitFs],
    and [StdioImage.fopen_reads_image] is a statement through all three.  The
    handlers of the scheduler call the queues only through [Links], so what
    is proved with plain lists holds of the source's [next] pointers by
    [SchedSim.sched_queues_refine].  Dropping a handle may drop a value, which
    drops handles, and may start a collection, which drops values: [Rc] writes
    the functions of that circle over the two calls that close it, and
    [RcDrop.drop_ok] and [RcDrop.run_ok] are what these promise each other.
    What [Dtoa] prints [Atof] reads: [AtofPrint] joins the two, and [Atof]'s big
    integers run the loops of [Dtoa]'s.  What [Ryu] prints [Atof] reads as well,
    and both multiply by the entries of [Pow5Table].

    ** What the theorems show

    - Allocators: live blocks, holes and the tail are disjoint, aligned and
      inside the region at every point of every run, and the free list is sorted and coalesced
      ([pa_run_safe], [heap_safe]); best fit; nothing the client keeps changes
      ([heap_contents]); freed memory is found again.
    - Strings and numbers: the optimised memory routines agree with byte
      loops; comparison and search meet their definition; the digits printed
      for a double are exactly its value ([exact_digits_exact]) and [%f] is the
      correctly rounded decimal.
    - Files: opening and reading a packed archive gives the packed bodies
      ([tar_roundtrip]); no call of the file surface leaves its tables whatever
      the archive and whatever disk is linked ([ifs_run_safe], [vfs_run_safe]);
      path resolution is lexical normalisation as far as the buffers reach, and
      never writes past them ([vfs_resolve_refines], [norm_dir_refines]); a
      descriptor is a cursor ([file_ops_functional]); redirection undoes itself
      around any command; a machine without a disk refuses every change with
      the right errno ([diskless_refuses]).
    - Streams: a stream is its file, in order, whatever the buffering
      ([stdio_out_refines], [stdio_in_refines]); [printf_correct], for the
      subset of formats the library has.
    - Device tree: [fdt_probe] reports what the tree says, for every tree and
      every way to flatten it.
    - Scheduler: the pointers do what lists do, over whole runs. A client that keeps
      to the protocol ([SchedSafe.allowed]) never meets a fault ([sched_safe]), no
      wake-up is lost, a deadlock report is true, the drain ends only when
      everything has, timers fire in the order of their deadlines, a runnable
      coroutine gets its turn however the main context waits and an early unpark is kept for its park.
    - Environment and exit: a map, and a stack.
    - Reference counting: whatever a program does with handles it owns, no
      value is dropped twice, no block is touched after it is gone and every
      count is exact ([rc_ops_safe]); trial deletion finds the garbage cycles,
      all and only ([trial_deletion_exact]); a collection frees them and leaves
      what is owned alone ([collect_frees_cycles]); the end of a context leaves
      nothing that is not owned ([context_end_frees]).  Values own strong
      handles only, and no resource: [RcThms] ends with two programs outside
      of that for which the code faults.

    - Number parsing: the answer is the nearest double, ties to even, on every
      text shorter than 900000 bytes ([atof_correctly_rounded]), because the
      fast path is right whenever it says so ([certain_is_nearest]), the exact
      one always ([search_ignores_seed]) and its integers fit
      ([comparison_exact]); what [%f] prints with enough digits comes back
      ([print_parse_roundtrip]).
    - Number printing: the text of every double reads back as that double
      ([str_float_roundtrip], the sign of zero apart), its digits are the fewest
      that do and the nearest of those ([shortest_decimal_best]), because the
      125 bits of the table give the exact floor ([product_exact]).

    Every theorem with a hypothesis is followed by a witness: a closed lemma
    that applies it to concrete data.

    ** Fuel and bounds

    Loops bounded by a length recurse on it.  Loops that end at a terminator,
    at the end of a list or of the archive take fuel: where a function takes
    fuel as an argument the theorems give the amount that is enough, in terms
    of the data (the length of the string, the slots of the table, the size
    of the archive or the tree), and prove that the function answers with it.
    Where the fuel is inside a definition (rounds of the scheduler's loops: one
    more than there are coroutines; path and directory walks: one more than
    the bytes that are left; the loops of trial deletion: one more than there
    are handles in values; the circle of drops and collections: three levels
    for every handle, because each level takes a value with handles out of the
    heap; the collections at the end of a context: two more than there are
    handles; the bit patterns of the parser: 64 rounds halve less than 2^63 of
    them, and 64 shifts find the top bit of a word; the digits of a word and
    the loops that drop them: 20, the digits of 2^64) running out is a fault,
    and the theorems say that no fault happens.  Addresses and sizes wrap at 64 bits, the
    counters of C [int]s are within their range by the tables' sizes.

    ** Not modelled

    Volatile devices, page tables, interrupt controllers, register contexts
    and stacks of coroutines (machine state, mostly assembly); the consoles
    and the entropy device; the approximations of [nolibc/math.c], whose
    claims are floating-point error bounds; the Linux and simulator back ends
    the tests use; the multiboot half of the boot information.  In
    [nolibc/misc.c] mkdtemp, the directory stream and the time functions, in
    [runtime_bare.c] nurl_runtime_shutdown, the simulator's variants, the
    recover chains and the growth of the arrays of held locks.  mprotect and
    malloc's failures are parameters.  The rest of the
    hosted runtime in [src/stdlib/] (runtime_core.c, runtime_ffi.c,
    runtime_ctx.c) mostly forwards to an operating system and to linked libraries
    and is not part of the image; neither is the compiler, which is written in
    NURL.  Of reference counting: the growth of the collector's arrays and
    running out of memory, the environments of closures, and the panic
    journal. *)

From Stdlib Require Export ZArith Lia Sorting.Sorted.
From stdpp Require Export base numbers list gmap.

#[global] Open Scope Z_scope.

(** * Machine integers

    Unsigned words are integers in [[0, 2^w)]; every C operation that can
    leave the range is written with its wrap-around. *)

Definition wrap (w z : Z) : Z := z mod 2 ^ w.
Abbreviation wrap64 := (wrap 64).
Abbreviation wrap32 := (wrap 32).

(** The value a signed [w]-bit object holds after a conversion of [z]. *)
Definition swrap (w z : Z) : Z := (z + 2 ^ (w - 1)) mod 2 ^ w - 2 ^ (w - 1).

(** Bitwise complement of a 64-bit word. *)
Definition not64 (z : Z) : Z := 2 ^ 64 - 1 - z.

(** [n] bytes are added to the 64-bit address [a]. *)
Declare Scope word_scope.
Delimit Scope word_scope with word.
Notation "a '+w' b" := (wrap 64 (a + b)) (at level 50, left associativity) : word_scope.
Notation "a '-w' b" := (wrap 64 (a - b)) (at level 50, left associativity) : word_scope.
Notation "a '*w' b" := (wrap 64 (a * b)) (at level 40, left associativity) : word_scope.

Create HintDb words.

Lemma wrap_small w z : 0 <= z < 2 ^ w -> wrap w z = z.
Proof. intros H. apply Z.mod_small, H. Qed.

Lemma wrap_bound w z : 0 <= w -> 0 <= wrap w z < 2 ^ w.
Proof. intros H. apply Z.mod_pos_bound. lia. Qed.

Lemma wrap64_small z : 0 <= z < 2 ^ 64 -> wrap64 z = z.
Proof. apply wrap_small. Qed.

Lemma wrap64_bound z : 0 <= wrap64 z < 2 ^ 64.
Proof. apply wrap_bound. lia. Qed.

#[export] Hint Resolve wrap64_small wrap64_bound : words.
#[export] Hint Rewrite wrap64_small using (lia) : words.

(** Decide arithmetic goals that mention [/] and [mod] by constants. *)
Ltac zdiv := Z.div_mod_to_equations; lia.

(** Remove the wrap-around of sums and differences known to be in range. *)
Ltac nowrap := repeat (rewrite wrap64_small by lia).
Ltac nowrap_in H := repeat (rewrite wrap64_small in H by lia).

(** Case analysis on the comparisons a definition makes. *)
Ltac zcases :=
  repeat match goal with
  | |- context [Z.ltb ?a ?b] => destruct (Z.ltb_spec a b)
  | |- context [Z.leb ?a ?b] => destruct (Z.leb_spec a b)
  | |- context [Z.eqb ?a ?b] => destruct (Z.eqb_spec a b)
  end.

Ltac zcases_in H :=
  repeat match type of H with
  | context [Z.ltb ?a ?b] => destruct (Z.ltb_spec a b)
  | context [Z.leb ?a ?b] => destruct (Z.leb_spec a b)
  | context [Z.eqb ?a ?b] => destruct (Z.eqb_spec a b)
  end.

(** Masking the low [k] bits away rounds down to a multiple of [2^k]. *)
Lemma land_align w k x :
  0 <= k <= w -> 0 <= x < 2 ^ w ->
  Z.land x (2 ^ w - 2 ^ k) = x / 2 ^ k * 2 ^ k.
Proof.
  intros Hk Hx.
  replace (2 ^ w - 2 ^ k) with (Z.shiftl (Z.ones (w - k)) k).
  2:{ rewrite Z.shiftl_mul_pow2, Z.ones_equiv by lia.
      replace (2 ^ w) with (2 ^ (w - k) * 2 ^ k)
        by (rewrite <- Z.pow_add_r by lia; f_equal; lia). lia. }
  rewrite <- Z.shiftr_div_pow2, <- Z.shiftl_mul_pow2 by lia.
  apply Z.bits_inj'. intros i Hi.
  rewrite Z.land_spec.
  destruct (Z.lt_ge_cases i k).
  - rewrite !Z.shiftl_spec_low by lia. apply andb_false_r.
  - rewrite !Z.shiftl_spec, Z.shiftr_spec by lia.
    replace (i - k + k) with i by lia.
    destruct (Z.lt_ge_cases i w).
    + rewrite Z.ones_spec_low by lia. apply andb_true_r.
    + rewrite Z.ones_spec_high by lia.
      rewrite andb_false_r. symmetry.
      destruct (decide (x = 0)) as [->|]; [apply Z.bits_0|].
      apply Z.bits_above_log2; [lia|].
      apply Z.log2_lt_pow2; [lia|].
      apply Z.lt_le_trans with (2 ^ w); [lia|].
      apply Z.pow_le_mono_r; lia.
Qed.

Lemma pow_of_S b n : b ^ Z.of_nat (S n) = b * b ^ Z.of_nat n.
Proof. rewrite Nat2Z.inj_succ, Z.pow_succ_r by lia. done. Qed.

(** Or-ing in bits below the lowest set one adds them. *)
Lemma lor_low a c k : 0 <= k -> 0 <= c < 2 ^ k -> Z.lor (a * 2 ^ k) c = a * 2 ^ k + c.
Proof.
  intros Hk Hc. assert (Hland : Z.land (a * 2 ^ k) c = 0).
  { apply Z.bits_inj'. intros i Hi. rewrite Z.land_spec, Z.bits_0.
    destruct (Z.lt_ge_cases i k); [by rewrite Z.mul_pow2_bits_low by lia|].
    rewrite <- (Z.mod_small c (2 ^ k)) by done. rewrite Z.mod_pow2_bits_high by lia. apply andb_false_r. }
  rewrite Z.add_nocarry_lxor by done. by rewrite Z.lxor_lor.
Qed.

(** * Lists *)

Section lists.
Context {A : Type} `{Inhabited A}.
Implicit Types l : list A.

Lemma lookup_total_some l i : (i < length l)%nat -> l !! i = Some (l !!! i).
Proof. intros Hi. by apply list_lookup_lookup_total_lt. Qed.

Lemma take_S_last l n :
  (n < length l)%nat -> take (S n) l = take n l ++ [l !!! n].
Proof. intros Hn. apply take_S_r, lookup_total_some, Hn. Qed.
End lists.

(** The sum of a measure over a list. *)
Fixpoint sum_with {A} (f : A -> Z) (l : list A) : Z :=
  match l with
  | [] => 0
  | x :: l' => f x + sum_with f l'
  end.

Lemma sum_with_app {A} (f : A -> Z) l1 l2 :
  sum_with f (l1 ++ l2) = sum_with f l1 + sum_with f l2.
Proof. induction l1 as [|x l1 IH]; simpl; [lia|]. rewrite IH. lia. Qed.

Lemma sum_with_nonneg {A} (f : A -> Z) l :
  Forall (fun x => 0 <= f x) l -> 0 <= sum_with f l.
Proof. induction 1; simpl; lia. Qed.

Lemma sum_with_perm {A} (f : A -> Z) l1 l2 :
  l1 ≡ₚ l2 -> sum_with f l1 = sum_with f l2.
Proof. induction 1; simpl; lia. Qed.

#[export] Instance sum_with_proper {A} (f : A -> Z) :
  Proper ((≡ₚ) ==> (=)) (sum_with f).
Proof. intros l1 l2 Hl. by apply sum_with_perm. Qed.

Lemma sum_with_elem {A} (f : A -> Z) l x :
  Forall (fun x => 0 <= f x) l -> x ∈ l -> f x <= sum_with f l.
Proof.
  intros Hl Hx. apply list_elem_of_split in Hx as (l1 & l2 & ->).
  rewrite sum_with_app. simpl.
  apply Forall_app in Hl as [H1 H2]. apply Forall_cons in H2 as [_ H2].
  pose proof (sum_with_nonneg f l1 H1). pose proof (sum_with_nonneg f l2 H2). lia.
Qed.
