(* ===== verification/StateMonad.v ===== *)
(** Stateful C code with faults: a computation takes the state of its component
    and answers a value and the new state, or [None] when it faults (a null
    function is called, a buffer is left, the fuel of a loop runs out). *)

From S2P Require Import Prelude.

Definition ST (S A : Type) : Type := S -> option (A * S).

#[export] Instance ST_ret {S} : MRet (ST S) := fun A x s => Some (x, s).
#[export] Instance ST_bind {S} : MBind (ST S) := fun A B k m s =>
  match m s with Some (x, s') => k x s' | None => None end.

Section ops.
Context {S : Type}.

Definition get_state {A} (f : S -> A) : ST S A := fun s => Some (f s, s).
Definition put_state (f : S -> S) : ST S unit := fun s => Some (tt, f s).
Definition st_fault {A} : ST S A := fun _ => None.
Definition of_option {A} (o : option A) : ST S A := fun s => match o with Some x => Some (x, s) | None => None end.

(** A component inside the state. *)
Definition within {T A} (get : S -> T) (set : T -> S -> S) (m : ST T A) : ST S A :=
  fun s => match m (get s) with Some (x, t) => Some (x, set t s) | None => None end.

(** [m] answers from [s], with an answer and a state that [Q] allows. *)
Definition answers {A} (m : ST S A) (s : S) (Q : A -> S -> Prop) : Prop :=
  exists x s', m s = Some (x, s') /\ Q x s'.

Lemma bind_run {A B} (m : ST S A) (k : A -> ST S B) s x s' : m s = Some (x, s') -> (m ≫= k) s = k x s'.
Proof. intros Hm. unfold mbind, ST_bind. by rewrite Hm. Qed.

Lemma bind_inv {A B} (m : ST S A) (k : A -> ST S B) s y s' :
  (m ≫= k) s = Some (y, s') -> exists x s1, m s = Some (x, s1) /\ k x s1 = Some (y, s').
Proof. unfold mbind, ST_bind. destruct (m s) as [[x s1]|] eqn:E; [|done]. eauto. Qed.

Lemma answers_ret {A} (x : A) s (Q : A -> S -> Prop) : Q x s -> answers (mret x) s Q.
Proof. intros HQ. by exists x, s. Qed.

Lemma answers_bind {A B} (m : ST S A) (k : A -> ST S B) s (Q : B -> S -> Prop) :
  answers m s (fun x s' => answers (k x) s' Q) -> answers (m ≫= k) s Q.
Proof. intros (x & s' & Hm & y & s2 & Hk & HQ). exists y, s2. by rewrite (bind_run _ _ _ _ _ Hm). Qed.

Lemma answers_mono {A} (m : ST S A) s (P Q : A -> S -> Prop) :
  answers m s P -> (forall x s', P x s' -> Q x s') -> answers m s Q.
Proof. intros (x & s' & Hm & HP) HPQ. exists x, s'. auto. Qed.

Lemma answers_get {A} (f : S -> A) s (Q : A -> S -> Prop) : Q (f s) s -> answers (get_state f) s Q.
Proof. intros HQ. by exists (f s), s. Qed.

Lemma answers_put (f : S -> S) s (Q : unit -> S -> Prop) : Q tt (f s) -> answers (put_state f) s Q.
Proof. intros HQ. by exists tt, (f s). Qed.

Lemma answers_run {A} (m : ST S A) s x s' (Q : A -> S -> Prop) : m s = Some (x, s') -> Q x s' -> answers m s Q.
Proof. intros Hm HQ. by exists x, s'. Qed.

(** [m'] answers what [m] answers, perhaps more. *)
Definition no_less {A} (m m' : ST S A) : Prop := forall s r, m s = Some r -> m' s = Some r.

Lemma no_less_refl {A} (m : ST S A) : no_less m m.
Proof. by intros s r. Qed.

Lemma no_less_bind {A B} (m : ST S A) (k k' : A -> ST S B) :
  (forall x, no_less (k x) (k' x)) -> no_less (m ≫= k) (m ≫= k').
Proof. intros Hk s [y s2] (x & s1 & Hm & Hx)%bind_inv. rewrite (bind_run _ _ _ _ _ Hm). by apply Hk. Qed.

Lemma no_less_then {A B} (m m' : ST S A) (k : A -> ST S B) : no_less m m' -> no_less (m ≫= k) (m' ≫= k).
Proof. intros Hm s [y s2] (x & s1 & Hx & Hk)%bind_inv. by rewrite (bind_run _ _ _ _ _ (Hm _ _ Hx)). Qed.
End ops.

(** Weakest-precondition steps of a straight-line computation. *)
Ltac st_step :=
  first
    [ apply answers_bind
    | apply answers_ret
    | apply answers_get
    | apply answers_put ].
