(* ===== verification/Ranges.v ===== *)
(** Address ranges and how often a list of ranges covers an address.  Both
    allocators (the guest's pages and nolibc's blocks) state their
    non-overlap invariants with [cov]. *)

From S2P Require Import Prelude.

Record range := Range { r_base : Z; r_len : Z }.

#[export] Instance range_eq_dec : EqDecision range.
Proof. solve_decision. Defined.

#[export] Instance range_inhabited : Inhabited range := populate (Range 0 0).

Definition r_end (r : range) : Z := r_base r + r_len r.

(** 1 when the address lies in the range, 0 otherwise. *)
Definition hit (x : Z) (r : range) : Z :=
  if (r_base r <=? x) && (x <? r_end r) then 1 else 0.

(** How many ranges of the list contain [x]. *)
Definition cov (l : list range) (x : Z) : Z := sum_with (hit x) l.

Definition total (l : list range) : Z := sum_with r_len l.

(** No address belongs to two ranges. *)
Definition disjoint_ranges (r1 r2 : range) : Prop :=
  r_end r1 <= r_base r2 \/ r_end r2 <= r_base r1.

(** No two different positions of the list hold overlapping ranges. *)
Definition pairwise_disjoint (l : list range) : Prop :=
  forall i j r1 r2, l !! i = Some r1 -> l !! j = Some r2 -> i <> j ->
  disjoint_ranges r1 r2.

Lemma hit_bound x r : 0 <= hit x r <= 1.
Proof. unfold hit. destruct (_ && _); lia. Qed.

Lemma hit_in x r : r_base r <= x < r_end r -> hit x r = 1.
Proof. intros H. unfold hit. zcases; simpl; lia. Qed.

Lemma hit_out x r : x < r_base r \/ r_end r <= x -> hit x r = 0.
Proof. intros H. unfold hit. zcases; simpl; lia. Qed.

Lemma hit_in_iff x r : hit x r = 1 <-> r_base r <= x < r_end r.
Proof. unfold hit. zcases; simpl; lia. Qed.

Lemma cov_app l1 l2 x : cov (l1 ++ l2) x = cov l1 x + cov l2 x.
Proof. apply sum_with_app. Qed.

Lemma cov_cons r l x : cov (r :: l) x = hit x r + cov l x.
Proof. reflexivity. Qed.

Lemma cov_nonneg l x : 0 <= cov l x.
Proof. apply sum_with_nonneg, Forall_forall. intros r _. apply hit_bound. Qed.

#[export] Instance cov_proper : Proper ((≡ₚ) ==> eq ==> eq) cov.
Proof. intros l1 l2 Hl x ? <-. unfold cov. by rewrite Hl. Qed.

#[export] Instance total_proper : Proper ((≡ₚ) ==> eq) total.
Proof. intros l1 l2 Hl. unfold total. by rewrite Hl. Qed.

Lemma total_app l1 l2 : total (l1 ++ l2) = total l1 + total l2.
Proof. apply sum_with_app. Qed.

Lemma hit_le_cov r l x : r ∈ l -> hit x r <= cov l x.
Proof.
  intros Hr. unfold cov. apply (sum_with_elem (hit x)); [|done].
  apply Forall_forall. intros. apply hit_bound.
Qed.

Lemma cov_pos_elem l x : 0 < cov l x -> exists r, r ∈ l /\ r_base r <= x < r_end r.
Proof.
  induction l as [|r l IH]; [done|]. rewrite cov_cons. intros H.
  destruct (decide (hit x r = 1)) as [Hh|Hh].
  - exists r. split; [left|]. by apply hit_in_iff.
  - pose proof (hit_bound x r). destruct IH as (r' & ? & ?); [lia|].
    exists r'. split; [by right|done].
Qed.

Lemma cov_zero_out l x : cov l x = 0 -> forall r, r ∈ l -> x < r_base r \/ r_end r <= x.
Proof.
  intros H r Hr. pose proof (hit_le_cov r l x Hr).
  destruct (decide (r_base r <= x < r_end r)) as [Hin|Hin]; [|lia].
  apply hit_in in Hin. lia.
Qed.

Lemma cov_zero l x : (forall r, r ∈ l -> x < r_base r \/ r_end r <= x) -> cov l x = 0.
Proof.
  induction l as [|r l IH]; intros H; [done|].
  rewrite cov_cons, IH by (intros; apply H; by right).
  rewrite hit_out by (apply H; left). lia.
Qed.

(** Ranges held apart by a coverage of at most one. *)
Lemma cov_disjoint (l1 l2 : list range) r1 r2 :
  (forall x, cov (l1 ++ l2) x <= 1) -> r1 ∈ l1 -> r2 ∈ l2 ->
  0 < r_len r1 -> 0 < r_len r2 -> disjoint_ranges r1 r2.
Proof.
  intros Hc H1 H2 Hl1 Hl2. unfold disjoint_ranges.
  destruct (decide (r_end r1 <= r_base r2)); [by left|].
  destruct (decide (r_end r2 <= r_base r1)); [by right|].
  exfalso. set (x := Z.max (r_base r1) (r_base r2)).
  pose proof (Hc x) as Hx. rewrite cov_app in Hx.
  pose proof (hit_le_cov r1 l1 x H1) as Hh1. pose proof (hit_le_cov r2 l2 x H2) as Hh2.
  unfold r_end in *.
  rewrite hit_in in Hh1 by (unfold r_end; lia).
  rewrite hit_in in Hh2 by (unfold r_end; lia). lia.
Qed.

Lemma cov_pairwise l :
  (forall x, cov l x <= 1) -> Forall (fun r => 0 < r_len r) l -> pairwise_disjoint l.
Proof.
  intros Hc Hl i j r1 r2 H1 H2 Hij.
  rewrite Forall_lookup in Hl.
  assert (Hw : forall i j r1 r2, (i < j)%nat -> l !! i = Some r1 -> l !! j = Some r2 ->
                disjoint_ranges r1 r2).
  { clear i j r1 r2 H1 H2 Hij. intros i j r1 r2 Hij H1 H2.
    apply (cov_disjoint (take j l) (drop j l)); [by rewrite take_drop| | | |].
    - apply list_elem_of_lookup. exists i. by rewrite lookup_take_lt.
    - apply list_elem_of_lookup. exists O. by rewrite lookup_drop, Nat.add_0_r.
    - by eapply Hl.
    - by eapply Hl. }
  destruct (decide (i < j)%nat); [by eapply Hw|].
  destruct (Hw j i r2 r1); [lia|done|done|by right|by left].
Qed.
