(* ===== verification/PageAlloc.v ===== *)
(** The guest's page allocator, [src/unikernel/boot/pagealloc.c]: a sorted,
    coalesced free list in a fixed array of 256 slots over one region, best
    fit, with a tail nobody has been handed yet.

    [pa_state] is the file's static data; the array keeps its 256 slots and
    the loops that shift them are the source's loops.  The list of holes the
    array stands for is [pa_holes].  The invariant [pa_inv] adds the ranges
    the clients hold and the ranges the allocator counted as lost: together
    with the holes they cover every address of the used part of the region
    exactly once. *)

From S2P Require Import Prelude Ranges.

Open Scope word_scope.

Definition PA_PAGE : Z := 4096.
Definition PA_MAX_FREE : nat := 256.

(** ** State *)

Record pa_state := PaState {
  pa_free_list : list range;
  pa_nfree : nat;
  pa_base : Z;
  pa_next : Z;
  pa_end : Z;
  pa_live : Z;
  pa_peak : Z;
  pa_lost_bytes : Z
}.

Definition set_list (fl : list range) (n : nat) (s : pa_state) : pa_state :=
  PaState fl n (pa_base s) (pa_next s) (pa_end s) (pa_live s) (pa_peak s) (pa_lost_bytes s).
Definition set_next (v : Z) (s : pa_state) : pa_state :=
  PaState (pa_free_list s) (pa_nfree s) (pa_base s) v (pa_end s) (pa_live s) (pa_peak s) (pa_lost_bytes s).
Definition set_live (v : Z) (s : pa_state) : pa_state :=
  PaState (pa_free_list s) (pa_nfree s) (pa_base s) (pa_next s) (pa_end s) v (pa_peak s) (pa_lost_bytes s).
Definition set_peak (v : Z) (s : pa_state) : pa_state :=
  PaState (pa_free_list s) (pa_nfree s) (pa_base s) (pa_next s) (pa_end s) (pa_live s) v (pa_lost_bytes s).
Definition set_lost (v : Z) (s : pa_state) : pa_state :=
  PaState (pa_free_list s) (pa_nfree s) (pa_base s) (pa_next s) (pa_end s) (pa_live s) (pa_peak s) v.

(** ** Operations *)

Definition pa_round (n : Z) : Z :=
  Z.land ((n +w PA_PAGE) -w 1) (not64 (PA_PAGE - 1)).

Definition pa_init (base len : Z) (s : pa_state) : pa_state :=
  let b := pa_round base in
  let e := base +w len in
  let e := if e <? b then b else e in
  PaState (pa_free_list s) 0 b b e 0 0 0.

(** [for (int i = pa_nfree; i > at; i--) pa_free_list[i] = pa_free_list[i - 1];] *)
Fixpoint shift_up (fl : list range) (i at_ : nat) : list range :=
  match i with
  | O => fl
  | S j => if (at_ <? S j)%nat then shift_up (<[S j := fl !!! j]> fl) j at_ else fl
  end.

Definition pa_insert (at_ : nat) (base len : Z) (s : pa_state) : pa_state :=
  let fl := shift_up (pa_free_list s) (pa_nfree s) at_ in
  let fl := <[at_ := Range base len]> fl in
  set_list fl (S (pa_nfree s)) s.

(** [for (int i = at; i < pa_nfree - 1; i++) pa_free_list[i] = pa_free_list[i + 1];]
    with [k] iterations left. *)
Fixpoint shift_down (fl : list range) (i k : nat) : list range :=
  match k with
  | O => fl
  | S k' => shift_down (<[i := fl !!! (S i)]> fl) (S i) k'
  end.

Definition pa_remove (at_ : nat) (s : pa_state) : pa_state :=
  let fl := shift_down (pa_free_list s) at_ (pa_nfree s - 1 - at_) in
  set_list fl (pa_nfree s - 1) s.

(** The scan of [pa_alloc] for the smallest hole that fits, from slot [i]
    with [k] slots left; [None] is the source's [-1]. *)
Fixpoint best_scan (fl : list range) (need : Z) (i k : nat) (best : option nat) : option nat :=
  match k with
  | O => best
  | S k' =>
      if r_len (fl !!! i) <? need then best_scan fl need (S i) k' best
      else
        let best' :=
          match best with
          | None => Some i
          | Some b => if r_len (fl !!! i) <? r_len (fl !!! b) then Some i else Some b
          end in
        best_scan fl need (S i) k' best'
  end.

Definition pa_bump (need : Z) (s : pa_state) : pa_state :=
  let s := set_live (pa_live s +w need) s in
  if pa_peak s <? pa_live s then set_peak (pa_live s) s else s.

Definition pa_alloc (want : Z) (s : pa_state) : Z * pa_state :=
  let need := pa_round want in
  if need =? 0 then (0, s)
  else
    match best_scan (pa_free_list s) need 0 (pa_nfree s) None with
    | Some best =>
        let r := pa_free_list s !!! best in
        let p := r_base r in
        let s :=
          if r_len r =? need then pa_remove best s
          else set_list (<[best := Range (r_base r +w need) (r_len r -w need)]>
                           (pa_free_list s)) (pa_nfree s) s in
        (p, pa_bump need s)
    | None =>
        if pa_end s -w pa_next s <? need then (0, s)
        else
          let p := pa_next s in
          let s := set_next (pa_next s +w need) s in
          (p, pa_bump need s)
    end.

(** [while (pa_nfree > 0 && last.base + last.len == pa_next)], by recursion on
    the number of holes. *)
Fixpoint absorb (n : nat) (fl : list range) (next : Z) : nat * Z :=
  match n with
  | O => (O, next)
  | S n' =>
      if (r_base (fl !!! n') +w r_len (fl !!! n')) =? next
      then absorb n' fl (r_base (fl !!! n'))
      else (n, next)
  end.

Definition pa_absorb_tail (s : pa_state) : pa_state :=
  let '(n, next) := absorb (pa_nfree s) (pa_free_list s) (pa_next s) in
  set_next next (set_list (pa_free_list s) n s).

Definition pa_owns (p len : Z) (s : pa_state) : bool :=
  let n := pa_round len in
  if (p =? 0) || (n =? 0) then false
  else if (p <? pa_base s) || (pa_end s <? (p +w n)) || ((p +w n) <? p) then false
  else true.

(** [while (at < pa_nfree && pa_free_list[at].base < p) at++;] with [k] slots left. *)
Fixpoint find_at (fl : list range) (p : Z) (at_ k : nat) : nat :=
  match k with
  | O => at_
  | S k' => if r_base (fl !!! at_) <? p then find_at fl p (S at_) k' else at_
  end.

(** The sorted insert of [pa_free], with the coalescing on both sides and the
    count of what no slot was left for. *)
Definition pa_give_back (p n : Z) (s : pa_state) : Z * pa_state :=
  let fl := pa_free_list s in
  let at_ := find_at fl p 0 (pa_nfree s) in
  let prev := fl !!! (at_ - 1)%nat in
  let cur := fl !!! at_ in
  let join_prev := (0 <? at_)%nat && ((r_base prev +w r_len prev) =? p) in
  let join_next := (at_ <? pa_nfree s)%nat && ((p +w n) =? r_base cur) in
  if join_prev && join_next then
    let fl' := <[(at_ - 1)%nat := Range (r_base prev) (r_len prev +w (n +w r_len cur))]> fl in
    (0, pa_absorb_tail (pa_remove at_ (set_list fl' (pa_nfree s) s)))
  else if join_prev then
    let fl' := <[(at_ - 1)%nat := Range (r_base prev) (r_len prev +w n)]> fl in
    (0, pa_absorb_tail (set_list fl' (pa_nfree s) s))
  else if join_next then
    let fl' := <[at_ := Range p (r_len cur +w n)]> fl in
    (0, pa_absorb_tail (set_list fl' (pa_nfree s) s))
  else if (pa_nfree s <? PA_MAX_FREE)%nat then
    (0, pa_absorb_tail (pa_insert at_ p n s))
  else
    (-1, set_lost (pa_lost_bytes s +w n) s).

Definition pa_free (p len : Z) (s : pa_state) : Z * pa_state :=
  let n := pa_round len in
  if (p =? 0) || (n =? 0) then (0, s)
  else if (p <? pa_base s) || (pa_end s <? (p +w n)) || ((p +w n) <? p) then (-1, s)
  else
    let s := set_live (if n <=? pa_live s then pa_live s -w n else 0) s in
    if (p +w n) =? pa_next s then (0, pa_absorb_tail (set_next p s))
    else pa_give_back p n s.

(** [(live, peak, avail, largest, lost, holes)] *)
Definition pa_stats (s : pa_state) : Z * Z * Z * Z * Z * nat :=
  let tail := pa_end s -w pa_next s in
  let holes := take (pa_nfree s) (pa_free_list s) in
  let sum := fold_left (fun acc r => acc +w r_len r) holes tail in
  let big := fold_left (fun acc r => if acc <? r_len r then r_len r else acc) holes tail in
  (pa_live s, pa_peak s, sum, big, pa_lost_bytes s, pa_nfree s).

(** ** What the state stands for *)

Definition pa_holes (s : pa_state) : list range := take (pa_nfree s) (pa_free_list s).

Definition page_aligned (z : Z) : Prop := z mod PA_PAGE = 0.

(** ** The array loops as list operations *)

Lemma length_shift_up fl i at_ : length (shift_up fl i at_) = length fl.
Proof.
  revert fl. induction i as [|i IH]; intros fl; simpl; [done|].
  case_match; [|done]. by rewrite IH, length_insert.
Qed.

Lemma shift_up_lookup fl i at_ k :
  (i < length fl)%nat ->
  shift_up fl i at_ !! k =
    if decide (at_ < k <= i)%nat then fl !! (k - 1)%nat else fl !! k.
Proof.
  revert fl. induction i as [|i IH]; intros fl Hi; simpl.
  { rewrite decide_False by lia. done. }
  destruct (Nat.ltb_spec at_ (S i)) as [Ha|Ha].
  2:{ rewrite decide_False by lia. done. }
  rewrite IH by (rewrite length_insert; lia).
  destruct (decide (k = S i)) as [->|Hk].
  - rewrite (decide_False (P := (at_ < S i <= i)%nat)), (decide_True (P := (at_ < S i <= S i)%nat)) by lia.
    rewrite list_lookup_insert_eq by lia.
    replace (S i - 1)%nat with i by lia. symmetry. apply lookup_total_some. lia.
  - repeat case_decide; try lia; by rewrite list_lookup_insert_ne by lia.
Qed.

Lemma length_shift_down fl i k : length (shift_down fl i k) = length fl.
Proof.
  revert fl i. induction k as [|k IH]; intros fl i; simpl; [done|].
  by rewrite IH, length_insert.
Qed.

Lemma shift_down_lookup fl i k j :
  (i + k < length fl)%nat ->
  shift_down fl i k !! j =
    if decide (i <= j < i + k)%nat then fl !! (S j) else fl !! j.
Proof.
  revert fl i. induction k as [|k IH]; intros fl i Hi; simpl.
  { rewrite decide_False by lia. done. }
  rewrite IH by (rewrite length_insert; lia).
  destruct (decide (j = i)) as [->|Hj].
  - rewrite (decide_False (P := (S i <= i < S i + k)%nat)), decide_True by lia.
    rewrite list_lookup_insert_eq by lia. symmetry. apply lookup_total_some. lia.
  - repeat case_decide; try lia; by rewrite list_lookup_insert_ne by lia.
Qed.

Lemma holes_insert (fl : list range) n at_ r :
  (at_ <= n)%nat -> (n < length fl)%nat ->
  take (S n) (<[at_ := r]> (shift_up fl n at_)) =
    take at_ (take n fl) ++ r :: drop at_ (take n fl).
Proof.
  intros Ha Hn. apply list_eq. intros k.
  destruct (decide (k <= n)%nat) as [Hk|Hk].
  2:{ rewrite lookup_take_ge by lia. symmetry. apply lookup_ge_None.
      rewrite length_app; cbn [length]; rewrite length_take, length_drop, length_take. lia. }
  rewrite lookup_take_lt by lia.
  destruct (Nat.lt_trichotomy k at_) as [Hka|[->|Hka]].
  - rewrite list_lookup_insert_ne by lia. rewrite shift_up_lookup by lia.
    rewrite decide_False by lia.
    rewrite lookup_app_l by (rewrite !length_take; lia).
    by rewrite !lookup_take_lt by lia.
  - rewrite list_lookup_insert_eq by (rewrite length_shift_up; lia).
    rewrite lookup_app_r by (rewrite !length_take; lia).
    rewrite !length_take. replace (at_ - _)%nat with O by lia. done.
  - rewrite list_lookup_insert_ne by lia. rewrite shift_up_lookup by lia.
    rewrite decide_True by lia.
    rewrite lookup_app_r by (rewrite !length_take; lia). rewrite !length_take.
    replace (k - at_ `min` (n `min` length fl))%nat with (S (k - 1 - at_)) by lia. simpl.
    rewrite lookup_drop, lookup_take_lt by lia. f_equal. lia.
Qed.

Lemma holes_remove (fl : list range) n at_ :
  (at_ < n)%nat -> (n <= length fl)%nat ->
  take (n - 1) (shift_down fl at_ (n - 1 - at_)) =
    take at_ (take n fl) ++ drop (S at_) (take n fl).
Proof.
  intros Ha Hn. apply list_eq. intros k.
  destruct (decide (k < n - 1)%nat) as [Hk|Hk].
  2:{ rewrite lookup_take_ge by lia. symmetry. apply lookup_ge_None.
      rewrite length_app, length_take, length_drop, length_take. lia. }
  rewrite lookup_take_lt by lia. rewrite shift_down_lookup by lia.
  destruct (decide (k < at_)%nat) as [Hka|Hka].
  - rewrite decide_False by lia.
    rewrite lookup_app_l by (rewrite !length_take; lia).
    by rewrite !lookup_take_lt by lia.
  - rewrite decide_True by lia.
    rewrite lookup_app_r by (rewrite !length_take; lia). rewrite !length_take, lookup_drop.
    rewrite lookup_take_lt by lia. f_equal. lia.
Qed.

Lemma holes_update (fl : list range) n at_ r :
  (at_ < n)%nat -> (n <= length fl)%nat ->
  take n (<[at_ := r]> fl) = take at_ (take n fl) ++ r :: drop (S at_) (take n fl).
Proof.
  intros Ha Hn. rewrite take_insert_lt by lia.
  rewrite <- insert_take_drop; [done|]. rewrite length_take. lia.
Qed.

Lemma holes_lookup_total (fl : list range) n i :
  (i < n)%nat -> (n <= length fl)%nat -> take n fl !! i = Some (fl !!! i).
Proof. intros Hi Hn. rewrite lookup_take_lt by lia. apply lookup_total_some. lia. Qed.

Lemma holes_split (fl : list range) n i :
  (i < n)%nat -> (n <= length fl)%nat ->
  take n fl = take i (take n fl) ++ (fl !!! i) :: drop (S i) (take n fl).
Proof. intros Hi Hn. symmetry. apply take_drop_middle. by apply holes_lookup_total. Qed.

(** ** Rounding *)

Lemma pa_round_unfold n : pa_round n = wrap64 (n + 4095) / 4096 * 4096.
Proof.
  unfold pa_round, not64, PA_PAGE.
  change (2 ^ 64 - 1 - (4096 - 1)) with (2 ^ 64 - 2 ^ 12).
  rewrite land_align by (try lia; apply wrap64_bound).
  change (2 ^ 12) with 4096. do 2 f_equal.
  unfold wrap. rewrite Zminus_mod_idemp_l. f_equal. lia.
Qed.

Lemma pa_round_eq n :
  0 <= n <= 2 ^ 64 - PA_PAGE -> pa_round n = (n + 4095) / 4096 * 4096.
Proof. unfold PA_PAGE. intros Hn. rewrite pa_round_unfold. by nowrap. Qed.

Lemma pa_round_aligned n : page_aligned (pa_round n).
Proof. unfold page_aligned, PA_PAGE. rewrite pa_round_unfold. apply Z.mod_mul. lia. Qed.

Lemma pa_round_bound n : 0 <= pa_round n <= 2 ^ 64 - PA_PAGE.
Proof. rewrite pa_round_unfold. pose proof (wrap64_bound (n + 4095)). unfold PA_PAGE. zdiv. Qed.

Lemma pa_round_ge n : 0 <= n <= 2 ^ 64 - PA_PAGE -> n <= pa_round n < n + PA_PAGE.
Proof. intros Hn. rewrite pa_round_eq by done. unfold PA_PAGE in *. zdiv. Qed.

(** A request too close to the top of the address space rounds to nothing. *)
Lemma pa_round_overflow n : 2 ^ 64 - PA_PAGE < n < 2 ^ 64 -> pa_round n = 0.
Proof.
  unfold PA_PAGE. intros Hn. rewrite pa_round_unfold. unfold wrap.
  replace (n + 4095) with (n + 4095 - 2 ^ 64 + 1 * 2 ^ 64) by lia.
  rewrite Z_mod_plus_full, Z.mod_small by lia. zdiv.
Qed.

Lemma page_aligned_0 z : page_aligned z -> 0 <= z -> z = 0 \/ PA_PAGE <= z.
Proof. unfold page_aligned, PA_PAGE. intros. zdiv. Qed.

(** ** The invariant *)

Definition hole_ok (lo hi : Z) (r : range) : Prop :=
  lo <= r_base r /\ 0 < r_len r /\ r_end r < hi /\
  page_aligned (r_base r) /\ page_aligned (r_len r).

(** Neighbouring holes do not even touch: they would have been joined. *)
Definition apart (r1 r2 : range) : Prop := r_end r1 < r_base r2.

Record pa_wf (s : pa_state) : Prop := {
  wf_len : length (pa_free_list s) = PA_MAX_FREE;
  wf_nfree : (pa_nfree s <= PA_MAX_FREE)%nat;
  wf_region : 0 < pa_base s /\ pa_base s <= pa_next s /\ pa_next s <= pa_end s /\ pa_end s < 2 ^ 64;
  wf_base : page_aligned (pa_base s);
  wf_next : page_aligned (pa_next s);
  wf_holes : Forall (hole_ok (pa_base s) (pa_next s)) (pa_holes s);
  wf_apart : StronglySorted apart (pa_holes s)
}.

(** A range a client holds, or one the allocator counted as lost. *)
Definition block_ok (lo hi : Z) (r : range) : Prop :=
  lo <= r_base r /\ 0 < r_len r /\ r_end r <= hi /\
  page_aligned (r_base r) /\ page_aligned (r_len r).

Record pa_inv (s : pa_state) (live lost : list range) : Prop := {
  inv_wf : pa_wf s;
  inv_blocks : Forall (block_ok (pa_base s) (pa_next s)) (live ++ lost);
  inv_cov : forall x, cov (pa_holes s ++ live ++ lost) x =
              if (pa_base s <=? x) && (x <? pa_next s) then 1 else 0;
  inv_total : total (pa_holes s ++ live ++ lost) = pa_next s - pa_base s;
  inv_live : pa_live s = total live;
  inv_peak : pa_live s <= pa_peak s;
  inv_lost : pa_lost_bytes s = total lost
}.

Lemma block_ok_mono lo hi hi' r : hi <= hi' -> block_ok lo hi r -> block_ok lo hi' r.
Proof. unfold block_ok. intuition lia. Qed.

Lemma hole_ok_mono lo hi hi' r : hi <= hi' -> hole_ok lo hi r -> hole_ok lo hi' r.
Proof. unfold hole_ok. intuition lia. Qed.

Lemma Forall_hole_mono lo hi hi' l :
  hi <= hi' -> Forall (hole_ok lo hi) l -> Forall (hole_ok lo hi') l.
Proof. intros H Hl. eapply Forall_impl; [exact Hl|]. intros. by eapply hole_ok_mono. Qed.

Lemma Forall_block_mono lo hi hi' l :
  hi <= hi' -> Forall (block_ok lo hi) l -> Forall (block_ok lo hi') l.
Proof. intros H Hl. eapply Forall_impl; [exact Hl|]. intros. by eapply block_ok_mono. Qed.

#[export] Instance block_ok_perm lo hi :
  Proper ((≡ₚ) ==> iff) (Forall (block_ok lo hi)).
Proof. intros l1 l2 H. by rewrite H. Qed.

Lemma page_aligned_add a b : page_aligned a -> page_aligned b -> page_aligned (a + b).
Proof. unfold page_aligned, PA_PAGE. intros. zdiv. Qed.

Lemma page_aligned_sub a b : page_aligned a -> page_aligned b -> page_aligned (a - b).
Proof. unfold page_aligned, PA_PAGE. intros. zdiv. Qed.

#[export] Hint Resolve page_aligned_add page_aligned_sub pa_round_aligned : words.

Lemma sorted_app_inv {A} (R : A -> A -> Prop) l1 l2 :
  StronglySorted R (l1 ++ l2) ->
  StronglySorted R l1 /\ StronglySorted R l2 /\
  (forall x y, x ∈ l1 -> y ∈ l2 -> R x y).
Proof.
  induction l1 as [|a l1 IH]; simpl; intros H.
  { split; [constructor|]. split; [done|]. intros x y Hx. inversion Hx. }
  apply StronglySorted_inv in H as [H Ha]. apply IH in H as (H1 & H2 & H3).
  apply Forall_app in Ha as [Ha1 Ha2].
  split; [by constructor|]. split; [done|].
  intros x y Hx Hy. apply elem_of_cons in Hx as [->|Hx]; [|eauto].
  by eapply Forall_forall in Ha2.
Qed.

Lemma sorted_app {A} (R : A -> A -> Prop) l1 l2 :
  StronglySorted R l1 -> StronglySorted R l2 ->
  (forall x y, x ∈ l1 -> y ∈ l2 -> R x y) -> StronglySorted R (l1 ++ l2).
Proof.
  induction 1 as [|a l1 Hs IH Ha]; simpl; intros H2 H3; [done|].
  constructor.
  - apply IH; [done|]. intros. apply H3; [by right|done].
  - apply Forall_app. split; [done|]. apply Forall_forall. intros. apply H3; [left|done].
Qed.

(** Replacing one hole by part of itself keeps the order. *)
Lemma sorted_shrink l1 r l2 l :
  StronglySorted apart (l1 ++ r :: l2) ->
  (forall r', r' ∈ l -> r_base r <= r_base r' /\ r_end r' <= r_end r) ->
  (length l <= 1)%nat ->
  StronglySorted apart (l1 ++ l ++ l2).
Proof.
  intros H Hl Hlen. apply sorted_app_inv in H as (H1 & H2 & H3).
  apply StronglySorted_inv in H2 as [H2 Hr]. rewrite Forall_forall in Hr.
  apply sorted_app; [done| |].
  - apply sorted_app; [|done|].
    + destruct l as [|a [|b l]]; simpl in Hlen; try lia; repeat constructor.
    + intros x y Hx Hy. apply Hl in Hx. apply Hr in Hy. unfold apart in *. lia.
  - intros x y Hx Hy. apply elem_of_app in Hy as [Hy|Hy].
    + apply Hl in Hy. specialize (H3 x r Hx ltac:(left)). unfold apart in *. lia.
    + apply H3; [done|by right].
Qed.

(** ** Allocation *)

Lemma best_scan_spec fl need i k best :
  let P b := (b < i)%nat /\ need <= r_len (fl !!! b) /\
     forall j, (j < i)%nat -> need <= r_len (fl !!! j) -> r_len (fl !!! b) <= r_len (fl !!! j) in
  match best with
  | Some b => P b
  | None => forall j, (j < i)%nat -> r_len (fl !!! j) < need
  end ->
  match best_scan fl need i k best with
  | Some b => (b < i + k)%nat /\ need <= r_len (fl !!! b) /\
     forall j, (j < i + k)%nat -> need <= r_len (fl !!! j) -> r_len (fl !!! b) <= r_len (fl !!! j)
  | None => forall j, (j < i + k)%nat -> r_len (fl !!! j) < need
  end.
Proof.
  revert i best. induction k as [|k IH]; intros i best P Hb; simpl.
  { rewrite Nat.add_0_r. exact Hb. }
  replace (i + S k)%nat with (S i + k)%nat by lia.
  assert (Hcase : forall j, (j < S i)%nat -> (j < i)%nat \/ j = i) by lia.
  destruct (Z.ltb_spec (r_len (fl !!! i)) need) as [Hlt|Hge].
  - apply IH. destruct best as [b|].
    + destruct Hb as (Hb1 & Hb2 & Hb3). repeat split; [lia|lia|].
      intros j Hj Hn. destruct (Hcase j Hj) as [?| ->]; [by apply Hb3|lia].
    + intros j Hj. destruct (Hcase j Hj) as [?| ->]; [by apply Hb|lia].
  - apply IH. destruct best as [b|].
    + destruct Hb as (Hb1 & Hb2 & Hb3).
      destruct (Z.ltb_spec (r_len (fl !!! i)) (r_len (fl !!! b))).
      * repeat split; [lia|lia|].
        intros j Hj Hn. destruct (Hcase j Hj) as [H'| ->]; [|lia].
        specialize (Hb3 j H' Hn). lia.
      * repeat split; [lia|lia|].
        intros j Hj Hn. destruct (Hcase j Hj) as [H'| ->]; [by apply Hb3|lia].
    + repeat split; [lia|lia|].
      intros j Hj Hn. destruct (Hcase j Hj) as [H'| ->]; [|lia].
      specialize (Hb j H'). lia.
Qed.

(** What is left of a hole once [need] bytes are cut off its front. *)
Definition leftover (r : range) (need : Z) : list range :=
  if r_len r =? need then [] else [Range (r_base r + need) (r_len r - need)].

Lemma leftover_cov r need x :
  0 < need <= r_len r -> cov (leftover r need) x + hit x (Range (r_base r) need) = hit x r.
Proof.
  intros H. unfold leftover, cov. destruct (Z.eqb_spec (r_len r) need) as [E|E]; simpl.
  - unfold hit, r_end. simpl. by rewrite E.
  - unfold hit, r_end. simpl. zcases; simpl; lia.
Qed.

Lemma leftover_total r need : total (leftover r need) + need = r_len r.
Proof. unfold leftover, total. destruct (Z.eqb_spec (r_len r) need); simpl; lia. Qed.

(** Which holes an allocation leaves: the chosen one is cut, the others stay. *)
Lemma alloc_holes s need best :
  pa_wf s -> (best < pa_nfree s)%nat ->
  0 < need <= r_len (pa_free_list s !!! best) ->
  let r := pa_free_list s !!! best in
  let s' := if r_len r =? need then pa_remove best s
            else set_list (<[best := Range (wrap64 (r_base r + need)) (wrap64 (r_len r - need))]>
                             (pa_free_list s)) (pa_nfree s) s in
  pa_holes s' = take best (pa_holes s) ++ leftover r need ++ drop (S best) (pa_holes s) /\
  length (pa_free_list s') = PA_MAX_FREE /\ (pa_nfree s' <= pa_nfree s)%nat /\
  pa_next s' = pa_next s /\ pa_base s' = pa_base s /\ pa_end s' = pa_end s /\
  pa_live s' = pa_live s /\ pa_peak s' = pa_peak s /\ pa_lost_bytes s' = pa_lost_bytes s.
Proof.
  intros Hwf Hb Hneed r s'. destruct Hwf as [Hlen Hn Hreg _ _ Hh _].
  assert (Hr : hole_ok (pa_base s) (pa_next s) r).
  { rewrite Forall_forall in Hh. apply Hh, list_elem_of_lookup. exists best.
    apply holes_lookup_total; lia. }
  destruct Hr as (Hr1 & Hr2 & Hr3 & _). unfold r_end in Hr3. fold r in Hneed.
  subst s'. unfold leftover. destruct (Z.eqb_spec (r_len r) need) as [He|He].
  - unfold pa_remove, pa_holes; simpl. rewrite length_shift_down.
    repeat split; try done; [|lia]. apply holes_remove; lia.
  - rewrite !wrap64_small by lia. unfold pa_holes; simpl. rewrite length_insert.
    repeat split; try done. apply holes_update; lia.
Qed.

Lemma total_nonneg lo hi l : Forall (block_ok lo hi) l -> 0 <= total l.
Proof. intros H. apply sum_with_nonneg. eapply Forall_impl; [exact H|]. unfold block_ok. intros; lia. Qed.

Lemma total_holes_nonneg lo hi l : Forall (hole_ok lo hi) l -> 0 <= total l.
Proof. intros H. apply sum_with_nonneg. eapply Forall_impl; [exact H|]. unfold hole_ok. intros; lia. Qed.

Lemma inv_live_bound s live lost :
  pa_inv s live lost -> 0 <= pa_live s /\ 0 <= pa_lost_bytes s /\
  pa_live s + pa_lost_bytes s + total (pa_holes s) = pa_next s - pa_base s /\
  0 <= total (pa_holes s).
Proof.
  intros [Hwf Hb _ Ht Hl _ Hlo]. apply Forall_app in Hb as [Hb1 Hb2].
  rewrite !total_app in Ht. rewrite Hl, Hlo.
  pose proof (total_nonneg _ _ _ Hb1). pose proof (total_nonneg _ _ _ Hb2).
  pose proof (total_holes_nonneg _ _ _ (wf_holes s Hwf)). lia.
Qed.

(** The state the bookkeeping of a successful allocation leaves. *)
Lemma pa_bump_fields need s :
  0 <= pa_live s -> 0 <= need -> pa_live s + need < 2 ^ 64 ->
  let s' := pa_bump need s in
  pa_free_list s' = pa_free_list s /\ pa_nfree s' = pa_nfree s /\
  pa_base s' = pa_base s /\ pa_next s' = pa_next s /\ pa_end s' = pa_end s /\
  pa_lost_bytes s' = pa_lost_bytes s /\
  pa_live s' = pa_live s + need /\ pa_peak s' = Z.max (pa_peak s) (pa_live s + need).
Proof.
  intros H1 H2 H3 s'. subst s'. unfold pa_bump. simpl. nowrap.
  destruct (Z.ltb_spec (pa_peak s) (pa_live s + need)); simpl; repeat split; lia.
Qed.

Inductive alloc_result (s : pa_state) (need : Z) : Z * pa_state -> Prop :=
| alloc_zero : need = 0 -> alloc_result s need (0, s)
| alloc_full :
    0 < need -> (forall r, r ∈ pa_holes s -> r_len r < need) ->
    pa_end s - pa_next s < need -> alloc_result s need (0, s)
| alloc_hole l1 r l2 s' :
    0 < need -> pa_holes s = l1 ++ r :: l2 -> need <= r_len r ->
    (forall r', r' ∈ pa_holes s -> need <= r_len r' -> r_len r <= r_len r') ->
    pa_holes s' = l1 ++ leftover r need ++ l2 ->
    length (pa_free_list s') = PA_MAX_FREE -> (pa_nfree s' <= pa_nfree s)%nat ->
    pa_next s' = pa_next s -> pa_base s' = pa_base s -> pa_end s' = pa_end s ->
    pa_lost_bytes s' = pa_lost_bytes s -> pa_live s' = pa_live s + need ->
    pa_peak s' = Z.max (pa_peak s) (pa_live s + need) ->
    alloc_result s need (r_base r, s')
| alloc_tail s' :
    0 < need -> (forall r, r ∈ pa_holes s -> r_len r < need) ->
    need <= pa_end s - pa_next s ->
    pa_holes s' = pa_holes s ->
    length (pa_free_list s') = PA_MAX_FREE -> (pa_nfree s' <= pa_nfree s)%nat ->
    pa_next s' = pa_next s + need -> pa_base s' = pa_base s -> pa_end s' = pa_end s ->
    pa_lost_bytes s' = pa_lost_bytes s -> pa_live s' = pa_live s + need ->
    pa_peak s' = Z.max (pa_peak s) (pa_live s + need) ->
    alloc_result s need (pa_next s, s').

Lemma pa_alloc_result s live lost want :
  pa_inv s live lost -> alloc_result s (pa_round want) (pa_alloc want s).
Proof.
  intros Hinv. pose proof (inv_live_bound _ _ _ Hinv) as (Hl0 & Hlost0 & Hsum & Hh0).
  pose proof (inv_wf _ _ _ Hinv) as Hwf. destruct (wf_region s Hwf) as (? & ? & ? & ?).
  pose proof (wf_len s Hwf) as Hlen. pose proof (wf_nfree s Hwf) as Hn.
  unfold pa_alloc. set (need := pa_round want).
  pose proof (pa_round_bound want) as Hb. fold need in Hb. unfold PA_PAGE in Hb.
  destruct (Z.eqb_spec need 0) as [E|E]; [by constructor|].
  pose proof (best_scan_spec (pa_free_list s) need 0 (pa_nfree s) None ltac:(simpl; lia)) as Hbest.
  destruct (best_scan _ _ _ _ _) as [b|] eqn:Escan; rewrite Nat.add_0_l in Hbest.
  - destruct Hbest as (Hb1 & Hb2 & Hb3).
    pose proof (alloc_holes s need b Hwf Hb1 ltac:(lia)) as Hah. cbv zeta in Hah.
    destruct Hah as (Hh & Hl' & Hn' & Hnx & Hbs & Hen & Hlv & Hpk & Hlo).
    match goal with |- context [pa_bump need ?t] => set (s1 := t) in * end.
    pose proof (holes_split (pa_free_list s) (pa_nfree s) b Hb1 ltac:(lia)) as Hsplit.
    fold (pa_holes s) in Hsplit.
    assert (r_len (pa_free_list s !!! b) <= total (pa_holes s)).
    { rewrite Hsplit, total_app. unfold total at 2. simpl. fold (total (drop (S b) (pa_holes s))).
      pose proof (wf_holes s Hwf) as Hf. rewrite Hsplit in Hf.
      apply Forall_app in Hf as [Hf1 Hf2]. apply Forall_cons in Hf2 as [_ Hf2].
      pose proof (total_holes_nonneg _ _ _ Hf1). pose proof (total_holes_nonneg _ _ _ Hf2). lia. }
    destruct (pa_bump_fields need s1 ltac:(lia) ltac:(lia) ltac:(lia))
      as (B1 & B2 & B3 & B4 & B5 & B6 & B7 & B8).
    eapply (alloc_hole _ _ (take b (pa_holes s)) _ (drop (S b) (pa_holes s))); try congruence; try lia.
    + intros r' Hr' Hlen'. apply list_elem_of_lookup in Hr' as [j Hj].
      assert (j < pa_nfree s)%nat.
      { apply lookup_lt_Some in Hj. unfold pa_holes in Hj. rewrite length_take in Hj. lia. }
      unfold pa_holes in Hj. rewrite holes_lookup_total in Hj by lia. injection Hj as <-.
      by apply Hb3.
    + unfold pa_holes at 1. rewrite B1, B2. exact Hh.
  - assert (Hall : forall r, r ∈ pa_holes s -> r_len r < need).
    { intros r Hr. apply list_elem_of_lookup in Hr as [j Hj].
      assert (j < pa_nfree s)%nat.
      { apply lookup_lt_Some in Hj. unfold pa_holes in Hj. rewrite length_take in Hj. lia. }
      unfold pa_holes in Hj. rewrite holes_lookup_total in Hj by lia. injection Hj as <-.
      by apply Hbest. }
    rewrite (wrap64_small (pa_end s - pa_next s)) by lia.
    destruct (Z.ltb_spec (pa_end s - pa_next s) need); [apply alloc_full; auto; lia|].
    rewrite (wrap64_small (pa_next s + need)) by lia.
    destruct (pa_bump_fields need (set_next (pa_next s + need) s)) as (B1 & B2 & B3 & B4 & B5 & B6 & B7 & B8);
      simpl in *; try lia.
    apply alloc_tail; try congruence; try lia; auto.
    unfold pa_holes. congruence.
Qed.

(** [r] is cut from the holes, or the tail, and handed out. *)
Lemma alloc_inv s live lost want p s' :
  pa_inv s live lost -> pa_alloc want s = (p, s') -> p <> 0 ->
  pa_inv s' (Range p (pa_round want) :: live) lost.
Proof.
  intros Hinv Hal Hp. pose proof (pa_alloc_result s live lost want Hinv) as Hres.
  rewrite Hal in Hres. pose proof (pa_round_aligned want) as Hal_need.
  set (need := pa_round want) in *.
  destruct Hinv as [Hwf Hbl Hcov Htot Hlive Hpeak Hlost].
  destruct Hwf as [Hlen Hn (R1 & R2 & R3 & R4) Hb_al Hn_al Hh Hap].
  inversion Hres as [|?|l1 r l2 s1 Hpos Hsplit Hfit _ Hh' Hl' Hn' Hnx Hbs Hen Hlo Hlv Hpk E1
                    |s1 Hpos _ Hfit Hh' Hl' Hn' Hnx Hbs Hen Hlo Hlv Hpk E1]; subst; try done.
  - rewrite Hsplit in Hh, Hap. apply Forall_app in Hh as [Hf1 Hf2].
    apply Forall_cons in Hf2 as [Hr Hf2]. destruct Hr as (Hr1 & Hr2 & Hr3 & Hr4 & Hr5).
    unfold r_end in Hr3.
    assert (Hleft : Forall (hole_ok (pa_base s) (pa_next s)) (leftover r need)).
    { unfold leftover. destruct (Z.eqb_spec (r_len r) need); constructor; [|constructor].
      unfold hole_ok, r_end. simpl. repeat split; try lia; auto with words. }
    constructor; rewrite ?Hnx, ?Hbs, ?Hen, ?Hlv, ?Hlo.
    + constructor; rewrite ?Hnx, ?Hbs, ?Hen; auto; try lia; try congruence.
      * rewrite Hh'. by rewrite !Forall_app.
      * rewrite Hh'. eapply sorted_shrink; [exact Hap| |].
        -- intros r'. unfold leftover. destruct (_ =? _) eqn:E; intros Hin.
           { inversion Hin. }
           apply list_elem_of_singleton in Hin as ->. unfold r_end. simpl. lia.
        -- unfold leftover. destruct (_ =? _); simpl; lia.
    + simpl. constructor; [|done]. unfold block_ok, r_end. simpl. repeat split; auto; lia.
    + intros x. rewrite <- Hcov, Hh', Hsplit. rewrite !cov_app, !cov_cons.
      rewrite <- (leftover_cov r need x) by lia. lia.
    + rewrite <- Htot, Hh', Hsplit. rewrite !total_app.
      change (total (r :: l2)) with (r_len r + total l2).
      change (total (Range (r_base r) need :: live)) with (need + total live).
      rewrite <- (leftover_total r need). lia.
    + change (total (Range (r_base r) need :: live)) with (need + total live). lia.
    + lia.
    + done.
  - constructor; rewrite ?Hnx, ?Hbs, ?Hen, ?Hlv, ?Hlo.
    + constructor; rewrite ?Hnx, ?Hbs, ?Hen; auto; try lia; try congruence.
      * auto with words.
      * rewrite Hh'. eapply Forall_hole_mono; [|exact Hh]. lia.
    + simpl. constructor.
      * unfold block_ok, r_end. simpl. repeat split; auto; lia.
      * eapply Forall_block_mono; [|exact Hbl]. lia.
    + intros x. rewrite Hh'. specialize (Hcov x). rewrite !cov_app in Hcov.
      rewrite !cov_app, cov_cons.
      transitivity ((if (pa_base s <=? x) && (x <? pa_next s) then 1 else 0)
                    + hit x (Range (pa_next s) need)); [lia|].
      unfold hit, r_end. simpl. zcases; simpl; lia.
    + rewrite Hh'. rewrite !total_app in Htot. rewrite !total_app.
      change (total (Range (pa_next s) need :: live)) with (need + total live). lia.
    + change (total (Range (pa_next s) need :: live)) with (need + total live). lia.
    + lia.
    + done.
Qed.

(** ** Release *)

(** The invariant while the last hole may still touch the tail. *)
Record pa_pre (s : pa_state) (live lost : list range) : Prop := {
  pre_len : length (pa_free_list s) = PA_MAX_FREE;
  pre_nfree : (pa_nfree s <= PA_MAX_FREE)%nat;
  pre_region : 0 < pa_base s /\ pa_base s <= pa_next s /\ pa_next s <= pa_end s /\ pa_end s < 2 ^ 64;
  pre_base : page_aligned (pa_base s);
  pre_next : page_aligned (pa_next s);
  pre_blocks : Forall (block_ok (pa_base s) (pa_next s)) (pa_holes s ++ live ++ lost);
  pre_apart : StronglySorted apart (pa_holes s);
  pre_cov : forall x, cov (pa_holes s ++ live ++ lost) x =
              if (pa_base s <=? x) && (x <? pa_next s) then 1 else 0;
  pre_total : total (pa_holes s ++ live ++ lost) = pa_next s - pa_base s;
  pre_live : pa_live s = total live;
  pre_peak : pa_live s <= pa_peak s;
  pre_lost : pa_lost_bytes s = total lost
}.

Lemma absorb_spec fl lo n next :
  (n <= length fl)%nat -> Forall (block_ok lo next) (take n fl) ->
  StronglySorted apart (take n fl) -> 0 < lo <= next -> next < 2 ^ 64 -> page_aligned next ->
  let '(n', next') := absorb n fl next in
  (n' <= n)%nat /\ lo <= next' <= next /\ page_aligned next' /\
  Forall (hole_ok lo next') (take n' fl) /\ StronglySorted apart (take n' fl) /\
  (forall x, cov (take n fl) x = cov (take n' fl) x + hit x (Range next' (next - next'))) /\
  total (take n fl) = total (take n' fl) + (next - next').
Proof.
  revert next. induction n as [|n IH]; intros next Hn Hf Hs Hlo Hnx Hal; cbn [absorb].
  { rewrite take_0. repeat split; auto; try lia; try constructor.
    intros x. rewrite hit_out by (unfold r_end; simpl; lia). done. }
  rewrite take_S_last in Hf, Hs by lia. set (r := fl !!! n) in *.
  apply Forall_app in Hf as [Hf Hr]. apply Forall_singleton in Hr as (Hr1 & Hr2 & Hr3 & Hr4 & Hr5).
  apply sorted_app_inv in Hs as (Hs1 & _ & Hs2).
  assert (Hbelow : forall r', r' ∈ take n fl -> r_end r' < r_base r).
  { intros r' Hr'. apply (Hs2 r' r Hr'). left. }
  assert (Hre : r_end r = r_base r + r_len r) by done.
  rewrite wrap64_small by lia.
  destruct (Z.eqb_spec (r_base r + r_len r) next) as [E|E].
  - specialize (IH (r_base r)).
    destruct (absorb n fl (r_base r)) as [n' next'].
    destruct IH as (I1 & I2 & I3 & I4 & I5 & I6 & I7); auto; try lia.
    { apply Forall_forall. intros r' Hr'. rewrite Forall_forall in Hf.
      destruct (Hf r' Hr') as (? & ? & ? & ? & ?). specialize (Hbelow r' Hr').
      unfold block_ok. repeat split; auto; lia. }
    repeat split; auto; try lia.
    + intros x. rewrite take_S_last by lia. fold r. rewrite cov_app, I6.
      unfold cov at 2. simpl. unfold hit, r_end. simpl. zcases; simpl; lia.
    + rewrite take_S_last by lia. fold r. rewrite total_app, I7.
      unfold total at 2. simpl. lia.
  - assert (Hall : Forall (hole_ok lo next) (take (S n) fl)).
    { rewrite take_S_last by lia. fold r. apply Forall_app. split.
      - apply Forall_forall. intros r' Hr'. rewrite Forall_forall in Hf.
        destruct (Hf r' Hr') as (? & ? & ? & ? & ?). specialize (Hbelow r' Hr').
        unfold hole_ok. repeat split; auto; lia.
      - apply Forall_singleton. unfold hole_ok. repeat split; auto; lia. }
    repeat split; auto; try lia.
    + rewrite take_S_last by lia. fold r. apply sorted_app; [done|repeat constructor|].
      intros x y Hx Hy. apply list_elem_of_singleton in Hy as ->. by apply Hbelow.
    + intros x. rewrite hit_out by (unfold r_end; simpl; lia). lia.
Qed.

(** A block below [hi] that does not overlap [[p, hi)] ends at or below [p]. *)
Lemma block_below l r p hi :
  (forall x, cov (Range p (hi - p) :: l) x <= 1) -> r ∈ l ->
  0 < r_len r -> r_end r <= hi -> p <= hi -> r_end r <= p.
Proof.
  intros Hc Hr Hl He Hp. destruct (decide (p = hi)) as [->|]; [done|].
  destruct (cov_disjoint [Range p (hi - p)] l (Range p (hi - p)) r) as [H|H]; simpl; try done; try lia.
  - left.
  - unfold r_end in *. simpl in *. lia.
Qed.

Lemma pa_absorb_inv s live lost : pa_pre s live lost -> pa_inv (pa_absorb_tail s) live lost.
Proof.
  intros [Hlen Hn (R1 & R2 & R3 & R4) Hb Hx Hbl Hap Hcov Htot Hlv Hpk Hlo].
  apply Forall_app in Hbl as [Hh Hbl].
  pose proof (absorb_spec (pa_free_list s) (pa_base s) (pa_nfree s) (pa_next s)) as Habs.
  unfold pa_absorb_tail.
  destruct (absorb (pa_nfree s) (pa_free_list s) (pa_next s)) as [n' next'].
  destruct Habs as (A1 & A2 & A3 & A4 & A5 & A6 & A7); auto; try lia.
  change (take (pa_nfree s) (pa_free_list s)) with (pa_holes s) in *.
  constructor; unfold pa_holes; simpl; auto.
  - constructor; unfold pa_holes; simpl; auto; try lia.
  - apply Forall_forall. intros r Hr. rewrite Forall_forall in Hbl.
    destruct (Hbl r Hr) as (? & ? & ? & ? & ?). unfold block_ok. repeat split; auto.
    apply (block_below (live ++ lost) r next' (pa_next s)); auto; [|lia].
    intros x. specialize (Hcov x). rewrite cov_app, A6 in Hcov. rewrite cov_cons.
    pose proof (cov_nonneg (take n' (pa_free_list s)) x).
    destruct (_ && _) in Hcov; lia.
  - intros x. specialize (Hcov x). rewrite cov_app, A6 in Hcov. rewrite cov_app.
    transitivity ((if (pa_base s <=? x) && (x <? pa_next s) then 1 else 0)
                  - hit x (Range next' (pa_next s - next'))); [lia|].
    unfold hit, r_end. simpl. zcases; simpl; lia.
  - rewrite total_app, A7 in Htot. rewrite total_app. lia.
Qed.

Lemma find_at_spec fl p i k :
  (forall j, (j < i)%nat -> r_base (fl !!! j) < p) ->
  let at_ := find_at fl p i k in
  (i <= at_ <= i + k)%nat /\ (forall j, (j < at_)%nat -> r_base (fl !!! j) < p) /\
  ((at_ < i + k)%nat -> p <= r_base (fl !!! at_)).
Proof.
  revert i. induction k as [|k IH]; intros i Hi; simpl; [repeat split; auto; lia|].
  destruct (Z.ltb_spec (r_base (fl !!! i)) p) as [Hlt|Hge].
  - destruct (IH (S i)) as (I1 & I2 & I3).
    { intros j Hj. destruct (decide (j = i)) as [->|]; [done|]. apply Hi. lia. }
    repeat split; auto; lia.
  - repeat split; auto; lia.
Qed.

(** The part of the invariant the byte counts have no share in. *)
Record pa_shape (s : pa_state) (blocks : list range) : Prop := {
  sh_wf : pa_wf s;
  sh_blocks : Forall (block_ok (pa_base s) (pa_next s)) blocks;
  sh_cov : forall x, cov (pa_holes s ++ blocks) x =
             if (pa_base s <=? x) && (x <? pa_next s) then 1 else 0
}.

Lemma inv_shape s live lost : pa_inv s live lost -> pa_shape s (live ++ lost).
Proof. intros []. by constructor. Qed.

Lemma shape_set_live v s blocks : pa_shape s blocks -> pa_shape (set_live v s) blocks.
Proof. intros [[? ? ? ? ? ? ?] ? ?]. constructor; [constructor|..]; done. Qed.

(** The holes around a released range: those before it and those after it. *)
Lemma give_back_split s p n blocks :
  pa_shape s (Range p n :: blocks) ->
  let at_ := find_at (pa_free_list s) p 0 (pa_nfree s) in
  (at_ <= pa_nfree s)%nat /\
  Forall (fun r => r_end r <= p) (take at_ (pa_holes s)) /\
  Forall (fun r => p + n <= r_base r) (drop at_ (pa_holes s)).
Proof.
  intros Hsh at_. pose proof (sh_wf _ _ Hsh) as Hwf.
  pose proof (sh_blocks _ _ Hsh) as Hbl. apply Forall_cons in Hbl as [(B1 & B2 & B3 & _) _].
  pose proof (wf_len s Hwf) as Hlen. pose proof (wf_nfree s Hwf) as Hn. simpl in *.
  destruct (find_at_spec (pa_free_list s) p 0 (pa_nfree s) ltac:(lia)) as (F1 & F2 & F3).
  fold at_ in F1, F2, F3. rewrite Nat.add_0_l in *.
  assert (Hdis : forall r, r ∈ pa_holes s -> r_end r <= p \/ p + n <= r_base r).
  { intros r Hr. pose proof (wf_holes s Hwf) as Hh. rewrite Forall_forall in Hh.
    destruct (Hh r Hr) as (? & ? & _).
    destruct (cov_disjoint (pa_holes s) (Range p n :: blocks) r (Range p n)) as [H'|H'];
      simpl; auto; try done.
    - intros x. rewrite (sh_cov _ _ Hsh x).
      destruct (_ && _); lia.
    - left. }
  assert (Hidx : forall j, (j < pa_nfree s)%nat -> pa_free_list s !!! j ∈ pa_holes s).
  { intros j Hj. apply list_elem_of_lookup. exists j. apply holes_lookup_total; lia. }
  pose proof (wf_apart s Hwf) as Hap.
  repeat split; [lia| |].
  - apply Forall_forall. intros r Hr. apply list_elem_of_lookup in Hr as [j Hj].
    apply lookup_take_Some in Hj as [Hj Hja]. unfold pa_holes in Hj.
    rewrite holes_lookup_total in Hj by lia. injection Hj as <-.
    specialize (F2 j Hja). destruct (Hdis _ (Hidx j ltac:(lia))); lia.
  - assert (Hge : forall r, r ∈ drop at_ (pa_holes s) -> p <= r_base r).
    { destruct (drop at_ (pa_holes s)) as [|c l2] eqn:Ed; [intros r Hr; inversion Hr|].
      assert (Hlt : (at_ < pa_nfree s)%nat).
      { apply (f_equal length) in Ed. rewrite length_drop in Ed. unfold pa_holes in Ed.
        rewrite length_take in Ed. simpl in Ed. lia. }
      assert (c = pa_free_list s !!! at_) as ->.
      { apply (f_equal (fun l => l !! O)) in Ed. rewrite lookup_drop, Nat.add_0_r in Ed.
        unfold pa_holes in Ed. rewrite holes_lookup_total in Ed by lia. by injection Ed. }
      specialize (F3 Hlt).
      rewrite <- (take_drop at_ (pa_holes s)), Ed in Hap.
      apply sorted_app_inv in Hap as (_ & Hap & _).
      apply StronglySorted_inv in Hap as [_ Hap]. rewrite Forall_forall in Hap.
      intros r Hr. apply elem_of_cons in Hr as [->|Hr]; [done|].
      specialize (Hap r Hr). unfold apart in Hap.
      pose proof (wf_holes s Hwf) as Hh. rewrite Forall_forall in Hh.
      destruct (Hh _ (Hidx at_ Hlt)) as (? & ? & _). unfold r_end in *. lia. }
    apply Forall_forall. intros r Hr.
    assert (Hin : r ∈ pa_holes s) by (eapply subseteq_drop; exact Hr).
    specialize (Hge r Hr). destruct (Hdis r Hin) as [He|]; [|done].
    pose proof (wf_holes s Hwf) as Hh. rewrite Forall_forall in Hh.
    destruct (Hh r Hin) as (? & ? & _). unfold r_end in He. lia.
Qed.

Lemma strict_before l p :
  StronglySorted apart l -> Forall (fun r => 0 < r_len r) l ->
  Forall (fun r => r_end r <= p) l ->
  (forall r, last l = Some r -> r_end r <> p) -> Forall (fun r => r_end r < p) l.
Proof.
  intros Hs Hpos Hle Hl. destruct l as [|a l _] using rev_ind; [constructor|].
  apply sorted_app_inv in Hs as (_ & _ & Hs).
  apply Forall_app in Hle as [_ Ha]. rewrite Forall_singleton in Ha.
  apply Forall_app in Hpos as [_ Hpa]. rewrite Forall_singleton in Hpa.
  specialize (Hl a (last_snoc _ _)). cbn beta in *.
  apply Forall_app. split; [|apply Forall_singleton; cbn beta; lia].
  apply Forall_forall. intros r Hr. specialize (Hs r a Hr ltac:(left)).
  unfold apart, r_end in *. lia.
Qed.

Lemma strict_after l q :
  StronglySorted apart l -> Forall (fun r => 0 < r_len r) l ->
  Forall (fun r => q <= r_base r) l ->
  (forall r, head l = Some r -> r_base r <> q) -> Forall (fun r => q < r_base r) l.
Proof.
  intros Hs Hpos Hle Hl. destruct l as [|a l]; [constructor|].
  apply StronglySorted_inv in Hs as [_ Hs]. rewrite Forall_forall in Hs.
  apply Forall_cons in Hle as [Ha _]. apply Forall_cons in Hpos as [Hpa _].
  specialize (Hl a eq_refl). cbn beta in *. constructor; [lia|].
  apply Forall_forall. intros r Hr. specialize (Hs r Hr). unfold apart, r_end in *. lia.
Qed.

Lemma sorted_middle l1 m l2 :
  StronglySorted apart l1 -> StronglySorted apart l2 -> 0 < r_len m ->
  Forall (fun r => r_end r < r_base m) l1 -> Forall (fun r => r_end m < r_base r) l2 ->
  StronglySorted apart (l1 ++ m :: l2).
Proof.
  intros H1 H2 Hm F1 F2. rewrite Forall_forall in F1.
  apply sorted_app; [done|by constructor|].
  intros x y Hx Hy. specialize (F1 x Hx). apply elem_of_cons in Hy as [->|Hy]; [done|].
  rewrite Forall_forall in F2. specialize (F2 y Hy). unfold apart, r_end in *. lia.
Qed.

(** What the holes become when [p, p + n) is put back, before the tail is
    absorbed. *)
Record merged (s : pa_state) (p n : Z) (hs : list range) : Prop := {
  mg_blocks : Forall (block_ok (pa_base s) (pa_next s)) hs;
  mg_apart : StronglySorted apart hs;
  mg_cov : forall x, cov hs x = cov (pa_holes s) x + hit x (Range p n);
  mg_total : total hs = total (pa_holes s) + n
}.

Lemma hole_block lo hi r : hole_ok lo hi r -> block_ok lo hi r.
Proof. unfold hole_ok, block_ok. intuition lia. Qed.

Lemma holes_pos lo hi l : Forall (hole_ok lo hi) l -> Forall (fun r => 0 < r_len r) l.
Proof. intros H. eapply Forall_impl; [exact H|]. by intros r (? & ? & _). Qed.

(** [m] replaces [pre] and [post], which touch the released range. *)
Lemma merge_ok s p n l1 pre post l2 m :
  pa_wf s -> pa_holes s = l1 ++ pre ++ post ++ l2 ->
  block_ok (pa_base s) (pa_next s) (Range p n) ->
  block_ok (pa_base s) (pa_next s) m ->
  Forall (fun r => r_end r < r_base m) l1 -> Forall (fun r => r_end m < r_base r) l2 ->
  (forall x, hit x m = cov pre x + hit x (Range p n) + cov post x) ->
  r_len m = total pre + n + total post ->
  merged s p n (l1 ++ m :: l2).
Proof.
  intros Hwf Hs Hb Hm F1 F2 Hhit Hlen.
  pose proof (wf_holes s Hwf) as Hh. pose proof (wf_apart s Hwf) as Hap. rewrite Hs in Hh, Hap.
  rewrite !Forall_app in Hh. destruct Hh as (Hh1 & _ & _ & Hh2).
  apply sorted_app_inv in Hap as (S1 & S2 & _).
  apply sorted_app_inv in S2 as (_ & S2 & _). apply sorted_app_inv in S2 as (_ & S2 & _).
  constructor.
  - apply Forall_app. split; [|constructor; [done|]]; (eapply Forall_impl; [eassumption|apply hole_block]).
  - apply sorted_middle; auto. destruct Hm as (? & ? & _). done.
  - intros x. rewrite Hs, !cov_app, cov_cons, Hhit. lia.
  - rewrite Hs, !total_app. change (total (m :: l2)) with (r_len m + total l2). lia.
Qed.

Inductive give_result (s : pa_state) (p n : Z) : Z * pa_state -> Prop :=
| give_merge s1 :
    merged s p n (pa_holes s1) -> length (pa_free_list s1) = PA_MAX_FREE ->
    (pa_nfree s1 <= PA_MAX_FREE)%nat ->
    pa_base s1 = pa_base s -> pa_next s1 = pa_next s -> pa_end s1 = pa_end s ->
    pa_live s1 = pa_live s -> pa_peak s1 = pa_peak s -> pa_lost_bytes s1 = pa_lost_bytes s ->
    give_result s p n (0, pa_absorb_tail s1)
| give_lost :
    pa_nfree s = PA_MAX_FREE ->
    give_result s p n (-1, set_lost (wrap64 (pa_lost_bytes s + n)) s).

(** The four ways a range goes back, for one state and one range whose place
    among the holes is [at_]. *)
Section give_back.
Context (s : pa_state) (p n : Z) (at_ : nat).
Context (Hwf : pa_wf s) (Hblk : block_ok (pa_base s) (pa_next s) (Range p n)).
Context (Hat : (at_ <= pa_nfree s)%nat).
Context (Hbefore : Forall (fun r => r_end r <= p) (take at_ (pa_holes s))).
Context (Hafter : Forall (fun r => p + n <= r_base r) (drop at_ (pa_holes s))).

Let fl := pa_free_list s.
Let prev := fl !!! (at_ - 1)%nat.
Let cur := fl !!! at_.
Let before := take at_ (pa_holes s).
Let after := drop at_ (pa_holes s).

Lemma give_bounds :
  0 < pa_base s <= p /\ 0 < n /\ p + n <= pa_next s /\ pa_next s < 2 ^ 64 /\
  page_aligned p /\ page_aligned n /\ length (pa_free_list s) = PA_MAX_FREE /\ (pa_nfree s <= PA_MAX_FREE)%nat.
Proof.
  destruct (wf_region s Hwf) as (R1 & R2 & R3 & R4). pose proof (wf_len s Hwf).
  pose proof (wf_nfree s Hwf). destruct Hblk as (K1 & K2 & K3 & K4 & K5).
  unfold r_end in K3. simpl in *. repeat split; auto; lia.
Qed.

Lemma before_ok :
  Forall (hole_ok (pa_base s) (pa_next s)) before /\ StronglySorted apart before /\
  Forall (hole_ok (pa_base s) (pa_next s)) after /\ StronglySorted apart after.
Proof.
  pose proof (wf_holes s Hwf) as Hh. pose proof (wf_apart s Hwf) as Hap.
  rewrite <- (take_drop at_ (pa_holes s)) in Hh, Hap.
  apply Forall_app in Hh as [Hh1 Hh2]. by apply sorted_app_inv in Hap as (Hs1 & Hs2 & _).
Qed.

Lemma before_snoc : (0 < at_)%nat ->
  before = take (at_ - 1) (pa_holes s) ++ [prev] /\ hole_ok (pa_base s) (pa_next s) prev /\
  Forall (fun r => r_end r < r_base prev) (take (at_ - 1) (pa_holes s)).
Proof.
  intros H. pose proof give_bounds as (_ & _ & _ & _ & _ & _ & Hlen & Hn).
  assert (Heq : before = take (at_ - 1) (pa_holes s) ++ [prev]).
  { unfold before. replace at_ with (S (at_ - 1)) at 1 by lia.
    apply take_S_r. apply holes_lookup_total; lia. }
  destruct before_ok as (Hh1 & Hs1 & _). rewrite Heq in Hh1, Hs1.
  apply Forall_app in Hh1 as [_ Hh1]. rewrite Forall_singleton in Hh1.
  apply sorted_app_inv in Hs1 as (_ & _ & Hs1). split; [done|]. split; [done|].
  apply Forall_forall. intros r Hr. apply (Hs1 r prev Hr). left.
Qed.

Lemma after_cons : (at_ < pa_nfree s)%nat ->
  after = cur :: drop (S at_) (pa_holes s) /\ hole_ok (pa_base s) (pa_next s) cur /\
  Forall (fun r => r_end cur < r_base r) (drop (S at_) (pa_holes s)).
Proof.
  intros H. pose proof give_bounds as (_ & _ & _ & _ & _ & _ & Hlen & Hn).
  assert (Heq : after = cur :: drop (S at_) (pa_holes s)).
  { apply drop_S. apply holes_lookup_total; lia. }
  destruct before_ok as (_ & _ & Hh2 & Hs2). rewrite Heq in Hh2, Hs2.
  apply Forall_cons in Hh2 as [Hh2 _]. by apply StronglySorted_inv in Hs2 as [_ Hs2].
Qed.

(** Without a neighbour on that side, the holes there do not touch. *)
Lemma before_strict :
  ((0 < at_)%nat -> r_end prev <> p) -> Forall (fun r => r_end r < p) before.
Proof.
  intros H. destruct before_ok as (Hh1 & Hs1 & _).
  apply strict_before; auto; [by eapply holes_pos|].
  intros r Hr. destruct (decide (0 < at_)%nat) as [Hpos|Hz].
  - destruct (before_snoc Hpos) as (Heq & _). rewrite Heq, last_snoc in Hr.
    injection Hr as <-. by apply H.
  - unfold before in Hr. replace at_ with O in Hr by lia. by rewrite take_0 in Hr.
Qed.

Lemma after_strict :
  ((at_ < pa_nfree s)%nat -> r_base cur <> p + n) -> Forall (fun r => p + n < r_base r) after.
Proof.
  intros H. destruct before_ok as (_ & _ & Hh2 & Hs2).
  apply strict_after; auto; [by eapply holes_pos|].
  intros r Hr. destruct (decide (at_ < pa_nfree s)%nat) as [Hpos|Hz].
  - destruct (after_cons Hpos) as (Heq & _). rewrite Heq in Hr.
    injection Hr as <-. by apply H.
  - unfold after in Hr. rewrite drop_ge in Hr; [done|].
    unfold pa_holes. rewrite length_take. lia.
Qed.

Lemma holes_before_after : pa_holes s = before ++ after.
Proof. symmetry. apply take_drop. Qed.

Lemma merge_both :
  (0 < at_)%nat -> (at_ < pa_nfree s)%nat -> r_end prev = p -> p + n = r_base cur ->
  merged s p n (take (at_ - 1) (pa_holes s) ++
                Range (r_base prev) (r_len prev + (n + r_len cur)) :: drop (S at_) (pa_holes s)).
Proof.
  intros H1 H2 E1 E2. pose proof give_bounds as (G1 & G2 & G3 & G4 & G5 & G6 & _).
  destruct (before_snoc H1) as (B1 & (B2 & B3 & B4 & B5 & B6) & B7).
  destruct (after_cons H2) as (A1 & (A2 & A3 & A4 & A5 & A6) & A7).
  unfold r_end in E1, A4.
  apply (merge_ok s p n _ [prev] [cur]); auto.
  - rewrite holes_before_after at 1. rewrite B1, A1, <- !app_assoc. done.
  - unfold block_ok, r_end. simpl. repeat split; auto with words; lia.
  - simpl. eapply Forall_impl; [exact A7|]. unfold r_end. simpl. intros; lia.
  - intros x. unfold cov, hit, r_end. simpl. zcases; simpl; lia.
  - unfold total. simpl. lia.
Qed.

Lemma merge_prev :
  (0 < at_)%nat -> r_end prev = p -> ((at_ < pa_nfree s)%nat -> r_base cur <> p + n) ->
  merged s p n (take (at_ - 1) (pa_holes s) ++ Range (r_base prev) (r_len prev + n) :: after).
Proof.
  intros H1 E1 Hno. pose proof give_bounds as (G1 & G2 & G3 & G4 & G5 & G6 & _).
  destruct (before_snoc H1) as (B1 & (B2 & B3 & B4 & B5 & B6) & B7). unfold r_end in E1.
  apply (merge_ok s p n _ [prev] []); auto.
  - rewrite holes_before_after at 1. rewrite B1, <- !app_assoc. done.
  - unfold block_ok, r_end. simpl. repeat split; auto with words; lia.
  - eapply Forall_impl; [exact (after_strict Hno)|]. unfold r_end. simpl. intros; lia.
  - intros x. unfold cov, hit, r_end. simpl. zcases; simpl; lia.
  - unfold total. simpl. lia.
Qed.

Lemma merge_next :
  (at_ < pa_nfree s)%nat -> p + n = r_base cur -> ((0 < at_)%nat -> r_end prev <> p) ->
  merged s p n (before ++ Range p (r_len cur + n) :: drop (S at_) (pa_holes s)).
Proof.
  intros H2 E2 Hno. pose proof give_bounds as (G1 & G2 & G3 & G4 & G5 & G6 & _).
  destruct (after_cons H2) as (A1 & (A2 & A3 & A4 & A5 & A6) & A7). unfold r_end in A4.
  apply (merge_ok s p n _ [] [cur]); auto.
  - rewrite holes_before_after at 1. rewrite A1. done.
  - unfold block_ok, r_end. simpl. repeat split; auto with words; lia.
  - exact (before_strict Hno).
  - simpl. eapply Forall_impl; [exact A7|]. unfold r_end. simpl. intros; lia.
  - intros x. unfold cov, hit, r_end. simpl. zcases; simpl; lia.
  - unfold total. simpl. lia.
Qed.

Lemma merge_none :
  ((0 < at_)%nat -> r_end prev <> p) -> ((at_ < pa_nfree s)%nat -> r_base cur <> p + n) ->
  merged s p n (before ++ Range p n :: after).
Proof.
  intros Hno1 Hno2. pose proof give_bounds as (G1 & G2 & G3 & G4 & G5 & G6 & _).
  apply (merge_ok s p n _ [] []); auto.
  - apply holes_before_after.
  - exact (before_strict Hno1).
  - exact (after_strict Hno2).
  - intros x. unfold cov. simpl. lia.
  - unfold total. simpl. lia.
Qed.
End give_back.


Lemma holes_join (fl : list range) n at_ m :
  (0 < at_)%nat -> (at_ < n)%nat -> (n <= length fl)%nat ->
  take (n - 1) (shift_down (<[(at_ - 1)%nat := m]> fl) at_ (n - 1 - at_)) =
    take (at_ - 1) (take n fl) ++ m :: drop (S at_) (take n fl).
Proof.
  intros H0 Ha Hn. rewrite holes_remove by (rewrite ?length_insert; lia).
  rewrite holes_update by lia. set (hs := take n fl).
  assert (length hs = n) by (unfold hs; rewrite length_take; lia).
  replace (take at_ _) with (take (at_ - 1) hs ++ [m]).
  2:{ replace at_ with (S (at_ - 1)) at 2 by lia.
      rewrite take_app_ge by (rewrite length_take; lia). rewrite length_take.
      replace (S (at_ - 1) - (at_ - 1) `min` length hs)%nat with 1%nat by lia. done. }
  rewrite <- app_assoc. f_equal. simpl. f_equal.
  rewrite drop_app_ge by (rewrite length_take; lia). rewrite length_take.
  replace (S at_ - (at_ - 1) `min` length hs)%nat with 2%nat by lia. simpl.
  rewrite drop_drop. f_equal. lia.
Qed.

Lemma pa_give_back_result s p n blocks :
  pa_shape s (Range p n :: blocks) -> give_result s p n (pa_give_back p n s).
Proof.
  intros Hsh. pose proof (sh_wf _ _ Hsh) as Hwf.
  pose proof (sh_blocks _ _ Hsh) as Hbl. apply Forall_cons in Hbl as [Hblk _].
  destruct (give_back_split s p n blocks Hsh) as (Hat & Hb & Ha).
  unfold pa_give_back.
  set (at_ := find_at (pa_free_list s) p 0 (pa_nfree s)) in *.
  pose proof (give_bounds s p n at_ Hwf Hblk Hat) as (G1 & G2 & G3 & G4 & _ & _ & Hlen & Hn).
  assert (Hprev : (0 < at_)%nat -> hole_ok (pa_base s) (pa_next s) (pa_free_list s !!! (at_ - 1)%nat)).
  { intros H. by apply (before_snoc s p n at_ Hwf Hblk Hat). }
  assert (Hcur : (at_ < pa_nfree s)%nat -> hole_ok (pa_base s) (pa_next s) (pa_free_list s !!! at_)).
  { intros H. by apply (after_cons s p n at_ Hwf Hblk Hat). }
  unfold hole_ok, r_end in Hprev, Hcur.
  rewrite (wrap64_small (p + n)) by lia.
  destruct (Nat.ltb_spec 0 at_) as [H1|H1]; [specialize (Hprev H1) as (P1 & P2 & P3 & _);
     rewrite (wrap64_small (r_base (pa_free_list s !!! (at_ - 1)%nat) + _)) by lia;
     destruct (Z.eqb_spec (r_base (pa_free_list s !!! (at_ - 1)%nat) + r_len (pa_free_list s !!! (at_ - 1)%nat)) p) as [E1|E1]|];
  (destruct (Nat.ltb_spec at_ (pa_nfree s)) as [H2|H2]; [specialize (Hcur H2) as (C1 & C2 & C3 & _);
     destruct (Z.eqb_spec (p + n) (r_base (pa_free_list s !!! at_))) as [E2|E2]|]); cbn [andb].
  all: try (rewrite (wrap64_small (n + r_len (pa_free_list s !!! at_))) by lia).
  all: try (rewrite (wrap64_small (r_len (pa_free_list s !!! at_) + n)) by lia).
  all: try (rewrite (wrap64_small (r_len (pa_free_list s !!! (at_ - 1)%nat) + _)) by lia).
  all: try (destruct (Nat.ltb_spec (pa_nfree s) PA_MAX_FREE) as [H3|H3];
            [|apply give_lost; lia]).
  all: apply give_merge; simpl; rewrite ?length_shift_down, ?length_insert, ?length_shift_up; try done; try lia.
  all: unfold pa_holes at 1; simpl.
  - rewrite holes_join by lia. apply merge_both; auto; unfold r_end; lia.
  - rewrite holes_update by lia. replace (S (at_ - 1)) with at_ by lia.
    apply merge_prev; auto; unfold r_end; intros; lia.
  - rewrite holes_update by lia. replace (S (at_ - 1)) with at_ by lia.
    apply merge_prev; auto; unfold r_end; intros; lia.
  - rewrite holes_update by lia. apply merge_next; auto; unfold r_end; intros; lia.
  - rewrite holes_insert by lia. apply merge_none; auto; unfold r_end; intros; lia.
  - rewrite holes_insert by lia. apply merge_none; auto; unfold r_end; intros; lia.
  - rewrite holes_update by lia. apply merge_next; auto; unfold r_end; intros; lia.
  - rewrite holes_insert by lia. apply merge_none; auto; unfold r_end; intros; lia.
  - rewrite holes_insert by lia. apply merge_none; auto; unfold r_end; intros; lia.
Qed.

Lemma pa_inv_perm s live live2 lost lost2 :
  live ≡ₚ live2 -> lost ≡ₚ lost2 -> pa_inv s live lost -> pa_inv s live2 lost2.
Proof.
  intros E1 E2 [? Hb Hc Ht Hl Hp Ho]. constructor; auto.
  - by rewrite <- E1, <- E2.
  - intros x. by rewrite <- E1, <- E2.
  - by rewrite <- E1, <- E2.
  - by rewrite <- E1.
  - by rewrite <- E2.
Qed.

Lemma pa_set_live_inv s p n live lost :
  pa_inv s (Range p n :: live) lost ->
  let v := if n <=? pa_live s then wrap64 (pa_live s - n) else 0 in
  v = total live /\ v <= pa_peak s.
Proof.
  intros Hinv v. pose proof (inv_live_bound _ _ _ Hinv) as (L1 & L2 & L3 & L4).
  pose proof (inv_live _ _ _ Hinv) as Hl. pose proof (inv_peak _ _ _ Hinv) as Hp.
  pose proof (inv_blocks _ _ _ Hinv) as Hb. apply Forall_cons in Hb as [(_ & Hn & _) Hb].
  apply Forall_app in Hb as [Hb _]. pose proof (total_nonneg _ _ _ Hb).
  destruct (wf_region s (inv_wf _ _ _ Hinv)) as (? & ? & ? & ?).
  change (total (Range p n :: live)) with (n + total live) in Hl. simpl in Hn.
  subst v. destruct (Z.leb_spec n (pa_live s)); [rewrite wrap64_small by lia|]; lia.
Qed.

(** A range that ends where the tail begins goes back to the tail. *)
Lemma free_tail_pre s p n live lost v :
  pa_inv s (Range p n :: live) lost -> p + n = pa_next s -> v = total live -> v <= pa_peak s ->
  pa_pre (set_next p (set_live v s)) live lost.
Proof.
  intros Hinv Hp Hv Hpk. pose proof Hinv as [Hwf Hb Hc Ht Hl _ Ho].
  pose proof Hwf as [Hlen Hn (R1 & R2 & R3 & R4) Hba Hna Hh Hap].
  apply Forall_cons in Hb as [(B1 & B2 & B3 & B4 & B5) Hb]. unfold r_end in B3. simpl in *.
  assert (Hall : Forall (block_ok (pa_base s) p) (pa_holes s ++ live ++ lost)).
  { apply Forall_forall. intros r Hr.
    assert (Hr' : block_ok (pa_base s) (pa_next s) r).
    { rewrite Forall_forall in Hh, Hb. apply elem_of_app in Hr as [Hr|Hr];
        [by apply hole_block, Hh|by apply Hb]. }
    destruct Hr' as (? & ? & ? & ? & ?). unfold block_ok. repeat split; auto.
    eapply (block_below (pa_holes s ++ live ++ lost) r p (pa_next s)); auto; [|lia].
    intros x. specialize (Hc x). replace (pa_next s - p) with n by lia.
    rewrite cov_cons. rewrite cov_app, cov_cons in Hc. rewrite cov_app.
    destruct (_ && _) in Hc; lia. }
  constructor; unfold pa_holes in *; simpl; auto; try lia.
  - intros x. specialize (Hc x). rewrite cov_app, cov_cons in Hc. rewrite cov_app.
    transitivity ((if (pa_base s <=? x) && (x <? pa_next s) then 1 else 0) - hit x (Range p n)); [lia|].
    unfold hit, r_end. simpl. zcases; simpl; lia.
  - rewrite total_app in Ht. change (total (Range p n :: live ++ lost)) with (n + total (live ++ lost)) in Ht.
    rewrite total_app. lia.
Qed.

Lemma merged_pre s p n hs s1 live lost :
  pa_inv s (Range p n :: live) lost -> merged s p n hs -> pa_holes s1 = hs ->
  length (pa_free_list s1) = PA_MAX_FREE -> (pa_nfree s1 <= PA_MAX_FREE)%nat ->
  pa_base s1 = pa_base s -> pa_next s1 = pa_next s -> pa_end s1 = pa_end s ->
  pa_live s1 = total live -> pa_live s1 <= pa_peak s1 -> pa_lost_bytes s1 = pa_lost_bytes s ->
  pa_pre s1 live lost.
Proof.
  intros Hinv Hm <- Hlen Hn Eb Ex Ee El Ep Eo. destruct Hinv as [Hwf Hb Hc Ht Hl Hp Ho].
  destruct Hm as [M1 M2 M3 M4]. apply Forall_cons in Hb as [_ Hb].
  constructor; rewrite ?Eb, ?Ex, ?Ee, ?Eo; auto; try apply Hwf.
  - rewrite Forall_app. auto.
  - intros x. rewrite cov_app, M3, <- Hc, (cov_app (pa_holes s)), <- app_comm_cons, cov_cons. lia.
  - rewrite total_app, M4, <- Ht, !total_app.
    change (total (Range p n :: live)) with (n + total live). lia.
Qed.

(** The holder gives [p, p + n) back: it becomes a hole, or part of the tail,
    or, with all 256 slots taken and no neighbour, it is counted as lost. *)
Lemma free_inv s p n live live' lost len r s' :
  pa_inv s live lost -> live ≡ₚ Range p n :: live' -> pa_round len = n ->
  pa_free p len s = (r, s') ->
  (r = 0 /\ pa_inv s' live' lost) \/
  (r = -1 /\ pa_nfree s = PA_MAX_FREE /\ pa_inv s' live' (Range p n :: lost)).
Proof.
  intros Hinv Hperm Hlen Hfree.
  eapply (pa_inv_perm _ _ _ lost lost Hperm) in Hinv; [|done].
  pose proof (inv_live_bound _ _ _ Hinv) as (L1 & L2 & L3 & L4).
  pose proof (inv_blocks _ _ _ Hinv) as Hb. apply Forall_cons in Hb as [(B1 & B2 & B3 & _) _].
  destruct (wf_region s (inv_wf _ _ _ Hinv)) as (R1 & R2 & R3 & R4).
  destruct (pa_set_live_inv _ _ _ _ _ Hinv) as [V1 V2].
  unfold pa_free in Hfree. rewrite Hlen in Hfree. unfold r_end in B3. simpl in B1, B2, B3.
  rewrite (wrap64_small (p + n)) in Hfree by lia.
  set (v := if n <=? pa_live s then wrap64 (pa_live s - n) else 0) in *.
  replace ((p =? 0) || (n =? 0)) with false in Hfree by (zcases; done || lia).
  replace ((p <? pa_base s) || (pa_end s <? p + n) || (p + n <? p)) with false in Hfree
    by (zcases; done || lia).
  simpl in Hfree. destruct (Z.eqb_spec (p + n) (pa_next s)) as [E|E].
  - injection Hfree as <- <-. left. split; [done|].
    apply pa_absorb_inv. eapply free_tail_pre; eauto.
  - pose proof (pa_give_back_result _ p n _ (shape_set_live v _ _ (inv_shape _ _ _ Hinv))) as Hres.
    clear Hlen. rewrite Hfree in Hres. inversion Hres as [s1 Hmg| Hfull]; subst; clear Hres.
    + left. split; [done|]. apply pa_absorb_inv.
      assert (Hm : merged s p n (pa_holes s1)) by (destruct Hmg; by constructor).
      simpl in *. eapply merged_pre; eauto; congruence.
    + right. split; [done|]. split; [done|].
      destruct Hinv as [Hwf Hbl Hc Ht Hl Hp Ho]. simpl in *.
      constructor; simpl; auto.
      * by destruct Hwf.
      * by rewrite <- Permutation_middle.
      * intros x. rewrite <- Hc. by rewrite <- (Permutation_middle live' lost).
      * rewrite <- Ht. by rewrite <- (Permutation_middle live' lost).
      * change (total (Range p n :: lost)) with (n + total lost).
        change (total (Range p n :: live')) with (n + total live') in Hl.
        apply Forall_cons in Hbl as [_ Hbl]. apply Forall_app in Hbl as [Hbl _].
        pose proof (total_nonneg _ _ _ Hbl). rewrite wrap64_small by lia. lia.
Qed.

(** ** Runs of the allocator *)

(** What a client that follows the contract can bring about: the state, the
    ranges it holds and the ranges counted as lost.  It may ask for anything,
    give back what it holds (any length that rounds to what was asked), and
    offer ranges the allocator does not own. *)
Inductive pa_run (base len : Z) : pa_state -> list range -> list range -> Prop :=
| run_init s :
    length (pa_free_list s) = PA_MAX_FREE -> pa_run base len (pa_init base len s) [] []
| run_alloc s live lost want p s' :
    pa_run base len s live lost -> pa_alloc want s = (p, s') ->
    pa_run base len s' (if p =? 0 then live else Range p (pa_round want) :: live) lost
| run_free s live live' lost p n r s' :
    pa_run base len s live lost -> live ≡ₚ Range p (pa_round n) :: live' ->
    pa_free p n s = (r, s') ->
    pa_run base len s' live' (if r =? 0 then lost else Range p (pa_round n) :: lost)
| run_foreign s live lost p n r s' :
    pa_run base len s live lost -> pa_owns p n s = false -> pa_free p n s = (r, s') ->
    pa_run base len s' live lost.

Definition init_ok (base len : Z) : Prop :=
  0 < base <= 2 ^ 64 - 2 * PA_PAGE /\ 0 <= len /\ base + len < 2 ^ 64.

Lemma init_inv base len s :
  init_ok base len -> length (pa_free_list s) = PA_MAX_FREE -> pa_inv (pa_init base len s) [] [].
Proof.
  unfold init_ok, PA_PAGE. intros (H1 & H2 & H3) Hlen. pose proof (pa_round_ge base) as Hr.
  unfold PA_PAGE in Hr. specialize (Hr ltac:(lia)).
  assert (Hend : wrap64 (base + len) = base + len) by (apply wrap64_small; lia).
  assert (Hholes : pa_holes (pa_init base len s) = []) by apply take_0.
  constructor; rewrite ?Hholes; auto; try done.
  - constructor; rewrite ?Hholes; auto; try constructor; simpl; try apply pa_round_aligned;
      rewrite ?Hend; zcases; unfold PA_MAX_FREE; lia.
  - intros x. cbn. zcases; simpl; lia.
  - cbn. lia.
Qed.

(** A range that is not the allocator's leaves it as it was. *)
Lemma free_foreign p n s : pa_owns p n s = false -> snd (pa_free p n s) = s.
Proof.
  unfold pa_owns, pa_free.
  destruct (_ || _); [done|]. destruct (_ || _); done.
Qed.

Lemma run_inv base len s live lost :
  init_ok base len -> pa_run base len s live lost -> pa_inv s live lost.
Proof.
  intros Hok. induction 1 as [s Hl|s live lost want p s' _ IH Ha
    |s live live' lost p n r s' _ IH Hp Hf|s live lost p n r s' _ IH Ho Hf].
  - by apply init_inv.
  - destruct (Z.eqb_spec p 0) as [->|E].
    + pose proof (pa_alloc_result s live lost want IH) as Hres. rewrite Ha in Hres.
      destruct (wf_region s (inv_wf _ _ _ IH)) as (R1 & R2 & _).
      inversion Hres as [| |l1 r l2 s1 _ Hs _ _ _ _ _ _ _ _ _ _ _ E0|s1 _ _ _ _ _ _ _ _ _ _ _ _ E0];
        subst; auto; [|lia].
      pose proof (wf_holes s (inv_wf _ _ _ IH)) as Hh. rewrite Hs in Hh.
      apply Forall_app in Hh as [_ Hh]. apply Forall_cons in Hh as [(? & _) _]. lia.
    + by eapply alloc_inv.
  - destruct (free_inv s p _ live live' lost n r s' IH Hp eq_refl Hf) as [[-> H]|(-> & _ & H)]; exact H.
  - pose proof (free_foreign p n s Ho) as H. rewrite Hf in H. simpl in H. by subst.
Qed.

Lemma absorb_frame s :
  pa_base (pa_absorb_tail s) = pa_base s /\ pa_end (pa_absorb_tail s) = pa_end s.
Proof. unfold pa_absorb_tail. by destruct (absorb _ _ _). Qed.

Lemma alloc_frame want s :
  pa_base (snd (pa_alloc want s)) = pa_base s /\ pa_end (snd (pa_alloc want s)) = pa_end s.
Proof.
  unfold pa_alloc, pa_bump. destruct (_ =? 0); [done|].
  destruct (best_scan _ _ _ _ _); repeat case_match; done.
Qed.

Lemma free_frame p n s :
  pa_base (snd (pa_free p n s)) = pa_base s /\ pa_end (snd (pa_free p n s)) = pa_end s.
Proof.
  unfold pa_free, pa_give_back. destruct (_ || _); [done|]. destruct (_ || _ || _); [done|].
  assert (Habs : forall t : pa_state,
            pa_base t = pa_base s -> pa_end t = pa_end s ->
            pa_base (pa_absorb_tail t) = pa_base s /\ pa_end (pa_absorb_tail t) = pa_end s).
  { intros t <- <-. apply absorb_frame. }
  cbv zeta. generalize (if pa_round n <=? pa_live s then pa_live s -w pa_round n else 0). intros v.
  repeat match goal with
  | |- context [if ?b then _ else _] => destruct b; cbn [snd]
  end; try (by apply Habs); done.
Qed.

(** The region a run works in never changes. *)
Lemma run_region base len s live lost :
  pa_run base len s live lost ->
  pa_base s = pa_round base /\ pa_end s = pa_end (pa_init base len s).
Proof.
  induction 1 as [s Hl|s live lost want p s' _ [I1 I2] Ha
    |s live live' lost p n r s' _ [I1 I2] Hp Hf|s live lost p n r s' _ [I1 I2] Ho Hf]; [done|..].
  - pose proof (alloc_frame want s) as [F1 F2]. rewrite Ha in F1, F2. simpl in *. by rewrite F1, F2.
  - pose proof (free_frame p n s) as [F1 F2]. rewrite Hf in F1, F2. simpl in *. by rewrite F1, F2.
  - pose proof (free_frame p n s) as [F1 F2]. rewrite Hf in F1, F2. simpl in *. by rewrite F1, F2.
Qed.

(** ** The statistics *)

Lemma fold_sum l acc :
  0 <= acc -> Forall (fun r => 0 <= r_len r) l -> acc + total l < 2 ^ 64 ->
  fold_left (fun acc r => wrap64 (acc + r_len r)) l acc = acc + total l.
Proof.
  revert acc. induction l as [|r l IH]; intros acc Ha Hl Hb; simpl.
  { unfold total. simpl. lia. }
  apply Forall_cons in Hl as [Hr Hl]. change (total (r :: l)) with (r_len r + total l) in *.
  assert (0 <= total l) by by apply sum_with_nonneg.
  rewrite wrap64_small by lia. rewrite IH by (auto; lia). lia.
Qed.

Lemma fold_max l acc :
  let m := fold_left (fun acc r => if acc <? r_len r then r_len r else acc) l acc in
  acc <= m /\ (forall r, r ∈ l -> r_len r <= m) /\ (m = acc \/ exists r, r ∈ l /\ r_len r = m).
Proof.
  revert acc. induction l as [|r l IH]; intros acc; simpl.
  { repeat split; [lia| |by left]. intros r Hr. inversion Hr. }
  destruct (IH (if acc <? r_len r then r_len r else acc)) as (I1 & I2 & I3).
  repeat split.
  - zcases; lia.
  - intros r' Hr'. apply elem_of_cons in Hr' as [->|Hr']; [|by apply I2].
    zcases_in I1; lia.
  - destruct I3 as [I3|(r' & ? & ?)]; [|right; exists r'; split; [by right|done]].
    rewrite I3. destruct (Z.ltb_spec acc (r_len r)); [|by left]. right. exists r. split; [left|done].
Qed.

Lemma stats_spec s live lost :
  pa_inv s live lost ->
  exists avail largest,
    pa_stats s = (total live, pa_peak s, avail, largest, total lost, pa_nfree s) /\
    total live + avail + total lost = pa_end s - pa_base s /\
    (forall r, r ∈ pa_holes s -> r_len r <= largest) /\ pa_end s - pa_next s <= largest /\
    (largest = pa_end s - pa_next s \/ exists r, r ∈ pa_holes s /\ r_len r = largest).
Proof.
  intros Hinv. pose proof (inv_live_bound _ _ _ Hinv) as (L1 & L2 & L3 & L4).
  pose proof (inv_wf _ _ _ Hinv) as Hwf. destruct (wf_region s Hwf) as (R1 & R2 & R3 & R4).
  rewrite <- (inv_live _ _ _ Hinv), <- (inv_lost _ _ _ Hinv).
  unfold pa_stats. rewrite wrap64_small by lia. fold (pa_holes s).
  rewrite fold_sum.
  - destruct (fold_max (pa_holes s) (pa_end s - pa_next s)) as (M1 & M2 & M3).
    eexists _, _. split; [reflexivity|]. split; [lia|]. by split.
  - lia.
  - eapply Forall_impl; [exact (holes_pos _ _ _ (wf_holes s Hwf))|]. intros; simpl in *; lia.
  - lia.
Qed.

(** Right behind a hole there is always something that is not a hole. *)
Lemma hole_end_free hs r lo hi :
  Forall (hole_ok lo hi) hs -> StronglySorted apart hs -> r ∈ hs -> cov hs (r_end r) = 0.
Proof.
  intros Hh Hs Hr. apply list_elem_of_split in Hr as (l1 & l2 & ->).
  apply sorted_app_inv in Hs as (_ & Hs & Hs12).
  apply StronglySorted_inv in Hs as [_ Hs]. rewrite Forall_forall in Hs, Hh.
  assert (Hpos : 0 < r_len r) by (apply (Hh r); set_solver).
  apply cov_zero. intros r' Hr'. apply elem_of_app in Hr' as [Hr'|Hr'].
  - specialize (Hs12 r' r Hr' ltac:(left)). unfold apart, r_end in *. lia.
  - apply elem_of_cons in Hr' as [->|Hr']; [lia|]. specialize (Hs r' Hr'). unfold apart in Hs. lia.
Qed.

(** A run of free bytes too short for a request ends at a block. *)
Lemma no_room s live lost need a :
  pa_inv s live lost -> 0 < need ->
  (forall r, r ∈ pa_holes s -> r_len r < need) -> pa_end s - pa_next s < need ->
  pa_base s <= a -> a + need <= pa_end s ->
  exists x r, a <= x < a + need /\ r ∈ live ++ lost /\ r_base r <= x < r_end r.
Proof.
  intros Hinv Hneed Hsmall Htail Ha1 Ha2.
  pose proof (inv_wf _ _ _ Hinv) as Hwf. pose proof (inv_cov _ _ _ Hinv) as Hcov.
  assert (Hblock : forall x, pa_base s <= x < pa_next s -> cov (pa_holes s) x = 0 ->
            exists r, r ∈ live ++ lost /\ r_base r <= x < r_end r).
  { intros x Hx H0. apply cov_pos_elem. specialize (Hcov x). rewrite cov_app in Hcov.
    rewrite H0 in Hcov. zcases_in Hcov; simpl in Hcov; lia. }
  destruct (decide (cov (pa_holes s) a = 0)) as [H0|H0].
  - destruct (Hblock a) as (r & Hr & Hin); [lia|done|]. exists a, r. split; [lia|done].
  - pose proof (cov_nonneg (pa_holes s) a).
    destruct (cov_pos_elem (pa_holes s) a) as (h & Hh & Hin); [lia|].
    pose proof (wf_holes s Hwf) as Hf. pose proof Hf as Hf'. rewrite Forall_forall in Hf'.
    destruct (Hf' h Hh) as (F1 & F2 & F3 & _). specialize (Hsmall h Hh). unfold r_end in Hin, F3.
    destruct (Hblock (r_end h)) as (r & Hr & Hin').
    + unfold r_end. lia.
    + eapply hole_end_free; [exact Hf|apply Hwf|done].
    + exists (r_end h), r. split; [unfold r_end; lia|done].
Qed.

(** ** Properties *)

(** The untouched tail, as a range. *)
Definition pa_tail (s : pa_state) : range := Range (pa_next s) (pa_end s - pa_next s).

Lemma tail_disjoint s l hi :
  Forall (fun r => r_end r <= hi) l -> hi <= pa_next s ->
  pairwise_disjoint l -> pairwise_disjoint (pa_tail s :: l).
Proof.
  intros Hl Hhi Hd. rewrite Forall_forall in Hl.
  intros [|i] [|j] r1 r2 H1 H2 Hij; simpl in *; [done| | |].
  - simplify_eq. right. apply list_elem_of_lookup_2 in H2. apply Hl in H2. simpl. lia.
  - simplify_eq. left. apply list_elem_of_lookup_2 in H1. apply Hl in H1. simpl. lia.
  - eapply Hd; [exact H1|exact H2|lia].
Qed.

Lemma inv_disjoint s live lost :
  pa_inv s live lost -> pairwise_disjoint (pa_tail s :: pa_holes s ++ live ++ lost).
Proof.
  intros Hinv. pose proof (wf_holes s (inv_wf _ _ _ Hinv)) as Hh.
  pose proof (inv_blocks _ _ _ Hinv) as Hb.
  apply tail_disjoint with (hi := pa_next s); [|lia|apply cov_pairwise].
  - apply Forall_app. split; (eapply Forall_impl; [eassumption|]); intros r Hr; simpl.
    + destruct Hr as (_ & _ & H & _). lia.
    + by destruct Hr as (_ & _ & H & _).
  - intros x. rewrite (inv_cov _ _ _ Hinv x). destruct (_ && _); lia.
  - apply Forall_app. split; [by eapply holes_pos|].
    eapply Forall_impl; [exact Hb|]. by intros r (_ & ? & _).
Qed.

(** C1: Whatever requests a contract-keeping client makes from [pa_init] on,
    the untouched tail, the holes, the ranges the client holds and the lost
    ranges never overlap; each is page-aligned, not empty (the tail may be)
    and inside the region; the free list is sorted, no hole touches the next
    one or the tail, and it is within its 256 slots; every byte below the
    tail belongs to one of the ranges; and the statistics account for every
    byte of the region. *)
Theorem pa_run_safe base len s live lost :
  init_ok base len -> pa_run base len s live lost ->
  let lo := pa_round base in
  let hi := Z.max (base + len) lo in
  pairwise_disjoint (pa_tail s :: pa_holes s ++ live ++ lost) /\
  Forall (block_ok lo (pa_next s)) (pa_holes s ++ live ++ lost) /\
  lo <= pa_next s <= hi /\ r_end (pa_tail s) = hi /\ page_aligned (pa_next s) /\
  StronglySorted apart (pa_holes s ++ [pa_tail s]) /\
  (length (pa_holes s) = pa_nfree s /\ pa_nfree s <= 256)%nat /\
  (forall x, lo <= x < pa_next s ->
     exists r, r ∈ pa_holes s ++ live ++ lost /\ r_base r <= x < r_end r) /\
  exists avail largest,
    pa_stats s = (total live, pa_peak s, avail, largest, total lost, pa_nfree s) /\
    total live + avail + total lost = hi - lo /\
    total live <= pa_peak s.
Proof.
  intros Hok Hrun lo hi. pose proof (run_inv _ _ _ _ _ Hok Hrun) as Hinv.
  destruct (run_region _ _ _ _ _ Hrun) as [Hb He].
  pose proof (inv_wf _ _ _ Hinv) as Hwf. destruct (wf_region s Hwf) as (R1 & R2 & R3 & R4).
  destruct Hok as (O1 & O2 & O3).
  assert (Hend : pa_end s = hi).
  { rewrite He. simpl. rewrite wrap64_small by lia. unfold hi, lo. zcases; lia. }
  pose proof (wf_holes s Hwf) as Hh. pose proof (inv_blocks _ _ _ Hinv) as Hbl.
  rewrite Hb in *. fold lo in Hh, Hbl, R2.
  split; [by apply inv_disjoint|]. split.
  { apply Forall_app. split; [|exact Hbl]. eapply Forall_impl; [exact Hh|]. apply hole_block. }
  split; [lia|]. split; [unfold pa_tail, r_end; simpl; lia|]. split; [apply Hwf|]. split.
  { apply sorted_app; [apply Hwf|repeat constructor|]. rewrite Forall_forall in Hh.
    intros r1 r2 H1 ->%list_elem_of_singleton. apply (Hh r1 H1). }
  split.
  { unfold pa_holes. rewrite length_take, (wf_len s Hwf).
    pose proof (wf_nfree s Hwf) as Hn. unfold PA_MAX_FREE in *. lia. }
  split.
  { intros x Hx. apply cov_pos_elem. rewrite (inv_cov _ _ _ Hinv x), Hb. fold lo. zcases; simpl; lia. }
  destruct (stats_spec _ _ _ Hinv) as (avail & largest & S1 & S2 & _).
  exists avail, largest. split; [done|].
  pose proof (inv_peak _ _ _ Hinv). pose proof (inv_live _ _ _ Hinv). split; lia.
Qed.

(** C33: An allocation is refused only when no run of that many consecutive
    free bytes exists anywhere in the region; otherwise it is carved from the
    smallest hole that fits, and from the untouched tail when none does. *)
Theorem pa_alloc_best_fit base len s live lost want p s' :
  init_ok base len -> pa_run base len s live lost -> 0 < pa_round want ->
  pa_alloc want s = (p, s') ->
  if decide (p = 0) then
    s' = s /\
    forall a, pa_base s <= a -> a + pa_round want <= pa_end s ->
      exists x r, a <= x < a + pa_round want /\ r ∈ live ++ lost /\ r_base r <= x < r_end r
  else
    (exists r, r ∈ pa_holes s /\ p = r_base r /\ pa_round want <= r_len r /\
       forall r', r' ∈ pa_holes s -> pa_round want <= r_len r' -> r_len r <= r_len r') \/
    (p = pa_next s /\ p + pa_round want <= pa_end s /\
       forall r, r ∈ pa_holes s -> r_len r < pa_round want).
Proof.
  intros Hok Hrun Hpos Hal. pose proof (run_inv _ _ _ _ _ Hok Hrun) as Hinv.
  pose proof (pa_alloc_result s live lost want Hinv) as Hres. rewrite Hal in Hres.
  pose proof (inv_wf _ _ _ Hinv) as Hwf. destruct (wf_region s Hwf) as (R1 & R2 & R3 & R4).
  inversion Hres as [?|? Hsm Htl|l1 r l2 s1 _ Hs Hfit Hmin|s1 _ Hsm Htl]; subst; try lia.
  - rewrite decide_True by done. split; [done|]. intros a Ha1 Ha2. by eapply no_room.
  - assert (Hr : r ∈ pa_holes s) by (rewrite Hs; set_solver).
    pose proof (wf_holes s Hwf) as Hh. rewrite Forall_forall in Hh. destruct (Hh r Hr) as (? & _).
    rewrite decide_False by lia. left. exists r. auto.
  - rewrite decide_False by lia. right. split; [done|]. split; [lia|done].
Qed.

(** Once everything has been given back and nothing was lost, the holes
    are gone and the whole region is again one untouched tail: the next
    request for any size that fits is served from its start. *)
Theorem pa_all_free base len s :
  init_ok base len -> pa_run base len s [] [] ->
  pa_nfree s = O /\ pa_next s = pa_base s /\ pa_live s = 0 /\
  forall want, 0 < pa_round want <= pa_end s - pa_base s ->
    fst (pa_alloc want s) = pa_base s.
Proof.
  intros Hok Hrun. pose proof (run_inv _ _ _ _ _ Hok Hrun) as Hinv.
  pose proof (inv_wf _ _ _ Hinv) as Hwf. destruct (wf_region s Hwf) as (R1 & R2 & R3 & R4).
  assert (Hnil : pa_holes s = []).
  { destruct (pa_holes s) as [|h l] eqn:Eh; [done|]. exfalso.
    assert (Hin : h ∈ pa_holes s) by (rewrite Eh; left).
    pose proof (wf_holes s Hwf) as Hh. pose proof Hh as Hh'. rewrite Forall_forall in Hh'.
    destruct (Hh' h Hin) as (F1 & F2 & F3 & _).
    pose proof (hole_end_free _ h _ _ Hh (wf_apart s Hwf) Hin) as H0.
    pose proof (inv_cov _ _ _ Hinv (r_end h)) as Hc. rewrite cov_app, H0 in Hc.
    unfold r_end in *. zcases_in Hc; cbn in Hc; lia. }
  assert (Hn : pa_nfree s = O).
  { apply (f_equal length) in Hnil. unfold pa_holes in Hnil. rewrite length_take in Hnil.
    pose proof (wf_len s Hwf) as Hl. pose proof (wf_nfree s Hwf). simpl in Hnil. lia. }
  pose proof (inv_total _ _ _ Hinv) as Ht. rewrite Hnil in Ht. cbn in Ht.
  pose proof (inv_live _ _ _ Hinv) as Hl. cbn in Hl.
  repeat split; [done|lia|done|]. intros want Hw.
  pose proof (pa_alloc_result s [] [] want Hinv) as Hres.
  destruct (pa_alloc want s) as [p s']. simpl. inversion Hres as [?|? _ ?|l1 r l2 s1 _ Hs|]; subst; try lia.
  rewrite Hnil in Hs. by destruct l1.
Qed.

(** Giving back a held range always succeeds while one of the 256 slots is
    free, and what cannot be recorded is counted: the client no longer holds
    the range and the lost bytes grow by exactly its length. *)
Theorem pa_free_counts base len s live live' lost p n r s' :
  init_ok base len -> pa_run base len s live lost ->
  live ≡ₚ Range p (pa_round n) :: live' -> pa_free p n s = (r, s') ->
  pa_live s' = pa_live s - pa_round n /\
  (if decide (r = 0) then pa_lost_bytes s' = pa_lost_bytes s
   else r = -1 /\ pa_nfree s = PA_MAX_FREE /\ pa_lost_bytes s' = pa_lost_bytes s + pa_round n).
Proof.
  intros Hok Hrun Hp Hf. pose proof (run_inv _ _ _ _ _ Hok Hrun) as Hinv.
  assert (Hlive : total live = pa_round n + total live') by by rewrite Hp.
  destruct (free_inv _ _ _ _ _ _ _ _ _ Hinv Hp eq_refl Hf) as [[-> H]|(-> & Hn & H)].
  - rewrite decide_True by done. rewrite (inv_live _ _ _ H), (inv_lost _ _ _ H),
      (inv_live _ _ _ Hinv), (inv_lost _ _ _ Hinv). split; [lia|done].
  - rewrite decide_False by done. rewrite (inv_live _ _ _ H), (inv_lost _ _ _ H),
      (inv_live _ _ _ Hinv), (inv_lost _ _ _ Hinv).
    change (total (Range p (pa_round n) :: lost)) with (pa_round n + total lost).
    split; [lia|]. split; [done|]. split; [done|lia].
Qed.

(** ** Witnesses *)

Definition pa_zero : pa_state := PaState (replicate 256 (Range 0 0)) 0 0 0 0 0 0 0.

(** 64 KiB at 1 MiB; two pages, then one, are taken and the first is returned. *)
Definition pa_demo : pa_state :=
  let s := pa_init 1048576 65536 pa_zero in
  let s := snd (pa_alloc 8192 s) in
  let s := snd (pa_alloc 100 s) in
  snd (pa_free 1048576 8192 s).

Lemma demo_ok : init_ok 1048576 65536.
Proof. unfold init_ok, PA_PAGE. lia. Qed.

Lemma run_alloc_at base len s live lost want p :
  pa_run base len s live lost -> fst (pa_alloc want s) = p -> p <> 0 ->
  pa_run base len (snd (pa_alloc want s)) (Range p (pa_round want) :: live) lost.
Proof.
  intros Hr Hp Hn. rewrite (surjective_pairing (pa_alloc want s)) in Hp.
  pose proof (run_alloc base len s live lost want _ _ Hr (surjective_pairing _)) as H.
  simpl in Hp. rewrite Hp in H. destruct (Z.eqb_spec p 0); [done|exact H].
Qed.

Lemma run_free_at base len s live live' lost p n :
  pa_run base len s live lost -> live ≡ₚ Range p (pa_round n) :: live' ->
  fst (pa_free p n s) = 0 -> pa_run base len (snd (pa_free p n s)) live' lost.
Proof.
  intros Hr Hp Hz.
  pose proof (run_free base len s live live' lost p n _ _ Hr Hp (surjective_pairing _)) as H.
  by rewrite Hz in H.
Qed.

Lemma demo_run : pa_run 1048576 65536 pa_demo [Range 1056768 (pa_round 100)] [].
Proof.
  unfold pa_demo. cbv zeta. eapply run_free_at; [|apply perm_swap|vm_compute; reflexivity].
  apply run_alloc_at; [|vm_compute; reflexivity|lia].
  apply run_alloc_at; [|vm_compute; reflexivity|lia].
  apply run_init. reflexivity.
Qed.

Lemma pa_run_safe_witness :
  pairwise_disjoint (pa_tail pa_demo :: pa_holes pa_demo ++ [Range 1056768 (pa_round 100)] ++ []).
Proof. exact (proj1 (pa_run_safe _ _ _ _ _ demo_ok demo_run)). Defined.

Lemma pa_alloc_best_fit_witness :
  exists r, r ∈ pa_holes pa_demo /\ 1048576 = r_base r /\ pa_round 4096 <= r_len r.
Proof.
  pose proof (pa_alloc_best_fit _ _ _ _ _ 4096 1048576 (snd (pa_alloc 4096 pa_demo))
                demo_ok demo_run ltac:(vm_compute; reflexivity) ltac:(vm_compute; reflexivity)) as H.
  rewrite decide_False in H by lia.
  destruct H as [(r & H1 & H2 & H3 & _)|(H1 & _)]; [by exists r|].
  vm_compute in H1. discriminate H1.
Defined.

Lemma demo_run_back : pa_run 1048576 65536 (snd (pa_free 1056768 100 pa_demo)) [] [].
Proof. eapply run_free_at; [apply demo_run|reflexivity|vm_compute; reflexivity]. Qed.

Lemma pa_all_free_witness :
  fst (pa_alloc 65536 (snd (pa_free 1056768 100 pa_demo))) =
    pa_base (snd (pa_free 1056768 100 pa_demo)).
Proof.
  refine (proj2 (proj2 (proj2 (pa_all_free _ _ _ demo_ok demo_run_back))) 65536 _).
  vm_compute. split; [reflexivity|discriminate].
Defined.

Lemma pa_free_counts_witness :
  pa_live (snd (pa_free 1056768 100 pa_demo)) = pa_live pa_demo - pa_round 100.
Proof.
  refine (proj1 (pa_free_counts _ _ _ _ [] [] 1056768 100 0 _ demo_ok demo_run _ _));
    [reflexivity|vm_compute; reflexivity].
Defined.
