(* ===== verification/CMem.v ===== *)
(** Byte-addressed memory.  An address that is not mapped holds [None], and an
    access to it faults: every operation that touches memory returns an
    option, so that a theorem giving [Some] also says that no access left the
    mapped ranges. *)

From S2P Require Import Prelude Ranges.

Definition mem : Type := Z -> option Z.

Definition load8 (m : mem) (a : Z) : option Z := m a.

Definition upd (m : mem) (a v : Z) : mem := fun x => if x =? a then Some v else m x.

Definition store8 (m : mem) (a v : Z) : option mem :=
  match m a with
  | Some _ => Some (upd m a (v mod 256))
  | None => None
  end.

(** Little-endian words of [n] bytes. *)
Fixpoint load_le (m : mem) (a : Z) (n : nat) : option Z :=
  match n with
  | O => Some 0
  | S n' =>
      b ← load8 m a;
      r ← load_le m (a + 1) n';
      Some (b + 256 * r)
  end.

Fixpoint store_le (m : mem) (a : Z) (n : nat) (v : Z) : option mem :=
  match n with
  | O => Some m
  | S n' => m' ← store8 m a v; store_le m' (a + 1) n' (v / 256)
  end.

Definition load64 (m : mem) (a : Z) : option Z := load_le m a 8.
Definition store64 (m : mem) (a v : Z) : option mem := store_le m a 8 v.

(** [n] bytes from [a] on are mapped. *)
Definition mapped (m : mem) (a n : Z) : Prop := forall x, a <= x < a + n -> is_Some (m x).

(** Memory holds bytes. *)
Definition bytes_ok (m : mem) : Prop := forall x v, m x = Some v -> 0 <= v < 256.

Definition same_mapped (m m' : mem) : Prop := forall x, is_Some (m x) <-> is_Some (m' x).

(** [m'] differs from [m] at most inside [[a, a + n)]. *)
Definition differ_in (m m' : mem) (a n : Z) : Prop :=
  forall x, x < a \/ a + n <= x -> m' x = m x.

#[export] Instance same_mapped_equiv : Equivalence same_mapped.
Proof.
  split.
  - by intros m x.
  - intros m m' H x. by rewrite (H x).
  - intros m1 m2 m3 H1 H2 x. by rewrite (H1 x), (H2 x).
Qed.

Lemma mapped_same m m' a n : same_mapped m m' -> mapped m a n -> mapped m' a n.
Proof. intros H Hm x Hx. apply H, Hm, Hx. Qed.

Lemma mapped_sub m a n a' n' :
  mapped m a n -> a <= a' -> a' + n' <= a + n -> mapped m a' n'.
Proof. intros H H1 H2 x Hx. apply H. lia. Qed.

Lemma differ_in_refl m a n : differ_in m m a n.
Proof. by intros x _. Qed.

Lemma differ_in_trans m1 m2 m3 a n :
  differ_in m1 m2 a n -> differ_in m2 m3 a n -> differ_in m1 m3 a n.
Proof. intros H1 H2 x Hx. by rewrite H2, H1. Qed.

Lemma differ_in_sub m m' a n a' n' :
  differ_in m m' a n -> a' <= a -> a + n <= a' + n' -> differ_in m m' a' n'.
Proof. intros H H1 H2 x Hx. apply H. lia. Qed.

Lemma store8_some m a v : is_Some (m a) -> store8 m a v = Some (upd m a (v mod 256)).
Proof. intros [w Hw]. unfold store8. by rewrite Hw. Qed.

Lemma same_mapped_upd m a v : is_Some (m a) -> same_mapped m (upd m a v).
Proof.
  intros H x. unfold upd. destruct (Z.eqb_spec x a) as [->|]; [|done].
  split; [by eexists|done].
Qed.

Lemma bytes_ok_upd m a v : bytes_ok m -> bytes_ok (upd m a (v mod 256)).
Proof.
  intros H x w. unfold upd. destruct (_ =? _); [|apply H].
  intros [= <-]. apply Z.mod_pos_bound. lia.
Qed.

Lemma differ_in_upd m a v n a' : a' <= a < a' + n -> differ_in m (upd m a v) a' n.
Proof. intros H x Hx. unfold upd. destruct (Z.eqb_spec x a); [lia|done]. Qed.

Lemma store_le_some m a n v :
  mapped m a (Z.of_nat n) ->
  exists m', store_le m a n v = Some m' /\ same_mapped m m' /\
    differ_in m m' a (Z.of_nat n) /\ (bytes_ok m -> bytes_ok m') /\
    load_le m' a n = Some (v mod 256 ^ Z.of_nat n).
Proof.
  revert m a v. induction n as [|n IH]; intros m a v Hm.
  { exists m. split; [done|]. split; [done|]. split; [by intros x _|]. split; [done|].
    simpl. by rewrite Z.mod_1_r. }
  cbn [store_le]. rewrite store8_some by (apply Hm; lia). cbn [mbind option_bind].
  set (m1 := upd m a (v mod 256)).
  assert (Hs1 : same_mapped m m1) by (apply same_mapped_upd, Hm; lia).
  destruct (IH m1 (a + 1) (v / 256)) as (m' & E & Hs & Hd & Hb & Hl).
  { eapply mapped_same; [exact Hs1|]. eapply mapped_sub; [exact Hm|lia|lia]. }
  exists m'. split; [done|]. split; [by etrans|]. split; [|split].
  - eapply differ_in_trans; [apply differ_in_upd|eapply differ_in_sub; [exact Hd|lia|lia]]. lia.
  - intros H. by apply Hb, bytes_ok_upd.
  - cbn [load_le]. unfold load8. rewrite (Hd a) by lia. unfold m1, upd at 1.
    rewrite Z.eqb_refl. cbn [mbind option_bind].
    rewrite Hl. cbn [mbind option_bind]. f_equal.
    rewrite pow_of_S, Z.rem_mul_r by lia. done.
Qed.

Lemma load_le_ext m m' a n :
  (forall x, a <= x < a + Z.of_nat n -> m' x = m x) -> load_le m' a n = load_le m a n.
Proof.
  revert a. induction n as [|n IH]; intros a H; [done|]. simpl. unfold load8.
  rewrite (H a) by lia. rewrite IH; [done|]. intros x Hx. apply H. lia.
Qed.

Lemma load_le_some m a n : mapped m a (Z.of_nat n) -> is_Some (load_le m a n).
Proof.
  revert a. induction n as [|n IH]; intros a H; [by eexists|]. simpl. unfold load8.
  destruct (H a) as [b Hb]; [lia|]. rewrite Hb. simpl.
  destruct (IH (a + 1)) as [r Hr]; [|rewrite Hr; simpl; by eexists].
  intros x Hx. apply H. lia.
Qed.

Lemma load_le_bound m a n v : bytes_ok m -> load_le m a n = Some v -> 0 <= v < 256 ^ Z.of_nat n.
Proof.
  intros Hb. revert a v. induction n as [|n IH]; intros a v; cbn [load_le].
  { intros [= <-]. simpl. lia. }
  unfold load8. destruct (m a) as [b|] eqn:Ea; [cbn [mbind option_bind]|done].
  destruct (load_le m (a + 1) n) as [r|] eqn:Er; [cbn [mbind option_bind]|done].
  intros [= <-]. specialize (Hb _ _ Ea). specialize (IH _ _ Er).
  rewrite pow_of_S. lia.
Qed.

Lemma store64_spec m a v :
  mapped m a 8 -> 0 <= v < 2 ^ 64 ->
  exists m', store64 m a v = Some m' /\ same_mapped m m' /\ differ_in m m' a 8 /\
    (bytes_ok m -> bytes_ok m') /\ load64 m' a = Some v.
Proof.
  intros Hm Hv. destruct (store_le_some m a 8 v Hm) as (m' & E & Hs & Hd & Hb & Hl).
  exists m'. split; [exact E|]. split; [exact Hs|]. split; [exact Hd|]. split; [exact Hb|].
  unfold load64. rewrite Hl. f_equal. apply Z.mod_small. exact Hv.
Qed.

Lemma load64_frame m m' a b n :
  differ_in m m' b n -> a + 8 <= b \/ b + n <= a -> load64 m' a = load64 m a.
Proof. intros Hd H. apply load_le_ext. intros x Hx. apply Hd. lia. Qed.

(** ** Strings *)

(** The bytes [l] lie at [a]. *)
Definition bytes_at (m : mem) (a : Z) (l : list Z) : Prop :=
  forall i b, l !! i = Some b -> m (a + Z.of_nat i) = Some b.

(** A NUL-terminated string. *)
Definition str_at (m : mem) (a : Z) (l : list Z) : Prop :=
  bytes_at m a (l ++ [0]) /\ Forall (fun b => 0 < b < 256) l.

Lemma bytes_at_cons m a b l : bytes_at m a (b :: l) <-> m a = Some b /\ bytes_at m (a + 1) l.
Proof.
  split.
  - intros H. split.
    + specialize (H O b eq_refl). by rewrite Z.add_0_r in H.
    + intros i b' Hi. specialize (H (S i) b' Hi). rewrite <- H. f_equal. lia.
  - intros [H1 H2] [|i] b' Hi.
    + injection Hi as <-. by rewrite Z.add_0_r.
    + specialize (H2 i b' Hi). rewrite <- H2. f_equal. lia.
Qed.

Lemma bytes_at_nil m a : bytes_at m a [].
Proof. intros i b Hi. done. Qed.

Lemma bytes_at_app m a l1 l2 :
  bytes_at m a (l1 ++ l2) <-> bytes_at m a l1 /\ bytes_at m (a + Z.of_nat (length l1)) l2.
Proof.
  revert a. induction l1 as [|b l1 IH]; intros a; cbn [app length].
  { rewrite Z.add_0_r. split; [|by intros [? ?]]. intros H. split; [apply bytes_at_nil|done]. }
  rewrite !bytes_at_cons, IH.
  replace (a + 1 + Z.of_nat (length l1)) with (a + Z.of_nat (S (length l1))) by lia.
  tauto.
Qed.

Lemma bytes_at_mapped m a l : bytes_at m a l -> mapped m a (Z.of_nat (length l)).
Proof.
  intros H x Hx. destruct (lookup_lt_is_Some_2 l (Z.to_nat (x - a))) as [b Hb]; [lia|].
  exists b. rewrite <- (H _ _ Hb). f_equal. lia.
Qed.

(** The string at [a] is unique. *)
Lemma str_at_head m a l :
  str_at m a l ->
  match l with
  | [] => m a = Some 0
  | b :: l' => m a = Some b /\ 0 < b < 256 /\ str_at m (a + 1) l'
  end.
Proof.
  intros [H1 H2]. destruct l as [|b l]; cbn [app] in H1; apply bytes_at_cons in H1 as [H1 H3]; [done|].
  apply Forall_cons in H2 as [? ?]. split; [done|]. split; [done|]. by split.
Qed.
