(* ===== verification/NlString.v ===== *)
(** nolibc's memory and string functions, [src/unikernel/nolibc/string.c].

    Every loop is the source's loop over the byte-addressed memory of
    [CMem]; a read or a write outside the mapped addresses makes the whole
    call [None].  Loops bounded by a length recurse on the number of
    iterations left; loops that run to a NUL take fuel, and the theorems give
    the fuel that is enough. *)

From S2P Require Import Prelude Ranges CMem.

Open Scope word_scope.

(** ** Memory blocks *)

(** [for (; i < n; i++) dst[i] = src[i];] with [k] iterations left. *)
Fixpoint copy_up (m : mem) (dst src : Z) (k : nat) : option mem :=
  match k with
  | O => Some m
  | S k' =>
      b ← load8 m src;
      m' ← store8 m dst b;
      copy_up m' (dst + 1) (src + 1) k'
  end.

(** [for (i = n; i > 0; i--) dst[i - 1] = src[i - 1];] *)
Fixpoint copy_down (m : mem) (dst src : Z) (i : nat) : option mem :=
  match i with
  | O => Some m
  | S j =>
      b ← load8 m (src + Z.of_nat j);
      m' ← store8 m (dst + Z.of_nat j) b;
      copy_down m' dst src j
  end.

(** [for (i = 0; i + 8 <= n; i += 8) *dw++ = *sw++;] with [k] words left. *)
Fixpoint copy_words (m : mem) (dw sw : Z) (k : nat) : option mem :=
  match k with
  | O => Some m
  | S k' =>
      w ← load64 m sw;
      m' ← store64 m dw w;
      copy_words m' (dw + 8) (sw + 8) k'
  end.

(** The memory, and the pointer the call returns. *)
Definition memcpy (m : mem) (d s n : Z) : option (mem * Z) :=
  if (d mod 8 =? 0) && (s mod 8 =? 0) then
    let words := Z.to_nat (n / 8) in
    let i := n / 8 * 8 in
    m' ← copy_words m d s words;
    m'' ← copy_up m' (d + i) (s + i) (Z.to_nat (n - i));
    Some (m'', d)
  else
    m' ← copy_up m d s (Z.to_nat n);
    Some (m', d).

Definition memmove (m : mem) (d s n : Z) : option (mem * Z) :=
  if (d =? s) || (n =? 0) then Some (m, d)
  else if d <? s then
    m' ← copy_up m d s (Z.to_nat n); Some (m', d)
  else
    m' ← copy_down m d s (Z.to_nat n); Some (m', d).

Fixpoint fill_bytes (m : mem) (d v : Z) (k : nat) : option mem :=
  match k with
  | O => Some m
  | S k' => m' ← store8 m d v; fill_bytes m' (d + 1) v k'
  end.

Fixpoint fill_words (m : mem) (dw w : Z) (k : nat) : option mem :=
  match k with
  | O => Some m
  | S k' => m' ← store64 m dw w; fill_words m' (dw + 8) w k'
  end.

Definition memset (m : mem) (d c n : Z) : option (mem * Z) :=
  let v := c mod 256 in
  if d mod 8 =? 0 then
    let w := 72340172838076673 *w v in             (* 0x0101010101010101 * v *)
    let i := n / 8 * 8 in
    m' ← fill_words m d w (Z.to_nat (n / 8));
    m'' ← fill_bytes m' (d + i) v (Z.to_nat (n - i));
    Some (m'', d)
  else
    m' ← fill_bytes m d v (Z.to_nat n);
    Some (m', d).

(** The address of the first byte equal to [v], 0 when there is none. *)
Fixpoint memchr_from (m : mem) (p v : Z) (k : nat) : option Z :=
  match k with
  | O => Some 0
  | S k' => b ← load8 m p; if b =? v then Some p else memchr_from m (p + 1) v k'
  end.

Definition memchr (m : mem) (s c n : Z) : option Z := memchr_from m s (c mod 256) (Z.to_nat n).

Fixpoint memcmp_from (m : mem) (x y : Z) (k : nat) : option Z :=
  match k with
  | O => Some 0
  | S k' =>
      a ← load8 m x;
      b ← load8 m y;
      if negb (a =? b) then Some (a - b) else memcmp_from m (x + 1) (y + 1) k'
  end.

Definition memcmp (m : mem) (a b n : Z) : option Z := memcmp_from m a b (Z.to_nat n).

Definition bcmp (m : mem) (a b n : Z) : option Z := memcmp m a b n.

(** ** Strings *)

(** [while ( *p ) p++;]: how far the NUL is, [None] when the fuel or the mapped
    memory ends first. *)
Fixpoint strlen_from (fuel : nat) (m : mem) (p : Z) : option Z :=
  match fuel with
  | O => None
  | S f =>
      b ← load8 m p;
      if b =? 0 then Some 0 else n ← strlen_from f m (p + 1); Some (n + 1)
  end.

Definition strlen := strlen_from.

Fixpoint strnlen_from (m : mem) (s n : Z) (k : nat) : option Z :=
  match k with
  | O => Some n
  | S k' => b ← load8 m (s + n); if b =? 0 then Some n else strnlen_from m s (n + 1) k'
  end.

Definition strnlen (m : mem) (s max : Z) : option Z := strnlen_from m s 0 (Z.to_nat max).

Fixpoint strcmp (fuel : nat) (m : mem) (x y : Z) : option Z :=
  match fuel with
  | O => None
  | S f =>
      a ← load8 m x;
      b ← load8 m y;
      if negb (a =? 0) && (a =? b) then strcmp f m (x + 1) (y + 1) else Some (a - b)
  end.

Fixpoint strchr_from (fuel : nat) (m : mem) (s v : Z) : option Z :=
  match fuel with
  | O => None
  | S f =>
      b ← load8 m s;
      if b =? v then Some s else if b =? 0 then Some 0 else strchr_from f m (s + 1) v
  end.

Definition strchr (fuel : nat) (m : mem) (s c : Z) : option Z := strchr_from fuel m s (c mod 256).

Fixpoint strrchr_from (fuel : nat) (m : mem) (s v last : Z) : option Z :=
  match fuel with
  | O => None
  | S f =>
      b ← load8 m s;
      let last := if b =? v then s else last in
      if b =? 0 then Some last else strrchr_from f m (s + 1) v last
  end.

Definition strrchr (fuel : nat) (m : mem) (s c : Z) : option Z := strrchr_from fuel m s (c mod 256) 0.

Fixpoint strncmp_from (m : mem) (x y : Z) (k : nat) : option Z :=
  match k with
  | O => Some 0
  | S k' =>
      a ← load8 m x;
      b ← load8 m y;
      if negb (a =? b) then Some (a - b)
      else if a =? 0 then Some 0
      else strncmp_from m (x + 1) (y + 1) k'
  end.

Definition strncmp (m : mem) (a b n : Z) : option Z := strncmp_from m a b (Z.to_nat n).

(** [for (i = 0; i + nlen <= hlen; i++)] of [memmem], with [k] positions left. *)
Fixpoint memmem_from (m : mem) (h n nlen : Z) (k : nat) : option Z :=
  match k with
  | O => Some 0
  | S k' =>
      a ← load8 m h;
      b ← load8 m n;
      if a =? b then
        c ← memcmp m h n nlen;
        if c =? 0 then Some h else memmem_from m (h + 1) n nlen k'
      else memmem_from m (h + 1) n nlen k'
  end.

Definition memmem (m : mem) (hay hlen needle nlen : Z) : option Z :=
  if nlen =? 0 then Some hay
  else if hlen <? nlen then Some 0
  else memmem_from m hay needle nlen (Z.to_nat (hlen - nlen + 1)).

Definition strstr (fuel : nat) (m : mem) (hay needle : Z) : option Z :=
  hl ← strlen fuel m hay;
  nl ← strlen fuel m needle;
  if nl =? 0 then Some hay
  else if hl <? nl then Some 0
  else memmem m hay hl needle nl.

(** The two loops of [strncpy]: copy up to the NUL, then pad with zeros. *)
Fixpoint strncpy_from (m : mem) (d s : Z) (k : nat) : option mem :=
  match k with
  | O => Some m
  | S k' =>
      b ← load8 m s;
      if b =? 0 then fill_bytes m d 0 k
      else m' ← store8 m d b; strncpy_from m' (d + 1) (s + 1) k'
  end.

Definition strncpy (m : mem) (d s n : Z) : option (mem * Z) :=
  m' ← strncpy_from m d s (Z.to_nat n); Some (m', d).

(** A [char] as the comparisons with literals see it.  It is signed on x86-64
    and unsigned on aarch64; the bytes above 127 pass no test either way. *)
Definition schar (b : Z) : Z := swrap 8 b.

Fixpoint skip_space (fuel : nat) (m : mem) (s : Z) : option Z :=
  match fuel with
  | O => None
  | S f =>
      b ← load8 m s;
      let c := schar b in
      if (c =? 32) || ((9 <=? c) && (c <=? 13)) then skip_space f m (s + 1) else Some s
  end.

Fixpoint digits_from (fuel : nat) (m : mem) (s acc : Z) : option Z :=
  match fuel with
  | O => None
  | S f =>
      b ← load8 m s;
      let c := schar b in
      if (48 <=? c) && (c <=? 57)
      then digits_from f m (s + 1) ((acc *w 10) +w (c - 48))
      else Some acc
  end.

Definition atoll (fuel : nat) (m : mem) (s : Z) : option Z :=
  s ← skip_space fuel m s;
  b ← load8 m s;
  let c := schar b in
  let neg := c =? 45 in
  let s := if (c =? 45) || (c =? 43) then s + 1 else s in
  acc ← digits_from fuel m s 0;
  Some (if neg then swrap 64 (- swrap 64 acc) else swrap 64 acc).

Definition atol (fuel : nat) (m : mem) (s : Z) : option Z := atoll fuel m s.
Definition atoi (fuel : nat) (m : mem) (s : Z) : option Z :=
  v ← atoll fuel m s; Some (swrap 32 v).

(** ** Copying and filling *)

(** [m'] is [m] with the [n] bytes at [s] copied to [d]. *)
Definition copied (m m' : mem) (d s n : Z) : Prop :=
  forall x, m' x = if (d <=? x) && (x <? d + n) then m (s + (x - d)) else m x.

Definition filled (m m' : mem) (d v n : Z) : Prop :=
  forall x, m' x = if (d <=? x) && (x <? d + n) then Some v else m x.

Lemma copied_differ m m' d s n : copied m m' d s n -> differ_in m m' d n.
Proof. intros H x Hx. rewrite H. zcases; simpl; try done; lia. Qed.

Lemma filled_differ m m' d v n : filled m m' d v n -> differ_in m m' d n.
Proof. intros H x Hx. rewrite H. zcases; simpl; try done; lia. Qed.

Lemma copy_up_spec m d s k :
  bytes_ok m -> mapped m s (Z.of_nat k) -> mapped m d (Z.of_nat k) ->
  d <= s \/ s + Z.of_nat k <= d ->
  exists m', copy_up m d s k = Some m' /\ same_mapped m m' /\ bytes_ok m' /\
    copied m m' d s (Z.of_nat k).
Proof.
  revert m d s. induction k as [|k IH]; intros m d s Hb Hs Hd Hov.
  { exists m. split; [done|]. split; [done|]. split; [done|].
    intros x. zcases; simpl; try done; lia. }
  cbn [copy_up]. unfold load8. destruct (Hs s) as [b Eb]; [lia|]. rewrite Eb. cbn [mbind option_bind].
  assert (Hd0 : is_Some (m d)) by (apply Hd; lia).
  rewrite store8_some by done. cbn [mbind option_bind].
  rewrite (Z.mod_small b) by exact (Hb _ _ Eb). set (m1 := upd m d b).
  assert (Hm1 : same_mapped m m1) by by apply same_mapped_upd.
  destruct (IH m1 (d + 1) (s + 1)) as (m' & E & Hs' & Hb' & Hc).
  - unfold m1. rewrite <- (Z.mod_small b 256) by exact (Hb _ _ Eb). by apply bytes_ok_upd.
  - eapply mapped_same; [exact Hm1|]. eapply mapped_sub; [exact Hs|lia|lia].
  - eapply mapped_same; [exact Hm1|]. eapply mapped_sub; [exact Hd|lia|lia].
  - lia.
  - exists m'. split; [done|]. split; [by etrans|]. split; [done|].
    intros x. rewrite (Hc x). unfold m1, upd. zcases; simpl; try done; try lia; subst;
      rewrite <- ?Eb; f_equal; lia.
Qed.

Lemma copy_down_spec m d s k :
  bytes_ok m -> mapped m s (Z.of_nat k) -> mapped m d (Z.of_nat k) -> s <= d ->
  exists m', copy_down m d s k = Some m' /\ same_mapped m m' /\ bytes_ok m' /\
    copied m m' d s (Z.of_nat k).
Proof.
  revert m. induction k as [|k IH]; intros m Hb Hs Hd Hov.
  { exists m. split; [done|]. split; [done|]. split; [done|].
    intros x. zcases; simpl; try done; lia. }
  cbn [copy_down]. unfold load8. destruct (Hs (s + Z.of_nat k)) as [b Eb]; [lia|].
  rewrite Eb. cbn [mbind option_bind].
  rewrite store8_some by (apply Hd; lia). cbn [mbind option_bind].
  rewrite (Z.mod_small b) by exact (Hb _ _ Eb). set (m1 := upd m (d + Z.of_nat k) b).
  assert (Hm1 : same_mapped m m1) by (apply same_mapped_upd, Hd; lia).
  destruct (IH m1) as (m' & E & Hs' & Hb' & Hc).
  - unfold m1. rewrite <- (Z.mod_small b 256) by exact (Hb _ _ Eb). by apply bytes_ok_upd.
  - eapply mapped_same; [exact Hm1|]. eapply mapped_sub; [exact Hs|lia|lia].
  - eapply mapped_same; [exact Hm1|]. eapply mapped_sub; [exact Hd|lia|lia].
  - lia.
  - exists m'. split; [done|]. split; [by etrans|]. split; [done|].
    intros x. rewrite (Hc x). unfold m1, upd. zcases; simpl; try done; try lia; subst;
      rewrite <- ?Eb; f_equal; lia.
Qed.

(** Storing a word read elsewhere copies its bytes. *)
Lemma store_load_bytes m0 m s d n w :
  bytes_ok m -> load_le m s n = Some w -> mapped m0 d (Z.of_nat n) ->
  exists m', store_le m0 d n w = Some m' /\
    forall x, m' x = if (d <=? x) && (x <? d + Z.of_nat n) then m (s + (x - d)) else m0 x.
Proof.
  intros Hb. revert m0 s d w. induction n as [|n IH]; intros m0 s d w Hl Hd.
  { exists m0. split; [done|]. intros x. zcases; simpl; try done; lia. }
  cbn [load_le] in Hl. unfold load8 in Hl. destruct (m s) as [b|] eqn:Eb; [|done].
  cbn [mbind option_bind] in Hl. destruct (load_le m (s + 1) n) as [r|] eqn:Er; [|done].
  cbn [mbind option_bind] in Hl. injection Hl as <-. pose proof (Hb _ _ Eb) as Hbb.
  cbn [store_le]. assert (Hd0 : is_Some (m0 d)) by (apply Hd; lia).
  rewrite store8_some by done. cbn [mbind option_bind].
  replace ((b + 256 * r) mod 256) with b by zdiv.
  replace ((b + 256 * r) / 256) with r by zdiv.
  destruct (IH (upd m0 d b) (s + 1) (d + 1) r Er) as (m' & E & Hc).
  { eapply mapped_same; [by apply same_mapped_upd|]. eapply mapped_sub; [exact Hd|lia|lia]. }
  exists m'. split; [done|]. intros x. rewrite (Hc x). unfold upd.
  zcases; simpl; try done; try lia; subst;
    rewrite <- ?Eb; f_equal; lia.
Qed.

Lemma copied_trans m m1 m2 d s a b :
  0 <= a -> 0 <= b -> d + a <= s + a \/ s + a + b <= d ->
  copied m m1 d s a -> copied m1 m2 (d + a) (s + a) b -> copied m m2 d s (a + b).
Proof.
  intros Ha Hb Hov H1 H2 x. rewrite (H2 x).
  zcases; simpl; try (rewrite H1; zcases; simpl; f_equal; lia);
    rewrite (H1 x); zcases; simpl; try done; lia.
Qed.

Lemma filled_trans m m1 m2 d v a b :
  0 <= a -> 0 <= b -> filled m m1 d v a -> filled m1 m2 (d + a) v b -> filled m m2 d v (a + b).
Proof.
  intros Ha Hb H1 H2 x. rewrite (H2 x). rewrite (H1 x). zcases; simpl; try done; lia.
Qed.

Lemma copy_words_spec m d s k :
  bytes_ok m -> mapped m s (8 * Z.of_nat k) -> mapped m d (8 * Z.of_nat k) ->
  d <= s \/ s + 8 * Z.of_nat k <= d ->
  exists m', copy_words m d s k = Some m' /\ same_mapped m m' /\ bytes_ok m' /\
    copied m m' d s (8 * Z.of_nat k).
Proof.
  revert m d s. induction k as [|k IH]; intros m d s Hb Hs Hd Hov.
  { exists m. split; [done|]. split; [done|]. split; [done|].
    intros x. zcases; simpl; try done; lia. }
  cbn [copy_words]. destruct (load_le_some m s 8) as [w Ew].
  { eapply mapped_sub; [exact Hs|lia|lia]. }
  assert (Hd0 : mapped m d 8) by (eapply mapped_sub; [exact Hd|lia|lia]).
  unfold load64, store64. rewrite Ew. cbn [mbind option_bind].
  destruct (store_load_bytes m m s d 8 w Hb Ew Hd0) as (m1 & E1 & Hc1).
  destruct (store_le_some m d 8 w Hd0) as (m1' & E1' & Hm1 & _ & Hb1 & _).
  rewrite E1 in E1'. injection E1' as <-. rewrite E1. cbn [mbind option_bind].
  destruct (IH m1 (d + 8) (s + 8)) as (m' & E & Hs' & Hb' & Hc).
  - by apply Hb1.
  - eapply mapped_same; [exact Hm1|]. eapply mapped_sub; [exact Hs|lia|lia].
  - eapply mapped_same; [exact Hm1|]. eapply mapped_sub; [exact Hd|lia|lia].
  - lia.
  - exists m'. split; [done|]. split; [by etrans|]. split; [done|].
    replace (8 * Z.of_nat (S k)) with (8 + 8 * Z.of_nat k) by lia.
    eapply copied_trans; [lia|lia| |exact Hc1|exact Hc]. lia.
Qed.

Lemma memcpy_spec m d s n :
  bytes_ok m -> 0 <= n -> mapped m s n -> mapped m d n -> d <= s \/ s + n <= d ->
  exists m', memcpy m d s n = Some (m', d) /\ same_mapped m m' /\ bytes_ok m' /\ copied m m' d s n.
Proof.
  intros Hb Hn Hs Hd Hov. unfold memcpy.
  destruct (_ && _).
  - destruct (copy_words_spec m d s (Z.to_nat (n / 8))) as (m1 & E1 & Hm1 & Hb1 & Hc1).
    { done. } { eapply mapped_sub; [exact Hs|lia|zdiv]. } { eapply mapped_sub; [exact Hd|lia|zdiv]. }
    { zdiv. }
    rewrite E1. cbn [mbind option_bind].
    destruct (copy_up_spec m1 (d + n / 8 * 8) (s + n / 8 * 8) (Z.to_nat (n - n / 8 * 8)))
      as (m2 & E2 & Hm2 & Hb2 & Hc2).
    { done. }
    { eapply mapped_same; [exact Hm1|]. eapply mapped_sub; [exact Hs|zdiv|zdiv]. }
    { eapply mapped_same; [exact Hm1|]. eapply mapped_sub; [exact Hd|zdiv|zdiv]. }
    { zdiv. }
    rewrite E2. cbn [mbind option_bind]. exists m2. split; [done|]. split; [by etrans|].
    split; [done|].
    replace n with (8 * Z.of_nat (Z.to_nat (n / 8)) + Z.of_nat (Z.to_nat (n - n / 8 * 8))) at 1 by zdiv.
    eapply copied_trans; [lia|lia| |exact Hc1|].
    + zdiv.
    + replace (8 * Z.of_nat (Z.to_nat (n / 8))) with (n / 8 * 8) by zdiv. exact Hc2.
  - destruct (copy_up_spec m d s (Z.to_nat n)) as (m1 & E1 & Hm1 & Hb1 & Hc1); rewrite ?Z2Nat.id by lia; try done.
    rewrite E1. cbn [mbind option_bind]. exists m1. rewrite Z2Nat.id in Hc1 by lia. done.
Qed.

Lemma memmove_spec m d s n :
  bytes_ok m -> 0 <= n -> mapped m s n -> mapped m d n ->
  exists m', memmove m d s n = Some (m', d) /\ same_mapped m m' /\ bytes_ok m' /\ copied m m' d s n.
Proof.
  intros Hb Hn Hs Hd. unfold memmove.
  destruct (Z.eqb_spec d s) as [->|Hds]; [|destruct (Z.eqb_spec n 0) as [->|]]; cbn [orb].
  1, 2: exists m; split; [done|]; split; [done|]; split; [done|]; intros x; zcases; simpl; f_equal; lia.
  destruct (Z.ltb_spec d s).
  - destruct (copy_up_spec m d s (Z.to_nat n)) as (m1 & E1 & Hm1 & Hb1 & Hc1);
      rewrite ?Z2Nat.id by lia; try done; [lia|].
    rewrite E1. rewrite Z2Nat.id in Hc1 by lia. eexists; done.
  - destruct (copy_down_spec m d s (Z.to_nat n)) as (m1 & E1 & Hm1 & Hb1 & Hc1);
      rewrite ?Z2Nat.id by lia; try done.
    rewrite E1. rewrite Z2Nat.id in Hc1 by lia. eexists; done.
Qed.

Lemma fill_bytes_spec m d v k :
  0 <= v < 256 -> mapped m d (Z.of_nat k) ->
  exists m', fill_bytes m d v k = Some m' /\ same_mapped m m' /\ (bytes_ok m -> bytes_ok m') /\
    filled m m' d v (Z.of_nat k).
Proof.
  intros Hv. revert m d. induction k as [|k IH]; intros m d Hd.
  { exists m. split; [done|]. split; [done|]. split; [done|]. intros x. zcases; simpl; try done; lia. }
  cbn [fill_bytes]. rewrite store8_some by (apply Hd; lia). cbn [mbind option_bind].
  assert (Hm1 : same_mapped m (upd m d (v mod 256))) by (apply same_mapped_upd, Hd; lia).
  destruct (IH (upd m d (v mod 256)) (d + 1)) as (m' & E & Hs & Hb & Hf).
  { eapply mapped_same; [exact Hm1|]. eapply mapped_sub; [exact Hd|lia|lia]. }
  exists m'. split; [done|]. split; [by etrans|]. split; [intros; by apply Hb, bytes_ok_upd|].
  intros x. rewrite (Hf x). unfold upd. rewrite Z.mod_small by lia. zcases; simpl; try done; lia.
Qed.

(** The bytes of [0x0101010101010101 * v] are all [v]. *)
Lemma store_splat m d v n :
  0 <= v < 256 -> mapped m d (Z.of_nat n) ->
  exists m', store_le m d n (v * ((256 ^ Z.of_nat n - 1) / 255)) = Some m' /\
    filled m m' d v (Z.of_nat n).
Proof.
  intros Hv. revert m d. induction n as [|n IH]; intros m d Hm.
  { exists m. split; [done|]. intros x. zcases; simpl; try done; lia. }
  cbn [store_le]. rewrite store8_some by (apply Hm; lia). cbn [mbind option_bind].
  assert (Hp : (256 ^ Z.of_nat (S n) - 1) / 255 = 1 + 256 * ((256 ^ Z.of_nat n - 1) / 255)).
  { rewrite pow_of_S. set (p := 256 ^ Z.of_nat n).
    assert (Hp : (p - 1) mod 255 = 0).
    { unfold p. clear. induction n as [|n IH]; [done|]. rewrite pow_of_S.
      revert IH. generalize (256 ^ Z.of_nat n). intros p IH. zdiv. }
    zdiv. }
  rewrite Hp. set (q := (256 ^ Z.of_nat n - 1) / 255) in *.
  replace ((v * (1 + 256 * q)) mod 256) with v
    by (replace (v * (1 + 256 * q)) with (v + v * q * 256) by lia;
        rewrite Z.mod_add, Z.mod_small; lia).
  replace ((v * (1 + 256 * q)) / 256) with (v * q)
    by (replace (v * (1 + 256 * q)) with (v + v * q * 256) by lia;
        rewrite Z.div_add, Z.div_small; lia).
  destruct (IH (upd m d v) (d + 1)) as (m' & E & Hf).
  { eapply mapped_same; [apply same_mapped_upd, Hm; lia|]. eapply mapped_sub; [exact Hm|lia|lia]. }
  exists m'. split; [done|]. intros x. rewrite (Hf x). unfold upd. zcases; simpl; try done; lia.
Qed.

Lemma fill_words_spec m d v k :
  0 <= v < 256 -> mapped m d (8 * Z.of_nat k) ->
  exists m', fill_words m d (72340172838076673 *w v) k = Some m' /\ same_mapped m m' /\
    (bytes_ok m -> bytes_ok m') /\ filled m m' d v (8 * Z.of_nat k).
Proof.
  intros Hv. rewrite wrap64_small by lia. revert m d. induction k as [|k IH]; intros m d Hd.
  { exists m. split; [done|]. split; [done|]. split; [done|]. intros x. zcases; simpl; try done; lia. }
  cbn [fill_words]. unfold store64.
  assert (Hd0 : mapped m d 8) by (eapply mapped_sub; [exact Hd|lia|lia]).
  destruct (store_splat m d v 8 Hv Hd0) as (m1 & E1 & Hf1).
  replace (v * ((256 ^ Z.of_nat 8 - 1) / 255)) with (72340172838076673 * v) in E1
    by (change ((256 ^ Z.of_nat 8 - 1) / 255) with 72340172838076673; lia).
  destruct (store_le_some m d 8 (72340172838076673 * v) Hd0) as (m1' & E1' & Hm1 & _ & Hb1 & _).
  rewrite E1 in E1'. injection E1' as <-. rewrite E1. cbn [mbind option_bind].
  destruct (IH m1 (d + 8)) as (m' & E & Hs & Hb & Hf).
  { eapply mapped_same; [exact Hm1|]. eapply mapped_sub; [exact Hd|lia|lia]. }
  exists m'. split; [done|]. split; [by etrans|]. split; [auto|].
  replace (8 * Z.of_nat (S k)) with (8 + 8 * Z.of_nat k) by lia.
  eapply filled_trans; [lia|lia|exact Hf1|exact Hf].
Qed.

Lemma memset_spec m d c n :
  0 <= n -> mapped m d n ->
  exists m', memset m d c n = Some (m', d) /\ same_mapped m m' /\ (bytes_ok m -> bytes_ok m') /\
    filled m m' d (c mod 256) n.
Proof.
  intros Hn Hd. unfold memset. assert (Hv : 0 <= c mod 256 < 256) by (apply Z.mod_pos_bound; lia).
  destruct (_ =? _).
  - destruct (fill_words_spec m d (c mod 256) (Z.to_nat (n / 8))) as (m1 & E1 & Hm1 & Hb1 & Hf1).
    { done. } { eapply mapped_sub; [exact Hd|lia|zdiv]. }
    rewrite E1. cbn [mbind option_bind].
    destruct (fill_bytes_spec m1 (d + n / 8 * 8) (c mod 256) (Z.to_nat (n - n / 8 * 8)))
      as (m2 & E2 & Hm2 & Hb2 & Hf2).
    { done. } { eapply mapped_same; [exact Hm1|]. eapply mapped_sub; [exact Hd|zdiv|zdiv]. }
    rewrite E2. cbn [mbind option_bind]. exists m2. split; [done|]. split; [by etrans|].
    split; [auto|].
    replace n with (8 * Z.of_nat (Z.to_nat (n / 8)) + Z.of_nat (Z.to_nat (n - n / 8 * 8))) at 1 by zdiv.
    eapply filled_trans; [lia|lia|exact Hf1|].
    replace (8 * Z.of_nat (Z.to_nat (n / 8))) with (n / 8 * 8) by zdiv. exact Hf2.
  - destruct (fill_bytes_spec m d (c mod 256) (Z.to_nat n)) as (m1 & E1 & Hm1 & Hb1 & Hf1);
      rewrite ?Z2Nat.id by lia; try done.
    rewrite E1. cbn [mbind option_bind]. exists m1. rewrite Z2Nat.id in Hf1 by lia. done.
Qed.

(** ** Reading strings *)

Lemma strlen_spec m p l fuel :
  str_at m p l -> (length l < fuel)%nat -> strlen fuel m p = Some (Z.of_nat (length l)).
Proof.
  unfold strlen. revert p fuel. induction l as [|b l IH]; intros p [|fuel] H Hf; cbn [length] in *; try lia;
    apply str_at_head in H; cbn [strlen_from]; unfold load8.
  - rewrite H. done.
  - destruct H as (E & Hb & H). rewrite E. cbn [mbind option_bind].
    destruct (Z.eqb_spec b 0); [lia|]. rewrite (IH _ fuel) by (done || lia). cbn [mbind option_bind].
    f_equal. lia.
Qed.

(** The order [memcmp] and [strcmp] compare by: the difference of the first
    bytes that differ. *)
Fixpoint bytes_diff (l1 l2 : list Z) : Z :=
  match l1, l2 with
  | a :: l1', b :: l2' => if a =? b then bytes_diff l1' l2' else a - b
  | a :: _, [] => a
  | [], b :: _ => - b
  | [], [] => 0
  end.

Lemma memcmp_spec m x y l1 l2 :
  bytes_at m x l1 -> bytes_at m y l2 -> length l1 = length l2 ->
  memcmp m x y (Z.of_nat (length l1)) = Some (bytes_diff l1 l2).
Proof.
  unfold memcmp. rewrite Nat2Z.id.
  revert x y l2. induction l1 as [|a l1 IH]; intros x y [|b l2] H1 H2 Hl; try done.
  apply bytes_at_cons in H1 as [Ea H1], H2 as [Eb H2]. cbn [length memcmp_from bytes_diff]. unfold load8.
  rewrite Ea. cbn [mbind option_bind]. rewrite Eb. cbn [mbind option_bind].
  destruct (Z.eqb_spec a b); cbn [negb]; [|done]. apply IH; [done|done|]. simpl in Hl. lia.
Qed.

Lemma bytes_diff_zero l1 l2 : length l1 = length l2 -> bytes_diff l1 l2 = 0 <-> l1 = l2.
Proof.
  revert l2. induction l1 as [|a l1 IH]; intros [|b l2] Hl; try done.
  cbn [bytes_diff]. destruct (Z.eqb_spec a b) as [->|].
  - rewrite IH by (simpl in Hl; lia). split; [by intros ->|by intros [= ->]].
  - split; [lia|]. intros [= ->]. done.
Qed.

Lemma strcmp_spec m x y l1 l2 fuel :
  str_at m x l1 -> str_at m y l2 -> (length l1 < fuel)%nat ->
  strcmp fuel m x y = Some (bytes_diff l1 l2).
Proof.
  revert x y l2 fuel. induction l1 as [|a l1 IH]; intros x y l2 [|fuel] H1 H2 Hf; cbn [length] in Hf; try lia;
    apply str_at_head in H1; apply str_at_head in H2; cbn [strcmp]; unfold load8.
  - rewrite H1. cbn [mbind option_bind]. destruct l2 as [|b l2].
    + rewrite H2. done.
    + destruct H2 as (-> & Hb & _). done.
  - destruct H1 as (-> & Ha & H1). cbn [mbind option_bind]. destruct l2 as [|b l2].
    + rewrite H2. cbn [mbind option_bind bytes_diff]. zcases; simpl; try lia; try done. f_equal; lia.
    + destruct H2 as (-> & Hb & H2). cbn [mbind option_bind bytes_diff].
      zcases; simpl; try lia; try done. by apply IH; [..|lia].
Qed.

(** The lexicographic order of unsigned bytes. *)
Fixpoint bytes_lt (l1 l2 : list Z) : bool :=
  match l1, l2 with
  | _, [] => false
  | [], _ :: _ => true
  | a :: l1', b :: l2' => (a <? b) || ((a =? b) && bytes_lt l1' l2')
  end.

Lemma bytes_diff_sign l1 l2 :
  Forall (fun b => 0 < b < 256) l1 -> Forall (fun b => 0 < b < 256) l2 ->
  (bytes_diff l1 l2 = 0 <-> l1 = l2) /\ (bytes_diff l1 l2 < 0 <-> bytes_lt l1 l2 = true) /\
  (0 < bytes_diff l1 l2 <-> bytes_lt l2 l1 = true).
Proof.
  intros H1. revert l2. induction H1 as [|a l1 Ha H1 IH]; intros l2 H2; destruct H2 as [|b l2 Hb H2];
    cbn [bytes_diff bytes_lt]; try (split; [|split]; split; (lia || done)).
  cbn beta in *. destruct (IH l2 H2) as (I1 & I2 & I3).
  zcases; simpl; subst; try lia.
  - split; [|split]; split; try (lia || done || congruence).
  - split; [|split]; split; try (lia || done || congruence).
  - rewrite I1, I2, I3. split; [|done]. split; [by intros ->|by intros [= ->]].
Qed.

(** [l] occurs in [h] at [i]. *)
Definition occurs (l h : list Z) (i : nat) : Prop := l `prefix_of` drop i h.

Lemma occurs_bytes m p h l i :
  bytes_at m p h -> (i + length l <= length h)%nat ->
  exists l', bytes_at m (p + Z.of_nat i) l' /\ length l' = length l /\ (l' = l <-> occurs l h i).
Proof.
  intros Hp Hi. exists (take (length l) (drop i h)). split; [|split].
  - intros j b Hj. apply lookup_take_Some in Hj as [Hj _]. rewrite lookup_drop in Hj.
    rewrite <- (Hp _ _ Hj). f_equal. lia.
  - rewrite length_take, length_drop. lia.
  - unfold occurs. split.
    + intros <-. exists (drop (length l) (drop i h)). by rewrite take_drop.
    + intros [k ->]. by rewrite take_app_length.
Qed.

Lemma memmem_from_spec m p q h l i k :
  bytes_at m p h -> bytes_at m q l -> (0 < length l)%nat -> (i + k + length l = S (length h))%nat ->
  (exists j, memmem_from m (p + Z.of_nat i) q (Z.of_nat (length l)) k = Some (p + Z.of_nat j) /\
     (i <= j)%nat /\ occurs l h j /\ forall j', (i <= j' < j)%nat -> ~ occurs l h j') \/
  (memmem_from m (p + Z.of_nat i) q (Z.of_nat (length l)) k = Some 0 /\
     forall j, (i <= j)%nat -> ~ occurs l h j).
Proof.
  intros Hp Hq Hl. revert i. induction k as [|k IH]; intros i Hk.
  { right. split; [done|]. intros j Hj [r Hr]. apply (f_equal length) in Hr.
    rewrite length_drop, length_app in Hr. lia. }
  destruct (occurs_bytes m p h l i Hp) as (l' & Hl' & Hlen & Hocc); [lia|].
  destruct l as [|b l]; [simpl in Hl; lia|]. destruct l' as [|a l']; [done|].
  assert (Hrec : a :: l' <> b :: l ->
    memmem_from m (p + Z.of_nat i) q (Z.of_nat (length (b :: l))) (S k) =
    memmem_from m (p + Z.of_nat (S i)) q (Z.of_nat (length (b :: l))) k).
  { intros Hne. cbn [memmem_from].
    pose proof (proj1 (proj1 (bytes_at_cons _ _ _ _) Hl')) as Ea.
    pose proof (proj1 (proj1 (bytes_at_cons _ _ _ _) Hq)) as Eb.
    unfold load8. rewrite Ea. cbn [mbind option_bind]. rewrite Eb. cbn [mbind option_bind].
    replace (p + Z.of_nat (S i)) with (p + Z.of_nat i + 1) by lia.
    destruct (Z.eqb_spec a b); [|done].
    rewrite <- Hlen. rewrite (memcmp_spec m _ q (a :: l') (b :: l)) by done. cbn [mbind option_bind].
    destruct (Z.eqb_spec (bytes_diff (a :: l') (b :: l)) 0) as [H0|]; [|done].
    by apply bytes_diff_zero in H0. }
  destruct (decide (a :: l' = b :: l)) as [Heq|Hne].
  - left. exists i. split; [|split; [lia|split; [by apply Hocc|lia]]].
    cbn [memmem_from].
    pose proof (proj1 (proj1 (bytes_at_cons _ _ _ _) Hl')) as Ea.
    pose proof (proj1 (proj1 (bytes_at_cons _ _ _ _) Hq)) as Eb.
    unfold load8. rewrite Ea. cbn [mbind option_bind]. rewrite Eb. cbn [mbind option_bind].
    injection Heq as -> ->. rewrite Z.eqb_refl.
    rewrite (memcmp_spec m _ q (b :: l) (b :: l)) by done. cbn [mbind option_bind].
    assert (bytes_diff (b :: l) (b :: l) = 0) as -> by by apply bytes_diff_zero. done.
  - rewrite (Hrec Hne). destruct (IH (S i)) as [(j & E & Hj & Ho & Hmin)|(E & Hno)]; [lia| |].
    + left. exists j. split; [done|]. split; [lia|]. split; [done|].
      intros j' Hj'. destruct (decide (j' = i)) as [->|]; [|apply Hmin; lia]. by rewrite <- Hocc.
    + right. split; [done|]. intros j Hj. destruct (decide (j = i)) as [->|]; [|apply Hno; lia].
      by rewrite <- Hocc.
Qed.

Lemma occurs_nil h : occurs [] h 0.
Proof. exists h. done. Qed.

Lemma occurs_long l h i : occurs l h i -> l <> [] -> (i + length l <= length h)%nat.
Proof.
  intros [r Hr] Hl. apply (f_equal length) in Hr. rewrite length_drop, length_app in Hr.
  destruct l; [done|]. simpl in *. lia.
Qed.

(** ** The properties *)

(** C40: [memmove] never faults on mapped ranges and, however source and
    destination overlap, leaves the [n] source bytes as they were before the
    call at [d] and every other byte alone, and returns [d]. *)
Theorem memmove_overlap m d s n :
  bytes_ok m -> 0 <= n -> mapped m s n -> mapped m d n ->
  exists m', memmove m d s n = Some (m', d) /\ same_mapped m m' /\ bytes_ok m' /\
    (forall i, 0 <= i < n -> m' (d + i) = m (s + i)) /\
    (forall x, x < d \/ d + n <= x -> m' x = m x).
Proof.
  intros Hb Hn Hs Hd. destruct (memmove_spec m d s n) as (m' & E & Hm & Hb' & Hc); try done.
  exists m'. split; [done|]. split; [done|]. split; [done|]. split.
  - intros i Hi. rewrite (Hc (d + i)). zcases; simpl; try lia. f_equal. lia.
  - apply (copied_differ _ _ _ s), Hc.
Qed.

(** Ten mapped bytes holding their own address. *)
Definition demo_mem : mem := fun x => if (0 <=? x) && (x <? 10) then Some x else None.

Lemma demo_bytes : bytes_ok demo_mem.
Proof. intros x v. unfold demo_mem. zcases; simpl; intros Hv; try done. injection Hv as <-. lia. Qed.

Lemma demo_mapped a n : 0 <= a -> a + n <= 10 -> mapped demo_mem a n.
Proof. intros ? ? x Hx. unfold demo_mem. zcases; simpl; try lia. by eexists. Qed.

Lemma memmove_overlap_witness :
  exists m', memmove demo_mem 2 0 6 = Some (m', 2) /\ m' 7 = Some 5.
Proof.
  destruct (memmove_overlap demo_mem 2 0 6) as (m' & E & _ & _ & Hc & _).
  - exact demo_bytes.
  - lia.
  - apply demo_mapped; lia.
  - apply demo_mapped; lia.
  - exists m'. split; [exact E|]. exact (Hc 5 ltac:(lia)).
Defined.

(** [memcpy], whose aligned case moves words and then the odd bytes,
    gives the same memory as the byte loop, and [memset], whose aligned case
    stores the byte replicated over a word, fills exactly the range. *)
Theorem memcpy_memset_bytewise m d s n c :
  bytes_ok m -> 0 <= n -> mapped m s n -> mapped m d n -> d + n <= s \/ s + n <= d ->
  (exists m1 m2, memcpy m d s n = Some (m1, d) /\ copy_up m d s (Z.to_nat n) = Some m2 /\
     (forall x, m1 x = m2 x) /\ copied m m1 d s n /\ bytes_ok m1) /\
  (exists m1, memset m d c n = Some (m1, d) /\ filled m m1 d (c mod 256) n /\ bytes_ok m1).
Proof.
  intros Hb Hn Hs Hd Hov. split.
  - destruct (memcpy_spec m d s n) as (m1 & E1 & _ & Hb1 & Hc1); try done; [lia|].
    destruct (copy_up_spec m d s (Z.to_nat n)) as (m2 & E2 & _ & _ & Hc2);
      rewrite ?Z2Nat.id in * by lia; try done; [lia|].
    exists m1, m2. split; [done|]. split; [done|]. split; [|done].
    intros x. by rewrite (Hc1 x), (Hc2 x).
  - destruct (memset_spec m d c n) as (m1 & E1 & _ & Hb1 & Hf); try done. exists m1. auto.
Qed.

Lemma memcpy_memset_bytewise_witness :
  (exists m1 m2, memcpy demo_mem 0 5 4 = Some (m1, 0) /\ copy_up demo_mem 0 5 4 = Some m2 /\
     (forall x, m1 x = m2 x) /\ copied demo_mem m1 0 5 4 /\ bytes_ok m1) /\
  (exists m1, memset demo_mem 0 300 4 = Some (m1, 0) /\ filled demo_mem m1 0 44 4 /\ bytes_ok m1).
Proof.
  apply (memcpy_memset_bytewise demo_mem 0 5 4 300).
  - exact demo_bytes.
  - lia.
  - apply demo_mapped; lia.
  - apply demo_mapped; lia.
  - lia.
Defined.

(** [strcmp] terminates within the first string and orders the strings as
    sequences of unsigned bytes: zero exactly for equal strings, negative
    exactly when the first is lexicographically smaller, positive exactly when
    the second is. *)
Theorem strcmp_orders m x y l1 l2 :
  str_at m x l1 -> str_at m y l2 ->
  exists r, strcmp (S (length l1)) m x y = Some r /\
    (r = 0 <-> l1 = l2) /\ (r < 0 <-> bytes_lt l1 l2 = true) /\ (0 < r <-> bytes_lt l2 l1 = true).
Proof.
  intros H1 H2. exists (bytes_diff l1 l2). split; [by apply strcmp_spec; [..|lia]|].
  apply bytes_diff_sign; [apply H1|apply H2].
Qed.

(** "ab" at 0 and "abab" at 3. *)
Definition demo_strs : mem := fun x =>
  if (0 <=? x) && (x <? 8) then [97; 98; 0; 97; 98; 97; 98; 0] !! Z.to_nat x else None.

Lemma demo_str_at a l :
  forallb (fun i => bool_decide (demo_strs (a + Z.of_nat i) = (l ++ [0]) !! i)) (seq 0 (S (length l))) = true ->
  forallb (fun b => (0 <? b) && (b <? 256)) l = true -> str_at demo_strs a l.
Proof.
  intros H1 H2. split.
  - intros i b Hi. rewrite forallb_forall in H1. specialize (H1 i).
    assert (Hin : In i (seq 0 (S (length l)))).
    { apply in_seq. apply lookup_lt_Some in Hi. rewrite length_app in Hi. simpl in *. lia. }
    specialize (H1 Hin). apply bool_decide_eq_true in H1. by rewrite H1, Hi.
  - apply Forall_forall. intros b Hb. rewrite forallb_forall in H2.
    specialize (H2 b (proj1 (list_elem_of_In _ _) Hb)). lia.
Qed.

Lemma strcmp_orders_witness :
  exists r, strcmp 3 demo_strs 0 3 = Some r /\
    (r = 0 <-> [97; 98] = [97; 98; 97; 98]) /\ (r < 0 <-> true = true) /\ (0 < r <-> false = true).
Proof.
  apply (strcmp_orders demo_strs 0 3 [97; 98] [97; 98; 97; 98]); apply demo_str_at; reflexivity.
Defined.

(** [strstr] returns the address of the first occurrence of the needle, or
    NULL when it does not occur, reading only the two strings. *)
Theorem strstr_first m x y h l fuel :
  str_at m x h -> str_at m y l -> (length h < fuel)%nat -> (length l < fuel)%nat ->
  (exists i, strstr fuel m x y = Some (x + Z.of_nat i) /\ occurs l h i /\
     forall j, (j < i)%nat -> ~ occurs l h j) \/
  (strstr fuel m x y = Some 0 /\ forall i, ~ occurs l h i).
Proof.
  intros Hx Hy Hf1 Hf2. unfold strstr. rewrite (strlen_spec m x h), (strlen_spec m y l) by assumption.
  cbn [mbind option_bind].
  destruct (Z.eqb_spec (Z.of_nat (length l)) 0) as [H0|H0].
  { left. exists 0%nat. destruct l; [|simpl in H0; lia]. rewrite Z.add_0_r. split; [done|]. split; [apply occurs_nil|lia]. }
  assert (Hl : l <> []) by (intros ->; done).
  destruct (Z.ltb_spec (Z.of_nat (length h)) (Z.of_nat (length l))).
  { right. split; [done|]. intros i Hi%occurs_long; [lia|done]. }
  unfold memmem. destruct (Z.eqb_spec (Z.of_nat (length l)) 0); [done|].
  destruct (Z.ltb_spec (Z.of_nat (length h)) (Z.of_nat (length l))); [lia|].
  apply proj1, bytes_at_app, proj1 in Hx. apply proj1, bytes_at_app, proj1 in Hy.
  destruct (memmem_from_spec m x y h l 0 (Z.to_nat (Z.of_nat (length h) - Z.of_nat (length l) + 1)))
    as [(j & E & Hj & Ho & Hmin)|(E & Hno)]; rewrite ?Z.add_0_r in *; try done; try lia.
  - left. exists j. split; [done|]. split; [done|]. intros j' Hj'. apply Hmin. lia.
  - right. split; [done|]. intros j. apply Hno. lia.
Qed.

Lemma strstr_first_witness :
  (exists i, strstr 9 demo_strs 3 0 = Some (3 + Z.of_nat i) /\ occurs [97; 98] [97; 98; 97; 98] i /\
     forall j, (j < i)%nat -> ~ occurs [97; 98] [97; 98; 97; 98] j) \/
  (strstr 9 demo_strs 3 0 = Some 0 /\ forall i, ~ occurs [97; 98] [97; 98; 97; 98] i).
Proof.
  apply (strstr_first demo_strs 3 0 [97; 98; 97; 98] [97; 98] 9).
  - apply demo_str_at; reflexivity.
  - apply demo_str_at; reflexivity.
  - simpl; lia.
  - simpl; lia.
Defined.
