(* ===== verification/NlMalloc.v ===== *)
(** nolibc's allocator, [src/unikernel/nolibc/malloc.c], and the two calls it
    makes to the machine, [nl_map] and [nl_unmap].

    Block headers and the links of the free lists live in the modelled
    memory, where the code keeps them: a block of a free list holds the next
    block's address where its header's size was.  The page source is an
    interface ([PageMap] with the laws [PageMapLaws]); [Guest] implements it
    with the page allocator of [PageAlloc]. *)

From S2P Require Import Prelude Ranges PageAlloc CMem NlString.

Open Scope word_scope.

(** ** The page source *)

Class PageMap (S : Type) := {
  nl_map : Z -> S -> mem -> Z * S * mem;
  nl_unmap : Z -> Z -> S -> mem -> S * mem;
  (** The machine state is good and the client holds these mappings. *)
  os_inv : S -> mem -> list range -> Prop
}.

(** A mapping of the client: a page-aligned, mapped range, not at page zero
    and not wrapping around. *)
Definition held_ok (m : mem) (r : range) : Prop :=
  0 < r_base r /\ 0 < r_len r /\ r_end r < 2 ^ 64 /\ r_base r mod PA_PAGE = 0 /\ mapped m (r_base r) (r_len r).

(** What the allocator relies on. *)
Class PageMapLaws (S : Type) `{PageMap S} := {
  os_perm s m h1 h2 : h1 ≡ₚ h2 -> os_inv s m h1 -> os_inv s m h2;
  os_bytes s m held : os_inv s m held -> bytes_ok m;
  os_held s m held : os_inv s m held -> Forall (held_ok m) held;
  os_cov s m held x : os_inv s m held -> cov held x <= 1;
  os_store s m m' held : os_inv s m held -> same_mapped m m' -> bytes_ok m' -> os_inv s m' held;
  map_ok s m held n p s' m' :
    os_inv s m held -> 0 < n <= 2 ^ 64 - PA_PAGE -> n mod PA_PAGE = 0 -> nl_map n s m = (p, s', m') ->
    os_inv s' m' (if p =? 0 then held else Range p n :: held) /\
    (forall x, 0 < cov held x -> m' x = m x);
  unmap_ok s m held n p s' m' :
    os_inv s m (Range p n :: held) -> nl_unmap p n s m = (s', m') ->
    os_inv s' m' held /\ (forall x, 0 < cov held x -> m' x = m x)
}.

(** ** The allocator *)

Definition NL_ARENA : Z := 2 ^ 20.
Definition NL_CLASSES : nat := 9.
Definition NL_BIG : Z := 2 ^ 64 - 1.
(** [sizeof(struct nl_head)]: the size word, then the kind word. *)
Definition nl_head_size : Z := 16.

Record nl_state (S : Type) := NlState {
  nl_free_list : list Z;     (* NL_CLASSES list heads *)
  nl_arena_p : Z;
  nl_arena_left : Z;
  nl_os : S;
  nl_mem : mem
}.
Arguments NlState {S}.
Arguments nl_free_list {S}.
Arguments nl_arena_p {S}.
Arguments nl_arena_left {S}.
Arguments nl_os {S}.
Arguments nl_mem {S}.

(** [while (c < NL_CLASSES && sz < n) { sz <<= 1; c++; }] with [k] classes
    left; -1 when they are used up. *)
Fixpoint class_from (k : nat) (sz n c : Z) : Z :=
  match k with
  | O => -1
  | Datatypes.S k' => if sz <? n then class_from k' (wrap64 (Z.shiftl sz 1)) n (c + 1) else c
  end.

Definition nl_class_of (n : Z) : Z := class_from NL_CLASSES 32 n 0.

Definition nl_class_size (c : Z) : Z := wrap64 (Z.shiftl 32 c).

Section malloc.
Context {S : Type} `{PageMap S}.

Definition set_mem (m : mem) (st : nl_state S) : nl_state S :=
  NlState (nl_free_list st) (nl_arena_p st) (nl_arena_left st) (nl_os st) m.

Definition set_free (fl : list Z) (st : nl_state S) : nl_state S :=
  NlState fl (nl_arena_p st) (nl_arena_left st) (nl_os st) (nl_mem st).

(** [nl_arena_p += bytes; nl_arena_left -= bytes] and the old pointer. *)
Definition carve_take (bytes : Z) (st : nl_state S) : Z * nl_state S :=
  (nl_arena_p st,
   NlState (nl_free_list st) (nl_arena_p st +w bytes) (nl_arena_left st -w bytes)
     (nl_os st) (nl_mem st)).

Definition nl_carve (bytes : Z) (st : nl_state S) : Z * nl_state S :=
  if nl_arena_left st <? bytes then
    let want := if NL_ARENA <? bytes then bytes else NL_ARENA in
    let '(p, os', m') := nl_map want (nl_os st) (nl_mem st) in
    if p =? 0 then (0, NlState (nl_free_list st) (nl_arena_p st) (nl_arena_left st) os' m')
    else carve_take bytes (NlState (nl_free_list st) p want os' m')
  else carve_take bytes st.

(** [h->size = size; h->kind = kind; return h + 1;] *)
Definition set_head (h size kind : Z) (st : nl_state S) : option (Z * nl_state S) :=
  m1 ← store64 (nl_mem st) h size;
  m2 ← store64 m1 (h + 8) kind;
  Some (h +w nl_head_size, set_mem m2 st).

Definition malloc (n : Z) (st : nl_state S) : option (Z * nl_state S) :=
  let n := if n =? 0 then 1 else n in
  if NL_BIG - nl_head_size - 4095 <? n then Some (0, st) else
  let c := nl_class_of (n +w nl_head_size) in
  if c <? 0 then
    let total := n +w nl_head_size in
    let total := Z.land (total +w 4095) (not64 4095) in
    let '(h, os', m') := nl_map total (nl_os st) (nl_mem st) in
    let st := NlState (nl_free_list st) (nl_arena_p st) (nl_arena_left st) os' m' in
    if h =? 0 then Some (0, st)
    else set_head h (total -w nl_head_size) NL_BIG st
  else
    head ← nl_free_list st !! Z.to_nat c;
    if negb (head =? 0) then
      next ← load64 (nl_mem st) head;
      set_head head (nl_class_size c -w nl_head_size) c
        (set_free (<[Z.to_nat c := next]> (nl_free_list st)) st)
    else
      let '(h, st) := nl_carve (nl_class_size c) st in
      if h =? 0 then Some (0, st)
      else set_head h (nl_class_size c -w nl_head_size) c st.

Definition free (p : Z) (st : nl_state S) : option (nl_state S) :=
  if p =? 0 then Some st else
  let h := p -w nl_head_size in
  kind ← load64 (nl_mem st) (h + 8);
  if kind =? NL_BIG then
    size ← load64 (nl_mem st) h;
    let '(os', m') := nl_unmap h (size +w nl_head_size) (nl_os st) (nl_mem st) in
    Some (NlState (nl_free_list st) (nl_arena_p st) (nl_arena_left st) os' m')
  else
    head ← nl_free_list st !! Z.to_nat kind;
    m' ← store64 (nl_mem st) h head;
    Some (set_free (<[Z.to_nat kind := h]> (nl_free_list st)) (set_mem m' st)).

Definition malloc_usable_size (p : Z) (st : nl_state S) : option Z :=
  if p =? 0 then Some 0 else load64 (nl_mem st) (p -w nl_head_size).

Definition calloc (n sz : Z) (st : nl_state S) : option (Z * nl_state S) :=
  if negb (n =? 0) && negb (sz =? 0) && (NL_BIG / sz <? n) then Some (0, st) else
  let total := n *w sz in
  '(p, st) ← malloc total st;
  if negb (p =? 0) then
    '(m', _) ← memset (nl_mem st) p 0 total;
    Some (p, set_mem m' st)
  else Some (p, st).

Definition realloc (p n : Z) (st : nl_state S) : option (Z * nl_state S) :=
  if p =? 0 then malloc n st else
  if n =? 0 then st' ← free p st; Some (0, st') else
  old ← load64 (nl_mem st) (p -w nl_head_size);
  if n <=? old then Some (p, st) else
  '(q, st) ← malloc n st;
  if q =? 0 then Some (0, st) else
  '(m', _) ← memcpy (nl_mem st) q p old;
  st' ← free p (set_mem m' st);
  Some (q, st').

(** [strdup], in [string.c]: the copy and its NUL. *)
Definition strdup (fuel : nat) (s : Z) (st : nl_state S) : option (Z * nl_state S) :=
  l ← strlen fuel (nl_mem st) s;
  let n := l +w 1 in
  '(p, st) ← malloc n st;
  if negb (p =? 0) then
    '(m', _) ← memcpy (nl_mem st) p s n;
    Some (p, set_mem m' st)
  else Some (p, st).
End malloc.

(** ** The invariant *)

(** A block a client holds: what it asked for, what it occupies (header
    included) and the kind its header says. *)
Record blk := Blk { bk_p : Z; bk_n : Z; bk_total : Z; bk_kind : Z }.

Definition bk_head (b : blk) : Z := bk_p b - nl_head_size.
Definition bk_range (b : blk) : range := Range (bk_head b) (bk_total b).
(** The client's view: pointer and requested size. *)
Definition bk_client (b : blk) : Z * Z := (bk_p b, bk_n b).
Definition bk_small (b : blk) : Prop :=
  exists c, 0 <= c < 9 /\ bk_kind b = c /\ bk_total b = 2 ^ (5 + c).
Definition bk_big (b : blk) : Prop :=
  bk_kind b = NL_BIG /\ bk_total b mod PA_PAGE = 0 /\ 8192 < bk_total b.

Definition bk_ok (m : mem) (b : blk) : Prop :=
  0 <= bk_n b /\ bk_n b + nl_head_size <= bk_total b /\ bk_p b mod 16 = 0 /\
  load64 m (bk_head b) = Some (bk_total b - nl_head_size) /\
  load64 m (bk_head b + 8) = Some (bk_kind b).

(** A free list: the addresses it strings together from [p] on. *)
Fixpoint chain (m : mem) (p : Z) (l : list Z) : Prop :=
  match l with
  | [] => p = 0
  | a :: l' => p = a /\ p <> 0 /\ exists q, load64 m p = Some q /\ chain m q l'
  end.

(** The blocks of one free list; the lists of [chains] from class [c] on. *)
Definition chain_ranges (c : nat) (l : list Z) : list range :=
  (fun a => Range a (2 ^ (5 + Z.of_nat c))) <$> l.

Fixpoint free_ranges (c : nat) (chains : list (list Z)) : list range :=
  match chains with
  | [] => []
  | l :: chains' => chain_ranges c l ++ free_ranges (S c) chains'
  end.

Lemma free_ranges_split c chains i l :
  chains !! i = Some l ->
  free_ranges c chains ≡ₚ chain_ranges (c + i) l ++ free_ranges c (<[i := []]> chains).
Proof.
  revert c i. induction chains as [|l0 chains IH]; intros c [|i] Hi; simpl in Hi; try done.
  - injection Hi as ->. by rewrite Nat.add_0_r.
  - cbn [free_ranges]. rewrite (IH (S c) i Hi). cbn [insert list_insert free_ranges].
    replace (S c + i)%nat with (c + S i)%nat by lia. fold (<[i := []]> chains).
    rewrite !(assoc_L (++)). by rewrite (comm (++) (chain_ranges c l0)).
Qed.

Lemma free_ranges_insert chains i l :
  (i < length chains)%nat ->
  free_ranges 0 (<[i := l]> chains) ≡ₚ chain_ranges i l ++ free_ranges 0 (<[i := []]> chains).
Proof.
  intros Hi. rewrite (free_ranges_split 0 _ i l) by by apply list_lookup_insert_eq.
  by rewrite list_insert_insert_eq.
Qed.

Lemma chain_ranges_elem c l r : r ∈ chain_ranges c l -> exists a, a ∈ l /\ r = Range a (2 ^ (5 + Z.of_nat c)).
Proof. intros (a & -> & Ha)%list_elem_of_fmap. eauto. Qed.

(** The chains with the class size and the alignment of their blocks. *)
Definition chains_ok (m : mem) (fl : list Z) (chains : list (list Z)) : Prop :=
  length fl = NL_CLASSES /\
  Forall2 (chain m) fl chains /\ Forall (Forall (fun a => a mod 16 = 0)) chains.

(** What the free blocks, the small blocks and the arena's rest cover. *)
Definition carved {S} (st : nl_state S) (smalls : list blk) (chains : list (list Z)) : list range :=
  (bk_range <$> smalls) ++ free_ranges 0 chains ++ [Range (nl_arena_p st) (nl_arena_left st)].

Record minv {S} `{PageMap S} (st : nl_state S) (bigs smalls : list blk) (chains : list (list Z))
    (arenas : list range) : Prop := {
  mi_os : os_inv (nl_os st) (nl_mem st) ((bk_range <$> bigs) ++ arenas);
  mi_big : Forall bk_big bigs;
  mi_small : Forall bk_small smalls;
  mi_ok : Forall (bk_ok (nl_mem st)) (bigs ++ smalls);
  mi_chains : chains_ok (nl_mem st) (nl_free_list st) chains;
  mi_arena : 0 <= nl_arena_left st /\ 0 <= nl_arena_p st /\
             nl_arena_p st + nl_arena_left st < 2 ^ 64 /\ nl_arena_p st mod 16 = 0 /\
             (0 < nl_arena_left st -> 0 < nl_arena_p st);
  mi_cov : forall x, cov (carved st smalls chains) x <= cov arenas x
}.

(** ** Memory outside a range *)

(** [m'] is as [m] on every address the ranges cover. *)
Definition agree_on (m m' : mem) (l : list range) : Prop := forall x, 0 < cov l x -> m' x = m x.

Lemma agree_refl m l : agree_on m m l.
Proof. by intros x _. Qed.

Lemma agree_trans m1 m2 m3 l : agree_on m1 m2 l -> agree_on m2 m3 l -> agree_on m1 m3 l.
Proof. intros H1 H2 x Hx. by rewrite H2, H1. Qed.

Lemma agree_sub m m' l l' : (forall x, cov l' x <= cov l x) -> agree_on m m' l -> agree_on m m' l'.
Proof. intros Hl H x Hx. apply H. specialize (Hl x). lia. Qed.

#[export] Instance agree_proper m m' : Proper ((≡ₚ) ==> iff) (agree_on m m').
Proof. intros l1 l2 Hl. unfold agree_on. split; intros H x; specialize (H x); rewrite Hl in *; auto. Qed.

Lemma agree_app m m' l1 l2 : agree_on m m' (l1 ++ l2) <-> agree_on m m' l1 /\ agree_on m m' l2.
Proof.
  split.
  - intros H. split; intros x Hx; apply H; rewrite cov_app;
      pose proof (cov_nonneg l1 x); pose proof (cov_nonneg l2 x); lia.
  - intros [H1 H2] x Hx. rewrite cov_app in Hx.
    destruct (decide (0 < cov l1 x)); [by apply H1|apply H2].
    pose proof (cov_nonneg l1 x). lia.
Qed.

Lemma agree_elem m m' l r x : agree_on m m' l -> r ∈ l -> r_base r <= x < r_end r -> m' x = m x.
Proof.
  intros H Hr Hx. apply H. pose proof (hit_le_cov r l x Hr). rewrite hit_in in *; [lia|done].
Qed.

(** A change inside [r] is not seen in ranges apart from [r]. *)
Lemma agree_differ m m' a n r l :
  differ_in m m' a n -> r_base r <= a -> a + n <= r_end r ->
  (forall x, cov (r :: l) x <= 1) -> agree_on m m' l.
Proof.
  intros Hd H1 H2 Hc x Hx. apply Hd. specialize (Hc x). rewrite cov_cons in Hc.
  destruct (decide (x < a \/ a + n <= x)) as [|Hin]; [done|].
  rewrite hit_in in Hc; [lia|]. lia.
Qed.

Lemma agree_load64 m m' l r a :
  agree_on m m' l -> r ∈ l -> r_base r <= a -> a + 8 <= r_end r -> load64 m' a = load64 m a.
Proof. intros H Hr H1 H2. apply load_le_ext. intros x Hx. eapply agree_elem; [done|done|]. lia. Qed.

Lemma bk_ok_total m b : bk_ok m b -> 16 <= bk_total b.
Proof. unfold bk_ok, nl_head_size. lia. Qed.

Lemma blocks_ext m m' bs :
  agree_on m m' (bk_range <$> bs) -> Forall (bk_ok m) bs -> Forall (bk_ok m') bs.
Proof.
  intros Ha Hb. rewrite Forall_forall in *. intros b Hin. specialize (Hb b Hin).
  assert (Hr : bk_range b ∈ bk_range <$> bs) by by apply list_elem_of_fmap_2.
  pose proof (bk_ok_total _ _ Hb). destruct Hb as (H1 & H2 & H3 & H4 & H5).
  split; [done|]. split; [done|]. split; [done|]. split.
  - rewrite <- H4. eapply agree_load64; [done|exact Hr|..]; unfold r_end; simpl; lia.
  - rewrite <- H5. eapply agree_load64; [done|exact Hr|..]; unfold r_end; simpl; lia.
Qed.

Lemma chain_ext m m' c p l :
  agree_on m m' (chain_ranges c l) -> chain m p l -> chain m' p l.
Proof.
  revert p. induction l as [|a l IH]; intros p Ha; [done|].
  cbn [chain]. intros (-> & Hp & q & Hq & Hl). split; [done|]. split; [done|]. exists q. split.
  - rewrite <- Hq. assert (2 ^ 5 <= 2 ^ (5 + Z.of_nat c)) by (apply Z.pow_le_mono_r; lia).
    eapply agree_load64; [exact Ha|left|..]; unfold r_end; simpl in *; lia.
  - apply IH; [|done]. eapply agree_sub; [|exact Ha]. intros x. unfold chain_ranges. cbn [fmap list_fmap].
    rewrite cov_cons. pose proof (hit_bound x (Range a (2 ^ (5 + Z.of_nat c)))). lia.
Qed.

Lemma free_ranges_lookup c chains i l :
  chains !! i = Some l -> forall x, cov (chain_ranges (c + i) l) x <= cov (free_ranges c chains) x.
Proof.
  intros Hi x. rewrite (free_ranges_split c _ i l Hi), cov_app.
  pose proof (cov_nonneg (free_ranges c (<[i:=[]]> chains)) x). lia.
Qed.

Lemma chains_ext m m' fl chains :
  agree_on m m' (free_ranges 0 chains) -> chains_ok m fl chains -> chains_ok m' fl chains.
Proof.
  intros Ha (H1 & H2 & H3). split; [done|]. split; [|done].
  apply Forall2_same_length_lookup in H2 as [Hl H2]. apply Forall2_same_length_lookup.
  split; [done|]. intros i p l Hp Hc. apply (chain_ext m _ i); [|by eapply H2].
  eapply agree_sub; [|exact Ha]. exact (free_ranges_lookup 0 _ _ _ Hc).
Qed.

(** ** Writing a header *)

Section laws.
Context {S : Type} `{PageMapLaws S}.

Lemma os_same s m m' held : os_inv s m held -> same_mapped m m' -> (bytes_ok m -> bytes_ok m') -> os_inv s m' held.
Proof. intros Hi Hs Hb. eapply os_store; [exact Hi|exact Hs|]. eapply Hb, os_bytes, Hi. Qed.

(** [set_head] on a range apart from [l]. *)
Lemma set_head_spec (st : nl_state S) h total kind l :
  mapped (nl_mem st) h 16 -> 0 < h -> 16 <= total -> h + total < 2 ^ 64 -> 0 <= kind < 2 ^ 64 ->
  (forall x, cov (Range h total :: l) x <= 1) ->
  exists m', set_head h (total - nl_head_size) kind st = Some (h + 16, set_mem m' st) /\
    same_mapped (nl_mem st) m' /\ (bytes_ok (nl_mem st) -> bytes_ok m') /\
    agree_on (nl_mem st) m' l /\
    load64 m' h = Some (total - nl_head_size) /\ load64 m' (h + 8) = Some kind.
Proof.
  intros Hm Hh Ht Hend Hk Hc. unfold set_head, nl_head_size in *.
  destruct (store64_spec (nl_mem st) h (total - 16)) as (m1 & E1 & Hs1 & Hd1 & Hb1 & Hl1).
  { eapply mapped_sub; [exact Hm|lia|lia]. } { lia. }
  destruct (store64_spec m1 (h + 8) kind) as (m2 & E2 & Hs2 & Hd2 & Hb2 & Hl2).
  { eapply mapped_same; [exact Hs1|]. eapply mapped_sub; [exact Hm|lia|lia]. } { lia. }
  rewrite E1. cbn [mbind option_bind]. rewrite E2. cbn [mbind option_bind].
  rewrite wrap64_small by lia. exists m2. split; [done|]. split; [by etrans|]. split; [auto|].
  split; [|split; [|done]].
  - eapply agree_trans.
    + eapply (agree_differ _ _ _ _ (Range h total)); [exact Hd1|simpl; lia|unfold r_end; simpl; lia|done].
    + eapply (agree_differ _ _ _ _ (Range h total)); [exact Hd2|simpl; lia|unfold r_end; simpl; lia|done].
  - rewrite <- Hl1. eapply load64_frame; [exact Hd2|]. lia.
Qed.

(** Everything the invariant talks about is covered once. *)
Definition every (st : nl_state S) (bigs smalls : list blk) chains : list range :=
  (bk_range <$> bigs) ++ carved st smalls chains.

Lemma every_cov st bigs smalls chains arenas x :
  minv st bigs smalls chains arenas -> cov (every st bigs smalls chains) x <= 1.
Proof.
  intros Hi. pose proof (os_cov _ _ _ x (mi_os _ _ _ _ _ Hi)) as H1.
  pose proof (mi_cov _ _ _ _ _ Hi x) as H2. unfold every. rewrite cov_app in *. lia.
Qed.

(** An address of a block, a free block or the arena is mapped. *)
Lemma covered_mapped st bigs smalls chains arenas x :
  minv st bigs smalls chains arenas -> 0 < cov ((bk_range <$> bigs) ++ arenas) x ->
  is_Some (nl_mem st x) /\ 0 < x < 2 ^ 64.
Proof.
  intros Hi Hx. apply cov_pos_elem in Hx as (r & Hr & Hin).
  pose proof (os_held _ _ _ (mi_os _ _ _ _ _ Hi)) as Hh. rewrite Forall_forall in Hh.
  destruct (Hh r Hr) as (H1 & H2 & H3 & _ & H4). split; [|lia]. apply H4. unfold r_end in *. lia.
Qed.

(** A range among [every]: where it lies. *)
Lemma range_place st bigs smalls chains arenas r l :
  minv st bigs smalls chains arenas ->
  (forall x, cov (r :: l) x <= cov ((bk_range <$> bigs) ++ arenas) x) -> 0 < r_len r ->
  0 < r_base r /\ r_end r <= 2 ^ 64 /\ mapped (nl_mem st) (r_base r) (r_len r).
Proof.
  intros Hi Hc Hl.
  assert (Hx : forall x, r_base r <= x < r_end r -> is_Some (nl_mem st x) /\ 0 < x < 2 ^ 64).
  { intros x Hx. eapply covered_mapped; [exact Hi|]. specialize (Hc x). rewrite cov_cons, hit_in in Hc by done.
    pose proof (cov_nonneg l x). lia. }
  unfold r_end in *. split; [apply (Hx (r_base r)); lia|]. split.
  - destruct (Hx (r_base r + r_len r - 1)); lia.
  - intros x Hin. apply (Hx x). lia.
Qed.

(** Memory changed apart from headers and free blocks. *)
Lemma minv_mem st bigs smalls chains arenas m' :
  minv st bigs smalls chains arenas ->
  same_mapped (nl_mem st) m' -> bytes_ok m' -> Forall (bk_ok m') (bigs ++ smalls) ->
  agree_on (nl_mem st) m' (free_ranges 0 chains) ->
  minv (set_mem m' st) bigs smalls chains arenas.
Proof.
  intros Hi Hs Hb Hok Hf. destruct Hi as [I1 I2 I3 I4 I5 I6 I7]. constructor; simpl; auto.
  - by eapply os_store.
  - by eapply chains_ext.
Qed.

Lemma agree_every st m' bigs smalls chains :
  agree_on (nl_mem st) m' (every st bigs smalls chains) ->
  agree_on (nl_mem st) m' (bk_range <$> (bigs ++ smalls)) /\ agree_on (nl_mem st) m' (free_ranges 0 chains).
Proof.
  unfold every, carved. rewrite fmap_app, !agree_app. tauto.
Qed.

Lemma pow_class c : 0 <= c < 9 -> 32 <= 2 ^ (5 + c) <= 8192 /\ 2 ^ (5 + c) mod 16 = 0.
Proof.
  intros Hc. split.
  - split; [apply (Z.pow_le_mono_r 2 5)|apply (Z.pow_le_mono_r 2 _ 13)]; lia.
  - replace (5 + c) with (4 + (1 + c)) by lia. rewrite Z.pow_add_r, Z.mul_comm by lia.
    apply Z.mod_mul. lia.
Qed.

Lemma cov_swap (a b c : list range) x : cov (a ++ b ++ c) x = cov (b ++ a ++ c) x.
Proof. rewrite !cov_app. lia. Qed.

(** A header is written on a reserved range: it becomes a block. *)
Lemma install_small st bigs smalls chains arenas h n c :
  minv st bigs smalls chains arenas -> 0 <= c < 9 -> h mod 16 = 0 ->
  0 <= n -> n + nl_head_size <= 2 ^ (5 + c) ->
  (forall x, cov (Range h (2 ^ (5 + c)) :: carved st smalls chains) x <= cov arenas x) ->
  exists st', set_head h (2 ^ (5 + c) - nl_head_size) c st = Some (h + 16, st') /\ 0 < h /\
    minv st' bigs (Blk (h + 16) n (2 ^ (5 + c)) c :: smalls) chains arenas /\
    agree_on (nl_mem st) (nl_mem st') (bk_range <$> (bigs ++ smalls)).
Proof.
  intros Hi Hc Ha Hn Hn2 Hcov. destruct (pow_class c Hc) as [Hp Hp16].
  set (r := Range h (2 ^ (5 + c))) in *.
  assert (Hle : forall x, cov (r :: every st bigs smalls chains) x <= cov ((bk_range <$> bigs) ++ arenas) x).
  { intros x. specialize (Hcov x). unfold every. rewrite cov_cons in *. rewrite !cov_app. lia. }
  destruct (range_place _ _ _ _ _ r _ Hi Hle) as (P1 & P2 & P3); [simpl; lia|]. simpl in P1.
  assert (Hone : forall x, cov (r :: every st bigs smalls chains) x <= 1).
  { intros x. specialize (Hle x). pose proof (os_cov _ _ _ x (mi_os _ _ _ _ _ Hi)). lia. }
  assert (Hend : h + 2 ^ (5 + c) < 2 ^ 64).
  { unfold r, r_end in P2. simpl in P2. destruct (Z.eq_dec (h + 2 ^ (5 + c)) (2 ^ 64)) as [E|]; [|lia].
    exfalso. assert (Hx : 0 < cov ((bk_range <$> bigs) ++ arenas) (2 ^ 64 - 1)).
    { specialize (Hle (2 ^ 64 - 1)). rewrite cov_cons in Hle.
      rewrite hit_in in Hle by (unfold r, r_end; simpl; lia).
      pose proof (cov_nonneg (every st bigs smalls chains) (2 ^ 64 - 1)). lia. }
    apply cov_pos_elem in Hx as (r' & Hr' & Hin).
    pose proof (os_held _ _ _ (mi_os _ _ _ _ _ Hi)) as Hh. rewrite Forall_forall in Hh.
    destruct (Hh r' Hr') as (_ & _ & H3 & _). lia. }
  destruct (set_head_spec st h (2 ^ (5 + c)) c (every st bigs smalls chains))
    as (m' & E & Hs & Hb & Hag & Hl1 & Hl2); try done; try lia.
  { eapply mapped_sub; [exact P3|simpl; lia|simpl; lia]. }
  exists (set_mem m' st). split; [exact E|]. split; [done|].
  apply agree_every in Hag as [Hag1 Hag2]. split; [|done].
  assert (Hok : Forall (bk_ok m') (bigs ++ smalls)) by (eapply blocks_ext; [done|apply Hi]).
  destruct (minv_mem _ _ _ _ _ m' Hi Hs (Hb (os_bytes _ _ _ (mi_os _ _ _ _ _ Hi))) Hok Hag2)
    as [I1 I2 I3 I4 I5 I6 I7].
  constructor; auto.
  - constructor; [|done]. by exists c.
  - rewrite <- Permutation_middle. constructor; [|done].
    unfold bk_ok, bk_head, nl_head_size in *. simpl. replace (h + 16 - 16) with h by lia.
    split_and!; try done. zdiv.
  - intros x. specialize (Hcov x). unfold carved in *. simpl. unfold bk_range, bk_head, nl_head_size. simpl.
    replace (h + 16 - 16) with h by lia. exact Hcov.
Qed.

Lemma install_big st bigs smalls chains arenas h n total :
  minv st bigs smalls chains (Range h total :: arenas) ->
  (forall x, cov (carved st smalls chains) x <= cov arenas x) ->
  0 <= n -> n + nl_head_size <= total -> total mod PA_PAGE = 0 -> 8192 < total ->
  exists st', set_head h (total - nl_head_size) NL_BIG st = Some (h + 16, st') /\ 0 < h /\
    minv st' (Blk (h + 16) n total NL_BIG :: bigs) smalls chains arenas /\
    agree_on (nl_mem st) (nl_mem st') (bk_range <$> (bigs ++ smalls)).
Proof.
  intros Hi Hcov Hn Hn2 Hpg H8192. unfold nl_head_size in *. pose proof (mi_os _ _ _ _ _ Hi) as Hos.
  pose proof (os_held _ _ _ Hos) as Hh. rewrite Forall_app in Hh. destruct Hh as [_ Hh].
  apply Forall_cons in Hh as [(P1 & P2 & P3 & P4 & P5) _]. unfold r_end in P3. simpl in *.
  assert (Hone : forall x, cov (Range h total :: every st bigs smalls chains) x <= 1).
  { intros x. pose proof (os_cov _ _ _ x Hos) as Hx. specialize (Hcov x).
    unfold every. rewrite !cov_app, !cov_cons in *. rewrite !cov_app. lia. }
  destruct (set_head_spec st h total NL_BIG (every st bigs smalls chains))
    as (m' & E & Hs & Hb & Hag & Hl1 & Hl2); try done; try lia.
  { eapply mapped_sub; [exact P5|lia|lia]. }
  exists (set_mem m' st). split; [exact E|]. split; [done|].
  apply agree_every in Hag as [Hag1 Hag2]. split; [|done].
  assert (Hok : Forall (bk_ok m') (bigs ++ smalls)) by (eapply blocks_ext; [done|apply Hi]).
  destruct (minv_mem _ _ _ _ _ m' Hi Hs (Hb (os_bytes _ _ _ Hos)) Hok Hag2) as [I1 I2 I3 I4 I5 I6 I7].
  constructor; auto.
  - simpl. unfold bk_range, bk_head, nl_head_size. simpl. replace (h + 16 - 16) with h by lia.
    eapply os_perm; [|exact I1]. symmetry. apply Permutation_middle.
  - constructor; [|done]. done.
  - constructor; [|done]. unfold bk_ok, bk_head, nl_head_size, PA_PAGE in *. simpl.
    replace (h + 16 - 16) with h by lia. split_and!; try done; zdiv.
Qed.

(** ** The free lists *)

Lemma chains_lookup m fl chains c :
  chains_ok m fl chains -> (c < 9)%nat ->
  exists p l, fl !! c = Some p /\ chains !! c = Some l /\ chain m p l /\ Forall (fun a => a mod 16 = 0) l.
Proof.
  intros (Hl & Hf & Ha) Hc. apply Forall2_same_length_lookup in Hf as [Hlen Hf].
  destruct (lookup_lt_is_Some_2 fl c) as [p Hp]; [unfold NL_CLASSES in *; lia|].
  destruct (lookup_lt_is_Some_2 chains c) as [l Hc']; [unfold NL_CLASSES in *; lia|].
  exists p, l. split; [done|]. split; [done|]. split; [by eapply Hf|].
  rewrite Forall_lookup in Ha. by eapply Ha.
Qed.

Lemma chains_insert m fl chains c p l :
  chains_ok m fl chains -> (c < 9)%nat -> chain m p l -> Forall (fun a => a mod 16 = 0) l ->
  chains_ok m (<[c := p]> fl) (<[c := l]> chains).
Proof.
  intros (Hl & Hf & Ha) Hc Hp Hal. split; [by rewrite length_insert|]. split.
  - by apply Forall2_insert.
  - by apply Forall_insert.
Qed.

Lemma pop_free st bigs smalls chains arenas c a l q :
  minv st bigs smalls chains arenas -> (c < 9)%nat -> chains !! c = Some (a :: l) ->
  chain (nl_mem st) q l -> 
  let st1 := set_free (<[c := q]> (nl_free_list st)) st in
  minv st1 bigs smalls (<[c := l]> chains) arenas /\ a mod 16 = 0 /\
  (forall x, cov (Range a (2 ^ (5 + Z.of_nat c)) :: carved st1 smalls (<[c := l]> chains)) x <= cov arenas x).
Proof.
  intros Hi Hc Hch Hq st1. destruct Hi as [I1 I2 I3 I4 I5 I6 I7].
  pose proof I5 as (Hl9 & Hf & Hal). apply Forall2_length in Hf as Hlen.
  rewrite Forall_lookup in Hal. specialize (Hal _ _ Hch). apply Forall_cons in Hal as [Ha16 Hal].
  assert (Hc' : (c < length chains)%nat) by (unfold NL_CLASSES in *; lia).
  assert (Hcov : forall x, cov (Range a (2 ^ (5 + Z.of_nat c)) :: carved st1 smalls (<[c := l]> chains)) x <= cov arenas x).
  { intros x. specialize (I7 x). unfold carved in *. simpl. rewrite cov_cons, !cov_app in *.
    rewrite (free_ranges_split 0 _ c _ Hch), cov_app in I7.
    rewrite (free_ranges_insert _ c l Hc'), cov_app. simpl in *.
    unfold chain_ranges in I7. cbn [fmap list_fmap] in I7. rewrite cov_cons in I7.
    unfold chain_ranges. lia. }
  split; [|by split]. constructor; simpl; auto.
  - by apply chains_insert.
  - intros x. specialize (Hcov x). rewrite cov_cons in Hcov.
    pose proof (hit_bound x (Range a (2 ^ (5 + Z.of_nat c)))). lia.
Qed.

(** ** Size classes *)

(** Where the loop over the classes stops. *)
Lemma class_of_spec n :
  0 <= n ->
  (n <= 8192 /\ 0 <= nl_class_of n < 9 /\ n <= 2 ^ (5 + nl_class_of n) /\
     (nl_class_of n = 0 \/ 2 ^ (4 + nl_class_of n) < n)) \/
  (8192 < n /\ nl_class_of n = -1).
Proof.
  intros Hn. unfold nl_class_of, NL_CLASSES. cbn [class_from].
  repeat match goal with
  | |- context [wrap64 (Z.shiftl ?a 1)] =>
      let v := eval vm_compute in (wrap64 (Z.shiftl a 1)) in change (wrap64 (Z.shiftl a 1)) with v
  end.
  repeat match goal with
  | |- context [?a <? n] => destruct (Z.ltb_spec a n); [|left; simpl; lia]
  end.
  right. lia.
Qed.

Lemma class_size_eq c : 0 <= c < 9 -> nl_class_size c = 2 ^ (5 + c).
Proof.
  intros Hc. pose proof (pow_class c Hc). unfold nl_class_size.
  rewrite Z.shiftl_mul_pow2 by lia. replace (32 * 2 ^ c) with (2 ^ (5 + c)) by (rewrite Z.pow_add_r; lia).
  apply wrap64_small. lia.
Qed.

(** ** Carving *)

Lemma carve_take_ok st bigs smalls chains arenas c :
  minv st bigs smalls chains arenas -> 0 <= c < 9 -> 2 ^ (5 + c) <= nl_arena_left st ->
  let h := nl_arena_p st in
  let st1 := snd (carve_take (2 ^ (5 + c)) st) in
  minv st1 bigs smalls chains arenas /\ h mod 16 = 0 /\ 0 < h /\ nl_mem st1 = nl_mem st /\
  (forall x, cov (Range h (2 ^ (5 + c)) :: carved st1 smalls chains) x <= cov arenas x).
Proof.
  intros Hi Hc Hle h st1. destruct (pow_class c Hc) as [Hp Hp16].
  destruct Hi as [I1 I2 I3 I4 I5 I6 I7]. destruct I6 as (A1 & A2 & A3 & A4 & A5).
  assert (E1 : nl_arena_p st1 = h + 2 ^ (5 + c)).
  { unfold st1, carve_take. simpl. apply wrap64_small. unfold h. lia. }
  assert (E2 : nl_arena_left st1 = nl_arena_left st - 2 ^ (5 + c)).
  { unfold st1, carve_take. simpl. apply wrap64_small. lia. }
  assert (Hcov : forall x, cov (Range h (2 ^ (5 + c)) :: carved st1 smalls chains) x <= cov arenas x).
  { intros x. specialize (I7 x). unfold carved in *. rewrite E1, E2.
    rewrite cov_cons, !cov_app, !cov_cons in *. unfold hit, r_end in *. simpl in *. fold h in I7.
    revert I7. zcases; simpl; lia. }
  split; [|split; [done|split; [unfold h; lia|split; [done|done]]]].
  constructor; auto.
  - rewrite E1, E2. unfold h. split_and!; try lia. zdiv.
  - intros x. specialize (Hcov x). rewrite cov_cons in Hcov.
    pose proof (hit_bound x (Range h (2 ^ (5 + c)))). lia.
Qed.

(** A fresh arena replaces the current one, whose rest is abandoned. *)
Lemma new_arena st bigs smalls chains arenas p os' m' :
  minv st bigs smalls chains arenas -> p <> 0 ->
  nl_map NL_ARENA (nl_os st) (nl_mem st) = (p, os', m') ->
  minv (NlState (nl_free_list st) p NL_ARENA os' m') bigs smalls chains (Range p NL_ARENA :: arenas) /\
  agree_on (nl_mem st) m' (bk_range <$> (bigs ++ smalls)).
Proof.
  intros Hi Hp E. unfold NL_ARENA in *.
  pose proof (mi_os _ _ _ _ _ Hi) as Hos.
  pose proof (map_ok _ _ _ (2 ^ 20) _ _ _ Hos ltac:(unfold PA_PAGE; lia) eq_refl E) as [Hos' Hag].
  destruct (Z.eqb_spec p 0); [done|].
  pose proof (os_held _ _ _ Hos') as Hh. apply Forall_cons in Hh as [(P1 & P2 & P3 & P4 & P5) _].
  unfold r_end in P3. simpl in *.
  assert (Hag' : agree_on (nl_mem st) m' (every st bigs smalls chains)).
  { eapply agree_sub; [|exact Hag]. intros x. pose proof (mi_cov _ _ _ _ _ Hi x).
    unfold every. rewrite !cov_app. lia. }
  apply agree_every in Hag' as [Hag1 Hag2]. split; [|done].
  destruct Hi as [I1 I2 I3 I4 I5 I6 I7]. constructor; simpl; auto.
  - eapply os_perm; [|exact Hos']. apply Permutation_middle.
  - by eapply blocks_ext.
  - by eapply chains_ext.
  - unfold PA_PAGE in *. split_and!; try lia. zdiv.
  - intros x. specialize (I7 x). unfold carved in *. simpl. rewrite cov_cons.
    rewrite !cov_app, !cov_cons in *. change (cov [] x) with 0 in *.
    pose proof (hit_bound x (Range (nl_arena_p st) (nl_arena_left st))). lia.
Qed.

Lemma map_failed st bigs smalls chains arenas n os' m' :
  minv st bigs smalls chains arenas -> 0 < n <= 2 ^ 64 - PA_PAGE -> n mod PA_PAGE = 0 ->
  nl_map n (nl_os st) (nl_mem st) = (0, os', m') ->
  minv (NlState (nl_free_list st) (nl_arena_p st) (nl_arena_left st) os' m') bigs smalls chains arenas /\
  agree_on (nl_mem st) m' (bk_range <$> (bigs ++ smalls)).
Proof.
  intros Hi Hn Hpg E.
  pose proof (map_ok _ _ _ _ _ _ _ (mi_os _ _ _ _ _ Hi) Hn Hpg E) as [Hos' Hag]. simpl in Hos'.
  assert (Hag' : agree_on (nl_mem st) m' (every st bigs smalls chains)).
  { eapply agree_sub; [|exact Hag]. intros x. pose proof (mi_cov _ _ _ _ _ Hi x).
    unfold every. rewrite !cov_app. lia. }
  apply agree_every in Hag' as [Hag1 Hag2]. split; [|done].
  destruct Hi as [I1 I2 I3 I4 I5 I6 I7]. constructor; simpl; auto.
  - by eapply blocks_ext.
  - by eapply chains_ext.
Qed.

Lemma carve_ok st bigs smalls chains arenas c :
  minv st bigs smalls chains arenas -> 0 <= c < 9 ->
  exists h st1, nl_carve (2 ^ (5 + c)) st = (h, st1) /\
    agree_on (nl_mem st) (nl_mem st1) (bk_range <$> (bigs ++ smalls)) /\
    (h = 0 /\ minv st1 bigs smalls chains arenas \/
     0 < h /\ h mod 16 = 0 /\ exists arenas', minv st1 bigs smalls chains arenas' /\
       (forall x, cov (Range h (2 ^ (5 + c)) :: carved st1 smalls chains) x <= cov arenas' x)).
Proof.
  intros Hi Hc. destruct (pow_class c Hc) as [Hp Hp16]. unfold nl_carve.
  destruct (Z.ltb_spec (nl_arena_left st) (2 ^ (5 + c))) as [Hlt|Hge].
  - destruct (Z.ltb_spec NL_ARENA (2 ^ (5 + c))); [unfold NL_ARENA in *; lia|].
    destruct (nl_map NL_ARENA (nl_os st) (nl_mem st)) as [[p os'] m'] eqn:E.
    destruct (Z.eqb_spec p 0) as [->|Hp0].
    + destruct (map_failed st bigs smalls chains arenas NL_ARENA os' m') as [Hi' Ha]; try done.
      eexists _, _. split; [done|]. split; [done|]. by left.
    + destruct (new_arena st bigs smalls chains arenas p os' m' Hi Hp0 E) as [Hi' Ha].
      destruct (carve_take_ok _ _ _ _ _ c Hi' Hc) as (K1 & K2 & K3 & K4 & K5); [simpl; unfold NL_ARENA; lia|].
      eexists _, _. split; [reflexivity|]. split; [done|]. right. eauto.
  - destruct (carve_take_ok _ _ _ _ _ c Hi Hc Hge) as (K1 & K2 & K3 & K4 & K5).
    eexists _, _. split; [reflexivity|]. split; [apply agree_refl|]. right. eauto.
Qed.

(** ** The client's view *)

Definition payload (c : Z * Z) : range := Range (fst c) (snd c).

(** The client holds [live]: pointers with the sizes it asked for. *)
Definition minv_live (st : nl_state S) (live : list (Z * Z)) : Prop :=
  exists bigs smalls chains arenas,
    minv st bigs smalls chains arenas /\ live ≡ₚ bk_client <$> (bigs ++ smalls).

Lemma payload_cov m bs x :
  Forall (bk_ok m) bs -> cov (payload <$> (bk_client <$> bs)) x <= cov (bk_range <$> bs) x.
Proof.
  induction 1 as [|b bs Hb _ IH]; [done|]. cbn [fmap list_fmap] in *. rewrite !cov_cons.
  destruct Hb as (H1 & H2 & _). unfold hit, r_end, bk_range, bk_head, nl_head_size in *. simpl.
  zcases; simpl; lia.
Qed.

Lemma agree_payloads st m' bigs smalls chains arenas live :
  minv st bigs smalls chains arenas -> live ≡ₚ bk_client <$> (bigs ++ smalls) ->
  agree_on (nl_mem st) m' (bk_range <$> (bigs ++ smalls)) -> agree_on (nl_mem st) m' (payload <$> live).
Proof.
  intros Hi -> Ha. eapply agree_sub; [|exact Ha]. intros x. exact (payload_cov _ _ x (mi_ok _ _ _ _ _ Hi)).
Qed.

(** What a call of [malloc] that returns gives. *)
Definition got_block (st : nl_state S) (live : list (Z * Z)) (n p : Z) (st' : nl_state S) : Prop :=
  agree_on (nl_mem st) (nl_mem st') (payload <$> live) /\
  (p = 0 /\ minv_live st' live \/ p <> 0 /\ minv_live st' ((p, n) :: live)).

Lemma got_small st live n c bigs smalls chains arenas h st0 :
  minv st0 bigs smalls chains arenas -> live ≡ₚ bk_client <$> (bigs ++ smalls) ->
  agree_on (nl_mem st) (nl_mem st0) (payload <$> live) ->
  0 <= c < 9 -> h mod 16 = 0 -> 0 <= n -> n + nl_head_size <= 2 ^ (5 + c) ->
  (forall x, cov (Range h (2 ^ (5 + c)) :: carved st0 smalls chains) x <= cov arenas x) ->
  exists p st', set_head h (2 ^ (5 + c) - nl_head_size) c st0 = Some (p, st') /\ got_block st live n p st'.
Proof.
  intros Hi Hlive Hag Hc Hh Hn Hn2 Hcov.
  destruct (install_small st0 bigs smalls chains arenas h n c) as (st' & E & Hpos & Hi' & Ha'); try done.
  exists (h + 16), st'. split; [done|]. split.
  - eapply agree_trans; [exact Hag|]. by eapply agree_payloads.
  - right. split; [lia|]. eexists _, _, _, _. split; [exact Hi'|].
    rewrite <- Permutation_middle. cbn [fmap list_fmap]. by rewrite Hlive.
Qed.

Lemma round_total n :
  0 <= n <= NL_BIG - nl_head_size - 4095 ->
  let total := Z.land ((n +w nl_head_size) +w 4095) (not64 4095) in
  n + nl_head_size <= total <= 2 ^ 64 - PA_PAGE /\ total mod PA_PAGE = 0.
Proof.
  intros Hn. cbv zeta. unfold NL_BIG, nl_head_size, PA_PAGE in *. rewrite (wrap64_small (n + 16)) by lia. nowrap.
  change (not64 4095) with (2 ^ 64 - 2 ^ 12). rewrite land_align by lia. change (2 ^ 12) with 4096.
  split; [zdiv|]. apply Z.mod_mul. lia.
Qed.

Lemma malloc_big st live n bigs smalls chains arenas :
  minv st bigs smalls chains arenas -> live ≡ₚ bk_client <$> (bigs ++ smalls) ->
  0 < n <= NL_BIG - nl_head_size - 4095 -> 8192 < n + nl_head_size ->
  let total := Z.land ((n +w nl_head_size) +w 4095) (not64 4095) in
  exists p st',
    (let '(h, os', m') := nl_map total (nl_os st) (nl_mem st) in
     let st1 := NlState (nl_free_list st) (nl_arena_p st) (nl_arena_left st) os' m' in
     if h =? 0 then Some (0, st1) else set_head h (total -w nl_head_size) NL_BIG st1) = Some (p, st') /\
    forall n', 0 <= n' <= n -> got_block st live n' p st'.
Proof.
  intros Hi Hlive Hn H8192 total. destruct (round_total n) as [Ht Hpg]; [lia|]. fold total in Ht, Hpg.
  unfold nl_head_size in Ht, H8192.
  destruct (nl_map total (nl_os st) (nl_mem st)) as [[h os'] m'] eqn:E.
  destruct (Z.eqb_spec h 0) as [->|Hh].
  - destruct (map_failed st bigs smalls chains arenas total os' m') as [Hi' Ha]; try done.
    { unfold PA_PAGE in *. lia. }
    eexists _, _. split; [done|]. intros n' Hn'. split; [by eapply agree_payloads|].
    left. split; [done|]. by eexists _, _, _, _.
  - pose proof (map_ok _ _ _ total _ _ _ (mi_os _ _ _ _ _ Hi) ltac:(unfold PA_PAGE in *; lia) Hpg E) as [Hos' Hag].
    destruct (Z.eqb_spec h 0); [done|].
    assert (Hag' : agree_on (nl_mem st) m' (every st bigs smalls chains)).
    { eapply agree_sub; [|exact Hag]. intros x. pose proof (mi_cov _ _ _ _ _ Hi x).
      unfold every. rewrite !cov_app. lia. }
    apply agree_every in Hag' as [Hag1 Hag2].
    set (st1 := NlState (nl_free_list st) (nl_arena_p st) (nl_arena_left st) os' m').
    assert (Hi1 : minv st1 bigs smalls chains (Range h total :: arenas)).
    { destruct Hi as [I1 I2 I3 I4 I5 I6 I7]. constructor; simpl; auto.
      - eapply os_perm; [|exact Hos']. apply Permutation_middle.
      - by eapply blocks_ext.
      - by eapply chains_ext.
      - intros x. specialize (I7 x). unfold carved in *. simpl in *. rewrite cov_cons.
        pose proof (hit_bound x (Range h total)). lia. }
    assert (Hcov1 : forall x, cov (carved st1 smalls chains) x <= cov arenas x) by exact (mi_cov _ _ _ _ _ Hi).
    rewrite wrap64_small by (unfold nl_head_size, PA_PAGE in *; lia).
    destruct (install_big st1 bigs smalls chains arenas h n total) as (st' & E' & Hh0 & Hi' & Ha');
      try done; try (unfold nl_head_size; lia).
    exists (h + 16), st'. split; [done|]. intros n' Hn'. split.
    + eapply agree_trans; [by eapply agree_payloads|]. by eapply (agree_payloads st1).
    + right. split; [lia|].
      destruct (install_big st1 bigs smalls chains arenas h n' total) as (st2 & E2 & _ & Hi2 & _);
        try done; try (unfold nl_head_size; lia).
      rewrite E' in E2. injection E2 as <-. eexists _, _, _, _. split; [exact Hi2|].
      cbn [app fmap list_fmap]. by rewrite Hlive.
Qed.

Lemma malloc_ok st live n :
  minv_live st live -> 0 <= n < 2 ^ 64 ->
  exists p st', malloc n st = Some (p, st') /\ got_block st live n p st'.
Proof.
  intros (bigs & smalls & chains & arenas & Hi & Hlive) Hn. unfold malloc.
  assert (Hn1 : exists n1, (if n =? 0 then 1 else n) = n1 /\ 0 < n1 < 2 ^ 64 /\ n <= n1)
    by (exists (if n =? 0 then 1 else n); zcases; lia).
  destruct Hn1 as (n1 & -> & Hn1 & Hle).
  destruct (Z.ltb_spec (NL_BIG - nl_head_size - 4095) n1) as [Hbig|Hsz].
  { eexists _, _. split; [done|]. split; [apply agree_refl|]. left. split; [done|].
    by eexists _, _, _, _. }
  rewrite (wrap64_small (n1 + nl_head_size)) by (unfold NL_BIG, nl_head_size in *; lia).
  destruct (class_of_spec (n1 + nl_head_size)) as [(C1 & C2 & C3 & _)|(C1 & C2)];
    [unfold nl_head_size; lia| |].
  - set (c := nl_class_of (n1 + nl_head_size)) in *.
    destruct (Z.ltb_spec c 0); [lia|].
    rewrite class_size_eq by done. destruct (pow_class c C2) as [Hp Hp16].
    rewrite (wrap64_small (2 ^ (5 + c) - nl_head_size)) by (unfold nl_head_size; lia).
    destruct (chains_lookup _ _ _ (Z.to_nat c) (mi_chains _ _ _ _ _ Hi)) as (hd & l & Hhd & Hl & Hch & Hal); [lia|].
    rewrite Hhd. cbn [mbind option_bind].
    destruct l as [|a l].
    + simpl in Hch. subst hd. cbn [negb Z.eqb].
      destruct (carve_ok st bigs smalls chains arenas c Hi C2) as (h & st1 & -> & Ha & [[-> Hi1]|(Hh & Hh16 & ar & Hi1 & Hcov)]).
      * eexists _, _. split; [done|]. split; [by eapply agree_payloads|]. left. split; [done|].
        by eexists _, _, _, _.
      * destruct (Z.eqb_spec h 0); [lia|].
        eapply got_small; try done; [by eapply agree_payloads|lia|lia].
    + cbn [chain] in Hch. destruct Hch as (-> & Ha0 & q & Hq & Hl').
      destruct (Z.eqb_spec a 0); [lia|]. cbn [negb]. rewrite Hq. cbn [mbind option_bind].
      destruct (pop_free st bigs smalls chains arenas (Z.to_nat c) a l q Hi ltac:(lia) Hl Hl') as (Hi1 & Ha16 & Hcov).
      rewrite Z2Nat.id in Hcov by lia.
      eapply got_small; try done; lia.
  - rewrite C2. cbn [Z.ltb Z.compare].
    destruct (malloc_big st live n1 bigs smalls chains arenas Hi Hlive) as (p & st' & E & Hg); [lia|done|].
    rewrite (wrap64_small (n1 + nl_head_size)) in E by (unfold NL_BIG, nl_head_size in *; lia).
    exists p, st'. split; [exact E|]. apply Hg. lia.
Qed.

(** ** Giving back *)

Lemma minv_perm st bigs bigs' smalls smalls' chains arenas :
  bigs ≡ₚ bigs' -> smalls ≡ₚ smalls' ->
  minv st bigs smalls chains arenas -> minv st bigs' smalls' chains arenas.
Proof.
  intros Hb Hs [I1 I2 I3 I4 I5 I6 I7]. constructor; auto.
  - eapply os_perm; [|exact I1]. by rewrite Hb.
  - by rewrite <- Hb.
  - by rewrite <- Hs.
  - by rewrite <- Hb, <- Hs.
  - intros x. rewrite <- (I7 x). unfold carved. by rewrite Hs.
Qed.

(** The client's entry is one of the blocks. *)
Lemma live_split st live rest p n :
  minv_live st live -> live ≡ₚ (p, n) :: rest ->
  exists b bigs smalls chains arenas, bk_client b = (p, n) /\
    ((minv st (b :: bigs) smalls chains arenas /\ rest ≡ₚ bk_client <$> (bigs ++ smalls)) \/
     (minv st bigs (b :: smalls) chains arenas /\ rest ≡ₚ bk_client <$> (bigs ++ smalls))).
Proof.
  intros (bigs & smalls & chains & arenas & Hi & Hl) Hp.
  assert (Hin : (p, n) ∈ bk_client <$> (bigs ++ smalls)).
  { rewrite <- Hl, Hp. left. }
  apply list_elem_of_fmap in Hin as (b & Hb & Hin).
  apply elem_of_app in Hin as [Hin|Hin]; apply list_elem_of_split in Hin as (l1 & l2 & ->).
  - exists b, (l1 ++ l2), smalls, chains, arenas. split; [done|]. left.
    split; [eapply minv_perm; [symmetry; apply Permutation_middle| |exact Hi]; done|].
    apply (Permutation_cons_inv (a := (p, n))). rewrite <- Hp, Hl, Hb.
    by rewrite <- Permutation_middle.
  - exists b, bigs, (l1 ++ l2), chains, arenas. split; [done|]. right.
    split; [eapply minv_perm; [|symmetry; apply Permutation_middle|exact Hi]; done|].
    apply (Permutation_cons_inv (a := (p, n))). rewrite <- Hp, Hl, Hb.
    rewrite <- (Permutation_middle l1 l2 b). by rewrite <- Permutation_middle.
Qed.

(** Where a block lies. *)
Lemma block_place st bigs smalls chains arenas b :
  minv st bigs smalls chains arenas -> b ∈ bigs ++ smalls ->
  0 < bk_head b /\ bk_head b + bk_total b <= 2 ^ 64 /\ mapped (nl_mem st) (bk_head b) (bk_total b) /\
  bk_ok (nl_mem st) b.
Proof.
  intros Hi Hb. assert (Hok : bk_ok (nl_mem st) b).
  { pose proof (mi_ok _ _ _ _ _ Hi) as Ho. rewrite Forall_forall in Ho. by apply Ho. }
  pose proof (bk_ok_total _ _ Hok) as Ht.
  destruct (range_place _ _ _ _ _ (bk_range b) [] Hi) as (P1 & P2 & P3); [|simpl; lia|].
  - intros x. rewrite cov_cons. change (cov [] x) with 0.
    assert (Hr : bk_range b ∈ every st bigs smalls chains).
    { unfold every, carved. rewrite (assoc_L (++)), <- fmap_app. apply elem_of_app. left.
      by apply list_elem_of_fmap_2. }
    pose proof (hit_le_cov _ _ x Hr). pose proof (mi_cov _ _ _ _ _ Hi x).
    unfold every in *. rewrite !cov_app in *. lia.
  - unfold r_end in P2. simpl in *. auto.
Qed.

Lemma free_big st b bigs smalls chains arenas :
  minv st (b :: bigs) smalls chains arenas ->
  exists st', free (bk_p b) st = Some st' /\ minv st' bigs smalls chains arenas /\
    agree_on (nl_mem st) (nl_mem st') (bk_range <$> (bigs ++ smalls)).
Proof.
  intros Hi. destruct (block_place _ _ _ _ _ b Hi) as (P1 & P2 & P3 & (K1 & K2 & K3 & K4 & K5)); [left|].
  pose proof (mi_big _ _ _ _ _ Hi) as Hb. apply Forall_cons in Hb as [(Hk & Hpg & _) _].
  unfold free, bk_head in *. unfold nl_head_size in *.
  destruct (Z.eqb_spec (bk_p b) 0); [lia|].
  rewrite wrap64_small by lia. rewrite K5, Hk. cbn [mbind option_bind].
  rewrite Z.eqb_refl, K4. cbn [mbind option_bind]. rewrite wrap64_small by lia.
  replace (bk_total b - 16 + 16) with (bk_total b) by lia.
  destruct (nl_unmap (bk_p b - 16) (bk_total b) (nl_os st) (nl_mem st)) as [os' m'] eqn:E.
  pose proof (mi_os _ _ _ _ _ Hi) as Hos. cbn [fmap list_fmap app] in Hos.
  destruct (unmap_ok _ _ _ _ _ _ _ Hos E) as [Hos' Hag].
  assert (Hag' : agree_on (nl_mem st) m' (every st bigs smalls chains)).
  { eapply agree_sub; [|exact Hag]. intros x. pose proof (mi_cov _ _ _ _ _ Hi x).
    unfold every. rewrite !cov_app. lia. }
  apply agree_every in Hag' as [Hag1 Hag2].
  eexists. split; [done|]. split; [|done].
  destruct Hi as [I1 I2 I3 I4 I5 I6 I7]. constructor; simpl; auto.
  - by apply Forall_cons in I2 as [_ I2].
  - apply Forall_cons in I4 as [_ I4]. by eapply blocks_ext.
  - by eapply chains_ext.
Qed.

Lemma free_small st b bigs smalls chains arenas :
  minv st bigs (b :: smalls) chains arenas ->
  exists st' chains' l, free (bk_p b) st = Some st' /\ minv st' bigs smalls chains' arenas /\
    chains' !! Z.to_nat (bk_kind b) = Some (bk_head b :: l) /\ nl_os st' = nl_os st /\
    agree_on (nl_mem st) (nl_mem st') (bk_range <$> (bigs ++ smalls)).
Proof.
  intros Hi. destruct (block_place _ _ _ _ _ b Hi) as (P1 & P2 & P3 & (K1 & K2 & K3 & K4 & K5));
    [apply elem_of_app; right; left|].
  pose proof (mi_small _ _ _ _ _ Hi) as Hb. apply Forall_cons in Hb as [(c & Hc & Hk & Ht) _].
  destruct (pow_class c Hc) as [Hp Hp16].
  unfold free. set (h := bk_head b) in *. assert (Eh : bk_p b = h + 16) by (unfold h, bk_head, nl_head_size; lia).
  rewrite Eh. unfold nl_head_size.
  destruct (Z.eqb_spec (h + 16) 0); [lia|].
  rewrite wrap64_small by lia. replace (h + 16 - 16) with h by lia.
  rewrite K5, Hk. cbn [mbind option_bind].
  destruct (Z.eqb_spec c NL_BIG); [unfold NL_BIG in *; lia|].
  destruct (chains_lookup _ _ _ (Z.to_nat c) (mi_chains _ _ _ _ _ Hi)) as (hd & l & Hhd & Hl & Hch & Hal); [lia|].
  rewrite Hhd. cbn [mbind option_bind].
  assert (Hone : forall x, cov (bk_range b :: every st bigs smalls chains) x <= 1).
  { intros x. pose proof (every_cov _ _ _ _ _ x Hi) as Hx. unfold every, carved in *.
    cbn [fmap list_fmap app] in Hx. rewrite cov_cons. rewrite cov_app, cov_cons in Hx. rewrite !cov_app in *. lia. }
  assert (Hhd64 : 0 <= hd < 2 ^ 64).
  { destruct l as [|a l]; simpl in Hch; [lia|]. destruct Hch as (-> & _ & _).
    assert (Ha : Range a (2 ^ (5 + c)) ∈ free_ranges 0 chains).
    { rewrite (free_ranges_split 0 _ _ _ Hl). apply elem_of_app. left. unfold chain_ranges.
      cbn [fmap list_fmap]. rewrite Nat.add_0_l, Z2Nat.id by lia. left. }
    destruct (covered_mapped _ _ _ _ _ a Hi) as [_ H1]; [|lia].
    pose proof (hit_le_cov _ _ a Ha) as Hh. rewrite hit_in in Hh by (unfold r_end; simpl; lia).
    pose proof (mi_cov _ _ _ _ _ Hi a) as Hx. unfold carved in Hx. rewrite !cov_app in *.
    pose proof (cov_nonneg (bk_range <$> bigs) a). pose proof (cov_nonneg (bk_range <$> b :: smalls) a).
    pose proof (cov_nonneg [Range (nl_arena_p st) (nl_arena_left st)] a). lia. }
  destruct (store64_spec (nl_mem st) h hd) as (m' & E & Hs & Hd & Hbt & Hld); [eapply mapped_sub; [exact P3|lia|lia]|done|].
  rewrite E. cbn [mbind option_bind].
  assert (Hag : agree_on (nl_mem st) m' (every st bigs smalls chains)).
  { eapply (agree_differ _ _ _ _ (bk_range b)); [exact Hd|simpl; fold h; lia|unfold r_end; simpl; fold h; lia|exact Hone]. }
  apply agree_every in Hag as [Hag1 Hag2].
  exists (set_free (<[Z.to_nat c := h]> (nl_free_list st)) (set_mem m' st)), (<[Z.to_nat c := h :: l]> chains), l.
  assert (Hlen : (Z.to_nat c < length chains)%nat) by by eapply lookup_lt_Some.
  split; [done|]. split; [|split; [by apply list_lookup_insert_eq|done]].
  assert (Hch' : chains_ok m' (nl_free_list st) chains) by (eapply chains_ext; [done|exact (mi_chains _ _ _ _ _ Hi)]).
  destruct Hi as [I1 I2 I3 I4 I5 I6 I7]. constructor; simpl; auto.
  - eapply os_same; [exact I1|done|done].
  - by apply Forall_cons in I3 as [_ I3].
  - eapply blocks_ext; [exact Hag1|]. rewrite <- Permutation_middle in I4. by apply Forall_cons in I4 as [_ I4].
  - apply chains_insert; [done|lia| |constructor; [|done]].
    + cbn [chain]. split; [done|]. split; [lia|]. exists hd. split; [done|].
      destruct (chains_lookup _ _ _ (Z.to_nat c) Hch') as (hd' & l' & E1 & E2 & H3 & _); [lia|].
      rewrite Hhd in E1. rewrite Hl in E2. by injection E1 as <-; injection E2 as <-.
    + cbn beta. revert K3. rewrite Eh. intros. zdiv.
  - intros x. specialize (I7 x). unfold carved in *. simpl. cbn [fmap list_fmap app] in I7.
    rewrite cov_cons, !cov_app in *.
    rewrite (free_ranges_insert _ _ (h :: l) Hlen), cov_app.
    rewrite (free_ranges_split 0 _ _ _ Hl), cov_app in I7.
    unfold chain_ranges in *. cbn [fmap list_fmap] in *. rewrite cov_cons. simpl in I7.
    rewrite Z2Nat.id in * by lia. change (bk_range b) with (Range h (bk_total b)) in I7. rewrite Ht in I7. lia.
Qed.

Lemma free_ok st live rest p n :
  minv_live st live -> live ≡ₚ (p, n) :: rest ->
  exists st', free p st = Some st' /\ minv_live st' rest /\
    agree_on (nl_mem st) (nl_mem st') (payload <$> rest).
Proof.
  intros Hi Hp. destruct (live_split st live rest p n Hi Hp) as (b & bigs & smalls & chains & arenas & Hb & Hcase).
  injection Hb as <- _. destruct Hcase as [[Hm Hr]|[Hm Hr]].
  - destruct (free_big _ _ _ _ _ _ Hm) as (st' & E & Hi' & Ha). exists st'. split; [done|]. split.
    + by eexists _, _, _, _.
    + rewrite Hr. eapply agree_sub; [|exact Ha]. intros x. eapply payload_cov.
      pose proof (mi_ok _ _ _ _ _ Hm) as Ho. by apply Forall_cons in Ho as [_ Ho].
  - destruct (free_small _ _ _ _ _ _ Hm) as (st' & chains' & l & E & Hi' & _ & _ & Ha). exists st'. split; [done|]. split.
    + by eexists _, _, _, _.
    + rewrite Hr. eapply agree_sub; [|exact Ha]. intros x. eapply payload_cov.
      pose proof (mi_ok _ _ _ _ _ Hm) as Ho. rewrite <- Permutation_middle in Ho.
      by apply Forall_cons in Ho as [_ Ho].
Qed.

(** ** What a client may rely on *)

Lemma minv_live_perm st l1 l2 : l1 ≡ₚ l2 -> minv_live st l1 -> minv_live st l2.
Proof. intros Hp (b & s & c & a & Hi & Hl). exists b, s, c, a. split; [done|]. by rewrite <- Hp. Qed.

Lemma live_cov st live x : minv_live st live -> cov (payload <$> live) x <= 1.
Proof.
  intros (bigs & smalls & chains & arenas & Hi & ->).
  pose proof (payload_cov _ _ x (mi_ok _ _ _ _ _ Hi)) as Hp. pose proof (every_cov _ _ _ _ _ x Hi) as He.
  unfold every, carved in He. rewrite (fmap_app bk_range) in Hp. rewrite !cov_app in *.
  pose proof (cov_nonneg (free_ranges 0 chains) x).
  pose proof (cov_nonneg [Range (nl_arena_p st) (nl_arena_left st)] x). lia.
Qed.

Lemma live_elem st live p n :
  minv_live st live -> (p, n) ∈ live ->
  0 < p /\ p mod 16 = 0 /\ 0 <= n /\ p + n <= 2 ^ 64 /\ mapped (nl_mem st) p n /\
  exists u, malloc_usable_size p st = Some u /\ n <= u.
Proof.
  intros (bigs & smalls & chains & arenas & Hi & Hl) Hin. rewrite Hl in Hin.
  apply list_elem_of_fmap in Hin as (b & Hb & Hin). injection Hb as -> ->.
  destruct (block_place _ _ _ _ _ b Hi Hin) as (P1 & P2 & P3 & (K1 & K2 & K3 & K4 & K5)).
  unfold bk_head, nl_head_size in *. split; [lia|]. split; [done|]. split; [done|]. split; [lia|].
  split; [eapply mapped_sub; [exact P3|lia|lia]|].
  exists (bk_total b - 16). unfold malloc_usable_size, nl_head_size.
  destruct (Z.eqb_spec (bk_p b) 0); [lia|]. rewrite wrap64_small by lia. split; [done|lia].
Qed.

Lemma live_bytes st live : minv_live st live -> bytes_ok (nl_mem st).
Proof. intros (bigs & smalls & chains & arenas & Hi & _). eapply os_bytes, Hi. Qed.

(** The client uses up to what the block can hold. *)
Lemma live_resize st p n rest :
  minv_live st ((p, n) :: rest) ->
  exists u, load64 (nl_mem st) (p -w nl_head_size) = Some u /\ n <= u < 2 ^ 64 /\
    forall n', 0 <= n' <= u -> minv_live st ((p, n') :: rest).
Proof.
  intros Hm. destruct (live_split st _ rest p n Hm) as (b & bigs & smalls & chains & arenas & Hb & Hcase); [done|].
  injection Hb as <- <-.
  assert (Hin : exists bigs' smalls', minv st bigs' smalls' chains arenas /\ b ∈ bigs' ++ smalls').
  { destruct Hcase as [[Hi _]|[Hi _]]; eexists _, _; (split; [exact Hi|]).
    - left.
    - apply elem_of_app. right. left. }
  destruct Hin as (bigs' & smalls' & Hi' & Hin).
  destruct (block_place _ _ _ _ _ b Hi' Hin) as (P1 & P2 & P3 & Hok).
  pose proof Hok as (K1 & K2 & K3 & K4 & K5). unfold bk_head in *. unfold nl_head_size in *.
  exists (bk_total b - 16). rewrite wrap64_small by lia. split; [done|]. split; [lia|].
  intros n' Hn'. set (b' := Blk (bk_p b) n' (bk_total b) (bk_kind b)).
  assert (Hok' : bk_ok (nl_mem st) b').
  { unfold bk_ok, bk_head, nl_head_size in *. unfold b'. simpl. split_and!; try done; lia. }
  destruct Hcase as [[[I1 I2 I3 I4 I5 I6 I7] Hr]|[[I1 I2 I3 I4 I5 I6 I7] Hr]].
  - exists (b' :: bigs), smalls, chains, arenas. split; [|by rewrite Hr].
    constructor; auto.
    + apply Forall_cons in I2 as [I21 I22]. constructor; done.
    + apply Forall_cons in I4 as [I41 I42]. constructor; done.
  - exists bigs, (b' :: smalls), chains, arenas. split; [|by rewrite Hr, <- Permutation_middle].
    constructor; auto.
    + apply Forall_cons in I3 as [I31 I32]. constructor; done.
    + rewrite <- Permutation_middle in *. apply Forall_cons in I4 as [I41 I42]. constructor; done.
Qed.

(** The client writes into its block. *)
Lemma write_ok st p n rest m' :
  minv_live st ((p, n) :: rest) -> same_mapped (nl_mem st) m' -> bytes_ok m' ->
  differ_in (nl_mem st) m' p n ->
  minv_live (set_mem m' st) ((p, n) :: rest) /\ agree_on (nl_mem st) m' (payload <$> rest).
Proof.
  intros Hm Hs Hb Hd. split.
  2:{ eapply (agree_differ _ _ p n (Range p n)); [done|simpl; lia|unfold r_end; simpl; lia|].
      intros x. exact (live_cov _ _ x Hm). }
  destruct (live_split st _ rest p n Hm) as (b & bigs & smalls & chains & arenas & Hbc & Hcase); [done|].
  injection Hbc as <- <-.
  assert (Hin : exists bigs' smalls', minv st bigs' smalls' chains arenas /\
            bigs' ++ smalls' ≡ₚ b :: (bigs ++ smalls) /\ rest ≡ₚ bk_client <$> (bigs ++ smalls)).
  { destruct Hcase as [[Hi Hr]|[Hi Hr]]; eexists _, _; (split; [exact Hi|]); (split; [|exact Hr]).
    - done.
    - by rewrite <- Permutation_middle. }
  destruct Hin as (bigs' & smalls' & Hi & Hperm & Hr).
  exists bigs', smalls', chains, arenas. split; [|rewrite Hperm; cbn [fmap list_fmap]; by rewrite Hr].
  destruct (block_place _ _ _ _ _ b Hi) as (P1 & P2 & P3 & (K1 & K2 & K3 & K4 & K5)); [rewrite Hperm; left|].
  assert (Hin : r_base (bk_range b) <= bk_p b /\ bk_p b + bk_n b <= r_end (bk_range b)).
  { unfold r_end, bk_range, bk_head, nl_head_size in *. simpl. lia. }
  assert (Hone : forall x, cov (bk_range b :: (bk_range <$> (bigs ++ smalls)) ++ free_ranges 0 chains) x <= 1).
  { intros x. pose proof (every_cov _ _ _ _ _ x Hi) as Hx. unfold every, carved in Hx.
    rewrite (assoc_L (++)), <- fmap_app in Hx. rewrite Hperm in Hx. cbn [fmap list_fmap app] in Hx.
    rewrite cov_cons, !cov_app in *.
    pose proof (cov_nonneg [Range (nl_arena_p st) (nl_arena_left st)] x). lia. }
  pose proof (agree_differ _ _ _ _ _ _ Hd (proj1 Hin) (proj2 Hin) Hone) as Hag.
  apply agree_app in Hag as [Hag1 Hag2].
  apply minv_mem; try done. rewrite Hperm.
  pose proof (mi_ok _ _ _ _ _ Hi) as Ho. rewrite Hperm in Ho. apply Forall_cons in Ho as [_ Ho].
  constructor; [|by eapply blocks_ext].
  unfold bk_ok, bk_head, nl_head_size in *. split; [done|]. split; [done|]. split; [done|].
  split; [rewrite <- K4|rewrite <- K5]; eapply load64_frame; try exact Hd; lia.
Qed.

(** ** calloc and realloc *)

Lemma mul_overflow n sz :
  0 <= n < 2 ^ 64 -> 0 <= sz < 2 ^ 64 ->
  negb (n =? 0) && negb (sz =? 0) && (NL_BIG / sz <? n) = negb (n * sz <? 2 ^ 64).
Proof.
  intros Hn Hs. unfold NL_BIG. destruct (Z.eqb_spec n 0) as [->|]; [done|].
  destruct (Z.eqb_spec sz 0) as [->|]; [by rewrite Z.mul_0_r|]. cbn [negb andb].
  pose proof (Z.div_mod (2 ^ 64 - 1) sz ltac:(lia)). pose proof (Z.mod_pos_bound (2 ^ 64 - 1) sz ltac:(lia)).
  zcases; cbn [negb]; try done; nia.
Qed.

Lemma calloc_ok st live n sz :
  minv_live st live -> 0 <= n < 2 ^ 64 -> 0 <= sz < 2 ^ 64 ->
  exists p st', calloc n sz st = Some (p, st') /\ got_block st live (n * sz) p st' /\
    (2 ^ 64 <= n * sz -> p = 0) /\
    (p <> 0 -> forall i, 0 <= i < n * sz -> nl_mem st' (p + i) = Some 0).
Proof.
  intros Hm Hn Hs. unfold calloc. rewrite mul_overflow by done.
  destruct (Z.ltb_spec (n * sz) (2 ^ 64)) as [Hlt|Hge]; cbn [negb].
  2:{ eexists _, _. split; [done|]. split; [|done]. split; [apply agree_refl|]. by left. }
  rewrite wrap64_small by nia.
  destruct (malloc_ok st live (n * sz) Hm) as (p & st1 & E & Hag & Hcase); [nia|].
  rewrite E. cbn [mbind option_bind].
  destruct Hcase as [[-> Hm1]|[Hp Hm1]].
  { eexists _, _. split; [done|]. split; [|done]. split; [done|]. by left. }
  destruct (Z.eqb_spec p 0); [done|]. cbn [negb].
  destruct (live_elem _ _ p (n * sz) Hm1) as (L1 & L2 & L3 & L4 & L5 & _); [left|].
  destruct (memset_spec (nl_mem st1) p 0 (n * sz)) as (m' & E' & Hs' & Hb' & Hf'); [done|done|].
  rewrite E'. cbn [mbind option_bind]. rewrite Z.mod_0_l in Hf' by lia.
  destruct (write_ok st1 p (n * sz) live m' Hm1 Hs') as [Hm2 Hag2].
  { eapply Hb', live_bytes, Hm1. } { eapply filled_differ, Hf'. }
  eexists _, _. split; [done|]. split; [split; [by eapply agree_trans|by right]|]. split; [lia|].
  intros _ i Hi. simpl. rewrite Hf'. zcases; simpl; try done; lia.
Qed.

Lemma realloc_ok st p n0 rest n :
  minv_live st ((p, n0) :: rest) -> 0 < n < 2 ^ 64 ->
  exists q st', realloc p n st = Some (q, st') /\
    agree_on (nl_mem st) (nl_mem st') (payload <$> rest) /\
    ((q = 0 /\ minv_live st' ((p, n0) :: rest) /\ forall i, 0 <= i < n0 -> nl_mem st' (p + i) = nl_mem st (p + i)) \/
     (q <> 0 /\ minv_live st' ((q, n) :: rest) /\
      forall i, 0 <= i < Z.min n0 n -> nl_mem st' (q + i) = nl_mem st (p + i))).
Proof.
  intros Hm Hn. destruct (live_elem _ _ p n0 Hm) as (L1 & L2 & L3 & L4 & L5 & _); [left|].
  destruct (live_resize st p n0 rest Hm) as (old & Eold & Hold & Hres). unfold realloc.
  destruct (Z.eqb_spec p 0); [lia|]. destruct (Z.eqb_spec n 0); [lia|].
  rewrite Eold. cbn [mbind option_bind]. destruct (Z.leb_spec n old) as [Hle|Hgt].
  { eexists _, _. split; [done|]. split; [apply agree_refl|]. right. split; [done|]. split; [|done].
    apply Hres. lia. }
  pose proof (Hres old ltac:(lia)) as Hmo.
  destruct (malloc_ok st ((p, old) :: rest) n Hmo) as (q & st1 & E & Hag & Hcase); [lia|].
  cbn [fmap list_fmap] in Hag.
  assert (Hag' := Hag). change (payload (p, old) :: ?l) with ([payload (p, old)] ++ l) in Hag'.
  apply (agree_app _ _ [payload (p, old)]) in Hag' as [Hagp Hagr].
  assert (Hsame : forall i, 0 <= i < old -> nl_mem st1 (p + i) = nl_mem st (p + i)).
  { intros i Hi. eapply agree_elem; [exact Hagp|left|]. unfold r_end, payload. simpl. lia. }
  rewrite E. cbn [mbind option_bind]. destruct Hcase as [[-> Hm1]|[Hq Hm1]].
  { eexists _, _. split; [done|]. split; [done|]. left. split; [done|]. split; [|intros i Hi; apply Hsame; lia].
    destruct (live_resize st1 p old rest Hm1) as (u & _ & Hu & Hback). apply Hback. lia. }
  destruct (Z.eqb_spec q 0); [done|].
  destruct (live_elem _ _ q n Hm1) as (Q1 & Q2 & Q3 & Q4 & Q5 & _); [left|].
  destruct (live_elem _ _ p old Hm1) as (_ & _ & _ & _ & P5 & _); [right; left|].
  assert (Hdis : disjoint_ranges (Range q n) (Range p old) \/ old = 0).
  { destruct (decide (old = 0)); [by right|left].
    eapply (cov_disjoint [Range q n] (Range p old :: (payload <$> rest))); [|left|left|simpl; lia|simpl; lia].
    intros x. exact (live_cov _ _ x Hm1). }
  destruct (memcpy_spec (nl_mem st1) q p old) as (m2 & E2 & Hs2 & Hb2 & Hc2);
    [eapply live_bytes, Hm1|lia|done|eapply mapped_sub; [exact Q5|lia|lia]|
     unfold disjoint_ranges, r_end in Hdis; simpl in Hdis; lia|].
  rewrite E2. cbn [mbind option_bind].
  destruct (write_ok st1 q n ((p, old) :: rest) m2 Hm1 Hs2 Hb2) as [Hm2 Hag2].
  { eapply differ_in_sub; [by eapply copied_differ|lia|lia]. }
  destruct (free_ok (set_mem m2 st1) _ ((q, n) :: rest) p old Hm2) as (st3 & E3 & Hm3 & Hag3).
  { apply perm_swap. }
  rewrite E3. cbn [mbind option_bind]. eexists _, _. split; [done|].
  cbn [fmap list_fmap] in Hag2, Hag3. simpl in Hag3.
  apply (agree_app _ _ [payload (p, old)]) in Hag2 as [_ Hag2].
  assert (Hag3' := Hag3). apply (agree_app _ _ [payload (q, n)]) in Hag3' as [Hag3q Hag3r].
  split; [eapply agree_trans; [exact Hagr|]; by eapply agree_trans|].
  right. split; [done|]. split; [done|]. intros i Hi.
  rewrite (agree_elem _ _ _ (payload (q, n)) (q + i) Hag3q);
    [|left|unfold r_end, payload; simpl; lia].
  rewrite (Hc2 (q + i)). rewrite <- (Hsame i) by lia. zcases; simpl; try lia. f_equal. lia.
Qed.

(** ** Runs *)

(** The calls of a client that frees and resizes only what it holds and
    writes only inside it. *)
Inductive nl_run : nl_state S -> list (Z * Z) -> Prop :=
| nr_init os m : os_inv os m [] -> nl_run (NlState (replicate NL_CLASSES 0) 0 0 os m) []
| nr_malloc st live n p st' :
    nl_run st live -> 0 <= n < 2 ^ 64 -> malloc n st = Some (p, st') ->
    nl_run st' (if p =? 0 then live else (p, n) :: live)
| nr_calloc st live n sz p st' :
    nl_run st live -> 0 <= n < 2 ^ 64 -> 0 <= sz < 2 ^ 64 -> calloc n sz st = Some (p, st') ->
    nl_run st' (if p =? 0 then live else (p, n * sz) :: live)
| nr_free st live p n rest st' :
    nl_run st live -> live ≡ₚ (p, n) :: rest -> free p st = Some st' -> nl_run st' rest
| nr_realloc st live p n0 rest n q st' :
    nl_run st live -> live ≡ₚ (p, n0) :: rest -> 0 < n < 2 ^ 64 -> realloc p n st = Some (q, st') ->
    nl_run st' (if q =? 0 then (p, n0) :: rest else (q, n) :: rest)
| nr_realloc_free st live p n0 rest q st' :
    nl_run st live -> live ≡ₚ (p, n0) :: rest -> realloc p 0 st = Some (q, st') -> nl_run st' rest
| nr_write st live p n i v m' :
    nl_run st live -> (p, n) ∈ live -> 0 <= i < n -> store8 (nl_mem st) (p + i) v = Some m' ->
    nl_run (set_mem m' st) live.

Lemma elem_perm (live : list (Z * Z)) x : x ∈ live -> exists rest, live ≡ₚ x :: rest.
Proof. intros Hx. apply list_elem_of_split in Hx as (l1 & l2 & ->). exists (l1 ++ l2). by rewrite <- Permutation_middle. Qed.

Lemma init_minv os m : os_inv os m [] -> minv_live (NlState (replicate NL_CLASSES 0) 0 0 os m) [].
Proof.
  intros Hos. exists [], [], (replicate NL_CLASSES []), []. split; [|done].
  constructor; simpl; try done; try lia.
  - split; [done|]. split; repeat constructor.
  - intros x. unfold carved, cov, hit, r_end. simpl. zcases; simpl; lia.
Qed.

Lemma realloc_zero p n st : p <> 0 -> n = 0 -> realloc p n st = st' ← free p st; Some (0, st').
Proof. intros Hp ->. unfold realloc. by destruct (Z.eqb_spec p 0). Qed.

Lemma run_minv st live : nl_run st live -> minv_live st live.
Proof.
  induction 1 as [os m Hos|st live n p st' _ IH Hn E|st live n sz p st' _ IH Hn Hs E
    |st live p n rest st' _ IH Hp E|st live p n0 rest n q st' _ IH Hp Hn E
    |st live p n0 rest q st' _ IH Hp E|st live p n i v m' _ IH Hin Hi E].
  - by apply init_minv.
  - destruct (malloc_ok st live n IH Hn) as (p' & st2 & E2 & _ & Hc). rewrite E in E2.
    injection E2 as <- <-. destruct Hc as [[-> Hc]|[Hp Hc]]; [done|]. by destruct (Z.eqb_spec p 0).
  - destruct (calloc_ok st live n sz IH Hn Hs) as (p' & st2 & E2 & [_ Hc] & _). rewrite E in E2.
    injection E2 as <- <-. destruct Hc as [[-> Hc]|[Hp Hc]]; [done|]. by destruct (Z.eqb_spec p 0).
  - destruct (free_ok st live rest p n IH Hp) as (st2 & E2 & Hc & _). rewrite E in E2. by injection E2 as <-.
  - destruct (realloc_ok st p n0 rest n (minv_live_perm _ _ _ Hp IH) Hn) as (q' & st2 & E2 & _ & Hc).
    rewrite E in E2. injection E2 as <- <-.
    destruct Hc as [(-> & Hc & _)|(Hq & Hc & _)]; [done|]. by destruct (Z.eqb_spec q 0).
  - destruct (live_elem st live p n0 IH) as (Hp0 & _); [rewrite Hp; left|].
    destruct (free_ok st live rest p n0 IH Hp) as (st2 & E2 & Hc & _).
    rewrite realloc_zero in E by (done || lia). rewrite E2 in E. by injection E as _ <-.
  - destruct (elem_perm _ _ Hin) as [rest Hp]. pose proof (minv_live_perm _ _ _ Hp IH) as Hm.
    destruct (live_elem st live p n IH Hin) as (_ & _ & _ & _ & Hmap & _).
    assert (Hpi : is_Some (nl_mem st (p + i))) by (apply Hmap; lia).
    rewrite store8_some in E by done. injection E as <-.
    eapply minv_live_perm; [symmetry; exact Hp|]. eapply write_ok; try done.
    + by apply same_mapped_upd.
    + eapply bytes_ok_upd, live_bytes, Hm.
    + apply differ_in_upd. lia.
Qed.

(** C2: at every point of every run of the heap, the blocks the client holds
    are at non-null, 16-byte aligned addresses, lie in mapped memory, are
    pairwise disjoint, and [malloc_usable_size] reports at least the size
    asked for; and no call of the allocator faults, whatever is asked:
    [malloc], [calloc], and on null and on every block held [free],
    [realloc] and [malloc_usable_size]. *)
Theorem heap_safe st live :
  nl_run st live ->
  (forall p n, (p, n) ∈ live ->
     0 < p /\ p mod 16 = 0 /\ p + n <= 2 ^ 64 /\ mapped (nl_mem st) p n /\
     exists u, malloc_usable_size p st = Some u /\ n <= u) /\
  (forall x, cov (payload <$> live) x <= 1) /\
  (forall n, 0 <= n < 2 ^ 64 -> is_Some (malloc n st)) /\
  (forall n sz, 0 <= n < 2 ^ 64 -> 0 <= sz < 2 ^ 64 -> is_Some (calloc n sz st)) /\
  (forall p, p = 0 \/ (exists n, (p, n) ∈ live) ->
     is_Some (free p st) /\ is_Some (malloc_usable_size p st) /\
     forall n', 0 <= n' < 2 ^ 64 -> is_Some (realloc p n' st)).
Proof.
  intros Hm%run_minv.
  assert (Hmal : forall n, 0 <= n < 2 ^ 64 -> is_Some (malloc n st)).
  { intros n Hn. destruct (malloc_ok st live n Hm Hn) as (p & st' & -> & _). by eexists. }
  split; [|split; [|split; [done|split]]].
  - intros p n Hin. destruct (live_elem _ _ p n Hm Hin) as (H1 & H2 & _ & H4 & H5 & H6). auto.
  - intros x. exact (live_cov _ _ x Hm).
  - intros n sz Hn Hs. destruct (calloc_ok st live n sz Hm Hn Hs) as (p & st' & -> & _). by eexists.
  - intros p [->|[n Hin]]; [split; [by eexists|split; [by eexists|exact Hmal]]|].
    destruct (elem_perm _ _ Hin) as [rest Hp].
    destruct (live_elem _ _ p n Hm Hin) as (Hp0 & _ & _ & _ & _ & u & Hu & _).
    destruct (free_ok st live rest p n Hm Hp) as (st' & E & _). split; [by eexists|].
    split; [by eexists|]. intros n' Hn'. destruct (decide (n' = 0)) as [->|].
    + rewrite realloc_zero by (done || lia). rewrite E. by eexists.
    + destruct (realloc_ok st p n rest n' (minv_live_perm _ _ _ Hp Hm)) as (q & st2 & -> & _); [lia|].
      by eexists.
Qed.

(** C34: no allocator call changes a byte of a block the client keeps:
    [malloc] and [free] leave all other blocks as they were, [calloc] also
    returns zeroed memory and refuses a product that overflows, and [realloc]
    carries the old contents (as far as both sizes reach) to the block it
    returns, or leaves the old block in place when it fails. *)
Theorem heap_contents st p n0 rest :
  nl_run st ((p, n0) :: rest) ->
  let live := (p, n0) :: rest in
  (forall n q st', 0 <= n < 2 ^ 64 -> malloc n st = Some (q, st') ->
     agree_on (nl_mem st) (nl_mem st') (payload <$> live)) /\
  (forall n sz q st', 0 <= n < 2 ^ 64 -> 0 <= sz < 2 ^ 64 -> calloc n sz st = Some (q, st') ->
     agree_on (nl_mem st) (nl_mem st') (payload <$> live) /\ (2 ^ 64 <= n * sz -> q = 0) /\
     (q <> 0 -> forall i, 0 <= i < n * sz -> nl_mem st' (q + i) = Some 0)) /\
  (forall st', free p st = Some st' -> agree_on (nl_mem st) (nl_mem st') (payload <$> rest)) /\
  (forall n q st', 0 < n < 2 ^ 64 -> realloc p n st = Some (q, st') ->
     agree_on (nl_mem st) (nl_mem st') (payload <$> rest) /\
     forall i, 0 <= i < (if q =? 0 then n0 else Z.min n0 n) ->
       nl_mem st' ((if q =? 0 then p else q) + i) = nl_mem st (p + i)).
Proof.
  intros Hm%run_minv live. split; [|split; [|split]].
  - intros n q st' Hn E. destruct (malloc_ok st live n Hm Hn) as (q' & st2 & E2 & Hag & _).
    rewrite E in E2. by injection E2 as <- <-.
  - intros n sz q st' Hn Hs E. destruct (calloc_ok st live n sz Hm Hn Hs) as (q' & st2 & E2 & [Hag _] & Ho & Hz).
    rewrite E in E2. by injection E2 as <- <-.
  - intros st' E. destruct (free_ok st live rest p n0 Hm) as (st2 & E2 & _ & Hag); [done|].
    rewrite E in E2. by injection E2 as <-.
  - intros n q st' Hn E. destruct (realloc_ok st p n0 rest n Hm Hn) as (q' & st2 & E2 & Hag & Hc).
    rewrite E in E2. injection E2 as <- <-. split; [done|].
    destruct Hc as [(-> & _ & Hc)|(Hq & _ & Hc)]; [exact Hc|].
    destruct (Z.eqb_spec q 0); [done|exact Hc].
Qed.

Lemma pow_lt_inv a b : 0 <= a -> 0 <= b -> 2 ^ a < 2 ^ b -> a < b.
Proof. intros Ha Hb H1. apply (Z.pow_lt_mono_r_iff 2); lia. Qed.

(** The class is the power of two the request needs. *)
Lemma class_unique n c :
  0 <= c < 9 -> 0 <= n -> n <= 2 ^ (5 + c) -> c = 0 \/ 2 ^ (4 + c) < n -> nl_class_of n = c.
Proof.
  intros Hc Hn H1 H2. destruct (pow_class c Hc) as [Hp _].
  destruct (class_of_spec n Hn) as [(C1 & C2 & C3 & C4)|(C1 & C2)]; [|lia].
  set (d := nl_class_of n) in *.
  assert (c <= d).
  { destruct H2 as [->|H2]; [lia|]. assert (4 + c < 5 + d); [|lia]. apply pow_lt_inv; lia. }
  assert (d <= c); [|lia].
  destruct C4 as [->|C4]; [lia|]. assert (4 + d < 5 + c); [|lia]. apply pow_lt_inv; lia.
Qed.

Lemma malloc_pop st bigs smalls chains arenas c a l n :
  minv st bigs smalls chains arenas -> 0 <= c < 9 -> chains !! Z.to_nat c = Some (a :: l) ->
  0 < n -> nl_class_of (n + nl_head_size) = c ->
  exists st', malloc n st = Some (a + nl_head_size, st') /\ nl_os st' = nl_os st.
Proof.
  intros Hi Hc Hl Hn Hcl. destruct (pow_class c Hc) as [Hp _].
  destruct (class_of_spec (n + nl_head_size)) as [(C1 & _ & C3 & _)|(C1 & C2)];
    [unfold nl_head_size; lia| |unfold nl_head_size in *; lia].
  rewrite Hcl in C3. unfold malloc. destruct (Z.eqb_spec n 0); [lia|].
  destruct (Z.ltb_spec (NL_BIG - nl_head_size - 4095) n); [unfold NL_BIG, nl_head_size in *; lia|].
  rewrite (wrap64_small (n + nl_head_size)) by (unfold nl_head_size in *; lia).
  rewrite Hcl. destruct (Z.ltb_spec c 0); [lia|]. rewrite class_size_eq by done.
  destruct (chains_lookup _ _ _ (Z.to_nat c) (mi_chains _ _ _ _ _ Hi)) as (hd & l' & Hhd & Hl' & Hch & Hal); [lia|].
  rewrite Hl in Hl'. injection Hl' as <-. cbn [chain] in Hch. destruct Hch as (-> & Ha0 & q & Hq & Hch).
  rewrite Hhd. cbn [mbind option_bind]. destruct (Z.eqb_spec a 0); [lia|]. cbn [negb].
  rewrite Hq. cbn [mbind option_bind]. rewrite wrap64_small by (unfold nl_head_size; lia).
  destruct (pop_free st bigs smalls chains arenas (Z.to_nat c) a l q Hi ltac:(lia) Hl Hch) as (Hi1 & Ha16 & Hcov).
  rewrite Z2Nat.id in Hcov by lia.
  destruct (install_small _ _ _ _ _ a n c Hi1 Hc Ha16 ltac:(lia) C3 Hcov) as (st' & E & _ & _ & _).
  exists st'. split; [exact E|]. unfold set_head in E.
  destruct (store64 _ _ _) as [m1|]; [|done]. cbn [mbind option_bind] in E.
  destruct (store64 _ _ _) as [m2|]; [|done]. cbn [mbind option_bind] in E.
  by injection E as _ <-.
Qed.

(** A freed small block is what the next request of its size class gets,
    without a call to the machine: whatever [n] fits the block and does not
    fit half of it. *)
Theorem malloc_reuses st p n0 rest u n st1 :
  nl_run st ((p, n0) :: rest) -> malloc_usable_size p st = Some u -> u <= 8176 ->
  free p st = Some st1 -> 0 <= n <= u -> u = 16 \/ u + 16 < 2 * (n + 16) ->
  exists st2, malloc n st1 = Some (p, st2) /\ nl_os st2 = nl_os st.
Proof.
  intros Hm%run_minv Hu Hsmall Hfree Hn Hhalf.
  destruct (live_elem st _ p n0 Hm) as (Hp0 & _); [left|].
  destruct (live_split st _ rest p n0 Hm) as (b & bigs & smalls & chains & arenas & Hb & Hcase); [done|].
  injection Hb as <- <-. unfold malloc_usable_size in Hu. destruct (Z.eqb_spec (bk_p b) 0); [lia|].
  destruct Hcase as [[Hi _]|[Hi _]].
  - exfalso. destruct (block_place _ _ _ _ _ b Hi) as (P1 & P2 & _ & (_ & _ & _ & K4 & _)); [left|].
    pose proof (mi_big _ _ _ _ _ Hi) as Hbg. apply Forall_cons in Hbg as [(_ & _ & Hbg) _].
    unfold bk_head, nl_head_size in *. rewrite wrap64_small in Hu by lia. rewrite K4 in Hu. injection Hu. lia.
  - destruct (block_place _ _ _ _ _ b Hi) as (P1 & P2 & _ & (_ & _ & _ & K4 & _));
      [apply elem_of_app; right; left|].
    pose proof (mi_small _ _ _ _ _ Hi) as Hbg. apply Forall_cons in Hbg as [(c & Hc & Hk & Ht) _].
    destruct (free_small _ _ _ _ _ _ Hi) as (st1' & chains' & l & E & Hi' & Hl & Hos & _).
    rewrite Hfree in E. injection E as <-. rewrite Hk in Hl.
    unfold bk_head, nl_head_size in *. rewrite wrap64_small in Hu by lia. rewrite K4, Ht in Hu. injection Hu as <-.
    destruct (pow_class c Hc) as [Hp _].
    assert (Hhalf' : c = 0 \/ 2 ^ (4 + c) < n + 16).
    { destruct (decide (c = 0)); [by left|right]. destruct Hhalf as [Hh|Hh].
      - assert (2 ^ 6 <= 2 ^ (5 + c)) by (apply Z.pow_le_mono_r; lia). lia.
      - replace (5 + c) with (1 + (4 + c)) in Hh by lia. rewrite Z.pow_add_r in Hh by lia. lia. }
    destruct (decide (n = 0)) as [->|Hn0].
    + destruct (malloc_pop _ _ _ _ _ c _ _ 1 Hi' Hc Hl ltac:(lia)) as (st2 & E2 & Ho2).
      { apply class_unique; unfold nl_head_size; [done|lia|lia|]. destruct Hhalf'; [by left|right; lia]. }
      exists st2. split; [|by rewrite Ho2]. rewrite <- E2 || idtac.
      unfold malloc in *. cbn [Z.eqb] in *. rewrite E2. unfold nl_head_size. do 2 f_equal. lia.
    + destruct (malloc_pop _ _ _ _ _ c _ _ n Hi' Hc Hl ltac:(lia)) as (st2 & E2 & Ho2).
      { apply class_unique; unfold nl_head_size; [done|lia|lia|done]. }
      exists st2. split; [|by rewrite Ho2]. rewrite E2. unfold nl_head_size. do 2 f_equal. lia.
Qed.
End laws.

(** ** The guest's page source *)

(** [mmap] for an anonymous mapping, [munmap], [nl_map] and [nl_unmap] of
    [src/unikernel/boot/platform_x86.c].  [mprotect_rw p len] is the effect of
    [mprotect(p, len, PROT_READ | PROT_WRITE)] on memory. *)
Section guest.
Context (mprotect_rw : Z -> Z -> mem -> mem).

Definition MAP_FAILED : Z := 2 ^ 64 - 1.

Definition mmap (len : Z) (s : pa_state) : Z * pa_state :=
  let '(p, s') := pa_alloc len s in
  (if negb (p =? 0) then p else MAP_FAILED, s').

Definition munmap (p len : Z) (s : pa_state) (m : mem) : Z * pa_state * mem :=
  if negb (pa_owns p len s) then (0, s, m)
  else
    let m := mprotect_rw p len m in
    let '(_, s') := pa_free p len s in
    (0, s', m).

Definition guest_nl_map (len : Z) (s : pa_state) (m : mem) : Z * pa_state * mem :=
  let '(p, s') := mmap len s in
  (if p =? MAP_FAILED then 0 else p, s', m).

Definition guest_nl_unmap (p len : Z) (s : pa_state) (m : mem) : pa_state * mem :=
  let '(_, s', m') := munmap p len s m in (s', m').

(** The allocator's region is mapped; others may hold pages of it. *)
Definition guest_inv (s : pa_state) (m : mem) (held : list range) : Prop :=
  bytes_ok m /\ mapped m (pa_base s) (pa_end s - pa_base s) /\
  exists others lost, pa_inv s (held ++ others) lost.

#[local] Instance guest_pages : PageMap pa_state := {
  nl_map := guest_nl_map;
  nl_unmap := guest_nl_unmap;
  os_inv := guest_inv
}.

(** Making pages of the region accessible again changes no byte that was. *)
Context (mprotect_keeps : forall p len m x v, m x = Some v -> mprotect_rw p len m x = Some v).
Context (mprotect_bytes : forall p len m, bytes_ok m -> bytes_ok (mprotect_rw p len m)).

Lemma alloc_none_inv s live lost want s' :
  pa_inv s live lost -> pa_alloc want s = (0, s') -> s' = s.
Proof.
  intros Hi E. pose proof (pa_alloc_result s live lost want Hi) as Hres. rewrite E in Hres.
  destruct (wf_region s (inv_wf _ _ _ Hi)) as (R1 & R2 & _).
  inversion Hres as [| |l1 r l2 s1 _ Hs _ _ _ _ _ _ _ _ _ _ _ E0|s1 _ _ _ _ _ _ _ _ _ _ _ _ E0];
    subst; auto; [|lia].
  pose proof (wf_holes s (inv_wf _ _ _ Hi)) as Hh. rewrite Hs in Hh.
  apply Forall_app in Hh as [_ Hh]. apply Forall_cons in Hh as [(? & _) _]. lia.
Qed.

Lemma round_page n : 0 <= n <= 2 ^ 64 - PA_PAGE -> n mod PA_PAGE = 0 -> pa_round n = n.
Proof. intros Hn Hp. rewrite pa_round_unfold. unfold PA_PAGE in *. rewrite wrap64_small by lia. zdiv. Qed.

Lemma guest_map_ok s m held n p s' m' :
  guest_inv s m held -> 0 < n <= 2 ^ 64 - PA_PAGE -> n mod PA_PAGE = 0 ->
  guest_nl_map n s m = (p, s', m') ->
  guest_inv s' m' (if p =? 0 then held else Range p n :: held) /\
  (forall x, 0 < cov held x -> m' x = m x).
Proof.
  intros (Hb & Hm & others & lost & Hi) Hn Hp E. unfold guest_nl_map, mmap in E.
  destruct (pa_alloc n s) as [q s1] eqn:Ea. pose proof (alloc_frame n s) as Hf. rewrite Ea in Hf.
  simpl in Hf. destruct Hf as [Hf1 Hf2].
  assert (Hq : q <> 0 -> q <> MAP_FAILED).
  { intros Hq ->. pose proof (alloc_inv s _ _ n _ _ Hi Ea Hq) as Hi'.
    pose proof (inv_blocks _ _ _ Hi') as Hbl. apply Forall_cons in Hbl as [(_ & B1 & B2 & _) _].
    destruct (wf_region _ (inv_wf _ _ _ Hi')) as (_ & _ & R3 & R4).
    unfold r_end, MAP_FAILED in *. simpl in *. lia. }
  destruct (Z.eqb_spec q 0) as [->|Hq0]; cbn [negb] in E.
  - rewrite Z.eqb_refl in E. injection E as <- <- <-. cbn [Z.eqb]. split; [|done].
    apply (alloc_none_inv _ _ _ _ _ Hi) in Ea. subst. split; [done|]. split; [done|]. eauto.
  - destruct (Z.eqb_spec q MAP_FAILED); [by apply Hq in Hq0|]. injection E as <- <- <-.
    destruct (Z.eqb_spec q 0); [done|]. split; [|done]. split; [done|].
    split; [by rewrite Hf1, Hf2|]. exists others, lost.
    pose proof (alloc_inv s _ _ n _ _ Hi Ea Hq0) as Hi'. rewrite round_page in Hi' by (done || lia). exact Hi'.
Qed.

Lemma guest_unmap_ok s m held n p s' m' :
  guest_inv s m (Range p n :: held) -> guest_nl_unmap p n s m = (s', m') ->
  guest_inv s' m' held /\ (forall x, 0 < cov held x -> m' x = m x).
Proof.
  intros (Hb & Hm & others & lost & Hi) E. pose proof (inv_blocks _ _ _ Hi) as Hbl.
  apply Forall_app in Hbl as [Hbl _]. assert (Hbl' := Hbl). apply Forall_cons in Hbl as [(B1 & B2 & B3 & B4 & B5) _].
  destruct (wf_region _ (inv_wf _ _ _ Hi)) as (R1 & R2 & R3 & R4).
  unfold r_end, page_aligned in *. simpl in *.
  assert (Hr : pa_round n = n) by (apply round_page; [unfold PA_PAGE in *; zdiv|done]).
  assert (Hown : pa_owns p n s = true).
  { unfold pa_owns. rewrite Hr. rewrite (wrap64_small (p + n)) by lia. zcases; simpl; try done; lia. }
  unfold guest_nl_unmap, munmap in E. rewrite Hown in E. cbn [negb] in E.
  destruct (pa_free p n s) as [r s1] eqn:Ef. injection E as <- <-.
  pose proof (free_frame p n s) as Hf. rewrite Ef in Hf. simpl in Hf. destruct Hf as [Hf1 Hf2].
  assert (Hkeep : forall x, is_Some (m x) -> mprotect_rw p n m x = m x).
  { intros x [v Hv]. rewrite Hv. by apply mprotect_keeps. }
  split; [split; [by apply mprotect_bytes|split]|].
  - rewrite Hf1, Hf2. intros x Hx. rewrite Hkeep; by apply Hm.
  - destruct (free_inv s p n _ (held ++ others) lost n r s1 Hi) as [[_ H1]|(_ & _ & H1)]; try done; eauto.
  - intros x Hx. apply Hkeep, Hm. apply cov_pos_elem in Hx as (r' & Hr' & Hx).
    apply Forall_cons in Hbl' as [_ Hbl']. apply Forall_app in Hbl' as [Hbl' _].
    rewrite Forall_forall in Hbl'. destruct (Hbl' r' Hr') as (C1 & C2 & C3 & _). unfold r_end in *. lia.
Qed.

#[local] Instance guest_laws : PageMapLaws pa_state.
Proof.
  constructor.
  - intros s m h1 h2 Hp (Hb & Hm & others & lost & Hi). split; [done|]. split; [done|].
    exists others, lost. eapply pa_inv_perm; [|done|exact Hi]. by rewrite Hp.
  - by intros s m held (Hb & _).
  - intros s m held (Hb & Hm & others & lost & Hi). pose proof (inv_blocks _ _ _ Hi) as Hbl.
    apply Forall_app in Hbl as [Hbl _]. apply Forall_app in Hbl as [Hbl _].
    destruct (wf_region _ (inv_wf _ _ _ Hi)) as (R1 & R2 & R3 & R4).
    eapply Forall_impl; [exact Hbl|]. intros r (B1 & B2 & B3 & B4 & B5).
    split; [lia|]. split; [done|]. split; [lia|]. split; [done|].
    unfold r_end in *. eapply mapped_sub; [exact Hm|lia|lia].
  - intros s m held x (_ & _ & others & lost & Hi). pose proof (inv_cov _ _ _ Hi x) as Hc.
    rewrite !cov_app in Hc. pose proof (cov_nonneg (pa_holes s) x). pose proof (cov_nonneg others x).
    pose proof (cov_nonneg lost x). destruct (_ && _); lia.
  - intros s m m' held (Hb & Hm & Hi) Hs Hb'. split; [done|]. split; [by eapply mapped_same|done].
  - exact guest_map_ok.
  - exact guest_unmap_ok.
Qed.
End guest.

(** ** A concrete heap *)

Section demo.
(** A 4 MiB machine whose pages are never protected. *)
#[local] Instance demo_pages : PageMap pa_state := guest_pages (fun _ _ m => m).
#[local] Instance demo_laws : PageMapLaws pa_state := guest_laws (fun _ _ m => m) (fun _ _ _ _ _ E => E) (fun _ _ _ Hb => Hb).

Definition demo_ram : mem := fun x => if (1048576 <=? x) && (x <? 5242880) then Some 0 else None.
Definition demo_pa : pa_state := pa_init 1048576 4194304 pa_zero.
Definition demo_nl : nl_state pa_state := NlState (replicate NL_CLASSES 0) 0 0 demo_pa demo_ram.

Lemma demo_nl_run : nl_run demo_nl [].
Proof.
  constructor. split; [|split].
  - intros x v. unfold demo_ram. destruct (_ && _); [|done]. intros [= <-]. lia.
  - change (mapped demo_ram 1048576 4194304). intros x Hx. unfold demo_ram. zcases; simpl; try lia. by eexists.
  - exists [], []. apply init_inv; [unfold init_ok, PA_PAGE; lia|done].
Qed.

(** The heap after [malloc(100)] answered [p]. *)
Lemma demo_block :
  exists st, malloc 100 demo_nl = Some (1048592, st) /\ nl_run st [(1048592, 100)] /\
    malloc_usable_size 1048592 st = Some 112.
Proof.
  assert (E : (pu ← malloc 100 demo_nl; u ← malloc_usable_size (fst pu) (snd pu); Some (fst pu, u))
              = Some (1048592, 112)) by (vm_compute; reflexivity).
  destruct (malloc 100 demo_nl) as [[p st]|] eqn:Em; [|done]. cbn [mbind option_bind fst snd] in E.
  destruct (malloc_usable_size p st) as [u|] eqn:Eu; [|done]. injection E as -> ->.
  exists st. split; [done|]. split; [|done].
  exact (nr_malloc demo_nl [] 100 1048592 st demo_nl_run ltac:(lia) Em).
Qed.

Lemma heap_safe_witness :
  exists st, nl_run st [(1048592, 100)] /\ mapped (nl_mem st) 1048592 100 /\ is_Some (malloc 5000000 st) /\
    is_Some (calloc (2 ^ 33) (2 ^ 33) st) /\ is_Some (free 1048592 st).
Proof.
  destruct demo_block as (st & _ & Hr & _). exists st.
  destruct (heap_safe st [(1048592, 100)] Hr) as (H1 & _ & H2 & H3 & H4).
  split; [exact Hr|]. split; [apply (H1 1048592 100); left|]. split; [apply H2; lia|].
  split; [apply H3; lia|]. apply (H4 1048592). right. exists 100. left.
Defined.

Lemma heap_contents_witness :
  exists st, nl_run st [(1048592, 100)] /\
    forall q st', malloc 7 st = Some (q, st') -> agree_on (nl_mem st) (nl_mem st') [Range 1048592 100].
Proof.
  destruct demo_block as (st & _ & Hr & _). exists st. split; [exact Hr|].
  intros q st'. exact (proj1 (heap_contents st 1048592 100 [] Hr) 7 q st' ltac:(lia)).
Defined.

Lemma malloc_reuses_witness :
  exists st st1 st2, nl_run st [(1048592, 100)] /\ free 1048592 st = Some st1 /\
    malloc 90 st1 = Some (1048592, st2) /\ nl_os st2 = nl_os st.
Proof.
  destruct demo_block as (st & _ & Hr & Hu).
  destruct (free_ok st _ [] 1048592 100 (run_minv _ _ Hr) ltac:(reflexivity)) as (st1 & E1 & _).
  destruct (malloc_reuses st 1048592 100 [] 112 90 st1 Hr Hu ltac:(lia) E1 ltac:(lia) ltac:(right; lia))
    as (st2 & E2 & E3).
  exists st, st1, st2. done.
Defined.
End demo.
