(* ===== verification/Dtoa.v ===== *)
(** Exact decimal output of doubles, [src/unikernel/nolibc/dtoa.c].

    A [nl_bignum] is the list of its [n] limbs, least significant first; the
    array's capacity is the check the code makes before it grows [n].  A
    double is its 64-bit pattern, a digit string the list of its characters. *)

From S2P Require Import Prelude.

Open Scope word_scope.

Definition NL_DTOA_W : nat := 96.
Definition NL_DTOA_DIGS : nat := 800.

Definition limb : Z := 2 ^ 32.

(** ** Bignums *)

Definition nl_bn_set (v : Z) : list Z :=
  let w0 := wrap32 v in
  let w1 := wrap32 (Z.shiftr v 32) in
  if negb (w1 =? 0) then [w0; w1] else if negb (w0 =? 0) then [w0] else [].

(** The loop over the limbs: the new limbs and the carry out. *)
Fixpoint mul_limbs (b : list Z) (m carry : Z) : list Z * Z :=
  match b with
  | [] => ([], carry)
  | w :: b' =>
      let t := wrap64 (w * m + carry) in
      let '(r, c) := mul_limbs b' m (Z.shiftr t 32) in
      (wrap32 t :: r, c)
  end.

(** [while (carry)]: a 64-bit carry is gone after two rounds. *)
Fixpoint push_carry (fuel : nat) (b : list Z) (carry : Z) : option (list Z) :=
  match fuel with
  | O => None
  | S f =>
      if carry =? 0 then Some b
      else if (NL_DTOA_W <=? length b)%nat then None
      else push_carry f (b ++ [wrap32 carry]) (Z.shiftr carry 32)
  end.

Definition nl_bn_mul (b : list Z) (m : Z) : option (list Z) :=
  let '(r, carry) := mul_limbs b m 0 in push_carry 3 r carry.

(** The loop that shifts by less than a word. *)
Fixpoint shl_limbs (b : list Z) (sh carry : Z) : list Z * Z :=
  match b with
  | [] => ([], carry)
  | w :: b' =>
      let nv := Z.lor (wrap32 (Z.shiftl w sh)) carry in
      let '(r, c) := shl_limbs b' sh (wrap32 (Z.shiftr w (32 - sh))) in
      (nv :: r, c)
  end.

Definition nl_bn_shl (b : list Z) (bits : Z) : option (list Z) :=
  let words := Z.to_nat (Z.shiftr bits 5) in
  let sh := Z.land bits 31 in
  match b with
  | [] => Some []
  | _ :: _ =>
      b1 ← (if negb (sh =? 0) then
              let '(r, carry) := shl_limbs b sh 0 in
              if negb (carry =? 0) then
                if (NL_DTOA_W <=? length r)%nat then None else Some (r ++ [carry])
              else Some r
            else Some b);
      if (words =? 0)%nat then Some b1
      else if (NL_DTOA_W <? length b1 + words)%nat then None
      else Some (replicate words 0 ++ b1)
  end.

(** The division loop runs from the top limb down. *)
Fixpoint div_limbs (b : list Z) : list Z * Z :=
  match b with
  | [] => ([], 0)
  | w :: b' =>
      let '(q, rem) := div_limbs b' in
      let cur := Z.lor (Z.shiftl rem 32) w in
      (wrap32 (cur / 1000000000) :: q, cur mod 1000000000)
  end.

(** [while (b->n && b->w[b->n - 1] == 0) b->n--;] *)
Fixpoint strip_top (b : list Z) : list Z :=
  match b with
  | [] => []
  | w :: b' => match strip_top b' with [] => if w =? 0 then [] else [w] | r => w :: r end
  end.

Definition nl_bn_div1e9 (b : list Z) : list Z * Z :=
  let '(q, rem) := div_limbs b in (strip_top q, rem).

(** ** The exact digits *)

(** [p5], the powers of five below 5^13. *)
Definition p5 : list Z :=
  [1; 5; 25; 125; 625; 3125; 15625; 78125; 390625; 1953125; 9765625; 48828125; 244140625].

(** [for (i = k; i >= 13; i -= 13)] multiply by 5^13, [j] rounds left. *)
Fixpoint mul_chunks (j : nat) (b : list Z) : option (list Z) :=
  match j with
  | O => Some b
  | S j' => b' ← nl_bn_mul b 1220703125; mul_chunks j' b'
  end.

(** The nine characters of a group, least significant first. *)
Fixpoint group9 (n : nat) (r : Z) : list Z :=
  match n with
  | O => []
  | S n' => (48 + r mod 10) :: group9 n' (r / 10)
  end.

(** [while (b.n)]: the digits so far, least significant first. *)
Fixpoint pump (fuel : nat) (b : list Z) (digits : list Z) : option (list Z) :=
  match fuel with
  | O => None
  | S f =>
      match b with
      | [] => Some digits
      | _ :: _ =>
          let '(b', r) := nl_bn_div1e9 b in
          if (NL_DTOA_DIGS <? length digits + 9)%nat then None
          else pump f b' (digits ++ group9 9 r)
      end
  end.

(** [while (nd > 1 && digits[nd - 1] == '0') nd--;] *)
Fixpoint drop_zeros (d : list Z) : list Z :=
  match d with
  | [] => []
  | c :: d' =>
      match drop_zeros d' with
      | [] => [c]
      | [x] => if x =? 48 then [c] else c :: [x]
      | r => c :: r
      end
  end.

(** The exponent field, the significand and the binary exponent. *)
Definition dbl_be (bits : Z) : Z := Z.land (Z.shiftr bits 52) 2047.
Definition dbl_mant (bits : Z) : Z :=
  let mant := Z.land bits (2 ^ 52 - 1) in
  if dbl_be bits =? 0 then mant else Z.lor mant (2 ^ 52).
Definition dbl_e2 (bits : Z) : Z :=
  if dbl_be bits =? 0 then -1074 else dbl_be bits - 1075.

(** [N] and [k]: the bignum with [|v| = N / 10^k]. *)
Definition bn_scale (mant e2 : Z) : option (list Z * Z) :=
  let b := nl_bn_set mant in
  if 0 <=? e2 then b ← nl_bn_shl b e2; Some (b, 0)
  else
    let k := - e2 in
    b ← mul_chunks (Z.to_nat (k / 13)) b;
    let rest := k mod 13 in
    b ← (if negb (rest =? 0) then nl_bn_mul b (p5 !!! Z.to_nat rest) else Some b);
    Some (b, k).

(** The digits, most significant first, and [exp10]; [None] is the code's -1. *)
Definition nl_exact_digits (bits : Z) : option (list Z * Z) :=
  if dbl_be bits =? 2047 then None else
  let mant := dbl_mant bits in
  let e2 := dbl_e2 bits in
  if mant =? 0 then Some ([48], 0) else
  '(b, k) ← bn_scale mant e2;
  digits ← pump 90 b [];
  let digits := rev (drop_zeros digits) in
  let exp10 := Z.of_nat (length digits) - 1 - k in
  Some (drop_zeros digits, exp10).

(** ** Rounding *)

(** [for (i = keep - 1; i >= 0; i--)]: increment with carry; the flag says that
    every digit was a 9. *)
Fixpoint bump (d : list Z) : list Z * bool :=
  match d with
  | [] => ([], true)
  | c :: d' =>
      let '(r, carry) := bump d' in
      if carry then if negb (c =? 57) then (c + 1 :: r, false) else (48 :: r, true)
      else (c :: r, false)
  end.

Definition all_zeros (d : list Z) : bool := forallb (fun c => c =? 48) d.

(** The digits kept and the new exponent; [length d] is [nd]. *)
Definition nl_round_digits (d : list Z) (keep exp10 : Z) : list Z * Z :=
  if Z.of_nat (length d) <=? keep then (d, exp10) else
  if keep <=? 0 then
    match d with
    | c :: d' =>
        if (keep =? 0) && ((53 <? c) || ((c =? 53) && negb (all_zeros d')))
        then ([49], exp10 + 1) else ([], exp10)
    | [] => ([], exp10)
    end
  else
    let n := Z.to_nat keep in
    let kept := take n d in
    let next := d !!! n in
    let tie := all_zeros (drop (S n) d) in
    if next <? 53 then (kept, exp10) else
    if (next =? 53) && tie && (Z.land (d !!! (n - 1)%nat - 48) 1 =? 0) then (kept, exp10) else
    match bump kept with
    | (_ :: r, true) => (49 :: r, exp10 + 1)
    | (r, _) => (r, exp10)
    end.

(** ** The formatter *)

Definition ch_e : Z := 101.
Definition ch_f : Z := 102.
Definition ch_g : Z := 103.

(** [i < nd ? digits[i] : '0'], also for a negative [i]. *)
Definition digit_at (d : list Z) (i : Z) : Z :=
  if (0 <=? i) && (i <? Z.of_nat (length d)) then d !!! Z.to_nat i else 48.

(** The characters the loop [for (i = lo; i < lo + n; i++)] writes. *)
Definition digits_from (d : list Z) (lo : Z) (n : nat) : list Z :=
  map (fun i => digit_at d (lo + Z.of_nat i)) (seq 0 n).

(** The [%e] branch. *)
Definition fmt_e (digits : list Z) (exp10 prec : Z) (alt : bool) : list Z :=
  let '(digits, ex) := nl_round_digits digits (prec + 1) exp10 in
  let a := Z.abs ex in
  [digit_at digits 0] ++
  (if (0 <? prec) || alt then 46 :: digits_from digits 1 (Z.to_nat prec) else []) ++
  [101; if ex <? 0 then 45 else 43] ++
  (if 100 <=? a then [48 + a / 100] else []) ++
  [48 + (a / 10) mod 10; 48 + a mod 10].

(** The [%f] branch. *)
Definition fmt_f (digits : list Z) (exp10 prec : Z) (alt : bool) : list Z :=
  let '(digits, exp10) := nl_round_digits digits (exp10 + 1 + prec) exp10 in
  (if exp10 <? 0 then [48] else digits_from digits 0 (Z.to_nat (exp10 + 1))) ++
  (if (0 <? prec) || alt then 46 :: digits_from digits (exp10 + 1) (Z.to_nat prec) else []).

(** The whole entry point: the characters written to [out]. *)
Definition nl_format_double (bits : Z) (conv prec : Z) (alt : bool) : list Z :=
  let neg := Z.shiftr bits 63 in
  if dbl_be bits =? 2047 then
    if negb (Z.land bits (2 ^ 52 - 1) =? 0) then [110; 97; 110]       (* nan *)
    else if negb (neg =? 0) then [45; 105; 110; 102] else [105; 110; 102]
  else
    (if negb (neg =? 0) then [45] else []) ++
    match nl_exact_digits bits with
    | None => [63]
    | Some (digits, exp10) =>
        let '(digits, exp10, conv, prec) :=
          if conv =? ch_g then
            let P := if prec =? 0 then 1 else prec in
            let '(digits, exp10) := nl_round_digits digits P exp10 in
            let conv := if (exp10 <? -4) || (P <=? exp10) then ch_e else ch_f in
            let digits := if negb alt then drop_zeros digits else digits in
            let nd := Z.of_nat (length digits) in
            let prec := if conv =? ch_e then nd - 1 else nd - 1 - exp10 in
            (digits, exp10, conv, Z.max prec 0)
          else (digits, exp10, conv, prec) in
        if conv =? ch_e then fmt_e digits exp10 prec alt else fmt_f digits exp10 prec alt
    end.

(** ** Values *)

Fixpoint bval (b : list Z) : Z :=
  match b with [] => 0 | w :: b' => w + limb * bval b' end.

Definition limbs_ok (b : list Z) : Prop := Forall (fun w => 0 <= w < 2 ^ 32) b.

Definition isdigit (c : Z) : Prop := 48 <= c <= 57.

(** The number digits denote, least and most significant digit first. *)
Fixpoint lval (d : list Z) : Z :=
  match d with [] => 0 | c :: d' => (c - 48) + 10 * lval d' end.
Definition dval (d : list Z) : Z := lval (rev d).

Definition len (d : list Z) : Z := Z.of_nat (length d).

Lemma limb_pow n : limb ^ Z.of_nat n = 2 ^ (32 * Z.of_nat n).
Proof. unfold limb. by rewrite <- Z.pow_mul_r by lia. Qed.

Lemma bval_app a b : bval (a ++ b) = bval a + limb ^ Z.of_nat (length a) * bval b.
Proof.
  induction a as [|w a IH]; cbn [app length bval]; [lia|]. rewrite IH, pow_of_S. lia.
Qed.

Lemma bval_bound b : limbs_ok b -> 0 <= bval b < limb ^ Z.of_nat (length b).
Proof.
  induction 1 as [|w b Hw Hb IH]; cbn [bval length]; [lia|]. rewrite pow_of_S. unfold limb in *. cbn beta in Hw. nia.
Qed.

Lemma bval_zeros n : bval (replicate n 0) = 0.
Proof. induction n as [|n IH]; cbn [replicate bval]; lia. Qed.

(** *** Multiplication *)

Lemma mul_limbs_spec b m carry :
  limbs_ok b -> 0 <= m < 2 ^ 32 -> 0 <= carry < 2 ^ 32 ->
  let '(r, c) := mul_limbs b m carry in
  limbs_ok r /\ length r = length b /\ 0 <= c < 2 ^ 32 /\
  bval r + limb ^ Z.of_nat (length b) * c = bval b * m + carry.
Proof.
  intros Hb Hm. revert carry. induction Hb as [|w b Hw Hb IH]; intros carry Hc; cbn [mul_limbs].
  { split; [constructor|]. split; [done|]. split; [done|]. simpl. lia. }
  cbn beta in Hw. rewrite wrap64_small by nia. set (t := w * m + carry).
  assert (Ht : 0 <= t < 2 ^ 64) by (unfold t; nia).
  rewrite Z.shiftr_div_pow2 by lia.
  specialize (IH (t / 2 ^ 32)). destruct (mul_limbs b m (t / 2 ^ 32)) as [r c].
  destruct IH as (I1 & I2 & I3 & I4); [zdiv|].
  split; [constructor; [apply wrap_bound; lia|done]|]. split; [cbn [length]; by rewrite I2|]. split; [done|].
  cbn [length bval]. rewrite pow_of_S. unfold wrap, limb in *.
  pose proof (Z.div_mod t (2 ^ 32) ltac:(lia)). unfold t in *. nia.
Qed.

Lemma nl_bn_mul_spec b m :
  limbs_ok b -> (length b <= NL_DTOA_W)%nat -> 0 <= m < 2 ^ 32 -> bval b * m < 2 ^ 3072 ->
  exists b', nl_bn_mul b m = Some b' /\ limbs_ok b' /\ (length b' <= NL_DTOA_W)%nat /\ bval b' = bval b * m.
Proof.
  intros Hb Hl Hm Hv. unfold nl_bn_mul.
  pose proof (mul_limbs_spec b m 0 Hb Hm ltac:(lia)) as Hs. destruct (mul_limbs b m 0) as [r c].
  destruct Hs as (S1 & S2 & S3 & S4). cbn [push_carry].
  destruct (Z.eqb_spec c 0) as [->|Hc].
  { exists r. split; [done|]. split; [done|]. split; [lia|]. lia. }
  destruct (Nat.leb_spec NL_DTOA_W (length r)) as [Hfull|Hroom].
  { exfalso. rewrite S2 in Hfull. assert (length b = 96)%nat by (unfold NL_DTOA_W in *; lia).
    pose proof (bval_bound r S1) as [Hr _]. rewrite H, limb_pow in S4. change (32 * Z.of_nat 96) with 3072 in S4.
    apply (Z.lt_irrefl (2 ^ 3072)). eapply Z.le_lt_trans; [|exact Hv]. assert (1 <= c) as Hc1 by (clear Hv S4; lia). assert (0 < 2 ^ 3072) as HL by done.
    clear Hv H Hfull. revert S4 HL. generalize (2 ^ 3072). intros L S4 HL. nia. }
  clear Hv.
  rewrite Z.shiftr_div_pow2, (Z.div_small c) by lia. cbn [Z.eqb].
  exists (r ++ [wrap32 c]). split; [done|]. split; [apply Forall_app; split; [done|]; constructor; [apply wrap_bound; lia|done]|].
  split; [rewrite length_app; cbn [length]; lia|].
  rewrite bval_app, wrap_small by lia. cbn [bval]. rewrite S2. lia.
Qed.

Lemma mul_chunks_spec j b :
  limbs_ok b -> (length b <= NL_DTOA_W)%nat -> bval b * 1220703125 ^ Z.of_nat j < 2 ^ 3072 ->
  exists b', mul_chunks j b = Some b' /\ limbs_ok b' /\ (length b' <= NL_DTOA_W)%nat /\
    bval b' = bval b * 1220703125 ^ Z.of_nat j.
Proof.
  revert b. induction j as [|j IH]; intros b Hb Hl Hv.
  { exists b. split; [done|]. split; [done|]. split; [done|]. simpl. lia. }
  cbn [mul_chunks]. rewrite pow_of_S in *. pose proof (bval_bound b Hb) as [H0 _].
  assert (Hp : 1 <= 1220703125 ^ Z.of_nat j) by (clear Hv; apply (Z.lt_pred_le 1), Z.pow_pos_nonneg; lia). rewrite Z.mul_assoc in Hv.
  assert (bval b * 1220703125 < 2 ^ 3072) as Hv1.
  { eapply Z.le_lt_trans; [|exact Hv]. clear Hv. rewrite <- (Z.mul_1_r (bval b * _)) at 1. apply Z.mul_le_mono_nonneg_l; lia. }
  destruct (nl_bn_mul_spec b 1220703125 Hb Hl) as (b1 & -> & B1 & B2 & B3); [done|exact Hv1|]. rewrite <- B3 in Hv.
  cbn [mbind option_bind]. destruct (IH b1 B1 B2 Hv) as (b2 & -> & C1 & C2 & C3). clear Hv Hv1.
  exists b2. split; [done|]. split; [done|]. split; [done|]. rewrite C3, B3. lia.
Qed.

(** *** Shifting *)

Lemma shl_limbs_spec b sh carry :
  limbs_ok b -> 0 < sh < 32 -> 0 <= carry < 2 ^ sh ->
  let '(r, c) := shl_limbs b sh carry in
  limbs_ok r /\ length r = length b /\ 0 <= c < 2 ^ sh /\
  bval r + limb ^ Z.of_nat (length b) * c = bval b * 2 ^ sh + carry.
Proof.
  intros Hb Hs. assert (Hpow : 2 ^ sh * 2 ^ (32 - sh) = 2 ^ 32) by (rewrite <- Z.pow_add_r by lia; f_equal; lia).
  assert (Hp1 : 0 < 2 ^ sh) by (apply Z.pow_pos_nonneg; lia).
  assert (Hp2 : 0 < 2 ^ (32 - sh)) by (apply Z.pow_pos_nonneg; lia).
  revert carry. induction Hb as [|w b Hw Hb IH]; intros carry Hc; cbn [shl_limbs].
  { split; [constructor|]. split; [done|]. split; [done|]. simpl. lia. }
  cbn beta in Hw. rewrite Z.shiftr_div_pow2, Z.shiftl_mul_pow2 by lia.
  set (p := 2 ^ sh) in *. set (q := 2 ^ (32 - sh)) in *.
  pose proof (Z.div_mod w q ltac:(lia)) as Hdm. pose proof (Z.mod_pos_bound w q ltac:(lia)) as Hmb.
  assert (Hd : 0 <= w / q < p) by (split; [apply Z.div_pos; lia|apply Z.div_lt_upper_bound; lia]).
  assert (Hw32 : wrap32 (w * p) = (w mod q) * p).
  { unfold wrap. rewrite <- Hpow, (Z.mul_comm p q), Z.mul_mod_distr_r by lia. done. }
  rewrite Hw32. unfold p at 1 3. rewrite lor_low by (unfold p in *; lia). fold p.
  rewrite (wrap_small 32 (w / q)) by nia.
  specialize (IH (w / q) Hd). destruct (shl_limbs b sh (w / q)) as [r c].
  destruct IH as (I1 & I2 & I3 & I4).
  split; [constructor; [nia|done]|]. split; [cbn [length]; by rewrite I2|]. split; [done|].
  cbn [length bval]. rewrite pow_of_S. unfold limb in *. rewrite <- Hpow in *. nia.
Qed.

Lemma nl_bn_shl_spec b bits :
  limbs_ok b -> 0 <= bits -> Z.of_nat (length b) + 1 + bits / 32 <= 96 ->
  exists b', nl_bn_shl b bits = Some b' /\ limbs_ok b' /\ bval b' = bval b * 2 ^ bits.
Proof.
  intros Hb Hbits Hroom. unfold nl_bn_shl. destruct b as [|w0 b0]; [by exists []|].
  set (b := w0 :: b0) in *.
  change 31 with (Z.ones 5). rewrite Z.land_ones, Z.shiftr_div_pow2 by lia.
  change (2 ^ 5) with 32. set (sh := bits mod 32). set (words := Z.to_nat (bits / 32)).
  assert (Hsh : 0 <= sh < 32) by (apply Z.mod_pos_bound; lia).
  assert (Hwords : Z.of_nat words = bits / 32) by (unfold words; zdiv).
  assert (Hpow : 2 ^ bits = 2 ^ sh * limb ^ Z.of_nat words).
  { rewrite limb_pow, <- Z.pow_add_r by lia. f_equal. unfold sh. rewrite Hwords. zdiv. }
  assert (Hstep : exists b1, (if negb (sh =? 0) then
              let '(r, carry) := shl_limbs b sh 0 in
              if negb (carry =? 0) then
                if (NL_DTOA_W <=? length r)%nat then None else Some (r ++ [carry])
              else Some r
            else Some b) = Some b1 /\ limbs_ok b1 /\ bval b1 = bval b * 2 ^ sh /\
            (length b1 <= length b + 1)%nat).
  { destruct (Z.eqb_spec sh 0) as [->|Hsh0]; cbn [negb].
    { exists b. split; [done|]. split; [done|]. split; [lia|lia]. }
    assert (Hp : 0 < 2 ^ sh <= 2 ^ 32).
    { split; [apply Z.pow_pos_nonneg; lia|apply Z.pow_le_mono_r; lia]. }
    pose proof (shl_limbs_spec b sh 0 Hb ltac:(lia) ltac:(lia)) as Hs.
    destruct (shl_limbs b sh 0) as [r c]. destruct Hs as (S1 & S2 & S3 & S4).
    destruct (Z.eqb_spec c 0) as [->|Hc]; cbn [negb].
    { exists r. split; [done|]. split; [done|]. split; [lia|lia]. }
    destruct (Nat.leb_spec NL_DTOA_W (length r)); [unfold NL_DTOA_W in *; lia|].
    exists (r ++ [c]). split; [done|].
    split; [apply Forall_app; split; [done|]; constructor; [lia|done]|].
    split; [rewrite bval_app; cbn [bval]; rewrite S2; lia|]. rewrite length_app. cbn [length]. lia. }
  destruct Hstep as (b1 & -> & B1 & B2 & B3). cbn [mbind option_bind].
  destruct (Nat.eqb_spec words 0) as [E|E].
  { exists b1. split; [done|]. split; [done|]. rewrite Hpow, E, Z.pow_0_r, Z.mul_1_r. exact B2. }
  destruct (Nat.ltb_spec NL_DTOA_W (length b1 + words)); [unfold NL_DTOA_W in *; lia|].
  exists (replicate words 0 ++ b1). split; [done|]. split.
  - apply Forall_app. split; [|done]. apply Forall_replicate. lia.
  - rewrite bval_app, bval_zeros, length_replicate, B2, Hpow. lia.
Qed.

(** *** Division *)

Lemma div_limbs_spec b :
  limbs_ok b ->
  let '(q, rem) := div_limbs b in
  limbs_ok q /\ 0 <= rem < 1000000000 /\ bval q * 1000000000 + rem = bval b.
Proof.
  induction 1 as [|w b Hw Hb IH]; cbn [div_limbs].
  { split; [constructor|]. split; [lia|done]. }
  destruct (div_limbs b) as [q rem]. destruct IH as (I1 & I2 & I3). cbn beta in Hw.
  rewrite Z.shiftl_mul_pow2, lor_low by lia.
  assert (Hq : 0 <= (rem * 2 ^ 32 + w) / 1000000000 < 2 ^ 32) by zdiv.
  split; [constructor; [apply wrap_bound; lia|done]|]. split; [apply Z.mod_pos_bound; lia|].
  cbn [bval]. rewrite wrap_small by done. unfold limb. rewrite <- I3.
  pose proof (Z.div_mod (rem * 2 ^ 32 + w) 1000000000 ltac:(lia)). lia.
Qed.

Lemma strip_top_spec b :
  limbs_ok b -> limbs_ok (strip_top b) /\ bval (strip_top b) = bval b /\
  (bval b = 0 -> strip_top b = []).
Proof.
  induction 1 as [|w b Hw Hb (I1 & I2 & I3)]; cbn [strip_top bval]; [split_and!; [constructor|done|done]|].
  cbn beta in Hw. pose proof (bval_bound b Hb) as [Hn _]. unfold limb in *.
  destruct (strip_top b) as [|x r] eqn:E; cbn [bval] in *.
  - destruct (Z.eqb_spec w 0) as [->|]; split_and!; try done; try (cbn [bval]; lia).
    repeat constructor; lia.
  - split_and!; [by constructor|unfold limb in *; lia|].
    intros H0. assert (Hz : bval b = 0) by lia. apply I3 in Hz. done.
Qed.

Lemma nl_bn_div1e9_spec b :
  limbs_ok b ->
  let '(q, rem) := nl_bn_div1e9 b in
  limbs_ok q /\ 0 <= rem < 1000000000 /\ bval q * 1000000000 + rem = bval b /\ (bval q = 0 -> q = []).
Proof.
  intros Hb. unfold nl_bn_div1e9. pose proof (div_limbs_spec b Hb) as Hd.
  destruct (div_limbs b) as [q rem]. destruct Hd as (D1 & D2 & D3).
  destruct (strip_top_spec q D1) as (S1 & S2 & S3). rewrite S2. auto.
Qed.

(** ** Digit strings *)

Lemma lval_app a b : lval (a ++ b) = lval a + 10 ^ len a * lval b.
Proof.
  unfold len. induction a as [|c a IH]; cbn [app length lval]; [lia|]. rewrite IH, pow_of_S. lia.
Qed.

Lemma lval_zeros n : lval (replicate n 48) = 0.
Proof. induction n as [|n IH]; cbn [replicate lval]; lia. Qed.

Lemma lval_bound d : Forall isdigit d -> 0 <= lval d < 10 ^ len d.
Proof.
  unfold len. induction 1 as [|c d Hc Hd IH]; cbn [lval length]; [lia|]. rewrite pow_of_S.
  unfold isdigit in *. lia.
Qed.

Lemma len_app a b : len (a ++ b) = len a + len b.
Proof. unfold len. rewrite length_app. lia. Qed.

Lemma len_rev a : len (rev a) = len a.
Proof. unfold len. by rewrite length_rev. Qed.

Lemma len_nonneg a : 0 <= len a.
Proof. unfold len. lia. Qed.

Lemma dval_app a b : dval (a ++ b) = dval a * 10 ^ len b + dval b.
Proof. unfold dval. rewrite rev_app_distr, lval_app, len_rev. lia. Qed.

Lemma dval_cons c d : dval (c :: d) = (c - 48) * 10 ^ len d + dval d.
Proof. rewrite (dval_app [c] d : dval (c :: d) = _). unfold dval at 1. simpl. lia. Qed.

Lemma dval_bound d : Forall isdigit d -> 0 <= dval d < 10 ^ len d.
Proof. intros H. unfold dval. rewrite <- len_rev. apply lval_bound. by apply Forall_rev. Qed.

Lemma dval_zeros n : dval (replicate n 48) = 0.
Proof. induction n as [|n IH]; [done|]. cbn [replicate]. rewrite dval_cons. lia. Qed.

Lemma drop_zeros_spec d :
  d <> [] -> exists n, d = drop_zeros d ++ replicate n 48 /\ drop_zeros d <> [] /\
    (length (drop_zeros d) = 1%nat \/ last (drop_zeros d) <> Some 48).
Proof.
  induction d as [|c d IH]; [done|]. intros _. cbn [drop_zeros].
  destruct d as [|c' d].
  { exists 0%nat. split; [done|]. split; [done|]. by left. }
  destruct IH as (n & E & Hne & Hlast); [done|].
  destruct (drop_zeros (c' :: d)) as [|x [|y r]] eqn:Ed; [done| |].
  - destruct (Z.eqb_spec x 48) as [->|Hx].
    + exists (S n). rewrite E. split; [done|]. split; [done|]. by left.
    + exists n. rewrite E. split; [done|]. split; [done|]. right. simpl. congruence.
  - exists n. rewrite E. split; [done|]. split; [done|]. right.
    destruct Hlast as [Hl|Hl]; [done|exact Hl].
Qed.

Lemma group9_spec n r :
  0 <= r < 10 ^ Z.of_nat n ->
  length (group9 n r) = n /\ Forall isdigit (group9 n r) /\ lval (group9 n r) = r.
Proof.
  revert r. induction n as [|n IH]; intros r Hr; cbn [group9].
  { split; [done|]. split; [constructor|]. simpl in *. lia. }
  rewrite pow_of_S in Hr. destruct (IH (r / 10)) as (I1 & I2 & I3); [zdiv|].
  split; [cbn [length]; by rewrite I1|]. split; [constructor; [unfold isdigit; zdiv|done]|].
  cbn [lval]. rewrite I3. zdiv.
Qed.

(** The digit pump writes the digits of [N], and a buffer of 800 is enough for
    numbers below [10^791]. *)
Lemma pump_spec fuel b digits j :
  limbs_ok b -> (bval b = 0 -> b = []) -> length digits = (9 * j)%nat -> (90 <= fuel + j)%nat -> (0 < fuel)%nat ->
  Forall isdigit digits -> (length digits <= NL_DTOA_DIGS)%nat ->
  lval digits + 10 ^ len digits * bval b < 10 ^ 791 ->
  exists ds, pump fuel b digits = Some ds /\ Forall isdigit ds /\ (length ds <= NL_DTOA_DIGS)%nat /\
    lval ds = lval digits + 10 ^ len digits * bval b.
Proof.
  revert b digits j. induction fuel as [|fuel IH]; intros b digits j Hb Hz Hlen Hfuel Hpos Hd Hcap Hv; [lia|].
  cbn [pump]. pose proof (lval_bound digits Hd) as Hlv.
  destruct b as [|w0 b0].
  { exists digits. split; [done|]. split; [done|]. split; [done|]. cbn [bval]. lia. }
  set (b := w0 :: b0) in *.
  assert (Hlim : len digits < 791).
  { assert (0 < bval b).
    { pose proof (bval_bound b Hb). destruct (decide (bval b = 0)) as [H0|]; [by apply Hz in H0|lia]. }
    apply (Z.pow_lt_mono_r_iff 10); [lia|lia|]. nia. }
  pose proof (nl_bn_div1e9_spec b Hb) as Hdiv. destruct (nl_bn_div1e9 b) as [q r].
  destruct Hdiv as (D1 & D2 & D3 & D4).
  destruct (group9_spec 9 r) as (G1 & G2 & G3); [exact D2|].
  destruct (Nat.ltb_spec NL_DTOA_DIGS (length digits + 9)); [unfold NL_DTOA_DIGS, len in *; lia|].
  assert (Hval : lval (digits ++ group9 9 r) + 10 ^ len (digits ++ group9 9 r) * bval q =
                 lval digits + 10 ^ len digits * bval b).
  { rewrite lval_app, G3, len_app, Z.pow_add_r by apply len_nonneg.
    change (len (group9 9 r)) with 9. rewrite <- D3. lia. }
  destruct (IH q (digits ++ group9 9 r) (S j)) as (ds & -> & H1 & H2 & H3); try done.
  - rewrite length_app, G1, Hlen. lia.
  - lia.
  - unfold len in Hlim. lia.
  - by apply Forall_app.
  - rewrite length_app, G1. done.
  - by rewrite Hval.
  - exists ds. split; [done|]. split; [done|]. split; [done|]. by rewrite H3.
Qed.

(** ** The value of a double *)

(** [|v| * 10^1074], an integer for every finite double [v]. *)
Definition dbl_scaled (bits : Z) : Z := dbl_mant bits * 2 ^ (dbl_e2 bits + 1074) * 5 ^ 1074.

Definition is_double (bits : Z) : Prop := 0 <= bits < 2 ^ 64.
Definition is_finite (bits : Z) : Prop := is_double bits /\ dbl_be bits <> 2047.

Lemma dbl_be_bound bits : is_double bits -> 0 <= dbl_be bits < 2048.
Proof.
  intros H. unfold dbl_be. change 2047 with (Z.ones 11). rewrite Z.land_ones by lia.
  apply Z.mod_pos_bound. lia.
Qed.

Lemma dbl_bounds bits :
  is_finite bits -> 0 <= dbl_mant bits < 2 ^ 53 /\ -1074 <= dbl_e2 bits <= 971.
Proof.
  intros [Hd Hf]. pose proof (dbl_be_bound bits Hd). unfold dbl_mant, dbl_e2.
  change (2 ^ 52 - 1) with (Z.ones 52). rewrite Z.land_ones by lia.
  pose proof (Z.mod_pos_bound bits (2 ^ 52) ltac:(lia)).
  destruct (Z.eqb_spec (dbl_be bits) 0); [lia|].
  pose proof (lor_low 1 (bits mod 2 ^ 52) 52 ltac:(lia) ltac:(lia)) as E. rewrite Z.mul_1_l in E.
  rewrite Z.lor_comm, E. lia.
Qed.

Lemma bn_set_spec v :
  0 <= v < 2 ^ 64 -> limbs_ok (nl_bn_set v) /\ bval (nl_bn_set v) = v /\ (length (nl_bn_set v) <= 2)%nat.
Proof.
  intros Hv. unfold nl_bn_set. rewrite Z.shiftr_div_pow2 by lia. rewrite (wrap_small 32 (v / 2 ^ 32)) by zdiv.
  unfold wrap. pose proof (Z.mod_pos_bound v (2 ^ 32) ltac:(lia)). pose proof (Z.div_mod v (2 ^ 32) ltac:(lia)).
  destruct (Z.eqb_spec (v / 2 ^ 32) 0); cbn [negb].
  - destruct (Z.eqb_spec (v mod 2 ^ 32) 0); cbn [negb].
    + split; [constructor|]. split; [cbn [bval]; lia|cbn [length]; lia].
    + split; [repeat constructor; lia|]. split; [cbn [bval]; lia|cbn [length]; lia].
  - split; [repeat constructor; zdiv|]. split; [cbn [bval]; unfold limb; lia|cbn [length]; lia].
Qed.

Lemma p5_lookup n : (n < 13)%nat -> p5 !!! n = 5 ^ Z.of_nat n.
Proof. intros Hn. do 13 (destruct n as [|n]; [done|]). lia. Qed.

(** The significand times a power of five fits, in limbs and in digits. *)
Lemma scaled_limits m k : 0 < m < 2 ^ 53 -> 0 < k <= 1074 -> m * 5 ^ k < 2 ^ 3072 /\ m * 5 ^ k < 10 ^ 791.
Proof.
  intros Hm Hk. assert (m * 5 ^ k < 2 ^ 53 * 5 ^ 1074) as H.
  { assert (5 ^ k <= 5 ^ 1074) as H5 by (apply Z.pow_le_mono_r; lia). assert (0 < 5 ^ k) as H0 by (apply Z.pow_pos_nonneg; lia). revert H5. generalize (5 ^ 1074). intros F H5. nia. }
  split; (eapply Z.lt_trans; [exact H|apply Z.ltb_lt; vm_compute; reflexivity]).
Qed.

(** The power of five that [bn_scale] multiplies by, in chunks and a rest. *)
Lemma five_chunks k : 0 <= k -> 5 ^ k = 1220703125 ^ Z.of_nat (Z.to_nat (k / 13)) * 5 ^ (k mod 13).
Proof.
  intros Hk. change 1220703125 with (5 ^ 13). rewrite Z2Nat.id by zdiv.
  rewrite <- Z.pow_mul_r, <- Z.pow_add_r by zdiv. f_equal. zdiv.
Qed.

Lemma big_times_five b m k :
  limbs_ok b -> (length b <= NL_DTOA_W)%nat -> bval b = m -> 0 < m -> 0 < k -> m * 5 ^ k < 2 ^ 3072 ->
  exists b1 b2, mul_chunks (Z.to_nat (k / 13)) b = Some b1 /\
    (if negb (k mod 13 =? 0) then nl_bn_mul b1 (p5 !!! Z.to_nat (k mod 13)) else Some b1) = Some b2 /\ limbs_ok b2 /\ bval b2 = m * 5 ^ k.
Proof.
  intros Hb Hl Hbm Hm Hk. rewrite (five_chunks k) by lia. pose proof (Z.mod_pos_bound k 13 ltac:(lia)) as Hrest.
  assert (1 <= 5 ^ (k mod 13)) as Hr by (apply (Z.lt_pred_le 1), Z.pow_pos_nonneg; lia). rewrite Z.mul_assoc. intros Hlim.
  assert (0 <= m * 1220703125 ^ Z.of_nat (Z.to_nat (k / 13))) as H0 by (clear Hlim; apply Z.mul_nonneg_nonneg; [lia|apply Z.pow_nonneg; lia]).
  destruct (mul_chunks_spec (Z.to_nat (k / 13)) b Hb Hl) as (b1 & E1 & C1 & C2 & C3).
  { rewrite Hbm. eapply Z.le_lt_trans; [|exact Hlim]. clear Hlim. rewrite <- Z.mul_1_r at 1. by apply Z.mul_le_mono_nonneg_l. }
  rewrite Hbm in C3. exists b1. destruct (Z.eqb_spec (k mod 13) 0) as [E|E]; cbn [negb].
  - exists b1. split; [done|]. split; [done|]. split; [done|]. by rewrite C3, E, Z.mul_1_r.
  - rewrite p5_lookup, Z2Nat.id by (clear Hlim; lia).
    destruct (nl_bn_mul_spec b1 (5 ^ (k mod 13)) C1 C2) as (b2 & E2 & D1 & D2 & D3).
    + clear Hlim. split; [lia|]. apply Z.lt_trans with (5 ^ 13); [apply Z.pow_lt_mono_r; lia|reflexivity].
    + by rewrite C3.
    + exists b2. split; [done|]. split; [done|]. split; [done|]. by rewrite D3, C3.
Qed.

(** The bignum holds [N], with [|v| = N / 10^k]. *)
Lemma big_value bits :
  is_finite bits -> dbl_mant bits <> 0 ->
  exists b k,
    bn_scale (dbl_mant bits) (dbl_e2 bits) = Some (b, k) /\
    limbs_ok b /\ 0 <= k <= 1074 /\ 0 < bval b < 10 ^ 791 /\ bval b * 10 ^ (1074 - k) = dbl_scaled bits.
Proof.
  intros Hf Hm. destruct (dbl_bounds bits Hf) as [Hmb He]. unfold dbl_scaled, bn_scale.
  destruct (bn_set_spec (dbl_mant bits)) as (B1 & B2 & B3); [lia|].
  set (b := nl_bn_set (dbl_mant bits)) in *. set (m := dbl_mant bits) in *.
  destruct (Z.leb_spec 0 (dbl_e2 bits)) as [Hpos|Hneg].
  - destruct (nl_bn_shl_spec b (dbl_e2 bits) B1) as (b' & -> & C1 & C2); [lia|zdiv|].
    cbn [mbind option_bind]. exists b', 0. split; [done|]. split; [done|]. split; [lia|].
    assert (Hp : 0 < 2 ^ dbl_e2 bits <= 2 ^ 971)
      by (split; [apply Z.pow_pos_nonneg; lia|apply Z.pow_le_mono_r; lia]).
    split.
    + rewrite C2, B2. split; [apply Z.mul_pos_pos; lia|]. apply Z.lt_trans with (2 ^ 53 * 2 ^ 971); [|apply Z.ltb_lt; vm_compute; reflexivity].
      revert Hp. generalize (2 ^ 971). intros F Hp. nia.
    + rewrite C2, B2, Z.sub_0_r. change 10 with (2 * 5). rewrite Z.pow_mul_l, Z.pow_add_r by lia. generalize (2 ^ 1074), (5 ^ 1074). intros. ring.
  - set (k := - dbl_e2 bits). assert (Hk : 0 < k <= 1074) by (unfold k; lia). cbn zeta.
    destruct (scaled_limits m k ltac:(lia) Hk) as [L1 L2].
    destruct (big_times_five b m k B1 ltac:(unfold NL_DTOA_W; lia) B2 ltac:(lia) ltac:(lia) L1) as (b1 & b2 & -> & E2 & D1 & D2). clear L1.
    cbn [mbind option_bind]. rewrite E2. cbn [mbind option_bind].
    exists b2, k. split; [done|]. split; [done|]. split; [clear L2; lia|]. rewrite D2. split; [split; [clear L2|exact L2]|clear L2].
    { apply Z.mul_pos_pos; [lia|apply Z.pow_pos_nonneg; lia]. }
    replace (dbl_e2 bits + 1074) with (1074 - k) by (unfold k; lia).
    change 10 with (2 * 5) at 1. rewrite Z.pow_mul_l.
    replace (5 ^ 1074) with (5 ^ k * 5 ^ (1074 - k)) by (rewrite <- Z.pow_add_r by lia; f_equal; lia).
    ring.
Qed.

(** What the digit string and its exponent denote, scaled by [10^1074]. *)
Definition dec_scaled (d : list Z) (exp10 : Z) : Z := dval d * 10 ^ (exp10 + 1 - len d + 1074).

(** A string without superfluous zeros. *)
Definition tidy (d : list Z) : Prop :=
  d = [48] \/ (head d <> Some 48 /\ last d <> Some 48 /\ d <> []).

Lemma exact_digits_spec bits :
  is_finite bits ->
  exists d ex, nl_exact_digits bits = Some (d, ex) /\ Forall isdigit d /\ d <> [] /\ (length d <= 800)%nat /\
    -1074 <= ex + 1 - len d /\ dec_scaled d ex = dbl_scaled bits /\
    (dbl_scaled bits = 0 -> d = [48] /\ ex = 0) /\ (dbl_scaled bits <> 0 -> head d <> Some 48).
Proof.
  intros Hf. unfold nl_exact_digits. destruct (Z.eqb_spec (dbl_be bits) 2047); [by destruct Hf|].
  destruct (dbl_bounds bits Hf) as [Hmb He].
  destruct (Z.eqb_spec (dbl_mant bits) 0) as [Hm|Hm].
  { exists [48], 0. split; [done|]. unfold dbl_scaled. rewrite Hm. split; [repeat constructor; lia|].
    split; [done|]. split; [simpl; lia|]. split; [done|]. split; [done|]. split; done. }
  destruct (big_value bits Hf Hm) as (b & k & -> & B1 & B2 & B3 & B4). cbn [mbind option_bind].
  destruct (pump_spec 90 b [] 0) as (ds & -> & P1 & P2 & P3); try done; try lia.
  { apply Nat.le_0_l. } { cbn [lval]. change (10 ^ len []) with 1. lia. }
  cbn [mbind option_bind]. cbn [lval len length Z.of_nat Z.pow] in P3.
  rewrite Z.add_0_l, Z.mul_1_l in P3.
  assert (Hpos : 0 < dbl_scaled bits).
  { rewrite <- B4. assert (0 < 10 ^ (1074 - k)) by (apply Z.pow_pos_nonneg; lia). nia. }
  assert (Hne : ds <> []) by (intros ->; simpl in P3; lia).
  destruct (drop_zeros_spec ds Hne) as (n1 & E1 & N1 & L1).
  set (e := drop_zeros ds) in *. set (d := rev e) in *.
  assert (Hed : Forall isdigit e) by (rewrite E1 in P1; by apply Forall_app in P1 as [? _]).
  assert (Hev : lval e = bval b).
  { rewrite E1, lval_app, lval_zeros in P3. lia. }
  assert (Hhd : head d <> Some 48).
  { unfold d. destruct (rev e) as [|c r] eqn:Er; [done|]. simpl. intros [= ->].
    assert (Ee : e = rev r ++ [48]) by (rewrite <- (rev_involutive e), Er; done).
    destruct L1 as [L1|L1].
    - rewrite Ee, length_app in L1. cbn [length] in L1. assert (rev r = []) as Hr by (apply nil_length_inv; lia).
      rewrite Ee, Hr in Hev. simpl in Hev. lia.
    - rewrite Ee, last_snoc in L1. done. }
  assert (Hd0 : d <> []) by (unfold d; intros H0; apply N1; rewrite <- (rev_involutive e), H0; done).
  destruct (drop_zeros_spec d Hd0) as (n2 & E2 & N2 & L2). set (f := drop_zeros d) in *.
  assert (Hfd : Forall isdigit f).
  { assert (Hdd : Forall isdigit d) by (unfold d; by apply Forall_rev). rewrite E2 in Hdd.
    by apply Forall_app in Hdd as [? _]. }
  assert (Hdv : dval d = bval b) by (unfold dval, d; by rewrite rev_involutive).
  assert (Hfv : dval f * 10 ^ Z.of_nat n2 = bval b).
  { rewrite <- Hdv. rewrite E2, dval_app, dval_zeros. unfold len. rewrite length_replicate. lia. }
  assert (Hlen : Z.of_nat (length d) = len f + Z.of_nat n2).
  { rewrite E2, length_app, length_replicate. unfold len. lia. }
  exists f, (Z.of_nat (length d) - 1 - k). split; [done|]. split; [done|]. split; [done|]. split.
  { assert (length d <= length ds)%nat; [|unfold len, NL_DTOA_DIGS in *; lia].
    unfold d. rewrite length_rev, E1, length_app. lia. }
  split; [lia|]. split.
  { unfold dec_scaled. rewrite Hlen.
    replace (len f + Z.of_nat n2 - 1 - k + 1 - len f + 1074) with (Z.of_nat n2 + (1074 - k)) by lia.
    rewrite Z.pow_add_r, Z.mul_assoc, Hfv by lia. exact B4. }
  split; [lia|]. intros _. rewrite E2 in Hhd. destruct f; [done|]. exact Hhd.
Qed.

(** ** Rounding half to even *)

(** The integer nearest to [a / b], the even one when two are as near. *)
Definition rhe (a b : Z) : Z :=
  let q := a / b in
  let r := a mod b in
  if 2 * r <? b then q
  else if b <? 2 * r then q + 1
  else if Z.even q then q else q + 1.

Lemma rhe_unique a b q r : 0 < b -> a = q * b + r -> 0 <= r < b ->
  rhe a b = if 2 * r <? b then q else if b <? 2 * r then q + 1 else if Z.even q then q else q + 1.
Proof.
  intros Hb -> Hr. unfold rhe. rewrite Z.div_add_l, (Z.div_small r), Z.add_0_r by lia.
  rewrite Z.add_comm, Z.mod_add, Z.mod_small by lia. done.
Qed.

Lemma rhe_scale a b c : 0 < b -> 0 < c -> rhe (a * c) (b * c) = rhe a b.
Proof.
  intros Hb Hc. pose proof (Z.div_mod a b ltac:(lia)) as Hd. pose proof (Z.mod_pos_bound a b Hb) as Hm.
  rewrite (rhe_unique (a * c) (b * c) (a / b) (a mod b * c)); [|nia|nia|nia].
  unfold rhe. zcases; try done; nia.
Qed.

Lemma rhe_exact a b : 0 < b -> rhe (a * b) b = a.
Proof.
  intros Hb. rewrite (rhe_unique (a * b) b a 0) by lia. destruct (Z.ltb_spec (2 * 0) b); [done|lia].
Qed.

Lemma isdigit_dec c : isdigit c -> (c = 57 \/ c <> 57) /\ 0 <= c - 48 <= 9.
Proof. unfold isdigit. lia. Qed.

Lemma bump_spec d :
  Forall isdigit d ->
  let '(r, carry) := bump d in
  Forall isdigit r /\ length r = length d /\
  (if carry then dval d + 1 = 10 ^ len d /\ r = replicate (length d) 48 else dval r = dval d + 1).
Proof.
  induction 1 as [|c d Hc Hd IH]; cbn [bump].
  { split; [constructor|]. split; [done|]. split; done. }
  cbn beta in Hc. destruct (bump d) as [r carry]. destruct IH as (I1 & I2 & I3).
  assert (Hlr : len r = len d) by (unfold len; by rewrite I2).
  assert (Hl1 : len (c :: d) = 1 + len d) by (unfold len; cbn [length]; lia).
  pose proof (len_nonneg d). unfold isdigit in Hc.
  destruct carry.
  - destruct I3 as [I3 I4]. destruct (Z.eqb_spec c 57) as [->|Hn]; cbn [negb].
    + split; [constructor; [unfold isdigit; lia|done]|]. split; [cbn [length]; by rewrite I2|].
      split; [|cbn [length replicate]; by rewrite I4].
      rewrite dval_cons, Hl1, Z.pow_add_r by lia. lia.
    + split; [constructor; [unfold isdigit; lia|done]|]. split; [cbn [length]; by rewrite I2|].
      rewrite !dval_cons, Hlr. rewrite I4, dval_zeros. lia.
  - split; [constructor; [unfold isdigit; lia|done]|]. split; [cbn [length]; by rewrite I2|].
    rewrite !dval_cons, Hlr. lia.
Qed.

Lemma all_zeros_spec d : Forall isdigit d -> if all_zeros d then dval d = 0 else 0 < dval d.
Proof.
  unfold all_zeros. induction 1 as [|c d Hc Hd IH]; cbn [forallb]; [done|]. cbn beta in Hc.
  rewrite dval_cons. pose proof (dval_bound d Hd).
  assert (0 < 10 ^ len d) by (apply Z.pow_pos_nonneg; [lia|apply len_nonneg]). unfold isdigit in Hc.
  destruct (Z.eqb_spec c 48) as [->|]; cbn [andb].
  - destruct (forallb _ d); lia.
  - nia.
Qed.

Lemma even_last d c : Forall isdigit d -> Z.even (dval (d ++ [c])) = Z.even (c - 48).
Proof.
  intros Hd. rewrite dval_app. change (len [c]) with 1. change (10 ^ 1) with (2 * 5).
  replace (dval [c]) with (c - 48) by (unfold dval; simpl; lia).
  replace (dval d * (2 * 5)) with (2 * (5 * dval d)) by lia.
  rewrite Z.add_comm. apply Z.even_add_mul_2.
Qed.

Lemma land1_even z : (Z.land z 1 =? 0) = Z.even z.
Proof.
  change 1 with (Z.ones 1). rewrite Z.land_ones by lia. change (2 ^ 1) with 2.
  rewrite Zmod_even. by destruct (Z.even z).
Qed.

(** What rounding gives: the digits kept and the exponent denote the value
    rounded half to even at the place of the last digit kept. *)
Definition rounded (d : list Z) (keep ex : Z) (d' : list Z) (ex' : Z) : Prop :=
  let R := rhe (dval d) (10 ^ (len d - keep)) in
  Forall isdigit d' /\
  ((ex' = ex /\ len d' = Z.max keep 0 /\ dval d' = R) \/
   (ex' = ex + 1 /\ len d' = Z.max keep 1 /\ dval d' * 10 = R * (if keep =? 0 then 10 else 1) /\
    R = 10 ^ keep /\ head d' = Some 49)).

Lemma round_split d keep :
  Forall isdigit d -> 0 < keep < len d ->
  exists kept last next rest, d = (kept ++ [last]) ++ next :: rest /\ len (kept ++ [last]) = keep /\
    take (Z.to_nat keep) d = kept ++ [last] /\ d !!! Z.to_nat keep = next /\
    drop (S (Z.to_nat keep)) d = rest /\ d !!! (Z.to_nat keep - 1)%nat = last.
Proof.
  unfold len. intros Hd Hk. set (n := Z.to_nat keep).
  assert (Hn : (n < length d)%nat) by lia. assert (Hn0 : (0 < n)%nat) by lia.
  destruct n as [|j] eqn:En; [lia|].
  exists (take j d), (d !!! j), (d !!! S j), (drop (S (S j)) d).
  assert (Htake : take (S j) d = take j d ++ [d !!! j]) by (apply take_S_last; lia).
  rewrite <- Htake. split.
  { rewrite <- drop_S by (apply lookup_total_some; lia). by rewrite take_drop. }
  split; [rewrite length_take; lia|]. split; [done|]. split; [done|]. split; [done|].
  f_equal. lia.
Qed.

Lemma nl_round_digits_spec d keep ex :
  Forall isdigit d -> d <> [] -> keep < len d ->
  let '(d', ex') := nl_round_digits d keep ex in rounded d keep ex d' ex'.
Proof.
  intros Hd Hne Hk. unfold nl_round_digits. fold (len d). destruct (Z.leb_spec (len d) keep); [lia|].
  destruct (Z.leb_spec keep 0) as [Hk0|Hk0].
  - destruct d as [|c d]; [done|].
    pose proof Hd as Hd'. apply Forall_cons in Hd as [Hc Hd]. unfold isdigit in Hc.
    pose proof (dval_bound d Hd) as Hb. pose proof (all_zeros_spec d Hd) as Hz.
    assert (Hl1 : len (c :: d) = 1 + len d) by (unfold len; cbn [length]; lia).
    pose proof (len_nonneg d) as Hln.
    assert (Hp : 0 < 10 ^ len d) by (apply Z.pow_pos_nonneg; lia).
    assert (HR : rhe (dval (c :: d)) (10 ^ (len (c :: d) - keep)) =
              if (keep =? 0) && ((53 <? c) || ((c =? 53) && negb (all_zeros d))) then 1 else 0).
    { pose proof (dval_bound (c :: d) Hd') as Hb'.
      assert (Hpk : 10 ^ (len (c :: d) - keep) = 10 * 10 ^ len d * 10 ^ (- keep)).
      { rewrite Hl1. replace (1 + len d - keep) with (1 + len d + - keep) by lia.
        rewrite !Z.pow_add_r by lia. lia. }
      assert (Hpk0 : keep <> 0 -> 10 <= 10 ^ (- keep)).
      { intros Hk1. apply (Z.pow_le_mono_r 10 1); lia. }
      rewrite Hl1, Z.pow_add_r in Hb' by lia.
      destruct (Z.eqb_spec keep 0) as [->|Hk1]; cbn [andb].
      - change (10 ^ (- 0)) with 1 in Hpk. rewrite dval_cons in *.
        rewrite (rhe_unique _ _ 0 ((c - 48) * 10 ^ len d + dval d)); [|lia|lia|rewrite Hpk; lia].
        rewrite Hpk. cbn [Z.even]. destruct (all_zeros d); cbn [negb]; zcases; cbn [orb andb]; nia.
      - rewrite (rhe_unique _ _ 0 (dval (c :: d))); [|nia|lia|nia].
        destruct (Z.ltb_spec (2 * dval (c :: d)) (10 ^ (len (c :: d) - keep))); [done|nia]. }
    destruct ((keep =? 0) && _) eqn:Ecarry.
    + split; [repeat constructor; lia|]. right. rewrite HR.
      apply andb_prop in Ecarry as [Ek _]. apply Z.eqb_eq in Ek as ->. split; [done|]. split; [done|].
      split; done.
    + split; [constructor|]. left. rewrite HR. split; [done|]. split; [unfold len; simpl; lia|done].
  - destruct (round_split d keep Hd ltac:(lia)) as (kept & lst & next & rest & Ed & Hlk & -> & -> & -> & ->).
    assert (Hdk : Forall isdigit (kept ++ [lst]) /\ isdigit next /\ Forall isdigit rest).
    { rewrite Ed in Hd. apply Forall_app in Hd as [H1 H2]. apply Forall_cons in H2 as [H2 H3]. auto. }
    destruct Hdk as (Hk1 & Hnx & Hrest). set (K := kept ++ [lst]) in *. unfold isdigit in Hnx.
    pose proof (dval_bound rest Hrest) as Hb. pose proof (all_zeros_spec rest Hrest) as Hz.
    pose proof (dval_bound K Hk1) as HbK. pose proof (len_nonneg rest) as Hlr.
    assert (Hp : 0 < 10 ^ len rest) by (apply Z.pow_pos_nonneg; lia).
    assert (Hlen : len d - keep = 1 + len rest).
    { rewrite Ed, len_app, Hlk. unfold len. cbn [length]. lia. }
    assert (HR : rhe (dval d) (10 ^ (len d - keep)) =
      if next <? 53 then dval K
      else if (next =? 53) && all_zeros rest && (Z.land (lst - 48) 1 =? 0) then dval K else dval K + 1).
    { rewrite Hlen, Z.pow_add_r by lia. change (10 ^ 1) with 10.
      rewrite (rhe_unique _ _ (dval K) ((next - 48) * 10 ^ len rest + dval rest)); [|lia| |nia].
      2:{ rewrite Ed, dval_app, dval_cons. replace (len (next :: rest)) with (1 + len rest)
            by (unfold len; cbn [length]; lia). rewrite Z.pow_add_r by lia. lia. }
      rewrite land1_even. assert (Hev : Z.even (dval K) = Z.even (lst - 48)).
      { apply even_last. by apply Forall_app in Hk1 as [? _]. }
      rewrite Hev. destruct (Z.even (lst - 48)); destruct (all_zeros rest); zcases; cbn [andb]; try done; nia. }
    unfold rounded. rewrite HR. destruct (next <? 53).
    { split; [done|]. left. split; [done|]. split; [lia|done]. }
    destruct (_ && _ && _).
    { split; [done|]. left. split; [done|]. split; [lia|done]. }
    pose proof (bump_spec K Hk1) as Hbump. destruct (bump K) as [r carry]. destruct Hbump as (U1 & U2 & U3).
    assert (Hlr' : len r = keep) by (rewrite <- Hlk; unfold len; by rewrite U2).
    destruct carry; [|destruct r as [|x r]].
    + destruct U3 as [U3 U4]. destruct r as [|x r]; [unfold len in *; simpl in *; lia|].
      apply Forall_cons in U1 as [_ U1]. split; [constructor; [unfold isdigit; lia|done]|]. right.
      split; [done|]. assert (Hl49 : len (49 :: r) = keep) by exact Hlr'.
      split; [lia|]. destruct (Z.eqb_spec keep 0); [lia|]. split; [|split; [rewrite U3; by rewrite Hlk|done]].
      destruct (length K) as [|j] eqn:EK; [done|]. cbn [replicate] in U4. injection U4 as -> ->.
      rewrite dval_cons, dval_zeros, U3. unfold len in *. rewrite EK in *. rewrite length_replicate.
      rewrite pow_of_S. lia.
    + split; [done|]. left. split; [done|]. split; [lia|done].
    + split; [done|]. left. split; [done|]. split; [lia|done].
Qed.

(** ** Printing *)

Lemma digit_at_some d i c : d !! i = Some c -> digit_at d (Z.of_nat i) = c.
Proof.
  intros H. unfold digit_at. pose proof (lookup_lt_Some _ _ _ H).
  zcases; simpl; try lia. rewrite Nat2Z.id. by apply list_lookup_total_correct.
Qed.

Lemma digit_at_none d i : i < 0 \/ len d <= i -> digit_at d i = 48.
Proof. intros H. unfold digit_at, len in *. zcases; simpl; try done; lia. Qed.

Lemma digits_from_S d lo n : digits_from d lo (S n) = digit_at d lo :: digits_from d (lo + 1) n.
Proof.
  unfold digits_from. cbn [seq map]. rewrite Z.add_0_r. f_equal. rewrite <- seq_shift, map_map.
  apply map_ext. intros i. f_equal. lia.
Qed.

Lemma digits_from_app d lo m n : digits_from d lo (m + n) = digits_from d lo m ++ digits_from d (lo + Z.of_nat m) n.
Proof.
  revert lo. induction m as [|m IH]; intros lo; [by rewrite Z.add_0_r|].
  cbn [Nat.add]. rewrite !digits_from_S, IH. cbn [app]. do 3 f_equal. lia.
Qed.

Lemma length_digits_from d lo n : length (digits_from d lo n) = n.
Proof. unfold digits_from. by rewrite length_map, length_seq. Qed.

Lemma isdigit_at d i : Forall isdigit d -> isdigit (digit_at d i).
Proof.
  intros H. unfold digit_at. destruct (_ && _) eqn:E; [|unfold isdigit; lia].
  apply andb_prop in E as [E1 E2]. rewrite Forall_lookup in H.
  apply (H (Z.to_nat i)). apply lookup_total_some. lia.
Qed.

Lemma digits_from_ok d lo n : Forall isdigit d -> Forall isdigit (digits_from d lo n).
Proof.
  intros H. revert lo. induction n as [|n IH]; intros lo; [constructor|].
  rewrite digits_from_S. constructor; [by apply isdigit_at|apply IH].
Qed.

Lemma digits_from_out d lo n :
  lo + Z.of_nat n <= 0 \/ len d <= lo -> digits_from d lo n = replicate n 48.
Proof.
  revert lo. induction n as [|n IH]; intros lo H; [done|].
  rewrite digits_from_S, digit_at_none by lia. cbn [replicate]. rewrite IH; [done|lia].
Qed.

Lemma digits_from_all d : digits_from d 0 (length d) = d.
Proof.
  apply list_eq. intros i. destruct (d !! i) as [c|] eqn:E.
  - unfold digits_from. rewrite list_lookup_fmap. rewrite lookup_seq_lt by by eapply lookup_lt_Some.
    cbn [fmap option_fmap option_map]. rewrite Nat.add_0_l, Z.add_0_l. by rewrite (digit_at_some _ _ _ E).
  - apply lookup_ge_None. rewrite length_digits_from. by apply lookup_ge_None in E.
Qed.

(** Printing all of [d] and zeros around it. *)
Lemma digits_from_dval d lo n :
  lo <= 0 -> len d <= lo + Z.of_nat n -> dval (digits_from d lo n) = dval d * 10 ^ (lo + Z.of_nat n - len d).
Proof.
  intros Hlo Hn. set (a := Z.to_nat (- lo)). set (b := Z.to_nat (lo + Z.of_nat n - len d)).
  assert (En : n = (a + (length d + b))%nat) by (unfold a, b, len in *; lia).
  rewrite En, !digits_from_app. rewrite (digits_from_out d lo a) by (left; lia).
  replace (lo + Z.of_nat a) with 0 by lia. rewrite digits_from_all.
  rewrite (digits_from_out d (0 + Z.of_nat (length d)) b) by (right; unfold len; lia).
  rewrite !dval_app, !dval_zeros. unfold len at 2. rewrite length_replicate.
  replace (lo + Z.of_nat (a + (length d + b)) - len d) with (Z.of_nat b) by (unfold len; lia). lia.
Qed.

Lemma dval_head c d : Forall isdigit (c :: d) -> 10 ^ len d <= dval (c :: d) -> c <> 48.
Proof.
  intros H Hv ->. apply Forall_cons in H as [_ H]. rewrite dval_cons in Hv. pose proof (dval_bound d H). lia.
Qed.

Lemma dval_pos d : Forall isdigit d -> head d <> Some 48 -> d <> [] -> 10 ^ (len d - 1) <= dval d.
Proof.
  destruct d as [|c d]; [done|]. intros H Hh _. apply Forall_cons in H as [Hc H]. rewrite dval_cons.
  pose proof (dval_bound d H). unfold isdigit in Hc. assert (c <> 48) by (intros ->; done).
  replace (len (c :: d) - 1) with (len d) by (unfold len; cbn [length]; lia).
  assert (0 < 10 ^ len d) by (apply Z.pow_pos_nonneg; [lia|apply len_nonneg]). nia.
Qed.

Lemma rhe_ge a b q : 0 < b -> q * b <= a -> q <= rhe a b.
Proof.
  intros Hb H. assert (q <= a / b) by (apply Z.div_le_lower_bound; lia).
  unfold rhe. destruct (_ <? _); [lia|]. destruct (_ <? _); [lia|]. destruct (Z.even _); lia.
Qed.

(** The digits and the exponent after rounding at place [-prec], and what they denote. *)
Record fixed_digits (bits prec : Z) (d' : list Z) (ex' : Z) : Prop := {
  fd_digits : Forall isdigit d';
  fd_len : len d' <= ex' + 1 + prec \/ (d' = [] /\ ex' + 1 + prec < 0);
  fd_value : dval d' * 10 ^ Z.max 0 (ex' + 1 + prec - len d') = rhe (dbl_scaled bits * 10 ^ prec) (10 ^ 1074);
  fd_head : 0 <= ex' -> d' = [48] /\ ex' = 0 \/ (d' <> [] /\ head d' <> Some 48)
}.

Lemma fixed_exact bits prec d ex :
  0 <= prec -> len d <= ex + 1 + prec -> -1074 <= ex + 1 - len d -> dec_scaled d ex = dbl_scaled bits ->
  dval d * 10 ^ (ex + 1 + prec - len d) = rhe (dbl_scaled bits * 10 ^ prec) (10 ^ 1074).
Proof.
  intros Hp Hk Hlow <-. unfold dec_scaled.
  replace (dval d * 10 ^ (ex + 1 - len d + 1074) * 10 ^ prec)
    with (dval d * 10 ^ (ex + 1 + prec - len d) * 10 ^ 1074).
  2:{ rewrite <- !Z.mul_assoc, <- !Z.pow_add_r by lia. do 2 f_equal. lia. }
  rewrite rhe_exact; [done|]. apply Z.pow_pos_nonneg; lia.
Qed.

Lemma fixed_round bits prec d ex :
  0 <= prec -> ex + 1 + prec < len d -> -1074 <= ex + 1 - len d -> dec_scaled d ex = dbl_scaled bits ->
  rhe (dval d) (10 ^ (len d - (ex + 1 + prec))) = rhe (dbl_scaled bits * 10 ^ prec) (10 ^ 1074).
Proof.
  intros Hp Hk Hlow <-. unfold dec_scaled. set (keep := ex + 1 + prec) in *.
  rewrite <- (rhe_scale (dval d) _ (10 ^ (keep - len d + 1074))); try (apply Z.pow_pos_nonneg; lia).
  rewrite <- Z.mul_assoc, <- !Z.pow_add_r by lia. f_equal; [f_equal; f_equal; lia|f_equal; lia].
Qed.

Lemma fixed_ok bits prec d ex :
  is_finite bits -> 0 <= prec -> nl_exact_digits bits = Some (d, ex) ->
  let '(d', ex') := nl_round_digits d (ex + 1 + prec) ex in fixed_digits bits prec d' ex'.
Proof.
  intros Hf Hp E. destruct (exact_digits_spec bits Hf) as (d0 & ex0 & E0 & D1 & D2 & D3 & D4 & D5 & D6 & D7).
  rewrite E in E0. injection E0 as <- <-.
  assert (Hhead : 0 <= ex -> d = [48] /\ ex = 0 \/ (d <> [] /\ head d <> Some 48)).
  { intros _. destruct (decide (dbl_scaled bits = 0)); [left; auto|right; auto]. }
  destruct (decide (len d <= ex + 1 + prec)) as [Hle|Hgt].
  { unfold nl_round_digits. fold (len d). destruct (Z.leb_spec (len d) (ex + 1 + prec)); [|lia].
    constructor; auto. rewrite Z.max_r by lia. by apply fixed_exact. }
  pose proof (nl_round_digits_spec d (ex + 1 + prec) ex D1 D2 ltac:(lia)) as Hr.
  destruct (nl_round_digits d (ex + 1 + prec) ex) as [d' ex']. destruct Hr as [R1 R2].
  rewrite (fixed_round bits) in R2 by (done || lia).
  pose proof (fixed_round bits prec d ex Hp ltac:(lia) D4 D5) as HR.
  set (keep := ex + 1 + prec) in *. set (R := rhe (dbl_scaled bits * 10 ^ prec) (10 ^ 1074)) in *.
  destruct R2 as [(-> & Hl & Hv)|(-> & Hl & Hv & HR10 & Hhd)].
  - constructor; auto; fold keep.
    + destruct (decide (0 <= keep)); [left; lia|right]. split; [|lia].
      apply nil_length_inv. unfold len in *. lia.
    + replace (Z.max 0 (keep - len d')) with 0 by lia. rewrite Z.pow_0_r. lia.
    + intros Hex. right. destruct d' as [|c t]; [unfold len in Hl; simpl in Hl; lia|]. split; [done|].
      simpl. intros [= ->]. apply (dval_head 48 t R1); [|done].
      assert (Hlt : len t = keep - 1) by (unfold len in *; cbn [length] in Hl; lia).
      rewrite Hlt, Hv, <- HR. apply rhe_ge; [apply Z.pow_pos_nonneg; lia|].
      rewrite <- Z.pow_add_r by lia.
      destruct Hhead as [[-> _]|[N1 N2]]; [done|unfold len in *; simpl in *; lia|].
      pose proof (dval_pos d D1 N2 N1) as Hpos. replace (keep - 1 + (len d - keep)) with (len d - 1) by lia. done.
  - assert (Hk0 : 0 <= keep).
    { destruct (decide (0 <= keep)); [done|]. exfalso. rewrite HR10 in Hv.
      rewrite Z.pow_neg_r in Hv by lia. destruct d' as [|c t]; [done|]. simpl in Hhd. injection Hhd as ->.
      rewrite dval_cons in Hv. apply Forall_cons in R1 as [_ R1]. pose proof (dval_bound t R1).
      assert (0 < 10 ^ len t) by (apply Z.pow_pos_nonneg; [lia|apply len_nonneg]). lia. }
    constructor; auto; fold keep; fold R.
    + left. lia.
    + replace (Z.max 0 (ex + 1 + 1 + prec - len d')) with (if keep =? 0 then 0 else 1) by (zcases; lia).
      destruct (keep =? 0); lia.
    + intros _. right. split; [intros ->; done|]. rewrite Hhd. done.
Qed.

Definition sign_of (bits : Z) : list Z := if negb (Z.shiftr bits 63 =? 0) then [45] else [].

(** The text of [%f]: the sign, an integer part, a point and a fraction. *)
Lemma format_text bits prec alt :
  is_finite bits -> 0 <= prec ->
  exists int frac,
    nl_format_double bits ch_f prec alt =
      sign_of bits ++ int ++ (if (0 <? prec) || alt then 46 :: frac else []) /\
    Forall isdigit int /\ Forall isdigit frac /\ len frac = prec /\
    (int = [48] \/ (int <> [] /\ head int <> Some 48)) /\
    dval (int ++ frac) = rhe (dbl_scaled bits * 10 ^ prec) (10 ^ 1074).
Proof.
  intros Hf Hp. destruct (exact_digits_spec bits Hf) as (d & ex & E & _).
  pose proof (fixed_ok bits prec d ex Hf Hp E) as Hfd.
  unfold nl_format_double. destruct (Z.eqb_spec (dbl_be bits) 2047); [by destruct Hf|].
  fold (sign_of bits). rewrite E. change (ch_f =? ch_g) with false. cbn match.
  change (ch_f =? ch_e) with false. cbn match. unfold fmt_f.
  destruct (nl_round_digits d (ex + 1 + prec) ex) as [d' ex']. destruct Hfd as [F1 F2 F3 F4].
  destruct (Z.ltb_spec ex' 0) as [Hneg|Hpos].
  - exists [48], (digits_from d' (ex' + 1) (Z.to_nat prec)). split; [done|].
    split; [repeat constructor; lia|]. split; [by apply digits_from_ok|].
    split; [unfold len; rewrite length_digits_from; lia|]. split; [by left|].
    rewrite dval_app. change (dval [48]) with 0. rewrite Z.mul_0_l, Z.add_0_l, <- F3.
    destruct F2 as [F2|[-> Hk]].
    + rewrite digits_from_dval by lia. rewrite Z2Nat.id, Z.max_r by lia. done.
    + rewrite digits_from_out by (left; lia).
      rewrite dval_zeros. done.
  - exists (digits_from d' 0 (Z.to_nat (ex' + 1))), (digits_from d' (ex' + 1) (Z.to_nat prec)). split; [done|].
    split; [by apply digits_from_ok|]. split; [by apply digits_from_ok|].
    split; [unfold len; rewrite length_digits_from; lia|].
    destruct F2 as [F2|[_ F2]]; [|lia]. split.
    + replace (Z.to_nat (ex' + 1)) with (S (Z.to_nat ex')) by lia. rewrite digits_from_S.
      destruct (F4 Hpos) as [[-> ->]|[N1 N2]]; [by left|right]. split; [done|]. simpl.
      destruct d' as [|c t]; [done|]. exact N2.
    + replace (ex' + 1) with (0 + Z.of_nat (Z.to_nat (ex' + 1))) at 2 by lia.
      rewrite <- digits_from_app. rewrite digits_from_dval by lia. rewrite <- F3. f_equal. f_equal. lia.
Qed.

(** And at most, likewise. *)
Lemma rhe_le a b q : 0 < b -> a <= q * b -> rhe a b <= q.
Proof.
  intros Hb H. unfold rhe. pose proof (Z.div_mod a b ltac:(lia)). pose proof (Z.mod_pos_bound a b Hb).
  destruct (Z.ltb_spec (2 * (a mod b)) b), (Z.ltb_spec b (2 * (a mod b))); try destruct (Z.even _); nia.
Qed.

(** C22: every finite double has a finite decimal expansion of at most 800
    digits, the conversion never runs out of its 96 limbs or 800 characters,
    and the digits and exponent it returns denote exactly the value of the
    double ([dec_scaled d ex = dbl_scaled bits], both scaled by 10^1074), with
    no leading zero. *)
Theorem exact_digits_exact bits :
  is_finite bits ->
  exists d ex, nl_exact_digits bits = Some (d, ex) /\ Forall isdigit d /\ (0 < length d <= 800)%nat /\
    dec_scaled d ex = dbl_scaled bits /\ -1074 <= ex + 1 - len d /\
    (dbl_scaled bits = 0 -> d = [48]) /\ (dbl_scaled bits <> 0 -> head d <> Some 48).
Proof.
  intros Hf. destruct (exact_digits_spec bits Hf) as (d & ex & E & D1 & D2 & D3 & D4 & D5 & D6 & D7).
  exists d, ex. split; [done|]. split; [done|]. split; [destruct d; [done|simpl in *; lia]|].
  split; [done|]. split; [done|]. split; [intros H; by destruct (D6 H)|done].
Qed.

(** 0.1 *)
Definition dbl_tenth : Z := 4591870180066957722.

Lemma tenth_finite : is_finite dbl_tenth.
Proof. split; [unfold is_double, dbl_tenth; lia|done]. Qed.

Lemma exact_digits_exact_witness :
  exists d ex, nl_exact_digits dbl_tenth = Some (d, ex) /\ (0 < length d <= 800)%nat.
Proof.
  destruct (exact_digits_exact dbl_tenth tenth_finite) as (d & ex & E & _ & H & _).
  exists d, ex. exact (conj E H).
Defined.

(** [%f] with any precision prints the sign, an integer part without
    superfluous zeros, and (with a precision or the # flag) a point and exactly
    [prec] digits; read as one number the digits are [|v| * 10^prec] rounded half
    to even, the correctly rounded value, whatever carries the rounding makes. *)
Theorem format_f_correct bits prec alt :
  is_finite bits -> 0 <= prec ->
  exists int frac,
    nl_format_double bits ch_f prec alt =
      sign_of bits ++ int ++ (if (0 <? prec) || alt then 46 :: frac else []) /\
    Forall isdigit int /\ Forall isdigit frac /\ len frac = prec /\
    (int = [48] \/ (int <> [] /\ head int <> Some 48)) /\
    dval (int ++ frac) = rhe (dbl_scaled bits * 10 ^ prec) (10 ^ 1074).
Proof.
  intros Hf Hp. destruct (format_text bits prec alt Hf Hp) as (int & frac & E & Hi & Hfr & Hl & Hh & Hv).
  exists int, frac. split_and!; done.
Qed.

Lemma format_f_correct_witness :
  exists int frac,
    nl_format_double dbl_tenth ch_f 20 false = sign_of dbl_tenth ++ int ++ 46 :: frac /\ len frac = 20 /\
    dval (int ++ frac) = rhe (dbl_scaled dbl_tenth * 10 ^ 20) (10 ^ 1074).
Proof.
  destruct (format_f_correct dbl_tenth 20 false tenth_finite ltac:(lia)) as (i & f & E & _ & _ & H1 & _ & H2).
  exists i, f. exact (conj E (conj H1 H2)).
Defined.

(** [%#g] of 1.0 prints ["1."]: the digit string has lost its trailing zeros
    before the precision is computed from its length, so the flag that asks to
    keep them ([1.00000] in C) finds none. *)
Example alt_g_drops_zeros : nl_format_double 4607182418800017408 ch_g 6 true = [49; 46].
Proof. vm_compute. reflexivity. Qed.
