(* ===== verification/InitFs.v ===== *)
(** The filesystem baked into the image, [src/unikernel/boot/initfs.c]: a tar
    archive in memory, read in place.

    The archive is the list of its bytes and a pointer into it is an offset; a
    C string is the list of its characters, and a read at or past its end
    gives the terminating 0 ([hd0]).  The open-file table, the errno slot and
    the static buffer of [fs_lookup] are the state. *)

From S2P Require Import Prelude.

Definition FS_MAX_OPEN : nat := 16.
Definition FS_FD_BASE : Z := 64.
Definition NL_O_DIRECTORY : Z := 65536.      (* 0200000 *)

Definition EBADF : Z := 9.
Definition ENOENT : Z := 2.
Definition ENOTDIR : Z := 20.
Definition EINVAL : Z := 22.
Definition EMFILE : Z := 24.
Definition EROFS : Z := 30.

Definition ch_slash : Z := 47.
Definition ch_dot : Z := 46.

(** [p[0]] and [p + 1]. *)
Definition hd0 (s : list Z) : Z := match s with c :: _ => c | [] => 0 end.

Record FsFile := MkFile { f_data : Z; f_size : Z; f_pos : Z; f_used : bool }.

#[export] Instance FsFile_inhabited : Inhabited FsFile := populate (MkFile 0 0 0 false).

Record ifs_state := IfsState {
  fs_open_files : list FsFile;
  folded : list Z;                 (* the static buffer, 256 bytes *)
  nl_errno_slot : Z
}.

Definition set_errno (e : Z) (s : ifs_state) : ifs_state := IfsState (fs_open_files s) (folded s) e.
Definition set_folded (b : list Z) (s : ifs_state) : ifs_state := IfsState (fs_open_files s) b (nl_errno_slot s).
Definition set_files (l : list FsFile) (s : ifs_state) : ifs_state := IfsState l (folded s) (nl_errno_slot s).

(** ** Headers *)

(** [n] characters from [p] on. *)
Fixpoint tar_octal (p : list Z) (n : nat) (v : Z) : Z :=
  match n with
  | O => v
  | S n' =>
      let c := hd0 p in
      if (c <? 48) || (55 <? c) then v else tar_octal (tail p) n' (wrap64 (wrap64 (v * 8) + (c - 48)))
  end.

(** The field [hdr] of at most [n] characters against the string [want]. *)
Fixpoint fs_streq_n (hdr : list Z) (n : nat) (want : list Z) : bool :=
  match n with
  | O => hd0 want =? 0
  | S n' =>
      let a := hd0 hdr in
      let b := hd0 want in
      if negb (a =? 0) && negb (b =? 0) && (a =? b) then fs_streq_n (tail hdr) n' (tail want)
      else a =? b
  end.

(** How many leading characters [fs_norm] skips, and what is left. *)
Definition norm_skip (p : list Z) : nat :=
  if (hd0 p =? ch_dot) && (hd0 (tail p) =? ch_slash) then 2
  else if hd0 p =? ch_slash then 1
  else 0.

Definition fs_norm (p : list Z) : list Z := drop (norm_skip p) p.

(** ** Path normalisation *)

Fixpoint drop_slashes (p : list Z) : list Z :=
  match p with
  | c :: p' => if c =? ch_slash then drop_slashes p' else p
  | [] => []
  end.

(** The characters up to the next slash or the end, and the rest. *)
Fixpoint segment (p : list Z) : list Z * list Z :=
  match p with
  | c :: p' =>
      if (c =? 0) || (c =? ch_slash) then ([], p)
      else let '(s, r) := segment p' in (c :: s, r)
  | [] => ([], [])
  end.

(** [while (n > 0 && out[n - 1] != '/') n--;] *)
Fixpoint back_up (out : list Z) (n : nat) : nat :=
  match n with
  | O => O
  | S n' => if out !!! n' =? ch_slash then n else back_up out n'
  end.

(** [out[n] = c]; a store outside the buffer is a fault. *)
Definition put (out : list Z) (n : nat) (c : Z) : option (list Z) :=
  if (n <? length out)%nat then Some (<[n := c]> out) else None.

(** [while (k < seglen && n < cap - 1) out[n++] = p[start + k++];] *)
Fixpoint put_seg (out : list Z) (n cap : nat) (seg : list Z) : option (list Z * nat) :=
  match seg with
  | [] => Some (out, n)
  | c :: seg' => if (n <? cap - 1)%nat then out ← put out n c; put_seg out (S n) cap seg' else Some (out, n)
  end.

(** The loop over the segments; every round consumes characters of [p]. *)
Fixpoint norm_loop (fuel : nat) (p out : list Z) (n cap : nat) : option (list Z * nat) :=
  match fuel with
  | O => None
  | S f =>
      let p := drop_slashes p in
      if hd0 p =? 0 then Some (out, n) else
      let '(seg, rest) := segment p in
      if decide (seg = [ch_dot]) then norm_loop f rest out n cap
      else if decide (seg = [ch_dot; ch_dot]) then
        let n := back_up out n in
        let n := if (0 <? n)%nat then (n - 1)%nat else n in
        out ← put out n 0;
        norm_loop f rest out n cap
      else
        '(out, n) ← (if (0 <? n)%nat && (n <? cap - 1)%nat then out ← put out n ch_slash; Some (out, S n) else Some (out, n));
        '(out, n) ← put_seg out n cap seg;
        out ← put out n 0;
        norm_loop f rest out n cap
  end.

(** The buffer afterwards and the length returned. *)
Definition fs_norm_dir (path out : list Z) (cap : nat) : option (list Z * nat) :=
  let p := fs_norm path in norm_loop (S (length p)) p out 0 cap.

(** ** The walk over the archive *)

Section archive.
Context (arch : list Z).      (* nurl_initfs_start .. nurl_initfs_end *)

Definition arch_len : Z := Z.of_nat (length arch).

(** The 512 bytes at [p]. *)
Definition header_at (p : Z) : list Z := take 512 (drop (Z.to_nat p) arch).

Definition hdr_size (hdr : list Z) : Z := tar_octal (drop 124 hdr) 12 0.
Definition hdr_type (hdr : list Z) : Z := hdr !!! 156%nat.

(** [512 + ((size + 511) & ~511)] *)
Definition hdr_stride (size : Z) : Z := wrap64 (512 + Z.land (wrap64 (size + 511)) (not64 511)).

Inductive walk_result (R : Type) := Found (r : R) | NotFound | NoFuel.
Arguments Found {R}.
Arguments NotFound {R}.
Arguments NoFuel {R}.

(** [while (p + 512 <= end)]: [visit] sees each header, its size and where it
    is, and may return; an impossible size or a zero byte ends the walk. *)
Fixpoint walk {R} (fuel : nat) (p lim : Z) (visit : list Z -> Z -> Z -> option R) : walk_result R :=
  match fuel with
  | O => NoFuel
  | S f =>
      if (p <? lim) && (p + 512 <=? arch_len) then
        let hdr := header_at p in
        if hd0 hdr =? 0 then NotFound else
        let size := hdr_size hdr in
        if arch_len - (p + 512) <? size then NotFound else
        match visit hdr size p with
        | Some r => Found r
        | None => walk f (p + hdr_stride size) lim visit
        end
      else NotFound
  end.

(** The archive's length in headers and one more is enough fuel. *)
Definition walk_fuel : nat := S (length arch / 512).

Definition is_regular (type : Z) : bool := (type =? 48) || (type =? 0).

(** A regular file named [want]: its body's offset and size. *)
Definition lookup_visit (want : list Z) (hdr : list Z) (size p : Z) : option (option (Z * Z)) :=
  if is_regular (hdr_type hdr) && fs_streq_n (fs_norm hdr) (100 - norm_skip hdr) want then
    if arch_len <? p + 512 + size then Some None else Some (Some (p + 512, size))
  else None.

(** The body found, and the buffer afterwards.  [fs_norm_dir] never answers a
    negative length, so [want] is always the buffer. *)
Definition fs_lookup (name : list Z) (s : ifs_state) : option (option (Z * Z) * ifs_state) :=
  '(buf, _) ← fs_norm_dir name (folded s) 256;
  match walk walk_fuel 0 arch_len (lookup_visit buf) with
  | Found r => Some (r, set_folded buf s)
  | NotFound => Some (None, set_folded buf s)
  | NoFuel => None
  end.

(** ** Open files *)

(** The first slot that is not used. *)
Fixpoint free_slot (files : list FsFile) (i : nat) : option nat :=
  match files with
  | [] => None
  | f :: files' => if f_used f then free_slot files' (S i) else Some i
  end.

Definition ifs_open (path : list Z) (flags : Z) (s : ifs_state) : option (Z * ifs_state) :=
  if negb (Z.land flags 3 =? 0) then Some (-1, set_errno EROFS s) else
  if negb (Z.land flags NL_O_DIRECTORY =? 0) then Some (-1, set_errno ENOTDIR s) else
  '(found, s) ← fs_lookup path s;
  match found with
  | None => Some (-1, set_errno ENOENT s)
  | Some (data, size) =>
      match free_slot (fs_open_files s) 0 with
      | Some i =>
          Some (FS_FD_BASE + Z.of_nat i,
                set_files (<[i := MkFile data size 0 true]> (fs_open_files s)) s)
      | None => Some (-1, set_errno EMFILE s)
      end
  end.

(** The slot of a descriptor that is open. *)
Definition fs_file (fd : Z) (s : ifs_state) : option (nat * FsFile) :=
  let i := fd - FS_FD_BASE in
  if (i <? 0) || (Z.of_nat FS_MAX_OPEN <=? i) then None else
  f ← fs_open_files s !! Z.to_nat i;
  if f_used f then Some (Z.to_nat i, f) else None.

Definition ifs_is_fd (fd : Z) (s : ifs_state) : bool := bool_decide (is_Some (fs_file fd s)).

Definition set_pos (pos : Z) (f : FsFile) : FsFile := MkFile (f_data f) (f_size f) pos (f_used f).

(** The bytes [f->data[f->pos + i]]; [None] when one lies outside the archive. *)
Definition read_bytes (from n : Z) : option (list Z) :=
  let l := take (Z.to_nat n) (drop (Z.to_nat from) arch) in
  if (Z.of_nat (length l) =? n) then Some l else None.

(** The result and the bytes stored to [buf]. *)
Definition ifs_read (fd n : Z) (s : ifs_state) : option (Z * list Z * ifs_state) :=
  match fs_file fd s with
  | None => Some (-1, [], set_errno EBADF s)
  | Some (i, f) =>
      let left := wrap64 (f_size f - f_pos f) in
      let take := if n <? left then n else left in
      out ← read_bytes (f_data f + f_pos f) take;
      Some (take, out, set_files (<[i := set_pos (wrap64 (f_pos f + take)) f]> (fs_open_files s)) s)
  end.

(** The sum is a [long long]: one past [2 ^ 63 - 1] comes out negative, as the
    machine adds (C leaves it undefined). *)
Definition ifs_lseek (fd off whence : Z) (s : ifs_state) : Z * ifs_state :=
  match fs_file fd s with
  | None => (-1, set_errno EBADF s)
  | Some (i, f) =>
      let base := if whence =? 0 then 0 else if whence =? 1 then f_pos f else f_size f in
      let pos := swrap 64 (base + off) in
      if pos <? 0 then (-1, set_errno EINVAL s) else
      let pos := if f_size f <? pos then f_size f else pos in
      (pos, set_files (<[i := set_pos pos f]> (fs_open_files s)) s)
  end.

Definition ifs_close (fd : Z) (s : ifs_state) : Z * ifs_state :=
  match fs_file fd s with
  | None => (-1, set_errno EBADF s)
  | Some (i, f) =>
      (0, set_files (<[i := MkFile (f_data f) (f_size f) (f_pos f) false]> (fs_open_files s)) s)
  end.

(** The offset of the byte, [None] for the null pointer. *)
Definition ifs_map (fd off : Z) (s : ifs_state) : option Z :=
  match fs_file fd s with
  | None => None
  | Some (_, f) => if f_size f <? off then None else Some (f_data f + off)
  end.

(** ** Directories *)

(** The characters up to the first NUL. *)
Fixpoint cstr (p : list Z) : list Z :=
  match p with
  | c :: p' => if c =? 0 then [] else c :: cstr p'
  | [] => []
  end.

(** The name in a header, at most [100] characters of the field and [cap - 1]
    of the buffer. *)
Definition fs_hdr_name (hdr : list Z) (cap : nat) : list Z :=
  cstr (take (Nat.min (100 - norm_skip hdr) (cap - 1)) (fs_norm hdr)).

(** [while (nlen > 0 && name[nlen - 1] == '/') name[--nlen] = 0;] *)
Definition strip_slashes (name : list Z) : list Z := rev (drop_slashes (rev name)).

Definition entry_name (hdr : list Z) : list Z := strip_slashes (fs_hdr_name hdr 256).

Fixpoint strip_dir (dir name : list Z) : option (list Z) :=
  match dir with
  | [] => Some name
  | d :: dir' => if hd0 name =? d then strip_dir dir' (tail name) else None
  end.

(** The length of the component of [name] below [dir], or -1, and whether
    something follows it. *)
Definition fs_child_of (dir name : list Z) : Z * bool :=
  let below :=
    match dir with
    | [] => Some name
    | _ :: _ =>
        match strip_dir dir name with
        | Some rest => if hd0 rest =? ch_slash then Some (tail rest) else None
        | None => None
        end
    end in
  match below with
  | None => (-1, false)
  | Some rest =>
      if hd0 rest =? 0 then (-1, false)
      else let '(seg, after) := segment rest in (Z.of_nat (length seg), hd0 after =? ch_slash)
  end.

(** What a header says about the path [dir]: 2 and no size for a directory,
    1 and the size for a file. *)
Definition kind_visit (dir : list Z) (hdr : list Z) (size p : Z) : option (Z * option Z) :=
  let name := entry_name hdr in
  if decide (name = dir) then
    if hdr_type hdr =? 53 then Some (2, None) else Some (1, Some size)
  else if 0 <? fst (fs_child_of dir name) then Some (2, None)
  else None.

(** 0 missing, 1 file, 2 directory; with the size stored, if any. *)
Definition ifs_kind (path : list Z) : option (Z * option Z) :=
  '(buf, dirlen) ← fs_norm_dir path (replicate 256 0) 256;
  if (dirlen =? 0)%nat then Some (2, None) else
  match walk walk_fuel 0 arch_len (kind_visit (take dirlen buf)) with
  | Found r => Some r
  | NotFound => Some (0, None)
  | NoFuel => None
  end.

(** The component of an entry's name below [dir]. *)
Definition child_name (dir name : list Z) (clen : Z) : list Z :=
  take (Z.to_nat clen) (drop (if decide (dir = []) then 0 else S (length dir)) name).

(** The inner loop: does an earlier entry have the same component? *)
Definition dup_visit (dir : list Z) (clen : Z) (seen : list Z) (hdr : list Z) (size q : Z) : option unit :=
  let n2 := entry_name hdr in
  let '(c2, _) := fs_child_of dir n2 in
  if (c2 =? clen) && bool_decide (child_name dir n2 clen = seen) then Some tt else None.

(** The outer loop of [ifs_dirent]: [found] children so far. *)
Fixpoint dirent_walk (fuel : nat) (p : Z) (dir : list Z) (index found : Z) : walk_result (list Z * bool) :=
  match fuel with
  | O => NoFuel
  | S f =>
      if p + 512 <=? arch_len then
        let hdr := header_at p in
        if hd0 hdr =? 0 then NotFound else
        let size := hdr_size hdr in
        if arch_len - (p + 512) <? size then NotFound else
        let next := p + hdr_stride size in
        let name := entry_name hdr in
        let '(clen, child_is_dir) := fs_child_of dir name in
        if (0 <? clen) && (clen <? 256) then
          let seen := child_name dir name clen in
          match walk walk_fuel 0 p (dup_visit dir clen seen) with
          | NoFuel => NoFuel
          | Found _ => dirent_walk f next dir index found
          | NotFound =>
              if found =? index then Found (seen, child_is_dir)
              else dirent_walk f next dir index (found + 1)
          end
        else dirent_walk f next dir index found
      else NotFound
  end.

(** The child's name cut to the caller's buffer and its directory flag. *)
Definition ifs_dirent (path : list Z) (index : Z) (cap : nat) : option (option (list Z * bool)) :=
  '(buf, dirlen) ← fs_norm_dir path (replicate 256 0) 256;
  match dirent_walk walk_fuel 0 (take dirlen buf) index 0 with
  | Found (name, is_dir) => Some (Some (take (cap - 1) name, is_dir))
  | NotFound => Some None
  | NoFuel => None
  end.

Definition ifs_exists (path : list Z) (s : ifs_state) : option (bool * ifs_state) :=
  '(found, s) ← fs_lookup path s;
  Some (match found with Some _ => true | None => false end, s).

Definition nurl_initfs_size : Z := arch_len.
End archive.
Arguments Found {R}.
Arguments NotFound {R}.
Arguments NoFuel {R}.

(** ** The walk *)

Lemma tar_octal_bound p n v : 0 <= v < 2 ^ 64 -> 0 <= tar_octal p n v < 2 ^ 64.
Proof.
  revert p v. induction n as [|n IH]; intros p v Hv; [done|]. cbn [tar_octal].
  destruct (_ || _); [done|]. apply IH, wrap64_bound.
Qed.

Lemma hdr_size_bound hdr : 0 <= hdr_size hdr < 2 ^ 64.
Proof. apply tar_octal_bound. lia. Qed.

(** The stride is the header and the body rounded up to whole blocks. *)
Lemma hdr_stride_eq size : 0 <= size < 2 ^ 62 -> hdr_stride size = 512 + (size + 511) / 512 * 512.
Proof.
  intros Hs. unfold hdr_stride. rewrite (wrap64_small (size + 511)) by lia.
  change (not64 511) with (2 ^ 64 - 2 ^ 9). rewrite land_align by lia. change (2 ^ 9) with 512.
  apply wrap64_small. zdiv.
Qed.

Section walk.
Context (arch : list Z).
(** No object is larger than the address space's half. *)
Context (arch_small : arch_len arch < 2 ^ 62).

Definition entry : Type := list Z * Z * Z.

(** The headers a walk visits, with their sizes and places. *)
Fixpoint entries (fuel : nat) (p lim : Z) : list entry :=
  match fuel with
  | O => []
  | S f =>
      if (p <? lim) && (p + 512 <=? arch_len arch) then
        let hdr := header_at arch p in
        if hd0 hdr =? 0 then [] else
        let size := hdr_size hdr in
        if arch_len arch - (p + 512) <? size then [] else
        (hdr, size, p) :: entries f (p + hdr_stride size) lim
      else []
  end.

Fixpoint first_some {R} (visit : list Z -> Z -> Z -> option R) (es : list entry) : option R :=
  match es with
  | [] => None
  | (hdr, size, p) :: es' => match visit hdr size p with Some r => Some r | None => first_some visit es' end
  end.

Lemma stride_ge p size :
  0 <= p -> 0 <= size <= arch_len arch - (p + 512) ->
  512 <= hdr_stride size /\ size + 512 <= hdr_stride size.
Proof. intros Hp Hs. rewrite hdr_stride_eq by lia. zdiv. Qed.

(** Fuel for the headers that fit behind [p]. *)
Definition enough (fuel : nat) (p : Z) : Prop := 0 <= p /\ arch_len arch < p + 512 * Z.of_nat fuel.

Lemma walk_first {R} fuel p lim (visit : list Z -> Z -> Z -> option R) :
  enough fuel p ->
  walk arch fuel p lim visit =
  match first_some visit (entries fuel p lim) with Some r => Found r | None => NotFound end \/
  (fuel = 0%nat).
Proof.
  revert p. induction fuel as [|f IH]; intros p [Hp He]; [by right|left].
  cbn [walk entries]. destruct ((p <? lim) && (p + 512 <=? arch_len arch)) eqn:Ec; [|done].
  destruct (hd0 (header_at arch p) =? 0); [done|].
  pose proof (hdr_size_bound (header_at arch p)) as Hsz.
  destruct (Z.ltb_spec (arch_len arch - (p + 512)) (hdr_size (header_at arch p))) as [|Hfit]; [done|].
  apply andb_prop in Ec as [_ Ec].
  destruct (stride_ge p (hdr_size (header_at arch p)) Hp) as [Hst _]; [lia|].
  cbn [first_some]. destruct (visit _ _ p); [done|].
  destruct (IH (p + hdr_stride (hdr_size (header_at arch p)))) as [E|E]; [split; lia|exact E|].
  subst f. exfalso. lia.
Qed.

Lemma fuel_enough : enough (walk_fuel arch) 0.
Proof.
  split; [done|]. unfold walk_fuel, arch_len.
  pose proof (Nat.div_mod (length arch) 512 ltac:(lia)).
  pose proof (Nat.mod_upper_bound (length arch) 512 ltac:(lia)). lia.
Qed.

(** The whole walk visits [all_entries] in order. *)
Definition all_entries : list entry := entries (walk_fuel arch) 0 (arch_len arch).

Lemma walk_all {R} lim (visit : list Z -> Z -> Z -> option R) :
  walk arch (walk_fuel arch) 0 lim visit =
  match first_some visit (entries (walk_fuel arch) 0 lim) with Some r => Found r | None => NotFound end.
Proof.
  destruct (walk_first (walk_fuel arch) 0 lim visit fuel_enough) as [E|E]; [exact E|].
  unfold walk_fuel in E. lia.
Qed.

(** Every entry lies in the archive. *)
Definition entry_ok (e : entry) : Prop :=
  let '(hdr, size, p) := e in
  0 <= p /\ 0 <= size /\ p + 512 + size <= arch_len arch /\ hdr = header_at arch p /\ size = hdr_size hdr.

Lemma entries_ok fuel p lim : 0 <= p -> Forall entry_ok (entries fuel p lim) /\
  Forall (fun e : entry => p <= e.2) (entries fuel p lim).
Proof.
  revert p. induction fuel as [|f IH]; intros p Hp; cbn [entries]; [by split; constructor|].
  destruct ((p <? lim) && (p + 512 <=? arch_len arch)) eqn:Ec; [|by split; constructor].
  destruct (hd0 _ =? 0); [by split; constructor|].
  pose proof (hdr_size_bound (header_at arch p)) as Hsz.
  destruct (Z.ltb_spec (arch_len arch - (p + 512)) (hdr_size (header_at arch p))); [by split; constructor|].
  apply andb_prop in Ec as [_ Ec].
  destruct (stride_ge p (hdr_size (header_at arch p)) Hp) as [Hst _]; [lia|].
  destruct (IH (p + hdr_stride (hdr_size (header_at arch p)))) as [I1 I2]; [lia|]. split.
  - constructor; [|exact I1]. split; [done|]. split; [lia|]. split; [lia|]. done.
  - constructor; [simpl; lia|]. eapply Forall_impl; [exact I2|]. intros e He. simpl in *. lia.
Qed.

(** Walking up to an entry visits the ones before it. *)
Lemma entries_before fuel p pre hdr size q post :
  0 <= p -> entries fuel p (arch_len arch) = pre ++ (hdr, size, q) :: post ->
  entries fuel p q = pre.
Proof.
  revert p pre. induction fuel as [|f IH]; intros p pre Hp; cbn [entries]; [by destruct pre|].
  destruct (Z.ltb_spec p (arch_len arch)); cbn [andb]; [|by destruct pre].
  destruct (Z.leb_spec (p + 512) (arch_len arch)); [|by destruct pre].
  destruct (hd0 (header_at arch p) =? 0) eqn:E0; [by destruct pre|].
  pose proof (hdr_size_bound (header_at arch p)) as Hsz.
  destruct (Z.ltb_spec (arch_len arch - (p + 512)) (hdr_size (header_at arch p))) as [|Hfit]; [by destruct pre|].
  destruct (stride_ge p (hdr_size (header_at arch p)) Hp) as [Hst _]; [lia|].
  destruct pre as [|e pre]; cbn [app]; intros [= E1 E2].
  - subst. rewrite Z.ltb_irrefl. done.
  - destruct (entries_ok f (p + hdr_stride (hdr_size (header_at arch p))) (arch_len arch)) as [_ Hq]; [lia|].
    rewrite E2 in Hq. apply Forall_app in Hq as [_ Hq]. apply Forall_cons in Hq as [Hq _]. simpl in Hq.
    destruct (Z.ltb_spec p q); [|lia]. cbn [andb]. rewrite <- E1. f_equal. apply IH; [lia|done].
Qed.
End walk.

(** ** Names *)

Lemma cstr_app a b : Forall (fun c => c <> 0) a -> cstr (a ++ 0 :: b) = a.
Proof.
  induction 1 as [|c a Hc Ha IH]; [done|]. cbn [app cstr]. rewrite IH. by destruct (Z.eqb_spec c 0).
Qed.

Lemma cstr_id a : Forall (fun c => c <> 0) a -> cstr a = a.
Proof.
  induction 1 as [|c a Hc Ha IH]; [done|]. cbn [cstr]. rewrite IH. by destruct (Z.eqb_spec c 0).
Qed.

(** The bounded comparison compares the names as strings. *)
Lemma fs_streq_n_spec hdr n want :
  fs_streq_n hdr n want = bool_decide (cstr (take n hdr) = cstr want).
Proof.
  revert hdr want. induction n as [|n IH]; intros hdr want; cbn [fs_streq_n].
  - rewrite take_0. destruct want as [|b want]; [done|]. cbn [hd0 cstr].
    destruct (Z.eqb_spec b 0); [done|]. symmetry. by apply bool_decide_eq_false.
  - destruct hdr as [|a hdr]; destruct want as [|b want]; cbn [hd0 tail take cstr]; try done.
    + change (0 =? 0) with true. cbn [negb andb]. destruct (Z.eqb_spec b 0) as [->|]; [done|].
      destruct (Z.eqb_spec 0 b); [lia|]. symmetry. by apply bool_decide_eq_false.
    + destruct (Z.eqb_spec a 0) as [->|]; [done|]. cbn [negb andb].
      symmetry. by apply bool_decide_eq_false.
    + destruct (Z.eqb_spec a 0) as [->|Ha]; cbn [negb andb].
      { destruct (Z.eqb_spec b 0) as [->|]; [done|]. destruct (Z.eqb_spec 0 b); [lia|].
        symmetry. by apply bool_decide_eq_false. }
      destruct (Z.eqb_spec b 0) as [->|Hb]; cbn [negb andb].
      { destruct (Z.eqb_spec a 0); [done|]. symmetry. by apply bool_decide_eq_false. }
      destruct (Z.eqb_spec a b) as [->|Hab].
      * rewrite IH. apply bool_decide_ext. split; [by intros ->|by intros [= ->]].
      * symmetry. apply bool_decide_eq_false. congruence.
Qed.

(** ** Path normalisation *)

(** The pieces of a path between its slashes. *)
Fixpoint pieces (p : list Z) : list (list Z) :=
  match p with
  | [] => [[]]
  | c :: p' =>
      if c =? ch_slash then [] :: pieces p'
      else match pieces p' with s :: r => (c :: s) :: r | [] => [[c]] end
  end.

(** How a piece moves from the directory [stack]. *)
Definition resolve (stack : list (list Z)) (seg : list Z) : list (list Z) :=
  if decide (seg = []) then stack
  else if decide (seg = [ch_dot]) then stack
  else if decide (seg = [ch_dot; ch_dot]) then take (length stack - 1) stack
  else stack ++ [seg].

Definition norm_path (path : list Z) : list (list Z) := foldl resolve [] (pieces path).

Fixpoint join (comps : list (list Z)) : list Z :=
  match comps with
  | [] => []
  | [s] => s
  | s :: rest => s ++ ch_slash :: join rest
  end.

Definition is_seg (s : list Z) : Prop := s <> [] /\ Forall (fun c => c <> 0 /\ c <> ch_slash) s.

Lemma join_snoc comps s : comps <> [] -> join (comps ++ [s]) = join comps ++ ch_slash :: s.
Proof.
  induction comps as [|a comps IH]; [done|]. intros _. destruct comps as [|b comps]; [done|].
  cbn [app join] in *. rewrite IH by done. by rewrite <- app_assoc.
Qed.

Lemma join_nil comps : Forall is_seg comps -> join comps = [] -> comps = [].
Proof.
  intros H. destruct H as [|s comps [Hs _] H]; [done|]. cbn [join]. destruct comps; [done|].
  intros Hj. apply app_eq_nil in Hj as [_ ?]. done.
Qed.

Lemma pieces_ne p : pieces p <> [].
Proof. destruct p as [|c p]; [done|]. cbn [pieces]. destruct (_ =? _); [done|]. by destruct (pieces p). Qed.

(** A fold over the pieces that skips the empty ones skips the slashes. *)
Lemma pieces_slashes {A} (f : A -> list Z -> A) p x :
  (forall y, f y [] = y) -> foldl f x (pieces p) = foldl f x (pieces (drop_slashes p)).
Proof.
  intros Hf. induction p as [|c p IH]; [done|]. cbn [drop_slashes].
  destruct (Z.eqb_spec c ch_slash) as [->|]; [|done]. cbn [pieces]. rewrite Z.eqb_refl. cbn [foldl].
  by rewrite Hf.
Qed.

Lemma pieces_seg seg : Forall (fun c => c <> 0 /\ c <> ch_slash) seg -> pieces seg = [seg].
Proof.
  induction 1 as [|c seg [_ Hc] H IH]; [done|]. cbn [pieces]. rewrite IH. by destruct (Z.eqb_spec c ch_slash).
Qed.

Lemma pieces_seg_slash seg r :
  Forall (fun c => c <> 0 /\ c <> ch_slash) seg -> pieces (seg ++ ch_slash :: r) = seg :: pieces r.
Proof.
  induction 1 as [|c seg [_ Hc] H IH]; cbn [app pieces]; [by rewrite Z.eqb_refl|].
  rewrite IH. by destruct (Z.eqb_spec c ch_slash).
Qed.

Lemma segment_split p :
  Forall (fun c => c <> 0) p ->
  let '(seg, rest) := segment p in
  Forall (fun c => c <> 0 /\ c <> ch_slash) seg /\ p = seg ++ rest /\ (rest = [] \/ hd0 rest = ch_slash).
Proof.
  induction 1 as [|c p Hc Hp IH]; [split; [constructor|split; [done|by left]]|]. cbn [segment].
  destruct (Z.eqb_spec c 0); [done|]. destruct (Z.eqb_spec c ch_slash) as [->|]; cbn [orb].
  { split; [constructor|]. split; [done|]. by right. }
  destruct (segment p) as [seg rest]. destruct IH as (I1 & -> & I3).
  split; [by constructor|]. split; [done|]. exact I3.
Qed.

Lemma segment_spec p :
  Forall (fun c => c <> 0) p -> hd0 p <> ch_slash -> p <> [] ->
  let '(seg, rest) := segment p in
  is_seg seg /\ p = seg ++ rest /\ Forall (fun c => c <> 0) rest /\ (rest = [] \/ hd0 rest = ch_slash) /\
  forall (A : Type) (f : A -> list Z -> A), (forall y, f y [] = y) ->
  forall x, foldl f x (pieces p) = foldl f (f x seg) (pieces rest).
Proof.
  intros Hp Hh Hne. pose proof (segment_split p Hp) as Hs. destruct (segment p) as [seg rest].
  destruct Hs as (S1 & -> & S3). apply Forall_app in Hp as [Hp1 Hp2].
  split; [split; [|done]|split; [done|split; [done|split; [done|]]]].
  - intros ->. destruct S3 as [->|S3]; [done|]. done.
  - intros A f Hf x. destruct rest as [|c rest].
    + rewrite app_nil_r, pieces_seg by done. cbn [pieces foldl]. by rewrite Hf.
    + destruct S3 as [|S3]; [done|]. cbn [hd0] in S3. subst c.
      rewrite pieces_seg_slash by done. cbn [pieces]. rewrite Z.eqb_refl. cbn [foldl]. by rewrite Hf.
Qed.

(** The string that is built: a component is put behind a slash, cut at the 255
    characters there is room for, and [..] takes the last one away. *)
Definition push_seg (str seg : list Z) : list Z :=
  take 255 (str ++ (if decide (str = []) then [] else [ch_slash]) ++ seg).

Fixpoint to_slash (p : list Z) : list Z :=
  match p with
  | c :: p' => if c =? ch_slash then p else to_slash p'
  | [] => []
  end.

Definition parent (str : list Z) : list Z := rev (tail (to_slash (rev str))).

Definition step_str (str seg : list Z) : list Z :=
  if decide (seg = []) then str
  else if decide (seg = [ch_dot]) then str
  else if decide (seg = [ch_dot; ch_dot]) then parent str
  else push_seg str seg.

Definition norm_str (path : list Z) : list Z := foldl step_str [] (pieces path).

(** The buffer holds the string. *)
Definition holds (out : list Z) (n : nat) (str : list Z) : Prop :=
  length out = 256%nat /\ n = length str /\ (n < 256)%nat /\ take n out = str /\ Forall (fun c => c <> 0) str.

Lemma put_at out n c : (n < length out)%nat -> put out n c = Some (<[n := c]> out).
Proof. intros H. unfold put. by destruct (Nat.ltb_spec n (length out)); [|lia]. Qed.

Lemma holds_put out n str c :
  holds out n str -> c <> 0 -> (n < 255)%nat -> put out n c = Some (<[n := c]> out) /\ holds (<[n := c]> out) (S n) (str ++ [c]).
Proof.
  intros (H1 & H2 & H3 & H4 & H5) Hc Hn. split; [apply put_at; lia|].
  split; [by rewrite length_insert|]. rewrite length_app. cbn [length]. split; [lia|]. split; [lia|]. split.
  - rewrite (take_S_r _ _ c) by (apply list_lookup_insert_eq; lia). by rewrite take_insert_ge, H4 by lia.
  - apply Forall_app. split; [done|]. by repeat constructor.
Qed.

(** The NUL behind the string. *)
Lemma holds_end out n str :
  holds out n str -> put out n 0 = Some (<[n := 0]> out) /\ holds (<[n := 0]> out) n str /\ <[n := 0]> out !! n = Some 0.
Proof.
  intros (H1 & H2 & H3 & H4 & H5). split; [apply put_at; lia|]. split; [|apply list_lookup_insert_eq; lia].
  split; [by rewrite length_insert|]. by rewrite take_insert_ge by lia.
Qed.

Lemma put_seg_spec out n str seg :
  holds out n str -> Forall (fun c => c <> 0) seg ->
  exists out' n', put_seg out n 256 seg = Some (out', n') /\ holds out' n' (take 255 (str ++ seg)).
Proof.
  intros Hh Hs. revert out n str Hh. induction Hs as [|c seg Hc Hs IH]; intros out n str Hh; pose proof Hh as (H1 & H2 & H3 & H4 & H5).
  { exists out, n. split; [done|]. by rewrite app_nil_r, take_ge by lia. }
  cbn [put_seg]. destruct (Nat.ltb_spec n (256 - 1)).
  - destruct (holds_put out n str c Hh Hc) as [-> Hh']; [lia|]. cbn [mbind option_bind].
    destruct (IH _ _ _ Hh') as (out' & n' & E & H'). exists out', n'. split; [done|].
    by rewrite <- app_assoc in H'.
  - exists out, n. split; [done|]. rewrite take_app_le, take_ge by lia. done.
Qed.

(** Going up in the buffer is going up in the string. *)
Lemma back_up_parent out n :
  (n <= length out)%nat ->
  let m := back_up out n in
  let m := if (0 <? m)%nat then (m - 1)%nat else m in
  (m <= n)%nat /\ take m out = parent (take n out).
Proof.
  intros Hn. cbv zeta. induction n as [|n IH]; [split; [cbn; lia|done]|]. cbn [back_up].
  rewrite (take_S_last out n) by lia. unfold parent in *. rewrite rev_app_distr. cbn [rev app to_slash].
  destruct (Z.eqb_spec (out !!! n) ch_slash).
  - cbn [Nat.ltb Nat.leb tail]. rewrite rev_involutive, Nat.sub_1_r. cbn [Nat.pred]. split; [lia|done].
  - destruct IH as [I1 I2]; [lia|]. split; [lia|exact I2].
Qed.

Lemma to_slash_suffix p : exists l, p = l ++ to_slash p.
Proof.
  induction p as [|c p [l IH]]; [by exists []|]. cbn [to_slash]. destruct (_ =? _); [by exists []|].
  exists (c :: l). by rewrite IH at 1.
Qed.

Lemma parent_prefix str : exists l, str = parent str ++ l.
Proof.
  unfold parent. destruct (to_slash_suffix (rev str)) as [l E].
  exists (rev (take 1 (to_slash (rev str))) ++ rev l). rewrite app_assoc, <- rev_app_distr.
  assert (Ht : take 1 (to_slash (rev str)) ++ tail (to_slash (rev str)) = to_slash (rev str)) by by destruct (to_slash (rev str)).
  by rewrite Ht, <- rev_app_distr, <- E, rev_involutive.
Qed.

Lemma holds_parent out n str :
  holds out n str ->
  let m := back_up out n in
  let m := if (0 <? m)%nat then (m - 1)%nat else m in
  holds out m (parent str).
Proof.
  intros (H1 & H2 & H3 & H4 & H5). cbv zeta. destruct (back_up_parent out n) as [P1 P2]; [lia|].
  cbv zeta in *. rewrite H4 in P2. set (m := if (0 <? back_up out n)%nat then _ else _) in *.
  destruct (parent_prefix str) as [l E]. split; [done|]. rewrite <- P2. split; [rewrite length_take; lia|].
  split; [lia|]. split; [done|]. rewrite P2. rewrite E in H5. by apply Forall_app in H5 as [? _].
Qed.

Lemma drop_slashes_spec p :
  Forall (fun c => c <> 0) p ->
  Forall (fun c => c <> 0) (drop_slashes p) /\ hd0 (drop_slashes p) <> ch_slash /\
  (length (drop_slashes p) <= length p)%nat.
Proof.
  induction 1 as [|c p Hc Hp (I1 & I2 & I3)]; cbn [drop_slashes]; [by split_and!; [constructor|done|lia]|].
  destruct (Z.eqb_spec c ch_slash); [split_and!; [done|done|cbn [length]; lia]|].
  split_and!; [by constructor|done|lia].
Qed.

(** Did any piece of the path write to the buffer? *)
Definition touches (path : list Z) : bool :=
  existsb (fun s => negb (bool_decide (s = [])) && negb (bool_decide (s = [ch_dot]))) (pieces path).

Lemma touches_slashes p : touches (drop_slashes p) = touches p.
Proof.
  induction p as [|c p IH]; [done|]. cbn [drop_slashes]. destruct (Z.eqb_spec c ch_slash) as [->|]; [|done].
  rewrite IH. unfold touches. cbn [pieces]. rewrite Z.eqb_refl. done.
Qed.

Lemma touches_segment p :
  Forall (fun c => c <> 0) p -> hd0 p <> ch_slash -> p <> [] ->
  let '(seg, rest) := segment p in
  touches p = negb (bool_decide (seg = [ch_dot])) || touches rest.
Proof.
  intros Hp Hh Hne. pose proof (segment_split p Hp) as Hs. destruct (segment p) as [seg rest].
  destruct Hs as (S1 & -> & S3). unfold touches.
  assert (Hseg : seg <> []) by (intros ->; destruct S3 as [->|S3]; done).
  destruct rest as [|c rest].
  - rewrite app_nil_r, pieces_seg by done. cbn [existsb]. rewrite (bool_decide_eq_false_2 (seg = [])) by done.
    done.
  - destruct S3 as [|S3]; [done|]. cbn [hd0] in S3. subst c.
    rewrite pieces_seg_slash by done. cbn [pieces existsb]. rewrite Z.eqb_refl. cbn [existsb].
    rewrite (bool_decide_eq_false_2 (seg = [])) by done. done.
Qed.

Lemma untouched p str : touches p = false -> foldl step_str str (pieces p) = str.
Proof.
  unfold touches. revert str. induction (pieces p) as [|s l IH]; intros str H; [done|].
  cbn [existsb foldl] in *. apply orb_false_iff in H as [H1 H2]. rewrite IH by done.
  unfold step_str. destruct (decide (s = [])); [done|]. destruct (decide (s = [ch_dot])); [done|].
  rewrite !bool_decide_eq_false_2 in H1 by done. done.
Qed.

(** The buffer after the pieces of [p], with a NUL behind what was written. *)
Definition folded_to (p out str out' : list Z) (n' : nat) : Prop :=
  holds out' n' (foldl step_str str (pieces p)) /\ (if touches p then out' !! n' = Some 0 else out' = out).

Lemma folded_step p out str out' n' :
  folded_to p out str out' n' -> out !! length str = Some 0 -> out' !! n' = Some 0.
Proof.
  intros [(H1 & H2 & H3 & H4 & H5) Ht] Hz. destruct (touches p) eqn:E; [done|].
  rewrite Ht, H2, untouched by done. done.
Qed.

(** The separator and the component, into the buffer. *)
Lemma push_run out n str seg :
  holds out n str -> Forall (fun c => c <> 0) seg ->
  exists out' n', ('(out, n) ← (if (0 <? n)%nat && (n <? 256 - 1)%nat then out ← put out n ch_slash; Some (out, S n) else Some (out, n));
     put_seg out n 256 seg) = Some (out', n') /\ holds out' n' (push_seg str seg).
Proof.
  intros Hh Hs. pose proof Hh as (H1 & H2 & H3 & H4 & H5). unfold push_seg.
  destruct (Nat.ltb_spec 0 n) as [Hn|Hn]; cbn [andb].
  - rewrite decide_False by (intros ->; cbn in H2; lia).
    destruct (Nat.ltb_spec n (256 - 1)).
    + destruct (holds_put out n str ch_slash Hh ltac:(done)) as [-> Hh']; [lia|]. cbn [mbind option_bind].
      rewrite app_assoc. by apply put_seg_spec.
    + cbn [mbind option_bind]. destruct (put_seg_spec out n str seg Hh Hs) as (out' & n' & E & Hh').
      exists out', n'. split; [done|]. rewrite take_app_le in * by lia. done.
  - assert (n = 0%nat) as -> by lia. symmetry in H2. apply nil_length_inv in H2 as ->.
    cbn [mbind option_bind]. rewrite decide_True by done. by apply put_seg_spec.
Qed.

(** The loop from a buffer that holds [str]. *)
Lemma norm_loop_spec fuel p out n str :
  Forall (fun c => c <> 0) p -> (length p < fuel)%nat -> holds out n str ->
  exists out' n', norm_loop fuel p out n 256 = Some (out', n') /\ folded_to p out str out' n'.
Proof.
  unfold folded_to. revert p out n str. induction fuel as [|fuel IH]; intros p out n str Hp Hf Hh; [lia|].
  cbn [norm_loop]. rewrite (pieces_slashes step_str), <- touches_slashes by done.
  destruct (drop_slashes_spec p Hp) as (Hq & Hqh & Hql). set (q := drop_slashes p) in *.
  destruct (Z.eqb_spec (hd0 q) 0) as [E0|E0].
  { assert (q = []) as ->; [|by exists out, n]. destruct q as [|c q]; [done|]. by apply Forall_cons in Hq as [? _]. }
  assert (Hne : q <> []) by by intros Hq0; rewrite Hq0 in E0.
  pose proof (segment_spec q Hq Hqh Hne) as Hs. pose proof (touches_segment q Hq Hqh Hne) as Ht.
  destruct (segment q) as [seg rest]. destruct Hs as ([Hs1 Hs2] & Hs3 & Hs4 & Hrest & Hs5).
  rewrite (Hs5 _ step_str), Ht by done. assert (Hlen : length q = (length seg + length rest)%nat) by (rewrite Hs3; apply length_app).
  assert (Hsg : (0 < length seg)%nat) by (destruct seg; [done|simpl; lia]).
  unfold step_str at 2. rewrite (decide_False (P := seg = [])) by done.
  destruct (decide (seg = [ch_dot])) as [Hd|Hd].
  { rewrite (bool_decide_eq_true_2 _ Hd). cbn [negb orb]. apply IH; [done|lia|done]. }
  rewrite (bool_decide_eq_false_2 _ Hd). cbn [negb orb].
  (* both branches end with the NUL and the rest of the loop *)
  assert (Hgo : forall out1 n1 str1, holds out1 n1 str1 ->
    exists out' n', (out ← put out1 n1 0; norm_loop fuel rest out n1 256) = Some (out', n') /\
      holds out' n' (foldl step_str str1 (pieces rest)) /\ out' !! n' = Some 0).
  { intros out1 n1 str1 H1. destruct (holds_end out1 n1 str1 H1) as (-> & H2 & H3). cbn [mbind option_bind].
    destruct (IH rest (<[n1 := 0]> out1) n1 str1) as (out' & n' & E & K1 & K2); [done|lia|done|].
    exists out', n'. split; [exact E|]. split; [done|]. eapply folded_step; [exact (conj K1 K2)|].
    destruct H2 as (_ & <- & _). exact H3. }
  destruct (decide (seg = [ch_dot; ch_dot])) as [Hdd|Hdd]; [by apply Hgo, holds_parent|].
  assert (Hnz : Forall (fun c => c <> 0) seg) by (eapply Forall_impl; [exact Hs2|]; by intros c [? _]).
  destruct (push_run out n str seg Hh Hnz) as (out1 & n1 & E & H1).
  destruct (if (0 <? n)%nat && (n <? 256 - 1)%nat then _ else _) as [[out2 n2]|]; [|done].
  cbn [mbind option_bind] in E |- *. rewrite E. cbn [mbind option_bind]. by apply Hgo.
Qed.

(** [fs_norm] takes away what normalisation would. *)
Lemma norm_skip_fold {A} (f : A -> list Z -> A) p x :
  (forall y, f y [] = y) -> (forall y, f y [ch_dot] = y) -> foldl f x (pieces (fs_norm p)) = foldl f x (pieces p).
Proof.
  intros Hf Hd. unfold fs_norm, norm_skip. destruct p as [|c p]; [done|]. cbn [hd0 tail].
  destruct (Z.eqb_spec c ch_dot) as [->|Hc]; cbn [andb].
  - destruct p as [|c' p]; [done|]. cbn [hd0].
    destruct (Z.eqb_spec c' ch_slash) as [->|Hc']; [|done]. cbn [drop pieces].
    change (ch_dot =? ch_slash) with false. rewrite Z.eqb_refl. cbn [foldl]. by rewrite Hd.
  - destruct (Z.eqb_spec c ch_slash) as [->|]; [|done]. cbn [drop pieces]. rewrite Z.eqb_refl. cbn [foldl]. by rewrite Hf.
Qed.

Lemma norm_skip_touches p : touches (fs_norm p) = touches p.
Proof.
  unfold fs_norm, norm_skip. destruct p as [|c p]; [done|]. cbn [hd0 tail].
  destruct (Z.eqb_spec c ch_dot) as [->|Hc]; cbn [andb].
  - destruct p as [|c' p]; [done|]. cbn [hd0].
    destruct (Z.eqb_spec c' ch_slash) as [->|Hc']; [|done]. cbn [drop]. done.
  - destruct (Z.eqb_spec c ch_slash) as [->|]; [|done]. cbn [drop]. done.
Qed.

Lemma fs_norm_dir_spec path out :
  Forall (fun c => c <> 0) path -> length out = 256%nat ->
  exists out' n, fs_norm_dir path out 256 = Some (out', n) /\ holds out' n (norm_str path) /\
    (if touches path then out' !! n = Some 0 else out' = out).
Proof.
  intros Hp Hout. unfold fs_norm_dir.
  assert (Hp' : Forall (fun c => c <> 0) (fs_norm path)) by by apply Forall_drop.
  destruct (norm_loop_spec (S (length (fs_norm path))) (fs_norm path) out 0 []) as (out' & n & E & K1 & K2);
    [done|lia|split_and!; [done|done|lia|by rewrite take_0|constructor]|].
  exists out', n. split; [exact E|]. rewrite norm_skip_touches in K2. split; [|done].
  unfold norm_str. by rewrite <- (norm_skip_fold step_str) by done.
Qed.

(** The string in the buffer: the one built, or, for a path without a piece,
    what the buffer held before. *)
Lemma folded_string path out out' n :
  holds out' n (norm_str path) -> (if touches path then out' !! n = Some 0 else out' = out) ->
  cstr out' = if touches path then norm_str path else cstr out.
Proof.
  intros Hh. destruct (touches path); [|by intros ->]. intros Hz.
  destruct Hh as (H1 & H2 & H3 & H4 & H5).
  rewrite <- (take_drop_middle out' n 0 Hz), H4. by apply cstr_app.
Qed.

(** *** When nothing is cut *)

Lemma to_slash_none s l : Forall (fun c => c <> ch_slash) s -> to_slash (s ++ l) = to_slash l.
Proof. induction 1 as [|c s Hc Hs IH]; [done|]. cbn [app to_slash]. by destruct (Z.eqb_spec c ch_slash). Qed.

Lemma seg_no_slash s : is_seg s -> Forall (fun c => c <> ch_slash) s.
Proof. intros [_ H]. eapply Forall_impl; [exact H|]. by intros c [_ ?]. Qed.

(** Going up drops the last component. *)
Lemma parent_join stack : Forall is_seg stack -> parent (join stack) = join (take (length stack - 1) stack).
Proof.
  destruct stack as [|s st] using rev_ind; [done|]. clear IHst. intros [Hst Hs]%Forall_app.
  apply Forall_cons in Hs as [Hs%seg_no_slash _].
  assert (Hr : Forall (fun c => c <> ch_slash) (rev s)) by (rewrite rev_alt; by apply Forall_reverse).
  rewrite length_app. cbn [length]. replace (length st + 1 - 1)%nat with (length st) by lia.
  rewrite take_app_length. unfold parent. destruct (decide (st = [])) as [->|Hne].
  - cbn [app join]. rewrite <- (app_nil_r (rev s)), to_slash_none by done. done.
  - rewrite join_snoc by done. rewrite rev_app_distr. cbn [rev]. rewrite <- app_assoc, to_slash_none by done.
    cbn [app to_slash]. rewrite Z.eqb_refl. cbn [tail]. by rewrite rev_involutive.
Qed.

(** No string on the way is longer than 255 characters. *)
Definition fits (path : list Z) : Prop :=
  forall k, (length (join (foldl resolve [] (take k (pieces path)))) <= 255)%nat.

Lemma piece_ok p : Forall (fun c => c <> 0) p -> Forall (Forall (fun c => c <> 0 /\ c <> ch_slash)) (pieces p).
Proof.
  induction 1 as [|c p Hc Hp IH]; [by repeat constructor|]. cbn [pieces].
  destruct (Z.eqb_spec c ch_slash); [by constructor|].
  destruct (pieces p) as [|s l]; [by repeat constructor|]. apply Forall_cons in IH as [Hs Hl].
  constructor; [by constructor|done].
Qed.

Lemma resolve_segs stack seg :
  Forall is_seg stack -> Forall (fun c => c <> 0 /\ c <> ch_slash) seg -> Forall is_seg (resolve stack seg).
Proof.
  intros Hst Hs. unfold resolve. repeat case_decide; try done; [by apply Forall_take|].
  apply Forall_app. split; [done|by repeat constructor].
Qed.

Lemma step_join stack seg :
  Forall is_seg stack -> (length (join (resolve stack seg)) <= 255)%nat -> step_str (join stack) seg = join (resolve stack seg).
Proof.
  intros Hst. unfold step_str, resolve. repeat case_decide; try done; [intros _; by apply parent_join|].
  unfold push_seg. destruct (decide (stack = [])) as [->|Hne].
  - cbn [app join]. intros Hl. rewrite decide_True by done. cbn [app]. by apply take_ge.
  - rewrite decide_False by (intros E; by apply Hne, join_nil). rewrite join_snoc by done. intros Hl.
    by apply take_ge.
Qed.

Lemma fold_join l : forall stack,
  Forall is_seg stack -> Forall (Forall (fun c => c <> 0 /\ c <> ch_slash)) l ->
  (forall k, (length (join (foldl resolve stack (take k l))) <= 255)%nat) ->
  foldl step_str (join stack) l = join (foldl resolve stack l) /\ Forall is_seg (foldl resolve stack l).
Proof.
  induction l as [|s l IH]; intros stack Hst Hl Hk; [done|]. apply Forall_cons in Hl as [Hs Hl]. cbn [foldl].
  rewrite step_join by (done || apply (Hk 1%nat)). apply IH; [by apply resolve_segs|done|].
  intros k. exact (Hk (S k)).
Qed.

Lemma norm_str_fits path :
  Forall (fun c => c <> 0) path -> fits path -> norm_str path = join (norm_path path) /\ Forall is_seg (norm_path path).
Proof. intros Hp Hf. apply (fold_join _ []); [constructor|by apply piece_ok|exact Hf]. Qed.

(** The characters of the pieces and their slashes. *)
Definition weight (l : list (list Z)) : nat := sum_list_with (fun s => S (length s)) l.

Lemma pieces_weight p : weight (pieces p) = S (length p).
Proof.
  unfold weight. induction p as [|c p IH]; [done|]. cbn [pieces]. destruct (_ =? _); [cbn; by rewrite IH|].
  destruct (pieces p) as [|s l] eqn:E; [by apply pieces_ne in E|]. cbn in IH |- *. lia.
Qed.

Lemma weight_take n l : (weight (take n l) <= weight l)%nat.
Proof.
  unfold weight. pose proof (sum_list_with_app (fun s : list Z => S (length s)) (take n l) (drop n l)) as H.
  rewrite take_drop in H. lia.
Qed.

Lemma join_weight l : (length (join l) <= weight l - 1)%nat.
Proof.
  unfold weight. induction l as [|s l IH]; [done|]. cbn [join sum_list_with]. destruct l as [|s' l]; [lia|].
  rewrite length_app. cbn [length sum_list_with] in *. lia.
Qed.

Lemma resolve_weight l : forall stack, (weight (foldl resolve stack l) <= weight stack + weight l)%nat.
Proof.
  induction l as [|s l IH]; intros stack; cbn [foldl]; [lia|].
  change (weight (s :: l)) with (S (length s) + weight l)%nat. specialize (IH (resolve stack s)).
  enough (weight (resolve stack s) <= weight stack + S (length s))%nat by lia.
  unfold resolve. repeat case_decide; try lia.
  - pose proof (weight_take (length stack - 1) stack). lia.
  - unfold weight. rewrite sum_list_with_app. cbn. lia.
Qed.

Lemma short_fits path : (length path < 256)%nat -> fits path.
Proof.
  intros Hl k. pose proof (join_weight (foldl resolve [] (take k (pieces path)))).
  pose proof (resolve_weight (take k (pieces path)) []) as Hw.
  pose proof (weight_take k (pieces path)) as Hp. rewrite pieces_weight in Hp. change (weight []) with 0%nat in Hw. lia.
Qed.

(** ** Looking up *)

(** What [fs_streq_n] sees of the name in a header. *)
Definition field_name (hdr : list Z) : list Z := cstr (take (100 - norm_skip hdr) (fs_norm hdr)).

(** The string a lookup compares the names with. *)
Definition wanted (path : list Z) (s : ifs_state) : list Z :=
  if touches path then norm_str path else cstr (folded s).

(** A C string, of any length. *)
Definition path_ok (path : list Z) : Prop := Forall (fun c => c <> 0) path.

(** The first regular file of that name. *)
Fixpoint find_file (want : list Z) (es : list entry) : option (Z * Z) :=
  match es with
  | [] => None
  | (hdr, size, p) :: es' =>
      if is_regular (hdr_type hdr) && bool_decide (field_name hdr = want) then Some (p + 512, size)
      else find_file want es'
  end.

Section lookup.
Context (arch : list Z) (arch_small : arch_len arch < 2 ^ 62).

Lemma lookup_first want es :
  Forall (entry_ok arch) es ->
  first_some (lookup_visit arch want) es = match find_file (cstr want) es with Some r => Some (Some r) | None => None end.
Proof.
  induction 1 as [|[[hdr size] p] es (H1 & H2 & H3 & H4 & H5) Hes IH]; [done|].
  cbn [first_some find_file]. unfold lookup_visit at 1. rewrite fs_streq_n_spec. fold (field_name hdr).
  destruct (_ && _); [|exact IH]. destruct (Z.ltb_spec (arch_len arch) (p + 512 + size)); [lia|done].
Qed.

Lemma all_entries_ok : Forall (entry_ok arch) (all_entries arch).
Proof. exact (proj1 (entries_ok arch arch_small (walk_fuel arch) 0 (arch_len arch) (Z.le_refl 0))). Qed.

Lemma fs_lookup_spec path s :
  path_ok path -> length (folded s) = 256%nat ->
  exists buf, fs_lookup arch path s = Some (find_file (wanted path s) (all_entries arch), set_folded buf s) /\
    length buf = 256%nat /\ cstr buf = wanted path s.
Proof.
  intros Hp Hf. destruct (fs_norm_dir_spec path (folded s) Hp Hf) as (buf & n & E & Hh & Ht).
  pose proof (folded_string path (folded s) buf n Hh Ht) as Hc.
  exists buf. unfold fs_lookup. rewrite E. cbn [mbind option_bind].
  rewrite walk_all by done. fold (all_entries arch). rewrite lookup_first by apply all_entries_ok.
  rewrite Hc. fold (wanted path s). split; [|split; [by destruct Hh|done]].
  destruct (find_file _ _); done.
Qed.

Lemma find_file_ok want es off size :
  Forall (entry_ok arch) es -> find_file want es = Some (off, size) ->
  512 <= off /\ 0 <= size /\ off + size <= arch_len arch.
Proof.
  induction 1 as [|[[hdr sz] p] es (H1 & H2 & H3 & H4 & H5) Hes IH]; [done|]. cbn [find_file].
  destruct (_ && _); [|exact IH]. intros [= <- <-]. lia.
Qed.

Lemma read_bytes_some from n :
  0 <= from -> 0 <= n -> from + n <= arch_len arch ->
  read_bytes arch from n = Some (take (Z.to_nat n) (drop (Z.to_nat from) arch)).
Proof.
  intros H1 H2 H3. unfold read_bytes. rewrite length_take, length_drop.
  destruct (Z.eqb_spec (Z.of_nat (Z.to_nat n `min` (length arch - Z.to_nat from))) n); [done|].
  unfold arch_len in *. lia.
Qed.

(** ** Runs *)

(** An open file lies in the archive and its position in the file. *)
Definition file_ok (f : FsFile) : Prop :=
  f_used f = true -> 0 <= f_data f /\ 0 <= f_pos f <= f_size f /\ f_data f + f_size f <= arch_len arch.

Definition ifs_inv (s : ifs_state) : Prop :=
  length (fs_open_files s) = FS_MAX_OPEN /\ length (folded s) = 256%nat /\ Forall file_ok (fs_open_files s).

Inductive ifs_step : ifs_state -> ifs_state -> Prop :=
| st_open path flags s fd s' : path_ok path -> ifs_open arch path flags s = Some (fd, s') -> ifs_step s s'
| st_read fd n s r out s' : 0 <= n < 2 ^ 64 -> ifs_read arch fd n s = Some (r, out, s') -> ifs_step s s'
| st_lseek fd off whence s r s' : ifs_lseek fd off whence s = (r, s') -> ifs_step s s'
| st_close fd s r s' : ifs_close fd s = (r, s') -> ifs_step s s'
| st_exists path s r s' : path_ok path -> ifs_exists arch path s = Some (r, s') -> ifs_step s s'.

(** From the zeroed tables of the loaded image. *)
Definition ifs_start : ifs_state := IfsState (replicate FS_MAX_OPEN (MkFile 0 0 0 false)) (replicate 256 0) 0.

Definition ifs_reachable : ifs_state -> Prop := rtc ifs_step ifs_start.

Lemma fs_file_some fd s i f :
  fs_file fd s = Some (i, f) -> fs_open_files s !! i = Some f /\ f_used f = true /\ fd = FS_FD_BASE + Z.of_nat i /\ (i < FS_MAX_OPEN)%nat.
Proof.
  unfold fs_file. destruct (_ || _) eqn:E; [done|]. apply orb_false_iff in E as [E1 E2].
  destruct (fs_open_files s !! Z.to_nat (fd - FS_FD_BASE)) as [g|] eqn:Eg; [|done]. cbn [mbind option_bind].
  destruct (f_used g) eqn:Eu; [|done]. intros [= <- <-].
  apply Z.ltb_ge in E1. apply Z.leb_gt in E2. unfold FS_MAX_OPEN in *. split; [done|]. split; [done|]. lia.
Qed.

Lemma free_slot_spec files k i :
  free_slot files k = Some i ->
  (k <= i < k + length files)%nat /\ (forall j f, (k <= j < i)%nat -> files !! (j - k)%nat = Some f -> f_used f = true) /\
  exists f, files !! (i - k)%nat = Some f /\ f_used f = false.
Proof.
  revert k. induction files as [|f files IH]; intros k; cbn [free_slot]; [done|].
  destruct (f_used f) eqn:Eu.
  - intros H%IH. destruct H as (H1 & H2 & g & H3 & H4). cbn [length]. split; [lia|]. split.
    + intros j h Hj Hh. destruct (j - k)%nat as [|d] eqn:Ed; [by injection Hh as <-|].
      apply (H2 j h); [lia|]. by replace (j - S k)%nat with d by lia.
    + exists g. split; [|done]. by replace (i - k)%nat with (S (i - S k)) by lia.
  - intros [= ->]. cbn [length]. rewrite Nat.sub_diag. split; [lia|]. split; [intros; lia|]. by exists f.
Qed.

Lemma inv_errno e s : ifs_inv s -> ifs_inv (set_errno e s).
Proof. done. Qed.

Lemma inv_update i f s : ifs_inv s -> file_ok f -> ifs_inv (set_files (<[i := f]> (fs_open_files s)) s).
Proof.
  intros (H1 & H2 & H3) Hf. split; [simpl; by rewrite length_insert|]. split; [done|].
  by apply Forall_insert.
Qed.

Lemma inv_folded b s : ifs_inv s -> length b = 256%nat -> ifs_inv (set_folded b s).
Proof. intros (H1 & H2 & H3) Hb. done. Qed.

Lemma inv_file s i f : ifs_inv s -> fs_open_files s !! i = Some f -> file_ok f.
Proof. intros (_ & _ & H) Hi. rewrite Forall_lookup in H. by eapply H. Qed.

Lemma open_spec path flags s :
  path_ok path -> ifs_inv s ->
  exists fd s', ifs_open arch path flags s = Some (fd, s') /\ ifs_inv s' /\
    (fd = -1 /\ fs_open_files s' = fs_open_files s \/
     exists i off size, fd = FS_FD_BASE + Z.of_nat i /\ Z.land flags 3 = 0 /\ Z.land flags NL_O_DIRECTORY = 0 /\
       free_slot (fs_open_files s) 0 = Some i /\
       find_file (wanted path s) (all_entries arch) = Some (off, size) /\
       fs_open_files s' = <[i := MkFile off size 0 true]> (fs_open_files s)).
Proof.
  intros Hp Hi. pose proof Hi as (H1 & H2 & H3). unfold ifs_open.
  destruct (Z.eqb_spec (Z.land flags 3) 0) as [F1|F1]; cbn [negb]; [|by eexists _, _; split; [done|]; split; [|left]].
  destruct (Z.eqb_spec (Z.land flags NL_O_DIRECTORY) 0) as [F2|F2]; cbn [negb]; [|by eexists _, _; split; [done|]; split; [|left]].
  destruct (fs_lookup_spec path s Hp H2) as (buf & -> & B1 & B2). cbn [mbind option_bind].
  pose proof (inv_folded buf s Hi B1) as Hi'.
  destruct (find_file (wanted path s) (all_entries arch)) as [[off size]|] eqn:Ef;
    [|by eexists _, _; split; [done|]; split; [|left]].
  destruct (free_slot _ 0) as [i|] eqn:Es; [|by eexists _, _; split; [done|]; split; [|left]].
  pose proof (find_file_ok _ _ _ _ all_entries_ok Ef) as Hb.
  eexists _, _. split; [done|]. split.
  - apply inv_update; [done|]. intros _. simpl. lia.
  - right. exists i, off, size. auto 10.
Qed.

Lemma read_spec fd n s i f :
  ifs_inv s -> 0 <= n < 2 ^ 64 -> fs_file fd s = Some (i, f) ->
  let k := Z.min n (f_size f - f_pos f) in
  ifs_read arch fd n s =
    Some (k, take (Z.to_nat k) (drop (Z.to_nat (f_data f + f_pos f)) arch),
          set_files (<[i := set_pos (f_pos f + k) f]> (fs_open_files s)) s) /\
  0 <= k /\ file_ok (set_pos (f_pos f + k) f).
Proof.
  intros Hi Hn Ef k. pose proof (fs_file_some _ _ _ _ Ef) as (F1 & F2 & F3 & F4).
  destruct (inv_file s i f Hi F1 F2) as (H1 & H2 & H3). unfold ifs_read. rewrite Ef.
  rewrite wrap64_small by lia.
  assert ((if n <? f_size f - f_pos f then n else f_size f - f_pos f) = k) as -> by (unfold k; zcases; lia).
  rewrite read_bytes_some by lia. cbn [mbind option_bind]. rewrite wrap64_small by lia.
  split; [done|]. split; [lia|]. intros _. simpl. lia.
Qed.

Lemma step_inv s s' : ifs_inv s -> ifs_step s s' -> ifs_inv s'.
Proof.
  intros Hi Hst. revert Hi. destruct Hst as [path flags s0 fd s1 Hp E|fd n s0 r out s1 Hn E|fd off whence s0 r s1 E|fd s0 r s1 E|path s0 r s1 Hp E]; intros Hi.
  - destruct (open_spec path flags s0 Hp Hi) as (fd' & s2 & E2 & Hi2 & _). rewrite E in E2. by injection E2 as <- <-.
  - destruct (fs_file fd s0) as [[i f]|] eqn:Ef.
    + destruct (read_spec fd n s0 i f Hi Hn Ef) as (E2 & _ & Hf). rewrite E in E2. injection E2 as _ _ ->.
      by apply inv_update.
    + unfold ifs_read in E. rewrite Ef in E. injection E as <- <- <-. by apply inv_errno.
  - unfold ifs_lseek in E. destruct (fs_file fd s0) as [[i f]|] eqn:Ef.
    + pose proof (fs_file_some _ _ _ _ Ef) as (F1 & F2 & F3 & F4).
      destruct (inv_file s0 i f Hi F1 F2) as (H1 & H2 & H3).
      cbv zeta in E. destruct (Z.ltb_spec (swrap 64 ((if whence =? 0 then 0 else if whence =? 1 then f_pos f else f_size f) + off)) 0).
      * injection E as <- <-. by apply inv_errno.
      * injection E as <- <-. apply inv_update; [done|]. intros _. simpl. zcases; lia.
    + injection E as <- <-. by apply inv_errno.
  - unfold ifs_close in E. destruct (fs_file fd s0) as [[i f]|] eqn:Ef; injection E as <- <-.
    + by apply inv_update.
    + by apply inv_errno.
  - unfold ifs_exists in E. pose proof Hi as (_ & H2 & _).
    destruct (fs_lookup_spec path s0 Hp H2) as (buf & E2 & B1 & B2). rewrite E2 in E. cbn [mbind option_bind] in E.
    injection E as <- <-. by apply inv_folded.
Qed.

Lemma reachable_inv s : ifs_reachable s -> ifs_inv s.
Proof.
  intros H. apply (rtc_ind_r ifs_inv ifs_start) in H; [done| |intros y z _ Hs Hi; by eapply step_inv].
  split; [done|]. split; [done|]. apply Forall_replicate. intros Hu. done.
Qed.
End lookup.

(** ** Directories *)

(** The component below [dir] that an entry contributes, if any. *)
Definition child_of (dir : list Z) (e : entry) : list (list Z * bool) :=
  let name := entry_name (fst (fst e)) in
  let '(clen, is_dir) := fs_child_of dir name in
  if (0 <? clen) && (clen <? 256) then [(child_name dir name clen, is_dir)] else [].

Definition children (dir : list Z) (es : list entry) : list (list Z * bool) := es ≫= child_of dir.

(** Each name once, where it comes first. *)
Fixpoint firsts (seen : list (list Z)) (l : list (list Z * bool)) : list (list Z * bool) :=
  match l with
  | [] => []
  | (n, d) :: l' => if decide (n ∈ seen) then firsts seen l' else (n, d) :: firsts (n :: seen) l'
  end.

Lemma segment_prefix p : let '(seg, rest) := segment p in p = seg ++ rest.
Proof.
  induction p as [|c p IH]; [done|]. cbn [segment]. destruct (_ || _); [done|].
  destruct (segment p). cbn [app]. by rewrite IH.
Qed.

Lemma strip_dir_spec dir name rest :
  Forall (fun c => c <> 0) dir -> strip_dir dir name = Some rest -> name = dir ++ rest.
Proof.
  intros Hd. revert name. induction Hd as [|d dir Hd0 Hd IH]; intros name; cbn [strip_dir].
  { by intros [= ->]. }
  destruct (Z.eqb_spec (hd0 name) d) as [E|]; [|done]. intros H%IH.
  destruct name as [|c name]; [simpl in E; lia|]. simpl in E, H. by subst.
Qed.

(** The component is as long as [fs_child_of] says. *)
Lemma child_name_len dir name clen d :
  Forall (fun c => c <> 0) dir -> fs_child_of dir name = (clen, d) -> 0 < clen ->
  Z.of_nat (length (child_name dir name clen)) = clen.
Proof.
  intros Hd E Hpos. unfold child_name. rewrite length_take, length_drop.
  assert (Hlen : forall rest n, rest = drop n name -> (let '(seg, after) := segment rest in
            (Z.of_nat (length seg), hd0 after =? ch_slash)) = (clen, d) -> clen <= Z.of_nat (length name - n)).
  { intros rest n -> Es. pose proof (segment_prefix (drop n name)) as Hs.
    destruct (segment (drop n name)) as [seg after]. injection Es as <- _.
    apply (f_equal length) in Hs. rewrite length_drop, length_app in Hs. lia. }
  unfold fs_child_of in E. destruct dir as [|c dir].
  - rewrite decide_True by done. destruct (hd0 name =? 0); [injection E; lia|].
    specialize (Hlen name 0%nat ltac:(by rewrite drop_0) E). lia.
  - rewrite decide_False by done. destruct (strip_dir (c :: dir) name) as [rest|] eqn:Es; [|injection E; lia].
    apply strip_dir_spec in Es; [|done]. destruct (hd0 rest =? ch_slash); [|injection E; lia].
    destruct (hd0 (tail rest) =? 0); [injection E; lia|].
    specialize (Hlen (tail rest) (S (length (c :: dir)))). rewrite Es in Hlen at 1. rewrite drop_app_ge in Hlen by lia.
    replace (S (length (c :: dir)) - length (c :: dir))%nat with 1%nat in Hlen by lia.
    specialize (Hlen ltac:(by destruct rest) E). lia.
Qed.

Section dirent.
Context (arch : list Z) (arch_small : arch_len arch < 2 ^ 62).
Context (dir : list Z) (dir_ok : Forall (fun c => c <> 0) dir).

Lemma dup_first clen seen es :
  0 < clen < 256 -> Z.of_nat (length seen) = clen ->
  first_some (dup_visit dir clen seen) es = None <-> seen ∉ (children dir es).*1.
Proof.
  intros Hc Hs. induction es as [|[[hdr size] q] es IH]; [split; [intros _ Hx; by inversion Hx|done]|].
  cbn [first_some]. unfold children. cbn [mbind list_bind]. rewrite fmap_app. fold (children dir es).
  unfold dup_visit at 1. unfold child_of. cbn [fst].
  destruct (fs_child_of dir (entry_name hdr)) as [c2 d2] eqn:E.
  rewrite not_elem_of_app, <- IH.
  destruct (Z.eqb_spec c2 clen) as [->|Hne]; cbn [andb].
  - destruct (Z.ltb_spec 0 clen); [|lia]. destruct (Z.ltb_spec clen 256); [|lia]. cbn [andb fmap list_fmap fst].
    case_bool_decide as Hd.
    + split; [done|]. intros [Hn _]. exfalso. apply Hn. subst seen. left.
    + split; [|tauto]. intros Hn. split; [|done]. intros Hin. apply list_elem_of_singleton in Hin. congruence.
  - split; [|tauto]. intros Hn. split; [|done]. intros Hin.
    destruct ((0 <? c2) && (c2 <? 256)) eqn:Eb; [|by inversion Hin]. cbn [fmap list_fmap fst] in Hin.
    apply list_elem_of_singleton in Hin. subst seen. apply andb_prop in Eb as [Eb _].
    rewrite (child_name_len _ _ _ _ dir_ok E) in Hs by lia. lia.
Qed.

Lemma firsts_perm seen1 seen2 l : (forall n, n ∈ seen1 <-> n ∈ seen2) -> firsts seen1 l = firsts seen2 l.
Proof.
  revert seen1 seen2. induction l as [|[n d] l IH]; intros seen1 seen2 H; [done|]. cbn [firsts].
  rewrite (decide_ext (n ∈ seen1) (n ∈ seen2)) by apply H.
  destruct (decide (n ∈ seen2)); [by apply IH|]. f_equal. apply IH. intros m.
  rewrite !elem_of_cons. by rewrite H.
Qed.

(** The outer loop after the entries [pre]. *)
Lemma dirent_walk_spec fuel p pre index found :
  enough arch fuel p -> entries arch (walk_fuel arch) 0 (arch_len arch) = pre ++ entries arch fuel p (arch_len arch) ->
  found <= index ->
  dirent_walk arch fuel p dir index found =
  match firsts (children dir pre).*1 (children dir (entries arch fuel p (arch_len arch))) !! Z.to_nat (index - found) with
  | Some c => Found c
  | None => NotFound
  end \/ fuel = 0%nat.
Proof.
  revert p pre found. induction fuel as [|f IH]; intros p pre found [Hp He] Hall Hidx; [by right|left].
  cbn [dirent_walk]. pose proof Hall as Hall'. cbn [entries] in Hall |- *.
  destruct (Z.leb_spec (p + 512) (arch_len arch)) as [Hle|Hgt]; [|by rewrite andb_false_r].
  destruct (Z.ltb_spec p (arch_len arch)); [|lia]. cbn [andb] in *.
  destruct (hd0 (header_at arch p) =? 0) eqn:E0; [done|].
  pose proof (hdr_size_bound (header_at arch p)) as Hsz.
  destruct (Z.ltb_spec (arch_len arch - (p + 512)) (hdr_size (header_at arch p))) as [|Hfit]; [done|].
  destruct (stride_ge arch arch_small p (hdr_size (header_at arch p)) Hp) as [Hst _]; [lia|].
  set (hdr := header_at arch p) in *. set (e := (hdr, hdr_size hdr, p)) in *.
  set (next := p + hdr_stride (hdr_size hdr)) in *.
  assert (Hnext : enough arch f next) by (unfold enough, next; lia).
  assert (Hall2 : entries arch (walk_fuel arch) 0 (arch_len arch) = (pre ++ [e]) ++ entries arch f next (arch_len arch))
    by (rewrite Hall; by rewrite <- app_assoc).
  assert (Hf0 : f <> 0%nat) by (intros ->; lia).
  assert (Hrec : forall found', found' <= index ->
    dirent_walk arch f next dir index found' =
    match firsts (children dir (pre ++ [e])).*1 (children dir (entries arch f next (arch_len arch))) !! Z.to_nat (index - found') with
    | Some c => Found c | None => NotFound end).
  { intros found' Hf'. destruct (IH next (pre ++ [e]) found' Hnext Hall2 Hf') as [E|E]; [exact E|done]. }
  clear IH. unfold children at 2. cbn [mbind list_bind]. fold (children dir (entries arch f next (arch_len arch))).
  assert (Hpre : children dir (pre ++ [e]) = children dir pre ++ child_of dir e).
  { unfold children. rewrite bind_app. cbn [mbind list_bind]. by rewrite app_nil_r. }
  assert (Hch : child_of dir e = let '(clen, is_dir) := fs_child_of dir (entry_name hdr) in
            if (0 <? clen) && (clen <? 256) then [(child_name dir (entry_name hdr) clen, is_dir)] else []) by done.
  rewrite Hpre, Hch in Hrec. rewrite Hch. clear Hch Hpre.
  destruct (fs_child_of dir (entry_name hdr)) as [clen cd] eqn:Ec.
  destruct ((0 <? clen) && (clen <? 256)) eqn:Eb.
  2:{ rewrite app_nil_r in Hrec. cbn [app]. by apply Hrec. }
  apply andb_prop in Eb as [Eb1 Eb2].
  rewrite walk_all by done. rewrite (entries_before arch arch_small _ 0 pre _ _ p _ (Z.le_refl 0) Hall).
  pose proof (child_name_len _ _ _ _ dir_ok Ec ltac:(lia)) as Hcl.
  set (seen := child_name dir (entry_name hdr) clen) in *. cbn [app firsts].
  pose proof (dup_first clen seen pre ltac:(lia) Hcl) as Hdup.
  destruct (decide (seen ∈ (children dir pre).*1)) as [Hin|Hnin].
  - destruct (first_some (dup_visit dir clen seen) pre) as [u|]; [|exfalso; by apply Hdup].
    rewrite Hrec by lia. rewrite (firsts_perm _ (children dir pre).*1); [done|].
    intros n. rewrite fmap_app, elem_of_app. cbn [fmap list_fmap fst]. rewrite list_elem_of_singleton.
    split; [intros [?| ->]; done|by left].
  - rewrite (proj2 Hdup Hnin). destruct (Z.eqb_spec found index) as [->|Hne].
    + rewrite Z.sub_diag. done.
    + rewrite Hrec by lia. replace (Z.to_nat (index - found)) with (S (Z.to_nat (index - (found + 1)))) by lia.
      cbn [lookup list_lookup]. rewrite (firsts_perm _ (seen :: (children dir pre).*1)); [done|].
      intros n. rewrite fmap_app, elem_of_app. cbn [fmap list_fmap fst].
      rewrite list_elem_of_singleton, elem_of_cons. tauto.
Qed.
End dirent.

(** ** Archives as [tar] writes them *)

Record tar_file := TarFile { t_name : list Z; t_type : Z; t_body : list Z }.

(** [n] octal digits of [v]. *)
Fixpoint octal (n : nat) (v : Z) : list Z :=
  match n with O => [] | S n' => octal n' (v / 8) ++ [48 + v mod 8] end.

Definition tar_header (f : tar_file) : list Z :=
  t_name f ++ replicate (100 - length (t_name f)) 0 ++ replicate 24 48 ++
  octal 11 (Z.of_nat (length (t_body f))) ++ [0] ++ replicate 20 48 ++ [t_type f] ++ replicate 355 0.

Definition tar_pad (n : nat) : nat := ((512 - n mod 512) mod 512)%nat.

Definition tar_entry (f : tar_file) : list Z :=
  tar_header f ++ t_body f ++ replicate (tar_pad (length (t_body f))) 0.

Definition tar_of (files : list tar_file) : list Z := concat (tar_entry <$> files) ++ replicate 1024 0.

(** A name that fits the field and a size that fits its digits. *)
Definition tar_ok (f : tar_file) : Prop :=
  t_name f <> [] /\ (length (t_name f) <= 100)%nat /\ Forall (fun c => c <> 0) (t_name f) /\
  Z.of_nat (length (t_body f)) < 8 ^ 11.

Lemma length_octal n v : length (octal n v) = n.
Proof. revert v. induction n as [|n IH]; intros v; [done|]. cbn [octal]. rewrite length_app, IH. simpl. lia. Qed.

Lemma tar_octal_stop p n v : hd0 p = 0 -> tar_octal p n v = v.
Proof. intros H. destruct n; [done|]. cbn [tar_octal]. by rewrite H. Qed.

Lemma tar_octal_octal n m k v acc rest :
  (k <= 11)%nat -> (n <= k)%nat -> 0 <= v < 8 ^ Z.of_nat n -> 0 <= acc < 8 ^ Z.of_nat (k - n) -> hd0 rest = 0 ->
  tar_octal (octal n v ++ rest) (n + m) acc = acc * 8 ^ Z.of_nat n + v.
Proof.
  intros Hk. revert v acc. (* the digits are read most significant first *)
  assert (Hgen : forall n v acc tl, (n <= k)%nat -> 0 <= v < 8 ^ Z.of_nat n -> 0 <= acc < 8 ^ Z.of_nat (k - n) ->
            forall m, tar_octal (octal n v ++ tl) (n + m) acc = tar_octal tl m (acc * 8 ^ Z.of_nat n + v)).
  { clear n m rest. induction n as [|n IH]; intros v acc tl Hn Hv Ha m.
    { simpl in Hv. cbn [octal app Nat.add]. f_equal. change (8 ^ Z.of_nat 0) with 1. lia. }
    cbn [octal]. rewrite <- app_assoc. replace (S n + m)%nat with (n + S m)%nat by lia.
    assert (Hp : 8 ^ Z.of_nat (k - n) = 8 * 8 ^ Z.of_nat (k - S n)) by (rewrite <- pow_of_S; do 2 f_equal; lia).
    rewrite pow_of_S in Hv. pose proof (Z.pow_pos_nonneg 8 (Z.of_nat (k - S n)) ltac:(lia) ltac:(lia)).
    rewrite IH; [|lia|zdiv|lia]. cbn [app tar_octal hd0 tail].
    destruct (Z.ltb_spec (48 + v mod 8) 48); [zdiv|]. destruct (Z.ltb_spec 55 (48 + v mod 8)); [zdiv|]. cbn [orb].
    f_equal. set (A := acc * 8 ^ Z.of_nat n + v / 8).
    assert (HA : 0 <= A < 8 ^ Z.of_nat k).
    { unfold A. replace k with ((k - n) + n)%nat by lia. rewrite Nat2Z.inj_add, Z.pow_add_r by lia.
      pose proof (Z.pow_pos_nonneg 8 (Z.of_nat n) ltac:(lia) ltac:(lia)).
      assert (0 <= v / 8 < 8 ^ Z.of_nat n) by zdiv. rewrite Hp. nia. }
    assert (8 ^ Z.of_nat k <= 8 ^ 11) by (apply Z.pow_le_mono_r; lia).
    assert (8 ^ 11 < 2 ^ 40) by reflexivity.
    rewrite (wrap64_small (A * 8)) by lia. rewrite wrap64_small by zdiv.
    unfold A. rewrite pow_of_S. zdiv. }
  intros v acc Hn Hv Ha Hr. rewrite (Hgen n v acc rest Hn Hv Ha m). by apply tar_octal_stop.
Qed.

Lemma length_tar_header f : (length (t_name f) <= 100)%nat -> length (tar_header f) = 512%nat.
Proof. intros H. unfold tar_header. rewrite !length_app, !length_replicate, length_octal. cbn [length]. lia. Qed.

Section header.
Context (f : tar_file) (f_ok : tar_ok f).

Lemma header_size : hdr_size (tar_header f) = Z.of_nat (length (t_body f)).
Proof.
  destruct f_ok as (H1 & H2 & H3 & H4). unfold hdr_size, tar_header.
  assert (E : drop 124 (t_name f ++ replicate (100 - length (t_name f)) 0 ++ replicate 24 48 ++
            octal 11 (Z.of_nat (length (t_body f))) ++ [0] ++ replicate 20 48 ++ [t_type f] ++ replicate 355 0) =
          octal 11 (Z.of_nat (length (t_body f))) ++ [0] ++ replicate 20 48 ++ [t_type f] ++ replicate 355 0).
  { rewrite 2!(assoc_L (++)), drop_app_ge; rewrite !length_app, !length_replicate; [|lia].
    replace (124 - _)%nat with 0%nat by lia. apply drop_0. }
  rewrite E. change 12%nat with (11 + 1)%nat. rewrite (tar_octal_octal 11 1 11); try done; lia.
Qed.

Lemma header_type : hdr_type (tar_header f) = t_type f.
Proof.
  destruct f_ok as (H1 & H2 & H3 & H4). unfold hdr_type, tar_header. apply list_lookup_total_correct.
  rewrite 5!(assoc_L (++)). rewrite lookup_app_r; rewrite !length_app, !length_replicate, length_octal; cbn [length]; [|lia].
  by replace (156 - _)%nat with 0%nat by lia.
Qed.

Lemma header_first : hd0 (tar_header f) <> 0.
Proof.
  destruct f_ok as (H1 & H2 & H3 & H4). unfold tar_header. destruct (t_name f); [done|].
  by apply Forall_cons in H3 as [? _].
Qed.

Lemma header_name : field_name (tar_header f) = fs_norm (t_name f).
Proof.
  destruct f_ok as (H1 & H2 & H3 & H4). unfold field_name, fs_norm, tar_header. set (name := t_name f) in *.
  set (z := replicate (100 - length name) 0). set (rest := replicate 24 48 ++ _).
  assert (Hz : forall tl, hd0 (z ++ 48 :: tl) <> ch_slash).
  { intros tl. unfold z. by destruct (100 - length name)%nat. }
  assert (Hs : norm_skip (name ++ z ++ rest) = norm_skip name).
  { unfold norm_skip. destruct name as [|c [|c' name']]; [done| |done].
    cbn [app hd0 tail]. destruct (c =? ch_dot); cbn [andb]; [|done].
    destruct (Z.eqb_spec (hd0 (z ++ rest)) ch_slash) as [E|]; [by apply Hz in E|done]. }
  assert (Hle : (norm_skip name <= length name)%nat).
  { unfold norm_skip. destruct name as [|c [|c' name']]; [done| |]; cbn [hd0 tail length].
    - change (0 =? ch_slash) with false. rewrite andb_false_r. destruct (_ =? _); lia.
    - destruct (_ && _); [lia|]. destruct (_ =? _); lia. }
  rewrite Hs. rewrite drop_app_le by done. rewrite (assoc_L (++)).
  rewrite take_app_le by (rewrite length_app, length_drop; unfold z; rewrite length_replicate; lia).
  rewrite take_ge by (rewrite length_app, length_drop; unfold z; rewrite length_replicate; lia).
  assert (Hn : Forall (fun c => c <> 0) (drop (norm_skip name) name)) by by apply Forall_drop.
  unfold z. destruct (100 - length name)%nat; [rewrite app_nil_r; by apply cstr_id|]. by apply cstr_app.
Qed.
End header.

(** Where the files of an archive lie. *)
Fixpoint layout (p : Z) (files : list tar_file) : list entry :=
  match files with
  | [] => []
  | f :: files' =>
      (tar_header f, Z.of_nat (length (t_body f)), p) :: layout (p + Z.of_nat (length (tar_entry f))) files'
  end.

Lemma tar_pad_spec n : exists k, (n + tar_pad n = 512 * k)%nat /\ Z.of_nat (512 * k) = (Z.of_nat n + 511) / 512 * 512.
Proof.
  unfold tar_pad. pose proof (Nat.div_mod n 512 ltac:(lia)) as Hd. pose proof (Nat.mod_upper_bound n 512 ltac:(lia)) as Hm.
  destruct (decide (n mod 512 = 0)%nat) as [E|E].
  - rewrite E. change ((512 - 0) mod 512)%nat with 0%nat. exists (n / 512)%nat. split; [lia|]. zdiv.
  - rewrite (Nat.mod_small (512 - _)) by lia. exists (S (n / 512)). split; [lia|]. zdiv.
Qed.

Lemma length_tar_entry f :
  tar_ok f -> Z.of_nat (length (tar_entry f)) = hdr_stride (Z.of_nat (length (t_body f))).
Proof.
  intros (H1 & H2 & H3 & H4). rewrite hdr_stride_eq by (split; [lia|]; eapply Z.lt_trans; [exact H4|reflexivity]).
  unfold tar_entry. rewrite !length_app, length_tar_header, length_replicate by done.
  destruct (tar_pad_spec (length (t_body f))) as (k & E1 & E2). lia.
Qed.

Lemma entries_layout pre files fuel :
  Forall tar_ok files -> 
  enough (pre ++ tar_of files) fuel (Z.of_nat (length pre)) -> (0 < fuel)%nat ->
  entries (pre ++ tar_of files) fuel (Z.of_nat (length pre)) (arch_len (pre ++ tar_of files)) =
  layout (Z.of_nat (length pre)) files.
Proof.
  revert pre fuel. induction files as [|f files IH]; intros pre fuel Hok He Hf.
  - destruct fuel as [|fuel]; [lia|]. cbn [entries layout].
    destruct (_ && _); [|done]. unfold header_at. rewrite Nat2Z.id, drop_app_length. done.
  - apply Forall_cons in Hok as [Hf0 Hok]. destruct fuel as [|fuel]; [lia|]. cbn [entries layout].
    set (arch := pre ++ tar_of (f :: files)) in *.
    assert (Ear : arch = (pre ++ tar_entry f) ++ tar_of files).
    { unfold arch, tar_of. cbn [fmap list_fmap concat]. by rewrite <- !app_assoc. }
    pose proof Hf0 as (H1 & H2 & H3 & H4). pose proof (length_tar_header f H2) as Hlh.
    pose proof (length_tar_entry f Hf0) as Hle.
    assert (Hent : length (tar_entry f) = (512 + length (t_body f) + tar_pad (length (t_body f)))%nat).
    { unfold tar_entry. rewrite !length_app, Hlh, length_replicate. lia. }
    assert (Hal : arch_len arch = Z.of_nat (length pre) + Z.of_nat (length (tar_entry f)) + Z.of_nat (length (tar_of files))).
    { rewrite Ear. unfold arch_len. rewrite !length_app. lia. }
    destruct (Z.ltb_spec (Z.of_nat (length pre)) (arch_len arch)); [|lia].
    destruct (Z.leb_spec (Z.of_nat (length pre) + 512) (arch_len arch)); [|lia]. cbn [andb].
    assert (Hhd : header_at arch (Z.of_nat (length pre)) = tar_header f).
    { unfold header_at, arch. rewrite Nat2Z.id, drop_app_length. unfold tar_of, tar_entry. cbn [fmap list_fmap concat].
      rewrite <- !app_assoc. rewrite <- Hlh at 1. apply take_app_length. }
    rewrite Hhd. destruct (Z.eqb_spec (hd0 (tar_header f)) 0) as [E|_]; [by apply header_first in E|].
    rewrite header_size by done.
    destruct (Z.ltb_spec (arch_len arch - (Z.of_nat (length pre) + 512)) (Z.of_nat (length (t_body f)))); [lia|].
    f_equal. rewrite <- Hle, Ear. rewrite <- Nat2Z.inj_add, <- length_app. apply IH; [done| |].
    + rewrite <- Ear. unfold enough in *. rewrite length_app. lia.
    + destruct He as [_ He]. lia.
Qed.

Lemma find_layout want files p :
  Forall tar_ok files ->
  find_file want (layout p files) =
  match list_find (fun f => is_regular (t_type f) && bool_decide (fs_norm (t_name f) = want) = true) files with
  | Some (i, f) => Some (p + Z.of_nat (length (concat (tar_entry <$> take i files))) + 512, Z.of_nat (length (t_body f)))
  | None => None
  end.
Proof.
  intros Hok. revert p. induction Hok as [|f files Hf Hok IH]; intros p; [done|].
  cbn [layout find_file list_find]. rewrite header_type, header_name by done.
  destruct (decide _) as [E|E].
  - rewrite E. cbn [take fmap list_fmap concat length]. do 2 f_equal. lia.
  - destruct (is_regular (t_type f) && bool_decide (fs_norm (t_name f) = want)); [done|].
    rewrite IH. destruct (list_find _ files) as [[i g]|]; [|done].
    cbn [prod_map fst snd fmap option_fmap option_map]. cbn [take fmap list_fmap concat]. rewrite length_app. do 2 f_equal. lia.
Qed.

Lemma free_slot_bound files i : free_slot files 0 = Some i -> (i < length files)%nat.
Proof. intros H. destruct (free_slot_spec _ _ _ H) as [? _]. lia. Qed.

(** Reading the slot of a packed file gives its body. *)
Lemma body_read files i f slot s :
  Forall tar_ok files -> arch_len (tar_of files) < 2 ^ 62 -> files !! i = Some f -> ifs_inv (tar_of files) s ->
  (slot < length (fs_open_files s))%nat ->
  let n := Z.of_nat (length (t_body f)) in
  let off := 0 + Z.of_nat (length (concat (tar_entry <$> take i files))) + 512 in
  exists s2, ifs_read (tar_of files) (FS_FD_BASE + Z.of_nat slot) n
    (set_files (<[slot := MkFile off n 0 true]> (fs_open_files s)) s) = Some (n, t_body f, s2).
Proof.
  intros Hok Hsmall Hl (I1 & I2 & I3) Hslot n off. rewrite I1 in Hslot.
  rewrite Forall_lookup in Hok. destruct (Hok _ _ Hl) as (_ & Hl2 & _ & Hb).
  assert (Hn : 0 <= n < 2 ^ 64) by (unfold n; split; [lia|]; eapply Z.lt_trans; [exact Hb|reflexivity]).
  assert (Hsplit : tar_of files = concat (tar_entry <$> take i files) ++ tar_entry f ++
            concat (tar_entry <$> drop (S i) files) ++ replicate 1024 0).
  { unfold tar_of. rewrite <- (take_drop_middle files i f Hl) at 1.
    rewrite fmap_app, concat_app. cbn [fmap list_fmap concat]. by rewrite <- !app_assoc. }
  set (s1 := set_files _ s).
  assert (Ef : fs_file (FS_FD_BASE + Z.of_nat slot) s1 = Some (slot, MkFile off n 0 true)).
  { unfold fs_file. replace (FS_FD_BASE + Z.of_nat slot - FS_FD_BASE) with (Z.of_nat slot) by lia.
    destruct (Z.ltb_spec (Z.of_nat slot) 0); [lia|]. destruct (Z.leb_spec (Z.of_nat FS_MAX_OPEN) (Z.of_nat slot)); [lia|].
    cbn [orb]. rewrite Nat2Z.id. unfold s1. cbn [fs_open_files set_files].
    by rewrite list_lookup_insert_eq by (rewrite I1; lia). }
  assert (Hi1 : ifs_inv (tar_of files) s1).
  { apply inv_update; [done|]. intros _. cbn [f_data f_pos f_size]. split; [lia|]. split; [lia|].
    unfold arch_len. rewrite Hsplit, !length_app.
    assert (length (tar_entry f) = 512 + length (t_body f) + tar_pad (length (t_body f)))%nat.
    { unfold tar_entry. by rewrite !length_app, length_tar_header, length_replicate, Nat.add_assoc. }
    unfold off, n. lia. }
  destruct (read_spec _ Hsmall (FS_FD_BASE + Z.of_nat slot) n s1 slot _ Hi1 Hn Ef) as [E3 _].
  cbn [f_size f_pos f_data] in E3. rewrite Z.sub_0_r, Z.min_id, Z.add_0_r in E3.
  eexists. rewrite E3. do 3 f_equal. unfold n, off. rewrite Nat2Z.id.
  assert (Hto : Z.to_nat (0 + Z.of_nat (length (concat (tar_entry <$> take i files))) + 512) =
                (length (concat (tar_entry <$> take i files)) + 512)%nat) by lia.
  rewrite Hto, Hsplit. rewrite <- drop_drop, drop_app_length.
  unfold tar_entry. rewrite <- !app_assoc. rewrite <- (length_tar_header f Hl2), drop_app_length. apply take_app_length.
Qed.

(** ** The properties *)

(** C35: [fs_norm_dir] never stores outside its 256-byte buffer, however long
    the path: it returns the length of the string [norm_str] builds, which is
    in the buffer with a NUL behind it.  [norm_str] takes the pieces of the path
    from the left, leaves [.] and empty ones out, takes the last component away
    for [..] and puts any other behind a slash, cut at 255 characters.  A path
    that nowhere needs more, so every path shorter than 256 characters, gives
    its normal form, the components joined by single slashes.  Only a path with
    no piece to write (empty, or slashes and dots only) leaves the buffer as it
    was. *)
Theorem norm_dir_refines path out :
  path_ok path -> length out = 256%nat ->
  exists out' n, fs_norm_dir path out 256 = Some (out', n) /\ length out' = 256%nat /\
    n = length (norm_str path) /\ (n < 256)%nat /\ take n out' = norm_str path /\
    (if touches path then out' !! n = Some 0 else out' = out) /\
    ((length path < 256)%nat -> fits path) /\
    (fits path -> norm_str path = join (norm_path path) /\ Forall is_seg (norm_path path)).
Proof.
  intros Hp Ho. destruct (fs_norm_dir_spec path out Hp Ho) as (out' & n & E & (H1 & H2 & H3 & H4 & H5) & Ht).
  exists out', n. do 6 (split; [done|]). split; [apply short_fits|by apply norm_str_fits].
Qed.

(** "/a/../b/." *)
Definition demo_path : list Z := [47; 97; 47; 46; 46; 47; 98; 47; 46].

Lemma demo_path_ok : path_ok demo_path.
Proof. repeat constructor; done. Qed.

(** 510 characters, no slash: the first 255 are what is looked up. *)
Definition long_path : list Z := replicate 510 120.

Lemma long_path_ok : path_ok long_path.
Proof. by apply Forall_replicate. Qed.

Lemma norm_dir_refines_witness :
  exists out' n, fs_norm_dir demo_path (replicate 256 7) 256 = Some (out', n) /\ take n out' = [98] /\
    out' !! n = Some 0.
Proof.
  destruct (norm_dir_refines demo_path (replicate 256 7) demo_path_ok ltac:(reflexivity))
    as (o & n & E & _ & _ & _ & H & Hz & _).
  exists o, n. exact (conj E (conj H Hz)).
Defined.

Example long_path_cut : norm_str long_path = replicate 255 120.
Proof. vm_compute. reflexivity. Qed.


(** An archive with the file "a" holding "xy". *)
Definition demo_files : list tar_file := [TarFile [97] 48 [120; 121]].
Definition demo_arch : list Z := tar_of demo_files.

Lemma demo_small : arch_len demo_arch < 2 ^ 62.
Proof. vm_compute. done. Qed.


(** *** A descriptor as a cursor *)

Inductive fop := FRead (n : Z) | FSeek (off whence : Z).

(** The types of the arguments: [size_t], [long long]. *)
Definition fop_ok (op : fop) : Prop :=
  match op with FRead n => 0 <= n < 2 ^ 64 | FSeek off _ => - 2 ^ 63 <= off < 2 ^ 63 end.

(** The result, the bytes stored, and the errno of a failure. *)
Definition fop_exec (arch : list Z) (fd : Z) (op : fop) (s : ifs_state) : option (Z * list Z * Z * ifs_state) :=
  let errno r s' := if r =? -1 then nl_errno_slot s' else 0 in
  match op with
  | FRead n => '(r, bytes, s') ← ifs_read arch fd n s; Some (r, bytes, errno r s', s')
  | FSeek off whence => let '(r, s') := ifs_lseek fd off whence s in Some (r, [], errno r s', s')
  end.

Fixpoint fops_exec (arch : list Z) (fd : Z) (ops : list fop) (s : ifs_state) : option (list (Z * list Z * Z) * ifs_state) :=
  match ops with
  | [] => Some ([], s)
  | op :: ops' => '(r, s1) ← fop_exec arch fd op s; '(rs, s2) ← fops_exec arch fd ops' s1; Some (r :: rs, s2)
  end.

(** The same on a list of bytes with a position. *)
Definition cursor_op (body : list Z) (pos : Z) (op : fop) : (Z * list Z * Z) * Z :=
  let size := Z.of_nat (length body) in
  match op with
  | FRead n =>
      let bytes := take (Z.to_nat n) (drop (Z.to_nat pos) body) in
      ((Z.of_nat (length bytes), bytes, 0), pos + Z.of_nat (length bytes))
  | FSeek off whence =>
      let target := (if whence =? 0 then 0 else if whence =? 1 then pos else size) + off in
      if (target <? 0) || (2 ^ 63 <=? target) then ((-1, [], EINVAL), pos)
      else ((Z.min target size, [], 0), Z.min target size)
  end.

Fixpoint cursor_ops (body : list Z) (pos : Z) (ops : list fop) : list (Z * list Z * Z) * Z :=
  match ops with
  | [] => ([], pos)
  | op :: ops' => let '(r, pos1) := cursor_op body pos op in
                  let '(rs, pos2) := cursor_ops body pos1 ops' in (r :: rs, pos2)
  end.

(** The bytes of an open file. *)
Definition file_body (arch : list Z) (f : FsFile) : list Z :=
  take (Z.to_nat (f_size f)) (drop (Z.to_nat (f_data f)) arch).

Lemma swrap_sum base off :
  0 <= base < 2 ^ 62 -> - 2 ^ 63 <= off < 2 ^ 63 ->
  (swrap 64 (base + off) <? 0) = (base + off <? 0) || (2 ^ 63 <=? base + off) /\
  (0 <= base + off < 2 ^ 63 -> swrap 64 (base + off) = base + off).
Proof.
  intros Hb Ho. unfold swrap. change (64 - 1) with 63. split; [|intros H; zdiv].
  destruct (Z.ltb_spec (base + off) 0); destruct (Z.leb_spec (2 ^ 63) (base + off)); cbn [orb];
    (apply Z.ltb_lt || apply Z.ltb_ge); zdiv.
Qed.

Section cursor.
Context (arch : list Z) (arch_small : arch_len arch < 2 ^ 62).

Lemma length_body f : file_ok arch f -> f_used f = true -> Z.of_nat (length (file_body arch f)) = f_size f.
Proof.
  intros Hf Hu. destruct (Hf Hu) as (H1 & H2 & H3). unfold file_body, arch_len in *.
  rewrite length_take, length_drop. lia.
Qed.

(** Replacing the open slot keeps the others. *)
Lemma file_set fd i f g s :
  fs_file fd s = Some (i, f) -> f_used g = true ->
  fs_file fd (set_files (<[i := g]> (fs_open_files s)) s) = Some (i, g).
Proof.
  intros Ef Hg. pose proof (fs_file_some _ _ _ _ Ef) as (F1 & F2 & F3 & F4). unfold fs_file in *.
  destruct (_ || _); [done|]. replace (Z.to_nat (fd - FS_FD_BASE)) with i in * by lia. cbn [fs_open_files set_files].
  rewrite list_lookup_insert_eq by by eapply lookup_lt_Some. cbn [mbind option_bind]. by rewrite Hg.
Qed.

Lemma file_other fd fd' i f g s :
  fs_file fd s = Some (i, f) -> fd' <> fd -> fs_file fd' (set_files (<[i := g]> (fs_open_files s)) s) = fs_file fd' s.
Proof.
  intros Ef Hne. pose proof (fs_file_some _ _ _ _ Ef) as (_ & _ & F3 & _). unfold fs_file.
  destruct (Z.ltb_spec (fd' - FS_FD_BASE) 0); [done|]. cbn [orb]. destruct (_ <=? _); [done|].
  cbn [fs_open_files set_files]. by rewrite list_lookup_insert_ne by lia.
Qed.

Lemma fop_cursor fd op s i f :
  ifs_inv arch s -> fop_ok op -> fs_file fd s = Some (i, f) ->
  let '(res, pos) := cursor_op (file_body arch f) (f_pos f) op in
  exists s', fop_exec arch fd op s = Some (res, s') /\ ifs_inv arch s' /\ fs_file fd s' = Some (i, set_pos pos f) /\
    forall fd', fd' <> fd -> fs_file fd' s' = fs_file fd' s.
Proof.
  intros Hi Hop Ef. pose proof (fs_file_some _ _ _ _ Ef) as (F1 & F2 & F3 & F4).
  pose proof (inv_file arch s i f Hi F1) as Hf. pose proof (Hf F2) as (H1 & H2 & H3).
  pose proof (length_body f Hf F2) as Hlen. destruct op as [n|off whence]; cbn [cursor_op fop_ok] in *.
  - destruct (read_spec arch arch_small fd n s i f Hi Hop Ef) as (E & Hk & Hf'). set (k := Z.min n _) in *.
    assert (Hb : take (Z.to_nat n) (drop (Z.to_nat (f_pos f)) (file_body arch f)) =
                 take (Z.to_nat k) (drop (Z.to_nat (f_data f + f_pos f)) arch)).
    { unfold file_body. rewrite skipn_firstn_comm, take_take, drop_drop. f_equal; [lia|f_equal; lia]. }
    assert (Hk' : Z.of_nat (length (take (Z.to_nat k) (drop (Z.to_nat (f_data f + f_pos f)) arch))) = k).
    { unfold arch_len in *. rewrite length_take, length_drop. lia. }
    rewrite Hb, Hk'. eexists. unfold fop_exec. rewrite E. cbn [mbind option_bind].
    destruct (Z.eqb_spec k (-1)); [lia|]. split; [done|]. split; [by apply inv_update|]. split; [by eapply file_set|].
    intros fd' Hne. by eapply file_other.
  - rewrite Hlen. unfold fop_exec, ifs_lseek. rewrite Ef. cbv zeta.
    set (base := if whence =? 0 then 0 else if whence =? 1 then f_pos f else f_size f).
    destruct (swrap_sum base off) as [Hneg Hval]; [unfold base; zcases; lia|done|]. rewrite Hneg.
    destruct ((base + off <? 0) || (2 ^ 63 <=? base + off)) eqn:Eb.
    + eexists. split; [done|]. split; [by apply inv_errno|]. by destruct f.
    + apply orb_false_iff in Eb as [Eb1%Z.ltb_ge Eb2%Z.leb_gt]. rewrite Hval by lia.
      assert ((if f_size f <? base + off then f_size f else base + off) = Z.min (base + off) (f_size f)) as -> by (zcases; lia).
      destruct (Z.eqb_spec (Z.min (base + off) (f_size f)) (-1)); [lia|]. eexists. split; [done|].
      split; [apply inv_update; [done|]; intros _; simpl; lia|]. split; [by eapply file_set|].
      intros fd' Hne. by eapply file_other.
Qed.

Lemma fops_cursor fd i ops : Forall fop_ok ops -> forall s f,
  ifs_inv arch s -> fs_file fd s = Some (i, f) ->
  let '(res, pos) := cursor_ops (file_body arch f) (f_pos f) ops in
  exists s', fops_exec arch fd ops s = Some (res, s') /\ fs_file fd s' = Some (i, set_pos pos f) /\
    forall fd', fd' <> fd -> fs_file fd' s' = fs_file fd' s.
Proof.
  induction 1 as [|op ops Hop Hops IH]; intros s f Hi Ef; cbn [cursor_ops fops_exec].
  { exists s. split; [done|]. by destruct f. }
  pose proof (fop_cursor fd op s i f Hi Hop Ef) as H1. destruct (cursor_op _ _ op) as [r pos1].
  destruct H1 as (s1 & E1 & Hi1 & Ef1 & Ho1). specialize (IH s1 _ Hi1 Ef1).
  change (file_body arch (set_pos pos1 f)) with (file_body arch f) in IH.
  change (f_pos (set_pos pos1 f)) with pos1 in IH. destruct (cursor_ops _ pos1 ops) as [rs pos2].
  destruct IH as (s2 & E2 & Ef2 & Ho2). exists s2. rewrite E1. cbn [mbind option_bind]. rewrite E2.
  split; [done|]. split; [exact Ef2|]. intros fd' Hne. by rewrite Ho2, Ho1.
Qed.

Lemma close_file fd s i f :
  fs_file fd s = Some (i, f) ->
  exists s', ifs_close fd s = (0, s') /\ fs_file fd s' = None /\ forall fd', fd' <> fd -> fs_file fd' s' = fs_file fd' s.
Proof.
  intros Ef. pose proof (fs_file_some _ _ _ _ Ef) as (F1 & F2 & F3 & F4). unfold ifs_close. rewrite Ef.
  eexists. split; [done|]. split; [|intros fd' Hne; by eapply file_other].
  unfold fs_file. destruct (_ || _); [done|]. replace (Z.to_nat (fd - FS_FD_BASE)) with i by lia.
  cbn [fs_open_files set_files]. by rewrite list_lookup_insert_eq by by eapply lookup_lt_Some.
Qed.
End cursor.

(** C37: an open descriptor is a cursor over the bytes of its file.  Every
    program of reads and seeks on it gives what the same program gives on the
    list of bytes with a position ([cursor_ops]): a read the next bytes, as many
    as asked for and left, a seek the place named, never past the end, and
    EINVAL with the position where it was for a place before the start or past
    [2 ^ 63 - 1]; the other descriptors stay as they were.  After [ifs_close]
    every call on the descriptor is EBADF, and the others still are as they
    were. *)
Theorem file_ops_functional arch s fd i f ops :
  arch_len arch < 2 ^ 62 -> ifs_reachable arch s -> fs_file fd s = Some (i, f) -> Forall fop_ok ops ->
  let '(res, pos) := cursor_ops (file_body arch f) (f_pos f) ops in
  exists s1 s2, fops_exec arch fd ops s = Some (res, s1) /\ fs_file fd s1 = Some (i, set_pos pos f) /\
    ifs_close fd s1 = (0, s2) /\
    (forall fd', fd' <> fd -> fs_file fd' s1 = fs_file fd' s /\ fs_file fd' s2 = fs_file fd' s) /\
    (forall op, fop_exec arch fd op s2 = Some (-1, [], EBADF, set_errno EBADF s2)) /\
    ifs_close fd s2 = (-1, set_errno EBADF s2).
Proof.
  intros Hsmall Hr Ef Hops. pose proof (reachable_inv arch Hsmall s Hr) as Hi.
  pose proof (fops_cursor arch Hsmall fd i ops Hops s f Hi Ef) as H. destruct (cursor_ops _ _ ops) as [res pos].
  destruct H as (s1 & E & Ef1 & Ho). destruct (close_file fd s1 i _ Ef1) as (s2 & Ec & Ef2 & Ho2).
  exists s1, s2. split; [done|]. split; [done|]. split; [done|]. split; [|split].
  - intros fd' Hne. split; [by apply Ho|]. by rewrite Ho2, Ho.
  - intros []; unfold fop_exec, ifs_read, ifs_lseek; by rewrite Ef2.
  - unfold ifs_close. by rewrite Ef2.
Qed.

Lemma file_ops_functional_witness :
  exists s, ifs_reachable demo_arch s /\ exists s',
    fops_exec demo_arch 64 [FRead 1; FSeek (-1) 2; FSeek (-5) 1; FSeek (2 ^ 63 - 1) 2; FRead 10; FSeek 40 0] s =
      Some ([(1, [120], 0); (1, [], 0); (-1, [], EINVAL); (-1, [], EINVAL); (1, [121], 0); (2, [], 0)], s').
Proof.
  assert (Hp : path_ok [97]) by by repeat constructor.
  destruct (ifs_open demo_arch [97] 0 ifs_start) as [[fd s]|] eqn:E; [|vm_compute in E; done].
  assert (Hr : ifs_reachable demo_arch s) by (eapply rtc_l; [by eapply st_open|apply rtc_refl]).
  assert (Hf : fs_file 64 s = Some (0%nat, MkFile 512 2 0 true)).
  { assert (E2 : (x ← ifs_open demo_arch [97] 0 ifs_start; fs_file 64 (snd x)) = Some (0%nat, MkFile 512 2 0 true))
      by (vm_compute; reflexivity).
    rewrite E in E2. exact E2. }
  exists s. split; [exact Hr|].
  destruct (file_ops_functional demo_arch s 64 0 _ [FRead 1; FSeek (-1) 2; FSeek (-5) 1; FSeek (2 ^ 63 - 1) 2; FRead 10; FSeek 40 0]
    demo_small Hr Hf) as (s1 & s2 & H & _); [repeat constructor; cbn; lia|].
  exists s1. rewrite H. vm_compute. reflexivity.
Defined.



(** [ifs_dirent] enumerates a directory: index by index it gives the
    components that the archive's names have directly below the path, each once
    and in the order of their first appearance, cut to the caller's buffer, and
    then says that there are no more. *)
Theorem dirent_enumerates arch path index cap :
  arch_len arch < 2 ^ 62 -> path_ok path -> 0 <= index ->
  ifs_dirent arch path index cap =
  Some (match firsts [] (children (norm_str path) (all_entries arch)) !! Z.to_nat index with
        | Some (name, is_dir) => Some (take (cap - 1) name, is_dir)
        | None => None
        end).
Proof.
  intros Hsmall Hp Hidx. unfold ifs_dirent.
  destruct (fs_norm_dir_spec path (replicate 256 0) Hp eq_refl) as (o & n & -> & (_ & _ & _ & Ht & Hnz) & _).
  cbn [mbind option_bind]. rewrite Ht.
  destruct (dirent_walk_spec arch Hsmall (norm_str path) Hnz (walk_fuel arch) 0 [] index 0 (fuel_enough arch) eq_refl Hidx)
    as [->|E]; [|unfold walk_fuel in E; lia].
  fold (all_entries arch). rewrite Z.sub_0_r. change (children _ []).*1 with (@nil (list Z)).
  destruct (firsts [] _ !! _) as [[nm d]|]; done.
Qed.

Lemma dirent_enumerates_witness : ifs_dirent demo_arch [47] 0 64 = Some (Some ([97], false)).
Proof.
  rewrite (dirent_enumerates demo_arch [47] 0 64 demo_small); [vm_compute; reflexivity| |lia]. by repeat constructor.
Defined.

(** Opening "/" answers with the file the lookup before it was for: nothing is
    written to the static buffer for a path without a piece, so the name of the
    previous lookup is compared again. *)
Example open_root_is_stale :
  (x ← ifs_open demo_arch [97] 0 ifs_start; y ← ifs_open demo_arch [47] 0 (snd x); Some (fst y)) = Some 65 /\
  (y ← ifs_open demo_arch [47] 0 ifs_start; Some (fst y)) = Some (-1).
Proof. split; vm_compute; reflexivity. Qed.
