(* ===== verification/Vfs.v ===== *)
(** The file surface of the guest, [src/unikernel/boot/vfs.c]: the archive of
    [InitFs], a disk when one is linked, the redirection table of the standard
    descriptors, the working directory; and the POSIX names over it in
    [src/unikernel/boot/platform_x86.c].

    The disk layer is written in another language and linked weakly: it is the
    class [Disk], a state and one function or null per [nurl_disk_*] symbol. *)

From S2P Require Import Prelude StateMonad InitFs.

(** ** The disk layer *)

Class Disk (D : Type) := {
  nurl_disk_ready : option (D -> Z * D);
  nurl_disk_writable : option (D -> Z * D);
  nurl_disk_open : option (list Z -> Z -> D -> Z * D);
  nurl_disk_read : option (Z -> Z -> D -> (Z * list Z) * D);
  nurl_disk_write : option (Z -> list Z -> D -> Z * D);
  nurl_disk_lseek : option (Z -> Z -> Z -> D -> Z * D);
  nurl_disk_close : option (Z -> D -> Z * D);
  nurl_disk_size : option (Z -> D -> Z * D);
  nurl_disk_fsync : option (Z -> D -> Z * D);
  nurl_disk_sync : option (D -> Z * D);
  nurl_disk_exists : option (list Z -> D -> Z * D);
  nurl_disk_is_dir : option (list Z -> D -> Z * D);
  nurl_disk_stat_size : option (list Z -> D -> Z * D);
  nurl_disk_unlink : option (list Z -> D -> Z * D);
  nurl_disk_rename : option (list Z -> list Z -> D -> Z * D);
  nurl_disk_mkdir : option (list Z -> D -> Z * D);
  nurl_disk_rmdir : option (list Z -> D -> Z * D);
  nurl_disk_truncate : option (list Z -> Z -> D -> Z * D);
  nurl_disk_ftruncate : option (Z -> Z -> D -> Z * D);
  nurl_disk_opendir : option (list Z -> D -> Z * D);
  nurl_disk_readdir_name : option (Z -> Z -> D -> (Z * list Z) * D);
  nurl_disk_dirent_is_dir : option (D -> Z * D);
  nurl_disk_closedir : option (Z -> D -> Z * D)
}.

(** An image without the layer: every symbol is null. *)
Definition no_disk : Disk unit :=
  Build_Disk unit None None None None None None None None None None None None None None None None None None None None None None None.

Definition VFS_DISK_FD_BASE : Z := 128.
Definition VFS_DISK_FD_MAX : Z := 192.
Definition VFS_IFSDIR_FD_BASE : Z := 256.
Definition VFS_IFSDIR_MAX : nat := 8.
Definition VFS_O_ACCMODE : Z := 3.
Definition VFS_O_RDWR : Z := 2.
Definition VFS_O_CREAT : Z := 64.          (* 0100 *)
Definition VFS_O_EXCL : Z := 128.          (* 0200 *)
Definition VFS_O_DIRECTORY : Z := 65536.   (* 0200000 *)
Definition VFS_SAVED_BASE : Z := 300.
Definition VFS_SAVED_MAX : nat := 8.
Definition VFS_CWD_MAX : nat := 512.

Definition EEXIST : Z := 17.
Definition EACCES : Z := 13.
Definition ERANGE : Z := 34.
Definition ENOSYS : Z := 38.

Record VfsIfsDir := MkDir {
  d_path : list Z;
  d_cursor : Z;
  d_archive_done : bool;
  d_disk_h : Z;
  d_used : bool
}.

Record VfsSaved := MkSaved { sv_used : bool; sv_target : Z; sv_alias : bool }.

#[export] Instance VfsIfsDir_inhabited : Inhabited VfsIfsDir := populate (MkDir [] 0 false 0 false).
#[export] Instance VfsSaved_inhabited : Inhabited VfsSaved := populate (MkSaved false 0 false).

Record vfs (D : Type) := MkVfs {
  v_ifs : ifs_state;                (* with the errno slot *)
  v_disk : D;
  vfs_ifsdirs : list VfsIfsDir;
  vfs_std_target : list Z;
  vfs_std_alias : list bool;
  vfs_saved : list VfsSaved;
  vfs_cwd : list Z;
  mkstemp_seq : Z;
  v_console : list Z                (* what [pf_putc] was given *)
}.
Arguments MkVfs {D}.
Arguments v_ifs {D}.
Arguments v_disk {D}.
Arguments vfs_ifsdirs {D}.
Arguments vfs_std_target {D}.
Arguments vfs_std_alias {D}.
Arguments vfs_saved {D}.
Arguments vfs_cwd {D}.
Arguments mkstemp_seq {D}.
Arguments v_console {D}.

Section setters.
Context {D : Type}.
Implicit Types s : vfs D.

Definition set_ifs x s := MkVfs x (v_disk s) (vfs_ifsdirs s) (vfs_std_target s) (vfs_std_alias s) (vfs_saved s) (vfs_cwd s) (mkstemp_seq s) (v_console s).
Definition set_disk (x : D) s : vfs D := MkVfs (v_ifs s) x (vfs_ifsdirs s) (vfs_std_target s) (vfs_std_alias s) (vfs_saved s) (vfs_cwd s) (mkstemp_seq s) (v_console s).
Definition set_ifsdirs x s := MkVfs (v_ifs s) (v_disk s) x (vfs_std_target s) (vfs_std_alias s) (vfs_saved s) (vfs_cwd s) (mkstemp_seq s) (v_console s).
Definition set_std t a s := MkVfs (v_ifs s) (v_disk s) (vfs_ifsdirs s) t a (vfs_saved s) (vfs_cwd s) (mkstemp_seq s) (v_console s).
Definition set_saved x s := MkVfs (v_ifs s) (v_disk s) (vfs_ifsdirs s) (vfs_std_target s) (vfs_std_alias s) x (vfs_cwd s) (mkstemp_seq s) (v_console s).
Definition set_cwd x s := MkVfs (v_ifs s) (v_disk s) (vfs_ifsdirs s) (vfs_std_target s) (vfs_std_alias s) (vfs_saved s) x (mkstemp_seq s) (v_console s).
Definition set_seq x s := MkVfs (v_ifs s) (v_disk s) (vfs_ifsdirs s) (vfs_std_target s) (vfs_std_alias s) (vfs_saved s) (vfs_cwd s) x (v_console s).
Definition set_console x s := MkVfs (v_ifs s) (v_disk s) (vfs_ifsdirs s) (vfs_std_target s) (vfs_std_alias s) (vfs_saved s) (vfs_cwd s) (mkstemp_seq s) x.
End setters.

(** ** Path resolution *)

(** The absolute path that is folded: [tmp], 1024 bytes, unless [path] is
    absolute already. *)
Definition resolve_src (cwd path : list Z) : list Z :=
  if hd0 path =? ch_slash then path else
  let t := take 1022 cwd in
  let t := match last t with
           | Some c => if c =? ch_slash then t else t ++ [ch_slash]
           | None => [ch_slash]
           end in
  t ++ take (1023 - length t) path.

(** [while (out > 1 && buf[out - 1] != '/') out--;] *)
Fixpoint pop_back (buf : list Z) (out : nat) : nat :=
  match out with
  | O => O
  | S out' => if (1 <? out)%nat && negb (buf !!! out' =? ch_slash) then pop_back buf out' else out
  end.

Definition pop_component (buf : list Z) : list Z :=
  let out := pop_back buf (length buf) in
  take (if (1 <? out)%nat then out - 1 else out)%nat buf.

(** The loop over the components; [buf] is what has been written so far. *)
Fixpoint fold_loop (fuel : nat) (p buf : list Z) (cap : nat) : option (list Z) :=
  match fuel with
  | O => None
  | S f =>
      let p := drop_slashes p in
      if hd0 p =? 0 then Some buf else
      let '(seg, rest) := segment p in
      if decide (seg = [ch_dot]) then fold_loop f rest buf cap
      else if decide (seg = [ch_dot; ch_dot]) then fold_loop f rest (pop_component buf) cap
      else
        let buf := if (1 <? length buf)%nat && (length buf + 1 <? cap)%nat then buf ++ [ch_slash] else buf in
        fold_loop f rest (buf ++ take (cap - 1 - length buf) seg) cap
  end.

Definition vfs_resolve (cwd path : list Z) (cap : nat) : option (list Z) :=
  let src := resolve_src cwd path in fold_loop (S (length src)) src [ch_slash] cap.

(** ** Bytes of the records *)

(** [v] little-endian in [n] bytes. *)
Fixpoint le_bytes (n : nat) (v : Z) : list Z :=
  match n with
  | O => []
  | S n' => v mod 256 :: le_bytes n' (v / 256)
  end.

Definition vfs_put_u64 (v : Z) : list Z := le_bytes 8 v.
Definition vfs_put_u32 (v : Z) : list Z := le_bytes 4 v.
Definition vfs_put_u16 (v : Z) : list Z := le_bytes 2 v.

(** The bytes [l] stored at [p[off]]. *)
Definition put_at (off : nat) (l p : list Z) : list Z := take off p ++ l ++ drop (off + length l) p.

Definition VFS_DT_DIR : Z := 4.
Definition VFS_DT_REG : Z := 8.

(** [(19 + n + 1 + 7) & ~7] *)
Definition dirent_reclen (n : Z) : Z := Z.land (wrap64 (19 + n + 1 + 7)) (not64 7).

(** One record, every byte of it. *)
Definition dirent_record (used : Z) (name : list Z) (is_dir : bool) : list Z :=
  let n := Z.of_nat (length name) in
  let reclen := dirent_reclen n in
  vfs_put_u64 (used + 1) ++ vfs_put_u64 (used + reclen) ++ vfs_put_u16 reclen ++
  [if is_dir then VFS_DT_DIR else VFS_DT_REG] ++ name ++ replicate (Z.to_nat (reclen - (19 + n))) 0.

Definition VFS_S_IFREG : Z := 32768.   (* 0100000 *)
Definition VFS_S_IFDIR : Z := 16384.   (* 0040000 *)

Definition vfs_fill_stat (is_dir : bool) (size : Z) : list Z :=
  put_at 64 (vfs_put_u64 (Z.quot (size + 511) 512))
   (put_at 56 (vfs_put_u64 512)
    (put_at 48 (vfs_put_u64 size)
     (put_at 24 (vfs_put_u32 (if is_dir then Z.lor VFS_S_IFDIR 365 else Z.lor VFS_S_IFREG 292))
      (put_at 16 (vfs_put_u64 1)
       (put_at 8 (vfs_put_u64 1)
        (put_at 0 (vfs_put_u64 1) (replicate 144 0))))))).

Section vfs.
Context (arch : list Z).
Context {D : Type} `{!Disk D}.

Abbreviation V := (ST (vfs D)).

(** ** The layers underneath *)

Definition on_ifs {A} (m : ifs_state -> option (A * ifs_state)) : V A := within v_ifs set_ifs m.
Definition ifs_ret {A} (m : ifs_state -> A * ifs_state) : V A := on_ifs (fun s => Some (m s)).

(** A call through a weak symbol; calling a null one is a fault. *)
Definition disk_call {A} (f : option (D -> A * D)) : V A :=
  match f with
  | Some f => within v_disk set_disk (fun d => Some (f d))
  | None => st_fault
  end.

Definition linked {A} (f : option A) : bool := match f with Some _ => true | None => false end.

Definition set_err (e : Z) : V unit := ifs_ret (fun s => (tt, set_errno e s)).
Definition fail_with (e : Z) : V Z := set_err e;; mret (-1).

Definition disk_live : V bool :=
  match nurl_disk_ready with
  | None => mret false
  | Some _ => r ← disk_call nurl_disk_ready; mret (r =? 1)
  end.

(** [disk_live() && f] *)
Definition disk_has {A} (f : option A) : V bool := live ← disk_live; mret (live && linked f).

Definition disk_is_fd (fd : Z) : bool := (VFS_DISK_FD_BASE <=? fd) && (fd <? VFS_DISK_FD_MAX).

Definition posix_ret (rc : Z) : V Z := if rc <? 0 then fail_with (swrap 32 (- rc)) else mret (swrap 32 rc).
Definition posix_ret_ll (rc : Z) : V Z := if rc <? 0 then fail_with (swrap 32 (- rc)) else mret rc.

Definition ifs_fd (fd : Z) : V bool := get_state (fun s => ifs_is_fd fd (v_ifs s)).

(** ** Directory handles over the union *)

Definition ifsdir_slot (fd : Z) (s : vfs D) : option (nat * VfsIfsDir) :=
  let i := fd - VFS_IFSDIR_FD_BASE in
  if (i <? 0) || (Z.of_nat VFS_IFSDIR_MAX <=? i) then None else
  d ← vfs_ifsdirs s !! Z.to_nat i;
  if d_used d then Some (Z.to_nat i, d) else None.

Definition ifsdir_is_fd (fd : Z) : V bool := get_state (fun s => linked (ifsdir_slot fd s)).

(** The first slot that is free. *)
Fixpoint free_index {A} (used : A -> bool) (l : list A) : option nat :=
  match l with
  | [] => None
  | x :: l' => if used x then S <$> free_index used l' else Some O
  end.

Definition ifsdir_open (path : list Z) (have_archive : bool) : V Z :=
  can ← disk_has (nurl_disk_opendir (D := D));
  h ← (if (can : bool) then r ← disk_call ((fun f => f path) <$> nurl_disk_opendir); mret (if r <? 0 then -1 else r)
       else mret (-1));
  if negb have_archive && (h <? 0) then mret (-1) else
  dirs ← get_state vfs_ifsdirs;
  match free_index d_used dirs with
  | Some i =>
      put_state (set_ifsdirs (<[i := MkDir (take 255 path) 0 (negb have_archive) h true]> dirs));;
      mret (VFS_IFSDIR_FD_BASE + Z.of_nat i)
  | None =>
      (if (0 <=? h) && linked (nurl_disk_closedir (D := D))
       then disk_call ((fun f => f h) <$> nurl_disk_closedir);; mret tt else mret tt);;
      fail_with EMFILE
  end.

(** ** Descriptors *)

Definition fs_is_file_fd (fd : Z) : V bool := i ← ifs_fd fd; mret (i || disk_is_fd fd).

(** The result and the bytes stored to [buf]. *)
Definition fs_read_fd (fd n : Z) : V (Z * list Z) :=
  i ← ifs_fd fd;
  if (i : bool) then on_ifs (fun s => match ifs_read arch fd n s with Some (r, b, s') => Some ((r, b), s') | None => None end)
  else if disk_is_fd fd && linked (nurl_disk_read (D := D)) then
    '(rc, b) ← disk_call ((fun f => f (fd - VFS_DISK_FD_BASE) n) <$> nurl_disk_read);
    r ← posix_ret_ll rc; mret (r, b)
  else r ← fail_with EBADF; mret (r, []).

Definition fs_write_fd (fd : Z) (buf : list Z) : V Z :=
  i ← ifs_fd fd;
  if (i : bool) then fail_with EROFS
  else if disk_is_fd fd && linked (nurl_disk_write (D := D)) then
    rc ← disk_call ((fun f => f (fd - VFS_DISK_FD_BASE) buf) <$> nurl_disk_write);
    posix_ret_ll rc
  else fail_with EBADF.

Definition fs_lseek_fd (fd off whence : Z) : V Z :=
  i ← ifs_fd fd;
  if (i : bool) then ifs_ret (ifs_lseek fd off whence)
  else if disk_is_fd fd && linked (nurl_disk_lseek (D := D)) then
    rc ← disk_call ((fun f => f (fd - VFS_DISK_FD_BASE) off whence) <$> nurl_disk_lseek);
    posix_ret_ll rc
  else fail_with EBADF.

Definition fs_close_fd (fd : Z) : V Z :=
  slot ← get_state (ifsdir_slot fd);
  match slot with
  | Some (i, d) =>
      (if (0 <=? d_disk_h d) && linked (nurl_disk_closedir (D := D))
       then disk_call ((fun f => f (d_disk_h d)) <$> nurl_disk_closedir);; mret tt else mret tt);;
      put_state (fun s => set_ifsdirs (<[i := MkDir (d_path d) (d_cursor d) (d_archive_done d) (-1) false]> (vfs_ifsdirs s)) s);;
      mret 0
  | None =>
      i ← ifs_fd fd;
      if (i : bool) then ifs_ret (ifs_close fd)
      else if disk_is_fd fd && linked (nurl_disk_close (D := D)) then
        rc ← disk_call ((fun f => f (fd - VFS_DISK_FD_BASE)) <$> nurl_disk_close); posix_ret rc
      else fail_with EBADF
  end.

(** The address in the archive, or null. *)
Definition fs_map_fd (fd off : Z) : V (option Z) := get_state (fun s => ifs_map fd off (v_ifs s)).

(** ** The standard descriptors *)

Definition is_std (fd : Z) : bool := (0 <=? fd) && (fd <=? 2).
Definition std_target (fd : Z) (s : vfs D) : Z := vfs_std_target s !!! Z.to_nat fd.
Definition std_alias (fd : Z) (s : vfs D) : bool := default false (vfs_std_alias s !! Z.to_nat fd).

Definition set_std_fd (fd t : Z) (a : bool) : V unit :=
  put_state (fun s => set_std (<[Z.to_nat fd := t]> (vfs_std_target s)) (<[Z.to_nat fd := a]> (vfs_std_alias s)) s).

Definition vfs_std_of (fd : Z) : V Z := if is_std fd then get_state (std_target fd) else mret (-1).

Definition saved_target (fd : Z) (s : vfs D) : bool :=
  existsb (fun v => sv_used v && (sv_target v =? fd)) (vfs_saved s).

Definition vfs_is_std_target (fd : Z) : V bool :=
  if fd <? 0 then mret false else
  get_state (fun s => existsb (Z.eqb fd) (vfs_std_target s) || saved_target fd s).

Definition vfs_is_std_target_except (fd skip : Z) : V bool :=
  if fd <? 0 then mret false else
  get_state (fun s => existsb (fun i => negb (i =? skip) && (std_target i s =? fd)) [0; 1; 2] || saved_target fd s).

Definition vfs_std_release (stdfd : Z) : V unit :=
  t ← get_state (std_target stdfd);
  a ← get_state (std_alias stdfd);
  shared ← vfs_is_std_target_except t stdfd;
  (if (0 <=? t) && negb a && negb shared then fs_close_fd t;; mret tt else mret tt);;
  set_std_fd stdfd (-1) false.

Definition saved_slot (fd : Z) : bool := (VFS_SAVED_BASE <=? fd) && (fd <? VFS_SAVED_BASE + Z.of_nat VFS_SAVED_MAX).

Definition dup2 (oldfd newfd : Z) : V Z :=
  if negb (is_std newfd) then fail_with EBADF else
  if saved_slot oldfd then
    sv ← get_state (fun s => vfs_saved s !!! Z.to_nat (oldfd - VFS_SAVED_BASE));
    if negb (sv_used sv) then fail_with EBADF else
    vfs_std_release newfd;; set_std_fd newfd (sv_target sv) (sv_alias sv);; mret newfd
  else if is_std oldfd then
    t ← get_state (std_target oldfd);
    vfs_std_release newfd;; set_std_fd newfd t true;; mret newfd
  else
    file ← fs_is_file_fd oldfd;
    if negb file then fail_with EBADF else
    vfs_std_release newfd;; set_std_fd newfd oldfd false;; mret newfd.

Definition dup (fd : Z) : V Z :=
  if negb (is_std fd) then fail_with EBADF else
  saved ← get_state vfs_saved;
  match free_index sv_used saved with
  | Some i =>
      put_state (fun s => set_saved (<[i := MkSaved true (std_target fd s) (std_alias fd s)]> (vfs_saved s)) s);;
      mret (VFS_SAVED_BASE + Z.of_nat i)
  | None => fail_with EMFILE
  end.

Definition fcntl (fd cmd arg : Z) : V Z := if negb (cmd =? 0) then fail_with ENOSYS else dup fd.

Definition flock (fd op : Z) : V Z :=
  i ← ifs_fd fd; if negb (disk_is_fd fd) && negb i then fail_with EBADF else mret 0.

Definition vfs_close_saved (fd : Z) : V bool :=
  if negb (saved_slot fd) then mret false else
  put_state (fun s =>
    let i := Z.to_nat (fd - VFS_SAVED_BASE) in
    let sv := vfs_saved s !!! i in
    set_saved (<[i := MkSaved false (sv_target sv) (sv_alias sv)]> (vfs_saved s)) s);;
  mret true.

(** ** The working directory *)

(** A path argument; [None] is the null pointer. *)
Definition resolve_here (path : list Z) : V (list Z) :=
  cwd ← get_state vfs_cwd; of_option (vfs_resolve cwd path VFS_CWD_MAX).

(** [buf] null or of [size] bytes; the answer is what was stored. *)
Definition getcwd (buf : bool) (size : Z) : V (option (list Z)) :=
  if negb buf then set_err EINVAL;; mret None else
  cwd ← get_state vfs_cwd;
  if size <? Z.of_nat (length cwd) + 1 then set_err ERANGE;; mret None else mret (Some cwd).

Fixpoint strip_trailing (cwd : list Z) (o : nat) : nat :=
  match o with
  | O => O
  | S o' => if (1 <? o)%nat && (cwd !!! o' =? ch_slash) then strip_trailing cwd o' else o
  end.

Definition kind_of (path : list Z) : V (Z * option Z) := of_option (ifs_kind arch path).

(** [disk_live() && f && f(path) == 1] *)
Definition disk_says (f : option (list Z -> D -> Z * D)) (path : list Z) : V bool :=
  can ← disk_has f;
  if (can : bool) then r ← disk_call ((fun g => g path) <$> f); mret (r =? 1) else mret false.

Definition chdir (path : option (list Z)) : V Z :=
  match path with
  | None => fail_with EINVAL
  | Some path =>
      full ← resolve_here path;
      '(kind, _) ← kind_of full;
      dir ← (if kind =? 2 then mret true else disk_says nurl_disk_is_dir full);
      if negb dir then fail_with ENOENT else
      let copied := take 511 full in
      put_state (set_cwd (take (strip_trailing copied (length copied)) copied));; mret 0
  end.

(** ** Opening *)

Definition has (flags bit : Z) : bool := negb (Z.land flags bit =? 0).

(** The disk part of [nl_open]. *)
Definition disk_open (path : list Z) (flags : Z) : V Z :=
  h ← (if has flags VFS_O_DIRECTORY then disk_call ((fun f => f path) <$> nurl_disk_opendir)
       else disk_call ((fun f => f path flags) <$> nurl_disk_open));
  if h <? 0 then fail_with (swrap 32 (- h)) else
  if VFS_DISK_FD_MAX - VFS_DISK_FD_BASE <=? h then
    disk_call ((fun f => f h) <$> nurl_disk_close);; fail_with EMFILE
  else mret (VFS_DISK_FD_BASE + h).

Definition archive_open (path : list Z) (flags : Z) : V Z := on_ifs (ifs_open arch path flags).

Definition nl_open (path0 : option (list Z)) (flags mode : Z) : V Z :=
  match path0 with
  | None => fail_with EINVAL
  | Some path0 =>
      path ← resolve_here path0;
      let wants_write := has flags VFS_O_ACCMODE || has flags VFS_O_CREAT in
      fd ← (if negb wants_write && negb (has flags VFS_O_DIRECTORY) then archive_open path flags else mret (-1));
      if 0 <=? fd then mret fd else
      refused ← (if has flags VFS_O_DIRECTORY then
           '(kind, _) ← kind_of path;
           fd ← ifsdir_open path ((kind =? 2) && (0 <? nurl_initfs_size arch));
           if 0 <=? fd then mret (Some fd) else
           live ← disk_live;
           if (live : bool) then mret None else fd ← fail_with ENOENT; mret (Some fd)
         else mret None);
      match refused with
      | Some fd => mret fd
      | None =>
          live ← disk_live;
          if (live : bool) then disk_open path flags else archive_open path flags
      end
  end.

(** ** Mapping, positional reads and writes *)

Inductive mapping :=
| MapFailed
| MapArchive (p : Z)                      (* into the archive, in place *)
| MapPages (m : Z) (bytes : list Z).      (* fresh pages, filled *)

(** The read loop of [vfs_map_file], at most [len] rounds that read. *)
Fixpoint map_fill (fuel : nat) (h len : Z) (got : list Z) : V (list Z) :=
  match fuel with
  | O => mret got
  | S f =>
      if Z.of_nat (length got) <? len then
        '(n, b) ← disk_call ((fun f => f h (len - Z.of_nat (length got))) <$> nurl_disk_read);
        if n <=? 0 then mret got else map_fill f h len (got ++ take (Z.to_nat n) b)
      else mret got
  end.

(** [pages] is what [pa_alloc] answered. *)
Definition vfs_map_file (fd len off pages : Z) : V mapping :=
  i ← ifs_fd fd;
  if (i : bool) then p ← fs_map_fd fd (wrap64 off); mret (match p with Some p => MapArchive p | None => MapFailed end) else
  if negb (disk_is_fd fd) || negb (linked (nurl_disk_read (D := D))) || negb (linked (nurl_disk_lseek (D := D)))
  then mret MapFailed else
  let h := fd - VFS_DISK_FD_BASE in
  if pages =? 0 then mret MapFailed else
  let seek o w := disk_call ((fun f => f h o w) <$> nurl_disk_lseek) in
  keep ← seek 0 1;
  r ← seek off 0;
  if r <? 0 then mret MapFailed else
  got ← map_fill (Z.to_nat len) h len [];
  (if 0 <=? keep then seek keep 0;; mret tt else mret tt);;
  mret (MapPages pages (got ++ replicate (Z.to_nat len - length got) 0)).

Definition pread (fd n off : Z) : V (Z * list Z) :=
  keep ← fs_lseek_fd fd 0 1;
  if keep <? 0 then mret (-1, []) else
  r ← fs_lseek_fd fd off 0;
  if r <? 0 then mret (-1, []) else
  got ← fs_read_fd fd n;
  fs_lseek_fd fd keep 0;; mret got.

Definition pwrite (fd : Z) (buf : list Z) (off : Z) : V Z :=
  keep ← fs_lseek_fd fd 0 1;
  if keep <? 0 then mret (-1) else
  r ← fs_lseek_fd fd off 0;
  if r <? 0 then mret (-1) else
  put ← fs_write_fd fd buf;
  fs_lseek_fd fd keep 0;; mret put.

(** ** The POSIX names that write *)

Definition exists_archive (path : list Z) : V bool := on_ifs (ifs_exists arch path).

Definition fs_exists (path0 : option (list Z)) : V bool :=
  match path0 with
  | None => mret false
  | Some path0 =>
      path ← resolve_here path0;
      '(kind, _) ← kind_of path;
      if negb (kind =? 0) then mret true else
      e ← exists_archive path;
      if (e : bool) then mret true else disk_says nurl_disk_exists path
  end.

(** What a path operation answers with a disk, and [otherwise]. *)
Definition disk_path_op (f : option (list Z -> D -> Z * D)) (otherwise : list Z -> V Z) (p0 : option (list Z)) : V Z :=
  match p0 with
  | None => fail_with EINVAL
  | Some p0 =>
      p ← resolve_here p0;
      can ← disk_has f;
      if (can : bool) then rc ← disk_call ((fun g => g p) <$> f); posix_ret rc else otherwise p
  end.

Definition unlink : option (list Z) -> V Z :=
  disk_path_op nurl_disk_unlink (fun p => e ← exists_archive p; fail_with (if (e : bool) then EROFS else ENOENT)).
Definition mkdir (p : option (list Z)) (mode : Z) : V Z := disk_path_op nurl_disk_mkdir (fun _ => fail_with EROFS) p.
Definition rmdir : option (list Z) -> V Z := disk_path_op nurl_disk_rmdir (fun _ => fail_with EROFS).
Definition truncate (p : option (list Z)) (len : Z) : V Z :=
  disk_path_op ((fun f p => f p len) <$> nurl_disk_truncate) (fun _ => fail_with EROFS) p.

Definition rename (a0 b0 : option (list Z)) : V Z :=
  match a0, b0 with
  | Some a0, Some b0 =>
      a ← resolve_here a0; b ← resolve_here b0;
      can ← disk_has (nurl_disk_rename (D := D));
      if (can : bool) then rc ← disk_call ((fun f => f a b) <$> nurl_disk_rename); posix_ret rc
      else fail_with EROFS
  | _, _ => fail_with EINVAL
  end.

Definition fs_fsync_fd (fd : Z) : V Z :=
  i ← ifs_fd fd;
  if (i : bool) then mret 0
  else if disk_is_fd fd && linked (nurl_disk_fsync (D := D)) then
    rc ← disk_call ((fun f => f (fd - VFS_DISK_FD_BASE)) <$> nurl_disk_fsync); posix_ret rc
  else fail_with EBADF.

Definition fsync (fd : Z) : V Z := fs_fsync_fd fd.
Definition fdatasync (fd : Z) : V Z := fs_fsync_fd fd.

Definition ftruncate (fd len : Z) : V Z :=
  if len <? 0 then fail_with EINVAL else
  if disk_is_fd fd && linked (nurl_disk_ftruncate (D := D)) then
    rc ← disk_call ((fun f => f (fd - VFS_DISK_FD_BASE) len) <$> nurl_disk_ftruncate); posix_ret rc
  else i ← ifs_fd fd; fail_with (if (i : bool) then EROFS else EBADF).

Definition vfs_sync_all : V Z :=
  can ← disk_has (nurl_disk_sync (D := D));
  if (can : bool) then rc ← disk_call nurl_disk_sync; posix_ret rc else mret 0.

Definition access (p : option (list Z)) (mode : Z) : V Z :=
  match p with
  | None => fail_with EINVAL
  | Some p =>
      if has mode 1 then fail_with EACCES else
      on_disk ← disk_says nurl_disk_exists p;
      in_image ← exists_archive p;
      if negb on_disk && negb in_image then fail_with ENOENT else
      if has mode 2 && negb on_disk then fail_with EACCES else
      ro ← (if has mode 2 then
              if linked (nurl_disk_writable (D := D)) then w ← disk_call nurl_disk_writable; mret (negb (w =? 1)) else mret true
            else mret false);
      if (ro : bool) then fail_with EROFS else mret 0
  end.

(** ** getdents64 *)

(** [room]: what is left for a name, at most 255. *)
Definition name_room (len used : Z) : Z := Z.min (wrap64 (len - used - 19 - 1)) 255.

(** [nurl_disk_dirent_is_dir && nurl_disk_dirent_is_dir()] *)
Definition entry_is_dir : V bool :=
  if linked (nurl_disk_dirent_is_dir (D := D)) then r ← disk_call nurl_disk_dirent_is_dir; mret (negb (r =? 0)) else mret false.

(** The answer and the bytes stored; every round stores a record of at least
    24 bytes or ends the call. *)
Fixpoint getdents_loop (fuel : nat) (h len : Z) (out : list Z) : V (Z * list Z) :=
  match fuel with
  | O => st_fault
  | S f =>
      let used := Z.of_nat (length out) in
      if len <? used + 19 + 1 + 8 then mret (used, out) else
      '(n, name) ← disk_call ((fun g => g h (name_room len used + 1)) <$> nurl_disk_readdir_name);
      if n =? 0 then mret (used, out) else
      if n <? 0 then
        if used =? 0 then set_err EINVAL;; mret (-22, out) else mret (used, out)
      else if len <? used + dirent_reclen n then mret (used, out) else
      is_dir ← entry_is_dir;
      getdents_loop f h len (out ++ dirent_record used (take (Z.to_nat n) name) is_dir)
  end.

Definition vfs_getdents64 (fd len : Z) : V (Z * list Z) :=
  if negb (disk_is_fd fd) || negb (linked (nurl_disk_readdir_name (D := D))) then set_err EBADF;; mret (-9, [])
  else getdents_loop (S (Z.to_nat (len / 24))) (fd - VFS_DISK_FD_BASE) len [].

(** Does the archive's directory have the name? *)
Fixpoint ifs_has_from (fuel : nat) (dir name : list Z) (i : Z) : option bool :=
  match fuel with
  | O => None
  | S f =>
      e ← ifs_dirent arch dir i 256;
      match e with
      | None => Some false
      | Some (probe, _) => if bool_decide (cstr probe = cstr name) then Some true else ifs_has_from f dir name (i + 1)
      end
  end.

Definition vfs_ifs_has (dir name : list Z) : option bool := ifs_has_from (S (walk_fuel arch)) dir name 0.

Definition upd_dir (i : nat) (f : VfsIfsDir -> VfsIfsDir) : V unit :=
  put_state (fun s => set_ifsdirs (<[i := f (vfs_ifsdirs s !!! i)]> (vfs_ifsdirs s)) s).

(** A name already listed by the archive takes a round and no room, so the
    rounds are bounded by the two directories and not by [len]. *)
Fixpoint ifs_getdents_loop (fuel : nat) (i : nat) (len : Z) (out : list Z) : V (Z * list Z) :=
  match fuel with
  | O => st_fault
  | S f =>
      let used := Z.of_nat (length out) in
      let emit name is_dir :=
        if len <? used + dirent_reclen (Z.of_nat (length name)) then mret (used, out)
        else ifs_getdents_loop f i len (out ++ dirent_record used name is_dir) in
      if len <? used + 19 + 1 + 8 then mret (used, out) else
      d ← get_state (fun s => vfs_ifsdirs s !!! i);
      if negb (d_archive_done d) then
        e ← of_option (ifs_dirent arch (d_path d) (d_cursor d) 256);
        match e with
        | None => upd_dir i (fun d => MkDir (d_path d) (d_cursor d) true (d_disk_h d) (d_used d));; ifs_getdents_loop f i len out
        | Some (name, is_dir) =>
            upd_dir i (fun d => MkDir (d_path d) (d_cursor d + 1) (d_archive_done d) (d_disk_h d) (d_used d));;
            emit (cstr name) is_dir
        end
      else if (0 <=? d_disk_h d) && linked (nurl_disk_readdir_name (D := D)) then
        '(got, name) ← disk_call ((fun g => g (d_disk_h d) (name_room len used + 1)) <$> nurl_disk_readdir_name);
        if got =? 0 then mret (used, out) else
        if got <? 0 then
          if used =? 0 then set_err EINVAL;; mret (-22, out) else mret (used, out)
        else
          let name := take (Z.to_nat got) name in
          is_dir ← entry_is_dir;
          dup ← of_option (vfs_ifs_has (d_path d) name);
          if (dup : bool) then ifs_getdents_loop f i len out else emit (cstr name) is_dir
      else mret (used, out)
  end.

Definition vfs_ifs_getdents (fuel : nat) (fd len : Z) : V (Z * list Z) :=
  ifs_getdents_loop fuel (Z.to_nat (fd - VFS_IFSDIR_FD_BASE)) len [].

(** ** mkstemp *)

(** The six letters of a number, most significant first. *)
Fixpoint letters (n : nat) (v : Z) (acc : list Z) : list Z :=
  match n with
  | O => acc
  | S n' => letters n' (v / 26) (97 + v mod 26 :: acc)
  end.

Fixpoint mkstemp_try (tries : nat) (stem tail : list Z) : V (Z * list Z) :=
  match tries with
  | O => fd ← fail_with EEXIST; mret (fd, stem ++ tail)
  | S t =>
      put_state (fun s => set_seq (wrap64 (mkstemp_seq s + 7919)) s);;
      v ← get_state mkstemp_seq;
      let name := stem ++ letters 6 v [] in
      fd ← nl_open (Some name) (Z.lor (Z.lor VFS_O_RDWR VFS_O_CREAT) VFS_O_EXCL) 384;
      if 0 <=? fd then mret (fd, name) else
      e ← get_state (fun s => nl_errno_slot (v_ifs s));
      if negb (e =? EEXIST) then mret (-1, name) else mkstemp_try t stem (letters 6 v [])
  end.

(** The descriptor and the template afterwards. *)
Definition mkstemp (tmpl : option (list Z)) : V (Z * list Z) :=
  match tmpl with
  | None => fd ← fail_with EINVAL; mret (fd, [])
  | Some tmpl =>
      live ← disk_live;
      if negb live then fd ← fail_with EROFS; mret (fd, tmpl) else
      let n := length tmpl in
      if (n <? 6)%nat then fd ← fail_with EINVAL; mret (fd, tmpl) else
      let tail := drop (n - 6) tmpl in
      if negb (forallb (Z.eqb 88) tail) then fd ← fail_with EINVAL; mret (fd, tmpl) else
      mkstemp_try 4096 (take (n - 6) tmpl) tail
  end.

(** ** stat *)

(** The answer and what was stored to [st], if anything. *)
Definition vfs_stat_path (path0 : option (list Z)) (st : bool) : V (Z * option (list Z)) :=
  match path0, st with
  | Some path0, true =>
      path ← resolve_here path0;
      '(kind, stored) ← kind_of path;
      let size := default 0 stored in
      let kind := if (kind =? 2) && (nurl_initfs_size arch =? 0) then 0 else kind in
      if negb (kind =? 0) then mret (0, Some (vfs_fill_stat (kind =? 2) size)) else
      there ← disk_says nurl_disk_exists path;
      if (there : bool) then
        is_dir ← (if linked (nurl_disk_is_dir (D := D)) then
                    r ← disk_call ((fun f => f path) <$> nurl_disk_is_dir); mret (r =? 1) else mret false);
        sz ← (if negb is_dir && linked (nurl_disk_stat_size (D := D)) then
                disk_call ((fun f => f path) <$> nurl_disk_stat_size) else mret 0);
        mret (0, Some (vfs_fill_stat is_dir (if sz <? 0 then 0 else sz)))
      else mret (-2, None)
  | _, _ => mret (-14, None)
  end.

Definition vfs_fstat_fd (fd : Z) (st : bool) : V (Z * option (list Z)) :=
  if negb st then mret (-14, None) else
  dir ← ifsdir_is_fd fd;
  if (dir : bool) then mret (0, Some (vfs_fill_stat true 0)) else
  i ← ifs_fd fd;
  if (i : bool) then
    cur ← ifs_ret (ifs_lseek fd 0 1);
    size ← ifs_ret (ifs_lseek fd 0 2);
    ifs_ret (ifs_lseek fd cur 0);;
    mret (0, Some (vfs_fill_stat false (if size <? 0 then 0 else size)))
  else if disk_is_fd fd && linked (nurl_disk_size (D := D)) then
    sz ← disk_call ((fun f => f (fd - VFS_DISK_FD_BASE)) <$> nurl_disk_size);
    mret (0, Some (vfs_fill_stat false (if sz <? 0 then 0 else sz)))
  else if is_std fd then
    mret (0, Some (put_at 56 (vfs_put_u64 1024) (put_at 24 (vfs_put_u32 (Z.lor 8192 400)) (replicate 144 0))))
  else mret (-9, None).

(** [vfs_syscall] of the descriptor calls; the fuel is that of the listing. *)
Definition vfs_getdents (fuel : nat) (fd len : Z) : V (Z * list Z) :=
  dir ← ifsdir_is_fd fd;
  if (dir : bool) then vfs_ifs_getdents fuel fd len else vfs_getdents64 fd len.

(** ** [write], [read], [close] and [lseek] of the platform *)

Definition console_put (buf : list Z) : V unit := put_state (fun s => set_console (v_console s ++ buf) s).

Definition write (fd : Z) (buf : list Z) : V Z :=
  file ← fs_is_file_fd fd;
  if (file : bool) then fs_write_fd fd buf else
  t ← vfs_std_of fd;
  if is_std fd && (0 <=? t) then fs_write_fd t buf
  else console_put buf;; mret (Z.of_nat (length buf)).

Definition read (fd n : Z) : V (Z * list Z) :=
  file ← fs_is_file_fd fd;
  if (file : bool) then fs_read_fd fd n else
  t ← vfs_std_of fd;
  if is_std fd && (0 <=? t) then fs_read_fd t n else mret (0, []).

Definition close (fd : Z) : V Z :=
  saved ← vfs_close_saved fd;
  if (saved : bool) then mret 0 else
  target ← vfs_is_std_target fd;
  if (target : bool) then mret 0 else
  file ← fs_is_file_fd fd;
  if (file : bool) then fs_close_fd fd else mret 0.

Definition lseek (fd off whence : Z) : V Z :=
  file ← fs_is_file_fd fd;
  if (file : bool) then fs_lseek_fd fd off whence else mret (-1).

(** The state at boot. *)
Definition vfs_start (d : D) : vfs D :=
  MkVfs ifs_start d (replicate VFS_IFSDIR_MAX (MkDir [] 0 false 0 false)) [-1; -1; -1] [false; false; false]
    (replicate VFS_SAVED_MAX (MkSaved false 0 false)) [ch_slash] 0 [].
End vfs.
