(* ===== verification/VfsPath.v ===== *)
(** Path resolution of the file surface: what [vfs_resolve] answers, and that
    it agrees with the archive's own normaliser. *)

From S2P Require Import Prelude StateMonad InitFs Vfs.

(** ** The folding loop *)

Definition rooted (stack : list (list Z)) : list Z := ch_slash :: join stack.

(** [pop_back] steps over what is not a slash. *)
Lemma pop_back_over buf k n :
  (1 <= k <= n)%nat -> (n <= length buf)%nat -> (forall i, (k <= i < n)%nat -> buf !!! i <> ch_slash) ->
  pop_back buf n = pop_back buf k.
Proof.
  intros Hk Hn H. induction n as [|n IH]; [lia|]. destruct (decide (k = S n)) as [->|]; [done|].
  cbn [pop_back]. destruct (Nat.ltb_spec 1 (S n)); [|lia].
  destruct (Z.eqb_spec (buf !!! n) ch_slash) as [E|E]; [by apply (H n) in E; [|lia]|].
  simpl. apply IH; [lia|lia|]. intros i Hi. apply H. lia.
Qed.

Lemma pop_component_rooted stack :
  Forall is_seg stack -> pop_component (rooted stack) = rooted (take (length stack - 1) stack).
Proof.
  intros Hst. unfold pop_component. destruct stack as [|s st _] using rev_ind; [done|].
  apply Forall_app in Hst as [Hst Hs]. apply Forall_cons in Hs as [[_ Hs] _].
  rewrite length_app. cbn [length]. rewrite Nat.add_sub, take_app_length.
  destruct (decide (st = [])) as [->|Hne].
  - unfold rooted. simpl join. rewrite (pop_back_over _ 1); [done|simpl; lia|done|].
    intros i Hi. simpl in Hi. rewrite lookup_total_cons_ne_0 by lia.
    rewrite Forall_lookup in Hs. destruct (lookup_lt_is_Some_2 s (Nat.pred i)) as [c Hc]; [lia|].
    rewrite (list_lookup_total_correct _ _ _ Hc). by apply (Hs _ _ Hc).
  - unfold rooted. rewrite join_snoc by done. set (J := join st).
    replace (ch_slash :: J ++ ch_slash :: s) with ((ch_slash :: J) ++ ch_slash :: s) by done.
    set (P := ch_slash :: J). rewrite (pop_back_over _ (S (length P))).
    + cbn [pop_back]. destruct (Nat.ltb_spec 1 (S (length P))); [|unfold P in *; simpl in *; lia].
      rewrite list_lookup_total_middle by done. rewrite Z.eqb_refl. simpl.
      unfold P. by rewrite take_app_length.
    + unfold P. simpl. rewrite length_app. simpl. lia.
    + done.
    + intros i Hi. rewrite length_app in Hi. simpl in Hi.
      rewrite lookup_total_app_r by (unfold P in *; simpl in *; lia).
      rewrite lookup_total_cons_ne_0 by (unfold P in *; simpl in *; lia).
      rewrite Forall_lookup in Hs. destruct (lookup_lt_is_Some_2 s (Nat.pred (i - length P))) as [c Hc]; [unfold P in *; simpl in *; lia|].
      rewrite (list_lookup_total_correct _ _ _ Hc). by apply (Hs _ _ Hc).
Qed.

(** A component is put behind the others. *)
Lemma put_component stack seg cap :
  Forall is_seg stack -> (length (rooted stack) + 1 + length seg < cap)%nat ->
  let buf := rooted stack in
  let buf := if (1 <? length buf)%nat && (length buf + 1 <? cap)%nat then buf ++ [ch_slash] else buf in
  buf ++ take (cap - 1 - length buf) seg = rooted (stack ++ [seg]).
Proof.
  intros Hst Hroom. cbv zeta. unfold rooted in *. cbn [length] in *.
  destruct (decide (stack = [])) as [->|Hne].
  - simpl. by rewrite take_ge by (simpl in *; lia).
  - assert (join stack <> []) by (intros Hj; apply Hne, join_nil; done).
    assert (0 < length (join stack))%nat by (destruct (join stack); [done|simpl; lia]).
    destruct (Nat.ltb_spec 1 (S (length (join stack)))); [|lia].
    destruct (Nat.ltb_spec (S (length (join stack)) + 1) cap); [|lia]. cbn [andb].
    rewrite take_ge by (rewrite !length_app; simpl; lia). rewrite join_snoc by done. simpl. by rewrite <- app_assoc.
Qed.

(** With room for all of the path, the loop folds its pieces. *)
Lemma fold_loop_spec fuel p stack cap :
  Forall (fun c => c <> 0) p -> (length p < fuel)%nat -> Forall is_seg stack ->
  (length (rooted stack) + (if decide (stack = [] \/ p = [] \/ hd0 p = ch_slash) then 0 else 1) + length p < cap)%nat ->
  fold_loop fuel p (rooted stack) cap = Some (rooted (foldl resolve stack (pieces p))) /\
  Forall is_seg (foldl resolve stack (pieces p)).
Proof.
  revert p stack. induction fuel as [|fuel IH]; intros p stack Hp Hf Hst Hroom; [lia|].
  cbn [fold_loop]. rewrite (pieces_slashes resolve) by done. pose proof (drop_slashes_spec p Hp) as (Hq & Hqh & Hql).
  assert (Hpq : hd0 p = ch_slash -> (length (drop_slashes p) < length p)%nat).
  { destruct p as [|c p']; [done|]. cbn [hd0 drop_slashes]. intros ->. rewrite Z.eqb_refl.
    apply Forall_cons in Hp as [_ Hp']. pose proof (drop_slashes_spec p' Hp') as (_ & _ & ?). simpl. lia. }
  set (q := drop_slashes p) in *.
  destruct q as [|c q'] eqn:Eq; [by rewrite <- Eq in *; rewrite Eq|]. rewrite <- Eq in *.
  assert (Hq0 : hd0 q <> 0) by (rewrite Eq in *; by apply Forall_cons in Hq as [? _]).
  destruct (Z.eqb_spec (hd0 q) 0); [done|].
  pose proof (segment_spec q Hq Hqh ltac:(by rewrite Eq)) as Hs.
  destruct (segment q) as [seg rest]. destruct Hs as (Hseg & Hs3 & Hs4 & Hrest & Hs5).
  pose proof Hseg as [Hs1 Hs2]. rewrite (Hs5 _ resolve) by done.
  assert (Hlen : length q = (length seg + length rest)%nat) by (rewrite Hs3; apply length_app).
  assert (Hsg : (0 < length seg)%nat) by (destruct seg; [done|simpl; lia]).
  assert (Hqpos : (0 < length q)%nat) by (rewrite Eq; simpl; lia).
  assert (Hle : (length q + (if decide (stack = []) then 0 else 1) <= length p + (if decide (stack = [] \/ p = [] \/ hd0 p = ch_slash) then 0 else 1))%nat).
  { destruct (decide (stack = [])) as [|Hn]; [rewrite decide_True by tauto; lia|].
    case_decide as Hd; [|lia]. destruct Hd as [?|[Hh|Hh]]; [done|rewrite Hh in Hql; simpl in Hql; lia|apply Hpq in Hh; lia]. }
  assert (Hnext : forall st, (length (rooted st) + length rest < cap)%nat ->
    (length (rooted st) + (if decide (st = [] \/ rest = [] \/ hd0 rest = ch_slash) then 0 else 1) + length rest < cap)%nat).
  { intros st Hl. rewrite decide_True by tauto. lia. }
  unfold resolve at 2 4. rewrite (decide_False (P := seg = [])) by done.
  destruct (decide (seg = [ch_dot])) as [Hd|Hd]; [apply IH; [done|lia|done|apply Hnext; lia]|].
  destruct (decide (seg = [ch_dot; ch_dot])) as [Hdd|Hdd].
  - rewrite pop_component_rooted by done.
    assert (Hpop : (length (rooted (take (length stack - 1) stack)) <= length (rooted stack))%nat).
    { rewrite <- pop_component_rooted by done. unfold pop_component. rewrite length_take. lia. }
    apply IH; [done|lia|by apply Forall_take|apply Hnext; lia].
  - pose proof (put_component stack seg cap Hst) as Hput. cbv zeta in *.
    assert (Hroom2 : (length (rooted (stack ++ [seg])) <= length (rooted stack) + (if decide (stack = []) then 0 else 1) + length seg)%nat).
    { unfold rooted. case_decide as Hn; [subst stack; simpl; lia|]. rewrite join_snoc by done. simpl. rewrite length_app. simpl. lia. }
    destruct (decide (stack = [])) as [->|Hne].
    + simpl. rewrite take_ge by (simpl in *; lia).
      apply (IH rest [seg]); [done|lia|by repeat constructor|apply Hnext; simpl in *; lia].
    + rewrite Hput by lia.
      apply IH; [done|lia|apply Forall_app; split; [done|by repeat constructor]|apply Hnext; lia].
Qed.

(** Whatever the lengths, the loop ends, and what it wrote leaves a byte of
    the buffer for the terminator. *)
Lemma fold_loop_bound fuel p buf cap :
  Forall (fun c => c <> 0) p -> (length p < fuel)%nat -> (1 <= length buf < cap)%nat -> hd0 buf = ch_slash ->
  Forall (fun c => c <> 0) buf ->
  exists buf', fold_loop fuel p buf cap = Some buf' /\ (1 <= length buf' < cap)%nat /\ hd0 buf' = ch_slash /\
    Forall (fun c => c <> 0) buf'.
Proof.
  revert p buf. induction fuel as [|fuel IH]; intros p buf Hp Hf Hb Hh Hz; [lia|]. cbn [fold_loop].
  pose proof (drop_slashes_spec p Hp) as (Hq & Hqh & Hql). set (q := drop_slashes p) in *.
  destruct (Z.eqb_spec (hd0 q) 0) as [E|E]; [by exists buf|].
  assert (Hne : q <> []) by (intros Hn; by rewrite Hn in E).
  pose proof (segment_spec q Hq Hqh Hne) as Hs. destruct (segment q) as [seg rest].
  destruct Hs as ([Hs1 Hsz] & Hs3 & Hs4 & _).
  assert (Hzs : Forall (fun c => c <> 0) seg) by (eapply Forall_impl; [exact Hsz|]; by intros c [? _]).
  assert (length q = (length seg + length rest)%nat) by (rewrite Hs3; apply length_app).
  assert (0 < length seg)%nat by (destruct seg; [done|simpl; lia]).
  destruct (decide _); [by apply IH; [done|lia|..]|].
  assert (Hhd : forall l, hd0 (buf ++ l) = ch_slash) by (intros l; by destruct buf; [simpl in Hb; lia|]).
  destruct (decide _).
  - unfold pop_component. set (k := pop_back buf (length buf)).
    assert (1 <= k)%nat.
    { unfold k. clear -Hb. induction (length buf) as [|j IHj] in Hb |- *; [lia|]. cbn [pop_back].
      destruct (Nat.ltb_spec 1 (S j)); [|simpl; lia]. destruct (negb _); [|simpl; lia]. simpl. apply IHj. lia. }
    set (m := if (1 <? k)%nat then (k - 1)%nat else k). assert (1 <= m)%nat by (unfold m; destruct (Nat.ltb_spec 1 k); lia).
    apply IH; [done|lia|rewrite length_take; lia| |by apply Forall_take].
    destruct buf as [|c buf]; [simpl in Hb; lia|]. by destruct m; [lia|].
  - destruct (Nat.ltb_spec 1 (length buf)); destruct (Nat.ltb_spec (length buf + 1) cap); cbn [andb];
      (apply IH; [done|lia|rewrite !length_app, length_take; simpl; rewrite ?length_app; simpl; lia|rewrite <- ?app_assoc; apply Hhd|]);
      repeat apply Forall_app_2; try done; try (by apply Forall_take); by repeat constructor.
Qed.

(** ** Pieces of a joined path *)

Lemma pieces_app a b : pieces (a ++ ch_slash :: b) = pieces a ++ pieces b.
Proof.
  induction a as [|c a IH]; [done|]. cbn [app pieces]. rewrite IH.
  destruct (c =? ch_slash); [done|]. pose proof (pieces_ne a). by destruct (pieces a).
Qed.

(** A component that is kept as it is. *)
Definition plain (s : list Z) : Prop := is_seg s /\ s <> [ch_dot] /\ s <> [ch_dot; ch_dot].

Lemma resolve_plain stack s : plain s -> resolve stack s = stack ++ [s].
Proof. intros ([Hs _] & Hd & Hdd). unfold resolve. by rewrite !decide_False by done. Qed.

Lemma pieces_no_nul p : Forall (fun c => c <> 0) p -> Forall (fun s => s = [] \/ is_seg s) (pieces p).
Proof.
  induction 1 as [|c p Hc Hp IH]; [by repeat constructor|]. cbn [pieces].
  destruct (Z.eqb_spec c ch_slash); [constructor; [by left|done]|].
  pose proof (pieces_ne p). destruct (pieces p) as [|s l]; [done|].
  apply Forall_cons in IH as [Hs Hl]. constructor; [|done]. right. split; [done|].
  constructor; [done|]. destruct Hs as [->|[_ ?]]; [constructor|done].
Qed.

Lemma foldl_plain l stack :
  Forall (fun s => s = [] \/ is_seg s) l -> Forall plain stack -> Forall plain (foldl resolve stack l).
Proof.
  revert stack. induction l as [|s l IH]; intros stack Hl Hst; [done|]. apply Forall_cons in Hl as [Hs Hl].
  cbn [foldl]. apply IH; [done|]. unfold resolve. repeat case_decide; try done; [by apply Forall_take|].
  apply Forall_app. split; [done|]. repeat constructor; try done; by destruct Hs as [?|[? ?]].
Qed.

Lemma join_fold stack acc : Forall plain stack -> foldl resolve acc (pieces (join stack)) = acc ++ stack.
Proof.
  intros Hst. revert acc. induction Hst as [|s stack Hs Hst IH]; intros acc; [by rewrite app_nil_r|].
  pose proof Hs as ([_ Hseg] & _). cbn [join]. destruct stack as [|s2 stack].
  - rewrite pieces_seg by done. cbn [foldl]. by apply resolve_plain.
  - rewrite pieces_app, foldl_app, (pieces_seg s) by done. cbn [foldl].
    rewrite resolve_plain, IH by done. by rewrite <- app_assoc.
Qed.

(** A resolved path is the normal form of itself. *)
Lemma norm_rooted stack : Forall plain stack -> norm_path (rooted stack) = stack.
Proof.
  intros Hst. unfold norm_path, rooted. change (ch_slash :: join stack) with ([] ++ ch_slash :: join stack).
  rewrite pieces_app, foldl_app. by apply (join_fold stack []).
Qed.

Lemma plain_seg stack : Forall plain stack -> Forall is_seg stack.
Proof. intros H. eapply Forall_impl; [exact H|]. by intros s [? _]. Qed.

Lemma join_no_nul stack : Forall is_seg stack -> Forall (fun c => c <> 0) (join stack).
Proof.
  induction 1 as [|s stack [_ Hs] H IH]; [constructor|].
  assert (Forall (fun c => c <> 0) s) by (eapply Forall_impl; [exact Hs|]; by intros c [? _]).
  cbn [join]. destruct stack; [done|]. apply Forall_app. split; [done|]. by constructor.
Qed.

(** ** The source path *)

Definition no_nul (p : list Z) : Prop := Forall (fun c => c <> 0) p.

(** The components [path] stands for in the working directory [cwd]. *)
Definition here (cwd path : list Z) : list (list Z) :=
  foldl resolve (if hd0 path =? ch_slash then [] else norm_path cwd) (pieces path).

Lemma resolve_src_spec cwd path :
  no_nul cwd -> no_nul path -> (length cwd + length path < 1000)%nat ->
  norm_path (resolve_src cwd path) = here cwd path /\ no_nul (resolve_src cwd path) /\
  (length (resolve_src cwd path) <= length cwd + length path + 1)%nat.
Proof.
  intros Hc Hp Hl. unfold resolve_src, here. destruct (Z.eqb_spec (hd0 path) ch_slash); [split; [done|split; [done|lia]]|].
  rewrite (take_ge cwd) by lia.
  destruct cwd as [|c cwd _] using rev_ind.
  { cbn [last]. rewrite take_ge by (simpl in *; lia). split; [|split; [by constructor|simpl; lia]].
    unfold norm_path. change ([ch_slash] ++ path) with ([] ++ ch_slash :: path). by rewrite pieces_app. }
  rewrite last_snoc. rewrite length_app in Hl. cbn [length] in Hl.
  assert (Hfold : norm_path ((cwd ++ [c]) ++ ch_slash :: path) = foldl resolve (norm_path (cwd ++ [c])) (pieces path)).
  { unfold norm_path. by rewrite pieces_app, foldl_app. }
  destruct (Z.eqb_spec c ch_slash) as [->|].
  - rewrite take_ge by (rewrite !length_app; simpl; lia). rewrite <- app_assoc. split; [|split].
    + unfold norm_path. simpl ([ch_slash] ++ path). by rewrite !pieces_app, !foldl_app.
    + apply Forall_app in Hc as [Hc ?]. apply Forall_app. split; [done|]. by constructor.
    + rewrite !length_app. simpl. lia.
  - rewrite take_ge by (rewrite !length_app; simpl; lia). rewrite <- app_assoc. simpl ([ch_slash] ++ path).
    split; [done|]. split; [apply Forall_app; split; [done|by constructor]|rewrite !length_app; simpl; lia].
Qed.

Lemma resolve_src_no_nul cwd path : no_nul cwd -> no_nul path -> no_nul (resolve_src cwd path).
Proof.
  intros Hc Hp. unfold resolve_src. destruct (_ =? _); [done|].
  apply Forall_app. split; [|by apply Forall_take].
  destruct (last _) as [c|]; [|by repeat constructor]. destruct (_ =? _); [by apply Forall_take|].
  apply Forall_app. split; [by apply Forall_take|by repeat constructor].
Qed.

(** The resolved path is hardly longer than its source. *)
Lemma rooted_short p : no_nul p -> (length (rooted (norm_path p)) <= length p + 1)%nat.
Proof.
  intros Hp. destruct (fold_loop_spec (S (length p)) p [] (length p + 2)) as [Hspec _];
    [done|lia|constructor|rewrite decide_True by (by left); change (length (rooted [])) with 1%nat; lia|].
  destruct (fold_loop_bound (S (length p)) p [ch_slash] (length p + 2)) as (full & Hf & Hl & _); [done|lia|simpl; lia|done|by repeat constructor|].
  change (rooted []) with [ch_slash] in Hspec. rewrite Hf in Hspec. injection Hspec as ->. unfold norm_path. lia.
Qed.

(** With room for the directory and the path, the answer is the folded list of
    components. *)
Lemma vfs_resolve_value cwd path :
  no_nul cwd -> no_nul path -> (length cwd + length path + 3 < VFS_CWD_MAX)%nat ->
  vfs_resolve cwd path VFS_CWD_MAX = Some (rooted (here cwd path)) /\ Forall plain (here cwd path) /\
  (length (rooted (here cwd path)) <= length cwd + length path + 2)%nat.
Proof.
  intros Hc Hp Hfit. pose proof (resolve_src_no_nul cwd path Hc Hp) as Hs.
  destruct (resolve_src_spec cwd path Hc Hp) as (Hn & _ & Hlen); [unfold VFS_CWD_MAX in *; lia|].
  pose proof (rooted_short _ Hs) as Hshort. rewrite Hn in Hshort.
  destruct (fold_loop_spec (S (length (resolve_src cwd path))) (resolve_src cwd path) [] VFS_CWD_MAX) as [Hspec _];
    [done|lia|constructor|rewrite decide_True by (by left); change (length (rooted [])) with 1%nat; lia|].
  change (rooted []) with [ch_slash] in Hspec. fold (norm_path (resolve_src cwd path)) in Hspec. rewrite Hn in Hspec.
  split; [done|]. split; [|lia]. rewrite <- Hn. apply foldl_plain; [by apply pieces_no_nul|constructor].
Qed.

(** C27: a path resolved against the working directory.  The loop ends, the
    answer is absolute and fits the 512-byte buffer with its terminator whatever
    the lengths; when the directory and the path together are shorter than 509
    characters, it is the slash-joined list of the path's components folded from the directory's, which is its own normal
    form (resolving it again, from any directory, gives it back, and the
    archive's normaliser reads the same components from it). *)
Theorem vfs_resolve_refines cwd path :
  no_nul cwd -> no_nul path ->
  exists full, vfs_resolve cwd path VFS_CWD_MAX = Some full /\
    hd0 full = ch_slash /\ (length full < VFS_CWD_MAX)%nat /\
    ((length cwd + length path + 3 < VFS_CWD_MAX)%nat ->
     full = rooted (here cwd path) /\ norm_path full = here cwd path /\
     forall cwd', vfs_resolve cwd' full VFS_CWD_MAX = Some full).
Proof.
  intros Hc Hp. pose proof (resolve_src_no_nul cwd path Hc Hp) as Hs.
  destruct (fold_loop_bound (S (length (resolve_src cwd path))) (resolve_src cwd path) [ch_slash] VFS_CWD_MAX)
    as (full & Hf & Hl & Hh & _); [done|lia|unfold VFS_CWD_MAX; simpl; lia|done|by repeat constructor|].
  exists full. split; [done|]. split; [done|]. split; [lia|]. intros Hfit.
  destruct (vfs_resolve_value cwd path Hc Hp Hfit) as (Hspec & Hplain & Hshort).
  unfold vfs_resolve in Hspec. rewrite Hf in Hspec. injection Hspec as ->.
  split; [done|]. split; [by apply norm_rooted|].
  intros cwd'. unfold vfs_resolve, resolve_src. rewrite Hh, Z.eqb_refl.
  destruct (fold_loop_spec (S (length (rooted (here cwd path)))) (rooted (here cwd path)) [] VFS_CWD_MAX) as [Hspec _].
  - constructor; [done|]. by apply join_no_nul, plain_seg.
  - lia.
  - constructor.
  - rewrite decide_True by (by left). change (length (rooted [])) with 1%nat. lia.
  - change (rooted []) with [ch_slash] in Hspec. fold (norm_path (rooted (here cwd path))) in Hspec.
    by rewrite norm_rooted in Hspec.
Qed.

(** [a/../b/./c] in [/d]. *)
Lemma vfs_resolve_refines_witness :
  vfs_resolve [47; 100] [97; 47; 46; 46; 47; 98; 47; 46; 47; 99] VFS_CWD_MAX = Some [47; 100; 47; 98; 47; 99].
Proof.
  destruct (vfs_resolve_refines [47; 100] [97; 47; 46; 46; 47; 98; 47; 46; 47; 99]) as (full & Hf & _ & _ & Hfit);
    [repeat constructor; lia|repeat constructor; lia|].
  destruct Hfit as (-> & _ & _); [unfold VFS_CWD_MAX; simpl; lia|]. exact Hf.
Defined.

(** Longer ones are cut: the component [b] finds no room behind 510 characters,
    so the [..] behind it takes the long one away. *)
Example resolve_cut :
  vfs_resolve [47] (47 :: replicate 510 120 ++ [47; 98; 47; 46; 46]) VFS_CWD_MAX = Some [47] /\
  here [47] (47 :: replicate 510 120 ++ [47; 98; 47; 46; 46]) = [replicate 510 120].
Proof. split; vm_compute; reflexivity. Qed.
