(* ===== verification/VfsDisk.v ===== *)
(** The contract of the disk layer, and a disk in memory that keeps it: the
    instance of [Disk] the concrete runs of the file surface use. *)

From S2P Require Import Prelude StateMonad InitFs Vfs VfsPath.

(** ** The contract of the disk layer *)

(** All of it is linked or nothing is asked of it; a read stores no more than
    was asked for and as much as it says; a name fits the buffer it is for. *)
Class DiskLaws (D : Type) `{!Disk D} := {
  disk_whole : is_Some (nurl_disk_ready (D := D)) ->
    is_Some (nurl_disk_open (D := D)) /\ is_Some (nurl_disk_opendir (D := D)) /\ is_Some (nurl_disk_close (D := D));
  disk_read_len f h n d r b d' : nurl_disk_read (D := D) = Some f -> f h n d = ((r, b), d') -> 0 <= n -> 0 <= r ->
    Z.of_nat (length b) = r /\ r <= n;
  disk_name_len f h cap d r b d' : nurl_disk_readdir_name (D := D) = Some f -> f h cap d = ((r, b), d') -> 0 < r ->
    Z.of_nat (length b) = r /\ r < cap /\ no_nul b;
  (* a directory ends: how many names a handle still has *)
  disk_left : Z -> D -> nat;
  disk_left_name f h cap d r b d' : nurl_disk_readdir_name (D := D) = Some f -> f h cap d = ((r, b), d') -> 0 < r ->
    (disk_left h d' < disk_left h d)%nat;
  disk_left_flag f h d r d' : nurl_disk_dirent_is_dir (D := D) = Some f -> f d = (r, d') ->
    (disk_left h d' <= disk_left h d)%nat
}.

#[export] Instance no_disk_laws : @DiskLaws unit no_disk.
Proof. refine (@Build_DiskLaws unit no_disk _ _ _ (fun _ _ => O) _ _); [intros [? ?]; done|done..]. Qed.

(** ** A disk in memory *)

Record memdisk := MemDisk {
  md_files : list (list Z * list Z);     (* path, contents; the handle is the place *)
  md_pos : list Z;                       (* -1 for a file that is not open *)
  md_names : list (list Z * bool);       (* what the open directory has left *)
  md_is_dir : bool                       (* the flag of the last name *)
}.

Definition md_find (path : list Z) (d : memdisk) : option nat :=
  fst <$> list_find (fun f => f.1 = path) (md_files d).

Definition md_open (path : list Z) (flags : Z) (d : memdisk) : Z * memdisk :=
  match md_find path d with
  | Some i =>
      if has flags VFS_O_EXCL then (- EEXIST, d)
      else (Z.of_nat i, MemDisk (md_files d) (<[i := 0]> (md_pos d)) (md_names d) (md_is_dir d))
  | None =>
      if has flags VFS_O_CREAT && (length (md_files d) <? 60)%nat then
        (Z.of_nat (length (md_files d)), MemDisk (md_files d ++ [(path, [])]) (md_pos d ++ [0]) (md_names d) (md_is_dir d))
      else (- ENOENT, d)
  end.

Definition md_slot (h : Z) (d : memdisk) : option (nat * list Z * list Z * Z) :=
  if h <? 0 then None else
  f ← md_files d !! Z.to_nat h; p ← md_pos d !! Z.to_nat h;
  if p <? 0 then None else Some (Z.to_nat h, f.1, f.2, p).

Definition md_read (h n : Z) (d : memdisk) : (Z * list Z) * memdisk :=
  match md_slot h d with
  | Some (i, _, bytes, p) =>
      let b := take (Z.to_nat n) (drop (Z.to_nat p) bytes) in
      ((Z.of_nat (length b), b), MemDisk (md_files d) (<[i := p + Z.of_nat (length b)]> (md_pos d)) (md_names d) (md_is_dir d))
  | None => ((- EBADF, []), d)
  end.

Definition md_write (h : Z) (buf : list Z) (d : memdisk) : Z * memdisk :=
  match md_slot h d with
  | Some (i, path, bytes, p) =>
      (Z.of_nat (length buf),
       MemDisk (<[i := (path, take (Z.to_nat p) bytes ++ buf ++ drop (Z.to_nat p + length buf) bytes)]> (md_files d))
         (<[i := p + Z.of_nat (length buf)]> (md_pos d)) (md_names d) (md_is_dir d))
  | None => (- EBADF, d)
  end.

Definition md_lseek (h off whence : Z) (d : memdisk) : Z * memdisk :=
  match md_slot h d with
  | Some (i, _, bytes, p) =>
      let q := off + (if whence =? 0 then 0 else if whence =? 1 then p else Z.of_nat (length bytes)) in
      if q <? 0 then (- EINVAL, d)
      else (q, MemDisk (md_files d) (<[i := q]> (md_pos d)) (md_names d) (md_is_dir d))
  | None => (- EBADF, d)
  end.

Definition md_close (h : Z) (d : memdisk) : Z * memdisk :=
  match md_slot h d with
  | Some (i, _, _, _) => (0, MemDisk (md_files d) (<[i := -1]> (md_pos d)) (md_names d) (md_is_dir d))
  | None => (- EBADF, d)
  end.

Definition md_opendir (path : list Z) (d : memdisk) : Z * memdisk :=
  if decide (path = [ch_slash]) then
    (63, MemDisk (md_files d) (md_pos d) (((fun f => (tail f.1, false)) <$> md_files d)) (md_is_dir d))
  else (- ENOENT, d).

Definition md_readdir (h cap : Z) (d : memdisk) : (Z * list Z) * memdisk :=
  match md_names d with
  | [] => ((0, []), d)
  | (name, flag) :: rest =>
      let name := cstr name in
      if (0 <? Z.of_nat (length name)) && (Z.of_nat (length name) <? cap)
      then ((Z.of_nat (length name), name), MemDisk (md_files d) (md_pos d) rest flag)
      else ((-1, []), d)
  end.

Definition md_exists (path : list Z) (d : memdisk) : Z * memdisk := (if md_find path d is Some _ then 1 else 0, d).

#[export] Instance mem_disk : Disk memdisk := {|
  nurl_disk_ready := Some (fun d => (1, d));
  nurl_disk_writable := Some (fun d => (1, d));
  nurl_disk_open := Some md_open;
  nurl_disk_read := Some md_read;
  nurl_disk_write := Some md_write;
  nurl_disk_lseek := Some md_lseek;
  nurl_disk_close := Some md_close;
  nurl_disk_size := None;
  nurl_disk_fsync := None;
  nurl_disk_sync := Some (fun d => (0, d));
  nurl_disk_exists := Some md_exists;
  nurl_disk_is_dir := Some (fun p d => (if decide (p = [ch_slash]) then 1 else 0, d));
  nurl_disk_stat_size := None;
  nurl_disk_unlink := None;
  nurl_disk_rename := None;
  nurl_disk_mkdir := None;
  nurl_disk_rmdir := None;
  nurl_disk_truncate := None;
  nurl_disk_ftruncate := None;
  nurl_disk_opendir := Some md_opendir;
  nurl_disk_readdir_name := Some md_readdir;
  nurl_disk_dirent_is_dir := Some (fun d => (if md_is_dir d then 1 else 0, d));
  nurl_disk_closedir := Some (fun h d => (0, d))
|}.

Lemma cstr_no_nul p : no_nul (cstr p).
Proof. induction p as [|c p IH]; [constructor|]. cbn [cstr]. destruct (Z.eqb_spec c 0); by constructor. Qed.

Lemma md_readdir_spec h cap d r b d' :
  md_readdir h cap d = ((r, b), d') -> 0 < r ->
  Z.of_nat (length b) = r /\ r < cap /\ no_nul b /\ (length (md_names d') < length (md_names d))%nat.
Proof.
  unfold md_readdir. destruct (md_names d) as [|[name flag] rest]; [intros [= <- <- <-]; lia|]. cbv zeta.
  destruct (_ && _) eqn:E; intros [= <- <- <-]; [|lia]. intros _. apply andb_prop in E as [_ E].
  split; [done|]. split; [lia|]. split; [apply cstr_no_nul|]. simpl. lia.
Qed.

#[export] Instance mem_disk_laws : DiskLaws memdisk.
Proof.
  refine (@Build_DiskLaws memdisk mem_disk _ _ _ (fun _ d => length (md_names d)) _ _).
  - intros _. cbn. eauto.
  - intros f h n d r b d' [= <-]. unfold md_read. destruct (md_slot h d) as [[[[i q] bytes] p]|]; intros [= <- <- <-]; [|done].
    intros Hn _. split; [done|]. rewrite length_take. lia.
  - intros f h cap d r b d' [= <-] E Hr. destruct (md_readdir_spec _ _ _ _ _ _ E Hr) as (? & ? & ? & _). done.
  - intros f h cap d r b d' [= <-] E Hr. by destruct (md_readdir_spec _ _ _ _ _ _ E Hr) as (_ & _ & _ & ?).
  - intros f h d r d' [= <-]. by intros [= <- <-].
Qed.

(** An empty disk, and one that holds the file [/b]. *)
Definition blank_disk : memdisk := MemDisk [] [] [] false.
Definition one_file : memdisk := MemDisk [([47; 98], [1; 2; 3])] [-1] [] false.
