(* ===== verification/VfsSafe.v ===== *)
(** No call of the file surface faults: for any disk layer that keeps its
    contract, every operation answers and keeps the tables in shape. *)

From S2P Require Import Prelude StateMonad InitFs Vfs VfsPath VfsDisk.

(** ** The archive, for paths of any length *)

Lemma fs_norm_dir_bound path out :
  no_nul path -> length out = 256%nat ->
  exists out' n, fs_norm_dir path out 256 = Some (out', n) /\ length out' = 256%nat /\ no_nul (take n out').
Proof.
  intros Hp Ho. destruct (fs_norm_dir_spec path out Hp Ho) as (o & n & E & (H1 & _ & _ & H4 & H5) & _).
  exists o, n. by rewrite H4.
Qed.

Section archive.
Context (arch : list Z) (arch_small : arch_len arch < 2 ^ 62).

Lemma fs_lookup_any path s :
  no_nul path -> length (folded s) = 256%nat ->
  exists buf, fs_lookup arch path s = Some (find_file (cstr buf) (all_entries arch), set_folded buf s) /\ length buf = 256%nat.
Proof.
  intros Hp Hf. destruct (fs_norm_dir_bound path (folded s) Hp Hf) as (buf & n & E & Hb & _).
  exists buf. unfold fs_lookup. rewrite E. cbn [mbind option_bind].
  rewrite walk_all by done. fold (all_entries arch). rewrite lookup_first by apply (all_entries_ok arch arch_small).
  by destruct (find_file _ _).
Qed.

(** What [ifs_open] answers, for a path of any length. *)
Lemma ifs_open_any path flags s :
  no_nul path -> ifs_inv arch s ->
  exists fd s', ifs_open arch path flags s = Some (fd, s') /\ ifs_inv arch s' /\ (fd = -1 \/ FS_FD_BASE <= fd).
Proof.
  intros Hp Hi. pose proof Hi as (H1 & H2 & H3). unfold ifs_open.
  destruct (negb (Z.land flags 3 =? 0)); [by eexists _, _; split; [done|]; split; [|left]|].
  destruct (negb (Z.land flags NL_O_DIRECTORY =? 0)); [by eexists _, _; split; [done|]; split; [|left]|].
  destruct (fs_lookup_any path s Hp H2) as (buf & -> & B1). cbn [mbind option_bind].
  pose proof (inv_folded arch buf s Hi B1) as Hi'.
  destruct (find_file _ _) as [[off size]|] eqn:Ef; [|by eexists _, _; split; [done|]; split; [|left]].
  destruct (free_slot _ 0) as [i|]; [|by eexists _, _; split; [done|]; split; [|left]].
  pose proof (find_file_ok arch _ _ _ _ (all_entries_ok arch arch_small) Ef).
  eexists _, _. split; [done|]. split; [|right; lia]. apply inv_update; [done|]. intros _. simpl. lia.
Qed.

Lemma ifs_exists_any path s :
  no_nul path -> ifs_inv arch s -> exists b s', ifs_exists arch path s = Some (b, s') /\ ifs_inv arch s'.
Proof.
  intros Hp Hi. pose proof Hi as (_ & H2 & _). destruct (fs_lookup_any path s Hp H2) as (buf & E & B1).
  unfold ifs_exists. rewrite E. cbn [mbind option_bind]. eexists _, _. split; [done|]. by apply inv_folded.
Qed.

Lemma ifs_kind_any path : no_nul path -> is_Some (ifs_kind arch path).
Proof.
  intros Hp. destruct (fs_norm_dir_bound path (replicate 256 0) Hp eq_refl) as (o & n & E & _).
  unfold ifs_kind. rewrite E. cbn [mbind option_bind]. destruct (n =? 0)%nat; [by eexists|].
  rewrite walk_all by done. destruct (first_some _ _); by eexists.
Qed.

(** The directory a path names, and its entries in the order of the archive. *)
Definition dir_of (path : list Z) : list Z :=
  match fs_norm_dir path (replicate 256 0) 256 with Some (o, n) => take n o | None => [] end.

Definition listing (path : list Z) : list (list Z * bool) := firsts [] (children (dir_of path) (all_entries arch)).

Lemma ifs_dirent_any path index cap :
  no_nul path -> 0 <= index ->
  ifs_dirent arch path index cap =
  Some (match listing path !! Z.to_nat index with Some (name, is_dir) => Some (take (cap - 1) name, is_dir) | None => None end).
Proof.
  intros Hp Hidx. unfold ifs_dirent, listing, dir_of.
  destruct (fs_norm_dir_bound path (replicate 256 0) Hp eq_refl) as (o & n & -> & Hl & Hnz). cbn [mbind option_bind].
  destruct (dirent_walk_spec arch arch_small (take n o) Hnz (walk_fuel arch) 0 [] index 0 (fuel_enough arch) eq_refl Hidx)
    as [->|E]; [|unfold walk_fuel in E; lia].
  fold (all_entries arch). rewrite Z.sub_0_r. change (children _ []).*1 with (@nil (list Z)).
  destruct (firsts [] _ !! _) as [[nm d]|]; done.
Qed.

Lemma ifs_read_any fd n s :
  ifs_inv arch s -> 0 <= n < 2 ^ 64 -> exists r b s', ifs_read arch fd n s = Some (r, b, s') /\ ifs_inv arch s'.
Proof.
  intros Hi Hn. destruct (fs_file fd s) as [[i f]|] eqn:Ef.
  - destruct (read_spec arch arch_small fd n s i f Hi Hn Ef) as (-> & _ & Hf).
    eexists _, _, _. split; [done|]. by apply inv_update.
  - unfold ifs_read. rewrite Ef. by eexists _, _, _.
Qed.

Lemma ifs_lseek_inv fd off whence s : ifs_inv arch s -> ifs_inv arch (snd (ifs_lseek fd off whence s)).
Proof.
  intros Hi. destruct (ifs_lseek fd off whence s) as [r s'] eqn:E.
  exact (step_inv arch arch_small s s' Hi (st_lseek arch fd off whence s r s' E)).
Qed.

Lemma ifs_close_inv fd s : ifs_inv arch s -> ifs_inv arch (snd (ifs_close fd s)).
Proof.
  intros Hi. destruct (ifs_close fd s) as [r s'] eqn:E.
  exact (step_inv arch arch_small s s' Hi (st_close arch fd s r s' E)).
Qed.

Lemma length_firsts seen l : (length (firsts seen l) <= length l)%nat.
Proof.
  revert seen. induction l as [|[nm d] l IH]; intros seen; cbn [firsts length]; [lia|].
  case_decide; [|cbn [length]]; [specialize (IH seen)|specialize (IH (nm :: seen))]; lia.
Qed.

Lemma length_children dir es : (length (children dir es) <= length es)%nat.
Proof.
  induction es as [|[[hdr size] p] es IH]; [done|]. unfold children. cbn [mbind list_bind]. fold (children dir es).
  rewrite length_app. unfold child_of. destruct (fs_child_of _ _). cbn [length]. destruct (_ && _); simpl; lia.
Qed.

Lemma length_entries fuel p lim : (length (entries arch fuel p lim) <= fuel)%nat.
Proof.
  revert p. induction fuel as [|f IH]; intros p; cbn [entries]; [done|].
  destruct (_ && _); [|simpl; lia]. destruct (_ =? _); [simpl; lia|]. destruct (_ <? _); [simpl; lia|].
  cbn [length]. specialize (IH (p + hdr_stride (hdr_size (header_at arch p)))). lia.
Qed.

Lemma length_listing path : (length (listing path) <= walk_fuel arch)%nat.
Proof.
  unfold listing. etrans; [apply length_firsts|]. etrans; [apply length_children|].
  exact (length_entries (walk_fuel arch) 0 (arch_len arch)).
Qed.

(** Whether the directory has the name, as the duplicate check sees names. *)
Lemma ifs_has_from_spec fuel dir name i :
  no_nul dir -> 0 <= i -> (Z.to_nat i <= length (listing dir) < fuel + Z.to_nat i)%nat ->
  ifs_has_from arch fuel dir name i =
  Some (existsb (fun e => bool_decide (cstr (take 255 e.1) = cstr name)) (drop (Z.to_nat i) (listing dir))).
Proof.
  intros Hd. revert i. induction fuel as [|f IH]; intros i Hi Hf; [lia|]. cbn [ifs_has_from].
  rewrite ifs_dirent_any by done. cbn [mbind option_bind].
  destruct (listing dir !! Z.to_nat i) as [[nm d]|] eqn:E.
  - rewrite (drop_S _ _ _ E). cbn [existsb fst]. change (256 - 1)%nat with 255%nat.
    destruct (bool_decide _); [done|]. cbn [orb]. pose proof (lookup_lt_Some _ _ _ E).
    rewrite IH by lia. by replace (Z.to_nat (i + 1)) with (S (Z.to_nat i)) by lia.
  - apply lookup_ge_None in E. by rewrite drop_ge.
Qed.

Lemma vfs_ifs_has_spec dir name :
  no_nul dir ->
  vfs_ifs_has arch dir name = Some (existsb (fun e => bool_decide (cstr (take 255 e.1) = cstr name)) (listing dir)).
Proof.
  intros Hd. unfold vfs_ifs_has. pose proof (length_listing dir).
  rewrite ifs_has_from_spec; [by rewrite drop_0|done|lia|lia].
Qed.
End archive.

Create HintDb vfs_safe.

Section safe.
Context (arch : list Z) (arch_small : arch_len arch < 2 ^ 62).
Context {D : Type} `{!Disk D, !DiskLaws D}.
Implicit Types s : vfs D.

(** A terminated path in the 256 characters of a directory handle. *)
Definition dir_path (p : list Z) : Prop := no_nul p /\ (length p < 256)%nat.

(** The tables have their sizes, the archive's handles lie in the archive, the
    working directory is an absolute path that fits its buffer. *)
Definition vfs_inv s : Prop :=
  ifs_inv arch (v_ifs s) /\
  (length (vfs_ifsdirs s) = VFS_IFSDIR_MAX /\ Forall (fun d => dir_path (d_path d) /\ 0 <= d_cursor d) (vfs_ifsdirs s)) /\
  (length (vfs_std_target s) = 3%nat /\ length (vfs_std_alias s) = 3%nat /\ length (vfs_saved s) = VFS_SAVED_MAX) /\
  (hd0 (vfs_cwd s) = ch_slash /\ (length (vfs_cwd s) < VFS_CWD_MAX)%nat /\ no_nul (vfs_cwd s)).

(** [m] answers, with [P], and keeps the invariant. *)
Definition safe_as {A} (m : ST (vfs D) A) (P : A -> Prop) : Prop :=
  forall s, vfs_inv s -> answers m s (fun x s' => P x /\ vfs_inv s').

Definition safe {A} (m : ST (vfs D) A) : Prop := safe_as m (fun _ => True).

Lemma safe_ret {A} (x : A) : safe (mret x).
Proof. intros s Hs. by apply answers_ret. Qed.

Lemma safe_ret_as {A} (x : A) (P : A -> Prop) : P x -> safe_as (mret x) P.
Proof. intros Hx s Hs. by apply answers_ret. Qed.

Lemma safe_bind_as {A B} (m : ST (vfs D) A) (k : A -> ST (vfs D) B) P Q :
  safe_as m P -> (forall x, P x -> safe_as (k x) Q) -> safe_as (m ≫= k) Q.
Proof.
  intros Hm Hk s Hs. apply answers_bind. eapply answers_mono; [by apply Hm|]. intros x s' [HP Hs']. by apply Hk.
Qed.

Lemma safe_bind {A B} (m : ST (vfs D) A) (k : A -> ST (vfs D) B) : safe m -> (forall x, safe (k x)) -> safe (m ≫= k).
Proof. intros Hm Hk. apply (safe_bind_as m k (fun _ => True)); [done|]. intros x _. apply Hk. Qed.

Lemma safe_bind_from {A B} (m : ST (vfs D) A) (k : A -> ST (vfs D) B) P :
  safe_as m P -> (forall x, P x -> safe (k x)) -> safe (m ≫= k).
Proof. apply safe_bind_as. Qed.

Lemma safe_at {A} (m : ST (vfs D) A) s : vfs_inv s -> safe m -> answers m s (fun _ s' => True /\ vfs_inv s').
Proof. intros Hs Hm. by apply Hm. Qed.

Lemma safe_weaken {A} (m : ST (vfs D) A) P : safe_as m P -> safe m.
Proof. intros Hm s Hs. eapply answers_mono; [by apply Hm|]. by intros x s' [_ ?]. Qed.

Lemma safe_get {A} (f : vfs D -> A) : safe (get_state f).
Proof. intros s Hs. by apply answers_get. Qed.

Lemma safe_put (f : vfs D -> vfs D) : (forall s, vfs_inv s -> vfs_inv (f s)) -> safe (put_state f).
Proof. intros Hf s Hs. apply answers_put. auto. Qed.

Lemma safe_of_option {A} (o : option A) : is_Some o -> safe (of_option (S := vfs D) o).
Proof. intros [x ->] s Hs. by exists x, s. Qed.

Lemma safe_on_ifs {A} (m : ifs_state -> option (A * ifs_state)) :
  (forall t, ifs_inv arch t -> exists x t', m t = Some (x, t') /\ ifs_inv arch t') -> safe (on_ifs m).
Proof.
  intros Hm s (Hi & Hs). destruct (Hm _ Hi) as (x & t' & E & Hi'). exists x, (set_ifs t' s).
  split; [unfold on_ifs, within; by rewrite E|]. split; [done|]. by split.
Qed.

Lemma safe_ifs_ret {A} (m : ifs_state -> A * ifs_state) :
  (forall t, ifs_inv arch t -> ifs_inv arch (m t).2) -> safe (ifs_ret m).
Proof. intros Hm. apply safe_on_ifs. intros t Ht. exists (m t).1, (m t).2. rewrite <- surjective_pairing. auto. Qed.

Lemma disk_call_run {A} (f : D -> A * D) s x d' :
  f (v_disk s) = (x, d') -> disk_call (Some f) s = Some (x, set_disk d' s).
Proof. intros E. unfold disk_call, within. by rewrite E. Qed.

(** A weak function that is linked may be called. *)
Lemma safe_disk_call {A} (f : option (D -> A * D)) : is_Some f -> safe (disk_call f).
Proof.
  intros [g ->] s Hs. unfold disk_call, within. destruct (g (v_disk s)) as [x d'] eqn:E.
  exists x, (set_disk d' s). by rewrite E.
Qed.

Lemma linked_some {A} (f : option A) : linked f = true -> is_Some f.
Proof. destruct f; [by eexists|done]. Qed.

Lemma safe_guarded {A B} (f : option A) (g : A -> D -> B * D) : is_Some f -> safe (disk_call (g <$> f)).
Proof. intros [h ->]. by apply safe_disk_call. Qed.

Lemma safe_set_err e : safe (set_err (D := D) e).
Proof. by apply safe_ifs_ret. Qed.

Lemma safe_fail e : safe_as (fail_with (D := D) e) (fun r => r = -1).
Proof. eapply safe_bind_as; [apply safe_set_err|]. intros _ _. by apply safe_ret_as. Qed.

Lemma safe_live : safe_as (disk_live (D := D)) (fun b => b = true -> is_Some (nurl_disk_ready (D := D))).
Proof.
  unfold disk_live. destruct nurl_disk_ready as [f|]; [|by apply safe_ret_as].
  eapply safe_bind_as; [by apply safe_disk_call|]. intros r _. apply safe_ret_as. by eexists.
Qed.

Lemma safe_has {A} (f : option A) : safe_as (disk_has (D := D) f) (fun b => b = true -> is_Some f).
Proof.
  eapply safe_bind_as; [apply (safe_weaken _ _ safe_live)|]. intros b _. apply safe_ret_as.
  intros [_ Hf]%andb_prop. by apply linked_some.
Qed.

Lemma safe_posix_ret rc : safe (posix_ret (D := D) rc).
Proof. unfold posix_ret. destruct (_ <? _); [apply (safe_weaken _ _ (safe_fail _))|apply safe_ret]. Qed.
Lemma safe_posix_ret_ll rc : safe (posix_ret_ll (D := D) rc).
Proof. unfold posix_ret_ll. destruct (_ <? _); [apply (safe_weaken _ _ (safe_fail _))|apply safe_ret]. Qed.

Lemma safe_fail' e : safe (fail_with (D := D) e).
Proof. apply (safe_weaken _ _ (safe_fail e)). Qed.

Lemma inv_std t a s i : vfs_inv s -> vfs_inv (set_std (<[i := t]> (vfs_std_target s)) (<[i := a]> (vfs_std_alias s)) s).
Proof. intros (H1 & H2 & (H3 & H4 & H5) & H6). split; [done|]. split; [done|]. split; [|done]. simpl. by rewrite !length_insert. Qed.

Lemma inv_saved x s i : vfs_inv s -> vfs_inv (set_saved (<[i := x]> (vfs_saved s)) s).
Proof. intros (H1 & H2 & (H3 & H4 & H5) & H6). split; [done|]. split; [done|]. split; [|done]. simpl. by rewrite !length_insert. Qed.

Lemma inv_dirs x s i :
  vfs_inv s -> (dir_path (d_path x) /\ 0 <= d_cursor x) -> vfs_inv (set_ifsdirs (<[i := x]> (vfs_ifsdirs s)) s).
Proof.
  intros (H1 & (H2 & H2') & H3 & H6) Hx. split; [done|]. split; [|done]. simpl. rewrite length_insert.
  split; [done|]. by apply Forall_insert.
Qed.

Lemma dir_ok s i : vfs_inv s -> dir_path (d_path (vfs_ifsdirs s !!! i)) /\ 0 <= d_cursor (vfs_ifsdirs s !!! i).
Proof.
  intros (_ & (_ & Hd) & _). rewrite list_lookup_total_alt. destruct (vfs_ifsdirs s !! i) as [d|] eqn:E.
  - rewrite Forall_lookup in Hd. by apply (Hd i).
  - simpl. split; [split; [constructor|simpl; lia]|lia].
Qed.
End safe.

#[export] Hint Resolve safe_ret safe_get safe_set_err safe_fail' safe_posix_ret safe_posix_ret_ll safe_disk_call
  safe_guarded linked_some : vfs_safe.

(** Follow the text of an operation: its binds, its tests, its guarded calls. *)
Ltac vfs_auto :=
  repeat first
    [ progress intros
    | progress cbv beta iota zeta
    | match goal with
      | H : _ && linked _ = true |- _ => apply andb_prop in H as [? ?]
      | H : linked _ = true |- _ => apply linked_some in H
      end
    | solve [auto with vfs_safe nocore]
    | apply safe_bind; [solve [auto with vfs_safe nocore]|]
    | eapply safe_bind_from; [solve [auto with vfs_safe nocore]|]
    | apply safe_bind
    | match goal with
      | |- context [match ?x with pair _ _ => _ end] => destruct x
      | |- safe _ (if ?b then _ else _) => destruct b eqn:?
      | |- safe _ (match ?x with Some _ => _ | None => _ end) => destruct x eqn:?
      end ].

Section ops.
Context (arch : list Z) (arch_small : arch_len arch < 2 ^ 62).
Context {D : Type} `{!Disk D, !DiskLaws D}.

Abbreviation safe := (safe arch (D := D)).
Abbreviation safe_as := (safe_as arch (D := D)).

Lemma safe_ifs_fd fd : safe (ifs_fd fd).
Proof. apply safe_get. Qed.
Lemma safe_has' {A} (f : option A) : safe (disk_has f).
Proof. apply (safe_weaken _ _ _ (safe_has arch f)). Qed.
Lemma safe_live' : safe disk_live.
Proof. apply (safe_weaken _ _ _ (safe_live arch)). Qed.
#[local] Hint Resolve safe_ifs_fd safe_has' safe_live' : vfs_safe.

Lemma safe_read_fd fd n : 0 <= n < 2 ^ 64 -> safe (fs_read_fd arch fd n).
Proof.
  intros Hn. unfold fs_read_fd. apply safe_bind; [auto with vfs_safe|]. intros b. destruct b.
  - apply safe_on_ifs. intros t Ht. destruct (ifs_read_any arch arch_small fd n t Ht Hn) as (r & o & t' & -> & Ht'). eauto.
  - vfs_auto.
Qed.

Lemma safe_write_fd fd buf : safe (fs_write_fd fd buf).
Proof. unfold fs_write_fd. vfs_auto. Qed.

Lemma safe_lseek_fd fd off whence : safe (fs_lseek_fd fd off whence).
Proof.
  unfold fs_lseek_fd. apply safe_bind; [auto with vfs_safe|]. intros b. destruct b; [|vfs_auto].
  apply safe_ifs_ret. intros t Ht. by apply ifs_lseek_inv.
Qed.

Lemma safe_close_fd fd : safe (fs_close_fd fd).
Proof.
  unfold fs_close_fd. intros s Hs. apply answers_bind, answers_get. destruct (ifsdir_slot fd s) as [[i d]|] eqn:E.
  - assert (Hd : dir_path (d_path d) /\ 0 <= d_cursor d).
    { unfold ifsdir_slot in E. destruct (_ || _); [done|]. destruct (vfs_ifsdirs s !! _) as [d0|] eqn:Ed; [|done].
      cbn [mbind option_bind] in E. destruct (d_used d0); [|done]. injection E as <- <-.
      pose proof Hs as (_ & (_ & HF) & _). rewrite Forall_lookup in HF. by apply (HF _ _ Ed). }
    apply safe_at; [done|]. apply safe_bind; [vfs_auto|]. intros _. apply safe_bind; [|vfs_auto]. apply safe_put. intros s' Hs'. by apply inv_dirs.
  - apply safe_at; [done|]. apply safe_bind; [auto with vfs_safe|]. intros b. destruct b; [|vfs_auto].
    apply safe_ifs_ret. intros t Ht. by apply ifs_close_inv.
Qed.

Lemma safe_file_fd fd : safe (fs_is_file_fd fd).
Proof. unfold fs_is_file_fd. vfs_auto. Qed.
#[local] Hint Resolve safe_read_fd safe_write_fd safe_lseek_fd safe_close_fd safe_file_fd : vfs_safe.

(** *** The standard descriptors *)

Lemma safe_set_std fd t a : safe (set_std_fd fd t a).
Proof. apply safe_put. intros s Hs. by apply inv_std. Qed.
Lemma safe_std_of fd : safe (vfs_std_of fd).
Proof. unfold vfs_std_of. destruct (is_std fd); [apply safe_get|apply safe_ret]. Qed.
Lemma safe_except fd skip : safe (vfs_is_std_target_except fd skip).
Proof. unfold vfs_is_std_target_except. destruct (_ <? _); [apply safe_ret|apply safe_get]. Qed.
Lemma safe_is_target fd : safe (vfs_is_std_target fd).
Proof. unfold vfs_is_std_target. destruct (_ <? _); [apply safe_ret|apply safe_get]. Qed.
#[local] Hint Resolve safe_set_std safe_std_of safe_except safe_is_target : vfs_safe.
Lemma safe_release fd : safe (vfs_std_release fd).
Proof. unfold vfs_std_release. vfs_auto. Qed.
#[local] Hint Resolve safe_release : vfs_safe.
Lemma safe_dup2 a b : safe (dup2 a b).
Proof. unfold dup2. vfs_auto. Qed.
Lemma safe_dup a : safe (dup a).
Proof. unfold dup. vfs_auto. apply safe_put. intros s Hs. by apply inv_saved. Qed.
#[local] Hint Resolve safe_dup2 safe_dup : vfs_safe.
Lemma safe_fcntl a b c : safe (fcntl a b c).
Proof. unfold fcntl. vfs_auto. Qed.
Lemma safe_flock a b : safe (flock a b).
Proof. unfold flock. vfs_auto. Qed.
Lemma safe_close_saved fd : safe (vfs_close_saved fd).
Proof. unfold vfs_close_saved. vfs_auto. apply safe_put. intros s Hs. by apply inv_saved. Qed.
#[local] Hint Resolve safe_fcntl safe_flock safe_close_saved : vfs_safe.

(** *** Paths *)

Definition resolved (p : list Z) : Prop := no_nul p /\ hd0 p = ch_slash /\ (length p < VFS_CWD_MAX)%nat.

Lemma safe_resolve path : no_nul path -> safe_as (resolve_here (D := D) path) resolved.
Proof.
  intros Hp s Hs. apply answers_bind, answers_get. pose proof Hs as (_ & _ & _ & Hc1 & Hc2 & Hc3).
  pose proof (resolve_src_no_nul _ _ Hc3 Hp) as Hn. unfold vfs_resolve.
  destruct (fold_loop_bound (S (length (resolve_src (vfs_cwd s) path))) (resolve_src (vfs_cwd s) path) [ch_slash] VFS_CWD_MAX)
    as (full & -> & Hl & Hh & Hz); [done|lia|unfold VFS_CWD_MAX; simpl; lia|done|by repeat constructor|].
  exists full, s. split; [done|]. split; [|done]. split; [done|]. split; [done|lia].
Qed.

Lemma safe_kind path : resolved path -> safe (kind_of arch (D := D) path).
Proof. intros (Hp & _). apply safe_of_option. by apply ifs_kind_any. Qed.

Lemma safe_exists_archive path : no_nul path -> safe (exists_archive arch (D := D) path).
Proof.
  intros Hp. apply safe_on_ifs. intros t Ht.
  destruct (ifs_exists_any arch arch_small path t Hp Ht) as (b & t' & -> & Ht'). eauto.
Qed.

Lemma safe_archive_open path flags : no_nul path -> safe (archive_open arch (D := D) path flags).
Proof.
  intros Hp. apply safe_on_ifs. intros t Ht.
  destruct (ifs_open_any arch arch_small path flags t Hp Ht) as (fd & t' & -> & Ht' & _). eauto.
Qed.

Lemma safe_says f path : safe (disk_says (D := D) f path).
Proof.
  unfold disk_says. eapply safe_bind_from; [apply safe_has|]. intros b Hb. destruct b; [|apply safe_ret].
  apply safe_bind; [apply safe_guarded; auto|]. intros r. apply safe_ret.
Qed.
#[local] Hint Resolve safe_resolve safe_kind safe_exists_archive safe_archive_open safe_says : vfs_safe.

Lemma safe_getcwd b n : safe (getcwd (D := D) b n).
Proof. unfold getcwd. vfs_auto. Qed.

Lemma strip_trailing_le cwd o : (strip_trailing cwd o <= o)%nat /\ ((1 <= o)%nat -> (1 <= strip_trailing cwd o)%nat).
Proof.
  induction o as [|o [IH1 IH2]]; cbn [strip_trailing]; [lia|]. destruct (Nat.ltb_spec 1 (S o)); cbn [andb]; [|lia].
  destruct (_ =? _); lia.
Qed.

Lemma safe_chdir path : (forall p, path = Some p -> no_nul p) -> safe (chdir arch (D := D) path).
Proof.
  intros Hp. unfold chdir. destruct path as [path|]; [|auto with vfs_safe].
  eapply safe_bind_from; [by apply safe_resolve, Hp|]. intros full Hfull.
  apply safe_bind; [by apply safe_kind|]. intros [kind sz]. apply safe_bind; [vfs_auto|]. intros dir.
  destruct (negb dir); [auto with vfs_safe|]. apply safe_bind; [|vfs_auto]. apply safe_put.
  intros s (H1 & H2 & H3 & _). split; [done|]. split; [done|]. split; [done|].
  destruct Hfull as (Hz & Hh & Hl). unfold VFS_CWD_MAX in *. rewrite (take_ge full 511) by lia.
  destruct (strip_trailing_le full (length full)) as [Ho1 Ho2]. set (o := strip_trailing full (length full)) in *.
  destruct full as [|c full]; [done|]. cbn [length] in *. split; [|split].
  - cbn [vfs_cwd set_cwd]. by destruct o as [|o]; [lia|].
  - cbn [vfs_cwd set_cwd]. rewrite length_take. cbn [length]. lia.
  - by apply Forall_take.
Qed.

(** *** Opening *)

Lemma safe_disk_open path flags :
  is_Some (nurl_disk_ready (D := D)) -> safe (disk_open (D := D) path flags).
Proof.
  intros Hr. destruct (disk_whole Hr) as (Ho & Hd & Hc). unfold disk_open. vfs_auto.
Qed.

Lemma safe_ifsdir_open path b : no_nul path -> safe (ifsdir_open (D := D) path b).
Proof.
  intros Hp. unfold ifsdir_open. eapply safe_bind_from; [apply safe_has|]. intros can Hcan.
  apply safe_bind; [destruct can; [pose proof (Hcan eq_refl); vfs_auto|vfs_auto]|]. intros h.
  destruct (_ && _); [auto with vfs_safe|]. intros s Hs. apply answers_bind, answers_get.
  destruct (free_index d_used (vfs_ifsdirs s)) as [i|].
  - apply answers_bind, answers_put, answers_ret. split; [done|]. apply inv_dirs; [done|]. simpl.
    split; [split; [by apply Forall_take|rewrite length_take; lia]|lia].
  - apply safe_at; [done|]. apply safe_bind; [vfs_auto|auto with vfs_safe].
Qed.

Lemma safe_nl_open path flags mode :
  (forall p, path = Some p -> no_nul p) -> safe (nl_open arch (D := D) path flags mode).
Proof.
  intros Hp. unfold nl_open. destruct path as [path|]; [|auto with vfs_safe].
  eapply safe_bind_from; [by apply safe_resolve, Hp|]. intros full Hfull. pose proof Hfull as (Hz & _).
  apply safe_bind; [destruct (_ && _); auto with vfs_safe|]. intros fd. destruct (0 <=? fd); [auto with vfs_safe|].
  apply safe_bind.
  - destruct (has flags VFS_O_DIRECTORY); [|auto with vfs_safe]. apply safe_bind; [auto with vfs_safe|]. intros [kind sz].
    apply safe_bind; [by apply safe_ifsdir_open|]. intros fd2. vfs_auto.
  - intros refused. destruct refused; [auto with vfs_safe|]. eapply safe_bind_from; [apply safe_live|].
    intros live Hlive. destruct live; [apply safe_disk_open; auto|auto with vfs_safe].
Qed.

(** *** Mapping, positional transfers, the names that write *)

Lemma safe_map_fill fuel h len got : is_Some (nurl_disk_read (D := D)) -> safe (map_fill fuel h len got).
Proof.
  intros Hr. revert got. induction fuel as [|f IH]; intros got; cbn [map_fill]; [auto with vfs_safe|].
  destruct (_ <? _); [|auto with vfs_safe]. apply safe_bind; [auto with vfs_safe|]. intros [n b].
  destruct (_ <=? _); [auto with vfs_safe|apply IH].
Qed.

Lemma safe_map_file fd len off pages : safe (vfs_map_file (D := D) fd len off pages).
Proof.
  unfold vfs_map_file. apply safe_bind; [auto with vfs_safe|]. intros b. destruct b.
  { apply safe_bind; [apply safe_get|]. intros p. auto with vfs_safe. }
  destruct (negb (disk_is_fd fd) || negb (linked (nurl_disk_read (D := D))) || negb (linked (nurl_disk_lseek (D := D)))) eqn:E;
    [auto with vfs_safe|].
  apply orb_false_iff in E as [[_ Er]%orb_false_iff El]. apply negb_false_iff, linked_some in Er, El.
  destruct (pages =? 0); [auto with vfs_safe|].
  apply safe_bind; [auto with vfs_safe|]. intros keep. apply safe_bind; [auto with vfs_safe|]. intros r.
  destruct (r <? 0); [auto with vfs_safe|]. apply safe_bind; [by apply safe_map_fill|]. intros got.
  apply safe_bind; [destruct (0 <=? keep); vfs_auto|]. auto with vfs_safe.
Qed.

Lemma safe_pread fd n off : 0 <= n < 2 ^ 64 -> safe (pread arch (D := D) fd n off).
Proof.
  intros Hn. unfold pread. apply safe_bind; [auto with vfs_safe|]. intros keep. destruct (_ <? _); [auto with vfs_safe|].
  apply safe_bind; [auto with vfs_safe|]. intros r. destruct (_ <? _); [auto with vfs_safe|].
  apply safe_bind; [by apply safe_read_fd|]. intros got. apply safe_bind; auto with vfs_safe.
Qed.

Lemma safe_pwrite fd buf off : safe (pwrite (D := D) fd buf off).
Proof. unfold pwrite. vfs_auto. Qed.

Lemma safe_path_op f otherwise p :
  (forall q, p = Some q -> no_nul q) -> (forall q, no_nul q -> safe (otherwise q)) -> safe (disk_path_op (D := D) f otherwise p).
Proof.
  intros Hp Ho. unfold disk_path_op. destruct p as [p|]; [|auto with vfs_safe].
  eapply safe_bind_from; [by apply safe_resolve, Hp|]. intros q (Hq & _).
  eapply safe_bind_from; [apply safe_has|]. intros can Hcan. destruct can; [|by apply Ho].
  apply safe_bind; [apply safe_guarded; auto|]. auto with vfs_safe.
Qed.

Lemma safe_unlink p : (forall q, p = Some q -> no_nul q) -> safe (unlink arch (D := D) p).
Proof. intros Hp. apply safe_path_op; [done|]. intros q Hq. apply safe_bind; auto with vfs_safe. Qed.
Lemma safe_mkdir p m : (forall q, p = Some q -> no_nul q) -> safe (mkdir (D := D) p m).
Proof. intros Hp. apply safe_path_op; auto with vfs_safe. Qed.
Lemma safe_rmdir p : (forall q, p = Some q -> no_nul q) -> safe (rmdir (D := D) p).
Proof. intros Hp. apply safe_path_op; auto with vfs_safe. Qed.
Lemma safe_truncate p n : (forall q, p = Some q -> no_nul q) -> safe (truncate (D := D) p n).
Proof. intros Hp. apply safe_path_op; auto with vfs_safe. Qed.

Lemma safe_rename a b :
  (forall q, a = Some q -> no_nul q) -> (forall q, b = Some q -> no_nul q) -> safe (rename (D := D) a b).
Proof.
  intros Ha Hb. unfold rename. destruct a as [a|], b as [b|]; try (auto with vfs_safe).
  eapply safe_bind_from; [by apply safe_resolve, Ha|]. intros x _. eapply safe_bind_from; [by apply safe_resolve, Hb|]. intros y _.
  eapply safe_bind_from; [apply safe_has|]. intros can Hcan. destruct can; [|auto with vfs_safe].
  apply safe_bind; [apply safe_guarded; auto|]. auto with vfs_safe.
Qed.

Lemma safe_fsync fd : safe (fs_fsync_fd (D := D) fd).
Proof. unfold fs_fsync_fd. vfs_auto. Qed.
Lemma safe_ftruncate fd n : safe (ftruncate (D := D) fd n).
Proof. unfold ftruncate. vfs_auto. Qed.
Lemma safe_sync_all : safe (vfs_sync_all (D := D)).
Proof.
  unfold vfs_sync_all. eapply safe_bind_from; [apply safe_has|]. intros can Hcan. destruct can; [|auto with vfs_safe].
  apply safe_bind; [apply safe_disk_call; auto|]. auto with vfs_safe.
Qed.

Lemma safe_exists p : (forall q, p = Some q -> no_nul q) -> safe (fs_exists arch (D := D) p).
Proof.
  intros Hp. unfold fs_exists. destruct p as [p|]; [|auto with vfs_safe].
  eapply safe_bind_from; [by apply safe_resolve, Hp|]. intros full Hfull. pose proof Hfull as (Hz & _).
  apply safe_bind; [auto with vfs_safe|]. intros [kind sz]. destruct (negb _); [auto with vfs_safe|].
  apply safe_bind; [auto with vfs_safe|]. intros e. destruct e; auto with vfs_safe.
Qed.

Lemma safe_access p mode : (forall q, p = Some q -> no_nul q) -> safe (access arch (D := D) p mode).
Proof.
  intros Hp. unfold access. destruct p as [p|]; [|auto with vfs_safe]. specialize (Hp p eq_refl).
  destruct (has mode 1); [auto with vfs_safe|]. apply safe_bind; [auto with vfs_safe|]. intros on_disk.
  apply safe_bind; [auto with vfs_safe|]. intros in_image. destruct (_ && _); [auto with vfs_safe|].
  destruct (_ && _); [auto with vfs_safe|]. apply safe_bind; [|intros ro; destruct ro; auto with vfs_safe].
  destruct (has mode 2); [|auto with vfs_safe]. vfs_auto.
Qed.
#[local] Hint Resolve safe_map_file safe_pwrite safe_fsync safe_ftruncate safe_sync_all safe_getcwd : vfs_safe.

(** *** Directory listings *)

Lemma dirent_reclen_eq n : 0 <= n < 2 ^ 62 -> dirent_reclen n = (n + 27) / 8 * 8.
Proof.
  intros Hn. unfold dirent_reclen. rewrite wrap64_small by lia. change (not64 7) with (2 ^ 64 - 2 ^ 3).
  rewrite land_align by lia. by replace (19 + n + 1 + 7) with (n + 27) by lia.
Qed.

Lemma length_le_bytes n v : length (le_bytes n v) = n.
Proof. revert v. induction n as [|n IH]; intros v; [done|]. cbn [le_bytes length]. by rewrite IH. Qed.

Lemma length_dirent used name d :
  Z.of_nat (length name) < 2 ^ 62 ->
  Z.of_nat (length (dirent_record used name d)) = dirent_reclen (Z.of_nat (length name)).
Proof.
  intros Hn. unfold dirent_record, vfs_put_u64, vfs_put_u16. rewrite dirent_reclen_eq by lia.
  rewrite !length_app, !length_le_bytes, length_replicate. cbn [length]. zdiv.
Qed.

Lemma name_room_bound len used : 0 <= used -> used + 28 <= len -> len < 2 ^ 62 -> 8 <= name_room len used <= 255.
Proof. intros. unfold name_room. rewrite wrap64_small by lia. lia. Qed.

Lemma safe_entry_is_dir : safe (entry_is_dir (D := D)).
Proof. unfold entry_is_dir. vfs_auto. Qed.
#[local] Hint Resolve safe_entry_is_dir : vfs_safe.

(** A name the disk gave for the room there is: its record fits. *)
Lemma name_fits f h cap d r b d' :
  nurl_disk_readdir_name (D := D) = Some f -> f h cap d = ((r, b), d') -> 0 < r -> cap <= 256 ->
  length (take (Z.to_nat r) b) = Z.to_nat r /\ r < 256 /\ 24 <= dirent_reclen r.
Proof.
  intros Hf E Hr Hc. destruct (disk_name_len _ _ _ _ _ _ _ Hf E Hr) as (H1 & H2 & _).
  rewrite length_take. split; [lia|]. split; [lia|]. rewrite dirent_reclen_eq by lia. zdiv.
Qed.

Lemma safe_getdents_loop fuel h len out :
  is_Some (nurl_disk_readdir_name (D := D)) -> len < 2 ^ 62 -> 0 <= len - Z.of_nat (length out) < 24 * Z.of_nat fuel ->
  safe (getdents_loop fuel h len out).
Proof.
  intros [g Hg] Hlen. revert out. induction fuel as [|f IH]; intros out Hf; [lia|]. cbn [getdents_loop].
  destruct (Z.ltb_spec len (Z.of_nat (length out) + 19 + 1 + 8)); [auto with vfs_safe|].
  pose proof (name_room_bound len (Z.of_nat (length out))) as Hroom.
  set (room := name_room len (Z.of_nat (length out))) in *. rewrite Hg. cbn [fmap option_fmap option_map].
  intros s Hs. apply answers_bind. destruct (g h (room + 1) (v_disk s)) as [[n name] d'] eqn:E.
  eapply answers_run; [apply disk_call_run, E|]. revert s E Hs. intros s0 E Hs0.
  assert (Hs : vfs_inv arch (set_disk d' s0)) by done. revert Hs. generalize (set_disk d' s0). clear Hs0.
  intros s Hs. cbv beta iota zeta. apply safe_at; [done|]. destruct (Z.eqb_spec n 0); [by apply safe_ret|].
  destruct (Z.ltb_spec n 0).
  { destruct (_ =? _); [|by apply safe_ret]. apply safe_bind; auto with vfs_safe. }
  destruct (name_fits g h (room + 1) (v_disk s0) n name d' Hg E) as (N1 & N2 & N3); [lia|lia|].
  destruct (Z.ltb_spec len (Z.of_nat (length out) + dirent_reclen n)); [by apply safe_ret|].
  apply safe_bind; [auto with vfs_safe|]. intros is_dir. apply IH.
  rewrite length_app, Nat2Z.inj_add, length_dirent by lia. rewrite N1, Z2Nat.id by lia. lia.
Qed.

Lemma safe_getdents64 fd len : 0 <= len < 2 ^ 62 -> safe (vfs_getdents64 (D := D) fd len).
Proof.
  intros Hlen. unfold vfs_getdents64.
  destruct (negb (disk_is_fd fd) || negb (linked (nurl_disk_readdir_name (D := D)))) eqn:E.
  { apply safe_bind; auto with vfs_safe. }
  apply orb_false_iff in E as [_ E%negb_false_iff%linked_some]. apply safe_getdents_loop; [done|lia|].
  simpl length. rewrite Nat2Z.inj_succ, Z2Nat.id by (apply Z.div_pos; lia). zdiv.
Qed.

(** What a listing still has to go through. *)
Definition dir_measure (d : VfsIfsDir) (s : vfs D) : nat :=
  disk_left (d_disk_h d) (v_disk s) +
  (if d_archive_done d then 0 else S (S (length (listing arch (d_path d)) - Z.to_nat (d_cursor d)))).

Lemma safe_ifs_getdents_loop fuel i len out s d :
  vfs_inv arch s -> vfs_ifsdirs s !! i = Some d -> len < 2 ^ 62 -> (dir_measure d s < fuel)%nat ->
  answers (ifs_getdents_loop arch fuel i len out) s (fun _ s' => vfs_inv arch s').
Proof.
  intros Hs Hd Hlen. revert out s d Hs Hd. induction fuel as [|f IH]; intros out s d Hs Hd Hf; [lia|].
  cbn [ifs_getdents_loop]. destruct (Z.ltb_spec len (Z.of_nat (length out) + 19 + 1 + 8)); [by apply answers_ret|].
  apply answers_bind, answers_get. rewrite (list_lookup_total_correct _ _ _ Hd).
  pose proof (dir_ok arch s i Hs) as [Hpath Hcur]. rewrite (list_lookup_total_correct _ _ _ Hd) in Hpath, Hcur.
  pose proof (proj1 Hpath) as Hz. destruct (d_archive_done d) eqn:Edone; cbn [negb].
  2:{ apply answers_bind. rewrite (ifs_dirent_any arch arch_small) by done. eapply answers_run; [reflexivity|].
    unfold dir_measure in Hf. rewrite Edone in Hf.
    destruct (listing arch (d_path d) !! Z.to_nat (d_cursor d)) as [[nm dd]|] eqn:El.
    - pose proof (lookup_lt_Some _ _ _ El). unfold upd_dir. apply answers_bind, answers_put.
      rewrite (list_lookup_total_correct _ _ _ Hd). set (s1 := set_ifsdirs _ s).
      assert (Hs1 : vfs_inv arch s1) by (apply inv_dirs; [done|simpl; split; [done|lia]]).
      destruct (_ <? _); [by apply answers_ret|].
      eapply IH; [done|simpl; by apply list_lookup_insert_eq; eapply lookup_lt_Some|].
      unfold dir_measure. simpl. rewrite Edone. lia.
    - unfold upd_dir. apply answers_bind, answers_put. rewrite (list_lookup_total_correct _ _ _ Hd).
      set (s1 := set_ifsdirs _ s). assert (Hs1 : vfs_inv arch s1) by (apply inv_dirs; [done|simpl; done]).
      eapply IH; [done|simpl; by apply list_lookup_insert_eq; eapply lookup_lt_Some|]. unfold dir_measure. simpl. lia. }
  destruct ((0 <=? d_disk_h d) && linked (nurl_disk_readdir_name (D := D))) eqn:Edisk; [|by apply answers_ret].
  apply andb_prop in Edisk as [_ [g Hg]%linked_some]. rewrite Hg. cbn [fmap option_fmap option_map].
  apply answers_bind. set (room := name_room len _). pose proof (name_room_bound len (Z.of_nat (length out))) as Hroom.
  destruct (g (d_disk_h d) (room + 1) (v_disk s)) as [[n name] d'] eqn:E. eapply answers_run; [apply disk_call_run, E|]. cbv beta iota zeta.
  assert (Hs1 : vfs_inv arch (set_disk d' s)) by done. set (s1 := set_disk d' s) in *.
  destruct (Z.eqb_spec n 0); [by apply answers_ret|]. destruct (Z.ltb_spec n 0).
  { destruct (_ =? _); [|by apply answers_ret]. apply answers_bind.
    eapply answers_mono; [by apply (safe_set_err arch EINVAL s1)|]. intros _ s2 [_ Hs2]. by apply answers_ret. }
  pose proof (disk_left_name _ _ _ _ _ _ _ Hg E ltac:(lia)) as Hleft.
  assert (Hdir : answers (entry_is_dir (D := D)) s1 (fun _ s2 => vfs_inv arch s2 /\ vfs_ifsdirs s2 !! i = Some d /\
            (disk_left (d_disk_h d) (v_disk s2) <= disk_left (d_disk_h d) d')%nat)).
  { unfold entry_is_dir. destruct (nurl_disk_dirent_is_dir (D := D)) as [q|] eqn:Eq; cbn [linked].
    - apply answers_bind. destruct (q (v_disk s1)) as [r d2] eqn:E2. eapply answers_run; [apply disk_call_run, E2|]. apply answers_ret. split; [done|]. split; [done|].
      by apply (disk_left_flag _ _ _ _ _ Eq E2).
    - by apply answers_ret. }
  apply answers_bind. eapply answers_mono; [exact Hdir|]. cbv beta. intros is_dir s2 (Hs2 & Hd2 & Hle).
  rewrite (vfs_ifs_has_spec arch arch_small) by done. apply answers_bind. eapply answers_run; [reflexivity|].
  unfold dir_measure in Hf. rewrite Edone in Hf.
  assert (Hm : (dir_measure d s2 < f)%nat) by (unfold dir_measure; rewrite Edone; lia).
  destruct (existsb _ _); [by apply (IH _ _ d)|]. destruct (_ <? _); [by apply answers_ret|by apply (IH _ _ d)].
Qed.

(** *** mkstemp and stat *)

Lemma letters_no_nul n v acc : no_nul acc -> no_nul (letters n v acc).
Proof.
  revert v acc. induction n as [|n IH]; intros v acc Ha; [done|]. cbn [letters]. apply IH. constructor; [|done]. zdiv.
Qed.

Lemma safe_mkstemp_try tries stem tail : no_nul stem -> safe (mkstemp_try arch (D := D) tries stem tail).
Proof.
  intros Hs. revert tail. induction tries as [|t IH]; intros tail; cbn [mkstemp_try].
  { apply safe_bind; auto with vfs_safe. }
  apply safe_bind; [apply safe_put; intros s Hv; exact Hv|]. intros _. apply safe_bind; [apply safe_get|]. intros v.
  apply safe_bind.
  { apply safe_nl_open. intros p [= <-]. apply Forall_app. split; [done|]. apply (letters_no_nul 6 v []). constructor. }
  intros fd. destruct (0 <=? fd); [auto with vfs_safe|]. apply safe_bind; [apply safe_get|]. intros e.
  destruct (negb _); [auto with vfs_safe|apply IH].
Qed.

Lemma safe_mkstemp tmpl : (forall q, tmpl = Some q -> no_nul q) -> safe (mkstemp arch (D := D) tmpl).
Proof.
  intros Hp. unfold mkstemp. destruct tmpl as [tmpl|]; [|apply safe_bind; auto with vfs_safe].
  apply safe_bind; [auto with vfs_safe|]. intros live. destruct (negb live); [apply safe_bind; auto with vfs_safe|].
  destruct (length tmpl <? 6)%nat; [apply safe_bind; auto with vfs_safe|].
  destruct (negb _); [apply safe_bind; auto with vfs_safe|]. apply safe_mkstemp_try. by apply Forall_take, Hp.
Qed.

Lemma safe_stat_path p st : (forall q, p = Some q -> no_nul q) -> safe (vfs_stat_path arch (D := D) p st).
Proof.
  intros Hp. unfold vfs_stat_path. destruct p as [p|]; [|auto with vfs_safe]. destruct st; [|auto with vfs_safe].
  eapply safe_bind_from; [by apply safe_resolve, Hp|]. intros full Hfull.
  apply safe_bind; [auto with vfs_safe|]. intros [kind stored]. cbv zeta. destruct (negb _); [auto with vfs_safe|].
  apply safe_bind; [auto with vfs_safe|]. intros there. destruct there; [|auto with vfs_safe]. vfs_auto.
Qed.

Lemma safe_fstat fd st : safe (vfs_fstat_fd (D := D) fd st).
Proof.
  unfold vfs_fstat_fd. destruct (negb st); [auto with vfs_safe|]. apply safe_bind; [apply safe_get|]. intros dir.
  destruct dir; [auto with vfs_safe|]. apply safe_bind; [auto with vfs_safe|]. intros b. destruct b; [|vfs_auto].
  assert (Hseek : forall o w, safe (ifs_ret (ifs_lseek fd o w))).
  { intros o w. apply safe_ifs_ret. intros t Ht. by apply ifs_lseek_inv. }
  apply safe_bind; [apply Hseek|]. intros cur. apply safe_bind; [apply Hseek|]. intros size.
  apply safe_bind; [apply Hseek|]. auto with vfs_safe.
Qed.

(** *** The platform's names *)

Lemma safe_write fd buf : safe (write (D := D) fd buf).
Proof.
  unfold write. apply safe_bind; [auto with vfs_safe|]. intros file. destruct file; [auto with vfs_safe|].
  apply safe_bind; [auto with vfs_safe|]. intros t. destruct (_ && _); [auto with vfs_safe|].
  apply safe_bind; [apply safe_put; intros s Hs; exact Hs|]. auto with vfs_safe.
Qed.

Lemma safe_read fd n : 0 <= n < 2 ^ 64 -> safe (read arch (D := D) fd n).
Proof.
  intros Hn. unfold read. apply safe_bind; [auto with vfs_safe|]. intros file. destruct file; [auto with vfs_safe|].
  apply safe_bind; [auto with vfs_safe|]. intros t. destruct (_ && _); auto with vfs_safe.
Qed.

Lemma safe_close fd : safe (close (D := D) fd).
Proof.
  unfold close. apply safe_bind; [auto with vfs_safe|]. intros b. destruct b; [auto with vfs_safe|].
  apply safe_bind; [auto with vfs_safe|]. intros b. destruct b; [auto with vfs_safe|]. vfs_auto.
Qed.

Lemma safe_lseek fd off w : safe (lseek (D := D) fd off w).
Proof. unfold lseek. vfs_auto. Qed.
End ops.

(** ** Runs *)

Inductive vfs_op :=
| OOpen (path : option (list Z)) (flags mode : Z) | ORead (fd n : Z) | OWrite (fd : Z) (buf : list Z)
| OLseek (fd off whence : Z) | OClose (fd : Z) | OFsClose (fd : Z) | OPread (fd n off : Z) | OPwrite (fd : Z) (buf : list Z) (off : Z)
| OMap (fd len off pages : Z) | ODup (fd : Z) | ODup2 (a b : Z) | OFcntl (fd cmd arg : Z) | OFlock (fd op : Z)
| OGetcwd (buf : bool) (size : Z) | OChdir (path : option (list Z)) | OExists (path : option (list Z))
| OUnlink (path : option (list Z)) | ORename (a b : option (list Z)) | OMkdir (path : option (list Z)) (mode : Z)
| ORmdir (path : option (list Z)) | OTruncate (path : option (list Z)) (len : Z) | OFsync (fd : Z) | OFtruncate (fd len : Z)
| OSync | OAccess (path : option (list Z)) (mode : Z) | OMkstemp (tmpl : option (list Z))
| OStat (path : option (list Z)) (st : bool) | OFstat (fd : Z) (st : bool) | OGetdents (fd len : Z).

Section runs.
Context (arch : list Z).
Context {D : Type} `{!Disk D}.

Definition drop_answer {A} (m : ST (vfs D) A) : ST (vfs D) unit := m;; mret tt.

(** [fuel] is that of a listing. *)
Definition vfs_exec (fuel : nat) (op : vfs_op) : ST (vfs D) unit :=
  match op with
  | OOpen p f m => drop_answer (nl_open arch p f m)
  | ORead fd n => drop_answer (read arch fd n)
  | OWrite fd b => drop_answer (write fd b)
  | OLseek fd o w => drop_answer (lseek fd o w)
  | OClose fd => drop_answer (close fd)
  | OFsClose fd => drop_answer (fs_close_fd fd)
  | OPread fd n o => drop_answer (pread arch fd n o)
  | OPwrite fd b o => drop_answer (pwrite fd b o)
  | OMap fd l o p => drop_answer (vfs_map_file fd l o p)
  | ODup fd => drop_answer (dup fd)
  | ODup2 a b => drop_answer (dup2 a b)
  | OFcntl a b c => drop_answer (fcntl a b c)
  | OFlock a b => drop_answer (flock a b)
  | OGetcwd b n => drop_answer (getcwd b n)
  | OChdir p => drop_answer (chdir arch p)
  | OExists p => drop_answer (fs_exists arch p)
  | OUnlink p => drop_answer (unlink arch p)
  | ORename a b => drop_answer (rename a b)
  | OMkdir p m => drop_answer (mkdir p m)
  | ORmdir p => drop_answer (rmdir p)
  | OTruncate p n => drop_answer (truncate p n)
  | OFsync fd => drop_answer (fsync fd)
  | OFtruncate fd n => drop_answer (ftruncate fd n)
  | OSync => drop_answer vfs_sync_all
  | OAccess p m => drop_answer (access arch p m)
  | OMkstemp t => drop_answer (mkstemp arch t)
  | OStat p st => drop_answer (vfs_stat_path arch p st)
  | OFstat fd st => drop_answer (vfs_fstat_fd fd st)
  | OGetdents fd len => drop_answer (vfs_getdents arch fuel fd len)
  end.

(** Arguments a C caller can have: strings without a NUL inside, sizes that a
    word holds. *)
Definition str_ok (p : option (list Z)) : Prop := forall q, p = Some q -> no_nul q.

Definition op_ok (op : vfs_op) : Prop :=
  match op with
  | OOpen p _ _ | OChdir p | OExists p | OUnlink p | OMkdir p _ | ORmdir p | OTruncate p _ | OAccess p _
  | OMkstemp p | OStat p _ => str_ok p
  | ORename a b => str_ok a /\ str_ok b
  | ORead _ n | OPread _ n _ => 0 <= n < 2 ^ 64
  | OGetdents _ len => 0 <= len < 2 ^ 62
  | _ => True
  end.

Inductive vfs_step : vfs D -> vfs D -> Prop :=
| vfs_step_intro fuel op s s' : op_ok op -> vfs_exec fuel op s = Some (tt, s') -> vfs_step s s'.

Definition vfs_reachable (d : D) : vfs D -> Prop := rtc vfs_step (vfs_start d).
End runs.

Section run_safe.
Context (arch : list Z) (arch_small : arch_len arch < 2 ^ 62).
Context {D : Type} `{!Disk D, !DiskLaws D}.

Lemma safe_drop {A} (m : ST (vfs D) A) : safe arch m -> safe arch (drop_answer m).
Proof. intros Hm. apply safe_bind; [done|]. intros x. apply safe_ret. Qed.

Lemma exec_other fuel op :
  op_ok op -> (forall fd len, op <> OGetdents fd len) -> safe arch (vfs_exec arch (D := D) fuel op).
Proof.
  intros Hok Hne. destruct op; cbn [op_ok] in Hok; cbn [vfs_exec]; try (exfalso; exact (Hne _ _ eq_refl)); apply safe_drop;
    first [ by apply safe_nl_open | by apply safe_read | apply safe_write | apply safe_lseek | apply safe_close | apply safe_close_fd
          | by apply safe_pread | apply safe_pwrite | apply safe_map_file | apply safe_dup | apply safe_dup2 | apply safe_fcntl
          | apply safe_flock | apply safe_getcwd | by apply safe_chdir | by apply safe_exists | by apply safe_unlink
          | by destruct Hok; apply safe_rename | by apply safe_mkdir | by apply safe_rmdir | by apply safe_truncate
          | apply safe_fsync | apply safe_ftruncate | apply safe_sync_all | by apply safe_access | by apply safe_mkstemp
          | by apply safe_stat_path | apply safe_fstat ]; try exact arch_small.
Qed.

(** A listing answers for every fuel above what the two directories hold. *)
Lemma exec_getdents fd len s :
  vfs_inv arch s -> 0 <= len < 2 ^ 62 ->
  exists enough, forall fuel, (enough <= fuel)%nat ->
    answers (vfs_exec arch fuel (OGetdents fd len)) s (fun _ s' => vfs_inv arch s').
Proof.
  intros Hs Hlen. cbn [vfs_exec]. unfold drop_answer, vfs_getdents, ifsdir_is_fd.
  destruct (ifsdir_slot fd s) as [[i d]|] eqn:E.
  - exists (S (dir_measure arch d s)). intros fuel Hf.
    do 2 apply answers_bind. apply answers_get. rewrite E. cbn [linked].
    unfold ifsdir_slot in E. destruct (_ || _) eqn:Er; [done|]. destruct (vfs_ifsdirs s !! _) as [d0|] eqn:Ed; [|done].
    cbn [mbind option_bind] in E. destruct (d_used d0); [|done]. injection E as <- <-.
    eapply answers_mono; [eapply (safe_ifs_getdents_loop arch arch_small); [done|exact Ed|lia|lia]|].
    intros x s' Hs'. by apply answers_ret.
  - exists O. intros fuel _. do 2 apply answers_bind. apply answers_get. rewrite E. cbn [linked].
    eapply answers_mono; [by apply (safe_getdents64 arch fd len Hlen)|]. intros x s' [_ Hs']. by apply answers_ret.
Qed.

(** More fuel changes no answer. *)
Lemma listing_more fuel fuel' i len out :
  (fuel <= fuel')%nat -> no_less (ifs_getdents_loop arch (D := D) fuel i len out) (ifs_getdents_loop arch fuel' i len out).
Proof.
  revert fuel' out. induction fuel as [|f IH]; intros fuel' out Hle; [done|]. destruct fuel' as [|f']; [lia|].
  assert (Hf : (f <= f')%nat) by lia. cbn [ifs_getdents_loop]. destruct (_ <? _); [apply no_less_refl|].
  apply no_less_bind. intros d. destruct (negb _).
  - apply no_less_bind. intros e. destruct e as [[name is_dir]|]; (apply no_less_bind; intros _).
    + cbv zeta. destruct (_ <? _); [apply no_less_refl|by apply IH].
    + by apply IH.
  - destruct (_ && _); [|apply no_less_refl]. apply no_less_bind. intros [n name]. destruct (n =? 0); [apply no_less_refl|].
    destruct (n <? 0); [apply no_less_refl|]. apply no_less_bind. intros is_dir. apply no_less_bind. intros dp.
    destruct dp; [by apply IH|]. cbv zeta. destruct (_ <? _); [apply no_less_refl|by apply IH].
Qed.

Lemma exec_more fuel fuel' op : (fuel <= fuel')%nat -> no_less (vfs_exec arch (D := D) fuel op) (vfs_exec arch fuel' op).
Proof.
  intros Hle. destruct op; try apply no_less_refl. cbn [vfs_exec]. unfold drop_answer.
  apply no_less_then. unfold vfs_getdents. apply no_less_bind. intros b. destruct b; [|apply no_less_refl].
  by apply listing_more.
Qed.

(** Every operation answers, given enough fuel, and keeps the invariant. *)
Lemma exec_safe op s :
  op_ok op -> vfs_inv arch s ->
  exists enough, forall fuel, (enough <= fuel)%nat -> answers (vfs_exec arch fuel op) s (fun _ s' => vfs_inv arch s').
Proof.
  intros Hok Hs. assert (Hd : (exists fd len, op = OGetdents fd len) \/ forall fd len, op <> OGetdents fd len).
  { destruct op; try (right; congruence). left. eauto. }
  destruct Hd as [(fd & len & ->)|Hne]; [by apply exec_getdents|].
  exists O. intros fuel _. eapply answers_mono; [by apply (exec_other fuel op Hok Hne)|]. by intros x s' [_ ?].
Qed.

(** A step keeps the invariant, whatever fuel it had. *)
Lemma vfs_step_inv s s' : vfs_inv arch s -> vfs_step arch s s' -> vfs_inv arch s'.
Proof.
  intros Hs Hst. revert Hs. destruct Hst as [fuel op s s' Hok E]. intros Hs. destruct (exec_safe op s Hok Hs) as [enough He].
  destruct (He (fuel + enough)%nat) as (x & s2 & E2 & Hs2); [lia|].
  apply (exec_more fuel (fuel + enough)) in E; [|lia]. rewrite E in E2. by injection E2 as _ <-.
Qed.

Lemma vfs_reachable_inv d s : vfs_reachable arch d s -> vfs_inv arch s.
Proof.
  intros H. apply (rtc_ind_r (vfs_inv arch) (vfs_start d)) in H; [done| |intros y z _ Hs Hi; by eapply vfs_step_inv].
  split; [by apply reachable_inv; [|apply rtc_refl]|]. split; [split; [done|]|].
  - apply Forall_replicate. split; [split; [constructor|simpl; lia]|simpl; lia].
  - split; [done|]. split; [done|]. split; [unfold VFS_CWD_MAX; simpl; lia|by repeat constructor].
Qed.

End run_safe.

