(* ===== verification/VfsFd.v ===== *)
(** Descriptors of the file surface: redirection of the standard ones, the
    archive before the disk, what a machine without a disk refuses, reads and
    writes at a position. *)

From S2P Require Import Prelude StateMonad InitFs Vfs VfsPath VfsDisk VfsSafe.

(** ** Running straight-line code *)

Lemma then_run {S A B} (m : ST S A) (k : ST S B) s x s' : m s = Some (x, s') -> (m;; k) s = k s'.
Proof. apply bind_run. Qed.

Section fd.
Context (arch : list Z) (arch_small : arch_len arch < 2 ^ 62).
Context {D : Type} `{!Disk D}.
Implicit Types s : vfs D.

Lemma disk_fd_not_archive fd s : disk_is_fd fd = true -> ifs_is_fd fd (v_ifs s) = false.
Proof.
  unfold disk_is_fd, VFS_DISK_FD_BASE, VFS_DISK_FD_MAX. intros [H1 H2]%andb_prop. unfold ifs_is_fd, fs_file.
  destruct ((fd - FS_FD_BASE <? 0) || (Z.of_nat FS_MAX_OPEN <=? fd - FS_FD_BASE)) eqn:E; [by case_bool_decide as Hb; [destruct Hb|]|].
  apply orb_false_iff in E as [E1 E2]. apply Z.leb_gt in E2. unfold FS_FD_BASE, FS_MAX_OPEN in *. lia.
Qed.

Lemma disk_fd_range fd : disk_is_fd fd = true -> 128 <= fd < 192.
Proof. unfold disk_is_fd, VFS_DISK_FD_BASE, VFS_DISK_FD_MAX. intros [H1 H2]%andb_prop. lia. Qed.

Lemma std_range fd : is_std fd = true -> 0 <= fd <= 2.
Proof. unfold is_std. intros [H1 H2]%andb_prop. lia. Qed.

Lemma std_not_file fd s : is_std fd = true -> ifs_is_fd fd (v_ifs s) = false /\ disk_is_fd fd = false.
Proof.
  intros H%std_range. split.
  - unfold ifs_is_fd, fs_file. destruct (Z.ltb_spec (fd - FS_FD_BASE) 0); [done|unfold FS_FD_BASE in *; lia].
  - unfold disk_is_fd, VFS_DISK_FD_BASE. destruct (Z.leb_spec 128 fd); [lia|done].
Qed.

Lemma free_index_spec {A} (used : A -> bool) l i :
  free_index used l = Some i -> exists x, l !! i = Some x /\ used x = false.
Proof.
  revert i. induction l as [|x l IH]; intros i; [done|]. cbn [free_index]. destruct (used x) eqn:E.
  - destruct (free_index used l) as [j|]; [|done]. intros [= <-]. by apply IH.
  - intros [= <-]. by exists x.
Qed.

(** *** The table of the standard descriptors *)

Definition with_std (fd t : Z) (a : bool) s : vfs D :=
  set_std (<[Z.to_nat fd := t]> (vfs_std_target s)) (<[Z.to_nat fd := a]> (vfs_std_alias s)) s.

Lemma set_std_run fd t a s : set_std_fd fd t a s = Some (tt, with_std fd t a s).
Proof. done. Qed.

(** A descriptor that stands for another standard one, or is saved, is only
    given up. *)
Lemma release_shared fd s :
  std_target fd s < 0 \/ std_alias fd s = true \/
    existsb (fun i => negb (i =? fd) && (std_target i s =? std_target fd s)) [0; 1; 2] || saved_target (std_target fd s) s = true ->
  vfs_std_release fd s = Some (tt, with_std fd (-1) false s).
Proof.
  intros H. unfold vfs_std_release.
  rewrite (bind_run _ _ s (std_target fd s) s) by done. rewrite (bind_run _ _ s (std_alias fd s) s) by done.
  rewrite (bind_run _ _ s ((0 <=? std_target fd s) && (existsb (fun i => negb (i =? fd) && (std_target i s =? std_target fd s)) [0; 1; 2] || saved_target (std_target fd s) s)) s).
  2:{ unfold vfs_is_std_target_except. destruct (Z.ltb_spec (std_target fd s) 0); destruct (Z.leb_spec 0 (std_target fd s)); try lia; done. }
  rewrite (then_run _ _ s tt s); [done|].
  destruct (Z.leb_spec 0 (std_target fd s)); cbn [andb]; [|done].
  destruct H as [H|[H|H]]; [lia|by rewrite H|]. rewrite H. by rewrite andb_false_r.
Qed.

(** One that nothing else stands for is closed. *)
Lemma release_closes fd s r s1 :
  0 <= std_target fd s -> std_alias fd s = false ->
  existsb (fun i => negb (i =? fd) && (std_target i s =? std_target fd s)) [0; 1; 2] || saved_target (std_target fd s) s = false ->
  fs_close_fd (std_target fd s) s = Some (r, s1) ->
  vfs_std_release fd s = Some (tt, with_std fd (-1) false s1).
Proof.
  intros Ht Ha Hs Hc. unfold vfs_std_release.
  rewrite (bind_run _ _ s (std_target fd s) s) by done. rewrite (bind_run _ _ s (std_alias fd s) s) by done.
  rewrite (bind_run _ _ s false s).
  2:{ unfold vfs_is_std_target_except. destruct (Z.ltb_spec (std_target fd s) 0); [lia|]. unfold get_state. by rewrite Hs. }
  rewrite Ha. destruct (Z.leb_spec 0 (std_target fd s)); [|lia]. cbn [andb negb].
  rewrite (then_run _ _ s tt s1); [done|]. by rewrite (then_run _ _ s r s1).
Qed.

Lemma std_target_with fd t a s :
  length (vfs_std_target s) = 3%nat -> 0 <= fd <= 2 -> std_target fd (with_std fd t a s) = t.
Proof. intros Hl Hfd. unfold std_target. simpl. apply list_lookup_total_insert_eq. lia. Qed.

Lemma std_alias_with fd t a s :
  length (vfs_std_alias s) = 3%nat -> 0 <= fd <= 2 -> std_alias fd (with_std fd t a s) = a.
Proof. intros Hl Hfd. unfold std_alias. simpl. by rewrite list_lookup_insert_eq by lia. Qed.

Lemma std_target_other fd fd' t a s : fd <> fd' -> 0 <= fd -> 0 <= fd' -> std_target fd' (with_std fd t a s) = std_target fd' s.
Proof. intros Hne H1 H2. unfold std_target. simpl. apply list_lookup_total_insert_ne. lia. Qed.

Lemma with_std_twice fd t a t' a' s : with_std fd t' a' (with_std fd t a s) = with_std fd t' a' s.
Proof. unfold with_std, set_std. simpl. by rewrite !list_insert_insert_eq. Qed.

(** Putting back what was there. *)
Lemma with_std_same fd s :
  length (vfs_std_target s) = 3%nat -> length (vfs_std_alias s) = 3%nat -> 0 <= fd <= 2 ->
  with_std fd (std_target fd s) (std_alias fd s) s = s.
Proof.
  intros H1 H2 Hfd. unfold with_std, std_target, std_alias.
  destruct (lookup_lt_is_Some_2 (vfs_std_target s) (Z.to_nat fd)) as [t Ht]; [lia|].
  destruct (lookup_lt_is_Some_2 (vfs_std_alias s) (Z.to_nat fd)) as [a Ha]; [lia|].
  rewrite (list_lookup_total_correct _ _ _ Ht), Ha. simpl. rewrite !list_insert_id by done. by destruct s.
Qed.

(** What a shell does for [cmd > file]: save the descriptor, point it at the
    file, close the file's own descriptor, run, put back, drop the save. *)
Definition redirected {A} (std file : Z) (body : ST (vfs D) A) : ST (vfs D) A :=
  saved ← dup std;
  dup2 file std;;
  close file;;
  x ← body;
  dup2 saved std;;
  close saved;;
  mret x.

(** No standard or saved descriptor stands for [fd]. *)
Definition unused_target (fd : Z) s : Prop :=
  (forall i, 0 <= i <= 2 -> std_target i s <> fd) /\ saved_target fd s = false.

Section redirect.
Context (std file : Z) (s : vfs D).
Context (Hstd : is_std std = true) (Hfile : disk_is_fd file = true).
Context (Hlen : length (vfs_std_target s) = 3%nat /\ length (vfs_std_alias s) = 3%nat /\ length (vfs_saved s) = VFS_SAVED_MAX).
Context (i : nat) (Hi : free_index sv_used (vfs_saved s) = Some i).

Let saved : Z := VFS_SAVED_BASE + Z.of_nat i.

(** After the save, after the redirection. *)
Definition after_dup : vfs D := set_saved (<[i := MkSaved true (std_target std s) (std_alias std s)]> (vfs_saved s)) s.
Definition after_dup2 : vfs D := with_std std file false after_dup.

Lemma saved_place : exists sv, vfs_saved s !! i = Some sv /\ sv_used sv = false /\ (i < VFS_SAVED_MAX)%nat.
Proof.
  destruct (free_index_spec _ _ _ Hi) as (sv & E & Hu). exists sv. split; [done|]. split; [done|].
  destruct Hlen as (_ & _ & <-). by eapply lookup_lt_Some.
Qed.

Lemma dup_run : dup std s = Some (saved, after_dup).
Proof.
  unfold dup. rewrite Hstd. cbn [negb]. rewrite (bind_run _ _ s (vfs_saved s) s) by done. by rewrite Hi.
Qed.

Lemma saved_target_in fd l j sv :
  l !! j = Some sv -> sv_used sv = true -> sv_target sv = fd ->
  existsb (fun v => sv_used v && (sv_target v =? fd)) l = true.
Proof.
  intros Hj Hu Ht. apply existsb_exists. exists sv. split; [apply list_elem_of_In; by eapply list_elem_of_lookup_2|].
  by rewrite Hu, Ht, Z.eqb_refl.
Qed.

Lemma dup2_run : dup2 file std after_dup = Some (std, after_dup2).
Proof.
  pose proof (disk_fd_range _ Hfile). unfold dup2. rewrite Hstd. cbn [negb].
  assert (saved_slot file = false) as ->.
  { unfold saved_slot, VFS_SAVED_BASE. destruct (Z.leb_spec 300 file); [lia|done]. }
  assert (is_std file = false) as -> by (unfold is_std; destruct (Z.leb_spec file 2); [lia|apply andb_false_r]).
  rewrite (bind_run _ _ after_dup true after_dup).
  2:{ unfold fs_is_file_fd. rewrite (bind_run _ _ after_dup (ifs_is_fd file (v_ifs after_dup)) after_dup) by done.
      rewrite Hfile. by rewrite orb_true_r. }
  cbn [negb]. rewrite (then_run _ _ after_dup tt (with_std std (-1) false after_dup)).
  - rewrite (then_run _ _ _ tt (with_std std file false after_dup)); [done|]. by rewrite set_std_run, with_std_twice.
  - apply release_shared. right. right. apply orb_true_intro. right.
    destruct saved_place as (sv & E & _ & Hlt). unfold saved_target, after_dup. cbn [vfs_saved set_saved].
    eapply (saved_target_in _ _ i); [apply list_lookup_insert_eq; destruct Hlen as (_ & _ & ->); done|done|done].
Qed.

Lemma close_target_run : close file after_dup2 = Some (0, after_dup2).
Proof.
  pose proof (disk_fd_range _ Hfile). pose proof (std_range _ Hstd). unfold close.
  rewrite (bind_run _ _ after_dup2 false after_dup2).
  2:{ unfold vfs_close_saved, saved_slot, VFS_SAVED_BASE. destruct (Z.leb_spec 300 file); [lia|done]. }
  rewrite (bind_run _ _ after_dup2 true after_dup2); [done|]. unfold vfs_is_std_target.
  destruct (Z.ltb_spec file 0); [lia|]. unfold get_state. f_equal. f_equal. apply orb_true_intro. left.
  apply existsb_exists. exists file. split; [|apply Z.eqb_refl]. apply list_elem_of_In.
  apply (list_elem_of_lookup_2 _ (Z.to_nat std)). apply list_lookup_insert_eq. cbn. lia.
Qed.

(** The redirection is undone from any state that kept the tables. *)
Lemma undo_run s2 r s3 :
  vfs_std_target s2 = vfs_std_target after_dup2 -> vfs_std_alias s2 = vfs_std_alias after_dup2 ->
  vfs_saved s2 = vfs_saved after_dup2 -> unused_target file s -> fs_close_fd file s2 = Some (r, s3) ->
  vfs_std_target s3 = vfs_std_target s2 -> vfs_std_alias s3 = vfs_std_alias s2 -> vfs_saved s3 = vfs_saved s2 ->
  (dup2 saved std;; close saved) s2 =
  Some (0, set_saved (<[i := MkSaved false (std_target std s) (std_alias std s)]> (vfs_saved s))
             (set_std (vfs_std_target s) (vfs_std_alias s) s3)).
Proof.
  intros T1 T2 T3 [Hu1 Hu2] Hc U1 U2 U3. pose proof (std_range _ Hstd) as Hsr. pose proof (disk_fd_range _ Hfile) as Hfr.
  destruct saved_place as (sv & E & _ & Hlt). destruct Hlen as (L1 & L2 & L3).
  set (entry := MkSaved true (std_target std s) (std_alias std s)).
  assert (Hslot : saved_slot saved = true).
  { unfold saved_slot, saved. apply andb_true_intro. lia. }
  assert (Hidx : Z.to_nat (saved - VFS_SAVED_BASE) = i) by (unfold saved; lia).
  assert (Hentry : forall s', vfs_saved s' = vfs_saved after_dup2 -> vfs_saved s' !!! i = entry).
  { intros s' ->. apply list_lookup_total_insert_eq. lia. }
  assert (Ht2 : std_target std s2 = file).
  { unfold std_target. rewrite T1. apply list_lookup_total_insert_eq. cbn. lia. }
  assert (Ha2 : std_alias std s2 = false).
  { unfold std_alias. rewrite T2. simpl. by rewrite list_lookup_insert_eq by lia. }
  assert (Hshared : existsb (fun j => negb (j =? std) && (std_target j s2 =? std_target std s2)) [0; 1; 2] ||
            saved_target (std_target std s2) s2 = false).
  { rewrite Ht2. apply orb_false_intro.
    - apply not_true_is_false. intros (j & Hj & Hb)%existsb_exists. apply andb_prop in Hb as [Hb1 Hb2].
      apply negb_true_iff, Z.eqb_neq in Hb1. apply Z.eqb_eq in Hb2.
      assert (Hj2 : 0 <= j <= 2) by (simpl in Hj; lia). apply (Hu1 j Hj2). rewrite <- Hb2.
      unfold std_target. rewrite T1. symmetry. apply list_lookup_total_insert_ne. lia.
    - unfold saved_target. rewrite T3. apply not_true_is_false. intros (v & Hv & Hb)%existsb_exists.
      apply andb_prop in Hb as [Hb1 Hb2%Z.eqb_eq]. apply list_elem_of_In, list_elem_of_lookup in Hv as [j Hj].
      cbn in Hj. destruct (decide (j = i)) as [->|Hne].
      + rewrite list_lookup_insert_eq in Hj by lia. injection Hj as <-. simpl in Hb2. by apply (Hu1 std Hsr).
      + rewrite list_lookup_insert_ne in Hj by done. unfold saved_target in Hu2.
        assert (Ht : true = false); [|done]. rewrite <- Hu2. symmetry. by eapply (saved_target_in file _ j v). }
  rewrite (bind_run _ _ s2 std (with_std std (std_target std s) (std_alias std s) s3)).
  - unfold close. rewrite (bind_run _ _ _ true (set_saved (<[i := MkSaved false (std_target std s) (std_alias std s)]> (vfs_saved s))
             (set_std (vfs_std_target s) (vfs_std_alias s) s3))); [done|].
    unfold vfs_close_saved. rewrite Hslot. cbn [negb]. rewrite Hidx.
    rewrite (then_run _ _ _ tt (set_saved (<[i := MkSaved false (std_target std s) (std_alias std s)]> (vfs_saved s))
             (set_std (vfs_std_target s) (vfs_std_alias s) s3))); [done|].
    unfold put_state. do 2 f_equal. cbn [vfs_saved with_std set_std].
    rewrite (Hentry s3) by congruence. cbn [sv_target sv_alias entry].
    rewrite U3, T3. cbn. rewrite list_insert_insert_eq.
    pose proof (with_std_same std s L1 L2 Hsr) as Hsame. unfold with_std in Hsame.
    assert (Hst : <[Z.to_nat std := std_target std s]> (vfs_std_target s3) = vfs_std_target s).
    { rewrite U1, T1. cbn. rewrite list_insert_insert_eq. exact (f_equal vfs_std_target Hsame). }
    assert (Hsa : <[Z.to_nat std := std_alias std s]> (vfs_std_alias s3) = vfs_std_alias s).
    { rewrite U2, T2. cbn. rewrite list_insert_insert_eq. exact (f_equal vfs_std_alias Hsame). }
    unfold with_std. by rewrite Hst, Hsa.
  - unfold dup2. rewrite Hstd, Hslot. cbn [negb]. rewrite Hidx.
    rewrite (bind_run _ _ s2 entry s2) by (unfold get_state; by rewrite Hentry).
    cbn [sv_used entry negb]. rewrite (then_run _ _ s2 tt (with_std std (-1) false s3)).
    + rewrite (then_run _ _ _ tt (with_std std (std_target std s) (std_alias std s) s3)); [done|].
      by rewrite set_std_run, with_std_twice.
    + apply (release_closes std s2 r s3); [lia|done|done|by rewrite Ht2].
Qed.
End redirect.

(** What a write to, and a close of, an open disk file do. *)
Lemma write_disk_run fd buf s w n d1 :
  disk_is_fd fd = true -> nurl_disk_write = Some w -> w (fd - VFS_DISK_FD_BASE) buf (v_disk s) = (n, d1) -> 0 <= n ->
  fs_write_fd fd buf s = Some (n, set_disk d1 s).
Proof.
  intros Hfd Hw E Hn. unfold fs_write_fd.
  rewrite (bind_run _ _ s (ifs_is_fd fd (v_ifs s)) s) by done. rewrite disk_fd_not_archive, Hfd, Hw by done.
  cbn [linked andb fmap option_fmap option_map]. rewrite (bind_run _ _ s n (set_disk d1 s)) by by apply disk_call_run.
  unfold posix_ret_ll. by destruct (Z.ltb_spec n 0); [lia|].
Qed.

Lemma close_disk_run fd s c r d2 :
  disk_is_fd fd = true -> nurl_disk_close = Some c -> c (fd - VFS_DISK_FD_BASE) (v_disk s) = (r, d2) -> 0 <= r ->
  fs_close_fd fd s = Some (swrap 32 r, set_disk d2 s).
Proof.
  intros Hfd Hc E Hr. pose proof (disk_fd_range _ Hfd). unfold fs_close_fd.
  assert (Hslot : ifsdir_slot fd s = None).
  { unfold ifsdir_slot, VFS_IFSDIR_FD_BASE. by destruct (Z.ltb_spec (fd - 256) 0); [|lia]. }
  rewrite (bind_run _ _ s None s) by (unfold get_state; by rewrite Hslot).
  rewrite (bind_run _ _ s (ifs_is_fd fd (v_ifs s)) s) by done. rewrite disk_fd_not_archive, Hfd, Hc by done.
  cbn [linked andb fmap option_fmap option_map]. rewrite (bind_run _ _ s r (set_disk d2 s)) by by apply disk_call_run.
  unfold posix_ret. by destruct (Z.ltb_spec r 0); [lia|].
Qed.

(** A write to a standard descriptor goes where it points. *)
Lemma write_std_run std t buf s :
  is_std std = true -> std_target std s = t -> 0 <= t -> write std buf s = fs_write_fd t buf s.
Proof.
  intros Hstd Ht Ht0. destruct (std_not_file std s Hstd) as [F1 F2]. unfold write.
  rewrite (bind_run _ _ s false s).
  2:{ unfold fs_is_file_fd. rewrite (bind_run _ _ s (ifs_is_fd std (v_ifs s)) s) by done. by rewrite F1, F2. }
  rewrite (bind_run _ _ s t s); [by rewrite Hstd; destruct (Z.leb_spec 0 t); [|lia]|].
  unfold vfs_std_of. rewrite Hstd. unfold get_state. by rewrite Ht.
Qed.

(** The three tables of the standard and the saved descriptors. *)
Definition same_tables s s' : Prop :=
  vfs_std_target s' = vfs_std_target s /\ vfs_std_alias s' = vfs_std_alias s /\ vfs_saved s' = vfs_saved s.

End fd.

(** Two writes and a mkdir under [> /b] with the disk of [one_file]. *)
Definition demo_body : ST (vfs memdisk) Z := write 1 [7];; mkdir (Some [47; 100]) 0;; write 1 [8].


(** ** The archive before the disk *)

Section image.
Context (arch : list Z) (arch_small : arch_len arch < 2 ^ 62).
Context {D : Type} `{!Disk D, !DiskLaws D}.
Implicit Types s : vfs D.

(** A path that fits resolves to its components, in a form the archive takes. *)
Lemma resolve_here_run s path :
  vfs_inv arch s -> no_nul path -> (length (vfs_cwd s) + length path + 3 < 256)%nat -> here (vfs_cwd s) path <> [] ->
  exists full, resolve_here path s = Some (full, s) /\ path_ok full /\
    wanted full (v_ifs s) = join (here (vfs_cwd s) path).
Proof.
  intros (_ & _ & _ & _ & _ & Hz) Hp Hfit Hne.
  destruct (vfs_resolve_value (vfs_cwd s) path Hz Hp) as (Hres & Hplain & Hlen); [unfold VFS_CWD_MAX; lia|].
  exists (rooted (here (vfs_cwd s) path)). split; [|split].
  - unfold resolve_here. rewrite (bind_run _ _ s (vfs_cwd s) s) by done. unfold of_option. by rewrite Hres.
  - constructor; [done|by apply join_no_nul, plain_seg].
  - assert (Hfull : no_nul (rooted (here (vfs_cwd s) path))) by (constructor; [done|by apply join_no_nul, plain_seg]).
    destruct (norm_str_fits _ Hfull) as [Hstr _]; [apply short_fits; lia|].
    unfold wanted. destruct (touches (rooted (here (vfs_cwd s) path))) eqn:Et; [by rewrite Hstr, norm_rooted|].
    apply (untouched _ []) in Et. unfold norm_str in Hstr. rewrite Et, norm_rooted in Hstr by done.
    exfalso. apply Hne. apply join_nil; [by apply plain_seg|done].
Qed.

(** The archive opens the first regular file of that name in a free slot. *)
Lemma open_found path t off size i :
  path_ok path -> ifs_inv arch t -> find_file (wanted path t) (all_entries arch) = Some (off, size) ->
  free_slot (fs_open_files t) 0 = Some i ->
  exists t', ifs_open arch path 0 t = Some (FS_FD_BASE + Z.of_nat i, t') /\ ifs_inv arch t' /\
    fs_file (FS_FD_BASE + Z.of_nat i) t' = Some (i, MkFile off size 0 true).
Proof.
  intros Hp Ht Hfind Hfree. pose proof Ht as (Hl & Hb & _).
  destruct (fs_lookup_spec arch arch_small path t Hp Hb) as (buf & Hlook & Hlb & _). rewrite Hfind in Hlook.
  pose proof (find_file_ok arch _ _ _ _ (all_entries_ok arch arch_small) Hfind).
  destruct (free_slot_spec _ _ _ Hfree) as (Hlt & _).
  exists (set_files (<[i := MkFile off size 0 true]> (fs_open_files (set_folded buf t))) (set_folded buf t)). split; [|split].
  - unfold ifs_open. cbn [Z.land Z.eqb negb]. rewrite Hlook. cbn [mbind option_bind].
    change (fs_open_files (set_folded buf t)) with (fs_open_files t). by rewrite Hfree.
  - apply inv_update; [by apply inv_folded|]. intros _. simpl. lia.
  - unfold fs_file, FS_MAX_OPEN in *. replace (FS_FD_BASE + Z.of_nat i - FS_FD_BASE) with (Z.of_nat i) by lia.
    destruct (Z.ltb_spec (Z.of_nat i) 0); [lia|]. destruct (Z.leb_spec (Z.of_nat 16) (Z.of_nat i)); [lia|]. cbn [orb].
    rewrite Nat2Z.id. cbn [fs_open_files set_files]. by rewrite list_lookup_insert_eq by (cbn; lia).
Qed.

(** [read] of an open archive descriptor is the archive's. *)
Lemma read_archive_run fd n s i f r b t' :
  fs_file fd (v_ifs s) = Some (i, f) -> ifs_read arch fd n (v_ifs s) = Some (r, b, t') ->
  read arch fd n s = Some ((r, b), set_ifs t' s).
Proof.
  intros Hf Hread.
  assert (Hfd : ifs_fd fd s = Some (true, s)) by (unfold ifs_fd, get_state, ifs_is_fd; by rewrite Hf).
  unfold read, fs_is_file_fd, fs_read_fd. rewrite (bind_run _ _ s true s) by by rewrite (bind_run _ _ _ _ _ Hfd).
  rewrite (bind_run _ _ _ _ _ Hfd). unfold on_ifs, within. by rewrite Hread.
Qed.

(** Opening a path of the image for reading. *)
Lemma nl_open_image d s path off size i mode :
  vfs_reachable arch d s -> no_nul path -> (length (vfs_cwd s) + length path + 3 < 256)%nat ->
  here (vfs_cwd s) path <> [] ->
  find_file (join (here (vfs_cwd s) path)) (all_entries arch) = Some (off, size) ->
  free_slot (fs_open_files (v_ifs s)) 0 = Some i ->
  exists t', nl_open arch (Some path) 0 mode s = Some (FS_FD_BASE + Z.of_nat i, set_ifs t' s) /\ ifs_inv arch t' /\
    fs_file (FS_FD_BASE + Z.of_nat i) t' = Some (i, MkFile off size 0 true).
Proof.
  intros Hr Hp Hfit Hne Hfind Hfree. pose proof (vfs_reachable_inv arch arch_small d s Hr) as Hs.
  destruct (resolve_here_run s path Hs Hp Hfit Hne) as (full & Hres & Hfull & Hw). rewrite <- Hw in Hfind.
  destruct (open_found full (v_ifs s) off size i Hfull (proj1 Hs) Hfind Hfree) as (t' & Hopen & Ht' & Hfile).
  exists t'. split; [|done]. unfold nl_open. rewrite (bind_run _ _ _ _ _ Hres). cbv zeta.
  change (has 0 VFS_O_ACCMODE || has 0 VFS_O_CREAT) with false. change (has 0 VFS_O_DIRECTORY) with false. cbn [negb andb].
  rewrite (bind_run _ _ s (FS_FD_BASE + Z.of_nat i) (set_ifs t' s)).
  - by destruct (Z.leb_spec 0 (FS_FD_BASE + Z.of_nat i)); [|unfold FS_FD_BASE in *; lia].
  - unfold archive_open, on_ifs, within. by rewrite Hopen.
Qed.

(** A file of the image is served from the image: opening for reading, from
    any working directory and with any disk attached, a path whose components
    name a regular file of the archive answers an archive descriptor without
    asking the disk, and reading from it gives the bytes of that file, whatever
    the disk holds under the same name. *)
Theorem image_first d s path off size i mode :
  vfs_reachable arch d s -> no_nul path -> (length (vfs_cwd s) + length path + 3 < 256)%nat ->
  here (vfs_cwd s) path <> [] ->
  find_file (join (here (vfs_cwd s) path)) (all_entries arch) = Some (off, size) ->
  free_slot (fs_open_files (v_ifs s)) 0 = Some i ->
  exists s', nl_open arch (Some path) 0 mode s = Some (FS_FD_BASE + Z.of_nat i, s') /\ v_disk s' = v_disk s /\
    forall n, 0 <= n < 2 ^ 64 -> exists s2,
      read arch (FS_FD_BASE + Z.of_nat i) n s' =
        Some ((Z.min n size, take (Z.to_nat (Z.min n size)) (drop (Z.to_nat off) arch)), s2) /\ v_disk s2 = v_disk s.
Proof.
  intros Hr Hp Hfit Hne Hfind Hfree.
  destruct (nl_open_image d s path off size i mode Hr Hp Hfit Hne Hfind Hfree) as (t' & Hopen & Ht' & Hfile).
  exists (set_ifs t' s). split; [done|]. split; [done|]. intros n Hn.
  destruct (read_spec arch arch_small _ n t' i _ Ht' Hn Hfile) as (Hread & _ & _).
  cbn [f_size f_pos f_data] in Hread. rewrite Z.sub_0_r, Z.add_0_r in Hread.
  eexists. split; [by apply (read_archive_run _ n (set_ifs t' s) i _ _ _ _ Hfile Hread)|done].
Qed.
End image.

(** The image's file [a] on a machine whose disk has a file of that name. *)
Lemma image_first_witness :
  exists s', nl_open demo_arch (Some [46; 47; 97]) 0 0 (vfs_start (MemDisk [([47; 97], [1])] [-1] [] false)) = Some (64, s') /\
    exists s2, read demo_arch 64 10 s' = Some ((2, [120; 121]), s2).
Proof.
  destruct (image_first demo_arch demo_small (MemDisk [([47; 97], [1])] [-1] [] false)
    (vfs_start (MemDisk [([47; 97], [1])] [-1] [] false)) [46; 47; 97] 512 2 0 0) as (s' & Hopen & _ & Hread).
  - apply rtc_refl.
  - by repeat constructor.
  - simpl. lia.
  - vm_compute. discriminate.
  - vm_compute. reflexivity.
  - reflexivity.
  - exists s'. split; [exact Hopen|]. destruct (Hread 10 ltac:(lia)) as (s2 & E & _). exists s2. exact E.
Defined.

(** ** Reads at a position *)

Section pread.
Context (arch : list Z) (arch_small : arch_len arch < 2 ^ 62).
Context {D : Type} `{!Disk D}.
Implicit Types s : vfs D.

(** The state with the position of the open file [i] at [p]. *)
Definition at_pos (i : nat) (f : FsFile) (p : Z) s : vfs D :=
  set_ifs (set_files (<[i := set_pos p f]> (fs_open_files (v_ifs s))) (v_ifs s)) s.

Lemma at_pos_file fd i f p s : fs_file fd (v_ifs s) = Some (i, f) -> fs_file fd (v_ifs (at_pos i f p s)) = Some (i, set_pos p f).
Proof.
  intros Hf. pose proof (fs_file_some _ _ _ _ Hf) as (F1 & F2 & F3 & F4). unfold fs_file, FS_MAX_OPEN in *. subst fd.
  replace (FS_FD_BASE + Z.of_nat i - FS_FD_BASE) with (Z.of_nat i) by lia.
  destruct (Z.ltb_spec (Z.of_nat i) 0); [lia|]. destruct (Z.leb_spec (Z.of_nat 16) (Z.of_nat i)); [lia|]. cbn [orb].
  rewrite Nat2Z.id. cbn. rewrite list_lookup_insert_eq by by eapply lookup_lt_Some. cbn. by rewrite F2.
Qed.

Lemma at_pos_twice i f p q s : at_pos i (set_pos p f) q (at_pos i f p s) = at_pos i f q s.
Proof. unfold at_pos, set_ifs, set_files. cbn. by rewrite list_insert_insert_eq. Qed.

Lemma at_pos_same fd i f s : fs_file fd (v_ifs s) = Some (i, f) -> at_pos i f (f_pos f) s = s.
Proof.
  intros (F1 & _)%fs_file_some. unfold at_pos, set_ifs, set_files. rewrite list_insert_id; [by destruct s as [[]]|].
  rewrite F1. by destruct f.
Qed.

Lemma seek_run fd off whence i f s :
  fs_file fd (v_ifs s) = Some (i, f) ->
  let target := (if whence =? 0 then 0 else if whence =? 1 then f_pos f else f_size f) + off in
  0 <= target < 2 ^ 63 -> fs_lseek_fd fd off whence s = Some (Z.min target (f_size f), at_pos i f (Z.min target (f_size f)) s).
Proof.
  intros Hf target Ht. unfold fs_lseek_fd. rewrite (bind_run _ _ s true s) by (unfold ifs_fd, get_state, ifs_is_fd; by rewrite Hf).
  unfold ifs_ret, on_ifs, within, ifs_lseek. rewrite Hf. cbv zeta. fold target.
  assert (swrap 64 target = target) as -> by (unfold swrap; change (64 - 1) with 63; zdiv).
  destruct (Z.ltb_spec target 0); [lia|].
  assert ((if f_size f <? target then f_size f else target) = Z.min target (f_size f)) as -> by (zcases; lia). done.
Qed.

Lemma seek_negative fd off i f s :
  fs_file fd (v_ifs s) = Some (i, f) -> - 2 ^ 63 <= off < 0 ->
  fs_lseek_fd fd off 0 s = Some (-1, set_ifs (set_errno EINVAL (v_ifs s)) s).
Proof.
  intros Hf Hoff. unfold fs_lseek_fd. rewrite (bind_run _ _ s true s) by (unfold ifs_fd, get_state, ifs_is_fd; by rewrite Hf).
  unfold ifs_ret, on_ifs, within, ifs_lseek. rewrite Hf. cbv zeta. cbv [Z.eqb Pos.eqb]; cbv iota.
  assert (swrap 64 (0 + off) = off) as -> by (unfold swrap; change (64 - 1) with 63; zdiv).
  by destruct (Z.ltb_spec off 0); [|lia].
Qed.

(** Asking for the position changes nothing. *)
Lemma keep_run s fd i f :
  ifs_inv arch (v_ifs s) -> fs_file fd (v_ifs s) = Some (i, f) -> fs_lseek_fd fd 0 1 s = Some (f_pos f, s).
Proof.
  intros Hi Hf. pose proof (fs_file_some _ _ _ _ Hf) as (F1 & F2 & _).
  destruct (inv_file arch _ i f Hi F1 F2) as (H1 & H2 & H3).
  rewrite (seek_run fd 0 1 i f s Hf) by (cbn; lia). cbv [Z.eqb Pos.eqb]; cbv iota. rewrite Z.add_0_r, Z.min_l by lia.
  by rewrite (at_pos_same fd).
Qed.

(** A positional read of an archive file returns the bytes at the offset,
    as many as asked for and there, and leaves every position, that of its own
    descriptor too, where it was; before the start it is EINVAL. *)
Theorem pread_keeps_position s fd n off i f :
  ifs_inv arch (v_ifs s) -> fs_file fd (v_ifs s) = Some (i, f) -> 0 <= n < 2 ^ 64 -> - 2 ^ 63 <= off < 2 ^ 63 ->
  (off < 0 -> pread arch fd n off s = Some ((-1, []), set_ifs (set_errno EINVAL (v_ifs s)) s)) /\
  (0 <= off ->
   let from := Z.min off (f_size f) in
   let k := Z.min n (f_size f - from) in
   pread arch fd n off s = Some ((k, take (Z.to_nat k) (drop (Z.to_nat (f_data f + from)) arch)), s)).
Proof.
  intros Hi Hf Hn Hoff64. pose proof (fs_file_some _ _ _ _ Hf) as (F1 & F2 & _).
  destruct (inv_file arch _ i f Hi F1 F2) as (H1 & H2 & H3). pose proof (keep_run s fd i f Hi Hf) as Hkeep.
  split; intros Hoff; unfold pread; rewrite (bind_run _ _ _ _ _ Hkeep); (destruct (Z.ltb_spec (f_pos f) 0); [lia|]).
  - by rewrite (bind_run _ _ s (-1) (set_ifs (set_errno EINVAL (v_ifs s)) s)) by (apply (seek_negative fd off i f); done || lia).
  - set (from := Z.min off (f_size f)). set (k := Z.min n (f_size f - from)). set (s1 := at_pos i f from s).
    rewrite (bind_run _ _ s from s1) by (unfold s1, from; by rewrite (seek_run fd off 0 i f s Hf) by (cbn; lia)).
    destruct (Z.ltb_spec from 0); [lia|]. pose proof (at_pos_file fd i f from s Hf) as Hf1. fold s1 in Hf1.
    assert (Hi1 : ifs_inv arch (v_ifs s1)) by (apply inv_update; [done|]; intros _; simpl; lia).
    destruct (read_spec arch arch_small fd n (v_ifs s1) i _ Hi1 Hn Hf1) as (Hread & Hk & _). cbn [f_size f_pos f_data set_pos] in Hread, Hk.
    fold k in Hread, Hk. set (bytes := take _ _) in *. set (s2 := at_pos i (set_pos from f) (from + k) s1).
    rewrite (bind_run _ _ s1 (k, bytes) s2).
    2:{ unfold fs_read_fd. rewrite (bind_run _ _ s1 true s1) by (unfold ifs_fd, get_state, ifs_is_fd; by rewrite Hf1).
        unfold on_ifs, within. by rewrite Hread. }
    pose proof (at_pos_file fd i (set_pos from f) (from + k) s1 Hf1) as Hf2. fold s2 in Hf2.
    rewrite (then_run _ _ s2 (f_pos f) s); [done|].
    rewrite (seek_run fd (f_pos f) 0 i _ s2 Hf2) by (cbn; lia). cbv [Z.eqb Pos.eqb]; cbv iota; cbn [f_size set_pos].
    rewrite Z.add_0_l, Z.min_l by lia. unfold s2, s1. rewrite !at_pos_twice. by rewrite (at_pos_same fd).
Qed.
End pread.

Lemma pread_keeps_position_witness :
  exists s, nl_open demo_arch (Some [97]) 0 0 (vfs_start blank_disk) = Some (64, s) /\
    pread demo_arch 64 5 1 s = Some ((1, [121]), s).
Proof.
  destruct (nl_open demo_arch (Some [97]) 0 0 (vfs_start blank_disk)) as [[fd s]|] eqn:E; [|vm_compute in E; discriminate E].
  assert (Hr : vfs_reachable demo_arch blank_disk s).
  { eapply rtc_l; [|apply rtc_refl]. apply (vfs_step_intro demo_arch 0 (OOpen (Some [97]) 0 0)).
    - intros q [= <-]. by repeat constructor.
    - cbn [vfs_exec]. unfold drop_answer. by rewrite (bind_run _ _ _ _ _ E). }
  assert (E2 : match nl_open demo_arch (Some [97]) 0 0 (vfs_start blank_disk) with
               | Some (fd, s) => (fd, fs_file 64 (v_ifs s)) | None => (0, None) end = (64, Some (0%nat, MkFile 512 2 0 true)))
    by (vm_compute; reflexivity).
  rewrite E in E2. injection E2 as -> Hf. exists s. split; [reflexivity|].
  destruct (pread_keeps_position demo_arch demo_small s 64 5 1 0 _
              (proj1 (vfs_reachable_inv demo_arch demo_small blank_disk s Hr)) Hf ltac:(lia) ltac:(lia)) as [_ H].
  rewrite (H ltac:(lia)). vm_compute. reflexivity.
Defined.

(** ** A machine without a disk *)

Section diskless.
Context (arch : list Z) (arch_small : arch_len arch < 2 ^ 62).
#[local] Existing Instance no_disk.
Implicit Types s : vfs unit.

(** Refused with [e]: the answer is -1, [errno] is set, and nothing changes but
    the archive's scratch buffer. *)
Definition refused (e : Z) s (r : option (Z * vfs unit)) : Prop :=
  exists buf, r = Some (-1, set_ifs (set_errno e (set_folded buf (v_ifs s))) s).

Lemma refused_now e s : refused e s (fail_with e s).
Proof. exists (folded (v_ifs s)). unfold fail_with. by destruct s as [[]]. Qed.

Lemma resolve_here_some s path : vfs_inv arch s -> no_nul path -> exists full, resolve_here path s = Some (full, s) /\ no_nul full.
Proof.
  intros Hs Hp. destruct (safe_resolve arch path Hp s Hs) as (full & s' & E & (Hz & _) & _).
  assert (s' = s) as ->; [|by exists full].
  unfold resolve_here in E. rewrite (bind_run _ _ s (vfs_cwd s) s) in E by done. unfold of_option in E.
  by destruct (vfs_resolve _ _ _); [injection E|].
Qed.

(** The calls that would change a file, and opening for one. *)
Inductive change :=
| ChOpen (path : option (list Z)) (flags mode : Z)
| ChWrite (fd : Z) (buf : list Z)
| ChPwrite (fd : Z) (buf : list Z) (off : Z)
| ChFtruncate (fd len : Z)
| ChTruncate (path : option (list Z)) (len : Z)
| ChMkdir (path : option (list Z)) (mode : Z)
| ChRmdir (path : option (list Z))
| ChRename (path path2 : option (list Z))
| ChUnlink (path : option (list Z))
| ChMkstemp (tmpl : option (list Z)).

Definition change_exec (c : change) : ST (vfs unit) Z :=
  match c with
  | ChOpen p flags mode => nl_open arch p flags mode
  | ChWrite fd buf => fs_write_fd fd buf
  | ChPwrite fd buf off => pwrite fd buf off
  | ChFtruncate fd len => ftruncate fd len
  | ChTruncate p len => truncate p len
  | ChMkdir p mode => mkdir p mode
  | ChRmdir p => rmdir p
  | ChRename p q => rename p q
  | ChUnlink p => unlink arch p
  | ChMkstemp p => '(r, _) ← mkstemp arch p; mret r
  end.

(** Is the path, from the working directory, a regular file of the image? *)
Definition in_image (p : list Z) s : bool :=
  match resolve_here p s with
  | Some (full, _) => match exists_archive arch full s with Some (b, _) => b | None => false end
  | None => false
  end.

(** The error each of them is refused with. *)
Definition change_errno (c : change) s : Z :=
  let fd_errno fd := if ifs_is_fd fd (v_ifs s) then EROFS else EBADF in
  let path_errno (p : option (list Z)) := match p with Some _ => EROFS | None => EINVAL end in
  match c with
  | ChOpen None _ _ => EINVAL
  | ChOpen (Some _) flags _ => if has flags VFS_O_ACCMODE then EROFS else ENOENT
  | ChWrite fd _ => fd_errno fd
  | ChPwrite fd _ off => if ifs_is_fd fd (v_ifs s) && (off <? 0) then EINVAL else fd_errno fd
  | ChFtruncate fd len => if len <? 0 then EINVAL else fd_errno fd
  | ChTruncate p _ | ChMkdir p _ | ChRmdir p | ChMkstemp p => path_errno p
  | ChRename (Some _) (Some _) => EROFS
  | ChRename _ _ => EINVAL
  | ChUnlink None => EINVAL
  | ChUnlink (Some p) => if in_image p s then EROFS else ENOENT
  end.

Definition path_arg (p : option (list Z)) : Prop := forall q, p = Some q -> no_nul q.

(** C strings; opening for writing, or to create a file the image does not have;
    offsets of a [long long]. *)
Definition change_ok (c : change) s : Prop :=
  match c with
  | ChOpen None _ _ => True
  | ChOpen (Some p) flags _ => no_nul p /\ has flags VFS_O_DIRECTORY = false /\
      (has flags VFS_O_ACCMODE = true \/ has flags VFS_O_CREAT = true /\ in_image p s = false)
  | ChPwrite _ _ off => - 2 ^ 63 <= off < 2 ^ 63
  | ChWrite _ _ | ChFtruncate _ _ => True
  | ChTruncate p _ | ChMkdir p _ | ChRmdir p | ChUnlink p | ChMkstemp p => path_arg p
  | ChRename p q => path_arg p /\ path_arg q
  end.

Lemma write_refused s fd buf : refused (if ifs_is_fd fd (v_ifs s) then EROFS else EBADF) s (fs_write_fd fd buf s).
Proof.
  unfold fs_write_fd. rewrite (bind_run _ _ s (ifs_is_fd fd (v_ifs s)) s) by done.
  destruct (ifs_is_fd fd (v_ifs s)); [apply refused_now|]. rewrite andb_false_r. apply refused_now.
Qed.

Lemma ftruncate_refused s fd len :
  refused (if len <? 0 then EINVAL else if ifs_is_fd fd (v_ifs s) then EROFS else EBADF) s (ftruncate fd len s).
Proof.
  unfold ftruncate. destruct (len <? 0); [apply refused_now|]. rewrite andb_false_r.
  rewrite (bind_run _ _ s (ifs_is_fd fd (v_ifs s)) s) by done. destruct (ifs_is_fd fd (v_ifs s)); apply refused_now.
Qed.

(** The position is put back after the write that is refused. *)
Lemma pwrite_refused s fd buf off :
  vfs_inv arch s -> - 2 ^ 63 <= off < 2 ^ 63 -> refused (change_errno (ChPwrite fd buf off) s) s (pwrite fd buf off s).
Proof.
  intros (Hi & _) Hoff. cbn [change_errno]. unfold pwrite. destruct (ifs_is_fd fd (v_ifs s)) eqn:Efd; cbn [andb].
  2:{ rewrite (bind_run _ _ s (-1) (set_ifs (set_errno EBADF (v_ifs s)) s)).
      - exists (folded (v_ifs s)). by destruct s as [[]].
      - unfold fs_lseek_fd. rewrite (bind_run _ _ s false s) by (unfold ifs_fd, get_state; by rewrite Efd).
        by rewrite andb_false_r. }
  apply bool_decide_eq_true in Efd as [[i f] Hf]. pose proof (fs_file_some _ _ _ _ Hf) as (F1 & F2 & _).
  destruct (inv_file arch _ i f Hi F1 F2) as (H1 & H2 & H3).
  rewrite (bind_run _ _ _ _ _ (keep_run arch arch_small s fd i f Hi Hf)). destruct (Z.ltb_spec (f_pos f) 0); [lia|].
  destruct (Z.ltb_spec off 0).
  { rewrite (bind_run _ _ s (-1) (set_ifs (set_errno EINVAL (v_ifs s)) s)) by (apply (seek_negative fd off i f); done || lia).
    exists (folded (v_ifs s)). by destruct s as [[]]. }
  set (from := Z.min off (f_size f)). set (s1 := at_pos i f from s).
  rewrite (bind_run _ _ s from s1) by (unfold s1, from; by rewrite (seek_run fd off 0 i f s Hf) by (cbn; lia)).
  destruct (Z.ltb_spec from 0); [lia|]. pose proof (at_pos_file fd i f from s Hf) as Hf1. fold s1 in Hf1.
  set (s2 := set_ifs (set_errno EROFS (v_ifs s1)) s1).
  rewrite (bind_run _ _ s1 (-1) s2).
  2:{ unfold fs_write_fd. by rewrite (bind_run _ _ s1 true s1) by (unfold ifs_fd, get_state, ifs_is_fd; by rewrite Hf1). }
  assert (Hf2 : fs_file fd (v_ifs s2) = Some (i, set_pos from f)) by exact Hf1.
  rewrite (then_run _ _ s2 (f_pos f) (at_pos i (set_pos from f) (f_pos f) s2)).
  2:{ rewrite (seek_run fd (f_pos f) 0 i _ s2 Hf2) by (cbn; lia). cbv [Z.eqb Pos.eqb]; cbv iota; cbn [f_size set_pos].
      by rewrite Z.add_0_l, Z.min_l by lia. }
  exists (folded (v_ifs s)). unfold mret, ST_ret. do 2 f_equal.
  change (at_pos i (set_pos from f) (f_pos f) s2) with
    (set_ifs (set_errno EROFS (v_ifs (at_pos i (set_pos from f) (f_pos f) s1))) (at_pos i (set_pos from f) (f_pos f) s1)).
  unfold s1. rewrite at_pos_twice, (at_pos_same fd i f s Hf). by destruct s as [[]].
Qed.

(** What [exists_archive] finds out, and what else it writes. *)
Lemma exists_run s full :
  vfs_inv arch s -> no_nul full -> exists b buf, exists_archive arch full s = Some (b, set_ifs (set_folded buf (v_ifs s)) s) /\
    length buf = 256%nat /\ fs_lookup arch full (v_ifs s) = Some (find_file (cstr buf) (all_entries arch), set_folded buf (v_ifs s)) /\
    b = match find_file (cstr buf) (all_entries arch) with Some _ => true | None => false end.
Proof.
  intros Hs Hz. destruct (fs_lookup_any arch arch_small full (v_ifs s) Hz) as (b & Hlook & Hl); [apply Hs|].
  eexists _, b. split; [|split; [exact Hl|split; [exact Hlook|reflexivity]]].
  unfold exists_archive, on_ifs, within, ifs_exists. rewrite Hlook. reflexivity.
Qed.

Lemma unlink_refused s p : vfs_inv arch s -> no_nul p -> refused (if in_image p s then EROFS else ENOENT) s (unlink arch (Some p) s).
Proof.
  intros Hs Hp. destruct (resolve_here_some s p Hs Hp) as (full & Hres & Hz).
  destruct (exists_run s full Hs Hz) as (b & buf & He & _). unfold in_image. rewrite Hres, He.
  unfold unlink, disk_path_op. rewrite (bind_run _ _ _ _ _ Hres). rewrite (bind_run _ _ s false s) by done.
  rewrite (bind_run _ _ _ _ _ He). by exists buf.
Qed.

(** Opening for writing, or to create what is not there. *)
Lemma open_refused s p flags mode :
  vfs_inv arch s -> change_ok (ChOpen (Some p) flags mode) s ->
  refused (if has flags VFS_O_ACCMODE then EROFS else ENOENT) s (nl_open arch (Some p) flags mode s).
Proof.
  intros Hs (Hp & Hdir & Hwant). destruct (resolve_here_some s p Hs Hp) as (full & Hres & Hz).
  unfold nl_open. rewrite (bind_run _ _ _ _ _ Hres). cbv zeta. rewrite Hdir. cbn [negb andb].
  assert (has flags VFS_O_ACCMODE || has flags VFS_O_CREAT = true) as -> by (destruct Hwant as [-> | [-> _]]; [done|apply orb_true_r]).
  cbn [negb andb]. rewrite (bind_run _ _ s (-1) s) by done. change (0 <=? -1) with false. cbv iota.
  rewrite (bind_run _ _ s None s), (bind_run _ _ s false s) by done.
  unfold archive_open, on_ifs, within, ifs_open. destruct (has flags VFS_O_ACCMODE) eqn:Eacc.
  - unfold has, VFS_O_ACCMODE in Eacc. rewrite Eacc. exists (folded (v_ifs s)). by destruct s as [[]].
  - unfold has, VFS_O_ACCMODE in Eacc. rewrite Eacc. unfold has, VFS_O_DIRECTORY in Hdir. change NL_O_DIRECTORY with 65536. rewrite Hdir.
    destruct Hwant as [?|[_ Himg]]; [done|].
    destruct (exists_run s full Hs Hz) as (b & buf & He & Hl & Hlook & Hb).
    unfold in_image in Himg. rewrite Hres, He in Himg. rewrite Hlook. cbn [mbind option_bind].
    destruct (find_file _ _); [congruence|]. by exists buf.
Qed.

End diskless.

