(* ===== verification/Env.v ===== *)
(** The process environment, exit handlers and thread-local keys of the small
    C library, [src/unikernel/nolibc/misc.c].

    The vector [environ] is the list of its strings; [nl_env_owned] is null
    until the first change copies the vector, from then on [environ] is the
    copy.  A failing allocation is an argument. *)

From S2P Require Import Prelude InitFs.

Definition ch_eq : Z := 61.

Record env_state := EnvState {
  nl_environ : option (list (list Z));      (* [None]: the null pointer *)
  nl_env_owned : bool;                      (* [nl_environ] is our copy *)
  nl_env_cap : Z
}.

(** ** getenv *)

(** The loop over one entry: [name] and the sign in front of the value. *)
Fixpoint entry_value (entry name : list Z) : option (list Z) :=
  match name with
  | [] => if hd0 entry =? ch_eq then Some (tail entry) else None
  | c :: name' => if hd0 entry =? c then entry_value (tail entry) name' else None
  end.

Fixpoint getenv_from (es : list (list Z)) (name : list Z) : option (list Z) :=
  match es with
  | [] => None
  | e :: es' => match entry_value e name with Some v => Some v | None => getenv_from es' name end
  end.

Definition getenv (name : list Z) (s : env_state) : option (list Z) :=
  match nl_environ s with None => None | Some es => getenv_from es name end.

(** ** setenv and unsetenv *)

(** The vector is copied once; [None] when that allocation fails. *)
Definition nl_env_adopt (mem : bool) (s : env_state) : option env_state :=
  if nl_env_owned s then Some s else
  if negb mem then None else
  let es := default [] (nl_environ s) in
  Some (EnvState (Some es) true (Z.of_nat (length es) + 8)).

(** The index of the first entry of that name. *)
Fixpoint nl_env_find (es : list (list Z)) (name : list Z) : option nat :=
  match es with
  | [] => None
  | e :: es' => match entry_value e name with Some _ => Some O | None => S <$> nl_env_find es' name end
  end.

(** [mem1], [mem2], [mem3]: the copy of the vector, the entry, the growth. *)
Definition setenv (name value : list Z) (overwrite : bool) (mem1 mem2 mem3 : bool) (s : env_state) : Z * env_state :=
  match nl_env_adopt mem1 s with
  | None => (-1, s)
  | Some s =>
      let es := default [] (nl_environ s) in
      let at_ := nl_env_find es name in
      if bool_decide (is_Some at_) && negb overwrite then (0, s) else
      if negb mem2 then (-1, s) else
      let entry := name ++ ch_eq :: value in
      match at_ with
      | Some i => (0, EnvState (Some (<[i := entry]> es)) true (nl_env_cap s))
      | None =>
          if nl_env_cap s <=? Z.of_nat (length es) + 1 then
            if negb mem3 then (-1, s)
            else (0, EnvState (Some (es ++ [entry])) true (nl_env_cap s * 2 + 8))
          else (0, EnvState (Some (es ++ [entry])) true (nl_env_cap s))
      end
  end.

(** The entries behind the one removed move down. *)
Definition unsetenv (name : list Z) (mem : bool) (s : env_state) : Z * env_state :=
  match nl_env_adopt mem s with
  | None => (-1, s)
  | Some s =>
      let es := default [] (nl_environ s) in
      match nl_env_find es name with
      | None => (0, s)
      | Some i => (0, EnvState (Some (take i es ++ drop (S i) es)) true (nl_env_cap s))
      end
  end.

(** ** Exit handlers *)

Definition NL_ATEXIT_MAX : nat := 32.

(** Handlers by name, the newest last. *)
Definition atexit (fn : nat) (fns : list nat) : Z * list nat :=
  if (NL_ATEXIT_MAX <=? length fns)%nat then (-1, fns) else (0, fns ++ [fn]).

(** The handlers [exit] runs; [run fn] are those that handler registers. *)
Fixpoint exit_handlers (fuel : nat) (run : nat -> list nat) (fns : list nat) : list nat :=
  match fuel with
  | O => []
  | S f =>
      match last fns with
      | None => []
      | Some fn =>
          let fns := take (length fns - 1) fns in
          let fns := foldl (fun l g => snd (atexit g l)) fns (run fn) in
          fn :: exit_handlers f run fns
      end
  end.

(** ** Thread-local keys *)

Definition NL_KEYS : Z := 8.

Record key_state := KeyState { nl_key_val : list Z; nl_keys_used : Z }.

Definition pthread_key_create (s : key_state) : Z * Z * key_state :=
  if NL_KEYS <=? nl_keys_used s then (11, 0, s)
  else (0, nl_keys_used s, KeyState (nl_key_val s) (nl_keys_used s + 1)).

Definition pthread_setspecific (key val : Z) (s : key_state) : Z * key_state :=
  if NL_KEYS <=? key then (22, s) else (0, KeyState (<[Z.to_nat key := val]> (nl_key_val s)) (nl_keys_used s)).

Definition pthread_getspecific (key : Z) (s : key_state) : Z :=
  if key <? NL_KEYS then nl_key_val s !!! Z.to_nat key else 0.

(** ** The environment as a map *)

(** A name: no NUL and no equals sign. *)
Definition name_ok (name : list Z) : Prop := Forall (fun c => c <> 0 /\ c <> ch_eq) name.

Lemma entry_value_spec e name v :
  Forall (fun c => c <> 0) name -> entry_value e name = Some v <-> e = name ++ ch_eq :: v.
Proof.
  intros Hn. revert e. induction Hn as [|c name Hc Hn IH]; intros e; cbn [entry_value app].
  - destruct e as [|b e]; cbn [hd0 tail]; [done|]. destruct (Z.eqb_spec b ch_eq) as [->|Hb]; [|split; congruence].
    split; congruence.
  - destruct e as [|b e]; cbn [hd0 tail].
    + destruct (Z.eqb_spec 0 c); [congruence|done].
    + destruct (Z.eqb_spec b c) as [->|Hb]; [|split; congruence]. rewrite IH. split; congruence.
Qed.

Lemma name_ok_no_nul name : name_ok name -> Forall (fun c => c <> 0) name.
Proof. intros H. eapply Forall_impl; [exact H|]. by intros c [? _]. Qed.

(** Entries of different names do not answer for each other. *)
Lemma entry_other name name' v :
  name_ok name -> name_ok name' -> name <> name' -> entry_value (name ++ ch_eq :: v) name' = None.
Proof.
  intros Hn Hn' Hne. destruct (entry_value _ _) as [w|] eqn:E; [|done].
  apply entry_value_spec in E; [|by apply name_ok_no_nul]. exfalso. apply Hne. clear Hne. revert name' Hn' E.
  induction Hn as [|c name [_ Hc] Hn IH]; intros name' Hn' E; destruct Hn' as [|c' name' [_ Hc'] Hn']; simpl in E;
    [done|congruence|congruence|]. injection E as -> E. f_equal. by apply IH.
Qed.

Lemma entry_same name v : name_ok name -> entry_value (name ++ ch_eq :: v) name = Some v.
Proof. intros Hn. apply entry_value_spec; [by apply name_ok_no_nul|done]. Qed.

Lemma find_spec es name i :
  nl_env_find es name = Some i ->
  exists e v, es !! i = Some e /\ entry_value e name = Some v /\ Forall (fun e => entry_value e name = None) (take i es).
Proof.
  revert i. induction es as [|e es IH]; intros i; cbn [nl_env_find]; [done|].
  destruct (entry_value e name) as [v|] eqn:E; [intros [= <-]; by exists e, v|].
  destruct (nl_env_find es name) as [j|]; [|done]. intros [= <-]. destruct (IH j eq_refl) as (e' & v & H1 & H2 & H3).
  exists e', v. split; [done|]. split; [done|]. by constructor.
Qed.

Lemma find_none es name : nl_env_find es name = None <-> getenv_from es name = None.
Proof.
  induction es as [|e es IH]; cbn [nl_env_find getenv_from]; [done|]. destruct (entry_value e name); [done|].
  destruct (nl_env_find es name); simpl; [|by rewrite <- IH]. split; [done|]. by intros H%IH.
Qed.

Lemma getenv_app es es' name :
  getenv_from (es ++ es') name = match getenv_from es name with Some v => Some v | None => getenv_from es' name end.
Proof. induction es as [|e es IH]; cbn [app getenv_from]; [done|]. by destruct (entry_value e name). Qed.

Lemma getenv_none es name : Forall (fun e => entry_value e name = None) es -> getenv_from es name = None.
Proof. induction 1 as [|e es He Hes IH]; cbn [getenv_from]; [done|by rewrite He]. Qed.

(** The vector split at an entry. *)
Lemma find_split es name i :
  nl_env_find es name = Some i ->
  exists e v, es = take i es ++ e :: drop (S i) es /\ entry_value e name = Some v /\
    Forall (fun e => entry_value e name = None) (take i es) /\ (i < length es)%nat.
Proof.
  intros (e & v & H1 & H2 & H3)%find_spec. exists e, v.
  split; [by rewrite take_drop_middle|]. split; [done|]. split; [done|]. by eapply lookup_lt_Some.
Qed.

Definition vector (s : env_state) : list (list Z) := default [] (nl_environ s).

(** The copy has room for the strings and the null pointer behind them. *)
Definition env_inv (s : env_state) : Prop := nl_env_owned s = true -> Z.of_nat (length (vector s)) < nl_env_cap s.

Lemma getenv_vector name s : getenv name s = getenv_from (vector s) name.
Proof. unfold getenv, vector. by destruct (nl_environ s). Qed.

Lemma adopt_spec mem s s1 :
  nl_env_adopt mem s = Some s1 -> env_inv s -> vector s1 = vector s /\ nl_env_owned s1 = true /\ env_inv s1.
Proof.
  unfold nl_env_adopt. intros H Hi. destruct (nl_env_owned s) eqn:E; [by injection H as <-|]. destruct mem; [|done].
  injection H as <-. unfold env_inv, vector. simpl. split; [done|]. split; [done|]. lia.
Qed.

(** An entry of [name] put in the place of one changes what [name] reads. *)
Lemma replace_entry es name value i other :
  name_ok name -> name_ok other -> nl_env_find es name = Some i ->
  getenv_from (<[i := name ++ ch_eq :: value]> es) other = if decide (other = name) then Some value else getenv_from es other.
Proof.
  intros Hn Ho Hf. destruct (find_split es name i Hf) as (e & v & Hes & Hv & Hpre & Hlt).
  assert (Hge : getenv_from es other = getenv_from (take i es ++ e :: drop (S i) es) other) by by rewrite <- Hes.
  rewrite Hge, insert_take_drop by done. rewrite !getenv_app. cbn [getenv_from].
  case_decide as Hd.
  - subst other. by rewrite (getenv_none _ _ Hpre), entry_same.
  - rewrite entry_other by (done || congruence). destruct (getenv_from (take i es) other); [done|].
    apply entry_value_spec in Hv; [|by apply name_ok_no_nul]. subst e. by rewrite entry_other by (done || congruence).
Qed.

(** What a change of [name] may do to the readings: [r] is the answer, [value]
    what the name reads when it changed. *)
Definition reads_after (name : list Z) (value : list Z) (changed : Prop) (s s' : env_state) : Prop :=
  forall other, name_ok other ->
    (other = name /\ changed -> getenv other s' = Some value) /\
    (~ (other = name /\ changed) -> getenv other s' = getenv other s).

Lemma reads_same name value (changed : Prop) s s' :
  vector s' = vector s -> ~ changed -> reads_after name value changed s s'.
Proof. intros Hv Hc other _. rewrite !getenv_vector, Hv. split; [by intros [_ ?]|done]. Qed.

Lemma setenv_replaces name value s s1 i (changed : Prop) :
  name_ok name -> env_inv s1 -> nl_env_owned s1 = true -> vector s1 = vector s -> nl_env_find (vector s) name = Some i -> changed ->
  let s2 := EnvState (Some (<[i := name ++ ch_eq :: value]> (vector s))) true (nl_env_cap s1) in
  env_inv s2 /\ reads_after name value changed s s2.
Proof.
  intros Hn Hi1 Ho Hv Hf Hc s2. split.
  - intros _. specialize (Hi1 Ho). rewrite Hv in Hi1. unfold vector, s2. simpl. by rewrite length_insert.
  - assert (Hs2 : vector s2 = <[i := name ++ ch_eq :: value]> (vector s)) by done.
    intros other Hother. rewrite !getenv_vector, Hs2, replace_entry by done.
    split; [by intros [-> _]; rewrite decide_True|]. intros Hno. rewrite decide_False by tauto. done.
Qed.

Lemma setenv_appends name value s cap (changed : Prop) :
  name_ok name -> nl_env_find (vector s) name = None -> Z.of_nat (length (vector s)) + 1 < cap -> changed ->
  let s2 := EnvState (Some (vector s ++ [name ++ ch_eq :: value])) true cap in
  env_inv s2 /\ reads_after name value changed s s2.
Proof.
  intros Hn Hf%find_none Hcap Hc s2. split.
  - intros _. unfold vector, s2. simpl. rewrite length_app. simpl. lia.
  - assert (Hs2 : vector s2 = vector s ++ [name ++ ch_eq :: value]) by done.
    intros other Hother. rewrite !getenv_vector, Hs2, getenv_app. cbn [getenv_from]. split.
    + intros [-> _]. by rewrite Hf, entry_same.
    + intros Hno. rewrite (entry_other name other) by (done || (intros ->; tauto)).
      by destruct (getenv_from (vector s) other).
Qed.

Lemma setenv_spec name value overwrite mem1 mem2 mem3 s r s' :
  name_ok name -> env_inv s -> setenv name value overwrite mem1 mem2 mem3 s = (r, s') ->
  env_inv s' /\ (r = 0 \/ r = -1) /\ reads_after name value (r = 0 /\ (overwrite = true \/ getenv name s = None)) s s'.
Proof.
  intros Hn Hi. unfold setenv. destruct (nl_env_adopt mem1 s) as [s1|] eqn:Ea.
  2:{ intros [= <- <-]. split; [done|]. split; [by right|]. apply reads_same; [done|by intros [? _]]. }
  destruct (adopt_spec _ _ _ Ea Hi) as (Hv & Ho & Hi1). fold (vector s1). rewrite Hv.
  assert (Hsame : forall changed : Prop, ~ changed -> reads_after name value changed s s1) by (intros; by apply reads_same).
  destruct (bool_decide (is_Some (nl_env_find (vector s) name)) && negb overwrite) eqn:Eb.
  { intros [= <- <-]. apply andb_prop in Eb as [[i Hf]%bool_decide_eq_true Hw%negb_true_iff].
    split; [done|]. split; [by left|]. apply Hsame. intros [_ [?|Hg]]; [congruence|].
    rewrite getenv_vector in Hg. apply find_none in Hg. congruence. }
  destruct mem2; cbn [negb].
  2:{ intros [= <- <-]. split; [done|]. split; [by right|]. apply Hsame. by intros [? _]. }
  destruct (nl_env_find (vector s) name) as [i|] eqn:Hf.
  - intros [= <- <-]. rewrite bool_decide_eq_true_2 in Eb by by eexists. apply negb_false_iff in Eb.
    destruct (setenv_replaces name value s s1 i (0 = 0 /\ (overwrite = true \/ getenv name s = None))) as [H1 H2]; auto.
  - assert (Hg : getenv name s = None) by by rewrite getenv_vector; apply find_none.
    specialize (Hi1 Ho) as Hlt. rewrite Hv in Hlt.
    destruct (Z.leb_spec (nl_env_cap s1) (Z.of_nat (length (vector s)) + 1)).
    + destruct mem3; cbn [negb]; intros [= <- <-].
      * destruct (setenv_appends name value s (nl_env_cap s1 * 2 + 8) (0 = 0 /\ (overwrite = true \/ getenv name s = None)))
          as [H1 H2]; auto; lia.
      * split; [done|]. split; [by right|]. apply Hsame. by intros [? _].
    + intros [= <- <-].
      destruct (setenv_appends name value s (nl_env_cap s1) (0 = 0 /\ (overwrite = true \/ getenv name s = None)))
        as [H1 H2]; auto; lia.
Qed.

(** One entry of [name] taken out. *)
Lemma remove_entry es name i other :
  name_ok name -> name_ok other -> nl_env_find es name = Some i -> other <> name ->
  getenv_from (take i es ++ drop (S i) es) other = getenv_from es other.
Proof.
  intros Hn Ho Hf Hne. destruct (find_split es name i Hf) as (e & v & Hes & Hv & _).
  assert (Hge : getenv_from es other = getenv_from (take i es ++ e :: drop (S i) es) other) by by rewrite <- Hes.
  rewrite Hge, !getenv_app. cbn [getenv_from]. apply entry_value_spec in Hv; [|by apply name_ok_no_nul]. subst e.
  by rewrite entry_other by (done || congruence).
Qed.

(** The names are distinct: the only entry of [name] is the first. *)
Definition only_entry (name : list Z) (s : env_state) : Prop :=
  forall i e v, vector s !! i = Some e -> entry_value e name = Some v -> nl_env_find (vector s) name = Some i.

Lemma unsetenv_spec name mem s r s' :
  name_ok name -> env_inv s -> unsetenv name mem s = (r, s') ->
  env_inv s' /\ (r = 0 \/ r = -1) /\ (forall other, name_ok other -> other <> name -> getenv other s' = getenv other s) /\
  (r = 0 -> only_entry name s -> getenv name s' = None).
Proof.
  intros Hn Hi. unfold unsetenv. destruct (nl_env_adopt mem s) as [s1|] eqn:Ea.
  2:{ intros [= <- <-]. split; [done|]. split; [by right|]. by split. }
  destruct (adopt_spec _ _ _ Ea Hi) as (Hv & Ho & Hi1). fold (vector s1). rewrite Hv.
  destruct (nl_env_find (vector s) name) as [i|] eqn:Hf; intros [= <- <-].
  - specialize (Hi1 Ho). rewrite Hv in Hi1. destruct (find_split _ _ _ Hf) as (e & v & _ & _ & Hpre & Hlt).
    split; [|split; [by left|split]].
    + intros _. unfold vector. simpl. rewrite length_app, length_take, length_drop. fold (vector s). lia.
    + intros other Hother Hne. rewrite !getenv_vector. by apply (remove_entry _ name).
    + intros _ Honly. rewrite getenv_vector. cbn [vector nl_environ default].
      apply getenv_none. apply Forall_app. split; [done|]. apply Forall_lookup. intros j e' He'.
      rewrite lookup_drop in He'. destruct (entry_value e' name) as [w|] eqn:Ew; [|done].
      specialize (Honly _ _ _ He' Ew). exfalso. rewrite Hf in Honly. injection Honly as Hj. lia.
  - split; [done|]. split; [by left|]. split.
    + intros other _ _. by rewrite !getenv_vector, Hv.
    + intros _ _. rewrite getenv_vector, Hv. by apply find_none.
Qed.

(** The vector has to grow for one more string. *)
Definition env_full (s : env_state) : bool := nl_env_owned s && (nl_env_cap s <=? Z.of_nat (length (vector s)) + 1).

(** The allocations a call makes succeed: the copy of the vector unless it was
    copied before; for a string to store, the string; for a new name in a full
    vector, the larger vector. *)
Definition setenv_has_memory (name : list Z) (overwrite mem1 mem2 mem3 : bool) (s : env_state) : bool :=
  let set := bool_decide (is_Some (getenv name s)) in
  (nl_env_owned s || mem1) && ((set && negb overwrite) || (mem2 && (set || negb (env_full s) || mem3))).

Lemma find_getenv name s : bool_decide (is_Some (nl_env_find (vector s) name)) = bool_decide (is_Some (getenv name s)).
Proof.
  apply bool_decide_ext. rewrite getenv_vector, <- !not_eq_None_Some. pose proof (find_none (vector s) name). tauto.
Qed.

Lemma setenv_result name value overwrite mem1 mem2 mem3 s :
  fst (setenv name value overwrite mem1 mem2 mem3 s) = if setenv_has_memory name overwrite mem1 mem2 mem3 s then 0 else -1.
Proof.
  unfold setenv, setenv_has_memory, nl_env_adopt. rewrite <- find_getenv. unfold env_full, vector.
  set (es := default [] (nl_environ s)).
  assert (Hgo : forall cap : Z, fst
    (if bool_decide (is_Some (nl_env_find es name)) && negb overwrite then (0, s) else
     if negb mem2 then (-1, s) else
     match nl_env_find es name with
     | Some i => (0, s)
     | None => if cap <=? Z.of_nat (length es) + 1 then if negb mem3 then (-1, s) else (0, s) else (0, s)
     end) = if bool_decide (is_Some (nl_env_find es name)) && negb overwrite
              || mem2 && (bool_decide (is_Some (nl_env_find es name)) || negb (cap <=? Z.of_nat (length es) + 1) || mem3) then 0 else -1).
  { intros cap. destruct (nl_env_find es name) as [i|]; [rewrite bool_decide_eq_true_2 by done|rewrite bool_decide_eq_false_2 by (by intros [? ?])];
      destruct overwrite, mem2; cbn [negb andb orb]; try done; destruct (cap <=? _), mem3; done. }
  destruct (nl_env_owned s).
  - cbn [andb orb]. rewrite <- Hgo.
    destruct (_ && _); [done|]. destruct mem2; [|done]. destruct (nl_env_find _ _); [done|]. destruct (_ <=? _); [|done]. by destruct mem3.
  - destruct mem1; [|done]. cbn [andb orb negb nl_environ nl_env_cap]. fold es. change (default [] (Some es)) with es.
    specialize (Hgo (Z.of_nat (length es) + 8)). destruct (Z.leb_spec (Z.of_nat (length es) + 8) (Z.of_nat (length es) + 1)); [lia|].
    cbn [negb] in Hgo. rewrite <- Hgo.
    destruct (_ && _); [done|]. destruct mem2; [|done]. by destruct (nl_env_find _ _).
Qed.

(** C39: the environment is a map from names to values, a name being a string
    without an equals sign.  [setenv] answers 0 exactly when the allocations it
    needs succeed, and -1 otherwise; answering 0 it makes the name read the value
    (unless it was set and was not to be overwritten), and no other name read
    differently.  [unsetenv] answers 0 exactly when the vector is or can be
    copied, and then makes a name with one entry unset, and no other name read
    differently.  A failing call changes no reading at all; and the strings and
    the null pointer behind them always fit the block of the vector. *)
Theorem env_is_a_map name value overwrite mem1 mem2 mem3 s :
  name_ok name -> env_inv s ->
  (let '(r, s') := setenv name value overwrite mem1 mem2 mem3 s in
   r = (if setenv_has_memory name overwrite mem1 mem2 mem3 s then 0 else -1) /\ env_inv s' /\
   (forall other, name_ok other ->
      getenv other s' = if bool_decide (other = name) && (r =? 0) && (overwrite || bool_decide (getenv name s = None))
                        then Some value else getenv other s)) /\
  (let '(r, s') := unsetenv name mem1 s in
   r = (if nl_env_owned s || mem1 then 0 else -1) /\ env_inv s' /\
   (r = 0 -> only_entry name s -> getenv name s' = None) /\
   (r = -1 -> getenv name s' = getenv name s) /\
   (forall other, name_ok other -> other <> name -> getenv other s' = getenv other s)).
Proof.
  intros Hn Hi. split.
  - pose proof (setenv_result name value overwrite mem1 mem2 mem3 s) as Hr.
    destruct (setenv _ _ _ _ _ _ _) as [r s'] eqn:E. cbn [fst] in Hr.
    destruct (setenv_spec _ _ _ _ _ _ _ _ _ Hn Hi E) as (H1 & _ & H3). split; [done|]. split; [done|].
    intros other Ho. destruct (H3 other Ho) as [Hc Hk].
    destruct (bool_decide (other = name) && (r =? 0) && (overwrite || bool_decide (getenv name s = None))) eqn:Eb.
    + apply andb_prop in Eb as [[->%bool_decide_eq_true ->%Z.eqb_eq]%andb_prop Hw]. apply Hc. split; [done|]. split; [done|].
      apply orb_prop in Hw as [?|?%bool_decide_eq_true]; auto.
    + apply Hk. intros (-> & -> & Hw). rewrite bool_decide_eq_true_2 in Eb by done. cbn in Eb.
      apply orb_false_iff in Eb as [-> Eb%bool_decide_eq_false]. by destruct Hw.
  - destruct (unsetenv _ _ _) as [r s'] eqn:E. destruct (unsetenv_spec _ _ _ _ _ Hn Hi E) as (H1 & H2 & H3 & H4).
    revert E. unfold unsetenv, nl_env_adopt. destruct (nl_env_owned s); [|destruct mem1; cbn [negb orb]].
    + destruct (nl_env_find _ _); intros [= <- <-]; by auto.
    + destruct (nl_env_find _ _); intros [= <- <-]; by auto.
    + intros [= <- <-]. by auto.
Qed.

(** [A=1] read, set and removed. *)
Lemma env_is_a_map_witness :
  let s := EnvState (Some [[65; 61; 49]]) false 0 in
  getenv [65] (snd (setenv [65] [50] true true true true s)) = Some [50] /\
  fst (setenv [65] [50] true true false true s) = -1 /\
  getenv [65] (snd (unsetenv [65] true s)) = None.
Proof.
  intros s. destruct (env_is_a_map [65] [50] true true true true s) as [H1 H2]; [by repeat constructor|done|].
  destruct (env_is_a_map [65] [50] true true false true s) as [H3 _]; [by repeat constructor|done|]. split; [|split].
  - destruct (setenv _ _ _ _ _ _ _) as [r s'] eqn:E. destruct H1 as (-> & _ & H). cbn [snd].
    rewrite (H [65]) by by repeat constructor. reflexivity.
  - destruct (setenv [65] [50] true true false true s) as [r s'] eqn:E. destruct H3 as [-> _]. reflexivity.
  - destruct (unsetenv _ _ _) as [r s'] eqn:E. destruct H2 as (-> & _ & H & _). cbn [snd].
    apply H; [reflexivity|]. intros i e v Hi Hv. destruct i as [|i]; [by vm_compute|by destruct i].
Defined.

(** A name with two entries, which a parent process can pass on, is still set
    after [unsetenv]. *)
Example unsetenv_duplicate :
  getenv [65] (snd (unsetenv [65] true (EnvState (Some [[65; 61; 49]; [65; 61; 50]]) false 0))) = Some [50].
Proof. reflexivity. Qed.

(** ** Exit handlers and keys *)

(** [exit] runs every registered handler once, the newest first, and a
    handler registered by a running one before the older ones; a full table
    refuses and keeps what it has. *)
Theorem exit_runs_newest_first fns fn run fuel :
  (length fns < NL_ATEXIT_MAX)%nat -> (forall g, g ∈ fns -> run g = []) ->
  (forall g, g ∈ run fn -> run g = []) -> (length fns + length (run fn) <= NL_ATEXIT_MAX)%nat ->
  (S (S (length fns + length (run fn))) <= fuel)%nat ->
  atexit fn fns = (0, fns ++ [fn]) /\
  exit_handlers fuel run (snd (atexit fn fns)) = fn :: rev (run fn) ++ rev fns /\
  (forall full, length full = NL_ATEXIT_MAX -> atexit fn full = (-1, full)).
Proof.
  intros Hlen Hq Hq2 Hroom Hfuel.
  assert (Hplain : forall fuel l, (forall g, g ∈ l -> run g = []) -> (length l < fuel)%nat -> exit_handlers fuel run l = rev l).
  { clear. intros fuel. induction fuel as [|f IH]; intros l Hl Hf; [lia|]. cbn [exit_handlers].
    destruct l as [|g l _] using rev_ind; [done|]. rewrite last_snoc, rev_unit. f_equal.
    rewrite length_app in *. cbn [length] in *. rewrite Nat.add_sub, take_app_length.
    rewrite Hl by (apply elem_of_app; right; by left). cbn [foldl]. apply IH; [|lia].
    intros x Hx. apply Hl. apply elem_of_app. by left. }
  assert (Hreg : forall new l, (length l + length new <= NL_ATEXIT_MAX)%nat -> foldl (fun l g => snd (atexit g l)) l new = l ++ new).
  { clear. intros new. induction new as [|g new IH]; intros l Hl; [by rewrite app_nil_r|]. cbn [foldl length] in *.
    assert (Hg : snd (atexit g l) = l ++ [g]) by (unfold atexit; by destruct (Nat.leb_spec NL_ATEXIT_MAX (length l)); [lia|]).
    rewrite Hg, IH by (rewrite length_app; simpl; lia). by rewrite <- app_assoc. }
  assert (Ha : atexit fn fns = (0, fns ++ [fn])) by (unfold atexit; by destruct (Nat.leb_spec NL_ATEXIT_MAX (length fns)); [lia|]).
  split; [done|]. split.
  - rewrite Ha. cbn [snd]. destruct fuel as [|f]; [lia|]. cbn [exit_handlers]. rewrite last_snoc, length_app. cbn [length].
    rewrite Nat.add_sub, take_app_length, Hreg by lia. f_equal. rewrite Hplain, rev_app_distr; [done| |rewrite length_app; lia].
    intros g [Hg|Hg]%elem_of_app; auto.
  - intros full Hf. unfold atexit. by destruct (Nat.leb_spec NL_ATEXIT_MAX (length full)); [|lia].
Qed.

Lemma exit_runs_newest_first_witness :
  exit_handlers 9 (fun g => if (g =? 3)%nat then [4; 5]%nat else []) [1; 2; 3]%nat = [3; 5; 4; 2; 1]%nat.
Proof.
  destruct (exit_runs_newest_first [1; 2]%nat 3 (fun g => if (g =? 3)%nat then [4; 5]%nat else []) 9) as (_ & H & _).
  - unfold NL_ATEXIT_MAX. simpl. lia.
  - intros g Hg. rewrite !elem_of_cons, elem_of_nil in Hg. by destruct Hg as [-> | [-> | []]].
  - intros g Hg. simpl in Hg. rewrite !elem_of_cons, elem_of_nil in Hg. by destruct Hg as [-> | [-> | []]].
  - unfold NL_ATEXIT_MAX. simpl. lia.
  - simpl. lia.
  - exact H.
Defined.

(** A value set for a key is read back, and no other key's value changes. *)
Lemma key_roundtrip key val s :
  0 <= key < NL_KEYS -> length (nl_key_val s) = Z.to_nat NL_KEYS ->
  let '(r, s') := pthread_setspecific key val s in
  r = 0 /\ pthread_getspecific key s' = val /\
  forall other, 0 <= other -> other <> key -> pthread_getspecific other s' = pthread_getspecific other s.
Proof.
  intros Hk Hl. unfold pthread_setspecific, NL_KEYS in *. destruct (Z.leb_spec 8 key); [lia|]. split; [done|]. split.
  - unfold pthread_getspecific, NL_KEYS. destruct (Z.ltb_spec key 8); [|lia]. simpl. apply list_lookup_total_insert_eq. lia.
  - intros other Ho Hne. unfold pthread_getspecific. destruct (_ <? _); [|done]. simpl. apply list_lookup_total_insert_ne. lia.
Qed.
