(* ===== verification/Stdio.v ===== *)
(** Buffered streams and the formatted output of the C library
    (unikernel/nolibc/stdio.c, with [struct nl_file] of nolibc.h).

    A [FILE] is its record; a stream operation works on the descriptor layer
    underneath and the [FILE] it was given.  The descriptor layer is the class
    [Fds], which [guest_fds] implements with the calls of the guest's platform
    (Vfs).  A store beyond the 4096 bytes of a stream's buffer is a fault. *)

From S2P Require Import Prelude StateMonad InitFs Vfs Dtoa.

(** * The descriptor layer *)

Class Fds (S : Type) := {
  nl_write : Z -> list Z -> ST S Z;
  nl_read : Z -> Z -> ST S (Z * list Z);
  nl_open : list Z -> Z -> Z -> ST S Z;
  nl_close : Z -> ST S Z;
  nl_lseek : Z -> Z -> Z -> ST S Z;
  nl_unlink : list Z -> ST S Z;
  errno : S -> Z;
  put_errno : Z -> S -> S;
}.

#[export] Instance guest_fds (arch : list Z) {D} `{!Disk D} : Fds (vfs D) := {
  nl_write := write;
  nl_read := read arch;
  nl_open p fl m := Vfs.nl_open arch (Some p) fl m;
  nl_close := close;
  nl_lseek := lseek;
  nl_unlink p := unlink arch (Some p);
  errno s := nl_errno_slot (v_ifs s);
  put_errno e s := set_ifs (set_errno e (v_ifs s)) s;
}.

(** * Streams *)

Definition NL_BUFSZ : nat := Z.to_nat 4096.

Record FILE := File {
  f_fd : Z;
  f_flags : Z;
  f_ungot : Z;
  f_bufpos : nat;
  f_buflen : nat;
  f_buf : list Z                  (* NL_BUFSZ bytes *)
}.

Definition NL_F_READ : Z := 1.
Definition NL_F_WRITE : Z := 2.
Definition NL_F_EOF : Z := 4.
Definition NL_F_ERR : Z := 8.
Definition NL_F_UNBUF : Z := 16.
Definition NL_F_LINEBUF : Z := 32.
Definition NL_F_ALLOC : Z := 64.

Definition set_flags (x : Z) f := File (f_fd f) x (f_ungot f) (f_bufpos f) (f_buflen f) (f_buf f).
Definition set_ungot (x : Z) f := File (f_fd f) (f_flags f) x (f_bufpos f) (f_buflen f) (f_buf f).
Definition set_bufpos (x : nat) f := File (f_fd f) (f_flags f) (f_ungot f) x (f_buflen f) (f_buf f).
Definition set_window (pos len : nat) f := File (f_fd f) (f_flags f) (f_ungot f) pos len (f_buf f).
Definition set_buf (x : list Z) f := File (f_fd f) (f_flags f) (f_ungot f) (f_bufpos f) (f_buflen f) x.
Definition add_flag (b : Z) f := set_flags (Z.lor (f_flags f) b) f.
Definition drop_flag (b : Z) f := set_flags (Z.ldiff (f_flags f) b) f.

(** [buf[bufpos] ... ] takes the bytes of [b], and [bufpos] moves behind them. *)
Definition append_buf (b : list Z) f : FILE :=
  set_bufpos (f_bufpos f + length b) (set_buf (put_at (f_bufpos f) b (f_buf f)) f).

(** A stream as [memset] and the initialisers leave it. *)
Definition blank_stream (fd flags : Z) : FILE := File fd flags (-1) 0 0 (replicate NL_BUFSZ 0).

Definition nl_stdin : FILE := blank_stream 0 NL_F_READ.
Definition nl_stdout : FILE := blank_stream 1 NL_F_WRITE.
Definition nl_stderr : FILE := blank_stream 2 (Z.lor NL_F_WRITE NL_F_UNBUF).

Section stream.
Context {S : Type} `{!Fds S}.

(** How many interrupted writes ([EINTR]) one call sits through. *)
Context (spins : nat).

(** A computation on the descriptors and one stream. *)
Abbreviation F := (ST (S * FILE)).

Definition sys {A} (m : ST S A) : F A := within fst (fun s x => (s, snd x)) m.
Definition the_file : F FILE := get_state snd.
Definition upd (g : FILE -> FILE) : F unit := put_state (fun x => (fst x, g (snd x))).

(** ** Writing *)

Fixpoint nl_write_all (fuel : nat) (fd : Z) (p : list Z) : ST S Z :=
  match fuel with
  | O => st_fault
  | Datatypes.S fuel =>
      match p with
      | [] => mret 0
      | _ =>
          w ← nl_write fd p;
          if w <=? 0 then
            e ← get_state errno;
            if (w <? 0) && (e =? 4) then nl_write_all fuel fd p else mret (-1)
          else nl_write_all fuel fd (drop (Z.to_nat w) p)
      end
  end.

Definition write_fuel (p : list Z) : nat := Datatypes.S (length p + spins).

Definition write_out (fd : Z) (p : list Z) : F Z := sys (nl_write_all (write_fuel p) fd p).

Definition fflush : F Z :=
  f ← the_file;
  if negb (has (f_flags f) NL_F_WRITE) || (f_bufpos f =? 0)%nat then mret 0 else
  r ← write_out (f_fd f) (take (f_bufpos f) (f_buf f));
  if r <? 0 then upd (fun f => set_bufpos 0 (add_flag NL_F_ERR f));; mret (-1)
  else upd (set_bufpos 0);; mret 0.

Definition nl_drop_readahead : F unit :=
  f ← the_file;
  (if (f_bufpos f <? f_buflen f)%nat
   then _ ← sys (nl_lseek (f_fd f) (- Z.of_nat (f_buflen f - f_bufpos f)) 1); mret tt else mret tt);;
  upd (fun f => set_ungot (-1) (set_window 0 0 f)).

(** A store of [b] at [bufpos]. *)
Definition store (b : list Z) : F unit :=
  f ← the_file;
  if (f_bufpos f + length b <=? NL_BUFSZ)%nat then upd (append_buf b) else st_fault.

Definition ch_nl : Z := 10.

Definition nl_putb (c : Z) : F Z :=
  f ← the_file;
  if negb (has (f_flags f) NL_F_WRITE) then upd (add_flag NL_F_ERR);; mret (-1) else
  (if (f_buflen f =? 0)%nat then mret tt else nl_drop_readahead);;
  store [c];;
  f ← the_file;
  if (f_bufpos f =? NL_BUFSZ)%nat || has (f_flags f) NL_F_UNBUF || (has (f_flags f) NL_F_LINEBUF && (c =? ch_nl))
  then fflush else mret 0.

Definition fputc (c : Z) : F Z :=
  r ← nl_putb (wrap 8 c);
  mret (if r <? 0 then -1 else wrap 8 c).

Definition fputs (s : list Z) : F Z :=
  f ← the_file;
  if (NL_BUFSZ <=? length s)%nat then
    r ← fflush;
    if r <? 0 then mret (-1) else w ← write_out (f_fd f) s; mret (if w <? 0 then -1 else 0)
  else
    r ← (if (NL_BUFSZ <? f_bufpos f + length s)%nat then fflush else mret 0);
    if r <? 0 then mret (-1) else
    store s;;
    if has (f_flags f) NL_F_UNBUF || (has (f_flags f) NL_F_LINEBUF && bool_decide (last s = Some ch_nl))
    then fflush else mret 0.

(** [b] is the memory [p] points to. *)
Definition fwrite (b : list Z) (sz n : Z) : F Z :=
  let total := wrap64 (sz * n) in
  if (sz =? 0) || (n =? 0) then mret 0 else
  if Z.of_nat (length b) <? total then st_fault else
  let b := take (Z.to_nat total) b in
  f ← the_file;
  if (NL_BUFSZ <=? length b)%nat then
    r ← fflush;
    if r <? 0 then mret 0 else w ← write_out (f_fd f) b; mret (if w <? 0 then 0 else n)
  else
    r ← (if (NL_BUFSZ <? f_bufpos f + length b)%nat then fflush else mret 0);
    if r <? 0 then mret 0 else
    store b;;
    (if has (f_flags f) NL_F_UNBUF then _ ← fflush; mret tt else mret tt);;
    mret n.

(** ** Formatting *)

(** The digits of [v] in [base], least significant first, as the scratch array has them. *)
Fixpoint digits_rev (fuel : nat) (v base : Z) (upper : bool) : list Z :=
  match fuel with
  | O => []
  | Datatypes.S fuel =>
      let d := v mod base in
      (if d <? 10 then 48 + d else (if upper then 65 else 97) + (d - 10)) ::
      (if v / base =? 0 then [] else digits_rev fuel (v / base) base upper)
  end.

(** One byte after the other, as far as they go: [-1] when one fails. *)
Fixpoint put_bytes (l : list Z) : F Z :=
  match l with
  | [] => mret 0
  | c :: l => r ← nl_putb c; if r <? 0 then mret (-1) else put_bytes l
  end.

Definition nl_fmt_u (v base : Z) (upper : bool) : F Z :=
  let tmp := digits_rev 64 v base upper in
  r ← put_bytes (rev tmp);
  mret (if r <? 0 then -1 else Z.of_nat (length tmp)).

Definition nl_fmt_s (v : Z) : F Z :=
  let m := if v <? 0 then wrap64 (- v) else v in
  e ← (if v <? 0 then nl_putb 45 else mret 0);
  if e <? 0 then mret (-1) else
  r ← nl_fmt_u m 10 false;
  mret (if r <? 0 then r else r + (if v <? 0 then 1 else 0)).

(** An argument of a call with a variable argument list: a word as wide as an
    [int], a word of 64 bits, a string, a pointer or a double. *)
Inductive va :=
| VInt (v : Z)
| VLong (v : Z)
| VStr (s : option (list Z))
| VPtr (v : Z)
| VDouble (bits : Z).

Definition va_signed (longs : nat) (a : va) : option Z :=
  match a, longs with
  | VInt v, O => Some (swrap 32 v)
  | VLong v, Datatypes.S _ => Some (swrap 64 v)
  | _, _ => None
  end.

Definition va_unsigned (longs : nat) (a : va) : option Z :=
  match a, longs with
  | VInt v, O => Some (wrap 32 v)
  | VLong v, Datatypes.S _ => Some (wrap 64 v)
  | _, _ => None
  end.

Definition next_arg (args : list va) : option (va * list va) :=
  match args with a :: rest => Some (a, rest) | [] => None end.

Definition is_flag (c : Z) : bool := (c =? 45) || (c =? 43) || (c =? 32) || (c =? 48) || (c =? 35).
Definition is_dig (c : Z) : bool := (48 <=? c) && (c <=? 57).
Definition is_mod (c : Z) : bool := (c =? 108) || (c =? 104) || (c =? 122) || (c =? 106) || (c =? 116).

Fixpoint skip_flags (p : list Z) (alt : bool) : list Z * bool :=
  match p with
  | c :: p' => if is_flag c then skip_flags p' (alt || (c =? 35)) else (p, alt)
  | [] => ([], alt)
  end.

Fixpoint skip_digits (p : list Z) : list Z :=
  match p with c :: p' => if is_dig c then skip_digits p' else p | [] => [] end.

(** The decimal precision; leaving the range of [int] is a fault. *)
Fixpoint read_digits (p : list Z) (prec : Z) : option (Z * list Z) :=
  match p with
  | c :: p' =>
      if is_dig c then
        if 2 ^ 31 <=? prec * 10 + (c - 48) then None else read_digits p' (prec * 10 + (c - 48))
      else Some (prec, p)
  | [] => Some (prec, [])
  end.

Definition read_prec (p : list Z) (args : list va) : option (Z * list Z * list va) :=
  match p with
  | 46 :: 42 :: p' =>
      '(a, args) ← next_arg args;
      prec ← va_signed 0 a;
      Some (if prec <? 0 then -1 else prec, p', args)
  | 46 :: p' => '(prec, p') ← read_digits p' 0; Some (prec, p', args)
  | _ => Some (-1, p, args)
  end.

Fixpoint skip_mods (p : list Z) (longs : nat) : list Z * nat :=
  match p with
  | c :: p' => if is_mod c then skip_mods p' (if c =? 108 then Datatypes.S longs else longs) else (p, longs)
  | [] => ([], longs)
  end.

Definition FBUF : nat := Z.to_nat 1200.

(** The switch on the conversion character [c] ([0] is the end of the format):
    the number of bytes it counts, [-1] for a failure, and the arguments left. *)
Definition nl_convert (c : Z) (longs : nat) (prec : Z) (alt : bool) (args : list va) : F (Z * list va) :=
  if c =? 115 then                                              (* s *)
    '(a, args) ← of_option (next_arg args);
    s ← of_option (match a with VStr s => Some (default [40; 110; 117; 108; 108; 41] s) | _ => None end);
    r ← fputs s;
    mret (if r <? 0 then -1 else Z.of_nat (length s), args)
  else if c =? 99 then                                          (* c *)
    '(a, args) ← of_option (next_arg args);
    v ← of_option (va_signed 0 a);
    r ← nl_putb (wrap 8 v);
    mret (if r <? 0 then -1 else 1, args)
  else if (c =? 100) || (c =? 105) then                         (* d i *)
    '(a, args) ← of_option (next_arg args);
    v ← of_option (va_signed longs a);
    r ← nl_fmt_s v; mret (r, args)
  else if c =? 117 then                                         (* u *)
    '(a, args) ← of_option (next_arg args);
    v ← of_option (va_unsigned longs a);
    r ← nl_fmt_u v 10 false; mret (r, args)
  else if (c =? 120) || (c =? 88) then                          (* x X *)
    '(a, args) ← of_option (next_arg args);
    v ← of_option (va_unsigned longs a);
    r ← nl_fmt_u v 16 (c =? 88); mret (r, args)
  else if c =? 112 then                                         (* p *)
    '(a, args) ← of_option (next_arg args);
    v ← of_option (match a with VPtr v => Some (wrap 64 v) | _ => None end);
    r ← put_bytes [48; 120];
    if r <? 0 then mret (-1, args) else
    r ← nl_fmt_u v 16 false;
    mret (if r <? 0 then -1 else r + 2, args)
  else if bool_decide (Z.lor c 32 = ch_f \/ Z.lor c 32 = ch_e \/ Z.lor c 32 = ch_g) then
    '(a, args) ← of_option (next_arg args);
    bits ← of_option (match a with VDouble bits => Some bits | _ => None end);
    let fbuf := nl_format_double bits (Z.lor c 32) (if prec <? 0 then 6 else prec) alt in
    if (FBUF <? length fbuf)%nat then st_fault else
    r ← put_bytes fbuf;
    mret (if r <? 0 then -1 else Z.of_nat (length fbuf), args)
  else if c =? 37 then                                          (* % *)
    r ← nl_putb 37; mret (if r <? 0 then -1 else 1, args)
  else
    r ← nl_putb 37;
    if r <? 0 then mret (-1, args) else
    r ← (if c =? 0 then mret 0 else nl_putb c);
    mret (if r <? 0 then -1 else 2, args).

(** The loop over the format; the count of bytes leaving the range of [int] is a fault. *)
Fixpoint nl_vfprintf_loop (fuel : nat) (p : list Z) (args : list va) (written : Z) : F Z :=
  match fuel with
  | O => st_fault
  | Datatypes.S fuel =>
      if 2 ^ 31 <=? written then st_fault else
      match p with
      | [] => mret written
      | c :: p =>
          if negb (c =? 37) then
            r ← nl_putb c;
            if r <? 0 then mret (-1) else nl_vfprintf_loop fuel p args (written + 1)
          else
            let '(p, alt) := skip_flags p false in
            '(prec, p, args) ← of_option (read_prec (skip_digits p) args);
            let '(p, longs) := skip_mods p 0 in
            '(r, args) ← nl_convert (hd0 p) longs prec alt args;
            if r <? 0 then mret (-1) else nl_vfprintf_loop fuel (tail p) args (written + r)
      end
  end.

Definition nl_vfprintf (fmt : list Z) (args : list va) : F Z :=
  nl_vfprintf_loop (Datatypes.S (length fmt)) fmt args 0.

(** ** Reading *)

Definition fileno : F Z := f ← the_file; mret (f_fd f).

Definition fgetc : F Z :=
  f ← the_file;
  if 0 <=? f_ungot f then upd (set_ungot (-1));; mret (f_ungot f) else
  if negb (has (f_flags f) NL_F_READ) then mret (-1) else
  (if (f_buflen f =? 0)%nat && (0 <? f_bufpos f)%nat then _ ← fflush; mret tt else mret tt);;
  f ← the_file;
  filled ← (if (f_buflen f <=? f_bufpos f)%nat then
              '(r, b) ← sys (nl_read (f_fd f) (Z.of_nat NL_BUFSZ));
              if r <=? 0 then upd (add_flag (if r =? 0 then NL_F_EOF else NL_F_ERR));; mret false
              else upd (fun f => set_window 0 (Z.to_nat r) (set_buf (put_at 0 b (f_buf f)) f));; mret true
            else mret true);
  if negb filled then mret (-1) else
  f ← the_file;
  c ← of_option (f_buf f !! f_bufpos f);
  upd (set_bufpos (Datatypes.S (f_bufpos f)));;
  mret c.

Definition getc : F Z := fgetc.

Definition ungetc (c : Z) : F Z :=
  if c <? 0 then mret (-1) else
  upd (fun f => drop_flag NL_F_EOF (set_ungot (Z.land c 255) f));;
  mret (Z.land c 255).

Fixpoint fread_loop (fuel : nat) (want : nat) (got : list Z) : F (list Z) :=
  match fuel with
  | O => st_fault
  | Datatypes.S fuel =>
      if (want <=? length got)%nat then mret got else
      f ← the_file;
      if (f_ungot f <? 0) && (f_bufpos f <? f_buflen f)%nat then
        let n := Nat.min (want - length got) (f_buflen f - f_bufpos f) in
        upd (set_bufpos (f_bufpos f + n));;
        fread_loop fuel want (got ++ take n (drop (f_bufpos f) (f_buf f)))
      else
        c ← fgetc;
        if c <? 0 then mret got else fread_loop fuel want (got ++ [c])
  end.

(** The items read and the bytes stored at [p]. *)
Definition fread (sz n : Z) : F (Z * list Z) :=
  let want := wrap64 (sz * n) in
  if (sz =? 0) || (n =? 0) then mret (0, []) else
  got ← fread_loop (Datatypes.S (Z.to_nat want)) (Z.to_nat want) [];
  mret (Z.of_nat (length got) / sz, got).

(** ** Positions and status *)

Definition ahead (f : FILE) : Z := Z.of_nat (f_buflen f) - Z.of_nat (f_bufpos f).
Definition pushed (f : FILE) : Z := if 0 <=? f_ungot f then 1 else 0.

Definition fseek (off whence : Z) : F Z :=
  f ← the_file;
  (if has (f_flags f) NL_F_WRITE then _ ← fflush; mret tt else mret tt);;
  f ← the_file;
  let off := if whence =? 1 then off - ahead f - pushed f else off in
  upd (fun f => drop_flag NL_F_EOF (set_ungot (-1) (set_window 0 0 f)));;
  r ← sys (nl_lseek (f_fd f) off whence);
  mret (if r <? 0 then -1 else 0).

Definition ftell : F Z :=
  f ← the_file;
  pos ← sys (nl_lseek (f_fd f) 0 1);
  mret (if pos <? 0 then -1 else
        pos - (if has (f_flags f) NL_F_READ then ahead f else 0)
            + (if has (f_flags f) NL_F_WRITE then Z.of_nat (f_bufpos f) else 0) - pushed f).

Definition feof : F Z := f ← the_file; mret (if has (f_flags f) NL_F_EOF then 1 else 0).
Definition ferror : F Z := f ← the_file; mret (if has (f_flags f) NL_F_ERR then 1 else 0).
Definition clearerr : F unit := upd (drop_flag (Z.lor NL_F_EOF NL_F_ERR)).

(** * The streams of a program: the descriptors, and the [FILE] at each address *)

Record io := Io { io_sys : S; io_files : gmap Z FILE }.

Definition set_sys (s : S) (w : io) : io := Io s (io_files w).
Definition set_files (m : gmap Z FILE) (w : io) : io := Io (io_sys w) m.

(** The standard streams are static: their addresses. *)
Definition stdin : Z := 0.
Definition stdout : Z := 1.
Definition stderr : Z := 2.

Definition io_start (s : S) : io := Io s {[ stdin := nl_stdin; stdout := nl_stdout; stderr := nl_stderr ]}.

(** An operation on the stream at address [a]. *)
Definition at_file {A} (a : Z) (m : F A) : ST io A := fun w =>
  match io_files w !! a with
  | Some f =>
      match m (io_sys w, f) with
      | Some (x, (s, f)) => Some (x, Io s (<[a := f]> (io_files w)))
      | None => None
      end
  | None => None
  end.

Definition nl_file_flags (a : Z) (g : Z -> Z) : ST io unit := at_file a (upd (fun f => set_flags (g (f_flags f)) f)).

Definition fflush_all : ST io Z :=
  a ← at_file stdout fflush;
  b ← at_file stderr fflush;
  mret (if negb (a =? 0) || negb (b =? 0) then -1 else 0).

Definition puts (s : list Z) : ST io Z :=
  r ← at_file stdout (fputs s);
  if r <? 0 then mret (-1) else
  r ← at_file stdout (fputc ch_nl);
  mret (if r <? 0 then -1 else 0).

Definition fprintf (a : Z) (fmt : list Z) (args : list va) : ST io Z := at_file a (nl_vfprintf fmt args).
Definition printf (fmt : list Z) (args : list va) : ST io Z := at_file stdout (nl_vfprintf fmt args).
Definition getchar : ST io Z := at_file stdin fgetc.
Definition putchar (c : Z) : ST io Z := at_file stdout (fputc c).
Definition remove (path : list Z) : ST io Z := within io_sys set_sys (nl_unlink path).

Definition NL_O_RDONLY : Z := 0.
Definition NL_O_WRONLY : Z := 1.
Definition NL_O_RDWR : Z := 2.
Definition NL_O_CREAT : Z := 64.
Definition NL_O_TRUNC : Z := 512.
Definition NL_O_APPEND : Z := 1024.

Definition has_plus (mode : list Z) : bool := bool_decide (43 ∈ tail mode).

Definition mode_flags (c : Z) (plus : bool) : Z :=
  if c =? 119 then Z.lor (Z.lor (if plus then NL_O_RDWR else NL_O_WRONLY) NL_O_CREAT) NL_O_TRUNC
  else if c =? 97 then Z.lor (Z.lor (if plus then NL_O_RDWR else NL_O_WRONLY) NL_O_CREAT) NL_O_APPEND
  else if plus then NL_O_RDWR else NL_O_RDONLY.

Definition stream_flags (c : Z) (plus : bool) : Z :=
  if plus then Z.lor NL_F_READ NL_F_WRITE
  else if (c =? 119) || (c =? 97) then NL_F_WRITE else NL_F_READ.

Definition new_stream (a fd sflags : Z) : ST io unit :=
  put_state (fun w => set_files (<[a := blank_stream fd (Z.lor sflags NL_F_ALLOC)]> (io_files w)) w).

(** [mem] is the block [malloc] would answer.  The loop over [mode] starts
    behind its first character, so an empty one is left. *)
Definition fopen (path mode : list Z) (mem : option Z) : ST io (option Z) :=
  c ← of_option (head mode);
  fd ← within io_sys set_sys (nl_open path (mode_flags c (has_plus mode)) 438);
  if fd <? 0 then mret None else
  match mem with
  | None => _ ← within io_sys set_sys (nl_close fd); mret None
  | Some a => new_stream a fd (stream_flags c (has_plus mode));; mret (Some a)
  end.

Definition fdopen (fd : Z) (mode : option (list Z)) (mem : option Z) : ST io (option Z) :=
  if fd <? 0 then mret None else
  c ← of_option (match mode with Some mode => head mode | None => Some 114 end);
  match mem with
  | None => mret None
  | Some a => new_stream a fd (stream_flags c (has_plus (default [] mode)));; mret (Some a)
  end.

Definition fclose (a : option Z) : ST io Z :=
  match a with
  | None => mret (-1)
  | Some a =>
      flushed ← at_file a fflush;
      flush_errno ← get_state (fun w => errno (io_sys w));
      f ← at_file a the_file;
      closed ← within io_sys set_sys (nl_close (f_fd f));
      close_errno ← get_state (fun w => errno (io_sys w));
      (if has (f_flags f) NL_F_ALLOC then put_state (fun w => set_files (delete a (io_files w)) w) else mret tt);;
      if flushed <? 0 then put_state (fun w => set_sys (put_errno flush_errno (io_sys w)) w);; mret (-1)
      else if closed <? 0 then put_state (fun w => set_sys (put_errno close_errno (io_sys w)) w);; mret closed
      else mret closed
  end.
End stream.

Arguments io _ : clear implicits.
