(* ===== verification/StdioOut.v ===== *)
(** What a stream open for writing shows: the bytes its descriptor has taken
    followed by the bytes its buffer holds. *)

From S2P Require Import Prelude StateMonad InitFs Vfs VfsFd Dtoa Stdio.

(** A descriptor that takes at least one byte of every write.  [sink] is what it has taken. *)
Class Sink {S} `{!Fds S} (fd : Z) := {
  sink_ok : S -> Prop;
  sink : S -> list Z;
  sink_write s b : sink_ok s -> b <> [] -> exists r s',
    nl_write fd b s = Some (r, s') /\ 1 <= r <= Z.of_nat (length b) /\
    sink_ok s' /\ sink s' = sink s ++ take (Z.to_nat r) b;
}.

Lemma write_console_run {D} `{!Disk D} fd b (s : vfs D) :
  is_std fd = true -> std_target fd s = -1 ->
  write fd b s = Some (Z.of_nat (length b), set_console (v_console s ++ b) s).
Proof.
  intros Hfd Ht. destruct (std_not_file fd s Hfd) as [F1 F2]. unfold write.
  rewrite (bind_run _ _ s false s).
  2:{ unfold fs_is_file_fd. rewrite (bind_run _ _ s (ifs_is_fd fd (v_ifs s)) s) by done. by rewrite F1, F2. }
  rewrite (bind_run _ _ s (-1) s); [by rewrite andb_false_r|].
  unfold vfs_std_of. rewrite Hfd. unfold get_state. by rewrite Ht.
Qed.

(** The console of the guest, through a standard descriptor that is not redirected. *)
#[export] Program Instance console_sink (arch : list Z) {D} `{!Disk D} (fd : Z) (Hfd : is_std fd = true) :
  Sink (Fds0 := guest_fds arch) fd := {
  sink_ok s := std_target fd s = -1;
  sink s := v_console s;
}.
Next Obligation.
  intros arch D ? fd Hfd s b Ht Hb. exists (Z.of_nat (length b)), (set_console (v_console s ++ b) s).
  split; [by apply write_console_run|]. rewrite Nat2Z.id, take_ge by done. destruct b; [done|]. cbn [length]. split; [lia|]. done.
Qed.

Lemma has_lor x a b : Z.land a b = 0 -> has (Z.lor x a) b = has x b.
Proof. intros H. unfold has. by rewrite Z.land_lor_distr_l, H, Z.lor_0_r. Qed.

Lemma has_ldiff x a b : Z.land a b = 0 -> has (Z.ldiff x a) b = has x b.
Proof.
  intros H. unfold has. do 2 f_equal. apply Z.bits_inj'. intros i Hi. rewrite !Z.land_spec, Z.ldiff_spec.
  assert (Hab := f_equal (fun z => Z.testbit z i) H). cbn in Hab. rewrite Z.land_spec, Z.bits_0 in Hab.
  destruct (Z.testbit x i), (Z.testbit a i), (Z.testbit b i); done.
Qed.

Section out.
Context {S : Type} `{!Fds S} (fd : Z) `{!Sink fd} (spins : nat).
Abbreviation F := (ST (S * FILE)).

Lemma nl_write_all_spec fuel p s :
  (length p < fuel)%nat -> sink_ok s ->
  exists s', nl_write_all fuel fd p s = Some (0, s') /\ sink_ok s' /\ sink s' = sink s ++ p.
Proof.
  revert p s. induction fuel as [|fuel IH]; intros p s Hf Hs; [lia|]. destruct p as [|c p].
  - exists s. by rewrite app_nil_r.
  - destruct (sink_write s (c :: p) Hs ltac:(done)) as (r & s1 & Hw & Hr & Hs1 & E).
    destruct (IH (drop (Z.to_nat r) (c :: p)) s1) as (s2 & H2 & Hs2 & E2); [rewrite length_drop; lia|done|].
    exists s2. cbn [nl_write_all]. rewrite (bind_run _ _ _ _ _ Hw). destruct (Z.leb_spec r 0); [lia|].
    split; [exact H2|]. split; [done|]. by rewrite E2, E, <- app_assoc, take_drop.
Qed.

(** ** A stream that writes *)

Record writes (f : FILE) : Prop := {
  wr_fd : f_fd f = fd;
  wr_flag : has (f_flags f) NL_F_WRITE = true;
  wr_len : f_buflen f = O;
  wr_pos : (f_bufpos f <= NL_BUFSZ)%nat;
  wr_buf : length (f_buf f) = NL_BUFSZ
}.

Definition pending (f : FILE) : list Z := take (f_bufpos f) (f_buf f).
Definition out_ok (x : S * FILE) : Prop := sink_ok (fst x) /\ writes (snd x).
Definition shown (x : S * FILE) : list Z := sink (fst x) ++ pending (snd x).
Definition held (x : S * FILE) : nat := f_bufpos (snd x).
Definition unbuffered (x : S * FILE) : Prop := has (f_flags (snd x)) NL_F_UNBUF = true.
Definition line_buffered (x : S * FILE) : Prop := has (f_flags (snd x)) NL_F_LINEBUF = true.

(** [x'] shows [text] behind what [x] shows. *)
Record wrote (x x' : S * FILE) (text : list Z) : Prop := {
  w_ok : out_ok x';
  w_flags : f_flags (snd x') = f_flags (snd x);
  w_text : shown x' = shown x ++ text;
  w_held : (held x' <= held x + length text)%nat
}.

Lemma wrote_nil x : out_ok x -> wrote x x [].
Proof. intros H. split; [done|done|by rewrite app_nil_r|lia]. Qed.

Lemma wrote_app x y z t u : wrote x y t -> wrote y z u -> wrote x z (t ++ u).
Proof.
  intros [A1 A2 A3 A4] [B1 B2 B3 B4]. split; [done|congruence|by rewrite B3, A3, app_assoc|].
  rewrite length_app. lia.
Qed.

Lemma write_out_spec p x :
  sink_ok (fst x) -> exists s', write_out spins fd p x = Some (0, (s', snd x)) /\ sink_ok s' /\ sink s' = sink (fst x) ++ p.
Proof.
  intros Hs. destruct (nl_write_all_spec (write_fuel spins p) p (fst x)) as (s' & H & Hs' & E); [unfold write_fuel; lia|done|].
  exists s'. split; [|done]. unfold write_out, sys, within. by rewrite H.
Qed.

Lemma pending_nil f : f_bufpos f = O -> pending f = [].
Proof. intros H. unfold pending. by rewrite H. Qed.

Lemma fflush_spec x : out_ok x -> exists x', fflush spins x = Some (0, x') /\ wrote x x' [] /\ held x' = O.
Proof.
  destruct x as [s f]. intros [Hs [H1 H2 H3 H4 H5]]. unfold fflush. cbn in *.
  rewrite (bind_run _ _ _ f (s, f)) by done. rewrite H2. cbn [negb orb].
  destruct (Nat.eqb_spec (f_bufpos f) 0) as [E|E].
  - exists (s, f). split; [done|]. split; [|done]. by apply wrote_nil.
  - rewrite H1. destruct (write_out_spec (take (f_bufpos f) (f_buf f)) (s, f) Hs) as (s' & Hw & Hs' & E').
    rewrite (bind_run _ _ _ _ _ Hw). exists (s', set_bufpos 0 f). split; [done|].
    split; [|done]. split; [split; [done|by constructor; cbn; first [done|lia]]|done| |cbn; lia].
    unfold shown, pending. cbn. rewrite E'. cbn. by rewrite !app_nil_r.
Qed.

Lemma take_put_at p b l : (p + length b <= length l)%nat -> take (p + length b) (put_at p b l) = take p l ++ b.
Proof.
  intros H. unfold put_at. rewrite app_assoc.
  rewrite take_app_le by (rewrite length_app, length_take; lia). apply take_ge. rewrite length_app, length_take. lia.
Qed.

Lemma length_put_at p b (l : list Z) : (p + length b <= length l)%nat -> length (put_at p b l) = length l.
Proof. intros H. unfold put_at. rewrite !length_app, length_take, length_drop. lia. Qed.

Lemma store_spec b x :
  out_ok x -> (held x + length b <= NL_BUFSZ)%nat ->
  exists x', store b x = Some (tt, x') /\ wrote x x' b /\ held x' = (held x + length b)%nat.
Proof.
  destruct x as [s f]. intros [Hs [H1 H2 H3 H4 H5]] Hb. cbn in *. unfold held in Hb. cbn in Hb. exists (s, append_buf b f).
  split. { unfold store. rewrite (bind_run _ _ _ f (s, f)) by done. by rewrite (proj2 (Nat.leb_le _ _) Hb). }
  split; [|done]. split; [|done| |done].
  - split; [done|]. split; cbn; try done. rewrite length_put_at; lia.
  - unfold shown, pending. cbn. rewrite take_put_at by lia. by rewrite app_assoc.
Qed.

(** Every write ends by flushing, or not. *)
Lemma flush_if (b : bool) x :
  out_ok x -> exists x', (if b then fflush spins else mret 0) x = Some (0, x') /\ wrote x x' [] /\ (b = true -> held x' = O).
Proof.
  intros Hx. destruct b.
  - destruct (fflush_spec x Hx) as (x' & H1 & H2 & H3). by exists x'.
  - exists x. split; [done|]. split; [by apply wrote_nil|done].
Qed.

Lemma file_run {B} (k : FILE -> F B) x : (the_file ≫= k) x = k (snd x) x.
Proof. done. Qed.

Lemma nl_putb_spec c x :
  out_ok x -> (held x < NL_BUFSZ)%nat ->
  exists x', nl_putb spins c x = Some (0, x') /\ wrote x x' [c] /\ (held x' < NL_BUFSZ)%nat /\
    (unbuffered x -> held x' = O) /\ (line_buffered x -> c = ch_nl -> held x' = O).
Proof.
  intros Hx Hlt. pose proof Hx as [Hs [H1 H2 H3 H4 H5]].
  destruct (store_spec [c] x Hx) as (x1 & E1 & W1 & L1); [cbn; lia|]. cbn in L1.
  unfold nl_putb. rewrite file_run, H2, H3. cbn [negb Nat.eqb]. rewrite (bind_run _ _ _ tt x) by done.
  rewrite (bind_run _ _ _ _ _ E1), file_run, (w_flags _ _ _ W1). fold (held x1).
  set (b := _ || _ || _). destruct (flush_if b x1 (w_ok _ _ _ W1)) as (x2 & E2 & W2 & L2).
  pose proof (w_held _ _ _ W2) as Hh. cbn in Hh. exists x2. split; [exact E2|]. split; [exact (wrote_app _ _ _ _ _ W1 W2)|].
  unfold b in L2. unfold unbuffered, line_buffered. split; [|split].
  - destruct (Nat.eqb_spec (held x1) NL_BUFSZ); [rewrite L2 by done; unfold NL_BUFSZ; lia|lia].
  - intros Hu. apply L2. rewrite Hu. by rewrite orb_true_r.
  - intros Hl ->. apply L2. rewrite Hl. cbn. by rewrite orb_true_r.
Qed.

(** With the buffer full to the last byte the store is beyond it. *)
Lemma nl_putb_full c x : out_ok x -> held x = NL_BUFSZ -> nl_putb spins c x = None.
Proof.
  intros [Hs [H1 H2 H3 H4 H5]] Hfull. unfold nl_putb. rewrite file_run, H2, H3. cbn [negb Nat.eqb].
  rewrite (bind_run _ _ _ tt x) by done. unfold store, mbind, ST_bind, the_file, get_state. fold (held x). rewrite Hfull.
  cbn [length]. by destruct (Nat.leb_spec (NL_BUFSZ + 1) NL_BUFSZ); [lia|].
Qed.

(** A long piece goes past the buffer, which is emptied first. *)
Lemma past_buffer b x :
  out_ok x -> exists x1 x', fflush spins x = Some (0, x1) /\ write_out spins fd b x1 = Some (0, x') /\
    wrote x x' b /\ held x' = O.
Proof.
  intros Hx. destruct (fflush_spec x Hx) as (x1 & E1 & W1 & L1). pose proof (w_ok _ _ _ W1) as [Hs1 Hw1].
  destruct (write_out_spec b x1 Hs1) as (s' & E2 & Hs' & E3). exists x1, (s', snd x1). split; [done|]. split; [done|].
  pose proof (w_text _ _ _ W1) as Ht. rewrite app_nil_r in Ht.
  split; [|exact L1]. split; [done|by apply W1| |cbn; unfold held in *; cbn; lia].
  rewrite <- Ht. unfold shown. cbn. by rewrite E3, (pending_nil _ L1), !app_nil_r.
Qed.

(** A short piece is stored, in the room a flush has made when it needs it. *)
Lemma into_buffer b x :
  out_ok x -> (length b < NL_BUFSZ)%nat ->
  exists x1 x', (if (NL_BUFSZ <? f_bufpos (snd x) + length b)%nat then fflush spins else mret 0) x = Some (0, x1) /\
    store b x1 = Some (tt, x') /\ wrote x x' b.
Proof.
  intros Hx Hb. fold (held x). destruct (flush_if (NL_BUFSZ <? held x + length b)%nat x Hx) as (x1 & E1 & W1 & L1).
  pose proof (w_held _ _ _ W1) as H1. cbn in H1.
  destruct (store_spec b x1 (w_ok _ _ _ W1)) as (x2 & E2 & W2 & L2).
  { destruct (Nat.ltb_spec NL_BUFSZ (held x + length b)); [rewrite L1 by done; lia|lia]. }
  exists x1, x2. split; [done|]. split; [done|]. exact (wrote_app _ _ _ _ _ W1 W2).
Qed.

Lemma fputs_spec b x :
  out_ok x ->
  exists x', fputs spins b x = Some (0, x') /\ wrote x x' b /\ (unbuffered x -> held x' = O) /\
    (line_buffered x -> last b = Some ch_nl -> held x' = O).
Proof.
  intros Hx. unfold fputs. rewrite file_run, (wr_fd _ (proj2 Hx)). destruct (Nat.leb_spec NL_BUFSZ (length b)).
  - destruct (past_buffer b x Hx) as (x1 & x2 & E1 & E2 & W & L). exists x2.
    rewrite (bind_run _ _ _ _ _ E1). cbn [Z.ltb Z.compare]. rewrite (bind_run _ _ _ _ _ E2). done.
  - destruct (into_buffer b x Hx) as (x1 & x2 & E1 & E2 & W); [done|].
    rewrite (bind_run _ _ _ _ _ E1). cbn [Z.ltb Z.compare]. rewrite (bind_run _ _ _ _ _ E2).
    set (fl := _ || _). destruct (flush_if fl x2 (w_ok _ _ _ W)) as (x3 & E3 & W3 & L3). exists x3. split; [done|].
    split; [rewrite <- (app_nil_r b); exact (wrote_app _ _ _ _ _ W W3)|]. unfold fl, unbuffered, line_buffered in *. split.
    + intros Hu. apply L3. by rewrite Hu.
    + intros Hl Hlast. apply L3. rewrite Hl, Hlast. by rewrite orb_true_r.
Qed.

Definition fwrite_text (b : list Z) (sz n : Z) : list Z :=
  if (sz =? 0) || (n =? 0) then [] else take (Z.to_nat (wrap64 (sz * n))) b.

Definition fwrite_count (sz n : Z) : Z := if (sz =? 0) || (n =? 0) then 0 else n.

Lemma fwrite_spec b sz n x :
  out_ok x -> wrap64 (sz * n) <= Z.of_nat (length b) ->
  exists x', fwrite spins b sz n x = Some (fwrite_count sz n, x') /\ wrote x x' (fwrite_text b sz n) /\
    (unbuffered x -> held x = O -> held x' = O).
Proof.
  intros Hx Hb. unfold fwrite, fwrite_count, fwrite_text. cbv zeta. destruct ((sz =? 0) || (n =? 0)).
  { exists x. split; [done|]. split; [by apply wrote_nil|done]. }
  destruct (Z.ltb_spec (Z.of_nat (length b)) (wrap64 (sz * n))); [lia|]. set (t := take _ b).
  rewrite file_run, (wr_fd _ (proj2 Hx)). destruct (Nat.leb_spec NL_BUFSZ (length t)).
  - destruct (past_buffer t x Hx) as (x1 & x2 & E1 & E2 & W & L). exists x2.
    rewrite (bind_run _ _ _ _ _ E1). cbn [Z.ltb Z.compare]. rewrite (bind_run _ _ _ _ _ E2). done.
  - destruct (into_buffer t x Hx) as (x1 & x2 & E1 & E2 & W); [done|].
    rewrite (bind_run _ _ _ _ _ E1). cbn [Z.ltb Z.compare]. rewrite (bind_run _ _ _ _ _ E2).
    destruct (has (f_flags (snd x)) NL_F_UNBUF) eqn:Hu.
    + destruct (fflush_spec x2 (w_ok _ _ _ W)) as (x3 & E3 & W3 & L3). exists x3. split.
      * by rewrite (bind_run _ _ _ tt x3) by by rewrite (bind_run _ _ _ _ _ E3).
      * split; [|done]. rewrite <- (app_nil_r t). exact (wrote_app _ _ _ _ _ W W3).
    + exists x2. split; [done|]. split; [done|]. unfold unbuffered. congruence.
Qed.

(** ** Programs of output calls *)

Inductive out_op :=
| OPutc (c : Z)
| OPuts (s : list Z)
| OWrite (b : list Z) (sz n : Z)
| OFlush.

Definition out_exec (op : out_op) : F Z :=
  match op with
  | OPutc c => fputc spins c
  | OPuts s => fputs spins s
  | OWrite b sz n => fwrite spins b sz n
  | OFlush => fflush spins
  end.

Fixpoint out_run (ops : list out_op) : F (list Z) :=
  match ops with
  | [] => mret []
  | op :: ops => r ← out_exec op; rs ← out_run ops; mret (r :: rs)
  end.

(** What a call adds to the stream, and what it answers. *)
Definition op_text (op : out_op) : list Z :=
  match op with
  | OPutc c => [wrap 8 c]
  | OPuts s => s
  | OWrite b sz n => fwrite_text b sz n
  | OFlush => []
  end.

Definition op_answer (op : out_op) : Z :=
  match op with
  | OPutc c => wrap 8 c
  | OPuts s => 0
  | OWrite b sz n => fwrite_count sz n
  | OFlush => 0
  end.

(** The memory given to [fwrite] is there. *)
Definition op_ok (op : out_op) : Prop :=
  match op with OWrite b sz n => wrap64 (sz * n) <= Z.of_nat (length b) | _ => True end.

Lemma out_exec_spec op x :
  out_ok x -> op_ok op ->
  (exists c, op = OPutc c /\ held x = NL_BUFSZ /\ out_exec op x = None) \/
  (exists x', out_exec op x = Some (op_answer op, x') /\ wrote x x' (op_text op) /\
     (unbuffered x -> held x = O -> held x' = O)).
Proof.
  intros Hx Hop. destruct op as [c|s|b sz n|].
  - destruct (decide (held x = NL_BUFSZ)) as [Hfull|Hroom].
    + left. exists c. split; [done|]. split; [done|]. unfold out_exec, fputc, mbind, ST_bind. by rewrite nl_putb_full.
    + right. assert (Hlt : (held x < NL_BUFSZ)%nat) by (pose proof (wr_pos _ (proj2 Hx)); unfold held in *; lia).
      destruct (nl_putb_spec (wrap 8 c) x Hx Hlt) as (x' & E & W & _ & Hu & _). exists x'.
      split; [|auto]. cbn [out_exec op_answer]. unfold fputc. by rewrite (bind_run _ _ _ _ _ E).
  - right. destruct (fputs_spec s x Hx) as (x' & E & W & Hu & _). exists x'. auto.
  - right. destruct (fwrite_spec b sz n x Hx Hop) as (x' & E & W & Hu). exists x'. auto.
  - right. destruct (fflush_spec x Hx) as (x' & E & W & Hh). exists x'. auto.
Qed.

Lemma unbuffered_wrote x x' t : wrote x x' t -> unbuffered x -> unbuffered x'.
Proof. intros W. unfold unbuffered. by rewrite (w_flags _ _ _ W). Qed.

(** C29: a stream open for writing, whatever its buffering and whatever pieces the
    descriptor takes, shows (what the descriptor has taken, then what the buffer
    holds) exactly the bytes of the calls in their order, every call answers
    success, and a flush leaves everything with the descriptor; an unbuffered
    stream holds nothing back between calls.  The one way a program of calls can
    go wrong is a character put on a buffer that [fputs] or [fwrite] has filled
    to the last byte: that store is outside the buffer. *)
Theorem stdio_out_refines ops x :
  out_ok x -> Forall op_ok ops ->
  match out_run ops x with
  | Some (answers, x') =>
      answers = map op_answer ops /\ shown x' = shown x ++ concat (map op_text ops) /\
      (unbuffered x -> held x = O -> held x' = O) /\
      exists y, fflush spins x' = Some (0, y) /\ sink (fst y) = shown x'
  | None =>
      exists ops1 c ops2 answers x1, ops = ops1 ++ OPutc c :: ops2 /\
        out_run ops1 x = Some (answers, x1) /\ held x1 = NL_BUFSZ /\ ~ (unbuffered x /\ held x = O)
  end.
Proof.
  revert x. induction ops as [|op ops IH]; intros x Hx Hops.
  - cbn. split; [done|]. rewrite app_nil_r. split; [done|]. split; [done|].
    destruct (fflush_spec x Hx) as (y & E & W & L). exists y. split; [done|].
    rewrite <- (app_nil_r (shown x)), <- (w_text _ _ _ W). unfold shown. by rewrite (pending_nil _ L), app_nil_r.
  - apply Forall_cons in Hops as [Hop Hops]. cbn [out_run].
    destruct (out_exec_spec op x Hx Hop) as [(c & -> & Hfull & E)|(x1 & E & W & Hu)].
    + unfold mbind at 1, ST_bind. rewrite E. exists [], c, ops, [], x. repeat split; try done.
      intros [_ H0]. rewrite Hfull in H0. discriminate H0.
    + rewrite (bind_run _ _ _ _ _ E). specialize (IH x1 (w_ok _ _ _ W) Hops).
      destruct (out_run ops x1) as [[rs x']|] eqn:Er.
      * rewrite (bind_run _ _ _ _ _ Er). cbn. destruct IH as (-> & Ht & Hub & Hfl).
        split; [done|]. split; [by rewrite Ht, (w_text _ _ _ W), <- app_assoc|]. split; [|done].
        intros Hux H0. apply Hub; [by eapply unbuffered_wrote|auto].
      * unfold mbind at 1, ST_bind. rewrite Er. destruct IH as (ops1 & c & ops2 & rs & x2 & -> & E2 & Hf & Hn).
        exists (op :: ops1), c, ops2, (op_answer op :: rs), x2. split; [done|].
        split; [cbn [out_run]; rewrite (bind_run _ _ _ _ _ E); by rewrite (bind_run _ _ _ _ _ E2)|]. split; [done|].
        intros [Hux H0]. apply Hn. split; [by eapply unbuffered_wrote|auto].
Qed.
End out.

(** Two calls on the guest's standard output, with no disk linked: what a flush
    leaves on the console. *)
#[local] Existing Instance no_disk.

Definition at_boot (f : FILE) : vfs unit * FILE := (vfs_start tt, f).

Lemma stdio_out_refines_witness :
  exists answers x' y, out_run (Fds0 := guest_fds []) 0 [OPuts [104; 105]; OPutc 10] (at_boot nl_stdout) = Some (answers, x') /\
    answers = [0; 10] /\ fflush (Fds0 := guest_fds []) 0 x' = Some (0, y) /\ v_console (fst y) = [104; 105; 10].
Proof.
  pose proof (stdio_out_refines (Fds0 := guest_fds []) 1 (Sink0 := console_sink [] 1 eq_refl) 0
    [OPuts [104; 105]; OPutc 10] (at_boot nl_stdout)) as Hr.
  destruct (out_run 0 _ _) as [[answers x']|] eqn:E; [|vm_compute in E; discriminate E].
  destruct Hr as (Ha & Ht & _ & y & Hy & Hs).
  - split; [reflexivity|]. by constructor; vm_compute; first [reflexivity|lia].
  - by repeat constructor.
  - exists answers, x', y. split; [reflexivity|]. split; [exact Ha|]. split; [exact Hy|]. rewrite Ht in Hs. exact Hs.
Defined.

(** Text that fills the buffer to the last byte, then one character: [puts] of
    such a text stores outside the stream's buffer. *)
Example full_buffer_overflow :
  puts (Fds0 := guest_fds []) 0 (replicate 95 97) (io_start (vfs_start tt)) <> None /\
  (at_file stdout (fputs (Fds0 := guest_fds []) 0 (replicate 4001 97)) ≫= fun _ =>
   puts (Fds0 := guest_fds []) 0 (replicate 95 97)) (io_start (vfs_start tt)) = None.
Proof. split; [vm_compute; discriminate|vm_compute; reflexivity]. Qed.
