(* ===== verification/Printf.v ===== *)
(** The printf subset of the C library (nl_vfprintf of nolibc/stdio.c) against a
    description of formats as lists of items. *)

From S2P Require Import Prelude StateMonad InitFs Vfs Dtoa Stdio StdioOut.

(** ** Numerals *)

Definition digit_char (upper : bool) (d : Z) : Z := if d <? 10 then 48 + d else (if upper then 65 else 97) + (d - 10).

(** [numeral base upper v t]: [t] writes [v], without superfluous zeros. *)
Inductive numeral (base : Z) (upper : bool) : Z -> list Z -> Prop :=
| numeral_digit d : 0 <= d < base -> numeral base upper d [digit_char upper d]
| numeral_more v t d :
    numeral base upper v t -> 0 < v -> 0 <= d < base -> numeral base upper (v * base + d) (t ++ [digit_char upper d]).

Lemma digits_numeral fuel v base upper :
  2 <= base -> 0 <= v < base ^ Z.of_nat fuel -> fuel <> O -> numeral base upper v (rev (digits_rev fuel v base upper)).
Proof.
  intros Hb. revert v. induction fuel as [|fuel IH]; intros v Hv Hf; [done|]. rewrite pow_of_S in Hv.
  pose proof (Z.mod_pos_bound v base ltac:(lia)). pose proof (Z.div_mod v base ltac:(lia)) as Hdm.
  pose proof (Z.div_pos v base ltac:(lia) ltac:(lia)). cbn [digits_rev rev]. fold (digit_char upper (v mod base)).
  destruct (Z.eqb_spec (v / base) 0) as [E|E].
  - cbn. rewrite E in Hdm. replace v with (v mod base) at 1 by lia. by constructor.
  - replace v with (v / base * base + v mod base) at 1 by lia. constructor; [|lia|done].
    assert (v / base < base ^ Z.of_nat fuel) by (apply Z.div_lt_upper_bound; lia).
    apply IH; [lia|]. intros ->. cbn in *. lia.
Qed.

Lemma length_digits_rev fuel v base upper : (length (digits_rev fuel v base upper) <= fuel)%nat.
Proof. revert v. induction fuel as [|fuel IH]; intros v; cbn; [lia|]. destruct (_ =? 0); cbn; [lia|]. specialize (IH (v / base)). lia. Qed.

(** A number has one numeral. *)
Lemma numeral_unique base upper v t t' : numeral base upper v t -> numeral base upper v t' -> t = t'.
Proof.
  intros H. revert t'. induction H as [d Hd|v t d Ht IH Hv Hd]; intros t' H'.
  - inversion H' as [|v' t1 d' H1 Hv' Hd' E]; [done|nia].
  - remember (v * base + d) as w eqn:Ew. destruct H' as [d'|v' t1 d' H1 Hv' Hd']; [nia|].
    assert (v' = v) as -> by nia. assert (d' = d) as -> by lia. by rewrite (IH _ H1).
Qed.

(** ** Formats *)

Inductive prec_field := NoPrec | Digits (ds : list Z) | Star.

Record conv := Conv { c_flags : list Z; c_width : list Z; c_prec : prec_field; c_mods : list Z; c_char : Z }.

Inductive item := Lit (c : Z) | Directive (d : conv).

Definition prec_text (p : prec_field) : list Z :=
  match p with NoPrec => [] | Digits ds => 46 :: ds | Star => [46; 42] end.

Definition item_format (i : item) : list Z :=
  match i with
  | Lit c => [c]
  | Directive d => 37 :: c_flags d ++ c_width d ++ prec_text (c_prec d) ++ c_mods d ++ [c_char d]
  end.

Definition format_of (items : list item) : list Z := concat (map item_format items).

(** The number a precision field writes. *)
Definition dec_value (ds : list Z) : Z := foldl (fun v c => v * 10 + (c - 48)) 0 ds.

(** A conversion character is what is left when flags, digits, a point, a star and modifiers are taken off. *)
Definition conv_char (c : Z) : Prop := c <> 0 /\ is_flag c = false /\ is_dig c = false /\ is_mod c = false /\ c <> 46 /\ c <> 42.

Definition item_ok (i : item) : Prop :=
  match i with
  | Lit c => c <> 37
  | Directive d =>
      Forall (fun c => is_flag c = true) (c_flags d) /\
      Forall (fun c => is_dig c = true) (c_width d) /\ head (c_width d) <> Some 48 /\
      (forall ds, c_prec d = Digits ds -> Forall (fun c => is_dig c = true) ds /\ dec_value ds < 2 ^ 31) /\
      Forall (fun c => is_mod c = true) (c_mods d) /\ conv_char (c_char d)
  end.

(** How many [l] modifiers, and whether [#] is among the flags. *)
Definition longs_of (mods : list Z) : nat := length (filter (fun c => c = 108) mods).
Definition alt_of (flags : list Z) : bool := bool_decide (35 ∈ flags).

(** The precision and the arguments left of it; [-1] is none. *)
Inductive takes_prec : prec_field -> list va -> Z -> list va -> Prop :=
| takes_none args : takes_prec NoPrec args (-1) args
| takes_digits ds args : takes_prec (Digits ds) args (dec_value ds) args
| takes_star v args : takes_prec Star (VInt v :: args) (if swrap 32 v <? 0 then -1 else swrap 32 v) args.

(** What a conversion prints for its argument, and the arguments it leaves. *)
Inductive prints : Z -> nat -> Z -> bool -> list va -> list Z -> list va -> Prop :=
| prints_string longs prec alt s args :
    prints 115 longs prec alt (VStr s :: args) (default [40; 110; 117; 108; 108; 41] s) args
| prints_char longs prec alt v args : prints 99 longs prec alt (VInt v :: args) [wrap 8 v] args
| prints_signed c longs prec alt a v t args :
    c = 100 \/ c = 105 -> va_signed longs a = Some v -> numeral 10 false (Z.abs v) t ->
    prints c longs prec alt (a :: args) (if v <? 0 then 45 :: t else t) args
| prints_unsigned longs prec alt a v t args :
    va_unsigned longs a = Some v -> numeral 10 false v t -> prints 117 longs prec alt (a :: args) t args
| prints_hex c longs prec alt a v t args :
    c = 120 \/ c = 88 -> va_unsigned longs a = Some v -> numeral 16 (c =? 88) v t ->
    prints c longs prec alt (a :: args) t args
| prints_pointer longs prec alt v t args :
    numeral 16 false (wrap64 v) t -> prints 112 longs prec alt (VPtr v :: args) (48 :: 120 :: t) args
| prints_double c longs prec alt bits t args :
    c ∈ [102; 70; 101; 69; 103; 71] -> t = nl_format_double bits (Z.lor c 32) (if prec <? 0 then 6 else prec) alt ->
    (length t <= FBUF)%nat -> prints c longs prec alt (VDouble bits :: args) t args
| prints_percent longs prec alt args : prints 37 longs prec alt args [37] args
| prints_unknown c longs prec alt args :
    c ∉ [115; 99; 100; 105; 117; 120; 88; 112; 102; 70; 101; 69; 103; 71; 37] ->
    prints c longs prec alt args [37; c] args.

Inductive prints_items : list item -> list va -> list Z -> list va -> Prop :=
| prints_end args : prints_items [] args [] args
| prints_lit c items args t args' : prints_items items args t args' -> prints_items (Lit c :: items) args (c :: t) args'
| prints_directive d items args prec args1 t1 args2 t2 args3 :
    takes_prec (c_prec d) args prec args1 ->
    prints (c_char d) (longs_of (c_mods d)) prec (alt_of (c_flags d)) args1 t1 args2 ->
    prints_items items args2 t2 args3 ->
    prints_items (Directive d :: items) args (t1 ++ t2) args3.

(** ** Reading a directive *)

(** [f] fails at the first character of [l]. *)
Definition stops (f : Z -> bool) (l : list Z) : Prop := forall c, head l = Some c -> f c = false.

Lemma stops_app f l1 l2 : stops f l1 -> (l1 = [] -> stops f l2) -> stops f (l1 ++ l2).
Proof. destruct l1; [auto|by intros H _]. Qed.

Lemma stops_nil f : stops f [].
Proof. by intros c. Qed.

Lemma stops_all f g l : (forall c, g c = true -> f c = false) -> Forall (fun c => g c = true) l -> stops f l.
Proof. intros Hfg Hl c Hc. apply Hfg. destruct l; [done|]. injection Hc as ->. by inversion Hl. Qed.

Lemma stops_one (f : Z -> bool) c : f c = false -> stops f [c].
Proof. by intros H ? [= <-]. Qed.

Lemma skip_flags_app fl rest alt :
  Forall (fun c => is_flag c = true) fl -> stops is_flag rest -> skip_flags (fl ++ rest) alt = (rest, alt || alt_of fl).
Proof.
  intros Hfl Hs. revert alt. induction Hfl as [|c fl Hc Hfl IH]; intros alt.
  - cbn. rewrite orb_false_r. destruct rest as [|c rest]; [done|]. cbn. by rewrite (Hs c eq_refl).
  - cbn. rewrite Hc, IH. f_equal. rewrite <- orb_assoc. f_equal. unfold alt_of.
    destruct (Z.eqb_spec c 35) as [->|Hne]; cbn.
    + symmetry. apply bool_decide_eq_true. by left.
    + apply bool_decide_ext. rewrite elem_of_cons. split; [auto|]. intros [?|?]; [congruence|done].
Qed.

Lemma skip_digits_app ds rest : Forall (fun c => is_dig c = true) ds -> stops is_dig rest -> skip_digits (ds ++ rest) = rest.
Proof.
  intros Hds Hs. induction Hds as [|c ds Hc Hds IH]; cbn; [|by rewrite Hc].
  destruct rest as [|c rest]; [done|]. cbn. by rewrite (Hs c eq_refl).
Qed.

Lemma dec_value_ge ds v : Forall (fun c => is_dig c = true) ds -> 0 <= v -> v <= foldl (fun v c => v * 10 + (c - 48)) v ds.
Proof.
  intros Hds. revert v. induction Hds as [|c ds Hc Hds IH]; intros v Hv; cbn; [lia|].
  apply andb_true_iff in Hc as [H1 H2]. specialize (IH (v * 10 + (c - 48)) ltac:(lia)). lia.
Qed.

Lemma read_digits_app ds rest v :
  Forall (fun c => is_dig c = true) ds -> stops is_dig rest -> 0 <= v ->
  foldl (fun v c => v * 10 + (c - 48)) v ds < 2 ^ 31 ->
  read_digits (ds ++ rest) v = Some (foldl (fun v c => v * 10 + (c - 48)) v ds, rest).
Proof.
  intros Hds Hs. revert v. induction Hds as [|c ds Hc Hds IH]; intros v Hv Hb; cbn in *.
  - destruct rest as [|c rest]; [done|]. cbn. by rewrite (Hs c eq_refl).
  - rewrite Hc. apply andb_true_iff in Hc as [H1 H2].
    pose proof (dec_value_ge ds (v * 10 + (c - 48)) Hds ltac:(lia)).
    destruct (Z.leb_spec (2 ^ 31) (v * 10 + (c - 48))); [lia|]. apply IH; [lia|done].
Qed.

Lemma skip_mods_app mods rest n :
  Forall (fun c => is_mod c = true) mods -> stops is_mod rest -> skip_mods (mods ++ rest) n = (rest, (longs_of mods + n)%nat).
Proof.
  intros Hm Hs. revert n. induction Hm as [|c mods Hc Hm IH]; intros n.
  - cbn. destruct rest as [|c rest]; [done|]. cbn. by rewrite (Hs c eq_refl).
  - cbn [app skip_mods]. rewrite Hc, IH. f_equal. unfold longs_of. rewrite filter_cons. destruct (Z.eqb_spec c 108), (decide (c = 108)); cbn; lia.
Qed.

(** [read_prec] by the first characters, as tests. *)
Lemma read_prec_cases p args :
  read_prec p args =
    if bool_decide (head p = Some 46) then
      if bool_decide (head (tail p) = Some 42) then
        '(a, args) ← next_arg args;
        prec ← va_signed 0 a;
        Some (if prec <? 0 then -1 else prec, tail (tail p), args)
      else '(prec, p) ← read_digits (tail p) 0; Some (prec, p, args)
    else Some (-1, p, args).
Proof.
  assert (Hc : forall c k, bool_decide (Some c = Some k) = (c =? k))
    by (intros c k; case_bool_decide as E; destruct (Z.eqb_spec c k); congruence).
  destruct p as [|c p]; [done|]. cbn [head tail]. rewrite Hc. destruct (Z.eqb_spec c 46) as [->|H].
  - destruct p as [|c p]; [done|]. cbn [head tail]. rewrite Hc. destruct (Z.eqb_spec c 42) as [->|H']; [done|].
    cbn. do 6 (destruct c as [|c|c]; try done; try (destruct c; try done)).
  - unfold read_prec. do 6 (destruct c as [|c|c]; try done; try (destruct c; try done)).
Qed.

Lemma mod_class c : is_mod c = true -> is_flag c = false /\ is_dig c = false /\ c <> 46 /\ c <> 42.
Proof. unfold is_mod, is_flag, is_dig. rewrite !orb_true_iff, !Z.eqb_eq. intros H. repeat split; zcases; cbn; lia. Qed.

Lemma dig_class c : is_dig c = true -> is_mod c = false /\ c <> 42 /\ (c <> 48 -> is_flag c = false).
Proof. unfold is_mod, is_flag, is_dig. rewrite andb_true_iff, !Z.leb_le. intros H. repeat split; try intros Hc; zcases; cbn; lia. Qed.

(** A directive is taken apart into its fields. *)
Lemma directive_parse d rest args prec args1 :
  item_ok (Directive d) -> takes_prec (c_prec d) args prec args1 ->
  exists p1 p2,
    skip_flags (c_flags d ++ c_width d ++ prec_text (c_prec d) ++ c_mods d ++ c_char d :: rest) false = (p1, alt_of (c_flags d)) /\
    read_prec (skip_digits p1) args = Some (prec, p2, args1) /\
    skip_mods p2 0 = (c_char d :: rest, longs_of (c_mods d)).
Proof.
  intros (Hfl & Hw & Hw0 & Hp & Hm & Hc0 & Hcf & Hcd & Hcm & Hc46 & Hc42) Ht.
  set (p2 := c_mods d ++ c_char d :: rest).
  assert (Hp2 : forall f, (forall c, is_mod c = true -> f c = false) -> f (c_char d) = false -> stops f p2).
  { intros f H1 H2. apply stops_app; [by apply (stops_all f is_mod)|]. intros _ c [= <-]. done. }
  assert (Hpt : forall f, (forall c, is_mod c = true -> f c = false) -> f (c_char d) = false -> f 46 = false ->
                stops f (prec_text (c_prec d) ++ p2)).
  { intros f H1 H2 H3. apply stops_app; [|intros _; by apply Hp2]. destruct (c_prec d); [apply stops_nil| |]; by intros ? [= <-]. }
  exists (c_width d ++ prec_text (c_prec d) ++ p2), p2. split; [|split].
  - rewrite skip_flags_app; [done|done|]. apply stops_app.
    + intros c Hc. destruct (c_width d) as [|c' w]; [done|]. injection Hc as ->. apply Forall_cons in Hw as [Hc _].
      apply (dig_class _ Hc). intros ->. by apply Hw0.
    + intros _. apply Hpt; [intros c Hc; apply (mod_class c Hc)|done|done].
  - rewrite skip_digits_app; [|done|apply Hpt; [intros c Hc; apply (mod_class c Hc)|done|done]].
    rewrite read_prec_cases. destruct Ht as [args|ds args|v args]; cbn [prec_text app head tail].
    + rewrite bool_decide_eq_false_2; [done|]. intros H.
      specialize (Hp2 (fun c => c =? 46)). cbn in Hp2. apply Hp2 in H; [done| |by apply Z.eqb_neq].
      intros c Hc. apply Z.eqb_neq. apply (mod_class c Hc).
    + destruct (Hp ds eq_refl) as [Hds Hv]. rewrite bool_decide_eq_true_2 by done. rewrite bool_decide_eq_false_2.
      * rewrite read_digits_app; [done|done| |lia|done]. apply Hp2; [intros c Hc; apply (mod_class c Hc)|done].
      * intros H. assert (Hs : stops (fun c => c =? 42) (ds ++ p2)).
        { apply stops_app; [apply (stops_all _ is_dig); [|done]; intros c Hc; apply Z.eqb_neq; by apply dig_class|].
          intros _. apply Hp2; [intros c Hc; apply Z.eqb_neq; apply (mod_class c Hc)|by apply Z.eqb_neq]. }
        by apply Hs in H.
    + rewrite !bool_decide_eq_true_2 by done. done.
  - unfold p2. rewrite skip_mods_app; [by rewrite Nat.add_0_r|done|]. by intros c [= <-].
Qed.

(** ** What a computation prints *)

Section emits.
Context {S : Type} `{!Fds S} (fd : Z) `{!Sink fd} (spins : nat).
Abbreviation F := (ST (S * FILE)).

(** An empty unbuffered stream, or room for [n] more bytes. *)
Definition roomy (n : nat) (x : S * FILE) : Prop :=
  (unbuffered x /\ held x = O) \/ (held x + n < NL_BUFSZ)%nat.

(** In a stream with that room [m] answers [r] and prints [t]. *)
Definition emits {A} (m : F A) (r : A) (t : list Z) : Prop :=
  forall n x, out_ok fd x -> roomy (length t + n) x ->
  exists x', m x = Some (r, x') /\ wrote fd x x' t /\ roomy n x'.

Lemma roomy_wrote n x x' t :
  wrote fd x x' t -> (unbuffered x -> held x' = O) -> roomy (length t + n) x -> roomy n x'.
Proof.
  intros W Hu [[Hux H0]|Hr]; [left|right].
  - split; [by eapply unbuffered_wrote|auto].
  - pose proof (w_held _ _ _ _ W). lia.
Qed.

Lemma emits_ret {A} (r : A) : emits (mret r) r [].
Proof. intros n x Hx Hr. exists x. split; [done|]. split; [by apply wrote_nil|done]. Qed.

Lemma emits_bind {A B} (m : F A) (k : A -> F B) a b t u :
  emits m a t -> emits (k a) b u -> emits (m ≫= k) b (t ++ u).
Proof.
  intros Hm Hk n x Hx Hr. rewrite length_app, <- Nat.add_assoc in Hr.
  destruct (Hm _ x Hx Hr) as (y & E1 & W1 & R1). destruct (Hk _ y (w_ok _ _ _ _ W1) R1) as (z & E2 & W2 & R2).
  exists z. rewrite (bind_run _ _ _ _ _ E1). split; [done|]. split; [by eapply wrote_app|done].
Qed.

Lemma emits_then {A B} (m : F A) (k : A -> F B) a b t : emits m a t -> emits (k a) b [] -> emits (m ≫= k) b t.
Proof. intros Hm Hk. rewrite <- (app_nil_r t). by eapply emits_bind. Qed.

Lemma emits_option {A B} (o : option A) (k : A -> F B) a b t : o = Some a -> emits (k a) b t -> emits (of_option o ≫= k) b t.
Proof. intros -> Hk. exact Hk. Qed.

Lemma emits_putb c : emits (nl_putb spins c) 0 [c].
Proof.
  intros n x Hx Hr. destruct (nl_putb_spec fd spins c x Hx) as (x' & E & W & _ & Hu & _).
  { destruct Hr as [[_ H0]|Hr]; [rewrite H0; unfold NL_BUFSZ; lia|lia]. }
  exists x'. split; [done|]. split; [done|]. by apply (roomy_wrote n x x' [c]).
Qed.

Lemma emits_fputs s : emits (fputs spins s) 0 s.
Proof.
  intros n x Hx Hr. destruct (fputs_spec fd spins s x Hx) as (x' & E & W & Hu & _).
  exists x'. split; [done|]. split; [done|]. by apply (roomy_wrote n x x' s).
Qed.

Lemma emits_bytes l : emits (put_bytes spins l) 0 l.
Proof.
  induction l as [|c l IH]; [apply emits_ret|]. cbn [put_bytes]. change (c :: l) with ([c] ++ l).
  eapply emits_bind; [apply emits_putb|]. exact IH.
Qed.

(** ** Numbers *)

Lemma emits_fmt_u v base upper :
  2 <= base -> 0 <= v < 2 ^ 64 ->
  exists t, numeral base upper v t /\ emits (nl_fmt_u spins v base upper) (Z.of_nat (length t)) t.
Proof.
  intros Hb Hv. exists (rev (digits_rev 64 v base upper)). split.
  - apply digits_numeral; [done| |done]. split; [lia|]. apply Z.lt_le_trans with (2 ^ 64); [lia|]. apply Z.pow_le_mono_l. lia.
  - unfold nl_fmt_u. cbv zeta. rewrite length_rev. eapply emits_then; [apply emits_bytes|]. apply emits_ret.
Qed.

Lemma emits_fmt_s v :
  - 2 ^ 63 <= v < 2 ^ 63 ->
  exists t, numeral 10 false (Z.abs v) t /\
    let out := if v <? 0 then 45 :: t else t in emits (nl_fmt_s spins v) (Z.of_nat (length out)) out.
Proof.
  intros Hv. destruct (emits_fmt_u (Z.abs v) 10 false) as (t & Hn & He); [lia|lia|]. exists t. split; [done|].
  unfold nl_fmt_s. cbv zeta. destruct (Z.ltb_spec v 0) as [H|H].
  - rewrite (wrap64_small (- v)) by lia. replace (- v) with (Z.abs v) by lia. change (45 :: t) with ([45] ++ t).
    eapply emits_bind; [apply emits_putb|]. cbn [Z.ltb Z.compare]. eapply emits_then; [exact He|].
    destruct (Z.ltb_spec (Z.of_nat (length t)) 0); [lia|].
    replace (Z.of_nat (length ([45] ++ t))) with (Z.of_nat (length t) + 1) by (rewrite length_app; cbn; lia). apply emits_ret.
  - replace (Z.abs v) with v in He by lia. change t with ([] ++ t) at 2. eapply emits_bind; [apply emits_ret|].
    cbn [Z.ltb Z.compare]. eapply emits_then; [exact He|].
    destruct (Z.ltb_spec (Z.of_nat (length t)) 0); [lia|]. rewrite Z.add_0_r. apply emits_ret.
Qed.

(** ** Conversions *)

Lemma lor_32 c k : Z.lor c 32 = k -> c = k \/ c = k - 32.
Proof.
  intros <-. destruct (Z.testbit c 5) eqn:Hb; [left|right].
  - apply Z.bits_inj'. intros i Hi. rewrite Z.lor_spec. change 32 with (2 ^ 5). rewrite Z.pow2_bits_eqb by lia.
    destruct (Z.eqb_spec 5 i) as [<-|]; [by rewrite Hb|by rewrite orb_false_r].
  - rewrite Z.lor_comm, <- Z.lxor_lor, <- Z.add_nocarry_lxor; [lia| |];
      (apply Z.bits_inj'; intros i Hi; rewrite Z.land_spec, Z.bits_0; change 32 with (2 ^ 5); rewrite Z.pow2_bits_eqb by lia;
       destruct (Z.eqb_spec 5 i) as [<-|]; [by rewrite Hb|done]).
Qed.

Lemma counted (n : nat) : (if Z.of_nat n <? 0 then -1 else Z.of_nat n) = Z.of_nat n.
Proof. destruct (Z.ltb_spec (Z.of_nat n) 0); [lia|done]. Qed.

(** Membership in a list of numbers. *)
Ltac in_list := apply (bool_decide_unpack _); vm_compute; exact I.

(** Every conversion prints what it is to print and counts its bytes. *)
Lemma emits_convert c longs prec alt args t args' :
  c <> 0 -> prints c longs prec alt args t args' ->
  emits (nl_convert spins c longs prec alt args) (Z.of_nat (length t), args') t.
Proof.
  intros Hc H. destruct H; unfold nl_convert.
  - cbv [Z.eqb Pos.eqb orb]; cbv iota. eapply emits_option; [done|]. eapply emits_option; [done|].
    eapply emits_then; [apply emits_fputs|]. apply emits_ret.
  - cbv [Z.eqb Pos.eqb orb]; cbv iota. eapply emits_option; [done|]. eapply emits_option; [done|].
    replace (wrap 8 v) with (wrap 8 (swrap 32 v)) by (unfold wrap, swrap; zdiv).
    eapply emits_then; [apply emits_putb|]. apply emits_ret.
  - assert (Hv : - 2 ^ 63 <= v < 2 ^ 63) by (destruct a, longs; try done; simplify_eq/=; unfold swrap; zdiv).
    destruct (emits_fmt_s v Hv) as (t' & Hn & He). rewrite (numeral_unique _ _ _ _ _ Hn H1) in He.
    destruct H as [-> | ->]; (cbv [Z.eqb Pos.eqb orb]; cbv iota; eapply emits_option; [done|]; eapply emits_option; [done|];
      eapply emits_then; [exact He|]; apply emits_ret).
  - assert (Hv : 0 <= v < 2 ^ 64) by (destruct a, longs; try done; simplify_eq/=; unfold wrap; zdiv).
    destruct (emits_fmt_u v 10 false ltac:(lia) Hv) as (t' & Hn & He). rewrite (numeral_unique _ _ _ _ _ Hn H0) in He.
    cbv [Z.eqb Pos.eqb orb]; cbv iota. eapply emits_option; [done|]. eapply emits_option; [done|].
    eapply emits_then; [exact He|]. apply emits_ret.
  - assert (Hv : 0 <= v < 2 ^ 64) by (destruct a, longs; try done; simplify_eq/=; unfold wrap; zdiv).
    destruct (emits_fmt_u v 16 (c =? 88) ltac:(lia) Hv) as (t' & Hn & He). rewrite (numeral_unique _ _ _ _ _ Hn H1) in He.
    destruct H as [-> | ->]; (cbv [Z.eqb Pos.eqb orb] in *; cbv iota in *; eapply emits_option; [done|]; eapply emits_option; [done|];
      eapply emits_then; [exact He|]; apply emits_ret).
  - destruct (emits_fmt_u (wrap64 v) 16 false ltac:(lia) (wrap64_bound v)) as (t' & Hn & He).
    rewrite (numeral_unique _ _ _ _ _ Hn H) in He. cbv [Z.eqb Pos.eqb orb]; cbv iota.
    eapply emits_option; [done|]. eapply emits_option; [done|].
    change (48 :: 120 :: t) with ([48; 120] ++ t). eapply emits_bind; [apply emits_bytes|]. cbn [Z.ltb Z.compare].
    eapply emits_then; [exact He|]. destruct (Z.ltb_spec (Z.of_nat (length t)) 0); [lia|].
    replace (Z.of_nat (length t) + 2) with (Z.of_nat (length ([48; 120] ++ t))) by (rewrite length_app; cbn [length]; lia). apply emits_ret.
  - rewrite (bool_decide_eq_true_2 (Z.lor c 32 = ch_f \/ _ \/ _)).
    2:{ rewrite !elem_of_cons in H. destruct H as [->|[->|[->|[->|[->|[->|H]]]]]]; [vm_compute; tauto..|inversion H]. }
    rewrite !elem_of_cons in H.
    assert (Hn : forall k, k ∈ [115; 99; 100; 105; 117; 120; 88; 112] -> (c =? k) = false).
    { intros k Hk. apply Z.eqb_neq. rewrite !elem_of_cons, elem_of_nil in Hk. destruct H as [?|[?|[?|[?|[?|[?|H]]]]]]; [lia..|inversion H]. }
    rewrite !Hn by in_list. cbn [orb]. eapply emits_option; [done|]. eapply emits_option; [done|].
    cbv zeta. rewrite <- H0. destruct (Nat.ltb_spec FBUF (length t)); [lia|].
    eapply emits_then; [apply emits_bytes|]. apply emits_ret.
  - cbv [Z.eqb Pos.eqb orb]; cbv iota. rewrite bool_decide_eq_false_2; [|by intros [E|[E|E]]; vm_compute in E].
    eapply emits_then; [apply emits_putb|]. apply emits_ret.
  - assert (Hn : forall k, k ∈ [115; 99; 100; 105; 117; 120; 88; 112; 102; 70; 101; 69; 103; 71; 37] -> (c =? k) = false)
      by (intros k Hk; apply Z.eqb_neq; congruence).
    rewrite !Hn by in_list. cbn [orb]. rewrite bool_decide_eq_false_2.
    2:{ unfold ch_f, ch_e, ch_g. intros [E|[E|E]]; apply lor_32 in E as [-> | ->]; apply H; in_list. }
    change [37; c] with ([37] ++ [c]). eapply emits_bind; [apply emits_putb|]. cbn [Z.ltb Z.compare].
    destruct (Z.eqb_spec c 0); [done|]. eapply emits_then; [apply emits_putb|]. apply emits_ret.
Qed.

Lemma emits_loop items args t rest fuel written :
  prints_items items args t rest -> Forall item_ok items -> (length (format_of items) < fuel)%nat ->
  0 <= written -> written + Z.of_nat (length t) < 2 ^ 31 ->
  emits (nl_vfprintf_loop spins fuel (format_of items) args written) (written + Z.of_nat (length t)) t.
Proof.
  intros H. revert fuel written.
  induction H as [args|c items args t args' Hp IH|d items args prec args1 t1 args2 t2 args3 Ht Hc Hp IH];
    intros fuel written Hok Hf Hw Hb; (destruct fuel as [|fuel]; [lia|]); cbn [nl_vfprintf_loop].
  - destruct (Z.leb_spec (2 ^ 31) written); [lia|]. cbn. rewrite Z.add_0_r. apply emits_ret.
  - apply Forall_cons in Hok as [Hc Hok]. cbn [item_ok] in Hc. destruct (Z.leb_spec (2 ^ 31) written); [lia|].
    cbn [format_of map concat item_format app]. destruct (Z.eqb_spec c 37); [done|]. cbn [negb].
    change (c :: t) with ([c] ++ t). eapply emits_bind; [apply emits_putb|]. cbn [Z.ltb Z.compare].
    cbn [length] in *. rewrite length_app. cbn [length].
    replace (written + Z.of_nat (1 + length t)) with (written + 1 + Z.of_nat (length t)) by lia.
    unfold format_of in *. cbn [map concat item_format app length] in Hf. apply IH; [done|lia..].
  - apply Forall_cons in Hok as [Hd Hok]. destruct (Z.leb_spec (2 ^ 31) written); [lia|].
    destruct (directive_parse d (format_of items) args prec args1 Hd Ht) as (p1 & p2 & E1 & E2 & E3).
    unfold format_of in *. cbn [map concat item_format app]. rewrite <- !app_assoc. cbn [app Z.eqb Pos.eqb negb].
    rewrite E1. eapply emits_option; [exact E2|]. cbv beta iota. rewrite E3. cbn [hd0 tail].
    eapply emits_bind; [apply emits_convert; [apply Hd|exact Hc]|]. cbv beta iota.
    destruct (Z.ltb_spec (Z.of_nat (length t1)) 0); [lia|].
    rewrite length_app in *. cbn [map concat item_format length] in Hf. rewrite length_app in Hf.
    replace (written + Z.of_nat (length t1 + length t2)) with (written + Z.of_nat (length t1) + Z.of_nat (length t2)) by lia.
    apply IH; [done|cbn in Hf; lia|lia|lia].
Qed.

End emits.

(** [%s=%d %lx%%] on the guest's standard error. *)
#[local] Existing Instance no_disk.


(** A precision of 2000 digits leaves the 1200 bytes of the conversion buffer. *)
Example precision_overflow :
  nl_vfprintf (Fds0 := guest_fds []) 0 [37; 46; 50; 48; 48; 48; 102] [VDouble 0] (at_boot nl_stderr) = None.
Proof. vm_compute. reflexivity. Qed.

(** A format that ends in a percent sign prints one byte and counts two. *)
Example lone_percent :
  match nl_vfprintf (Fds0 := guest_fds []) 0 [37] [] (at_boot nl_stderr) with
  | Some (n, x) => n = 2 /\ v_console (fst x) = [37]
  | None => False
  end.
Proof. vm_compute. split; reflexivity. Qed.
