(* ===== verification/StdioIn.v ===== *)
(** A stream open for reading is a cursor into its file: the read-ahead, the
    pushed-back character and the end-of-file flag against a position, at most one
    character and a bit. *)

From S2P Require Import Prelude StateMonad InitFs Vfs VfsSafe VfsFd Dtoa Stdio StdioOut.

(** A descriptor that reads [src_data] from a position, in pieces as it likes,
    and seeks to any place of it. *)
Class Source {S} `{!Fds S} (fd : Z) := {
  src_ok : S -> Prop;
  src_data : list Z;
  src_pos : S -> Z;
  src_bytes : Forall (fun c => 0 <= c < 256) src_data;
  src_range s : src_ok s -> 0 <= src_pos s <= Z.of_nat (length src_data);
  src_read s n : src_ok s -> 0 < n < 2 ^ 64 -> exists r s',
    nl_read fd n s = Some ((r, take (Z.to_nat r) (drop (Z.to_nat (src_pos s)) src_data)), s') /\
    src_ok s' /\ 0 <= r <= n /\ src_pos s' = src_pos s + r /\
    (r = 0 -> src_pos s = Z.of_nat (length src_data));
  src_seek s off whence : src_ok s ->
    let target := (if whence =? 0 then 0 else if whence =? 1 then src_pos s else Z.of_nat (length src_data)) + off in
    0 <= target <= Z.of_nat (length src_data) ->
    exists s', nl_lseek fd off whence s = Some (target, s') /\ src_ok s' /\ src_pos s' = target;
}.

(** ** The cursor *)

Record cursor := Cur { c_pos : Z; c_push : option Z; c_eof : bool }.

(** The characters to come. *)
Definition coming (data : list Z) (c : cursor) : list Z := option_list (c_push c) ++ drop (Z.to_nat (c_pos c)) data.

(** Where the caller is: a pushed-back character is before the position. *)
Definition tell (c : cursor) : Z := c_pos c - Z.of_nat (length (option_list (c_push c))).

(** Behind [k] characters, or at the end with the flag set when there are fewer. *)
Definition advance (data : list Z) (k : nat) (c : cursor) : cursor :=
  match k with
  | O => c
  | _ => let got := take k (coming data c) in
         Cur (tell c + Z.of_nat (length got)) None (c_eof c || (length got <? k)%nat)
  end.

Inductive in_op :=
| IGetc
| IRead (sz n : Z)
| IUnget (c : Z)
| ISeek (off whence : Z)
| ITell
| IEof.

(** What a call answers, and the bytes it gives. *)
Definition cursor_step (data : list Z) (op : in_op) (c : cursor) : option ((Z * list Z) * cursor) :=
  match op with
  | IGetc =>
      match coming data c with
      | [] => Some ((-1, []), Cur (c_pos c) None true)
      | ch :: _ => Some ((ch, []), Cur (tell c + 1) None (c_eof c))
      end
  | IRead sz n =>
      let want := wrap64 (sz * n) in
      if (sz =? 0) || (n =? 0) then Some ((0, []), c) else
      let got := take (Z.to_nat want) (coming data c) in
      Some ((Z.of_nat (length got) / sz, got), advance data (Z.to_nat want) c)
  | IUnget ch =>
      if ch <? 0 then Some ((-1, []), c)
      else Some ((Z.land ch 255, []), Cur (c_pos c) (Some (Z.land ch 255)) false)
  | ISeek off whence =>
      let target := (if whence =? 0 then 0 else if whence =? 1 then tell c else Z.of_nat (length data)) + off in
      if (0 <=? target) && (target <=? Z.of_nat (length data)) then Some ((0, []), Cur target None false) else None
  | ITell => Some ((tell c, []), c)
  | IEof => Some ((if c_eof c then 1 else 0, []), c)
  end.

Fixpoint cursor_run (data : list Z) (ops : list in_op) (c : cursor) : option (list (Z * list Z) * cursor) :=
  match ops with
  | [] => Some ([], c)
  | op :: ops =>
      '(a, c) ← cursor_step data op c;
      '(rest, c) ← cursor_run data ops c;
      Some (a :: rest, c)
  end.

Lemma drop_tl' {A} (l : list A) n x t : drop n l = x :: t -> drop (Datatypes.S n) l = t.
Proof. intros H. by rewrite <- Nat.add_1_r, <- drop_drop, H. Qed.

Lemma coming_move data c m e :
  0 <= c_pos c -> (0 < m <= length (coming data c))%nat ->
  coming data (Cur (tell c + Z.of_nat m) None e) = drop m (coming data c).
Proof.
  intros Hp Hm. destruct c as [p [ch|] eof]; unfold coming, tell in *; cbn in *.
  - destruct m as [|m]; [lia|]. cbn. rewrite drop_drop. f_equal. lia.
  - rewrite drop_drop. f_equal. lia.
Qed.

Lemma advance_split data c m k :
  0 <= c_pos c -> (0 < m <= length (coming data c))%nat -> (m <= k)%nat ->
  let c1 := Cur (tell c + Z.of_nat m) None (c_eof c) in
  take k (coming data c) = take m (coming data c) ++ take (k - m) (coming data c1) /\
  advance data k c = advance data (k - m) c1.
Proof.
  intros Hp Hm Hk c1. pose proof (coming_move data c m (c_eof c) Hp Hm) as Hc. fold c1 in Hc.
  assert (Ht : take k (coming data c) = take m (coming data c) ++ take (k - m) (coming data c1)).
  { rewrite Hc, take_drop_commute. replace (m + (k - m))%nat with k by lia.
    rewrite <- (take_drop m (take k (coming data c))) at 1. by rewrite take_take, Nat.min_l by lia. }
  split; [done|]. unfold advance at 1. destruct k as [|k]; [lia|]. rewrite Ht, length_app, (firstn_length_le _ (n := m)) by lia.
  unfold advance. destruct (Datatypes.S k - m)%nat as [|k'] eqn:Ek.
  - rewrite take_0, Nat.add_0_r. destruct (Nat.ltb_spec m (Datatypes.S k)); [lia|]. by rewrite orb_false_r.
  - set (g := length (take (Datatypes.S k') _)).
    assert (((m + g <? Datatypes.S k) = (g <? Datatypes.S k'))%nat) as ->
      by (destruct (Nat.ltb_spec (m + g) (Datatypes.S k)), (Nat.ltb_spec g (Datatypes.S k')); lia).
    unfold c1, tell. cbn [c_pos c_push c_eof option_list length]. f_equal. change (length (option_list None)) with O. lia.
Qed.

Section reading.
Context {S : Type} `{!Fds S} (fd : Z) `{!Source fd} (spins : nat).
Abbreviation F := (ST (S * FILE)).
Abbreviation data := (src_data (fd := fd)).

Record reads (f : FILE) : Prop := {
  rd_fd : f_fd f = fd;
  rd_read : has (f_flags f) NL_F_READ = true;
  rd_write : has (f_flags f) NL_F_WRITE = false;
  rd_window : (f_bufpos f <= f_buflen f <= NL_BUFSZ)%nat;
  rd_buf : length (f_buf f) = NL_BUFSZ
}.

(** Bytes read from the descriptor and not given out yet. *)
Definition window (f : FILE) : list Z := take (f_buflen f - f_bufpos f) (drop (f_bufpos f) (f_buf f)).

Definition abs (x : S * FILE) : cursor :=
  Cur (src_pos (fst x) - ahead (snd x)) (if 0 <=? f_ungot (snd x) then Some (f_ungot (snd x)) else None)
      (has (f_flags (snd x)) NL_F_EOF).

Record in_ok (x : S * FILE) : Prop := {
  in_src : src_ok (fst x);
  in_file : reads (snd x);
  in_pos : 0 <= c_pos (abs x);
  in_ahead : window (snd x) ++ drop (Z.to_nat (src_pos (fst x))) data = drop (Z.to_nat (c_pos (abs x))) data
}.

Lemma length_window f : reads f -> length (window f) = (f_buflen f - f_bufpos f)%nat.
Proof. intros [H1 H2 H3 H4 H5]. unfold window. rewrite length_take, length_drop. lia. Qed.

Lemma window_pop f c t : reads f -> window f = c :: t ->
  f_buf f !! f_bufpos f = Some c /\ (f_bufpos f < f_buflen f)%nat /\ window (set_bufpos (Datatypes.S (f_bufpos f)) f) = t.
Proof.
  intros Hf Hw. pose proof (length_window f Hf) as Hl. rewrite Hw in Hl. cbn in Hl.
  assert (Hc : window f !! 0%nat = Some c) by by rewrite Hw.
  unfold window in *. rewrite lookup_take, lookup_drop, Nat.add_0_r in Hc. rewrite decide_True in Hc by lia. split; [done|].
  split; [lia|]. cbn. rewrite (drop_S _ _ _ Hc) in Hw.
  replace (f_buflen f - f_bufpos f)%nat with (Datatypes.S (f_buflen f - Datatypes.S (f_bufpos f))) in Hw by lia.
  cbn in Hw. by injection Hw.
Qed.

Lemma upd_run {B} g (k : unit -> F B) x : (upd g ≫= k) x = k tt (fst x, g (snd x)).
Proof. done. Qed.

(** The last steps of [fgetc]: the next byte of the buffer. *)
Definition pop_byte : F Z :=
  f ← the_file;
  c ← of_option (f_buf f !! f_bufpos f);
  upd (set_bufpos (Datatypes.S (f_bufpos f)));;
  mret c.

Lemma coming_nopush c : c_push c = None -> coming data c = drop (Z.to_nat (c_pos c)) data.
Proof. intros H. unfold coming. by rewrite H. Qed.

Lemma abs_push_none x : f_ungot (snd x) < 0 -> c_push (abs x) = None.
Proof. intros H. unfold abs. cbn. by destruct (Z.leb_spec 0 (f_ungot (snd x))); [lia|]. Qed.

Lemma pop_byte_spec x :
  in_ok x -> f_ungot (snd x) < 0 -> (f_bufpos (snd x) < f_buflen (snd x))%nat ->
  exists c x', pop_byte x = Some (c, x') /\ in_ok x' /\ cursor_step data IGetc (abs x) = Some ((c, []), abs x').
Proof.
  intros [Hs Hf Hp Ha] Hu Hlt. destruct x as [s f]. cbn [fst snd] in *.
  pose proof (length_window f Hf) as Hl. destruct (window f) as [|c t] eqn:Hw; [cbn in Hl; lia|].
  destruct (window_pop f c t Hf Hw) as (Hc & _ & Ht). set (f' := set_bufpos (Datatypes.S (f_bufpos f)) f).
  assert (Habs : abs (s, f') = Cur (c_pos (abs (s, f)) + 1) (c_push (abs (s, f))) (c_eof (abs (s, f)))).
  { unfold abs, ahead. cbn. f_equal; lia. }
  assert (Hd : drop (Z.to_nat (c_pos (abs (s, f)))) data = c :: (t ++ drop (Z.to_nat (src_pos s)) data)) by by rewrite <- Ha.
  exists c, (s, f'). split; [|split].
  - unfold pop_byte. rewrite file_run. cbn [snd]. rewrite Hc. done.
  - assert (Hf' : reads f') by (destruct Hf as [H1 H2 H3 H4 H5]; split; [done..|cbn; lia|done]).
    split; [done|done|rewrite Habs; cbn in *; lia|]. rewrite Habs. cbn [fst snd c_pos]. rewrite (Ht : window f' = t).
    rewrite Z2Nat.inj_add, Nat.add_1_r by lia. symmetry. by apply (drop_tl' _ _ c).
  - unfold cursor_step. rewrite coming_nopush by by apply abs_push_none. rewrite Hd, Habs. unfold tell.
    rewrite (abs_push_none (s, f) Hu). cbn. do 3 f_equal. lia.
Qed.

Lemma unget_pop s f :
  in_ok (s, f) -> 0 <= f_ungot f ->
  in_ok (s, set_ungot (-1) f) /\
  cursor_step data IGetc (abs (s, f)) = Some ((f_ungot f, []), abs (s, set_ungot (-1) f)).
Proof.
  intros [Hs [H1 H2 H3 H4 H5] Hp Ha] Hu. split; [done|].
  unfold cursor_step, coming, abs, tell, ahead. cbn in *. destruct (Z.leb_spec 0 (f_ungot f)); [|lia]. cbn. do 3 f_equal. lia.
Qed.

(** A read of the next piece into the empty buffer. *)
Definition refill (f : FILE) : F bool :=
  '(r, b) ← sys (nl_read (f_fd f) (Z.of_nat NL_BUFSZ));
  if r <=? 0 then upd (add_flag (if r =? 0 then NL_F_EOF else NL_F_ERR));; mret false
  else upd (fun f => set_window 0 (Z.to_nat r) (set_buf (put_at 0 b (f_buf f)) f));; mret true.

Lemma refill_spec s f :
  in_ok (s, f) -> f_ungot f < 0 -> f_bufpos f = f_buflen f ->
  exists b x', refill f (s, f) = Some (b, x') /\ in_ok x' /\
    if (b : bool) then abs x' = abs (s, f) /\ f_ungot (snd x') < 0 /\ (f_bufpos (snd x') < f_buflen (snd x'))%nat
    else coming data (abs (s, f)) = [] /\ abs x' = Cur (c_pos (abs (s, f))) None true.
Proof.
  intros Hin Hu He. pose proof Hin as [Hs Hf Hp Ha]. destruct Hf as [H1 H2 H3 H4 H5]. cbn [fst snd] in *.
  assert (Hpos : c_pos (abs (s, f)) = src_pos s) by (unfold abs, ahead; cbn; lia).
  destruct (src_read s (Z.of_nat NL_BUFSZ) Hs ltac:(unfold NL_BUFSZ; lia)) as (r & s' & Hr & Hs' & Hrn & Hp' & H0).
  pose proof (src_range s' Hs') as Hrange. pose proof (src_range s Hs).
  assert (Hsys : sys (nl_read (f_fd f) (Z.of_nat NL_BUFSZ)) (s, f) = Some ((r, take (Z.to_nat r) (drop (Z.to_nat (src_pos s)) data)), (s', f)))
    by (unfold sys, within; cbn [fst]; rewrite H1, Hr; done).
  unfold refill. rewrite (bind_run _ _ _ _ _ Hsys). cbv beta iota zeta. destruct (Z.leb_spec r 0) as [Hle|Hgt].
  - assert (r = 0) as -> by lia. exists false, (s', add_flag NL_F_EOF f). split; [done|].
    assert (Habs : abs (s', add_flag NL_F_EOF f) = Cur (c_pos (abs (s, f))) None true).
    { unfold abs. cbn. f_equal; [unfold ahead; cbn; lia|destruct (Z.leb_spec 0 (f_ungot f)); [lia|done]|].
      unfold has. rewrite Z.land_lor_distr_l. destruct (Z.eqb_spec (Z.lor (Z.land (f_flags f) NL_F_EOF) (Z.land NL_F_EOF NL_F_EOF)) 0) as [E|E]; [|done].
      apply Z.lor_eq_0_iff in E as [_ E]. discriminate E. }
    split; [|split; [|done]].
    + split; [done| |rewrite Habs; cbn in *; lia|rewrite Habs; cbn in *; by rewrite Hp', Z.add_0_r].
      split; cbn; [done|by rewrite has_lor|by rewrite has_lor|done|done].
    + rewrite coming_nopush, Hpos, H0 by (done || by apply abs_push_none). by rewrite Nat2Z.id, drop_all.
  - set (b := take (Z.to_nat r) _). assert (Hb : length b = Z.to_nat r) by (unfold b; rewrite length_take, length_drop; lia).
    exists true, (s', set_window 0 (Z.to_nat r) (set_buf (put_at 0 b (f_buf f)) f)). split; [done|].
    assert (Habs : abs (s', set_window 0 (Z.to_nat r) (set_buf (put_at 0 b (f_buf f)) f)) = abs (s, f)).
    { unfold abs, ahead. cbn. f_equal. lia. }
    split; [|split; [done|cbn; lia]]. split; [done| |rewrite Habs; cbn in *; lia|].
    + split; cbn; [done..|lia|]. rewrite length_put_at; lia.
    + rewrite Habs. cbn [fst snd]. rewrite Hpos. unfold window, put_at. cbn [set_window set_buf f_bufpos f_buflen f_buf].
      rewrite drop_0, Nat.sub_0_r, take_0. cbn [app]. rewrite take_app_le, (take_ge b) by lia. unfold b. rewrite Hp', Z2Nat.inj_add, <- drop_drop by lia. apply take_drop.
Qed.

Lemma fgetc_spec x :
  in_ok x -> exists c x', fgetc spins x = Some (c, x') /\ in_ok x' /\ cursor_step data IGetc (abs x) = Some ((c, []), abs x').
Proof.
  intros Hin. destruct x as [s f]. unfold fgetc. rewrite file_run. cbn [snd]. destruct (Z.leb_spec 0 (f_ungot f)) as [Hu|Hu].
  { destruct (unget_pop s f Hin Hu). by exists (f_ungot f), (s, set_ungot (-1) f). }
  destruct Hin as [Hs Hf Hp Ha]. pose proof Hf as [H1 H2 H3 H4 H5]. cbn [fst snd] in *. rewrite H2. cbn [negb].
  destruct (Nat.eqb_spec (f_buflen f) 0) as [E|E], (Nat.ltb_spec 0 (f_bufpos f)) as [L|L]; try lia; cbn [andb];
    rewrite (bind_run _ _ _ tt (s, f)), file_run by done; cbn [snd]; fold (refill f);
    (destruct (Nat.leb_spec (f_buflen f) (f_bufpos f)) as [Hle|Hlt];
     [|rewrite (bind_run _ _ _ true (s, f)) by done; exact (pop_byte_spec (s, f) (Build_in_ok (s, f) Hs Hf Hp Ha) Hu Hlt)]).
  all: destruct (refill_spec s f (Build_in_ok (s, f) Hs Hf Hp Ha) Hu ltac:(lia)) as (b & x' & Er & Hx' & Hb).
  all: rewrite (bind_run _ _ _ _ _ Er); destruct b; cbn [negb].
  all: try (destruct Hb as (<- & Hu' & Hlt'); exact (pop_byte_spec x' Hx' Hu' Hlt')).
  all: destruct Hb as [Hc Hb]; exists (-1), x'; (split; [done|]); (split; [done|]); unfold cursor_step; by rewrite Hc, Hb.
Qed.

(** A piece of the buffer given out at once. *)
Lemma bulk_spec s f n :
  in_ok (s, f) -> f_ungot f < 0 -> (n <= f_buflen f - f_bufpos f)%nat ->
  let x' := (s, set_bufpos (f_bufpos f + n) f) in
  in_ok x' /\ abs x' = Cur (tell (abs (s, f)) + Z.of_nat n) None (c_eof (abs (s, f))) /\
  take n (drop (f_bufpos f) (f_buf f)) = take n (coming data (abs (s, f))) /\ (n <= length (coming data (abs (s, f))))%nat.
Proof.
  intros [Hs Hf Hp Ha] Hu Hn x'. cbn [fst snd] in *. pose proof Hf as [H1 H2 H3 H4 H5].
  assert (Hpush : c_push (abs (s, f)) = None) by by apply abs_push_none.
  assert (Htell : tell (abs (s, f)) = c_pos (abs (s, f))) by (unfold tell; rewrite Hpush; cbn; lia).
  assert (Habs : abs x' = Cur (tell (abs (s, f)) + Z.of_nat n) None (c_eof (abs (s, f)))).
  { rewrite Htell. unfold x', abs, ahead in *. cbn in *. destruct (Z.leb_spec 0 (f_ungot f)); [lia|]. f_equal. lia. }
  pose proof (length_window f Hf) as Hl. rewrite (coming_nopush _ Hpush), <- Ha.
  assert (Hw : window f = take n (drop (f_bufpos f) (f_buf f)) ++ window (snd x')).
  { unfold window, x'. cbn. rewrite <- drop_drop. rewrite <- (take_drop n (take (f_buflen f - f_bufpos f) _)).
    rewrite take_take, Nat.min_l, skipn_firstn_comm by lia. do 2 f_equal. lia. }
  split; [|split; [done|split]].
  - split; [done| |rewrite Habs; cbn in *; lia|].
    + split; cbn; [done..|lia|done].
    + rewrite Habs. cbn [c_pos fst]. rewrite Htell, Z2Nat.inj_add, Nat2Z.id, <- drop_drop, <- Ha, Hw, <- app_assoc by lia.
      by rewrite drop_app_length' by (rewrite length_take, length_drop; lia).
  - by rewrite Hw, <- app_assoc, take_app_length' by (rewrite length_take, length_drop; lia).
  - rewrite length_app. lia.
Qed.

Lemma coming_bytes x : in_ok x -> Forall (fun c => 0 <= c) (coming data (abs x)).
Proof.
  intros _. unfold coming. apply Forall_app. split.
  - unfold abs. cbn. destruct (Z.leb_spec 0 (f_ungot (snd x))); cbn; by repeat constructor.
  - apply Forall_drop. eapply Forall_impl; [apply src_bytes|]. cbn. lia.
Qed.

(** One character of many. *)
Lemma fgetc_advance x k :
  in_ok x -> (0 < k)%nat ->
  exists c x1, fgetc spins x = Some (c, x1) /\ in_ok x1 /\
    ((c < 0 /\ coming data (abs x) = [] /\ abs x1 = advance data k (abs x)) \/
     (0 <= c /\ take k (coming data (abs x)) = c :: take (k - 1) (coming data (abs x1)) /\
      advance data k (abs x) = advance data (k - 1) (abs x1))).
Proof.
  intros Hx Hk. destruct (fgetc_spec x Hx) as (c & x1 & E & Hx1 & Hstep). exists c, x1. split; [done|]. split; [done|].
  pose proof (coming_bytes x Hx) as Hb. unfold cursor_step in Hstep. destruct (coming data (abs x)) as [|ch t] eqn:Hc.
  - left. apply (inj Some), pair_equal_spec in Hstep as [[= <-] Hstep]. split; [lia|]. split; [done|]. rewrite <- Hstep. destruct k as [|k]; [lia|].
    unfold advance. rewrite Hc. cbn [take length Nat.ltb Nat.leb]. rewrite orb_true_r. f_equal. unfold tell.
    unfold coming in Hc. apply app_eq_nil in Hc as [-> _]. cbn. lia.
  - right. apply (inj Some), pair_equal_spec in Hstep as [[= <-] Hstep]. apply Forall_cons in Hb as [Hb _]. split; [done|].
    destruct (advance_split data (abs x) 1 k) as [E1 E2]; [apply Hx|rewrite Hc; cbn; lia|lia|].
    change (Z.of_nat 1) with 1 in *. rewrite Hstep, Hc in E1. rewrite Hstep in E2. cbn [take] in E1. by rewrite E1.
Qed.

Lemma fread_loop_spec fuel want got x :
  in_ok x -> (length got <= want)%nat -> (want - length got < fuel)%nat ->
  exists x', fread_loop spins fuel want got x = Some (got ++ take (want - length got) (coming data (abs x)), x') /\
    in_ok x' /\ abs x' = advance data (want - length got) (abs x).
Proof.
  revert got x. induction fuel as [|fuel IH]; intros got x Hx Hle Hf; [lia|]. cbn [fread_loop].
  destruct (Nat.leb_spec want (length got)).
  { replace (want - length got)%nat with O by lia. exists x. by rewrite app_nil_r. }
  rewrite file_run. destruct x as [s f]. cbn [snd].
  destruct (Z.ltb_spec (f_ungot f) 0) as [Hu|Hu], (Nat.ltb_spec (f_bufpos f) (f_buflen f)) as [Hw|Hw]; cbn [andb].
  1:{ set (n := Nat.min (want - length got) (f_buflen f - f_bufpos f)).
      destruct (bulk_spec s f n Hx Hu) as (Hx1 & Ha1 & Hn & Hnl); [lia|]. rewrite upd_run, Hn. cbn [fst snd].
      destruct (advance_split data (abs (s, f)) n (want - length got)) as [E1 E2]; [apply Hx|lia|lia|].
      assert (Hlen : length (got ++ take n (coming data (abs (s, f)))) = (length got + n)%nat) by (rewrite length_app, length_take; lia).
      destruct (IH (got ++ take n (coming data (abs (s, f)))) _ Hx1) as (x' & E & Hx' & Ha'); [lia|lia|].
      rewrite Hlen, Nat.sub_add_distr, Ha1 in *. exists x'. split; [|split; [done|by rewrite Ha', E2]]. rewrite E, E1, <- app_assoc. done. }
  all: destruct (fgetc_advance (s, f) (want - length got) Hx ltac:(lia)) as (c & x1 & E & Hx1 & [(Hc & Hn & Ha)|(Hc & Ht & Ha)]);
    rewrite (bind_run _ _ _ _ _ E); (destruct (Z.ltb_spec c 0); [|]); try lia.
  all: try (exists x1; rewrite Hn, take_nil, app_nil_r; done).
  all: destruct (IH (got ++ [c]) x1 Hx1) as (x' & E' & Hx' & Ha'); [rewrite length_app; cbn; lia..|].
  all: rewrite length_app in *; cbn [length] in *; rewrite Nat.sub_add_distr in *; exists x'; split; [|split; [done|congruence]].
  all: by rewrite E', Ht, <- app_assoc.
Qed.

(** ** Programs of input calls *)

Definition in_exec (op : in_op) : F (Z * list Z) :=
  match op with
  | IGetc => c ← fgetc spins; mret (c, [])
  | IRead sz n => fread spins sz n
  | IUnget c => r ← ungetc c; mret (r, [])
  | ISeek off whence => r ← fseek spins off whence; mret (r, [])
  | ITell => r ← ftell; mret (r, [])
  | IEof => r ← feof; mret (r, [])
  end.

Fixpoint in_run (ops : list in_op) : F (list (Z * list Z)) :=
  match ops with
  | [] => mret []
  | op :: ops => r ← in_exec op; rs ← in_run ops; mret (r :: rs)
  end.

Lemma unget_spec x ch :
  in_ok x -> 0 <= ch -> exists x', ungetc ch x = Some (Z.land ch 255, x') /\ in_ok x' /\
    abs x' = Cur (c_pos (abs x)) (Some (Z.land ch 255)) false.
Proof.
  intros [Hs [H1 H2 H3 H4 H5] Hp Ha] Hc. destruct x as [s f]. cbn [fst snd] in *.
  exists (s, drop_flag NL_F_EOF (set_ungot (Z.land ch 255) f)).
  assert (Habs : abs (s, drop_flag NL_F_EOF (set_ungot (Z.land ch 255) f)) = Cur (c_pos (abs (s, f))) (Some (Z.land ch 255)) false).
  { unfold abs. cbn. f_equal.
    - destruct (Z.leb_spec 0 (Z.land ch 255)) as [|Hn]; [done|]. pose proof (proj2 (Z.land_nonneg ch 255) (or_introl Hc)). lia.
    - unfold has. by rewrite Z.land_comm, Z.ldiff_land, Z.land_assoc, (Z.land_comm NL_F_EOF), <- Z.land_assoc, Z.land_lnot_diag, Z.land_0_r. }
  split; [|split; [|done]].
  - unfold ungetc. destruct (Z.ltb_spec ch 0); [lia|]. done.
  - split; [done|split; cbn; [done|by rewrite has_ldiff|by rewrite has_ldiff|done|done]|by rewrite Habs|by rewrite Habs].
Qed.

Lemma seek_spec x off whence :
  in_ok x ->
  let target := (if whence =? 0 then 0 else if whence =? 1 then tell (abs x) else Z.of_nat (length data)) + off in
  0 <= target <= Z.of_nat (length data) ->
  exists x', fseek spins off whence x = Some (0, x') /\ in_ok x' /\ abs x' = Cur target None false.
Proof.
  intros [Hs [H1 H2 H3 H4 H5] Hp Ha] target Ht. destruct x as [s f]. cbn [fst snd] in *.
  set (off' := if whence =? 1 then off - ahead f - pushed f else off).
  assert (Htell : tell (abs (s, f)) = src_pos s - ahead f - pushed f).
  { unfold tell, abs, pushed. cbn. by destruct (0 <=? f_ungot f). }
  destruct (src_seek s off' whence Hs) as (s' & Hsk & Hs' & Hp').
  { unfold off', target in *. rewrite Htell in Ht. destruct (Z.eqb_spec whence 0), (Z.eqb_spec whence 1); lia. }
  assert (Hgoal : (if whence =? 0 then 0 else if whence =? 1 then src_pos s else Z.of_nat (length data)) + off' = target).
  { unfold off', target. rewrite Htell. destruct (Z.eqb_spec whence 0), (Z.eqb_spec whence 1); lia. }
  rewrite Hgoal in Hsk, Hp'. set (f' := drop_flag NL_F_EOF (set_ungot (-1) (set_window 0 0 f))). exists (s', f').
  assert (Habs : abs (s', f') = Cur target None false).
  { unfold abs, f', ahead. cbn. f_equal; [lia|].
    unfold has. by rewrite Z.land_comm, Z.ldiff_land, Z.land_assoc, (Z.land_comm NL_F_EOF), <- Z.land_assoc, Z.land_lnot_diag, Z.land_0_r. }
  split; [|split; [|done]].
  - unfold fseek. rewrite file_run. cbn [snd]. rewrite H3. rewrite (bind_run _ _ _ tt (s, f)), file_run by done. cbv zeta. fold off'.
    cbn [snd]. fold off'. rewrite upd_run. fold f'. cbn [fst snd]. rewrite (bind_run _ _ _ target (s', f')).
    + by destruct (Z.ltb_spec target 0); [lia|].
    + unfold sys, within. cbn [fst]. rewrite H1, Hsk. done.
  - split; [done| |rewrite Habs; cbn; lia|rewrite Habs; cbn [c_pos fst]; by rewrite Hp'].
    split; cbn; [done|by rewrite has_ldiff|by rewrite has_ldiff|lia|done].
Qed.

Lemma tell_spec x : in_ok x -> exists x', ftell x = Some (tell (abs x), x') /\ in_ok x' /\ abs x' = abs x.
Proof.
  intros [Hs Hf Hp Ha]. destruct x as [s f]. cbn [fst snd] in *. pose proof Hf as [H1 H2 H3 H4 H5]. pose proof (src_range s Hs).
  destruct (src_seek s 0 1 Hs) as (s' & Hsk & Hs' & Hp'); cbv [Z.eqb Pos.eqb] in *; cbv iota in *; [lia|]. rewrite Z.add_0_r in Hsk, Hp'.
  exists (s', f). assert (Habs : abs (s', f) = abs (s, f)) by (unfold abs; cbn; by rewrite Hp').
  split; [|split; [|done]].
  - unfold ftell. rewrite file_run. rewrite (bind_run _ _ _ (src_pos s) (s', f)) by (unfold sys, within; cbn [fst snd]; by rewrite H1, Hsk).
    cbn [snd]. rewrite H2, H3. destruct (Z.ltb_spec (src_pos s) 0); [lia|]. unfold mret, ST_ret, tell, abs, pushed. cbn.
    destruct (0 <=? f_ungot f); cbn; do 2 f_equal; lia.
  - split; [done|done|by rewrite Habs|rewrite Habs; cbn [fst snd]; by rewrite Hp'].
Qed.

Lemma in_exec_spec op x a c :
  in_ok x -> cursor_step data op (abs x) = Some (a, c) ->
  exists x', in_exec op x = Some (a, x') /\ in_ok x' /\ abs x' = c.
Proof.
  intros Hx Hstep. destruct op as [|sz n|ch|off whence| |]; cbn [in_exec].
  - destruct (fgetc_spec x Hx) as (ch & x1 & E & Hx1 & Hs). rewrite Hs in Hstep. apply (inj Some), pair_equal_spec in Hstep as [<- <-].
    exists x1. by rewrite (bind_run _ _ _ _ _ E).
  - cbn [cursor_step] in Hstep. unfold fread. destruct ((sz =? 0) || (n =? 0)); [injection Hstep as <- <-; by exists x|].
    destruct (fread_loop_spec (Datatypes.S (Z.to_nat (wrap64 (sz * n)))) (Z.to_nat (wrap64 (sz * n))) [] x Hx) as (x1 & E & Hx1 & Ha);
      [cbn; lia..|]. cbn [length app] in *. rewrite Nat.sub_0_r in *. injection Hstep as <- <-.
    exists x1. by rewrite (bind_run _ _ _ _ _ E).
  - cbn [cursor_step] in Hstep. destruct (Z.ltb_spec ch 0) as [Hn|Hn]; apply (inj Some), pair_equal_spec in Hstep as [<- <-].
    + exists x. unfold ungetc. by destruct (Z.ltb_spec ch 0); [|lia].
    + destruct (unget_spec x ch Hx Hn) as (x1 & E & Hx1 & Ha). exists x1. by rewrite (bind_run _ _ _ _ _ E).
  - cbn [cursor_step] in Hstep. cbv zeta in Hstep. set (target := _ + off) in Hstep.
    destruct (Z.leb_spec 0 target), (Z.leb_spec target (Z.of_nat (length data))); try done. injection Hstep as <- <-.
    destruct (seek_spec x off whence Hx) as (x1 & E & Hx1 & Ha); [unfold target in *; lia|].
    exists x1. by rewrite (bind_run _ _ _ _ _ E).
  - destruct (tell_spec x Hx) as (x1 & E & Hx1 & Ha). exists x1. injection Hstep as <- <-. by rewrite (bind_run _ _ _ _ _ E).
  - exists x. injection Hstep as <- <-. done.
Qed.

(** One [fread] of bytes from the start of the file. *)
Lemma fread_start x n e :
  in_ok x -> abs x = Cur 0 None e -> 0 <= n < 2 ^ 64 ->
  exists x', fread spins 1 n x = Some ((Z.of_nat (length (take (Z.to_nat n) data)), take (Z.to_nat n) data), x').
Proof.
  intros Hx Ha Hn. destruct (Z.eq_dec n 0) as [->|Hn0]; [by exists x|].
  destruct (in_exec_spec (IRead 1 n) x (Z.of_nat (length (take (Z.to_nat n) data)), take (Z.to_nat n) data) (advance data (Z.to_nat n) (abs x)) Hx)
    as (x' & E & _); [|by exists x'].
  cbn [cursor_step]. rewrite Z.mul_1_l, wrap64_small by lia. destruct (Z.eqb_spec n 0); [done|]. cbn [Z.eqb orb].
  rewrite Ha. unfold coming. cbn [c_push c_pos option_list app]. change (Z.to_nat 0) with O. by rewrite drop_0, Z.div_1_r.
Qed.

End reading.
