(* ===== verification/StdioImage.v ===== *)
(** Streams over the files of the image: the library's buffered reads composed
    with the guest's descriptors and the archive. *)

From S2P Require Import Prelude StateMonad InitFs Vfs VfsPath VfsDisk VfsSafe VfsFd Dtoa Stdio StdioOut StdioIn.

Section image.
Context (arch : list Z) (arch_small : arch_len arch < 2 ^ 62) (arch_bytes : Forall (fun c => 0 <= c < 256) arch).
Context {D : Type} `{!Disk D, !DiskLaws D}.
Implicit Types s : vfs D.

(** Descriptor [fd] is the archive file at [off] with [size] bytes, in slot [i]. *)
Definition image_fd (fd : Z) (i : nat) (off size : Z) s : Prop :=
  ifs_inv arch (v_ifs s) /\ exists p, fs_file fd (v_ifs s) = Some (i, MkFile off size p true).

Definition image_pos (fd : Z) s : Z := match fs_file fd (v_ifs s) with Some (_, f) => f_pos f | None => 0 end.

Definition image_file (off size : Z) : list Z := take (Z.to_nat size) (drop (Z.to_nat off) arch).

Lemma image_bounds fd i off size s :
  image_fd fd i off size s ->
  exists p, fs_file fd (v_ifs s) = Some (i, MkFile off size p true) /\ image_pos fd s = p /\ 0 <= off /\ 0 <= p <= size /\
    off + size <= arch_len arch /\ Z.of_nat (length (image_file off size)) = size.
Proof.
  intros [Hi [p Hf]]. pose proof (fs_file_some _ _ _ _ Hf) as (F1 & F2 & _).
  destruct (inv_file arch _ i _ Hi F1 F2) as (H1 & H2 & H3). cbn [f_data f_size f_pos] in *. unfold arch_len in *.
  exists p. split; [done|]. split; [unfold image_pos; by rewrite Hf|]. split; [lia|]. split; [lia|]. split; [lia|].
  unfold image_file. rewrite length_take, length_drop. lia.
Qed.

Lemma image_move fd i off size s p q :
  image_fd fd i off size s -> fs_file fd (v_ifs s) = Some (i, MkFile off size p true) -> 0 <= q <= size ->
  image_fd fd i off size (at_pos i (MkFile off size p true) q s) /\ image_pos fd (at_pos i (MkFile off size p true) q s) = q.
Proof.
  intros Hs Hf Hq. destruct (image_bounds _ _ _ _ _ Hs) as (p' & Hf' & _ & H0 & H1 & H2 & _).
  assert (E : fs_file fd (v_ifs (at_pos i (MkFile off size p true) q s)) = Some (i, MkFile off size q true))
    by by rewrite (at_pos_file _ _ _ _ _ Hf).
  split; [split; [|by exists q]|unfold image_pos; by rewrite E]. destruct Hs as [Hi _].
  apply inv_update; [done|]. intros _. cbn. lia.
Qed.

Lemma image_is_file fd i off size s : image_fd fd i off size s -> fs_is_file_fd fd s = Some (true, s).
Proof.
  intros [_ [p Hf]]. unfold fs_is_file_fd. rewrite (bind_run _ _ s true s); [done|].
  unfold ifs_fd, get_state, ifs_is_fd. by rewrite Hf.
Qed.

#[export] Program Instance image_source (fd : Z) (i : nat) (off size : Z) : Source (Fds0 := guest_fds arch) fd := {
  src_ok s := image_fd fd i off size s;
  src_data := image_file off size;
  src_pos s := image_pos fd s;
}.
Next Obligation. intros. unfold image_file. by apply Forall_take, Forall_drop. Qed.
Next Obligation. intros fd i off size s Hs. destruct (image_bounds _ _ _ _ _ Hs) as (p & _ & -> & _ & H & _ & ->). lia. Qed.
Next Obligation.
  intros fd i off size s n Hs Hn. destruct (image_bounds _ _ _ _ _ Hs) as (p & Hf & Hp & H0 & H1 & H2 & Hl).
  destruct (read_spec arch arch_small fd n (v_ifs s) i _ (proj1 Hs) ltac:(lia) Hf) as (Hread & Hk & _).
  cbn [f_data f_size f_pos] in *. set (k := Z.min n (size - p)) in *. cbn in Hread. rewrite Hp.
  destruct (image_move fd i off size s p (p + k) Hs Hf ltac:(lia)) as [Hs' Hp'].
  exists k, (at_pos i (MkFile off size p true) (p + k) s). split; [|split; [done|split; [lia|split; [done|lia]]]].
  cbn [nl_read guest_fds]. rewrite (read_archive_run arch fd n s i _ _ _ _ Hf Hread). do 3 f_equal.
  unfold image_file. rewrite skipn_firstn_comm, drop_drop, take_take. f_equal; [lia|]. f_equal. lia.
Qed.
Next Obligation.
  intros fd i off size s o whence Hs target Ht. destruct (image_bounds _ _ _ _ _ Hs) as (p & Hf & Hp & H0 & H1 & H2 & Hl).
  rewrite Hl in Ht. unfold target in *. rewrite Hl, Hp in *. cbv zeta in *. clear target. set (target := _ + o) in *.
  destruct (image_move fd i off size s p target Hs Hf ltac:(lia)) as [Hs' Hp'].
  exists (at_pos i (MkFile off size p true) target s). split; [|done]. cbn [nl_lseek guest_fds]. unfold lseek.
  rewrite (bind_run _ _ _ _ _ (image_is_file _ _ _ _ _ Hs)).
  rewrite (seek_run fd o whence i _ s Hf) by (cbn [f_pos f_size]; unfold target in *; lia). cbn [f_pos f_size]. fold target.
  by rewrite Z.min_l by lia.
Qed.

Lemma at_file_run {A} a (m : ST (vfs D * FILE) A) w f x s' f' :
  io_files w !! a = Some f -> m (io_sys w, f) = Some (x, (s', f')) ->
  at_file a m w = Some (x, Io s' (<[a := f']> (io_files w))).
Proof. intros Ha Hm. unfold at_file. by rewrite Ha, Hm. Qed.

Lemma new_stream_reads fd i off size s flags :
  image_fd fd i off size s -> has flags NL_F_READ = true -> has flags NL_F_WRITE = false ->
  in_ok (Fds0 := guest_fds arch) fd (Source0 := image_source fd i off size) (s, blank_stream fd flags).
Proof.
  intros Hs Hr Hw. destruct (image_bounds _ _ _ _ _ Hs) as (p & _ & Hp & _ & H & _ & Hl).
  assert (Habs : c_pos (abs (Fds0 := guest_fds arch) fd (Source0 := image_source fd i off size) (s, blank_stream fd flags)) = p)
    by (cbn; rewrite Hp; unfold ahead; cbn; lia).
  split; [done|split; cbn; [done|done|done|unfold NL_BUFSZ; lia|by rewrite length_replicate]|rewrite Habs; lia|].
  rewrite Habs. cbn. by rewrite Hp.
Qed.

End image.

Lemma demo_arch_bytes : Forall (fun c => 0 <= c < 256) demo_arch.
Proof. apply (bool_decide_unpack _). vm_compute. exact I. Qed.


(** Reading one byte, pushing it back, seeking relative to the caller and reading the rest. *)
Definition demo_fd : FILE := blank_stream 64 NL_F_READ.


(** An update stream that has only read writes its read-ahead back when it is
    closed: the file of three bytes has four afterwards. *)
Definition read_one_and_close : ST (io (vfs memdisk)) (option Z * Z * Z) :=
  f ← fopen (Fds0 := guest_fds demo_arch) [98] [114; 43] (Some 4096);
  c ← at_file 4096 (fgetc (Fds0 := guest_fds demo_arch) 0);
  r ← fclose (Fds0 := guest_fds demo_arch) 0 (Some 4096);
  mret (f, c, r).

Example update_stream_writes_back :
  match read_one_and_close (io_start (vfs_start (MemDisk [([47; 98], [1; 2; 3])] [-1] [] true))) with
  | Some (r, w) => r = (Some 4096, 1, 0) /\ md_files (v_disk (io_sys w)) = [([47; 98], [1; 2; 3; 1])]
  | None => False
  end.
Proof. vm_compute. split; reflexivity. Qed.
