(* ===== verification/Fdt.v ===== *)
(** The device tree of the ARM and RISC-V machines (unikernel/boot/fdt.c).

    The memory the walk reads is a list of bytes and a pointer into it an
    offset; a read outside, or a string without its terminator, is a fault.  The
    walk of a flattened tree is compared with a description of the facts by
    recursion on the tree. *)

From Stdlib Require Import String Ascii.
From S2P Require Import Prelude InitFs Stdio Printf.

Definition codes (s : string) : list Z := (fun c => Z.of_nat (nat_of_ascii c)) <$> list_ascii_of_string s.

(** * The walk *)

Definition FDT_MAGIC : Z := 3490578157.     (* 0xd00dfeed *)
Definition FDT_BEGIN_NODE : Z := 1.
Definition FDT_END_NODE : Z := 2.
Definition FDT_PROP : Z := 3.
Definition FDT_NOP : Z := 4.
Definition FDT_END : Z := 9.
Definition FDT_MAX_DEVS : nat := 32.
Definition FDT_MAX_DEPTH : Z := 16.
Definition FDT_CMDLINE : nat := Z.to_nat 2048.

(** The command line is kept without the zero behind it. *)
Record fdt_facts := Facts {
  ram_base : Z;
  ram_size : Z;
  cmdline : list Z;
  devices : Z;
  dev_base : list Z               (* FDT_MAX_DEVS entries *)
}.

Record level := Level {
  addr_cells : Z;
  size_cells : Z;
  is_virtio : bool;
  is_memory : bool;
  is_chosen : bool;
  reg_base : Z;
  reg_size : Z;
  l_irq : Z
}.

Record fdt_walk := Walk {
  w_depth : Z;
  w_lvl : list level;             (* FDT_MAX_DEPTH entries *)
  w_out : fdt_facts;
  w_devs : list Z;                (* the command line of the local devs *)
  w_bootargs : option Z           (* a pointer, or null *)
}.

(** ** Reading *)

Section mem.
Context (mem : list Z).

Definition byte_at (p : Z) : option Z := if p <? 0 then None else mem !! Z.to_nat p.

Definition fdt_be32 (p : Z) : option Z :=
  a ← byte_at p; b ← byte_at (p + 1); c ← byte_at (p + 2); d ← byte_at (p + 3);
  Some (Z.lor (Z.lor (Z.lor (Z.shiftl a 24) (Z.shiftl b 16)) (Z.shiftl c 8)) d).

Definition fdt_be64 (p : Z) : option Z :=
  hi ← fdt_be32 p; lo ← fdt_be32 (p + 4); Some (Z.lor (Z.shiftl hi 32) lo).

(** The string at [p]: what is before the first zero. *)
Fixpoint upto_nul (l : list Z) : option (list Z) :=
  match l with
  | [] => None
  | c :: l => if c =? 0 then Some [] else s ← upto_nul l; Some (c :: s)
  end.

Definition str_at (p : Z) : option (list Z) := if p <? 0 then None else upto_nul (drop (Z.to_nat p) mem).
End mem.

Fixpoint fdt_str_eq (a b : list Z) : bool :=
  match a, b with
  | [], [] => true
  | x :: a, y :: b => (x =? y) && fdt_str_eq a b
  | _, _ => false
  end.

Fixpoint fdt_str_prefix (s pre : list Z) : bool :=
  match pre, s with
  | [], _ => true
  | y :: pre, x :: s => (x =? y) && fdt_str_prefix s pre
  | _ :: _, [] => false
  end.

(** ** The command line *)

Fixpoint cl_puts (s cl : list Z) : list Z :=
  match s with
  | [] => cl
  | c :: s => if (length cl <? FDT_CMDLINE - 1)%nat then cl_puts s (cl ++ [c]) else cl
  end.

(** [while (v) b[--i] = ...]: the digits in front of [b]. *)
Fixpoint hex_loop (fuel : nat) (v : Z) (b : list Z) : list Z :=
  match fuel with
  | O => b
  | S f => if v =? 0 then b else
           let d := Z.land v 15 in
           hex_loop f (Z.shiftr v 4) ((if d <? 10 then 48 + d else 97 + (d - 10)) :: b)
  end.

Definition cl_puthex (v : Z) (cl : list Z) : list Z :=
  cl_puts (hex_loop 16 v (if v =? 0 then [48] else [])) (cl_puts (codes "0x") cl).

Fixpoint dec_loop (fuel : nat) (v : Z) (b : list Z) : list Z :=
  match fuel with
  | O => b
  | S f => if v =? 0 then b else dec_loop f (v / 10) (48 + v mod 10 :: b)
  end.

Definition cl_putu (v : Z) (cl : list Z) : list Z := cl_puts (dec_loop 20 v (if v =? 0 then [48] else [])) cl.

(** ** The tokens *)

Definition get_level (w : fdt_walk) (d : Z) : option level := if d <? 0 then None else w_lvl w !! Z.to_nat d.
Definition put_level (d : Z) (l : level) (w : fdt_walk) : fdt_walk :=
  Walk (w_depth w) (<[Z.to_nat d := l]> (w_lvl w)) (w_out w) (w_devs w) (w_bootargs w).
Definition set_depth (d : Z) (w : fdt_walk) : fdt_walk := Walk d (w_lvl w) (w_out w) (w_devs w) (w_bootargs w).

(** What a node answers when it ends: the facts and the local command line. *)
Definition report_device (base size irq : Z) (od : fdt_facts * list Z) : fdt_facts * list Z :=
  let '(o, devs) := od in
  let devs := cl_puts (codes " virtio_mmio.device=") devs in
  let devs := cl_puts (codes "@") (cl_puthex size devs) in
  let devs := cl_puts (codes ":") (cl_puthex base devs) in
  let devs := cl_putu (wrap64 (irq + 32)) devs in
  let bases := if devices o <? Z.of_nat FDT_MAX_DEVS then <[Z.to_nat (devices o) := base]> (dev_base o) else dev_base o in
  (Facts (ram_base o) (ram_size o) (cmdline o) (devices o + 1) bases, devs).

Definition report_memory (base size : Z) (od : fdt_facts * list Z) : fdt_facts * list Z :=
  let '(o, devs) := od in
  if ram_size o =? 0 then (Facts base size (cmdline o) (devices o) (dev_base o), devs) else (o, devs).

Definition report (l : level) (od : fdt_facts * list Z) : fdt_facts * list Z :=
  let od := if is_virtio l && negb (reg_size l =? 0) then report_device (reg_base l) (reg_size l) (l_irq l) od else od in
  if is_memory l && negb (reg_size l =? 0) then report_memory (reg_base l) (reg_size l) od else od.

Section tokens.
Context (mem : list Z) (strings : Z).

(** Each answers whether the walk goes on, and where. *)
Definition begin_node (p : Z) (w : fdt_walk) : option (bool * Z * fdt_walk) :=
  name ← str_at mem p;
  let p := p + Z.land (Z.of_nat (length name) + 1 + 3) (not64 3) in
  let w := set_depth (w_depth w + 1) w in
  if FDT_MAX_DEPTH <=? w_depth w then Some (false, p, w) else
  up ← get_level w (w_depth w - 1);
  Some (true, p, put_level (w_depth w)
    (Level (addr_cells up) (size_cells up) (fdt_str_prefix name (codes "virtio_mmio@"))
       (fdt_str_prefix name (codes "memory@") || fdt_str_eq name (codes "memory"))
       (fdt_str_eq name (codes "chosen")) 0 0 0) w).

Definition end_node (p : Z) (w : fdt_walk) : option (bool * Z * fdt_walk) :=
  w ← (if (0 <? w_depth w) && (w_depth w <? FDT_MAX_DEPTH) then
         l ← get_level w (w_depth w);
         let '(o, devs) := report l (w_out w, w_devs w) in
         Some (Walk (w_depth w) (w_lvl w) o devs (w_bootargs w))
       else Some w);
  let w := set_depth (w_depth w - 1) w in
  Some (negb (w_depth w <? 0), p, w).

Definition set_cells (a s : Z) (l : level) : level :=
  Level a s (is_virtio l) (is_memory l) (is_chosen l) (reg_base l) (reg_size l) (l_irq l).
Definition set_reg (b s : Z) (l : level) : level :=
  Level (addr_cells l) (size_cells l) (is_virtio l) (is_memory l) (is_chosen l) b s (l_irq l).
Definition set_irq (i : Z) (l : level) : level :=
  Level (addr_cells l) (size_cells l) (is_virtio l) (is_memory l) (is_chosen l) (reg_base l) (reg_size l) i.

(** The effect of a property with its name, value and length on the node's level. *)
Definition prop_cells (pname : list Z) (val : Z) (l : level) : option level :=
  l ← (if fdt_str_eq pname (codes "#address-cells") then v ← fdt_be32 mem val; Some (set_cells v (size_cells l) l) else Some l);
  if fdt_str_eq pname (codes "#size-cells") then v ← fdt_be32 mem val; Some (set_cells (addr_cells l) v l) else Some l.

Definition prop_reg (pname : list Z) (val len ac sc : Z) (l : level) : option level :=
  if fdt_str_eq pname (codes "reg") && (wrap32 (wrap32 (ac + sc) * 4) <=? len) then
    b ← (if ac =? 2 then fdt_be64 mem val else fdt_be32 mem val);
    let at_ := val + wrap32 (ac * 4) in
    s ← (if sc =? 2 then fdt_be64 mem at_ else fdt_be32 mem at_);
    Some (set_reg b s l)
  else Some l.

Definition prop_irq (pname : list Z) (val len : Z) (l : level) : option level :=
  if fdt_str_eq pname (codes "interrupts") && (4 <=? len) then
    i ← (if 12 <=? len then fdt_be32 mem (val + 4) else fdt_be32 mem val);
    Some (set_irq i l)
  else Some l.

Definition property (p : Z) (w : fdt_walk) : option (bool * Z * fdt_walk) :=
  len ← fdt_be32 mem p;
  noff ← fdt_be32 mem (p + 4);
  let val := p + 8 in
  let p := p + (8 + Z.land (wrap32 (len + 3)) (not64 3)) in
  let d := w_depth w in
  if (d <? 0) || (FDT_MAX_DEPTH <=? d) then Some (true, p, w) else
  pname ← str_at mem (strings + noff);
  l ← get_level w d;
  l ← prop_cells pname val l;
  let boot := if is_chosen l && fdt_str_eq pname (codes "bootargs") then Some val else w_bootargs w in
  let w := put_level d l w in
  up ← get_level w (d - (if 0 <? d then 1 else 0));
  l ← prop_reg pname val len (addr_cells up) (size_cells up) l;
  l ← prop_irq pname val len l;
  let w := put_level d l w in
  Some (true, p, Walk (w_depth w) (w_lvl w) (w_out w) (w_devs w) boot).

Fixpoint fdt_loop (fuel : nat) (p : Z) (w : fdt_walk) : option fdt_walk :=
  match fuel with
  | O => None
  | S f =>
      tok ← fdt_be32 mem p;
      let p := p + 4 in
      if tok =? FDT_END then Some w else
      if tok =? FDT_NOP then fdt_loop f p w else
      r ← (if tok =? FDT_BEGIN_NODE then begin_node p w
           else if tok =? FDT_END_NODE then end_node p w
           else if tok =? FDT_PROP then property p w
           else Some (false, p, w));
      let '(on, p, w) := r in
      if (on : bool) then fdt_loop f p w else Some w
  end.
End tokens.

Definition fdt_is_tree (mem : list Z) (p : option Z) : option bool :=
  match p with None => Some false | Some p => v ← fdt_be32 mem p; Some (v =? FDT_MAGIC) end.

(** [junk] is what the array of levels holds at first.  Every round of the loop
    reads four bytes further on, so the rounds are bounded by the memory. *)
Definition fdt_probe (mem : list Z) (junk : level) (fdt : option Z) (out : fdt_facts) : option (bool * fdt_facts) :=
  tree ← fdt_is_tree mem fdt;
  match fdt with
  | Some fdt =>
      if negb tree then Some (false, out) else
      off_struct ← fdt_be32 mem (fdt + 8);
      off_strings ← fdt_be32 mem (fdt + 12);
      let l0 := Level 2 2 false false false (reg_base junk) (reg_size junk) (l_irq junk) in
      let w := Walk 0 (l0 :: replicate 15 junk) (Facts 0 0 [] 0 (dev_base out)) [] None in
      w ← fdt_loop mem (fdt + off_strings) (S (length mem)) (fdt + off_struct) w;
      cl ← (match w_bootargs w with Some b => s ← str_at mem b; Some (cl_puts s (cmdline (w_out w))) | None => Some (cmdline (w_out w)) end);
      let o := w_out w in
      Some (true, Facts (ram_base o) (ram_size o) (cl_puts (w_devs w) cl) (devices o) (dev_base o))
  | None => Some (false, out)
  end.

(** * Trees *)

Inductive prop := PNop | PProp (name val : list Z).
Inductive node := Node (name : list Z) (props : list prop) (children : list node).

(** Induction over a tree. *)
Section node_ind.
Context (P : node -> Type) (Q : list node -> Type).
Context (H : forall name props children, Q children -> P (Node name props children)).
Context (Hnil : Q []) (Hcons : forall n l, P n -> Q l -> Q (n :: l)).

Fixpoint node_tree_ind (n : node) : P n :=
  match n with
  | Node name props children =>
      H name props children
        ((fix go l : Q l := match l with [] => Hnil | n :: l => Hcons n l (node_tree_ind n) (go l) end) children)
  end.
End node_ind.

(** ** The flattened form *)

Definition be4 (v : Z) : list Z := [v / 2 ^ 24; v / 2 ^ 16 mod 256; v / 2 ^ 8 mod 256; v mod 256].
Definition pad4 (l : list Z) : list Z := l ++ replicate ((4 - length l mod 4) mod 4) 0.

Section flat.
Context (noff : list Z -> Z).

Definition flat_prop (p : prop) : list Z :=
  match p with
  | PNop => be4 FDT_NOP
  | PProp name val => be4 FDT_PROP ++ be4 (Z.of_nat (length val)) ++ be4 (noff name) ++ pad4 val
  end.

Fixpoint flat_node (n : node) : list Z :=
  match n with
  | Node name props children =>
      be4 FDT_BEGIN_NODE ++ pad4 (name ++ [0]) ++ concat (flat_prop <$> props) ++
      concat (flat_node <$> children) ++ be4 FDT_END_NODE
  end.
End flat.

(** ** The facts of a tree *)

Definition be_val (l : list Z) : Z := foldl (fun v b => v * 256 + b) 0 l.

(** The last property of that name that [f] reads. *)
Definition last_prop {A} (name : list Z) (f : list Z -> option A) (props : list prop) (d : A) : A :=
  foldl (fun a p => match p with PProp n v => if decide (n = name) then default a (f v) else a | PNop => a end) d props.

Definition cells_of (name : list Z) (props : list prop) (up : Z) : Z :=
  last_prop name (fun v => Some (be_val (take 4 v))) props up.

(** [reg]: an address of [ac] cells and a size of [sc] cells. *)
Definition reg_of (ac sc : Z) (props : list prop) : Z * Z -> Z * Z :=
  last_prop (codes "reg") (fun v =>
    if (ac + sc) * 4 <=? Z.of_nat (length v)
    then Some (be_val (take (Z.to_nat (4 * ac)) v), be_val (take (Z.to_nat (4 * sc)) (drop (Z.to_nat (4 * ac)) v)))
    else None) props.

Definition irq_of (props : list prop) : Z -> Z :=
  last_prop (codes "interrupts") (fun v =>
    if 12 <=? Z.of_nat (length v) then Some (be_val (take 4 (drop 4 v)))
    else if 4 <=? Z.of_nat (length v) then Some (be_val (take 4 v)) else None) props.

Definition named_virtio (name : list Z) : bool := bool_decide (codes "virtio_mmio@" `prefix_of` name).
Definition named_memory (name : list Z) : bool :=
  bool_decide (codes "memory@" `prefix_of` name) || bool_decide (name = codes "memory").
Definition named_chosen (name : list Z) : bool := bool_decide (name = codes "chosen").

Inductive fact := Device (base size irq : Z) | Memory (base size : Z).

Definition own_facts (name : list Z) (reg : Z * Z) (irq : Z) : list fact :=
  (if named_virtio name && negb (snd reg =? 0) then [Device (fst reg) (snd reg) irq] else []) ++
  (if named_memory name && negb (snd reg =? 0) then [Memory (fst reg) (snd reg)] else []).

(** [ac] and [sc] are the cells of the node above; a node reports behind its children. *)
Fixpoint facts_of (ac sc : Z) (n : node) : list fact :=
  match n with
  | Node name props children =>
      let ac' := cells_of (codes "#address-cells") props ac in
      let sc' := cells_of (codes "#size-cells") props sc in
      concat (facts_of ac' sc' <$> children) ++ own_facts name (reg_of ac sc props (0, 0)) (irq_of props 0)
  end.

(** The command lines a tree carries, in the order of the tokens. *)
Definition own_bootargs (name : list Z) (props : list prop) : list (list Z) :=
  if named_chosen name then
    omap (fun p => match p with PProp n v => if decide (n = codes "bootargs") then upto_nul v else None | PNop => None end) props
  else [].

Fixpoint bootargs_of (n : node) : list (list Z) :=
  match n with Node name props children => own_bootargs name props ++ concat (bootargs_of <$> children) end.
