(* ===== verification/FdtWalk.v ===== *)
(** What fdt_probe answers for a flattened tree is what the tree says. *)

From Stdlib Require Import String Ascii.
From S2P Require Import Prelude InitFs Stdio Printf Fdt.

(** ** Reading a flattened piece *)

Section reading.
Context (mem : list Z) (mem_bytes : Forall (fun b => 0 <= b < 256) mem).

(** [l] is at [p]. *)
Definition holds (p : Z) (l : list Z) : Prop := 0 <= p /\ exists post, drop (Z.to_nat p) mem = l ++ post.

Lemma holds_left p a b : holds p (a ++ b) -> holds p a.
Proof. intros (Hp & post & H). split; [done|]. exists (b ++ post). by rewrite H, <- app_assoc. Qed.

Lemma holds_right p a b : holds p (a ++ b) -> holds (p + Z.of_nat (length a)) b.
Proof.
  intros (Hp & post & H). split; [lia|]. exists post. rewrite Z2Nat.inj_add, Nat2Z.id, <- drop_drop, H, <- app_assoc by lia.
  by rewrite drop_app_length.
Qed.

Lemma holds_bytes p l : holds p l -> Forall (fun b => 0 <= b < 256) l.
Proof.
  intros (_ & post & H). assert (Hd : Forall (fun b => 0 <= b < 256) (drop (Z.to_nat p) mem)) by by apply Forall_drop.
  rewrite H in Hd. by apply Forall_app in Hd as [? _].
Qed.

Lemma holds_length p l : holds p l -> (Z.to_nat p + length l <= length mem \/ l = [])%nat.
Proof.
  intros (_ & post & H). apply (f_equal length) in H. rewrite length_drop, length_app in H.
  destruct l; [by right|left]. cbn in *. lia.
Qed.

Lemma holds_byte p l k c : holds p l -> l !! k = Some c -> byte_at mem (p + Z.of_nat k) = Some c.
Proof.
  intros (Hp & post & H) Hc. unfold byte_at. destruct (Z.ltb_spec (p + Z.of_nat k) 0); [lia|].
  rewrite Z2Nat.inj_add, Nat2Z.id by lia. rewrite <- lookup_drop, H. by apply lookup_app_l_Some.
Qed.

Lemma be_val_four a b c d :
  0 <= b < 256 -> 0 <= c < 256 -> 0 <= d < 256 ->
  Z.lor (Z.lor (Z.lor (Z.shiftl a 24) (Z.shiftl b 16)) (Z.shiftl c 8)) d = be_val [a; b; c; d].
Proof.
  intros Hb Hc Hd. rewrite !Z.shiftl_mul_pow2 by lia. unfold be_val. cbn [foldl].
  rewrite (lor_low a (b * 2 ^ 16) 24) by lia.
  replace (a * 2 ^ 24 + b * 2 ^ 16) with ((a * 256 + b) * 2 ^ 16) by lia. rewrite lor_low by lia.
  replace ((a * 256 + b) * 2 ^ 16 + c * 2 ^ 8) with (((a * 256 + b) * 256 + c) * 2 ^ 8) by lia. rewrite lor_low by lia. lia.
Qed.

Lemma be32_holds p l : holds p l -> (4 <= length l)%nat -> fdt_be32 mem p = Some (be_val (take 4 l)).
Proof.
  intros Hh Hl. destruct l as [|a [|b [|c [|d l]]]]; cbn in Hl; try lia. pose proof (holds_bytes p _ Hh) as Hb.
  rewrite !Forall_cons in Hb. destruct Hb as (Ha & Hb & Hc & Hd & _). unfold fdt_be32.
  assert (H0 : byte_at mem p = Some a) by (rewrite <- (Z.add_0_r p); exact (holds_byte p _ 0 a Hh eq_refl)).
  rewrite H0, (holds_byte p _ 1 b Hh eq_refl : byte_at mem (p + 1) = _), (holds_byte p _ 2 c Hh eq_refl : byte_at mem (p + 2) = _),
    (holds_byte p _ 3 d Hh eq_refl : byte_at mem (p + 3) = _). cbn [mbind option_bind take].
  by rewrite be_val_four.
Qed.

Lemma be_val_app a b : be_val (a ++ b) = be_val a * 256 ^ Z.of_nat (length b) + be_val b.
Proof.
  unfold be_val. rewrite foldl_app. generalize (foldl (fun v b => v * 256 + b) 0 a). intros v.
  induction b as [|c b IH] using rev_ind; [cbn; lia|]. rewrite !foldl_snoc, IH, length_app, Nat.add_1_r, pow_of_S. lia.
Qed.

Lemma be_val_bound l : Forall (fun b => 0 <= b < 256) l -> 0 <= be_val l < 256 ^ Z.of_nat (length l).
Proof.
  induction l as [|c l IH] using rev_ind; intros Hl; [cbn; lia|]. apply Forall_app in Hl as [Hl Hc].
  rewrite Forall_singleton in Hc. specialize (IH Hl). rewrite be_val_app, length_app, Nat.add_1_r, pow_of_S. cbn. lia.
Qed.

Lemma be64_holds p l : holds p l -> (8 <= length l)%nat -> fdt_be64 mem p = Some (be_val (take 8 l)).
Proof.
  intros Hh Hl. rewrite <- (take_drop 4 l) in Hh. pose proof (holds_left _ _ _ Hh) as H1. pose proof (holds_right _ _ _ Hh) as H2.
  rewrite length_take, Nat.min_l in H2 by lia. unfold fdt_be64.
  rewrite (be32_holds p _ H1), (be32_holds _ _ H2 : _ -> fdt_be32 mem (p + 4) = _) by (rewrite ?length_take, ?length_drop; lia). cbn [mbind option_bind].
  rewrite take_take, Nat.min_id. f_equal.
  pose proof (be_val_bound (take 4 (drop 4 l)) ltac:(by apply Forall_take, (holds_bytes _ _ H2))) as Hb.
  rewrite length_take, length_drop, Nat.min_l in Hb by lia.
  rewrite Z.shiftl_mul_pow2, lor_low by lia. replace (take 8 l) with (take 4 l ++ take 4 (drop 4 l)).
  - rewrite be_val_app, length_take, length_drop, Nat.min_l by lia. done.
  - rewrite <- (take_drop 4 (take 8 l)), take_take, Nat.min_l, skipn_firstn_comm by lia. done.
Qed.

Lemma be_val_be4 v : 0 <= v < 2 ^ 32 -> be_val (be4 v) = v.
Proof. intros Hv. unfold be_val, be4. cbn [foldl]. zdiv. Qed.

Lemma token_holds p v l : holds p (be4 v ++ l) -> 0 <= v < 2 ^ 32 -> fdt_be32 mem p = Some v.
Proof.
  intros Hh Hv. rewrite (be32_holds p (be4 v) (holds_left _ _ _ Hh)) by (cbn; lia).
  by rewrite take_ge, be_val_be4 by (cbn; lia).
Qed.

Lemma upto_nul_app s l : Forall (fun c => c <> 0) s -> upto_nul (s ++ 0 :: l) = Some s.
Proof.
  induction 1 as [|c s Hc Hs IH]; [done|]. cbn [app upto_nul]. destruct (Z.eqb_spec c 0); [done|]. by rewrite IH.
Qed.

Lemma upto_nul_more s l t : upto_nul s = Some t -> upto_nul (s ++ l) = Some t.
Proof.
  revert t. induction s as [|c s IH]; intros t; [done|]. cbn [app upto_nul]. destruct (c =? 0); [done|].
  destruct (upto_nul s) as [u|]; [|done]. cbn. intros [= <-]. by rewrite (IH u eq_refl).
Qed.

Lemma str_holds p s l : holds p (s ++ 0 :: l) -> Forall (fun c => c <> 0) s -> str_at mem p = Some s.
Proof.
  intros (Hp & post & H) Hs. unfold str_at. destruct (Z.ltb_spec p 0); [lia|]. rewrite H, <- app_assoc. by apply upto_nul_app.
Qed.

Lemma str_holds_some p l s : holds p l -> upto_nul l = Some s -> str_at mem p = Some s.
Proof.
  intros (Hp & post & H) Hs. unfold str_at. destruct (Z.ltb_spec p 0); [lia|]. rewrite H. by apply upto_nul_more.
Qed.
End reading.

Lemma str_eq_spec a b : fdt_str_eq a b = bool_decide (a = b).
Proof.
  revert b. induction a as [|x a IH]; intros [|y b]; cbn; [by rewrite bool_decide_eq_true_2|by rewrite bool_decide_eq_false_2..|].
  rewrite IH. destruct (Z.eqb_spec x y) as [->|]; cbn; [apply bool_decide_ext; split; congruence|].
  rewrite bool_decide_eq_false_2; congruence.
Qed.

Lemma str_prefix_spec s pre : fdt_str_prefix s pre = bool_decide (pre `prefix_of` s).
Proof.
  revert s. induction pre as [|y pre IH]; intros s; cbn.
  - rewrite bool_decide_eq_true_2; [by destruct s|apply prefix_nil].
  - destruct s as [|x s]; [rewrite bool_decide_eq_false_2; [done|by intros ?%prefix_nil_inv]|].
    cbn [fdt_str_prefix]. rewrite IH. destruct (Z.eqb_spec x y) as [->|Hne]; cbn.
    + apply bool_decide_ext. split; [apply prefix_cons|apply prefix_cons_inv_2].
    + rewrite bool_decide_eq_false_2; [done|]. intros E%prefix_cons_inv_1. congruence.
Qed.

Lemma round4 n : 0 <= n < 2 ^ 64 - 3 -> Z.land (n + 3) (not64 3) = (n + 3) / 4 * 4.
Proof. intros Hn. unfold not64. change (2 ^ 64 - 1 - 3) with (2 ^ 64 - 2 ^ 2). by rewrite (land_align 64 2) by lia. Qed.

Lemma length_pad4 l : Z.of_nat (length (pad4 l)) = (Z.of_nat (length l) + 3) / 4 * 4.
Proof.
  unfold pad4. rewrite length_app, length_replicate. pose proof (Nat.mod_upper_bound (length l) 4 ltac:(lia)).
  pose proof (Nat.div_mod_eq (length l) 4). set (q := (length l / 4)%nat) in *. set (r := (length l mod 4)%nat) in *.
  destruct (decide (r = 0)%nat) as [E|E].
  - rewrite E. change ((4 - 0) mod 4)%nat with O. zdiv.
  - rewrite (Nat.mod_small (4 - r)) by lia. zdiv.
Qed.

(** ** One property *)

Section walk.
Context (mem : list Z) (mem_bytes : Forall (fun b => 0 <= b < 256) mem) (strings : Z) (noff : list Z -> Z).
Abbreviation holds := (holds mem).

(** The property's name is in the strings block, and the cells it may state are few. *)
Definition prop_ok (p : prop) : Prop :=
  match p with
  | PNop => True
  | PProp n v =>
      str_at mem (strings + noff n) = Some n /\ 0 <= noff n < 2 ^ 32 /\ Z.of_nat (length v) < 2 ^ 31 /\
      Forall (fun b => 0 <= b < 256) v /\
      (n = codes "#address-cells" \/ n = codes "#size-cells" -> (4 <= length v)%nat /\ be_val (take 4 v) < 2 ^ 28)
  end.

Definition is_device (l : level) : bool := is_virtio l || is_memory l.
Definition one_or_two (c : Z) : Prop := c = 1 \/ c = 2.

(** [l'] is [l] after [props], below a level of [ac] and [sc] cells. *)
Record stepped (ac sc : Z) (props : list prop) (l l' : level) : Prop := {
  st_addr : addr_cells l' = cells_of (codes "#address-cells") props (addr_cells l);
  st_size : size_cells l' = cells_of (codes "#size-cells") props (size_cells l);
  st_virtio : is_virtio l' = is_virtio l;
  st_memory : is_memory l' = is_memory l;
  st_chosen : is_chosen l' = is_chosen l;
  st_irq : l_irq l' = irq_of props (l_irq l);
  st_reg : is_device l = true -> (reg_base l', reg_size l') = reg_of ac sc props (reg_base l, reg_size l)
}.

Lemma read_cells c q m :
  holds q m -> (4 <= length m)%nat -> (c = 2 -> (8 <= length m)%nat) ->
  (if c =? 2 then fdt_be64 mem q else fdt_be32 mem q) = Some (be_val (take (if c =? 2 then 8 else 4) m)).
Proof.
  intros Hh H4 H8. destruct (Z.eqb_spec c 2); [by apply be64_holds; auto|by apply be32_holds].
Qed.

Lemma prop_cells_spec n v l q m :
  prop_ok (PProp n v) -> holds q (v ++ m) ->
  exists l', prop_cells mem n q l = Some l' /\
    l' = set_cells (cells_of (codes "#address-cells") [PProp n v] (addr_cells l)) (cells_of (codes "#size-cells") [PProp n v] (size_cells l)) l.
Proof.
  intros (_ & _ & _ & _ & Hc) Hh. unfold prop_cells, cells_of, last_prop. cbn [foldl]. rewrite !str_eq_spec. eexists; split; [|reflexivity].
  assert (Hv : n = codes "#address-cells" \/ n = codes "#size-cells" -> fdt_be32 mem q = Some (be_val (take 4 v))).
  { intros E. destruct (Hc E) as [H4 _]. by apply (be32_holds mem mem_bytes q v); [apply (holds_left _ _ _ _ Hh)|]. }
  destruct (decide (n = codes "#address-cells")) as [E|E], (decide (n = codes "#size-cells")) as [E'|E'].
  - by subst n.
  - rewrite (bool_decide_eq_true_2 _ E), (bool_decide_eq_false_2 _ E'), Hv by auto. done.
  - rewrite (bool_decide_eq_false_2 _ E), (bool_decide_eq_true_2 _ E'), Hv by auto. done.
  - rewrite (bool_decide_eq_false_2 _ E), (bool_decide_eq_false_2 _ E'). by destruct l.
Qed.

Lemma prop_irq_spec n v l q m :
  Z.of_nat (length v) < 2 ^ 31 -> holds q (v ++ m) ->
  prop_irq mem n q (Z.of_nat (length v)) l = Some (set_irq (irq_of [PProp n v] (l_irq l)) l).
Proof.
  intros Hlen Hh. unfold prop_irq, irq_of, last_prop. cbn [foldl]. rewrite str_eq_spec. pose proof (holds_left _ _ _ _ Hh) as Hv.
  destruct (decide (n = codes "interrupts")) as [E|E]; [|rewrite (bool_decide_eq_false_2 _ E); by destruct l].
  rewrite (bool_decide_eq_true_2 _ E). destruct (Z.leb_spec 4 (Z.of_nat (length v))); cbn [andb].
  2:{ destruct (Z.leb_spec 12 (Z.of_nat (length v))); [lia|]. by destruct l. }
  destruct (Z.leb_spec 12 (Z.of_nat (length v))).
  - rewrite <- (take_drop 4 v) in Hv. apply holds_right in Hv. rewrite length_take, Nat.min_l in Hv by lia.
    by rewrite (be32_holds mem mem_bytes (q + 4) _ Hv) by (rewrite length_drop; lia).
  - by rewrite (be32_holds mem mem_bytes q v) by (done || lia).
Qed.

Lemma cells_value c (m v x : list Z) :
  one_or_two c -> (Z.to_nat (4 * c) <= length v)%nat -> m = v ++ x ->
  take (if c =? 2 then 8 else 4) m = take (Z.to_nat (4 * c)) v.
Proof. intros [-> | ->] Hl ->; cbn in *; by rewrite take_app_le by lia. Qed.

Lemma prop_reg_spec n v l q rest ac sc :
  Z.of_nat (length v) < 2 ^ 31 -> holds q (v ++ rest) -> (4 <= length rest)%nat -> 0 <= ac < 2 ^ 28 -> 0 <= sc < 2 ^ 28 ->
  exists b s, prop_reg mem n q (Z.of_nat (length v)) ac sc l = Some (set_reg b s l) /\
    (one_or_two ac -> one_or_two sc -> (b, s) = reg_of ac sc [PProp n v] (reg_base l, reg_size l)).
Proof.
  intros Hlen Hh Hrest Ha Hs. unfold prop_reg, reg_of, last_prop. cbn [foldl]. rewrite str_eq_spec.
  unfold wrap. rewrite !Z.mod_small by (rewrite ?Z.mod_small; lia).
  destruct (decide (n = codes "reg")) as [E|E].
  2:{ rewrite (bool_decide_eq_false_2 _ E). exists (reg_base l), (reg_size l). by destruct l. }
  rewrite (bool_decide_eq_true_2 _ E). cbn [andb]. destruct (Z.leb_spec ((ac + sc) * 4) (Z.of_nat (length v))) as [Hfit|Hfit].
  2:{ exists (reg_base l), (reg_size l). by destruct l. }
  assert (Hd : holds (q + ac * 4) (drop (Z.to_nat (4 * ac)) v ++ rest)).
  { assert (Hh' := Hh). rewrite <- (take_drop (Z.to_nat (4 * ac)) v), <- app_assoc in Hh'. apply holds_right in Hh'.
    rewrite length_take, Nat.min_l in Hh' by lia. replace (q + ac * 4) with (q + Z.of_nat (Z.to_nat (4 * ac))) by lia. exact Hh'. }
  rewrite (read_cells ac q _ Hh) by (rewrite length_app; lia).
  rewrite (read_cells sc _ _ Hd) by (rewrite length_app, length_drop; lia). cbn [mbind option_bind].
  eexists _, _. split; [reflexivity|]. intros H1 H2. unfold default, id. f_equal; f_equal.
  - by apply (cells_value ac _ v rest); [|lia|].
  - apply (cells_value sc _ (drop (Z.to_nat (4 * ac)) v) rest); [done|rewrite length_drop; lia|done].
Qed.

Lemma stepped_one ac sc n v l b s :
  (one_or_two ac -> one_or_two sc -> (b, s) = reg_of ac sc [PProp n v] (reg_base l, reg_size l)) ->
  (is_device l = true -> one_or_two ac /\ one_or_two sc) ->
  stepped ac sc [PProp n v] l
    (set_irq (irq_of [PProp n v] (l_irq l)) (set_reg b s
      (set_cells (cells_of (codes "#address-cells") [PProp n v] (addr_cells l)) (cells_of (codes "#size-cells") [PProp n v] (size_cells l)) l))).
Proof. intros Hr Hd. split; try done. intros H. cbn [set_irq set_reg set_cells reg_base reg_size]. destruct (Hd H). auto. Qed.

Lemma stepped_app ac sc p props l l1 l2 :
  stepped ac sc [p] l l1 -> stepped ac sc props l1 l2 -> stepped ac sc (p :: props) l l2.
Proof.
  intros [A1 A2 A3 A4 A5 A6 A7] [B1 B2 B3 B4 B5 B6 B7]. split; try congruence.
  - rewrite B1, A1. done.
  - rewrite B2, A2. done.
  - rewrite B6, A6. done.
  - intros H. rewrite B7 by (unfold is_device in *; by rewrite A3, A4). rewrite A7 by done. done.
Qed.

(** The pointer to the command line after [p], whose value is at [q]. *)
Definition boot_after (chosen : bool) (n : list Z) (q : Z) (old : option Z) : option Z :=
  if chosen && bool_decide (n = codes "bootargs") then Some q else old.

Lemma level_at w d l : 0 <= d -> w_lvl w !! Z.to_nat d = Some l -> get_level w d = Some l.
Proof. intros Hd Hl. unfold get_level. by destruct (Z.ltb_spec d 0); [lia|]. Qed.

Lemma property_spec n v p rest w l up :
  prop_ok (PProp n v) -> holds p (be4 (Z.of_nat (length v)) ++ be4 (noff n) ++ pad4 v ++ rest) -> (4 <= length rest)%nat ->
  0 < w_depth w < 16 -> w_lvl w !! Z.to_nat (w_depth w) = Some l -> w_lvl w !! Z.to_nat (w_depth w - 1) = Some up ->
  0 <= addr_cells up < 2 ^ 28 -> 0 <= size_cells up < 2 ^ 28 ->
  (is_device l = true -> one_or_two (addr_cells up) /\ one_or_two (size_cells up)) ->
  exists l', stepped (addr_cells up) (size_cells up) [PProp n v] l l' /\
    property mem strings p w = Some (true, p + Z.of_nat (length (be4 (Z.of_nat (length v)) ++ be4 (noff n) ++ pad4 v)),
      Walk (w_depth w) (<[Z.to_nat (w_depth w) := l']> (w_lvl w)) (w_out w) (w_devs w) (boot_after (is_chosen l) n (p + 8) (w_bootargs w))).
Proof.
  intros Hok Hh Hrest Hd Hl Hup Ha Hs Hdev. pose proof Hok as (Hname & Hoff & Hlen & _ & Hc).
  pose proof (token_holds mem mem_bytes _ _ _ Hh ltac:(lia)) as E1. apply holds_right in Hh as H1. change (length (be4 _)) with 4%nat in H1.
  pose proof (token_holds mem mem_bytes _ _ _ H1 ltac:(lia)) as E2. apply holds_right in H1 as H2. change (length (be4 _)) with 4%nat in H2.
  rewrite <- Z.add_assoc in H2. change (Z.of_nat 4 + Z.of_nat 4) with 8 in H2. change (p + Z.of_nat 4) with (p + 4) in E2.
  assert (Hv : exists x, pad4 v ++ rest = v ++ x /\ (4 <= length x)%nat)
    by (unfold pad4; rewrite <- app_assoc; eexists; split; [reflexivity|rewrite length_app; lia]).
  destruct Hv as (x & Hx & Hxl). rewrite Hx in H2.
  destruct (prop_cells_spec n v l (p + 8) x Hok H2) as (l1 & E3 & Hl1).
  destruct (prop_reg_spec n v l1 (p + 8) x (addr_cells up) (size_cells up) Hlen H2 Hxl Ha Hs) as (b & s & E4 & Hbs).
  pose proof (prop_irq_spec n v (set_reg b s l1) (p + 8) x Hlen H2) as E5. subst l1.
  eexists. split; [by apply (stepped_one _ _ n v l b s)|].
  unfold property. rewrite E1. cbn [mbind option_bind]. rewrite E2. cbn [mbind option_bind]. cbv zeta.
  destruct (Z.ltb_spec (w_depth w) 0), (Z.leb_spec FDT_MAX_DEPTH (w_depth w)); try (unfold FDT_MAX_DEPTH in *; lia). cbn [orb].
  rewrite Hname. cbn [mbind option_bind]. rewrite (level_at w _ l) by (done || lia). cbn [mbind option_bind].
  rewrite E3. cbn [mbind option_bind]. destruct (Z.ltb_spec 0 (w_depth w)); [|lia].
  rewrite (level_at _ _ up) by (try lia; cbn [put_level w_lvl]; by rewrite list_lookup_insert_ne by lia). cbn [mbind option_bind]. rewrite E4. cbn [mbind option_bind]. rewrite E5. cbn [mbind option_bind].
  unfold boot_after. rewrite str_eq_spec. cbn [put_level w_depth w_lvl w_out w_devs set_cells is_chosen w_bootargs].
  rewrite list_insert_insert_eq. do 3 f_equal.
  rewrite !length_app, !Nat2Z.inj_add, length_pad4. change (Z.of_nat (length (be4 _))) with 4. unfold wrap. rewrite Z.mod_small, round4 by lia. lia.
Qed.

(** ** The tokens of a node *)

(** The pointer to the command line, after the texts that a piece of the tree carries. *)
Definition boot_is (old new : option Z) (texts : list (list Z)) : Prop :=
  match last texts with
  | None => new = old
  | Some s => exists b, new = Some b /\ str_at mem b = Some s
  end.

Lemma boot_is_app a b c t u : boot_is a b t -> boot_is b c u -> boot_is a c (t ++ u).
Proof.
  unfold boot_is. intros H1 H2. destruct (decide (u = [])) as [->|Hu]; [rewrite app_nil_r; cbn in H2; by rewrite H2|].
  rewrite last_app. destruct (last u) as [s|] eqn:E; [done|]. by apply last_None in E.
Qed.

(** Every text that is taken for the command line ends. *)
Definition texts_end (name : list Z) (props : list prop) : Prop :=
  named_chosen name = true -> forall v, PProp (codes "bootargs") v ∈ props -> is_Some (upto_nul v).

Lemma own_boot name p props : own_bootargs name (p :: props) = own_bootargs name [p] ++ own_bootargs name props.
Proof. unfold own_bootargs. destruct (named_chosen name); [|done]. cbn. destruct (match p with PNop => None | PProp n v => _ end); done. Qed.

Lemma loop_prop name p q rest w l up :
  prop_ok p -> texts_end name [p] -> holds q (flat_prop noff p ++ rest) -> (4 <= length rest)%nat ->
  0 < w_depth w < 16 -> w_lvl w !! Z.to_nat (w_depth w) = Some l -> w_lvl w !! Z.to_nat (w_depth w - 1) = Some up ->
  0 <= addr_cells up < 2 ^ 28 -> 0 <= size_cells up < 2 ^ 28 ->
  (is_device l = true -> one_or_two (addr_cells up) /\ one_or_two (size_cells up)) -> is_chosen l = named_chosen name ->
  exists l' boot, stepped (addr_cells up) (size_cells up) [p] l l' /\ boot_is (w_bootargs w) boot (own_bootargs name [p]) /\
    forall f, fdt_loop mem strings (S f) q w =
      fdt_loop mem strings f (q + Z.of_nat (length (flat_prop noff p)))
        (Walk (w_depth w) (<[Z.to_nat (w_depth w) := l']> (w_lvl w)) (w_out w) (w_devs w) boot).
Proof.
  intros Hok Hend Hh Hrest Hd Hl Hup Ha Hs Hdev Hch. destruct p as [|n v]; cbn [flat_prop] in Hh.
  - exists l, (w_bootargs w). split; [by split|]. split.
    { unfold own_bootargs. by destruct (named_chosen name). }
    intros f. cbn [fdt_loop]. rewrite (token_holds mem mem_bytes _ _ _ Hh) by (unfold FDT_NOP; lia). cbn [mbind option_bind].
    rewrite (list_insert_id _ _ _ Hl). by destruct w.
  - rewrite <- !app_assoc in Hh. pose proof (token_holds mem mem_bytes _ _ _ Hh ltac:(unfold FDT_PROP; lia)) as Et.
    apply holds_right in Hh. change (Z.of_nat (length (be4 _))) with 4 in Hh.
    destruct (property_spec n v (q + 4) rest w l up Hok Hh Hrest Hd Hl Hup Ha Hs Hdev) as (l' & Hst & E).
    exists l', (boot_after (is_chosen l) n (q + 4 + 8) (w_bootargs w)). split; [done|]. split.
    + unfold boot_after, own_bootargs, boot_is. rewrite Hch. destruct (named_chosen name) eqn:En; [|done]. cbn [andb omap list_omap].
      destruct (decide (n = codes "bootargs")) as [->|Hn]; [|by rewrite bool_decide_eq_false_2 by done].
      rewrite bool_decide_eq_true_2 by done. destruct (Hend En v) as [s Hs']; [by left|]. rewrite Hs'. cbn.
      exists (q + 4 + 8). split; [done|]. apply holds_right, holds_right in Hh. unfold pad4 in Hh. rewrite <- !app_assoc in Hh.
      change (Z.of_nat (length (be4 _))) with 4 in Hh. replace (q + 4 + 8) with (q + 4 + 4 + 4) by lia.
      eapply str_holds_some; [exact Hh|]. by apply upto_nul_more.
    + intros f. cbn [fdt_loop]. rewrite Et. cbn [mbind option_bind].
      change (FDT_PROP =? FDT_END) with false. change (FDT_PROP =? FDT_NOP) with false. change (FDT_PROP =? FDT_BEGIN_NODE) with false.
      change (FDT_PROP =? FDT_END_NODE) with false. change (FDT_PROP =? FDT_PROP) with true. cbn match. rewrite E. cbn [mbind option_bind].
      f_equal. cbn [flat_prop]. rewrite (length_app (be4 FDT_PROP)), Nat2Z.inj_add. change (Z.of_nat (length (be4 FDT_PROP))) with 4. lia.
Qed.

Lemma loop_props name props q rest w l up :
  Forall prop_ok props -> texts_end name props -> holds q (concat (flat_prop noff <$> props) ++ rest) -> (4 <= length rest)%nat ->
  0 < w_depth w < 16 -> w_lvl w !! Z.to_nat (w_depth w) = Some l -> w_lvl w !! Z.to_nat (w_depth w - 1) = Some up ->
  0 <= addr_cells up < 2 ^ 28 -> 0 <= size_cells up < 2 ^ 28 ->
  (is_device l = true -> one_or_two (addr_cells up) /\ one_or_two (size_cells up)) -> is_chosen l = named_chosen name ->
  exists l' boot, stepped (addr_cells up) (size_cells up) props l l' /\ boot_is (w_bootargs w) boot (own_bootargs name props) /\
    forall f, fdt_loop mem strings (length props + f) q w =
      fdt_loop mem strings f (q + Z.of_nat (length (concat (flat_prop noff <$> props))))
        (Walk (w_depth w) (<[Z.to_nat (w_depth w) := l']> (w_lvl w)) (w_out w) (w_devs w) boot).
Proof.
  revert q w l. induction props as [|p props IH]; intros q w l Hok Hend Hh Hrest Hd Hl Hup Ha Hs Hdev Hch.
  - exists l, (w_bootargs w). split; [by split|]. split; [by unfold own_bootargs, boot_is; destruct (named_chosen name)|].
    intros f. cbn. rewrite Z.add_0_r, (list_insert_id _ _ _ Hl). by destruct w.
  - apply Forall_cons in Hok as [Hp Hok]. cbn [fmap list_fmap concat] in Hh. rewrite <- app_assoc in Hh.
    destruct (loop_prop name p q (concat (flat_prop noff <$> props) ++ rest) w l up) as (l1 & b1 & S1 & B1 & E1); try done.
    { intros Hn v Hv. apply (Hend Hn). apply list_elem_of_singleton in Hv as ->. by left. }
    { rewrite length_app. lia. }
    set (w1 := Walk _ _ _ _ _) in E1. pose proof S1 as [_ _ Sv Sm Sc _ _].
    destruct (IH (q + Z.of_nat (length (flat_prop noff p))) w1 l1) as (l2 & b2 & S2 & B2 & E2); try done.
    { intros Hn v Hv. apply (Hend Hn). by right. }
    { by apply holds_right. }
    { cbn. apply list_lookup_insert_eq. by eapply lookup_lt_Some. }
    { cbn. by rewrite list_lookup_insert_ne by lia. }
    { unfold is_device in *. by rewrite Sv, Sm. }
    { congruence. }
    exists l2, b2. split; [by eapply stepped_app|]. split; [rewrite own_boot; by eapply boot_is_app|].
    intros f. cbn [length Nat.add]. rewrite E1, E2. unfold w1. cbn [w_depth w_lvl w_out w_devs]. rewrite list_insert_insert_eq.
    f_equal. cbn [fmap list_fmap concat]. rewrite length_app. lia.
Qed.

(** ** A node *)

Fixpoint height (n : node) : Z :=
  match n with Node _ _ children => 1 + foldr (fun c h => Z.max (height c) h) 0 children end.

Fixpoint node_tokens (n : node) : nat :=
  match n with Node _ props children => (2 + length props + foldr (fun c k => node_tokens c + k) 0 children)%nat end.

(** What a tree must be, below a level of [ac] and [sc] cells: a device or a
    memory node gives its address and size in one or two cells each. *)
Fixpoint tree_ok (ac sc : Z) (n : node) : Prop :=
  match n with
  | Node name props children =>
      Forall (fun c => c <> 0) name /\ Z.of_nat (length name) < 2 ^ 62 /\ Forall prop_ok props /\ texts_end name props /\
      (named_virtio name || named_memory name = true -> one_or_two ac /\ one_or_two sc) /\
      let ac := cells_of (codes "#address-cells") props ac in
      let sc := cells_of (codes "#size-cells") props sc in
      foldr (fun c P => tree_ok ac sc c /\ P) True children
  end.

Definition report_fact (od : fdt_facts * list Z) (f : fact) : fdt_facts * list Z :=
  match f with Device b s i => report_device b s i od | Memory b s => report_memory b s od end.

(** From [w] to [w'] the levels up to the current one stay, and the facts and texts are reported. *)
Record walked (w w' : fdt_walk) (fs : list fact) (texts : list (list Z)) : Prop := {
  wk_depth : w_depth w' = w_depth w;
  wk_length : length (w_lvl w') = length (w_lvl w);
  wk_lvl k : (Z.of_nat k <= w_depth w) -> w_lvl w' !! k = w_lvl w !! k;
  wk_facts : (w_out w', w_devs w') = foldl report_fact (w_out w, w_devs w) fs;
  wk_boot : boot_is (w_bootargs w) (w_bootargs w') texts
}.

Lemma walked_refl w : walked w w [] [].
Proof. by split. Qed.

Lemma walked_app a b c fs gs t u : walked a b fs t -> walked b c gs u -> walked a c (fs ++ gs) (t ++ u).
Proof.
  intros [A1 A2 A3 A4 A5] [B1 B2 B3 B4 B5]. split; [congruence|congruence| | |by eapply boot_is_app].
  - intros k Hk. rewrite B3 by congruence. by apply A3.
  - by rewrite B4, A4, foldl_app.
Qed.

Lemma cells_bound name props c :
  (name = codes "#address-cells" \/ name = codes "#size-cells") -> Forall prop_ok props -> 0 <= c < 2 ^ 28 -> 0 <= cells_of name props c < 2 ^ 28.
Proof.
  intros Hname Hok. revert c. unfold cells_of, last_prop. induction Hok as [|p props Hp Hok IH]; intros c Hc; [done|].
  cbn [foldl]. apply IH. destruct p as [|n v]; [done|].
  destruct (decide (n = name)) as [->|]; [|done]. destruct Hp as (_ & _ & _ & Hb1 & Hv). destruct (Hv Hname) as [H4 Hlt]. cbn.
  pose proof (be_val_bound (take 4 v) ltac:(by apply Forall_take)). lia.
Qed.

(** What a level reports at the end of its node. *)
Lemma report_own name l reg irq od :
  is_virtio l = named_virtio name -> is_memory l = named_memory name -> l_irq l = irq ->
  (is_device l = true -> (reg_base l, reg_size l) = reg) ->
  report l od = foldl report_fact od (own_facts name reg irq).
Proof.
  intros Hv Hm <- Hr. unfold report, own_facts. rewrite <- Hv, <- Hm. unfold is_device in Hr.
  destruct (is_virtio l) eqn:Ev, (is_memory l) eqn:Em; try (specialize (Hr eq_refl); subst reg); cbn [andb fst snd];
    try (destruct (negb (reg_size l =? 0))); done.
Qed.

Lemma length_be4 v : Z.of_nat (length (be4 v)) = 4.
Proof. done. Qed.

(** The opening token of a node sets up its level. *)
Lemma loop_begin name q rest w up :
  Forall (fun c => c <> 0) name -> Z.of_nat (length name) < 2 ^ 62 -> holds q (be4 FDT_BEGIN_NODE ++ pad4 (name ++ [0]) ++ rest) ->
  0 <= w_depth w < 15 -> w_lvl w !! Z.to_nat (w_depth w) = Some up ->
  forall f, fdt_loop mem strings (S f) q w =
    fdt_loop mem strings f (q + Z.of_nat (length (be4 FDT_BEGIN_NODE ++ pad4 (name ++ [0]))))
      (put_level (w_depth w + 1) (Level (addr_cells up) (size_cells up) (named_virtio name) (named_memory name) (named_chosen name) 0 0 0)
         (set_depth (w_depth w + 1) w)).
Proof.
  intros Hn Hlen Hh Hd Hup f. cbn [fdt_loop]. rewrite (token_holds mem mem_bytes _ _ _ Hh) by (unfold FDT_BEGIN_NODE; lia).
  cbn [mbind option_bind]. change (FDT_BEGIN_NODE =? FDT_END) with false. change (FDT_BEGIN_NODE =? FDT_NOP) with false.
  change (FDT_BEGIN_NODE =? FDT_BEGIN_NODE) with true. cbn match. apply holds_right in Hh. rewrite length_be4 in Hh.
  assert (Hs : str_at mem (q + 4) = Some name).
  { unfold pad4 in Hh. rewrite <- !app_assoc in Hh. by eapply str_holds. }
  unfold begin_node. rewrite Hs. cbn [mbind option_bind]. cbv zeta. cbn [set_depth w_depth].
  destruct (Z.leb_spec FDT_MAX_DEPTH (w_depth w + 1)); [unfold FDT_MAX_DEPTH in *; lia|].
  rewrite Z.add_simpl_r, (level_at _ _ up) by (done || lia). cbn [mbind option_bind].
  rewrite !str_eq_spec, !str_prefix_spec. f_equal.
  rewrite length_app, Nat2Z.inj_add, length_be4, length_pad4, length_app, Nat2Z.inj_add. change (Z.of_nat (length [0])) with 1.
  rewrite round4 by lia. lia.
Qed.

(** The closing token reports. *)
Lemma loop_end q rest w l :
  holds q (be4 FDT_END_NODE ++ rest) -> 0 < w_depth w < 16 -> w_lvl w !! Z.to_nat (w_depth w) = Some l ->
  forall f, fdt_loop mem strings (S f) q w =
    let '(o, devs) := report l (w_out w, w_devs w) in
    fdt_loop mem strings f (q + 4) (Walk (w_depth w - 1) (w_lvl w) o devs (w_bootargs w)).
Proof.
  intros Hh Hd Hl f. cbn [fdt_loop]. rewrite (token_holds mem mem_bytes _ _ _ Hh) by (unfold FDT_END_NODE; lia). cbn [mbind option_bind].
  change (FDT_END_NODE =? FDT_END) with false. change (FDT_END_NODE =? FDT_NOP) with false. change (FDT_END_NODE =? FDT_BEGIN_NODE) with false.
  change (FDT_END_NODE =? FDT_END_NODE) with true. cbn match. unfold end_node.
  destruct (Z.ltb_spec 0 (w_depth w)), (Z.ltb_spec (w_depth w) FDT_MAX_DEPTH); try (unfold FDT_MAX_DEPTH in *; lia). cbn [andb].
  rewrite (level_at w _ l) by (done || lia). cbn [mbind option_bind]. destruct (report l _) as [o devs]. cbn [mbind option_bind set_depth w_depth].
  by destruct (Z.ltb_spec (w_depth w - 1) 0); [lia|].
Qed.

(** What the walk does with a piece of the tree below the current level. *)
Definition walks (ok : Z -> Z -> Prop) (flat : list Z) (deep : Z) (tokens : nat)
    (facts : Z -> Z -> list fact) (texts : list (list Z)) : Prop :=
  forall q rest w up,
  let ac := addr_cells up in let sc := size_cells up in
  ok ac sc -> holds q (flat ++ rest) -> (4 <= length rest)%nat ->
  0 <= w_depth w -> w_depth w + deep < 16 -> length (w_lvl w) = 16%nat ->
  w_lvl w !! Z.to_nat (w_depth w) = Some up -> 0 <= ac < 2 ^ 28 -> 0 <= sc < 2 ^ 28 ->
  exists w', walked w w' (facts ac sc) texts /\
    forall f, fdt_loop mem strings (tokens + f) q w = fdt_loop mem strings f (q + Z.of_nat (length flat)) w'.

Definition walks_node (n : node) : Prop :=
  walks (fun ac sc => tree_ok ac sc n) (flat_node noff n) (height n) (node_tokens n) (fun ac sc => facts_of ac sc n) (bootargs_of n).

Definition walks_nodes (l : list node) : Prop :=
  walks (fun ac sc => foldr (fun c P => tree_ok ac sc c /\ P) True l) (concat (flat_node noff <$> l))
    (foldr (fun c h => Z.max (height c) h) 0 l) (foldr (fun c k => node_tokens c + k)%nat 0%nat l)
    (fun ac sc => concat (facts_of ac sc <$> l)) (concat (bootargs_of <$> l)).

Lemma height_pos n : 1 <= height n.
Proof. destruct n as [name props l]. cbn [height]. induction l as [|c l IH]; cbn; lia. Qed.

Lemma walks_nil : walks_nodes [].
Proof.
  intros q rest w up ac sc _ _ _ _ _ _ _ _ _. exists w. split; [apply walked_refl|]. intros f. cbn. by rewrite Z.add_0_r.
Qed.

Lemma walks_cons n l : walks_node n -> walks_nodes l -> walks_nodes (n :: l).
Proof.
  intros Hn Hl q rest w up ac sc [Ok1 Ok2] Hh Hrest Hd Hdeep Hlen Hup Ha Hs. cbn [foldr] in Hdeep.
  cbn [fmap list_fmap concat] in Hh. rewrite <- app_assoc in Hh.
  destruct (Hn q (concat (flat_node noff <$> l) ++ rest) w up Ok1 Hh) as (w1 & W1 & E1); try done; [rewrite length_app; lia|lia|].
  pose proof W1 as [D1 L1 K1 _ _].
  destruct (Hl (q + Z.of_nat (length (flat_node noff n))) rest w1 up Ok2) as (w2 & W2 & E2);
    [by apply holds_right|done|lia|rewrite D1; lia|congruence|by rewrite D1, K1 by lia|done|done|].
  exists w2. split; [by eapply walked_app|]. intros f. cbn [foldr fmap list_fmap concat]. rewrite <- Nat.add_assoc, E1, E2.
  f_equal. rewrite length_app. lia.
Qed.

(** The level array after the opening token. *)
Lemma opened_level w l : 0 <= w_depth w < 15 -> length (w_lvl w) = 16%nat ->
  let w' := put_level (w_depth w + 1) l (set_depth (w_depth w + 1) w) in
  w_lvl w' !! Z.to_nat (w_depth w') = Some l /\ length (w_lvl w') = 16%nat /\
  (forall k, Z.of_nat k <= w_depth w -> w_lvl w' !! k = w_lvl w !! k).
Proof.
  intros Hd Hl. cbn. split; [apply list_lookup_insert_eq; lia|]. split; [by rewrite length_insert|].
  intros k Hk. by rewrite list_lookup_insert_ne by lia.
Qed.

Lemma walks_tree name props children : walks_nodes children -> walks_node (Node name props children).
Proof.
  intros Hch q rest w up ac sc (Hn & Hnl & Hp & Hend & Hdev & Hcs) Hh Hrest Hd Hdeep Hlen Hup Ha Hs. cbn [height] in Hdeep.
  cbn [flat_node] in Hh. rewrite <- !app_assoc in Hh.
  assert (Hh0 : 0 <= foldr (fun c h => Z.max (height c) h) 0 children) by (clear; induction children as [|c l IH]; cbn; lia).
  pose proof (loop_begin name q _ w up Hn Hnl Hh ltac:(lia) Hup) as E1.
  set (l0 := Level _ _ _ _ _ 0 0 0) in E1. set (w0 := put_level _ l0 _) in E1.
  destruct (opened_level w l0 ltac:(lia) Hlen) as (L0 & N0 & K0). fold w0 in L0, N0, K0.
  rewrite app_assoc in Hh. apply holds_right in Hh as H1.
  destruct (loop_props name props _ _ w0 l0 up Hp Hend H1) as (l1 & b1 & S1 & B1 & E2); try done.
  { rewrite !length_app. lia. } { cbn. lia. }
  { replace (w_depth w0 - 1) with (w_depth w) by (cbn; lia). by rewrite K0 by lia. }
  set (w1 := Walk _ _ _ _ _) in E2. pose proof S1 as [Sa Ss Sv Sm Sc Si Sr].
  apply holds_right in H1 as H2.
  assert (L1 : w_lvl w1 !! Z.to_nat (w_depth w1) = Some l1) by (cbn; apply list_lookup_insert_eq; cbn in N0; lia).
  destruct (Hch _ _ w1 l1 ltac:(rewrite Sa, Ss; exact Hcs) H2) as (w2 & W2 & E3); try done.
  { rewrite length_app. lia. } { cbn; lia. } { cbn. lia. } { cbn. by rewrite length_insert. }
  { rewrite Sa. apply cells_bound; auto. } { rewrite Ss. apply cells_bound; auto. }
  pose proof W2 as [D2 N2 K2 F2 B2]. apply holds_right in H2 as H3.
  assert (L2 : w_lvl w2 !! Z.to_nat (w_depth w2) = Some l1) by (rewrite D2, K2 by (cbn; lia); exact L1).
  pose proof (loop_end _ rest w2 l1 H3 ltac:(rewrite D2; cbn; lia) L2) as E4.
  rewrite (report_own name l1 (reg_of ac sc props (0, 0)) (irq_of props 0)) in E4;
    [|by rewrite Sv|by rewrite Sm|by rewrite Si|intros H; apply Sr; unfold is_device in *; by rewrite <- Sv, <- Sm].
  rewrite F2 in E4. destruct (foldl report_fact _ (own_facts _ _ _)) as [o devs] eqn:Ef in E4.
  exists (Walk (w_depth w2 - 1) (w_lvl w2) o devs (w_bootargs w2)). split.
  - split; cbn [w_depth w_lvl w_out w_devs w_bootargs].
    + rewrite D2. cbn. lia.
    + rewrite N2. cbn. by rewrite !length_insert.
    + intros k Hk. rewrite K2 by (cbn; lia). cbn. rewrite !list_lookup_insert_ne by lia. done.
    + cbn [facts_of]. rewrite foldl_app, <- Ef. by rewrite Sa, Ss.
    + cbn [bootargs_of]. eapply boot_is_app; [exact B1|exact B2].
  - intros f. cbn [node_tokens]. replace (2 + length props + _ + f)%nat with
      (S (length props + (foldr (fun c k => node_tokens c + k) 0 children + S f)))%nat by lia.
    rewrite E1, E2, E3, E4. f_equal. cbn [flat_node]. rewrite !length_app. cbn [length be4]. lia.
Qed.

Lemma walks_any n : walks_node n.
Proof. exact (node_tree_ind walks_node walks_nodes walks_tree walks_nil walks_cons n). Qed.

(** ** Sizes *)

Definition fact_ok (f : fact) : Prop :=
  match f with
  | Device b s i => 0 <= b < 2 ^ 64 /\ 0 <= s < 2 ^ 64 /\ 0 <= i < 2 ^ 32
  | Memory b s => True
  end.

Lemma be_val_le (l : list Z) n : Forall (fun b => 0 <= b < 256) l -> (length l <= n)%nat -> 0 <= be_val l < 256 ^ Z.of_nat n.
Proof.
  intros Hl Hn. pose proof (be_val_bound l Hl). assert (256 ^ Z.of_nat (length l) <= 256 ^ Z.of_nat n) by (apply Z.pow_le_mono_r; lia). lia.
Qed.

Lemma reg_bound ac sc props d :
  one_or_two ac -> one_or_two sc -> Forall prop_ok props -> 0 <= fst d < 2 ^ 64 -> 0 <= snd d < 2 ^ 64 ->
  0 <= fst (reg_of ac sc props d) < 2 ^ 64 /\ 0 <= snd (reg_of ac sc props d) < 2 ^ 64.
Proof.
  intros Ha Hs Hok. revert d. unfold reg_of, last_prop. induction Hok as [|p props Hp Hok IH]; intros d H1 H2; [done|]. cbn [foldl].
  assert (Hd : forall c v, one_or_two c -> Forall (fun b => 0 <= b < 256) v -> 0 <= be_val (take (Z.to_nat (4 * c)) v) < 2 ^ 64).
  { intros c v Hc Hv. apply (be_val_le _ 8); [by apply Forall_take|]. rewrite length_take. destruct Hc as [-> | ->]; cbn; lia. }
  destruct p as [|n v]; [by apply IH|]. destruct Hp as (_ & _ & _ & Hb & _). destruct (decide (n = _)); [|by apply IH].
  destruct (_ <=? _); cbn [default]; [|by apply IH]. unfold id. apply IH; cbn [fst snd]; apply Hd; try done. by apply Forall_drop.
Qed.

Lemma irq_bound props d : Forall prop_ok props -> 0 <= d < 2 ^ 32 -> 0 <= irq_of props d < 2 ^ 32.
Proof.
  intros Hok. revert d. unfold irq_of, last_prop. induction Hok as [|p props Hp Hok IH]; intros d Hd; [done|]. cbn [foldl].
  assert (H4 : forall v, Forall (fun b => 0 <= b < 256) v -> 0 <= be_val (take 4 v) < 2 ^ 32).
  { intros v Hv. apply (be_val_le _ 4); [by apply Forall_take|]. rewrite length_take. lia. }
  apply IH. destruct p as [|n v]; [done|]. destruct Hp as (_ & _ & _ & Hb & _). destruct (decide (n = _)); [|done].
  destruct (12 <=? _); [apply H4; by apply Forall_drop|]. destruct (4 <=? _); [by apply H4|done].
Qed.

Lemma own_facts_ok name reg irq :
  (named_virtio name || named_memory name = true -> 0 <= fst reg < 2 ^ 64 /\ 0 <= snd reg < 2 ^ 64) -> 0 <= irq < 2 ^ 32 ->
  Forall fact_ok (own_facts name reg irq).
Proof.
  intros Hr Hi. unfold own_facts. apply Forall_app. split.
  - destruct (named_virtio name); cbn [andb]; [|constructor]. destruct (negb _); [|constructor]. destruct (Hr eq_refl). constructor; [cbn; tauto|constructor].
  - destruct (named_memory name && _); by repeat constructor.
Qed.

Lemma facts_ok n ac sc : tree_ok ac sc n -> Forall fact_ok (facts_of ac sc n).
Proof.
  revert ac sc.
  refine (node_tree_ind (fun n => forall ac sc, tree_ok ac sc n -> Forall fact_ok (facts_of ac sc n))
    (fun l => forall ac sc, foldr (fun c P => tree_ok ac sc c /\ P) True l -> Forall fact_ok (concat (facts_of ac sc <$> l))) _ _ _ n).
  - intros name props l IH ac sc (_ & _ & Hp & _ & Hd & Hl). cbn [facts_of]. apply Forall_app. split; [by apply IH|].
    apply own_facts_ok; [|apply irq_bound; [done|lia]]. intros H. destruct (Hd H). by apply reg_bound; cbn.
  - constructor.
  - intros c l Hc Hl ac sc [H1 H2]. cbn [fmap list_fmap concat]. apply Forall_app. split; auto.
Qed.

(** Every token takes at least four bytes. *)
Lemma tokens_flat n : (4 * node_tokens n <= length (flat_node noff n))%nat.
Proof.
  refine (node_tree_ind (fun n => (4 * node_tokens n <= length (flat_node noff n))%nat)
    (fun l => (4 * foldr (fun c k => node_tokens c + k) 0 l <= length (concat (flat_node noff <$> l)))%nat) _ _ _ n).
  - intros name props l IH. cbn [flat_node node_tokens]. rewrite !length_app. cbn [length be4].
    assert (4 * length props <= length (concat (flat_prop noff <$> props)))%nat; [|lia].
    clear. induction props as [|p props IHp]; cbn [fmap list_fmap concat length]; [lia|]. rewrite length_app.
    assert (4 <= length (flat_prop noff p))%nat; [|unfold fmap in *; lia]. destruct p; cbn [flat_prop]; [cbn; lia|rewrite !length_app; cbn [length be4]; lia].
  - cbn. lia.
  - intros c l Hc Hl. cbn [foldr fmap list_fmap concat]. rewrite length_app. unfold fmap in *. lia.
Qed.
End walk.

(** ** The answer in closed form *)

Definition hex (v : Z) : list Z := rev (digits_rev 64 v 16 false).
Definition dec (v : Z) : list Z := rev (digits_rev 64 v 10 false).

(** The entry of a device in the spelling of the x86 machines. *)
Definition device_entry (f : fact) : list Z :=
  match f with
  | Device b s i => codes " virtio_mmio.device=0x" ++ hex s ++ codes "@0x" ++ hex b ++ codes ":" ++ dec (i + 32)
  | Memory _ _ => []
  end.

Definition device_bases (fs : list fact) : list Z := omap (fun f => match f with Device b _ _ => Some b | Memory _ _ => None end) fs.
Definition memories (fs : list fact) : list (Z * Z) := omap (fun f => match f with Memory b s => Some (b, s) | Device _ _ _ => None end) fs.

Lemma cl_puts_take s cl : (length cl <= FDT_CMDLINE - 1)%nat -> cl_puts s cl = take (FDT_CMDLINE - 1) (cl ++ s).
Proof.
  revert cl. induction s as [|c s IH]; intros cl Hcl; cbn [cl_puts]; [by rewrite app_nil_r, take_ge|].
  destruct (Nat.ltb_spec (length cl) (FDT_CMDLINE - 1)).
  - rewrite IH by (rewrite length_app; cbn [length]; lia). by rewrite <- app_assoc.
  - by rewrite take_app_le, take_ge by lia.
Qed.

Lemma take_take_app {A} n (a b : list A) : take n (take n a ++ b) = take n (a ++ b).
Proof.
  destruct (decide (length a <= n)%nat); [by rewrite (take_ge a)|].
  rewrite take_app_le, take_take, Nat.min_id by (rewrite length_take; lia). by rewrite take_app_le by lia.
Qed.

Lemma take_app_take {A} n (a b : list A) : take n (a ++ take n b) = take n (a ++ b).
Proof.
  rewrite !firstn_app, take_take. do 2 f_equal. lia.
Qed.

Lemma cl_puts_more s a : cl_puts s (take (FDT_CMDLINE - 1) a) = take (FDT_CMDLINE - 1) (a ++ s).
Proof. rewrite cl_puts_take by (rewrite length_take; lia). apply take_take_app. Qed.

Lemma hex_loop_spec fuel F v b : 0 < v < 16 ^ Z.of_nat fuel -> (fuel <= F)%nat -> hex_loop fuel v b = rev (digits_rev F v 16 false) ++ b.
Proof.
  revert F v b. induction fuel as [|fuel IH]; intros F v b Hv HF; [cbn in Hv; lia|]. destruct F as [|F]; [lia|].
  rewrite pow_of_S in Hv. cbn [hex_loop digits_rev]. destruct (Z.eqb_spec v 0); [lia|].
  change 15 with (Z.ones 4). rewrite Z.land_ones, Z.shiftr_div_pow2 by lia. change (2 ^ 4) with 16.
  pose proof (Z.div_mod v 16 ltac:(lia)). pose proof (Z.mod_pos_bound v 16 ltac:(lia)). cbn [rev].
  destruct (Z.eqb_spec (v / 16) 0) as [E|E].
  - rewrite E. cbn. destruct fuel; reflexivity.
  - rewrite (IH F) by lia. by rewrite <- app_assoc.
Qed.

Lemma dec_loop_spec fuel F v b : 0 < v < 10 ^ Z.of_nat fuel -> (fuel <= F)%nat -> dec_loop fuel v b = rev (digits_rev F v 10 false) ++ b.
Proof.
  revert F v b. induction fuel as [|fuel IH]; intros F v b Hv HF; [cbn in Hv; lia|]. destruct F as [|F]; [lia|].
  rewrite pow_of_S in Hv. cbn [dec_loop digits_rev]. destruct (Z.eqb_spec v 0); [lia|].
  pose proof (Z.div_mod v 10 ltac:(lia)). pose proof (Z.mod_pos_bound v 10 ltac:(lia)). cbn [rev].
  destruct (Z.ltb_spec (v mod 10) 10); [|lia]. destruct (Z.eqb_spec (v / 10) 0) as [E|E].
  - rewrite E. cbn. destruct fuel; reflexivity.
  - rewrite (IH F) by lia. by rewrite <- app_assoc.
Qed.

Abbreviation room := (FDT_CMDLINE - 1)%nat.

Lemma cl_puthex_more v a : 0 <= v < 2 ^ 64 -> cl_puthex v (take room a) = take room (a ++ codes "0x" ++ hex v).
Proof.
  intros Hv. unfold cl_puthex. rewrite !cl_puts_more, <- app_assoc. do 3 f_equal. destruct (Z.eqb_spec v 0) as [->|]; [done|].
  rewrite (hex_loop_spec 16 64) by lia. by rewrite app_nil_r.
Qed.

Lemma cl_putu_more v a : 0 <= v < 2 ^ 64 -> cl_putu v (take room a) = take room (a ++ dec v).
Proof.
  intros Hv. unfold cl_putu. rewrite cl_puts_more. do 2 f_equal. destruct (Z.eqb_spec v 0) as [->|]; [done|].
  rewrite (dec_loop_spec 20 64) by lia. by rewrite app_nil_r.
Qed.

Lemma report_device_spec b s i o a :
  fact_ok (Device b s i) ->
  snd (report_device b s i (o, take room a)) = take room (a ++ device_entry (Device b s i)).
Proof.
  intros (Hb & Hs & Hi). unfold report_device, device_entry. cbn [snd]. rewrite wrap64_small by lia.
  rewrite cl_puts_more, cl_puthex_more, cl_puts_more, cl_puthex_more, cl_puts_more, cl_putu_more by lia.
  change (codes " virtio_mmio.device=0x") with (codes " virtio_mmio.device=" ++ codes "0x").
  change (codes "@0x") with (codes "@" ++ codes "0x"). by rewrite <- !app_assoc.
Qed.

(** The facts reported so far, in a structure that held [old] bases. *)
Definition facts_so_far (old : list Z) (fs : list fact) : fdt_facts :=
  Facts (fst (default (0, 0) (head (memories fs)))) (snd (default (0, 0) (head (memories fs)))) []
    (Z.of_nat (length (device_bases fs))) (take FDT_MAX_DEVS (device_bases fs) ++ drop (length (device_bases fs)) old).

Lemma report_facts old fs :
  length old = FDT_MAX_DEVS -> Forall fact_ok fs -> Forall (fun m => snd m <> 0) (memories fs) ->
  foldl report_fact (facts_so_far old [], []) fs = (facts_so_far old fs, take room (concat (device_entry <$> fs))).
Proof.
  intros Hold. induction fs as [|f fs IH] using rev_ind; intros Hok Hm; [done|].
  apply Forall_app in Hok as [Hok Hf]. rewrite Forall_singleton in Hf. unfold memories in Hm. rewrite omap_app in Hm. apply Forall_app in Hm as [Hm Hm1].
  rewrite foldl_snoc, IH by done. rewrite fmap_app, concat_app. cbn [fmap list_fmap concat]. rewrite app_nil_r.
  destruct f as [b s i|b s]; cbn [report_fact].
  - rewrite (surjective_pairing (report_device b s i _)), report_device_spec by done. f_equal.
    unfold report_device, facts_so_far. cbn [fst ram_base ram_size cmdline devices dev_base].
    assert (Hd : device_bases (fs ++ [Device b s i]) = device_bases fs ++ [b]) by (unfold device_bases; by rewrite omap_app).
    assert (Hmm : memories (fs ++ [Device b s i]) = memories fs) by (unfold memories; by rewrite omap_app, app_nil_r).
    rewrite Hd, Hmm, length_app. f_equal; [cbn [length]; lia|]. set (n := length (device_bases fs)).
    destruct (Z.ltb_spec (Z.of_nat n) (Z.of_nat FDT_MAX_DEVS)) as [Hlt|Hge].
    + rewrite Nat2Z.id, take_ge by (fold n; lia). rewrite insert_app_r_alt by done. fold n. rewrite Nat.sub_diag.
      destruct (drop n old) as [|x rest] eqn:E; [apply (f_equal length) in E; rewrite length_drop in E; cbn in E; lia|].
      rewrite take_ge by (rewrite length_app; cbn [length]; fold n; lia). cbn. rewrite <- app_assoc. cbn. do 2 f_equal.
      rewrite Nat.add_1_r. symmetry. apply (f_equal (drop 1)) in E. rewrite drop_drop, Nat.add_1_r in E. exact E.
    + rewrite take_app_le by (fold n; lia). rewrite !drop_ge by lia. done.
  - unfold report_memory, facts_so_far. cbn [ram_size ram_base cmdline devices dev_base].
    assert (Hd : device_bases (fs ++ [Memory b s]) = device_bases fs) by (unfold device_bases; by rewrite omap_app, app_nil_r).
    assert (Hmm : memories (fs ++ [Memory b s]) = memories fs ++ [(b, s)]) by (unfold memories; by rewrite omap_app).
    rewrite Hd, Hmm, app_nil_r. destruct (memories fs) as [|[b0 s0] ms] eqn:Em; [done|].
    cbn. change (omap _ fs) with (memories fs) in Hm. rewrite Em in Hm. apply Forall_cons in Hm as [Hs0 _]. cbn in Hs0.
    by destruct (Z.eqb_spec s0 0).
Qed.

Lemma own_memories name reg irq : Forall (fun m => snd m <> 0) (memories (own_facts name reg irq)).
Proof.
  unfold own_facts, memories. rewrite omap_app. apply Forall_app. split.
  - destruct (named_virtio name && _); constructor.
  - destruct (named_memory name); cbn [andb]; [|constructor]. destruct (Z.eqb_spec (snd reg) 0); by repeat constructor.
Qed.

Lemma memories_sized n ac sc : Forall (fun m => snd m <> 0) (memories (facts_of ac sc n)).
Proof.
  revert ac sc.
  refine (node_tree_ind (fun n => forall ac sc, Forall (fun m => snd m <> 0) (memories (facts_of ac sc n)))
    (fun l => forall ac sc, Forall (fun m => snd m <> 0) (memories (concat (facts_of ac sc <$> l)))) _ _ _ n).
  - intros name props l IH ac sc. cbn [facts_of]. unfold memories. rewrite omap_app. apply Forall_app. split; [apply IH|apply own_memories].
  - constructor.
  - intros c l Hc Hl ac sc. cbn [fmap list_fmap concat]. unfold memories. rewrite omap_app. apply Forall_app. split; [apply Hc|apply Hl].
Qed.

(** C32: the device tree.  For a flattened tree anywhere in memory, with its
    blocks in any order, at most fifteen levels deep and well formed, whatever
    the array of levels held before, the walk ends and answers what the tree
    says by recursion on it: the first memory range of a non-empty size; every
    virtio-mmio device, in the order the nodes end, as an entry of the command
    line behind the boot arguments of /chosen, cut at 2047 characters; how many
    devices, and the bases of the first thirty-two. *)
Theorem fdt_probe_reads mem junk fdt out noff off_struct off_strings tree :
  Forall (fun b => 0 <= b < 256) mem -> 0 <= fdt -> length (dev_base out) = FDT_MAX_DEVS ->
  fdt_be32 mem fdt = Some FDT_MAGIC -> fdt_be32 mem (fdt + 8) = Some off_struct -> fdt_be32 mem (fdt + 12) = Some off_strings ->
  holds mem (fdt + off_struct) (flat_node noff tree ++ be4 FDT_END) -> tree_ok mem (fdt + off_strings) noff 2 2 tree -> height tree <= 15 ->
  let fs := facts_of 2 2 tree in
  let ram := default (0, 0) (head (memories fs)) in
  fdt_probe mem junk (Some fdt) out =
    Some (true, Facts (fst ram) (snd ram)
      (take room (default [] (last (bootargs_of tree)) ++ concat (device_entry <$> fs)))
      (Z.of_nat (length (device_bases fs)))
      (take FDT_MAX_DEVS (device_bases fs) ++ drop (length (device_bases fs)) (dev_base out))).
Proof.
  intros Hmem Hfdt Hold Hmagic Hstruct Hstrings Hh Hok Hheight fs ram.
  unfold fdt_probe, fdt_is_tree. rewrite Hmagic. cbn [mbind option_bind]. change (FDT_MAGIC =? FDT_MAGIC) with true. cbn [negb].
  rewrite Hstruct. cbn [mbind option_bind]. rewrite Hstrings. cbn [mbind option_bind]. cbv zeta.
  set (w := Walk 0 _ _ _ _).
  destruct (walks_any mem Hmem (fdt + off_strings) noff tree (fdt + off_struct) (be4 FDT_END) w
    (Level 2 2 false false false (reg_base junk) (reg_size junk) (l_irq junk)) Hok Hh) as (w' & [_ _ _ Hf Hb] & E);
    [cbn; lia|cbn; lia|cbn; lia|done|done|cbn; lia|cbn; lia|].
  pose proof (tokens_flat noff tree) as Ht. destruct Hh as [Hp Hh]. pose proof (holds_length mem _ _ (conj Hp Hh)) as Hl.
  rewrite length_app in Hl. cbn [length be4] in Hl.
  assert (Hlen : (node_tokens tree <= length mem)%nat).
  { destruct Hl as [Hl|Hl]; [lia|]. by apply app_eq_nil in Hl as [_ Hl]. }
  replace (S (length mem)) with (node_tokens tree + S (length mem - node_tokens tree))%nat by lia. rewrite E. cbn [fdt_loop].
  pose proof (holds_right mem _ _ _ (conj Hp Hh)) as Hend.
  rewrite <- (app_nil_r (be4 FDT_END)) in Hend. rewrite (token_holds mem Hmem _ _ _ Hend) by (unfold FDT_END; lia).
  cbn [mbind option_bind]. change (FDT_END =? FDT_END) with true. cbn match. cbn [mbind option_bind].
  assert (Hfacts : (w_out w', w_devs w') = (facts_so_far (dev_base out) fs, take room (concat (device_entry <$> fs)))).
  { rewrite Hf. apply (report_facts (dev_base out) fs Hold); [by eapply facts_ok|apply memories_sized]. }
  apply pair_equal_spec in Hfacts as [Ho Hd]. rewrite Ho, Hd. unfold boot_is in Hb. cbn [facts_so_far cmdline ram_base ram_size devices dev_base].
  destruct (last (bootargs_of tree)) as [s|].
  - destruct Hb as (b & -> & Hs). cbn [mbind option_bind]. rewrite Hs. cbn [mbind option_bind default]. unfold id.
    rewrite (cl_puts_take s []) by (cbn; lia). cbn [app]. by rewrite cl_puts_more, take_app_take.
  - rewrite Hb. cbn [w w_bootargs mbind option_bind default app]. rewrite cl_puts_take by (cbn; lia). cbn [app].
    by rewrite take_take, Nat.min_id.
Qed.

(** ** A small tree: boot arguments, memory, and a device below a bus with cells of its own *)

Definition demo_names : list Z := concat ((fun s => codes s ++ [0]) <$> ["#address-cells"; "#size-cells"; "reg"; "interrupts"; "bootargs"]%string).
Definition demo_noff (n : list Z) : Z :=
  if decide (n = codes "#address-cells") then 0 else if decide (n = codes "#size-cells") then 15
  else if decide (n = codes "reg") then 27 else if decide (n = codes "interrupts") then 31 else 42.

Definition demo_tree : node :=
  Node [] [PProp (codes "#address-cells") (be4 2); PProp (codes "#size-cells") (be4 2); PNop]
    [Node (codes "chosen") [PProp (codes "bootargs") (codes "a=1" ++ [0])] [];
     Node (codes "memory@80000000") [PProp (codes "reg") (be4 0 ++ be4 (2 ^ 31) ++ be4 0 ++ be4 (2 ^ 27))] [];
     Node (codes "soc") [PProp (codes "#address-cells") (be4 1); PProp (codes "#size-cells") (be4 1)]
       [Node (codes "virtio_mmio@10001000") [PProp (codes "interrupts") (be4 1); PProp (codes "reg") (be4 (2 ^ 28 + 4096) ++ be4 4096)] []]].

Definition demo_flat : list Z := flat_node demo_noff demo_tree ++ be4 FDT_END.
Definition demo_blob : list Z :=
  concat (be4 <$> [FDT_MAGIC; 0; 40; 40 + Z.of_nat (length demo_flat); 0; 17; 16; 0; 0; 0]) ++ demo_flat ++ demo_names.
Definition demo_junk : level := Level 0 0 true true true 0 7 0.
Definition demo_out : fdt_facts := Facts 0 0 [] 0 (replicate FDT_MAX_DEVS 0).

Lemma texts_end_check name props :
  forallb (fun p => match p with PProp n v => bool_decide (n <> codes "bootargs") || bool_decide (is_Some (upto_nul v)) | PNop => true end) props = true ->
  texts_end name props.
Proof.
  intros H _ v Hv. rewrite forallb_forall in H. specialize (H _ (proj1 (list_elem_of_In _ _) Hv)). cbn in H.
  apply orb_true_iff in H as [H|H]; apply bool_decide_eq_true in H; [done|exact H].
Qed.

Lemma demo_tree_ok : tree_ok demo_blob (40 + Z.of_nat (length demo_flat)) demo_noff 2 2 demo_tree.
Proof.
  assert (Hp : forall n v, prop_ok demo_blob (40 + Z.of_nat (length demo_flat)) demo_noff (PProp n v) <->
    bool_decide (str_at demo_blob (40 + Z.of_nat (length demo_flat) + demo_noff n) = Some n /\ 0 <= demo_noff n < 2 ^ 32 /\
      Z.of_nat (length v) < 2 ^ 31 /\ Forall (fun b => 0 <= b < 256) v /\
      (n = codes "#address-cells" \/ n = codes "#size-cells" -> (4 <= length v)%nat /\ be_val (take 4 v) < 2 ^ 28)) = true)
    by (intros n v; by rewrite bool_decide_eq_true).
  cbn [tree_ok demo_tree foldr].
  repeat lazymatch goal with
  | |- _ /\ _ => split
  | |- texts_end _ _ => apply texts_end_check; vm_compute; reflexivity
  | |- Forall (prop_ok _ _ _) (PProp _ _ :: _) => constructor; [apply Hp; vm_compute; reflexivity|]
  | |- Forall (prop_ok _ _ _) (PNop :: _) => constructor; [exact I|]
  | |- Forall _ [] => constructor
  | |- Forall (fun c => c <> 0) _ => apply (bool_decide_unpack _); vm_compute; exact I
  | |- _ -> _ => intros H; first [discriminate H | split; vm_compute; first [left; reflexivity | right; reflexivity]]
  | |- True => exact I
  | |- _ => vm_compute; reflexivity
  end.
Qed.

Lemma fdt_probe_reads_witness :
  fdt_probe demo_blob demo_junk (Some 0) demo_out =
    Some (true, Facts (2 ^ 31) (2 ^ 27) (codes "a=1 virtio_mmio.device=0x1000@0x10001000:33") 1 ((2 ^ 28 + 4096) :: replicate 31 0)).
Proof.
  assert (Hmem : Forall (fun b => 0 <= b < 256) demo_blob) by (apply (bool_decide_unpack _); vm_compute; exact I).
  assert (Hh : holds demo_blob (0 + 40) demo_flat) by (split; [lia|exists demo_names; vm_compute; reflexivity]).
  rewrite (fdt_probe_reads demo_blob demo_junk 0 demo_out demo_noff 40 (40 + Z.of_nat (length demo_flat)) demo_tree Hmem (Z.le_refl 0)
    eq_refl eq_refl eq_refl eq_refl Hh demo_tree_ok ltac:(vm_compute; discriminate)).
  vm_compute. reflexivity.
Defined.
