(* ===== verification/SchedLinks.v ===== *)
(** The lists coroutines are linked in, [src/unikernel/runtime_bare.c].

    A coroutine's [next] field serves the run queue and every wait queue, its
    [tnext] field the timer list.  [Links] is what the scheduler needs of
    these lists; [links] implements it with the fields and the head and tail
    pointers of the source, [alinks] with plain lists and a note of the place
    every coroutine is in.  The refinement theorem at the end says that the
    pointers do what the lists do, as long as no coroutine is put in two
    places: the lists' operations refuse that, the pointers' do not. *)

From S2P Require Import Prelude.

(** The lists strung through [next]: the run queue, the wait queue of a mutex,
    a condition variable or a reader/writer lock, the coroutines that wait for
    one to end, and those that wait for all fibers to end. *)
Inductive place := PRun | PMutex (m : nat) | PCond (k : nat) | PRw (l : nat) | PJoin (c : nat) | PDrain.

#[export] Instance place_eq_dec : EqDecision place.
Proof. solve_decision. Defined.

#[export] Instance place_countable : Countable place.
Proof.
  refine (inj_countable'
    (fun p => match p with
              | PRun => inl (inl 0%nat) | PDrain => inl (inl 1%nat)
              | PMutex m => inl (inr (inl m)) | PCond k => inl (inr (inr k))
              | PRw l => inr (inl l) | PJoin c => inr (inr c) end : (nat + (nat + nat)) + (nat + nat))
    (fun x => match x with
              | inl (inl 0%nat) => PRun | inl (inl _) => PDrain
              | inl (inr (inl m)) => PMutex m | inl (inr (inr k)) => PCond k
              | inr (inl l) => PRw l | inr (inr c) => PJoin c end) _).
  by intros [].
Defined.

(** The places with a tail pointer. *)
Definition is_queue (p : place) : bool := match p with PJoin _ | PDrain => false | _ => true end.

Class Links (L : Type) := {
  l_push : place -> nat -> L -> option L;                      (* nb_wq_push *)
  l_pop : place -> L -> option (option nat * L);               (* nb_wq_pop *)
  l_head : place -> L -> option (option nat);
  l_push_front : nat -> L -> option L;                         (* nb_rq_push_front *)
  l_stack : place -> nat -> L -> option L;                     (* onto joiners, drain waiters *)
  l_wake : place -> L -> option (list nat * L);                (* all of them to the run queue *)
  l_timer_add : (nat -> option Z) -> nat -> Z -> L -> option L;
  l_timer_remove : nat -> L -> option L;
  l_timer_head : L -> option nat;
  l_timer_pop : L -> option L;
  l_make : place -> L -> option L;                             (* an empty wait queue *)
  l_alloc : nat -> L -> option L;
  l_free : nat -> L -> option L
}.

(** ** The pointers *)

Record links := MkLinks {
  lk_next : gmap nat (option nat);        (* c->next *)
  lk_tnext : gmap nat (option nat);       (* c->tnext *)
  lk_head : gmap place (option nat);      (* the head of each list; c->joiners for PJoin c *)
  lk_tail : gmap place (option nat);
  lk_timers : option nat                  (* nb_timers *)
}.

Definition set_next (c : nat) (v : option nat) (s : links) : option links :=
  lk_next s !! c ≫= fun _ => Some (MkLinks (<[c := v]> (lk_next s)) (lk_tnext s) (lk_head s) (lk_tail s) (lk_timers s)).
Definition set_tnext (c : nat) (v : option nat) (s : links) : option links :=
  lk_tnext s !! c ≫= fun _ => Some (MkLinks (lk_next s) (<[c := v]> (lk_tnext s)) (lk_head s) (lk_tail s) (lk_timers s)).
Definition set_head (p : place) (v : option nat) (s : links) : links :=
  MkLinks (lk_next s) (lk_tnext s) (<[p := v]> (lk_head s)) (lk_tail s) (lk_timers s).
Definition set_tail (p : place) (v : option nat) (s : links) : links :=
  MkLinks (lk_next s) (lk_tnext s) (lk_head s) (<[p := v]> (lk_tail s)) (lk_timers s).
Definition set_timers (v : option nat) (s : links) : links :=
  MkLinks (lk_next s) (lk_tnext s) (lk_head s) (lk_tail s) v.

(** [nb_wq_push], and with [PRun] [nb_rq_push]. *)
Definition nb_wq_push (p : place) (c : nat) (s : links) : option links :=
  s ← set_next c None s;
  tail ← lk_tail s !! p;
  s ← (match tail with
       | Some t => set_next t (Some c) s
       | None => Some (set_head p (Some c) s)
       end);
  Some (set_tail p (Some c) s).

(** [nb_wq_pop], and with [PRun] [nb_rq_pop]. *)
Definition nb_wq_pop (p : place) (s : links) : option (option nat * links) :=
  head ← lk_head s !! p;
  match head with
  | None => Some (None, s)
  | Some c =>
      n ← lk_next s !! c;
      let s := set_head p n s in
      let s := match n with None => set_tail p None s | Some _ => s end in
      s ← set_next c None s;
      Some (Some c, s)
  end.

Definition nb_rq_push_front (c : nat) (s : links) : option links :=
  head ← lk_head s !! PRun;
  s ← set_next c head s;
  let s := set_head PRun (Some c) s in
  tail ← lk_tail s !! PRun;
  Some (match tail with None => set_tail PRun (Some c) s | Some _ => s end).

(** [c->next = list; list = c;] *)
Definition stack_push (p : place) (c : nat) (s : links) : option links :=
  head ← lk_head s !! p;
  s ← set_next c head s;
  Some (set_head p (Some c) s).

(** More rounds than a list has elements. *)
Definition rounds (s : links) : nat := S (size (lk_next s)).

(** [while (w) { n = w->next; w->next = 0; ...; nb_rq_push(w); w = n; }] of
    [nb_wake_joiners] and [nb_fiber_ended]; the coroutines moved. *)
Fixpoint wake_loop (fuel : nat) (w : option nat) (s : links) : option (list nat * links) :=
  match fuel with
  | O => None
  | S f =>
      match w with
      | None => Some ([], s)
      | Some c =>
          n ← lk_next s !! c;
          s ← set_next c None s;
          s ← nb_wq_push PRun c s;
          '(moved, s) ← wake_loop f n s;
          Some (c :: moved, s)
      end
  end.

Definition wake_list (p : place) (s : links) : option (list nat * links) :=
  w ← lk_head s !! p;
  wake_loop (rounds s) w (set_head p None s).

(** [pp], the place a link is read from: the list's head or a [tnext]. *)
Definition link_get (pp : option nat) (s : links) : option (option nat) :=
  match pp with None => Some (lk_timers s) | Some p => lk_tnext s !! p end.
Definition link_set (pp v : option nat) (s : links) : option links :=
  match pp with None => Some (set_timers v s) | Some p => set_tnext p v s end.

Fixpoint timer_add_loop (fuel : nat) (wake : nat -> option Z) (pp : option nat) (c : nat) (at_ : Z) (s : links) : option links :=
  match fuel with
  | O => None
  | S f =>
      p ← link_get pp s;
      match p with
      | None => s ← set_tnext c None s; link_set pp (Some c) s
      | Some t =>
          w ← wake t;
          if w <=? at_ then timer_add_loop f wake (Some t) c at_ s
          else s ← set_tnext c (Some t) s; link_set pp (Some c) s
      end
  end.

Definition nb_timer_add (wake : nat -> option Z) (c : nat) (at_ : Z) (s : links) : option links :=
  timer_add_loop (rounds s) wake None c at_ s.

Fixpoint timer_remove_loop (fuel : nat) (pp : option nat) (c : nat) (s : links) : option links :=
  match fuel with
  | O => None
  | S f =>
      p ← link_get pp s;
      match p with
      | None => Some s
      | Some t =>
          if (t =? c)%nat then n ← lk_tnext s !! c; s ← link_set pp n s; set_tnext c None s
          else timer_remove_loop f (Some t) c s
      end
  end.

Definition nb_timer_remove (c : nat) (s : links) : option links := timer_remove_loop (rounds s) None c s.

(** [nb_timers = c->tnext; c->tnext = 0;] *)
Definition timer_pop (s : links) : option links :=
  c ← lk_timers s;
  n ← lk_tnext s !! c;
  set_tnext c None (set_timers n s).

Definition make_queue (p : place) (s : links) : option links :=
  Some (set_tail p None (set_head p None s)).

(** A zeroed coroutine block. *)
Definition alloc_coro (c : nat) (s : links) : option links :=
  Some (MkLinks (<[c := None]> (lk_next s)) (<[c := None]> (lk_tnext s)) (<[PJoin c := None]> (lk_head s))
          (lk_tail s) (lk_timers s)).

Definition free_coro (c : nat) (s : links) : option links :=
  lk_next s !! c ≫= fun _ =>
  Some (MkLinks (delete c (lk_next s)) (delete c (lk_tnext s)) (delete (PJoin c) (lk_head s))
          (lk_tail s) (lk_timers s)).

#[export] Instance pointer_links : Links links := {
  l_push := nb_wq_push;
  l_pop := nb_wq_pop;
  l_head p s := lk_head s !! p;
  l_push_front := nb_rq_push_front;
  l_stack := stack_push;
  l_wake := wake_list;
  l_timer_add := nb_timer_add;
  l_timer_remove := nb_timer_remove;
  l_timer_head := lk_timers;
  l_timer_pop := timer_pop;
  l_make := make_queue;
  l_alloc := alloc_coro;
  l_free := free_coro
}.

(** ** The lists *)

Record alinks := MkALinks {
  al_list : gmap place (list nat);
  al_timers : list nat;
  al_place : gmap nat (option place)     (* where each coroutine is *)
}.

Definition a_push (p : place) (c : nat) (a : alinks) : option alinks :=
  l ← al_list a !! p;
  guard (al_place a !! c = Some None);;
  guard (is_queue p = true);;
  Some (MkALinks (<[p := l ++ [c]]> (al_list a)) (al_timers a) (<[c := Some p]> (al_place a))).

Definition a_pop (p : place) (a : alinks) : option (option nat * alinks) :=
  l ← al_list a !! p;
  guard (is_queue p = true);;
  match l with
  | [] => Some (None, a)
  | c :: l' => Some (Some c, MkALinks (<[p := l']> (al_list a)) (al_timers a) (<[c := None]> (al_place a)))
  end.

Definition a_cons (p : place) (c : nat) (a : alinks) : option alinks :=
  l ← al_list a !! p;
  guard (al_place a !! c = Some None);;
  Some (MkALinks (<[p := c :: l]> (al_list a)) (al_timers a) (<[c := Some p]> (al_place a))).

Definition a_push_front (c : nat) (a : alinks) : option alinks := a_cons PRun c a.
Definition a_stack (p : place) (c : nat) (a : alinks) : option alinks :=
  guard (is_queue p = false);; a_cons p c a.

(** Every coroutine of [l] is in the run queue now. *)
Definition all_run (l : list nat) (pl : gmap nat (option place)) : gmap nat (option place) :=
  foldr (fun c m => <[c := Some PRun]> m) pl l.

Definition a_wake (p : place) (a : alinks) : option (list nat * alinks) :=
  l ← al_list a !! p;
  guard (is_queue p = false);;
  run ← al_list a !! PRun;
  Some (l, MkALinks (<[PRun := run ++ l]> (<[p := []]> (al_list a))) (al_timers a) (all_run l (al_place a))).

(** [c] goes behind the timers that are due no later. *)
Fixpoint insert_timer (wake : nat -> option Z) (c : nat) (at_ : Z) (l : list nat) : option (list nat) :=
  match l with
  | [] => Some [c]
  | t :: l' =>
      w ← wake t;
      if w <=? at_ then r ← insert_timer wake c at_ l'; Some (t :: r) else Some (c :: t :: l')
  end.

Definition a_timer_add (wake : nat -> option Z) (c : nat) (at_ : Z) (a : alinks) : option alinks :=
  guard (is_Some (al_place a !! c));;
  guard (c ∉ al_timers a);;
  l ← insert_timer wake c at_ (al_timers a);
  Some (MkALinks (al_list a) l (al_place a)).

Definition a_timer_remove (c : nat) (a : alinks) : option alinks :=
  Some (MkALinks (al_list a) (filter (fun t => t <> c) (al_timers a)) (al_place a)).

Definition a_timer_pop (a : alinks) : option alinks :=
  match al_timers a with [] => None | _ :: l => Some (MkALinks (al_list a) l (al_place a)) end.

Definition a_make (p : place) (a : alinks) : option alinks :=
  guard (is_queue p = true);;
  guard (al_list a !! p = None \/ al_list a !! p = Some []);;
  Some (MkALinks (<[p := []]> (al_list a)) (al_timers a) (al_place a)).

Definition a_alloc (c : nat) (a : alinks) : option alinks :=
  guard (al_place a !! c = None);;
  guard (al_list a !! PJoin c = None);;
  Some (MkALinks (<[PJoin c := []]> (al_list a)) (al_timers a) (<[c := None]> (al_place a))).

Definition a_free (c : nat) (a : alinks) : option alinks :=
  guard (al_place a !! c = Some None);;
  guard (c ∉ al_timers a);;
  guard (al_list a !! PJoin c = Some []);;
  Some (MkALinks (delete (PJoin c) (al_list a)) (al_timers a) (delete c (al_place a))).

#[export] Instance list_links : Links alinks := {
  l_push := a_push;
  l_pop := a_pop;
  l_head p a := head <$> al_list a !! p;
  l_push_front := a_push_front;
  l_stack := a_stack;
  l_wake := a_wake;
  l_timer_add := a_timer_add;
  l_timer_remove := a_timer_remove;
  l_timer_head a := head (al_timers a);
  l_timer_pop := a_timer_pop;
  l_make := a_make;
  l_alloc := a_alloc;
  l_free := a_free
}.


(** ** The lists are consistent *)

Record a_wf (a : alinks) : Prop := {
  wf_nodup p l : al_list a !! p = Some l -> NoDup l;
  wf_in p l c : al_list a !! p = Some l -> c ∈ l <-> al_place a !! c = Some (Some p);
  wf_place c p : al_place a !! c = Some (Some p) -> is_Some (al_list a !! p);
  wf_timers : NoDup (al_timers a);
  wf_timed c : c ∈ al_timers a -> is_Some (al_place a !! c)
}.

Lemma all_run_lookup l pl c :
  all_run l pl !! c = if decide (c ∈ l) then Some (Some PRun) else pl !! c.
Proof.
  induction l as [|x l IH]; simpl; [done|].
  destruct (decide (x = c)) as [->|Hne].
  - rewrite lookup_insert_eq, decide_True by constructor. done.
  - rewrite lookup_insert_ne by done. rewrite IH.
    destruct (decide (c ∈ l)) as [Hin|Hin].
    + rewrite decide_True by (by right). done.
    + rewrite decide_False by (rewrite elem_of_cons; naive_solver). done.
Qed.

(** A coroutine that is nowhere is put in a list. *)
Lemma wf_put a p l l' c :
  a_wf a -> al_list a !! p = Some l -> al_place a !! c = Some None -> l' ≡ₚ c :: l ->
  a_wf (MkALinks (<[p := l']> (al_list a)) (al_timers a) (<[c := Some p]> (al_place a))).
Proof.
  intros W Hl Hc Hp.
  assert (Hnc : forall q k, al_list a !! q = Some k -> c ∉ k).
  { intros q k Hk Hin. apply (wf_in a W q k c Hk) in Hin. congruence. }
  assert (NoDup l') as Hnd.
  { rewrite Hp. constructor; [by apply (Hnc p)|by apply (wf_nodup a W p)]. }
  split; cbn.
  - intros q k. destruct (decide (p = q)) as [<-|]; simplify_map_eq; [naive_solver|apply (wf_nodup a W)].
  - intros q k x Hk. destruct (decide (p = q)) as [<-|Hne]; simplify_map_eq.
    + rewrite Hp, elem_of_cons. destruct (decide (x = c)) as [->|]; simplify_map_eq; [naive_solver|].
      rewrite <- (wf_in a W p l) by done. naive_solver.
    + destruct (decide (x = c)) as [->|]; simplify_map_eq.
      * split; [intros Hin; by apply (Hnc q k) in Hin|congruence].
      * by apply (wf_in a W).
  - intros x q. destruct (decide (x = c)) as [->|]; simplify_map_eq; intros Hx; simplify_eq.
    + by simplify_map_eq.
    + destruct (decide (p = q)) as [<-|]; simplify_map_eq; [done|by apply (wf_place a W x)].
  - apply (wf_timers a W).
  - intros x Hx. destruct (decide (x = c)) as [->|]; simplify_map_eq; [done|by apply (wf_timed a W)].
Qed.

(** A coroutine is taken out of its list. *)
Lemma wf_take a p l l' c :
  a_wf a -> al_list a !! p = Some l -> l ≡ₚ c :: l' ->
  a_wf (MkALinks (<[p := l']> (al_list a)) (al_timers a) (<[c := None]> (al_place a))).
Proof.
  intros W Hl Hp.
  pose proof (wf_nodup a W p l Hl) as Hnd. rewrite Hp in Hnd. apply NoDup_cons in Hnd as [Hc Hnd].
  assert (Hpc : al_place a !! c = Some (Some p)).
  { apply (wf_in a W p l c Hl). rewrite Hp. by left. }
  split; cbn.
  - intros q k. destruct (decide (p = q)) as [<-|]; simplify_map_eq; [naive_solver|apply (wf_nodup a W)].
  - intros q k x Hk. destruct (decide (p = q)) as [<-|Hne]; simplify_map_eq.
    + destruct (decide (x = c)) as [->|]; simplify_map_eq; [naive_solver|].
      rewrite <- (wf_in a W p l) by done. rewrite Hp, elem_of_cons. naive_solver.
    + rewrite (wf_in a W q k x) by done.
      destruct (decide (x = c)) as [->|]; simplify_map_eq; [naive_solver|done].
  - intros x q Hx. destruct (decide (x = c)) as [->|]; simplify_map_eq.
    destruct (decide (p = q)) as [<-|]; simplify_map_eq; [done|by apply (wf_place a W x)].
  - apply (wf_timers a W).
  - intros x Hx. destruct (decide (x = c)) as [->|]; simplify_map_eq; [done|by apply (wf_timed a W)].
Qed.

(** The timer list changes alone. *)
Lemma wf_set_timers a l :
  a_wf a -> NoDup l -> (forall c, c ∈ l -> is_Some (al_place a !! c)) ->
  a_wf (MkALinks (al_list a) l (al_place a)).
Proof. intros [] Hl Hin. by split. Qed.

Lemma wf_wake a p l run :
  a_wf a -> al_list a !! p = Some l -> al_list a !! PRun = Some run -> p <> PRun ->
  a_wf (MkALinks (<[PRun := run ++ l]> (<[p := []]> (al_list a))) (al_timers a) (all_run l (al_place a))).
Proof.
  intros W Hl Hr Hp.
  assert (Hdis : forall x, x ∈ l -> x ∈ run -> False).
  { intros x H1 H2. apply (wf_in a W p l x Hl) in H1. apply (wf_in a W PRun run x Hr) in H2. congruence. }
  split; cbn.
  - intros q k. destruct (decide (q = PRun)) as [->|]; [|destruct (decide (q = p)) as [->|]]; simplify_map_eq.
    + intros [= <-]. apply NoDup_app. split; [by apply (wf_nodup a W PRun)|].
      split; [naive_solver|by apply (wf_nodup a W p)].
    + intros [= <-]. constructor.
    + apply (wf_nodup a W).
  - intros q k x. rewrite all_run_lookup.
    destruct (decide (q = PRun)) as [->|]; [|destruct (decide (q = p)) as [->|]]; simplify_map_eq.
    + intros [= <-]. rewrite elem_of_app. destruct (decide (x ∈ l)); [naive_solver|].
      rewrite (wf_in a W PRun run x Hr). naive_solver.
    + intros [= <-]. destruct (decide (x ∈ l)) as [|Hx].
      * split; [by intros ?%not_elem_of_nil|congruence].
      * rewrite (wf_in a W p l x Hl) in Hx. split; [by intros ?%not_elem_of_nil|done].
    + intros Hk. rewrite (wf_in a W q k x Hk).
      destruct (decide (x ∈ l)) as [Hx|]; [|done]. apply (wf_in a W p l x Hl) in Hx. naive_solver.
  - intros x q. rewrite all_run_lookup. destruct (decide (x ∈ l)); intros Hx; simplify_eq.
    + by simplify_map_eq.
    + destruct (decide (q = PRun)) as [->|]; [|destruct (decide (q = p)) as [->|]]; simplify_map_eq; try done.
      by apply (wf_place a W x).
  - apply (wf_timers a W).
  - intros x Hx. rewrite all_run_lookup. destruct (decide (x ∈ l)); [done|by apply (wf_timed a W)].
Qed.

Lemma nobody_in a p x : a_wf a -> al_list a !! p = None \/ al_list a !! p = Some [] -> al_place a !! x <> Some (Some p).
Proof.
  intros W [Hp|Hp] Hx.
  - apply (wf_place a W) in Hx as [l Hl]. congruence.
  - apply (wf_in a W p [] x Hp) in Hx. by apply not_elem_of_nil in Hx.
Qed.

(** An empty list is made or dropped. *)
Lemma wf_make a p :
  a_wf a -> al_list a !! p = None \/ al_list a !! p = Some [] ->
  a_wf (MkALinks (<[p := []]> (al_list a)) (al_timers a) (al_place a)).
Proof.
  intros W Hp. pose proof (nobody_in a p) as Hn.
  split; cbn; [| | |apply (wf_timers a W)|apply (wf_timed a W)].
  - intros q k. destruct (decide (p = q)) as [<-|]; simplify_map_eq; [|apply (wf_nodup a W)].
    intros [= <-]. constructor.
  - intros q k x Hk. destruct (decide (p = q)) as [<-|]; simplify_map_eq; [|by apply (wf_in a W)].
    rewrite elem_of_nil. naive_solver.
  - intros x q Hx. destruct (decide (p = q)) as [<-|]; simplify_map_eq; [done|by apply (wf_place a W x)].
Qed.

Lemma wf_drop a p :
  a_wf a -> al_list a !! p = None \/ al_list a !! p = Some [] ->
  a_wf (MkALinks (delete p (al_list a)) (al_timers a) (al_place a)).
Proof.
  intros W Hp. pose proof (nobody_in a p) as Hn.
  split; cbn; [| | |apply (wf_timers a W)|apply (wf_timed a W)].
  - intros q k Hk. destruct (decide (p = q)) as [<-|]; simplify_map_eq. by apply (wf_nodup a W q).
  - intros q k x Hk. destruct (decide (p = q)) as [<-|]; simplify_map_eq. by apply (wf_in a W).
  - intros x q Hx. destruct (decide (p = q)) as [<-|]; simplify_map_eq; [naive_solver|by apply (wf_place a W x)].
Qed.

(** A coroutine is made or freed. *)
Lemma wf_new a c :
  a_wf a -> al_place a !! c = None ->
  a_wf (MkALinks (al_list a) (al_timers a) (<[c := None]> (al_place a))).
Proof.
  intros W Hc. split; cbn; [apply (wf_nodup a W)| | |apply (wf_timers a W)|].
  - intros q k x Hk. rewrite (wf_in a W q k x Hk).
    destruct (decide (x = c)) as [->|]; simplify_map_eq; [|done]. split; congruence.
  - intros x q Hx. destruct (decide (x = c)) as [->|]; simplify_map_eq. by apply (wf_place a W x).
  - intros x Hx. destruct (decide (x = c)) as [->|]; simplify_map_eq; [done|by apply (wf_timed a W)].
Qed.

Lemma wf_gone a c :
  a_wf a -> al_place a !! c = Some None -> c ∉ al_timers a ->
  a_wf (MkALinks (al_list a) (al_timers a) (delete c (al_place a))).
Proof.
  intros W Hc Ht. split; cbn; [apply (wf_nodup a W)| | |apply (wf_timers a W)|].
  - intros q k x Hk. rewrite (wf_in a W q k x Hk).
    destruct (decide (x = c)) as [->|]; simplify_map_eq; [|done]. split; congruence.
  - intros x q Hx. destruct (decide (x = c)) as [->|]; simplify_map_eq. by apply (wf_place a W x).
  - intros x Hx. destruct (decide (x = c)) as [->|]; simplify_map_eq; [done|by apply (wf_timed a W)].
Qed.

(** ** What the pointers represent *)

(** From [h] the links lead through [l] to [e]. *)
Fixpoint seg (nx : gmap nat (option nat)) (h : option nat) (l : list nat) (e : option nat) : Prop :=
  match l with
  | [] => h = e
  | c :: l' => h = Some c /\ exists n, nx !! c = Some n /\ seg nx n l' e
  end.

Lemma seg_app nx h l1 l2 e : seg nx h (l1 ++ l2) e <-> exists x, seg nx h l1 x /\ seg nx x l2 e.
Proof.
  revert h. induction l1 as [|c l1 IH]; intros h; simpl; [naive_solver|].
  split.
  - intros (-> & n & Hn & (x & H1 & H2)%IH). eauto 6.
  - intros (x & (-> & n & Hn & H1) & H2). split; [done|]. exists n. split; [done|]. apply IH. eauto.
Qed.

Lemma seg_frame nx nx' h l e :
  (forall c, c ∈ l -> nx' !! c = nx !! c) -> seg nx h l e -> seg nx' h l e.
Proof.
  revert h. induction l as [|c l IH]; intros h Hf; simpl; [done|].
  intros (-> & n & Hn & Hs). split; [done|]. exists n.
  rewrite Hf by (left). split; [done|]. apply IH; [|done]. intros x Hx. apply Hf. by right.
Qed.

Lemma seg_ext nx c v h l e : c ∉ l -> seg nx h l e -> seg (<[c := v]> nx) h l e.
Proof.
  intros Hc. apply seg_frame. intros x Hx. rewrite lookup_insert_ne; [done|]. intros ->. done.
Qed.

(** The last link of a segment redirected. *)
Lemma seg_redirect nx h l t e v :
  NoDup (l ++ [t]) -> seg nx h (l ++ [t]) e -> seg (<[t := v]> nx) h (l ++ [t]) v.
Proof.
  intros (Hnd & Hd & _)%NoDup_app (x & H1 & H2)%seg_app. apply seg_app. exists x.
  split; [apply seg_ext; [|done]; intros ?; by apply (Hd t); [|left]|].
  destruct H2 as (-> & n & Hn & _). split; [done|]. exists v. rewrite lookup_insert_eq. done.
Qed.

(** [s] represents [a]. *)
Record rep (s : links) (a : alinks) : Prop := {
  rep_list p l : al_list a !! p = Some l -> exists h, lk_head s !! p = Some h /\ seg (lk_next s) h l None;
  rep_tail p l : al_list a !! p = Some l -> is_queue p = true -> lk_tail s !! p = Some (last l);
  rep_next c : is_Some (lk_next s !! c) <-> is_Some (al_place a !! c);
  rep_tnext c : is_Some (lk_tnext s !! c) <-> is_Some (al_place a !! c);
  rep_timers : seg (lk_tnext s) (lk_timers s) (al_timers a) None
}.

(** The relation between the two implementations. *)
Definition links_rel (s : links) (a : alinks) : Prop := rep s a /\ a_wf a.

Lemma nowhere a c p l : a_wf a -> al_place a !! c = Some None -> al_list a !! p = Some l -> c ∉ l.
Proof. intros W Hc Hl Hin. apply (wf_in a W p l c Hl) in Hin. congruence. Qed.

Lemma elsewhere a p q l k c :
  a_wf a -> al_list a !! p = Some l -> al_list a !! q = Some k -> c ∈ l -> q <> p -> c ∉ k.
Proof.
  intros W Hl Hk Hin Hne Hin'. apply (wf_in a W p l c Hl) in Hin. apply (wf_in a W q k c Hk) in Hin'.
  congruence.
Qed.

Lemma is_Some_insert {A} (m : gmap nat A) c v x :
  is_Some (m !! c) -> is_Some (<[c := v]> m !! x) <-> is_Some (m !! x).
Proof. intros Hc. destruct (decide (x = c)) as [->|]; simplify_map_eq; [|done]. split; [done|]. by intros _. Qed.

(** One list changes, and links of its own coroutines. *)
Lemma rep_change s a s' a' p l' :
  rep s a -> al_list a' = <[p := l']> (al_list a) -> al_timers a' = al_timers a ->
  lk_tnext s' = lk_tnext s -> lk_timers s' = lk_timers s ->
  (exists h, lk_head s' !! p = Some h /\ seg (lk_next s') h l' None) ->
  (is_queue p = true -> lk_tail s' !! p = Some (last l')) ->
  (forall q, q <> p -> lk_head s' !! q = lk_head s !! q /\ lk_tail s' !! q = lk_tail s !! q) ->
  (forall q k x, q <> p -> al_list a !! q = Some k -> x ∈ k -> lk_next s' !! x = lk_next s !! x) ->
  (forall x, is_Some (lk_next s' !! x) <-> is_Some (lk_next s !! x)) ->
  (forall x, is_Some (al_place a' !! x) <-> is_Some (al_place a !! x)) ->
  rep s' a'.
Proof.
  intros [R1 R2 R3 R4 R5] Hl Ht Htn Htm Hp Htl Hq Hx Hd Hda. split; rewrite ?Hl, ?Ht, ?Htn, ?Htm; [| |set_solver|set_solver|done].
  - intros q k. destruct (decide (p = q)) as [<-|]; simplify_map_eq; [naive_solver|].
    intros Hk. destruct (R1 q k Hk) as (h & Hh & Hs). exists h. destruct (Hq q) as [-> _]; [done|].
    split; [done|]. eapply seg_frame; [|done]. intros; by eapply Hx.
  - intros q k. destruct (decide (p = q)) as [<-|]; simplify_map_eq; [naive_solver|].
    intros Hk Hqq. destruct (Hq q) as [_ ->]; [done|]. by apply R2.
Qed.

Lemma set_next_some c v s : is_Some (lk_next s !! c) ->
  set_next c v s = Some (MkLinks (<[c := v]> (lk_next s)) (lk_tnext s) (lk_head s) (lk_tail s) (lk_timers s)).
Proof. intros [n Hn]. unfold set_next. rewrite Hn. done. Qed.

Lemma set_tnext_some c v s : is_Some (lk_tnext s !! c) ->
  set_tnext c v s = Some (MkLinks (lk_next s) (<[c := v]> (lk_tnext s)) (lk_head s) (lk_tail s) (lk_timers s)).
Proof. intros [n Hn]. unfold set_tnext. rewrite Hn. done. Qed.

(** The coroutine after [c], and the one put at the end. *)
Lemma rep_placed s a c : rep s a -> is_Some (al_place a !! c) -> is_Some (lk_next s !! c).
Proof. intros R H. by apply (rep_next s a R). Qed.

Lemma push_refines p c s a a' :
  links_rel s a -> a_push p c a = Some a' -> exists s', nb_wq_push p c s = Some s' /\ links_rel s' a'.
Proof.
  intros [R W] Ha. unfold a_push in Ha. simplify_option_eq. rename select (list nat) into l.
  assert (Hc : is_Some (lk_next s !! c)) by (apply (rep_next s a R); eauto).
  assert (Hcl : c ∉ l) by by eapply nowhere.
  destruct (rep_list s a R p l) as (h & Hh & Hs); [done|].
  unfold nb_wq_push. rewrite set_next_some by done. cbn [mbind option_bind lk_tail].
  rewrite (rep_tail s a R p l) by done. cbn [mbind option_bind].
  assert (Hwf : a_wf (MkALinks (<[p:=l ++ [c]]> (al_list a)) (al_timers a) (<[c:=Some p]> (al_place a)))).
  { eapply wf_put; try done. by rewrite Permutation_app_comm. }
  assert (Hdom : forall x, is_Some (<[c:=Some p]> (al_place a) !! x) <-> is_Some (al_place a !! x)).
  { intros x. apply is_Some_insert. eauto. }
  destruct (last l) as [t|] eqn:Hlast.
  - apply last_Some in Hlast as [l0 ->].
    assert (Ht : is_Some (lk_next s !! t)).
    { apply (rep_next s a R). exists (Some p). apply (wf_in a W p (l0 ++ [t])); set_solver. }
    rewrite set_next_some by (by apply is_Some_insert). cbn.
    eexists. split; [done|]. split; [|done].
    apply (rep_change s a _ _ p ((l0 ++ [t]) ++ [c])); cbn; try done.
    + exists h. split; [done|]. apply seg_app. exists (Some c). split.
      * apply (seg_redirect _ _ _ _ None); [by apply (wf_nodup a W p)|]. by apply seg_ext.
      * split; [done|]. exists None. rewrite lookup_insert_ne by set_solver. by rewrite lookup_insert_eq.
    + intros _. rewrite lookup_insert_eq, last_snoc. done.
    + intros q Hq. by rewrite lookup_insert_ne.
    + intros q k x Hq Hk Hx. rewrite !lookup_insert_ne; [done| |].
      * intros ->. by eapply (nowhere a x q).
      * intros ->. eapply (elsewhere a p q _ _ x); try done. set_solver.
    + intros x. rewrite !is_Some_insert; [done|done|]. by apply is_Some_insert.
  - apply last_None in Hlast as ->. cbn. eexists. split; [done|]. split; [|done].
    apply (rep_change s a _ _ p [c]); cbn; try done.
    + exists (Some c). rewrite lookup_insert_eq. split; [done|]. split; [done|].
      exists None. by rewrite lookup_insert_eq.
    + intros _. by rewrite lookup_insert_eq.
    + intros q Hq. by rewrite !lookup_insert_ne.
    + intros q k x Hq Hk Hx. rewrite lookup_insert_ne; [done|]. intros ->. by eapply (nowhere a x q).
    + intros x. by apply is_Some_insert.
Qed.

Lemma pop_refines p s a r a' :
  links_rel s a -> a_pop p a = Some (r, a') -> exists s', nb_wq_pop p s = Some (r, s') /\ links_rel s' a'.
Proof.
  intros [R W] Ha. unfold a_pop in Ha. simplify_option_eq. rename select (list nat) into l.
  destruct (rep_list s a R p l) as (h & Hh & Hs); [done|].
  unfold nb_wq_pop. rewrite Hh. cbn [mbind option_bind].
  destruct l as [|c l]; simplify_eq; [simpl in Hs; subst h; by eexists|].
  destruct Hs as (-> & n & Hn & Hs). rewrite Hn. cbn [mbind option_bind].
  assert (Hnd : NoDup (c :: l)) by by apply (wf_nodup a W p).
  assert (Hwf : a_wf (MkALinks (<[p:=l]> (al_list a)) (al_timers a) (<[c:=None]> (al_place a)))).
  { by eapply wf_take. }
  pose proof (rep_tail s a R p (c :: l)) as Htail.
  destruct l as [|d l].
  - simpl in Hs. subst n. rewrite set_next_some by (cbn; eauto). eexists. split; [done|]. split; [|done].
    apply (rep_change s a _ _ p []); cbn; try done.
    + exists None. by rewrite lookup_insert_eq.
    + intros _. by rewrite lookup_insert_eq.
    + intros q Hq. by rewrite !lookup_insert_ne.
    + intros q k x Hq Hk Hx. rewrite lookup_insert_ne; [done|]. intros ->.
      eapply (elsewhere a p q _ _ x); try done. set_solver.
    + intros x. apply is_Some_insert. eauto.
    + intros x. apply is_Some_insert. exists (Some p). apply (wf_in a W p [c]); set_solver.
  - pose proof Hs as [-> _]. rewrite set_next_some by (cbn; eauto). eexists. split; [done|]. split; [|done].
    apply (rep_change s a _ _ p (d :: l)); cbn -[last]; try done.
    + exists (Some d). rewrite lookup_insert_eq. split; [done|].
      apply NoDup_cons in Hnd as [Hcd _]. by apply (seg_ext _ c None _ (d :: l) None).
    + intros Hq. rewrite Htail by done. by rewrite last_cons_cons.
    + intros q Hq. by rewrite !lookup_insert_ne.
    + intros q k x Hq Hk Hx. rewrite lookup_insert_ne; [done|]. intros ->.
      eapply (elsewhere a p q _ _ x); try done. set_solver.
    + intros x. apply is_Some_insert. eauto.
    + intros x. apply is_Some_insert. exists (Some p). apply (wf_in a W p (c :: d :: l)); set_solver.
Qed.

Lemma head_refines p s a h :
  links_rel s a -> head <$> al_list a !! p = Some h -> lk_head s !! p = Some h.
Proof.
  intros [R W] Hh. destruct (al_list a !! p) as [l|] eqn:Hl; simplify_eq/=.
  destruct (rep_list s a R p l Hl) as (h & Hh & Hs). rewrite Hh.
  destruct l; simpl in *; [by subst|]. by destruct Hs as [-> _].
Qed.

(** [c] in front of list [p]. *)
Lemma cons_refines p c s a a' h :
  links_rel s a -> a_cons p c a = Some a' -> lk_head s !! p = Some h ->
  exists s1, set_next c h s = Some s1 /\ al_list a !! p <> None /\
    forall tl, (forall q, q <> p -> tl !! q = lk_tail s !! q) ->
      (is_queue p = true -> tl !! p = Some (last (c :: default [] (al_list a !! p)))) ->
      links_rel (MkLinks (lk_next s1) (lk_tnext s1) (<[p := Some c]> (lk_head s1)) tl (lk_timers s1)) a'.
Proof.
  intros [R W] Ha Hh. unfold a_cons in Ha. simplify_option_eq. rename select (list nat) into l.
  assert (Hc : is_Some (lk_next s !! c)) by (apply (rep_next s a R); eauto).
  destruct (rep_list s a R p l) as (h' & Hh' & Hs); [done|]. simplify_eq.
  rewrite set_next_some by done. eexists. split; [done|]. split; [done|]. cbn.
  intros tl Ho Ht. split; [|eapply wf_put; done].
  apply (rep_change s a _ _ p (c :: l)); cbn -[last]; try done.
  - exists (Some c). rewrite lookup_insert_eq. split; [done|]. split; [done|].
    exists h. rewrite lookup_insert_eq. split; [done|]. apply seg_ext; [by eapply nowhere|done].
  - intros q Hq. rewrite lookup_insert_ne by done. split; [done|]. by apply Ho.
  - intros q k x Hq Hk Hx. rewrite lookup_insert_ne; [done|]. intros ->. by eapply (nowhere a x q).
  - intros x. by apply is_Some_insert.
  - intros x. apply is_Some_insert. eauto.
Qed.

Lemma push_front_refines c s a a' :
  links_rel s a -> a_push_front c a = Some a' ->
  exists s', nb_rq_push_front c s = Some s' /\ links_rel s' a'.
Proof.
  intros HR Ha. pose proof HR as [R W].
  assert (exists l, al_list a !! PRun = Some l) as [l Hl].
  { unfold a_push_front, a_cons in Ha. simplify_option_eq. eauto. }
  destruct (rep_list s a R PRun l Hl) as (h & Hh & _).
  destruct (cons_refines PRun c s a a' h HR Ha Hh) as (s1 & Hs1 & _ & Hrel).
  unfold nb_rq_push_front. rewrite Hh. cbn [mbind option_bind]. rewrite Hs1. cbn [mbind option_bind].
  pose proof (rep_tail s a R PRun l Hl eq_refl) as Ht.
  assert (lk_tail s1 = lk_tail s) as Hst.
  { unfold set_next in Hs1. simplify_option_eq. done. }
  cbn. rewrite Hst, Ht. cbn. eexists. split; [done|].
  destruct (last l) as [t|] eqn:Hlast; unfold set_tail, set_head; cbn; rewrite ?Hst; apply Hrel.
  - done.
  - intros _. rewrite Ht, Hl. cbn -[last]. rewrite last_cons, Hlast. done.
  - intros q Hq. by rewrite lookup_insert_ne.
  - intros _. rewrite lookup_insert_eq, Hl. cbn -[last]. rewrite last_cons, Hlast. done.
Qed.

Lemma stack_refines p c s a a' :
  links_rel s a -> a_stack p c a = Some a' -> exists s', stack_push p c s = Some s' /\ links_rel s' a'.
Proof.
  intros HR Ha. unfold a_stack in Ha. simplify_option_eq. pose proof HR as [R W].
  assert (exists l, al_list a !! p = Some l) as [l Hl].
  { unfold a_cons in *. simplify_option_eq. eauto. }
  destruct (rep_list s a R p l Hl) as (h & Hh & _).
  destruct (cons_refines p c s a a' h HR ltac:(done) Hh) as (s1 & Hs1 & _ & Hrel).
  unfold stack_push. rewrite Hh. cbn [mbind option_bind]. rewrite Hs1. cbn [mbind option_bind].
  eexists. split; [done|]. apply Hrel; [|congruence].
  unfold set_next in Hs1. simplify_option_eq. done.
Qed.

(** [nb_wq_push] writes two links at most. *)
Lemma push_frame p c s s' tail x :
  nb_wq_push p c s = Some s' -> lk_tail s !! p = Some tail -> x <> c -> tail <> Some x ->
  lk_next s' !! x = lk_next s !! x.
Proof.
  unfold nb_wq_push, set_next. intros Hs Ht Hc Hx.
  destruct (lk_next s !! c); simplify_eq/=. rewrite Ht in Hs. cbn in Hs.
  destruct tail as [t|]; simplify_eq/=; [|by rewrite lookup_insert_ne].
  destruct (<[c:=None]> (lk_next s) !! t); simplify_eq/=. by rewrite !lookup_insert_ne by congruence.
Qed.

(** A detached list is queued. *)
Lemma wake_loop_refines f l w s a run :
  links_rel s a -> al_list a !! PRun = Some run -> seg (lk_next s) w l None -> NoDup l ->
  (forall c, c ∈ l -> al_place a !! c = Some None) -> (length l < f)%nat ->
  exists s', wake_loop f w s = Some (l, s') /\
    links_rel s' (MkALinks (<[PRun := run ++ l]> (al_list a)) (al_timers a) (all_run l (al_place a))).
Proof.
  revert f w s a run. induction l as [|c l IH]; intros f w s a run HR Hrun Hs Hnd Hpl Hf;
    (destruct f as [|f]; [simpl in Hf; lia|]); simpl.
  - simpl in Hs. subst w. eexists. split; [done|]. rewrite app_nil_r, insert_id by done. by destruct a.
  - destruct Hs as (-> & n & Hn & Hs). rewrite Hn. cbn [mbind option_bind].
    apply NoDup_cons in Hnd as [Hcl Hnd]. pose proof HR as [R W].
    rewrite set_next_some by eauto. cbn [mbind option_bind].
    assert (Hc : al_place a !! c = Some None) by (apply Hpl; left).
    set (s1 := MkLinks _ _ _ _ _).
    assert (HR1 : links_rel s1 a).
    { split; [|done]. apply (rep_change s a s1 a PRun run); try done; cbn.
      - by rewrite insert_id.
      - destruct (rep_list s a R PRun run Hrun) as (h & Hh & Hsg). exists h. split; [done|].
        apply seg_ext; [by eapply nowhere|done].
      - intros _. by apply (rep_tail s a R).
      - intros q k x Hq Hk Hx. rewrite lookup_insert_ne; [done|]. intros ->. by eapply (nowhere a x q).
      - intros x. apply is_Some_insert. eauto. }
    set (a1 := MkALinks (<[PRun := run ++ [c]]> (al_list a)) (al_timers a) (<[c := Some PRun]> (al_place a))).
    assert (Hpush : a_push PRun c a = Some a1).
    { unfold a_push. rewrite Hrun. cbn [mbind option_bind]. rewrite option_guard_True by done.
      cbn. done. }
    destruct (push_refines PRun c s1 a a1 HR1 Hpush) as (s2 & Hs2 & HR2). rewrite Hs2. cbn [mbind option_bind].
    assert (seg (lk_next s2) n l None) as Hs'.
    { eapply seg_frame; [|exact Hs]. intros x Hx.
      rewrite (push_frame _ _ _ _ _ x Hs2 (rep_tail s a R PRun run Hrun eq_refl)); cbn; [|congruence|].
      - rewrite lookup_insert_ne; [done|congruence].
      - intros [l0 ->]%last_Some. apply (nowhere a x PRun (l0 ++ [x])) in Hrun; [set_solver|done|].
        apply Hpl. by right. }
    destruct (IH f n s2 a1 (run ++ [c])) as (s3 & Hs3 & HR3); try done.
    + cbn. by rewrite lookup_insert_eq.
    + intros x Hx. cbn. rewrite lookup_insert_ne by congruence. apply Hpl. by right.
    + simpl in Hf. lia.
    + rewrite Hs3. cbn [mbind option_bind]. eexists. split; [done|].
      cbn in HR3. rewrite insert_insert_eq, <- app_assoc in HR3. simpl in HR3.
      replace (<[c:=Some PRun]> (all_run l (al_place a))) with (all_run l (<[c:=Some PRun]> (al_place a))); [done|].
      apply map_eq. intros x. rewrite all_run_lookup.
      destruct (decide (c = x)) as [->|].
      * rewrite decide_False by done. by rewrite !lookup_insert_eq.
      * rewrite !lookup_insert_ne by done. by rewrite all_run_lookup.
Qed.

Lemma dom_bound {A} (m : gmap nat A) l :
  NoDup l -> (forall c, c ∈ l -> is_Some (m !! c)) -> (length l <= size m)%nat.
Proof.
  intros Hnd Hl. rewrite <- size_dom. rewrite <- (size_list_to_set (C := gset nat) l) by done.
  apply subseteq_size. intros c Hc%elem_of_list_to_set. by apply elem_of_dom, Hl.
Qed.

(** The list [l] of [p] is cut off: its coroutines are nowhere. *)
Definition all_out (l : list nat) (pl : gmap nat (option place)) : gmap nat (option place) :=
  foldr (fun c m => <[c := None]> m) pl l.

Lemma all_out_lookup l pl x : all_out l pl !! x = if decide (x ∈ l) then Some None else pl !! x.
Proof.
  induction l as [|y l IH]; simpl; [done|].
  destruct (decide (y = x)) as [->|].
  - by rewrite lookup_insert_eq, decide_True by constructor.
  - rewrite lookup_insert_ne, IH by done. destruct (decide (x ∈ l)).
    + by rewrite decide_True by (by right).
    + rewrite decide_False by (rewrite elem_of_cons; naive_solver). done.
Qed.

Lemma wf_detach a p l :
  a_wf a -> al_list a !! p = Some l ->
  a_wf (MkALinks (<[p := []]> (al_list a)) (al_timers a) (all_out l (al_place a))).
Proof.
  intros W Hl. split; cbn.
  - intros q k. destruct (decide (p = q)) as [<-|]; simplify_map_eq; [|apply (wf_nodup a W)].
    intros [= <-]. constructor.
  - intros q k x. rewrite all_out_lookup. destruct (decide (p = q)) as [<-|]; simplify_map_eq.
    + intros [= <-]. rewrite elem_of_nil. destruct (decide (x ∈ l)) as [|Hx]; [naive_solver|].
      by rewrite (wf_in a W p l x Hl) in Hx.
    + intros Hk. rewrite (wf_in a W q k x Hk). destruct (decide (x ∈ l)) as [Hx|]; [|done].
      apply (wf_in a W p l x Hl) in Hx. naive_solver.
  - intros x q. rewrite all_out_lookup. destruct (decide (x ∈ l)); [done|].
    intros Hx. destruct (decide (p = q)) as [<-|]; simplify_map_eq; [done|by apply (wf_place a W x)].
  - apply (wf_timers a W).
  - intros x Hx. rewrite all_out_lookup. destruct (decide (x ∈ l)); [done|by apply (wf_timed a W)].
Qed.

Lemma detach_refines p s a l :
  links_rel s a -> al_list a !! p = Some l -> is_queue p = false ->
  links_rel (set_head p None s) (MkALinks (<[p := []]> (al_list a)) (al_timers a) (all_out l (al_place a))).
Proof.
  intros [R W] Hl Hq. split; [|by apply wf_detach].
  apply (rep_change s a _ _ p []); cbn; try done.
  - exists None. by rewrite lookup_insert_eq.
  - congruence.
  - intros q Hqp. by rewrite lookup_insert_ne.
  - intros x. rewrite all_out_lookup. destruct (decide (x ∈ l)) as [Hx|]; [|done].
    apply (wf_in a W p l x Hl) in Hx. rewrite Hx. split; intros _; eauto.
Qed.

Lemma wake_refines p s a r a' :
  links_rel s a -> a_wake p a = Some (r, a') -> exists s', wake_list p s = Some (r, s') /\ links_rel s' a'.
Proof.
  intros HR Ha. pose proof HR as [R W].
  unfold a_wake in Ha. destruct (al_list a !! p) as [l|] eqn:Hl; [|done]. cbn in Ha.
  case_guard as Hq; [|done]. cbn in Ha. destruct (al_list a !! PRun) as [run|] eqn:Hrun; simplify_eq/=.
  assert (Hne : p <> PRun) by (by intros ->).
  destruct (rep_list s a R p r Hl) as (h & Hh & Hs).
  unfold wake_list. rewrite Hh. cbn [mbind option_bind].
  pose proof (detach_refines p s a r HR Hl Hq) as HR0.
  destruct (wake_loop_refines (rounds (set_head p None s)) r h _ _ run HR0) as (s' & Hs' & HR'); try done.
  - cbn. by rewrite lookup_insert_ne.
  - by apply (wf_nodup a W p).
  - intros x Hx. cbn. rewrite all_out_lookup. by rewrite decide_True.
  - unfold rounds. cbn. apply Nat.lt_succ_r, dom_bound; [by apply (wf_nodup a W p)|].
    intros x Hx. apply (rep_next s a R). apply (wf_in a W p r x Hl) in Hx. eauto.
  - exists s'. split; [done|]. cbn in HR'.
    replace (all_run r (al_place a)) with (all_run r (all_out r (al_place a))); [done|].
    apply map_eq. intros x. rewrite !all_run_lookup, all_out_lookup. by destruct (decide (x ∈ r)).
Qed.

(** ** The timer list *)

Lemma link_get_seg s pre x : seg (lk_tnext s) (lk_timers s) pre x -> link_get (last pre) s = Some x.
Proof.
  destruct (last pre) as [t|] eqn:Hl; simpl.
  - apply last_Some in Hl as [l ->]. intros (y & _ & (-> & n & Hn & ->))%seg_app. done.
  - apply last_None in Hl as ->. by intros ->.
Qed.

(** [s'] is [s] with other timer links. *)
Definition timers_only (s s' : links) : Prop :=
  lk_next s' = lk_next s /\ lk_head s' = lk_head s /\ lk_tail s' = lk_tail s /\
  forall c, is_Some (lk_tnext s' !! c) <-> is_Some (lk_tnext s !! c).

Lemma timers_only_trans s1 s2 s3 : timers_only s1 s2 -> timers_only s2 s3 -> timers_only s1 s3.
Proof. intros (?&?&?&E1) (?&?&?&E2). split_and!; [congruence..|]. intros c. by rewrite E2, E1. Qed.

Lemma set_tnext_seg c v s h l e :
  is_Some (lk_tnext s !! c) -> c ∉ l -> seg (lk_tnext s) h l e ->
  exists s', set_tnext c v s = Some s' /\ timers_only s s' /\ lk_timers s' = lk_timers s /\
    seg (lk_tnext s') h l e /\ lk_tnext s' = <[c := v]> (lk_tnext s).
Proof.
  intros Hc Hn Hs. rewrite set_tnext_some by done. eexists. split; [done|]. split.
  { split_and!; [done..|]. intros x. by apply is_Some_insert. }
  split; [done|]. split; [by apply seg_ext|done].
Qed.

(** The link at the end of [pre] redirected to [v]. *)
Lemma link_set_seg s pre x v :
  NoDup pre -> seg (lk_tnext s) (lk_timers s) pre x ->
  exists s', link_set (last pre) v s = Some s' /\ timers_only s s' /\
    seg (lk_tnext s') (lk_timers s') pre v /\
    (forall c, c ∉ pre -> lk_tnext s' !! c = lk_tnext s !! c).
Proof.
  intros Hnd Hs. destruct (last pre) as [t|] eqn:Hl; simpl.
  - apply last_Some in Hl as [l ->]. pose proof Hs as (y & _ & (_ & n & Hn & _))%seg_app.
    rewrite set_tnext_some by eauto. eexists. split; [done|]. split.
    { split_and!; [done..|]. intros y'. apply is_Some_insert. eauto. }
    split; [by eapply seg_redirect|]. intros c Hc. cbn. rewrite lookup_insert_ne; [done|set_solver].
  - apply last_None in Hl as ->. eexists. split; [done|]. split; [done|]. split; [done|]. done.
Qed.

(** [c] is linked in between [pre] and [post]. *)
Lemma link_in s pre post c :
  NoDup (pre ++ post) -> c ∉ pre ++ post -> is_Some (lk_tnext s !! c) ->
  seg (lk_tnext s) (lk_timers s) (pre ++ post) None ->
  exists s1 s2, set_tnext c (head post) s = Some s1 /\ link_set (last pre) (Some c) s1 = Some s2 /\
    timers_only s s2 /\ seg (lk_tnext s2) (lk_timers s2) (pre ++ c :: post) None.
Proof.
  intros Hnd Hc Hdom Hs.
  destruct (set_tnext_seg c (head post) s _ _ _ Hdom Hc Hs) as (s1 & Hs1 & Ht1 & Htm & Hsg & Heq).
  apply NoDup_app in Hnd as (Hnd & Hdis & _). rewrite <- Htm in Hsg.
  apply seg_app in Hsg as (x & Hpre & Hpost).
  destruct (link_set_seg s1 pre x (Some c) Hnd Hpre) as (s2 & Hs2 & Ht2 & Hpre2 & Hout).
  exists s1, s2. split; [done|]. split; [done|]. split; [by eapply timers_only_trans|].
  apply seg_app. exists (Some c). split; [done|]. split; [done|]. exists (head post).
  rewrite Hout, Heq, lookup_insert_eq by set_solver. split; [done|].
  assert (x = head post) as -> by (destruct post; [done|by destruct Hpost as [-> _]]).
  eapply seg_frame; [|exact Hpost]. intros y Hy. apply Hout. set_solver.
Qed.

Lemma timer_add_spec f wake rest : forall pre c at_ s r,
  NoDup (pre ++ rest) -> c ∉ pre ++ rest -> is_Some (lk_tnext s !! c) ->
  seg (lk_tnext s) (lk_timers s) (pre ++ rest) None ->
  insert_timer wake c at_ rest = Some r -> (length rest < f)%nat ->
  exists s', timer_add_loop f wake (last pre) c at_ s = Some s' /\ timers_only s s' /\
    seg (lk_tnext s') (lk_timers s') (pre ++ r) None.
Proof.
  revert f. induction rest as [|t rest IH]; intros f pre c at_ s r Hnd Hc Hdom Hs Hr Hf;
    (destruct f as [|f]; [lia|]); simpl in *.
  - simplify_eq. rewrite (link_get_seg s pre None) by (by rewrite app_nil_r in Hs). cbn [mbind option_bind].
    destruct (link_in s pre [] c) as (s1 & s2 & Hs1 & H2 & ? & ?); try done.
    simpl in Hs1. rewrite Hs1. cbn [mbind option_bind]. eauto.
  - pose proof Hs as (x & Hpre & Hx)%seg_app. pose proof Hx as [-> _].
    rewrite (link_get_seg s pre _ Hpre). cbn [mbind option_bind].
    destruct (wake t) as [w|]; [|done]. cbn [mbind option_bind] in *.
    destruct (w <=? at_).
    + destruct (insert_timer wake c at_ rest) as [r'|] eqn:Hr'; [|done]. simplify_eq/=.
      destruct (IH f (pre ++ [t]) c at_ s r') as (s' & Hs' & Ht & Hseg); rewrite <- ?app_assoc; try done.
      * lia.
      * rewrite last_snoc in Hs'. rewrite <- app_assoc in Hseg. eauto.
    + simplify_eq. destruct (link_in s pre (t :: rest) c) as (s1 & s2 & Hs1 & H2 & ? & ?); try done.
      simpl in Hs1. rewrite Hs1. cbn [mbind option_bind]. eauto.
Qed.

Lemma filter_absent (c : nat) (l : list nat) : c ∉ l -> filter (fun t => t <> c) l = l.
Proof.
  induction l as [|y l IH]; intros Hc; [done|]. rewrite filter_cons, decide_True, IH by set_solver. done.
Qed.

Lemma timer_remove_spec f rest : forall pre c s,
  NoDup (pre ++ rest) -> c ∉ pre -> seg (lk_tnext s) (lk_timers s) (pre ++ rest) None ->
  (length rest < f)%nat ->
  exists s', timer_remove_loop f (last pre) c s = Some s' /\ timers_only s s' /\
    seg (lk_tnext s') (lk_timers s') (pre ++ filter (fun t => t <> c) rest) None.
Proof.
  revert f. induction rest as [|t rest IH]; intros f pre c s Hnd Hc Hs Hf;
    (destruct f as [|f]; [simpl in Hf; lia|]); cbn [timer_remove_loop].
  - rewrite (link_get_seg s pre None) by (by rewrite app_nil_r in Hs). cbn [mbind option_bind].
    eexists. split; [done|]. split; [|done]. by split_and!.
  - pose proof Hs as (x & Hpre & Hx)%seg_app. pose proof Hx as (-> & n & Hn & Hrest).
    rewrite (link_get_seg s pre _ Hpre). cbn [mbind option_bind]. rewrite filter_cons.
    assert (Hnd' := Hnd). apply NoDup_app in Hnd' as (Hpnd & Hdis & (Ht & Hrnd)%NoDup_cons).
    destruct (Nat.eqb_spec t c) as [->|Hne].
    + rewrite decide_False by naive_solver. rewrite Hn. cbn [mbind option_bind].
      destruct (link_set_seg s pre (Some c) n Hpnd Hpre) as (s1 & -> & Ht1 & Hpre1 & Hout). cbn [mbind option_bind].
      destruct (set_tnext_seg c None s1 (lk_timers s1) pre n) as (s2 & -> & Ht2 & Htm & Hsg & Heq); [|done|done|].
      { destruct Ht1 as (_ & _ & _ & Hd). apply Hd. eauto. }
      eexists. split; [done|]. split; [by eapply timers_only_trans|].
      rewrite filter_absent by done.
      apply seg_app. exists n. rewrite Htm. split; [done|].
      eapply seg_frame; [|exact Hrest]. intros y Hy. rewrite Heq, lookup_insert_ne by set_solver.
      apply Hout. set_solver.
    + rewrite decide_True by done.
      destruct (IH f (pre ++ [t]) c s) as (s' & Hs' & Ht' & Hseg); rewrite <- ?app_assoc; try done.
      * set_solver.
      * simpl in Hf. lia.
      * rewrite last_snoc in Hs'. rewrite <- app_assoc in Hseg. eauto.
Qed.

(** Only the timers changed. *)
Lemma rep_timers_only s s' a l :
  links_rel s a -> timers_only s s' -> seg (lk_tnext s') (lk_timers s') l None ->
  NoDup l -> (forall c, c ∈ l -> is_Some (al_place a !! c)) ->
  links_rel s' (MkALinks (al_list a) l (al_place a)).
Proof.
  intros [[R1 R2 R3 R4 R5] W] (E1 & E2 & E3 & E4) Hs Hnd Hin. split; [|by apply wf_set_timers].
  split; cbn; rewrite ?E1, ?E2, ?E3; try done. intros c. by rewrite E4.
Qed.

Lemma insert_timer_perm wake c at_ l r : insert_timer wake c at_ l = Some r -> r ≡ₚ c :: l.
Proof.
  revert r. induction l as [|t l IH]; intros r; simpl; [by intros [= <-]|].
  destruct (wake t) as [w|]; [|done]. cbn. destruct (w <=? at_); [|by intros [= <-]].
  destruct (insert_timer wake c at_ l) as [r'|]; [|done]. cbn. intros [= <-].
  rewrite (IH r' eq_refl). constructor.
Qed.

Lemma timer_fuel s a : links_rel s a -> (length (al_timers a) < rounds s)%nat.
Proof.
  intros [R W]. apply Nat.lt_succ_r, dom_bound; [apply (wf_timers a W)|].
  intros c Hc. apply (rep_next s a R), (wf_timed a W), Hc.
Qed.

Lemma timer_add_refines wake c at_ s a a' :
  links_rel s a -> a_timer_add wake c at_ a = Some a' ->
  exists s', nb_timer_add wake c at_ s = Some s' /\ links_rel s' a'.
Proof.
  intros HR Ha. pose proof HR as [R W]. unfold a_timer_add in Ha. simplify_option_eq.
  rename select (insert_timer _ _ _ _ = Some _) into Hins.
  destruct (timer_add_spec (rounds s) wake (al_timers a) [] c at_ s _
    (wf_timers a W) ltac:(done) (proj2 (rep_tnext s a R c) ltac:(done)) (rep_timers s a R) Hins (timer_fuel s a HR))
    as (s' & Hs' & Ht & Hseg).
  pose proof (insert_timer_perm _ _ _ _ _ Hins) as Hp.
  exists s'. split; [done|]. apply (rep_timers_only s); try done.
  - rewrite Hp. constructor; [done|apply (wf_timers a W)].
  - intros x. rewrite Hp. intros [->|Hx]%elem_of_cons; [done|by apply (wf_timed a W)].
Qed.

Lemma timer_remove_refines c s a a' :
  links_rel s a -> a_timer_remove c a = Some a' ->
  exists s', nb_timer_remove c s = Some s' /\ links_rel s' a'.
Proof.
  intros HR Ha. pose proof HR as [R W]. unfold a_timer_remove in Ha. simplify_eq.
  destruct (timer_remove_spec (rounds s) (al_timers a) [] c s) as (s' & Hs' & Ht & Hseg);
    [apply (wf_timers a W)|set_solver|apply (rep_timers s a R)|by apply timer_fuel|].
  exists s'. split; [done|]. apply (rep_timers_only s); try done.
  - apply NoDup_filter, (wf_timers a W).
  - intros x [_ Hx]%list_elem_of_filter. by apply (wf_timed a W).
Qed.

Lemma timer_pop_refines s a a' :
  links_rel s a -> a_timer_pop a = Some a' -> exists s', timer_pop s = Some s' /\ links_rel s' a'.
Proof.
  intros HR Ha. pose proof HR as [R W]. unfold a_timer_pop in Ha.
  pose proof (rep_timers s a R) as Hs. pose proof (wf_timers a W) as Hnd. pose proof (wf_timed a W) as Hin.
  destruct (al_timers a) as [|c l]; simplify_eq. destruct Hs as (Hc & n & Hn & Hs).
  apply NoDup_cons in Hnd as [Hcl Hnd].
  unfold timer_pop. rewrite Hc. cbn [mbind option_bind]. rewrite Hn. cbn [mbind option_bind].
  rewrite set_tnext_some by (cbn; eauto). eexists. split; [done|].
  apply (rep_timers_only s); try done; cbn.
  - split_and!; [done..|]. intros x. apply is_Some_insert. eauto.
  - by apply seg_ext.
  - intros x Hx. apply Hin. by right.
Qed.

(** ** Making and freeing *)

Lemma make_refines p s a a' :
  links_rel s a -> a_make p a = Some a' -> exists s', make_queue p s = Some s' /\ links_rel s' a'.
Proof.
  intros [R W] Ha.
  assert (is_queue p = true /\ (al_list a !! p = None \/ al_list a !! p = Some []) /\
          a' = MkALinks (<[p := []]> (al_list a)) (al_timers a) (al_place a)) as (Hqp & Hp & ->).
  { unfold a_make in Ha. simplify_option_eq; auto. }
  eexists. split; [done|]. split; [|by apply wf_make].
  apply (rep_change s a _ _ p []); cbn; try done.
  - exists None. by rewrite lookup_insert_eq.
  - intros _. by rewrite lookup_insert_eq.
  - intros q Hq. by rewrite !lookup_insert_ne.
Qed.

Lemma alloc_refines c s a a' :
  links_rel s a -> a_alloc c a = Some a' -> exists s', alloc_coro c s = Some s' /\ links_rel s' a'.
Proof.
  intros [[R1 R2 R3 R4 R5] W] Ha. unfold a_alloc in Ha. simplify_option_eq. eexists. split; [done|].
  assert (Hnc : forall x, is_Some (al_place a !! x) -> x <> c) by (intros x [? ?]; congruence).
  split; [split; cbn|].
  - intros q k. destruct (decide (PJoin c = q)) as [<-|]; simplify_map_eq; [intros [= <-]; by exists None|].
    intros Hk. destruct (R1 q k Hk) as (h & Hh & Hs). exists h. split; [done|].
    apply seg_ext; [|done]. intros Hx. apply (Hnc c); [|done]. exists (Some q). by apply (wf_in a W q k).
  - intros q k. destruct (decide (PJoin c = q)) as [<-|]; simplify_map_eq; [done|]. apply R2.
  - intros x. destruct (decide (c = x)) as [->|]; simplify_map_eq; [split; eauto|done].
  - intros x. destruct (decide (c = x)) as [->|]; simplify_map_eq; [split; eauto|done].
  - apply seg_ext; [|done]. intros Hx. by apply (Hnc c); [apply (wf_timed a W)|].
  - exact (wf_make (MkALinks (al_list a) (al_timers a) (<[c:=None]> (al_place a))) (PJoin c) (wf_new a c W ltac:(done)) ltac:(by left)).
Qed.

Lemma free_refines c s a a' :
  links_rel s a -> a_free c a = Some a' -> exists s', free_coro c s = Some s' /\ links_rel s' a'.
Proof.
  intros [[R1 R2 R3 R4 R5] W] Ha. unfold a_free in Ha. simplify_option_eq.
  assert (is_Some (lk_next s !! c)) as [n Hn] by (apply R3; eauto).
  unfold free_coro. rewrite Hn. cbn. eexists. split; [done|].
  split; [split; cbn|].
  - intros q k Hk. destruct (decide (PJoin c = q)) as [<-|]; simplify_map_eq.
    destruct (R1 q k Hk) as (h & Hh & Hs). exists h. split; [done|].
    eapply seg_frame; [|done]. intros x Hx. apply lookup_delete_ne. intros ->. by eapply (nowhere a x q).
  - intros q k Hk. destruct (decide (PJoin c = q)) as [<-|]; simplify_map_eq. by apply R2.
  - intros x. destruct (decide (c = x)) as [->|]; simplify_map_eq; [|done]. split; intros [? ?]; done.
  - intros x. destruct (decide (c = x)) as [->|]; simplify_map_eq; [|done]. split; intros [? ?]; done.
  - eapply seg_frame; [|done]. intros x Hx. apply lookup_delete_ne. congruence.
  - exact (wf_drop (MkALinks (al_list a) (al_timers a) (delete c (al_place a))) (PJoin c) (wf_gone a c W ltac:(done) ltac:(done)) ltac:(by right)).
Qed.

(** ** The interface's promise *)

(** Whatever the second implementation answers, the first one answers, and the
    two stay related. *)
Class LinksSim {L1 L2} `{Links L1, Links L2} (R : L1 -> L2 -> Prop) := {
  sim_push p c s a a' : R s a -> l_push p c a = Some a' -> exists s', l_push p c s = Some s' /\ R s' a';
  sim_pop p s a r a' : R s a -> l_pop p a = Some (r, a') -> exists s', l_pop p s = Some (r, s') /\ R s' a';
  sim_head p s a h : R s a -> l_head p a = Some h -> l_head p s = Some h;
  sim_push_front c s a a' : R s a -> l_push_front c a = Some a' -> exists s', l_push_front c s = Some s' /\ R s' a';
  sim_stack p c s a a' : R s a -> l_stack p c a = Some a' -> exists s', l_stack p c s = Some s' /\ R s' a';
  sim_wake p s a r a' : R s a -> l_wake p a = Some (r, a') -> exists s', l_wake p s = Some (r, s') /\ R s' a';
  sim_timer_add w c at_ s a a' :
    R s a -> l_timer_add w c at_ a = Some a' -> exists s', l_timer_add w c at_ s = Some s' /\ R s' a';
  sim_timer_remove c s a a' :
    R s a -> l_timer_remove c a = Some a' -> exists s', l_timer_remove c s = Some s' /\ R s' a';
  sim_timer_head s a : R s a -> l_timer_head s = l_timer_head a;
  sim_timer_pop s a a' : R s a -> l_timer_pop a = Some a' -> exists s', l_timer_pop s = Some s' /\ R s' a';
  sim_make p s a a' : R s a -> l_make p a = Some a' -> exists s', l_make p s = Some s' /\ R s' a';
  sim_alloc c s a a' : R s a -> l_alloc c a = Some a' -> exists s', l_alloc c s = Some s' /\ R s' a';
  sim_free c s a a' : R s a -> l_free c a = Some a' -> exists s', l_free c s = Some s' /\ R s' a'
}.

#[export] Instance pointers_implement_lists : LinksSim links_rel.
Proof.
  split; cbn.
  - exact push_refines.
  - exact pop_refines.
  - exact head_refines.
  - exact push_front_refines.
  - exact stack_refines.
  - exact wake_refines.
  - exact timer_add_refines.
  - exact timer_remove_refines.
  - intros s a [R W]. pose proof (rep_timers s a R) as Hs. destruct (al_timers a); [done|by destruct Hs as [-> _]].
  - exact timer_pop_refines.
  - exact make_refines.
  - exact alloc_refines.
  - exact free_refines.
Qed.

(** Before anything happens: empty run queue, nobody waits for the fibers, and
    the node of the main context. *)
Definition links_start : links :=
  MkLinks {[0%nat := None]} {[0%nat := None]} {[PRun := None; PDrain := None; PJoin 0 := None]} {[PRun := None]} None.
Definition alinks_start : alinks :=
  MkALinks {[PRun := []; PDrain := []; PJoin 0 := []]} [] {[0%nat := None]}.

Lemma start_refines : links_rel links_start alinks_start.
Proof.
  assert (Hlist : forall p l, al_list alinks_start !! p = Some l -> l = [] /\ (p = PRun \/ p = PDrain \/ p = PJoin 0)).
  { unfold alinks_start. simpl al_list. intros p l.
    intros [[<- <-]|[_ [[<- <-]|[_ [<- <-]%lookup_singleton_Some]]%lookup_insert_Some]]%lookup_insert_Some; auto. }
  split; split.
  - intros p l Hl. destruct (Hlist p l Hl) as [-> [-> |[-> | ->]]]; by exists None.
  - intros p l Hl. destruct (Hlist p l Hl) as [-> [-> |[-> | ->]]]; done.
  - intros c. cbn. rewrite !lookup_singleton. by case_decide.
  - intros c. cbn. rewrite !lookup_singleton. by case_decide.
  - done.
  - intros p l Hl. destruct (Hlist p l Hl) as [-> _]. constructor.
  - intros p l c Hl. destruct (Hlist p l Hl) as [-> _]. rewrite elem_of_nil. cbn.
    rewrite lookup_singleton. case_decide; naive_solver.
  - intros c p. cbn. rewrite lookup_singleton. case_decide; naive_solver.
  - constructor.
  - intros c. cbn. by intros ?%not_elem_of_nil.
Qed.
