(* ===== verification/Sched.v ===== *)
(** The cooperative scheduler of the freestanding runtime,
    [src/unikernel/runtime_bare.c]: coroutines, the run queue, timers, mutexes,
    condition variables, reader/writer locks, join and detach, park and unpark.

    The handlers are written over the interface [Links] of the queues, so the
    same text runs on the source's pointers and on plain lists.  The rest of a
    coroutine's block is an [NbCoro]; a coroutine is named by the number of its
    allocation, a dereference of one that has been freed makes the call [None].
    Number 0 is [nb_rw_main], the node that stands for the main context in the
    queue of a reader/writer lock.

    A context switch returns control to the scheduler's loop: what a parked
    coroutine does when it is resumed is its [cont], what the main context is
    blocked in is [nb_main].  A call of the main context that drives the
    scheduler sets [nb_main]; [main_iterate] is one round of its loop. *)

From S2P Require Import Prelude SchedLinks.

Inductive NbState := NB_RUNNABLE | NB_RUNNING | NB_PARKED | NB_DONE.

#[export] Instance NbState_eq_dec : EqDecision NbState.
Proof. solve_decision. Defined.

(** The rest of a call that parked, run when the coroutine is resumed. *)
Inductive cont :=
| KUser                          (* the call returns *)
| KMutexLock (m : nat)           (* the loop of pthread_mutex_lock *)
| KRwWait (l : nat) (want : Z)   (* the loop of nb_rw_wait and what follows it *)
| KJoin (c : nat)                (* nb_join after its park *)
| KRun                           (* the loop of nurl_runtime_run *)
| KParkMs (ms : Z).              (* the end of the timed parks *)

(** What the main context is blocked in. *)
Inductive main_k :=
| MUser
| MMutexLock (m : nat)
| MCondWait (k : nat) (seq : Z) (m : nat)
| MCondWaitMs (k : nat) (seq : Z) (m : nat) (deadline : Z)
| MRwWait (l : nat) (want : Z)
| MJoin (c : nat)
| MRun
| MSleep (deadline : Z)
| MAborted.

Record NbCoro := MkCoro {
  c_owns_env : bool;
  c_env : bool;
  c_state : NbState;
  c_wake_at_ms : Z;
  c_joinable : bool;
  c_finished : bool;
  c_pending_unlock : option nat;
  c_last_park_result : Z;
  c_wake_pending : bool;
  c_is_fiber : bool;
  c_rw_want : Z;
  c_rwh : list (nat * Z);
  c_cont : cont
}.

Definition set_c_owns_env (v : bool) (x : NbCoro) : NbCoro :=
  MkCoro v (c_env x) (c_state x) (c_wake_at_ms x) (c_joinable x) (c_finished x) (c_pending_unlock x) (c_last_park_result x) (c_wake_pending x) (c_is_fiber x) (c_rw_want x) (c_rwh x) (c_cont x).
Definition set_c_env (v : bool) (x : NbCoro) : NbCoro :=
  MkCoro (c_owns_env x) v (c_state x) (c_wake_at_ms x) (c_joinable x) (c_finished x) (c_pending_unlock x) (c_last_park_result x) (c_wake_pending x) (c_is_fiber x) (c_rw_want x) (c_rwh x) (c_cont x).
Definition set_c_state (v : NbState) (x : NbCoro) : NbCoro :=
  MkCoro (c_owns_env x) (c_env x) v (c_wake_at_ms x) (c_joinable x) (c_finished x) (c_pending_unlock x) (c_last_park_result x) (c_wake_pending x) (c_is_fiber x) (c_rw_want x) (c_rwh x) (c_cont x).
Definition set_c_wake_at_ms (v : Z) (x : NbCoro) : NbCoro :=
  MkCoro (c_owns_env x) (c_env x) (c_state x) v (c_joinable x) (c_finished x) (c_pending_unlock x) (c_last_park_result x) (c_wake_pending x) (c_is_fiber x) (c_rw_want x) (c_rwh x) (c_cont x).
Definition set_c_joinable (v : bool) (x : NbCoro) : NbCoro :=
  MkCoro (c_owns_env x) (c_env x) (c_state x) (c_wake_at_ms x) v (c_finished x) (c_pending_unlock x) (c_last_park_result x) (c_wake_pending x) (c_is_fiber x) (c_rw_want x) (c_rwh x) (c_cont x).
Definition set_c_finished (v : bool) (x : NbCoro) : NbCoro :=
  MkCoro (c_owns_env x) (c_env x) (c_state x) (c_wake_at_ms x) (c_joinable x) v (c_pending_unlock x) (c_last_park_result x) (c_wake_pending x) (c_is_fiber x) (c_rw_want x) (c_rwh x) (c_cont x).
Definition set_c_pending_unlock (v : option nat) (x : NbCoro) : NbCoro :=
  MkCoro (c_owns_env x) (c_env x) (c_state x) (c_wake_at_ms x) (c_joinable x) (c_finished x) v (c_last_park_result x) (c_wake_pending x) (c_is_fiber x) (c_rw_want x) (c_rwh x) (c_cont x).
Definition set_c_last_park_result (v : Z) (x : NbCoro) : NbCoro :=
  MkCoro (c_owns_env x) (c_env x) (c_state x) (c_wake_at_ms x) (c_joinable x) (c_finished x) (c_pending_unlock x) v (c_wake_pending x) (c_is_fiber x) (c_rw_want x) (c_rwh x) (c_cont x).
Definition set_c_wake_pending (v : bool) (x : NbCoro) : NbCoro :=
  MkCoro (c_owns_env x) (c_env x) (c_state x) (c_wake_at_ms x) (c_joinable x) (c_finished x) (c_pending_unlock x) (c_last_park_result x) v (c_is_fiber x) (c_rw_want x) (c_rwh x) (c_cont x).
Definition set_c_is_fiber (v : bool) (x : NbCoro) : NbCoro :=
  MkCoro (c_owns_env x) (c_env x) (c_state x) (c_wake_at_ms x) (c_joinable x) (c_finished x) (c_pending_unlock x) (c_last_park_result x) (c_wake_pending x) v (c_rw_want x) (c_rwh x) (c_cont x).
Definition set_c_rw_want (v : Z) (x : NbCoro) : NbCoro :=
  MkCoro (c_owns_env x) (c_env x) (c_state x) (c_wake_at_ms x) (c_joinable x) (c_finished x) (c_pending_unlock x) (c_last_park_result x) (c_wake_pending x) (c_is_fiber x) v (c_rwh x) (c_cont x).
Definition set_c_rwh (v : list (nat * Z)) (x : NbCoro) : NbCoro :=
  MkCoro (c_owns_env x) (c_env x) (c_state x) (c_wake_at_ms x) (c_joinable x) (c_finished x) (c_pending_unlock x) (c_last_park_result x) (c_wake_pending x) (c_is_fiber x) (c_rw_want x) v (c_cont x).
Definition set_c_cont (v : cont) (x : NbCoro) : NbCoro :=
  MkCoro (c_owns_env x) (c_env x) (c_state x) (c_wake_at_ms x) (c_joinable x) (c_finished x) (c_pending_unlock x) (c_last_park_result x) (c_wake_pending x) (c_is_fiber x) (c_rw_want x) (c_rwh x) v.

Record NbCond := MkCond {
  k_seq : Z;
  k_main_waiters : Z
}.

Definition set_k_seq (v : Z) (x : NbCond) : NbCond :=
  MkCond v (k_main_waiters x).
Definition set_k_main_waiters (v : Z) (x : NbCond) : NbCond :=
  MkCond (k_seq x) v.

Record NbRw := MkRw {
  r_readers : Z;
  r_writing : bool;
  r_writer : option nat
}.

Definition set_r_readers (v : Z) (x : NbRw) : NbRw :=
  MkRw v (r_writing x) (r_writer x).
Definition set_r_writing (v : bool) (x : NbRw) : NbRw :=
  MkRw (r_readers x) v (r_writer x).
Definition set_r_writer (v : option nat) (x : NbRw) : NbRw :=
  MkRw (r_readers x) (r_writing x) v.

Record core := MkCore {
  nb_coros : gmap nat NbCoro;
  nb_current : option nat;
  nb_live : Z;
  nb_fibers_live : Z;
  nb_initialized : bool;
  nb_live_coros : Z;
  nb_mutexes : gmap nat bool;
  nb_conds : gmap nat NbCond;
  nb_rws : gmap nat NbRw;
  nb_drive_depth : Z;
  nb_clock : Z;
  nb_main : main_k;
  nb_next_id : nat
}.

Definition set_nb_coros (v : gmap nat NbCoro) (x : core) : core :=
  MkCore v (nb_current x) (nb_live x) (nb_fibers_live x) (nb_initialized x) (nb_live_coros x) (nb_mutexes x) (nb_conds x) (nb_rws x) (nb_drive_depth x) (nb_clock x) (nb_main x) (nb_next_id x).
Definition set_nb_current (v : option nat) (x : core) : core :=
  MkCore (nb_coros x) v (nb_live x) (nb_fibers_live x) (nb_initialized x) (nb_live_coros x) (nb_mutexes x) (nb_conds x) (nb_rws x) (nb_drive_depth x) (nb_clock x) (nb_main x) (nb_next_id x).
Definition set_nb_live (v : Z) (x : core) : core :=
  MkCore (nb_coros x) (nb_current x) v (nb_fibers_live x) (nb_initialized x) (nb_live_coros x) (nb_mutexes x) (nb_conds x) (nb_rws x) (nb_drive_depth x) (nb_clock x) (nb_main x) (nb_next_id x).
Definition set_nb_fibers_live (v : Z) (x : core) : core :=
  MkCore (nb_coros x) (nb_current x) (nb_live x) v (nb_initialized x) (nb_live_coros x) (nb_mutexes x) (nb_conds x) (nb_rws x) (nb_drive_depth x) (nb_clock x) (nb_main x) (nb_next_id x).
Definition set_nb_initialized (v : bool) (x : core) : core :=
  MkCore (nb_coros x) (nb_current x) (nb_live x) (nb_fibers_live x) v (nb_live_coros x) (nb_mutexes x) (nb_conds x) (nb_rws x) (nb_drive_depth x) (nb_clock x) (nb_main x) (nb_next_id x).
Definition set_nb_live_coros (v : Z) (x : core) : core :=
  MkCore (nb_coros x) (nb_current x) (nb_live x) (nb_fibers_live x) (nb_initialized x) v (nb_mutexes x) (nb_conds x) (nb_rws x) (nb_drive_depth x) (nb_clock x) (nb_main x) (nb_next_id x).
Definition set_nb_mutexes (v : gmap nat bool) (x : core) : core :=
  MkCore (nb_coros x) (nb_current x) (nb_live x) (nb_fibers_live x) (nb_initialized x) (nb_live_coros x) v (nb_conds x) (nb_rws x) (nb_drive_depth x) (nb_clock x) (nb_main x) (nb_next_id x).
Definition set_nb_conds (v : gmap nat NbCond) (x : core) : core :=
  MkCore (nb_coros x) (nb_current x) (nb_live x) (nb_fibers_live x) (nb_initialized x) (nb_live_coros x) (nb_mutexes x) v (nb_rws x) (nb_drive_depth x) (nb_clock x) (nb_main x) (nb_next_id x).
Definition set_nb_rws (v : gmap nat NbRw) (x : core) : core :=
  MkCore (nb_coros x) (nb_current x) (nb_live x) (nb_fibers_live x) (nb_initialized x) (nb_live_coros x) (nb_mutexes x) (nb_conds x) v (nb_drive_depth x) (nb_clock x) (nb_main x) (nb_next_id x).
Definition set_nb_drive_depth (v : Z) (x : core) : core :=
  MkCore (nb_coros x) (nb_current x) (nb_live x) (nb_fibers_live x) (nb_initialized x) (nb_live_coros x) (nb_mutexes x) (nb_conds x) (nb_rws x) v (nb_clock x) (nb_main x) (nb_next_id x).
Definition set_nb_clock (v : Z) (x : core) : core :=
  MkCore (nb_coros x) (nb_current x) (nb_live x) (nb_fibers_live x) (nb_initialized x) (nb_live_coros x) (nb_mutexes x) (nb_conds x) (nb_rws x) (nb_drive_depth x) v (nb_main x) (nb_next_id x).
Definition set_nb_main (v : main_k) (x : core) : core :=
  MkCore (nb_coros x) (nb_current x) (nb_live x) (nb_fibers_live x) (nb_initialized x) (nb_live_coros x) (nb_mutexes x) (nb_conds x) (nb_rws x) (nb_drive_depth x) (nb_clock x) v (nb_next_id x).
Definition set_nb_next_id (v : nat) (x : core) : core :=
  MkCore (nb_coros x) (nb_current x) (nb_live x) (nb_fibers_live x) (nb_initialized x) (nb_live_coros x) (nb_mutexes x) (nb_conds x) (nb_rws x) (nb_drive_depth x) (nb_clock x) (nb_main x) v.

Definition NB_RW_READ : Z := 1.
Definition NB_RW_WRITE : Z := 2.
Definition rw_main_node : nat := 0.

(** ** Runs *)

(** The calls of the runtime, of a coroutine or of the main context. *)
Inductive call :=
| CMutexInit (m : nat) | CMutexLock (m : nat) | CMutexTrylock (m : nat) | CMutexUnlock (m : nat) | CMutexDestroy (m : nat)
| CCondInit (k : nat) | CCondWait (k m : nat) | CCondWaitMs (k m : nat) (ms : Z) | CCondSignal (k : nat)
| CCondBroadcast (k : nat) | CCondDestroy (k : nat)
| CRwInit (l : nat) | CRdlock (l : nat) | CRdunlock (l : nat) | CWrlock (l : nat) | CWrunlock (l : nat)
| CTryrdlock (l : nat) | CTrywrlock (l : nat)
| CCreate (mem : bool) | CCreateOwned (mem : bool) | CSpawn (mem : bool) | CSpawnOwned (mem : bool) | CSpawnJoinable (mem : bool)
| CJoin (c : nat) | CDetach (c : nat) | CFiberJoin (c : nat) | CFiberDetach (c : nat) | CExit
| CInit | CRun | CYield
| CPark (m : option nat) | CParkMs (m : option nat) (ms : Z) | CBareParkMs (ms : Z)
| CUnpark (c : nat) | CUnparkAdmit (c : nat) | CWake (c : nat) | CSleepMs (ms : Z) | CPoll.

Inductive event := ECall (k : call) | EEnd | EMain | ETick (ms : nat).

Section handlers.
Context {L : Type} `{Links L}.

(** ** The calls' monad: the state, and [None] for a fault *)

Definition M (A : Type) : Type := core * L -> option (A * (core * L)).

#[global] Instance M_ret : MRet M := fun A x s => Some (x, s).
#[global] Instance M_bind : MBind M := fun A B k m s =>
  match m s with Some (x, s') => k x s' | None => None end.

Definition gets {A} (f : core -> A) : M A := fun s => Some (f s.1, s).
Definition modify (f : core -> core) : M unit := fun s => Some (tt, (f s.1, s.2)).
Definition fault {A} : M A := fun _ => None.

(** A dereference. *)
Definition deref {V} (f : core -> gmap nat V) (i : nat) : M V :=
  fun s => match f s.1 !! i with Some r => Some (r, s) | None => None end.

(** An operation of the queues. *)
Definition on_links (f : L -> option L) : M unit :=
  fun s => match f s.2 with Some l => Some (tt, (s.1, l)) | None => None end.
Definition of_links {A} (f : L -> option (A * L)) : M A :=
  fun s => match f s.2 with Some (x, l) => Some (x, (s.1, l)) | None => None end.
Definition see_links {A} (f : L -> option A) : M A :=
  fun s => match f s.2 with Some x => Some (x, s) | None => None end.

(** [*p] *)
Definition coro (c : nat) : M NbCoro := deref nb_coros c.
Definition mutex (m : nat) : M bool := deref nb_mutexes m.
Definition cond (k : nat) : M NbCond := deref nb_conds k.
Definition rwl (l : nat) : M NbRw := deref nb_rws l.

Definition put_coro (c : nat) (r : NbCoro) : M unit := modify (fun s => set_nb_coros (<[c := r]> (nb_coros s)) s).
Definition put_mutex (m : nat) (locked : bool) : M unit := modify (fun s => set_nb_mutexes (<[m := locked]> (nb_mutexes s)) s).
Definition put_cond (k : nat) (r : NbCond) : M unit := modify (fun s => set_nb_conds (<[k := r]> (nb_conds s)) s).
Definition put_rw (l : nat) (r : NbRw) : M unit := modify (fun s => set_nb_rws (<[l := r]> (nb_rws s)) s).

(** [c->field = v;] *)
Definition upd_coro (c : nat) (f : NbCoro -> NbCoro) : M unit := r ← coro c; put_coro c (f r).

(** The clock, and a sleep that lasts what was asked. *)
Definition nb_now_ms : M Z := gets nb_clock.
Definition nb_sleep_ms (ms : Z) : M unit :=
  if ms <=? 0 then mret tt else modify (fun s => set_nb_clock (nb_clock s + ms) s).

(** More rounds than any list has elements. *)
Definition coro_rounds : M nat := gets (fun s => S (size (nb_coros s))).

(** ** The run queue *)

Definition push_queue (p : place) (c : nat) : M unit := on_links (l_push p c).
Definition pop_queue (p : place) : M (option nat) := of_links (l_pop p).
Definition queue_head (p : place) : M (option nat) := see_links (l_head p).

Definition nb_rq_push (c : nat) : M unit := push_queue PRun c.
Definition nb_rq_pop : M (option nat) := pop_queue PRun.

(** [c->state = NB_RUNNABLE; nb_rq_push(c);] *)
Definition make_runnable (c : nat) : M unit :=
  upd_coro c (set_c_state NB_RUNNABLE);; nb_rq_push c.

(** ** Timers *)

Definition timers_head : M (option nat) := see_links (fun l => Some (l_timer_head l)).

Definition add_timer (c : nat) (at_ : Z) : M unit :=
  coros ← gets nb_coros;
  on_links (l_timer_add (fun t => c_wake_at_ms <$> coros !! t) c at_).

Definition nb_timer_add (c : nat) (at_ : Z) : M unit :=
  upd_coro c (set_c_wake_at_ms at_);; add_timer c at_.

Definition nb_timer_remove (c : nat) : M unit := on_links (l_timer_remove c).

Fixpoint timers_expire_from (fuel : nat) (now n : Z) : M Z :=
  match fuel with
  | O => fault
  | S f =>
      h ← timers_head;
      match h with
      | None => mret n
      | Some c =>
          r ← coro c;
          if c_wake_at_ms r <=? now then
            on_links l_timer_pop;;
            upd_coro c (fun r => set_c_state NB_RUNNABLE (set_c_last_park_result 0 r));;
            nb_rq_push c;;
            timers_expire_from f now (n + 1)
          else mret n
      end
  end.

Definition nb_timers_expire (now : Z) : M Z := n ← coro_rounds; timers_expire_from n now 0.

(** ** Coroutines *)

(** [nb_coro_new]; [mem] says whether the block and its stack could be had,
    [owns_env] whether the body's environment is a copy the spawn made. *)
Definition nb_coro_new (mem joinable owns_env is_fiber : bool) : M (option nat) :=
  if negb mem then mret None else
  c ← gets nb_next_id;
  on_links (l_alloc c);;
  put_coro c (MkCoro owns_env owns_env NB_RUNNABLE 0 joinable false None 0 false is_fiber 0 [] KUser);;
  modify (fun s => set_nb_live_coros (nb_live_coros s + 1) (set_nb_next_id (S c) s));;
  mret (Some c).

(** The coroutine, its holder record and its stack are released. *)
Definition nb_coro_free (c : nat) : M unit :=
  coro c;;
  on_links (l_free c);;
  modify (fun s => set_nb_live_coros (nb_live_coros s - 1) (set_nb_coros (delete c (nb_coros s)) s)).

(** [w->state = NB_RUNNABLE;] of the coroutines a loop queues. *)
Fixpoint all_runnable (w : list nat) : M unit :=
  match w with
  | [] => mret tt
  | c :: w' => upd_coro c (set_c_state NB_RUNNABLE);; all_runnable w'
  end.

Definition wake_all (p : place) : M unit := w ← of_links (l_wake p); all_runnable w.

Definition nb_fiber_ended : M unit :=
  modify (fun s => set_nb_fibers_live (nb_fibers_live s - 1) s);;
  n ← gets nb_fibers_live;
  if 0 <? n then mret tt else wake_all PDrain.

Definition nb_wake_joiners (c : nat) : M unit := coro c;; wake_all (PJoin c).

(** ** Mutexes *)

Definition wake_one (p : place) : M bool :=
  w ← pop_queue p;
  match w with Some c => make_runnable c;; mret true | None => mret false end.

Definition nurl__bare_mutex_release (m : nat) : M unit :=
  mutex m;;
  put_mutex m false;;
  wake_one (PMutex m);; mret tt.

(** What the loop does once the coroutine it ran has switched back. *)
Definition after_switch (c : nat) : M unit :=
  modify (set_nb_current None);;
  r ← coro c;
  match c_state r with
  | NB_DONE =>
      nb_wake_joiners c;;
      modify (fun s => set_nb_live (nb_live s - 1) s);;
      (if c_is_fiber r then nb_fiber_ended else mret tt);;
      if c_joinable r then mret tt else nb_coro_free c
  | NB_PARKED =>
      upd_coro c (set_c_pending_unlock None);;
      match c_pending_unlock r with Some m => nurl__bare_mutex_release m | None => mret tt end
  | _ => make_runnable c
  end.

(** [nb_park] of the running coroutine, to go on with [k] when it is resumed. *)
Definition nb_park (k : cont) : M unit :=
  cur ← gets nb_current;
  match cur with
  | Some c => upd_coro c (fun r => set_c_cont k (set_c_state NB_PARKED r));; after_switch c
  | None => fault
  end.

(** The loop of [pthread_mutex_lock] on a coroutine. *)
Definition coro_mutex_lock (c m : nat) : M unit :=
  locked ← mutex m;
  if (locked : bool) then push_queue (PMutex m) c;; nb_park (KMutexLock m)
  else put_mutex m true.

(** ** Reader/writer locks *)

(** The holder: the running coroutine, or main. *)
Definition nb_rw_me : M nat := cur ← gets nb_current; mret (match cur with Some c => c | None => rw_main_node end).

(** The entry of lock [l] in a holder record, searched from the last. *)
Fixpoint rw_find (h : list (nat * Z)) (l : nat) : option nat :=
  match h with
  | [] => None
  | e :: h' => match rw_find h' l with Some k => Some (S k) | None => if (e.1 =? l)%nat then Some 0%nat else None end
  end.

Definition nb_rw_find (me l : nat) : M (option nat) := r ← coro me; mret (rw_find (c_rwh r) l).

Definition nb_rw_add (me l : nat) : M unit := upd_coro me (fun r => set_c_rwh (c_rwh r ++ [(l, 1)]) r).

(** The last entry takes the place of the one dropped. *)
Definition rw_drop (h : list (nat * Z)) (k : nat) : list (nat * Z) :=
  match last h with
  | Some e => take (length h - 1) (<[k := e]> h)
  | None => h
  end.

Definition nb_rw_drop (me k : nat) : M unit := upd_coro me (fun r => set_c_rwh (rw_drop (c_rwh r) k) r).

(** [e->c += d], and the new count. *)
Definition rw_count (me k : nat) (d : Z) : M Z :=
  r ← coro me;
  match c_rwh r !! k with
  | Some (l, n) => put_coro me (set_c_rwh (<[k := (l, n + d)]> (c_rwh r)) r);; mret (n + d)
  | None => fault
  end.

Fixpoint rw_grant_from (fuel : nat) (l : nat) : M unit :=
  match fuel with
  | O => fault
  | S f =>
      r ← rwl l;
      h ← queue_head (PRw l);
      match h with
      | None => mret tt
      | Some c =>
          rc ← coro c;
          let write := c_rw_want rc =? NB_RW_WRITE in
          if r_writing r || (write && negb (r_readers r =? 0)) then mret tt else
          pop_queue (PRw l);;
          put_rw l (if write then set_r_writing true r else set_r_readers (r_readers r + 1) r);;
          upd_coro c (set_c_rw_want 0);;
          (if (c =? rw_main_node)%nat then mret tt else make_runnable c);;
          if write then mret tt else rw_grant_from f l
      end
  end.

Definition nb_rw_grant (l : nat) : M unit := n ← coro_rounds; rw_grant_from n l.

(** What follows [nb_rw_wait] in the two lock functions. *)
Definition rw_locked (me l : nat) (want : Z) : M unit :=
  if want =? NB_RW_READ then nb_rw_add me l
  else r ← rwl l; put_rw l (set_r_writer (Some me) r).

(** The loop of [nb_rw_wait] on a coroutine. *)
Definition coro_rw_wait (c l : nat) (want : Z) : M unit :=
  r ← coro c;
  if negb (c_rw_want r =? 0) then nb_park (KRwWait l want) else rw_locked c l want.

(** ** Resuming and the step *)

(** [nurl_runtime_run] on a coroutine, from the test of its loop. *)
Definition coro_run (c : nat) : M unit :=
  n ← gets nb_fibers_live;
  if 0 <? n then
    on_links (l_stack PDrain c);; nb_park KRun
  else mret tt.

(** [nb_swap_to_coro]: the coroutine goes on with what it parked in, up to user
    code or the next park. *)
Definition nb_swap_to_coro (c : nat) : M unit :=
  r ← coro c;
  upd_coro c (set_c_cont KUser);;
  match c_cont r with
  | KUser => mret tt
  | KMutexLock m => coro_mutex_lock c m
  | KRwWait l want => coro_rw_wait c l want
  | KJoin t => nb_coro_free t
  | KRun => coro_run c
  | KParkMs ms => if 0 <=? ms then nb_timer_remove c else mret tt
  end.

(** [nb_step_bounded] up to the switch; when it switches, the coroutine runs
    until [after_switch]. *)
Definition nb_step_bounded (budget_ms : Z) : M Z :=
  timers ← timers_head;
  due ← match timers with
        | Some t =>
            tnow ← nb_now_ms;
            r ← coro t;
            if c_wake_at_ms r <=? tnow then n ← nb_timers_expire tnow; mret (0 <? n) else mret false
        | None => mret false
        end;
  if (due : bool) then mret 1 else
  c ← nb_rq_pop;
  match c with
  | Some c =>
      upd_coro c (set_c_state NB_RUNNING);;
      modify (set_nb_current (Some c));;
      nb_swap_to_coro c;;
      mret 1
  | None =>
      match timers with
      | None => mret 0
      | Some t =>
          now ← nb_now_ms;
          r ← coro t;
          (if now <? c_wake_at_ms r then
             let wait := c_wake_at_ms r - now in
             let wait := if (0 <=? budget_ms) && (budget_ms <? wait) then budget_ms else wait in
             nb_sleep_ms wait
           else mret tt);;
          now ← nb_now_ms;
          n ← nb_timers_expire now;
          mret (if 0 <? n then 1 else 0)
      end
  end.

Definition nurl__bare_step : M Z := nb_step_bounded (-1).

(** [nb_entry] after the body has returned. *)
Definition nb_entry_end (c : nat) : M unit :=
  upd_coro c (fun r => set_c_state NB_DONE (set_c_finished true (if c_owns_env r then set_c_env false r else r)));;
  after_switch c.

(** ** The calls *)

(** The main context starts to drive the scheduler. *)
Definition main_drive (k : main_k) : M unit :=
  modify (fun s => set_nb_main k (set_nb_drive_depth (nb_drive_depth s + 1) s)).

Definition pthread_mutex_init (m : nat) : M unit := on_links (l_make (PMutex m));; put_mutex m false.

Definition pthread_mutex_lock (m : nat) : M unit :=
  mutex m;;
  cur ← gets nb_current;
  match cur with Some c => coro_mutex_lock c m | None => main_drive (MMutexLock m) end.

Definition pthread_mutex_trylock (m : nat) : M Z :=
  locked ← mutex m;
  if (locked : bool) then mret 16 else put_mutex m true;; mret 0.

Definition pthread_mutex_unlock (m : nat) : M Z := nurl__bare_mutex_release m;; mret 0.

Definition pthread_mutex_destroy (m : nat) : M Z :=
  mutex m;;
  h ← queue_head (PMutex m);
  match h with
  | Some _ => mret 16
  | None => put_mutex m false;; mret 0
  end.

Definition pthread_cond_init (k : nat) : M unit := on_links (l_make (PCond k));; put_cond k (MkCond 0 0).

Definition pthread_cond_destroy (k : nat) : M Z :=
  r ← cond k;
  h ← queue_head (PCond k);
  match h with
  | Some _ => mret 16
  | None => mret (if k_main_waiters r =? 0 then 0 else 16)
  end.

Definition add_waiters (k : nat) (d : Z) : M unit := r ← cond k; put_cond k (set_k_main_waiters (k_main_waiters r + d) r).

Definition pthread_cond_wait (k m : nat) : M unit :=
  r ← cond k; mutex m;;
  cur ← gets nb_current;
  match cur with
  | Some c =>
      push_queue (PCond k) c;;
      upd_coro c (set_c_pending_unlock (Some m));;
      nb_park (KMutexLock m)
  | None =>
      add_waiters k 1;;
      nurl__bare_mutex_release m;;
      main_drive (MCondWait k (k_seq r) m)
  end.

Definition pthread_cond_signal (k : nat) : M Z :=
  r ← cond k;
  woken ← wake_one (PCond k);
  if (woken : bool) then mret 0 else
      (if k_main_waiters r =? 0 then mret tt else put_cond k (set_k_seq (wrap64 (k_seq r + 1)) r));; mret 0.

Fixpoint cond_wake_all (fuel : nat) (k : nat) : M unit :=
  match fuel with
  | O => fault
  | S f =>
      woken ← wake_one (PCond k);
      if (woken : bool) then cond_wake_all f k else mret tt
  end.

Definition pthread_cond_broadcast (k : nat) : M Z :=
  cond k;;
  n ← coro_rounds; cond_wake_all n k;;
  r ← cond k;
  (if k_main_waiters r =? 0 then mret tt else put_cond k (set_k_seq (wrap64 (k_seq r + 1)) r));; mret 0.

Definition nurl_cond_wait_ms (k m : nat) (ms : Z) : M unit :=
  r ← cond k; mutex m;;
  cur ← gets nb_current;
  if bool_decide (is_Some cur) || (ms <? 0) then pthread_cond_wait k m else
  now ← nb_now_ms;
  add_waiters k 1;;
  nurl__bare_mutex_release m;;
  modify (set_nb_main (MCondWaitMs k (k_seq r) m (now + ms))).

Definition nb_rw_wait (l : nat) (want : Z) : M unit :=
  cur ← gets nb_current;
  let c := match cur with Some c => c | None => rw_main_node end in
  upd_coro c (set_c_rw_want want);;
  push_queue (PRw l) c;;
  match cur with
  | Some c => coro_rw_wait c l want
  | None => main_drive (MRwWait l want)
  end.

(** The lock's zeroed block. *)
Definition nurl_rwlock_init (l : nat) : M unit := on_links (l_make (PRw l));; put_rw l (MkRw 0 false None).

Definition is_none {A} (x : option A) : bool := match x with None => true | Some _ => false end.

Definition nb_rw_failed : M unit := modify (set_nb_main MAborted).

Definition nurl_rwlock_rdlock (l : nat) : M unit :=
  r ← rwl l; h ← queue_head (PRw l); me ← nb_rw_me; e ← nb_rw_find me l;
  match e with
  | Some k => rw_count me k 1;; mret tt
  | None =>
      if bool_decide (r_writer r = Some me) then nb_rw_failed else
      if negb (r_writing r) && is_none h then
        put_rw l (set_r_readers (r_readers r + 1) r);; nb_rw_add me l
      else nb_rw_wait l NB_RW_READ
  end.

Definition nurl_rwlock_rdunlock (l : nat) : M unit :=
  me ← nb_rw_me; e ← nb_rw_find me l;
  more ← match e with
         | Some k => n ← rw_count me k (-1); if 0 <? n then mret true else nb_rw_drop me k;; mret false
         | None => mret false
         end;
  if (more : bool) then mret tt else
  r ← rwl l;
  if 0 <? r_readers r then
    put_rw l (set_r_readers (r_readers r - 1) r);;
    if r_readers r - 1 =? 0 then nb_rw_grant l else mret tt
  else mret tt.

Definition nurl_rwlock_wrlock (l : nat) : M unit :=
  r ← rwl l; h ← queue_head (PRw l); me ← nb_rw_me; e ← nb_rw_find me l;
  if bool_decide (r_writer r = Some me) then nb_rw_failed else
  if negb (is_none e) then nb_rw_failed else
  if negb (r_writing r) && (r_readers r =? 0) && is_none h then
    put_rw l (set_r_writer (Some me) (set_r_writing true r))
  else nb_rw_wait l NB_RW_WRITE.

Definition nurl_rwlock_wrunlock (l : nat) : M unit :=
  r ← rwl l;
  put_rw l (set_r_writing false (set_r_writer None r));;
  nb_rw_grant l.

Definition nurl_rwlock_tryrdlock (l : nat) : M Z :=
  r ← rwl l; h ← queue_head (PRw l); me ← nb_rw_me; e ← nb_rw_find me l;
  match e with
  | Some k => rw_count me k 1;; mret 1
  | None =>
      if r_writing r || negb (is_none h) then mret 0 else
      put_rw l (set_r_readers (r_readers r + 1) r);; nb_rw_add me l;; mret 1
  end.

Definition nurl_rwlock_trywrlock (l : nat) : M Z :=
  r ← rwl l; h ← queue_head (PRw l); me ← nb_rw_me; e ← nb_rw_find me l;
  if r_writing r || negb (r_readers r =? 0) || negb (is_none h) || negb (is_none e) then mret 0 else
  put_rw l (set_r_writer (Some me) (set_r_writing true r));; mret 1.

(** Counting the new coroutine and queueing it. *)
Definition start_coro (c : nat) (is_fiber : bool) : M unit :=
  modify (fun s => set_nb_live (nb_live s + 1) s);;
  (if is_fiber then modify (fun s => set_nb_fibers_live (nb_fibers_live s + 1) s) else mret tt);;
  nb_rq_push c.

(** 11 is EAGAIN. *)
Definition pthread_create (mem : bool) : M (Z * option nat) :=
  c ← nb_coro_new mem true false false;
  match c with Some c => start_coro c false;; mret (0, Some c) | None => mret (11, None) end.

Definition nurl_pthread_create_owned (mem : bool) : M (Z * option nat) :=
  c ← nb_coro_new mem true true false;
  match c with Some c => start_coro c false;; mret (0, Some c) | None => mret (11, None) end.

Definition nurl_runtime_init : M unit := modify (set_nb_initialized true).

Definition spawn_fiber (mem joinable : bool) : M (option nat) :=
  i ← gets nb_initialized;
  (if (i : bool) then mret tt else nurl_runtime_init);;
  c ← nb_coro_new mem joinable true true;
  match c with
  | Some c => start_coro c true;; mret (Some c)
  | None => modify (set_nb_main MAborted);; mret None
  end.

Definition nurl_fiber_spawn (mem : bool) : M (option nat) := spawn_fiber mem false.
Definition nurl_fiber_spawn_owned (mem : bool) : M (option nat) := spawn_fiber mem false.
Definition nurl_fiber_spawn_joinable (mem : bool) : M (option nat) := spawn_fiber mem true.

Definition nb_join (c : nat) : M unit :=
  r ← coro c;
  if c_finished r then nb_coro_free c else
  cur ← gets nb_current;
  match cur with
  | Some me =>
      on_links (l_stack (PJoin c) me);;
      nb_park (KJoin c)
  | None => main_drive (MJoin c)
  end.

Definition nb_detach (c : nat) : M unit :=
  r ← coro c;
  if c_finished r then nb_coro_free c else put_coro c (set_c_joinable false r).

Definition nurl_fiber_join (c : nat) : M unit := r ← coro c; if c_joinable r then nb_join c else mret tt.
Definition nurl_fiber_detach (c : nat) : M unit := r ← coro c; if c_joinable r then nb_detach c else mret tt.

Definition pthread_exit : M unit :=
  cur ← gets nb_current;
  match cur with
  | Some c => upd_coro c (fun r => set_c_state NB_DONE (set_c_finished true r));; after_switch c
  | None => modify (set_nb_main MAborted)
  end.

Definition nurl_runtime_run : M unit :=
  i ← gets nb_initialized;
  (if (i : bool) then mret tt else nurl_runtime_init);;
  cur ← gets nb_current;
  match cur with Some c => coro_run c | None => main_drive MRun end.

Definition nurl_fiber_yield : M unit :=
  cur ← gets nb_current;
  match cur with
  | Some c => upd_coro c (set_c_state NB_RUNNABLE);; after_switch c
  | None => nurl__bare_step;; mret tt
  end.

(** A wake that came first is consumed; [Some] is the answer of a call that
    does not park. *)
Definition take_permit (c : nat) (mutex_h : option nat) : M bool :=
  r ← coro c;
  if c_wake_pending r then
    put_coro c (set_c_wake_pending false r);;
    match mutex_h with Some m => nurl__bare_mutex_release m | None => mret tt end;;
    mret true
  else mret false.

Definition nurl_fiber_park_with_mutex (mutex_h : option nat) : M unit :=
  cur ← gets nb_current;
  match cur with
  | None => mret tt
  | Some c =>
      woken ← take_permit c mutex_h;
      if (woken : bool) then mret tt else
      upd_coro c (set_c_pending_unlock mutex_h);; nb_park KUser
  end.

Definition nurl_fiber_park_with_mutex_ms (mutex_h : option nat) (ms : Z) : M unit :=
  cur ← gets nb_current;
  match cur with
  | None => mret tt
  | Some c =>
      woken ← take_permit c mutex_h;
      if (woken : bool) then mret tt else
      upd_coro c (set_c_last_park_result 0);;
      (if 0 <=? ms then now ← nb_now_ms; nb_timer_add c (now + ms) else mret tt);;
      upd_coro c (set_c_pending_unlock mutex_h);;
      nb_park (KParkMs ms)
  end.

Definition nurl_bare_park_ms (ms : Z) : M unit :=
  cur ← gets nb_current;
  match cur with
  | None => mret tt
  | Some c =>
      woken ← take_permit c None;
      if (woken : bool) then mret tt else
      upd_coro c (set_c_last_park_result 0);;
      (if 0 <=? ms then now ← nb_now_ms; nb_timer_add c (now + ms) else mret tt);;
      nb_park (KParkMs ms)
  end.

Definition nb_unpark (c : nat) (front : bool) : M unit :=
  r ← coro c;
  if negb (bool_decide (c_state r = NB_PARKED)) then put_coro c (set_c_wake_pending true r) else
  nb_timer_remove c;;
  upd_coro c (fun r => set_c_state NB_RUNNABLE (set_c_last_park_result 1 r));;
  if front then on_links (l_push_front c) else nb_rq_push c.

Definition nurl_fiber_unpark (c : nat) : M unit := nb_unpark c false.
Definition nurl_bare_unpark_admit (c : nat) : M unit := nb_unpark c true.

Definition nurl_fiber_wake (c : nat) : M Z :=
  r ← coro c;
  if bool_decide (c_state r = NB_PARKED) then nurl_fiber_unpark c;; mret 1 else mret 0.

Definition nurl_fiber_sleep_ms (ms : Z) : M unit :=
  if ms <=? 0 then nurl_fiber_yield else
  now ← nb_now_ms;
  cur ← gets nb_current;
  match cur with
  | Some c => nb_timer_add c (now + ms);; nb_park KUser
  | None => modify (set_nb_main (MSleep (now + ms)))
  end.

Definition nurl_bare_poll : M Z :=
  cur ← gets nb_current;
  match cur with
  | Some _ => mret 0
  | None =>
      i ← gets nb_initialized;
      (if (i : bool) then mret tt else nurl_runtime_init);;
      n ← nurl__bare_step; mret (if n =? 0 then 0 else 1)
  end.

Definition nurl_bare_runnable : M Z := h ← queue_head PRun; mret (if is_none h then 0 else 1).
Definition nurl_bare_blocked : M Z := d ← gets nb_drive_depth; mret (if 0 <? d then 1 else 0).
Definition nurl_bare_timer_ms : M Z :=
  t ← timers_head;
  match t with
  | None => mret (-1)
  | Some c => r ← coro c; now ← nb_now_ms; mret (if 0 <? c_wake_at_ms r - now then c_wake_at_ms r - now else 0)
  end.

(** ** The main context's loops *)

Definition drive_end (k : main_k) : M unit :=
  modify (fun s => set_nb_main k (set_nb_drive_depth (nb_drive_depth s - 1) s)).

(** [nurl__bare_step], and the deadlock report when nothing can happen. *)
Definition drive_step : M unit :=
  n ← nurl__bare_step;
  if n =? 0 then drive_end MAborted else mret tt.

(** A bounded step, and the rest of the wait when nothing can happen. *)
Definition timed_step (deadline : Z) : M unit :=
  now ← nb_now_ms;
  n ← nb_step_bounded (deadline - now);
  if n =? 0 then now ← nb_now_ms; nb_sleep_ms (deadline - now) else mret tt.

(** One round of the loop the main context is in. *)
Definition main_iterate : M unit :=
  k ← gets nb_main;
  match k with
  | MMutexLock m =>
      locked ← mutex m;
      if (locked : bool) then drive_step else drive_end MUser;; put_mutex m true
  | MCondWait k seq m =>
      r ← cond k;
      if k_seq r =? seq then drive_step else
      drive_end MUser;; add_waiters k (-1);; pthread_mutex_lock m
  | MCondWaitMs k seq m deadline =>
      r ← cond k; now ← nb_now_ms;
      if negb (k_seq r =? seq) || (deadline <=? now) then
        modify (set_nb_main MUser);; add_waiters k (-1);; pthread_mutex_lock m
      else timed_step deadline
  | MRwWait l want =>
      r ← coro rw_main_node;
      if c_rw_want r =? 0 then drive_end MUser;; rw_locked rw_main_node l want else drive_step
  | MJoin c => r ← coro c; if c_finished r then drive_end MUser;; nb_coro_free c else drive_step
  | MRun => n ← gets nb_live; if n <=? 0 then drive_end MUser else drive_step
  | MSleep deadline =>
      now ← nb_now_ms;
      if deadline <=? now then modify (set_nb_main MUser) else timed_step deadline
  | MUser | MAborted => mret tt
  end.

Definition forget {A} (m : M A) : M unit := m;; mret tt.

Definition exec (k : call) : M unit :=
  match k with
  | CMutexInit m => pthread_mutex_init m
  | CMutexLock m => pthread_mutex_lock m
  | CMutexTrylock m => forget (pthread_mutex_trylock m)
  | CMutexUnlock m => forget (pthread_mutex_unlock m)
  | CMutexDestroy m => forget (pthread_mutex_destroy m)
  | CCondInit k => pthread_cond_init k
  | CCondWait k m => pthread_cond_wait k m
  | CCondWaitMs k m ms => nurl_cond_wait_ms k m ms
  | CCondSignal k => forget (pthread_cond_signal k)
  | CCondBroadcast k => forget (pthread_cond_broadcast k)
  | CCondDestroy k => forget (pthread_cond_destroy k)
  | CRwInit l => nurl_rwlock_init l
  | CRdlock l => nurl_rwlock_rdlock l
  | CRdunlock l => nurl_rwlock_rdunlock l
  | CWrlock l => nurl_rwlock_wrlock l
  | CWrunlock l => nurl_rwlock_wrunlock l
  | CTryrdlock l => forget (nurl_rwlock_tryrdlock l)
  | CTrywrlock l => forget (nurl_rwlock_trywrlock l)
  | CCreate mem => forget (pthread_create mem)
  | CCreateOwned mem => forget (nurl_pthread_create_owned mem)
  | CSpawn mem => forget (nurl_fiber_spawn mem)
  | CSpawnOwned mem => forget (nurl_fiber_spawn_owned mem)
  | CSpawnJoinable mem => forget (nurl_fiber_spawn_joinable mem)
  | CJoin c => nb_join c
  | CDetach c => nb_detach c
  | CFiberJoin c => nurl_fiber_join c
  | CFiberDetach c => nurl_fiber_detach c
  | CExit => pthread_exit
  | CInit => nurl_runtime_init
  | CRun => nurl_runtime_run
  | CYield => nurl_fiber_yield
  | CPark m => nurl_fiber_park_with_mutex m
  | CParkMs m ms => nurl_fiber_park_with_mutex_ms m ms
  | CBareParkMs ms => nurl_bare_park_ms ms
  | CUnpark c => nurl_fiber_unpark c
  | CUnparkAdmit c => nurl_bare_unpark_admit c
  | CWake c => forget (nurl_fiber_wake c)
  | CSleepMs ms => nurl_fiber_sleep_ms ms
  | CPoll => forget nurl_bare_poll
  end.

(** One thing that happens: user code makes a call, the body of the running
    coroutine returns, the main context goes round the loop it is in, time
    passes. *)
Definition exec_event (e : event) : M unit :=
  match e with
  | ECall k => exec k
  | EEnd => cur ← gets nb_current; match cur with Some c => nb_entry_end c | None => fault end
  | EMain => main_iterate
  | ETick ms => modify (fun s => set_nb_clock (nb_clock s + Z.of_nat ms) s)
  end.

Fixpoint run_events (es : list event) : M unit :=
  match es with
  | [] => mret tt
  | e :: es' => exec_event e;; run_events es'
  end.

End handlers.

(** The state the image starts in; 0 is the main context's node. *)
Definition main_node : NbCoro := MkCoro false false NB_RUNNABLE 0 false false None 0 false false 0 [] KUser.
Definition core_start : core := MkCore {[rw_main_node := main_node]} None 0 0 false 0 ∅ ∅ ∅ 0 0 MUser 1.
