(* ===== verification/SchedSim.v ===== *)
(** The scheduler on pointers does what it does on lists.

    Every handler of [Sched] is one text over the interface [Links]; by the
    rules below it carries a relation between two implementations of the
    interface over to whole runs.  With the relation of [SchedLinks] this
    removes the pointers from every later argument. *)

From S2P Require Import Prelude SchedLinks Sched.

Create HintDb sim.

Section sim.
Context {L1 L2 : Type} `{Links L1, Links L2} (R : L1 -> L2 -> Prop) {HR : LinksSim R}.

(** What [m2] answers, [m1] answers, with the same scheduler state. *)
Definition sim {A} (m1 : M (L := L1) A) (m2 : M (L := L2) A) : Prop :=
  forall k s a x k' a', R s a -> m2 (k, a) = Some (x, (k', a')) ->
  exists s', m1 (k, s) = Some (x, (k', s')) /\ R s' a'.

Lemma sim_ret {A} (x : A) : sim (mret x) (mret x).
Proof. intros k s a y k' a' HRs Hm. unfold mret, M_ret in *. simplify_eq. exists s. done. Qed.

Lemma sim_bind {A B} (m1 : M A) (m2 : M A) (f1 : A -> M B) (f2 : A -> M B) :
  sim m1 m2 -> (forall x, sim (f1 x) (f2 x)) -> sim (m1 ≫= f1) (m2 ≫= f2).
Proof.
  intros Hm Hf k s a y k' a' HRs Hb. unfold mbind, M_bind in *.
  destruct (m2 (k, a)) as [[x [k1 a1]]|] eqn:E; [|done].
  destruct (Hm k s a x k1 a1 HRs E) as (s1 & -> & HR1). by apply (Hf x k1 s1 a1).
Qed.

Lemma sim_gets {A} (f : core -> A) : sim (gets f) (gets f).
Proof. intros k s a y k' a' HRs Hm. unfold gets in *. simplify_eq/=. eexists; split; [reflexivity|done]. Qed.

Lemma sim_modify (f : core -> core) : sim (modify f) (modify f).
Proof. intros k s a y k' a' HRs Hm. unfold modify in *. simplify_eq/=. eexists; split; [reflexivity|done]. Qed.

Lemma sim_fault {A} : sim (A := A) fault fault.
Proof. intros k s a y k' a' HRs Hm. done. Qed.

Lemma sim_deref {V} (f : core -> gmap nat V) i : sim (deref f i) (deref f i).
Proof.
  intros k s a y k' a' HRs Hm. unfold deref in *. simpl in *. destruct (f k !! i); simplify_eq. eexists; split; [reflexivity|done].
Qed.

Lemma sim_on_links (f1 : L1 -> option L1) (f2 : L2 -> option L2) :
  (forall s a a', R s a -> f2 a = Some a' -> exists s', f1 s = Some s' /\ R s' a') ->
  sim (on_links f1) (on_links f2).
Proof.
  intros Hf k s a y k' a' HRs Hm. unfold on_links in *. simpl in *.
  destruct (f2 a) as [a1|] eqn:E; simplify_eq. destruct (Hf s a _ HRs E) as (s' & -> & ?). eexists; split; [reflexivity|done].
Qed.

Lemma sim_of_links {A} (f1 : L1 -> option (A * L1)) (f2 : L2 -> option (A * L2)) :
  (forall s a x a', R s a -> f2 a = Some (x, a') -> exists s', f1 s = Some (x, s') /\ R s' a') ->
  sim (of_links f1) (of_links f2).
Proof.
  intros Hf k s a y k' a' HRs Hm. unfold of_links in *. simpl in *.
  destruct (f2 a) as [[x a1]|] eqn:E; simplify_eq. destruct (Hf s a _ _ HRs E) as (s' & -> & ?). eexists; split; [reflexivity|done].
Qed.

Lemma sim_see_links {A} (f1 : L1 -> option A) (f2 : L2 -> option A) :
  (forall s a x, R s a -> f2 a = Some x -> f1 s = Some x) -> sim (see_links f1) (see_links f2).
Proof.
  intros Hf k s a y k' a' HRs Hm. unfold see_links in *. simpl in *.
  destruct (f2 a) as [x|] eqn:E; [|done]. rewrite (Hf s a _ HRs E). simplify_eq. eexists; split; [reflexivity|done].
Qed.

(** The rules, tried on the form of the handler. *)
Ltac sim_step :=
  match goal with
  | |- sim (mret _) (mret _) => apply sim_ret
  | |- sim (_ ≫= _) (_ ≫= _) => apply sim_bind; [|intros ?]
  | |- sim (gets _) _ => apply sim_gets
  | |- sim (modify _) _ => apply sim_modify
  | |- sim fault _ => apply sim_fault
  | |- sim (deref _ _) _ => apply sim_deref
  | |- sim (on_links _) _ => apply sim_on_links; intros ? ? ?
  | |- sim (of_links _) _ => apply sim_of_links; intros ? ? ? ?
  | |- sim (see_links _) _ => apply sim_see_links; intros ? ? ?
  | |- sim (match ?x with _ => _ end) _ => destruct x
  | |- sim _ _ => solve [auto with sim nocore]
  end.
Ltac sim_auto := repeat (cbv beta zeta; sim_step).

Lemma sim_push_queue p c : sim (push_queue p c) (push_queue p c).
Proof. unfold push_queue. sim_auto. apply sim_push. Qed.
Lemma sim_pop_queue p : sim (pop_queue p) (pop_queue p).
Proof. unfold pop_queue. sim_auto. apply sim_pop. Qed.
Lemma sim_queue_head p : sim (queue_head p) (queue_head p).
Proof. unfold queue_head. sim_auto. apply sim_head. Qed.
Lemma sim_timers_head : sim timers_head timers_head.
Proof. unfold timers_head. sim_auto. intros HRs. by rewrite (sim_timer_head _ _ HRs). Qed.
Lemma sim_add_timer c at_ : sim (add_timer c at_) (add_timer c at_).
Proof. unfold add_timer. sim_auto. apply sim_timer_add. Qed.
Lemma sim_remove c : sim (nb_timer_remove c) (nb_timer_remove c).
Proof. unfold nb_timer_remove. sim_auto. apply sim_timer_remove. Qed.
#[local] Hint Resolve sim_push_queue sim_pop_queue sim_queue_head sim_timers_head sim_add_timer sim_remove : sim.

Lemma sim_coro c : sim (coro c) (coro c). Proof. apply sim_deref. Qed.
Lemma sim_mutex c : sim (mutex c) (mutex c). Proof. apply sim_deref. Qed.
Lemma sim_cond c : sim (cond c) (cond c). Proof. apply sim_deref. Qed.
Lemma sim_rwl c : sim (rwl c) (rwl c). Proof. apply sim_deref. Qed.
Lemma sim_put_coro c r : sim (put_coro c r) (put_coro c r). Proof. apply sim_modify. Qed.
Lemma sim_put_mutex c r : sim (put_mutex c r) (put_mutex c r). Proof. apply sim_modify. Qed.
Lemma sim_put_cond c r : sim (put_cond c r) (put_cond c r). Proof. apply sim_modify. Qed.
Lemma sim_put_rw c r : sim (put_rw c r) (put_rw c r). Proof. apply sim_modify. Qed.
Lemma sim_now : sim nb_now_ms nb_now_ms. Proof. apply sim_gets. Qed.
Lemma sim_rounds : sim coro_rounds coro_rounds. Proof. apply sim_gets. Qed.
#[local] Hint Resolve sim_coro sim_mutex sim_cond sim_rwl sim_put_coro sim_put_mutex sim_put_cond sim_put_rw
  sim_now sim_rounds : sim.

Lemma sim_upd_coro c f : sim (upd_coro c f) (upd_coro c f).
Proof. unfold upd_coro. sim_auto. Qed.
Lemma sim_sleep ms : sim (nb_sleep_ms ms) (nb_sleep_ms ms).
Proof. unfold nb_sleep_ms. sim_auto. Qed.
Lemma sim_rq_push c : sim (nb_rq_push c) (nb_rq_push c).
Proof. apply sim_push_queue. Qed.
Lemma sim_rq_pop : sim nb_rq_pop nb_rq_pop.
Proof. apply sim_pop_queue. Qed.
#[local] Hint Resolve sim_upd_coro sim_sleep sim_rq_push sim_rq_pop : sim.

Lemma sim_make_runnable c : sim (make_runnable c) (make_runnable c).
Proof. unfold make_runnable. sim_auto. Qed.
Lemma sim_nb_timer_add c t : sim (nb_timer_add c t) (nb_timer_add c t).
Proof. unfold nb_timer_add. sim_auto. Qed.
#[local] Hint Resolve sim_make_runnable sim_nb_timer_add : sim.

Lemma sim_expire_from f : forall now n, sim (timers_expire_from f now n) (timers_expire_from f now n).
Proof. induction f; intros; cbn [timers_expire_from]; sim_auto. apply sim_timer_pop. Qed.
#[local] Hint Resolve sim_expire_from : sim.
Lemma sim_expire now : sim (nb_timers_expire now) (nb_timers_expire now).
Proof. unfold nb_timers_expire. sim_auto. Qed.
Lemma sim_coro_new a b c d : sim (nb_coro_new a b c d) (nb_coro_new a b c d).
Proof. unfold nb_coro_new. sim_auto. apply sim_alloc. Qed.
Lemma sim_coro_free c : sim (nb_coro_free c) (nb_coro_free c).
Proof. unfold nb_coro_free. sim_auto. apply sim_free. Qed.
Lemma sim_all_runnable l : sim (all_runnable l) (all_runnable l).
Proof. induction l; cbn [all_runnable]; sim_auto. Qed.
#[local] Hint Resolve sim_expire sim_coro_new sim_coro_free sim_all_runnable : sim.
Lemma sim_wake_all p : sim (wake_all p) (wake_all p).
Proof. unfold wake_all. sim_auto. apply sim_wake. Qed.
Lemma sim_wake_one p : sim (wake_one p) (wake_one p).
Proof. unfold wake_one. sim_auto. Qed.
#[local] Hint Resolve sim_wake_all sim_wake_one : sim.
Lemma sim_fiber_ended : sim nb_fiber_ended nb_fiber_ended.
Proof. unfold nb_fiber_ended. sim_auto. Qed.
Lemma sim_wake_joiners c : sim (nb_wake_joiners c) (nb_wake_joiners c).
Proof. unfold nb_wake_joiners. sim_auto. Qed.
Lemma sim_release m : sim (nurl__bare_mutex_release m) (nurl__bare_mutex_release m).
Proof. unfold nurl__bare_mutex_release. sim_auto. Qed.
#[local] Hint Resolve sim_fiber_ended sim_wake_joiners sim_release : sim.
Lemma sim_after_switch c : sim (after_switch c) (after_switch c).
Proof. unfold after_switch. sim_auto. Qed.
#[local] Hint Resolve sim_after_switch : sim.
Lemma sim_park k : sim (nb_park k) (nb_park k).
Proof. unfold nb_park. sim_auto. Qed.
#[local] Hint Resolve sim_park : sim.
Lemma sim_coro_mutex_lock c m : sim (coro_mutex_lock c m) (coro_mutex_lock c m).
Proof. unfold coro_mutex_lock. sim_auto. Qed.
#[local] Hint Resolve sim_coro_mutex_lock : sim.

Lemma sim_rw_me : sim nb_rw_me nb_rw_me.
Proof. unfold nb_rw_me. sim_auto. Qed.
Lemma sim_rw_find me l : sim (nb_rw_find me l) (nb_rw_find me l).
Proof. unfold nb_rw_find. sim_auto. Qed.
Lemma sim_rw_add me l : sim (nb_rw_add me l) (nb_rw_add me l).
Proof. unfold nb_rw_add. sim_auto. Qed.
Lemma sim_rw_drop me k : sim (nb_rw_drop me k) (nb_rw_drop me k).
Proof. unfold nb_rw_drop. sim_auto. Qed.
Lemma sim_rw_count me k d : sim (rw_count me k d) (rw_count me k d).
Proof. unfold rw_count. sim_auto. Qed.
#[local] Hint Resolve sim_rw_me sim_rw_find sim_rw_add sim_rw_drop sim_rw_count : sim.
Lemma sim_grant_from f : forall l, sim (rw_grant_from f l) (rw_grant_from f l).
Proof. induction f; intros; cbn [rw_grant_from]; sim_auto. Qed.
#[local] Hint Resolve sim_grant_from : sim.
Lemma sim_grant l : sim (nb_rw_grant l) (nb_rw_grant l).
Proof. unfold nb_rw_grant. sim_auto. Qed.
Lemma sim_rw_locked me l w : sim (rw_locked me l w) (rw_locked me l w).
Proof. unfold rw_locked. sim_auto. Qed.
#[local] Hint Resolve sim_grant sim_rw_locked : sim.
Lemma sim_coro_rw_wait c l w : sim (coro_rw_wait c l w) (coro_rw_wait c l w).
Proof. unfold coro_rw_wait. sim_auto. Qed.
Lemma sim_coro_run c : sim (coro_run c) (coro_run c).
Proof. unfold coro_run. sim_auto. apply sim_stack. Qed.
#[local] Hint Resolve sim_coro_rw_wait sim_coro_run : sim.
Lemma sim_swap c : sim (nb_swap_to_coro c) (nb_swap_to_coro c).
Proof. unfold nb_swap_to_coro. sim_auto. Qed.
#[local] Hint Resolve sim_swap : sim.
Lemma sim_step_bounded b : sim (nb_step_bounded b) (nb_step_bounded b).
Proof. unfold nb_step_bounded. sim_auto. Qed.
#[local] Hint Resolve sim_step_bounded : sim.
Lemma sim_bare_step : sim nurl__bare_step nurl__bare_step.
Proof. apply sim_step_bounded. Qed.
Lemma sim_entry_end c : sim (nb_entry_end c) (nb_entry_end c).
Proof. unfold nb_entry_end. sim_auto. Qed.
Lemma sim_main_drive k : sim (main_drive k) (main_drive k).
Proof. apply sim_modify. Qed.
Lemma sim_add_waiters k d : sim (add_waiters k d) (add_waiters k d).
Proof. unfold add_waiters. sim_auto. Qed.
Lemma sim_rw_failed : sim nb_rw_failed nb_rw_failed.
Proof. apply sim_modify. Qed.
Lemma sim_runtime_init : sim nurl_runtime_init nurl_runtime_init.
Proof. apply sim_modify. Qed.
#[local] Hint Resolve sim_bare_step sim_entry_end sim_main_drive sim_add_waiters sim_rw_failed sim_runtime_init : sim.

Lemma sim_mutex_lock m : sim (pthread_mutex_lock m) (pthread_mutex_lock m).
Proof. unfold pthread_mutex_lock. sim_auto. Qed.
Lemma sim_wake_cond f : forall k, sim (cond_wake_all f k) (cond_wake_all f k).
Proof. induction f; intros; cbn [cond_wake_all]; sim_auto. Qed.
#[local] Hint Resolve sim_mutex_lock sim_wake_cond : sim.
Lemma sim_cond_wait k m : sim (pthread_cond_wait k m) (pthread_cond_wait k m).
Proof. unfold pthread_cond_wait. sim_auto. Qed.
Lemma sim_rw_wait l w : sim (nb_rw_wait l w) (nb_rw_wait l w).
Proof. unfold nb_rw_wait. sim_auto. Qed.
Lemma sim_start_coro c b : sim (start_coro c b) (start_coro c b).
Proof. unfold start_coro. sim_auto. Qed.
#[local] Hint Resolve sim_cond_wait sim_rw_wait sim_start_coro : sim.
Lemma sim_spawn a b : sim (spawn_fiber a b) (spawn_fiber a b).
Proof. unfold spawn_fiber. sim_auto. Qed.
Lemma sim_nb_join c : sim (nb_join c) (nb_join c).
Proof. unfold nb_join. sim_auto. apply sim_stack. Qed.
Lemma sim_nb_detach c : sim (nb_detach c) (nb_detach c).
Proof. unfold nb_detach. sim_auto. Qed.
Lemma sim_permit c m : sim (take_permit c m) (take_permit c m).
Proof. unfold take_permit. sim_auto. Qed.
Lemma sim_unpark c b : sim (nb_unpark c b) (nb_unpark c b).
Proof. unfold nb_unpark. sim_auto. apply sim_push_front. Qed.
Lemma sim_yield : sim nurl_fiber_yield nurl_fiber_yield.
Proof. unfold nurl_fiber_yield. sim_auto. Qed.
#[local] Hint Resolve sim_spawn sim_nb_join sim_nb_detach sim_permit sim_unpark sim_yield : sim.

Lemma sim_forget {A} (m1 : M A) (m2 : M A) : sim m1 m2 -> sim (forget m1) (forget m2).
Proof. intros. unfold forget. sim_auto. Qed.

Lemma sim_exec k : sim (exec k) (exec k).
Proof.
  destruct k; cbn [exec]; try apply sim_forget;
    unfold pthread_mutex_init, pthread_mutex_trylock, pthread_mutex_unlock, pthread_mutex_destroy,
      pthread_cond_init, nurl_cond_wait_ms, pthread_cond_signal, pthread_cond_broadcast, pthread_cond_destroy,
      nurl_rwlock_init, nurl_rwlock_rdlock, nurl_rwlock_rdunlock, nurl_rwlock_wrlock, nurl_rwlock_wrunlock,
      nurl_rwlock_tryrdlock, nurl_rwlock_trywrlock, pthread_create, nurl_pthread_create_owned,
      nurl_fiber_spawn, nurl_fiber_spawn_owned, nurl_fiber_spawn_joinable, nurl_fiber_join, nurl_fiber_detach,
      pthread_exit, nurl_runtime_run, nurl_fiber_park_with_mutex, nurl_fiber_park_with_mutex_ms,
      nurl_bare_park_ms, nurl_fiber_wake, nurl_fiber_unpark, nurl_bare_unpark_admit, nurl_fiber_sleep_ms,
      nurl_bare_poll; sim_auto; apply sim_make.
Qed.

Lemma sim_main_iterate : sim main_iterate main_iterate.
Proof. unfold main_iterate, drive_step, timed_step, drive_end. sim_auto. Qed.

Lemma sim_event e : sim (exec_event e) (exec_event e).
Proof.
  destruct e; cbn [exec_event]; [apply sim_exec| |apply sim_main_iterate|apply sim_modify].
  sim_auto.
Qed.

Lemma sim_run es : sim (run_events es) (run_events es).
Proof. induction es; cbn [run_events]; [apply sim_ret|]. apply sim_bind; [apply sim_event|done]. Qed.
End sim.

(** ** Runs *)

(** C3: whatever calls, returns, rounds of the main context's loops and ticks
    of the clock happen, when the run on lists answers, the run on the source's
    pointers answers too, in the same scheduler state, and every queue, join
    stack and the timer list is the chain of [next] pointers of the list. *)
Theorem sched_queues_refine es k a :
  run_events es (core_start, alinks_start) = Some (tt, (k, a)) ->
  exists s, run_events es (core_start, links_start) = Some (tt, (k, s)) /\ links_rel s a.
Proof.
  intros Hrun. destruct (sim_run links_rel es core_start links_start alinks_start tt k a start_refines Hrun) as (s & Hs & HR).
  by exists s.
Qed.

(** Two fibers fight for a mutex, a third sleeps, a fourth waits with a writer
    for a lock, the main context joins one and runs the rest. *)
Definition sched_demo : list event :=
  [ECall CInit; ECall (CMutexInit 0); ECall (CRwInit 0);
   ECall (CSpawnJoinable true); ECall (CSpawn true); ECall (CSpawn true); ECall (CSpawn true);
   ECall (CFiberJoin 1);
   EMain; ECall (CMutexLock 0); ECall (CWrlock 0); ECall CYield;          (* 1 holds both *)
   EMain; ECall (CMutexLock 0);                                           (* 2 queues *)
   EMain; ECall (CSleepMs 5);                                             (* 3 sleeps *)
   EMain; ECall (CRdlock 0);                                              (* 4 queues *)
   EMain; ECall (CMutexUnlock 0); ECall (CWrunlock 0); EEnd;              (* 1 lets go and ends *)
   EMain; ECall CRun;
   EMain; ECall (CMutexUnlock 0); EEnd;
   EMain; ECall (CRdunlock 0); EEnd;
   EMain; EMain; EEnd; EMain].

Lemma sched_queues_refine_witness :
  exists k a s, run_events sched_demo (core_start, alinks_start) = Some (tt, (k, a)) /\
    run_events sched_demo (core_start, links_start) = Some (tt, (k, s)) /\ links_rel s a /\
    nb_live k = 0 /\ nb_main k = MUser /\ nb_clock k = 5.
Proof.
  eexists _, _. edestruct (sched_queues_refine sched_demo) as (s & Hs & HR).
  - vm_compute. reflexivity.
  - exists s. split; [vm_compute; reflexivity|]. split; [exact Hs|]. split; [exact HR|]. vm_compute. auto.
Defined.
