(* ===== verification/SchedInv.v ===== *)
(** What holds of the scheduler at every point of every run, on lists.

    [s_inv] relates the state of every coroutine to the list it is in and to
    the rest of its call, says that no wake-up is lost (a free mutex with a
    queue has a coroutine on its way to it, a reader/writer lock with a queue
    is held, a joined coroutine has not ended), and that the counters count.
    The lemmas say how it is kept by the moves the handlers are made of. *)

From S2P Require Import Prelude SchedLinks Sched.

(** The calls on lists. *)
Abbreviation LM := (M (L := alinks)).

(** [m] answers, and [Q] holds of the answer and the state after it. *)
Definition wp {A} (m : LM A) (Q : A -> core -> alinks -> Prop) (k : core) (a : alinks) : Prop :=
  exists x k' a', m (k, a) = Some (x, (k', a')) /\ Q x k' a'.

(** ** The invariant *)

Definition waits (p : place) (r : NbCoro) : Prop :=
  match p with
  | PRun => False
  | PMutex m => c_cont r = KMutexLock m /\ c_rw_want r = 0
  | PCond k => (exists m, c_cont r = KMutexLock m) /\ c_rw_want r = 0
  | PRw l => (c_rw_want r = NB_RW_READ \/ c_rw_want r = NB_RW_WRITE) /\ c_cont r = KRwWait l (c_rw_want r)
  | PJoin t => c_cont r = KJoin t /\ c_rw_want r = 0
  | PDrain => c_cont r = KRun /\ c_rw_want r = 0
  end.

(** The state of a coroutine against the place it is in. *)
Definition status_ok (cur : Prop) (pl : option place) (timed : Prop) (r : NbCoro) : Prop :=
  c_pending_unlock r = None /\ (c_finished r = true <-> c_state r = NB_DONE) /\
  match c_state r with
  | NB_RUNNABLE => ~ cur /\ pl = Some PRun /\ ~ timed /\ c_rw_want r = 0
  | NB_RUNNING => cur /\ pl = None /\ ~ timed /\ c_cont r = KUser /\ c_rw_want r = 0
  | NB_PARKED =>
      ~ cur /\
      match pl with
      | None => c_rw_want r = 0 /\ (c_cont r = KUser \/ exists ms, c_cont r = KParkMs ms)
      | Some p => ~ timed /\ waits p r
      end
  | NB_DONE => ~ cur /\ pl = None /\ ~ timed /\ c_cont r = KUser
  end.

Lemma status_iff (P Q S T : Prop) pl r : (P <-> Q) -> (S <-> T) -> status_ok P pl S r <-> status_ok Q pl T r.
Proof. intros H1 H2. unfold status_ok. destruct (c_state r), pl; tauto. Qed.

Definition count (f : NbCoro -> bool) (cs : gmap nat NbCoro) : Z :=
  sum_with (fun '(c, r) => if negb (c =? rw_main_node)%nat && f r then 1 else 0) (map_to_list cs).

Definition unfinished (r : NbCoro) : bool := negb (c_finished r).
Definition unfinished_fiber (r : NbCoro) : bool := negb (c_finished r) && c_is_fiber r.

Definition wake_time (cs : gmap nat NbCoro) (c : nat) : Z := match cs !! c with Some r => c_wake_at_ms r | None => 0 end.

(** What the rest of a call refers to exists. *)
Definition cont_refs (k : core) (c : cont) : Prop :=
  match c with
  | KMutexLock m => is_Some (nb_mutexes k !! m)
  | KRwWait l want => is_Some (nb_rws k !! l)
  | _ => True
  end.

Definition main_refs (k : core) : Prop :=
  match nb_main k with
  | MMutexLock m => is_Some (nb_mutexes k !! m)
  | MCondWait c _ m | MCondWaitMs c _ m _ => is_Some (nb_conds k !! c) /\ is_Some (nb_mutexes k !! m)
  | MRwWait l _ => is_Some (nb_rws k !! l)
  | _ => True
  end.

(** The domains agree. *)
Record dom_inv (k : core) (a : alinks) : Prop := {
  d_coro c : is_Some (nb_coros k !! c) <-> is_Some (al_place a !! c);
  d_join c : is_Some (nb_coros k !! c) <-> is_Some (al_list a !! PJoin c);
  d_mutex m : is_Some (nb_mutexes k !! m) <-> is_Some (al_list a !! PMutex m);
  d_cond m : is_Some (nb_conds k !! m) <-> is_Some (al_list a !! PCond m);
  d_rw l : is_Some (nb_rws k !! l) <-> is_Some (al_list a !! PRw l);
  d_run : is_Some (al_list a !! PRun);
  d_drain : is_Some (al_list a !! PDrain);
  d_next c : is_Some (nb_coros k !! c) -> (c < nb_next_id k)%nat;
  d_main : is_Some (nb_coros k !! rw_main_node)
}.

(** Who joins whom. *)
Record join_inv (k : core) : Prop := {
  j_target j r t : nb_coros k !! j = Some r -> c_cont r = KJoin t ->
    exists rt, nb_coros k !! t = Some rt /\ t <> rw_main_node /\ c_joinable rt = true /\
      (c_state r = NB_RUNNABLE -> c_finished rt = true);
  j_unique i j ri rj t : nb_coros k !! i = Some ri -> nb_coros k !! j = Some rj ->
    c_cont ri = KJoin t -> c_cont rj = KJoin t -> i = j;
  j_main t : nb_main k = MJoin t ->
    exists rt, nb_coros k !! t = Some rt /\ t <> rw_main_node /\ c_joinable rt = true;
  j_main_only t j r : nb_main k = MJoin t -> nb_coros k !! j = Some r -> c_cont r <> KJoin t
}.

(** A coroutine on its way to mutex [m]. *)
Definition comes_for (cs : gmap nat NbCoro) (m : nat) : Prop :=
  exists c r, cs !! c = Some r /\ c <> rw_main_node /\ c_state r = NB_RUNNABLE /\ c_cont r = KMutexLock m.

(** Nobody waits for what has happened.  While coroutine [e] is ending, those
    who wait for its end are still to be woken. *)
Record wake_inv (e : option nat) (k : core) (a : alinks) : Prop := {
  w_mutex m : nb_mutexes k !! m = Some false -> al_list a !! PMutex m <> Some [] -> comes_for (nb_coros k) m;
  w_rw l w : nb_rws k !! l = Some w ->
    0 <= r_readers w /\ (r_writing w = true -> r_readers w = 0) /\
    (al_list a !! PRw l <> Some [] -> r_writing w = true \/ 0 < r_readers w);
  w_drain : e = None -> al_list a !! PDrain <> Some [] -> 0 < nb_fibers_live k;
  w_done t r : e <> Some t -> nb_coros k !! t = Some r -> c_finished r = true -> al_list a !! PJoin t = Some []
}.

(** The node of the main context. *)
Record main_inv (k : core) (a : alinks) : Prop := {
  n_cont r : nb_coros k !! rw_main_node = Some r -> c_cont r = KUser /\ c_finished r = false;
  n_timer : rw_main_node ∉ al_timers a;
  n_place p r : al_place a !! rw_main_node = Some (Some p) -> nb_coros k !! rw_main_node = Some r ->
    exists l, p = PRw l /\ c_rw_want r <> 0 /\ ((exists w, nb_main k = MRwWait l w) \/ nb_main k = MAborted);
  n_wait l w r : nb_main k = MRwWait l w -> nb_coros k !! rw_main_node = Some r -> c_rw_want r <> 0 ->
    al_place a !! rw_main_node = Some (Some (PRw l))
}.

Record s_inv (e : option nat) (k : core) (a : alinks) : Prop := {
  i_wf : a_wf a;
  i_dom : dom_inv k a;
  i_status c r pl : nb_coros k !! c = Some r -> c <> rw_main_node -> al_place a !! c = Some pl ->
    status_ok (nb_current k = Some c) pl (c ∈ al_timers a) r /\ cont_refs k (c_cont r);
  i_join : join_inv k;
  i_done c r : nb_coros k !! c = Some r -> e <> Some c -> c_state r = NB_DONE -> c_joinable r = true;
  i_wake : wake_inv e k a;
  i_main : main_inv k a;
  i_refs : main_refs k;
  i_current c : nb_current k = Some c -> c <> rw_main_node /\ exists r, nb_coros k !! c = Some r /\ c_state r = NB_RUNNING;
  i_timers : StronglySorted (fun x y => wake_time (nb_coros k) x <= wake_time (nb_coros k) y) (al_timers a);
  i_live : nb_live k = count unfinished (nb_coros k);
  i_fibers : nb_fibers_live k = count unfinished_fiber (nb_coros k)
}.

(** ** Counting *)

Definition counted (f : NbCoro -> bool) (c : nat) (r : NbCoro) : Z :=
  if negb (c =? rw_main_node)%nat && f r then 1 else 0.

Lemma count_insert_new f cs c r : cs !! c = None -> count f (<[c := r]> cs) = count f cs + counted f c r.
Proof.
  intros Hc. unfold count. rewrite (sum_with_perm _ _ _ (map_to_list_insert cs c r Hc)). simpl.
  unfold counted. lia.
Qed.

Lemma count_delete f cs c r : cs !! c = Some r -> count f (delete c cs) = count f cs - counted f c r.
Proof.
  intros Hc. rewrite <- (insert_delete_id cs c r Hc) at 2.
  rewrite count_insert_new by apply lookup_delete_eq. lia.
Qed.

Lemma count_insert f cs c r r' :
  cs !! c = Some r -> count f (<[c := r']> cs) = count f cs - counted f c r + counted f c r'.
Proof.
  intros Hc. rewrite <- insert_delete_eq. rewrite count_insert_new by apply lookup_delete_eq.
  rewrite (count_delete f cs c r Hc). lia.
Qed.

Lemma count_nonneg f cs : 0 <= count f cs.
Proof.
  apply sum_with_nonneg, Forall_forall. intros [c r] _. destruct (_ && _); lia.
Qed.

(** ** Moving one coroutine *)

(** The parts of the state a move leaves alone. *)
Definition same_rest (k k' : core) : Prop :=
  nb_live k' = nb_live k /\ nb_fibers_live k' = nb_fibers_live k /\ nb_mutexes k' = nb_mutexes k /\
  nb_conds k' = nb_conds k /\ nb_rws k' = nb_rws k /\ nb_main k' = nb_main k /\ nb_next_id k' = nb_next_id k.

Definition same_lists (a a' : alinks) : Prop := forall p, is_Some (al_list a' !! p) <-> is_Some (al_list a !! p).

(** A list that may become nonempty. *)
Definition excused (k : core) (p : place) : Prop :=
  match p with
  | PRun | PCond _ => True
  | PMutex m => nb_mutexes k !! m <> Some false
  | PRw l => forall w, nb_rws k !! l = Some w -> r_writing w = true \/ 0 < r_readers w
  | PDrain => 0 < nb_fibers_live k
  | PJoin t => forall r, nb_coros k !! t = Some r -> c_finished r = false
  end.

Lemma wake_move e k a k' a' c r r' :
  wake_inv e k a -> nb_coros k !! c = Some r -> nb_coros k' = <[c := r']> (nb_coros k) ->
  same_rest k k' -> c_finished r' = c_finished r ->
  (forall m, c_state r = NB_RUNNABLE -> c_cont r = KMutexLock m ->
     (c_state r' = NB_RUNNABLE /\ c_cont r' = KMutexLock m) \/ nb_mutexes k' !! m <> Some false) ->
  (forall p, al_list a !! p = Some [] -> al_list a' !! p = Some [] \/ excused k' p) ->
  wake_inv e k' a'.
Proof.
  intros [W1 W2 W3 W4] Hc Hcs (E1 & E2 & E3 & E4 & E5 & E6 & E7) Hf Hm Hl.
  split.
  - intros m Hmu Hne. rewrite E3 in Hmu.
    destruct (W1 m) as (x & rx & Hx & Hx0 & Hs & Hk); [done| |].
    { intros He. destruct (Hl _ He) as [He'|He']; [done|]. simpl in He'. congruence. }
    destruct (decide (x = c)) as [->|Hne']; simplify_map_eq.
    + destruct (Hm m) as [[? ?]|?]; [done|done| |congruence].
      exists c, r'. rewrite Hcs, lookup_insert_eq. done.
    + exists x, rx. rewrite Hcs, lookup_insert_ne by done. done.
  - intros l w Hw. rewrite E5 in Hw. destruct (W2 l w Hw) as (H1 & H2 & H3).
    split; [done|]. split; [done|]. intros Hne. destruct (decide (al_list a !! PRw l = Some [])) as [He|]; [|by apply H3].
    destruct (Hl _ He) as [He'|He']; [done|]. apply He'. congruence.
  - intros He0 Hne. rewrite E2. destruct (decide (al_list a !! PDrain = Some [])) as [He|]; [|by apply W3].
    destruct (Hl _ He) as [He'|He']; [done|]. simpl in He'. congruence.
  - intros t rt Het Ht Hfin.
    assert (al_list a !! PJoin t = Some []) as He.
    { destruct (decide (t = c)) as [->|Hne].
      - rewrite Hcs, lookup_insert_eq in Ht. injection Ht as <-. apply (W4 c r); congruence.
      - rewrite Hcs, lookup_insert_ne in Ht by done. by apply (W4 t rt). }
    destruct (Hl _ He) as [He'|He']; [done|]. simpl in He'. rewrite (He' rt) in Hfin by done. done.
Qed.

Lemma sorted_same (cs cs' : gmap nat NbCoro) l :
  (forall c, c ∈ l -> wake_time cs' c = wake_time cs c) ->
  StronglySorted (fun x y => wake_time cs x <= wake_time cs y) l ->
  StronglySorted (fun x y => wake_time cs' x <= wake_time cs' y) l.
Proof.
  intros Hw Hs. induction Hs as [|c l Hs IH Hall]; constructor.
  - apply IH. intros x Hx. apply Hw. by right.
  - rewrite Forall_forall in *. intros x Hx. rewrite !Hw by (by repeat constructor). by apply Hall.
Qed.

Lemma sorted_filter {A} (Q : A -> A -> Prop) (P : A -> Prop) `{!forall x, Decision (P x)} l :
  StronglySorted Q l -> StronglySorted Q (filter P l).
Proof.
  induction 1 as [|c l Hs IH Hall]; [constructor|]. rewrite filter_cons. destruct (decide (P c)); [|done].
  constructor; [done|]. rewrite Forall_forall in *. intros x [_ Hx]%list_elem_of_filter. by apply Hall.
Qed.

Lemma inv_move e k a k' a' c r r' pl' :
  s_inv e k a -> nb_coros k !! c = Some r -> c <> rw_main_node ->
  nb_coros k' = <[c := r']> (nb_coros k) -> same_rest k k' ->
  (forall x, x <> c -> nb_current k' = Some x <-> nb_current k = Some x) ->
  (nb_current k' = Some c -> c_state r' = NB_RUNNING) ->
  a_wf a' -> same_lists a a' ->
  (forall x, x <> c -> al_place a' !! x = al_place a !! x) -> al_place a' !! c = Some pl' ->
  (forall x, x <> c -> x ∈ al_timers a' <-> x ∈ al_timers a) ->
  status_ok (nb_current k' = Some c) pl' (c ∈ al_timers a') r' -> cont_refs k (c_cont r') ->
  c_finished r' = c_finished r -> c_is_fiber r' = c_is_fiber r ->
  (e <> Some c -> c_state r' = NB_DONE -> c_joinable r' = true) ->
  join_inv k' -> wake_inv e k' a' ->
  StronglySorted (fun x y => wake_time (nb_coros k') x <= wake_time (nb_coros k') y) (al_timers a') ->
  s_inv e k' a'.
Proof.
  intros I Hc Hc0 Hcs HE Hcur Hcurc Hwf Hsl Hpl Hplc Htm Hst Href Hfin Hfib Hdone HJ HW HS.
  destruct HE as (E1 & E2 & E3 & E4 & E5 & E6 & E7).
  pose proof (i_dom e k a I) as D. pose proof (i_main e k a I) as N.
  assert (Hcsx : forall x, x <> c -> nb_coros k' !! x = nb_coros k !! x).
  { intros x Hx. by rewrite Hcs, lookup_insert_ne. }
  assert (Hdom : forall x, is_Some (nb_coros k' !! x) <-> is_Some (nb_coros k !! x)).
  { intros x. rewrite Hcs. apply is_Some_insert. eauto. }
  split; try done.
  - destruct D as [D1 D2 D3 D4 D5 D6 D7 D8 D9]. split; rewrite ?E3, ?E4, ?E5, ?E7.
    + intros x. rewrite Hdom, D1. destruct (decide (x = c)) as [->|]; [|by rewrite Hpl].
      rewrite Hplc, <- D1, Hc. split; eauto.
    + intros x. by rewrite Hdom, D2, (Hsl (PJoin x)).
    + intros m. by rewrite D3, (Hsl (PMutex m)).
    + intros m. by rewrite D4, (Hsl (PCond m)).
    + intros m. by rewrite D5, (Hsl (PRw m)).
    + by apply Hsl.
    + by apply Hsl.
    + intros x Hx. apply D8. by apply Hdom.
    + by apply Hdom.
  - intros x rx plx Hx Hx0 Hpx.
    assert (Hrefs : forall q, cont_refs k q -> cont_refs k' q).
    { intros [] Hq; simpl in *; congruence. }
    destruct (decide (x = c)) as [->|Hne].
    + rewrite Hcs, lookup_insert_eq in Hx. rewrite Hplc in Hpx. simplify_eq. auto.
    + rewrite Hcsx in Hx by done. rewrite Hpl in Hpx by done.
      destruct (i_status e k a I x rx plx Hx Hx0 Hpx) as [Hs Hr]. split; [|by apply Hrefs].
      by apply (status_iff _ _ _ _ _ _ (Hcur x Hne) (Htm x Hne)).
  - intros x rx Hx Hex Hs. destruct (decide (x = c)) as [->|Hne].
    + rewrite Hcs, lookup_insert_eq in Hx. injection Hx as <-. by apply Hdone.
    + rewrite Hcsx in Hx by done. by apply (i_done e k a I x).
  - destruct N as [N1 N2 N3 N4]. split.
    + intros r0. rewrite Hcsx by done. apply N1.
    + by rewrite Htm.
    + intros p r0. rewrite Hpl, Hcsx, E6 by done. apply N3.
    + intros l w r0. rewrite Hpl, Hcsx, E6 by done. apply N4.
  - unfold main_refs. rewrite E3, E4, E5, E6. apply (i_refs e k a I).
  - intros x Hx. destruct (decide (x = c)) as [->|Hne].
    + split; [done|]. exists r'. rewrite Hcs, lookup_insert_eq. auto.
    + rewrite Hcsx by done. apply (i_current e k a I). by apply Hcur.
  - rewrite E1, (i_live e k a I), Hcs, (count_insert _ _ c r r' Hc). unfold counted, unfinished. rewrite Hfin. lia.
  - rewrite E2, (i_fibers e k a I), Hcs, (count_insert _ _ c r r' Hc). unfold counted, unfinished_fiber. rewrite Hfin, Hfib. lia.
Qed.

Lemma join_move k k' c r r' :
  join_inv k -> nb_coros k !! c = Some r -> nb_coros k' = <[c := r']> (nb_coros k) -> nb_main k' = nb_main k ->
  c_joinable r' = c_joinable r -> (c_finished r = true -> c_finished r' = true) ->
  (forall t, c_cont r' = KJoin t -> c_cont r = KJoin t /\
     (c_state r' = NB_RUNNABLE -> c_state r = NB_RUNNABLE \/ exists rt, nb_coros k !! t = Some rt /\ c_finished rt = true)) ->
  join_inv k'.
Proof.
  intros [J1 J2 J3 J4] Hc Hcs Hm Hj Hf Hk.
  (* what the new records say of the old ones *)
  assert (Hold : forall x rx', nb_coros k' !! x = Some rx' -> exists rx, nb_coros k !! x = Some rx /\
            c_joinable rx' = c_joinable rx /\ (c_finished rx = true -> c_finished rx' = true) /\
            forall t, c_cont rx' = KJoin t -> c_cont rx = KJoin t /\ (c_state rx' = NB_RUNNABLE ->
              c_state rx = NB_RUNNABLE \/ exists rt, nb_coros k !! t = Some rt /\ c_finished rt = true)).
  { intros x rx'. rewrite Hcs. destruct (decide (x = c)) as [->|Hne].
    - rewrite lookup_insert_eq. intros [= <-]. eauto 6.
    - rewrite lookup_insert_ne by done. eauto 8. }
  assert (Hnew : forall t rt, nb_coros k !! t = Some rt -> exists rt', nb_coros k' !! t = Some rt' /\
            c_joinable rt' = c_joinable rt /\ (c_finished rt = true -> c_finished rt' = true)).
  { intros t rt Ht. rewrite Hcs. destruct (decide (t = c)) as [->|Hne].
    - rewrite lookup_insert_eq. simplify_eq. eauto.
    - rewrite lookup_insert_ne by done. eauto. }
  split.
  - intros j rj t Hrj Hkj. destruct (Hold j rj Hrj) as (r0 & H0 & _ & _ & Hk0).
    destruct (Hk0 t Hkj) as [Hk1 Hs1]. destruct (J1 j r0 t H0 Hk1) as (rt & Ht & Ht0 & Htj & Htf).
    destruct (Hnew t rt Ht) as (rt' & Ht' & Hj' & Hf'). exists rt'.
    split; [done|]. split; [done|]. split; [congruence|]. intros Hs.
    destruct (Hs1 Hs) as [?|(rt0 & ? & ?)]; apply Hf'; [auto|congruence].
  - intros i j ri rj t Hi Hj' Hki Hkj.
    destruct (Hold i ri Hi) as (ri0 & Hi0 & _ & _ & Hki0). destruct (Hold j rj Hj') as (rj0 & Hj0 & _ & _ & Hkj0).
    apply (J2 i j ri0 rj0 t); try done; [by apply Hki0|by apply Hkj0].
  - intros t. rewrite Hm. intros Ht. destruct (J3 t Ht) as (rt & H1 & H2 & H3).
    destruct (Hnew t rt H1) as (rt' & ? & ? & ?). exists rt'. split; [done|]. split; [done|congruence].
  - intros t j rj. rewrite Hm. intros Ht Hrj Hkj. destruct (Hold j rj Hrj) as (r0 & H0 & _ & _ & Hk0).
    by apply (J4 t j r0 Ht H0), Hk0.
Qed.

(** ** Waking *)

Definition awake (r r' : NbCoro) : Prop :=
  c_state r' = NB_RUNNABLE /\ c_cont r' = c_cont r /\ c_rw_want r' = 0 /\ c_pending_unlock r' = c_pending_unlock r /\
  c_finished r' = c_finished r /\ c_is_fiber r' = c_is_fiber r /\ c_joinable r' = c_joinable r.

(** A coroutine in a waiting list is parked there. *)
Lemma waiting_status e k a p l c r :
  s_inv e k a -> al_list a !! p = Some l -> p <> PRun -> c ∈ l -> c <> rw_main_node -> nb_coros k !! c = Some r ->
  c_state r = NB_PARKED /\ nb_current k <> Some c /\ c ∉ al_timers a /\ waits p r /\
  c_pending_unlock r = None /\ c_finished r = false /\ cont_refs k (c_cont r).
Proof.
  intros I Hl Hp Hin Hc0 Hc. apply (wf_in a (i_wf e k a I) p l c Hl) in Hin.
  destruct (i_status e k a I c r _ Hc Hc0 Hin) as [(Hpu & Hf & Hs) Href].
  destruct (c_state r); [naive_solver|naive_solver| |naive_solver].
  destruct Hs as (? & ? & ?). split_and!; try done.
  destruct (c_finished r); [|done]. destruct Hf as [Hf _]. by specialize (Hf eq_refl).
Qed.

Lemma sorted_upd cs c r' l :
  c ∉ l -> StronglySorted (fun x y => wake_time cs x <= wake_time cs y) l ->
  StronglySorted (fun x y => wake_time (<[c := r']> cs) x <= wake_time (<[c := r']> cs) y) l.
Proof.
  intros Hc. apply sorted_same. intros x Hx. unfold wake_time. rewrite lookup_insert_ne; [done|congruence].
Qed.

Lemma lists_keep (ls : gmap place (list nat)) q l (p : place) :
  is_Some (ls !! q) -> is_Some (<[q := l]> ls !! p) <-> is_Some (ls !! p).
Proof. intros Hq. destruct (decide (p = q)) as [->|]; simplify_map_eq; [split; eauto|done]. Qed.

Lemma awake_status (P T : Prop) r r' :
  awake r r' -> ~ P -> ~ T -> c_pending_unlock r = None -> c_finished r = false -> status_ok P (Some PRun) T r'.
Proof.
  intros (E1 & E2 & E3 & E4 & E5 & E6 & E7) HP HT Hu Hf. unfold status_ok. rewrite E1, E4, E5, Hf.
  split; [done|]. split; [done|]. done.
Qed.

Lemma inv_wake e k a k' p c l run r r' :
  s_inv e k a -> al_list a !! p = Some (c :: l) -> p <> PRun -> al_list a !! PRun = Some run ->
  c <> rw_main_node -> nb_coros k !! c = Some r -> awake r r' ->
  (forall t, p = PJoin t -> exists rt, nb_coros k !! t = Some rt /\ c_finished rt = true) ->
  nb_coros k' = <[c := r']> (nb_coros k) -> same_rest k k' -> nb_current k' = nb_current k ->
  s_inv e k' (MkALinks (<[PRun := run ++ [c]]> (<[p := l]> (al_list a))) (al_timers a)
                (<[c := Some PRun]> (<[c := None]> (al_place a)))).
Proof.
  intros I Hl Hp Hrun Hc0 Hc Ha Hjoin Hcs HE Hcur.
  assert (Hin : c ∈ c :: l) by constructor.
  destruct (waiting_status e k a p _ c r I Hl Hp Hin Hc0 Hc) as (Hs & Hnc & Hnt & Hw & Hu & Hf & Href).
  pose proof Ha as (E1 & E2 & E3 & E4 & E5 & E6 & E7).
  pose proof (wf_take a p _ l c (i_wf e k a I) Hl ltac:(done)) as Hwf1.
  eapply (inv_move e k a k' _ c r r'); cbn; try done.
  - intros x _. by rewrite Hcur.
  - intros Hx. congruence.
  - refine (wf_put _ PRun run (run ++ [c]) c Hwf1 _ _ _); cbn;
      [by rewrite lookup_insert_ne|by rewrite lookup_insert_eq|by rewrite Permutation_app_comm].
  - intros q. cbn. rewrite !lists_keep; [done|eauto|]. apply lists_keep; eauto.
  - intros x Hx. by rewrite !lookup_insert_ne.
  - by rewrite lookup_insert_eq.
  - apply (awake_status _ _ r); [done|congruence|done..].
  - by rewrite E2.
  - intros _. congruence.
  - destruct HE as (_ & _ & _ & _ & _ & HE & _). apply (join_move k k' c r r' (i_join e k a I)); try done.
    + congruence.
    + intros t Ht. split; [congruence|]. intros _. right. apply Hjoin.
      rewrite E2 in Ht. destruct p; simpl in Hw; try done.
      * destruct Hw; congruence.
      * destruct Hw as [[? ?] ?]; congruence.
      * destruct Hw; congruence.
      * destruct Hw; congruence.
      * destruct Hw; congruence.
  - apply (wake_move e k a k' _ c r r' (i_wake e k a I)); cbn; try done.
    + congruence.
    + intros q Hq. destruct (decide (q = PRun)) as [->|]; [by right|]. left.
      rewrite lookup_insert_ne by done. destruct (decide (q = p)) as [->|]; [congruence|]. by rewrite lookup_insert_ne.
  - rewrite Hcs. apply sorted_upd; [done|]. apply (i_timers e k a I).
Qed.

(** ** Changes of the core alone *)

(** What a call may refer to is still there. *)
Definition same_refs (k k' : core) : Prop :=
  (forall m, is_Some (nb_mutexes k' !! m) <-> is_Some (nb_mutexes k !! m)) /\
  (forall m, is_Some (nb_conds k' !! m) <-> is_Some (nb_conds k !! m)) /\
  (forall m, is_Some (nb_rws k' !! m) <-> is_Some (nb_rws k !! m)).

Definition same_coros (k k' : core) : Prop :=
  nb_coros k' = nb_coros k /\ nb_current k' = nb_current k /\ nb_live k' = nb_live k /\
  nb_fibers_live k' = nb_fibers_live k /\ nb_next_id k' = nb_next_id k.

Lemma cont_refs_same k k' q : same_refs k k' -> cont_refs k q -> cont_refs k' q.
Proof. intros (H1 & H2 & H3). destruct q; simpl; [done|apply H1|apply H3|done..]. Qed.

Lemma main_refs_same k k' : same_refs k k' -> nb_main k' = nb_main k -> main_refs k -> main_refs k'.
Proof.
  intros (H1 & H2 & H3) Hm. unfold main_refs. rewrite Hm.
  destruct (nb_main k); try done; rewrite ?H1, ?H2, ?H3; done.
Qed.

Lemma dom_same k k' a : same_coros k k' -> same_refs k k' -> dom_inv k a -> dom_inv k' a.
Proof.
  intros (C1 & C2 & C3 & C4 & C5) (R1 & R2 & R3) [D1 D2 D3 D4 D5 D6 D7 D8 D9].
  split; rewrite ?C1, ?C5; try done; intros; rewrite ?R1, ?R2, ?R3; done.
Qed.

Lemma inv_core e k k' a :
  s_inv e k a -> same_coros k k' -> same_refs k k' -> nb_main k' = nb_main k -> wake_inv e k' a -> s_inv e k' a.
Proof.
  intros I HC HR Hm HW. pose proof HC as (C1 & C2 & C3 & C4 & C5).
  destruct I as [I1 I2 I3 I4 I5 I6 I7 I8 I9 I10 I11 I12].
  split; rewrite ?C1, ?C2, ?C3, ?C4; try done.
  - by apply (dom_same k).
  - intros c r pl Hc Hc0 Hp. destruct (I3 c r pl Hc Hc0 Hp). split; [done|]. by apply (cont_refs_same k).
  - destruct I4 as [J1 J2 J3 J4]. split; rewrite ?C1, ?Hm; done.
  - destruct I7 as [N1 N2 N3 N4]. split; rewrite ?C1, ?Hm; done.
  - by apply (main_refs_same k).
Qed.

(** Nothing the invariant looks at changes. *)
Lemma inv_quiet e k k' a :
  s_inv e k a -> same_coros k k' -> nb_main k' = nb_main k -> nb_mutexes k' = nb_mutexes k ->
  nb_rws k' = nb_rws k -> (forall m, is_Some (nb_conds k' !! m) <-> is_Some (nb_conds k !! m)) -> s_inv e k' a.
Proof.
  intros I HC Hm Hmu Hrw Hco. apply (inv_core e k k' a I HC); [|done|].
  - split; [by rewrite Hmu|]. split; [done|by rewrite Hrw].
  - destruct HC as (C1 & C2 & C3 & C4 & C5). destruct (i_wake e k a I) as [W1 W2 W3 W4].
    split; rewrite ?Hmu, ?Hrw, ?C1, ?C4; done.
Qed.

Lemma inv_mutex e k a m v :
  s_inv e k a -> is_Some (nb_mutexes k !! m) ->
  (v = false -> al_list a !! PMutex m <> Some [] -> comes_for (nb_coros k) m) ->
  s_inv e (set_nb_mutexes (<[m := v]> (nb_mutexes k)) k) a.
Proof.
  intros I Hm Hv. eapply inv_core; [done|by split_and!| |done|].
  - split; [|done]. intros x. by apply is_Some_insert.
  - destruct (i_wake e k a I) as [W1 W2 W3 W4]. split; cbn; try done.
    intros x. destruct (decide (x = m)) as [->|]; simplify_map_eq; [|apply W1]. intros [= ->]. by apply Hv.
Qed.

Lemma inv_rw e k a l w :
  s_inv e k a -> is_Some (nb_rws k !! l) ->
  0 <= r_readers w -> (r_writing w = true -> r_readers w = 0) ->
  (al_list a !! PRw l <> Some [] -> r_writing w = true \/ 0 < r_readers w) ->
  s_inv e (set_nb_rws (<[l := w]> (nb_rws k)) k) a.
Proof.
  intros I Hm H1 H2 H3. eapply inv_core; [done|by split_and!| |done|].
  - split; [done|]. split; [done|]. intros x. by apply is_Some_insert.
  - destruct (i_wake e k a I) as [W1 W2 W3 W4]. split; cbn; try done.
    intros x y. destruct (decide (x = l)) as [->|]; simplify_map_eq; [|apply W2]. by intros [= <-].
Qed.

(** ** Rules *)

Lemma wp_ret {A} (x : A) Q k a : Q x k a -> wp (mret x) Q k a.
Proof. intros HQ. by exists x, k, a. Qed.

Lemma wp_bind {A B} (m : LM A) (f : A -> LM B) Q k a :
  wp m (fun x k a => wp (f x) Q k a) k a -> wp (m ≫= f) Q k a.
Proof.
  intros (x & k' & a' & Hm & y & k2 & a2 & Hf & HQ). exists y, k2, a2. split; [|done].
  unfold mbind, M_bind. by rewrite Hm.
Qed.

Lemma wp_mono {A} (m : LM A) (P Q : A -> core -> alinks -> Prop) k a :
  (forall x k a, P x k a -> Q x k a) -> wp m P k a -> wp m Q k a.
Proof. intros HPQ (x & k' & a' & Hm & HP). exists x, k', a'. auto. Qed.

Lemma wp_gets {A} (f : core -> A) Q k a : Q (f k) k a -> wp (gets f) Q k a.
Proof. intros HQ. by eexists _, _, _. Qed.

Lemma wp_modify f (Q : unit -> core -> alinks -> Prop) k a : Q tt (f k) a -> wp (modify f) Q k a.
Proof. intros HQ. by eexists _, _, _. Qed.

Lemma wp_deref {V} (f : core -> gmap nat V) i r Q k a : f k !! i = Some r -> Q r k a -> wp (deref f i) Q k a.
Proof. intros Hf HQ. exists r, k, a. split; [|done]. unfold deref. simpl. by rewrite Hf. Qed.

Lemma wp_on_links f a' (Q : unit -> core -> alinks -> Prop) k a : f a = Some a' -> Q tt k a' -> wp (on_links f) Q k a.
Proof. intros Hf HQ. exists tt, k, a'. split; [|done]. unfold on_links. simpl. by rewrite Hf. Qed.

Lemma wp_of_links {A} (f : alinks -> option (A * alinks)) x a' Q k a :
  f a = Some (x, a') -> Q x k a' -> wp (of_links f) Q k a.
Proof. intros Hf HQ. exists x, k, a'. split; [|done]. unfold of_links. simpl. by rewrite Hf. Qed.

Lemma wp_see_links {A} (f : alinks -> option A) x Q k a : f a = Some x -> Q x k a -> wp (see_links f) Q k a.
Proof. intros Hf HQ. exists x, k, a. split; [|done]. unfold see_links. simpl. by rewrite Hf. Qed.

Lemma wp_upd_coro c f r (Q : unit -> core -> alinks -> Prop) k a :
  nb_coros k !! c = Some r -> Q tt (set_nb_coros (<[c := f r]> (nb_coros k)) k) a -> wp (upd_coro c f) Q k a.
Proof. intros Hc HQ. apply wp_bind, (wp_deref _ _ r); [done|]. by apply wp_modify. Qed.

(** What a wake-up leaves alone. *)
Record frame (k k' : core) : Prop := {
  fr_current : nb_current k' = nb_current k;
  fr_main : nb_main k' = nb_main k;
  fr_refs : same_refs k k';
  fr_running c r : nb_current k = Some c -> nb_coros k !! c = Some r -> nb_coros k' !! c = Some r;
  fr_counts : nb_live k' = nb_live k /\ nb_fibers_live k' = nb_fibers_live k /\ nb_live_coros k' = nb_live_coros k;
  fr_dom c : is_Some (nb_coros k' !! c) <-> is_Some (nb_coros k !! c)
}.

Lemma frame_refl k : frame k k.
Proof. by split. Qed.

Lemma same_refs_trans k1 k2 k3 : same_refs k1 k2 -> same_refs k2 k3 -> same_refs k1 k3.
Proof. intros (A1 & A2 & A3) (B1 & B2 & B3). split_and!; intros m; by rewrite ?B1, ?B2, ?B3. Qed.

Lemma frame_trans k1 k2 k3 : frame k1 k2 -> frame k2 k3 -> frame k1 k3.
Proof.
  intros [A1 A2 A3 A4 A5 A6] [B1 B2 B3 B4 B5 B6]. split.
  - congruence.
  - congruence.
  - by eapply same_refs_trans.
  - intros c r Hc Hr. apply B4; [congruence|]. by apply A4.
  - naive_solver congruence.
  - intros c. by rewrite B6.
Qed.

Lemma frame_upd k c r r' :
  nb_coros k !! c = Some r -> nb_current k <> Some c ->
  frame k (set_nb_coros (<[c := r']> (nb_coros k)) k).
Proof.
  intros Hc Hcur. split; cbn; try done.
  - intros x rx Hx Hr. rewrite lookup_insert_ne; [done|congruence].
  - intros x. apply is_Some_insert. eauto.
Qed.

Definition a_moved (a : alinks) (p : place) (l : list nat) (c : nat) (run : list nat) : alinks :=
  MkALinks (<[PRun := run ++ [c]]> (<[p := l]> (al_list a))) (al_timers a) (<[c := Some PRun]> (<[c := None]> (al_place a))).

Lemma wp_push_queue p c l (Q : unit -> core -> alinks -> Prop) k a :
  al_list a !! p = Some l -> al_place a !! c = Some None -> is_queue p = true ->
  Q tt k (MkALinks (<[p := l ++ [c]]> (al_list a)) (al_timers a) (<[c := Some p]> (al_place a))) ->
  wp (push_queue p c) Q k a.
Proof.
  intros Hl Hc Hp HQ. eapply wp_on_links; [|exact HQ]. cbn. unfold a_push. rewrite Hl. cbn.
  rewrite !option_guard_True by done. done.
Qed.

Lemma wp_make_runnable c r run (Q : unit -> core -> alinks -> Prop) k a :
  nb_coros k !! c = Some r -> al_list a !! PRun = Some run -> al_place a !! c = Some None ->
  Q tt (set_nb_coros (<[c := set_c_state NB_RUNNABLE r]> (nb_coros k)) k)
       (MkALinks (<[PRun := run ++ [c]]> (al_list a)) (al_timers a) (<[c := Some PRun]> (al_place a))) ->
  wp (make_runnable c) Q k a.
Proof.
  intros Hc Hr Hp HQ. apply wp_bind, (wp_upd_coro _ _ r); [done|]. by apply (wp_push_queue PRun c run).
Qed.

Lemma wp_pop_nil p (Q : option nat -> core -> alinks -> Prop) k a :
  al_list a !! p = Some [] -> is_queue p = true -> Q None k a -> wp (pop_queue p) Q k a.
Proof.
  intros Hl Hp HQ. eapply wp_of_links; [|exact HQ]. cbn. unfold a_pop. rewrite Hl. cbn.
  by rewrite option_guard_True by done.
Qed.

Lemma wp_pop_cons p c l (Q : option nat -> core -> alinks -> Prop) k a :
  al_list a !! p = Some (c :: l) -> is_queue p = true ->
  Q (Some c) k (MkALinks (<[p := l]> (al_list a)) (al_timers a) (<[c := None]> (al_place a))) ->
  wp (pop_queue p) Q k a.
Proof.
  intros Hl Hp HQ. eapply wp_of_links; [|exact HQ]. cbn. unfold a_pop. rewrite Hl. cbn.
  by rewrite option_guard_True by done.
Qed.

(** Members of a list are coroutines. *)
Lemma list_coro e k a p l c : s_inv e k a -> al_list a !! p = Some l -> c ∈ l -> is_Some (nb_coros k !! c).
Proof.
  intros I Hl Hc. apply (d_coro k a (i_dom e k a I)). apply (wf_in a (i_wf e k a I) p l c Hl) in Hc. eauto.
Qed.

(** Only reader/writer locks have the main context in their queue. *)
Lemma list_not_main e k a p l : s_inv e k a -> al_list a !! p = Some l -> (forall x, p <> PRw x) -> rw_main_node ∉ l.
Proof.
  intros I Hl Hp Hin. apply (wf_in a (i_wf e k a I) p l _ Hl) in Hin.
  destruct (d_main k a (i_dom e k a I)) as [r Hr].
  destruct (n_place k a (i_main e k a I) p r Hin Hr) as (x & -> & _). by apply (Hp x).
Qed.

Lemma awake_state r : c_rw_want r = 0 -> awake r (set_c_state NB_RUNNABLE r).
Proof. intros H. by split_and!. Qed.

Lemma same_rest_coros k cs : same_rest k (set_nb_coros cs k).
Proof. by split_and!. Qed.
#[local] Hint Resolve same_rest_coros : core.

(** The head of a queue that is not a reader/writer lock's. *)
Lemma head_facts e k a p c l :
  s_inv e k a -> al_list a !! p = Some (c :: l) -> p <> PRun -> (forall x, p <> PRw x) ->
  c <> rw_main_node /\ exists (r : NbCoro) (run : list nat), nb_coros k !! c = Some r /\ al_list a !! PRun = Some run /\
    nb_current k <> Some c /\ waits p r /\ c_rw_want r = 0.
Proof.
  intros I Hl Hp Hrw. assert (Hin : c ∈ c :: l) by constructor.
  assert (Hc0 : c <> rw_main_node).
  { intros ->. by apply (list_not_main e k a p _ I Hl). }
  destruct (list_coro e k a p _ c I Hl Hin) as [r Hr]. destruct (d_run k a (i_dom e k a I)) as [run Hrun].
  destruct (waiting_status e k a p _ c r I Hl Hp Hin Hc0 Hr) as (Hs & Hnc & Hnt & Hw & Hu & Hf & Href).
  split; [done|]. exists r, run. split_and!; try done. destruct p; simpl in Hw; naive_solver.
Qed.

(** The coroutine at the head of a queue wakes. *)
Lemma wp_wake_one e k a p l (Q : bool -> core -> alinks -> Prop) :
  s_inv e k a -> al_list a !! p = Some l -> is_queue p = true -> p <> PRun -> (forall x, p <> PRw x) ->
  (l = [] -> Q false k a) ->
  (forall c l' run r, l = c :: l' -> c <> rw_main_node -> al_list a !! PRun = Some run ->
     nb_coros k !! c = Some r -> waits p r -> c_rw_want r = 0 ->
     let k' := set_nb_coros (<[c := set_c_state NB_RUNNABLE r]> (nb_coros k)) k in
     s_inv e k' (a_moved a p l' c run) -> frame k k' -> Q true k' (a_moved a p l' c run)) ->
  wp (wake_one p) Q k a.
Proof.
  intros I Hl Hq Hp Hrw H0 H1. unfold wake_one. apply wp_bind. destruct l as [|c l'].
  - apply wp_pop_nil; [done|done|]. by apply wp_ret, H0.
  - destruct (head_facts e k a p c l' I Hl Hp Hrw) as (Hc0 & r & run & Hr & Hrun & Hnc & Hw & Hw0).
    eapply wp_pop_cons; [done|done|].
    apply wp_bind, (wp_make_runnable c r run); cbn; [done|by rewrite lookup_insert_ne|by rewrite lookup_insert_eq|].
    apply wp_ret, (H1 c l' run r); try done; [|by apply frame_upd with r].
    eapply (inv_wake e k a _ p c l' run r); try done; [by apply awake_state|]. by intros t ->.
Qed.

(** [wake_one] does not look at the core: a change of the mutexes commutes. *)
Lemma wake_one_mutexes p k a k' a' ms b :
  wake_one p (k, a) = Some (b, (k', a')) ->
  wake_one p (set_nb_mutexes ms k, a) = Some (b, (set_nb_mutexes ms k', a')).
Proof.
  unfold wake_one, pop_queue, make_runnable, upd_coro, nb_rq_push, push_queue, coro, deref, put_coro, modify,
    of_links, on_links, mbind, M_bind, mret, M_ret. cbn [fst snd].
  destruct (l_pop p a) as [[[c|] a1]|]; [|by intros [= <- <- <-]|done].
  cbn. destruct (nb_coros k !! c); [|done]. cbn. destruct (a_push PRun c a1); [|done]. by intros [= <- <- <-].
Qed.

Lemma wp_release e k a m (Q : unit -> core -> alinks -> Prop) :
  s_inv e k a -> is_Some (nb_mutexes k !! m) ->
  (forall k' a', s_inv e k' a' -> frame k k' -> Q tt k' a') -> wp (nurl__bare_mutex_release m) Q k a.
Proof.
  intros I [v Hm] HQ. unfold nurl__bare_mutex_release. apply wp_bind, (wp_deref _ _ v); [done|].
  apply wp_bind, wp_modify, wp_bind.
  assert (is_Some (al_list a !! PMutex m)) as [l Hl] by (apply (d_mutex k a (i_dom e k a I)); eauto).
  set (ms := <[m := false]> (nb_mutexes k)).
  assert (Hfr : forall k1, frame k k1 -> nb_mutexes k1 = nb_mutexes k -> frame k (set_nb_mutexes ms k1)).
  { intros k1 [F1 F2 (F3 & F4) F5 F6] Hms. split; try done. split; [|done].
    intros x. cbn. apply is_Some_insert. eauto. }
  assert (Hwp : wp (wake_one (PMutex m)) (fun _ k1 a1 => wp (mret tt) Q (set_nb_mutexes ms k1) a1) k a).
  { apply (wp_wake_one e k a (PMutex m) l); try done.
    - intros ->. apply wp_ret, HQ; [apply inv_mutex; eauto; done|]. by apply Hfr; [apply frame_refl|].
    - intros c l' run r -> Hc0 Hrun Hr [Hk _] Hw0 k1 I1 F1. apply wp_ret, HQ; [|by apply Hfr].
      apply (inv_mutex e k1 _ m false I1 ltac:(cbn; eauto)). intros _ _. exists c, (set_c_state NB_RUNNABLE r).
      subst k1. cbn. by rewrite lookup_insert_eq. }
  destruct Hwp as (b & k1 & a1 & Hrun & HQ1). exists b, (set_nb_mutexes ms k1), a1.
  split; [|done]. by apply wake_one_mutexes.
Qed.

(** ** A whole list wakes *)

Lemma all_run_step l c pl :
  c ∉ l -> all_run l (<[c := Some PRun]> (<[c := None]> pl)) = all_run (c :: l) pl.
Proof.
  intros Hc. apply map_eq. intros x. rewrite !all_run_lookup. simpl.
  destruct (decide (x = c)) as [->|Hne].
  - rewrite decide_False by done. rewrite decide_True by constructor. by rewrite lookup_insert_eq.
  - rewrite !lookup_insert_ne by done. destruct (decide (x ∈ l)).
    + by rewrite decide_True by (by right).
    + rewrite decide_False; [done|]. rewrite elem_of_cons. naive_solver.
Qed.

Lemma lists_step (ls : gmap place (list nat)) p l run c :
  p <> PRun ->
  <[PRun := (run ++ [c]) ++ l]> (<[p := []]> (<[PRun := run ++ [c]]> (<[p := l]> ls))) =
  <[PRun := run ++ c :: l]> (<[p := []]> ls).
Proof.
  intros Hp. rewrite <- app_assoc. simpl.
  rewrite (insert_insert_ne _ p PRun) by done. rewrite insert_insert_eq. by rewrite (insert_insert_eq _ p).
Qed.

(** The state of the coroutines of [l] is written, nothing else. *)
Fixpoint set_runnable (l : list nat) (cs : gmap nat NbCoro) : gmap nat NbCoro :=
  match l with
  | [] => cs
  | c :: l' => set_runnable l' (alter (set_c_state NB_RUNNABLE) c cs)
  end.

Lemma set_runnable_ne l cs x : x ∉ l -> set_runnable l cs !! x = cs !! x.
Proof.
  revert cs. induction l as [|c l IH]; intros cs Hx; simpl; [done|].
  rewrite IH by set_solver. apply lookup_alter_ne. set_solver.
Qed.

Lemma set_runnable_dom l cs x : is_Some (set_runnable l cs !! x) <-> is_Some (cs !! x).
Proof.
  revert cs. induction l as [|c l IH]; intros cs; simpl; [done|]. rewrite IH.
  destruct (decide (x = c)) as [->|]; [rewrite lookup_alter_eq; apply fmap_is_Some|by rewrite lookup_alter_ne].
Qed.

Lemma set_runnable_step c l r cs :
  cs !! c = Some r -> set_runnable (c :: l) cs = set_runnable l (<[c := set_c_state NB_RUNNABLE r]> cs).
Proof.
  intros Hr. simpl. f_equal. apply map_eq. intros x. destruct (decide (x = c)) as [->|].
  - by rewrite lookup_alter_eq, lookup_insert_eq, Hr.
  - by rewrite lookup_alter_ne, lookup_insert_ne by done.
Qed.

Lemma wp_all_runnable l : forall (Q : unit -> core -> alinks -> Prop) k a,
  (forall c, c ∈ l -> is_Some (nb_coros k !! c)) ->
  Q tt (set_nb_coros (set_runnable l (nb_coros k)) k) a -> wp (all_runnable l) Q k a.
Proof.
  induction l as [|c l IH]; intros Q k a Hl HQ; cbn [all_runnable].
  - apply wp_ret. by destruct k.
  - destruct (Hl c ltac:(constructor)) as [r Hr]. apply wp_bind, (wp_upd_coro _ _ r); [done|].
    apply IH; cbn.
    + intros x Hx. apply is_Some_insert; [eauto|]. apply Hl. by right.
    + by rewrite (set_runnable_step c l r) in HQ.
Qed.

Lemma inv_wake_list e l : forall k a p run,
  s_inv e k a -> al_list a !! p = Some l -> al_list a !! PRun = Some run -> is_queue p = false ->
  (forall t, p = PJoin t -> exists rt, nb_coros k !! t = Some rt /\ c_finished rt = true) ->
  s_inv e (set_nb_coros (set_runnable l (nb_coros k)) k)
    (MkALinks (<[PRun := run ++ l]> (<[p := []]> (al_list a))) (al_timers a) (all_run l (al_place a))).
Proof.
  induction l as [|c l IH]; intros k a p run I Hl Hrun Hq Ht.
  - rewrite app_nil_r, (insert_id _ p), insert_id by done. by destruct k, a.
  - assert (Hp : p <> PRun) by (by intros ->). assert (Hrw : forall x, p <> PRw x) by (by intros x ->).
    destruct (head_facts e k a p c l I Hl Hp Hrw) as (Hc0 & r & _ & Hr & _ & Hnc & Hw & Hw0).
    pose proof (wf_nodup a (i_wf e k a I) p _ Hl) as [Hcl Hnd]%NoDup_cons.
    set (k1 := set_nb_coros (<[c := set_c_state NB_RUNNABLE r]> (nb_coros k)) k).
    pose proof (inv_wake e k a k1 p c l run r _ I Hl Hp Hrun Hc0 Hr (awake_state r Hw0) Ht
      eq_refl (same_rest_coros k _) eq_refl) as I1.
    rewrite (set_runnable_step c l r) by done.
    pose proof (IH k1 _ p (run ++ [c]) I1) as H2. cbn in H2.
    rewrite lists_step, all_run_step in H2 by done. apply H2; [|by rewrite lookup_insert_eq|done|].
    + rewrite lookup_insert_ne by done. by rewrite lookup_insert_eq.
    + intros t ->. destruct (Ht t eq_refl) as (rt & Hrt & Hf). destruct (decide (t = c)) as [->|].
      * rewrite lookup_insert_eq. simplify_eq. eauto.
      * rewrite lookup_insert_ne by done. eauto.
Qed.

Lemma set_runnable_fields l cs c r :
  cs !! c = Some r -> exists r', set_runnable l cs !! c = Some r' /\ c_cont r' = c_cont r /\ c_joinable r' = c_joinable r /\
    c_finished r' = c_finished r /\ c_is_fiber r' = c_is_fiber r.
Proof.
  revert cs r. induction l as [|x l IH]; intros cs r Hc; simpl; [by exists r|].
  destruct (decide (x = c)) as [Heq|Hne]; [subst x|].
  - destruct (IH (alter (set_c_state NB_RUNNABLE) c cs) (set_c_state NB_RUNNABLE r)) as (r1 & H1 & H2 & H3 & H4 & H5);
      [by rewrite lookup_alter_eq, Hc|]. by exists r1.
  - apply IH. by rewrite lookup_alter_ne.
Qed.

(** Everybody in a list of waiters wakes. *)
Lemma wp_wake_all e k a p l (Q : unit -> core -> alinks -> Prop) :
  s_inv e k a -> al_list a !! p = Some l -> is_queue p = false ->
  (forall t, p = PJoin t -> exists rt, nb_coros k !! t = Some rt /\ c_finished rt = true) ->
  (forall run, al_list a !! PRun = Some run ->
     let k' := set_nb_coros (set_runnable l (nb_coros k)) k in
     let a' := MkALinks (<[PRun := run ++ l]> (<[p := []]> (al_list a))) (al_timers a) (all_run l (al_place a)) in
     s_inv e k' a' -> Q tt k' a') ->
  wp (wake_all p) Q k a.
Proof.
  intros I Hl Hq Ht HQ. destruct (d_run k a (i_dom e k a I)) as [run Hrun].
  apply wp_bind. eapply wp_of_links.
  - cbn. unfold a_wake. rewrite Hl. cbn. rewrite option_guard_True by done. cbn. rewrite Hrun. done.
  - apply wp_all_runnable; [|apply HQ; [done|by apply inv_wake_list]].
    intros c Hc. by apply (list_coro e k a p l).
Qed.

(** ** Fields the invariant does not look at *)

Definition alike (r r' : NbCoro) : Prop :=
  c_state r' = c_state r /\ c_cont r' = c_cont r /\ c_rw_want r' = c_rw_want r /\ c_pending_unlock r' = c_pending_unlock r /\
  c_finished r' = c_finished r /\ c_is_fiber r' = c_is_fiber r /\ c_joinable r' = c_joinable r.

Lemma alike_status P pl T r r' : alike r r' -> status_ok P pl T r -> status_ok P pl T r'.
Proof.
  intros (E1 & E2 & E3 & E4 & E5 & E6 & E7). unfold status_ok. rewrite E1, E4, E5.
  destruct (c_state r), pl as [p|]; rewrite ?E2, ?E3; try done.
  destruct p; simpl; by rewrite ?E2, ?E3.
Qed.

Lemma inv_touch e k a k' c r r' :
  s_inv e k a -> nb_coros k !! c = Some r -> alike r r' -> (c ∈ al_timers a -> c_wake_at_ms r' = c_wake_at_ms r) ->
  k' = set_nb_coros (<[c := r']> (nb_coros k)) k -> s_inv e k' a.
Proof.
  intros I Hc Ha Ht ->. pose proof Ha as (E1 & E2 & E3 & E4 & E5 & E6 & E7).
  assert (Hnew : forall x rx', <[c := r']> (nb_coros k) !! x = Some rx' -> exists rx, nb_coros k !! x = Some rx /\ alike rx rx').
  { intros x rx' [[<- <-]|[_ Hx]]%lookup_insert_Some; [eauto|]. exists rx'. by split_and!. }
  assert (Hold : forall x rx, nb_coros k !! x = Some rx -> exists rx', <[c := r']> (nb_coros k) !! x = Some rx' /\ alike rx rx').
  { intros x rx Hx. destruct (decide (x = c)) as [->|].
    - exists r'. rewrite lookup_insert_eq. split; [done|]. congruence.
    - exists rx. rewrite lookup_insert_ne by done. by split_and!. }
  destruct I as [I1 I2 I3 [J1 J2 J3 J4] I5 [W1 W2 W3 W4] [N1 N2 N3 N4] I8 I9 I10 I11 I12].
  split; try done; cbn.
  - destruct I2 as [D1 D2 D3 D4 D5 D6 D7 D8 D9].
    assert (Hd : forall x, is_Some (<[c := r']> (nb_coros k) !! x) <-> is_Some (nb_coros k !! x)).
    { intros x. apply is_Some_insert. eauto. }
    split; try done; cbn; intros; rewrite ?Hd in *; auto.
  - intros x rx pl (rx0 & Hx & Hal)%Hnew Hx0 Hpl. destruct (I3 x rx0 pl Hx Hx0 Hpl).
    split; [by eapply alike_status|]. destruct Hal as (_ & -> & _). done.
  - split; cbn.
    + intros j rj t (rj0 & Hj & Haj)%Hnew Hk. destruct Haj as (Hs & Hkk & _). rewrite Hkk in Hk.
      destruct (J1 j rj0 t Hj Hk) as (rt & Hrt & Ht0 & Hjt & Hft). destruct (Hold t rt Hrt) as (rt' & ? & (_ & _ & _ & _ & Hf & _ & Hjj)).
      exists rt'. rewrite Hs, Hf, Hjj. done.
    + intros i j ri rj t (ri0 & Hi & (_ & Hki & _))%Hnew (rj0 & Hj & (_ & Hkj & _))%Hnew. rewrite Hki, Hkj. by apply J2.
    + intros t Hm. destruct (J3 t Hm) as (rt & Hrt & ? & ?). destruct (Hold t rt Hrt) as (rt' & ? & (_ & _ & _ & _ & _ & _ & Hjj)).
      exists rt'. rewrite Hjj. done.
    + intros t j rj Hm (rj0 & Hj & (_ & -> & _))%Hnew. by apply (J4 t j).
  - intros x rx (rx0 & Hx & Hal)%Hnew Hex. destruct Hal as (-> & _ & _ & _ & _ & _ & ->). by apply (I5 x).
  - split; cbn; try done.
    + intros m Hm Hq. destruct (W1 m Hm Hq) as (x & rx & Hx & Hx0 & Hs & Hk). destruct (Hold x rx Hx) as (rx' & ? & (Hs' & Hk' & _)).
      exists x, rx'. rewrite Hs', Hk'. done.
    + intros t rt Het (rt0 & Hrt & (_ & _ & _ & _ & -> & _ & _))%Hnew. by apply (W4 t).
  - split; cbn; try done.
    + intros r0 (r1 & Hr & (_ & -> & _ & _ & -> & _ & _))%Hnew. by apply N1.
    + intros p r0 Hp (r1 & Hr & (_ & _ & -> & _))%Hnew. by apply (N3 p).
    + intros l w r0 Hm (r1 & Hr & (_ & _ & -> & _))%Hnew. by apply (N4 l w).
  - intros x Hx. destruct (I9 x Hx) as (? & rx & Hrx & ?). split; [done|]. destruct (Hold x rx Hrx) as (rx' & ? & (Hs & _)).
    exists rx'. rewrite Hs. done.
  - apply (sorted_same (nb_coros k)); [|done]. intros x Hx. unfold wake_time.
    destruct (decide (x = c)) as [->|]; [rewrite lookup_insert_eq, Hc; auto|by rewrite lookup_insert_ne].
  - rewrite (count_insert _ _ c r r' Hc), I11. unfold counted, unfinished. rewrite E5. lia.
  - rewrite (count_insert _ _ c r r' Hc), I12. unfold counted, unfinished_fiber. rewrite E5, E6. lia.
Qed.
