(* ===== verification/SchedMoves.v ===== *)
(** How the invariant of [SchedInv] is kept by parking, switching back to the
    loop, ending, spawning, freeing, expiring timers and unparking. *)

From S2P Require Import Prelude SchedLinks Sched SchedInv.

#[local] Hint Resolve same_rest_coros : core.

(** ** Parking *)

Lemma running_status k a c :
  s_inv None k a -> nb_current k = Some c ->
  c <> rw_main_node /\ exists r, nb_coros k !! c = Some r /\ c_state r = NB_RUNNING /\ al_place a !! c = Some None /\
    c ∉ al_timers a /\ c_cont r = KUser /\ c_rw_want r = 0 /\ c_finished r = false /\ c_pending_unlock r = None.
Proof.
  intros I Hcur. destruct (i_current None k a I c Hcur) as (Hc0 & r & Hr & Hs). split; [done|]. exists r.
  assert (is_Some (al_place a !! c)) as [pl Hpl] by (apply (d_coro k a (i_dom None k a I)); eauto).
  destruct (i_status None k a I c r pl Hr Hc0 Hpl) as [(Hu & Hf & Hst) Href]. rewrite Hs in Hst.
  destruct Hst as (_ & -> & Hnt & Hk & Hw). split_and!; try done.
  destruct (c_finished r); [|done]. destruct Hf as [Hf _]. specialize (Hf eq_refl). congruence.
Qed.

(** What parking makes of the record. *)
Definition parks (K : cont) (r r' : NbCoro) : Prop :=
  c_state r' = NB_PARKED /\ c_cont r' = K /\ c_pending_unlock r' = None /\
  c_finished r' = c_finished r /\ c_is_fiber r' = c_is_fiber r /\ c_joinable r' = c_joinable r.

Definition parked (K : cont) (r : NbCoro) : NbCoro :=
  set_c_pending_unlock None (set_c_cont K (set_c_state NB_PARKED r)).

Lemma parked_parks K r : parks K r (parked K r).
Proof. by split_and!. Qed.

(** A new joiner. *)
Definition may_join (k : core) (t : nat) : Prop :=
  t <> rw_main_node /\ (exists rt, nb_coros k !! t = Some rt /\ c_joinable rt = true) /\
  (forall j r, nb_coros k !! j = Some r -> c_cont r <> KJoin t) /\ nb_main k <> MJoin t.

Lemma join_park k k' c r r' :
  join_inv k -> nb_coros k !! c = Some r -> nb_coros k' = <[c := r']> (nb_coros k) -> nb_main k' = nb_main k ->
  c_joinable r' = c_joinable r -> c_finished r' = c_finished r -> c_state r' = NB_PARKED ->
  (forall t, c_cont r' = KJoin t -> may_join k t) -> join_inv k'.
Proof.
  intros [J1 J2 J3 J4] Hc Hcs Hm Hj Hf Hs Hk.
  assert (Hnew : forall t rt, nb_coros k !! t = Some rt -> exists rt', nb_coros k' !! t = Some rt' /\
            c_joinable rt' = c_joinable rt /\ c_finished rt' = c_finished rt).
  { intros t rt Ht. rewrite Hcs. destruct (decide (t = c)) as [->|Hne].
    - rewrite lookup_insert_eq. simplify_eq. eauto.
    - rewrite lookup_insert_ne by done. eauto. }
  assert (Hone : forall j rj t, nb_coros k' !! j = Some rj -> c_cont rj = KJoin t ->
            (j = c /\ rj = r' /\ may_join k t) \/ (j <> c /\ nb_coros k !! j = Some rj)).
  { intros j rj t. rewrite Hcs. destruct (decide (j = c)) as [->|Hne].
    - rewrite lookup_insert_eq. intros [= <-] Hkt. left. auto.
    - rewrite lookup_insert_ne by done. auto. }
  split.
  - intros j rj t Hrj Hkj. destruct (Hone j rj t Hrj Hkj) as [(-> & -> & Ht0 & (rt & Hrt & Hjt) & _)|[Hne Hj0]].
    + destruct (Hnew t rt Hrt) as (rt' & ? & ? & ?). exists rt'. split_and!; [done|done|congruence|congruence].
    + destruct (J1 j rj t Hj0 Hkj) as (rt & Hrt & Ht0 & Hjt & Hft).
      destruct (Hnew t rt Hrt) as (rt' & ? & ? & Hf'). exists rt'. rewrite Hf'. split_and!; [done|done|congruence|done].
  - intros i j ri rj t Hi Hj' Hki Hkj.
    destruct (Hone i ri t Hi Hki) as [(-> & _ & _ & _ & Hno & _)|[Hni Hi0]];
      destruct (Hone j rj t Hj' Hkj) as [(-> & _ & _ & _ & Hno' & _)|[Hnj Hj0]]; try done.
    + by apply Hno in Hj0.
    + by apply Hno' in Hi0.
    + by apply (J2 i j ri rj t).
  - intros t. rewrite Hm. intros Ht. destruct (J3 t Ht) as (rt & H1 & H2 & H3).
    destruct (Hnew t rt H1) as (rt' & ? & ? & ?). exists rt'. split_and!; [done|done|congruence].
  - intros t j rj. rewrite Hm. intros Ht Hrj Hkj.
    destruct (Hone j rj t Hrj Hkj) as [(_ & _ & _ & _ & _ & Hno)|[Hnj Hj0]]; [done|]. by apply (J4 t j rj Ht Hj0).
Qed.

(** The running coroutine parks, in a list or in none. *)
Lemma inv_park k a k' a' c r r' pl' K :
  s_inv None k a -> nb_current k = Some c -> nb_coros k !! c = Some r -> parks K r r' ->
  nb_coros k' = <[c := r']> (nb_coros k) -> same_rest k k' -> nb_current k' = None ->
  a_wf a' -> same_lists a a' -> (forall x, x <> c -> al_place a' !! x = al_place a !! x) -> al_place a' !! c = Some pl' ->
  (forall x, x <> c -> x ∈ al_timers a' <-> x ∈ al_timers a) ->
  match pl' with
  | None => c_rw_want r' = 0 /\ (K = KUser \/ exists ms, K = KParkMs ms)
  | Some p => c ∉ al_timers a' /\ waits p r'
  end ->
  cont_refs k K -> (forall t, K = KJoin t -> may_join k t) ->
  (forall p, al_list a !! p = Some [] -> al_list a' !! p = Some [] \/ excused k' p) ->
  StronglySorted (fun x y => wake_time (nb_coros k') x <= wake_time (nb_coros k') y) (al_timers a') ->
  s_inv None k' a'.
Proof.
  intros I Hcur Hc (E1 & <- & E3 & E4 & E5 & E6) Hcs HE Hcur' Hwf Hsl Hpl Hplc Htm Hst Href Hjo Hex HS.
  destruct (running_status k a c I Hcur) as (Hc0 & r0 & Hr0 & Hrun & Hp0 & Hnt & Hk0 & Hw0 & Hf0 & Hu0).
  assert (r0 = r) as -> by congruence.
  eapply (inv_move None k a k' a' c r r' pl'); try done.
  - intros x Hx. rewrite Hcur', Hcur. naive_solver.
  - by rewrite Hcur'.
  - unfold status_ok. rewrite E1, E3, E4, Hcur'. split; [done|]. split; [by rewrite Hf0|]. split; [done|].
    destruct pl' as [p|]; exact Hst.
  - intros _. congruence.
  - destruct HE as (_ & _ & _ & _ & _ & HE & _).
    by apply (join_park k k' c r r' (i_join None k a I)).
  - apply (wake_move None k a k' a' c r r' (i_wake None k a I)); try done. intros m Hs. congruence.
Qed.

(** It parks in the list [p]. *)
Lemma inv_park_at k a k' c r r' K p l l' :
  s_inv None k a -> nb_current k = Some c -> nb_coros k !! c = Some r -> parks K r r' ->
  nb_coros k' = <[c := r']> (nb_coros k) -> same_rest k k' -> nb_current k' = None ->
  al_list a !! p = Some l -> l' ≡ₚ c :: l -> waits p r' -> cont_refs k K ->
  (forall t, K = KJoin t -> may_join k t) -> excused k' p ->
  s_inv None k' (MkALinks (<[p := l']> (al_list a)) (al_timers a) (<[c := Some p]> (al_place a))).
Proof.
  intros I Hcur Hc Hpk Hcs HE Hcur' Hl Hperm Hw Href Hjo Hex.
  destruct (running_status k a c I Hcur) as (Hc0 & r0 & Hr0 & Hrun & Hp0 & Hnt & Hk0 & Hw0 & Hf0 & Hu0).
  eapply (inv_park k a k' _ c r r' (Some p) K); try done; cbn.
  - by apply (wf_put a p l l' c (i_wf None k a I)).
  - intros q. apply lists_keep. eauto.
  - intros x Hx. by rewrite lookup_insert_ne.
  - by rewrite lookup_insert_eq.
  - intros q Hq. destruct (decide (q = p)) as [->|]; [by right|]. left. by rewrite lookup_insert_ne.
  - rewrite Hcs. apply sorted_upd; [done|]. apply (i_timers None k a I).
Qed.

(** Back in the loop. *)
Lemma wp_switch_parked c r (Q : unit -> core -> alinks -> Prop) k a :
  nb_coros k !! c = Some r -> c_state r = NB_PARKED ->
  (forall m, c_pending_unlock r = Some m -> is_Some (nb_mutexes k !! m)) ->
  s_inv None (set_nb_coros (<[c := set_c_pending_unlock None r]> (nb_coros k)) (set_nb_current None k)) a ->
  (forall k' a', s_inv None k' a' -> nb_current k' = None -> nb_main k' = nb_main k -> Q tt k' a') ->
  wp (after_switch c) Q k a.
Proof.
  intros Hc Hs Hm I HQ. apply wp_bind, wp_modify, wp_bind, (wp_deref _ _ r); [done|]. rewrite Hs.
  apply wp_bind, (wp_upd_coro _ _ r); [done|].
  destruct (c_pending_unlock r) as [m|] eqn:Hp; [|by apply wp_ret, HQ].
  apply (wp_release None); [exact I|cbn; by apply Hm|].
  intros k' a' I' F. apply HQ; [done|by rewrite (fr_current _ _ F)|by rewrite (fr_main _ _ F)].
Qed.

Lemma wp_park K c r (Q : unit -> core -> alinks -> Prop) k a :
  nb_current k = Some c -> nb_coros k !! c = Some r ->
  (forall m, c_pending_unlock r = Some m -> is_Some (nb_mutexes k !! m)) ->
  s_inv None (set_nb_coros (<[c := parked K r]> (nb_coros k)) (set_nb_current None k)) a ->
  (forall k' a', s_inv None k' a' -> nb_current k' = None -> nb_main k' = nb_main k -> Q tt k' a') ->
  wp (nb_park K) Q k a.
Proof.
  intros Hcur Hc Hm I HQ. apply wp_bind, wp_gets. rewrite Hcur.
  apply wp_bind, (wp_upd_coro _ _ r); [done|].
  eapply wp_switch_parked; [cbn; by rewrite lookup_insert_eq|done|exact Hm| |exact HQ].
  cbn. rewrite insert_insert_eq. exact I.
Qed.

(** ** Yielding *)

Lemma inv_yield k a k' c r r' run :
  s_inv None k a -> nb_current k = Some c -> nb_coros k !! c = Some r -> r' = set_c_state NB_RUNNABLE r ->
  nb_coros k' = <[c := r']> (nb_coros k) -> same_rest k k' -> nb_current k' = None ->
  al_list a !! PRun = Some run ->
  s_inv None k' (MkALinks (<[PRun := run ++ [c]]> (al_list a)) (al_timers a) (<[c := Some PRun]> (al_place a))).
Proof.
  intros I Hcur Hc -> Hcs HE Hcur' Hrun.
  destruct (running_status k a c I Hcur) as (Hc0 & r0 & Hr0 & Hs & Hp0 & Hnt & Hk0 & Hw0 & Hf0 & Hu0).
  assert (r0 = r) as -> by congruence.
  eapply (inv_move None k a k' _ c r _ (Some PRun)); try done; cbn.
  - intros x Hx. rewrite Hcur', Hcur. naive_solver.
  - by rewrite Hcur'.
  - apply (wf_put a PRun run _ c (i_wf None k a I)); [done|done|by rewrite Permutation_app_comm].
  - intros q. apply lists_keep. eauto.
  - intros x Hx. by rewrite lookup_insert_ne.
  - by rewrite lookup_insert_eq.
  - unfold status_ok. cbn. rewrite Hu0, Hf0, Hcur'. done.
  - by rewrite Hk0.
  - destruct HE as (_ & _ & _ & _ & _ & HE & _). apply (join_move k k' c r (set_c_state NB_RUNNABLE r) (i_join None k a I)); try done.
    intros t. cbn. congruence.
  - apply (wake_move None k a k' _ c r (set_c_state NB_RUNNABLE r) (i_wake None k a I)); try done; [congruence|].
    intros q Hq. destruct (decide (q = PRun)) as [->|]; [by right|]. left. cbn. by rewrite lookup_insert_ne.
  - rewrite Hcs. apply sorted_upd; [done|]. apply (i_timers None k a I).
Qed.

Lemma wp_yield c r (Q : unit -> core -> alinks -> Prop) k a :
  s_inv None k a -> nb_current k = Some c -> nb_coros k !! c = Some r ->
  (forall k' a', s_inv None k' a' -> nb_current k' = None -> nb_main k' = nb_main k -> Q tt k' a') ->
  wp (upd_coro c (set_c_state NB_RUNNABLE);; after_switch c) Q k a.
Proof.
  intros I Hcur Hc HQ.
  destruct (running_status k a c I Hcur) as (Hc0 & r0 & Hr0 & Hs & Hp0 & _).
  destruct (d_run k a (i_dom None k a I)) as [run Hrun].
  apply wp_bind, (wp_upd_coro _ _ r); [done|]. apply wp_bind, wp_modify. cbn.
  apply wp_bind, (wp_deref _ _ (set_c_state NB_RUNNABLE r)); [cbn; by rewrite lookup_insert_eq|]. cbn.
  apply (wp_make_runnable c (set_c_state NB_RUNNABLE r) run); cbn; [by rewrite lookup_insert_eq|done|done|].
  rewrite insert_insert_eq. apply HQ; [|done|done].
  by apply (inv_yield k a _ c r (set_c_state NB_RUNNABLE r) run).
Qed.

(** ** Freeing *)

Lemma wp_coro_free c r (Q : unit -> core -> alinks -> Prop) k a :
  nb_coros k !! c = Some r -> al_place a !! c = Some None -> c ∉ al_timers a -> al_list a !! PJoin c = Some [] ->
  Q tt (set_nb_live_coros (nb_live_coros k - 1) (set_nb_coros (delete c (nb_coros k)) k))
    (MkALinks (delete (PJoin c) (al_list a)) (al_timers a) (delete c (al_place a))) ->
  wp (nb_coro_free c) Q k a.
Proof.
  intros Hc Hp Ht Hl HQ. apply wp_bind, (wp_deref _ _ r); [done|]. apply wp_bind. eapply wp_on_links.
  - cbn. unfold a_free. by rewrite !option_guard_True by done.
  - by apply wp_modify.
Qed.

(** The coroutine [c] has ended and nobody will join it. *)
Lemma inv_free e k a c r :
  s_inv e k a -> e = None \/ e = Some c -> nb_coros k !! c = Some r -> c <> rw_main_node -> c_finished r = true ->
  al_place a !! c = Some None -> c ∉ al_timers a -> al_list a !! PJoin c = Some [] ->
  (forall j rj, nb_coros k !! j = Some rj -> c_cont rj <> KJoin c) -> nb_main k <> MJoin c ->
  nb_current k <> Some c ->
  (al_list a !! PDrain = Some [] \/ 0 < nb_fibers_live k) ->
  s_inv None (set_nb_coros (delete c (nb_coros k)) k)
    (MkALinks (delete (PJoin c) (al_list a)) (al_timers a) (delete c (al_place a))).
Proof.
  intros I He Hc Hc0 Hf Hp Ht Hl Hno Hm Hcur Hdr.
  destruct (i_dom e k a I) as [D1 D2 D3 D4 D5 D6 D7 D8 D9]. destruct (i_join e k a I) as [J1 J2 J3 J4].
  destruct (i_wake e k a I) as [W1 W2 W3 W4]. destruct (i_main e k a I) as [N1 N2 N3 N4].
  split; cbn.
  - exact (wf_drop (MkALinks (al_list a) (al_timers a) (delete c (al_place a))) (PJoin c)
      (wf_gone a c (i_wf e k a I) Hp Ht) (or_intror Hl)).
  - split; cbn; rewrite ?(lookup_delete_ne (al_list a)) by done; try done.
    + intros x. destruct (decide (x = c)) as [->|]; simplify_map_eq; [|apply D1]. split; by intros [? ?].
    + intros x. destruct (decide (x = c)) as [->|]; [simplify_map_eq; split; by intros [? ?]|].
      rewrite !lookup_delete_ne by congruence. apply D2.
    + intros m. rewrite lookup_delete_ne by done. apply D3.
    + intros m. rewrite lookup_delete_ne by done. apply D4.
    + intros m. rewrite lookup_delete_ne by done. apply D5.
    + intros x [rx [_ Hx]%lookup_delete_Some]. apply D8. eauto.
    + by rewrite lookup_delete_ne.
  - intros x rx pl [_ Hx]%lookup_delete_Some Hx0 [_ Hpl]%lookup_delete_Some. by apply (i_status e k a I).
  - split; cbn.
    + intros j rj t [_ Hj]%lookup_delete_Some Hk.
      destruct (J1 j rj t) as (rt & ? & ? & ? & ?); [done|done|]. exists rt.
      rewrite lookup_delete_ne; [done|]. intros ->. by apply (Hno j rj).
    + intros i j ri rj t [_ Hi]%lookup_delete_Some [_ Hj]%lookup_delete_Some. by apply (J2 i j ri rj t).
    + intros t Hmt. destruct (J3 t Hmt) as (rt & ? & ? & ?). exists rt. rewrite lookup_delete_ne; [done|congruence].
    + intros t j rj Hmt [_ Hj]%lookup_delete_Some. by apply (J4 t j rj).
  - intros x rx [Hne Hx]%lookup_delete_Some _ Hs.
    apply (i_done e k a I x); try done. destruct He as [->| ->]; congruence.
  - split; cbn; rewrite ?(lookup_delete_ne (al_list a)) by done.
    + intros m Hm0. rewrite lookup_delete_ne by done. intros Hq.
      destruct (W1 m Hm0 Hq) as (x & rx & Hx & Hx0 & Hs & Hk). exists x, rx.
      rewrite lookup_delete_ne; [done|]. intros <-. assert (rx = r) as -> by congruence.
      assert (Hst : status_ok (nb_current k = Some c) None (c ∈ al_timers a) r) by by apply (i_status e k a I).
      destruct Hst as (_ & Hfd & _). apply Hfd in Hf. congruence.
    + intros l w Hw. rewrite lookup_delete_ne by done. by apply W2.
    + intros _ Hq. destruct Hdr; [done|done].
    + intros t rt _ [Hne Hx]%lookup_delete_Some Hft. rewrite lookup_delete_ne by congruence.
      apply (W4 t rt); try done. destruct He as [->| ->]; congruence.
  - split; cbn; try done.
    + intros r0 [_ H0]%lookup_delete_Some. by apply N1.
    + intros p r0 [_ Hp0]%lookup_delete_Some [_ H0]%lookup_delete_Some. by apply (N3 p r0).
    + intros l w r0 Hm0 [_ H0]%lookup_delete_Some. rewrite lookup_delete_ne by done. by apply (N4 l w r0).
  - apply (i_refs e k a I).
  - intros x Hx. destruct (i_current e k a I x Hx) as (? & rx & ? & ?). split; [done|]. exists rx.
    rewrite lookup_delete_ne by congruence. done.
  - apply (sorted_same (nb_coros k)); [|apply (i_timers e k a I)].
    intros x Hx. unfold wake_time. rewrite lookup_delete_ne; [done|congruence].
  - rewrite (count_delete _ _ c r Hc), (i_live e k a I). unfold counted, unfinished. rewrite Hf, andb_false_r. lia.
  - rewrite (count_delete _ _ c r Hc), (i_fibers e k a I). unfold counted, unfinished_fiber. rewrite Hf, andb_false_r. lia.
Qed.

(** ** Ending *)

Lemma is_Some_insert_old {V} (m : gmap nat V) c v old x :
  m !! c = Some old -> is_Some (<[c := v]> m !! x) <-> is_Some (m !! x).
Proof. intros Hc. apply is_Some_insert. eauto. Qed.

(** The running coroutine is done; those who wait for that still wait. *)
Lemma inv_end k a k' c r r' :
  s_inv None k a -> nb_current k = Some c -> nb_coros k !! c = Some r ->
  c_state r' = NB_DONE -> c_finished r' = true -> c_cont r' = c_cont r -> c_pending_unlock r' = c_pending_unlock r ->
  c_is_fiber r' = c_is_fiber r -> c_joinable r' = c_joinable r -> c_rw_want r' = c_rw_want r ->
  nb_coros k' = <[c := r']> (nb_coros k) -> nb_current k' = None ->
  nb_live k' = nb_live k - 1 -> nb_fibers_live k' = nb_fibers_live k - (if c_is_fiber r then 1 else 0) ->
  nb_mutexes k' = nb_mutexes k -> nb_conds k' = nb_conds k -> nb_rws k' = nb_rws k -> nb_main k' = nb_main k ->
  nb_next_id k' = nb_next_id k ->
  s_inv (Some c) k' a.
Proof.
  intros I Hcur Hc E1 E2 E3 E4 E5 E6 E7 Hcs Hcur' Hl Hfl Hmu Hco Hrw Hma Hid.
  destruct (running_status k a c I Hcur) as (Hc0 & r0 & Hr0 & Hs & Hp0 & Hnt & Hk0 & Hw0 & Hf0 & Hu0).
  assert (r0 = r) as -> by congruence.
  assert (Href : same_refs k k') by (split_and!; intros m; by rewrite ?Hmu, ?Hco, ?Hrw).
  assert (Hd : forall x, is_Some (nb_coros k' !! x) <-> is_Some (nb_coros k !! x)).
  { intros x. rewrite Hcs. by eapply is_Some_insert_old. }
  destruct (i_wake None k a I) as [W1 W2 W3 W4]. destruct (i_main None k a I) as [N1 N2 N3 N4].
  split; rewrite ?Hcur', ?Hma; try done.
  - apply (i_wf None k a I).
  - destruct (i_dom None k a I) as [D1 D2 D3 D4 D5 D6 D7 D8 D9].
    split; rewrite ?Hid; try done; [intros x; by rewrite Hd|intros x; by rewrite Hd|..].
    + intros x. by rewrite Hmu.
    + intros x. by rewrite Hco.
    + intros x. by rewrite Hrw.
    + intros x. rewrite Hd. apply D8.
    + by apply Hd.
  - intros x rx pl Hx Hx0 Hpl. destruct (decide (x = c)) as [->|Hne].
    + rewrite Hcs, lookup_insert_eq in Hx. rewrite Hp0 in Hpl. simplify_eq.
      split; [|by rewrite E3, Hk0]. unfold status_ok. by rewrite E1, E2, E3, E4, Hu0.
    + rewrite Hcs, lookup_insert_ne in Hx by done.
      destruct (i_status None k a I x rx pl Hx Hx0 Hpl) as [Hst Hre]. split; [|by apply (cont_refs_same k)].
      eapply status_iff; [|reflexivity|exact Hst]. rewrite Hcur. split; [done|congruence].
  - apply (join_move k k' c r r' (i_join None k a I)); try done. intros t Ht. congruence.
  - intros x rx Hx Hex Hsx. rewrite Hcs, lookup_insert_ne in Hx by congruence. by apply (i_done None k a I x).
  - split; try done.
    + rewrite Hmu. intros m Hm0 Hq. destruct (W1 m Hm0 Hq) as (x & rx & Hx & Hx0 & Hsx & Hkx).
      exists x, rx. rewrite Hcs, lookup_insert_ne; [done|congruence].
    + rewrite Hrw. apply W2.
    + intros t rt Hne Hx Hft. rewrite Hcs, lookup_insert_ne in Hx by congruence. by apply (W4 t rt).
  - split; rewrite ?Hma; try done; rewrite Hcs, lookup_insert_ne by done; done.
  - apply (main_refs_same k); [done|done|apply (i_refs None k a I)].
  - rewrite Hcs. apply sorted_upd; [done|]. apply (i_timers None k a I).
  - rewrite Hl, (i_live None k a I), Hcs, (count_insert _ _ c r r' Hc). unfold counted, unfinished.
    rewrite Hf0, E2. destruct (Nat.eqb_spec c rw_main_node); [done|]. simpl. lia.
  - rewrite Hfl, (i_fibers None k a I), Hcs, (count_insert _ _ c r r' Hc). unfold counted, unfinished_fiber.
    rewrite Hf0, E2. destruct (Nat.eqb_spec c rw_main_node); [done|]. simpl. destruct (c_is_fiber r); lia.
Qed.

(** Everybody has been woken. *)
Lemma inv_settle k a c :
  s_inv (Some c) k a -> al_list a !! PJoin c = Some [] ->
  (al_list a !! PDrain = Some [] \/ 0 < nb_fibers_live k) ->
  (forall r, nb_coros k !! c = Some r -> c_joinable r = true) -> s_inv None k a.
Proof.
  intros I Hl Hd Hj. destruct I as [I1 I2 I3 I4 I5 I6 I7 I8 I9 I10 I11 I12]. split; try done.
  - intros x r Hx _ Hs. destruct (decide (x = c)) as [->|]; [by apply Hj|]. apply (I5 x r Hx); congruence.
  - destruct I6 as [W1 W2 W3 W4]. split; try done.
    + intros _ Hq. by destruct Hd.
    + intros t r _ Ht Hf. destruct (decide (t = c)) as [->|]; [done|]. apply (W4 t r); congruence.
Qed.

Lemma wp_wake_all_raw p l run (Q : unit -> core -> alinks -> Prop) k a :
  al_list a !! p = Some l -> al_list a !! PRun = Some run -> is_queue p = false ->
  (forall c, c ∈ l -> is_Some (nb_coros k !! c)) ->
  Q tt (set_nb_coros (set_runnable l (nb_coros k)) k)
    (MkALinks (<[PRun := run ++ l]> (<[p := []]> (al_list a))) (al_timers a) (all_run l (al_place a))) ->
  wp (wake_all p) Q k a.
Proof.
  intros Hl Hrun Hq Hin HQ. apply wp_bind. eapply wp_of_links.
  - cbn. unfold a_wake. rewrite Hl. cbn. rewrite option_guard_True by done. cbn. rewrite Hrun. done.
  - by apply wp_all_runnable.
Qed.


(** [c] has ended and its joiners are awake. *)
Definition ended (c : nat) (r : NbCoro) (k : core) (a : alinks) : Prop :=
  s_inv (Some c) k a /\ al_list a !! PJoin c = Some [] /\ nb_coros k !! c = Some r /\ c <> rw_main_node /\
  c_state r = NB_DONE /\ c_finished r = true /\ nb_current k = None.

(** An ended coroutine is nowhere. *)
Lemma done_nowhere e k a c r :
  s_inv e k a -> nb_coros k !! c = Some r -> c <> rw_main_node -> c_state r = NB_DONE ->
  al_place a !! c = Some None /\ c ∉ al_timers a.
Proof.
  intros I Hc Hc0 Hs. assert (is_Some (al_place a !! c)) as [pl Hpl] by (apply (d_coro _ _ (i_dom e k a I)); eauto).
  destruct (i_status e k a I c r pl Hc Hc0 Hpl) as [(_ & _ & Hst) _]. rewrite Hs in Hst.
  destruct Hst as (_ & -> & ? & _). done.
Qed.

Lemma wp_fiber_ended c r (Q : unit -> core -> alinks -> Prop) k a :
  ended c r (set_nb_fibers_live (nb_fibers_live k - 1) k) a ->
  (forall k' a', ended c r k' a' -> al_list a' !! PDrain = Some [] \/ 0 < nb_fibers_live k' ->
     nb_main k' = nb_main k -> Q tt k' a') ->
  wp nb_fiber_ended Q k a.
Proof.
  intros (I & Hl & Hc & Hc0 & Hs & Hf & Hcur) HQ.
  apply wp_bind, wp_modify, wp_bind, wp_gets. cbn.
  destruct (Z.ltb_spec 0 (nb_fibers_live k - 1)); [apply wp_ret, HQ; [done|by right|done]|].
  destruct (d_drain _ _ (i_dom _ _ _ I)) as [ds Hds].
  apply (wp_wake_all _ _ _ PDrain ds _ I Hds); [done|by intros|].
  intros run Hrun k' a' I'. apply HQ; [|left; subst a'; cbn|done].
  - destruct (done_nowhere _ _ _ c r I Hc Hc0 Hs) as [Hp _].
    split; [exact I'|]. subst k' a'. cbn. rewrite !lookup_insert_ne by done. split_and!; try done.
    rewrite set_runnable_ne; [done|]. by eapply (nowhere _ c PDrain ds (i_wf _ _ _ I)).
  - by rewrite lookup_insert_ne, lookup_insert_eq.
Qed.

(** A coroutine that can be joined stays, another one is freed. *)
Lemma wp_retire c r (Q : unit -> core -> alinks -> Prop) k a :
  ended c r k a -> al_list a !! PDrain = Some [] \/ 0 < nb_fibers_live k ->
  (forall k' a', s_inv None k' a' -> nb_current k' = None -> nb_main k' = nb_main k -> Q tt k' a') ->
  wp (if c_joinable r then mret tt else nb_coro_free c) Q k a.
Proof.
  intros (I & Hl & Hc & Hc0 & Hs & Hf & Hcur) Hd HQ. destruct (c_joinable r) eqn:Hj.
  - apply wp_ret, HQ; [|done|done]. apply (inv_settle k a c); try done. intros r0 Hr0. congruence.
  - destruct (done_nowhere _ _ _ c r I Hc Hc0 Hs) as [Hp Ht].
    apply (wp_coro_free c r); try done. apply HQ; [|done|done].
    apply (inv_quiet None (set_nb_coros (delete c (nb_coros k)) k)); try done.
    destruct (i_join _ _ _ I) as [J1 J2 J3 J4].
    apply (inv_free (Some c) k a c r); try done; [by right| | |congruence].
    + intros j rj Hrj Hk. destruct (J1 j rj c Hrj Hk) as (rt & ? & ? & ? & _). congruence.
    + intros Hm. destruct (J3 c Hm) as (rt & ? & ? & ?). congruence.
Qed.

(** The end of a coroutine, from the switch to the loop on: its joiners wake,
    the last fiber wakes those who wait for the fibers, and a coroutine nobody
    can join is freed. *)
Lemma wp_end c r r' (Q : unit -> core -> alinks -> Prop) k a :
  s_inv None k a -> nb_current k = Some c -> nb_coros k !! c = Some r ->
  c_state r' = NB_DONE -> c_finished r' = true -> c_cont r' = c_cont r -> c_pending_unlock r' = c_pending_unlock r ->
  c_is_fiber r' = c_is_fiber r -> c_joinable r' = c_joinable r -> c_rw_want r' = c_rw_want r ->
  (forall k' a', s_inv None k' a' -> nb_current k' = None -> nb_main k' = nb_main k -> Q tt k' a') ->
  wp (after_switch c) Q (set_nb_coros (<[c := r']> (nb_coros k)) k) a.
Proof.
  intros I Hcur Hc E1 E2 E3 E4 E5 E6 E7 HQ.
  destruct (running_status k a c I Hcur) as (Hc0 & r0 & Hr0 & Hs & Hp0 & Hnt & Hk0 & Hw0 & Hf0 & Hu0).
  set (k1 := set_nb_fibers_live (nb_fibers_live k - (if c_is_fiber r then 1 else 0)) (set_nb_live (nb_live k - 1)
               (set_nb_current None (set_nb_coros (<[c := r']> (nb_coros k)) k)))).
  assert (I1 : s_inv (Some c) k1 a) by by apply (inv_end k a k1 c r r').
  destruct (d_run _ _ (i_dom _ _ _ I)) as [run Hrun].
  assert (is_Some (al_list a !! PJoin c)) as [js Hjs] by (apply (d_join _ _ (i_dom _ _ _ I)); eauto).
  apply wp_bind, wp_modify, wp_bind, (wp_deref _ _ r'); [cbn; by rewrite lookup_insert_eq|]. rewrite E1.
  apply wp_bind, wp_bind, (wp_deref _ _ r'); [cbn; by rewrite lookup_insert_eq|].
  apply (wp_wake_all_raw (PJoin c) js run); [done|done|done| |].
  { intros x Hx. by apply (list_coro (Some c) k1 a (PJoin c) js). }
  assert (I2 : s_inv (Some c) (set_nb_coros (set_runnable js (nb_coros k1)) k1)
    (MkALinks (<[PRun := run ++ js]> (<[PJoin c := []]> (al_list a))) (al_timers a) (all_run js (al_place a)))).
  { apply inv_wake_list; try done. intros t [= <-]. exists r'. cbn. by rewrite lookup_insert_eq. }
  apply wp_bind, wp_modify.
  assert (Hcl : set_runnable js (nb_coros k1) !! c = Some r').
  { rewrite set_runnable_ne; [cbn; by rewrite lookup_insert_eq|]. by eapply (nowhere a c (PJoin c) js (i_wf _ _ _ I)). }
  assert (Hlist : <[PRun := run ++ js]> (<[PJoin c := []]> (al_list a)) !! PJoin c = Some []).
  { by rewrite lookup_insert_ne, lookup_insert_eq. }
  apply wp_bind. rewrite E5. destruct (c_is_fiber r) eqn:Hfib.
  - apply (wp_fiber_ended c r'); [by split|]. intros k' a' He Hd Hm.
    apply (wp_retire c r'); [done|done|]. intros k2 a2 I3 Hcur2 Hm2. apply HQ; [done|done|by rewrite Hm2, Hm].
  - apply wp_ret. assert (Hzero : nb_fibers_live k - 0 = nb_fibers_live k) by lia.
    unfold k1 in I2. rewrite Hzero in I2.
    apply (wp_retire c r'); [by split| |done].
    cbn. rewrite !lookup_insert_ne by done.
    destruct (decide (al_list a !! PDrain = Some [])); [by left|right]. by apply (w_drain _ _ _ (i_wake _ _ _ I)).
Qed.
