(* ===== verification/SchedSpawn.v ===== *)
(** How the invariant is kept by spawning, timers, unparking and resuming. *)

From S2P Require Import Prelude SchedLinks Sched SchedInv SchedMoves.

#[local] Hint Resolve same_rest_coros : core.

(** ** Spawning *)

(** The record [nb_coro_new] leaves. *)
Definition fresh_coro (joinable owns_env is_fiber : bool) : NbCoro :=
  MkCoro owns_env owns_env NB_RUNNABLE 0 joinable false None 0 false is_fiber 0 [] KUser.

Lemma fresh_id e k a : s_inv e k a -> nb_coros k !! nb_next_id k = None /\ al_place a !! nb_next_id k = None /\
  al_list a !! PJoin (nb_next_id k) = None /\ nb_next_id k <> rw_main_node.
Proof.
  intros I. destruct (i_dom e k a I) as [D1 D2 D3 D4 D5 D6 D7 D8 D9].
  assert (Hn : ~ is_Some (nb_coros k !! nb_next_id k)).
  { intros Hs. apply D8 in Hs. lia. }
  pose proof (D8 _ D9) as H0. unfold rw_main_node in H0.
  split_and!.
  - by apply eq_None_not_Some.
  - apply eq_None_not_Some. by rewrite <- D1.
  - apply eq_None_not_Some. by rewrite <- D2.
  - unfold rw_main_node. lia.
Qed.

(** One new coroutine [c], runnable and at the end of the run queue. *)
Section spawn.
Context (k k' : core) (a : alinks) (r : NbCoro) (run : list nat) (c : nat).
Hypothesis Hid : c = nb_next_id k.
Hypothesis I : s_inv None k a.
Hypothesis Hrun : al_list a !! PRun = Some run.
Hypothesis Hfresh : c_state r = NB_RUNNABLE /\ c_cont r = KUser /\ c_finished r = false /\
  c_pending_unlock r = None /\ c_rw_want r = 0.
Hypothesis Hcs : nb_coros k' = <[c := r]> (nb_coros k).
Hypothesis Hcounts : nb_live k' = nb_live k + 1 /\ nb_fibers_live k' = nb_fibers_live k + (if c_is_fiber r then 1 else 0).
Hypothesis Hrest : nb_current k' = nb_current k /\ nb_mutexes k' = nb_mutexes k /\ nb_conds k' = nb_conds k /\
  nb_rws k' = nb_rws k /\ nb_main k' = nb_main k /\ nb_next_id k' = S c.

Let a' : alinks :=
  MkALinks (<[PRun := run ++ [c]]> (<[PJoin c := []]> (al_list a))) (al_timers a) (<[c := Some PRun]> (<[c := None]> (al_place a))).

Lemma spawn_fresh : nb_coros k !! c = None /\ al_place a !! c = None /\ al_list a !! PJoin c = None /\ c <> rw_main_node.
Proof. rewrite Hid. by eapply fresh_id. Qed.

Lemma spawn_old x rx : nb_coros k !! x = Some rx -> nb_coros k' !! x = Some rx /\ x <> c.
Proof.
  intros Hx. destruct spawn_fresh as (F1 & _). assert (x <> c) by congruence. by rewrite Hcs, lookup_insert_ne.
Qed.

Lemma spawn_new x rx : nb_coros k' !! x = Some rx -> (x = c /\ rx = r) \/ (x <> c /\ nb_coros k !! x = Some rx).
Proof. rewrite Hcs. intros [[<- <-]|[? ?]]%lookup_insert_Some; auto. Qed.

Lemma spawn_list p : p <> PRun -> p <> PJoin c -> al_list a' !! p = al_list a !! p.
Proof. intros Hp1 Hp2. cbn. by rewrite !lookup_insert_ne. Qed.

Lemma spawn_place x : x <> c -> al_place a' !! x = al_place a !! x.
Proof. intros Hx. cbn. by rewrite !lookup_insert_ne. Qed.

Lemma spawn_refs : same_refs k k'.
Proof. destruct Hrest as (_ & Hmu & Hco & Hrw & _). split_and!; intros m; by rewrite ?Hmu, ?Hco, ?Hrw. Qed.

Lemma spawn_wf : a_wf a'.
Proof.
  destruct spawn_fresh as (F1 & F2 & F3 & F4).
  refine (wf_put (MkALinks (<[PJoin c := []]> (al_list a)) (al_timers a) (<[c := None]> (al_place a))) PRun run (run ++ [c]) c _ _ _ _); cbn.
  - exact (wf_make (MkALinks (al_list a) (al_timers a) (<[c := None]> (al_place a))) (PJoin c)
      (wf_new a c (i_wf None k a I) F2) (or_introl F3)).
  - by rewrite lookup_insert_ne by done.
  - by rewrite lookup_insert_eq.
  - by rewrite Permutation_app_comm.
Qed.

Lemma spawn_dom : dom_inv k' a'.
Proof.
  destruct (i_dom None k a I) as [D1 D2 D3 D4 D5 D6 D7 D8 D9].
  destruct Hrest as (Hcur & Hmu & Hco & Hrw & Hma & Hnx). split.
  - intros x. rewrite Hcs. destruct (decide (x = c)) as [->|].
    + cbn. rewrite !lookup_insert_eq. split; eauto.
    + rewrite spawn_place by done. rewrite lookup_insert_ne by done. apply D1.
  - intros x. rewrite Hcs. destruct (decide (x = c)) as [->|].
    + cbn. rewrite (lookup_insert_ne _ PRun) by done. rewrite !lookup_insert_eq. split; eauto.
    + rewrite spawn_list by congruence. rewrite lookup_insert_ne by done. apply D2.
  - intros m. rewrite Hmu, spawn_list by done. apply D3.
  - intros m. rewrite Hco, spawn_list by done. apply D4.
  - intros m. rewrite Hrw, spawn_list by done. apply D5.
  - cbn. rewrite lookup_insert_eq. eauto.
  - by rewrite spawn_list.
  - rewrite Hnx. intros x [rx Hx]. destruct (spawn_new x rx Hx) as [[-> _]|[_ Hx0]]; [lia|].
    assert (x < nb_next_id k)%nat by eauto. lia.
  - destruct D9 as [rm Hrm]. exists rm. by apply spawn_old.
Qed.

Lemma spawn_join : join_inv k'.
Proof.
  destruct (i_join None k a I) as [J1 J2 J3 J4]. destruct Hrest as (_ & _ & _ & _ & Hma & _).
  destruct Hfresh as (_ & E2 & _). split.
  - intros j rj t Hj Hk. destruct (spawn_new j rj Hj) as [[-> ->]|[Hne Hjo]]; [congruence|].
    destruct (J1 j rj t Hjo Hk) as (rt & Ht & ? & ? & ?). exists rt. by destruct (spawn_old t rt Ht).
  - intros i j ri rj t Hi Hj Hki Hkj.
    destruct (spawn_new i ri Hi) as [[-> ->]|[Hni Hio]]; [congruence|].
    destruct (spawn_new j rj Hj) as [[-> ->]|[Hnj Hjo]]; [congruence|]. by apply (J2 i j ri rj t).
  - intros t. rewrite Hma. intros Ht. destruct (J3 t Ht) as (rt & Hrt & ? & ?). exists rt. by destruct (spawn_old t rt Hrt).
  - intros t j rj. rewrite Hma. intros Ht Hj. destruct (spawn_new j rj Hj) as [[-> ->]|[Hnj Hjo]]; [congruence|].
    by apply (J4 t j rj).
Qed.

Lemma spawn_wake : wake_inv None k' a'.
Proof.
  destruct (i_wake None k a I) as [W1 W2 W3 W4]. destruct Hrest as (_ & Hmu & _ & Hrw & _ & _).
  destruct Hfresh as (_ & _ & E3 & _). destruct Hcounts as [_ Hfl]. split.
  - rewrite Hmu. intros m Hm. rewrite spawn_list by done. intros Hq.
    destruct (W1 m Hm Hq) as (x & rx & Hx & ? & ? & ?). exists x, rx. by destruct (spawn_old x rx Hx).
  - rewrite Hrw. intros l w Hw. rewrite spawn_list by done. by apply W2.
  - rewrite spawn_list by done. intros He Hq. specialize (W3 He Hq). rewrite Hfl. destruct (c_is_fiber r); lia.
  - intros t rt _ Ht Hf. destruct (spawn_new t rt Ht) as [[-> ->]|[Hne Hto]]; [congruence|].
    rewrite spawn_list by congruence. by apply (W4 t rt).
Qed.

Lemma spawn_main : main_inv k' a'.
Proof.
  destruct (i_main None k a I) as [N1 N2 N3 N4]. destruct Hrest as (_ & _ & _ & _ & Hma & _).
  destruct spawn_fresh as (F1 & F2 & F3 & F4).
  assert (Hro : forall rm, nb_coros k' !! rw_main_node = Some rm -> nb_coros k !! rw_main_node = Some rm).
  { intros rm Hrm. destruct (spawn_new _ _ Hrm) as [[? _]|[_ Hro]]; [congruence|done]. }
  split; rewrite ?Hma, ?spawn_place by congruence.
  - intros rm Hrm. by apply N1, Hro.
  - done.
  - intros p rm Hp Hrm. by apply (N3 p rm Hp), Hro.
  - intros l w rm Hm Hrm. by apply (N4 l w rm Hm), Hro.
Qed.

Lemma spawn_count f : f r = true -> count f (nb_coros k') = count f (nb_coros k) + 1.
Proof.
  destruct spawn_fresh as (F1 & F2 & F3 & F4). intros Hf. rewrite Hcs, (count_insert_new _ _ c r F1). unfold counted.
  rewrite Hf. destruct (Nat.eqb_spec c rw_main_node); [done|]. simpl. lia.
Qed.

Lemma spawn_count_not f : f r = false -> count f (nb_coros k') = count f (nb_coros k).
Proof.
  destruct spawn_fresh as (F1 & _). intros Hf. rewrite Hcs, (count_insert_new _ _ c r F1). unfold counted.
  rewrite Hf, andb_false_r. lia.
Qed.

Lemma inv_spawn : s_inv None k' a'.
Proof.
  destruct spawn_fresh as (F1 & F2 & F3 & F4). destruct Hrest as (Hcur & Hmu & Hco & Hrw & Hma & Hnx).
  destruct Hfresh as (E1 & E2 & E3 & E4 & E5). destruct Hcounts as [Hl Hfl].
  assert (Htm : c ∉ al_timers a).
  { intros Hin. destruct (wf_timed a (i_wf None k a I) c Hin). congruence. }
  split; [apply spawn_wf|apply spawn_dom| |apply spawn_join| |apply spawn_wake|apply spawn_main| | | | |].
  - intros x rx pl Hx Hx0 Hpl. destruct (spawn_new x rx Hx) as [[-> ->]|[Hne Hxo]].
    + cbn in Hpl. rewrite lookup_insert_eq in Hpl. injection Hpl as <-. split; [|by rewrite E2].
      unfold status_ok. rewrite E1, E3, E4, Hcur. split; [done|]. split; [done|]. split; [|done].
      intros Hcc. destruct (i_current None k a I c Hcc) as (_ & rc & Hrc & _). congruence.
    + rewrite spawn_place in Hpl by done. rewrite Hcur.
      destruct (i_status None k a I x rx pl Hxo Hx0 Hpl). split; [done|]. apply (cont_refs_same k); [apply spawn_refs|done].
  - intros x rx Hx _ Hs. destruct (spawn_new x rx Hx) as [[-> ->]|[Hne Hxo]]; [congruence|]. by apply (i_done None k a I x).
  - apply (main_refs_same k); [apply spawn_refs|done|apply (i_refs None k a I)].
  - intros x. rewrite Hcur. intros Hx. destruct (i_current None k a I x Hx) as (? & rx & Hrx & ?). split; [done|].
    exists rx. by destruct (spawn_old x rx Hrx).
  - rewrite Hcs. apply sorted_upd; [done|]. apply (i_timers None k a I).
  - rewrite Hl, (i_live None k a I), spawn_count; [done|]. unfold unfinished. by rewrite E3.
  - rewrite Hfl, (i_fibers None k a I). destruct (c_is_fiber r) eqn:Hfib.
    + rewrite spawn_count; [done|]. unfold unfinished_fiber. by rewrite E3, Hfib.
    + rewrite spawn_count_not; [lia|]. unfold unfinished_fiber. by rewrite Hfib, andb_false_r.
Qed.
End spawn.

(** [nb_coro_new] and the counting and queueing that follow it. *)
Lemma wp_new_started {B} joinable owns is_fiber (g : nat -> LM B) (h : LM B) (Q : B -> core -> alinks -> Prop) k a :
  s_inv None k a ->
  (forall k' a', s_inv None k' a' -> nb_current k' = nb_current k -> nb_main k' = nb_main k -> wp (g (nb_next_id k)) Q k' a') ->
  wp (c ← nb_coro_new true joinable owns is_fiber;
      match c with Some c => start_coro c is_fiber;; g c | None => h end) Q k a.
Proof.
  intros I HQ. destruct (fresh_id None k a I) as (F1 & F2 & F3 & F4).
  destruct (d_run _ _ (i_dom _ _ _ I)) as [run Hrun].
  unfold nb_coro_new, start_coro. cbn [negb]. apply wp_bind, wp_bind, wp_gets, wp_bind.
  eapply wp_on_links; [cbn; unfold a_alloc; by rewrite !option_guard_True by done|].
  apply wp_bind, wp_modify, wp_bind, wp_modify, wp_ret. apply wp_bind, wp_bind, wp_modify, wp_bind.
  assert (Hpush : forall k1, nb_coros k1 = <[nb_next_id k := fresh_coro joinable owns is_fiber]> (nb_coros k) ->
    nb_live k1 = nb_live k + 1 -> nb_fibers_live k1 = nb_fibers_live k + (if is_fiber then 1 else 0) ->
    nb_current k1 = nb_current k /\ nb_mutexes k1 = nb_mutexes k /\ nb_conds k1 = nb_conds k /\
      nb_rws k1 = nb_rws k /\ nb_main k1 = nb_main k /\ nb_next_id k1 = S (nb_next_id k) ->
    wp (nb_rq_push (nb_next_id k)) (fun _ k2 a => wp (g (nb_next_id k)) Q k2 a) k1
      (MkALinks (<[PJoin (nb_next_id k) := []]> (al_list a)) (al_timers a) (<[nb_next_id k := None]> (al_place a)))).
  { intros k1 H1 H2 H3 H4. apply (wp_push_queue PRun _ run); cbn.
    - by rewrite lookup_insert_ne.
    - by rewrite lookup_insert_eq.
    - done.
    - destruct H4 as (? & ? & ? & ? & ? & Hnx). apply HQ; [|done|done]. eapply (inv_spawn k k1 a (fresh_coro joinable owns is_fiber)); done. }
  destruct is_fiber.
  - apply wp_modify. specialize (Hpush (set_nb_fibers_live (nb_fibers_live k + 1) (set_nb_live (nb_live k + 1)
      (set_nb_live_coros (nb_live_coros k + 1) (set_nb_next_id (S (nb_next_id k))
        (set_nb_coros (<[nb_next_id k := fresh_coro joinable owns true]> (nb_coros k)) k)))))).
    apply Hpush; try done.
  - apply wp_ret. specialize (Hpush (set_nb_live (nb_live k + 1)
      (set_nb_live_coros (nb_live_coros k + 1) (set_nb_next_id (S (nb_next_id k))
        (set_nb_coros (<[nb_next_id k := fresh_coro joinable owns false]> (nb_coros k)) k))))).
    apply Hpush; try done. cbn. lia.
Qed.

(** ** Resuming *)

(** The coroutine at the head of the run queue goes on. *)
Lemma inv_resume k a k' c run r r' :
  s_inv None k a -> nb_current k = None -> al_list a !! PRun = Some (c :: run) -> nb_coros k !! c = Some r ->
  c_state r' = NB_RUNNING -> c_cont r' = KUser -> c_rw_want r' = c_rw_want r -> c_pending_unlock r' = c_pending_unlock r ->
  c_finished r' = c_finished r -> c_is_fiber r' = c_is_fiber r -> c_joinable r' = c_joinable r ->
  nb_coros k' = <[c := r']> (nb_coros k) -> same_rest k k' -> nb_current k' = Some c ->
  (forall m, c_cont r = KMutexLock m -> nb_mutexes k !! m <> Some false) ->
  s_inv None k' (MkALinks (<[PRun := run]> (al_list a)) (al_timers a) (<[c := None]> (al_place a))).
Proof.
  intros I Hcur Hl Hc E1 E2 E3 E4 E5 E6 E7 Hcs HE Hcur' Hmx.
  assert (Hin : c ∈ c :: run) by constructor.
  assert (Hc0 : c <> rw_main_node).
  { intros ->. by apply (list_not_main None k a PRun _ I Hl). }
  pose proof (proj1 (wf_in a (i_wf _ _ _ I) PRun _ c Hl) Hin) as Hp.
  destruct (i_status None k a I c r _ Hc Hc0 Hp) as [(Hu & Hf & Hst) Href].
  destruct (c_state r) eqn:Hs; [|naive_solver|naive_solver|naive_solver].
  destruct Hst as (_ & _ & Hnt & Hw).
  eapply (inv_move None k a k' _ c r r' None); try done; cbn.
  - intros x Hx. rewrite Hcur, Hcur'. split; congruence.
  - apply (wf_take a PRun _ run c (i_wf _ _ _ I) Hl). done.
  - intros q. apply lists_keep. eauto.
  - intros x Hx. by rewrite lookup_insert_ne.
  - by rewrite lookup_insert_eq.
  - unfold status_ok. rewrite E1, E2, E3, E4, E5, Hcur'. split; [done|]. split; [|done]. rewrite Hf. done.
  - by rewrite E2.
  - intros _. congruence.
  - destruct HE as (_ & _ & _ & _ & _ & HE & _). apply (join_move k k' c r r' (i_join None k a I)); try done; congruence.
  - apply (wake_move None k a k' _ c r r' (i_wake None k a I)); try done.
    + intros m _ Hk. right. destruct HE as (_ & _ & -> & _). by apply Hmx.
    + intros q Hq. cbn. destruct (decide (q = PRun)) as [->|]; [by right|]. left. by rewrite lookup_insert_ne.
  - rewrite Hcs. apply sorted_upd; [done|]. apply (i_timers None k a I).
Qed.

Lemma run_head_facts k a c run :
  s_inv None k a -> al_list a !! PRun = Some (c :: run) ->
  c <> rw_main_node /\ exists r, nb_coros k !! c = Some r /\ c_state r = NB_RUNNABLE /\ c_rw_want r = 0 /\
    c_pending_unlock r = None /\ c_finished r = false /\ c ∉ al_timers a /\ cont_refs k (c_cont r).
Proof.
  intros I Hl. assert (Hin : c ∈ c :: run) by constructor.
  assert (Hc0 : c <> rw_main_node).
  { intros ->. by apply (list_not_main None k a PRun _ I Hl). }
  split; [done|]. pose proof (proj1 (wf_in a (i_wf _ _ _ I) PRun _ c Hl) Hin) as Hp.
  destruct (list_coro _ _ _ _ _ c I Hl Hin) as [r Hr]. exists r.
  destruct (i_status None k a I c r _ Hr Hc0 Hp) as [(Hu & Hf & Hst) Href].
  destruct (c_state r) eqn:Hs; [|naive_solver|naive_solver|naive_solver].
  destruct Hst as (_ & _ & Hnt & Hw). split_and!; try done.
  destruct (c_finished r); [|done]. destruct Hf as [Hf _]. by specialize (Hf eq_refl).
Qed.

(** The record of a resumed coroutine. *)
Definition resumed (r : NbCoro) : NbCoro := set_c_cont KUser (set_c_state NB_RUNNING r).

(** The running coroutine waits in a queue. *)
Lemma wp_park_queue p K c r l (Q : unit -> core -> alinks -> Prop) k a :
  s_inv None k a -> nb_current k = Some c -> nb_coros k !! c = Some r -> al_list a !! p = Some l -> is_queue p = true ->
  c_pending_unlock r = None -> waits p (parked K r) -> cont_refs k K -> (forall t, K = KJoin t -> may_join k t) ->
  excused k p -> (forall t, p <> PJoin t) ->
  (forall k' a', s_inv None k' a' -> nb_main k' = nb_main k -> Q tt k' a') ->
  wp (push_queue p c;; nb_park K) Q k a.
Proof.
  intros I Hcur Hc Hl Hq Hu Hw Href Hjo Hex Hpj HQ.
  destruct (running_status k a c I Hcur) as (Hc0 & r0 & Hr0 & Hs & Hp0 & _).
  apply wp_bind, (wp_push_queue p c l); [done|done|done|].
  apply (wp_park K c r); [done|done|congruence| |].
  - eapply (inv_park_at k a _ c r (parked K r) K p l (l ++ [c])); try done.
    + by rewrite Permutation_app_comm.
    + destruct p as [| | | |t|]; try exact Hex. by destruct (Hpj t).
  - intros k' a' I' _ Hm. by apply HQ.
Qed.

Lemma wp_coro_mutex_lock c m (Q : unit -> core -> alinks -> Prop) k a :
  s_inv None k a -> nb_current k = Some c -> is_Some (nb_mutexes k !! m) ->
  (forall k' a', s_inv None k' a' -> nb_main k' = nb_main k -> Q tt k' a') ->
  wp (coro_mutex_lock c m) Q k a.
Proof.
  intros I Hcur [v Hm] HQ. apply wp_bind, (wp_deref _ _ v); [done|]. destruct v.
  - destruct (running_status k a c I Hcur) as (Hc0 & r & Hr & Hs & Hp0 & Hnt & Hk & Hw & Hf & Hu).
    assert (is_Some (al_list a !! PMutex m)) as [l Hl] by (apply (d_mutex _ _ (i_dom _ _ _ I)); eauto).
    apply (wp_park_queue (PMutex m) _ c r l); try done; [by simpl; eauto|]. simpl. congruence.
  - apply wp_modify, HQ; [|done]. by apply inv_mutex; [|eauto|].
Qed.

Lemma wp_rw_locked me l w r wl (Q : unit -> core -> alinks -> Prop) k a :
  s_inv None k a -> nb_coros k !! me = Some r -> nb_rws k !! l = Some wl ->
  (forall k' a', s_inv None k' a' -> nb_main k' = nb_main k -> nb_current k' = nb_current k -> Q tt k' a') ->
  wp (rw_locked me l w) Q k a.
Proof.
  intros I Hr Hl HQ. unfold rw_locked. destruct (w =? NB_RW_READ).
  - apply (wp_upd_coro _ _ r); [done|]. apply HQ; [|done|done]. apply (inv_touch None k a _ me r (set_c_rwh (c_rwh r ++ [(l, 1)]) r)); done.
  - apply wp_bind, (wp_deref _ _ wl); [done|]. apply wp_modify, HQ; [|done|done].
    destruct (w_rw _ _ _ (i_wake _ _ _ I) l wl Hl) as (? & ? & ?). apply inv_rw; cbn; eauto.
Qed.

Lemma wp_coro_run c (Q : unit -> core -> alinks -> Prop) k a :
  s_inv None k a -> nb_current k = Some c ->
  (forall k' a', s_inv None k' a' -> nb_main k' = nb_main k -> Q tt k' a') ->
  wp (coro_run c) Q k a.
Proof.
  intros I Hcur HQ. destruct (running_status k a c I Hcur) as (Hc0 & r & Hr & Hs & Hp0 & Hnt & Hk & Hw & Hf & Hu).
  apply wp_bind, wp_gets. destruct (Z.ltb_spec 0 (nb_fibers_live k)); [|by apply wp_ret, HQ].
  destruct (d_drain _ _ (i_dom _ _ _ I)) as [l Hl]. apply wp_bind. eapply wp_on_links.
  - cbn. unfold a_stack, a_cons. rewrite Hl. cbn. rewrite !option_guard_True by done. done.
  - apply (wp_park KRun c r); [done|done|congruence| |].
    + by eapply (inv_park_at k a _ c r (parked KRun r) KRun PDrain l (c :: l)); try apply parked_parks.
    + intros k' a' I' _ Hm. by apply HQ.
Qed.

(** An ended coroutine that nobody joins is freed. *)
Lemma wp_free_done t rt (Q : unit -> core -> alinks -> Prop) k a :
  s_inv None k a -> nb_coros k !! t = Some rt -> t <> rw_main_node -> c_finished rt = true ->
  (forall j rj, nb_coros k !! j = Some rj -> c_cont rj <> KJoin t) -> nb_main k <> MJoin t ->
  (forall k' a', s_inv None k' a' -> nb_main k' = nb_main k -> nb_current k' = nb_current k -> Q tt k' a') ->
  wp (nb_coro_free t) Q k a.
Proof.
  intros I Hrt Ht0 Hft Hno Hm HQ.
  assert (Hdone : c_state rt = NB_DONE).
  { assert (is_Some (al_place a !! t)) as [pl Hpl] by (apply (d_coro _ _ (i_dom _ _ _ I)); eauto).
    destruct (i_status None k a I t rt pl Hrt Ht0 Hpl) as [(_ & Hfd & _) _]. by apply Hfd. }
  destruct (done_nowhere None k a t rt I Hrt Ht0 Hdone) as [Hp Ht].
  assert (Hjl : al_list a !! PJoin t = Some []) by by apply (w_done _ _ _ (i_wake _ _ _ I) t rt).
  apply (wp_coro_free t rt); try done. apply HQ; [|done|done].
  apply (inv_quiet None (set_nb_coros (delete t (nb_coros k)) k)); try done.
  apply (inv_free None k a t rt); try done; [by left| |].
  - intros Hcur. destruct (i_current _ _ _ I t Hcur) as (_ & r0 & ? & ?). congruence.
  - destruct (decide (al_list a !! PDrain = Some [])); [by left|right]. by apply (w_drain _ _ _ (i_wake _ _ _ I)).
Qed.

(** [nb_swap_to_coro]: the rest of the call that parked. *)
Lemma wp_resume c run r (Q : unit -> core -> alinks -> Prop) k a :
  s_inv None k a -> nb_current k = None -> al_list a !! PRun = Some (c :: run) -> nb_coros k !! c = Some r ->
  (forall k' a', s_inv None k' a' -> nb_main k' = nb_main k -> Q tt k' a') ->
  wp (nb_swap_to_coro c) Q (set_nb_current (Some c) (set_nb_coros (<[c := set_c_state NB_RUNNING r]> (nb_coros k)) k))
    (MkALinks (<[PRun := run]> (al_list a)) (al_timers a) (<[c := None]> (al_place a))).
Proof.
  intros I Hcur Hl Hr HQ.
  destruct (run_head_facts k a c run I Hl) as (Hc0 & r0 & Hr0 & Hs & Hw & Hu & Hf & Hnt & Href).
  assert (r0 = r) as -> by congruence. clear Hr0.
  set (k1 := set_nb_current (Some c) (set_nb_coros (<[c := resumed r]> (nb_coros k)) k)).
  set (a1 := MkALinks _ _ _).
  assert (Hinv : (forall m, c_cont r = KMutexLock m -> nb_mutexes k !! m <> Some false) -> s_inv None k1 a1).
  { intros Hmx. by apply (inv_resume k a k1 c run r (resumed r)). }
  apply wp_bind, (wp_deref _ _ (set_c_state NB_RUNNING r)); [cbn; by rewrite lookup_insert_eq|].
  apply wp_bind, (wp_upd_coro _ _ (set_c_state NB_RUNNING r)); [cbn; by rewrite lookup_insert_eq|].
  cbn [c_cont set_c_state nb_coros set_nb_current set_nb_coros]. rewrite insert_insert_eq.
  change (set_nb_coros _ _) with k1. fold (resumed r). fold k1.
  destruct (c_cont r) as [|m|l want|t| |ms] eqn:Hk.
  - apply wp_ret, HQ; [by apply Hinv|done].
  - destruct Href as [[] Hm].
    + apply (wp_coro_mutex_lock c m); [|done|by exists true|done]. apply Hinv. congruence.
    + apply wp_bind, (wp_deref _ _ false); [done|]. apply wp_modify, HQ; [|done].
      apply (inv_resume (set_nb_mutexes (<[m := true]> (nb_mutexes k)) k) a _ c run r (resumed r)); try done.
      * by apply inv_mutex; [|eauto|].
      * intros x Hx. assert (x = m) as -> by congruence. cbn. by rewrite lookup_insert_eq.
  - destruct Href as [wl Hwl]. specialize (Hinv ltac:(done)).
    apply wp_bind, (wp_deref _ _ (resumed r)); [cbn; by rewrite lookup_insert_eq|].
    change (c_rw_want (resumed r)) with (c_rw_want r). rewrite Hw. cbn [negb Z.eqb].
    apply (wp_rw_locked c l want (resumed r) wl); [done|cbn; by rewrite lookup_insert_eq|done|]. auto.
  - specialize (Hinv ltac:(done)).
    destruct (j_target _ (i_join _ _ _ I) c r t Hr Hk) as (rt & Hrt & Ht0 & Hjt & Hft). specialize (Hft Hs).
    assert (Htc : t <> c) by congruence.
    apply (wp_free_done t rt); [done|cbn; by rewrite lookup_insert_ne|done|done| | |auto].
    + intros j rj Hj Hkj. cbn in Hj. destruct (decide (j = c)) as [->|].
      * rewrite lookup_insert_eq in Hj. by simplify_eq.
      * rewrite lookup_insert_ne in Hj by done.
        by pose proof (j_unique _ (i_join _ _ _ I) j c rj r t Hj Hr Hkj Hk).
    + intros Hm. by apply (j_main_only _ (i_join _ _ _ I) t c r Hm Hr).
  - apply (wp_coro_run c); [by apply Hinv|done|done].
  - destruct (0 <=? ms); [|apply wp_ret, HQ; [by apply Hinv|done]].
    eapply wp_on_links; [done|]. cbn. rewrite filter_absent by done. apply HQ; [by apply Hinv|done].
Qed.

(** ** Becoming ready *)

(** A coroutine parked in no list gets into the run queue and leaves the timers. *)
Lemma inv_ready k a k' c r r' run run' tl :
  s_inv None k a -> nb_coros k !! c = Some r -> c <> rw_main_node -> c_state r = NB_PARKED -> al_place a !! c = Some None ->
  awake r r' -> al_list a !! PRun = Some run -> run' ≡ₚ c :: run ->
  (forall x, x <> c -> x ∈ tl <-> x ∈ al_timers a) -> c ∉ tl -> NoDup tl ->
  StronglySorted (fun x y => wake_time (nb_coros k) x <= wake_time (nb_coros k) y) tl ->
  nb_coros k' = <[c := r']> (nb_coros k) -> same_rest k k' -> nb_current k' = nb_current k ->
  s_inv None k' (MkALinks (<[PRun := run']> (al_list a)) tl (<[c := Some PRun]> (al_place a))).
Proof.
  intros I Hc Hc0 Hs Hp Ha Hrun Hperm Htl Hctl Hnd HS Hcs HE Hcur.
  pose proof Ha as (E1 & E2 & E3 & E4 & E5 & E6 & E7).
  destruct (i_status None k a I c r None Hc Hc0 Hp) as [(Hu & Hf & Hst) Href]. rewrite Hs in Hst.
  destruct Hst as (Hnc & Hw & Hk).
  assert (Hfin : c_finished r = false).
  { destruct (c_finished r); [|done]. destruct Hf as [Hf _]. specialize (Hf eq_refl). congruence. }
  eapply (inv_move None k a k' _ c r r' (Some PRun)); try done; cbn.
  - intros x _. by rewrite Hcur.
  - by rewrite Hcur.
  - refine (wf_set_timers (MkALinks (<[PRun := run']> (al_list a)) (al_timers a) (<[c := Some PRun]> (al_place a))) tl _ Hnd _).
    + by apply (wf_put a PRun run _ c (i_wf _ _ _ I)).
    + intros x Hx. cbn. apply is_Some_insert; [eauto|]. apply (wf_timed a (i_wf _ _ _ I)).
      destruct (decide (x = c)) as [->|]; [done|by apply Htl].
  - intros q. apply lists_keep. eauto.
  - intros x Hx. by rewrite lookup_insert_ne.
  - by rewrite lookup_insert_eq.
  - rewrite Hcur. by apply (awake_status _ _ r).
  - by rewrite E2.
  - intros _. congruence.
  - destruct HE as (_ & _ & _ & _ & _ & HE & _). apply (join_move k k' c r r' (i_join None k a I)); try done; [congruence|].
    intros t Ht. exfalso. rewrite E2 in Ht. destruct Hk as [Hk|[ms Hk]]; congruence.
  - apply (wake_move None k a k' _ c r r' (i_wake None k a I)); try done; [congruence|].
    intros q Hq. cbn. destruct (decide (q = PRun)) as [->|]; [by right|]. left. by rewrite lookup_insert_ne.
  - rewrite Hcs. by apply sorted_upd.
Qed.

(** Who is in the timer list sleeps. *)
Lemma timed_status k a c :
  s_inv None k a -> c ∈ al_timers a ->
  c <> rw_main_node /\ exists r, nb_coros k !! c = Some r /\ c_state r = NB_PARKED /\ al_place a !! c = Some None /\ c_rw_want r = 0.
Proof.
  intros I Hin. assert (Hc0 : c <> rw_main_node).
  { intros ->. by apply (n_timer _ _ (i_main _ _ _ I)). }
  split; [done|]. destruct (wf_timed a (i_wf _ _ _ I) c Hin) as [pl Hp].
  assert (is_Some (nb_coros k !! c)) as [r Hr] by (apply (d_coro _ _ (i_dom _ _ _ I)); eauto).
  exists r. destruct (i_status None k a I c r pl Hr Hc0 Hp) as [(Hu & Hf & Hst) Href].
  destruct (c_state r).
  - by destruct Hst as (_ & _ & [] & _).
  - by destruct Hst as (_ & _ & [] & _).
  - destruct Hst as [_ Hst]. destruct pl as [p|]; [by destruct Hst as [[] _]|]. by destruct Hst.
  - by destruct Hst as (_ & _ & [] & _).
Qed.

Lemma wp_expire_from f now : forall n (Q : Z -> core -> alinks -> Prop) k a,
  s_inv None k a -> (length (al_timers a) < f)%nat ->
  (forall n' k' a', s_inv None k' a' -> nb_main k' = nb_main k -> nb_current k' = nb_current k -> nb_clock k' = nb_clock k ->
     n <= n' ->
     (forall c, head (al_timers a) = Some c -> wake_time (nb_coros k) c <= now -> n < n') ->
     (forall c, head (al_timers a') = Some c -> now < wake_time (nb_coros k') c) -> Q n' k' a') ->
  wp (timers_expire_from f now n) Q k a.
Proof.
  induction f as [|f IH]; intros n Q k a I Hf HQ; [lia|]. cbn [timers_expire_from].
  apply wp_bind. eapply wp_see_links; [done|]. cbn.
  destruct (al_timers a) as [|c tl] eqn:Htm; cbn.
  - apply wp_ret, HQ; try done; try lia. by rewrite Htm.
  - destruct (timed_status k a c I ltac:(rewrite Htm; constructor)) as (Hc0 & r & Hr & Hs & Hp & Hw).
    assert (Hwt : wake_time (nb_coros k) c = c_wake_at_ms r) by (unfold wake_time; by rewrite Hr).
    apply wp_bind, (wp_deref _ _ r); [done|]. destruct (Z.leb_spec (c_wake_at_ms r) now).
    + destruct (d_run _ _ (i_dom _ _ _ I)) as [run Hrun].
      pose proof (wf_timers a (i_wf _ _ _ I)) as Hnd. rewrite Htm in Hnd. apply NoDup_cons in Hnd as [Hctl Hnd].
      pose proof (i_timers _ _ _ I) as HS. rewrite Htm in HS. apply StronglySorted_inv in HS as [HS _].
      apply wp_bind. eapply wp_on_links; [cbn; unfold a_timer_pop; by rewrite Htm|].
      apply wp_bind, (wp_upd_coro _ _ r); [done|]. apply wp_bind, (wp_push_queue PRun c run); [done|done|done|].
      set (r' := set_c_state NB_RUNNABLE (set_c_last_park_result 0 r)). cbn.
      apply IH; [|cbn; cbn in Hf; lia|].
      * apply (inv_ready k a _ c r r' run); try done; [by rewrite Permutation_app_comm|].
        intros x Hx. rewrite Htm, elem_of_cons. naive_solver.
      * intros n' k' a' I' Hm Hcu Hcl Hn Hprog Hlate. apply HQ; try done; try lia.
    + apply wp_ret, HQ; [done..|lia| |].
      * intros c' [= <-]. lia.
      * rewrite Htm. intros c' [= <-]. lia.
Qed.

Lemma wp_expire now (Q : Z -> core -> alinks -> Prop) k a :
  s_inv None k a ->
  (forall n' k' a', s_inv None k' a' -> nb_main k' = nb_main k -> nb_current k' = nb_current k -> nb_clock k' = nb_clock k ->
     0 <= n' ->
     (forall c, head (al_timers a) = Some c -> wake_time (nb_coros k) c <= now -> 0 < n') ->
     (forall c, head (al_timers a') = Some c -> now < wake_time (nb_coros k') c) -> Q n' k' a') ->
  wp (nb_timers_expire now) Q k a.
Proof.
  intros I HQ. apply wp_bind, wp_gets, wp_expire_from; [done| |done].
  apply Nat.lt_succ_r, dom_bound; [apply (wf_timers a (i_wf _ _ _ I))|].
  intros c Hc. by destruct (timed_status k a c I Hc) as (_ & r & Hr & _); eauto.
Qed.
