(* ===== verification/SchedCalls.v ===== *)
(** Every call of the scheduler answers and keeps the invariant, when it is made
    the way its clients make it. *)

From S2P Require Import Prelude SchedLinks Sched SchedInv SchedMoves SchedSpawn.

#[local] Hint Resolve same_rest_coros : core.

(** ** The main context *)

Lemma main_place k a :
  s_inv None k a -> (forall l w, nb_main k <> MRwWait l w) -> nb_main k <> MAborted -> al_place a !! rw_main_node = Some None.
Proof.
  intros I H1 H2. destruct (d_main _ _ (i_dom _ _ _ I)) as [r Hr].
  assert (is_Some (al_place a !! rw_main_node)) as [[p|] Hp] by (apply (d_coro _ _ (i_dom _ _ _ I)); eauto); [|done].
  destruct (n_place _ _ (i_main _ _ _ I) p r Hp Hr) as (l & _ & _ & [[w Hm]|Hm]); [by apply H1 in Hm|done].
Qed.

(** The main context goes to another point of its code. *)
Lemma inv_set_main k k' a :
  s_inv None k a -> same_coros k k' -> nb_mutexes k' = nb_mutexes k -> nb_rws k' = nb_rws k ->
  (forall m, is_Some (nb_conds k' !! m) <-> is_Some (nb_conds k !! m)) ->
  al_place a !! rw_main_node = Some None \/ nb_main k' = MAborted ->
  (forall l w r, nb_main k' = MRwWait l w -> nb_coros k !! rw_main_node = Some r -> c_rw_want r = 0) ->
  (forall t, nb_main k' = MJoin t -> may_join k t) ->
  main_refs k' -> s_inv None k' a.
Proof.
  intros I HC Hmu Hrw Hco Hpl Hwait Hjoin Href. pose proof HC as (C1 & C2 & C3 & C4 & C5).
  assert (HR : same_refs k k') by (split; [by rewrite Hmu|split; [done|by rewrite Hrw]]).
  destruct I as [I1 I2 I3 [J1 J2 J3 J4] I5 [W1 W2 W3 W4] [N1 N2 N3 N4] I8 I9 I10 I11 I12].
  split; rewrite ?C1, ?C2, ?C3, ?C4; try done.
  - by apply (dom_same k).
  - intros c r pl Hc Hc0 Hp. destruct (I3 c r pl Hc Hc0 Hp). split; [done|]. by apply (cont_refs_same k).
  - split; rewrite ?C1; try done.
    + intros t Ht. destruct (Hjoin t Ht) as (? & (rt & ? & ?) & _). eauto.
    + intros t j r Ht. destruct (Hjoin t Ht) as (_ & _ & Hno & _). apply Hno.
  - split; rewrite ?C1, ?C4, ?Hmu, ?Hrw; done.
  - split; rewrite ?C1; try done.
    + intros p r Hp Hr. destruct Hpl as [Hpl|Hpl]; [congruence|].
      destruct (N3 p r Hp Hr) as (l & ? & ? & _). exists l. auto.
    + intros l w r Hm Hr Hne. destruct Hne. by eapply Hwait.
Qed.

Lemma main_refs_user k : nb_main k = MUser \/ nb_main k = MAborted -> main_refs k.
Proof. unfold main_refs. by intros [-> | ->]. Qed.

(** ** Making mutexes, condition variables and locks *)

Definition grows (k k' : core) : Prop :=
  (forall m, is_Some (nb_mutexes k !! m) -> is_Some (nb_mutexes k' !! m)) /\
  (forall m, is_Some (nb_conds k !! m) -> is_Some (nb_conds k' !! m)) /\
  (forall m, is_Some (nb_rws k !! m) -> is_Some (nb_rws k' !! m)).

Lemma cont_refs_grow k k' q : grows k k' -> cont_refs k q -> cont_refs k' q.
Proof. intros (H1 & H2 & H3). destruct q; simpl; auto. Qed.

Lemma inv_make k k' a p :
  s_inv None k a -> al_list a !! p = None \/ al_list a !! p = Some [] -> (forall t, p <> PJoin t) -> p <> PRun -> p <> PDrain ->
  same_coros k k' -> nb_main k' = nb_main k -> grows k k' ->
  dom_inv k' (MkALinks (<[p := []]> (al_list a)) (al_timers a) (al_place a)) ->
  wake_inv None k' (MkALinks (<[p := []]> (al_list a)) (al_timers a) (al_place a)) ->
  s_inv None k' (MkALinks (<[p := []]> (al_list a)) (al_timers a) (al_place a)).
Proof.
  intros I Hp Hpj Hpr Hpd (C1 & C2 & C3 & C4 & C5) Hm HG HD HW.
  destruct I as [I1 I2 I3 [J1 J2 J3 J4] I5 I6 [N1 N2 N3 N4] I8 I9 I10 I11 I12].
  split; rewrite ?C1, ?C2, ?C3, ?C4; try done; cbn.
  - by apply wf_make.
  - intros c r pl Hc Hc0 Hpl. destruct (I3 c r pl Hc Hc0 Hpl). split; [done|]. by apply (cont_refs_grow k).
  - split; rewrite ?C1, ?Hm; done.
  - split; rewrite ?C1, ?Hm; done.
  - unfold main_refs in *. rewrite Hm. destruct HG as (G1 & G2 & G3).
    destruct (nb_main k); try done; try (by apply G1); try (by apply G3); (destruct I8; split; [by apply G2|by apply G1]).
Qed.

Lemma lookup_make (ls : gmap place (list nat)) p q : ls !! p = None \/ ls !! p = Some [] ->
  <[p := []]> ls !! q <> Some [] -> ls !! q <> Some [].
Proof. intros Hp. destruct (decide (p = q)) as [->|]; [by rewrite lookup_insert_eq|by rewrite lookup_insert_ne]. Qed.

Lemma is_Some_insert_or {V} (m : gmap nat V) c v x : is_Some (m !! x) -> is_Some (<[c := v]> m !! x).
Proof. intros Hx. destruct (decide (x = c)) as [->|]; [rewrite lookup_insert_eq; eauto|by rewrite lookup_insert_ne]. Qed.

Ltac make_dom I :=
  destruct (i_dom _ _ _ I) as [D1 D2 D3 D4 D5 D6 D7 D8 D9]; split; cbn; try done;
  try (intros ?x; rewrite lookup_insert_ne by done; auto; done); try by rewrite lookup_insert_ne.

Lemma inv_make_mutex k a m :
  s_inv None k a -> al_list a !! PMutex m = None \/ al_list a !! PMutex m = Some [] ->
  s_inv None (set_nb_mutexes (<[m := false]> (nb_mutexes k)) k) (MkALinks (<[PMutex m := []]> (al_list a)) (al_timers a) (al_place a)).
Proof.
  intros I Hp. apply (inv_make k); try done.
  - split_and!; try done. intros x. apply is_Some_insert_or.
  - make_dom I. intros x. destruct (decide (x = m)) as [->|]; [rewrite !lookup_insert_eq; split; eauto|].
    rewrite !lookup_insert_ne by congruence. apply D3.
  - destruct (i_wake _ _ _ I) as [W1 W2 W3 W4]. split; cbn.
    + intros x Hx Hq. destruct (decide (x = m)) as [->|]; [by rewrite lookup_insert_eq in Hq|].
      rewrite lookup_insert_ne in Hx by done. rewrite lookup_insert_ne in Hq by congruence. by apply W1.
    + intros l w. rewrite lookup_insert_ne by done. apply W2.
    + by rewrite lookup_insert_ne.
    + intros t r. rewrite lookup_insert_ne by done. apply W4.
Qed.

Lemma inv_make_cond k a m r :
  s_inv None k a -> al_list a !! PCond m = None \/ al_list a !! PCond m = Some [] ->
  s_inv None (set_nb_conds (<[m := r]> (nb_conds k)) k) (MkALinks (<[PCond m := []]> (al_list a)) (al_timers a) (al_place a)).
Proof.
  intros I Hp. apply (inv_make k); try done.
  - split_and!; try done. intros x. apply is_Some_insert_or.
  - make_dom I. intros x. destruct (decide (x = m)) as [->|]; [rewrite !lookup_insert_eq; split; eauto|].
    rewrite !lookup_insert_ne by congruence. apply D4.
  - destruct (i_wake _ _ _ I) as [W1 W2 W3 W4]. split; cbn.
    + intros x Hx. rewrite lookup_insert_ne by done. by apply W1.
    + intros l w. rewrite lookup_insert_ne by done. apply W2.
    + by rewrite lookup_insert_ne.
    + intros t r0. rewrite lookup_insert_ne by done. apply W4.
Qed.

Lemma inv_make_rw k a l :
  s_inv None k a -> al_list a !! PRw l = None \/ al_list a !! PRw l = Some [] ->
  s_inv None (set_nb_rws (<[l := MkRw 0 false None]> (nb_rws k)) k) (MkALinks (<[PRw l := []]> (al_list a)) (al_timers a) (al_place a)).
Proof.
  intros I Hp. apply (inv_make k); try done.
  - split_and!; try done. intros x. apply is_Some_insert_or.
  - make_dom I. intros x. destruct (decide (x = l)) as [->|]; [rewrite !lookup_insert_eq; split; eauto|].
    rewrite !lookup_insert_ne by congruence. apply D5.
  - destruct (i_wake _ _ _ I) as [W1 W2 W3 W4]. split; cbn.
    + intros x Hx. rewrite lookup_insert_ne by done. by apply W1.
    + intros x w. destruct (decide (x = l)) as [->|].
      * rewrite !lookup_insert_eq. intros [= <-]. cbn. done.
      * rewrite lookup_insert_ne by done. rewrite lookup_insert_ne by congruence. apply W2.
    + by rewrite lookup_insert_ne.
    + intros t r0. rewrite lookup_insert_ne by done. apply W4.
Qed.

(** ** Reader/writer locks *)

(** The main context's node goes in or out of a lock's queue. *)
Lemma inv_node k k' a l q pl' r r' :
  s_inv None k a -> nb_coros k !! rw_main_node = Some r -> nb_coros k' = <[rw_main_node := r']> (nb_coros k) ->
  c_state r' = c_state r -> c_cont r' = c_cont r -> c_finished r' = c_finished r -> c_joinable r' = c_joinable r ->
  nb_live k' = nb_live k /\ nb_fibers_live k' = nb_fibers_live k /\ nb_mutexes k' = nb_mutexes k /\
    nb_conds k' = nb_conds k /\ nb_rws k' = nb_rws k /\ nb_next_id k' = nb_next_id k /\ nb_current k' = nb_current k ->
  is_Some (al_list a !! PRw l) -> (al_list a !! PRw l <> Some [] \/ excused k (PRw l)) ->
  (forall t, nb_main k' <> MJoin t) -> main_refs k' ->
  let a' := MkALinks (<[PRw l := q]> (al_list a)) (al_timers a) (<[rw_main_node := pl']> (al_place a)) in
  a_wf a' -> main_inv k' a' -> s_inv None k' a'.
Proof.
  intros I Hr Hcs Es Ek Ef Ej (E1 & E2 & E3 & E4 & E5 & E6 & E7) Hl Hq Hnj Href a' Hwf HN.
  destruct I as [I1 [D1 D2 D3 D4 D5 D6 D7 D8 D9] I3 [J1 J2 J3 J4] I5 [W1 W2 W3 W4] [N1 N2 N3 N4] I8 I9 I10 I11 I12].
  assert (Hcsx : forall x, x <> rw_main_node -> nb_coros k' !! x = nb_coros k !! x).
  { intros x Hx. by rewrite Hcs, lookup_insert_ne. }
  assert (Hcs0 : nb_coros k' !! rw_main_node = Some r') by (by rewrite Hcs, lookup_insert_eq).
  assert (Hd : forall x, is_Some (nb_coros k' !! x) <-> is_Some (nb_coros k !! x)).
  { intros x. rewrite Hcs. apply is_Some_insert. eauto. }
  assert (Hls : forall p, is_Some (<[PRw l := q]> (al_list a) !! p) <-> is_Some (al_list a !! p)).
  { intros p. by apply lists_keep. }
  assert (Hno : forall j rj t, nb_coros k' !! j = Some rj -> c_cont rj = KJoin t -> j <> rw_main_node /\ nb_coros k !! j = Some rj).
  { intros j rj t Hj Hk. destruct (decide (j = rw_main_node)) as [->|Hne].
    - rewrite Hcs0 in Hj. destruct (N1 r Hr) as [Hkk _]. congruence.
    - by rewrite Hcsx in Hj. }
  split; try done; rewrite ?E1, ?E2, ?E7.
  - split; cbn; rewrite ?E3, ?E4, ?E5, ?E6.
    + intros x. rewrite Hd. destruct (decide (x = rw_main_node)) as [->|]; [rewrite lookup_insert_eq; split; eauto|].
      rewrite lookup_insert_ne by done. apply D1.
    + intros x. by rewrite Hd, Hls.
    + intros x. by rewrite Hls.
    + intros x. by rewrite Hls.
    + intros x. by rewrite Hls.
    + by apply Hls.
    + by apply Hls.
    + intros x. rewrite Hd. apply D8.
    + by apply Hd.
  - intros c rc pl Hc Hc0 Hpl. rewrite Hcsx in Hc by done. cbn in Hpl. rewrite lookup_insert_ne in Hpl by done.
    destruct (I3 c rc pl Hc Hc0 Hpl). split; [done|].
    eapply cont_refs_same; [|done]. by split_and!; intros m; rewrite ?E3, ?E4, ?E5.
  - split.
    + intros j rj t Hj Hk. destruct (Hno j rj t Hj Hk) as [Hne Hj'].
      destruct (J1 j rj t Hj' Hk) as (rt & Hrt & Ht0 & ? & ?). exists rt. by rewrite Hcsx.
    + intros i j ri rj t Hi Hj Hki Hkj. destruct (Hno i ri t Hi Hki). destruct (Hno j rj t Hj Hkj). by apply (J2 i j ri rj t).
    + intros t Ht. by apply Hnj in Ht.
    + intros t j rj Ht. by apply Hnj in Ht.
  - intros c rc Hc _ Hs. destruct (decide (c = rw_main_node)) as [->|]; [|rewrite Hcsx in Hc by done; by apply (I5 c)].
    rewrite Hcs0 in Hc. injection Hc as <-. rewrite Ej. apply (I5 rw_main_node r); [done|done|congruence].
  - split; cbn; rewrite ?E3, ?E5.
    + intros m Hm. rewrite lookup_insert_ne by done. intros Hmq. destruct (W1 m Hm Hmq) as (x & rx & Hx & Hx0 & ? & ?).
      exists x, rx. by rewrite Hcsx.
    + intros x w Hw. destruct (W2 x w Hw) as (H1 & H2 & H3). split; [done|]. split; [done|].
      destruct (decide (x = l)) as [->|]; [|by rewrite lookup_insert_ne by congruence].
      intros _. destruct Hq as [Hq|Hq]; [by apply H3|by apply Hq].
    + rewrite E2, lookup_insert_ne by done. done.
    + intros t rt _ Ht Hf. rewrite lookup_insert_ne by done. destruct (decide (t = rw_main_node)) as [->|].
      * rewrite Hcs0 in Ht. injection Ht as <-. apply (W4 rw_main_node r); [done|done|congruence].
      * rewrite Hcsx in Ht by done. by apply (W4 t rt).
  - intros c Hc. destruct (I9 c Hc) as (Hc0 & rc & ? & ?). split; [done|]. exists rc. by rewrite Hcsx.
  - rewrite Hcs. by apply sorted_upd.
  - rewrite I11, Hcs, (count_insert _ _ _ r r' Hr). unfold counted. simpl. lia.
  - rewrite I12, Hcs, (count_insert _ _ _ r r' Hr). unfold counted. simpl. lia.
Qed.

(** The lock as it is while somebody holds it. *)
Definition held (l : nat) (k : core) : core := set_nb_rws (<[l := MkRw 0 true None]> (nb_rws k)) k.

Lemma inv_held k a l : s_inv None k a -> is_Some (nb_rws k !! l) -> s_inv None (held l k) a.
Proof. intros I Hl. apply inv_rw; cbn; auto; lia. Qed.

Lemma inv_unheld k a l w :
  s_inv None (held l k) a -> nb_rws k !! l = Some w ->
  0 <= r_readers w -> (r_writing w = true -> r_readers w = 0) ->
  (al_list a !! PRw l <> Some [] -> r_writing w = true \/ 0 < r_readers w) -> s_inv None k a.
Proof.
  intros I Hl H1 H2 H3. pose proof (inv_rw None (held l k) a l w I) as Hi.
  assert (is_Some (nb_rws (held l k) !! l)) as Hs by (cbn; rewrite lookup_insert_eq; eauto).
  specialize (Hi Hs H1 H2 H3). cbn in Hi. rewrite insert_insert_eq, insert_id in Hi by done. by destruct k.
Qed.

(** Who waits for a lock. *)
Lemma rw_waiter k a l c q :
  s_inv None k a -> al_list a !! PRw l = Some (c :: q) ->
  exists r, nb_coros k !! c = Some r /\ al_place a !! c = Some (Some (PRw l)) /\ (c <> rw_main_node -> waits (PRw l) r).
Proof.
  intros I Hl. assert (Hin : c ∈ c :: q) by constructor.
  destruct (list_coro _ _ _ _ _ c I Hl Hin) as [r Hr]. exists r.
  split; [done|]. split; [by apply (wf_in a (i_wf _ _ _ I) _ _ c Hl)|].
  intros Hc0. by destruct (waiting_status None k a _ _ c r I Hl ltac:(done) Hin Hc0 Hr) as (_ & _ & _ & ? & _).
Qed.

(** The main context's node is granted the lock. *)
Lemma inv_grant_main k a l q r :
  s_inv None k a -> al_list a !! PRw l = Some (rw_main_node :: q) -> nb_coros k !! rw_main_node = Some r ->
  s_inv None (set_nb_coros (<[rw_main_node := set_c_rw_want 0 r]> (nb_coros k)) k)
    (MkALinks (<[PRw l := q]> (al_list a)) (al_timers a) (<[rw_main_node := None]> (al_place a))).
Proof.
  intros I Hl Hr. destruct (rw_waiter k a l _ q I Hl) as (r0 & Hr0 & Hp & _). assert (r0 = r) as -> by congruence.
  destruct (i_main _ _ _ I) as [N1 N2 N3 N4]. destruct (N3 (PRw l) r Hp Hr) as (l' & [= <-] & Hw & Hm).
  apply (inv_node k _ a l q None r (set_c_rw_want 0 r)); try done.
  - left. congruence.
  - intros t. destruct Hm as [[w Hm]|Hm]; cbn; congruence.
  - apply (i_refs _ _ _ I).
  - by apply (wf_take a (PRw l) _ q _ (i_wf _ _ _ I) Hl).
  - split; cbn; rewrite ?lookup_insert_eq; [|exact N2|by intros|].
    + intros x Hx. apply (inj Some) in Hx as <-. exact (N1 r Hr).
    + intros x w y _ Hy. by apply (inj Some) in Hy as <-.
Qed.

(** One waiter of a lock held by nobody in particular is granted it. *)
Lemma wp_grant_one l w w' c q rc (next : LM unit) (Q : unit -> core -> alinks -> Prop) k a :
  s_inv None (held l k) a -> nb_rws k !! l = Some w -> al_list a !! PRw l = Some (c :: q) -> nb_coros k !! c = Some rc ->
  (forall k' a', s_inv None (held l k') a' -> nb_rws k' !! l = Some w' -> al_list a' !! PRw l = Some q ->
     nb_main k' = nb_main k -> nb_current k' = nb_current k -> wp next Q k' a') ->
  wp (pop_queue (PRw l);; put_rw l w';; upd_coro c (set_c_rw_want 0);;
      (if (c =? rw_main_node)%nat then mret tt else make_runnable c);; next) Q k a.
Proof.
  intros I Hw Hl Hc HQ.
  apply wp_bind, (wp_pop_cons _ c q); [done|done|]. apply wp_bind, wp_modify, wp_bind, (wp_upd_coro _ _ rc); [done|].
  apply wp_bind. destruct (Nat.eqb_spec c rw_main_node) as [->|Hc0].
  - apply wp_ret, HQ; cbn; try done; [|by rewrite lookup_insert_eq|by rewrite lookup_insert_eq].
    pose proof (inv_grant_main (held l k) a l q rc I Hl Hc) as Hi.
    unfold held in *. cbn in *. by rewrite insert_insert_eq.
  - destruct (d_run _ _ (i_dom _ _ _ I)) as [run Hrun].
    apply (wp_make_runnable c (set_c_rw_want 0 rc) run); cbn; [by rewrite lookup_insert_eq|by rewrite lookup_insert_ne|by rewrite lookup_insert_eq|].
    apply HQ; cbn; try done; [|by rewrite lookup_insert_eq|by rewrite lookup_insert_ne, lookup_insert_eq].
    apply (inv_wake None (held l k) a _ (PRw l) c q run rc (set_c_state NB_RUNNABLE (set_c_rw_want 0 rc))); try done; cbn.
    + by rewrite insert_insert_eq.
    + split_and!; try done. cbn. by rewrite insert_insert_eq.
Qed.

(** [nb_rw_grant], from a lock whose state need not fit its queue. *)
Lemma wp_grant_from f l : forall w q (Q : unit -> core -> alinks -> Prop) k a,
  s_inv None (held l k) a -> nb_rws k !! l = Some w -> 0 <= r_readers w -> (r_writing w = true -> r_readers w = 0) ->
  al_list a !! PRw l = Some q -> (length q < f)%nat ->
  (forall k' a', s_inv None k' a' -> nb_main k' = nb_main k -> nb_current k' = nb_current k -> Q tt k' a') ->
  wp (rw_grant_from f l) Q k a.
Proof.
  induction f as [|f IH]; intros w q Q k a I Hw Hr0 Hrw Hq Hf HQ; [lia|]. cbn [rw_grant_from].
  apply wp_bind, (wp_deref _ _ w); [done|].
  apply wp_bind. eapply wp_see_links; [cbn; by rewrite Hq|]. cbn.
  destruct q as [|c q]; cbn.
  { apply wp_ret, HQ; [|done|done]. by apply (inv_unheld k a l w). }
  destruct (rw_waiter _ _ l c q I Hq) as (rc & Hrc & Hp & Hwt). cbn in Hrc.
  apply wp_bind, (wp_deref _ _ rc); [done|]. cbn zeta.
  destruct (r_writing w) eqn:Hwr; simpl.
  { apply wp_ret, HQ; [|done|done]. apply (inv_unheld k a l w); auto. }
  destruct (c_rw_want rc =? NB_RW_WRITE) eqn:Hwant; simpl.
  - destruct (Z.eqb_spec (r_readers w) 0) as [Hr|Hr]; simpl.
    2:{ apply wp_ret, HQ; [|done|done]. apply (inv_unheld k a l w); try done; [by rewrite Hwr|]. right. lia. }
    apply (wp_grant_one l w (set_r_writing true w) c q rc); try done.
    intros k' a' I' Hw' Hq' Hm Hcur. apply wp_ret, HQ; [|done|done].
    apply (inv_unheld k' a' l _ I' Hw'); cbn; [lia|done|by left].
  - apply (wp_grant_one l w (set_r_readers (r_readers w + 1) w) c q rc); try done.
    intros k' a' I' Hw' Hq' Hm Hcur. apply (IH (set_r_readers (r_readers w + 1) w) q); cbn; try done; [lia|congruence|cbn in Hf; lia|].
    intros k2 a2 I2 Hm2 Hcur2. apply HQ; congruence.
Qed.

Lemma wp_rw_grant l w (Q : unit -> core -> alinks -> Prop) k a :
  s_inv None (held l k) a -> nb_rws k !! l = Some w -> 0 <= r_readers w -> (r_writing w = true -> r_readers w = 0) ->
  (forall k' a', s_inv None k' a' -> nb_main k' = nb_main k -> nb_current k' = nb_current k -> Q tt k' a') ->
  wp (nb_rw_grant l) Q k a.
Proof.
  intros I Hw H1 H2 HQ. apply wp_bind, wp_gets.
  assert (is_Some (al_list a !! PRw l)) as [q Hq].
  { apply (d_rw _ _ (i_dom _ _ _ I)). cbn. rewrite lookup_insert_eq. eauto. }
  apply (wp_grant_from _ l w q); try done. apply Nat.lt_succ_r, dom_bound; [by apply (wf_nodup a (i_wf _ _ _ I) _ _ Hq)|].
  intros c Hc. by apply (list_coro _ (held l k) a _ _ c I Hq).
Qed.

(** A lock with a queue is held. *)
Lemma rw_held k a l w : s_inv None k a -> nb_rws k !! l = Some w -> al_list a !! PRw l <> Some [] ->
  r_writing w = true \/ 0 < r_readers w.
Proof. intros I Hw. by apply (w_rw _ _ _ (i_wake _ _ _ I) l w Hw). Qed.

(** A call is made by the running coroutine, or by the main context when it is
    in nothing. *)
Definition called (k : core) : Prop := is_Some (nb_current k) \/ nb_main k = MUser.

Definition keeps {A} (m : LM A) (k : core) (a : alinks) : Prop := wp m (fun _ k' a' => s_inv None k' a') k a.

Lemma main_free k a : s_inv None k a -> nb_main k = MUser -> al_place a !! rw_main_node = Some None.
Proof. intros I Hm. apply (main_place k a I); congruence. Qed.

(** The main context queues for a lock. *)
Lemma inv_main_queues k a l want q r :
  s_inv None k a -> nb_main k = MUser -> al_list a !! PRw l = Some q -> nb_coros k !! rw_main_node = Some r ->
  want <> 0 -> excused k (PRw l) ->
  s_inv None (set_nb_main (MRwWait l want) (set_nb_drive_depth (nb_drive_depth k + 1)
      (set_nb_coros (<[rw_main_node := set_c_rw_want want r]> (nb_coros k)) k)))
    (MkALinks (<[PRw l := q ++ [rw_main_node]]> (al_list a)) (al_timers a) (<[rw_main_node := Some (PRw l)]> (al_place a))).
Proof.
  intros I Hm Hq Hr Hw Hex. pose proof (main_free k a I Hm) as Hp.
  apply (inv_node k _ a l (q ++ [rw_main_node]) (Some (PRw l)) r (set_c_rw_want want r)); try done.
  - by right.
  - unfold main_refs. cbn. apply (d_rw _ _ (i_dom _ _ _ I)). eauto.
  - apply (wf_put a (PRw l) q _ _ (i_wf _ _ _ I)); [done|done|by rewrite Permutation_app_comm].
  - destruct (i_main _ _ _ I) as [N1 N2 N3 N4]. split; cbn; rewrite ?lookup_insert_eq.
    + intros x Hx. apply (inj Some) in Hx as <-. exact (N1 r Hr).
    + exact N2.
    + intros p x [= <-] Hx. apply (inj Some) in Hx as <-. exists l. eauto.
    + intros l' w x [= <- <-] _ _. done.
Qed.

Lemma wp_nb_rw_wait l want k a :
  s_inv None k a -> called k -> is_Some (nb_rws k !! l) -> want = NB_RW_READ \/ want = NB_RW_WRITE -> excused k (PRw l) ->
  keeps (nb_rw_wait l want) k a.
Proof.
  intros I Hcall Hl Hwant Hex.
  assert (Hw0 : want <> 0) by by destruct Hwant as [-> | ->].
  assert (is_Some (al_list a !! PRw l)) as [q Hq] by by apply (d_rw _ _ (i_dom _ _ _ I)).
  apply wp_bind, wp_gets. destruct (nb_current k) as [c|] eqn:Hcur.
  - destruct (running_status k a c I Hcur) as (Hc0 & r & Hr & Hs & Hp0 & Hnt & Hk & Hw & Hf & Hu).
    apply wp_bind, (wp_upd_coro _ _ r); [done|]. apply wp_bind, (wp_push_queue _ _ q); [done|done|done|].
    apply wp_bind, (wp_deref _ _ (set_c_rw_want want r)); [cbn; by rewrite lookup_insert_eq|].
    cbn [c_rw_want set_c_rw_want]. rewrite (proj2 (Z.eqb_neq want 0) Hw0). cbn [negb].
    apply (wp_park _ c (set_c_rw_want want r)); cbn; [done|by rewrite lookup_insert_eq|by rewrite Hu| |by intros].
    rewrite insert_insert_eq.
    apply (inv_park_at k a _ c r (parked (KRwWait l want) (set_c_rw_want want r)) (KRwWait l want) (PRw l) q); try done.
    by rewrite Permutation_app_comm.
  - destruct Hcall as [[? ?]|Hm]; [congruence|].
    destruct (d_main _ _ (i_dom _ _ _ I)) as [r Hr].
    apply wp_bind, (wp_upd_coro _ _ r); [done|].
    pose proof (main_free k a I Hm) as Hp.
    apply wp_bind, (wp_push_queue _ _ q); [done|done|done|].
    apply wp_modify. by apply (inv_main_queues k a l want q r).
Qed.

Lemma rw_find_lookup h l i : rw_find h l = Some i -> exists n, h !! i = Some (l, n).
Proof.
  revert i. induction h as [|[l' n] h IH]; intros i; simpl; [done|].
  destruct (rw_find h l) as [j|]; [intros [= <-]; by apply IH|].
  destruct (Nat.eqb_spec l' l) as [->|]; [|done]. intros [= <-]. by exists n.
Qed.

(** The caller's record. *)
Definition rw_me (k : core) : nat := match nb_current k with Some c => c | None => rw_main_node end.

Lemma me_coro k a : s_inv None k a -> exists r, nb_coros k !! rw_me k = Some r.
Proof.
  intros I. unfold rw_me. destruct (nb_current k) as [c|] eqn:Hc; [|apply (d_main _ _ (i_dom _ _ _ I))].
  destruct (i_current _ _ _ I c Hc) as (_ & r & Hr & _). eauto.
Qed.

Lemma wp_rw_me_find l r (Q : nat -> option nat -> core -> alinks -> Prop) k a :
  nb_coros k !! rw_me k = Some r -> Q (rw_me k) (rw_find (c_rwh r) l) k a ->
  wp (me ← nb_rw_me; e ← nb_rw_find me l; mret (me, e)) (fun x => Q x.1 x.2) k a.
Proof.
  intros Hr HQ. apply wp_bind, wp_bind, wp_gets, wp_ret. apply wp_bind, wp_bind, (wp_deref _ _ r); [done|].
  by apply wp_ret, wp_ret.
Qed.

(** The holder's record changes in its entries only. *)
Lemma inv_rwh k a c r h : s_inv None k a -> nb_coros k !! c = Some r ->
  s_inv None (set_nb_coros (<[c := set_c_rwh h r]> (nb_coros k)) k) a.
Proof. intros I Hr. by apply (inv_touch None k a _ c r (set_c_rwh h r)). Qed.

Lemma wp_rw_add me l r (Q : unit -> core -> alinks -> Prop) k a :
  s_inv None k a -> nb_coros k !! me = Some r ->
  (forall h, let k' := set_nb_coros (<[me := set_c_rwh h r]> (nb_coros k)) k in s_inv None k' a -> Q tt k' a) ->
  wp (nb_rw_add me l) Q k a.
Proof. intros I Hr HQ. apply (wp_upd_coro _ _ r); [done|]. by apply HQ, inv_rwh. Qed.

Lemma wp_rw_count me l i d r (Q : Z -> core -> alinks -> Prop) k a :
  s_inv None k a -> nb_coros k !! me = Some r -> rw_find (c_rwh r) l = Some i ->
  (forall n h, let k' := set_nb_coros (<[me := set_c_rwh h r]> (nb_coros k)) k in s_inv None k' a -> Q n k' a) ->
  wp (rw_count me i d) Q k a.
Proof.
  intros I Hr Hi HQ. destruct (rw_find_lookup _ _ _ Hi) as [n Hn].
  apply wp_bind, (wp_deref _ _ r); [done|]. rewrite Hn. apply wp_bind, wp_modify, wp_ret. by apply HQ, inv_rwh.
Qed.

(** The main context gives up. *)
Lemma inv_abort k a d : s_inv None k a -> s_inv None (set_nb_main MAborted (set_nb_drive_depth d k)) a.
Proof. intros I. apply (inv_set_main k); try done. by right. Qed.

Lemma inv_aborted k a : s_inv None k a -> s_inv None (set_nb_main MAborted k) a.
Proof. intros I. apply (inv_set_main k); try done. by right. Qed.

(** Reading the lock, its queue, and the caller's entry. *)
Lemma wp_rw_look {A} l w q r (f : NbRw -> option nat -> nat -> option nat -> LM A) Q k a :
  nb_rws k !! l = Some w -> al_list a !! PRw l = Some q -> nb_coros k !! rw_me k = Some r ->
  wp (f w (head q) (rw_me k) (rw_find (c_rwh r) l)) Q k a ->
  wp (w ← rwl l; h ← queue_head (PRw l); me ← nb_rw_me; e ← nb_rw_find me l; f w h me e) Q k a.
Proof.
  intros Hw Hq Hr HQ. apply wp_bind, (wp_deref _ _ w); [done|]. apply wp_bind. eapply wp_see_links; [cbn; by rewrite Hq|].
  cbn. apply wp_bind, wp_bind, wp_gets, wp_ret. apply wp_bind, wp_bind, (wp_deref _ _ r); [done|]. by apply wp_ret.
Qed.

Section rwlocks.
Context (l : nat) (k : core) (a : alinks).
Hypothesis I : s_inv None k a.
Hypothesis Hcall : called k.
Hypothesis Hl : is_Some (nb_rws k !! l).

Lemma rw_parts : exists w q r, nb_rws k !! l = Some w /\ al_list a !! PRw l = Some q /\ nb_coros k !! rw_me k = Some r /\
  0 <= r_readers w /\ (r_writing w = true -> r_readers w = 0) /\ (q <> [] -> r_writing w = true \/ 0 < r_readers w).
Proof.
  destruct Hl as [w Hw]. assert (is_Some (al_list a !! PRw l)) as [q Hq] by (apply (d_rw _ _ (i_dom _ _ _ I)); eauto).
  destruct (me_coro k a I) as [r Hr]. exists w, q, r.
  destruct (w_rw _ _ _ (i_wake _ _ _ I) l w Hw) as (H1 & H2 & H3). split_and!; try done.
  intros Hne. apply H3. congruence.
Qed.

(** Taking the lock for reading, or for writing. *)
Lemma inv_take_read w q : nb_rws k !! l = Some w -> al_list a !! PRw l = Some q -> 0 <= r_readers w -> r_writing w = false ->
  s_inv None (set_nb_rws (<[l := set_r_readers (r_readers w + 1) w]> (nb_rws k)) k) a.
Proof. intros Hw Hq H0 Hf. apply inv_rw; cbn; try done; [lia|congruence|]. right. lia. Qed.

Lemma inv_take_write w me : r_readers w = 0 ->
  s_inv None (set_nb_rws (<[l := set_r_writer (Some me) (set_r_writing true w)]> (nb_rws k)) k) a.
Proof. intros H0. apply inv_rw; cbn; try done; [lia|]. by left. Qed.

Lemma wp_rdlock : keeps (nurl_rwlock_rdlock l) k a.
Proof.
  destruct rw_parts as (w & q & r & Hw & Hq & Hr & H0 & H1 & H2). apply (wp_rw_look l w q r); try done.
  destruct (rw_find (c_rwh r) l) as [i|] eqn:Hi.
  - apply wp_bind, (wp_rw_count _ l _ _ r); try done. intros n h k' I'. by apply wp_ret.
  - destruct (bool_decide _); [by apply wp_modify, inv_aborted|].
    destruct (r_writing w) eqn:Hwr; simpl; [|destruct q as [|c q]; simpl].
    + apply wp_nb_rw_wait; try done; [by left|]. intros w' Hw'. left. congruence.
    + apply wp_bind, wp_modify. apply (wp_rw_add _ _ r); [by eapply inv_take_read|done|by intros].
    + apply wp_nb_rw_wait; try done; [by left|]. intros w' Hw'. assert (w' = w) as -> by congruence. rewrite Hwr. by apply H2.
Qed.

Lemma wp_wrlock : keeps (nurl_rwlock_wrlock l) k a.
Proof.
  destruct rw_parts as (w & q & r & Hw & Hq & Hr & H0 & H1 & H2). apply (wp_rw_look l w q r); try done.
  destruct (bool_decide _); [by apply wp_modify, inv_aborted|].
  destruct (negb _); [by apply wp_modify, inv_aborted|].
  assert (Hwait : r_writing w = true \/ 0 < r_readers w -> keeps (nb_rw_wait l NB_RW_WRITE) k a).
  { intros Hor. apply wp_nb_rw_wait; try done; [by right|]. intros w' Hw'. congruence. }
  destruct (r_writing w) eqn:Hwr; simpl; [by apply Hwait; left|].
  destruct (Z.eqb_spec (r_readers w) 0); simpl; [|apply Hwait; lia].
  destruct q as [|c q]; simpl; [|by apply Hwait, H2]. by apply wp_modify, inv_take_write.
Qed.

Lemma wp_tryrdlock : keeps (nurl_rwlock_tryrdlock l) k a.
Proof.
  destruct rw_parts as (w & q & r & Hw & Hq & Hr & H0 & H1 & H2). apply (wp_rw_look l w q r); try done.
  destruct (rw_find (c_rwh r) l) as [i|] eqn:Hi.
  - apply wp_bind, (wp_rw_count _ l _ _ r); try done. intros n h k' I'. by apply wp_ret.
  - destruct (r_writing w) eqn:Hwr; simpl; [by apply wp_ret|]. destruct q as [|c q]; simpl; [|by apply wp_ret].
    apply wp_bind, wp_modify, wp_bind. apply (wp_rw_add _ _ r); [by eapply inv_take_read|done|].
    intros h k' I'. by apply wp_ret.
Qed.

Lemma wp_trywrlock : keeps (nurl_rwlock_trywrlock l) k a.
Proof.
  destruct rw_parts as (w & q & r & Hw & Hq & Hr & H0 & H1 & H2). apply (wp_rw_look l w q r); try done.
  destruct (r_writing w); simpl; [by apply wp_ret|].
  destruct (Z.eqb_spec (r_readers w) 0); simpl; [|by apply wp_ret].
  destruct (negb (is_none (head q))); simpl; [by apply wp_ret|].
  destruct (negb _); simpl; [by apply wp_ret|]. by apply wp_bind, wp_modify, wp_ret, inv_take_write.
Qed.

Lemma wp_wrunlock : keeps (nurl_rwlock_wrunlock l) k a.
Proof.
  destruct rw_parts as (w & q & r & Hw & Hq & Hr & H0 & H1 & H2).
  apply wp_bind, (wp_deref _ _ w); [done|]. apply wp_bind, wp_modify.
  eapply (wp_rw_grant l (set_r_writing false (set_r_writer None w))); cbn; try done; [|by rewrite lookup_insert_eq].
  unfold held. cbn. rewrite insert_insert_eq. exact (inv_held k a l I Hl).
Qed.

(** The last step of a reader: the lock is granted on when nobody reads. *)
Lemma wp_reader_leaves k' w : s_inv None k' a -> nb_rws k' !! l = Some w -> 0 <= r_readers w -> (r_writing w = true -> r_readers w = 0) ->
  keeps (r ← rwl l; if 0 <? r_readers r then put_rw l (set_r_readers (r_readers r - 1) r);;
           if r_readers r - 1 =? 0 then nb_rw_grant l else mret tt
         else mret tt) k' a.
Proof.
  intros I' Hw H0 H1. apply wp_bind, (wp_deref _ _ w); [done|].
  destruct (Z.ltb_spec 0 (r_readers w)); [|by apply wp_ret].
  apply wp_bind, wp_modify. destruct (Z.eqb_spec (r_readers w - 1) 0).
  - eapply (wp_rw_grant l (set_r_readers (r_readers w - 1) w)); cbn; try done; [|by rewrite lookup_insert_eq|lia].
    unfold held. cbn. rewrite insert_insert_eq. exact (inv_held k' a l I' ltac:(eauto)).
  - apply wp_ret, inv_rw; cbn; try done; [lia|intros Hwr; specialize (H1 Hwr); lia|]. right. lia.
Qed.

Lemma wp_rdunlock : keeps (nurl_rwlock_rdunlock l) k a.
Proof.
  destruct rw_parts as (w & q & r & Hw & Hq & Hr & H0 & H1 & H2).
  apply wp_bind, wp_bind, wp_gets, wp_ret. apply wp_bind, wp_bind, (wp_deref _ _ r); [done|]. apply wp_ret.
  apply wp_bind. fold (rw_me k). destruct (rw_find (c_rwh r) l) as [i|] eqn:Hi.
  - apply wp_bind, (wp_rw_count _ l _ _ r); try done. intros n h k' I'. destruct (0 <? n).
    + by apply wp_ret, wp_ret.
    + apply wp_bind, (wp_upd_coro _ _ (set_c_rwh h r)); [cbn; by rewrite lookup_insert_eq|]. apply wp_ret.
      apply (wp_reader_leaves _ w); try done. apply (inv_rwh k' a (rw_me k) (set_c_rwh h r)); [done|].
      cbn. by rewrite lookup_insert_eq.
  - apply wp_ret. by apply (wp_reader_leaves _ w).
Qed.
End rwlocks.
