(* ===== verification/SchedPark.v ===== *)
(** The invariant of the scheduler under parking with a deadline, unparking and
    condition variables. *)

From S2P Require Import Prelude SchedLinks Sched SchedInv SchedMoves SchedSpawn SchedCalls.

#[local] Hint Resolve same_rest_coros : core.

(** ** The timer list *)

Abbreviation by_time cs := (StronglySorted (fun x y => wake_time cs x <= wake_time cs y)).

Lemma insert_timer_ok cs c at_ l :
  (forall t, t ∈ l -> is_Some (cs !! t)) -> wake_time cs c = at_ -> by_time cs l ->
  exists r, insert_timer (fun t => c_wake_at_ms <$> cs !! t) c at_ l = Some r /\ r ≡ₚ c :: l /\ by_time cs r.
Proof.
  intros Hin Hc Hs. induction Hs as [|t l Hs IH Hall]; simpl.
  - exists [c]. split_and!; try done. repeat constructor.
  - destruct (Hin t ltac:(constructor)) as [rt Hrt]. rewrite Hrt. cbn.
    assert (Hwt : wake_time cs t = c_wake_at_ms rt) by (unfold wake_time; by rewrite Hrt).
    destruct (Z.leb_spec (c_wake_at_ms rt) at_).
    + destruct IH as (r & Hr & Hp & Hrs). { intros x Hx. apply Hin. by right. }
      rewrite Hr. cbn. exists (t :: r). split; [done|]. split; [rewrite Hp; apply Permutation_swap|].
      constructor; [done|]. rewrite Hp. constructor; [lia|done].
    + exists (c :: t :: l). split; [done|]. split; [done|]. constructor; [by constructor|].
      rewrite Forall_forall in *. intros x [->|Hx]%elem_of_cons; [lia|]. specialize (Hall x Hx). lia.
Qed.

(** The running coroutine may park in no list, on the timers [tl]. *)
Definition may_sleep (k : core) (a : alinks) (c : nat) (tl : list nat) (at_ : Z) : Prop :=
  forall K r r' k', nb_coros k !! c = Some r -> (K = KUser \/ exists ms, K = KParkMs ms) -> parks K r r' -> c_rw_want r' = 0 ->
    (c ∈ tl -> c_wake_at_ms r' = at_) -> nb_coros k' = <[c := r']> (nb_coros k) -> same_rest k k' -> nb_current k' = None ->
    s_inv None k' (MkALinks (al_list a) tl (al_place a)).

Lemma cont_none K : (K = KUser \/ exists ms, K = KParkMs ms) -> (forall k, cont_refs k K) /\ forall t, K <> KJoin t.
Proof. intros [-> |[ms ->]]; done. Qed.

Lemma sleep_at k a c tl at_ :
  s_inv None k a -> nb_current k = Some c -> NoDup tl -> (forall x, x <> c -> x ∈ tl <-> x ∈ al_timers a) ->
  (forall r', (c ∈ tl -> c_wake_at_ms r' = at_) -> by_time (<[c := r']> (nb_coros k)) tl) ->
  may_sleep k a c tl at_.
Proof.
  intros I Hcur Hnd Htl HS K r r' k' Hr HK Hpk Hw Hat Hcs HE Hcur'.
  destruct (cont_none K HK) as [Href Hnj].
  destruct (running_status k a c I Hcur) as (Hc0 & r0 & Hr0 & Hs & Hp0 & Hnt & _).
  eapply (inv_park k a k' _ c r r' None K); try done; cbn; try done.
  - refine (wf_set_timers a tl (i_wf _ _ _ I) Hnd _). intros x Hx.
    destruct (decide (x = c)) as [->|Hne]; [eauto|]. apply (wf_timed a (i_wf _ _ _ I)). by apply Htl.
  - intros t Ht. by apply Hnj in Ht.
  - intros p Hp. by left.
  - rewrite Hcs. by apply HS.
Qed.

Lemma sleep_untimed k a c : s_inv None k a -> nb_current k = Some c -> may_sleep k a c (al_timers a) 0.
Proof.
  intros I Hcur. destruct (running_status k a c I Hcur) as (Hc0 & r0 & Hr0 & Hs & Hp0 & Hnt & _).
  apply sleep_at; try done; [apply (wf_timers a (i_wf _ _ _ I))|].
  intros r' _. apply sorted_upd; [done|]. apply (i_timers _ _ _ I).
Qed.

Lemma wp_timer_add c at_ r (Q : unit -> core -> alinks -> Prop) k a :
  s_inv None k a -> nb_current k = Some c -> nb_coros k !! c = Some r ->
  (forall tl, may_sleep k a c tl at_ ->
     Q tt (set_nb_coros (<[c := set_c_wake_at_ms at_ r]> (nb_coros k)) k) (MkALinks (al_list a) tl (al_place a))) ->
  wp (nb_timer_add c at_) Q k a.
Proof.
  intros I Hcur Hr HQ. destruct (running_status k a c I Hcur) as (Hc0 & r0 & Hr0 & Hs & Hp0 & Hnt & _).
  assert (r0 = r) as -> by congruence.
  set (cs := <[c := set_c_wake_at_ms at_ r]> (nb_coros k)).
  destruct (insert_timer_ok cs c at_ (al_timers a)) as (tl & Htl & Hp & HS).
  - intros t Ht. destruct (timed_status k a t I Ht) as (_ & rt & Hrt & _). apply is_Some_insert; eauto.
  - unfold wake_time, cs. by rewrite lookup_insert_eq.
  - apply sorted_upd; [done|]. apply (i_timers _ _ _ I).
  - apply wp_bind, (wp_upd_coro _ _ r); [done|]. apply wp_bind, wp_gets. eapply wp_on_links.
    { cbn. unfold a_timer_add. fold cs. rewrite !option_guard_True by (try rewrite Hp0; done || eauto). rewrite Htl. done. }
    apply HQ. apply sleep_at; try done.
    + rewrite Hp. by constructor; [|apply (wf_timers a (i_wf _ _ _ I))].
    + intros x Hx. rewrite Hp, elem_of_cons. naive_solver.
    + intros r' Hat. apply (sorted_same cs); [|done]. intros x Hx. unfold wake_time, cs.
      destruct (decide (x = c)) as [->|]; [rewrite !lookup_insert_eq; by apply Hat|by rewrite !lookup_insert_ne].
Qed.

(** [nb_park] in no list. *)
Lemma wp_park_free K c r r1 tl at_ (Q : unit -> core -> alinks -> Prop) k0 k a :
  may_sleep k0 a c tl at_ -> nb_coros k0 !! c = Some r -> nb_current k = Some c ->
  nb_coros k = <[c := r1]> (nb_coros k0) -> same_rest k0 k -> (K = KUser \/ exists ms, K = KParkMs ms) ->
  c_finished r1 = c_finished r /\ c_is_fiber r1 = c_is_fiber r /\ c_joinable r1 = c_joinable r ->
  c_rw_want r1 = 0 -> (c ∈ tl -> c_wake_at_ms r1 = at_) ->
  (forall m, c_pending_unlock r1 = Some m -> is_Some (nb_mutexes k !! m)) ->
  (forall k' a', s_inv None k' a' -> nb_current k' = None -> nb_main k' = nb_main k -> Q tt k' a') ->
  wp (nb_park K) Q k (MkALinks (al_list a) tl (al_place a)).
Proof.
  intros Hms Hr Hcur Hcs HE HK (E1 & E2 & E3) Hw Hat Hm HQ.
  apply (wp_park K c r1); try done; [by rewrite Hcs, lookup_insert_eq|].
  apply (Hms K r (parked K r1)); try done.
  cbn. by rewrite Hcs, insert_insert_eq.
Qed.

(** ** Permits and parking *)

Definition mutex_known (k : core) (m : option nat) : Prop := forall x, m = Some x -> is_Some (nb_mutexes k !! x).

Lemma wp_take_permit c m r (Q : bool -> core -> alinks -> Prop) k a :
  s_inv None k a -> nb_coros k !! c = Some r -> mutex_known k m ->
  (forall k' a', s_inv None k' a' -> Q true k' a') -> (c_wake_pending r = false -> Q false k a) ->
  wp (take_permit c m) Q k a.
Proof.
  intros I Hr Hm H1 H2. apply wp_bind, (wp_deref _ _ r); [done|].
  destruct (c_wake_pending r); [|by apply wp_ret, H2].
  assert (I1 : s_inv None (set_nb_coros (<[c := set_c_wake_pending false r]> (nb_coros k)) k) a).
  { by apply (inv_touch None k a _ c r (set_c_wake_pending false r)). }
  apply wp_bind, wp_modify, wp_bind. destruct m as [m|]; [|by apply wp_ret, wp_ret, H1].
  apply (wp_release None _ _ _ _ I1); [by apply Hm|]. intros k' a' I' _. by apply wp_ret, H1.
Qed.

Lemma wp_park_with_mutex m k a : s_inv None k a -> mutex_known k m -> keeps (nurl_fiber_park_with_mutex m) k a.
Proof.
  intros I Hm. apply wp_bind, wp_gets. destruct (nb_current k) as [c|] eqn:Hcur; [|by apply wp_ret].
  destruct (running_status k a c I Hcur) as (Hc0 & r & Hr & Hs & Hp0 & Hnt & Hk & Hw & Hf & Hu).
  apply wp_bind, (wp_take_permit c m r); [done|done|done|by intros; apply wp_ret|]. intros _.
  apply wp_bind, (wp_upd_coro _ _ r); [done|].
  replace a with (MkALinks (al_list a) (al_timers a) (al_place a)) by by destruct a.
  eapply (wp_park_free KUser c r (set_c_pending_unlock m r) _ 0 _ k); try done; [by apply sleep_untimed|by left].
Qed.

(** The state in which the running coroutine [c] may park on the timers [tl]. *)
Record sleepy (k : core) (a : alinks) (c : nat) (k2 : core) (r2 : NbCoro) (a2 : alinks) : Prop := {
  sl_may : exists k1 r1 tl at_, may_sleep k1 a c tl at_ /\ nb_coros k1 !! c = Some r1 /\ nb_coros k2 = <[c := r2]> (nb_coros k1) /\
    same_rest k1 k2 /\ c_finished r2 = c_finished r1 /\ c_is_fiber r2 = c_is_fiber r1 /\ c_joinable r2 = c_joinable r1 /\
    (c ∈ tl -> c_wake_at_ms r2 = at_) /\ a2 = MkALinks (al_list a) tl (al_place a);
  sl_cur : nb_current k2 = Some c;
  sl_want : c_rw_want r2 = 0;
  sl_rest : same_rest k k2
}.

Lemma wp_park_sleepy K c k2 r2 a2 m (Q : unit -> core -> alinks -> Prop) k a :
  sleepy k a c k2 r2 a2 -> (K = KUser \/ exists ms, K = KParkMs ms) -> mutex_known k m -> c_pending_unlock r2 = m ->
  (forall k' a', s_inv None k' a' -> nb_current k' = None -> nb_main k' = nb_main k -> Q tt k' a') ->
  wp (nb_park K) Q k2 a2.
Proof.
  intros [(k1 & r1 & tl & at_ & H1 & H2 & H3 & H4 & H5 & H6 & H7 & H8 & ->) Hcur Hw Hsame] HK Hm Hu HQ.
  destruct Hsame as (_ & _ & Emu & _ & _ & Emain & _).
  eapply (wp_park_free K c r1 r2 tl at_ Q k1); try done.
  - intros x Hx. rewrite Emu. apply Hm. congruence.
  - intros k' a' I' Hc' Hm'. apply HQ; congruence.
Qed.

(** The timed parks, once the permit was not there. *)
Lemma wp_park_timed c r ms (next : LM unit) (Q : unit -> core -> alinks -> Prop) k a :
  s_inv None k a -> nb_current k = Some c -> nb_coros k !! c = Some r ->
  (forall k2 r2 a2, sleepy k a c k2 r2 a2 -> nb_coros k2 !! c = Some r2 -> c_pending_unlock r2 = None -> wp next Q k2 a2) ->
  wp (upd_coro c (set_c_last_park_result 0);;
      (if 0 <=? ms then now ← nb_now_ms; nb_timer_add c (now + ms) else mret tt);; next) Q k a.
Proof.
  intros I Hcur Hr Hnext.
  destruct (running_status k a c I Hcur) as (Hc0 & r0 & Hr0 & Hs & Hp0 & Hnt & Hk & Hw & Hf & Hu).
  assert (r0 = r) as -> by congruence.
  set (r1 := set_c_last_park_result 0 r). set (k1 := set_nb_coros (<[c := r1]> (nb_coros k)) k).
  assert (I1 : s_inv None k1 a) by by apply (inv_touch None k a _ c r r1).
  assert (Hr1 : nb_coros k1 !! c = Some r1) by (cbn; by rewrite lookup_insert_eq).
  apply wp_bind, (wp_upd_coro _ _ r); [done|]. fold r1 k1. apply wp_bind.
  destruct (0 <=? ms).
  - apply wp_bind, wp_gets, (wp_timer_add c _ r1); [done|done|done|]. intros tl Hms.
    apply (Hnext _ (set_c_wake_at_ms (nb_clock k1 + ms) r1)); [|cbn; by rewrite lookup_insert_eq|done].
    split; try done. exists k1, r1, tl, (nb_clock k1 + ms). split_and!; done.
  - apply wp_ret, (Hnext _ r1); [|done|done]. split; try done.
    exists k1, r1, (al_timers a), 0. split_and!; try done; [by apply sleep_untimed|cbn; by rewrite insert_insert_eq|by destruct a].
Qed.

Lemma sleepy_pending k a c k2 r2 a2 m : sleepy k a c k2 r2 a2 ->
  sleepy k a c (set_nb_coros (<[c := set_c_pending_unlock m r2]> (nb_coros k2)) k2) (set_c_pending_unlock m r2) a2.
Proof.
  intros [(k1 & r1 & tl & at_ & H1 & H2 & H3 & H4 & H5 & H6 & H7 & H8 & ->) Hcur Hw Hsame]. split; try done.
  exists k1, r1, tl, at_. split_and!; try done. cbn. by rewrite H3, insert_insert_eq.
Qed.

Lemma wp_park_with_mutex_ms m ms k a : s_inv None k a -> mutex_known k m -> keeps (nurl_fiber_park_with_mutex_ms m ms) k a.
Proof.
  intros I Hm. apply wp_bind, wp_gets. destruct (nb_current k) as [c|] eqn:Hcur; [|by apply wp_ret].
  destruct (running_status k a c I Hcur) as (Hc0 & r & Hr & _).
  apply wp_bind, (wp_take_permit c m r); [done|done|done|by intros; apply wp_ret|]. intros _.
  apply (wp_park_timed c r ms); [done|done|done|]. intros k2 r2 a2 Hsl Hr2 Hu2.
  apply wp_bind, (wp_upd_coro _ _ r2); [done|].
  apply (wp_park_sleepy (KParkMs ms) c _ _ _ m _ k a (sleepy_pending _ _ _ _ _ _ m Hsl)); [eauto|done|done|by intros].
Qed.

Lemma wp_bare_park_ms ms k a : s_inv None k a -> keeps (nurl_bare_park_ms ms) k a.
Proof.
  intros I. apply wp_bind, wp_gets. destruct (nb_current k) as [c|] eqn:Hcur; [|by apply wp_ret].
  destruct (running_status k a c I Hcur) as (Hc0 & r & Hr & _).
  apply wp_bind, (wp_take_permit c None r); [done|done|done|by intros; apply wp_ret|]. intros _.
  apply (wp_park_timed c r ms); [done|done|done|]. intros k2 r2 a2 Hsl Hr2 Hu2.
  apply (wp_park_sleepy (KParkMs ms) c k2 r2 a2 None _ k a Hsl); [eauto|done|done|by intros].
Qed.

(** ** Waking a parked coroutine *)

(** A coroutine that may be unparked: it is parked in no list. *)
Definition unparkable (k : core) (a : alinks) (c : nat) : Prop :=
  c <> rw_main_node /\ exists r, nb_coros k !! c = Some r /\ (c_state r = NB_PARKED -> al_place a !! c = Some None).

Lemma wp_unpark c front k a : s_inv None k a -> unparkable k a c -> keeps (nb_unpark c front) k a.
Proof.
  intros I (Hc0 & r & Hr & Hpl). apply wp_bind, (wp_deref _ _ r); [done|].
  destruct (bool_decide_reflect (c_state r = NB_PARKED)) as [Hs|Hs]; cbn [negb].
  2:{ apply wp_modify. by apply (inv_touch None k a _ c r (set_c_wake_pending true r)). }
  specialize (Hpl Hs). destruct (d_run _ _ (i_dom _ _ _ I)) as [run Hrun].
  assert (Hw : c_rw_want r = 0).
  { destruct (i_status _ _ _ I c r _ Hr Hc0 Hpl) as [(_ & _ & Hst) _]. rewrite Hs in Hst. by destruct Hst as (_ & ? & _). }
  apply wp_bind. eapply wp_on_links; [done|]. apply wp_bind, (wp_upd_coro _ _ r); [done|].
  set (tl := filter (fun t => t <> c) (al_timers a)).
  assert (Hready : forall run', run' ≡ₚ c :: run ->
    s_inv None (set_nb_coros (<[c := set_c_state NB_RUNNABLE (set_c_last_park_result 1 r)]> (nb_coros k)) k)
      (MkALinks (<[PRun := run']> (al_list a)) tl (<[c := Some PRun]> (al_place a)))).
  { intros run' Hperm. apply (inv_ready k a _ c r (set_c_state NB_RUNNABLE (set_c_last_park_result 1 r)) run run' tl); try done; unfold tl.
    - intros x Hx. rewrite list_elem_of_filter. naive_solver.
    - rewrite list_elem_of_filter. naive_solver.
    - apply NoDup_filter, (wf_timers a (i_wf _ _ _ I)).
    - apply sorted_filter, (i_timers _ _ _ I). }
  destruct front.
  - eapply wp_on_links; [cbn; unfold a_push_front, a_cons; cbn; rewrite Hrun; cbn; by rewrite option_guard_True by done|].
    by apply Hready.
  - apply (wp_push_queue PRun c run); [done|done|done|]. cbn. apply Hready. by rewrite Permutation_app_comm.
Qed.

(** ** Sleeping *)

Lemma wp_sleep c ms k a : s_inv None k a -> nb_current k = Some c -> keeps (now ← nb_now_ms; nb_timer_add c (now + ms);; nb_park KUser) k a.
Proof.
  intros I Hcur. destruct (running_status k a c I Hcur) as (Hc0 & r & Hr & Hs & Hp0 & Hnt & Hk & Hw & Hf & Hu).
  apply wp_bind, wp_gets, wp_bind, (wp_timer_add c _ r); [done|done|done|]. intros tl Hms.
  apply (wp_park_free KUser c r (set_c_wake_at_ms (nb_clock k + ms) r) tl (nb_clock k + ms) _ k); try done; [by left|].
  cbn. by rewrite Hu.
Qed.

(** ** Condition variables *)

Lemma inv_cond k a c r : s_inv None k a -> is_Some (nb_conds k !! c) ->
  s_inv None (set_nb_conds (<[c := r]> (nb_conds k)) k) a.
Proof. intros I Hc. apply (inv_quiet None k); try done. intros x. by apply is_Some_insert. Qed.

Lemma wp_add_waiters c d r (Q : unit -> core -> alinks -> Prop) k a :
  nb_conds k !! c = Some r ->
  Q tt (set_nb_conds (<[c := set_k_main_waiters (k_main_waiters r + d) r]> (nb_conds k)) k) a -> wp (add_waiters c d) Q k a.
Proof. intros Hr HQ. apply wp_bind, (wp_deref _ _ r); [done|]. by apply wp_modify. Qed.

Lemma cond_list k a c : s_inv None k a -> is_Some (nb_conds k !! c) -> exists l, al_list a !! PCond c = Some l.
Proof. intros I Hc. by apply (d_cond _ _ (i_dom _ _ _ I)) in Hc. Qed.

(** The main context, in nothing, goes to wait for a condition variable. *)
Lemma wp_main_waits c m r main (Q : unit -> core -> alinks -> Prop) (go : LM unit) k a :
  s_inv None k a -> nb_main k = MUser -> nb_current k = None -> nb_conds k !! c = Some r -> is_Some (nb_mutexes k !! m) ->
  (forall k', nb_main k' = main -> is_Some (nb_conds k' !! c) /\ is_Some (nb_mutexes k' !! m) -> main_refs k') ->
  (forall l w, main <> MRwWait l w) -> (forall t, main <> MJoin t) ->
  (forall k' a', (forall k2, same_coros k' k2 -> nb_mutexes k2 = nb_mutexes k' -> nb_rws k2 = nb_rws k' ->
       nb_conds k2 = nb_conds k' -> nb_main k2 = main -> s_inv None k2 a') -> wp go Q k' a') ->
  wp (add_waiters c 1;; nurl__bare_mutex_release m;; go) Q k a.
Proof.
  intros I Hmain Hcur Hr Hm Hrefs Hnw Hnj Hgo.
  apply wp_bind, (wp_add_waiters c 1 r); [done|]. apply wp_bind.
  apply (wp_release None); [apply inv_cond; eauto|done|]. intros k1 a1 I1 [F1 F2 (R1 & R2 & R3) _ _ _]. cbn in F1, F2.
  apply Hgo. intros k2 C2 M2 W2 K2 N2. pose proof (main_free k1 a1 I1 ltac:(congruence)) as Hp.
  apply (inv_set_main k1); try done.
  - by rewrite K2.
  - by left.
  - intros l w x Hx. exfalso. by apply (Hnw l w); congruence.
  - intros t Ht. exfalso. by apply (Hnj t); congruence.
  - apply Hrefs; [done|]. rewrite M2, K2. split; [apply R2; cbn; rewrite lookup_insert_eq; eauto|by apply R1].
Qed.

Lemma wp_cond_wait c m k a :
  s_inv None k a -> called k -> is_Some (nb_conds k !! c) -> is_Some (nb_mutexes k !! m) -> keeps (pthread_cond_wait c m) k a.
Proof.
  intros I Hcall [r Hr] [v Hm]. apply wp_bind, (wp_deref _ _ r); [done|]. apply wp_bind, (wp_deref _ _ v); [done|].
  apply wp_bind, wp_gets. destruct (nb_current k) as [me|] eqn:Hcur.
  - destruct (running_status k a me I Hcur) as (Hc0 & rm & Hrm & Hs & Hp0 & Hnt & Hk & Hw & Hf & Hu).
    destruct (cond_list k a c I ltac:(eauto)) as [l Hl].
    apply wp_bind, (wp_push_queue _ _ l); [done|done|done|]. apply wp_bind, (wp_upd_coro _ _ rm); [done|].
    apply (wp_park _ me (set_c_pending_unlock (Some m) rm)); cbn; [done|by rewrite lookup_insert_eq|by intros x [= <-]| |by intros].
    rewrite insert_insert_eq.
    apply (inv_park_at k a _ me rm (parked (KMutexLock m) (set_c_pending_unlock (Some m) rm)) (KMutexLock m) (PCond c) l); try done.
    + by rewrite Permutation_app_comm.
    + split; [by exists m|done].
    + cbn. eauto.
  - destruct Hcall as [[? ?]|Hmain]; [congruence|].
    apply (wp_main_waits c m r (MCondWait c (k_seq r) m)); try done; [by intros k' Hk'; unfold main_refs; rewrite Hk'|].
    intros k' a' Hinv. apply wp_modify. by apply Hinv.
Qed.

Lemma wp_cond_wait_ms c m ms k a :
  s_inv None k a -> called k -> is_Some (nb_conds k !! c) -> is_Some (nb_mutexes k !! m) -> keeps (nurl_cond_wait_ms c m ms) k a.
Proof.
  intros I Hcall Hc Hm. pose proof Hc as [r Hr]. pose proof Hm as [v Hv].
  apply wp_bind, (wp_deref _ _ r); [done|]. apply wp_bind, (wp_deref _ _ v); [done|]. apply wp_bind, wp_gets.
  destruct (bool_decide_reflect (is_Some (nb_current k))) as [Hcur|Hcur]; simpl; [by apply wp_cond_wait|].
  destruct (ms <? 0); [by apply wp_cond_wait|]. apply wp_bind, wp_gets.
  destruct Hcall as [?|Hmain]; [done|]. apply eq_None_not_Some in Hcur.
  apply (wp_main_waits c m r (MCondWaitMs c (k_seq r) m (nb_clock k + ms))); try done; [by intros k' Hk'; unfold main_refs; rewrite Hk'|].
  intros k' a' Hinv. apply wp_modify. by apply Hinv.
Qed.

(** Waking one or all of those who wait. *)
Lemma wp_signal c k a : s_inv None k a -> is_Some (nb_conds k !! c) -> keeps (pthread_cond_signal c) k a.
Proof.
  intros I [r Hr]. destruct (cond_list k a c I ltac:(eauto)) as [l Hl].
  apply wp_bind, (wp_deref _ _ r); [done|]. apply wp_bind.
  apply (wp_wake_one None k a (PCond c) l); try done.
  - intros _. apply wp_bind. destruct (k_main_waiters r =? 0); [by apply wp_ret, wp_ret|].
    apply wp_modify, wp_ret, inv_cond; eauto.
  - intros x l' run rx _ _ _ _ _ _ k' I' _. by apply wp_ret.
Qed.

Lemma wp_cond_wake_all f c : forall l (Q : unit -> core -> alinks -> Prop) k a,
  s_inv None k a -> al_list a !! PCond c = Some l -> (length l < f)%nat ->
  (forall k' a', s_inv None k' a' -> frame k k' -> Q tt k' a') -> wp (cond_wake_all f c) Q k a.
Proof.
  induction f as [|f IH]; intros l Q k a I Hl Hf HQ; [lia|]. cbn [cond_wake_all]. apply wp_bind.
  apply (wp_wake_one None k a (PCond c) l); try done.
  - intros _. apply wp_ret, HQ; [done|apply frame_refl].
  - intros x l' run rx -> _ _ _ _ _ k' I' F'. apply (IH l'); [done| |cbn in Hf; lia|].
    + cbn. by rewrite lookup_insert_ne, lookup_insert_eq.
    + intros k2 a2 I2 F2. apply HQ; [done|by eapply frame_trans].
Qed.

Lemma wp_broadcast c k a : s_inv None k a -> is_Some (nb_conds k !! c) -> keeps (pthread_cond_broadcast c) k a.
Proof.
  intros I [r Hr]. destruct (cond_list k a c I ltac:(eauto)) as [l Hl].
  apply wp_bind, (wp_deref _ _ r); [done|]. apply wp_bind, wp_gets, wp_bind, (wp_cond_wake_all _ c l); [done|done| |].
  - apply Nat.lt_succ_r, dom_bound; [by apply (wf_nodup a (i_wf _ _ _ I) _ _ Hl)|].
    intros x Hx. by apply (list_coro _ k a _ _ x I Hl).
  - intros k' a' I' F. destruct (fr_refs _ _ F) as (_ & R2 & _). destruct (proj2 (R2 c) ltac:(eauto)) as [r' Hr'].
    apply wp_bind, (wp_deref _ _ r'); [done|]. apply wp_bind.
    destruct (k_main_waiters r' =? 0); [by apply wp_ret, wp_ret|]. apply wp_modify, wp_ret, inv_cond; eauto.
Qed.
