(* ===== verification/SchedSafe.v ===== *)
(** Every call of the scheduler answers and keeps the invariant, when it is made
    the way its clients make it. *)

From S2P Require Import Prelude SchedLinks Sched SchedInv SchedMoves SchedSpawn SchedCalls SchedPark.

#[local] Hint Resolve same_rest_coros : core.

(** ** Joining *)

Lemma excused_join k t : (forall r, nb_coros k !! t = Some r -> c_finished r = false) ->
  forall me r' k', nb_coros k' = <[me := r']> (nb_coros k) -> (exists r, nb_coros k !! me = Some r /\ c_finished r' = c_finished r) ->
  excused k' (PJoin t).
Proof.
  intros Hf me r' k' Hcs (r & Hr & Hfr) x Hx. rewrite Hcs in Hx.
  destruct (decide (t = me)) as [->|].
  - rewrite lookup_insert_eq in Hx. injection Hx as <-. rewrite Hfr. by apply Hf.
  - rewrite lookup_insert_ne in Hx by done. by apply Hf.
Qed.

Lemma wp_join c k a : s_inv None k a -> called k -> may_join k c -> keeps (nb_join c) k a.
Proof.
  intros I Hcall HJ. pose proof HJ as (Hc0 & (r & Hr & Hj) & Hno & Hm).
  apply wp_bind, (wp_deref _ _ r); [done|]. destruct (c_finished r) eqn:Hf.
  { by apply (wp_free_done c r). }
  apply wp_bind, wp_gets. destruct (nb_current k) as [me|] eqn:Hcur.
  - destruct (running_status k a me I Hcur) as (Hm0 & rm & Hrm & Hs & Hp0 & Hnt & Hk & Hw & Hfm & Hu).
    assert (is_Some (al_list a !! PJoin c)) as [l Hl] by (apply (d_join _ _ (i_dom _ _ _ I)); eauto).
    apply wp_bind. eapply wp_on_links.
    { cbn. unfold a_stack, a_cons. rewrite Hl. cbn. by rewrite !option_guard_True by done. }
    apply (wp_park (KJoin c) me rm); [done|done|congruence| |by intros].
    eapply (inv_park_at k a _ me rm (parked (KJoin c) rm) (KJoin c) (PJoin c) l (me :: l)); try done.
    + by intros t [= <-].
    + eapply (excused_join k c); [by intros x Hx; congruence|done|by eauto].
  - destruct Hcall as [[? ?]|Hmain]; [congruence|]. apply wp_modify.
    apply (inv_set_main k); try done.
    + left. by apply (main_free k).
    + by intros t [= <-].
Qed.

(** A coroutine is no longer to be joined. *)
Lemma inv_detach c r k a : s_inv None k a -> may_join k c -> nb_coros k !! c = Some r -> c_finished r = false ->
  s_inv None (set_nb_coros (<[c := set_c_joinable false r]> (nb_coros k)) k) a.
Proof.
  intros I (Hc0 & _ & Hno & Hm) Hr Hf.
  assert (is_Some (al_place a !! c)) as [pl Hpl] by (apply (d_coro _ _ (i_dom _ _ _ I)); eauto).
  destruct (i_status _ _ _ I c r pl Hr Hc0 Hpl) as [Hst Href].
  assert (Hnd : c_state r <> NB_DONE).
  { destruct Hst as (_ & Hfd & _). intros Hd. apply Hfd in Hd. congruence. }
  set (r' := set_c_joinable false r). set (k' := set_nb_coros (<[c := r']> (nb_coros k)) k).
  apply (inv_move None k a k' a c r r' pl); try done.
  - intros Hcur. destruct (i_current _ _ _ I c Hcur) as (_ & rc & Hrc & ?). change (c_state r = NB_RUNNING). congruence.
  - apply (i_wf _ _ _ I).
  - destruct (i_join _ _ _ I) as [J1 J2 J3 J4].
    assert (Hold : forall x rx, nb_coros k' !! x = Some rx -> exists r0, nb_coros k !! x = Some r0 /\ c_cont rx = c_cont r0 /\
      c_state rx = c_state r0).
    { intros x rx Hx. cbn in Hx. apply lookup_insert_Some in Hx as [[<- <-]|[_ Hx]]; eauto. }
    assert (Hne : forall x rx t, nb_coros k !! x = Some rx -> c_cont rx = KJoin t -> t <> c).
    { intros x rx t Hx Hk ->. by apply (Hno x rx). }
    split.
    + intros j rj t Hj Hk. destruct (Hold j rj Hj) as (r0 & H0 & Ek & Es). rewrite Ek in Hk. rewrite Es.
      destruct (J1 j r0 t H0 Hk) as (rt & Hrt & ? & ? & ?). exists rt. cbn. rewrite lookup_insert_ne; [done|].
      intros ->. by apply (Hne j r0 t).
    + intros i j ri rj t Hi Hj Hki Hkj. destruct (Hold i ri Hi) as (ri0 & Hi0 & Eki & _).
      destruct (Hold j rj Hj) as (rj0 & Hj0 & Ekj & _). apply (J2 i j ri0 rj0 t); congruence.
    + intros t Ht. destruct (J3 t Ht) as (rt & Hrt & ? & ?). exists rt. cbn. rewrite lookup_insert_ne; [done|].
      cbn in Ht. congruence.
    + intros t j rj Ht Hj. destruct (Hold j rj Hj) as (r0 & H0 & Ek & _). rewrite Ek. by apply (J4 t j r0).
  - apply (wake_move None k a k' a c r r' (i_wake _ _ _ I)); try done; [by left|by left].
  - cbn. apply (sorted_same (nb_coros k)); [|apply (i_timers _ _ _ I)]. intros x _. unfold wake_time.
    destruct (decide (x = c)) as [->|]; [by rewrite lookup_insert_eq, Hr|by rewrite lookup_insert_ne].
Qed.

Lemma wp_detach c k a : s_inv None k a -> may_join k c -> keeps (nb_detach c) k a.
Proof.
  intros I HJ. pose proof HJ as (Hc0 & (r & Hr & Hj) & Hno & Hm).
  apply wp_bind, (wp_deref _ _ r); [done|]. destruct (c_finished r) eqn:Hf.
  - by apply (wp_free_done c r).
  - apply wp_modify. by apply inv_detach.
Qed.

(** ** One step of the scheduler *)

(** Nothing can run and nothing will wake. *)
Definition idle (a : alinks) : Prop := al_list a !! PRun = Some [] /\ al_timers a = [].

Lemma inv_clock k a t : s_inv None k a -> s_inv None (set_nb_clock t k) a.
Proof. intros I. by apply (inv_quiet None k). Qed.

Lemma wp_sleep_ms ms (Q : unit -> core -> alinks -> Prop) k a :
  Q tt (if ms <=? 0 then k else set_nb_clock (nb_clock k + ms) k) a -> wp (nb_sleep_ms ms) Q k a.
Proof. intros HQ. unfold nb_sleep_ms. destruct (ms <=? 0); [by apply wp_ret|by apply wp_modify]. Qed.

(** What a step promises: the answer 0 means that nothing could happen. *)
Definition step_post (budget : Z) (k : core) (a : alinks) (n : Z) (k' : core) (a' : alinks) : Prop :=
  s_inv None k' a' /\ nb_main k' = nb_main k /\ (n = 0 -> budget < 0 -> idle a /\ k' = k /\ a' = a).

(** The queue is empty and the first timer lies ahead: sleep, then expire. *)
Lemma wp_step_sleep budget t tl k a :
  s_inv None k a -> al_timers a = t :: tl ->
  wp (now ← nb_now_ms;
      r ← coro t;
      (if now <? c_wake_at_ms r then
         let wait := c_wake_at_ms r - now in
         let wait := if (0 <=? budget) && (budget <? wait) then budget else wait in
         nb_sleep_ms wait
       else mret tt);;
      now ← nb_now_ms;
      n ← nb_timers_expire now;
      mret (if 0 <? n then 1 else 0)) (step_post budget k a) k a.
Proof.
  intros I Htm. destruct (timed_status k a t I) as (Ht0 & r & Hr & _); [rewrite Htm; constructor|].
  assert (Hwt : wake_time (nb_coros k) t = c_wake_at_ms r) by (unfold wake_time; by rewrite Hr).
  assert (Hexp : forall k1, s_inv None k1 a -> nb_coros k1 = nb_coros k -> nb_main k1 = nb_main k ->
    (budget < 0 -> c_wake_at_ms r <= nb_clock k1) ->
    wp (now ← nb_now_ms; n ← nb_timers_expire now; mret (if 0 <? n then 1 else 0)) (step_post budget k a) k1 a).
  { intros k1 I1 Hcs Hm Hdue. apply wp_bind, wp_gets, wp_bind, (wp_expire _ _ k1 a I1).
    intros n k' a' I' Hm' _ _ Hn Hprog _. apply wp_ret. split; [done|]. split; [congruence|]. intros H0 Hb.
    rewrite Htm in Hprog. specialize (Hprog t eq_refl). rewrite Hcs, Hwt in Hprog. specialize (Hprog (Hdue Hb)).
    destruct (Z.ltb_spec 0 n); lia. }
  apply wp_bind, wp_gets, wp_bind, (wp_deref _ _ r); [done|]. apply wp_bind.
  destruct (Z.ltb_spec (nb_clock k) (c_wake_at_ms r)); [|by apply wp_ret, Hexp].
  cbn zeta. apply wp_sleep_ms. destruct (Z.leb_spec 0 budget); simpl; [destruct (_ <=? 0)|].
  - apply Hexp; try done. lia.
  - apply Hexp; try done; [by apply inv_clock|lia].
  - destruct (Z.leb_spec (c_wake_at_ms r - nb_clock k) 0); [lia|]. apply Hexp; try done; [by apply inv_clock|cbn; lia].
Qed.

Lemma wp_step budget k a :
  s_inv None k a -> nb_current k = None -> wp (nb_step_bounded budget) (step_post budget k a) k a.
Proof.
  intros I Hcur. apply wp_bind. eapply wp_see_links; [done|].
  assert (Hrest : wp (c ← nb_rq_pop;
      match c with
      | Some c => upd_coro c (set_c_state NB_RUNNING);; modify (set_nb_current (Some c));; nb_swap_to_coro c;; mret 1
      | None =>
          match head (al_timers a) with
          | None => mret 0
          | Some t =>
              now ← nb_now_ms; r ← coro t;
              (if now <? c_wake_at_ms r then
                 let wait := c_wake_at_ms r - now in
                 let wait := if (0 <=? budget) && (budget <? wait) then budget else wait in
                 nb_sleep_ms wait
               else mret tt);;
              now ← nb_now_ms; n ← nb_timers_expire now; mret (if 0 <? n then 1 else 0)
          end
      end) (step_post budget k a) k a).
  { destruct (d_run _ _ (i_dom _ _ _ I)) as [[|c run] Hrun]; apply wp_bind.
    - apply wp_pop_nil; [done|done|]. destruct (al_timers a) as [|t tl] eqn:Htm; cbn [head].
      + apply wp_ret. by split_and!.
      + by apply (wp_step_sleep budget t tl).
    - eapply wp_pop_cons; [done|done|].
      destruct (run_head_facts k a c run I Hrun) as (Hc0 & r & Hr & _).
      apply wp_bind, (wp_upd_coro _ _ r); [done|]. apply wp_bind, wp_modify, wp_bind.
      apply (wp_resume c run r); try done. intros k' a' I' Hm. apply wp_ret. by split_and!. }
  change (l_timer_head a) with (head (al_timers a)).
  apply wp_bind. destruct (head (al_timers a)) as [t|] eqn:Hhd; [|by apply wp_ret].
  destruct (timed_status k a t I) as (Ht0 & r & Hr & _).
  { destruct (al_timers a); [done|]. injection Hhd as ->. constructor. }
  apply wp_bind, wp_gets, wp_bind, (wp_deref _ _ r); [done|].
  destruct (Z.leb_spec (c_wake_at_ms r) (nb_clock k)) as [Hdue|]; [|by apply wp_ret].
  apply wp_bind, (wp_expire _ _ k a I). intros n k' a' I' Hm _ _ Hn Hprog _.
  specialize (Hprog t Hhd). unfold wake_time in Hprog. rewrite Hr in Hprog. specialize (Hprog Hdue).
  apply wp_ret. destruct (Z.ltb_spec 0 n); [|lia]. apply wp_ret. by split_and!.
Qed.

(** ** The main context *)

(** What the main context waits for has not happened. *)
Definition main_blocked (k : core) : Prop :=
  match nb_main k with
  | MMutexLock m => nb_mutexes k !! m = Some true
  | MCondWait c seq _ => exists r, nb_conds k !! c = Some r /\ k_seq r = seq
  | MRwWait _ _ => exists r, nb_coros k !! rw_main_node = Some r /\ c_rw_want r <> 0
  | MJoin t => exists r, nb_coros k !! t = Some r /\ c_finished r = false
  | MRun => 0 < nb_live k
  | _ => False
  end.

(** What a round of the main context's loop promises. *)
Definition round_post (k : core) (a : alinks) (x : unit) (k' : core) (a' : alinks) : Prop :=
  s_inv None k' a' /\ (nb_main k' = MAborted -> nb_main k = MAborted \/ (idle a /\ main_blocked k)).

Lemma inv_main_user k a d : s_inv None k a -> al_place a !! rw_main_node = Some None ->
  s_inv None (set_nb_main MUser (set_nb_drive_depth d k)) a.
Proof. intros I Hp. apply (inv_set_main k); try done. by left. Qed.

Lemma main_idle k a main : s_inv None k a -> nb_main k = main -> (forall l w, main <> MRwWait l w) -> main <> MAborted ->
  al_place a !! rw_main_node = Some None.
Proof. intros I <- H1 H2. by apply (main_place k a I). Qed.

Lemma wp_drive_step k a :
  s_inv None k a -> nb_current k = None -> nb_main k <> MAborted -> main_blocked k -> wp drive_step (round_post k a) k a.
Proof.
  intros I Hcur Hm Hb. apply wp_bind. eapply wp_mono; [|by apply (wp_step (-1) k a I Hcur)].
  intros n k' a' (I' & Hm' & H0). destruct (Z.eqb_spec n 0) as [->|].
  - apply wp_modify. split; [by apply inv_abort|]. intros _. right. destruct H0 as (? & _); done.
  - apply wp_ret. split; [done|]. intros Ha. congruence.
Qed.

Lemma wp_timed_step deadline k a :
  s_inv None k a -> nb_current k = None -> nb_main k <> MAborted -> wp (timed_step deadline) (round_post k a) k a.
Proof.
  intros I Hcur Hm. apply wp_bind, wp_gets, wp_bind. eapply wp_mono; [|by apply (wp_step _ k a I Hcur)].
  intros n k' a' (I' & Hm' & _). destruct (n =? 0).
  - apply wp_bind, wp_gets, wp_sleep_ms. destruct (_ <=? 0).
    + split; [done|congruence].
    + split; [by apply inv_clock|]. cbn. congruence.
  - apply wp_ret. split; [done|congruence].
Qed.

(** The wait of the main context for a condition variable is over. *)
Lemma wp_main_relock c m d r k a :
  s_inv None k a -> nb_current k = None -> al_place a !! rw_main_node = Some None ->
  nb_conds k !! c = Some r -> is_Some (nb_mutexes k !! m) ->
  wp (add_waiters c (-1);; pthread_mutex_lock m) (fun _ k' a' => s_inv None k' a' /\ nb_main k' <> MAborted)
    (set_nb_main MUser (set_nb_drive_depth d k)) a.
Proof.
  intros I Hcur Hp Hr [v Hm]. set (k1 := set_nb_main _ _). assert (I1 : s_inv None k1 a) by by apply inv_main_user.
  apply wp_bind, (wp_add_waiters c _ r); [done|]. set (k2 := set_nb_conds _ k1).
  assert (I2 : s_inv None k2 a) by (apply inv_cond; eauto).
  apply wp_bind, (wp_deref _ _ v); [done|]. apply wp_bind, wp_gets. change (nb_current k2) with (nb_current k). rewrite Hcur.
  apply wp_modify. split; [|done]. apply (inv_set_main k2); try done; [by left|]. unfold main_refs. cbn. eauto.
Qed.

Lemma main_user_depth k a : s_inv None k a -> al_place a !! rw_main_node = Some None -> s_inv None (set_nb_main MUser k) a.
Proof.
  intros I Hp. replace k with (set_nb_drive_depth (nb_drive_depth k) k) by by destruct k. by apply inv_main_user.
Qed.

Section rounds.
Context (k : core) (a : alinks).
Hypothesis I : s_inv None k a.
Hypothesis Hcur : nb_current k = None.

Lemma round_drive : nb_main k <> MAborted -> main_blocked k -> wp drive_step (round_post k a) k a.
Proof. by apply wp_drive_step. Qed.

Lemma round_mutex m : nb_main k = MMutexLock m -> wp main_iterate (round_post k a) k a.
Proof.
  intros Hm. pose proof (i_refs _ _ _ I) as Href. unfold main_refs in Href. apply wp_bind, wp_gets. rewrite Hm in *.
  destruct Href as [[] Hmx].
  - apply wp_bind, (wp_deref _ _ true); [done|]. apply round_drive; [congruence|]. unfold main_blocked. by rewrite Hm.
  - apply wp_bind, (wp_deref _ _ false); [done|]. apply wp_bind, wp_modify, wp_modify. split; [|done].
    apply inv_mutex; [|cbn; eauto|done]. by apply inv_main_user, (main_idle k a _ I Hm).
Qed.

Lemma round_cond c seq m : nb_main k = MCondWait c seq m -> wp main_iterate (round_post k a) k a.
Proof.
  intros Hm. pose proof (i_refs _ _ _ I) as Href. unfold main_refs in Href. apply wp_bind, wp_gets. rewrite Hm in *.
  destruct Href as [[r Hr] Hmx]. apply wp_bind, (wp_deref _ _ r); [done|]. destruct (Z.eqb_spec (k_seq r) seq).
  - apply round_drive; [congruence|]. unfold main_blocked. rewrite Hm. eauto.
  - apply wp_bind, wp_modify. eapply wp_mono; [|eapply (wp_main_relock c m (nb_drive_depth k - 1) r k a); try done].
    + intros [] k' a' [I' Hne]. by split.
    + by apply (main_idle k a _ I Hm).
Qed.

Lemma round_cond_ms c seq m dl : nb_main k = MCondWaitMs c seq m dl -> wp main_iterate (round_post k a) k a.
Proof.
  intros Hm. pose proof (i_refs _ _ _ I) as Href. unfold main_refs in Href. apply wp_bind, wp_gets. rewrite Hm in *.
  destruct Href as [[r Hr] Hmx]. apply wp_bind, (wp_deref _ _ r); [done|]. apply wp_bind, wp_gets.
  destruct (_ || _); [|apply wp_timed_step; [done|done|congruence]].
  apply wp_bind, wp_modify. pose proof (wp_main_relock c m (nb_drive_depth k) r k a I Hcur) as Hre.
  replace (set_nb_drive_depth (nb_drive_depth k) k) with k in Hre by by destruct k.
  eapply wp_mono; [|apply Hre; try done; by apply (main_idle k a _ I Hm)].
  intros [] k' a' [I' Hne]. by split.
Qed.

Lemma round_rw l w : nb_main k = MRwWait l w -> wp main_iterate (round_post k a) k a.
Proof.
  intros Hm. pose proof (i_refs _ _ _ I) as Href. unfold main_refs in Href. apply wp_bind, wp_gets. rewrite Hm in *.
  destruct (d_main _ _ (i_dom _ _ _ I)) as [r Hr]. apply wp_bind, (wp_deref _ _ r); [done|].
  destruct (Z.eqb_spec (c_rw_want r) 0) as [Hw|Hw].
  2:{ apply round_drive; [congruence|]. unfold main_blocked. rewrite Hm. eauto. }
  destruct Href as [wl Hwl].
  assert (Hp : al_place a !! rw_main_node = Some None).
  { assert (is_Some (al_place a !! rw_main_node)) as [[p|] Hp] by (apply (d_coro _ _ (i_dom _ _ _ I)); eauto); [|done].
    by destruct (n_place _ _ (i_main _ _ _ I) p r Hp Hr) as (? & _ & ? & _). }
  apply wp_bind, wp_modify. apply (wp_rw_locked rw_main_node l w r wl); [by apply inv_main_user|done|done|].
  intros k' a' I' Hm' _. split; [done|]. cbn in Hm'. congruence.
Qed.

Lemma round_join t : nb_main k = MJoin t -> wp main_iterate (round_post k a) k a.
Proof.
  intros Hm. apply wp_bind, wp_gets. rewrite Hm.
  destruct (j_main _ (i_join _ _ _ I) t Hm) as (rt & Hrt & Ht0 & Hj). apply wp_bind, (wp_deref _ _ rt); [done|].
  destruct (c_finished rt) eqn:Hf.
  - apply wp_bind, wp_modify. apply (wp_free_done t rt); try done.
    + by apply inv_main_user, (main_idle k a _ I Hm).
    + intros j rj Hj'. by apply (j_main_only _ (i_join _ _ _ I) t j rj).
    + intros k' a' I' Hm' _. split; [done|]. cbn in Hm'. congruence.
  - apply round_drive; [congruence|]. unfold main_blocked. rewrite Hm. eauto.
Qed.

Lemma round_run : nb_main k = MRun -> wp main_iterate (round_post k a) k a.
Proof.
  intros Hm. apply wp_bind, wp_gets. rewrite Hm. apply wp_bind, wp_gets. destruct (Z.leb_spec (nb_live k) 0).
  - apply wp_modify. split; [by apply inv_main_user, (main_idle k a _ I Hm)|done].
  - apply round_drive; [congruence|]. unfold main_blocked. by rewrite Hm.
Qed.

Lemma round_sleep dl : nb_main k = MSleep dl -> wp main_iterate (round_post k a) k a.
Proof.
  intros Hm. apply wp_bind, wp_gets. rewrite Hm. apply wp_bind, wp_gets. destruct (dl <=? nb_clock k).
  - apply wp_modify. split; [by apply main_user_depth, (main_idle k a _ I Hm)|done].
  - apply wp_timed_step; [done|done|congruence].
Qed.

Lemma wp_main_iterate : wp main_iterate (round_post k a) k a.
Proof.
  destruct (nb_main k) as [|m|c seq m|c seq m dl|l w|t| |dl|] eqn:Hm.
  - apply wp_bind, wp_gets. rewrite Hm. apply wp_ret. split; [done|congruence].
  - by apply (round_mutex m).
  - by apply (round_cond c seq m).
  - by apply (round_cond_ms c seq m dl).
  - by apply (round_rw l w).
  - by apply (round_join t).
  - by apply round_run.
  - by apply (round_sleep dl).
  - apply wp_bind, wp_gets. rewrite Hm. apply wp_ret. split; [done|auto].
Qed.
End rounds.

(** ** What the clients keep to *)

Definition known {V} (m : gmap nat V) (i : nat) : bool := match m !! i with Some _ => true | None => false end.

(** A queue nobody waits in, or one not yet made. *)
Definition unused (a : alinks) (p : place) : bool :=
  match al_list a !! p with None | Some [] => true | _ => false end.

Definition no_joiner (k : core) (t : nat) : bool :=
  forallb (fun cr => match c_cont cr.2 with KJoin x => negb (x =? t)%nat | _ => true end) (map_to_list (nb_coros k)) &&
  match nb_main k with MJoin x => negb (x =? t)%nat | _ => true end.

(** A handle that is joined or detached: joinable, and nobody has asked before. *)
Definition joinable_now (k : core) (t : nat) : bool :=
  negb (t =? rw_main_node)%nat && match nb_coros k !! t with Some r => c_joinable r | None => false end && no_joiner k t.

(** A handle that is unparked: not one that waits in a queue. *)
Definition not_queued (k : core) (a : alinks) (c : nat) : bool :=
  negb (c =? rw_main_node)%nat &&
  match nb_coros k !! c with
  | Some r => negb (bool_decide (c_state r = NB_PARKED)) || bool_decide (al_place a !! c = Some None)
  | None => false
  end.

Definition allowed_call (k : core) (a : alinks) (x : call) : bool :=
  match x with
  | CMutexInit m => unused a (PMutex m)
  | CMutexLock m | CMutexTrylock m | CMutexUnlock m | CMutexDestroy m => known (nb_mutexes k) m
  | CCondInit c => unused a (PCond c)
  | CCondWait c m | CCondWaitMs c m _ => known (nb_conds k) c && known (nb_mutexes k) m
  | CCondSignal c | CCondBroadcast c | CCondDestroy c => known (nb_conds k) c
  | CRwInit l => unused a (PRw l)
  | CRdlock l | CRdunlock l | CWrlock l | CWrunlock l | CTryrdlock l | CTrywrlock l => known (nb_rws k) l
  | CJoin c | CDetach c => joinable_now k c
  | CFiberJoin c | CFiberDetach c =>
      match nb_coros k !! c with Some r => if c_joinable r then joinable_now k c else true | None => false end
  | CPark (Some m) | CParkMs (Some m) _ => known (nb_mutexes k) m
  | CUnpark c | CUnparkAdmit c | CWake c => not_queued k a c
  | _ => true
  end.

(** Code runs on a coroutine, or on the main context while that is in no call;
    the main context's loop goes round when no coroutine runs. *)
Definition allowed (k : core) (a : alinks) (e : event) : bool :=
  match e with
  | ECall x => (bool_decide (is_Some (nb_current k)) || match nb_main k with MUser => true | _ => false end) && allowed_call k a x
  | EEnd => bool_decide (is_Some (nb_current k))
  | EMain => bool_decide (nb_current k = None)
  | ETick _ => true
  end.

(** The client keeps to that as long as the calls answer. *)
Fixpoint allowed_run (es : list event) (k : core) (a : alinks) : bool :=
  match es with
  | [] => true
  | e :: es' =>
      allowed k a e &&
      match exec_event (L := alinks) e (k, a) with Some (_, (k', a')) => allowed_run es' k' a' | None => true end
  end.

Lemma known_spec {V} (m : gmap nat V) i : known m i = true <-> is_Some (m !! i).
Proof. unfold known, is_Some. destruct (m !! i); naive_solver. Qed.

Lemma unused_spec a p : unused a p = true -> al_list a !! p = None \/ al_list a !! p = Some [].
Proof. unfold unused. destruct (al_list a !! p) as [[]|]; auto; done. Qed.

Lemma joinable_now_spec k t : joinable_now k t = true -> may_join k t.
Proof.
  unfold joinable_now, no_joiner. rewrite !andb_true_iff, negb_true_iff, Nat.eqb_neq.
  intros [[H0 H1] [H2 H3]]. pose proof (proj1 (forallb_forall _ _) H2) as Hall. clear H2. split; [done|]. split; [|split].
  - destruct (nb_coros k !! t) as [r|]; [eauto|done].
  - intros j r Hj Hk. assert (Hin : In (j, r) (map_to_list (nb_coros k))).
    { by apply list_elem_of_In, elem_of_map_to_list. }
    specialize (Hall _ Hin). cbn in Hall. by rewrite Hk, Nat.eqb_refl in Hall.
  - intros Hm. by rewrite Hm, Nat.eqb_refl in H3.
Qed.

Lemma not_queued_spec k a c : not_queued k a c = true -> unparkable k a c.
Proof.
  unfold not_queued. rewrite andb_true_iff, negb_true_iff, Nat.eqb_neq. intros [H0 H1].
  destruct (nb_coros k !! c) as [r|] eqn:Hr; [|done]. split; [done|]. exists r. split; [done|].
  intros Hs. rewrite orb_true_iff, negb_true_iff, bool_decide_eq_false, bool_decide_eq_true in H1. tauto.
Qed.

(** ** Every call *)

Lemma keeps_forget {A} (m : LM A) k a : keeps m k a -> keeps (forget m) k a.
Proof. intros Hm. apply wp_bind. eapply wp_mono; [|exact Hm]. intros x k' a' I'. by apply wp_ret. Qed.

Lemma wp_main_step k a : s_inv None k a -> nb_current k = None -> keeps (nurl__bare_step;; mret tt) k a.
Proof.
  intros I Hcur. apply wp_bind. eapply wp_mono; [|by apply (wp_step (-1) k a I Hcur)].
  intros n k' a' [I' _]. by apply wp_ret.
Qed.

Lemma keeps_mutexes k a x m : s_inv None k a -> called k ->
  match x with CMutexLock i | CMutexTrylock i | CMutexUnlock i | CMutexDestroy i => i = m /\ is_Some (nb_mutexes k !! m) | _ => False end ->
  keeps (exec x) k a.
Proof.
  intros I Hcall Hx. destruct x; try done; destruct Hx as [-> Hm]; cbn [exec]; pose proof Hm as [v Hv].
  - apply wp_bind, (wp_deref _ _ v); [done|]. apply wp_bind, wp_gets. destruct (nb_current k) as [c|] eqn:Hcur.
    + by apply wp_coro_mutex_lock.
    + destruct Hcall as [[? ?]|Hmain]; [congruence|]. apply wp_modify.
      apply (inv_set_main k); try done. left. by apply (main_free k).
  - apply keeps_forget, wp_bind, (wp_deref _ _ v); [done|]. destruct v; [by apply wp_ret|].
    by apply wp_bind, wp_modify, wp_ret, inv_mutex.
  - apply keeps_forget, wp_bind, (wp_release None); [done|done|]. intros k' a' I' _. by apply wp_ret.
  - apply keeps_forget, wp_bind, (wp_deref _ _ v); [done|].
    assert (is_Some (al_list a !! PMutex m)) as [l Hl] by by apply (d_mutex _ _ (i_dom _ _ _ I)).
    apply wp_bind. eapply wp_see_links; [cbn; by rewrite Hl|]. destruct l as [|c l]; cbn; [|by apply wp_ret].
    apply wp_bind, wp_modify, wp_ret, inv_mutex; [done|done|]. congruence.
Qed.

Lemma wp_make p (f : core -> core) k a : unused a p = true -> is_queue p = true ->
  s_inv None (f k) (MkALinks (<[p := []]> (al_list a)) (al_timers a) (al_place a)) ->
  keeps (on_links (l_make p);; modify f) k a.
Proof.
  intros Hu Hq HI. apply wp_bind. eapply wp_on_links.
  - cbn. unfold a_make. rewrite !option_guard_True by (done || by apply unused_spec). done.
  - by apply wp_modify.
Qed.

Lemma wp_spawn_fiber mem joinable k a : s_inv None k a -> keeps (spawn_fiber mem joinable) k a.
Proof.
  intros I. apply wp_bind, wp_gets, wp_bind.
  assert (Hgo : forall k1, s_inv None k1 a -> keeps (c ← nb_coro_new mem joinable true true;
      match c with Some c => start_coro c true;; mret (Some c) | None => modify (set_nb_main MAborted);; mret None end) k1 a).
  { intros k1 I1. destruct mem.
    - apply wp_new_started; [done|]. intros k' a' I' _ _. by apply wp_ret.
    - apply wp_bind, wp_ret, wp_bind, wp_modify, wp_ret. by apply inv_aborted. }
  destruct (nb_initialized k); [by apply wp_ret, Hgo|]. apply wp_modify, Hgo. by apply (inv_quiet None k).
Qed.

Lemma wp_create mem owns k a : s_inv None k a ->
  keeps (c ← nb_coro_new mem true owns false;
         match c with Some c => start_coro c false;; mret (0, Some c) | None => mret (11, None) end) k a.
Proof.
  intros I. destruct mem.
  - apply wp_new_started; [done|]. intros k' a' I' _ _. by apply wp_ret.
  - by apply wp_bind, wp_ret, wp_ret.
Qed.

Lemma wp_exit k a : s_inv None k a -> keeps pthread_exit k a.
Proof.
  intros I. apply wp_bind, wp_gets. destruct (nb_current k) as [c|] eqn:Hcur; [|by apply wp_modify, inv_aborted].
  destruct (running_status k a c I Hcur) as (Hc0 & r & Hr & _).
  apply wp_bind, (wp_upd_coro _ _ r); [done|]. by apply (wp_end c r).
Qed.

Lemma wp_entry_end c k a : s_inv None k a -> nb_current k = Some c -> keeps (nb_entry_end c) k a.
Proof.
  intros I Hcur. destruct (running_status k a c I Hcur) as (Hc0 & r & Hr & _).
  apply wp_bind, (wp_upd_coro _ _ r); [done|]. apply (wp_end c r); try done; by destruct r as [[]].
Qed.

Lemma wp_with_init (m : LM unit) k a : s_inv None k a ->
  (forall k', s_inv None k' a -> nb_current k' = nb_current k -> nb_main k' = nb_main k -> keeps m k' a) ->
  keeps (i ← gets nb_initialized; (if (i : bool) then mret tt else nurl_runtime_init);; m) k a.
Proof.
  intros I Hm. apply wp_bind, wp_gets, wp_bind. destruct (nb_initialized k); [by apply wp_ret, Hm|].
  apply wp_modify, Hm; [|done|done]. by apply (inv_quiet None k).
Qed.

Lemma wp_run k a : s_inv None k a -> called k -> keeps nurl_runtime_run k a.
Proof.
  intros I Hcall. apply wp_with_init; [done|]. intros k' I' Hcur Hm. apply wp_bind, wp_gets.
  rewrite Hcur. destruct (nb_current k) as [c|] eqn:Hc.
  - apply (wp_coro_run c); [done|congruence|by intros].
  - destruct Hcall as [[? ?]|Hmain]; [congruence|]. apply wp_modify.
    apply (inv_set_main k'); try done. left. apply (main_free k'); congruence.
Qed.

Lemma wp_yield_call k a : s_inv None k a -> keeps nurl_fiber_yield k a.
Proof.
  intros I. apply wp_bind, wp_gets. destruct (nb_current k) as [c|] eqn:Hcur; [|by apply wp_main_step].
  destruct (running_status k a c I Hcur) as (Hc0 & r & Hr & _). by apply (wp_yield c r).
Qed.

Lemma wp_sleep_call ms k a : s_inv None k a -> called k -> keeps (nurl_fiber_sleep_ms ms) k a.
Proof.
  intros I Hcall. unfold nurl_fiber_sleep_ms. destruct (ms <=? 0); [by apply wp_yield_call|].
  destruct (nb_current k) as [c|] eqn:Hcur.
  - pose proof (wp_sleep c ms k a I Hcur) as Hs. destruct Hs as (x & k' & a' & Hr & Hi). exists x, k', a'.
    split; [|done]. rewrite <- Hr. unfold mbind, M_bind, nb_now_ms, gets. cbn. by rewrite Hcur.
  - destruct Hcall as [[? ?]|Hmain]; [congruence|]. apply wp_bind, wp_gets, wp_bind, wp_gets. rewrite Hcur.
    apply wp_modify, (inv_set_main k); try done. left. by apply (main_free k).
Qed.

Lemma wp_poll k a : s_inv None k a -> keeps nurl_bare_poll k a.
Proof.
  intros I. apply wp_bind, wp_gets. destruct (nb_current k) as [c|] eqn:Hcur; [by apply wp_ret|].
  apply wp_bind, wp_gets, wp_bind.
  assert (Hgo : forall k1, s_inv None k1 a -> nb_current k1 = None ->
    keeps (n ← nurl__bare_step; mret (if n =? 0 then 0 else 1)) k1 a).
  { intros k1 I1 H1. apply wp_bind. eapply wp_mono; [|by apply (wp_step (-1) k1 a I1 H1)].
    intros n k' a' [I' _]. by apply wp_ret. }
  destruct (nb_initialized k); [by apply wp_ret, Hgo|]. apply wp_modify, Hgo; [|done]. by apply (inv_quiet None k).
Qed.

Lemma wp_fiber_handle (m : nat -> LM unit) c k a :
  (match nb_coros k !! c with Some r => if c_joinable r then joinable_now k c else true | None => false end) = true ->
  s_inv None k a -> (may_join k c -> keeps (m c) k a) -> keeps (r ← coro c; if c_joinable r then m c else mret tt) k a.
Proof.
  intros Ha I Hm. destruct (nb_coros k !! c) as [r|] eqn:Hr; [|done]. apply wp_bind, (wp_deref _ _ r); [done|].
  destruct (c_joinable r); [|by apply wp_ret]. by apply Hm, joinable_now_spec.
Qed.

Lemma wp_wake c k a : s_inv None k a -> unparkable k a c -> keeps (nurl_fiber_wake c) k a.
Proof.
  intros I Hu. pose proof Hu as (Hc0 & r & Hr & Hp). apply wp_bind, (wp_deref _ _ r); [done|].
  destruct (bool_decide _); [|by apply wp_ret]. apply wp_bind.
  eapply wp_mono; [|by apply (wp_unpark c false k a)]. intros [] k' a' I'. by apply wp_ret.
Qed.

Lemma mutex_known_opt k m :
  match m with Some m => known (nb_mutexes k) m | None => true end = true -> mutex_known k m.
Proof. destruct m as [m|]; [|by intros]. intros H x [= <-]. by apply known_spec. Qed.

Lemma wp_exec x k a : s_inv None k a -> called k -> allowed_call k a x = true -> keeps (exec x) k a.
Proof.
  intros I Hcall Ha. destruct x; cbn [allowed_call exec] in *.
  - apply wp_make; [done|done|]. by apply inv_make_mutex, unused_spec.
  - by apply (keeps_mutexes k a (CMutexLock m) m), conj, known_spec.
  - by apply (keeps_mutexes k a (CMutexTrylock m) m), conj, known_spec.
  - by apply (keeps_mutexes k a (CMutexUnlock m) m), conj, known_spec.
  - by apply (keeps_mutexes k a (CMutexDestroy m) m), conj, known_spec.
  - apply wp_make; [done|done|]. by apply inv_make_cond, unused_spec.
  - apply andb_prop in Ha as [H1%known_spec H2%known_spec]. by apply wp_cond_wait.
  - apply andb_prop in Ha as [H1%known_spec H2%known_spec]. by apply wp_cond_wait_ms.
  - by apply keeps_forget, wp_signal, known_spec.
  - by apply keeps_forget, wp_broadcast, known_spec.
  - apply known_spec in Ha as [r Hr]. apply keeps_forget, wp_bind, (wp_deref _ _ r); [done|].
    destruct (cond_list k a k0 I ltac:(eauto)) as [l Hl].
    apply wp_bind. eapply wp_see_links; [cbn; by rewrite Hl|]. destruct l; by apply wp_ret.
  - apply wp_make; [done|done|]. by apply inv_make_rw, unused_spec.
  - by apply wp_rdlock, known_spec.
  - by apply wp_rdunlock, known_spec.
  - by apply wp_wrlock, known_spec.
  - by apply wp_wrunlock, known_spec.
  - by apply keeps_forget, wp_tryrdlock, known_spec.
  - by apply keeps_forget, wp_trywrlock, known_spec.
  - by apply keeps_forget, wp_create.
  - by apply keeps_forget, wp_create.
  - by apply keeps_forget, wp_spawn_fiber.
  - by apply keeps_forget, wp_spawn_fiber.
  - by apply keeps_forget, wp_spawn_fiber.
  - by apply wp_join, joinable_now_spec.
  - by apply wp_detach, joinable_now_spec.
  - apply wp_fiber_handle; [done|done|]. by apply wp_join.
  - apply wp_fiber_handle; [done|done|]. by apply wp_detach.
  - by apply wp_exit.
  - apply wp_modify. by apply (inv_quiet None k).
  - by apply wp_run.
  - by apply wp_yield_call.
  - by apply wp_park_with_mutex, mutex_known_opt.
  - by apply wp_park_with_mutex_ms, mutex_known_opt.
  - by apply wp_bare_park_ms.
  - by apply wp_unpark, not_queued_spec.
  - by apply wp_unpark, not_queued_spec.
  - by apply keeps_forget, wp_wake, not_queued_spec.
  - by apply wp_sleep_call.
  - by apply keeps_forget, wp_poll.
Qed.

Lemma wp_event e k a : s_inv None k a -> allowed k a e = true -> keeps (exec_event e) k a.
Proof.
  intros I Ha. destruct e as [x| | |ms]; cbn [allowed exec_event] in *.
  - apply andb_prop in Ha as [Hc Ha]. apply wp_exec; [done| |done].
    apply orb_prop in Hc as [Hc|Hc]; [left; by apply bool_decide_eq_true in Hc|right]. by destruct (nb_main k).
  - apply bool_decide_eq_true in Ha as [c Hc]. apply wp_bind, wp_gets. rewrite Hc. by apply wp_entry_end.
  - apply bool_decide_eq_true in Ha. eapply wp_mono; [|by apply wp_main_iterate]. by intros x k' a' [I' _].
  - apply wp_modify. by apply inv_clock.
Qed.

Lemma start_lists p l : al_list alinks_start !! p = Some l -> l = [].
Proof.
  unfold alinks_start. simpl al_list.
  by intros [[<- <-]|[_ [[<- <-]|[_ [<- <-]%lookup_singleton_Some]]%lookup_insert_Some]]%lookup_insert_Some.
Qed.

Lemma start_coro c r : nb_coros core_start !! c = Some r -> c = rw_main_node /\ r = main_node.
Proof. cbn. by intros [<- <-]%lookup_singleton_Some. Qed.

Lemma start_has_coro c : is_Some (nb_coros core_start !! c) <-> c = rw_main_node.
Proof. cbn. split; [by intros [? [<- _]%lookup_singleton_Some]|]. intros ->. eauto. Qed.

Lemma start_has_list p : is_Some (al_list alinks_start !! p) <-> p = PRun \/ p = PDrain \/ p = PJoin rw_main_node.
Proof.
  cbn. split.
  - intros [l [[<- _]|[_ [[<- _]|[_ [<- _]%lookup_singleton_Some]]%lookup_insert_Some]]%lookup_insert_Some]; auto.
  - intros [->|[->| ->]]; eexists; reflexivity.
Qed.

Lemma inv_start : s_inv None core_start alinks_start.
Proof.
  destruct start_refines as [_ Hwf]. split; try done.
  - split; try (intros ?x); rewrite ?start_has_list, ?start_has_coro; cbn.
    + rewrite lookup_singleton_is_Some. unfold rw_main_node. split; congruence.
    + naive_solver.
    + rewrite lookup_empty. split; [by intros [? ?]|naive_solver].
    + rewrite lookup_empty. split; [by intros [? ?]|naive_solver].
    + rewrite lookup_empty. split; [by intros [? ?]|naive_solver].
    + naive_solver.
    + naive_solver.
    + unfold rw_main_node. lia.
    + done.
  - by intros c r pl [-> _]%start_coro.
  - split; try done.
    + by intros j r t [_ ->]%start_coro.
    + by intros i j ri rj t [_ ->]%start_coro.
  - by intros c r [_ ->]%start_coro.
  - split; cbn.
    + by intros m Hm%lookup_empty_Some.
    + by intros l w Hw%lookup_empty_Some.
    + intros _ Hq. by destruct Hq.
    + by intros t r _ [_ ->]%start_coro.
  - split; try done; [by intros r [_ ->]%start_coro|]. cbn. by intros ?%not_elem_of_nil.
  - constructor.
Qed.

(** Runs. *)
Lemma run_keeps es : forall k a, s_inv None k a -> allowed_run es k a = true -> keeps (run_events es) k a.
Proof.
  induction es as [|e es IH]; intros k a I Ha; cbn [run_events]; [by apply wp_ret|].
  cbn [allowed_run] in Ha. apply andb_prop in Ha as [He Hes].
  destruct (wp_event e k a I He) as ([] & k' & a' & Hx & I'). rewrite Hx in Hes.
  apply wp_bind. exists tt, k', a'. split; [done|]. by apply IH.
Qed.
