(* ===== verification/SchedThms.v ===== *)
(** What the invariant of the scheduler means for its clients: no call faults,
    no wake-up is lost, a deadlock report is true, and the main context returns
    from its drain only when everything has ended. *)

From S2P Require Import Prelude SchedLinks Sched SchedSim SchedInv SchedMoves SchedSpawn SchedCalls SchedPark SchedSafe.

Abbreviation state := (core * alinks)%type.

(** The state after a run that keeps to the protocol. *)
Definition reached (es : list event) (k : core) (a : alinks) : Prop :=
  allowed_run es core_start alinks_start = true /\ run_events es (core_start, alinks_start) = Some (tt, (k, a)).

Lemma reached_inv es k a : reached es k a -> s_inv None k a.
Proof.
  intros [Ha Hr]. destruct (run_keeps es _ _ inv_start Ha) as ([] & k' & a' & Hr' & I). congruence.
Qed.

(** The state a run ends in. *)
Definition after (es : list event) : state :=
  match run_events es (core_start, alinks_start) with Some (_, s) => s | None => (core_start, alinks_start) end.

Lemma reached_after es : allowed_run es core_start alinks_start = true -> reached es (after es).1 (after es).2.
Proof.
  intros Ha. destruct (run_keeps es _ _ inv_start Ha) as ([] & k & a & Hr & I). unfold after. rewrite Hr. by split.
Qed.

(** A runnable coroutine is in the run queue. *)
Lemma runnable_queued k a c r run :
  s_inv None k a -> nb_coros k !! c = Some r -> c <> rw_main_node -> c_state r = NB_RUNNABLE ->
  al_list a !! PRun = Some run -> c ∈ run.
Proof.
  intros I Hr Hc0 Hs Hrun. assert (is_Some (al_place a !! c)) as [pl Hpl] by (apply (d_coro _ _ (i_dom _ _ _ I)); eauto).
  destruct (i_status _ _ _ I c r pl Hr Hc0 Hpl) as [(_ & _ & Hst) _]. rewrite Hs in Hst. destruct Hst as (_ & -> & _).
  by apply (wf_in a (i_wf _ _ _ I) PRun run c Hrun).
Qed.

(** C4: whatever calls the clients make, as long as they pass handles they may
    pass (locks that exist, a join of a joinable coroutine nobody else joins, an
    unpark of a coroutine that waits in no queue), no call faults, on lists and
    on the source's pointers alike: no freed coroutine is touched, nothing is
    queued twice, no loop runs away.  Every coroutine is where its state says,
    the timers are sorted, and the counters count. *)
Theorem sched_safe es :
  allowed_run es core_start alinks_start = true ->
  exists k a s, run_events es (core_start, alinks_start) = Some (tt, (k, a)) /\
    run_events es (core_start, links_start) = Some (tt, (k, s)) /\ links_rel s a /\ s_inv None k a.
Proof.
  intros Ha. destruct (run_keeps es _ _ inv_start Ha) as ([] & k & a & Hr & I).
  destruct (sim_run links_rel es core_start links_start alinks_start tt k a start_refines Hr) as (s & Hs & HR). by exists k, a, s.
Qed.

Lemma sched_safe_witness : exists k a s, run_events sched_demo (core_start, alinks_start) = Some (tt, (k, a)) /\
    run_events sched_demo (core_start, links_start) = Some (tt, (k, s)) /\ links_rel s a /\ s_inv None k a.
Proof. apply (sched_safe sched_demo). vm_compute. reflexivity. Defined.

(** C5: for clients within the protocol of [sched_safe], at every point of every
    run no wake-up is lost: a mutex that is free while
    coroutines queue for it has one in the run queue that is about to take it, a
    reader/writer lock with a queue is held, nobody waits for the end of a
    coroutine that has ended, and who waits for the fibers waits for a live one.
    Outside of the protocol a stale wake breaks this
    ([SchedTurn.stale_wake_use_after_free]). *)
Theorem no_lost_wakeup es k a :
  reached es k a ->
  (forall m, nb_mutexes k !! m = Some false -> al_list a !! PMutex m <> Some [] ->
     exists c r run, al_list a !! PRun = Some run /\ c ∈ run /\ nb_coros k !! c = Some r /\ c_cont r = KMutexLock m) /\
  (forall l w, nb_rws k !! l = Some w -> al_list a !! PRw l <> Some [] -> r_writing w = true \/ 0 < r_readers w) /\
  (forall t r j, nb_coros k !! t = Some r -> c_finished r = true -> al_list a !! PJoin t = Some j -> j = []) /\
  (al_list a !! PDrain <> Some [] -> 0 < count unfinished_fiber (nb_coros k)).
Proof.
  intros I%reached_inv. destruct (i_wake _ _ _ I) as [W1 W2 W3 W4]. split_and!.
  - intros m Hm Hq. destruct (W1 m Hm Hq) as (c & r & Hc & Hc0 & Hs & Hk).
    destruct (d_run _ _ (i_dom _ _ _ I)) as [run Hrun]. exists c, r, run. split_and!; try done. by eapply runnable_queued.
  - intros l w Hw. by apply W2.
  - intros t r j Ht Hf Hj. specialize (W4 t r ltac:(done) Ht Hf). congruence.
  - rewrite <- (i_fibers _ _ _ I). by apply W3.
Qed.

(** The first events of the demonstration, up to where 4 queues for the lock that
    1 holds for writing and 2 for the mutex. *)
Definition sched_queued : list event := take 18 sched_demo.

Lemma no_lost_wakeup_witness :
  al_list (after sched_queued).2 !! PRw 0 = Some [4%nat] /\ al_list (after sched_queued).2 !! PMutex 0 = Some [2%nat] /\
  (forall l w, nb_rws (after sched_queued).1 !! l = Some w -> al_list (after sched_queued).2 !! PRw l <> Some [] ->
     r_writing w = true \/ 0 < r_readers w).
Proof.
  split; [vm_compute; reflexivity|]. split; [vm_compute; reflexivity|].
  refine (proj1 (proj2 (no_lost_wakeup sched_queued _ _ (reached_after sched_queued _)))). vm_compute. reflexivity.
Defined.

(** ** Deadlock *)

(** [c] can only go on when another coroutine, or the main context, does
    something first. *)
Definition waiting (k : core) (a : alinks) (c : nat) (r : NbCoro) : Prop :=
  match c_state r, al_place a !! c with
  | NB_DONE, _ => True
  | NB_PARKED, Some (Some (PMutex m)) => nb_mutexes k !! m = Some true
  | NB_PARKED, Some (Some (PRw l)) => exists w, nb_rws k !! l = Some w /\ (r_writing w = true \/ 0 < r_readers w)
  | NB_PARKED, Some (Some (PJoin t)) => exists rt, nb_coros k !! t = Some rt /\ c_finished rt = false
  | NB_PARKED, Some (Some PDrain) => 0 < count unfinished_fiber (nb_coros k)
  | NB_PARKED, Some (Some (PCond _)) => True
  | NB_PARKED, Some None => c ∉ al_timers a
  | _, _ => False
  end.

Lemma idle_no_mutex k a m c l : s_inv None k a -> idle a -> al_list a !! PMutex m = Some (c :: l) -> nb_mutexes k !! m = Some true.
Proof.
  intros I [Hrun _] Hl. destruct (proj2 (d_mutex _ _ (i_dom _ _ _ I) m) ltac:(eauto)) as [[] Hm]; [done|].
  destruct (w_mutex _ _ _ (i_wake _ _ _ I) m Hm) as (x & r & Hx & Hx0 & Hs & _); [congruence|].
  pose proof (runnable_queued k a x r [] I Hx Hx0 Hs Hrun) as []%not_elem_of_nil.
Qed.

Lemma idle_waiting k a c r : s_inv None k a -> nb_current k = None -> idle a -> nb_coros k !! c = Some r -> c <> rw_main_node ->
  waiting k a c r.
Proof.
  intros I Hcur Hidle Hr Hc0. pose proof Hidle as [Hrun Htm].
  assert (is_Some (al_place a !! c)) as [pl Hpl] by (apply (d_coro _ _ (i_dom _ _ _ I)); eauto).
  destruct (i_status _ _ _ I c r pl Hr Hc0 Hpl) as [(_ & _ & Hst) _]. unfold waiting. rewrite Hpl.
  destruct (c_state r) eqn:Hs; [| |destruct Hst as [_ Hst]|done].
  - pose proof (runnable_queued k a c r [] I Hr Hc0 Hs Hrun) as []%not_elem_of_nil.
  - destruct Hst as [Hc _]. congruence.
  - destruct pl as [p|]; [|rewrite Htm; apply not_elem_of_nil].
    destruct (wf_place a (i_wf _ _ _ I) c p Hpl) as [l Hl].
    pose proof (proj2 (wf_in a (i_wf _ _ _ I) p l c Hl) Hpl) as Hin.
    destruct l as [|x l]; [by apply not_elem_of_nil in Hin|]. destruct (i_wake _ _ _ I) as [W1 W2 W3 W4].
    destruct p as [|m|q|l'|t|].
    + by destruct Hst as [_ []].
    + by apply (idle_no_mutex k a m x l).
    + done.
    + destruct (proj2 (d_rw _ _ (i_dom _ _ _ I) l') ltac:(eauto)) as [w Hw]. exists w. split; [done|].
      apply (W2 l' w Hw). congruence.
    + destruct (proj2 (d_join _ _ (i_dom _ _ _ I) t) ltac:(eauto)) as [rt Hrt]. exists rt. split; [done|].
      destruct (c_finished rt) eqn:Hf; [|done]. specialize (W4 t rt ltac:(done) Hrt Hf). congruence.
    + rewrite <- (i_fibers _ _ _ I). apply W3; [done|congruence].
Qed.

(** C6: for clients within the protocol of [sched_safe] (a stale wake can lose a
    runnable coroutine) the report of a deadlock is true, and nothing that could go on is given
    up: when a round of the main context's loop ends the program, what the main
    context waits for has not happened, and every coroutine has ended or waits
    for a mutex that is locked, a lock that is held, a coroutine that has not
    ended, fibers that are alive, a signal, or an unpark without a deadline. *)
Theorem deadlock_truthful es k a k' a' :
  reached es k a -> nb_current k = None -> nb_main k <> MAborted ->
  exec_event EMain (k, a) = Some (tt, (k', a')) -> nb_main k' = MAborted ->
  main_blocked k /\ forall c r, nb_coros k !! c = Some r -> c <> rw_main_node -> waiting k a c r.
Proof.
  intros I%reached_inv Hcur Hm Hx Hab.
  destruct (wp_main_iterate k a I Hcur) as ([] & k2 & a2 & Hx2 & _ & Hpost). cbn [exec_event] in Hx.
  assert (k2 = k') as -> by congruence. destruct (Hpost Hab) as [|[Hidle Hb]]; [done|].
  split; [done|]. intros c r Hr Hc0. by apply idle_waiting.
Qed.

(** 1 locks the mutex and waits for an unpark, the main context wants the mutex. *)
Definition sched_dead : list event :=
  [ECall CInit; ECall (CMutexInit 0); ECall (CSpawn true); ECall CYield; ECall (CMutexLock 0); ECall (CPark None);
   ECall (CMutexLock 0)].

Lemma deadlock_truthful_witness : 
  main_blocked (after sched_dead).1 /\ forall c r, nb_coros (after sched_dead).1 !! c = Some r -> c <> rw_main_node ->
    waiting (after sched_dead).1 (after sched_dead).2 c r.
Proof.
  refine (deadlock_truthful sched_dead _ _ (after (sched_dead ++ [EMain])).1 (after (sched_dead ++ [EMain])).2
    (reached_after sched_dead _) _ _ _ _); vm_compute; first [reflexivity|discriminate].
Defined.

(** ** The drain *)

Lemma count_none f cs c r : count f cs <= 0 -> cs !! c = Some r -> c <> rw_main_node -> f r = false.
Proof.
  intros H0 Hc Hc0. pose proof (count_delete f cs c r Hc) as Hd. pose proof (count_nonneg f (delete c cs)) as Hn.
  unfold counted in Hd. destruct (Nat.eqb_spec c rw_main_node); [done|]. destruct (f r); [cbn in Hd; lia|done].
Qed.

(** C19: for clients within the protocol of [sched_safe], nurl_runtime_run on the
    main context returns only when every coroutine that was ever started, thread or fiber, has ended. *)
Theorem run_waits_for_all es k a k' a' :
  reached es k a -> nb_current k = None -> nb_main k = MRun ->
  exec_event EMain (k, a) = Some (tt, (k', a')) -> nb_main k' = MUser ->
  forall c r, nb_coros k' !! c = Some r -> c <> rw_main_node -> c_finished r = true.
Proof.
  intros I%reached_inv Hcur Hm Hx Hu c r Hr Hc0.
  cbn [exec_event] in Hx. unfold main_iterate, mbind, M_bind, gets in Hx. cbn [fst] in Hx. rewrite Hm in Hx.
  cbn [fst] in Hx. destruct (Z.leb_spec (nb_live k) 0) as [Hl|Hl].
  - cbn in Hx. injection Hx as <- <-. cbn in Hr. rewrite (i_live _ _ _ I) in Hl.
    pose proof (count_none unfinished _ c r Hl Hr Hc0) as Hf. by apply negb_false_iff in Hf.
  - exfalso. destruct (wp_step (-1) k a I Hcur) as (n & k3 & a3 & Hs & _ & Hm3 & _).
    unfold drive_step, mbind, M_bind, nurl__bare_step, drive_end, modify in Hx. rewrite Hs in Hx.
    destruct (n =? 0); apply (inj Some), pair_equal_spec in Hx as [_ [<- <-]%pair_equal_spec]; cbn in Hu; congruence.
Qed.

Lemma run_waits_for_all_witness : nb_next_id (after sched_demo).1 = 5%nat /\
  forall c r, nb_coros (after sched_demo).1 !! c = Some r -> c <> rw_main_node -> c_finished r = true.
Proof.
  split; [vm_compute; reflexivity|].
  refine (run_waits_for_all (take 33 sched_demo) (after (take 33 sched_demo)).1 (after (take 33 sched_demo)).2 _ (after sched_demo).2
    (reached_after _ _) _ _ _ _); vm_compute; reflexivity.
Defined.
