(* ===== verification/SchedOrder.v ===== *)
(** The order in which the scheduler wakes and runs: timers by their deadline,
    the run queue first come first served, an unpark that comes before its park
    kept for it. *)

From S2P Require Import Prelude SchedLinks Sched SchedSim SchedInv SchedMoves SchedSpawn SchedCalls SchedPark SchedSafe SchedThms.

(** ** Timers *)

(** What expiring makes of a coroutine. *)
Definition timed_out (r : NbCoro) : NbCoro := set_c_state NB_RUNNABLE (set_c_last_park_result 0 r).

(** The coroutines of [due] have timed out, nothing else has changed. *)
Definition expired (due : list nat) (cs cs' : gmap nat NbCoro) : Prop :=
  forall c, cs' !! c = if decide (c ∈ due) then timed_out <$> cs !! c else cs !! c.

Lemma expired_nil cs : expired [] cs cs.
Proof. intros c. by rewrite decide_False by apply not_elem_of_nil. Qed.

Lemma expired_cons c r due cs cs' :
  cs !! c = Some r -> expired due (<[c := timed_out r]> cs) cs' -> expired (c :: due) cs cs'.
Proof.
  intros Hc Hd x. rewrite Hd. destruct (decide (x = c)) as [->|Hne].
  - rewrite lookup_insert_eq, Hc. rewrite (decide_True (P := c ∈ c :: due)) by constructor. by case_decide.
  - rewrite lookup_insert_ne by done. do 2 case_decide; try done; set_solver.
Qed.

Lemma expired_wake due cs cs' c : expired due cs cs' -> wake_time cs' c = wake_time cs c.
Proof. intros Hd. unfold wake_time. rewrite Hd. case_decide; [|done]. by destruct (cs !! c). Qed.

(** What [timers_expire_from] answers. *)
Lemma expire_from_run f now : forall n k a n' k' a' run,
  timers_expire_from f now n (k, a) = Some (n', (k', a')) -> al_list a !! PRun = Some run ->
  exists due, al_timers a = due ++ al_timers a' /\ al_list a' !! PRun = Some (run ++ due) /\
    Forall (fun c => wake_time (nb_coros k) c <= now) due /\
    (forall c, head (al_timers a') = Some c -> now < wake_time (nb_coros k) c) /\
    n' = n + Z.of_nat (length due) /\ expired due (nb_coros k) (nb_coros k').
Proof.
  induction f as [|f IH]; intros n k a n' k' a' run Hx Hrun; [done|]. cbn [timers_expire_from] in Hx.
  unfold mbind, M_bind, timers_head, see_links in Hx. cbn in Hx.
  destruct (al_timers a) as [|c tl] eqn:Htm; cbn in Hx.
  - apply (inj Some), pair_equal_spec in Hx as [<- [<- <-]%pair_equal_spec]. exists []. rewrite ?Htm.
    split_and!; [done|by rewrite app_nil_r|constructor|by intros ?|cbn; lia|apply expired_nil].
  - unfold coro, deref in Hx. cbn in Hx. destruct (nb_coros k !! c) as [r|] eqn:Hr; [|done].
    assert (Hwt : wake_time (nb_coros k) c = c_wake_at_ms r) by (unfold wake_time; by rewrite Hr).
    destruct (Z.leb_spec (c_wake_at_ms r) now) as [Hle|Hgt].
    2:{ apply (inj Some), pair_equal_spec in Hx as [<- [<- <-]%pair_equal_spec]. exists []. rewrite ?Htm.
        split_and!; [done|by rewrite app_nil_r|constructor|intros x [= <-]; lia|cbn; lia|apply expired_nil]. }
    unfold on_links, upd_coro, coro, deref, put_coro, modify, mbind, M_bind, nb_rq_push, push_queue, on_links in Hx.
    cbn in Hx. unfold a_timer_pop in Hx. rewrite Htm in Hx. cbn in Hx. rewrite Hr in Hx. cbn in Hx.
    unfold a_push in Hx. cbn in Hx. rewrite Hrun in Hx. cbn in Hx.
    case_guard as Hp; cbn in Hx; [|done]. case_guard; cbn in Hx; [|done].
    apply (IH _ _ _ _ _ _ (run ++ [c])) in Hx as (due & E1 & E2 & E3 & E4 & E5 & E6); [|cbn; by rewrite lookup_insert_eq].
    cbn in *. exists (c :: due). rewrite <- app_assoc in E2.
    assert (Hsame : forall x, wake_time (<[c := timed_out r]> (nb_coros k)) x = wake_time (nb_coros k) x).
    { intros x. unfold wake_time. destruct (decide (x = c)) as [->|]; [by rewrite lookup_insert_eq, Hr|by rewrite lookup_insert_ne]. }
    split_and!; [by rewrite E1|done| | |cbn [length]; lia|by apply (expired_cons c r)].
    + constructor; [lia|]. eapply Forall_impl; [exact E3|]. intros x. cbn. by rewrite Hsame.
    + intros x Hx. rewrite <- Hsame. by apply E4.
Qed.

Lemma sorted_all_after cs now l :
  by_time cs l -> (forall c, head l = Some c -> now < wake_time cs c) -> Forall (fun c => now < wake_time cs c) l.
Proof.
  intros Hs Hh. destruct Hs as [|c l Hs Hall]; [constructor|]. specialize (Hh c eq_refl). constructor; [done|].
  eapply Forall_impl; [exact Hall|]. cbn. lia.
Qed.

Lemma sorted_prefix cs l1 l2 : by_time cs (l1 ++ l2) -> by_time cs l1.
Proof.
  induction l1 as [|c l1 IH]; intros Hs; [constructor|]. apply StronglySorted_inv in Hs as [Hs Hall].
  constructor; [by apply IH|]. by apply Forall_app in Hall as [? _].
Qed.

(** C20: in every state that clients within the protocol of [sched_safe] reach,
    expiring the timers at a moment wakes exactly the sleepers whose deadline
    has come, in the order of their deadlines, at the end of the run queue; each
    is told that it timed out, no other coroutine is touched, and every timer
    left lies ahead.  Nobody is woken before the deadline. *)
Theorem timers_in_order es k a now run :
  reached es k a -> al_list a !! PRun = Some run ->
  exists n k' a' due, nb_timers_expire now (k, a) = Some (n, (k', a')) /\ n = Z.of_nat (length due) /\
    al_timers a = due ++ al_timers a' /\ al_list a' !! PRun = Some (run ++ due) /\
    Forall (fun c => wake_time (nb_coros k) c <= now) due /\
    Forall (fun c => now < wake_time (nb_coros k) c) (al_timers a') /\
    by_time (nb_coros k) due /\ expired due (nb_coros k) (nb_coros k').
Proof.
  intros I%reached_inv Hrun.
  destruct (wp_expire now (fun _ k' a' => s_inv None k' a') k a I) as (n & k' & a' & Hx & I'); [done|].
  pose proof Hx as Hf. unfold nb_timers_expire, mbind, M_bind, coro_rounds, gets in Hf.
  destruct (expire_from_run _ _ _ _ _ _ _ _ _ Hf Hrun) as (due & E1 & E2 & E3 & E4 & E5 & E6).
  exists n, k', a', due. split_and!; try done.
  - apply sorted_all_after; [|done]. apply (sorted_same (nb_coros k')); [|apply (i_timers _ _ _ I')].
    intros c _. symmetry. by apply (expired_wake due).
  - apply (sorted_prefix _ due (al_timers a')). rewrite <- E1. apply (i_timers _ _ _ I).
Qed.

(** Three fibers sleep 30, 10 and 20 ms. *)
Definition sched_sleepers : list event :=
  [ECall CInit; ECall (CSpawn true); ECall (CSpawn true); ECall (CSpawn true); ECall CRun;
   EMain; ECall (CSleepMs 30); EMain; ECall (CSleepMs 10); EMain; ECall (CSleepMs 20)].

Lemma timers_in_order_witness : al_timers (after sched_sleepers).2 = [2; 3; 1]%nat /\
  exists n k' a' due, nb_timers_expire 20 ((after sched_sleepers).1, (after sched_sleepers).2) = Some (n, (k', a')) /\ n = Z.of_nat (length due) /\
    al_timers (after sched_sleepers).2 = due ++ al_timers a' /\ al_list a' !! PRun = Some ([] ++ due).
Proof.
  split; [vm_compute; reflexivity|].
  destruct (timers_in_order sched_sleepers (after sched_sleepers).1 (after sched_sleepers).2 20 [])
    as (n & k' & a' & due & Hx & Hn & Ht & Hr & _); [apply reached_after; vm_compute; reflexivity|vm_compute; reflexivity|].
  exists n, k', a', due. split; [exact Hx|]. split; [exact Hn|]. split; [exact Ht|exact Hr].
Defined.
