(* ===== verification/SchedStable.v ===== *)
(** What no call of the scheduler disturbs.

    A relation between the states before and after is [Stable] when it contains
    the small changes the handlers are made of; then it contains every handler
    but the few that are meant to break it: taking the head of the run queue,
    putting an admitted waiter at its front, consuming a permit.  [fifo] (the run
    queue grows at its end) and [permits_kept] (a banked unpark stays) are two
    such relations. *)

From S2P Require Import Prelude SchedLinks Sched SchedInv.

Abbreviation state := (core * alinks)%type.

(** A banked unpark is still there; a new coroutine has none. *)
Definition permits_kept (k k' : core) : Prop :=
  (nb_next_id k <= nb_next_id k')%nat /\
  forall c r', (c < nb_next_id k)%nat -> nb_coros k' !! c = Some r' ->
    exists r, nb_coros k !! c = Some r /\ (c_wake_pending r = true -> c_wake_pending r' = true).

#[export] Instance permits_kept_preorder : PreOrder permits_kept.
Proof.
  split.
  - intros k. split; [lia|]. eauto.
  - intros k1 k2 k3 [H1 H2] [H3 H4]. split; [lia|]. intros c r3 Hc Hr3.
    destruct (H4 c r3 ltac:(lia) Hr3) as (r2 & Hr2 & ?). destruct (H2 c r2 Hc Hr2) as (r1 & ? & ?). eauto.
Qed.

Lemma permits_same k k' : nb_coros k' = nb_coros k -> (nb_next_id k <= nb_next_id k')%nat -> permits_kept k k'.
Proof. intros Hc Hn. split; [done|]. intros c r'. rewrite Hc. eauto. Qed.

Lemma permits_put k c r r' : nb_coros k !! c = Some r -> (c_wake_pending r = true -> c_wake_pending r' = true) ->
  permits_kept k (set_nb_coros (<[c := r']> (nb_coros k)) k).
Proof.
  intros Hr Hw. split; [done|]. intros x rx _. cbn. intros [[<- <-]|[_ Hx]]%lookup_insert_Some; eauto.
Qed.

(** The operations of the lists that leave the head of the run queue alone. *)
Inductive list_step : alinks -> alinks -> Prop :=
| LS_push p c a a' : a_push p c a = Some a' -> list_step a a'
| LS_pop p x a a' : p <> PRun -> a_pop p a = Some (x, a') -> list_step a a'
| LS_stack p c a a' : a_stack p c a = Some a' -> list_step a a'
| LS_wake p l a a' : a_wake p a = Some (l, a') -> list_step a a'
| LS_timer_add w c t a a' : a_timer_add w c t a = Some a' -> list_step a a'
| LS_timer_remove c a a' : a_timer_remove c a = Some a' -> list_step a a'
| LS_timer_pop a a' : a_timer_pop a = Some a' -> list_step a a'
| LS_make p a a' : a_make p a = Some a' -> list_step a a'
| LS_alloc c a a' : a_alloc c a = Some a' -> list_step a a'
| LS_free c a a' : a_free c a = Some a' -> list_step a a'.

Class Stable (R : state -> state -> Prop) := {
  stable_preorder :: PreOrder R;
  stable_core k k' a : permits_kept k k' -> R (k, a) (k', a);
  stable_lists k a a' : list_step a a' -> R (k, a) (k, a')
}.

Create HintDb stable.

Section stable.
Context (R : state -> state -> Prop) {S : Stable R}.

(** Whatever [m] answers, the states are related. *)
Definition stable {A} (m : LM A) : Prop := forall s x s', m s = Some (x, s') -> R s s'.

Lemma st_ret {A} (x : A) : stable (mret x).
Proof. intros s y s' [= <- <-]. reflexivity. Qed.
Lemma st_bind {A B} (m : LM A) (f : A -> LM B) : stable m -> (forall x, stable (f x)) -> stable (m ≫= f).
Proof.
  intros Hm Hf s y s' Hx. unfold mbind, M_bind in Hx. destruct (m s) as [[x s1]|] eqn:E; [|done].
  transitivity s1; [by apply (Hm s x)|by apply (Hf x s1 y)].
Qed.
Lemma st_gets {A} (f : core -> A) : stable (gets f).
Proof. intros s y s' [= <- <-]. reflexivity. Qed.
Lemma st_fault {A} : stable (A := A) fault.
Proof. by intros s y s'. Qed.
Lemma st_deref {V} (f : core -> gmap nat V) i : stable (deref f i).
Proof. intros s y s'. unfold deref. destruct (f s.1 !! i); [|done]. intros [= <- <-]. reflexivity. Qed.
Lemma st_see {A} (f : alinks -> option A) : stable (see_links f).
Proof. intros s y s'. unfold see_links. destruct (f s.2); [|done]. intros [= <- <-]. reflexivity. Qed.
Lemma st_modify (f : core -> core) : (forall k, permits_kept k (f k)) -> stable (modify f).
Proof. intros Hf [k a] y s' [= <- <-]. by apply stable_core. Qed.
Lemma st_on (f : alinks -> option alinks) : (forall a a', f a = Some a' -> list_step a a') -> stable (on_links f).
Proof.
  intros Hf [k a] y s'. unfold on_links. cbn. destruct (f a) as [a'|] eqn:E; [|done]. intros [= <- <-].
  by apply stable_lists, Hf.
Qed.
Lemma st_of {A} (f : alinks -> option (A * alinks)) : (forall a x a', f a = Some (x, a') -> list_step a a') -> stable (of_links f).
Proof.
  intros Hf [k a] y s'. unfold of_links. cbn. destruct (f a) as [[x a']|] eqn:E; [|done]. intros [= <- <-].
  by eapply stable_lists, Hf.
Qed.

(** A coroutine's record is read and written, its permit not. *)
Lemma st_coro_put {A} c (g : NbCoro -> NbCoro) (next : NbCoro -> LM A) :
  (forall r, c_wake_pending r = true -> c_wake_pending (g r) = true) -> (forall r, stable (next r)) ->
  stable (r ← coro c; put_coro c (g r);; next r).
Proof.
  intros Hg Hn [k a] y s'. unfold coro, deref, put_coro, modify, mbind, M_bind. cbn.
  destruct (nb_coros k !! c) as [r|] eqn:Hr; [|done]. intros Hx.
  transitivity (set_nb_coros (<[c := g r]> (nb_coros k)) k, a); [|by apply (Hn r _ y)].
  by eapply stable_core, permits_put, Hg.
Qed.

Lemma st_upd c g : (forall r, c_wake_pending (g r) = c_wake_pending r) -> stable (upd_coro c g).
Proof.
  intros Hg [k a] y s'. unfold upd_coro, coro, deref, put_coro, modify, mbind, M_bind. cbn.
  destruct (nb_coros k !! c) as [r|] eqn:Hr; [|done]. intros [= <- <-].
  eapply stable_core, permits_put; [done|]. by rewrite Hg.
Qed.

Ltac core_same := intros ?; apply permits_same; cbn; solve [done|lia].

(** The rules, tried on the form of the handler. *)
Ltac st_step :=
  match goal with
  | |- stable (mret _) => apply st_ret
  | |- stable (upd_coro _ _) => apply st_upd; intros ?; cbn; reflexivity
  | |- stable (_ ≫= _) => apply st_bind; [|intros ?]
  | |- stable (gets _) => apply st_gets
  | |- stable fault => apply st_fault
  | |- stable (modify _) => apply st_modify; core_same
  | |- stable (deref _ _) => apply st_deref
  | |- stable (see_links _) => apply st_see
  | |- stable (match ?x with _ => _ end) => destruct x
  | |- stable _ => solve [auto with stable nocore]
  end.
Ltac st_auto := repeat (cbv beta zeta; st_step).

Lemma st_push_queue p c : stable (push_queue p c).
Proof. apply st_on. apply LS_push. Qed.
Lemma st_pop_queue p : p <> PRun -> stable (pop_queue p).
Proof. intros Hp. apply st_of. intros a x a'. by apply LS_pop. Qed.
Lemma st_queue_head p : stable (queue_head p).
Proof. apply st_see. Qed.
Lemma st_timers_head : stable timers_head.
Proof. apply st_see. Qed.
Lemma st_add_timer c t : stable (add_timer c t).
Proof. unfold add_timer. st_auto. apply st_on. apply LS_timer_add. Qed.
Lemma st_remove c : stable (nb_timer_remove c).
Proof. apply st_on. apply LS_timer_remove. Qed.
Lemma st_coro c : stable (coro c). Proof. apply st_deref. Qed.
Lemma st_mutex c : stable (mutex c). Proof. apply st_deref. Qed.
Lemma st_cond c : stable (cond c). Proof. apply st_deref. Qed.
Lemma st_rwl c : stable (rwl c). Proof. apply st_deref. Qed.
Lemma st_put_mutex c r : stable (put_mutex c r). Proof. apply st_modify. core_same. Qed.
Lemma st_put_cond c r : stable (put_cond c r). Proof. apply st_modify. core_same. Qed.
Lemma st_put_rw c r : stable (put_rw c r). Proof. apply st_modify. core_same. Qed.
Lemma st_now : stable nb_now_ms. Proof. apply st_gets. Qed.
Lemma st_rounds : stable coro_rounds. Proof. apply st_gets. Qed.
Lemma st_rq_push c : stable (nb_rq_push c). Proof. apply st_push_queue. Qed.
#[local] Hint Resolve st_push_queue st_queue_head st_timers_head st_add_timer st_remove st_coro st_mutex st_cond st_rwl
  st_put_mutex st_put_cond st_put_rw st_now st_rounds st_rq_push : stable.

Lemma st_sleep ms : stable (nb_sleep_ms ms).
Proof. unfold nb_sleep_ms. st_auto. Qed.
Lemma st_make_runnable c : stable (make_runnable c).
Proof. unfold make_runnable. st_auto. Qed.
Lemma st_nb_timer_add c t : stable (nb_timer_add c t).
Proof. unfold nb_timer_add. st_auto. Qed.
#[local] Hint Resolve st_sleep st_make_runnable st_nb_timer_add : stable.
Lemma st_timer_pop : stable (on_links l_timer_pop).
Proof. apply st_on. apply LS_timer_pop. Qed.
#[local] Hint Resolve st_timer_pop : stable.
Lemma st_expire_from f : forall now n, stable (timers_expire_from f now n).
Proof. induction f; intros; cbn [timers_expire_from]; st_auto. Qed.
#[local] Hint Resolve st_expire_from : stable.
Lemma st_expire now : stable (nb_timers_expire now).
Proof. unfold nb_timers_expire. st_auto. Qed.
Lemma st_all_runnable l : stable (all_runnable l).
Proof. induction l; cbn [all_runnable]; st_auto. Qed.
#[local] Hint Resolve st_expire st_all_runnable : stable.
Lemma st_wake_all p : stable (wake_all p).
Proof. unfold wake_all. apply st_bind; [apply st_of; intros a x a'; apply LS_wake|]. intros. st_auto. Qed.
Lemma st_wake_one p : p <> PRun -> stable (wake_one p).
Proof. intros Hp. apply st_bind; [by apply st_pop_queue|]. intros. st_auto. Qed.
#[local] Hint Resolve st_wake_all : stable.
#[local] Hint Extern 1 (stable (wake_one _)) => apply st_wake_one; discriminate : stable.
#[local] Hint Extern 1 (stable (pop_queue _)) => apply st_pop_queue; discriminate : stable.

Lemma st_fiber_ended : stable nb_fiber_ended.
Proof. unfold nb_fiber_ended. st_auto. Qed.
Lemma st_wake_joiners c : stable (nb_wake_joiners c).
Proof. unfold nb_wake_joiners. st_auto. Qed.
Lemma st_release m : stable (nurl__bare_mutex_release m).
Proof. unfold nurl__bare_mutex_release. st_auto. Qed.

Lemma st_coro_free c : stable (nb_coro_free c).
Proof.
  unfold nb_coro_free. apply st_bind; [apply st_deref|]. intros _. apply st_bind; [apply st_on; apply LS_free|].
  intros _. apply st_modify. intros k. split; [done|]. intros x r _. cbn. intros [_ Hx]%lookup_delete_Some. eauto.
Qed.

(** A new coroutine has a number nobody had. *)
Lemma st_coro_new mem j o f : stable (nb_coro_new mem j o f).
Proof.
  unfold nb_coro_new. destruct (negb mem); [apply st_ret|]. intros [k a] y s'.
  unfold mbind, M_bind, gets, on_links, put_coro, modify, mret, M_ret. cbn.
  destruct (a_alloc (nb_next_id k) a) as [a'|] eqn:E; [|done]. intros [= <- <-].
  transitivity (k, a'); [by eapply stable_lists, LS_alloc|]. apply stable_core. split; [cbn; lia|].
  intros c r' Hc. cbn. rewrite lookup_insert_ne by lia. eauto.
Qed.
#[local] Hint Resolve st_fiber_ended st_wake_joiners st_release st_coro_free st_coro_new : stable.

Lemma st_after_switch c : stable (after_switch c).
Proof. unfold after_switch. st_auto. Qed.
#[local] Hint Resolve st_after_switch : stable.
Lemma st_park k : stable (nb_park k).
Proof. unfold nb_park. st_auto. Qed.
#[local] Hint Resolve st_park : stable.
Lemma st_coro_mutex_lock c m : stable (coro_mutex_lock c m).
Proof. unfold coro_mutex_lock. st_auto. Qed.
Lemma st_rw_me : stable nb_rw_me.
Proof. unfold nb_rw_me. st_auto. Qed.
Lemma st_rw_find me l : stable (nb_rw_find me l).
Proof. unfold nb_rw_find. st_auto. Qed.
Lemma st_rw_add me l : stable (nb_rw_add me l).
Proof. unfold nb_rw_add. st_auto. Qed.
Lemma st_rw_drop me k : stable (nb_rw_drop me k).
Proof. unfold nb_rw_drop. st_auto. Qed.
Lemma st_rw_count me i d : stable (rw_count me i d).
Proof.
  intros [k a] y s'. unfold rw_count, coro, deref, put_coro, modify, mbind, M_bind, mret, M_ret. cbn.
  destruct (nb_coros k !! me) as [r|] eqn:Hr; [|done]. destruct (c_rwh r !! i) as [[l n]|]; [|done].
  intros [= <- <-]. by eapply stable_core, permits_put.
Qed.
#[local] Hint Resolve st_coro_mutex_lock st_rw_me st_rw_find st_rw_add st_rw_drop st_rw_count : stable.
Lemma st_grant_from f : forall l, stable (rw_grant_from f l).
Proof. induction f; intros; cbn [rw_grant_from]; st_auto. Qed.
#[local] Hint Resolve st_grant_from : stable.
Lemma st_grant l : stable (nb_rw_grant l).
Proof. unfold nb_rw_grant. st_auto. Qed.
Lemma st_rw_locked me l w : stable (rw_locked me l w).
Proof. unfold rw_locked. st_auto. Qed.
#[local] Hint Resolve st_grant st_rw_locked : stable.
Lemma st_coro_rw_wait c l w : stable (coro_rw_wait c l w).
Proof. unfold coro_rw_wait. st_auto. Qed.
Lemma st_stack_on p c : stable (on_links (l_stack p c)).
Proof. apply st_on. apply LS_stack. Qed.
#[local] Hint Resolve st_coro_rw_wait st_stack_on : stable.
Lemma st_coro_run c : stable (coro_run c).
Proof. unfold coro_run. st_auto. Qed.
#[local] Hint Resolve st_coro_run : stable.
Lemma st_swap c : stable (nb_swap_to_coro c).
Proof. unfold nb_swap_to_coro. st_auto. Qed.
Lemma st_entry_end c : stable (nb_entry_end c).
Proof. unfold nb_entry_end. apply st_bind; [apply st_upd; intros r; by destruct (c_owns_env r)|]. intros _. st_auto. Qed.
Lemma st_main_drive k : stable (main_drive k).
Proof. unfold main_drive. st_auto. Qed.
Lemma st_add_waiters k d : stable (add_waiters k d).
Proof. unfold add_waiters. st_auto. Qed.
Lemma st_rw_failed : stable nb_rw_failed.
Proof. unfold nb_rw_failed. st_auto. Qed.
Lemma st_runtime_init : stable nurl_runtime_init.
Proof. unfold nurl_runtime_init. st_auto. Qed.
Lemma st_drive_end k : stable (drive_end k).
Proof. unfold drive_end. st_auto. Qed.
#[local] Hint Resolve st_swap st_entry_end st_main_drive st_add_waiters st_rw_failed st_runtime_init st_drive_end : stable.

Lemma st_mutex_lock m : stable (pthread_mutex_lock m).
Proof. unfold pthread_mutex_lock. st_auto. Qed.
Lemma st_wake_cond f : forall k, stable (cond_wake_all f k).
Proof. induction f; intros; cbn [cond_wake_all]; st_auto. Qed.
#[local] Hint Resolve st_mutex_lock st_wake_cond : stable.
Lemma st_cond_wait k m : stable (pthread_cond_wait k m).
Proof. unfold pthread_cond_wait. st_auto. Qed.
Lemma st_rw_wait l w : stable (nb_rw_wait l w).
Proof. unfold nb_rw_wait. st_auto. Qed.
Lemma st_start_coro c b : stable (start_coro c b).
Proof. unfold start_coro. st_auto. Qed.
#[local] Hint Resolve st_cond_wait st_rw_wait st_start_coro : stable.
Lemma st_spawn a b : stable (spawn_fiber a b).
Proof. unfold spawn_fiber. st_auto. Qed.
Lemma st_nb_join c : stable (nb_join c).
Proof. unfold nb_join. st_auto. Qed.
Lemma st_nb_detach c : stable (nb_detach c).
Proof.
  intros [k a] y s' Hx. unfold nb_detach, mbind, M_bind, coro, deref in Hx. cbn in Hx.
  destruct (nb_coros k !! c) as [r|] eqn:Hr; [|done]. destruct (c_finished r); [by apply (st_coro_free c _ y)|].
  injection Hx as <- <-. by eapply stable_core, permits_put.
Qed.
Lemma st_unpark c : stable (nb_unpark c false).
Proof.
  intros [k a] y s' Hx. unfold nb_unpark, mbind, M_bind, coro, deref in Hx. cbn in Hx.
  destruct (nb_coros k !! c) as [r|] eqn:Hr; [|done]. destruct (negb _).
  - injection Hx as <- <-. by eapply stable_core, permits_put.
  - assert (Hw : stable (nb_timer_remove c;; upd_coro c (fun r => set_c_state NB_RUNNABLE (set_c_last_park_result 1 r));; nb_rq_push c))
      by st_auto.
    by apply (Hw (k, a) y).
Qed.
#[local] Hint Resolve st_spawn st_nb_join st_nb_detach st_unpark : stable.

(** ** Calls *)

Lemma st_forget {A} (m : LM A) : stable m -> stable (forget m).
Proof. intros. unfold forget. st_auto. Qed.
#[local] Hint Resolve st_forget : stable.

Lemma st_make_on p : stable (on_links (l_make p)).
Proof. apply st_on. apply LS_make. Qed.
#[local] Hint Resolve st_make_on : stable.

(** The calls that may take a step of the scheduler, consume a permit, or put a
    waiter at the front. *)
Definition steps (x : call) : bool := match x with CYield | CSleepMs _ | CPoll => true | _ => false end.
Definition parks_call (x : call) : bool := match x with CPark _ | CParkMs _ _ | CBareParkMs _ => true | _ => false end.
Definition admits (x : call) : bool := match x with CUnparkAdmit _ => true | _ => false end.

Lemma st_step_bounded b : stable nb_rq_pop -> stable (nb_step_bounded b).
Proof. intros Hpop. unfold nb_step_bounded. st_auto. Qed.

Lemma st_exec x :
  (steps x = true -> stable nb_rq_pop) -> (parks_call x = true -> forall c m, stable (take_permit c m)) ->
  (admits x = true -> forall c, stable (nb_unpark c true)) -> stable (exec x).
Proof.
  intros Hs Hp Ha.
  assert (Hstep : steps x = true -> stable nurl__bare_step) by (intros H; by apply st_step_bounded, Hs).
  destruct x; cbn [exec]; cbn in Hstep, Hp, Ha; try specialize (Hstep eq_refl); try specialize (Hp eq_refl); try specialize (Ha eq_refl);
    try apply st_forget;
    unfold pthread_mutex_init, pthread_mutex_trylock, pthread_mutex_unlock, pthread_mutex_destroy,
      pthread_cond_init, nurl_cond_wait_ms, pthread_cond_signal, pthread_cond_broadcast, pthread_cond_destroy,
      nurl_rwlock_init, nurl_rwlock_rdlock, nurl_rwlock_rdunlock, nurl_rwlock_wrlock, nurl_rwlock_wrunlock,
      nurl_rwlock_tryrdlock, nurl_rwlock_trywrlock, pthread_create, nurl_pthread_create_owned,
      nurl_fiber_spawn, nurl_fiber_spawn_owned, nurl_fiber_spawn_joinable, nurl_fiber_join, nurl_fiber_detach,
      pthread_exit, nurl_runtime_run, nurl_fiber_park_with_mutex, nurl_fiber_park_with_mutex_ms,
      nurl_bare_park_ms, nurl_fiber_wake, nurl_fiber_unpark, nurl_bare_unpark_admit, nurl_fiber_sleep_ms, nurl_fiber_yield,
      nurl_bare_poll; st_auto.
Qed.

(** The rounds of the main context's loop. *)
Lemma st_main_iterate : stable nb_rq_pop -> stable main_iterate.
Proof.
  intros Hpop. assert (forall b, stable (nb_step_bounded b)) by (intros b; by apply st_step_bounded).
  unfold main_iterate, drive_step, timed_step, nurl__bare_step. st_auto.
Qed.

Lemma st_event e :
  (match e with ECall x => steps x = true | EMain => True | _ => False end -> stable nb_rq_pop) ->
  (match e with ECall x => parks_call x = true | _ => False end -> forall c m, stable (take_permit c m)) ->
  (match e with ECall x => admits x = true | _ => False end -> forall c, stable (nb_unpark c true)) ->
  stable (exec_event e).
Proof.
  intros H1 H2 H3. destruct e as [x| | |ms]; cbn [exec_event].
  - by apply st_exec.
  - st_auto.
  - by apply st_main_iterate, H1.
  - st_auto.
Qed.
End stable.

(** ** Permits *)

#[export] Instance permits_stable : Stable (fun s s' => permits_kept s.1 s'.1).
Proof.
  split.
  - split; [intros s; cbn; reflexivity|]. intros s1 s2 s3 H1 H2. by etransitivity.
  - by intros k k' a.
  - intros k a a' _. cbn. reflexivity.
Qed.

(** ** The run queue *)

Definition run_of (a : alinks) : list nat := default [] (al_list a !! PRun).

(** At most [d] coroutines have been taken from the head, others joined at the end. *)
Definition fifo (d : nat) (s s' : state) : Prop :=
  exists i new, (i <= d)%nat /\ run_of s'.2 = drop i (run_of s.2) ++ new.

Lemma fifo_trans d1 d2 s1 s2 s3 : fifo d1 s1 s2 -> fifo d2 s2 s3 -> fifo (d1 + d2) s1 s3.
Proof.
  intros (i & n1 & Hi & E1) (j & n2 & Hj & E2). exists (i + j)%nat, (drop (j - length (drop i (run_of s1.2))) n1 ++ n2).
  split; [lia|]. by rewrite E2, E1, drop_app, drop_drop, app_assoc.
Qed.

Lemma fifo_same d s s' : run_of s'.2 = run_of s.2 -> fifo d s s'.
Proof. intros E. exists 0%nat, []. rewrite app_nil_r. split; [lia|done]. Qed.

Lemma fifo_push s s' new : run_of s'.2 = run_of s.2 ++ new -> fifo 0 s s'.
Proof. intros E. by exists 0%nat, new. Qed.

Lemma run_of_ne (ls : gmap place (list nat)) p l tm pl : p <> PRun ->
  run_of (MkALinks (<[p := l]> ls) tm pl) = default [] (ls !! PRun).
Proof. intros Hp. unfold run_of. cbn. by rewrite lookup_insert_ne. Qed.

Lemma run_of_eq (ls : gmap place (list nat)) l tm pl : run_of (MkALinks (<[PRun := l]> ls) tm pl) = l.
Proof. unfold run_of. cbn. by rewrite lookup_insert_eq. Qed.

Ltac known_list := match goal with E : al_list ?a !! ?p = Some _ |- context [al_list ?a !! ?p] => by rewrite E end.

Lemma fifo_lists k a a' : list_step a a' -> fifo 0 (k, a) (k, a').
Proof.
  destruct 1 as [p c a a' E|p x a a' Hp E|p c a a' E|p l a a' E|w c t a a' E|c a a' E|a a' E|p a a' E|c a a' E|c a a' E].
  - unfold a_push in E. simplify_option_eq. destruct (decide (p = PRun)) as [->|].
    + apply (fifo_push _ _ [c]). cbn [snd]. rewrite run_of_eq. unfold run_of. known_list.
    + apply fifo_same. by apply run_of_ne.
  - unfold a_pop in E. apply fifo_same. destruct (al_list a !! p) as [[|c l]|]; simplify_option_eq; [done|]. by apply run_of_ne.
  - unfold a_stack, a_cons in E. simplify_option_eq. apply fifo_same, run_of_ne. by intros ->.
  - unfold a_wake in E. simplify_option_eq. apply (fifo_push _ _ l). cbn [snd]. rewrite run_of_eq. unfold run_of. known_list.
  - unfold a_timer_add in E. simplify_option_eq. by apply fifo_same.
  - unfold a_timer_remove in E. simplify_option_eq. by apply fifo_same.
  - unfold a_timer_pop in E. destruct (al_timers a); simplify_option_eq. by apply fifo_same.
  - unfold a_make in E. case_guard as Hl; [|by case_guard]. case_guard; [|done]. cbn in E. apply (inj Some) in E as <-.
    destruct (decide (p = PRun)) as [->|].
    + apply fifo_same. cbn [snd]. rewrite run_of_eq. unfold run_of. by destruct Hl as [-> | ->].
    + apply fifo_same. by apply run_of_ne.
  - unfold a_alloc in E. simplify_option_eq. apply fifo_same. by apply run_of_ne.
  - unfold a_free in E. simplify_option_eq. apply fifo_same. unfold run_of. cbn. by rewrite lookup_delete_ne.
Qed.

#[export] Instance fifo_stable : Stable (fifo 0).
Proof.
  split.
  - split; [intros s; by apply fifo_same|]. intros s1 s2 s3 H1 H2. exact (fifo_trans 0 0 _ _ _ H1 H2).
  - intros k k' a _. by apply fifo_same.
  - exact fifo_lists.
Qed.
