(* ===== verification/SchedTurn.v ===== *)
(** Who runs next, and what becomes of an unpark that comes early. *)

From S2P Require Import Prelude SchedLinks Sched SchedSim SchedInv SchedMoves SchedSpawn SchedCalls SchedPark SchedSafe SchedThms SchedStable.

(** ** First come, first served *)

Definition fifo_m (d : nat) {A} (m : LM A) : Prop := forall s x s', m s = Some (x, s') -> fifo d s s'.

Lemma fifo_le d d' s s' : (d <= d')%nat -> fifo d s s' -> fifo d' s s'.
Proof. intros Hd (i & new & Hi & E). exists i, new. split; [lia|done]. Qed.

Lemma fm_stable {A} (m : LM A) : stable (fifo 0) m -> fifo_m 0 m.
Proof. done. Qed.

Lemma fm_bind {A B} d1 d2 (m : LM A) (f : A -> LM B) : fifo_m d1 m -> (forall x, fifo_m d2 (f x)) -> fifo_m (d1 + d2) (m ≫= f).
Proof.
  intros Hm Hf s y s' Hx. unfold mbind, M_bind in Hx. destruct (m s) as [[x s1]|] eqn:E; [|done].
  eapply fifo_trans; [by apply (Hm s x)|by apply (Hf x s1 y)].
Qed.

Lemma fm_le {A} d d' (m : LM A) : (d <= d')%nat -> fifo_m d m -> fifo_m d' m.
Proof. intros Hd Hm s x s' Hx. eapply fifo_le; [exact Hd|]. by eapply Hm. Qed.

(** A part that takes nobody, then one that may take one. *)
Lemma fm_then {A B} (m : LM A) (f : A -> LM B) : stable (fifo 0) m -> (forall x, fifo_m 1 (f x)) -> fifo_m 1 (m ≫= f).
Proof. intros Hm Hf. exact (fm_bind 0 1 m f Hm Hf). Qed.

Lemma fm_last {A B} (m : LM A) (f : A -> LM B) : fifo_m 1 m -> (forall x, stable (fifo 0) (f x)) -> fifo_m 1 (m ≫= f).
Proof. intros Hm Hf. exact (fm_bind 1 0 m f Hm Hf). Qed.

Lemma fm_pop : fifo_m 1 nb_rq_pop.
Proof.
  intros [k a] x s' Hx. unfold nb_rq_pop, pop_queue, of_links in Hx. cbn in Hx. unfold a_pop in Hx.
  destruct (al_list a !! PRun) as [l|] eqn:Hl; [|done]. cbn in Hx. destruct l as [|c l]; cbn in Hx.
  - injection Hx as <- <-. by apply fifo_same.
  - injection Hx as <- <-. exists 1%nat, []. split; [done|]. cbn [snd]. rewrite run_of_eq. unfold run_of. by rewrite Hl, app_nil_r.
Qed.

(** What follows once the coroutine is chosen. *)
Definition run_coro (c : nat) : LM Z :=
  upd_coro c (set_c_state NB_RUNNING);; modify (set_nb_current (Some c));; nb_swap_to_coro c;; mret 1.

Lemma st_run_coro R `{!Stable R} c : stable R (run_coro c).
Proof.
  unfold run_coro. apply (st_bind R); [by apply (st_upd R)|]. intros _. apply (st_bind R).
  - apply (st_modify R). intros k. by apply permits_same.
  - intros _. apply (st_bind R); [apply (st_swap R)|]. intros _. apply (st_ret R).
Qed.

Lemma fm_step b : fifo_m 1 (nb_step_bounded b).
Proof.
  unfold nb_step_bounded. apply fm_then; [apply (st_timers_head _)|]. intros timers. apply fm_then.
  - destruct timers as [t|]; [|apply (st_ret _)]. apply (st_bind _); [apply (st_now _)|]. intros now.
    apply (st_bind _); [apply (st_coro _)|]. intros r. destruct (_ <=? _); [|apply (st_ret _)].
    apply (st_bind _); [apply (st_expire _)|]. intros n. apply (st_ret _).
  - intros []; [apply (fm_le 0); [lia|]; apply fm_stable, (st_ret _)|].
    apply fm_last; [apply fm_pop|]. intros [c|]; [apply (st_run_coro _)|]. destruct timers as [t|]; [|apply (st_ret _)].
    apply (st_bind _); [apply (st_now _)|]. intros now. apply (st_bind _); [apply (st_coro _)|]. intros r.
    apply (st_bind _); [destruct (_ <? _); [apply (st_sleep _)|apply (st_ret _)]|]. intros _.
    apply (st_bind _); [apply (st_now _)|]. intros now2. apply (st_bind _); [apply (st_expire _)|]. intros n'. apply (st_ret _).
Qed.

Lemma fifo_put_coro c r : stable (fifo 0) (put_coro c r).
Proof. intros [k a] x s' [= <- <-]. by apply fifo_same. Qed.

Lemma fifo_take_permit c m : stable (fifo 0) (take_permit c m).
Proof.
  unfold take_permit. apply (st_bind _); [apply (st_coro _)|]. intros r. destruct (c_wake_pending r); [|apply (st_ret _)].
  apply (st_bind _); [apply fifo_put_coro|]. intros _. apply (st_bind _).
  - destruct m; [apply (st_release _)|apply (st_ret _)].
  - intros _. apply (st_ret _).
Qed.

Lemma fm_main : fifo_m 1 main_iterate.
Proof.
  assert (Hdrive : fifo_m 1 drive_step).
  { apply fm_last; [apply fm_step|]. intros n. destruct (_ =? _); [apply (st_drive_end _)|apply (st_ret _)]. }
  assert (Htimed : forall d, fifo_m 1 (timed_step d)).
  { intros d. apply fm_then; [apply (st_now _)|]. intros now. apply fm_last; [apply fm_step|].
    intros n. destruct (_ =? _); [|apply (st_ret _)]. apply (st_bind _); [apply (st_now _)|]. intros now2. apply (st_sleep _). }
  assert (Hwait : forall c m, stable (fifo 0) (add_waiters c (-1);; pthread_mutex_lock m)).
  { intros c m. apply (st_bind _); [apply (st_add_waiters _)|]. intros _. apply (st_mutex_lock _). }
  assert (Hend : forall (m : LM unit), stable (fifo 0) m -> fifo_m 1 (drive_end MUser;; m)).
  { intros m Hm. apply (fm_le 0); [lia|]. apply (st_bind _); [apply (st_drive_end _)|done]. }
  assert (Hset : stable (fifo 0) (modify (set_nb_main MUser) : LM unit)).
  { apply (st_modify _). intros k. by apply permits_same. }
  apply fm_then; [apply (st_gets _)|]. intros [|m|c seq m|c seq m dl|l w|t| |dl|].
  - apply (fm_le 0); [lia|]. apply (st_ret _).
  - apply fm_then; [apply (st_mutex _)|]. intros []; [done|]. apply Hend, (st_put_mutex _).
  - apply fm_then; [apply (st_cond _)|]. intros r. destruct (_ =? _); [done|]. by apply Hend.
  - apply fm_then; [apply (st_cond _)|]. intros r. apply fm_then; [apply (st_now _)|]. intros now.
    destruct (_ || _); [|done]. apply (fm_le 0); [lia|]. by apply (st_bind _).
  - apply fm_then; [apply (st_coro _)|]. intros r. destruct (_ =? _); [|done]. apply Hend, (st_rw_locked _).
  - apply fm_then; [apply (st_coro _)|]. intros r. destruct (c_finished r); [|done]. apply Hend, (st_coro_free _).
  - apply fm_then; [apply (st_gets _)|]. intros n. destruct (_ <=? _); [|done].
    apply (fm_le 0); [lia|]. apply (st_drive_end _).
  - apply fm_then; [apply (st_now _)|]. intros now. destruct (_ <=? _); [|done]. by apply (fm_le 0); [lia|].
  - apply (fm_le 0); [lia|]. apply (st_ret _).
Qed.

Lemma fm_yield : fifo_m 1 nurl_fiber_yield.
Proof.
  apply fm_then; [apply (st_gets _)|]. intros [c|].
  - apply (fm_le 0); [lia|]. apply (st_bind _); [by apply (st_upd _)|]. intros _. apply (st_after_switch _).
  - apply fm_last; [apply fm_step|]. intros n. apply (st_ret _).
Qed.

(** Every event but an admission takes at most one coroutine from the head. *)
Definition no_admission (e : event) : bool := match e with ECall x => negb (admits x) | _ => true end.

Lemma fm_event e : no_admission e = true -> fifo_m 1 (exec_event e).
Proof.
  intros Ha. destruct e as [x| | |ms]; [|apply (fm_le 0); [lia|]|apply fm_main|apply (fm_le 0); [lia|]].
  - destruct (steps x) eqn:Hs.
    + destruct x; try done; cbn [exec_event exec].
      * apply fm_yield.
      * unfold nurl_fiber_sleep_ms. destruct (_ <=? _); [apply fm_yield|]. apply (fm_le 0); [lia|].
        apply (st_bind _); [apply (st_now _)|]. intros now. apply (st_bind _); [apply (st_gets _)|]. intros [c|].
        -- apply (st_bind _); [apply (st_nb_timer_add _)|]. intros _. apply (st_park _).
        -- apply (st_modify _). intros k. by apply permits_same.
      * apply fm_last; [|intros n; apply (st_ret _)]. apply fm_then; [apply (st_gets _)|]. intros [c|].
        -- apply (fm_le 0); [lia|]. apply (st_ret _).
        -- apply fm_then; [apply (st_gets _)|]. intros i. apply fm_then; [destruct i; [apply (st_ret _)|apply (st_runtime_init _)]|].
           intros _. apply fm_last; [apply fm_step|]. intros n. apply (st_ret _).
    + apply (fm_le 0); [lia|]. apply (st_exec (fifo 0)); [congruence|intros _; apply fifo_take_permit|].
      cbn in Ha. intros Hx. by rewrite Hx in Ha.
  - apply (st_event (fifo 0) EEnd); done.
  - apply (st_event (fifo 0) (ETick ms)); done.
Qed.

(** The main context waits, in any of the seven calls that drive the scheduler,
    what it waits for has not happened and its deadline has not come. *)
Definition blocked_now (k : core) : bool :=
  match nb_main k with
  | MMutexLock m => match nb_mutexes k !! m with Some b => b | None => false end
  | MCondWait c seq _ => match nb_conds k !! c with Some r => k_seq r =? seq | None => false end
  | MRwWait _ _ => match nb_coros k !! rw_main_node with Some r => negb (c_rw_want r =? 0) | None => false end
  | MJoin t => match nb_coros k !! t with Some r => negb (c_finished r) | None => false end
  | MRun => negb (nb_live k <=? 0)
  | MCondWaitMs c seq _ dl =>
      match nb_conds k !! c with Some r => (k_seq r =? seq) && negb (dl <=? nb_clock k) | None => false end
  | MSleep dl => negb (dl <=? nb_clock k)
  | MUser | MAborted => false
  end.

(** The first deadline has come. *)
Definition due_now (k : core) (a : alinks) : bool :=
  match head (al_timers a) with Some t => wake_time (nb_coros k) t <=? nb_clock k | None => false end.

(** A round that runs a coroutine: the main context waits, no timer is due,
    somebody is runnable. *)
Definition serves (k : core) (a : alinks) (e : event) : bool :=
  match e with
  | EMain => bool_decide (nb_current k = None) && blocked_now k && negb (due_now k a) && match run_of a with [] => false | _ => true end
  | _ => false
  end.

(** A waiting round is a step of the scheduler, and something that takes nobody. *)
Lemma blocked_round k a :
  blocked_now k = true ->
  exists b (rest : Z -> LM unit), main_iterate (k, a) = (nb_step_bounded b ≫= rest) (k, a) /\
    forall n, stable (fifo 0) (rest n).
Proof.
  assert (Hdrive : exists b (rest : Z -> LM unit), drive_step (k, a) = (nb_step_bounded b ≫= rest) (k, a) /\
    forall n, stable (fifo 0) (rest n)).
  { exists (-1), (fun n => if n =? 0 then drive_end MAborted else mret tt). split; [reflexivity|].
    intros n. destruct (_ =? _); [apply (st_drive_end _)|apply (st_ret _)]. }
  assert (Htimed : forall dl, exists b (rest : Z -> LM unit), timed_step dl (k, a) = (nb_step_bounded b ≫= rest) (k, a) /\
    forall n, stable (fifo 0) (rest n)).
  { intros dl. exists (dl - nb_clock k), (fun n => if n =? 0 then now ← nb_now_ms; nb_sleep_ms (dl - now) else mret tt).
    split; [reflexivity|]. intros n. destruct (_ =? _); [|apply (st_ret _)].
    apply (st_bind _); [apply (st_now _)|]. intros now. apply (st_sleep _). }
  unfold blocked_now, main_iterate, mbind at 1, M_bind at 1, gets at 1. cbn [fst].
  destruct (nb_main k); try done; unfold mutex, cond, coro, deref, nb_now_ms, gets, mbind at 1, M_bind at 1; cbn [fst snd].
  - by destruct (nb_mutexes k !! m) as [[]|].
  - destruct (nb_conds k !! k0) as [r|]; [|done]. by intros ->.
  - destruct (nb_conds k !! k0) as [r|]; [|done]. intros [Hseq Hdl%negb_true_iff]%andb_prop.
    destruct (Htimed deadline) as (b & rest & E & Hrest). exists b, rest. split; [|done]. rewrite <- E.
    unfold mbind at 1, M_bind at 1. cbn [fst]. by rewrite Hseq, Hdl.
  - destruct (nb_coros k !! rw_main_node) as [r|]; [|done]. by intros ->%negb_true_iff.
  - destruct (nb_coros k !! c) as [r|]; [|done]. by intros ->%negb_true_iff.
  - by intros ->%negb_true_iff.
  - intros ->%negb_true_iff. apply Htimed.
Qed.

Lemma step_serves b k a c q :
  s_inv None k a -> due_now k a = false -> al_list a !! PRun = Some (c :: q) ->
  nb_step_bounded b (k, a) = run_coro c (k, MkALinks (<[PRun := q]> (al_list a)) (al_timers a) (<[c := None]> (al_place a))).
Proof.
  intros I Hdue Hrun. unfold nb_step_bounded, timers_head, see_links. unfold mbind at 1, M_bind at 1. cbn [fst snd l_timer_head].
  unfold due_now in Hdue. change (l_timer_head a) with (head (al_timers a)).
  assert (Hpop : nb_rq_pop (k, a) = Some (Some c, (k, MkALinks (<[PRun := q]> (al_list a)) (al_timers a) (<[c := None]> (al_place a))))).
  { unfold nb_rq_pop, pop_queue, of_links. cbn. unfold a_pop. by rewrite Hrun. }
  destruct (head (al_timers a)) as [t|] eqn:Hh.
  - destruct (timed_status k a t I) as (_ & r & Hr & _).
    { destruct (al_timers a); [done|]. injection Hh as ->. constructor. }
    unfold wake_time in Hdue. rewrite Hr in Hdue.
    unfold mbind, M_bind, nb_now_ms, gets, coro, deref. cbn [fst snd]. rewrite Hr, Hdue. unfold mret at 1, M_ret at 1. cbv beta iota.
    by rewrite Hpop.
  - unfold mbind at 1, M_bind at 1, mret at 1, M_ret at 1. cbv beta iota. unfold mbind at 1, M_bind at 1. by rewrite Hpop.
Qed.

Lemma round_serves e k a k' a' c q :
  s_inv None k a -> serves k a e = true -> run_of a = c :: q -> exec_event e (k, a) = Some (tt, (k', a')) ->
  exists new, run_of a' = q ++ new.
Proof.
  intros I Hs Hrun Hx. destruct e; try done. cbn [serves exec_event] in *.
  rewrite !andb_true_iff, negb_true_iff in Hs. destruct Hs as [[[_ Hb] Hdue] _].
  destruct (blocked_round k a Hb) as (b & rest & Hround & Hrest). rewrite Hround in Hx. unfold run_of in Hrun.
  destruct (al_list a !! PRun) as [l|] eqn:Hl; [|done]. cbn in Hrun. subst l.
  unfold mbind, M_bind in Hx. rewrite (step_serves b k a c q I Hdue Hl) in Hx.
  destruct (run_coro c _) as [[n s1]|] eqn:E; [|done].
  pose proof (st_run_coro (fifo 0) c _ _ _ E) as F1.
  pose proof (Hrest n s1 tt _ Hx) as F2.
  destruct (fifo_trans 0 0 _ _ _ F1 F2) as (i & new & Hi & E2). exists new. cbn [snd] in E2. rewrite run_of_eq in E2.
  assert (i = 0)%nat as -> by lia. exact E2.
Qed.

(** How many rounds of a run served somebody. *)
Fixpoint served (es : list event) (k : core) (a : alinks) : nat :=
  match es with
  | [] => 0
  | e :: es' =>
      (if serves k a e then 1 else 0) +
      match exec_event (L := alinks) e (k, a) with Some (_, (k', a')) => served es' k' a' | None => 0 end
  end.

(** [c] is taken from the head of the run queue during [es]. *)
Definition gets_turn (c : nat) (es : list event) (k : core) (a : alinks) : Prop :=
  exists es1 e es2 k1 a1 q k2 a2 new, es = es1 ++ e :: es2 /\ run_events es1 (k, a) = Some (tt, (k1, a1)) /\
    run_of a1 = c :: q /\ exec_event e (k1, a1) = Some (tt, (k2, a2)) /\ run_of a2 = q ++ new.

Lemma turn_later c e es k a k' a' : exec_event e (k, a) = Some (tt, (k', a')) -> gets_turn c es k' a' -> gets_turn c (e :: es) k a.
Proof.
  intros Hx (es1 & e1 & es2 & k1 & a1 & q & k2 & a2 & new & -> & Hr & H1 & H2 & H3).
  exists (e :: es1), e1, es2, k1, a1, q, k2, a2, new. split_and!; try done.
  cbn [run_events]. unfold mbind, M_bind. by rewrite Hx.
Qed.

Lemma turn_comes es : forall k a c q1 q2,
  s_inv None k a -> allowed_run es k a = true -> forallb no_admission es = true ->
  run_of a = q1 ++ c :: q2 -> (length q1 < served es k a)%nat -> gets_turn c es k a.
Proof.
  induction es as [|e es IH]; intros k a c q1 q2 I Ha Hn Hrun Hlen; [cbn in Hlen; lia|].
  cbn [allowed_run forallb served] in *. apply andb_prop in Ha as [Ha Hes]. apply andb_prop in Hn as [Hn Hns].
  destruct (wp_event e k a I Ha) as ([] & k' & a' & Hx & I'). rewrite Hx in Hes, Hlen.
  (* the head is taken, or nobody is *)
  assert (Hcase : (exists x l new, run_of a = x :: l /\ run_of a' = l ++ new) \/
    (serves k a e = false /\ exists new, run_of a' = run_of a ++ new)).
  { destruct (fm_event e Hn _ _ _ Hx) as (i & new & Hi & E). cbn [snd] in E.
    destruct (serves k a e) eqn:Hs.
    - left. destruct (run_of a) as [|x l] eqn:Hl; [by destruct q1|].
      destruct (round_serves e k a k' a' x l I Hs Hl Hx) as [new' E']. by exists x, l, new'.
    - destruct i as [|[|i]]; [right; split; [done|by exists new]| |lia].
      destruct (run_of a) as [|x l] eqn:Hl; [by destruct q1|]. left. by exists x, l, new. }
  destruct Hcase as [(x & l & new & Hl & E)|(Hs & new & E)].
  - rewrite Hl in Hrun. destruct q1 as [|y q1]; injection Hrun as -> ->.
    + exists [], e, es, k, a, q2, k', a', new. by split_and!.
    + apply (turn_later c e es k a k' a' Hx). apply (IH k' a' c q1 (q2 ++ new)); try done; [by rewrite E, <- app_assoc|].
      cbn [length] in Hlen. destruct (serves k a e); lia.
  - apply (turn_later c e es k a k' a' Hx). apply (IH k' a' c q1 (q2 ++ new)); try done.
    + by rewrite E, Hrun, <- app_assoc.
    + by rewrite Hs in Hlen.
Qed.

(** C7: for clients within the protocol of [sched_safe], a runnable coroutine gets
    its turn: with n coroutines before it in the run
    queue it is taken by the time n + 1 rounds of the waiting main context have
    found no timer due, in whatever calls the main context waits (a mutex, a
    condition, a lock, a join, the run of everything, a sleep or a wait with a
    deadline that has not come), whatever the coroutines that run meanwhile do,
    short of admitting a waiter ahead of the queue. *)
Theorem runnable_gets_its_turn es0 k a es c q1 q2 :
  reached es0 k a -> allowed_run es k a = true -> forallb no_admission es = true ->
  run_of a = q1 ++ c :: q2 -> (length q1 < served es k a)%nat -> gets_turn c es k a.
Proof. intros I%reached_inv. by apply turn_comes. Qed.

Definition sched_turns : list event := [EMain; ECall CYield; EMain; EEnd; EMain].

(** Three coroutines are ready and the main context sleeps for 50 ms. *)
Definition sched_three_asleep : list event :=
  [ECall CInit; ECall (CSpawn true); ECall (CSpawn true); ECall (CSpawn true); ECall (CSleepMs 50)].

Lemma runnable_gets_its_turn_witness : gets_turn 3 sched_turns (after sched_three_asleep).1 (after sched_three_asleep).2.
Proof.
  apply (runnable_gets_its_turn sched_three_asleep _ _ sched_turns 3 [1; 2]%nat []).
  - apply reached_after. vm_compute. reflexivity.
  - vm_compute. reflexivity.
  - vm_compute. reflexivity.
  - vm_compute. reflexivity.
  - apply Nat.ltb_lt. vm_compute. reflexivity.
Defined.

(** ** Permits *)

(** The permit of one coroutine. *)
Definition kept (c : nat) (s s' : state) : Prop :=
  (nb_next_id s.1 <= nb_next_id s'.1)%nat /\
  forall r', (c < nb_next_id s.1)%nat -> nb_coros s'.1 !! c = Some r' ->
    exists r, nb_coros s.1 !! c = Some r /\ (c_wake_pending r = true -> c_wake_pending r' = true).

#[export] Instance kept_stable c : Stable (kept c).
Proof.
  split.
  - split; [intros s; split; [lia|]; eauto|]. intros s1 s2 s3 [H1 H2] [H3 H4]. split; [lia|]. intros r3 Hc Hr3.
    destruct (H4 r3 ltac:(lia) Hr3) as (r2 & Hr2 & ?). destruct (H2 r2 Hc Hr2) as (r1 & ? & ?). eauto.
  - intros k k' a [H1 H2]. split; [done|]. cbn. eauto.
  - intros k a a' _. split; [done|]. cbn. eauto.
Qed.

Lemma kept_permit c d m : d <> c -> stable (kept c) (take_permit d m).
Proof.
  intros Hd. unfold take_permit. apply (st_bind _); [apply (st_coro _)|]. intros r. destruct (c_wake_pending r); [|apply (st_ret _)].
  apply (st_bind _).
  - intros [k a] x s' [= <- <-]. split; [done|]. cbn. intros r' _. rewrite lookup_insert_ne by done. eauto.
  - intros _. apply (st_bind _); [destruct m; [apply (st_release _)|apply (st_ret _)]|]. intros _. apply (st_ret _).
Qed.

Lemma kept_push_front c d : stable (kept c) (on_links (l_push_front d)).
Proof.
  intros [k a] x s'. unfold on_links. cbn. destruct (a_push_front d a); [|done]. intros [= <- <-]. split; [done|]. cbn. eauto.
Qed.

Lemma kept_pop c : stable (kept c) nb_rq_pop.
Proof.
  intros [k a] x s'. unfold nb_rq_pop, pop_queue, of_links. cbn. destruct (a_pop PRun a) as [[y a']|]; [|done].
  intros [= <- <-]. split; [done|]. cbn. eauto.
Qed.

Lemma kept_admit c d : stable (kept c) (nb_unpark d true).
Proof.
  intros [k a] y s' Hx. unfold nb_unpark, mbind, M_bind, coro, deref in Hx. cbn in Hx.
  destruct (nb_coros k !! d) as [r|] eqn:Hr; [|done]. destruct (negb _).
  - injection Hx as <- <-. by eapply stable_core, permits_put.
  - assert (Hw : stable (kept c) (nb_timer_remove d;;
      upd_coro d (fun r => set_c_state NB_RUNNABLE (set_c_last_park_result 1 r));; on_links (l_push_front d))).
    { apply (st_bind _); [apply (st_remove _)|]. intros _. apply (st_bind _); [by apply (st_upd _)|]. intros _. apply kept_push_front. }
    by apply (Hw (k, a) y).
Qed.

(** Another coroutine parks. *)
Lemma kept_parks x k a c y s' :
  parks_call x = true -> nb_current k <> Some c -> exec x (k, a) = Some (y, s') -> kept c (k, a) s'.
Proof.
  intros Hp Hne Hx.
  assert (Hbody : forall (body : nat -> LM unit), (forall d, d <> c -> stable (kept c) (body d)) ->
    (cur ← gets nb_current; match cur with None => mret tt | Some d => body d end) (k, a) = Some (y, s') -> kept c (k, a) s').
  { intros body Hb Hr. unfold mbind, M_bind, gets in Hr. cbn [fst] in Hr. destruct (nb_current k) as [d|] eqn:Hc.
    - apply (Hb d) in Hr; [done|congruence].
    - by apply (st_ret (kept c) tt) in Hr. }
  assert (Htimed : forall d m ms (next : LM unit), d <> c -> stable (kept c) next -> stable (kept c)
    (woken ← take_permit d m; if (woken : bool) then mret tt else upd_coro d (set_c_last_park_result 0);;
      (if 0 <=? ms then now ← nb_now_ms; nb_timer_add d (now + ms) else mret tt);; next)).
  { intros d m ms next Hd Hn. apply (st_bind _); [by apply kept_permit|]. intros []; [apply (st_ret _)|].
    apply (st_bind _); [by apply (st_upd _)|]. intros _. apply (st_bind _); [|done].
    destruct (0 <=? ms); [|apply (st_ret _)]. apply (st_bind _); [apply (st_now _)|]. intros now. apply (st_nb_timer_add _). }
  assert (Hpend : forall d m K, stable (kept c) (upd_coro d (set_c_pending_unlock m);; nb_park K)).
  { intros d m K. apply (st_bind _); [by apply (st_upd _)|]. intros _. apply (st_park _). }
  destruct x; try done; cbn [exec] in Hx; refine (Hbody _ _ Hx); intros d Hd.
  - apply (st_bind _); [by apply kept_permit|]. intros []; [apply (st_ret _)|apply Hpend].
  - apply Htimed; [done|apply Hpend].
  - apply Htimed; [done|apply (st_park _)].
Qed.

(** [c] makes no call that parks it for an unpark during [es]. *)
Fixpoint never_parks (c : nat) (es : list event) (k : core) (a : alinks) : bool :=
  match es with
  | [] => true
  | e :: es' =>
      negb (match e with ECall x => parks_call x | _ => false end && bool_decide (nb_current k = Some c)) &&
      match exec_event (L := alinks) e (k, a) with Some (_, (k', a')) => never_parks c es' k' a' | None => true end
  end.

Lemma kept_event c e k a s' :
  (match e with ECall x => parks_call x | _ => false end && bool_decide (nb_current k = Some c)) = false ->
  exec_event e (k, a) = Some (tt, s') -> kept c (k, a) s'.
Proof.
  intros Hp Hx. destruct (match e with ECall x => parks_call x | _ => false end) eqn:Hpark.
  - destruct e as [x| | |]; try done. apply (kept_parks x k a c tt); [done| |done].
    cbn in Hp. by apply bool_decide_eq_false in Hp.
  - apply (st_event (kept c) e) in Hx; try done; [intros _; apply kept_pop| |intros _; apply kept_admit].
    destruct e; try done. congruence.
Qed.

Lemma kept_run c es : forall k a s', never_parks c es k a = true -> run_events es (k, a) = Some (tt, s') -> kept c (k, a) s'.
Proof.
  induction es as [|e es IH]; intros k a s' Hn Hr; [by apply (st_ret (kept c) tt) in Hr|].
  cbn [never_parks run_events] in *. apply andb_prop in Hn as [Hp Hn]. apply negb_true_iff in Hp.
  unfold mbind, M_bind in Hr. destruct (exec_event e (k, a)) as [[[] [k1 a1]]|] eqn:Hx; [|done].
  transitivity (k1, a1); [by apply (kept_event c e)|by apply IH].
Qed.

Lemma wake_one_keeps_mutexes p k a w k' a' : wake_one p (k, a) = Some (w, (k', a')) -> nb_mutexes k' = nb_mutexes k.
Proof.
  unfold wake_one, pop_queue, make_runnable, upd_coro, nb_rq_push, push_queue, coro, deref, put_coro, modify,
    of_links, on_links, mbind, M_bind, mret, M_ret. cbn [fst snd].
  destruct (l_pop p a) as [[[c|] a1]|]; [|by intros [= <- <- <-]|done].
  cbn. destruct (nb_coros k !! c); [|done]. cbn. destruct (a_push PRun c a1); [|done]. by intros [= <- <- <-].
Qed.

Lemma release_unlocks m k a x k' a' : nurl__bare_mutex_release m (k, a) = Some (x, (k', a')) -> nb_mutexes k' !! m = Some false.
Proof.
  unfold nurl__bare_mutex_release, mutex, deref, put_mutex, modify. unfold mbind, M_bind. cbn [fst snd].
  destruct (nb_mutexes k !! m); [|done]. destruct (wake_one _ _) as [[w [k1 a1]]|] eqn:E; [|done].
  apply wake_one_keeps_mutexes in E. intros Hx. apply (inj Some), pair_equal_spec in Hx as [_ [<- _]%pair_equal_spec].
  rewrite E. cbn. by rewrite lookup_insert_eq.
Qed.

(** A permit that is there is consumed: the mutex is let go, nothing parks. *)
Lemma wp_take_permit_now c m r k a :
  s_inv None k a -> nb_current k = Some c -> nb_coros k !! c = Some r -> c_wake_pending r = true -> mutex_known k m ->
  wp (take_permit c m) (fun b k' a' => b = true /\ nb_current k' = Some c /\
    nb_coros k' !! c = Some (set_c_wake_pending false r) /\ forall x, m = Some x -> nb_mutexes k' !! x = Some false) k a.
Proof.
  intros I Hcur Hr Hw Hm. apply wp_bind, (wp_deref _ _ r); [done|]. rewrite Hw.
  set (k1 := set_nb_coros (<[c := set_c_wake_pending false r]> (nb_coros k)) k).
  assert (I1 : s_inv None k1 a) by by apply (inv_touch None k a _ c r (set_c_wake_pending false r)).
  assert (Hr1 : nb_coros k1 !! c = Some (set_c_wake_pending false r)) by (cbn; by rewrite lookup_insert_eq).
  apply wp_bind, wp_modify, wp_bind. fold k1. destruct m as [m|]; [|by apply wp_ret, wp_ret].
  pose proof (wp_release None k1 a m (fun _ k' _ => frame k1 k') I1 (Hm m eq_refl)) as (x & k' & a' & Hx & F); [by intros|].
  exists x, k', a'. split; [exact Hx|]. apply wp_ret. split; [done|].
  split; [by rewrite (fr_current _ _ F)|]. split; [by apply (fr_running _ _ F)|].
  intros y [= <-]. by eapply release_unlocks.
Qed.

(** C18: for clients within the protocol of [sched_safe], an unpark that comes
    before its park is not lost.  Whatever happens after
    the unpark of a coroutine that is not parked, the next time that coroutine
    calls nurl_fiber_park_with_mutex, with or without a mutex, it goes on at once, the mutex let go, and the
    permit is spent. *)
Theorem unpark_banked es0 k a c r es k2 a2 m :
  reached es0 k a -> nb_coros k !! c = Some r -> c_state r <> NB_PARKED ->
  allowed_run (ECall (CUnpark c) :: es) k a = true -> never_parks c (ECall (CUnpark c) :: es) k a = true ->
  run_events (ECall (CUnpark c) :: es) (k, a) = Some (tt, (k2, a2)) -> nb_current k2 = Some c -> mutex_known k2 m ->
  exists k3 a3 r3, exec_event (ECall (CPark m)) (k2, a2) = Some (tt, (k3, a3)) /\ nb_current k3 = Some c /\
    nb_coros k3 !! c = Some r3 /\ c_wake_pending r3 = false /\ forall x, m = Some x -> nb_mutexes k3 !! x = Some false.
Proof.
  intros I%reached_inv Hr Hs Ha Hn Hrun Hcur Hm.
  destruct (run_keeps _ k a I Ha) as ([] & k2' & a2' & Hrun' & I2).
  rewrite Hrun in Hrun'. apply (inj Some), pair_equal_spec in Hrun' as [_ [<- <-]%pair_equal_spec].
  set (k1 := set_nb_coros (<[c := set_c_wake_pending true r]> (nb_coros k)) k).
  assert (Hx : exec_event (ECall (CUnpark c)) (k, a) = Some (tt, (k1, a))).
  { cbn [exec_event exec]. unfold nurl_fiber_unpark, nb_unpark, mbind, M_bind, coro, deref. cbn [fst]. rewrite Hr.
    by rewrite bool_decide_eq_false_2. }
  cbn [run_events never_parks] in Hrun, Hn. unfold mbind at 1, M_bind at 1 in Hrun. rewrite Hx in Hrun, Hn.
  apply andb_prop in Hn as [_ Hn]. destruct (kept_run c es k1 a (k2, a2) Hn Hrun) as [_ Hkept]. cbn [fst] in Hkept.
  destruct (i_current _ _ _ I2 c Hcur) as (Hc0 & r2 & Hr2 & _).
  destruct (Hkept r2) as (r1 & Hr1 & Hw); [apply (d_next _ _ (i_dom _ _ _ I)); eauto|done|].
  cbn in Hr1. rewrite lookup_insert_eq in Hr1. injection Hr1 as <-. specialize (Hw eq_refl).
  destruct (wp_take_permit_now c m r2 k2 a2 I2 Hcur Hr2 Hw Hm) as (b & k3 & a3 & Hp & -> & Hc3 & Hr3 & Hm3).
  exists k3, a3, (set_c_wake_pending false r2). split; [|done].
  cbn [exec_event exec]. unfold nurl_fiber_park_with_mutex. unfold mbind at 1, M_bind at 1, gets. cbn [fst]. rewrite Hcur.
  unfold mbind at 1, M_bind at 1. by rewrite Hp.
Qed.

(** 2 unparks 1, which has yielded; 1 locks the mutex and parks with it. *)
Definition sched_banked : list event :=
  [ECall CInit; ECall (CMutexInit 0); ECall (CSpawn true); ECall (CSpawn true); ECall CRun; EMain; ECall CYield; EMain].
Definition sched_before_park : list event := [ECall (CUnpark 1); ECall CYield; EMain; ECall (CMutexLock 0)].

Lemma unpark_banked_witness : let s := after (sched_banked ++ sched_before_park) in
  exists k3 a3 r3, exec_event (ECall (CPark (Some 0%nat))) (s.1, s.2) = Some (tt, (k3, a3)) /\ nb_current k3 = Some 1%nat /\
    nb_coros k3 !! 1%nat = Some r3 /\ c_wake_pending r3 = false /\ forall x, Some 0%nat = Some x -> nb_mutexes k3 !! x = Some false.
Proof.
  intros s.
  refine (unpark_banked sched_banked (after sched_banked).1 (after sched_banked).2 1
    (default main_node (nb_coros (after sched_banked).1 !! 1%nat)) (tail sched_before_park) s.1 s.2 (Some 0%nat)
    (reached_after sched_banked _) _ _ _ _ _ _ _); try (vm_compute; first [reflexivity|discriminate]).
  intros x [= <-]. exists true. vm_compute. reflexivity.
Defined.

(** ** A wake of a coroutine that waits elsewhere *)

(** 2 and 3 queue for the mutex that 1 holds; 1 wakes 2 with [nurl_fiber_wake],
    as the holder of a stale handle would, and unlocks.  The state is all that
    the wake looks at, so 2 is linked into the run queue while the mutex's queue
    still starts with it: the unlock queues it a second time. *)
Definition sched_stale_wake : list event :=
  [ECall CInit; ECall (CMutexInit 0); ECall (CSpawn true); ECall (CSpawn true); ECall (CSpawn true); ECall CRun;
   EMain; ECall (CMutexLock 0); ECall CYield; EMain; ECall (CMutexLock 0); EMain; ECall (CMutexLock 0);
   EMain; ECall (CWake 2); ECall (CMutexUnlock 0); EEnd; EMain; ECall (CMutexUnlock 0); EEnd].

(** 2 has ended and is freed, 3 still waits for a free mutex, and the next round
    of the loop takes the freed 2 from the run queue. *)
Example stale_wake_use_after_free :
  match run_events sched_stale_wake (core_start, links_start) with
  | Some (_, (k, s)) => nb_coros k !! 2%nat = None /\ c_state <$> nb_coros k !! 3%nat = Some NB_PARKED /\
      nb_mutexes k !! 0%nat = Some false /\ exec_event EMain (k, s) = None
  | None => False
  end.
Proof. vm_compute. auto. Qed.
