(* ===== verification/Rc.v ===== *)
(** Reference-counted values of a program and the collector of their cycles
    (runtime_core.c, the collector; stdlib/std/rc.nu, the handles).

    A block is what the C code sees, [NurlCcHdr], and the value behind it; of
    the value only the handles it owns matter, in the order in which the
    compiler's trace and drop functions go through them.  What a type can hold
    is a constant of the program: [kind_of] gives the kind of each block.  A
    value is dropped at most once: dropping or tracing one that is gone is a
    fault, and so is any access to a block that has been freed.

    A drop can start further drops and collections.  The two entry points of
    that recursion, [Rc_drop] and [nurl__cc_run], are parameters of the
    functions between them, and [Rc_drop_fuel] and [cc_run_fuel] close it. *)

From S2P Require Import Prelude StateMonad.

(** * The cc word of a block *)

Definition NURL_CC_BLACK : Z := 0.
Definition NURL_CC_GRAY : Z := 1.
Definition NURL_CC_WHITE : Z := 2.
Definition NURL_CC_PURPLE : Z := 3.
Definition NURL_CC_COLOR : Z := 3.
Definition NURL_CC_BUFFERED : Z := 4.
Definition NURL_CC_DEAD : Z := 8.
Definition NURL_CC_FREED : Z := 16.
Definition RC_TAKEN : Z := 32.
Definition NURL_CC_IDX_SHIFT : Z := 8.
Definition NURL_CC_FLAGS : Z := Z.shiftl 1 NURL_CC_IDX_SHIFT - 1.
Definition NURL_CC_MIN_THRESHOLD : Z := 4096.
Definition NURL_RC_DROP_DEPTH : Z := 64.

Definition nurl__cc_color (w : Z) : Z := Z.land w NURL_CC_COLOR.
Definition nurl__cc_paint (c w : Z) : Z := Z.lor (Z.ldiff w NURL_CC_COLOR) c.
Definition cc_has (f w : Z) : bool := negb (Z.land w f =? 0).
Definition cc_set (f w : Z) : Z := Z.lor w f.
Definition cc_clear (f w : Z) : Z := Z.ldiff w f.
Definition cc_index (w : Z) : nat := Z.to_nat (Z.shiftr w NURL_CC_IDX_SHIFT).
Definition cc_put_index (i : nat) (w : Z) : Z :=
  Z.lor (Z.land w NURL_CC_FLAGS) (Z.shiftl (Z.of_nat i) NURL_CC_IDX_SHIFT).

(** * Blocks and the collector's state *)

(** [mem_rc_nested], [mem_cyclic] and [mem_resource] of the payload type. *)
Inductive cc_kind := Leaf | Nested | Cyclic | Resource.

Definition mem_rc_nested (k : cc_kind) : bool := match k with Leaf => false | _ => true end.
Definition mem_cyclic (k : cc_kind) : bool := match k with Cyclic | Resource => true | _ => false end.
Definition mem_resource (k : cc_kind) : bool := match k with Resource => true | _ => false end.

Inductive slot := Strong (t : positive) | WeakTo (t : positive).

Record NurlCcHdr := Hdr { strong : Z; weak : Z; cc : Z; value : option (list slot) }.

Record NurlCcState := CcState {
  roots : list positive;
  threshold : Z;
  collecting : bool;
  deferred : list positive;
  depth : Z;
  urgent : bool }.

(** [next] numbers the blocks; a number is never used again. *)
Record rt := Rt {
  heap : gmap positive NurlCcHdr;
  next : positive;
  nurl__cc : option NurlCcState;
  nurl__cc_batch : Z }.

Definition with_strong z b := Hdr z (weak b) (cc b) (value b).
Definition with_weak z b := Hdr (strong b) z (cc b) (value b).
Definition with_cc f b := Hdr (strong b) (weak b) (f (cc b)) (value b).
Definition with_value v b := Hdr (strong b) (weak b) (cc b) v.

Definition with_heap m s := Rt m (next s) (nurl__cc s) (nurl__cc_batch s).
Definition with_state c s := Rt (heap s) (next s) c (nurl__cc_batch s).
Definition with_batch n s := Rt (heap s) (next s) (nurl__cc s) n.

Definition with_roots r c := CcState r (threshold c) (collecting c) (deferred c) (depth c) (urgent c).
Definition with_threshold t c := CcState (roots c) t (collecting c) (deferred c) (depth c) (urgent c).
Definition with_collecting b c := CcState (roots c) (threshold c) b (deferred c) (depth c) (urgent c).
Definition with_deferred l c := CcState (roots c) (threshold c) (collecting c) l (depth c) (urgent c).
Definition with_depth d c := CcState (roots c) (threshold c) (collecting c) (deferred c) d (urgent c).
Definition with_urgent u c := CcState (roots c) (threshold c) (collecting c) (deferred c) (depth c) u.

Abbreviation M := (ST rt).

Definition deref (h : positive) : M NurlCcHdr := fun s => match heap s !! h with Some b => Some (b, s) | None => None end.
Definition upd (h : positive) (f : NurlCcHdr -> NurlCcHdr) : M unit :=
  b ← deref h; put_state (fun s => with_heap (<[h := f b]> (heap s)) s).
Definition nurl_free (h : positive) : M unit :=
  _ ← deref h; put_state (fun s => with_heap (delete h (heap s)) s).

(** The context's collector, behind a pointer that is null until it is first
    needed. *)
Definition the_cc : M NurlCcState := fun s => match nurl__cc s with Some c => Some (c, s) | None => None end.
Definition upd_cc (f : NurlCcState -> NurlCcState) : M unit :=
  c ← the_cc; put_state (with_state (Some (f c))).

Definition fresh_state : NurlCcState := CcState [] NURL_CC_MIN_THRESHOLD false [] 0 false.
Definition nurl__cc_state : M unit :=
  o ← get_state nurl__cc;
  match o with Some _ => mret tt | None => put_state (with_state (Some fresh_state)) end.

(** The handles all values own together. *)
Definition kids (b : NurlCcHdr) : list slot := default [] (value b).
Definition slot_count (m : gmap positive NurlCcHdr) : nat := map_fold (fun _ b n => length (kids b) + n)%nat 0%nat m.
Definition work (s : rt) : nat := S (slot_count (heap s)).

Section collector.
Context (kind_of : positive -> cc_kind).

(** * Trial deletion *)

Inductive cc_mode := MARKGRAY | SCAN | SCANBLACK | COLLECT | RESTORE.

(** Stacks are lists with the top first. *)
Definition nurl_cc_visit (mode : cc_mode) (t : positive) (st : list positive) : M (list positive) :=
  match mode with
  | MARKGRAY =>
      upd t (fun b => with_strong (strong b - 1) b);;
      b ← deref t;
      mret (if nurl__cc_color (cc b) =? NURL_CC_GRAY then st else t :: st)
  | SCAN => mret (t :: st)
  | SCANBLACK =>
      upd t (fun b => with_strong (strong b + 1) b);;
      b ← deref t;
      if nurl__cc_color (cc b) =? NURL_CC_BLACK then mret st
      else upd t (with_cc (nurl__cc_paint NURL_CC_BLACK));; mret (t :: st)
  | COLLECT =>
      b ← deref t;
      mret (if (nurl__cc_color (cc b) =? NURL_CC_WHITE) && negb (cc_has NURL_CC_BUFFERED (cc b)) then t :: st else st)
  | RESTORE =>
      b ← deref t;
      (if cc_has NURL_CC_DEAD (cc b) then mret tt else upd t (fun b => with_strong (strong b + 1) b));;
      mret st
  end.

(** The trace function of a value: every collectable handle it owns. *)
Fixpoint trace_slots (mode : cc_mode) (ks : list slot) (st : list positive) : M (list positive) :=
  match ks with
  | [] => mret st
  | Strong t :: ks =>
      if mem_cyclic (kind_of t) then st' ← nurl_cc_visit mode t st; trace_slots mode ks st'
      else trace_slots mode ks st
  | WeakTo _ :: ks => trace_slots mode ks st
  end.

Definition trace (mode : cc_mode) (h : positive) (st : list positive) : M (list positive) :=
  b ← deref h; ks ← of_option (value b); trace_slots mode ks st.

Definition paint (c : Z) (h : positive) : M unit := upd h (with_cc (nurl__cc_paint c)).

Fixpoint markgray_loop (fuel : nat) (st : list positive) : M (list positive) :=
  match st with
  | [] => mret []
  | h :: st =>
      match fuel with
      | O => st_fault
      | S fuel =>
          b ← deref h;
          if nurl__cc_color (cc b) =? NURL_CC_GRAY then markgray_loop fuel st
          else paint NURL_CC_GRAY h;; st' ← trace MARKGRAY h st; markgray_loop fuel st'
      end
  end.

Definition nurl__cc_markgray (st : list positive) (h : positive) : M (list positive) :=
  n ← get_state work; markgray_loop n (h :: st).

Fixpoint scanblack_loop (fuel : nat) (base : nat) (st : list positive) : M (list positive) :=
  if (length st <=? base)%nat then mret st
  else match st, fuel with
       | h :: st, S fuel => st' ← trace SCANBLACK h st; scanblack_loop fuel base st'
       | _, _ => st_fault
       end.

Definition nurl__cc_scanblack (st : list positive) (h : positive) : M (list positive) :=
  paint NURL_CC_BLACK h;; n ← get_state work; scanblack_loop n (length st) (h :: st).

Fixpoint scan_loop (fuel : nat) (st aux : list positive) : M (list positive * list positive) :=
  match st with
  | [] => mret ([], aux)
  | h :: st =>
      match fuel with
      | O => st_fault
      | S fuel =>
          b ← deref h;
          if negb (nurl__cc_color (cc b) =? NURL_CC_GRAY) then scan_loop fuel st aux
          else if 0 <? strong b then aux' ← nurl__cc_scanblack aux h; scan_loop fuel st aux'
          else paint NURL_CC_WHITE h;; st' ← trace SCAN h st; scan_loop fuel st' aux
      end
  end.

Definition nurl__cc_scan (st aux : list positive) (h : positive) : M (list positive * list positive) :=
  n ← get_state work; scan_loop n (h :: st) aux.

Fixpoint collect_loop (fuel : nat) (st garbage : list positive) : M (list positive * list positive) :=
  match st with
  | [] => mret ([], garbage)
  | h :: st =>
      match fuel with
      | O => st_fault
      | S fuel =>
          b ← deref h;
          if negb (nurl__cc_color (cc b) =? NURL_CC_WHITE) || cc_has NURL_CC_BUFFERED (cc b)
          then collect_loop fuel st garbage
          else paint NURL_CC_BLACK h;;
               upd h (with_cc (cc_set NURL_CC_DEAD));;
               st' ← trace COLLECT h st;
               collect_loop fuel st' (garbage ++ [h])
      end
  end.

Definition nurl__cc_collectwhite (st garbage : list positive) (h : positive) : M (list positive * list positive) :=
  n ← get_state work; collect_loop n (h :: st) garbage.

Definition nurl__cc_free_block (h : positive) : M unit :=
  b ← deref h; if weak b =? 0 then nurl_free h else mret tt.

(** [MarkRoots]: the roots still purple and counted are marked, and stay. *)
Definition mark_root (st live : list positive) (h : positive) : M (list positive * list positive) :=
  b ← deref h;
  if (nurl__cc_color (cc b) =? NURL_CC_PURPLE) && (0 <? strong b)
  then st' ← nurl__cc_markgray st h; mret (st', live ++ [h])
  else
    upd h (with_cc (cc_clear NURL_CC_BUFFERED));;
    (if nurl__cc_color (cc b) =? NURL_CC_PURPLE then paint NURL_CC_BLACK h else mret tt);;
    (if (strong b <=? 0) && cc_has NURL_CC_FREED (cc b) then nurl__cc_free_block h else mret tt);;
    mret (st, live).

Fixpoint mark_roots (rs st live : list positive) : M (list positive * list positive) :=
  match rs with
  | [] => mret (st, live)
  | h :: rs => '(st', live') ← mark_root st live h; mark_roots rs st' live'
  end.

(** [ScanRoots]. *)
Fixpoint scan_roots (rs st aux : list positive) : M (list positive * list positive) :=
  match rs with
  | [] => mret (st, aux)
  | h :: rs => '(st', aux') ← nurl__cc_scan st aux h; scan_roots rs st' aux'
  end.

(** [CollectRoots]: the garbage, and how many roots survive. *)
Fixpoint collect_roots (rs st garbage : list positive) (alive : Z) : M (list positive * list positive * Z) :=
  match rs with
  | [] => mret (st, garbage, alive)
  | h :: rs =>
      upd h (with_cc (cc_clear NURL_CC_BUFFERED));;
      '(st', garbage') ← nurl__cc_collectwhite st garbage h;
      b ← deref h;
      collect_roots rs st' garbage' (if cc_has NURL_CC_DEAD (cc b) then alive else alive + 1)
  end.

Fixpoint restore_all (garbage st : list positive) : M (list positive) :=
  match garbage with
  | [] => mret st
  | h :: garbage => st' ← trace RESTORE h st; restore_all garbage st'
  end.

Definition trial_deletion (rs : list positive) : M (list positive * Z) :=
  '(st, live) ← mark_roots rs [] [];
  '(st, _) ← scan_roots live st [];
  '(st, garbage, alive) ← collect_roots live st [] 0;
  _ ← restore_all garbage st;
  mret (garbage, alive).

(** * Handles *)

Definition nurl_cc_dead (h : positive) : M bool := b ← deref h; mret (cc_has NURL_CC_DEAD (cc b)).
Definition nurl_cc_buffered (h : positive) : M bool := b ← deref h; mret (cc_has NURL_CC_BUFFERED (cc b)).

Definition Weak_drop (t : positive) : M unit :=
  upd t (fun b => with_weak (weak b - 1) b);;
  b ← deref t;
  if (weak b =? 0) && (strong b <=? 0)
  then buffered ← nurl_cc_buffered t; (if buffered : bool then mret tt else nurl_free t)
  else mret tt.

(** * Drops *)

(** A block leaves the buffer: the last entry takes its place. *)
Definition unbuffer (h : positive) : M unit :=
  b ← deref h;
  c ← the_cc;
  l ← of_option (last (roots c));
  upd_cc (with_roots (take (length (roots c) - 1) (roots c)));;
  (if bool_decide (l <> h)
   then let i := cc_index (cc b) in
        c ← the_cc;
        (if (i <? length (roots c))%nat then mret tt else st_fault);;
        upd_cc (fun c => with_roots (<[i := l]> (roots c)) c);;
        upd l (with_cc (cc_put_index i))
   else mret tt).

Definition nurl__rc_finish (h : positive) : M unit :=
  b ← deref h;
  c ← the_cc;
  let buffered := cc_has NURL_CC_BUFFERED (cc b) in
  if buffered && collecting c then upd h (with_cc (cc_set NURL_CC_FREED))
  else
    (if buffered then unbuffer h;; upd h (with_cc (cc_clear NURL_CC_BUFFERED)) else mret tt);;
    b ← deref h;
    if weak b =? 0 then nurl_free h else mret tt.

Section calls.
Context (Rc_drop : positive -> M unit) (run : M unit).

Definition drop_slot (k : slot) : M unit := match k with Strong t => Rc_drop t | WeakTo t => Weak_drop t end.

Fixpoint drop_slots (ks : list slot) : M unit :=
  match ks with [] => mret tt | k :: ks => drop_slot k;; drop_slots ks end.

(** The value leaves its block, once. *)
Definition take_value (h : positive) : M (list slot) :=
  b ← deref h; ks ← of_option (value b); upd h (with_value None);; mret ks.

(** The drop function of a value. *)
Definition drop_value (h : positive) : M unit := ks ← take_value h; drop_slots ks.

Definition urgent_run : M unit :=
  c ← the_cc; n ← get_state nurl__cc_batch;
  if urgent c && (depth c =? 0) && (n =? 0) then upd_cc (with_urgent false);; run else mret tt.

Fixpoint drop_garbage (garbage : list positive) : M unit :=
  match garbage with
  | [] => mret tt
  | h :: garbage => upd h (with_strong 0);; drop_value h;; drop_garbage garbage
  end.

Fixpoint free_garbage (garbage : list positive) : M unit :=
  match garbage with [] => mret tt | h :: garbage => nurl__cc_free_block h;; free_garbage garbage end.

Definition nurl__cc_run_roots (rs : list positive) (whole : bool) : M unit :=
  upd_cc (with_collecting true);;
  '(garbage, alive) ← trial_deletion rs;
  drop_garbage garbage;;
  free_garbage garbage;;
  (if whole then upd_cc (with_threshold (if NURL_CC_MIN_THRESHOLD <? alive * 2 then alive * 2 else NURL_CC_MIN_THRESHOLD))
   else mret tt);;
  upd_cc (with_collecting false);;
  urgent_run.

Definition cc_run_body : M unit :=
  c ← the_cc;
  if collecting c || bool_decide (roots c = []) then mret tt
  else upd_cc (with_roots []);; nurl__cc_run_roots (roots c) true.

Definition nurl_cc_possible_root (h : positive) : M unit :=
  b ← deref h;
  if nurl__cc_color (cc b) =? NURL_CC_PURPLE then mret tt
  else
    paint NURL_CC_PURPLE h;;
    b ← deref h;
    if cc_has NURL_CC_BUFFERED (cc b) then mret tt
    else
      upd h (with_cc (cc_set NURL_CC_BUFFERED));;
      nurl__cc_state;;
      c ← the_cc;
      upd h (with_cc (cc_put_index (length (roots c))));;
      upd_cc (with_roots (roots c ++ [h]));;
      c ← the_cc;
      if (threshold c <=? Z.of_nat (length (roots c))) && negb (collecting c) then run else mret tt.

Definition nurl_cc_collect_now (h : positive) : M unit :=
  nurl_cc_possible_root h;;
  o ← get_state nurl__cc;
  match o with
  | None => mret tt
  | Some _ =>
      b ← deref h;
      if negb (cc_has NURL_CC_BUFFERED (cc b)) then mret tt
      else
        c ← the_cc; n ← get_state nurl__cc_batch;
        if collecting c || negb (depth c =? 0) || negb (n =? 0) then upd_cc (with_urgent true)
        else
          r ← of_option (roots c !! cc_index (cc b));
          unbuffer h;;
          nurl__cc_run_roots [r] false
  end.

(** The outermost release empties the list of the ones that wait. *)
Fixpoint drain_deferred (fuel : nat) : M unit :=
  c ← the_cc;
  match last (deferred c), fuel with
  | None, _ => mret tt
  | Some h, S fuel =>
      upd_cc (with_deferred (take (length (deferred c) - 1) (deferred c)));;
      drop_value h;;
      nurl__rc_finish h;;
      drain_deferred fuel
  | Some _, O => st_fault
  end.

Definition nurl_rc_drop_value (h : positive) : M unit :=
  nurl__cc_state;;
  c ← the_cc;
  if NURL_RC_DROP_DEPTH <=? depth c then upd_cc (with_deferred (deferred c ++ [h]))
  else
    upd_cc (with_depth (depth c + 1));;
    drop_value h;;
    nurl__rc_finish h;;
    c ← the_cc;
    (if depth c =? 1 then n ← get_state (fun s => S (size (heap s))); drain_deferred n else mret tt);;
    upd_cc (fun c => with_depth (depth c - 1) c);;
    c ← the_cc;
    if collecting c then mret tt else urgent_run.

Definition Rc_drop_body (t : positive) : M unit :=
  dead ← (if mem_cyclic (kind_of t) then nurl_cc_dead t else mret false);
  if dead : bool then mret tt
  else
    upd t (fun b => with_strong (strong b - 1) b);;
    b ← deref t;
    if strong b <=? 0 then
      if mem_rc_nested (kind_of t) then nurl_rc_drop_value t
      else ks ← take_value t;
           b ← deref t;
           (if weak b =? 0 then nurl_free t else mret tt);;
           drop_slots ks
    else if mem_cyclic (kind_of t) then
      if mem_resource (kind_of t) then nurl_cc_collect_now t else nurl_cc_possible_root t
    else mret tt.
End calls.

(** Each nested drop takes a value that owns handles, each nested collection
    leaves the flag [urgent] lowered: three levels for every handle suffice. *)
Fixpoint Rc_drop_fuel (n : nat) (t : positive) : M unit :=
  match n with O => st_fault | S n => Rc_drop_body (Rc_drop_fuel n) (cc_run_fuel n) t end
with cc_run_fuel (n : nat) : M unit :=
  match n with O => st_fault | S n => cc_run_body (Rc_drop_fuel n) (cc_run_fuel n) end.

Definition levels (s : rt) : nat := (3 * slot_count (heap s) + 3)%nat.
Definition Rc_drop (t : positive) : M unit := n ← get_state levels; Rc_drop_fuel n t.
Definition nurl__cc_run : M unit := n ← get_state levels; cc_run_fuel n.

(** * What a program calls *)

Definition rc_new (v : list slot) : M positive :=
  h ← get_state next;
  put_state (fun s => Rt (<[h := Hdr 1 0 0 (Some v)]> (heap s)) (Pos.succ h) (nurl__cc s) (nurl__cc_batch s));;
  mret h.

Definition rc_clone (t : positive) : M unit := upd t (fun b => with_strong (strong b + 1) b).

(** The value of a block, unless it is checked out: then the program panics
    ([None]) and nothing has happened. *)
Definition rc_get (t : positive) : M (option (list slot)) :=
  b ← deref t;
  if cc_has RC_TAKEN (cc b) then mret None else v ← of_option (value b); mret (Some v).

Definition rc_replace (t : positive) (v : list slot) : M (option (list slot)) :=
  b ← deref t;
  if cc_has RC_TAKEN (cc b) then mret None
  else old ← of_option (value b); upd t (with_value (Some v));; mret (Some old).

(** A value that is checked out leaves zero bytes, which own nothing. *)
Definition rc_take (t : positive) : M (option (list slot)) :=
  b ← deref t;
  if cc_has RC_TAKEN (cc b) then mret None
  else x ← of_option (value b); upd t (with_value (Some []));; upd t (with_cc (cc_set RC_TAKEN));; mret (Some x).

Definition rc_restore (t : positive) (v : list slot) : M bool :=
  b ← deref t;
  if cc_has RC_TAKEN (cc b)
  then upd t (with_cc (Z.lxor RC_TAKEN));; _ ← of_option (value b); upd t (with_value (Some v));; mret true
  else mret false.

Definition rc_downgrade (t : positive) : M unit := upd t (fun b => with_weak (weak b + 1) b).

Definition Weak_share (t : positive) : M unit := upd t (fun b => with_weak (weak b + 1) b).

Definition weak_upgrade (t : positive) : M bool :=
  b ← deref t;
  if strong b <=? 0 then mret false else upd t (fun b => with_strong (strong b + 1) b);; mret true.

Definition nurl_cc_collect : M unit :=
  o ← get_state nurl__cc; match o with Some _ => nurl__cc_run | None => mret tt end.

Definition nurl__cc_batch_end : M unit :=
  o ← get_state nurl__cc;
  match o with
  | Some c => if urgent c && negb (collecting c) && (depth c =? 0) then upd_cc (with_urgent false);; nurl__cc_run
              else mret tt
  | None => mret tt
  end.

(** The release of a Vec of handles ([nurl__vec_drop_elems]). *)
Fixpoint drop_elems (ts : list positive) : M unit :=
  match ts with [] => mret tt | t :: ts => Rc_drop t;; drop_elems ts end.

Definition nurl__vec_drop_elems (ts : list positive) : M unit :=
  put_state (fun s => with_batch (nurl__cc_batch s + 1) s);;
  drop_elems ts;;
  put_state (fun s => with_batch (nurl__cc_batch s - 1) s);;
  n ← get_state nurl__cc_batch;
  if n =? 0 then nurl__cc_batch_end else mret tt.

Definition nurl_cc_collect_for_fds : M Z :=
  o ← get_state nurl__cc; n ← get_state nurl__cc_batch;
  match o with
  | Some c => if bool_decide (roots c = []) || collecting c || negb (depth c =? 0) || negb (n =? 0) then mret 0
              else nurl__cc_run;; mret 1
  | None => mret 0
  end.

(** [e] is errno: too many open files, of the process or of the system. *)
Definition EMFILE : Z := 24.
Definition ENFILE : Z := 23.
Definition nurl_cc_reclaim_fds (e : Z) : M Z :=
  if negb (e =? EMFILE) && negb (e =? ENFILE) then mret 0 else nurl_cc_collect_for_fds.

(** Until nothing is buffered; a collection that buffers a block has dropped
    a handle. *)
Fixpoint collect_all (fuel : nat) : M unit :=
  c ← the_cc;
  if bool_decide (roots c = []) || collecting c then mret tt
  else match fuel with O => st_fault | S fuel => nurl__cc_run;; collect_all fuel end.

Definition nurl_cc_context_end : M unit :=
  o ← get_state nurl__cc;
  match o with
  | None => mret tt
  | Some _ =>
      n ← get_state (fun s => (slot_count (heap s) + 2)%nat);
      collect_all n;;
      c ← the_cc;
      if collecting c || negb (depth c =? 0) then mret tt else put_state (with_state None)
  end.
End collector.
