(* ===== verification/RcWord.v ===== *)
(** The cc word of a counted block: what each update does to each of its
    fields, as rewriting rules. *)

From S2P Require Import Prelude StateMonad Rc.

Create HintDb ccw.

Lemma cc_has_bit k w : 0 <= k -> cc_has (2 ^ k) w = Z.testbit w k.
Proof.
  intros Hk. unfold cc_has. destruct (Z.testbit w k) eqn:E.
  - apply negb_true_iff, Z.eqb_neq. intros H.
    assert (Z.testbit (Z.land w (2 ^ k)) k = true) as H2 by (by rewrite Z.land_spec, E, Z.pow2_bits_true).
    by rewrite H, Z.bits_0 in H2.
  - apply negb_false_iff, Z.eqb_eq, Z.bits_inj'. intros i Hi. rewrite Z.land_spec, Z.bits_0, Z.pow2_bits_eqb by done.
    destruct (Z.eqb_spec k i) as [<-|]; [by rewrite E|apply andb_false_r].
Qed.

Lemma buffered_bit w : cc_has NURL_CC_BUFFERED w = Z.testbit w 2.
Proof. by apply (cc_has_bit 2). Qed.
Lemma dead_bit w : cc_has NURL_CC_DEAD w = Z.testbit w 3.
Proof. by apply (cc_has_bit 3). Qed.
Lemma taken_bit w : cc_has RC_TAKEN w = Z.testbit w 5.
Proof. exact (cc_has_bit 5 w ltac:(lia)). Qed.
Lemma freed_bit w : cc_has NURL_CC_FREED w = Z.testbit w 4.
Proof. by apply (cc_has_bit 4). Qed.

(** Bits of a small constant. *)
Lemma small_bits c n i : 0 <= c < 2 ^ n -> n <= i -> Z.testbit c i = false.
Proof.
  intros Hc Hi. destruct (decide (c = 0)) as [->|]; [apply Z.bits_0|].
  apply Z.bits_above_log2; [lia|]. apply Z.lt_le_trans with n; [|done]. apply Z.log2_lt_pow2; lia.
Qed.

Lemma color_eq w c : 0 <= c <= 3 -> nurl__cc_color w = c <-> Z.testbit w 0 = Z.testbit c 0 /\ Z.testbit w 1 = Z.testbit c 1.
Proof.
  intros Hc. unfold nurl__cc_color, NURL_CC_COLOR. split.
  - intros <-. by rewrite !Z.land_spec, !andb_true_r.
  - intros [H0 H1]. apply Z.bits_inj'. intros i Hi. rewrite Z.land_spec.
    destruct (decide (i = 0)) as [->|]; [by rewrite H0, andb_true_r|].
    destruct (decide (i = 1)) as [->|]; [by rewrite H1, andb_true_r|].
    rewrite (small_bits 3 2), (small_bits c 2) by lia. apply andb_false_r.
Qed.

Lemma color_range w : 0 <= nurl__cc_color w <= 3.
Proof.
  unfold nurl__cc_color, NURL_CC_COLOR. change 3 with (Z.ones 2) at 1 2. rewrite Z.land_ones by lia.
  pose proof (Z.mod_pos_bound w (2 ^ 2)). lia.
Qed.

Lemma color_same w w' : Z.testbit w' 0 = Z.testbit w 0 -> Z.testbit w' 1 = Z.testbit w 1 -> nurl__cc_color w' = nurl__cc_color w.
Proof.
  intros H0 H1. apply color_eq; [apply color_range|]. rewrite H0, H1.
  by apply color_eq, eq_refl; apply color_range.
Qed.

(** A field of the word above the flags. *)
Lemma index_same w w' : Z.shiftr w' 8 = Z.shiftr w 8 -> cc_index w' = cc_index w.
Proof. intros H. unfold cc_index, NURL_CC_IDX_SHIFT. by rewrite H. Qed.

Ltac bit_solve :=
  repeat first [rewrite buffered_bit | rewrite dead_bit | rewrite freed_bit | rewrite taken_bit];
  unfold nurl__cc_paint, cc_set, cc_clear, cc_put_index, NURL_CC_COLOR, NURL_CC_BUFFERED, NURL_CC_DEAD,
    NURL_CC_FREED, RC_TAKEN, NURL_CC_FLAGS, NURL_CC_IDX_SHIFT;
  rewrite ?Z.lor_spec, ?Z.ldiff_spec, ?Z.land_spec, ?Z.lxor_spec; try rewrite Z.shiftl_spec_low by lia;
  try match goal with H : 0 <= ?c <= 3 |- _ => rewrite !(small_bits c 2) by lia end; cbn; rewrite ?andb_true_r, ?andb_false_r, ?orb_false_r, ?orb_true_r, ?xorb_false_l; done.

Section fields.
Context (w : Z).

Lemma color_paint c : 0 <= c <= 3 -> nurl__cc_color (nurl__cc_paint c w) = c.
Proof. intros Hc. apply color_eq; [done|]. split; bit_solve. Qed.
Lemma buffered_paint c : 0 <= c <= 3 -> cc_has NURL_CC_BUFFERED (nurl__cc_paint c w) = cc_has NURL_CC_BUFFERED w.
Proof. intros Hc. bit_solve. Qed.
Lemma dead_paint c : 0 <= c <= 3 -> cc_has NURL_CC_DEAD (nurl__cc_paint c w) = cc_has NURL_CC_DEAD w.
Proof. intros Hc. bit_solve. Qed.
Lemma freed_paint c : 0 <= c <= 3 -> cc_has NURL_CC_FREED (nurl__cc_paint c w) = cc_has NURL_CC_FREED w.
Proof. intros Hc. bit_solve. Qed.

Lemma color_buffer : nurl__cc_color (cc_set NURL_CC_BUFFERED w) = nurl__cc_color w.
Proof. apply color_same; bit_solve. Qed.
Lemma buffered_buffer : cc_has NURL_CC_BUFFERED (cc_set NURL_CC_BUFFERED w) = true.
Proof. bit_solve. Qed.
Lemma dead_buffer : cc_has NURL_CC_DEAD (cc_set NURL_CC_BUFFERED w) = cc_has NURL_CC_DEAD w.
Proof. bit_solve. Qed.
Lemma freed_buffer : cc_has NURL_CC_FREED (cc_set NURL_CC_BUFFERED w) = cc_has NURL_CC_FREED w.
Proof. bit_solve. Qed.

Lemma color_unbuffer : nurl__cc_color (cc_clear NURL_CC_BUFFERED w) = nurl__cc_color w.
Proof. apply color_same; bit_solve. Qed.
Lemma buffered_unbuffer : cc_has NURL_CC_BUFFERED (cc_clear NURL_CC_BUFFERED w) = false.
Proof. bit_solve. Qed.
Lemma dead_unbuffer : cc_has NURL_CC_DEAD (cc_clear NURL_CC_BUFFERED w) = cc_has NURL_CC_DEAD w.
Proof. bit_solve. Qed.
Lemma freed_unbuffer : cc_has NURL_CC_FREED (cc_clear NURL_CC_BUFFERED w) = cc_has NURL_CC_FREED w.
Proof. bit_solve. Qed.

Lemma color_dead : nurl__cc_color (cc_set NURL_CC_DEAD w) = nurl__cc_color w.
Proof. apply color_same; bit_solve. Qed.
Lemma buffered_dead : cc_has NURL_CC_BUFFERED (cc_set NURL_CC_DEAD w) = cc_has NURL_CC_BUFFERED w.
Proof. bit_solve. Qed.
Lemma dead_dead : cc_has NURL_CC_DEAD (cc_set NURL_CC_DEAD w) = true.
Proof. bit_solve. Qed.
Lemma freed_dead : cc_has NURL_CC_FREED (cc_set NURL_CC_DEAD w) = cc_has NURL_CC_FREED w.
Proof. bit_solve. Qed.

Lemma color_freed : nurl__cc_color (cc_set NURL_CC_FREED w) = nurl__cc_color w.
Proof. apply color_same; bit_solve. Qed.
Lemma buffered_freed : cc_has NURL_CC_BUFFERED (cc_set NURL_CC_FREED w) = cc_has NURL_CC_BUFFERED w.
Proof. bit_solve. Qed.
Lemma dead_freed : cc_has NURL_CC_DEAD (cc_set NURL_CC_FREED w) = cc_has NURL_CC_DEAD w.
Proof. bit_solve. Qed.
Lemma freed_freed : cc_has NURL_CC_FREED (cc_set NURL_CC_FREED w) = true.
Proof. bit_solve. Qed.

Lemma color_taken : nurl__cc_color (cc_set RC_TAKEN w) = nurl__cc_color w.
Proof. apply color_same; bit_solve. Qed.
Lemma buffered_taken : cc_has NURL_CC_BUFFERED (cc_set RC_TAKEN w) = cc_has NURL_CC_BUFFERED w.
Proof. bit_solve. Qed.
Lemma dead_taken : cc_has NURL_CC_DEAD (cc_set RC_TAKEN w) = cc_has NURL_CC_DEAD w.
Proof. bit_solve. Qed.
Lemma freed_taken : cc_has NURL_CC_FREED (cc_set RC_TAKEN w) = cc_has NURL_CC_FREED w.
Proof. bit_solve. Qed.

Lemma color_restored : nurl__cc_color (Z.lxor RC_TAKEN w) = nurl__cc_color w.
Proof. apply color_same; bit_solve. Qed.
Lemma buffered_restored : cc_has NURL_CC_BUFFERED (Z.lxor RC_TAKEN w) = cc_has NURL_CC_BUFFERED w.
Proof. bit_solve. Qed.
Lemma dead_restored : cc_has NURL_CC_DEAD (Z.lxor RC_TAKEN w) = cc_has NURL_CC_DEAD w.
Proof. bit_solve. Qed.
Lemma freed_restored : cc_has NURL_CC_FREED (Z.lxor RC_TAKEN w) = cc_has NURL_CC_FREED w.
Proof. bit_solve. Qed.
Lemma index_restored : cc_index (Z.lxor RC_TAKEN w) = cc_index w.
Proof. apply index_same. by rewrite Z.shiftr_lxor. Qed.

Lemma color_index i : nurl__cc_color (cc_put_index i w) = nurl__cc_color w.
Proof. apply color_same; bit_solve. Qed.
Lemma buffered_index i : cc_has NURL_CC_BUFFERED (cc_put_index i w) = cc_has NURL_CC_BUFFERED w.
Proof. bit_solve. Qed.
Lemma dead_index i : cc_has NURL_CC_DEAD (cc_put_index i w) = cc_has NURL_CC_DEAD w.
Proof. bit_solve. Qed.
Lemma freed_index i : cc_has NURL_CC_FREED (cc_put_index i w) = cc_has NURL_CC_FREED w.
Proof. bit_solve. Qed.
Lemma index_index i : cc_index (cc_put_index i w) = i.
Proof.
  unfold cc_index, cc_put_index, NURL_CC_IDX_SHIFT.
  rewrite Z.shiftr_lor, Z.shiftr_shiftl_l, Z.shiftr_land by lia. change (Z.shiftr NURL_CC_FLAGS 8) with 0.
  rewrite Z.land_0_r, Z.lor_0_l, Z.shiftl_0_r. lia.
Qed.

Lemma taken_buffer : cc_has RC_TAKEN (cc_set NURL_CC_BUFFERED w) = cc_has RC_TAKEN w.
Proof. bit_solve. Qed.
Lemma taken_unbuffer : cc_has RC_TAKEN (cc_clear NURL_CC_BUFFERED w) = cc_has RC_TAKEN w.
Proof. bit_solve. Qed.
Lemma taken_dead : cc_has RC_TAKEN (cc_set NURL_CC_DEAD w) = cc_has RC_TAKEN w.
Proof. bit_solve. Qed.
Lemma taken_freed : cc_has RC_TAKEN (cc_set NURL_CC_FREED w) = cc_has RC_TAKEN w.
Proof. bit_solve. Qed.
Lemma taken_index i : cc_has RC_TAKEN (cc_put_index i w) = cc_has RC_TAKEN w.
Proof. bit_solve. Qed.
Lemma taken_paint c : 0 <= c <= 3 -> cc_has RC_TAKEN (nurl__cc_paint c w) = cc_has RC_TAKEN w.
Proof. intros Hc. bit_solve. Qed.
Lemma taken_restored : cc_has RC_TAKEN (Z.lxor RC_TAKEN w) = negb (cc_has RC_TAKEN w).
Proof. bit_solve. Qed.

Lemma index_set f : 0 <= f < 2 ^ 8 -> cc_index (cc_set f w) = cc_index w.
Proof.
  intros Hf. apply index_same. unfold cc_set. rewrite Z.shiftr_lor.
  rewrite (Z.shiftr_div_pow2 f), (Z.div_small f) by lia. apply Z.lor_0_r.
Qed.
Lemma index_clear f : 0 <= f < 2 ^ 8 -> cc_index (cc_clear f w) = cc_index w.
Proof.
  intros Hf. apply index_same. unfold cc_clear. rewrite Z.shiftr_ldiff by lia.
  rewrite (Z.shiftr_div_pow2 f), (Z.div_small f) by lia. apply Z.ldiff_0_r.
Qed.
End fields.

Lemma index_paint w c : 0 <= c <= 3 -> cc_index (nurl__cc_paint c w) = cc_index w.
Proof.
  intros Hc. transitivity (cc_index (cc_clear NURL_CC_COLOR w)); [apply (index_set (cc_clear NURL_CC_COLOR w)); lia|].
  by apply index_clear.
Qed.

#[export] Hint Rewrite color_paint buffered_paint dead_paint freed_paint taken_paint index_paint using (cbv; split; discriminate) : ccw.
#[export] Hint Rewrite color_buffer buffered_buffer dead_buffer freed_buffer color_unbuffer buffered_unbuffer
  dead_unbuffer freed_unbuffer color_dead buffered_dead dead_dead freed_dead color_freed buffered_freed dead_freed
  freed_freed taken_buffer taken_unbuffer taken_dead taken_freed taken_index taken_restored color_taken buffered_taken dead_taken freed_taken color_restored buffered_restored dead_restored
  freed_restored index_restored color_index buffered_index dead_index freed_index index_index : ccw.
#[export] Hint Rewrite index_set index_clear using (cbv; done) : ccw.
