(* ===== verification/RcGraph.v ===== *)
(** Counting edges: sums over finite sets of nodes, how often a node occurs in
    a list, how many edges lead to a node from a set. *)

From S2P Require Import Prelude.

(** * Sums over a set *)

Definition ssum {A} `{Countable A} (f : A -> Z) (X : gset A) : Z := sum_with f (elements X).

Section ssum.
Context {A : Type} `{Countable A}.
Implicit Types (f g : A -> Z) (X Y : gset A).

Lemma ssum_empty f : ssum f ∅ = 0.
Proof. unfold ssum. by rewrite elements_empty. Qed.

Lemma ssum_add f x X : x ∉ X -> ssum f ({[x]} ∪ X) = f x + ssum f X.
Proof. intros Hx. unfold ssum. rewrite (sum_with_perm _ _ _ (elements_union_singleton X x Hx)). done. Qed.

Lemma ssum_take f x X : x ∈ X -> ssum f X = f x + ssum f (X ∖ {[x]}).
Proof.
  intros Hx. rewrite <- ssum_add by set_solver. f_equal. apply set_eq. intros y.
  destruct (decide (y = x)) as [->|]; set_solver.
Qed.

Lemma ssum_nonneg f X : (forall x, x ∈ X -> 0 <= f x) -> 0 <= ssum f X.
Proof. intros Hf. apply sum_with_nonneg, Forall_forall. intros x Hx%elem_of_elements. auto. Qed.

Lemma ssum_ext f g X : (forall x, x ∈ X -> f x = g x) -> ssum f X = ssum g X.
Proof.
  intros Hf. unfold ssum. assert (forall x, x ∈ elements X -> f x = g x) as Hl by (intros x Hx%elem_of_elements; auto).
  clear Hf. induction (elements X) as [|x l IH]; [done|]. cbn. rewrite Hl, IH by set_solver. done.
Qed.

Lemma ssum_le f g X : (forall x, x ∈ X -> f x <= g x) -> ssum f X <= ssum g X.
Proof.
  intros Hf. unfold ssum. assert (forall x, x ∈ elements X -> f x <= g x) as Hl by (intros x Hx%elem_of_elements; auto).
  clear Hf. induction (elements X) as [|x l IH]; [done|]. cbn.
  pose proof (Hl x (list_elem_of_here _ _)). specialize (IH (fun y Hy => Hl y (list_elem_of_further _ _ _ Hy))). lia.
Qed.

Lemma ssum_zero f X : (forall x, x ∈ X -> f x = 0) -> ssum f X = 0.
Proof.
  intros Hf. rewrite (ssum_ext f (fun _ => 0)) by done. unfold ssum. induction (elements X); [done|]. cbn. lia.
Qed.

Lemma ssum_union f X Y : X ## Y -> ssum f (X ∪ Y) = ssum f X + ssum f Y.
Proof.
  intros HXY. unfold ssum. rewrite <- sum_with_app. apply sum_with_perm.
  apply elements_disj_union, HXY.
Qed.

Lemma ssum_split f X Y : X ⊆ Y -> ssum f Y = ssum f X + ssum f (Y ∖ X).
Proof.
  intros HXY. rewrite <- ssum_union by set_solver. f_equal. apply set_eq. intros y.
  destruct (decide (y ∈ X)); set_solver.
Qed.

Lemma ssum_mono f X Y : X ⊆ Y -> (forall x, x ∈ Y -> 0 <= f x) -> ssum f X <= ssum f Y.
Proof.
  intros HXY Hf. rewrite (ssum_split f X Y HXY). assert (0 <= ssum f (Y ∖ X)) by (apply ssum_nonneg; set_solver). lia.
Qed.

Lemma ssum_member f X x : x ∈ X -> (forall y, y ∈ X -> 0 <= f y) -> f x <= ssum f X.
Proof. intros Hx Hf. rewrite (ssum_take f x X Hx). assert (0 <= ssum f (X ∖ {[x]})) by (apply ssum_nonneg; set_solver). lia. Qed.

Lemma ssum_plus f g X : ssum (fun x => f x + g x) X = ssum f X + ssum g X.
Proof. unfold ssum. induction (elements X); cbn; lia. Qed.
End ssum.

(** * Occurrences *)

Section occ.
Context {A : Type} `{EqDecision A}.
Implicit Types (x : A) (l : list A).

Fixpoint occ x l : Z := match l with [] => 0 | y :: l => (if decide (x = y) then 1 else 0) + occ x l end.

Lemma occ_nonneg x l : 0 <= occ x l.
Proof. induction l; cbn; [lia|]. case_decide; lia. Qed.
Lemma occ_app x l1 l2 : occ x (l1 ++ l2) = occ x l1 + occ x l2.
Proof. induction l1; cbn; lia. Qed.
Lemma occ_pos x l : x ∈ l -> 0 < occ x l.
Proof. induction 1; cbn; [rewrite decide_True by done; pose proof (occ_nonneg x l); lia|]. case_decide; lia. Qed.
Lemma occ_none x l : x ∉ l -> occ x l = 0.
Proof. induction l as [|y l IH]; cbn; [done|]. intros Hx. rewrite decide_False, IH by set_solver. done. Qed.
Lemma occ_elem x l : 0 < occ x l -> x ∈ l.
Proof. intros Hx. destruct (decide (x ∈ l)) as [|Hn]; [done|]. rewrite occ_none in Hx by done. lia. Qed.
Lemma occ_perm x l1 l2 : l1 ≡ₚ l2 -> occ x l1 = occ x l2.
Proof. induction 1; cbn; lia. Qed.
Lemma occ_self x l : occ x (x :: l) = 1 + occ x l.
Proof. cbn. by rewrite decide_True. Qed.
Lemma occ_other x y l : x <> y -> occ x (y :: l) = occ x l.
Proof. intros Hx. cbn. by rewrite decide_False. Qed.
End occ.

(** * Edges into a node *)

Section edges.
Context (e : positive -> list positive).

Definition indeg (X : gset positive) (t : positive) : Z := ssum (fun u => occ t (e u)) X.
Definition room (X : gset positive) : Z := ssum (fun u => Z.of_nat (length (e u))) X.

Lemma indeg_nonneg X t : 0 <= indeg X t.
Proof. apply ssum_nonneg. intros u _. apply (occ_nonneg t (e u)). Qed.
Lemma indeg_add X u t : u ∉ X -> indeg ({[u]} ∪ X) t = occ t (e u) + indeg X t.
Proof. exact (ssum_add (fun u => occ t (e u)) u X). Qed.
Lemma indeg_empty t : indeg ∅ t = 0.
Proof. apply ssum_empty. Qed.
Lemma indeg_mono X Y t : X ⊆ Y -> indeg X t <= indeg Y t.
Proof. intros HXY. apply ssum_mono; [done|]. intros u _. apply (occ_nonneg t (e u)). Qed.
Lemma indeg_split X Y t : X ⊆ Y -> indeg Y t = indeg X t + indeg (Y ∖ X) t.
Proof. apply ssum_split. Qed.
Lemma indeg_zero X t : (forall u, u ∈ X -> t ∉ e u) -> indeg X t = 0.
Proof. intros HX. apply ssum_zero. intros u Hu. apply occ_none. auto. Qed.
Lemma indeg_edge X u t : u ∈ X -> t ∈ e u -> 0 < indeg X t.
Proof.
  intros Hu Ht. pose proof (occ_pos t (e u) Ht).
  pose proof (ssum_member (fun u => occ t (e u)) X u Hu (fun v _ => occ_nonneg t (e v))). unfold indeg. cbn in *. lia.
Qed.
Lemma indeg_pos X t : 0 < indeg X t -> exists u, u ∈ X /\ t ∈ e u.
Proof.
  intros Ht. destruct (decide (Exists (fun u => t ∈ e u) (elements X))) as [Hx|Hn].
  - apply Exists_exists in Hx as (u & Hu%elem_of_elements & Hut). eauto.
  - rewrite indeg_zero in Ht; [lia|]. intros u Hu Hut. apply Hn, Exists_exists. exists u. by rewrite elem_of_elements.
Qed.

Lemma room_nonneg X : 0 <= room X.
Proof. apply ssum_nonneg. lia. Qed.
Lemma room_take X u : u ∈ X -> room X = Z.of_nat (length (e u)) + room (X ∖ {[u]}).
Proof. exact (ssum_take (fun u => Z.of_nat (length (e u))) u X). Qed.
Lemma room_mono X Y : X ⊆ Y -> room X <= room Y.
Proof. intros HXY. apply ssum_mono; [done|]. lia. Qed.
End edges.
