(* ===== verification/RcTrial.v ===== *)
(** Trial deletion finds exactly the garbage: the four phases of a collection
    before the first value is dropped.

    A state of these phases is described by what it changes of the heap [m0]
    the collection starts from: the counts [σ], the colours [γ], the sets of
    buffered, dead and freed blocks. *)

From stdpp Require Import functions.
From S2P Require Import Prelude StateMonad Rc RcWord RcGraph.

Section trial.
Context (kind_of : positive -> cc_kind).

(** The edges the collector sees. *)
Fixpoint targets (ks : list slot) : list positive :=
  match ks with
  | [] => []
  | Strong t :: ks => if mem_cyclic (kind_of t) then t :: targets ks else targets ks
  | WeakTo _ :: ks => targets ks
  end.

Fixpoint visit_all (mode : cc_mode) (ts st : list positive) : M (list positive) :=
  match ts with [] => mret st | t :: ts => st' ← nurl_cc_visit mode t st; visit_all mode ts st' end.

Lemma trace_slots_all mode ks st s : trace_slots kind_of mode ks st s = visit_all mode (targets ks) st s.
Proof.
  revert st s. induction ks as [|[t|t] ks IH]; intros st s; cbn [trace_slots targets]; [done| |apply IH].
  destruct (mem_cyclic (kind_of t)); [|apply IH]. cbn [visit_all].
  unfold mbind, ST_bind. destruct (nurl_cc_visit mode t st s) as [[st' s']|]; [apply IH|done].
Qed.

Context (m0 : gmap positive NurlCcHdr) (s0 : rt).

Definition out (u : positive) : list positive := match m0 !! u with Some b => targets (kids b) | None => [] end.
Definition alive (u : positive) : Prop := exists b, m0 !! u = Some b /\ is_Some (value b).

(** Every edge leads to a block with a value. *)
Definition edges_ok : Prop := forall u t, t ∈ out u -> alive t.

Record node (b0 : NurlCcHdr) (su cu : Z) (bu du : bool) (b : NurlCcHdr) : Prop := {
  n_strong : strong b = su;
  n_color : nurl__cc_color (cc b) = cu;
  n_buffered : cc_has NURL_CC_BUFFERED (cc b) = bu;
  n_dead : cc_has NURL_CC_DEAD (cc b) = du;
  n_freed : cc_has NURL_CC_FREED (cc b) = cc_has NURL_CC_FREED (cc b0);
  n_taken : cc_has RC_TAKEN (cc b) = cc_has RC_TAKEN (cc b0);
  n_weak : weak b = weak b0;
  n_value : value b = value b0 }.

Definition others (s : rt) := (next s, nurl__cc s, nurl__cc_batch s).

Record view (F : gset positive) (σ γ : positive -> Z) (β δ : gset positive) (s : rt) : Prop := {
  v_others : others s = others s0;
  v_freed u : u ∈ F -> heap s !! u = None /\ ~ alive u;
  v_node u b0 : m0 !! u = Some b0 -> u ∉ F ->
    exists b, heap s !! u = Some b /\ node b0 (σ u) (γ u) (bool_decide (u ∈ β)) (bool_decide (u ∈ δ)) b;
  v_none u : m0 !! u = None -> heap s !! u = None }.

Arguments v_others {F σ γ β δ s}.
Arguments v_freed {F σ γ β δ s}.
Arguments v_node {F σ γ β δ s}.
Arguments v_none {F σ γ β δ s}.
Arguments n_taken {b0 su cu bu du b}.
Arguments n_weak {b0 su cu bu du b}.

Section steps.
Context {F : gset positive} {σ γ : positive -> Z} {β δ : gset positive} {s : rt}.
Hypothesis (V : view F σ γ β δ s).

Lemma view_alive u : alive u -> exists b0, m0 !! u = Some b0 /\ u ∉ F.
Proof. intros Hu. pose proof Hu as (b & Hb & Hv). exists b. split; [done|]. intros HF. by destruct (v_freed V u HF) as [_ []]. Qed.

Lemma view_deref u b0 (Q : NurlCcHdr -> rt -> Prop) :
  m0 !! u = Some b0 -> u ∉ F ->
  (forall b, node b0 (σ u) (γ u) (bool_decide (u ∈ β)) (bool_decide (u ∈ δ)) b -> Q b s) -> answers (deref u) s Q.
Proof.
  intros Hu HF HQ. destruct (v_node V u b0 Hu HF) as (b & Hb & Hn).
  exists b, s. unfold deref. rewrite Hb. auto.
Qed.

(** One block is changed. *)
Lemma view_upd h b0 f σ' γ' β' δ' :
  m0 !! h = Some b0 -> h ∉ F ->
  (forall b, node b0 (σ h) (γ h) (bool_decide (h ∈ β)) (bool_decide (h ∈ δ)) b ->
     node b0 (σ' h) (γ' h) (bool_decide (h ∈ β')) (bool_decide (h ∈ δ')) (f b)) ->
  (forall u, u <> h -> σ' u = σ u /\ γ' u = γ u /\ (u ∈ β' <-> u ∈ β) /\ (u ∈ δ' <-> u ∈ δ)) ->
  answers (upd h f) s (fun _ => view F σ' γ' β' δ').
Proof.
  intros Hh HF Hf Hrest. destruct (v_node V h b0 Hh HF) as (b & Hb & Hn).
  eexists tt, _. split; [unfold upd, deref, mbind, ST_bind; by rewrite Hb|]. split.
  - apply (v_others V).
  - intros u Hu. destruct (v_freed V u Hu). cbn. split; [|done]. rewrite lookup_insert_ne; [done|congruence].
  - intros u b1 Hu HuF. cbn. destruct (decide (u = h)) as [->|Hne].
    + rewrite lookup_insert_eq. exists (f b). split; [done|]. simplify_eq. auto.
    + rewrite lookup_insert_ne by done. destruct (v_node V u b1 Hu HuF) as (b2 & Hb2 & Hn2).
      exists b2. split; [done|]. destruct (Hrest u Hne) as (-> & -> & Hβ & Hδ).
      by rewrite (bool_decide_ext _ _ Hβ), (bool_decide_ext _ _ Hδ).
  - intros u Hu. cbn. rewrite lookup_insert_ne; [exact (v_none V u Hu)|congruence].
Qed.

(** A block nothing counts is freed. *)
Lemma view_free h b0 :
  m0 !! h = Some b0 -> h ∉ F -> value b0 = None ->
  answers (nurl__cc_free_block h) s (fun _ s' => exists F', F ⊆ F' /\ F' ⊆ F ∪ {[h]} /\ (weak b0 = 0 -> h ∈ F') /\ (weak b0 <> 0 -> h ∉ F') /\ view F' σ γ β δ s').
Proof using V.
  clear kind_of. intros Hh HF Hv. unfold nurl__cc_free_block. apply answers_bind, (view_deref h b0); [done..|].
  intros b Hb. rewrite (n_weak Hb). destruct (Z.eqb_spec (weak b0) 0) as [Hw|Hw].
  - destruct (v_node V h b0 Hh HF) as (b1 & Hb1 & _).
    eexists tt, _. split; [unfold nurl_free, deref, mbind, ST_bind; by rewrite Hb1|].
    exists (F ∪ {[h]}). split; [set_solver|]. split; [done|]. split; [set_solver|]. split; [done|]. split.
    + apply (v_others V).
    + intros u [Hu| ->%elem_of_singleton]%elem_of_union; cbn.
      * destruct (v_freed V u Hu). split; [|done]. by rewrite lookup_delete_None; right.
      * rewrite lookup_delete_eq. split; [done|]. intros (b2 & Hb2 & Hs). simplify_eq. rewrite Hv in Hs. by destruct Hs.
    + intros u b2 Hu HuF. cbn. rewrite lookup_delete_ne by set_solver. apply (v_node V); [done|set_solver].
    + intros u Hu. cbn. rewrite lookup_delete_None. right. exact (v_none V u Hu).
  - apply answers_ret. exists F. split; [done|]. split; [set_solver|]. split; [done|]. by split; [intros _|].
Qed.
(** Only the values of the functions matter. *)
Lemma view_ext σ' γ' β' δ' :
  (forall u, is_Some (m0 !! u) -> u ∉ F -> σ' u = σ u /\ γ' u = γ u /\ (u ∈ β' <-> u ∈ β) /\ (u ∈ δ' <-> u ∈ δ)) ->
  view F σ' γ' β' δ' s.
Proof.
  intros Hsame. split.
  - apply (v_others V).
  - apply (v_freed V).
  - intros u b0 Hu HuF. destruct (v_node V u b0 Hu HuF) as (b & Hb & Hn). exists b. split; [done|].
    destruct (Hsame u (mk_is_Some _ _ Hu) HuF) as (-> & -> & Hβ & Hδ).
    by rewrite (bool_decide_ext _ _ Hβ), (bool_decide_ext _ _ Hδ).
  - apply (v_none V).
Qed.
End steps.

Lemma node_strong b0 su cu bu du b z :
  node b0 su cu bu du b -> node b0 z cu bu du (with_strong z b).
Proof. intros []. by split. Qed.

Lemma node_paint b0 su cu bu du b c :
  0 <= c <= 3 -> node b0 su cu bu du b -> node b0 su c bu du (with_cc (nurl__cc_paint c) b).
Proof.
  intros Hc []. split; cbn; try done.
  - by apply color_paint.
  - by rewrite buffered_paint.
  - by rewrite dead_paint.
  - by rewrite freed_paint.
  - by rewrite taken_paint.
Qed.

Lemma view_paint_node F σ γ β δ s h b0 c :
  view F σ γ β δ s -> m0 !! h = Some b0 -> h ∉ F -> 0 <= c <= 3 ->
  answers (paint c h) s (fun _ => view F σ (<[h := c]> γ) β δ).
Proof.
  intros V Hb0 HF Hc. apply (view_upd V h b0); [done..| |].
  - intros b Hb. rewrite fn_lookup_insert. by apply node_paint with (cu := γ h).
  - intros u Hu. by rewrite fn_lookup_insert_ne.
Qed.

Lemma view_paint F σ γ β δ s h c :
  view F σ γ β δ s -> alive h -> 0 <= c <= 3 -> answers (paint c h) s (fun _ => view F σ (<[h := c]> γ) β δ).
Proof. intros V Hh Hc. destruct (view_alive V h Hh) as (b0 & Hb0 & HF). by apply (view_paint_node _ _ _ _ _ _ _ b0). Qed.

Lemma view_unbuffer F σ γ β δ s h b0 :
  view F σ γ β δ s -> m0 !! h = Some b0 -> h ∉ F ->
  answers (upd h (with_cc (cc_clear NURL_CC_BUFFERED))) s (fun _ => view F σ γ (β ∖ {[h]}) δ).
Proof using Type.
  clear kind_of. intros V Hb0 HF. apply (view_upd V h b0); [done..| |set_solver].
  intros b []. split; cbn; autorewrite with ccw; try done. symmetry. apply bool_decide_eq_false. set_solver.
Qed.

Lemma view_kill F σ γ β δ s h b0 :
  view F σ γ β δ s -> m0 !! h = Some b0 -> h ∉ F ->
  answers (upd h (with_cc (cc_set NURL_CC_DEAD))) s (fun _ => view F σ γ β ({[h]} ∪ δ)).
Proof using Type.
  clear kind_of. intros V Hb0 HF. apply (view_upd V h b0); [done..| |set_solver].
  intros b []. split; cbn; autorewrite with ccw; try done. symmetry. apply bool_decide_eq_true. set_solver.
Qed.

Lemma view_count F σ γ β δ s h d :
  view F σ γ β δ s -> alive h ->
  answers (upd h (fun b => with_strong (strong b + d) b)) s (fun _ => view F (<[h := σ h + d]> σ) γ β δ).
Proof.
  intros V Hh. destruct (view_alive V h Hh) as (b0 & Hb0 & HF). apply (view_upd V h b0); [done..| |].
  - intros b Hb. rewrite fn_lookup_insert, (n_strong _ _ _ _ _ _ Hb). by apply (node_strong _ (σ h)).
  - intros u Hu. by rewrite fn_lookup_insert_ne.
Qed.

(** Adding up the visits of a list of targets. *)
Lemma count_step (σ : positive -> Z) (d : Z) t ts u :
  (<[t := σ t + d]> σ) u + d * occ u ts = σ u + d * occ u (t :: ts).
Proof.
  destruct (decide (u = t)) as [->|Hu]; [rewrite fn_lookup_insert, occ_self|rewrite fn_lookup_insert_ne, occ_other by done]; lia.
Qed.

Lemma paint_step (γ : positive -> Z) c t ts u :
  (if decide (u ∈ t :: ts) then c else γ u) = (if decide (u ∈ ts) then c else (<[t := c]> γ) u).
Proof.
  destruct (decide (u ∈ ts)) as [Hu|Hu].
  - by rewrite decide_True by (by apply list_elem_of_further).
  - destruct (decide (u = t)) as [->|Hut].
    + by rewrite decide_True, fn_lookup_insert by apply list_elem_of_here.
    + rewrite decide_False, fn_lookup_insert_ne by (done || by intros [->|]%elem_of_cons). done.
Qed.

Lemma paint_same (γ : positive -> Z) c t ts u :
  γ t = c -> (if decide (u ∈ t :: ts) then c else γ u) = (if decide (u ∈ ts) then c else γ u).
Proof.
  intros Ht. rewrite paint_step. case_decide; [done|].
  destruct (decide (u = t)) as [->|]; [by rewrite fn_lookup_insert|by rewrite fn_lookup_insert_ne].
Qed.

Lemma alive_tail t ts : (forall u, u ∈ t :: ts -> alive u) -> alive t /\ forall u, u ∈ ts -> alive u.
Proof. intros Hal. split; [apply Hal, list_elem_of_here|]. intros u Hu. by apply Hal, list_elem_of_further. Qed.

Section visits.
Context {F : gset positive} {β δ : gset positive}.

Lemma visit_markgray ts : forall σ γ s st,
  view F σ γ β δ s -> (forall t, t ∈ ts -> alive t) ->
  answers (visit_all MARKGRAY ts st) s (fun st' s' =>
    view F (fun u => σ u - occ u ts) γ β δ s' /\
    (forall t, t ∈ st' -> t ∈ st \/ t ∈ ts) /\ (forall t, t ∈ st -> t ∈ st') /\
    (forall t, t ∈ ts -> γ t <> NURL_CC_GRAY -> t ∈ st') /\ (length st' <= length st + length ts)%nat).
Proof using Type.
  clear kind_of. induction ts as [|t ts IH]; intros σ γ s st V Hal; cbn [visit_all].
  { apply answers_ret. split; [|set_solver by lia]. apply (view_ext V). cbn. by split; [lia|]. }
  destruct (view_alive V t) as (b0 & Hb0 & HF); [set_solver|].
  cbn [nurl_cc_visit]. do 2 apply answers_bind. eapply answers_mono; [apply (view_count _ _ _ _ _ _ t (-1) V); set_solver|].
  intros [] s1 V1. apply answers_bind. apply (view_deref V1 t b0); [done..|]. intros b Hb.
  rewrite (n_color _ _ _ _ _ _ Hb). apply answers_ret.
  eapply answers_mono; [apply IH; [exact V1|set_solver]|].
  intros st' s' (V' & Hsub & Hst & Hng & Hlen). split; [|].
  - apply (view_ext V'). intros u _ _. split; [|done]. pose proof (count_step σ (-1) t ts u). lia.
  - destruct (Z.eqb_spec (γ t) NURL_CC_GRAY); cbn in *; set_solver by lia.
Qed.

Lemma visit_scan ts : forall s st, answers (visit_all SCAN ts st) s (fun st' s' => s' = s /\ st' = reverse ts ++ st).
Proof.
  induction ts as [|t ts IH]; intros s st; cbn [visit_all]; [by apply answers_ret|].
  apply answers_bind, answers_ret. eapply answers_mono; [apply IH|]. intros st' s' [-> ->]. by rewrite reverse_cons, <- app_assoc.
Qed.

Lemma visit_scanblack ts : forall σ γ s st,
  view F σ γ β δ s -> (forall t, t ∈ ts -> alive t) ->
  answers (visit_all SCANBLACK ts st) s (fun st' s' =>
    view F (fun u => σ u + occ u ts) (fun u => if decide (u ∈ ts) then NURL_CC_BLACK else γ u) β δ s' /\
    exists new, st' = new ++ st /\ NoDup new /\ (forall t, t ∈ new <-> t ∈ ts /\ γ t <> NURL_CC_BLACK) /\
      (length new <= length ts)%nat).
Proof using Type.
  clear kind_of. induction ts as [|t ts IH]; intros σ γ s st V Hal; cbn [visit_all].
  { apply answers_ret. split; [apply (view_ext V); cbn; by split; [lia|]|].
    exists []. split; [done|]. split; [constructor|]. split; [|cbn; lia]. intros t. rewrite !elem_of_nil. tauto. }
  apply alive_tail in Hal as [Ht0 Hal]. destruct (view_alive V t Ht0) as (b0 & Hb0 & HF).
  cbn [nurl_cc_visit]. do 2 apply answers_bind. eapply answers_mono; [apply (view_count _ _ _ _ _ _ t 1 V Ht0)|].
  intros [] s1 V1. apply answers_bind. apply (view_deref V1 t b0); [done..|]. intros b Hb.
  rewrite (n_color _ _ _ _ _ _ Hb). destruct (Z.eqb_spec (γ t) NURL_CC_BLACK) as [Ht|Ht].
  - apply answers_ret. eapply answers_mono; [apply IH; [exact V1|done]|].
    intros st' s' (V' & new & -> & Hnd & Hnew & Hlen). split.
    + apply (view_ext V'). intros u _ _. pose proof (count_step σ 1 t ts u). split; [lia|].
      by split; [apply paint_same|].
    + exists new. split; [done|]. split; [done|]. split; [|cbn; lia]. intros x. rewrite Hnew, elem_of_cons. clear - Ht. intuition congruence.
  - apply answers_bind. eapply answers_mono; [apply (view_paint _ _ _ _ _ _ t NURL_CC_BLACK V1 Ht0); cbv; split; discriminate|].
    intros [] s2 V2. apply answers_ret. eapply answers_mono; [apply IH; [exact V2|done]|].
    intros st' s' (V' & new & -> & Hnd & Hnew & Hlen). split.
    + apply (view_ext V'). intros u _ _. pose proof (count_step σ 1 t ts u). split; [lia|]. by split; [apply paint_step|].
    + exists (new ++ [t]). rewrite <- app_assoc. split; [done|]. split; [|split; [|rewrite length_app; cbn; lia]].
      * apply NoDup_app. split; [done|]. split; [|apply NoDup_singleton].
        intros x [Hx Hc]%Hnew ->%list_elem_of_singleton. by rewrite fn_lookup_insert in Hc.
      * intros x. rewrite elem_of_app, Hnew, list_elem_of_singleton, elem_of_cons.
        destruct (decide (x = t)) as [->|Hx].
        -- rewrite fn_lookup_insert. clear - Ht. intuition congruence.
        -- rewrite fn_lookup_insert_ne by done. clear - Hx. tauto.
Qed.

Lemma visit_collect ts : forall σ γ s st,
  view F σ γ β δ s -> (forall t, t ∈ ts -> alive t) ->
  answers (visit_all COLLECT ts st) s (fun st' s' =>
    s' = s /\ (forall t, t ∈ st' -> t ∈ st \/ t ∈ ts) /\ (forall t, t ∈ st -> t ∈ st') /\
    (forall t, t ∈ ts -> γ t = NURL_CC_WHITE -> t ∉ β -> t ∈ st') /\ (length st' <= length st + length ts)%nat).
Proof.
  induction ts as [|t ts IH]; intros σ γ s st V Hal; cbn [visit_all].
  { apply answers_ret. split_and!; [done|auto|auto|by intros t ?%elem_of_nil|cbn; lia]. }
  apply alive_tail in Hal as [Ht0 Hal]. destruct (view_alive V t Ht0) as (b0 & Hb0 & HF).
  cbn [nurl_cc_visit]. do 2 apply answers_bind. apply (view_deref V t b0); [done..|]. intros b Hb.
  rewrite (n_color _ _ _ _ _ _ Hb), (n_buffered _ _ _ _ _ _ Hb). apply answers_ret.
  eapply answers_mono; [apply (IH σ γ); [exact V|done]|]. intros st' s' (-> & Hsub & Hst & Hw & Hlen).
  set (push := (γ t =? NURL_CC_WHITE) && negb (bool_decide (t ∈ β))) in *.
  assert (push = true <-> γ t = NURL_CC_WHITE /\ t ∉ β) as Hp.
  { unfold push. rewrite andb_true_iff, Z.eqb_eq, negb_true_iff, bool_decide_eq_false. done. }
  clearbody push. clear - Hp Hsub Hst Hw Hlen. split; [done|]. setoid_rewrite elem_of_cons.
  destruct push; setoid_rewrite elem_of_cons in Hsub || idtac; setoid_rewrite elem_of_cons in Hst || idtac; split_and!.
  - intros u [[->|Hu]|Hu]%Hsub; auto.
  - auto.
  - intros u [->|Hu] Hc Hβ; auto.
  - cbn in *. lia.
  - intros u [Hu|Hu]%Hsub; auto.
  - auto.
  - intros u [->|Hu] Hc Hβ; [|auto]. destruct Hp as [_ Hp]. by discriminate Hp.
  - cbn in *. lia.
Qed.

Lemma visit_restore ts : forall σ γ s st,
  view F σ γ β δ s -> (forall t, t ∈ ts -> alive t) ->
  answers (visit_all RESTORE ts st) s (fun st' s' =>
    view F (fun u => if decide (u ∈ δ) then σ u else σ u + occ u ts) γ β δ s' /\ st' = st).
Proof.
  induction ts as [|t ts IH]; intros σ γ s st V Hal; cbn [visit_all].
  { apply answers_ret. split; [|done]. apply (view_ext V). cbn. intros u _ _. case_decide; by split; [lia|]. }
  apply alive_tail in Hal as [Ht0 Hal]. destruct (view_alive V t Ht0) as (b0 & Hb0 & HF).
  cbn [nurl_cc_visit]. do 2 apply answers_bind. apply (view_deref V t b0); [done..|]. intros b Hb.
  rewrite (n_dead _ _ _ _ _ _ Hb). destruct (bool_decide_reflect (t ∈ δ)) as [Ht|Ht].
  - apply answers_bind, answers_ret, answers_ret. eapply answers_mono; [apply IH; [exact V|done]|].
    intros st' s' [V' ->]. split; [|done]. apply (view_ext V'). intros u _ _. cbn beta. split; [|done].
    destruct (decide (u ∈ δ)) as [|Hu]; [done|]. rewrite occ_other; [done|]. by intros ->.
  - apply answers_bind. eapply answers_mono; [apply (view_count _ _ _ _ _ _ t 1 V Ht0)|].
    intros [] s1 V1. apply answers_ret. eapply answers_mono; [apply IH; [exact V1|done]|].
    intros st' s' [V' ->]. split; [|done]. apply (view_ext V'). intros u _ _. cbn beta. split; [|done].
    pose proof (count_step σ 1 t ts u).
    destruct (decide (u ∈ δ)) as [Hu|Hu]; [rewrite fn_lookup_insert_ne by congruence; done|lia].
Qed.

(** A block's trace visits its edges. *)
Lemma trace_visits {σ γ s} mode h st (Q : list positive -> rt -> Prop) :
  view F σ γ β δ s -> alive h -> answers (visit_all mode (out h) st) s Q -> answers (trace kind_of mode h st) s Q.
Proof.
  intros V Hh HQ. destruct (view_alive V h Hh) as (b0 & Hb0 & HF). unfold trace.
  apply answers_bind, (view_deref V h b0); [done..|]. intros b Hb. apply answers_bind.
  destruct Hh as (b1 & Hb1 & ks & Hks). assert (b1 = b0) as -> by congruence.
  exists ks, s. unfold of_option. rewrite (n_value _ _ _ _ _ _ Hb), Hks. split; [done|].
  unfold out in HQ. rewrite Hb0 in HQ. unfold kids in HQ. rewrite Hks in HQ. cbn in HQ.
  unfold answers in *. by setoid_rewrite trace_slots_all.
Qed.
End visits.
End trial.

Arguments view_alive {m0 s0 F σ γ β δ s}.
Arguments view_deref {m0 s0 F σ γ β δ s}.
Arguments view_upd {m0 s0 F σ γ β δ s}.
Arguments view_free {m0 s0 F σ γ β δ s}.
Arguments view_ext {m0 s0 F σ γ β δ s}.
Arguments view_paint_node {m0 s0 F σ γ β δ s}.
Arguments view_unbuffer {m0 s0 F σ γ β δ s}.
Arguments view_kill {m0 s0 F σ γ β δ s}.
Arguments view_paint {m0 s0 F σ γ β δ s}.
Arguments view_count {m0 s0 F σ γ β δ s}.
Arguments visit_markgray {m0 s0 F β δ ts σ γ s st}.
Arguments visit_scanblack {m0 s0 F β δ ts σ γ s st}.
Arguments visit_collect {m0 s0 F β δ ts σ γ s st}.
Arguments visit_restore {m0 s0 F β δ ts σ γ s st}.
Arguments trace_visits {kind_of m0 s0 F β δ σ γ s mode h st}.
Arguments n_strong {b0 su cu bu du b}.
Arguments n_color {b0 su cu bu du b}.
Arguments n_buffered {b0 su cu bu du b}.
Arguments n_dead {b0 su cu bu du b}.
Arguments n_freed {b0 su cu bu du b}.
Arguments n_taken {b0 su cu bu du b}.
Arguments n_weak {b0 su cu bu du b}.
Arguments n_value {b0 su cu bu du b}.
Arguments v_others {m0 s0 F σ γ β δ s}.
Arguments v_freed {m0 s0 F σ γ β δ s}.
Arguments v_node {m0 s0 F σ γ β δ s}.
Arguments v_none {m0 s0 F σ γ β δ s}.
