(* ===== verification/RcMark.v ===== *)
(** The first two phases of trial deletion: marking takes the edges inside the
    marked graph off the counts, scanning gives them back to what is counted
    from outside. *)

From stdpp Require Import functions.
From S2P Require Import Prelude StateMonad Rc RcWord RcGraph RcTrial.

Section phases.
Context (kind_of : positive -> cc_kind) (m0 : gmap positive NurlCcHdr) (s0 : rt).
Context (Hedges : edges_ok kind_of m0).
Context (σ0 : positive -> Z) (δ : gset positive).

Abbreviation out := (out kind_of m0).
Abbreviation alive := (alive m0).
Abbreviation nodes := (dom m0).

Definition closed (P : positive -> Prop) : Prop := forall u t, P u -> t ∈ out u -> P t.

Lemma alive_node u : alive u -> u ∈ nodes.
Proof. intros (b & Hb & _). by apply elem_of_dom_2 in Hb. Qed.

Lemma out_alive u t : t ∈ out u -> alive t.
Proof. apply Hedges. Qed.

(** What is left of the fuel when a node has been taken care of. *)
Lemma room_step X u (n : nat) (st st' : list positive) :
  u ∈ nodes -> u ∉ X ->
  (length st' <= length st + length (out u))%nat ->
  Z.of_nat (S (length st)) + room out (nodes ∖ X) <= Z.of_nat (S n) ->
  Z.of_nat (length st') + room out (nodes ∖ ({[u]} ∪ X)) <= Z.of_nat n.
Proof using Type.
  clear Hedges σ0. intros Hu HX Hst Hn. rewrite (room_take out (nodes ∖ X) u) in Hn by set_solver.
  replace (nodes ∖ ({[u]} ∪ X)) with (nodes ∖ X ∖ {[u]}) by set_solver. lia.
Qed.

Lemma room_pop (n : nat) (st : list positive) X :
  Z.of_nat (S (length st)) + room out X <= Z.of_nat (S n) -> Z.of_nat (length st) + room out X <= Z.of_nat n.
Proof. lia. Qed.

(** The fuel of a loop covers every handle of every value. *)
Lemma slot_count_sum (m : gmap positive NurlCcHdr) :
  Z.of_nat (slot_count m) = ssum (fun u => Z.of_nat (length (default [] (kids <$> m !! u)))) (dom m).
Proof.
  unfold slot_count. induction m as [|u b m Hu IH] using map_ind; [by rewrite dom_empty_L, ssum_empty|].
  rewrite map_fold_insert_L by (intros; lia || done). rewrite dom_insert_L, ssum_add by by apply not_elem_of_dom.
  rewrite lookup_insert_eq, Nat2Z.inj_add, IH. cbn. f_equal. apply ssum_ext. intros v Hv.
  rewrite lookup_insert_ne; [done|]. intros ->. by apply not_elem_of_dom in Hu.
Qed.

Lemma length_targets ks : (length (targets kind_of ks) <= length ks)%nat.
Proof. induction ks as [|[t|t] ks IH]; cbn; [lia| |lia]. destruct (mem_cyclic (kind_of t)); cbn; lia. Qed.

Lemma dead_out u : ~ alive u -> out u = [].
Proof.
  intros Hu. unfold RcTrial.out. destruct (m0 !! u) as [b|] eqn:E; [|done]. unfold kids.
  destruct (value b) as [ks|] eqn:Ev; [|done]. destruct Hu. exists b. by rewrite Ev.
Qed.

Lemma work_enough F σ γ β s : view m0 s0 F σ γ β δ s -> 1 + room out nodes <= Z.of_nat (work s).
Proof.
  intros V. unfold work. rewrite Nat2Z.inj_succ, slot_count_sum.
  assert (forall u, Z.of_nat (length (out u)) <= Z.of_nat (length (default [] (kids <$> heap s !! u)))) as Hle.
  { intros u. destruct (decide (u ∈ F)) as [HF|HF].
    - destruct (v_freed V u HF) as [_ Hu%dead_out]. rewrite Hu. cbn. lia.
    - unfold RcTrial.out. destruct (m0 !! u) as [b0|] eqn:E; [|cbn; lia].
      destruct (v_node V u b0 E HF) as (b & -> & Hb). cbn. unfold kids. rewrite (n_value Hb).
      pose proof (length_targets (default [] (value b0))). unfold kids in *. lia. }
  assert (dom (heap s) ⊆ nodes) as Hdom.
  { intros u Hu. apply elem_of_dom. destruct (m0 !! u) eqn:E; [done|]. apply (v_none V) in E.
    by apply elem_of_dom in Hu as [? Hu]; rewrite E in Hu. }
  unfold room. rewrite (ssum_split _ _ _ Hdom).
  rewrite (ssum_zero _ (nodes ∖ dom (heap s))).
  - pose proof (ssum_le _ _ (dom (heap s)) (fun u _ => Hle u)). lia.
  - intros u [_ Hu%not_elem_of_dom]%elem_of_difference. specialize (Hle u). rewrite Hu in Hle. cbn in Hle. lia.
Qed.

(** * Marking *)

Section mark.
Context (F β : gset positive) (γ0 : positive -> Z).
Context (Hγ0 : forall u, γ0 u <> NURL_CC_GRAY).

Definition marked (G : gset positive) (s : rt) : Prop :=
  view m0 s0 F (fun u => σ0 u - indeg out G u) (fun u => if decide (u ∈ G) then NURL_CC_GRAY else γ0 u) β δ s.

Lemma markgray_ok n : forall st G s,
  marked G s -> (forall u, u ∈ G \/ u ∈ st -> alive u) -> (forall u t, u ∈ G -> t ∈ out u -> t ∈ G \/ t ∈ st) ->
  Z.of_nat (length st) + room out (nodes ∖ G) <= Z.of_nat n ->
  answers (markgray_loop kind_of n st) s (fun st' s' => st' = [] /\ exists G',
    marked G' s' /\ (forall u, u ∈ G' -> alive u) /\ closed (fun u => u ∈ G') /\ G ⊆ G' /\ (forall u, u ∈ st -> u ∈ G') /\
    (forall P, closed P -> (forall u, u ∈ st -> P u) -> forall u, u ∈ G' -> u ∈ G \/ P u)).
Proof.
  induction n as [|n IH]; intros [|h st] G s Hm Hal Hcl Hn.
  1,3: apply answers_ret; split; [done|]; exists G; split_and!; [done|auto| |done|by intros u ?%elem_of_nil|auto];
    intros u t Hu Ht; destruct (Hcl u t Hu Ht) as [?|[]%elem_of_nil]; done.
  1: cbn in Hn; pose proof (room_nonneg out (nodes ∖ G)); lia.
  cbn [markgray_loop]. assert (alive h) as Hh by (apply Hal; right; apply list_elem_of_here).
  destruct (view_alive Hm h Hh) as (b0 & Hb0 & HF).
  apply answers_bind, (view_deref Hm h b0); [done..|]. intros b Hb. rewrite (n_color Hb).
  destruct (decide (h ∈ G)) as [HG|HG].
  - eapply answers_mono; [apply (IH st G s)|].
    + done.
    + intros u [?|?]; apply Hal; [by left|right; by apply list_elem_of_further].
    + intros u t Hu Ht. destruct (Hcl u t Hu Ht) as [?|[->|?]%elem_of_cons]; auto.
    + by apply room_pop.
    + intros st' s' (-> & G' & Hm' & Hal' & Hcl' & HGG & Hst & HP). split; [done|]. exists G'. split_and!; try done.
      * intros u [->|?]%elem_of_cons; auto.
      * intros P HPc HPst. apply HP; [done|]. intros u Hu. by apply HPst, list_elem_of_further.
  - rewrite (proj2 (Z.eqb_neq _ _)) by apply Hγ0.
    apply answers_bind. eapply answers_mono; [apply (view_paint h NURL_CC_GRAY Hm Hh); cbv; split; discriminate|].
    intros [] s1 V1. apply answers_bind. apply (trace_visits _ V1 Hh).
    eapply answers_mono; [apply (visit_markgray V1); intros t Ht; by apply (out_alive h)|].
    intros st' s2 (V2 & Hsub & Hst & Hng & Hlen).
    eapply answers_mono; [apply (IH st' ({[h]} ∪ G) s2)|].
    + apply (view_ext V2). intros u _ _. cbn beta. rewrite indeg_add by done. split; [lia|]. split; [|done].
      destruct (decide (u = h)) as [->|Hu]; [rewrite fn_lookup_insert, decide_True by set_solver; done|].
      rewrite fn_lookup_insert_ne by done. apply decide_ext. set_solver.
    + intros u [[->%elem_of_singleton|?]%elem_of_union|[?|?]%Hsub]; [done|by apply Hal; left| |].
      * apply Hal; right; by apply list_elem_of_further.
      * by apply (out_alive h).
    + intros u t Hu Ht. destruct (decide (t = h)) as [->|Hth]; [left; set_solver|].
      destruct (decide (t ∈ G)) as [HtG|HtG]; [left; set_solver|]. right.
      apply elem_of_union in Hu as [->%elem_of_singleton|Hu].
      * apply Hng; [done|]. rewrite fn_lookup_insert_ne, decide_False by done. apply Hγ0.
      * destruct (Hcl u t Hu Ht) as [?|[?|?]%elem_of_cons]; [done|done|by apply Hst].
    + apply (room_step G h n st st'); [by apply alive_node|done|done|done].
    + intros st2 s' (-> & G' & Hm' & Hal' & Hcl' & HGG & Hst' & HP). split; [done|]. exists G'. split_and!; try done.
      * set_solver.
      * intros u [->|?]%elem_of_cons; [set_solver|auto].
      * intros P HPc HPst u Hu. destruct (HP P HPc) with u as [?|?]; [|done|set_solver by auto|by right].
        intros v [Hv|Hv]%Hsub; [by apply HPst, list_elem_of_further|].
        apply (HPc h); [apply HPst, list_elem_of_here|done].
Qed.
End mark.

(** The roots [rs] are still to come, those in [live] stay.  Whatever holds of
    the live roots and is kept along edges holds of all that is marked. *)
Context (γi : positive -> Z) (rs0 : list positive).
Context (Hfreed : forall u b, m0 !! u = Some b -> cc_has NURL_CC_FREED (cc b) = true -> value b = None /\ σ0 u = 0).

Record mark_inv (live rs : list positive) (G : gset positive) (γ0 : positive -> Z) (F : gset positive) (s : rt) : Prop := {
  mi_view : exists β, marked F β γ0 G s /\ forall u, u ∈ β <-> u ∈ live \/ u ∈ rs;
  mi_alive u : u ∈ G -> alive u;
  mi_closed : closed (fun u => u ∈ G);
  mi_live u : u ∈ live -> u ∈ G;
  mi_suspect u : u ∈ live -> u ∈ rs0 /\ γi u = NURL_CC_PURPLE /\ 0 < σ0 u;
  mi_gen P : closed P -> (forall u, u ∈ live -> P u) -> forall u, u ∈ G -> P u;
  mi_nodup : NoDup (live ++ rs);
  mi_rs u : u ∈ rs -> u ∈ rs0 /\ u ∈ nodes /\ u ∉ F /\ γ0 u = γi u;
  mi_color u : u ∈ nodes -> γ0 u = NURL_CC_BLACK \/ γ0 u = NURL_CC_PURPLE /\ (u ∈ rs \/ u ∈ G \/ ~ alive u);
  mi_done u : u ∈ rs0 -> γi u = NURL_CC_PURPLE -> 0 < σ0 u -> u ∈ rs \/ u ∈ G;
  mi_freed u b : m0 !! u = Some b ->
    (u ∈ F -> u ∈ rs0 /\ cc_has NURL_CC_FREED (cc b) = true /\ weak b = 0) /\
    (u ∈ rs0 -> cc_has NURL_CC_FREED (cc b) = true -> weak b = 0 -> u ∈ F \/ u ∈ rs) }.

Lemma mark_markgray F β γ0 G h s :
  marked F β γ0 G s -> (forall u, γ0 u <> NURL_CC_GRAY) -> (forall u, u ∈ G -> alive u) -> closed (fun u => u ∈ G) -> alive h ->
  answers (nurl__cc_markgray kind_of [] h) s (fun st' s' => st' = [] /\ exists G',
    marked F β γ0 G' s' /\ (forall u, u ∈ G' -> alive u) /\ closed (fun u => u ∈ G') /\ G ⊆ G' /\ h ∈ G' /\
    (forall P, closed P -> P h -> forall u, u ∈ G' -> u ∈ G \/ P u)).
Proof.
  intros Hm Hγ Hal Hcl Hh. unfold nurl__cc_markgray. apply answers_bind, answers_get.
  eapply answers_mono; [apply (markgray_ok F β γ0 Hγ _ [h] G s Hm)|].
  - intros u [?| ->%list_elem_of_singleton]; auto.
  - intros u t Hu Ht. left. by apply (Hcl u).
  - cbn [length]. pose proof (work_enough _ _ _ _ _ Hm). pose proof (room_mono out (nodes ∖ G) nodes ltac:(set_solver)). lia.
  - intros st' s' (-> & G' & Hm' & Hal' & Hcl' & HGG & Hst & HP). split; [done|]. exists G'.
    split_and!; try done; [apply Hst, list_elem_of_here|]. intros P HPc HPh. apply HP; [done|].
    by intros u ->%list_elem_of_singleton.
Qed.

Lemma mark_keep live h rs G γ0 F s :
  mark_inv live (h :: rs) G γ0 F s -> (forall u, γ0 u <> NURL_CC_GRAY) -> alive h -> γi h = NURL_CC_PURPLE -> 0 < σ0 h ->
  answers (st' ← nurl__cc_markgray kind_of [] h; mret (st', live ++ [h])) s (fun r s' =>
    exists G', r = ([], live ++ [h]) /\ mark_inv (live ++ [h]) rs G' γ0 F s').
Proof.
  intros [(β & Hm & Hβ) Hal Hcl Hlive Hsus Hgen Hnd Hrs Hcol Hdone HF] Hγ Hh Hhc Hhs.
  apply answers_bind. eapply answers_mono; [by apply (mark_markgray _ _ _ _ _ _ Hm)|].
  intros st' s' (-> & G' & Hm' & Hal' & Hcl' & HGG & HhG & HP). apply answers_ret. exists G'. split; [done|].
  split; try done.
  - exists β. split; [done|]. intros u. rewrite Hβ, elem_of_app, elem_of_cons, list_elem_of_singleton. tauto.
  - intros u [?| ->%list_elem_of_singleton]%elem_of_app; auto.
  - intros u [?| ->%list_elem_of_singleton]%elem_of_app; [auto|]. split; [|done]. apply (Hrs h), list_elem_of_here.
  - intros P HPc HPl u Hu. destruct (HP P HPc) with u as [HuG|?]; [|done| |done].
    + apply HPl, elem_of_app. right. apply list_elem_of_here.
    + apply (Hgen P HPc); [|done]. intros v Hv. apply HPl, elem_of_app. by left.
  - by rewrite <- app_assoc.
  - intros u Hu. apply Hrs, list_elem_of_further, Hu.
  - intros u Hu. destruct (Hcol u Hu) as [?|[? [[->|?]%elem_of_cons|[?|?]]]]; [by left|right; split; [done|auto]..].
  - intros u Hu Hp Hc. destruct (Hdone u Hu Hp Hc) as [[->|?]%elem_of_cons|?]; auto.
  - intros u b Hb. destruct (HF u b Hb) as [HF1 HF2]. split; [done|]. intros Hu Hf Hw.
    destruct (HF2 Hu Hf Hw) as [?|[->|?]%elem_of_cons]; auto. exfalso.
    destruct Hh as (b1 & Hb1 & Hv). assert (b1 = b) as -> by congruence. destruct (Hfreed h b Hb Hf) as [Hn _].
    rewrite Hn in Hv. by destruct Hv.
Qed.

Lemma outside_count (G : gset positive) u : closed (fun u => u ∈ G) -> u ∉ G -> indeg out G u = 0.
Proof. intros Hcl Hu. apply indeg_zero. intros v Hv Huv. by apply Hu, (Hcl v). Qed.

(** A root that does not stay is unbuffered, and freed when only the buffer
    kept it. *)
Definition unmark (h : positive) (c : bool) (γ : positive -> Z) : positive -> Z :=
  if c then <[h := NURL_CC_BLACK]> γ else γ.

Lemma unmark_other h c γ u : u <> h -> unmark h c γ u = γ u.
Proof. intros Hu. unfold unmark. destruct c; [by apply fn_lookup_insert_ne|done]. Qed.

Lemma mark_release F β γ0 G h s b0 b (live : list positive) :
  marked F β γ0 G s -> m0 !! h = Some b0 -> h ∉ F -> (forall u, u ∈ G -> alive u) ->
  node b0 (σ0 h - indeg out G h) (if decide (h ∈ G) then NURL_CC_GRAY else γ0 h) (bool_decide (h ∈ β)) (bool_decide (h ∈ δ)) b ->
  answers (upd h (with_cc (cc_clear NURL_CC_BUFFERED));;
    (if nurl__cc_color (cc b) =? NURL_CC_PURPLE then paint NURL_CC_BLACK h else mret tt);;
    (if (strong b <=? 0) && cc_has NURL_CC_FREED (cc b) then nurl__cc_free_block h else mret tt);;
    mret ([], live)) s (fun r s' =>
    exists F', r = ([] : list positive, live) /\ F ⊆ F' /\ (forall u, u ∈ F' -> u ∈ F \/ u = h) /\
      (h ∈ F' <-> cc_has NURL_CC_FREED (cc b0) = true /\ weak b0 = 0) /\
      marked F' (β ∖ {[h]}) (unmark h (nurl__cc_color (cc b) =? NURL_CC_PURPLE) γ0) G s').
Proof.
  intros Hm Hb0 HF Hal Hb. apply answers_bind. eapply answers_mono; [by apply (view_unbuffer h b0 Hm)|]. intros [] s1 V1.
  apply answers_bind. apply (answers_mono _ _ (fun _ => marked F (β ∖ {[h]}) (unmark h (nurl__cc_color (cc b) =? NURL_CC_PURPLE) γ0) G)).
  - unfold unmark. rewrite (n_color Hb). destruct (Z.eqb_spec (if decide (h ∈ G) then NURL_CC_GRAY else γ0 h) NURL_CC_PURPLE) as [Hc|Hc];
      [|by apply answers_ret].
    eapply answers_mono; [apply (view_paint_node h b0 NURL_CC_BLACK V1 Hb0 HF); cbv; split; discriminate|].
    intros [] s2 V2. apply (view_ext V2). intros u _ _. split; [done|]. split; [|done].
    destruct (decide (h ∈ G)) as [|HG]; [done|]. destruct (decide (u = h)) as [->|Hu].
    + by rewrite decide_False, !fn_lookup_insert.
    + by rewrite !fn_lookup_insert_ne.
  - intros [] s2 V2. apply answers_bind. rewrite (n_freed Hb), (n_strong Hb). destruct (cc_has NURL_CC_FREED (cc b0)) eqn:Ef.
    + destruct (Hfreed h b0 Hb0 Ef) as [Hv Hz]. pose proof (indeg_nonneg out G h). rewrite Hz, (proj2 (Z.leb_le _ _)) by lia.
      eapply answers_mono; [by apply (view_free V2 h b0)|]. intros [] s3 (F' & HFF & HFh & Hw & Hnw & V3).
      apply answers_ret. exists F'. split; [done|]. split; [done|]. split; [set_solver|]. split; [|done].
      destruct (decide (weak b0 = 0)); naive_solver.
    + rewrite andb_false_r. apply answers_ret, answers_ret. exists F. split; [done|]. split; [done|]. split; [auto|]. split; [naive_solver|done].
Qed.

Lemma mark_drop live h rs G γ0 F s b0 b β F' s' :
  mark_inv live (h :: rs) G γ0 F s -> m0 !! h = Some b0 -> h ∉ F ->
  nurl__cc_color (cc b) = (if decide (h ∈ G) then NURL_CC_GRAY else γ0 h) -> strong b = σ0 h - indeg out G h ->
  ~ (nurl__cc_color (cc b) = NURL_CC_PURPLE /\ 0 < strong b) ->
  F ⊆ F' -> (forall u, u ∈ F' -> u ∈ F \/ u = h) -> (h ∈ F' <-> cc_has NURL_CC_FREED (cc b0) = true /\ weak b0 = 0) ->
  (forall u, u ∈ β <-> u ∈ live \/ u ∈ h :: rs) ->
  marked F' (β ∖ {[h]}) (unmark h (nurl__cc_color (cc b) =? NURL_CC_PURPLE) γ0) G s' ->
  mark_inv live rs G (unmark h (nurl__cc_color (cc b) =? NURL_CC_PURPLE) γ0) F' s'.
Proof.
  intros [_ Hal Hcl Hlive Hsus Hgen Hnd Hrs Hcol Hdone HFr] Hb0 HF Hc Hst Hnot HFF HF' HhF Hβ Hm'.
  apply NoDup_app in Hnd as (Hnd1 & Hnd2 & [Hnd3 Hnd4]%NoDup_cons).
  split; try done.
  - exists (β ∖ {[h]}). split; [done|]. intros u. rewrite elem_of_difference, Hβ, elem_of_cons, elem_of_singleton.
    specialize (Hnd2 u). rewrite elem_of_cons in Hnd2. split; [tauto|]. intros [Hu|Hu]; split; auto; intros ->; tauto.
  - apply NoDup_app. split; [done|]. split; [|done]. intros u Hu Hr. by apply (Hnd2 u Hu), list_elem_of_further.
  - intros u Hu. destruct (Hrs u (list_elem_of_further _ _ _ Hu)) as (? & ? & ? & ?).
    assert (u <> h) by (by intros ->). split_and!; try done; [intros [?|?]%HF'; done|]. by rewrite unmark_other.
  - intros u Hu. destruct (decide (u = h)) as [->|Hne].
    + unfold unmark. destruct (Z.eqb_spec (nurl__cc_color (cc b)) NURL_CC_PURPLE) as [Hp|Hp]; [left; by rewrite fn_lookup_insert|].
      rewrite Hc in Hp. destruct (Hcol h Hu) as [?|[? _]]; [by left|]. right. split; [done|]. right. left.
      by destruct (decide (h ∈ G)).
    + rewrite unmark_other by done. destruct (Hcol u Hu) as [?|[? [[->|?]%elem_of_cons|[?|?]]]]; [by left|done|right; split; [done|auto]..].
  - intros u Hu Hp Hs. destruct (Hdone u Hu Hp Hs) as [[->|?]%elem_of_cons|?]; auto. right.
    destruct (decide (h ∈ G)) as [|HG]; [done|]. destruct Hnot. rewrite Hst, (outside_count G h Hcl HG).
    split; [|lia]. rewrite Hc. destruct (Hrs h (list_elem_of_here _ _)) as (_ & _ & _ & ->). done.
  - intros u b1 Hb1. destruct (HFr u b1 Hb1) as [H1 H2]. split.
    + intros Hu. destruct (HF' u Hu) as [?| ->]; [auto|]. assert (b1 = b0) as -> by congruence.
      split; [apply (Hrs h), list_elem_of_here|by apply HhF].
    + intros Hu Hf Hw. destruct (H2 Hu Hf Hw) as [?|[->|?]%elem_of_cons]; [left; set_solver|left|by right].
      assert (b1 = b0) as -> by congruence. by apply HhF.
Qed.

Context (Hpos : forall u, u ∈ nodes -> 0 < σ0 u -> alive u).

Lemma mark_root_ok live h rs G γ0 F s :
  mark_inv live (h :: rs) G γ0 F s -> (forall u, γ0 u <> NURL_CC_GRAY) ->
  answers (mark_root kind_of [] live h) s (fun r s' => exists live' G' γ0' F',
    r = ([], live') /\ (forall u, γ0' u <> NURL_CC_GRAY) /\ mark_inv live' rs G' γ0' F' s').
Proof.
  intros Hi Hγ. pose proof Hi as [(β & Hm & Hβ) Hal Hcl _ _ _ _ Hrs _ _ _].
  destruct (Hrs h (list_elem_of_here _ _)) as (_ & Hh & HF & Hγi). pose proof Hh as [b0 Hb0]%elem_of_dom.
  unfold mark_root. apply answers_bind, (view_deref Hm h b0); [done..|]. intros b Hb.
  destruct ((nurl__cc_color (cc b) =? NURL_CC_PURPLE) && (0 <? strong b)) eqn:E.
  - apply andb_true_iff in E as [Hc%Z.eqb_eq Hs%Z.ltb_lt]. rewrite (n_strong Hb) in Hs.
    pose proof (indeg_nonneg out G h). 
    assert (0 < σ0 h) by lia. assert (γi h = NURL_CC_PURPLE).
    { rewrite <- Hγi. rewrite (n_color Hb) in Hc. by destruct (decide (h ∈ G)). }
    eapply answers_mono; [apply (mark_keep _ _ _ _ _ _ _ Hi Hγ); [by apply Hpos|done|done]|].
    intros r s' (G' & -> & Hi'). by exists (live ++ [h]), G', γ0, F.
  - assert (~ (nurl__cc_color (cc b) = NURL_CC_PURPLE /\ 0 < strong b)) as Hnot.
    { intros [Hc%Z.eqb_eq Hs%Z.ltb_lt]. by rewrite Hc, Hs in E. }
    eapply answers_mono; [by apply (mark_release F β γ0 G h s b0 b live Hm)|].
    intros r s' (F' & -> & HFF & HF' & HhF & Hm'). eexists live, G, _, F'. split; [done|].
    split; [|by eapply (mark_drop live h rs G γ0 F s b0 b β F' s' Hi); try done; [apply (n_color Hb)|apply (n_strong Hb)]].
    intros u. unfold unmark. destruct (_ =? _); [|done]. destruct (decide (u = h)) as [->|Hu].
    + by rewrite fn_lookup_insert.
    + by rewrite fn_lookup_insert_ne.
Qed.

Lemma mark_roots_ok rs : forall live G γ0 F s,
  mark_inv live rs G γ0 F s -> (forall u, γ0 u <> NURL_CC_GRAY) ->
  answers (mark_roots kind_of rs [] live) s (fun r s' => exists live' G' γ0' F',
    r = ([], live') /\ (forall u, γ0' u <> NURL_CC_GRAY) /\ mark_inv live' [] G' γ0' F' s').
Proof.
  induction rs as [|h rs IH]; intros live G γ0 F s Hi Hγ; cbn [mark_roots].
  - apply answers_ret. by exists live, G, γ0, F.
  - apply answers_bind. eapply answers_mono; [by apply (mark_root_ok live h rs G γ0 F s Hi)|].
    intros r s' (live' & G' & γ0' & F' & -> & Hγ' & Hi'). by apply (IH live' G' γ0' F').
Qed.
End phases.
