(* ===== verification/RcScan.v ===== *)
(** The other two phases of trial deletion: what is counted from outside the
    marked graph is blackened with all it reaches, the rest is collected. *)

From stdpp Require Import functions.
From S2P Require Import Prelude StateMonad Rc RcWord RcGraph RcTrial RcMark.

Section scan.
Context (kind_of : positive -> cc_kind) (m0 : gmap positive NurlCcHdr) (s0 : rt).
Context (Hedges : edges_ok kind_of m0).
Context (σ0 : positive -> Z) (F β δ : gset positive) (γ0 : positive -> Z).
Context (G : gset positive).

Abbreviation out := (RcTrial.out kind_of m0).
Abbreviation alive := (RcTrial.alive m0).
Abbreviation nodes := (dom m0).
Abbreviation closed := (RcMark.closed kind_of m0).

Context (HGal : forall u, u ∈ G -> alive u) (HGcl : closed (fun u => u ∈ G)).

(** Black blocks are in [B], those of [T] have been traced; white ones in [W]. *)
Definition scan_color (B W : gset positive) (u : positive) : Z :=
  if decide (u ∈ B) then NURL_CC_BLACK
  else if decide (u ∈ W) then NURL_CC_WHITE
  else if decide (u ∈ G) then NURL_CC_GRAY else γ0 u.

Definition scanned (T B W : gset positive) (s : rt) : Prop :=
  view m0 s0 F (fun u => σ0 u - indeg out (G ∖ T) u) (scan_color B W) β δ s.

Lemma scan_color_black B W u : u ∈ G -> (scan_color B W u = NURL_CC_BLACK <-> u ∈ B).
Proof.
  intros Hu. unfold scan_color. rewrite (decide_True (P := u ∈ G)) by done.
  destruct (decide (u ∈ B)), (decide (u ∈ W)); by split.
Qed.

Lemma scan_color_gray B W u : u ∈ G -> (scan_color B W u = NURL_CC_GRAY <-> u ∉ B /\ u ∉ W).
Proof.
  intros Hu. unfold scan_color. rewrite (decide_True (P := u ∈ G)) by done.
  destruct (decide (u ∈ B)), (decide (u ∈ W)); split; (done || tauto).
Qed.

Lemma scan_color_paint B W h u :
  (<[h := NURL_CC_BLACK]> (scan_color B W)) u = scan_color ({[h]} ∪ B) W u.
Proof.
  destruct (decide (u = h)) as [->|Hu].
  - rewrite fn_lookup_insert. unfold scan_color. by rewrite decide_True by set_solver.
  - rewrite fn_lookup_insert_ne by done. unfold scan_color.
    by rewrite (decide_ext (u ∈ {[h]} ∪ B) (u ∈ B)) by set_solver.
Qed.

Lemma scan_color_white B W h u :
  h ∉ B -> (<[h := NURL_CC_WHITE]> (scan_color B W)) u = scan_color B ({[h]} ∪ W) u.
Proof.
  intros Hh. destruct (decide (u = h)) as [->|Hu].
  - rewrite fn_lookup_insert. unfold scan_color. by rewrite decide_False, decide_True by set_solver.
  - rewrite fn_lookup_insert_ne by done. unfold scan_color.
    by rewrite (decide_ext (u ∈ {[h]} ∪ W) (u ∈ W)) by set_solver.
Qed.

Lemma scanblack_ok W n : forall pend (st0 : list positive) T B s,
  scanned T B W s -> B ⊆ G -> (forall u, u ∈ B <-> u ∈ T \/ u ∈ pend) -> NoDup pend -> (forall u, u ∈ pend -> u ∉ T) ->
  (forall u t, u ∈ T -> t ∈ out u -> t ∈ B) ->
  Z.of_nat (length pend) + room out (nodes ∖ T) <= Z.of_nat n ->
  answers (scanblack_loop kind_of n (length st0) (pend ++ st0)) s (fun st' s' => st' = st0 /\ exists B',
    scanned B' B' W s' /\ B ⊆ B' /\ B' ⊆ G /\ closed (fun u => u ∈ B') /\
    (forall P, closed P -> (forall u, u ∈ pend -> P u) -> forall u, u ∈ B' -> u ∈ B \/ P u)).
Proof.
  induction n as [|n IH]; intros [|h pend] st0 T B s Hs HBG HB Hnd HT Hcl Hn.
  1,3: cbn [scanblack_loop app]; rewrite Nat.leb_refl; apply answers_ret; split; [done|]; exists B;
    assert (T = B) as -> by (apply set_eq; intros u; rewrite HB, elem_of_nil; tauto);
    split_and!; [done|done|done|done|auto].
  1: cbn in Hn; pose proof (room_nonneg out (nodes ∖ T)); lia.
  apply NoDup_cons in Hnd as [Hhp Hnd]. pose proof (HT h (list_elem_of_here _ _)) as HhT.
  assert (h ∈ G) as HhG by (apply HBG, HB; right; apply list_elem_of_here).
  pose proof (HGal h HhG) as Hh. cbn [scanblack_loop app length].
  rewrite (proj2 (Nat.leb_gt _ _)) by (cbn; rewrite length_app; lia).
  apply answers_bind, (trace_visits _ Hs Hh).
  eapply answers_mono; [apply (visit_scanblack Hs); intros t Ht; by apply (Hedges h)|].
  intros st' s1 (V1 & new & -> & Hnew & Hin & Hlen).
  assert (forall t, t ∈ out h -> t ∈ G) as HhoG by (intros t; by apply HGcl).
  assert (forall t, t ∈ new <-> t ∈ out h /\ t ∉ B) as Hin'.
  { intros t. rewrite Hin. split; intros [Ht Hc]; split; try done; rewrite scan_color_black in *; auto. }
  rewrite app_assoc. eapply answers_mono; [apply (IH (new ++ pend) st0 ({[h]} ∪ T) (B ∪ list_to_set (out h)) s1)|].
  - apply (view_ext V1). intros u _ _. cbn beta. split; [|split; [|done]].
    + unfold indeg. rewrite (ssum_take _ h (G ∖ T)) by set_solver.
      replace (G ∖ T ∖ {[h]}) with (G ∖ ({[h]} ∪ T)) by set_solver. lia.
    + unfold scan_color at 1. destruct (decide (u ∈ out h)) as [Hu|Hu]; [by rewrite decide_True by set_solver|].
      unfold scan_color. by rewrite (decide_ext (u ∈ B ∪ list_to_set (out h)) (u ∈ B)) by set_solver.
  - intros u. rewrite elem_of_union, elem_of_list_to_set. intros [?|?]; auto.
  - intros u. rewrite !elem_of_union, elem_of_list_to_set, elem_of_app, elem_of_singleton, Hin', HB, elem_of_cons.
    destruct (decide (u ∈ B)) as [Hu|Hu]; rewrite HB, elem_of_cons in Hu; tauto.
  - apply NoDup_app. split; [done|]. split; [|done]. intros t [_ Ht]%Hin' Hp. apply Ht, HB. right.
    by apply list_elem_of_further.
  - intros u [[_ Hu]%Hin'|Hu]%elem_of_app [->%elem_of_singleton|HuT]%elem_of_union; try done.
    + apply Hu, HB. right. apply list_elem_of_here.
    + apply Hu, HB. by left.
    + by apply (HT u); [apply list_elem_of_further|].
  - intros u t [->%elem_of_singleton|Hu]%elem_of_union Ht; apply elem_of_union; [right; by apply elem_of_list_to_set|].
    left. by apply (Hcl u).
  - apply (room_step kind_of m0 T h n pend); [by apply alive_node|done| |done]. rewrite length_app. lia.
  - intros st' s' (-> & B' & Hs' & HBB & HBG' & Hcl' & HP). split; [done|]. exists B'. split_and!; [done|set_solver|done|done|].
    intros P HPc HPp u Hu. destruct (HP P HPc) with u as [HuB|?]; [|done| |by right].
    + intros v [[Hv _]%Hin'|Hv]%elem_of_app; [|by apply HPp, list_elem_of_further].
      apply (HPc h); [apply HPp, list_elem_of_here|done].
    + apply elem_of_union in HuB as [?|Hv%elem_of_list_to_set]; [by left|right].
      apply (HPc h); [apply HPp, list_elem_of_here|done].
Qed.

Lemma scanblack_root W B (st0 : list positive) h s :
  scanned B B W s -> B ⊆ G -> closed (fun u => u ∈ B) -> h ∈ G -> h ∉ B ->
  answers (nurl__cc_scanblack kind_of st0 h) s (fun st' s' => st' = st0 /\ exists B',
    scanned B' B' W s' /\ B ⊆ B' /\ h ∈ B' /\ B' ⊆ G /\ closed (fun u => u ∈ B') /\
    (forall P, closed P -> P h -> forall u, u ∈ B' -> u ∈ B \/ P u)).
Proof.
  intros Hs HBG Hcl HhG HhB. unfold nurl__cc_scanblack. apply answers_bind.
  eapply answers_mono; [apply (view_paint h NURL_CC_BLACK Hs (HGal h HhG)); cbv; split; discriminate|].
  intros [] s1 V1. apply answers_bind, answers_get.
  eapply answers_mono; [apply (scanblack_ok W _ [h] st0 B ({[h]} ∪ B) s1)|].
  - apply (view_ext V1). intros u _ _. split; [done|]. split; [|done]. symmetry. apply scan_color_paint.
  - intros u [->%elem_of_singleton|?]%elem_of_union; auto.
  - intros u. rewrite elem_of_union, elem_of_singleton, list_elem_of_singleton. tauto.
  - apply NoDup_singleton.
  - by intros u ->%list_elem_of_singleton.
  - intros u t Hu Ht. apply elem_of_union. right. by apply (Hcl u).
  - cbn [length]. pose proof (work_enough kind_of _ _ _ _ _ _ _ _ V1).
    pose proof (room_mono out (nodes ∖ B) nodes ltac:(set_solver)). lia.
  - intros st' s' (-> & B' & Hs' & HBB & HBG' & Hcl' & HP). split; [done|]. exists B'. split_and!; [done|set_solver|set_solver|done|done|].
    intros P HPc HPh u Hu. destruct (HP P HPc) with u as [[->%elem_of_singleton|?]%elem_of_union|?]; auto.
    by intros v ->%list_elem_of_singleton.
Qed.

(** What is black is reached from a block counted from outside [G]; what is
    white is not counted from outside. *)
Record scan_inv (st : list positive) (B W : gset positive) (s : rt) : Prop := {
  si_view : scanned B B W s;
  si_closed : closed (fun u => u ∈ B);
  si_black : B ⊆ G;
  si_white : W ⊆ G;
  si_out u : u ∈ W -> σ0 u <= indeg out G u;
  si_next u t : u ∈ W -> t ∈ out u -> t ∈ B ∪ W \/ t ∈ st;
  si_stack u : u ∈ st -> u ∈ G;
  si_gen P : closed P -> (forall u, u ∈ G -> indeg out G u < σ0 u -> P u) -> forall u, u ∈ B -> P u }.

Lemma scan_count B h : closed (fun u => u ∈ B) -> B ⊆ G -> h ∉ B -> indeg out (G ∖ B) h = indeg out G h.
Proof.
  intros Hcl HBG Hh. rewrite (indeg_split out B G h HBG), (outside_count kind_of m0 B h Hcl Hh). lia.
Qed.

Lemma scan_loop_ok n : forall st B W s,
  scan_inv st B W s -> Z.of_nat (length st) + room out (nodes ∖ (B ∪ W)) <= Z.of_nat n ->
  answers (scan_loop kind_of n st []) s (fun r s' => r = ([], []) /\ exists B' W',
    scan_inv [] B' W' s' /\ B ∪ W ⊆ B' ∪ W' /\ (forall u, u ∈ st -> u ∈ B' ∪ W')).
Proof.
  induction n as [|n IH]; intros [|h st] B W s Hi Hn.
  1,3: apply answers_ret; split; [done|]; exists B, W; split_and!; [done|done|by intros u ?%elem_of_nil].
  1: cbn in Hn; pose proof (room_nonneg out (nodes ∖ (B ∪ W))); lia.
  destruct Hi as [Hs Hcl HB HW Hout Hnext Hst Hgen]. cbn [scan_loop].
  pose proof (Hst h (list_elem_of_here _ _)) as HhG. pose proof (HGal h HhG) as Hh.
  destruct (view_alive Hs h Hh) as (b0 & Hb0 & HF).
  apply answers_bind, (view_deref Hs h b0); [done..|]. intros b Hb. rewrite (n_color Hb), (n_strong Hb).
  assert (forall u, u ∈ st -> u ∈ G) as Hst' by (intros u Hu; by apply Hst, list_elem_of_further).
  destruct (Z.eqb_spec (scan_color B W h) NURL_CC_GRAY) as [Hc|Hc]; cbn [negb].
  - apply scan_color_gray in Hc as [HhB HhW]; [|done]. destruct (Z.ltb_spec 0 (σ0 h - indeg out (G ∖ B) h)) as [Hpos|Hneg];
      rewrite scan_count in * by done.
    + apply answers_bind. eapply answers_mono; [by apply (scanblack_root W B [] h s Hs)|].
      intros aux s1 (-> & B' & Hs' & HBB & HhB' & HBG & Hcl' & HP).
      eapply answers_mono; [apply (IH st B' W s1)|].
      * split; try done.
        -- intros u t Hu Ht. destruct (Hnext u t Hu Ht) as [?|[->|?]%elem_of_cons]; [left; set_solver..|by right].
        -- intros P HPc HPo u Hu. destruct (HP P HPc) with u as [?|?]; [apply HPo; [done|lia]|done|by apply (Hgen P)|done].
      * pose proof (room_mono out (nodes ∖ (B' ∪ W)) (nodes ∖ (B ∪ W)) ltac:(set_solver)). cbn in Hn. lia.
      * intros r s' (-> & B2 & W2 & Hi2 & Hsub & Hin). split; [done|]. exists B2, W2. split_and!; [done|set_solver|].
        intros u [->|?]%elem_of_cons; [set_solver|auto].
    + apply answers_bind. eapply answers_mono; [apply (view_paint h NURL_CC_WHITE Hs Hh); cbv; split; discriminate|].
      intros [] s1 V1. apply answers_bind, (trace_visits _ V1 Hh).
      eapply answers_mono; [apply visit_scan|]. intros st' s2 [-> ->].
      eapply answers_mono; [apply (IH _ B ({[h]} ∪ W) s1)|].
      * split; try done.
        -- apply (view_ext V1). intros u _ _. split; [done|]. split; [|done]. symmetry. by apply scan_color_white.
        -- set_solver.
        -- intros u [->%elem_of_singleton|?]%elem_of_union; [lia|auto].
        -- intros u t [->%elem_of_singleton|Hu]%elem_of_union Ht.
           ++ right. apply elem_of_app. left. by apply elem_of_reverse.
           ++ destruct (Hnext u t Hu Ht) as [?|[->|?]%elem_of_cons]; [left; set_solver..|right; apply elem_of_app; by right].
        -- intros u [Hu|?]%elem_of_app; [rewrite elem_of_reverse in Hu; exact (HGcl h u HhG Hu)|auto].
      * replace (B ∪ ({[h]} ∪ W)) with ({[h]} ∪ (B ∪ W)) by set_solver.
        apply (room_step kind_of m0 (B ∪ W) h n st); [by apply alive_node|set_solver| |done].
        rewrite length_app, length_reverse. lia.
      * intros r s' (-> & B2 & W2 & Hi2 & Hsub & Hin). split; [done|]. exists B2, W2. split_and!; [done|set_solver|].
        intros u [->|?]%elem_of_cons; [set_solver|]. apply Hin, elem_of_app. by right.
  - assert (h ∈ B ∪ W) as HhBW.
    { destruct (decide (h ∈ B ∪ W)); [done|]. destruct Hc. apply scan_color_gray; [done|set_solver]. }
    eapply answers_mono; [apply (IH st B W s)|].
    + split; try done. intros u t Hu Ht. destruct (Hnext u t Hu Ht) as [?|[->|?]%elem_of_cons]; auto.
    + cbn in Hn. lia.
    + intros r s' (-> & B2 & W2 & Hi2 & Hsub & Hin). split; [done|]. exists B2, W2. split_and!; [done|done|].
      intros u [->|?]%elem_of_cons; [by apply Hsub|auto].
Qed.

Lemma scan_roots_ok rs : forall B W s,
  scan_inv [] B W s -> (forall u, u ∈ rs -> u ∈ G) ->
  answers (scan_roots kind_of rs [] []) s (fun r s' => r = ([], []) /\ exists B' W',
    scan_inv [] B' W' s' /\ B ∪ W ⊆ B' ∪ W' /\ (forall u, u ∈ rs -> u ∈ B' ∪ W')).
Proof.
  induction rs as [|h rs IH]; intros B W s Hi Hrs; cbn [scan_roots].
  { apply answers_ret. split; [done|]. exists B, W. split_and!; [done|done|by intros u ?%elem_of_nil]. }
  apply answers_bind. unfold nurl__cc_scan. apply answers_bind, answers_get.
  eapply answers_mono; [apply (scan_loop_ok _ [h] B W s)|].
  - destruct Hi as [Hs Hcl HB HW Hout Hnext Hst Hgen]. split; try done.
    + intros u t Hu Ht. destruct (Hnext u t Hu Ht) as [?|[]%elem_of_nil]. by left.
    + intros u ->%list_elem_of_singleton. apply Hrs, list_elem_of_here.
  - pose proof (work_enough kind_of _ _ _ _ _ _ _ _ (si_view _ _ _ _ Hi)).
    pose proof (room_mono out (nodes ∖ (B ∪ W)) nodes ltac:(set_solver)). cbn [length]. lia.
  - intros r s' (-> & B1 & W1 & Hi1 & Hsub & Hin).
    eapply answers_mono; [apply (IH B1 W1 s' Hi1); intros u Hu; by apply Hrs, list_elem_of_further|].
    intros r s2 (-> & B2 & W2 & Hi2 & Hsub2 & Hin2). split; [done|]. exists B2, W2. split_and!; [done|set_solver|].
    intros u [->|?]%elem_of_cons; [|auto]. apply Hsub2, Hin, list_elem_of_here.
Qed.
End scan.
