(* ===== verification/RcCollect.v ===== *)
(** The end of trial deletion: the white blocks become the garbage list, its
    edges into other blocks are given back. *)

From stdpp Require Import functions.
From S2P Require Import Prelude StateMonad Rc RcWord RcGraph RcTrial RcMark RcScan.

Section collect.
Context (kind_of : positive -> cc_kind) (m0 : gmap positive NurlCcHdr) (s0 : rt).
Context (Hedges : edges_ok kind_of m0).
Context (σ1 : positive -> Z) (F : gset positive) (γ0 : positive -> Z).
Context (G Wh δ0 : gset positive).

Abbreviation out := (RcTrial.out kind_of m0).
Abbreviation alive := (RcTrial.alive m0).
Abbreviation nodes := (dom m0).
Abbreviation closed := (RcMark.closed kind_of m0).

Context (HGal : forall u, u ∈ G -> alive u) (HGcl : closed (fun u => u ∈ G)) (HWG : Wh ⊆ G).

Definition collect_color (D : gset positive) (u : positive) : Z :=
  if decide (u ∈ Wh ∖ D) then NURL_CC_WHITE else if decide (u ∈ G) then NURL_CC_BLACK else γ0 u.

Record collect_inv (β : gset positive) (st garbage : list positive) (D : gset positive) (s : rt) : Prop := {
  ci_view : view m0 s0 F σ1 (collect_color D) β (D ∪ δ0) s;
  ci_white : D ⊆ Wh;
  ci_list u : u ∈ garbage <-> u ∈ D;
  ci_nodup : NoDup garbage;
  ci_stack u : u ∈ st -> u ∈ G;
  ci_next u t : u ∈ D -> t ∈ out u -> t ∈ Wh -> t ∈ D \/ t ∈ β \/ t ∈ st }.

Lemma collect_color_white D u : u ∈ G -> (collect_color D u = NURL_CC_WHITE <-> u ∈ Wh /\ u ∉ D).
Proof.
  intros Hu. unfold collect_color. rewrite (decide_True (P := u ∈ G)) by done.
  destruct (decide (u ∈ Wh ∖ D)) as [H|H]; set_solver.
Qed.

Lemma collect_color_paint D h u :
  h ∈ G -> (<[h := NURL_CC_BLACK]> (collect_color D)) u = collect_color ({[h]} ∪ D) u.
Proof.
  intros Hh. destruct (decide (u = h)) as [->|Hu].
  - rewrite fn_lookup_insert. unfold collect_color. by rewrite decide_False, decide_True by set_solver.
  - rewrite fn_lookup_insert_ne by done. unfold collect_color.
    by rewrite (decide_ext (u ∈ Wh ∖ ({[h]} ∪ D)) (u ∈ Wh ∖ D)) by set_solver.
Qed.

Lemma collect_step β h st garbage D s :
  collect_inv β (h :: st) garbage D s -> h ∈ Wh -> h ∉ D -> h ∉ β ->
  answers (paint NURL_CC_BLACK h;; upd h (with_cc (cc_set NURL_CC_DEAD));; trace kind_of COLLECT h st) s (fun st' s' =>
    collect_inv β st' (garbage ++ [h]) ({[h]} ∪ D) s' /\ (forall u, u ∈ st -> u ∈ st') /\
    (length st' <= length st + length (out h))%nat).
Proof.
  intros [V HDW Hlist Hnd Hst Hnext] HhW HhD Hβ.
  pose proof (Hst h (list_elem_of_here _ _)) as HhG. pose proof (HGal h HhG) as Hh.
  destruct (view_alive V h Hh) as (b0 & Hb0 & HF).
  apply answers_bind. eapply answers_mono; [apply (view_paint h NURL_CC_BLACK V Hh); cbv; split; discriminate|].
  intros [] s1 V1. apply answers_bind. eapply answers_mono; [by apply (view_kill h b0 V1)|].
  intros [] s2 V2. apply (trace_visits _ V2 Hh).
  eapply answers_mono; [apply (visit_collect V2); intros t Ht; by apply (Hedges h)|].
  intros st' s3 (-> & Hsub & Hin & Hpush & Hlen). split; [|done]. split.
  - apply (view_ext V2). intros u _ _. split; [done|]. split; [|set_solver]. symmetry. by apply collect_color_paint.
  - set_solver.
  - intros u. rewrite elem_of_app, list_elem_of_singleton, Hlist, elem_of_union, elem_of_singleton. tauto.
  - apply NoDup_app. split; [done|]. split; [|apply NoDup_singleton]. intros u Hu%Hlist ->%list_elem_of_singleton. done.
  - intros u [Hu|Hu]%Hsub; [by apply Hst, list_elem_of_further|exact (HGcl h u HhG Hu)].
  - intros u t Hu Ht HtW. destruct (decide (t = h)) as [->|Hth]; [left; set_solver|].
    destruct (decide (t ∈ D)) as [HtD|HtD]; [left; set_solver|]. right.
    destruct (decide (t ∈ β)) as [|Htβ]; [by left|right]. apply elem_of_union in Hu as [->%elem_of_singleton|Hu].
    + apply Hpush; [done| |done]. rewrite fn_lookup_insert_ne by done. apply collect_color_white; [|done]. by apply HWG.
    + apply Hin. destruct (Hnext u t Hu Ht HtW) as [?|[?|[->|?]%elem_of_cons]]; done.
Qed.

Lemma collect_loop_ok β n : forall st garbage D s,
  collect_inv β st garbage D s -> Z.of_nat (length st) + room out (nodes ∖ D) <= Z.of_nat n ->
  answers (collect_loop kind_of n st garbage) s (fun r s' => exists garbage' D',
    r = ([], garbage') /\ collect_inv β [] garbage' D' s' /\ D ⊆ D' /\ (forall u, u ∈ st -> u ∈ Wh -> u ∈ D' \/ u ∈ β)).
Proof.
  induction n as [|n IH]; intros [|h st] garbage D s Hi Hn.
  1,3: apply answers_ret; exists garbage, D; split_and!; [done|done|done|by intros u ?%elem_of_nil].
  1: cbn in Hn; pose proof (room_nonneg out (nodes ∖ D)); lia.
  pose proof Hi as [V HDW Hlist Hnd Hst Hnext]. pose proof (Hst h (list_elem_of_here _ _)) as HhG.
  pose proof (HGal h HhG) as Hh. destruct (view_alive V h Hh) as (b0 & Hb0 & HF). cbn [collect_loop].
  apply answers_bind, (view_deref V h b0); [done..|]. intros b Hb. rewrite (n_color Hb), (n_buffered Hb).
  destruct (negb (collect_color D h =? NURL_CC_WHITE) || bool_decide (h ∈ β)) eqn:E.
  - eapply answers_mono; [apply (IH st garbage D s)|].
    + split; try done; [intros u Hu; by apply Hst, list_elem_of_further|].
      intros u t Hu Ht HtW. destruct (Hnext u t Hu Ht HtW) as [?|[?|[->|?]%elem_of_cons]]; auto.
      apply orb_true_iff in E as [E%negb_true_iff%Z.eqb_neq|E%bool_decide_eq_true]; [|auto].
      destruct (decide (h ∈ D)); [by left|]. destruct E. by apply collect_color_white.
    + cbn in Hn. lia.
    + intros r s' (g' & D' & -> & Hi' & HDD & Hin). exists g', D'. split_and!; try done.
      intros u [->|?]%elem_of_cons HuW; [|auto].
      apply orb_true_iff in E as [E%negb_true_iff%Z.eqb_neq|E%bool_decide_eq_true]; [|auto].
      destruct (decide (h ∈ D)); [left; auto|]. destruct E. by apply collect_color_white.
  - apply orb_false_iff in E as [E%negb_false_iff%Z.eqb_eq Hβ%bool_decide_eq_false].
    apply collect_color_white in E as [HhW HhD]; [|done].
    pose proof (collect_step β h st garbage D s Hi HhW HhD Hβ) as Hstep.
    apply answers_bind. unfold answers in Hstep. destruct Hstep as (st' & s3 & Hrun & Hi' & Hin & Hlen).
    apply bind_inv in Hrun as ([] & s1 & H1 & Hrun). apply bind_inv in Hrun as ([] & s2 & H2 & H3).
    apply (answers_run _ _ _ _ _ H1). apply answers_bind, (answers_run _ _ _ _ _ H2).
    apply answers_bind, (answers_run _ _ _ _ _ H3).
    eapply answers_mono; [apply (IH st' (garbage ++ [h]) ({[h]} ∪ D) s3 Hi')|].
    + apply (room_step kind_of m0 D h n st); [by apply alive_node|done..].
    + intros r s' (g' & D' & -> & Hi2 & HDD & Hin2). exists g', D'. split_and!; [done|done|set_solver|].
      intros u [->|?]%elem_of_cons HuW; [left; set_solver|auto].
Qed.

Lemma collect_roots_ok rs : forall garbage D β s n,
  collect_inv β [] garbage D s -> (forall u, u ∈ β <-> u ∈ rs) -> NoDup rs -> (forall u, u ∈ rs -> u ∈ G) ->
  answers (collect_roots kind_of rs [] garbage n) s (fun r s' => exists garbage' D' n',
    r = ([], garbage', n') /\ collect_inv ∅ [] garbage' D' s' /\ D ⊆ D' /\ (forall u, u ∈ rs -> u ∈ Wh -> u ∈ D')).
Proof.
  induction rs as [|h rs IH]; intros garbage D β s n Hi Hβ Hnd HG; cbn [collect_roots].
  { apply answers_ret. exists garbage, D, n. split; [done|]. split; [|split; [done|by intros u ?%elem_of_nil]].
    replace ∅ with β; [done|]. apply set_eq. intros u. rewrite Hβ, elem_of_nil. set_solver. }
  apply NoDup_cons in Hnd as [Hh Hnd]. pose proof (HG h (list_elem_of_here _ _)) as HhG.
  pose proof Hi as [V HDW Hlist Hnd' Hst Hnext].
  destruct (view_alive V h (HGal h HhG)) as (b0 & Hb0 & HF).
  apply answers_bind. eapply answers_mono; [by apply (view_unbuffer h b0 V)|]. intros [] s1 V1.
  apply answers_bind. unfold nurl__cc_collectwhite. apply answers_bind, answers_get.
  eapply answers_mono; [apply (collect_loop_ok (β ∖ {[h]}) _ [h] garbage D s1)|].
  - split; try done; [by intros u ->%list_elem_of_singleton|].
    intros u t Hu Ht HtW. destruct (Hnext u t Hu Ht HtW) as [?|[?|[]%elem_of_nil]]; [by left|right].
    destruct (decide (t = h)) as [->|]; [right; apply list_elem_of_here|left; set_solver].
  - cbn [length]. pose proof (work_enough kind_of _ _ _ _ _ _ _ _ V1).
    pose proof (room_mono out (nodes ∖ D) nodes ltac:(set_solver)). lia.
  - intros r s2 (g' & D' & -> & Hi' & HDD & Hin).
    destruct (view_alive (ci_view _ _ _ _ _ Hi') h (HGal h HhG)) as (b1 & Hb1 & HF1).
    apply answers_bind, (view_deref (ci_view _ _ _ _ _ Hi') h b1); [done..|]. intros b Hb.
    eapply answers_mono; [apply (IH g' D' (β ∖ {[h]}) s2); [done| |done|]|].
    + intros u. rewrite elem_of_difference, Hβ, elem_of_cons, elem_of_singleton. split; [tauto|].
      intros Hu. split; [by right|]. by intros ->.
    + intros u Hu. by apply HG, list_elem_of_further.
    + intros r s' (g2 & D2 & n2 & -> & Hi2 & HDD2 & Hin2). exists g2, D2, n2. split_and!; [done|done|set_solver|].
      intros u [->|?]%elem_of_cons HuW; [|auto]. destruct (Hin h) as [?|?]; [apply list_elem_of_here|done|auto|set_solver].
Qed.
End collect.
