(* ===== verification/RcExact.v ===== *)
(** Trial deletion as a whole: what it finds, what it leaves as it was. *)

From stdpp Require Import functions.
From S2P Require Import Prelude StateMonad Rc RcWord RcGraph RcTrial RcMark RcScan RcCollect.

Section restore.
Context (kind_of : positive -> cc_kind) (m0 : gmap positive NurlCcHdr) (s0 : rt).
Context (Hedges : edges_ok kind_of m0) (F β D : gset positive) (γ : positive -> Z).

Abbreviation out := (RcTrial.out kind_of m0).

Lemma restore_all_ok g : forall σ st s,
  view m0 s0 F σ γ β D s -> NoDup g -> (forall u, u ∈ g -> RcTrial.alive m0 u) ->
  answers (restore_all kind_of g st) s (fun st' s' => st' = st /\
    view m0 s0 F (fun u => if decide (u ∈ D) then σ u else σ u + indeg out (list_to_set g) u) γ β D s').
Proof.
  induction g as [|h g IH]; intros σ st s V Hnd Hal; cbn [restore_all].
  { apply answers_ret. split; [done|]. apply (view_ext V). intros u _ _. cbn. rewrite indeg_empty.
    split; [|done]. destruct (decide (u ∈ D)); lia. }
  apply NoDup_cons in Hnd as [Hh Hnd]. apply answers_bind, (trace_visits _ V (Hal h (list_elem_of_here _ _))).
  eapply answers_mono; [apply (visit_restore V); intros t Ht; by apply (Hedges h)|]. intros st' s1 [V1 ->].
  eapply answers_mono; [apply (IH _ st s1 V1 Hnd); intros u Hu; by apply Hal, list_elem_of_further|].
  intros st' s' [-> V']. split; [done|]. apply (view_ext V'). intros u _ _. cbn beta. split; [|done].
  cbn [list_to_set]. rewrite indeg_add by (by rewrite elem_of_list_to_set). destruct (decide (u ∈ D)); lia.
Qed.
End restore.

Section exact.
Context (kind_of : positive -> cc_kind).

(** The heap between two operations, as far as the collector looks. *)
Record trial_pre (rs : list positive) (m : gmap positive NurlCcHdr) : Prop := {
  tp_edges : edges_ok kind_of m;
  tp_nodup : NoDup rs;
  tp_roots u : u ∈ rs -> is_Some (m !! u);
  tp_buffered u b : m !! u = Some b -> cc_has NURL_CC_BUFFERED (cc b) = bool_decide (u ∈ rs);
  tp_dead u b : m !! u = Some b -> cc_has NURL_CC_DEAD (cc b) = true -> value b = None;
  tp_color u b : m !! u = Some b ->
    nurl__cc_color (cc b) = NURL_CC_BLACK \/ nurl__cc_color (cc b) = NURL_CC_PURPLE /\ (u ∈ rs \/ value b = None);
  tp_freed u b : m !! u = Some b -> cc_has NURL_CC_FREED (cc b) = true -> value b = None /\ strong b = 0;
  tp_alive u b : m !! u = Some b -> 0 < strong b -> is_Some (value b);
  tp_count u b : m !! u = Some b -> indeg (out kind_of m) (dom m) u <= strong b }.

Definition count_at (m : gmap positive NurlCcHdr) (u : positive) : Z := default 0 (strong <$> m !! u).

(** A root the collection starts from. *)
Definition suspect (rs : list positive) (m : gmap positive NurlCcHdr) (u : positive) : Prop :=
  u ∈ rs /\ exists b, m !! u = Some b /\ nurl__cc_color (cc b) = NURL_CC_PURPLE /\ 0 < strong b.

(** What the collector reaches from the suspects. *)
Definition reached (rs : list positive) (m : gmap positive NurlCcHdr) (u : positive) : Prop :=
  forall P : gset positive, closed kind_of m (fun u => u ∈ P) -> (forall r, suspect rs m r -> r ∈ P) -> u ∈ P.

(** [D] is counted from within [D] only. *)
Definition self_held (m : gmap positive NurlCcHdr) (D : gset positive) : Prop :=
  forall u, u ∈ D -> count_at m u <= indeg (out kind_of m) D u.

Record trial_post (rs : list positive) (s s' : rt) (garbage : list positive) : Prop := {
  to_others : others s' = others s;
  to_nodup : NoDup garbage;
  to_alive u : u ∈ garbage -> alive (heap s) u;
  to_reached u : u ∈ garbage -> reached rs (heap s) u;
  to_sound : self_held (heap s) (list_to_set garbage);
  to_complete D : self_held (heap s) D -> (forall u, u ∈ D -> reached rs (heap s) u) -> forall u, u ∈ D -> u ∈ garbage;
  to_none u : heap s !! u = None -> heap s' !! u = None;
  to_some u b : heap s !! u = Some b ->
    (heap s' !! u = None /\ u ∈ rs /\ cc_has NURL_CC_FREED (cc b) = true /\ weak b = 0) \/
    (exists b', heap s' !! u = Some b' /\
       node b (strong b') (nurl__cc_color (cc b')) false (bool_decide (u ∈ garbage) || cc_has NURL_CC_DEAD (cc b)) b' /\
       (nurl__cc_color (cc b') = NURL_CC_BLACK \/ nurl__cc_color (cc b') = NURL_CC_PURPLE /\ value b = None) /\
       (u ∉ garbage -> strong b' = strong b) /\ ~ (u ∈ rs /\ cc_has NURL_CC_FREED (cc b) = true /\ weak b = 0)) }.

Section run.
Context (rs : list positive) (s : rt) (Hpre : trial_pre rs (heap s)).

Abbreviation m := (heap s).
Abbreviation outs := (out kind_of m).
Abbreviation σ0 := (count_at m).
Definition color_at (u : positive) : Z := default 0 ((fun b => nurl__cc_color (cc b)) <$> m !! u).

(** Blocks of earlier collections that weak handles keep. *)
Definition zombies : gset positive := dom (filter (fun ub : positive * NurlCcHdr => cc_has NURL_CC_DEAD (cc ub.2) = true) m).

Lemma elem_of_zombies u b : m !! u = Some b -> (u ∈ zombies <-> cc_has NURL_CC_DEAD (cc b) = true).
Proof.
  intros Hb. unfold zombies. rewrite elem_of_dom. split.
  - intros [b' Hb']. rewrite map_lookup_filter_Some in Hb'. destruct Hb' as [Hb' Hd]. by simplify_eq.
  - intros Hd. exists b. by rewrite map_lookup_filter_Some.
Qed.

Lemma zombie_no_edge D u : u ∈ zombies -> indeg outs D u = 0.
Proof.
  intros Hu. apply indeg_zero. intros v _ Hv. destruct (tp_edges _ _ Hpre v u Hv) as (b & Hb & Hs).
  apply (elem_of_zombies u b Hb), (tp_dead _ _ Hpre u b Hb) in Hu. rewrite Hu in Hs. by destruct Hs.
Qed.

Lemma start_view : view m s ∅ σ0 color_at (list_to_set rs) zombies s.
Proof.
  split; [done|set_solver| |done]. intros u b Hb _. exists b. split; [done|].
  unfold count_at, color_at. rewrite Hb. split; cbn; try done.
  - rewrite (tp_buffered _ _ Hpre u b Hb). apply bool_decide_ext. by rewrite elem_of_list_to_set.
  - symmetry. destruct (cc_has NURL_CC_DEAD (cc b)) eqn:E.
    + by apply bool_decide_eq_true, (elem_of_zombies u b Hb).
    + apply bool_decide_eq_false. rewrite (elem_of_zombies u b Hb). congruence.
Qed.

Lemma start_inv : mark_inv kind_of m s σ0 zombies color_at rs [] rs ∅ color_at ∅ s.
Proof.
  split.
  - exists (list_to_set rs). split; [|intros u; rewrite elem_of_list_to_set, elem_of_nil; tauto].
    apply (view_ext start_view). intros u _ _. rewrite indeg_empty. split; [lia|]. by rewrite decide_False by set_solver.
  - set_solver.
  - intros u t Hu. set_solver.
  - by intros u ?%elem_of_nil.
  - by intros u ?%elem_of_nil.
  - intros P _ _ u Hu. set_solver.
  - by apply (tp_nodup _ _ Hpre).
  - intros u Hu. split_and!; [done| |set_solver|done]. by apply elem_of_dom, (tp_roots _ _ Hpre).
  - intros u [b Hb]%elem_of_dom. unfold color_at. rewrite Hb. cbn.
    destruct (tp_color _ _ Hpre u b Hb) as [?|[? [?|Hv]]]; auto. right. split; [done|]. right. right.
    intros (c & Hc & Hs). simplify_eq. rewrite Hv in Hs. by destruct Hs.
  - auto.
  - intros u b Hb. split; [set_solver|auto].
Qed.

Lemma color_not_gray u : color_at u <> NURL_CC_GRAY.
Proof.
  unfold color_at. destruct (m !! u) as [b|] eqn:Hb; cbn; [|done].
  by destruct (tp_color _ _ Hpre u b Hb) as [->|[-> _]].
Qed.

Lemma trial_marked : answers (mark_roots kind_of rs [] []) s (fun r s' => exists live G γ0 F,
  r = ([], live) /\ mark_inv kind_of m s σ0 zombies color_at rs live [] G γ0 F s').
Proof.
  eapply answers_mono; [apply (mark_roots_ok kind_of m s (tp_edges _ _ Hpre) σ0 zombies color_at rs)
    with (live := []) (G := ∅) (γ0 := color_at) (F := ∅)|].
  - intros u b Hb Hf. unfold count_at. rewrite Hb. by apply (tp_freed _ _ Hpre u b).
  - intros u [b Hb]%elem_of_dom. unfold count_at. rewrite Hb. cbn. intros Hs. exists b. split; [done|].
    by apply (tp_alive _ _ Hpre u b).
  - apply start_inv.
  - apply color_not_gray.
  - intros r s' (live & G & γ0 & F & -> & _ & Hi). by exists live, G, γ0, F.
Qed.

(** After marking and scanning: [B] is black, the rest [W] of the marked graph
    is white. *)
Record split_inv (live : list positive) (G B : gset positive) (γ0 : positive -> Z) (F β : gset positive) (s' : rt) : Prop := {
  sp_mark : exists s1, mark_inv kind_of m s σ0 zombies color_at rs live [] G γ0 F s1;
  sp_view : view m s F (fun u => σ0 u - indeg outs (G ∖ B) u)
    (fun u => if decide (u ∈ B) then NURL_CC_BLACK else if decide (u ∈ G ∖ B) then NURL_CC_WHITE else γ0 u) β zombies s';
  sp_buffered u : u ∈ β <-> u ∈ live;
  sp_closed : closed kind_of m (fun u => u ∈ B);
  sp_black : B ⊆ G;
  sp_out u : u ∈ G -> u ∉ B -> σ0 u <= indeg outs G u;
  sp_gen P : closed kind_of m P -> (forall u, u ∈ G -> indeg outs G u < σ0 u -> P u) -> forall u, u ∈ B -> P u }.

Lemma trial_scanned live G γ0 F s1 :
  mark_inv kind_of m s σ0 zombies color_at rs live [] G γ0 F s1 ->
  answers (scan_roots kind_of live [] []) s1 (fun r s' => r = ([], []) /\ exists B β, split_inv live G B γ0 F β s').
Proof.
  intros Hi. pose proof Hi as [(β & Hm & Hβ) Hal Hcl Hlive _ Hgen _ _ _ _ _].
  eapply answers_mono; [apply (scan_roots_ok kind_of m s (tp_edges _ _ Hpre) σ0 F β zombies γ0 G Hal Hcl live ∅ ∅ s1)|].
  - split; [|intros u t Hu; set_solver|set_solver|set_solver|set_solver|set_solver|by intros u ?%elem_of_nil|set_solver].
    apply (view_ext Hm). intros u _ _. rewrite difference_empty_L. split; [done|]. split; [|done].
    unfold scan_color. by rewrite !(decide_False (P := u ∈ ∅)) by set_solver.
  - done.
  - intros r s' (-> & B & W & [Hs Hcl' HB HW Hout Hnext _ Hg] & _ & Hin). split; [done|]. exists B, β.
    assert (forall u, u ∈ G -> u ∈ B ∪ W) as Hall.
    { apply (Hgen (fun u => u ∈ B ∪ W)); [|done]. intros u t [Hu|Hu]%elem_of_union Ht.
      - apply elem_of_union. left. by apply (Hcl' u).
      - destruct (Hnext u t Hu Ht) as [?|[]%elem_of_nil]. done. }
    split; try done; [by exists s1| | |].
    + apply (view_ext Hs). intros u _ _. split; [done|]. split; [|done]. unfold scan_color.
      destruct (decide (u ∈ B)) as [|HuB]; [done|]. destruct (decide (u ∈ W)) as [HuW|HuW].
      * by rewrite decide_True by set_solver.
      * by rewrite !decide_False by set_solver.
    + intros u. rewrite Hβ, elem_of_nil. tauto.
    + intros u HuG HuB. apply Hout. specialize (Hall u HuG). set_solver.
Qed.

Lemma trial_collected live G B γ0 F β s1 :
  split_inv live G B γ0 F β s1 ->
  answers (collect_roots kind_of live [] [] 0) s1 (fun r s' => exists garbage n, r = ([], garbage, n) /\
    NoDup garbage /\ (forall u, u ∈ garbage <-> u ∈ G ∖ B) /\
    view m s F (fun u => σ0 u - indeg outs (G ∖ B) u)
      (fun u => if decide (u ∈ G) then NURL_CC_BLACK else γ0 u) ∅ (G ∖ B ∪ zombies) s').
Proof.
  intros [(s2 & Hi) V Hβ Hcl HB Hout Hg]. pose proof Hi as [_ Hal HGcl Hlive _ Hgen Hnd _ _ _ _].
  rewrite app_nil_r in Hnd.
  eapply answers_mono; [apply (collect_roots_ok kind_of m s (tp_edges _ _ Hpre)
    (fun u => σ0 u - indeg outs (G ∖ B) u) F γ0 G (G ∖ B) zombies Hal HGcl ltac:(set_solver) live [] ∅ β s1 0)|..]; try done.
  - split; [|set_solver|set_solver|constructor|by intros u ?%elem_of_nil|set_solver].
    apply (view_ext V). intros u _ _. split; [done|]. split; [|set_solver]. unfold collect_color.
    destruct (decide (u ∈ B)) as [HuB|HuB]; [rewrite decide_False, decide_True by set_solver; done|].
    destruct (decide (u ∈ G)); [by rewrite !decide_True by set_solver|by rewrite !decide_False by set_solver].
  - intros r s' (garbage & D & n & -> & [V' HDW Hlist Hnd' _ Hnext] & _ & Hin). exists garbage, n. split; [done|].
    assert (D = G ∖ B) as ->; [|split; [done|]; split; [done|]].
    + apply (anti_symm (⊆)); [done|]. intros u Hu.
      enough (u ∈ G /\ (u ∉ B -> u ∈ D)) by set_solver.
      apply (Hgen (fun u => u ∈ G /\ (u ∉ B -> u ∈ D))); [| |set_solver].
      * intros v t [HvG Hv] Ht. split; [by apply (HGcl v)|]. intros HtB. assert (t ∈ G) by by apply (HGcl v).
        assert (v ∉ B) as HvB by (intros HvB; by apply HtB, (Hcl v)).
        destruct (Hnext v t (Hv HvB) Ht) as [?|[?|?%elem_of_nil]]; [set_solver|done|set_solver|done].
      * intros v Hv. split; [auto|]. intros HvB. apply Hin; [done|]. apply elem_of_difference. auto.
    + apply (view_ext V'). intros u _ _. split; [done|]. split; [|done]. unfold collect_color.
      by rewrite (decide_False (P := u ∈ G ∖ B ∖ (G ∖ B))) by set_solver.
Qed.

Section results.
Context {live : list positive} {G B : gset positive} {γ0 : positive -> Z} {F β : gset positive} {s1 : rt}.
Context (Hsp : split_inv live G B γ0 F β s1).

Lemma garbage_held : self_held m (G ∖ B).
Proof.
  destruct Hsp as [(s2 & Hi) _ _ Hcl HB Hout _]. intros u [HuG HuB]%elem_of_difference.
  specialize (Hout u HuG HuB). rewrite (indeg_split outs B G u HB), (outside_count kind_of m B u Hcl HuB) in Hout. lia.
Qed.

Lemma garbage_complete D :
  self_held m D -> (forall u, u ∈ D -> reached rs m u) -> forall u, u ∈ D -> u ∈ G ∖ B.
Proof.
  destruct Hsp as [(s2 & Hi) _ _ Hcl HB Hout Hg]. pose proof Hi as [_ _ HGcl _ _ _ _ _ _ Hdone _]. intros Hheld Hr.
  assert (forall u, u ∈ D -> u ∈ G) as HDG.
  { intros u Hu. apply (Hr u Hu G HGcl). intros r (Hrs & b & Hb & Hc & Hs).
    destruct (Hdone r Hrs) as [[]%elem_of_nil|?]; unfold color_at, count_at; rewrite ?Hb; done. }
  assert (forall u, u ∈ B -> u ∉ D) as HBD; [|set_solver].
  apply Hg.
  - intros u t Hu Ht HtD. specialize (Hheld t HtD).
    assert (u ∈ dom m) as Hum.
    { apply elem_of_dom. unfold RcTrial.out in Ht. destruct (m !! u); [done|by apply elem_of_nil in Ht]. }
    destruct (tp_edges _ _ Hpre u t Ht) as (b & Hb & _). pose proof (tp_count _ _ Hpre t b Hb) as Hc.
    unfold count_at in Hheld. rewrite Hb in Hheld. cbn in Hheld.
    assert (D ⊆ dom m).
    { intros v Hv. destruct Hi as [_ Hal _ _ _ _ _ _ _ _ _]. by apply alive_node, Hal, HDG. }
    rewrite (indeg_split outs D (dom m) t) in Hc by done.
    pose proof (indeg_edge outs (dom m ∖ D) u t ltac:(set_solver) Ht). lia.
  - intros u HuG Hlt HuD. specialize (Hheld u HuD). pose proof (indeg_mono outs D G u ltac:(set_solver)). lia.
Qed.
End results.

Theorem trial_ok : answers (trial_deletion kind_of rs) s (fun r s' => trial_post rs s s' (fst r)).
Proof.
  unfold trial_deletion. apply answers_bind. eapply answers_mono; [apply trial_marked|].
  intros r s1 (live & G & γ0 & F & -> & Hi). apply answers_bind.
  eapply answers_mono; [by apply (trial_scanned live G γ0 F)|]. intros r s2 (-> & B & β & Hsp).
  apply answers_bind. eapply answers_mono; [by apply (trial_collected live G B γ0 F β)|].
  intros r s3 (garbage & n & -> & Hnd & Hin & V). apply answers_bind.
  pose proof Hi as [_ Hal _ _ Hsus Hgen _ _ Hcol _ HF].
  assert (forall u, u ∈ garbage -> alive m u) as Hga by (intros u Hu%Hin; apply Hal; set_solver).
  eapply answers_mono; [by apply (restore_all_ok kind_of m s (tp_edges _ _ Hpre) F ∅ (G ∖ B ∪ zombies) _ garbage _ [] s3 V)|].
  intros st' s4 [-> V4]. apply answers_ret. cbn [fst].
  assert (list_to_set garbage = G ∖ B) as HD by (apply set_eq; intros u; by rewrite elem_of_list_to_set, Hin).
  split; [apply (v_others V4)|done|done| | | |apply (v_none V4)|].
  - intros u Hu%Hin P HPc HPs. apply (Hgen (fun u => u ∈ P) HPc); [|set_solver]. intros r Hr. apply HPs.
    destruct (Hsus r Hr) as (Hrs & Hc & Hs). split; [done|]. unfold color_at, count_at in *.
    destruct (m !! r) as [b|]; [by exists b|done].
  - rewrite HD. by apply (garbage_held Hsp).
  - intros D Hd Hr u Hu. apply Hin. by apply (garbage_complete Hsp D).
  - intros u b Hb. destruct (HF u b Hb) as [HF1 HF2]. destruct (decide (u ∈ F)) as [HuF|HuF].
    + left. split; [by apply (v_freed V4)|auto].
    + right. destruct (v_node V4 u b Hb HuF) as (b' & Hb' & Hn). exists b'. split; [done|]. cbn beta in Hn.
      split; [|split; [|split]].
      * destruct Hn. split; try done. rewrite n_dead. apply eq_bool_prop_intro. rewrite orb_True, !bool_decide_spec.
        rewrite elem_of_union, (elem_of_zombies u b Hb), Hin, Is_true_true. done.
      * rewrite (n_color Hn). destruct (decide (u ∈ G)) as [|HG]; [by left|].
        destruct (Hcol u) as [?|[? [[]%elem_of_nil|[?|Hna]]]]; [by apply elem_of_dom_2 in Hb|by left|done|right].
        split; [done|]. destruct (value b) eqn:Hv; [|done]. destruct Hna. exists b. by rewrite Hv.
      * intros Hu. rewrite (n_strong Hn), HD. unfold count_at. rewrite Hb. cbn.
        destruct (decide (u ∈ G ∖ B ∪ zombies)) as [[Hg|Hz]%elem_of_union|]; [by apply Hin in Hg| |lia].
        rewrite (zombie_no_edge _ u Hz). lia.
      * intros (H1 & H2 & H3). by destruct (HF2 H1 H2 H3) as [?|?%elem_of_nil].
Qed.
End run.
End exact.
