(* ===== verification/RcInv.v ===== *)
(** The invariant of reference counting: every count is exact, what is gone is
    gone for a reason, every garbage cycle has a suspect in the buffer. *)

From S2P Require Import Prelude StateMonad Rc RcWord RcGraph RcTrial RcMark RcExact.

(** * The handles a value owns *)

Fixpoint strongs (ks : list slot) : list positive :=
  match ks with [] => [] | Strong t :: ks => t :: strongs ks | WeakTo _ :: ks => strongs ks end.

Definition hs (m : gmap positive NurlCcHdr) (u : positive) : list positive :=
  match m !! u with Some b => strongs (kids b) | None => [] end.

(** How many handles the values of the heap hold on [t]. *)
Definition refs (m : gmap positive NurlCcHdr) (t : positive) : Z := indeg (hs m) (dom m) t.

Definition weak_at (m : gmap positive NurlCcHdr) (u : positive) : Z := default 0 (weak <$> m !! u).

Definition cs (s : rt) : NurlCcState := default fresh_state (nurl__cc s).

(** * Counting the handles of the heap *)

Section heap.
Implicit Types (m : gmap positive NurlCcHdr) (b : NurlCcHdr).

Lemma hs_insert m h b u : hs (<[h := b]> m) u = if decide (u = h) then strongs (kids b) else hs m u.
Proof.
  unfold hs. destruct (decide (u = h)) as [->|Hu]; [by rewrite lookup_insert_eq|by rewrite lookup_insert_ne].
Qed.

Lemma refs_same m m' t : dom m' = dom m -> (forall u, hs m' u = hs m u) -> refs m' t = refs m t.
Proof. intros Hd Hh. unfold refs, indeg. rewrite Hd. apply ssum_ext. intros u _. by rewrite Hh. Qed.

Lemma refs_nonneg m t : 0 <= refs m t.
Proof. apply indeg_nonneg. Qed.

(** The value of [h] changes. *)
Lemma refs_value m h b b' t : m !! h = Some b ->
  refs (<[h := b']> m) t = refs m t - occ t (strongs (kids b)) + occ t (strongs (kids b')).
Proof.
  intros Hb. unfold refs, indeg. assert (h ∈ dom m) as Hh by by apply elem_of_dom_2 in Hb.
  assert (dom (<[h := b']> m) = dom m) as -> by (rewrite dom_insert_L; set_solver).
  rewrite !(ssum_take _ h (dom m) Hh), hs_insert, decide_True by done.
  replace (hs m h) with (strongs (kids b)) by (unfold hs; by rewrite Hb).
  rewrite (ssum_ext (fun u => occ t (hs (<[h := b']> m) u)) (fun u => occ t (hs m u))); [lia|].
  intros u Hu. rewrite hs_insert, decide_False by set_solver. done.
Qed.

Lemma refs_keep m h b b' t : m !! h = Some b -> value b' = value b -> refs (<[h := b']> m) t = refs m t.
Proof. intros Hb Hv. rewrite (refs_value m h b b' t Hb). unfold kids. rewrite Hv. lia. Qed.

Lemma hs_keep m h b b' u : m !! h = Some b -> value b' = value b -> hs (<[h := b']> m) u = hs m u.
Proof.
  intros Hb Hv. rewrite hs_insert. destruct (decide (u = h)) as [->|]; [|done].
  unfold hs, kids. by rewrite Hb, Hv.
Qed.

Lemma refs_new m h b t : m !! h = None -> refs (<[h := b]> m) t = refs m t + occ t (strongs (kids b)).
Proof.
  intros Hh. unfold refs, indeg. assert (h ∉ dom m) as Hn by by apply not_elem_of_dom.
  rewrite dom_insert_L, ssum_add, hs_insert, decide_True by done.
  rewrite (ssum_ext (fun u => occ t (hs (<[h := b]> m) u)) (fun u => occ t (hs m u))); [lia|].
  intros u Hu. rewrite hs_insert, decide_False; [done|]. by intros ->.
Qed.

Lemma refs_delete m h b t : m !! h = Some b -> value b = None -> refs (delete h m) t = refs m t.
Proof.
  intros Hb Hv. assert (m = <[h := b]> (delete h m)) as Hm by (by rewrite insert_delete_eq, insert_id).
  rewrite Hm at 2. rewrite refs_new by apply lookup_delete_eq. unfold kids. rewrite Hv. cbn. lia.
Qed.

Lemma hs_delete m h b u : m !! h = Some b -> value b = None -> hs (delete h m) u = hs m u.
Proof.
  intros Hb Hv. unfold hs. destruct (decide (u = h)) as [->|Hu]; [|by rewrite lookup_delete_ne].
  rewrite lookup_delete_eq, Hb. unfold kids. by rewrite Hv.
Qed.

Lemma refs_pos m u t : t ∈ hs m u -> 0 < refs m t.
Proof.
  intros Ht. apply (indeg_edge (hs m) (dom m) u t); [|done]. apply elem_of_dom.
  unfold hs in Ht. destruct (m !! u); [done|by apply elem_of_nil in Ht].
Qed.

Lemma refs_elem m t : 0 < refs m t -> exists u, t ∈ hs m u.
Proof. intros (u & _ & Hu)%indeg_pos. eauto. Qed.

Lemma insert_inv m h b' u c : <[h := b']> m !! u = Some c -> (u = h /\ c = b') \/ (u <> h /\ m !! u = Some c).
Proof.
  destruct (decide (u = h)) as [->|Hu]; [rewrite lookup_insert_eq|rewrite lookup_insert_ne by done]; naive_solver.
Qed.

Lemma insert_some m h b b' u : m !! h = Some b -> is_Some (<[h := b']> m !! u) <-> is_Some (m !! u).
Proof.
  intros Hb. destruct (decide (u = h)) as [->|Hu]; [rewrite lookup_insert_eq, Hb|rewrite lookup_insert_ne by done; done].
  by split; eauto.
Qed.

End heap.

Section inv.
Context (kind_of : positive -> cc_kind).

(** [H] are the handles outside of values: those the program holds and those
    of a value that is being dropped.  [D] is the garbage a collection is
    dropping; [M] are blocks whose value has been taken and whose release is
    not finished; [Zs] are blocks without handles not yet released. *)
Record counted (H : list positive) (D : gset positive) (m : gmap positive NurlCcHdr) : Prop := {
  c_count u b : m !! u = Some b -> u ∉ D -> strong b = occ u H + refs m u;
  c_held t : t ∈ H -> is_Some (m !! t);
  c_refs u t : t ∈ hs m u -> is_Some (m !! t);
  c_nodead u t : t ∈ hs m u -> t ∈ D -> u ∈ D;
  c_value u b : m !! u = Some b -> u ∉ D -> value b = None -> strong b = 0;
  c_slots u b ks : m !! u = Some b -> value b = Some ks -> ks = Strong <$> strongs ks;
  c_leaf u : mem_rc_nested (kind_of u) = false -> hs m u = [] }.

Record placed (M Zs df : list positive) (D : gset positive) (m : gmap positive NurlCcHdr) : Prop := {
  p_zero u b : m !! u = Some b -> u ∉ D -> strong b = 0 -> is_Some (value b) -> u ∈ df ++ Zs;
  p_wait u : u ∈ df ++ Zs -> u ∉ D /\ exists b, m !! u = Some b /\ is_Some (value b) /\ strong b = 0;
  p_nodup : NoDup (df ++ Zs);
  p_mid u : u ∈ M -> u ∉ D /\ exists b, m !! u = Some b /\ value b = None;
  p_mid_nodup : NoDup M }.

Record flagged (M rs : list positive) (D : gset positive) (m : gmap positive NurlCcHdr) : Prop := {
  f_gone u b : m !! u = Some b -> u ∉ D -> value b = None ->
    u ∈ M \/ weak b <> 0 /\ cc_has NURL_CC_BUFFERED (cc b) = false \/
    cc_has NURL_CC_FREED (cc b) = true /\ cc_has NURL_CC_BUFFERED (cc b) = true;
  f_freed u b : m !! u = Some b -> cc_has NURL_CC_FREED (cc b) = true -> value b = None /\ u ∉ M /\ u ∉ D;
  f_color u b : m !! u = Some b ->
    nurl__cc_color (cc b) = NURL_CC_BLACK \/
    nurl__cc_color (cc b) = NURL_CC_PURPLE /\ (cc_has NURL_CC_BUFFERED (cc b) = true \/ value b = None);
  f_index u b : m !! u = Some b -> cc_has NURL_CC_BUFFERED (cc b) = true -> rs !! cc_index (cc b) = Some u;
  f_roots i u : rs !! i = Some u -> exists b, m !! u = Some b /\ cc_has NURL_CC_BUFFERED (cc b) = true /\ cc_index (cc b) = i;
  f_dead u b : m !! u = Some b -> cc_has NURL_CC_DEAD (cc b) = true -> u ∈ D \/ value b = None;
  f_cyclic u b : m !! u = Some b -> cc_has NURL_CC_BUFFERED (cc b) = true -> mem_cyclic (kind_of u) = true;
  f_garbage u : u ∈ D -> mem_cyclic (kind_of u) = true /\
    exists b, m !! u = Some b /\ cc_has NURL_CC_DEAD (cc b) = true /\ cc_has NURL_CC_BUFFERED (cc b) = false }.

(** The blocks of [P] are counted, and only by each other. *)
Definition lonely (D : gset positive) (m : gmap positive NurlCcHdr) (P : gset positive) : Prop :=
  forall u, u ∈ P -> u ∉ D /\ exists b, m !! u = Some b /\ 0 < strong b <= indeg (out kind_of m) P u.

(** Among them is a suspect of the collector, or one of [Ts]. *)
Definition suspected (Ts : list positive) (D : gset positive) (m : gmap positive NurlCcHdr) : Prop :=
  forall P, lonely D m P -> P <> ∅ ->
    exists r b, r ∈ P /\ m !! r = Some b /\ (nurl__cc_color (cc b) = NURL_CC_PURPLE \/ r ∈ Ts).

Record inv (H M Zs Ts : list positive) (D : gset positive) (s : rt) : Prop := {
  i_counted : counted H D (heap s);
  i_placed : placed M Zs (deferred (cs s)) D (heap s);
  i_flagged : flagged M (roots (cs s)) D (heap s);
  i_suspected : suspected Ts D (heap s);
  i_depth : 0 <= depth (cs s) <= NURL_RC_DROP_DEPTH;
  i_idle : depth (cs s) = 0 -> deferred (cs s) = [];
  i_urgent : urgent (cs s) = false;
  i_next u : is_Some (heap s !! u) -> (u < next s)%positive }.

(** What no call does to the rest: values only go, garbage and weak counts are
    left alone. *)
Record frame (D : gset positive) (s s' : rt) : Prop := {
  fr_cc : is_Some (nurl__cc s) -> is_Some (nurl__cc s');
  fr_collecting : collecting (cs s') = collecting (cs s);
  fr_depth : depth (cs s') = depth (cs s);
  fr_batch : nurl__cc_batch s' = nurl__cc_batch s;
  fr_next : next s' = next s;
  fr_value u b' : heap s' !! u = Some b' -> exists b, heap s !! u = Some b /\ (value b' = value b \/ value b' = None);
  fr_taken u b b' : heap s !! u = Some b -> heap s' !! u = Some b' -> cc_has RC_TAKEN (cc b') = cc_has RC_TAKEN (cc b);
  fr_garbage u : u ∈ D -> heap s' !! u = heap s !! u;
  fr_weak u : weak_at (heap s') u = weak_at (heap s) u }.

Lemma rc_frame_refl D s : frame D s s.
Proof. split; try done; [intros u b' Hb'; exists b'; auto|]. intros u b b' Hb Hb'. by simplify_eq. Qed.

Lemma rc_frame_trans D s1 s2 s3 : frame D s1 s2 -> frame D s2 s3 -> frame D s1 s3.
Proof.
  intros [A1 A2 A3 A4 A5 A6 At A7 A8] [B1 B2 B3 B4 B5 B6 Bt B7 B8]. split; [auto|congruence..| | | |].
  - intros u b3 (b2 & Hb2 & H2)%B6. apply A6 in Hb2 as (b1 & Hb1 & H1). exists b1. split; [done|].
    destruct H2 as [->| ->]; [done|by right].
  - intros u b1 b3 Hb1 Hb3. destruct (B6 u b3 Hb3) as (b2 & Hb2 & _). rewrite (Bt u b2 b3), (At u b1 b2); done.
  - intros u Hu. by rewrite B7, A7.
  - intros u. by rewrite B8, A8.
Qed.

(** * Edges and handles *)

Section edges.
Implicit Types (m : gmap positive NurlCcHdr).

(** The edges the collector sees are handles. *)
Lemma targets_strongs ks t : occ t (targets kind_of ks) = if mem_cyclic (kind_of t) then occ t (strongs ks) else 0.
Proof.
  induction ks as [|[u|u] ks IH]; cbn [targets strongs]; [by destruct (mem_cyclic _)| |done].
  destruct (decide (t = u)) as [<-|Hu].
  - destruct (mem_cyclic (kind_of t)); [by rewrite !occ_self, IH|done].
  - rewrite (occ_other t u (strongs ks)) by done. rewrite <- IH.
    destruct (mem_cyclic (kind_of u)); [by rewrite occ_other|done].
Qed.

Lemma out_occ m u t : occ t (out kind_of m u) = if mem_cyclic (kind_of t) then occ t (hs m u) else 0.
Proof.
  unfold out, hs. destruct (m !! u); [apply targets_strongs|]. cbn. by destruct (mem_cyclic _).
Qed.

Lemma out_hs m u t : t ∈ out kind_of m u -> t ∈ hs m u /\ mem_cyclic (kind_of t) = true.
Proof.
  intros Ht%occ_pos. rewrite out_occ in Ht. destruct (mem_cyclic (kind_of t)); [|lia]. split; [by apply occ_elem|done].
Qed.

Lemma indeg_out_le m X t : indeg (out kind_of m) X t <= indeg (hs m) X t.
Proof.
  apply ssum_le. intros u _. cbn. rewrite out_occ. pose proof (occ_nonneg t (hs m u)).
  destruct (mem_cyclic (kind_of t)); lia.
Qed.

Lemma indeg_same_hs m m' X t : (forall u, u ∈ X -> hs m' u = hs m u) -> indeg (out kind_of m') X t = indeg (out kind_of m) X t.
Proof. intros Hh. apply ssum_ext. intros u Hu. cbn. by rewrite !out_occ, Hh. Qed.
End edges.

(** * One block changes *)

Section change.
Context {m : gmap positive NurlCcHdr} {h : positive} {b : NurlCcHdr} (Hb : m !! h = Some b).
Implicit Types (H M Zs Ts rs df : list positive) (D P : gset positive).

(** The handles outside change with the count. *)
Lemma counted_strong H H' D b' :
  counted H D m -> value b' = value b -> (h ∉ D -> strong b' = strong b + occ h H' - occ h H) ->
  (forall u, u <> h -> u ∉ D -> occ u H' = occ u H) -> (forall u, u ∈ H' -> is_Some (m !! u)) ->
  (h ∉ D -> value b = None -> occ h H' = occ h H) ->
  counted H' D (<[h := b']> m).
Proof.
  intros [Hcount Hheld Hrefs Hnd Hval Hslots Hleaf] Hv Hs Hother Hin Hdead. split.
  - intros u c Hc HD. rewrite (refs_keep m h b b' u Hb Hv). apply insert_inv in Hc as [[-> ->]|[Hu Hc]].
    + rewrite Hs, (Hcount h b Hb HD) by done. lia.
    + rewrite Hother by done. by apply Hcount.
  - intros t Ht. by apply (insert_some _ _ _ _ _ Hb), Hin.
  - intros u t. rewrite (hs_keep m h b b' u Hb Hv). intros Ht. by apply (insert_some _ _ _ _ _ Hb), (Hrefs u).
  - intros u t. rewrite (hs_keep m h b b' u Hb Hv). by apply Hnd.
  - intros u c Hc HD Hn. apply insert_inv in Hc as [[-> ->]|[Hu Hc]]; [|by apply (Hval u c)].
    rewrite Hv in Hn. rewrite Hs, (Hval h b Hb HD Hn), Hdead by done. lia.
  - intros u c ks Hc Hk. apply insert_inv in Hc as [[-> ->]|[Hu Hc]]; [|by apply (Hslots u c)].
    apply (Hslots h b); [done|congruence].
  - intros u Hu. rewrite (hs_keep m h b b' u Hb Hv). by apply Hleaf.
Qed.

Lemma placed_keep M Zs df D b' :
  placed M Zs df D m -> value b' = value b -> (h ∉ D -> strong b' = strong b) -> placed M Zs df D (<[h := b']> m).
Proof.
  intros [Hz Hw Hnd Hm Hmnd] Hv Hs. split; try done.
  - intros u c Hc HD Hc0 Hcv. apply insert_inv in Hc as [[-> ->]|[Hu Hc]]; [|by apply (Hz u c)].
    apply (Hz h b); [done..| |]; [rewrite <- Hs by done; done|congruence].
  - intros u (HD & c & Hc & Hcv & Hc0)%Hw. split; [done|]. destruct (decide (u = h)) as [->|Hu].
    + exists b'. rewrite lookup_insert_eq, Hs, Hv by done. simplify_eq. done.
    + exists c. by rewrite lookup_insert_ne.
  - intros u (HD & c & Hc & Hcv)%Hm. split; [done|]. destruct (decide (u = h)) as [->|Hu].
    + exists b'. rewrite lookup_insert_eq, Hv. by simplify_eq.
    + exists c. by rewrite lookup_insert_ne.
Qed.

Lemma flagged_keep M rs D b' :
  flagged M rs D m -> value b' = value b -> cc b' = cc b -> weak b' = weak b -> flagged M rs D (<[h := b']> m).
Proof.
  intros [Hg Hf Hc Hi Hr Hd Hcy HD] Hv Hcc Hw. split.
  1-4,6-7: intros u c Hu; apply insert_inv in Hu as [[-> ->]|[Hu Hm]]; [rewrite ?Hv, ?Hcc, ?Hw|]; eauto.
  - intros i u (c & Hm & Hb1 & Hb2)%Hr. destruct (decide (u = h)) as [->|Hu].
    + exists b'. rewrite lookup_insert_eq, Hcc. by simplify_eq.
    + exists c. by rewrite lookup_insert_ne.
  - intros u (Hk & c & Hm & Hb1 & Hb2)%HD. split; [done|]. destruct (decide (u = h)) as [->|Hu].
    + exists b'. rewrite lookup_insert_eq, Hcc. by simplify_eq.
    + exists c. by rewrite lookup_insert_ne.
Qed.

(** A lonely set that does not use the change was one before. *)
Lemma lonely_before D P b' :
  lonely D (<[h := b']> m) P ->
  (h ∈ P -> 0 < strong b' -> 0 < strong b <= strong b' /\ strongs (kids b') = strongs (kids b)) -> lonely D m P.
Proof.
  intros HP Hh u Hu. destruct (HP u Hu) as (HD & c & Hc & Hpos & Hle). split; [done|].
  rewrite (indeg_same_hs m (<[h := b']> m)) in Hle.
  - apply insert_inv in Hc as [[-> ->]|[Hne Hc]]; [|by exists c].
    exists b. split; [done|]. destruct (Hh Hu Hpos). lia.
  - intros v Hv. rewrite hs_insert. destruct (decide (v = h)) as [->|]; [|done].
    destruct (HP h Hv) as (_ & c' & Hc' & Hpos' & _). rewrite lookup_insert_eq in Hc'. simplify_eq.
    destruct (Hh Hv Hpos') as [_ ->]. unfold hs. by rewrite Hb.
Qed.

(** The suspects stay when no lonely set comes up and the colours stay. *)
Lemma suspected_keep Ts D b' :
  suspected Ts D m ->
  (forall P, lonely D (<[h := b']> m) P -> h ∈ P -> 0 < strong b <= strong b' /\ strongs (kids b') = strongs (kids b)) ->
  (nurl__cc_color (cc b) = NURL_CC_PURPLE -> nurl__cc_color (cc b') = NURL_CC_PURPLE \/ h ∈ Ts \/ strong b' <= 0) ->
  suspected Ts D (<[h := b']> m).
Proof.
  intros Hs Hl Hc P HP Hne. destruct (Hs P) as (r & c & Hr & Hcr & Hp); [apply (lonely_before D P b' HP); intros Hh _; by apply (Hl P)|done|].
  destruct (decide (r = h)) as [->|Hrh].
  - exists h, b'. split; [done|]. split; [by rewrite lookup_insert_eq|]. simplify_eq.
    destruct Hp as [Hp|Hp]; [|by right]. destruct (Hc Hp) as [?|[?|Hle]]; [by left|by right|].
    destruct (HP h Hr) as (_ & c' & Hc' & Hpos & _). rewrite lookup_insert_eq in Hc'. simplify_eq. lia.
  - exists r, c. split; [done|]. by rewrite lookup_insert_ne.
Qed.
End change.
End inv.
