(* ===== verification/RcStep.v ===== *)
(** The single steps of a release, and what they do to the invariant. *)

From S2P Require Import Prelude StateMonad Rc RcWord RcGraph RcTrial RcMark RcExact RcInv.

Lemma answers_deref h b s (Q : NurlCcHdr -> rt -> Prop) : heap s !! h = Some b -> Q b s -> answers (deref h) s Q.
Proof. intros Hb HQ. exists b, s. unfold deref. by rewrite Hb. Qed.

Lemma answers_upd h b f s (Q : unit -> rt -> Prop) :
  heap s !! h = Some b -> Q tt (with_heap (<[h := f b]> (heap s)) s) -> answers (upd h f) s Q.
Proof.
  intros Hb HQ. unfold upd. apply answers_bind, (answers_deref h b); [done|]. by apply answers_put.
Qed.

Lemma answers_free h b s (Q : unit -> rt -> Prop) :
  heap s !! h = Some b -> Q tt (with_heap (delete h (heap s)) s) -> answers (nurl_free h) s Q.
Proof.
  intros Hb HQ. unfold nurl_free. apply answers_bind, (answers_deref h b); [done|]. by apply answers_put.
Qed.

Lemma answers_the_cc c s (Q : NurlCcState -> rt -> Prop) : nurl__cc s = Some c -> Q c s -> answers the_cc s Q.
Proof. intros Hc HQ. exists c, s. unfold the_cc. by rewrite Hc. Qed.

Lemma answers_upd_cc c f s (Q : unit -> rt -> Prop) :
  nurl__cc s = Some c -> Q tt (with_state (Some (f c)) s) -> answers (upd_cc f) s Q.
Proof. intros Hc HQ. unfold upd_cc. apply answers_bind, (answers_the_cc c); [done|]. by apply answers_put. Qed.

Lemma cs_some s c : nurl__cc s = Some c -> cs s = c.
Proof. intros Hc. unfold cs. by rewrite Hc. Qed.

Lemma weak_at_insert m h b b' u : m !! h = Some b -> weak b' = weak b -> weak_at (<[h := b']> m) u = weak_at m u.
Proof.
  intros Hb Hw. unfold weak_at. destruct (decide (u = h)) as [->|Hu]; [by rewrite lookup_insert_eq, Hb; cbn|by rewrite lookup_insert_ne].
Qed.

Lemma weak_at_delete m h b u : m !! h = Some b -> weak b = 0 -> weak_at (delete h m) u = weak_at m u.
Proof.
  intros Hb Hw. unfold weak_at. destruct (decide (u = h)) as [->|Hu]; [by rewrite lookup_delete_eq, Hb; cbn|by rewrite lookup_delete_ne].
Qed.

(** A block outside the garbage is changed, its value kept or taken. *)
Lemma frame_insert D s h b b' :
  heap s !! h = Some b -> h ∉ D -> (value b' = value b \/ value b' = None) -> weak b' = weak b ->
  cc_has RC_TAKEN (cc b') = cc_has RC_TAKEN (cc b) -> frame D s (with_heap (<[h := b']> (heap s)) s).
Proof.
  intros Hb HD Hv Hw Ht. split; try done; cbn.
  - intros u c Hc. apply insert_inv in Hc as [[-> ->]|[Hu Hc]]; [by exists b|]. exists c. auto.
  - intros u c c' Hc Hc'. apply insert_inv in Hc' as [[-> ->]|[Hu Hc']]; by simplify_eq.
  - intros u Hu. apply lookup_insert_ne. by intros ->.
  - intros u. by apply (weak_at_insert _ _ b).
Qed.

Lemma frame_delete D s h b :
  heap s !! h = Some b -> h ∉ D -> weak b = 0 -> frame D s (with_heap (delete h (heap s)) s).
Proof.
  intros Hb HD Hw. split; try done; cbn.
  - intros u c Hc. apply lookup_delete_Some in Hc as [Hu Hc]. exists c. auto.
  - intros u c c' Hc Hc'. apply lookup_delete_Some in Hc' as [Hu Hc']. by simplify_eq.
  - intros u Hu. apply lookup_delete_ne. by intros ->.
  - intros u. by apply (weak_at_delete _ _ b).
Qed.

(** The collector's own state is changed. *)
Lemma frame_state D s c c' :
  nurl__cc s = Some c -> collecting c' = collecting c -> depth c' = depth c -> frame D s (with_state (Some c') s).
Proof.
  intros Hc H1 H2. split; try done; unfold cs; cbn; rewrite ?Hc; try done; [intros u b' Hb'; exists b'; auto|].
  intros u b b' Hb Hb'. by simplify_eq.
Qed.

Section step.
Context (kind_of : positive -> cc_kind).
Abbreviation inv := (inv kind_of).
Implicit Types (H M : list positive) (D : gset positive).

(** Only the heap of the state is changed. *)
Lemma inv_heap H M Zs Ts H' M' Zs' Ts' D s m :
  inv H M Zs Ts D s ->
  (counted kind_of H D (heap s) -> counted kind_of H' D m) ->
  (placed M Zs (deferred (cs s)) D (heap s) -> placed M' Zs' (deferred (cs s)) D m) ->
  (flagged kind_of M (roots (cs s)) D (heap s) -> flagged kind_of M' (roots (cs s)) D m) ->
  (suspected kind_of Ts D (heap s) -> suspected kind_of Ts' D m) ->
  (forall u, is_Some (m !! u) -> is_Some (heap s !! u)) ->
  inv H' M' Zs' Ts' D (with_heap m s).
Proof. intros [Hc Hp Hf Hs Hd Hi Hu Hn] H1 H2 H3 H4 H5. split; cbn; auto. Qed.

Lemma held_some H M Zs Ts D s t : inv H M Zs Ts D s -> t ∈ H -> exists b, heap s !! t = Some b.
Proof. intros Hi Ht. apply (c_held _ _ _ _ (i_counted _ _ _ _ _ _ _ Hi) t Ht). Qed.

Lemma held_count H M Zs Ts D s t b :
  inv (t :: H) M Zs Ts D s -> heap s !! t = Some b -> t ∉ D -> 1 <= strong b /\ is_Some (value b).
Proof.
  intros Hi Hb HD. pose proof (i_counted _ _ _ _ _ _ _ Hi) as Hc. pose proof (c_count _ _ _ _ Hc t b Hb HD) as Hn.
  rewrite occ_self in Hn. pose proof (occ_nonneg t H). pose proof (refs_nonneg (heap s) t). split; [lia|].
  destruct (value b) eqn:Hv; [done|]. pose proof (c_value _ _ _ _ Hc t b Hb HD Hv). lia.
Qed.

(** A handle on a block that is not garbage goes: its count goes down. *)
Lemma inv_dec H M D s t b :
  inv (t :: H) M [] [] D s -> heap s !! t = Some b -> t ∉ D ->
  inv H M (if strong b =? 1 then [t] else []) (if strong b =? 1 then [] else [t]) D
    (with_heap (<[t := with_strong (strong b - 1) b]> (heap s)) s).
Proof.
  intros Hi Hb HD. destruct (held_count _ _ _ _ _ _ _ _ Hi Hb HD) as [Hs Hv]. apply (inv_heap _ _ _ _ _ _ _ _ _ _ _ Hi).
  - intros Hc. apply (counted_strong kind_of Hb (t :: H) H D); [done|done| | | |]; cbn.
    + rewrite decide_True by done. lia.
    + intros u Hu _. by rewrite decide_False.
    + intros u Hu. by apply (c_held _ _ _ _ Hc), list_elem_of_further.
    + intros _ Hn. rewrite Hn in Hv. by destruct Hv.
  - intros Hp. destruct Hp as [Hz Hw Hnd Hm Hmnd]. rewrite app_nil_r in *.
    assert (t ∉ deferred (cs s)) as Htd by (intros (_ & c & Hc & _ & Hc0)%Hw; simplify_eq; lia). split; try done.
    + intros u c Hc HuD Hc0 Hcv. apply elem_of_app. apply insert_inv in Hc as [[-> ->]|[Hu Hc]].
      * right. cbn in Hc0. rewrite (proj2 (Z.eqb_eq _ _)) by lia. apply list_elem_of_here.
      * left. by apply (Hz u c).
    + intros u [Hu|Hu]%elem_of_app.
      * destruct (Hw u Hu) as (HuD & c & Hc & ?). split; [done|]. exists c. rewrite lookup_insert_ne; [done|]. by intros ->.
      * destruct (Z.eqb_spec (strong b) 1); [|by apply elem_of_nil in Hu]. apply list_elem_of_singleton in Hu as ->.
        split; [done|]. exists (with_strong (strong b - 1) b). rewrite lookup_insert_eq. cbn. split_and!; [done|done|lia].
    + apply NoDup_app. split; [done|]. split; [|destruct (_ =? _); [apply NoDup_singleton|constructor]].
      intros u Hu Hu2. destruct (_ =? _); [by apply list_elem_of_singleton in Hu2 as ->|by apply elem_of_nil in Hu2].
    + intros u Hu. destruct (Hm u Hu) as (HuD & c & Hc & Hcv). split; [done|]. exists c.
      rewrite lookup_insert_ne; [done|]. intros ->. simplify_eq. rewrite Hcv in Hv. by destruct Hv.
  - intros Hf. by apply (flagged_keep kind_of Hb).
  - intros Hsus P HP Hne. destruct (decide (t ∈ P)) as [HtP|HtP].
    + destruct (HP t HtP) as (_ & c & Hc & Hpos & _). rewrite lookup_insert_eq in Hc. simplify_eq. cbn in Hpos.
      rewrite (proj2 (Z.eqb_neq _ _)) by lia. eexists t, _. split; [done|]. split; [apply lookup_insert_eq|]. right. apply list_elem_of_here.
    + destruct (Hsus P) as (r & c & Hr & Hc & Hp); [by apply (lonely_before kind_of Hb D P _ HP)|done|].
      exists r, c. split; [done|]. split; [rewrite lookup_insert_ne; [done|by intros ->]|].
      destruct Hp as [?|[]%elem_of_nil]. by left.
  - intros u Hu. by apply (insert_some _ _ _ _ _ Hb) in Hu.
Qed.

Lemma inv_dead H M Zs Ts D s t : inv (t :: H) M Zs Ts D s -> t ∈ D -> inv H M Zs Ts D s.
Proof.
  intros [[Hcount Hheld Hrefs Hnd Hval Hslots Hleaf] Hp Hf Hs Hd Hi Hu Hn] Ht. split; try done. split; try done.
  - intros u b Hb HD. rewrite (Hcount u b Hb HD), occ_other; [done|]. by intros ->.
  - intros u Hu'. by apply Hheld, list_elem_of_further.
Qed.

(** A value leaves a block nothing counts: its handles are outside now. *)
Lemma counted_take H D m h b :
  counted kind_of H D m -> m !! h = Some b -> (h ∉ D -> strong b = 0) ->
  counted kind_of (strongs (kids b) ++ H) D (<[h := with_value None b]> m).
Proof.
  intros [Hcount Hheld Hrefs Hnd Hval Hslots Hleaf] Hb Hz.
  assert (forall u, hs (<[h := with_value None b]> m) u = if decide (u = h) then [] else hs m u) as Hhs by (intros u; apply hs_insert).
  assert (hs m h = strongs (kids b)) as Hh by (unfold hs; by rewrite Hb). split.
  - intros u c Hc HD. rewrite (refs_value m h b _ u Hb), occ_app. unfold kids at 3. cbn.
    assert (strong c = occ u H + refs m u) as ->; [|lia].
    apply insert_inv in Hc as [[-> ->]|[Hu Hc]]; [by apply (Hcount h b)|by apply Hcount].
  - intros t Ht. apply (insert_some _ _ _ _ _ Hb). apply elem_of_app in Ht as [Ht|Ht]; [|by apply Hheld].
    apply (Hrefs h). by rewrite Hh.
  - intros u t. rewrite Hhs. destruct (decide (u = h)); [by intros ?%elem_of_nil|]. intros Ht.
    by apply (insert_some _ _ _ _ _ Hb), (Hrefs u).
  - intros u t. rewrite Hhs. destruct (decide (u = h)); [by intros ?%elem_of_nil|]. apply Hnd.
  - intros u c Hc HD Hn. apply insert_inv in Hc as [[-> ->]|[Hu Hc]]; [by apply Hz|by apply (Hval u c)].
  - intros u c ks Hc Hk. apply insert_inv in Hc as [[-> ->]|[Hu Hc]]; [done|by apply (Hslots u c)].
  - intros u Hu. rewrite Hhs. destruct (decide (u = h)); [done|by apply Hleaf].
Qed.

Lemma suspected_take Ts D m h b :
  suspected kind_of Ts D m -> m !! h = Some b -> (h ∉ D -> strong b = 0) ->
  suspected kind_of Ts D (<[h := with_value None b]> m).
Proof.
  intros Hs Hb Hz. apply (suspected_keep kind_of Hb); [done| |by left]. intros P HP HhP. exfalso.
  destruct (HP h HhP) as (HD & c & Hc & Hpos & _). rewrite lookup_insert_eq in Hc. simplify_eq. cbn in Hpos.
  rewrite Hz in Hpos by done. lia.
Qed.

Lemma slot_count_take m h b : m !! h = Some b ->
  Z.of_nat (slot_count m) = Z.of_nat (length (kids b)) + Z.of_nat (slot_count (<[h := with_value None b]> m)).
Proof.
  intros Hb. rewrite !slot_count_sum. assert (h ∈ dom m) as Hh by by apply elem_of_dom_2 in Hb.
  assert (dom (<[h := with_value None b]> m) = dom m) as -> by (rewrite dom_insert_L; set_solver).
  rewrite !(ssum_take _ h (dom m) Hh), lookup_insert_eq, Hb. cbn.
  rewrite (ssum_ext (fun u => Z.of_nat (length (default [] (kids <$> <[h := with_value None b]> m !! u))))
    (fun u => Z.of_nat (length (default [] (kids <$> m !! u)))) (dom m ∖ {[h]})); [lia|].
  intros u Hu. rewrite lookup_insert_ne by set_solver. done.
Qed.

Lemma frame_slots D s s' : frame D s s' -> (slot_count (heap s') <= slot_count (heap s))%nat.
Proof.
  intros Hf. apply Nat2Z.inj_le. rewrite !slot_count_sum.
  assert (dom (heap s') ⊆ dom (heap s)) as Hdom.
  { intros u [b' Hb']%elem_of_dom. destruct (fr_value _ _ _ Hf u b' Hb') as (b & Hb & _). by apply elem_of_dom_2 in Hb. }
  rewrite (ssum_split _ _ _ Hdom). rewrite <- (Z.add_0_r (ssum _ (dom (heap s')))) at 1. apply Z.add_le_mono.
  - apply ssum_le. intros u [b' Hb']%elem_of_dom. destruct (fr_value _ _ _ Hf u b' Hb') as (b & Hb & Hv).
    rewrite Hb', Hb. cbn. unfold kids. destruct Hv as [->| ->]; cbn; lia.
  - apply ssum_nonneg. lia.
Qed.

Lemma placed_take M df D m h b :
  placed M [h] df D m -> m !! h = Some b -> is_Some (value b) -> h ∉ D ->
  placed (h :: M) [] df D (<[h := with_value None b]> m).
Proof.
  intros [Hz Hw Hnd Hm Hmnd] Hb Hv HD. apply NoDup_app in Hnd as (Hnd1 & Hnd2 & _).
  assert (h ∉ df) as Hhd by (intros Hx; apply (Hnd2 h Hx), list_elem_of_here).
  assert (h ∉ M) as HhM by (intros (_ & c & Hc & Hcv)%Hm; destruct Hv; congruence).
  split; rewrite ?app_nil_r; try done.
  - intros u c Hc HuD Hc0 Hcv. apply insert_inv in Hc as [[-> ->]|[Hu Hc]]; [by destruct Hcv|].
    pose proof (Hz u c Hc HuD Hc0 Hcv) as Hin. apply elem_of_app in Hin as [?|?%list_elem_of_singleton]; done.
  - intros u Hu. destruct (Hw u) as (HuD & c & Hc & ?); [apply elem_of_app; by left|]. split; [done|]. exists c.
    rewrite lookup_insert_ne; [done|]. by intros ->.
  - intros u [->|Hu]%elem_of_cons; [split; [done|]; eexists; by rewrite lookup_insert_eq|].
    destruct (Hm u Hu) as (HuD & c & Hc & Hcv). split; [done|]. exists c. rewrite lookup_insert_ne; [done|].
    by intros ->.
  - by constructor.
Qed.

Lemma flagged_take M rs D m h b :
  flagged kind_of M rs D m -> m !! h = Some b -> is_Some (value b) ->
  flagged kind_of (h :: M) rs D (<[h := with_value None b]> m).
Proof.
  intros [Hg Hf Hc Hix Hr Hd Hcy HG] Hb [ks Hv].
  assert (cc_has NURL_CC_FREED (cc b) = false) as Hnf.
  { destruct (cc_has NURL_CC_FREED (cc b)) eqn:E; [|done]. destruct (Hf h b Hb E). congruence. }
  split.
  - intros u c Hu HuD Hcv. apply insert_inv in Hu as [[-> ->]|[Hne Hu]]; [left; apply list_elem_of_here|].
    destruct (Hg u c Hu HuD Hcv) as [?|?]; [left; by apply list_elem_of_further|by right].
  - intros u c Hu Hfr. apply insert_inv in Hu as [[-> ->]|[Hne Hu]]; [cbn in Hfr; congruence|].
    destruct (Hf u c Hu Hfr) as (? & ? & ?). split_and!; try done. by intros [->|?]%elem_of_cons.
  - intros u c Hu. apply insert_inv in Hu as [[-> ->]|[Hne Hu]]; [destruct (Hc h b Hb) as [?|[? _]]; auto|by apply (Hc u c)].
  - intros u c Hu. apply insert_inv in Hu as [[-> ->]|[Hne Hu]]; [by apply (Hix h b)|by apply (Hix u c)].
  - intros i u (c & Hu & ?)%Hr. destruct (decide (u = h)) as [->|Hne].
    + eexists. rewrite lookup_insert_eq. split; [done|]. by simplify_eq.
    + exists c. by rewrite lookup_insert_ne.
  - intros u c Hu. apply insert_inv in Hu as [[-> ->]|[Hne Hu]]; [by right|eauto].
  - intros u c Hu. apply insert_inv in Hu as [[-> ->]|[Hne Hu]]; [by apply (Hcy h b)|by apply (Hcy u c)].
  - intros u Hu. destruct (HG u Hu) as (? & c & Hc' & Hd1 & Hd2). split; [done|]. destruct (decide (u = h)) as [->|Hne].
    + eexists. rewrite lookup_insert_eq. split; [done|]. by simplify_eq.
    + exists c. by rewrite lookup_insert_ne.
Qed.

Lemma wp_take H M D s h :
  inv H M [h] [] D s ->
  answers (take_value h) s (fun ks s' => exists ts, ks = Strong <$> ts /\ inv (ts ++ H) (h :: M) [] [] D s' /\
    frame D s s' /\ nurl__cc s' = nurl__cc s /\ (slot_count (heap s') + length ts = slot_count (heap s))%nat /\
    exists b, heap s !! h = Some b /\ is_Some (value b)).
Proof.
  intros Hi. pose proof (i_placed _ _ _ _ _ _ _ Hi) as [Hz Hw Hnd Hm Hmnd].
  destruct (Hw h) as (HD & b & Hb & [ks Hks] & Hst); [apply elem_of_app; right; apply list_elem_of_here|].
  pose proof (c_slots _ _ _ _ (i_counted _ _ _ _ _ _ _ Hi) h b ks Hb Hks) as Hkst.
  unfold take_value. apply answers_bind, (answers_deref h b); [done|].
  apply answers_bind. exists ks, s. unfold of_option. rewrite Hks. split; [done|].
  apply answers_bind, (answers_upd h b); [done|]. apply answers_ret. exists (strongs ks).
  assert (kids b = ks) as Hk by (unfold kids; by rewrite Hks).
  split; [done|]. split; [|split; [|split; [done|split]]].
  - apply (inv_heap _ _ _ _ _ _ _ _ _ _ _ Hi).
    + intros Hc. rewrite <- Hk. by apply counted_take.
    + intros Hp. apply placed_take; [done..|by exists ks|done].
    + intros Hf. apply flagged_take; [done..|by exists ks].
    + intros Hs. by apply suspected_take.
    + intros u. by apply (insert_some _ _ _ _ _ Hb).
  - apply (frame_insert D s h b); [done..|by right|done|done].
  - cbn. pose proof (slot_count_take (heap s) h b Hb) as Hsc. rewrite Hk in Hsc.
    assert (length ks = length (strongs ks)) by (rewrite Hkst at 1; apply length_fmap). lia.
  - exists b. rewrite Hks. eauto.
Qed.
End step.
