(* ===== verification/RcRelease.v ===== *)
(** The end of a release: the block leaves the buffer and is freed, or waits
    for the collector or for its weak handles. *)

From S2P Require Import Prelude StateMonad Rc RcWord RcGraph RcTrial RcMark RcExact RcInv RcStep.

(** Two heaps that differ in the flags and indices of their blocks only. *)
Definition like (b b' : NurlCcHdr) : Prop :=
  strong b' = strong b /\ value b' = value b /\ weak b' = weak b /\ nurl__cc_color (cc b') = nurl__cc_color (cc b) /\
  cc_has RC_TAKEN (cc b') = cc_has RC_TAKEN (cc b).

Definition alike (m m' : gmap positive NurlCcHdr) : Prop := forall u, option_relation like (fun _ => False) (fun _ => False) (m !! u) (m' !! u).

Section alike.
Context (kind_of : positive -> cc_kind) {m m' : gmap positive NurlCcHdr} (Hm : alike m m').

Lemma alike_some u b : m !! u = Some b -> exists b', m' !! u = Some b' /\ like b b'.
Proof. intros Hb. specialize (Hm u). rewrite Hb in Hm. destruct (m' !! u) as [b'|]; cbn in Hm; [eauto|done]. Qed.
Lemma alike_back u b' : m' !! u = Some b' -> exists b, m !! u = Some b /\ like b b'.
Proof. intros Hb. specialize (Hm u). rewrite Hb in Hm. destruct (m !! u) as [b|]; cbn in Hm; [eauto|done]. Qed.
Lemma alike_is_some u : is_Some (m' !! u) <-> is_Some (m !! u).
Proof. split; [intros [b' (b & Hb & _)%alike_back]|intros [b (b' & Hb & _)%alike_some]]; eauto. Qed.

Lemma alike_hs u : hs m' u = hs m u.
Proof.
  specialize (Hm u). unfold hs. destruct (m !! u) as [b|], (m' !! u) as [b'|]; cbn in Hm; try done.
  unfold kids. by destruct Hm as (_ & -> & _).
Qed.

Lemma alike_refs t : refs m' t = refs m t.
Proof. apply refs_same; [|apply alike_hs]. apply set_eq. intros u. rewrite !elem_of_dom. apply alike_is_some. Qed.

Lemma counted_alike H D : counted kind_of H D m -> counted kind_of H D m'.
Proof.
  intros [Hcount Hheld Hrefs Hnd Hval Hslots Hleaf]. split.
  - intros u b' (b & Hb & -> & _)%alike_back HD. rewrite alike_refs. by apply Hcount.
  - intros t Ht. by apply alike_is_some, Hheld.
  - intros u t. rewrite alike_hs. intros Ht. by apply alike_is_some, (Hrefs u).
  - intros u t. rewrite alike_hs. apply Hnd.
  - intros u b' (b & Hb & -> & -> & _)%alike_back. by apply (Hval u b).
  - intros u b' ks (b & Hb & _ & -> & _)%alike_back. by apply (Hslots u b).
  - intros u. rewrite alike_hs. apply Hleaf.
Qed.

Lemma placed_alike M Zs df D : placed M Zs df D m -> placed M Zs df D m'.
Proof.
  intros [Hz Hw Hnd Hmid Hmnd]. split; try done.
  - intros u b' (b & Hb & -> & -> & _)%alike_back. by apply (Hz u b).
  - intros u (HD & b & (b' & Hb' & Hs & Hv & _)%alike_some & ?)%Hw. split; [done|]. exists b'. by rewrite Hs, Hv.
  - intros u (HD & b & (b' & Hb' & Hs & Hv & _)%alike_some & ?)%Hmid. split; [done|]. exists b'. by rewrite Hv.
Qed.

Lemma suspected_alike Ts D : suspected kind_of Ts D m -> suspected kind_of Ts D m'.
Proof.
  intros Hs P HP Hne. destruct (Hs P) as (r & b & Hr & (b' & Hb' & _ & _ & _ & Hc & _)%alike_some & Hp); [|done|].
  - intros u Hu. destruct (HP u Hu) as (HD & b' & (b & Hb & Hst & _)%alike_back & Hle). split; [done|]. exists b.
    split; [done|]. rewrite (indeg_same_hs kind_of m m') in Hle by (intros; apply alike_hs). by rewrite <- Hst.
  - exists r, b'. by rewrite Hc.
Qed.
End alike.

(** One block after the other. *)
Lemma alike_refl m : alike m m.
Proof. intros u. destruct (m !! u); cbn; [by split_and!|done]. Qed.

Lemma alike_insert m m' h b b' : alike m m' -> m !! h = Some b -> like b b' -> alike m (<[h := b']> m').
Proof.
  intros Hm Hb Hl u. destruct (decide (u = h)) as [->|Hu]; [by rewrite lookup_insert_eq, Hb|].
  rewrite lookup_insert_ne by done. apply Hm.
Qed.

Section release.
Context (kind_of : positive -> cc_kind).
Abbreviation inv := (inv kind_of).

Lemma flagged_rebuffer M rs rs' D m m' :
  flagged kind_of M rs D m -> alike m m' ->
  (forall u b b', m !! u = Some b -> m' !! u = Some b' ->
    cc_has NURL_CC_FREED (cc b') = cc_has NURL_CC_FREED (cc b) /\ cc_has NURL_CC_DEAD (cc b') = cc_has NURL_CC_DEAD (cc b) /\
    (cc_has NURL_CC_BUFFERED (cc b') = cc_has NURL_CC_BUFFERED (cc b) \/
     cc_has NURL_CC_BUFFERED (cc b') = false /\ value b = None /\ cc_has NURL_CC_FREED (cc b) = false)) ->
  (forall u b', m' !! u = Some b' -> cc_has NURL_CC_BUFFERED (cc b') = true -> rs' !! cc_index (cc b') = Some u) ->
  (forall i u, rs' !! i = Some u -> exists b', m' !! u = Some b' /\ cc_has NURL_CC_BUFFERED (cc b') = true /\ cc_index (cc b') = i) ->
  flagged kind_of M rs' D m'.
Proof.
  intros [Hg Hf Hc Hi Hr Hd Hcy HD] Hm Hfl Hix Hrs. split; try done.
  - intros u b' Hb' HuD Hv. destruct (alike_back Hm u b' Hb') as (b & Hb & Hst & Hvb & Hw & Hcol).
    destruct (Hfl u b b' Hb Hb') as (-> & _ & Hbuf). rewrite Hw.
    destruct (Hg u b Hb HuD) as [?|[[? Hnb]|[Hfr Hbf]]]; [congruence|by left| |].
    + right. left. split; [done|]. destruct Hbuf as [->|(? & _)]; done.
    + right. right. split; [done|]. destruct Hbuf as [->|(_ & _ & Hx)]; congruence.
  - intros u b' Hb'. destruct (alike_back Hm u b' Hb') as (b & Hb & _ & -> & _).
    destruct (Hfl u b b' Hb Hb') as (-> & _ & _). by apply Hf.
  - intros u b' Hb'. destruct (alike_back Hm u b' Hb') as (b & Hb & _ & -> & _ & -> & _).
    destruct (Hfl u b b' Hb Hb') as (_ & _ & Hbuf). destruct (Hc u b Hb) as [?|[? [?|?]]]; [by left|right; split; [done|]..].
    + destruct Hbuf as [->|(_ & Hv & _)]; auto.
    + by right.
  - intros u b' Hb'. destruct (alike_back Hm u b' Hb') as (b & Hb & _ & -> & _).
    destruct (Hfl u b b' Hb Hb') as (_ & -> & _). by apply Hd.
  - intros u b' Hb'. destruct (alike_back Hm u b' Hb') as (b & Hb & _).
    destruct (Hfl u b b' Hb Hb') as (_ & _ & [->|(-> & _)]); [by apply (Hcy u b)|done].
  - intros u Hu. destruct (HD u Hu) as (Hk & b & Hb & Hdead & Hbf). split; [done|].
    destruct (alike_some Hm u b Hb) as (b' & Hb' & _). exists b'. destruct (Hfl u b b' Hb Hb') as (_ & -> & Hbuf).
    split_and!; [done|done|]. destruct Hbuf as [->|(-> & _)]; done.
Qed.

Lemma last_lookup_len {A} (l : list A) x : last l = Some x -> l !! (length l - 1)%nat = Some x.
Proof. intros Hl. rewrite last_lookup in Hl. rewrite <- Hl. f_equal. lia. Qed.

(** The buffer without [h]: the last entry takes its place. *)
Definition cut (rs : list positive) (i : nat) (h l : positive) : list positive :=
  let rs1 := take (length rs - 1) rs in if decide (l = h) then rs1 else <[i := l]> rs1.

Lemma cut_lookup rs i h l j u :
  rs !! i = Some h -> last rs = Some l -> (forall i j u, rs !! i = Some u -> rs !! j = Some u -> i = j) ->
  cut rs i h l !! j = Some u <-> u <> h /\ ((u = l /\ j = i) \/ (u <> l /\ rs !! j = Some u)).
Proof.
  intros Hi Hl Hinj. pose proof (last_lookup_len rs l Hl) as Hll. pose proof (lookup_lt_Some rs i h Hi) as Hlt.
  assert (forall k v, take (length rs - 1) rs !! k = Some v <-> rs !! k = Some v /\ k <> (length rs - 1)%nat) as Htake.
  { intros k v. rewrite lookup_take_Some. split; intros [Hk Hx]; (split; [done|]); [lia|].
    apply lookup_lt_Some in Hk. lia. }
  unfold cut. destruct (decide (l = h)) as [->|Hne].
  - rewrite Htake. split.
    + intros [Hj Hx]. assert (u <> h) by (intros ->; apply Hx, (Hinj j _ h); done). auto.
    + intros [Hu [[-> _]|[_ Hj]]]; [done|]. split; [done|]. intros ->. congruence.
  - assert (i <> (length rs - 1)%nat) as Hil by congruence.
    destruct (decide (j = i)) as [->|Hji].
    + rewrite list_lookup_insert_eq by (rewrite length_take; lia). split; [intros [= <-]; auto|].
      intros [Hu [[-> _]|[_ Hj]]]; [done|congruence].
    + rewrite list_lookup_insert_ne, Htake by done. split.
      * intros [Hj Hx]. split; [intros ->; apply Hji, (Hinj j i h); done|]. right. split; [|done].
        intros ->. apply Hx, (Hinj j _ l); done.
      * intros [Hu [[_ ?]|[Hul Hj]]]; [done|]. split; [done|]. intros ->. congruence.
Qed.

Lemma roots_inj M rs D m i j u : flagged kind_of M rs D m -> rs !! i = Some u -> rs !! j = Some u -> i = j.
Proof.
  intros Hf Hi Hj. destruct (f_roots _ _ _ _ _ Hf i u Hi) as (b & Hb & _ & <-).
  destruct (f_roots _ _ _ _ _ Hf j u Hj) as (b' & Hb' & _ & <-). by simplify_eq.
Qed.

(** The heap and the buffer after [h] has left it. *)
Definition unlisted (m : gmap positive NurlCcHdr) (h l : positive) (b bl : NurlCcHdr) : gmap positive NurlCcHdr :=
  <[h := with_cc (cc_clear NURL_CC_BUFFERED) b]>
    (if decide (l = h) then m else <[l := with_cc (cc_put_index (cc_index (cc b))) bl]> m).

Lemma unlisted_alike m h l b bl : m !! h = Some b -> m !! l = Some bl -> alike m (unlisted m h l b bl).
Proof.
  intros Hb Hbl. apply (alike_insert _ _ h b); [|done|split_and!; try done; cbn; by autorewrite with ccw].
  destruct (decide (l = h)); [apply alike_refl|]. apply (alike_insert _ _ l bl); [apply alike_refl|done|].
  split_and!; try done; cbn; by autorewrite with ccw.
Qed.

Lemma unlisted_lookup m h l b bl u b' : m !! h = Some b -> m !! l = Some bl -> unlisted m h l b bl !! u = Some b' ->
  (u = h /\ b' = with_cc (cc_clear NURL_CC_BUFFERED) b) \/
  (u <> h /\ u = l /\ b' = with_cc (cc_put_index (cc_index (cc b))) bl) \/ (u <> h /\ u <> l /\ m !! u = Some b').
Proof.
  intros Hb Hbl Hu. unfold unlisted in Hu. apply insert_inv in Hu as [?|[Hne Hu]]; [by left|right].
  destruct (decide (l = h)) as [->|Hlh]; [by right|]. apply insert_inv in Hu as [[-> ->]|[? ?]]; auto.
Qed.

Lemma flagged_unlisted M rs D m h l b bl :
  flagged kind_of M rs D m -> m !! h = Some b -> m !! l = Some bl -> last rs = Some l ->
  cc_has NURL_CC_BUFFERED (cc b) = true -> value b = None -> cc_has NURL_CC_FREED (cc b) = false ->
  flagged kind_of M (cut rs (cc_index (cc b)) h l) D (unlisted m h l b bl).
Proof.
  intros Hf Hb Hbl Hl Hbuf Hv Hnf. pose proof (f_index _ _ _ _ _ Hf h b Hb Hbuf) as Hi.
  destruct (f_roots _ _ _ _ _ Hf _ l (last_lookup_len rs l Hl)) as (bl' & Hbl' & Hlbuf & _).
  assert (bl' = bl) as -> by congruence.
  assert (forall j u, cut rs (cc_index (cc b)) h l !! j = Some u <->
    u <> h /\ ((u = l /\ j = cc_index (cc b)) \/ (u <> l /\ rs !! j = Some u))) as Hcut.
  { intros j u. apply cut_lookup; [done|done|]. intros. by eapply roots_inj. }
  apply (flagged_rebuffer M rs _ D m); [done|by apply unlisted_alike| | |].
  - intros u c c' Hc Hc'. apply (unlisted_lookup m h l b bl) in Hc' as [[-> ->]|[(? & -> & ->)|(? & ? & Hc')]]; try done;
      cbn; autorewrite with ccw; simplify_eq; split_and!; auto.
  - intros u c' Hc' Hcb. apply Hcut. apply (unlisted_lookup m h l b bl) in Hc' as [[-> ->]|[(? & -> & ->)|(? & ? & Hc')]]; try done.
    + cbn in Hcb. by rewrite buffered_unbuffer in Hcb.
    + split; [done|]. left. split; [done|]. cbn. by autorewrite with ccw.
    + split; [done|]. right. split; [done|]. by apply (f_index _ _ _ _ _ Hf).
  - intros j u [Hu [[-> ->]|[Hul Hj]]]%Hcut.
    + eexists. split; [unfold unlisted; rewrite lookup_insert_ne, decide_False, lookup_insert_eq by done; done|].
      cbn. by autorewrite with ccw.
    + destruct (f_roots _ _ _ _ _ Hf j u Hj) as (c & Hc & ?). exists c. split; [|done]. unfold unlisted.
      rewrite lookup_insert_ne by done. destruct (decide (l = h)); [done|]. by rewrite lookup_insert_ne.
Qed.

Lemma wp_unbuffer H M D s h b :
  inv H M [] [] D s -> heap s !! h = Some b -> cc_has NURL_CC_BUFFERED (cc b) = true -> value b = None ->
  cc_has NURL_CC_FREED (cc b) = false ->
  answers (unbuffer h;; upd h (with_cc (cc_clear NURL_CC_BUFFERED))) s (fun _ s' =>
    inv H M [] [] D s' /\ frame D s s' /\ exists b', heap s' !! h = Some b' /\ value b' = None /\ weak b' = weak b /\
      cc_has NURL_CC_BUFFERED (cc b') = false).
Proof.
  intros Hi Hb Hbuf Hv Hnf. pose proof (i_flagged _ _ _ _ _ _ _ Hi) as Hf.
  pose proof (f_index _ _ _ _ _ Hf h b Hb Hbuf) as Hix.
  destruct (nurl__cc s) as [c|] eqn:Ec; [|unfold cs in Hix; rewrite Ec in Hix; done].
  pose proof (cs_some s c Ec) as Hcs. rewrite Hcs in *.
  destruct (last (roots c)) as [l|] eqn:El; [|apply last_None in El; by rewrite El in Hix].
  destruct (f_roots _ _ _ _ _ Hf _ l (last_lookup_len _ l El)) as (bl & Hbl & Hlbuf & _).
  assert (answers (unbuffer h;; upd h (with_cc (cc_clear NURL_CC_BUFFERED))) s (fun _ s' =>
    s' = Rt (unlisted (heap s) h l b bl) (next s) (Some (with_roots (cut (roots c) (cc_index (cc b)) h l) c)) (nurl__cc_batch s))) as Hrun.
  { unfold unbuffer. apply answers_bind, answers_bind, (answers_deref h b); [done|].
    apply answers_bind, (answers_the_cc c); [done|]. apply answers_bind. exists l, s. unfold of_option. rewrite El. split; [done|].
    apply answers_bind, (answers_upd_cc c); [done|]. unfold cut, unlisted. destruct (decide (l = h)) as [->|Hlh].
    - rewrite bool_decide_false by tauto. apply answers_ret, (answers_upd h b); [done|]. done.
    - rewrite bool_decide_true by done. eapply answers_bind, answers_the_cc; [done|]. cbn [roots with_roots].
      apply answers_bind. rewrite (proj2 (Nat.ltb_lt _ _)).
      2:{ apply lookup_lt_Some in Hix as Hlt. rewrite length_take. pose proof (last_lookup_len _ l El).
          assert (cc_index (cc b) <> (length (roots c) - 1)%nat) by congruence. lia. }
      apply answers_ret. apply answers_bind. eapply answers_upd_cc; [done|]. apply (answers_upd l bl); [done|].
      apply (answers_upd h b); [by cbn; rewrite lookup_insert_ne|]. done. }
  eapply answers_mono; [exact Hrun|]. intros [] s' ->.
  assert (alike (heap s) (unlisted (heap s) h l b bl)) as Ha by by apply unlisted_alike.
  split; [|split].
  - destruct Hi as [Hc Hp _ Hs Hd Hid Hu Hn]. rewrite Hcs in *. split; cbn; try done.
    + by apply (counted_alike kind_of Ha).
    + by apply (placed_alike Ha).
    + by apply flagged_unlisted.
    + by apply (suspected_alike kind_of Ha).
    + intros u Hx. apply Hn. by apply (alike_is_some Ha).
  - split; try done; unfold cs; cbn; rewrite ?Ec; try done.
    + intros u b' Hb'. destruct (alike_back Ha u b' Hb') as (b0 & Hb0 & _ & -> & _). exists b0. auto.
    + intros u b1 b2 Hb1 Hb2. destruct (alike_back Ha u b2 Hb2) as (b0 & Hb0 & _ & _ & _ & _ & ->). by simplify_eq.
    + intros u Hu. destruct (f_garbage _ _ _ _ _ Hf u Hu) as (_ & bu & Hbu & _ & Hnb). unfold unlisted.
      rewrite lookup_insert_ne by congruence. destruct (decide (l = h)); [done|]. rewrite lookup_insert_ne; congruence.
    + intros u. unfold weak_at. specialize (Ha u). destruct (heap s !! u), (unlisted _ _ _ _ _ !! u); cbn in Ha |- *; try done.
      by destruct Ha as (_ & _ & -> & _).
  - eexists. cbn. unfold unlisted. rewrite lookup_insert_eq. split; [done|]. cbn. by autorewrite with ccw.
Qed.

(** The block of a finished release. *)
Lemma mid_block H M Zs Ts D s h :
  inv H (h :: M) Zs Ts D s -> h ∉ D /\ h ∉ M /\ exists b, heap s !! h = Some b /\ value b = None /\ strong b = 0 /\
    cc_has NURL_CC_FREED (cc b) = false.
Proof.
  intros Hi. pose proof (i_placed _ _ _ _ _ _ _ Hi) as [_ _ _ Hmid Hmnd].
  destruct (Hmid h (list_elem_of_here _ _)) as (HD & b & Hb & Hv). apply NoDup_cons in Hmnd as [HhM _].
  split; [done|]. split; [done|]. exists b. split; [done|]. split; [done|].
  split; [by apply (c_value _ _ _ _ (i_counted _ _ _ _ _ _ _ Hi) h b)|].
  destruct (cc_has NURL_CC_FREED (cc b)) eqn:E; [|done]. exfalso.
  destruct (f_freed _ _ _ _ _ (i_flagged _ _ _ _ _ _ _ Hi) h b Hb E) as (_ & Hn & _). apply Hn, list_elem_of_here.
Qed.

Lemma placed_forget h M Zs df D m : placed (h :: M) Zs df D m -> placed M Zs df D m.
Proof.
  intros [Hz Hw Hnd Hmid Hmnd]. split; try done.
  - intros u Hu. by apply Hmid, list_elem_of_further.
  - by apply NoDup_cons in Hmnd as [_ Hmnd].
Qed.

(** It stays for its weak handles. *)
Lemma inv_forget H M D s h b :
  inv H (h :: M) [] [] D s -> heap s !! h = Some b -> weak b <> 0 -> cc_has NURL_CC_BUFFERED (cc b) = false ->
  inv H M [] [] D s.
Proof.
  intros [Hc Hp [Hg Hf Hcol Hix Hr Hd Hcy HD] Hs Hdp Hid Hu Hn] Hb Hw Hnb. split; try done; [by apply placed_forget in Hp|].
  split; try done.
  - intros u c Hc' HuD Hv. destruct (Hg u c Hc' HuD Hv) as [[->|?]%elem_of_cons|?]; auto. simplify_eq. auto.
  - intros u c Hc' Hfr. destruct (Hf u c Hc' Hfr) as (? & Hnm & ?). split_and!; try done. intros ?. apply Hnm.
    by apply list_elem_of_further.
Qed.

(** It stays for the collector, which holds its buffer. *)
Lemma inv_freed H M D s h b :
  inv H (h :: M) [] [] D s -> heap s !! h = Some b -> cc_has NURL_CC_BUFFERED (cc b) = true ->
  inv H M [] [] D (with_heap (<[h := with_cc (cc_set NURL_CC_FREED) b]> (heap s)) s).
Proof.
  intros Hi Hb Hbuf. destruct (mid_block _ _ _ _ _ _ _ Hi) as (HD & HhM & b' & Hb' & Hv & Hst & Hnf).
  assert (b' = b) as -> by congruence.
  assert (alike (heap s) (<[h := with_cc (cc_set NURL_CC_FREED) b]> (heap s))) as Ha.
  { apply (alike_insert _ _ h b); [apply alike_refl|done|]. split_and!; try done; cbn; by autorewrite with ccw. }
  apply (inv_heap kind_of _ _ _ _ _ _ _ _ _ _ _ Hi).
  - by apply (counted_alike kind_of Ha).
  - intros Hp. by apply (placed_alike Ha), placed_forget in Hp.
  - intros [Hg Hf Hcol Hix Hr Hd Hcy HG]. split.
    + intros u c Hc HuD Hcv. apply insert_inv in Hc as [[-> ->]|[Hne Hc]].
      * right. right. cbn. by autorewrite with ccw.
      * destruct (Hg u c Hc HuD Hcv) as [[->|?]%elem_of_cons|?]; try done; auto.
    + intros u c Hc Hfr. apply insert_inv in Hc as [[-> ->]|[Hne Hc]]; [done|].
      destruct (Hf u c Hc Hfr) as (? & Hnm & ?). split_and!; try done. intros ?. by apply Hnm, list_elem_of_further.
    + intros u c Hc. apply insert_inv in Hc as [[-> ->]|[Hne Hc]]; [|by apply (Hcol u c)]. cbn. autorewrite with ccw.
      destruct (Hcol h b Hb) as [?|[? ?]]; auto.
    + intros u c Hc Hcb. apply insert_inv in Hc as [[-> ->]|[Hne Hc]]; [|by apply (Hix u c)]. cbn. autorewrite with ccw.
      by apply Hix.
    + intros i u (c & Hc & Hcb & Hci)%Hr. destruct (decide (u = h)) as [->|Hne].
      * eexists. rewrite lookup_insert_eq. split; [done|]. cbn. autorewrite with ccw. by simplify_eq.
      * exists c. by rewrite lookup_insert_ne.
    + intros u c Hc Hcd. apply insert_inv in Hc as [[-> ->]|[Hne Hc]]; [by right|by apply Hd].
    + intros u c Hc Hcb. apply insert_inv in Hc as [[-> ->]|[Hne Hc]]; [by apply (Hcy h b)|by apply (Hcy u c)].
    + intros u Hu. destruct (HG u Hu) as (? & c & Hc & ?). split; [done|]. exists c.
      rewrite lookup_insert_ne; [done|]. by intros ->.
  - intros Hs. by apply (suspected_alike kind_of Ha).
  - intros u. apply (alike_is_some Ha).
Qed.

(** A block goes that has no value and is not in the buffer. *)
Section delete.
Context {m : gmap positive NurlCcHdr} {h : positive} {b : NurlCcHdr} {D : gset positive}.
Context (Hb : m !! h = Some b) (Hv : value b = None) (HD : h ∉ D).

Lemma lookup_kept u : u <> h -> delete h m !! u = m !! u.
Proof. intros Hu. by apply lookup_delete_ne. Qed.

Lemma counted_delete H : counted kind_of H D m -> counted kind_of H D (delete h m).
Proof using Hb Hv HD.
  intros Hcd. pose proof Hcd as [Hcount Hheld Hrefs Hnd Hval Hslots Hleaf].
  assert (forall u, hs (delete h m) u = hs m u) as Hhs by (intros u; by apply (hs_delete _ _ b)).
  assert (occ h H = 0 /\ refs m h = 0) as [Hocc Href].
  { pose proof (Hcount h b Hb HD). pose proof (Hval h b Hb HD Hv). pose proof (occ_nonneg h H). pose proof (refs_nonneg m h). lia. }
  split.
  - intros u c [Hu Hc]%lookup_delete_Some HuD. rewrite (refs_delete _ _ b) by done. by apply Hcount.
  - intros t Ht. rewrite lookup_kept; [by apply Hheld|]. intros ->. apply occ_pos in Ht. lia.
  - intros u t. rewrite Hhs. intros Ht. rewrite lookup_kept; [by apply (Hrefs u)|]. intros ->. apply refs_pos in Ht. lia.
  - intros u t. rewrite Hhs. apply Hnd.
  - intros u c [Hu Hc]%lookup_delete_Some. by apply (Hval u c).
  - intros u c ks [Hu Hc]%lookup_delete_Some. by apply (Hslots u c).
  - intros u. rewrite Hhs. apply Hleaf.
Qed.

Lemma placed_delete M Zs df : placed M Zs df D m -> h ∉ M -> placed M Zs df D (delete h m).
Proof using Hb Hv.
  intros [Hz Hw Hnd Hmid Hmnd] HhM. split; try done.
  - intros u c [Hu Hc]%lookup_delete_Some. by apply (Hz u c).
  - intros u Hu. destruct (Hw u Hu) as (HuD & c & Hc & Hcv & ?). split; [done|]. exists c. rewrite lookup_kept; [done|].
    intros ->. simplify_eq. rewrite Hv in Hcv. by destruct Hcv.
  - intros u Hu. destruct (Hmid u Hu) as (HuD & c & ?). split; [done|]. exists c. rewrite lookup_kept; [done|]. by intros ->.
Qed.

Lemma flagged_delete M M' rs :
  flagged kind_of M rs D m -> cc_has NURL_CC_BUFFERED (cc b) = false -> (forall u, u <> h -> u ∈ M <-> u ∈ M') ->
  flagged kind_of M' rs D (delete h m).
Proof using Hb HD.
  intros [Hg Hf Hcol Hix Hr Hd Hcy HG] Hbuf HM. split.
  - intros u c [Hu Hc]%lookup_delete_Some HuD Hcv. destruct (Hg u c Hc HuD Hcv) as [?|?]; [left; by apply (HM u)|by right].
  - intros u c [Hu Hc]%lookup_delete_Some Hfr. destruct (Hf u c Hc Hfr) as (? & Hnm & ?). split_and!; try done.
    by rewrite <- (HM u).
  - intros u c [Hu Hc]%lookup_delete_Some. by apply (Hcol u c).
  - intros u c [Hu Hc]%lookup_delete_Some. by apply (Hix u c).
  - intros i u (c & Hc & Hcb & Hci)%Hr. exists c. rewrite lookup_kept; [done|]. intros ->. congruence.
  - intros u c [Hu Hc]%lookup_delete_Some. by apply (Hd u c).
  - intros u c [Hu Hc]%lookup_delete_Some. by apply (Hcy u c).
  - intros u Hu. destruct (HG u Hu) as (? & c & ?). split; [done|]. exists c. rewrite lookup_kept; [done|]. by intros ->.
Qed.

Lemma suspected_delete Ts : suspected kind_of Ts D m -> suspected kind_of Ts D (delete h m).
Proof using Hb Hv.
  intros Hs P HP HPne. destruct (Hs P) as (r & c & Hr & Hc & Hp); [|done|].
  - intros u Hu. destruct (HP u Hu) as (HuD & c & [Hne' Hc]%lookup_delete_Some & Hle). split; [done|]. exists c.
    split; [done|]. rewrite (indeg_same_hs kind_of m (delete h m)) in Hle; [done|]. intros v _. by apply (hs_delete _ _ b).
  - exists r, c. split; [done|]. split; [|done]. rewrite lookup_kept; [done|]. intros ->.
    destruct (HP h Hr) as (_ & c' & [? _]%lookup_delete_Some & _). done.
Qed.
End delete.

Lemma inv_delete H M M' D s h b :
  inv H M [] [] D s -> heap s !! h = Some b -> value b = None -> h ∉ D -> cc_has NURL_CC_BUFFERED (cc b) = false ->
  M = h :: M' \/ M = M' -> h ∉ M' -> inv H M' [] [] D (with_heap (delete h (heap s)) s).
Proof.
  intros Hi Hb Hv HD Hbuf HM HhM. apply (inv_heap kind_of _ _ _ _ _ _ _ _ _ _ _ Hi).
  - by apply (counted_delete Hb Hv HD).
  - intros Hp. apply (placed_delete Hb Hv); [|done]. destruct HM as [->| ->]; [by apply placed_forget in Hp|done].
  - intros Hf. apply (flagged_delete Hb HD M); [done..|]. intros u Hu. destruct HM as [->| ->]; [|done].
    rewrite elem_of_cons. tauto.
  - by apply (suspected_delete Hb Hv).
  - intros u [c [_ Hc]%lookup_delete_Some]. eauto.
Qed.

Lemma wp_finish H M D s h :
  inv H (h :: M) [] [] D s -> is_Some (nurl__cc s) ->
  answers (nurl__rc_finish h) s (fun _ s' => inv H M [] [] D s' /\ frame D s s').
Proof.
  intros Hi [c Ec]. destruct (mid_block _ _ _ _ _ _ _ Hi) as (HD & HhM & b & Hb & Hv & Hst & Hnf).
  unfold nurl__rc_finish. apply answers_bind, (answers_deref h b); [done|].
  apply answers_bind, (answers_the_cc c); [done|]. cbn zeta. destruct (cc_has NURL_CC_BUFFERED (cc b)) eqn:Hbuf; cbn [andb].
  - destruct (collecting c) eqn:Ecol.
    + apply (answers_upd h b); [done|]. split; [by apply inv_freed|]. apply (frame_insert D s h b); [done..|by left|done|]. cbn. by autorewrite with ccw.
    + apply answers_bind. eapply answers_mono; [by apply (wp_unbuffer H (h :: M) D s h b)|].
      intros [] s1 (Hi1 & Hf1 & b1 & Hb1 & Hv1 & Hw1 & Hbuf1). apply answers_bind, (answers_deref h b1); [done|].
      destruct (Z.eqb_spec (weak b1) 0) as [Hw|Hw].
      * apply (answers_free h b1); [done|]. split; [by apply (inv_delete H (h :: M) M D s1 h b1); auto|].
        eapply rc_frame_trans; [done|]. by apply (frame_delete D s1 h b1).
      * apply answers_ret. split; [by apply (inv_forget _ _ _ _ h b1)|done].
  - apply answers_bind, answers_ret, answers_bind, (answers_deref h b); [done|].
    destruct (Z.eqb_spec (weak b) 0) as [Hw|Hw].
    + apply (answers_free h b); [done|]. split; [by apply (inv_delete H (h :: M) M D s h b); auto|]. by apply (frame_delete D s h b).
    + apply answers_ret. split; [by apply (inv_forget _ _ _ _ h b)|apply rc_frame_refl].
Qed.
End release.
