(* ===== verification/RcSweep.v ===== *)
(** A collection and the invariant: trial deletion may start, what it finds may
    be dropped, and is freed when its values are gone. *)

From S2P Require Import Prelude StateMonad Rc RcWord RcGraph RcTrial RcMark RcExact RcInv RcStep RcRelease.

(** Handles do not depend on which blocks without a value there are. *)
Lemma refs_hs m m' t : (forall u, hs m' u = hs m u) -> refs m' t = refs m t.
Proof.
  intros Hh. assert (forall m X, dom m ⊆ X -> refs m t = ssum (fun u => occ t (hs m u)) X) as Hext.
  { intros m1 X HX. unfold refs, indeg. rewrite (ssum_split _ _ _ HX).
    rewrite (ssum_zero _ (X ∖ dom m1)); [lia|]. intros u [_ Hu%not_elem_of_dom]%elem_of_difference. unfold hs. by rewrite Hu. }
  rewrite (Hext m' (dom m ∪ dom m')), (Hext m (dom m ∪ dom m')) by set_solver.
  apply ssum_ext. intros u _. by rewrite Hh.
Qed.

Section sweep.
Context (kind_of : positive -> cc_kind).
Abbreviation inv := (inv kind_of).

Lemma counted_alive H D m u t : counted kind_of H D m -> t ∈ hs m u -> t ∉ D -> exists b, m !! t = Some b /\ 0 < strong b /\ is_Some (value b).
Proof.
  intros Hc Ht HD. destruct (c_refs _ _ _ _ Hc u t Ht) as [b Hb]. exists b. split; [done|].
  pose proof (c_count _ _ _ _ Hc t b Hb HD). pose proof (refs_pos m u t Ht). pose proof (occ_nonneg t H).
  split; [lia|]. destruct (value b) eqn:Hv; [done|]. pose proof (c_value _ _ _ _ Hc t b Hb HD Hv). lia.
Qed.

Lemma trial_pre_of_inv H M Zs Ts s : inv H M Zs Ts ∅ s -> trial_pre kind_of (roots (cs s)) (heap s).
Proof.
  intros [Hc _ Hf _ _ _ _ _]. split.
  - intros u t [Ht _]%out_hs. destruct (counted_alive _ _ _ u t Hc Ht) as (b & Hb & _ & Hv); [set_solver|]. by exists b.
  - apply NoDup_alt. intros i j u. by eapply roots_inj.
  - intros u [i Hi]%list_elem_of_lookup. destruct (f_roots _ _ _ _ _ Hf i u Hi) as (b & Hb & _). eauto.
  - intros u b Hb. destruct (cc_has NURL_CC_BUFFERED (cc b)) eqn:E.
    + symmetry. apply bool_decide_eq_true. by eapply list_elem_of_lookup_2, (f_index _ _ _ _ _ Hf).
    + symmetry. apply bool_decide_eq_false. intros [i Hi]%list_elem_of_lookup.
      destruct (f_roots _ _ _ _ _ Hf i u Hi) as (b' & Hb' & ? & _). congruence.
  - intros u b Hb Hd. destruct (f_dead _ _ _ _ _ Hf u b Hb Hd); [set_solver|done].
  - intros u b Hb. destruct (f_color _ _ _ _ _ Hf u b Hb) as [?|[? [Hbf|?]]]; [by left|right..]; split; auto.
    left. by eapply list_elem_of_lookup_2, (f_index _ _ _ _ _ Hf).
  - intros u b Hb Hfr. destruct (f_freed _ _ _ _ _ Hf u b Hb Hfr) as (Hv & _). split; [done|].
    apply (c_value _ _ _ _ Hc u b Hb); [set_solver|done].
  - intros u b Hb Hs. destruct (value b) eqn:Hv; [done|]. pose proof (c_value _ _ _ _ Hc u b Hb ltac:(set_solver) Hv). lia.
  - intros u b Hb. rewrite (c_count _ _ _ _ Hc u b Hb) by set_solver.
    pose proof (indeg_out_le kind_of (heap s) (dom (heap s)) u). pose proof (occ_nonneg u H). unfold refs. lia.
Qed.

(** A lonely set is reached from the buffer. *)
Lemma lonely_reached H M Zs s P :
  inv H M Zs [] ∅ s -> lonely kind_of ∅ (heap s) P -> forall u, u ∈ P -> reached kind_of (roots (cs s)) (heap s) u.
Proof.
  intros Hi HP u Hu Q HQ Hsus. destruct (decide (u ∈ Q)) as [|HuQ]; [done|]. exfalso.
  destruct (i_suspected _ _ _ _ _ _ _ Hi (P ∖ Q)) as (r & b & Hr & Hb & Hp).
  - intros v [Hv HvQ]%elem_of_difference. destruct (HP v Hv) as (HD & b & Hb & Hpos & Hle). split; [done|]. exists b. split; [done|].
    split; [done|]. rewrite (indeg_split _ (P ∖ Q) P v) in Hle by set_solver.
    rewrite (indeg_zero _ (P ∖ (P ∖ Q)) v) in Hle; [lia|]. intros w Hw Hwv. apply HvQ, (HQ w v); [|done].
    destruct (decide (w ∈ Q)); [done|]. set_solver.
  - set_solver.
  - destruct Hp as [Hp|?%elem_of_nil]; [|done]. apply elem_of_difference in Hr as [HrP HrQ]. apply HrQ, Hsus.
    destruct (HP r HrP) as (_ & b' & Hb' & Hpos & _). simplify_eq.
    pose proof (i_flagged _ _ _ _ _ _ _ Hi) as Hf. pose proof (i_counted _ _ _ _ _ _ _ Hi) as Hc.
    split; [|by exists b]. destruct (f_color _ _ _ _ _ Hf r b Hb) as [Hbl|[_ [Hbf|Hv]]]; [by rewrite Hbl in Hp| |].
    + by eapply list_elem_of_lookup_2, (f_index _ _ _ _ _ Hf).
    + pose proof (c_value _ _ _ _ Hc r b Hb ltac:(set_solver) Hv). lia.
Qed.

Section trial.
Context {H M : list positive} {s s1 s2 : rt} {garbage : list positive}.
Context (Hi : inv H M [] [] ∅ s) (Hs1 : heap s1 = heap s) (Hpost : trial_post kind_of (roots (cs s)) s1 s2 garbage).

Abbreviation D := (list_to_set (C := gset positive) garbage).
Abbreviation m := (heap s).

Lemma trial_old u b' : heap s2 !! u = Some b' -> exists b, m !! u = Some b /\ value b' = value b /\ weak b' = weak b /\
  cc_has NURL_CC_FREED (cc b') = cc_has NURL_CC_FREED (cc b) /\ cc_has NURL_CC_BUFFERED (cc b') = false /\
  cc_has NURL_CC_DEAD (cc b') = bool_decide (u ∈ garbage) || cc_has NURL_CC_DEAD (cc b) /\
  (nurl__cc_color (cc b') = NURL_CC_BLACK \/ nurl__cc_color (cc b') = NURL_CC_PURPLE /\ value b = None) /\
  (u ∉ garbage -> strong b' = strong b) /\ ~ (u ∈ roots (cs s) /\ cc_has NURL_CC_FREED (cc b) = true /\ weak b = 0).
Proof.
  intros Hb'. pose proof (to_none _ _ _ _ _ Hpost u) as Hn. rewrite Hs1 in Hn.
  destruct (m !! u) as [b|] eqn:Hb; [|rewrite Hn in Hb'; done]. exists b. split; [done|].
  pose proof (to_some _ _ _ _ _ Hpost u b) as Ho. rewrite Hs1 in Ho.
  destruct (Ho Hb) as [[Hnone _]|(b2 & Hb2 & [] & Hcol & Hst & Hfr)]; [congruence|]. simplify_eq. by split_and!.
Qed.

Lemma trial_taken u b b' : m !! u = Some b -> heap s2 !! u = Some b' -> cc_has RC_TAKEN (cc b') = cc_has RC_TAKEN (cc b).
Proof.
  intros Hb Hb'. pose proof (to_some _ _ _ _ _ Hpost u b) as Ho. rewrite Hs1 in Ho.
  destruct (Ho Hb) as [[Hnone _]|(b2 & Hb2 & Hn & _)]; [congruence|]. simplify_eq. apply (n_taken Hn).
Qed.

Lemma trial_kept u b : m !! u = Some b -> is_Some (value b) -> is_Some (heap s2 !! u).
Proof.
  intros Hb Hv. pose proof (to_some _ _ _ _ _ Hpost u b) as Ho. rewrite Hs1 in Ho.
  destruct (Ho Hb) as [(_ & _ & Hfr & _)|(b' & Hb' & _)]; [|eauto].
  destruct (f_freed _ _ _ _ _ (i_flagged _ _ _ _ _ _ _ Hi) u b Hb Hfr) as (Hn & _). rewrite Hn in Hv. by destruct Hv.
Qed.

Lemma trial_hs u : hs (heap s2) u = hs m u.
Proof.
  unfold hs. destruct (heap s2 !! u) as [b'|] eqn:Hb'.
  - destruct (trial_old u b' Hb') as (b & -> & Hv & _). unfold kids. by rewrite Hv.
  - destruct (m !! u) as [b|] eqn:Hb; [|done]. unfold kids. destruct (value b) as [ks|] eqn:Hv; [|done].
    destruct (trial_kept u b Hb) as [? ?]; [by rewrite Hv|]. congruence.
Qed.

Lemma trial_alive u : u ∈ garbage -> exists b, m !! u = Some b /\ is_Some (value b).
Proof. intros Hu. pose proof (to_alive _ _ _ _ _ Hpost u Hu) as Ha. by rewrite Hs1 in Ha. Qed.

Lemma trial_counted u : u ∈ garbage -> exists b, m !! u = Some b /\ 0 < strong b.
Proof.
  intros Hu. pose proof (to_reached _ _ _ _ _ Hpost u Hu) as Hr. rewrite Hs1 in Hr.
  set (Q := dom (filter (fun ub : positive * NurlCcHdr => 0 < strong ub.2) m)).
  assert (forall v, v ∈ Q <-> exists b, m !! v = Some b /\ 0 < strong b) as HQ.
  { intros v. unfold Q. rewrite elem_of_dom. split.
    - intros [b [Hb ?]%map_lookup_filter_Some]. by exists b.
    - intros (b & Hb & ?). exists b. by rewrite map_lookup_filter_Some. }
  apply HQ, (Hr Q).
  - intros v t _ [Ht _]%out_hs. apply HQ.
    destruct (counted_alive _ _ _ v t (i_counted _ _ _ _ _ _ _ Hi) Ht) as (b & Hb & ? & _); [set_solver|]. by exists b.
  - intros r (_ & b & Hb & _ & ?). apply HQ. by exists b.
Qed.

(** Every handle on garbage is in the value of garbage. *)
Lemma trial_sound u : u ∈ garbage -> u ∉ H /\ (forall v, u ∈ hs m v -> v ∈ garbage) /\ mem_cyclic (kind_of u) = true.
Proof.
  intros Hu. pose proof (to_sound _ _ _ _ _ Hpost u) as Hle. rewrite elem_of_list_to_set in Hle. specialize (Hle Hu).
  unfold count_at in Hle. rewrite Hs1 in Hle. destruct (trial_counted u Hu) as (b & Hb & Hpos). rewrite Hb in Hle. cbn in Hle.
  pose proof (c_count _ _ _ _ (i_counted _ _ _ _ _ _ _ Hi) u b Hb ltac:(set_solver)) as Hc.
  pose proof (indeg_out_le kind_of m D u) as Hout. pose proof (occ_nonneg u H).
  assert (D ⊆ dom m) as HDm.
  { intros v Hv%elem_of_list_to_set. destruct (trial_alive v Hv) as (bv & Hbv & _). by apply elem_of_dom_2 in Hbv. }
  unfold refs in Hc. rewrite (indeg_split (hs m) D (dom m) u HDm) in Hc. pose proof (indeg_nonneg (hs m) (dom m ∖ D) u).
  split; [|split].
  - intros Hx%occ_pos. lia.
  - intros v Hv. destruct (decide (v ∈ garbage)) as [|Hn]; [done|]. exfalso.
    assert (v ∈ dom m ∖ D) as Hvd.
    { apply elem_of_difference. rewrite elem_of_list_to_set. split; [|done]. apply elem_of_dom. unfold hs in Hv.
      destruct (m !! v); [done|by apply elem_of_nil in Hv]. }
    pose proof (indeg_edge (hs m) _ v u Hvd Hv). lia.
  - destruct (indeg_pos (out kind_of m) D u) as (v & _ & [_ ?]%out_hs); [lia|done].
Qed.

Lemma trial_counted_inv : counted kind_of H D (heap s2).
Proof.
  pose proof (i_counted _ _ _ _ _ _ _ Hi) as Hc. split.
  - intros u b' Hb' HD. destruct (trial_old u b' Hb') as (b & Hb & _ & _ & _ & _ & _ & _ & Hst & _).
    rewrite Hst by (by rewrite elem_of_list_to_set in HD). rewrite (refs_hs m) by apply trial_hs.
    apply (c_count _ _ _ _ Hc u b Hb). set_solver.
  - intros t Ht. destruct (c_held _ _ _ _ Hc t Ht) as [b Hb]. apply (trial_kept t b Hb).
    pose proof (c_count _ _ _ _ Hc t b Hb ltac:(set_solver)). apply occ_pos in Ht. pose proof (refs_nonneg m t).
    destruct (value b) eqn:Hv; [done|]. pose proof (c_value _ _ _ _ Hc t b Hb ltac:(set_solver) Hv). lia.
  - intros u t. rewrite trial_hs. intros Ht.
    destruct (counted_alive _ _ _ u t Hc Ht) as (b & Hb & _ & Hv); [set_solver|]. by apply (trial_kept t b).
  - intros u t. rewrite trial_hs, !elem_of_list_to_set. intros Ht HtD. by apply (trial_sound t HtD).
  - intros u b' Hb' HD Hn. destruct (trial_old u b' Hb') as (b & Hb & Hv & _ & _ & _ & _ & _ & Hst & _).
    rewrite Hst by (by rewrite elem_of_list_to_set in HD). apply (c_value _ _ _ _ Hc u b Hb); [set_solver|congruence].
  - intros u b' ks Hb' Hk. destruct (trial_old u b' Hb') as (b & Hb & Hv & _). apply (c_slots _ _ _ _ Hc u b ks Hb). congruence.
  - intros u. rewrite trial_hs. apply (c_leaf _ _ _ _ Hc).
Qed.

Lemma trial_placed : placed M [] (deferred (cs s)) D (heap s2).
Proof.
  destruct (i_placed _ _ _ _ _ _ _ Hi) as [Hz Hw Hnd Hm Hmnd]. split; try done.
  - intros u b' Hb' HD Hs0 Hbv. destruct (trial_old u b' Hb') as (b & Hb & Hv & _ & _ & _ & _ & _ & Hst & _).
    rewrite elem_of_list_to_set in HD. apply (Hz u b Hb); [set_solver|by rewrite <- Hst|by rewrite <- Hv].
  - intros u (_ & b & Hb & Hv & Hs0)%Hw. assert (u ∉ garbage) as Hg.
    { intros (b2 & Hb2 & ?)%trial_counted. simplify_eq. lia. }
    split; [by rewrite elem_of_list_to_set|]. destruct (trial_kept u b Hb Hv) as [b' Hb']. exists b'.
    destruct (trial_old u b' Hb') as (b2 & Hb2 & Hv2 & _ & _ & _ & _ & _ & Hst & _). simplify_eq. rewrite Hv2, Hst by done. done.
  - intros u Hu. destruct (Hm u Hu) as (_ & b & Hb & Hv). assert (u ∉ garbage) as Hg.
    { intros (b2 & Hb2 & Hs)%trial_alive. simplify_eq. rewrite Hv in Hs. by destruct Hs. }
    split; [by rewrite elem_of_list_to_set|].
    pose proof (to_some _ _ _ _ _ Hpost u b) as Ho. rewrite Hs1 in Ho.
    destruct (Ho Hb) as [(_ & _ & Hfr & _)|(b' & Hb' & Hn & _)].
    + by destruct (f_freed _ _ _ _ _ (i_flagged _ _ _ _ _ _ _ Hi) u b Hb Hfr) as (_ & ? & _).
    + exists b'. rewrite (n_value Hn). done.
Qed.

Lemma trial_flagged : flagged kind_of M [] D (heap s2).
Proof.
  pose proof (i_flagged _ _ _ _ _ _ _ Hi) as [Hg Hf Hcol Hix Hr Hd Hcy _]. split.
  - intros u b' Hb' _ Hn. destruct (trial_old u b' Hb') as (b & Hb & Hv & Hw & _ & Hnb & _ & _ & _ & Hfr).
    rewrite Hw. destruct (Hg u b Hb ltac:(set_solver)) as [?|[[? _]|[Hfd Hbf]]]; [congruence|auto..|].
    right. left. split; [|done]. intros Hz. apply Hfr. split; [|done]. by eapply list_elem_of_lookup_2, Hix.
  - intros u b' Hb'. destruct (trial_old u b' Hb') as (b & Hb & -> & _ & -> & _). intros Hfr.
    destruct (Hf u b Hb Hfr) as (Hv & ? & _). split_and!; [done|done|]. rewrite elem_of_list_to_set.
    intros (b2 & Hb2 & Hs)%trial_alive. simplify_eq. rewrite Hv in Hs. by destruct Hs.
  - intros u b' Hb'. destruct (trial_old u b' Hb') as (b & Hb & -> & _ & _ & -> & _ & [?|[? ?]] & _); auto.
  - intros u b' Hb'. destruct (trial_old u b' Hb') as (b & Hb & _ & _ & _ & -> & _). done.
  - done.
  - intros u b' Hb'. destruct (trial_old u b' Hb') as (b & Hb & -> & _ & _ & _ & -> & _).
    intros [Hg'%bool_decide_eq_true|Hdd]%orb_true_iff; [left; by apply elem_of_list_to_set|].
    destruct (Hd u b Hb Hdd); [set_solver|by right].
  - intros u b' Hb'. destruct (trial_old u b' Hb') as (b & Hb & _ & _ & _ & -> & _). done.
  - intros u Hu%elem_of_list_to_set. split; [by apply (trial_sound u Hu)|].
    destruct (trial_alive u Hu) as (b & Hb & Hv). destruct (trial_kept u b Hb Hv) as [b' Hb']. exists b'. split; [done|].
    destruct (trial_old u b' Hb') as (b2 & Hb2 & _ & _ & _ & -> & -> & _). by rewrite bool_decide_true.
Qed.

Lemma lonely_trial P : lonely kind_of D (heap s2) P -> lonely kind_of ∅ m P.
Proof.
  intros HP u Hu. destruct (HP u Hu) as (HD & b' & Hb' & Hle). split; [set_solver|].
  destruct (trial_old u b' Hb') as (b & Hb & _ & _ & _ & _ & _ & _ & Hst & _). exists b. split; [done|].
  rewrite Hst in Hle by (by rewrite elem_of_list_to_set in HD).
  by rewrite (indeg_same_hs kind_of m (heap s2)) in Hle by (intros; apply trial_hs).
Qed.

(** Everything lonely has been found. *)
Lemma trial_finds P : lonely kind_of ∅ m P -> forall u, u ∈ P -> u ∈ garbage.
Proof.
  intros HP u Hu. apply (to_complete _ _ _ _ _ Hpost P); [| |done]; rewrite Hs1.
  - intros v Hv. destruct (HP v Hv) as (_ & b & Hb & Hle). unfold count_at. rewrite Hb. cbn. lia.
  - intros v Hv. by apply (lonely_reached H M [] s P Hi).
Qed.

Lemma trial_suspected : suspected kind_of [] D (heap s2).
Proof.
  intros P HP Hne. exfalso. apply Hne, set_eq. intros u. split; [|set_solver]. intros Hu.
  destruct (HP u Hu) as (HD & _). destruct HD. apply elem_of_list_to_set. by apply (trial_finds P (lonely_trial P HP)).
Qed.
End trial.
End sweep.
