(* ===== verification/RcGarbage.v ===== *)
(** What a collection does with the garbage it has found: the values are
    dropped one after the other, then the blocks go. *)

From S2P Require Import Prelude StateMonad Rc RcWord RcGraph RcTrial RcMark RcExact RcInv RcStep RcRelease RcSweep.

Section garbage.
Context (kind_of : positive -> cc_kind).
Abbreviation inv := (inv kind_of).

(** The state of the collector is changed where the invariant does not look. *)
Lemma inv_state H M D s c c' :
  inv H M [] [] D s -> nurl__cc s = Some c -> roots c' = roots c -> deferred c' = deferred c -> urgent c' = urgent c ->
  0 <= depth c' <= NURL_RC_DROP_DEPTH -> (depth c' = 0 -> deferred c = []) ->
  inv H M [] [] D (with_state (Some c') s).
Proof.
  intros [Hc Hp Hf Hs Hd Hid Hu Hn] Ec Hr Hdf Hug Hdep Hidle. rewrite (cs_some s c Ec) in *.
  split; unfold cs; cbn; rewrite ?Hr, ?Hdf, ?Hug; done.
Qed.

Lemma wp_trial H M s c :
  inv H M [] [] ∅ s -> nurl__cc s = Some c ->
  answers (trial_deletion kind_of (roots c)) (with_state (Some (with_collecting true (with_roots [] c))) s) (fun r s' =>
    let g := fst r in let D := list_to_set g : gset positive in
    inv H M [] [] D s' /\ NoDup g /\ (forall u, u ∈ g -> u ∉ H) /\
    (forall u, u ∈ g -> exists b, heap s' !! u = Some b /\ is_Some (value b)) /\
    (forall u, u ∈ g -> exists v, v ∈ g /\ u ∈ hs (heap s') v) /\
    (forall P, lonely kind_of ∅ (heap s) P -> forall u, u ∈ P -> u ∈ g) /\
    nurl__cc s' = Some (with_collecting true (with_roots [] c)) /\
    frame ∅ (with_state (Some (with_collecting true (with_roots [] c))) s) s').
Proof.
  intros Hi Ec. pose proof (cs_some s c Ec) as Hcs.
  set (s1 := with_state (Some (with_collecting true (with_roots [] c))) s).
  assert (heap s1 = heap s) as Hs1 by done.
  pose proof (trial_pre_of_inv kind_of H M [] [] s Hi) as Hpre. rewrite Hcs in Hpre.
  eapply answers_mono; [by apply (trial_ok kind_of (roots c) s1)|]. intros [g n] s2 Hpost. cbn [fst].
  assert (trial_post kind_of (roots (cs s)) s1 s2 g) as Hpost' by by rewrite Hcs.
  pose proof (to_others _ _ _ _ _ Hpost) as Hoth. unfold others in Hoth. cbn in Hoth. injection Hoth as Hnx Hcc Hbt.
  pose proof (cs_some s2 _ Hcc) as Hcs2.
  pose proof Hi as [Hc Hp Hf Hs Hd Hid Hu Hn]. rewrite Hcs in Hp, Hf, Hd, Hid, Hu.
  split; [|split; [apply (to_nodup _ _ _ _ _ Hpost)|split; [|split; [|split; [|split; [|split]]]]]].
  - split; rewrite ?Hcs2; cbn; try done.
    + by apply (trial_counted_inv kind_of Hi Hs1 Hpost').
    + pose proof (trial_placed kind_of Hi Hs1 Hpost') as Hpl. by rewrite Hcs in Hpl.
    + by apply (trial_flagged kind_of Hi Hs1 Hpost').
    + by apply (trial_suspected kind_of Hi Hs1 Hpost').
    + intros u [b' Hb']. rewrite Hnx. apply Hn. destruct (trial_old kind_of Hs1 Hpost' u b' Hb') as (b & Hb & _). eauto.
  - intros u Hu'. by apply (trial_sound kind_of Hi Hs1 Hpost' u Hu').
  - intros u Hu'. destruct (trial_alive kind_of Hs1 Hpost' u Hu') as (b & Hb & Hv).
    destruct (trial_kept kind_of Hi Hs1 Hpost' u b Hb Hv) as [b' Hb']. exists b'. split; [done|].
    destruct (trial_old kind_of Hs1 Hpost' u b' Hb') as (b2 & Hb2 & -> & _). by simplify_eq.
  - intros u Hu'. destruct (trial_sound kind_of Hi Hs1 Hpost' u Hu') as (Hn1 & Hn2 & _).
    destruct (trial_counted kind_of Hi Hs1 Hpost' u Hu') as (b & Hb & Hpos).
    pose proof (c_count _ _ _ _ Hc u b Hb ltac:(set_solver)) as Hcnt. rewrite occ_none in Hcnt by done.
    destruct (refs_elem (heap s) u) as [v Hv]; [lia|]. exists v. split; [by apply Hn2|].
    by rewrite (trial_hs kind_of Hi Hs1 Hpost').
  - intros P HP. apply (trial_finds kind_of Hi Hs1 Hpost' P HP).
  - done.
  - split; [by rewrite Hcc|by rewrite Hcs2|by rewrite Hcs2|done|done|..]; cbn.
    + intros u b' Hb'. destruct (trial_old kind_of Hs1 Hpost' u b' Hb') as (b & Hb & -> & _). exists b. auto.
    + intros u b b'. apply (trial_taken kind_of Hs1 Hpost').
    + intros u Hx. set_solver.
    + intros u. unfold weak_at. destruct (heap s2 !! u) as [b'|] eqn:Hb'; cbn.
      * destruct (trial_old kind_of Hs1 Hpost' u b' Hb') as (b & -> & _ & Hw & _). done.
      * destruct (heap s !! u) as [b|] eqn:Hb; [|done]. cbn.
        destruct (to_some _ _ _ _ _ Hpost u b Hb) as [(_ & _ & _ & Hw)|(b' & Hb2 & _)]; [done|congruence].
Qed.

(** A block of the garbage may be changed: nothing looks at its count. *)
Lemma inv_garbage_strong H M D s h b z :
  inv H M [] [] D s -> heap s !! h = Some b -> h ∈ D ->
  inv H M [] [] D (with_heap (<[h := with_strong z b]> (heap s)) s).
Proof.
  intros Hi Hb HD. apply (inv_heap kind_of _ _ _ _ _ _ _ _ _ _ _ Hi).
  - intros Hc. apply (counted_strong kind_of Hb H H D); try done. by apply (c_held _ _ _ _ Hc).
  - intros Hp. by apply (placed_keep Hb).
  - intros Hf. by apply (flagged_keep kind_of Hb).
  - intros Hs. apply (suspected_keep kind_of Hb); [done| |by left]. intros P HP HhP. by destruct (HP h HhP).
  - intros u. by apply (insert_some _ _ _ _ _ Hb).
Qed.

Lemma inv_garbage_take H M D s h b :
  inv H M [] [] D s -> heap s !! h = Some b -> h ∈ D ->
  inv (strongs (kids b) ++ H) M [] [] D (with_heap (<[h := with_value None b]> (heap s)) s).
Proof.
  intros Hi Hb HD. apply (inv_heap kind_of _ _ _ _ _ _ _ _ _ _ _ Hi).
  - intros Hc. by apply counted_take.
  - intros [Hz Hw Hnd Hm Hmnd]. split; try done.
    + intros u c Hc HuD. apply insert_inv in Hc as [[-> ->]|[Hne Hc]]; [done|by apply (Hz u c)].
    + intros u Hu. destruct (Hw u Hu) as (HuD & c & Hc & ?). split; [done|]. exists c. rewrite lookup_insert_ne; [done|]. by intros ->.
    + intros u Hu. destruct (Hm u Hu) as (HuD & c & Hc & ?). split; [done|]. exists c. rewrite lookup_insert_ne; [done|]. by intros ->.
  - intros [Hg Hf Hcol Hix Hr Hd Hcy HG]. split.
    + intros u c Hc HuD. apply insert_inv in Hc as [[-> ->]|[Hne Hc]]; [done|by apply (Hg u c)].
    + intros u c Hc Hfr. apply insert_inv in Hc as [[-> ->]|[Hne Hc]]; [|by apply (Hf u c)].
      by destruct (Hf h b Hb Hfr) as (_ & _ & ?).
    + intros u c Hc. apply insert_inv in Hc as [[-> ->]|[Hne Hc]]; [|by apply (Hcol u c)].
      destruct (Hcol h b Hb) as [?|[? _]]; auto.
    + intros u c Hc. apply insert_inv in Hc as [[-> ->]|[Hne Hc]]; [by apply (Hix h b)|by apply (Hix u c)].
    + intros i u (c & Hc & ?)%Hr. destruct (decide (u = h)) as [->|Hne].
      * eexists. rewrite lookup_insert_eq. split; [done|]. by simplify_eq.
      * exists c. by rewrite lookup_insert_ne.
    + intros u c Hc. apply insert_inv in Hc as [[-> ->]|[Hne Hc]]; [by right|by apply Hd].
    + intros u c Hc. apply insert_inv in Hc as [[-> ->]|[Hne Hc]]; [by apply (Hcy h b)|by apply (Hcy u c)].
    + intros u Hu. destruct (HG u Hu) as (? & c & Hc & ?). split; [done|]. destruct (decide (u = h)) as [->|Hne].
      * eexists. rewrite lookup_insert_eq. split; [done|]. by simplify_eq.
      * exists c. by rewrite lookup_insert_ne.
  - intros Hs. by apply suspected_take.
  - intros u. by apply (insert_some _ _ _ _ _ Hb).
Qed.

(** The values of the garbage gone, nothing refers to it. *)
Definition dropped (D : gset positive) (m : gmap positive NurlCcHdr) : Prop :=
  forall u, u ∈ D -> exists b, m !! u = Some b /\ value b = None /\ strong b = 0.

Lemma dropped_refs H D m h : counted kind_of H D m -> dropped D m -> h ∈ D -> refs m h = 0.
Proof.
  intros Hc Hd Hh. destruct (Z.eq_dec (refs m h) 0) as [|Hn]; [done|]. pose proof (refs_nonneg m h).
  destruct (refs_elem m h) as [u Hu]; [lia|]. pose proof (c_nodead _ _ _ _ Hc u h Hu Hh) as HuD.
  destruct (Hd u HuD) as (b & Hb & Hv & _). unfold hs, kids in Hu. rewrite Hb, Hv in Hu. by apply elem_of_nil in Hu.
Qed.

Lemma inv_ungarbage H M D s h b :
  inv H M [] [] D s -> dropped D (heap s) -> h ∈ D -> h ∉ H -> heap s !! h = Some b -> weak b <> 0 ->
  inv H M [] [] (D ∖ {[h]}) s.
Proof.
  intros [Hcd Hp Hf Hs Hd Hid Hu Hn] Hdr Hh HhH Hb Hw. pose proof (dropped_refs _ _ _ _ Hcd Hdr Hh) as Hr0.
  destruct (Hdr h Hh) as (b' & Hb' & Hv & Hst). simplify_eq.
  assert (forall u, u ∉ D ∖ {[h]} -> u ∉ D \/ u = h) as Hout by (intros u Hx; destruct (decide (u = h)); [by right|left; set_solver]).
  split; try done.
  - destruct Hcd as [Hcount Hheld Hrefs Hnd Hval Hslots Hleaf]. split; try done.
    + intros u c Hc [HuD| ->]%Hout; [by apply (Hcount u c)|]. simplify_eq. rewrite Hr0, occ_none; [lia|done].
    + intros u t Ht HtD. apply elem_of_difference. split; [apply (Hnd u t Ht); set_solver|]. intros ->%elem_of_singleton.
      unfold hs, kids in Ht. rewrite Hb, Hv in Ht. by apply elem_of_nil in Ht.
    + intros u c Hc [HuD| ->]%Hout; [by apply (Hval u c)|]. by simplify_eq.
  - destruct Hp as [Hz Hw' Hnd Hm Hmnd]. split; try done.
    + intros u c Hc [HuD| ->]%Hout; [by apply (Hz u c)|]. simplify_eq. rewrite Hv. intros _ Hx. by destruct Hx.
    + intros u (? & Hx)%Hw'. split; [set_solver|done].
    + intros u (? & Hx)%Hm. split; [set_solver|done].
  - destruct Hf as [Hg Hfr Hcol Hix Hr Hdd Hcy HG]. split; try done.
    + intros u c Hc [HuD| ->]%Hout; [by apply (Hg u c)|]. simplify_eq.
      destruct (HG h Hh) as (_ & c' & Hc' & _ & ?). simplify_eq. auto.
    + intros u c Hc Hx. destruct (Hfr u c Hc Hx) as (? & ? & ?). split_and!; [done|done|set_solver].
    + intros u c Hc Hx. destruct (Hdd u c Hc Hx) as [?|?]; [|by right].
      destruct (decide (u = h)) as [->|]; [right; by simplify_eq|left; set_solver].
    + intros u Hx. apply HG. set_solver.
  - intros P HP. apply Hs. intros u Hu'. destruct (HP u Hu') as ([HuD| ->]%Hout & c & Hc & Hle); [by split; [|exists c]|].
    simplify_eq. lia.
Qed.

Lemma inv_garbage_free H M D s h b :
  inv H M [] [] D s -> dropped D (heap s) -> h ∈ D -> h ∉ H -> heap s !! h = Some b ->
  inv H M [] [] (D ∖ {[h]}) (with_heap (delete h (heap s)) s).
Proof.
  intros [Hcd Hp Hf Hs Hd Hid Hu Hn] Hdr Hh HhH Hb. pose proof (dropped_refs _ _ _ _ Hcd Hdr Hh) as Hr0.
  destruct (Hdr h Hh) as (b' & Hb' & Hv & Hst). simplify_eq.
  assert (forall u, u <> h -> u ∉ D ∖ {[h]} -> u ∉ D) as Hout by set_solver.
  assert (forall u, hs (delete h (heap s)) u = hs (heap s) u) as Hhs by (intros u; by apply (hs_delete _ _ b)).
  assert (forall u, u <> h -> delete h (heap s) !! u = heap s !! u) as Hne by (intros u Hx; by apply lookup_delete_ne).
  split; cbn; try done.
  - destruct Hcd as [Hcount Hheld Hrefs Hnd Hval Hslots Hleaf]. split.
    + intros u c [Hx Hc]%lookup_delete_Some HuD. rewrite (refs_delete _ _ b) by done. apply (Hcount u c Hc). by apply Hout.
    + intros t Ht. rewrite Hne; [by apply Hheld|]. by intros ->.
    + intros u t. rewrite Hhs. intros Ht. rewrite Hne; [by apply (Hrefs u)|]. intros ->. apply refs_pos in Ht. lia.
    + intros u t. rewrite Hhs. intros Ht HtD. apply elem_of_difference. split; [apply (Hnd u t Ht); set_solver|].
      intros ->%elem_of_singleton. unfold hs, kids in Ht. rewrite Hb, Hv in Ht. by apply elem_of_nil in Ht.
    + intros u c [Hx Hc]%lookup_delete_Some HuD. apply (Hval u c Hc). by apply Hout.
    + intros u c ks [Hx Hc]%lookup_delete_Some. by apply (Hslots u c).
    + intros u. rewrite Hhs. apply Hleaf.
  - destruct Hp as [Hz Hw' Hnd Hm Hmnd]. split; try done.
    + intros u c [Hx Hc]%lookup_delete_Some HuD. apply (Hz u c Hc). by apply Hout.
    + intros u (HuD & c & Hx)%Hw'. split; [set_solver|]. exists c. rewrite Hne; [done|]. by intros ->.
    + intros u (HuD & c & Hx)%Hm. split; [set_solver|]. exists c. rewrite Hne; [done|]. by intros ->.
  - destruct Hf as [Hg Hfr Hcol Hix Hr Hdd Hcy HG]. split.
    + intros u c [Hx Hc]%lookup_delete_Some HuD. apply (Hg u c Hc). by apply Hout.
    + intros u c [Hx Hc]%lookup_delete_Some Hy. destruct (Hfr u c Hc Hy) as (? & ? & ?). split_and!; [done|done|set_solver].
    + intros u c [Hx Hc]%lookup_delete_Some. by apply (Hcol u c).
    + intros u c [Hx Hc]%lookup_delete_Some. by apply (Hix u c).
    + intros i u (c & Hc & Hcb & Hci)%Hr. exists c. rewrite Hne; [done|]. intros ->.
      destruct (HG h Hh) as (_ & c' & Hc' & _ & ?). congruence.
    + intros u c [Hx Hc]%lookup_delete_Some Hy. destruct (Hdd u c Hc Hy) as [?|?]; [left; set_solver|by right].
    + intros u c [Hx Hc]%lookup_delete_Some. by apply (Hcy u c).
    + intros u [Hu' Hx]%elem_of_difference. destruct (HG u Hu') as (? & c & ?). split; [done|]. exists c. rewrite Hne; set_solver.
  - intros P HP HPne. destruct (Hs P) as (r & c & Hr & Hc & Hp'); [|done|].
    + intros u Hu'. destruct (HP u Hu') as (HuD & c & [Hx Hc]%lookup_delete_Some & Hle). split; [by apply Hout|]. exists c.
      split; [done|]. by rewrite (indeg_same_hs kind_of (heap s) (delete h (heap s))) in Hle by (intros; apply Hhs).
    + exists r, c. split; [done|]. split; [|done]. rewrite Hne; [done|]. intros ->.
      destruct (HP h Hr) as (_ & c' & [? _]%lookup_delete_Some & _). done.
  - intros u [c [_ Hx]%lookup_delete_Some]. apply Hn. eauto.
Qed.
End garbage.
