(* ===== verification/RcDrop.v ===== *)
(** Drops and collections call each other: one level of the recursion keeps
    the invariant when the level below does, on heaps with fewer handles. *)

From S2P Require Import Prelude StateMonad Rc RcWord RcGraph RcTrial RcMark RcExact RcInv RcStep RcRelease RcSweep RcGarbage.

(** The blocks that still have a value. *)
Definition valued (m : gmap positive NurlCcHdr) : gset positive :=
  dom (filter (fun ub : positive * NurlCcHdr => is_Some (value ub.2)) m).

Lemma elem_of_valued m u : u ∈ valued m <-> exists b, m !! u = Some b /\ is_Some (value b).
Proof.
  unfold valued. rewrite elem_of_dom. split.
  - intros [b [Hb ?]%map_lookup_filter_Some]. by exists b.
  - intros (b & Hb & ?). exists b. by rewrite map_lookup_filter_Some.
Qed.

Lemma valued_size m : (size (valued m) <= size m)%nat.
Proof.
  rewrite <- (size_dom (D := gset positive) m). apply subseteq_size. intros u (b & Hb & _)%elem_of_valued.
  by apply elem_of_dom_2 in Hb.
Qed.

Lemma frame_valued D s s' : frame D s s' -> valued (heap s') ⊆ valued (heap s).
Proof.
  intros Hf u (b' & Hb' & Hv)%elem_of_valued. destruct (fr_value _ _ _ Hf u b' Hb') as (b & Hb & Hvb).
  apply elem_of_valued. exists b. split; [done|]. destruct Hvb as [<-|Hn]; [done|]. rewrite Hn in Hv. by destruct Hv.
Qed.

Section level.
Context (kind_of : positive -> cc_kind).
Abbreviation inv := (inv kind_of).

Definition quiet (D : gset positive) (s : rt) : Prop := collecting (cs s) = true \/ D = ∅.

Lemma quiet_frame D s s' : quiet D s -> frame D s s' -> quiet D s'.
Proof. intros [?|?] Hf; [left|by right]. by rewrite (fr_collecting _ _ _ Hf). Qed.

Definition drop_ok (K : nat) (drop : positive -> M unit) : Prop := forall s H M D t,
  inv (t :: H) M [] [] D s -> quiet D s -> (slot_count (heap s) < K)%nat ->
  answers (drop t) s (fun _ s' => inv H M [] [] D s' /\ frame D s s').

Definition run_ok (K : nat) (run : M unit) : Prop := forall s H M,
  inv H M [] [] ∅ s -> is_Some (nurl__cc s) -> (slot_count (heap s) <= K)%nat ->
  answers run s (fun _ s' => inv H M [] [] ∅ s' /\ frame ∅ s s').

Context {K : nat} {drop : positive -> M unit} {run : M unit} (Hdrop : drop_ok K drop) (Hrun : run_ok K run).

Lemma wp_drop_slots H M D ts : forall s,
  inv (ts ++ H) M [] [] D s -> quiet D s -> (ts <> [] -> (slot_count (heap s) < K)%nat) ->
  answers (drop_slots drop (Strong <$> ts)) s (fun _ s' => inv H M [] [] D s' /\ frame D s s').
Proof.
  induction ts as [|t ts IH]; intros s Hi Hq Hk; [apply answers_ret; split; [done|apply rc_frame_refl]|].
  cbn [drop_slots fmap list_fmap drop_slot]. apply answers_bind.
  eapply answers_mono; [by apply (Hdrop s (ts ++ H) M D t Hi Hq), Hk|]. intros [] s1 (Hi1 & Hf1).
  eapply answers_mono; [apply (IH s1 Hi1)|].
  - by apply (quiet_frame D s).
  - intros _. pose proof (frame_slots _ _ _ Hf1). specialize (Hk ltac:(done)). lia.
  - intros [] s' (Hi' & Hf'). split; [done|]. by eapply rc_frame_trans.
Qed.

Lemma wp_drop_value H M D s h :
  inv H M [h] [] D s -> quiet D s -> (slot_count (heap s) <= K)%nat ->
  answers (drop_value drop h) s (fun _ s' => inv H (h :: M) [] [] D s' /\ frame D s s' /\ h ∈ valued (heap s)).
Proof.
  intros Hi Hq Hk. unfold drop_value. apply answers_bind.
  eapply answers_mono; [by apply wp_take|]. intros ks s1 (ts & -> & Hi1 & Hf1 & _ & Hsl & Hv).
  eapply answers_mono; [apply (wp_drop_slots H (h :: M) D ts s1 Hi1)|].
  - by apply (quiet_frame D s).
  - intros Hne. destruct ts; [done|]. cbn in Hsl. lia.
  - intros [] s' (Hi' & Hf'). split; [done|]. split; [by eapply rc_frame_trans|]. by apply elem_of_valued.
Qed.

(** A value is dropped and its block released. *)
Lemma wp_release_value H M D s h :
  inv H M [h] [] D s -> quiet D s -> (slot_count (heap s) <= K)%nat -> is_Some (nurl__cc s) ->
  answers (drop_value drop h;; nurl__rc_finish h) s (fun _ s' => inv H M [] [] D s' /\ frame D s s' /\
    h ∈ valued (heap s) /\ h ∉ valued (heap s')).
Proof.
  intros Hi Hq Hk Hc. apply answers_bind. eapply answers_mono; [by apply (wp_drop_value H M D s h)|].
  intros [] s1 (Hi1 & Hf1 & Hv). destruct (mid_block _ _ _ _ _ _ _ _ Hi1) as (_ & _ & b & Hb & Hvb & _).
  eapply answers_mono; [apply (wp_finish kind_of H M D s1 h Hi1), (fr_cc _ _ _ Hf1), Hc|].
  intros [] s' (Hi' & Hf'). split; [done|]. split; [by eapply rc_frame_trans|]. split; [done|].
  intros Hin%(frame_valued D s1 s' Hf'). apply elem_of_valued in Hin as (b' & Hb' & Hs). simplify_eq.
  rewrite Hvb in Hs. by destruct Hs.
Qed.

Lemma inv_pop H M D s c l h :
  inv H M [] [] D s -> nurl__cc s = Some c -> deferred c = l ++ [h] -> depth c <> 0 ->
  inv H M [h] [] D (with_state (Some (with_deferred l c)) s).
Proof.
  intros [Hc Hp Hf Hs Hd Hid Hu Hn] Ec El Hz. rewrite (cs_some s c Ec) in *. rewrite El in Hp.
  split; unfold cs; cbn; try done. destruct Hp as [Hz' Hw Hnd Hm Hmnd]. rewrite app_nil_r in *. by split.
Qed.

Lemma inv_defer H M D s c h :
  inv H M [h] [] D s -> nurl__cc s = Some c -> depth c <> 0 ->
  inv H M [] [] D (with_state (Some (with_deferred (deferred c ++ [h]) c)) s).
Proof.
  intros [Hc Hp Hf Hs Hd Hid Hu Hn] Ec Hz. rewrite (cs_some s c Ec) in *.
  split; unfold cs; cbn; try done. destruct Hp as [Hz' Hw Hnd Hm Hmnd]. split; rewrite ?app_nil_r; done.
Qed.

Lemma frame_cs D s s' c' : frame D s s' -> nurl__cc s' = Some c' -> collecting c' = collecting (cs s) /\ depth c' = depth (cs s).
Proof. intros [_ H1 H2 _ _ _ _ _] Ec. by rewrite (cs_some s' c' Ec) in *. Qed.

Lemma wp_drain H M D n : forall s,
  inv H M [] [] D s -> quiet D s -> (slot_count (heap s) <= K)%nat -> is_Some (nurl__cc s) -> depth (cs s) <> 0 ->
  (size (valued (heap s)) < n)%nat ->
  answers (drain_deferred drop n) s (fun _ s' => inv H M [] [] D s' /\ frame D s s' /\ deferred (cs s') = []).
Proof.
  induction n as [|n IH]; intros s Hi Hq Hk [c Ec] Hz Hn; [lia|]. pose proof (cs_some s c Ec) as Hcs.
  cbn [drain_deferred]. apply answers_bind, (answers_the_cc c); [done|].
  destruct (last (deferred c)) as [h|] eqn:El.
  2:{ apply last_None in El. apply answers_ret. rewrite Hcs. split; [done|]. split; [apply rc_frame_refl|done]. }
  apply last_Some in El as [l El].
  assert (take (length (deferred c) - 1) (deferred c) = l) as ->.
  { rewrite El, length_app. cbn. rewrite Nat.add_sub. apply take_app_length. }
  apply answers_bind, (answers_upd_cc c); [done|].
  set (s1 := with_state (Some (with_deferred l c)) s).
  assert (inv H M [h] [] D s1) as Hi1 by (apply (inv_pop H M D s c l h Hi Ec El); by rewrite <- Hcs).
  assert (frame D s s1) as Hf1 by by apply (frame_state D s c).
  assert (answers (drop_value drop h;; nurl__rc_finish h) s1 (fun _ s' => inv H M [] [] D s' /\ frame D s1 s' /\
    h ∈ valued (heap s1) /\ h ∉ valued (heap s'))) as (x & s2 & Hr & Hi2 & Hf2 & Hin & Hout).
  { apply wp_release_value; [done|by apply (quiet_frame D s)|done|done]. }
  apply bind_inv in Hr as ([] & s3 & Hr1 & Hr2). apply answers_bind, (answers_run _ _ _ _ _ Hr1).
  apply answers_bind, (answers_run _ _ _ _ _ Hr2).
  pose proof (rc_frame_trans _ _ _ _ Hf1 Hf2) as Hf.
  eapply answers_mono; [apply (IH s2 Hi2)|].
  - by apply (quiet_frame D s).
  - pose proof (frame_slots _ _ _ Hf). lia.
  - apply (fr_cc _ _ _ Hf). by rewrite Ec.
  - by rewrite (fr_depth _ _ _ Hf).
  - pose proof (frame_valued _ _ _ Hf2) as Hsub. cbn in Hin.
    assert (size (valued (heap s2)) < size (valued (heap s)))%nat; [|lia].
    apply subset_size. split; [done|]. intros Hsub'. by apply Hout, Hsub'.
  - intros [] s' (Hi' & Hf' & Hd'). split; [done|]. split; [by eapply rc_frame_trans|done].
Qed.

(** A nested release has left no resource waiting: nothing runs. *)
Lemma wp_urgent H M D s :
  inv H M [] [] D s -> is_Some (nurl__cc s) -> answers (urgent_run run) s (fun _ s' => s' = s).
Proof.
  intros Hi [c Ec]. unfold urgent_run. apply answers_bind, (answers_the_cc c); [done|].
  apply answers_bind, answers_get. pose proof (i_urgent _ _ _ _ _ _ _ Hi) as Hu. rewrite (cs_some s c Ec) in Hu.
  rewrite Hu. by apply answers_ret.
Qed.

Lemma wp_cc_state s : answers nurl__cc_state s (fun _ s' => s' = with_state (Some (cs s)) s).
Proof.
  unfold nurl__cc_state. apply answers_bind, answers_get. unfold cs. destruct (nurl__cc s) as [c|] eqn:Ec; cbn.
  - apply answers_ret. destruct s; cbn in *. by rewrite Ec.
  - by apply answers_put.
Qed.

Lemma frame_cc_state D s : frame D s (with_state (Some (cs s)) s).
Proof. split; cbn; try done; [intros u b' Hb'; exists b'; auto|]. intros u b b' Hb Hb'. by simplify_eq. Qed.

Lemma inv_cc_state H M Zs Ts D s : inv H M Zs Ts D s -> inv H M Zs Ts D (with_state (Some (cs s)) s).
Proof. intros [Hc Hp Hf Hs Hd Hid Hu Hn]. by split; cbn. Qed.

Lemma inv_depth H M Zs Ts D s c d :
  inv H M Zs Ts D s -> nurl__cc s = Some c -> 0 <= d <= NURL_RC_DROP_DEPTH -> (d = 0 -> deferred c = []) ->
  inv H M Zs Ts D (with_state (Some (with_depth d c)) s).
Proof.
  intros [Hc Hp Hf Hs Hd Hid Hu Hn] Ec Hdep Hidle. rewrite (cs_some s c Ec) in *. by split; unfold cs; cbn.
Qed.

Lemma wp_rc_drop_value H M D s t :
  inv H M [t] [] D s -> quiet D s -> (slot_count (heap s) <= K)%nat ->
  answers (nurl_rc_drop_value drop run t) s (fun _ s' => inv H M [] [] D s' /\ frame D s s').
Proof.
  intros Hi0 Hq0 Hk. unfold nurl_rc_drop_value. apply answers_bind.
  eapply answers_mono; [apply wp_cc_state|]. intros [] s1 ->.
  pose proof (frame_cc_state D s) as Hf0. pose proof (inv_cc_state _ _ _ _ _ _ Hi0) as Hi.
  pose proof (quiet_frame D s _ Hq0 Hf0) as Hq. set (s1 := with_state (Some (cs s)) s) in *.
  assert (exists c, nurl__cc s1 = Some c) as [c Ec] by by exists (cs s). clearbody s1.
  assert (slot_count (heap s1) <= K)%nat as Hk1 by (pose proof (frame_slots _ _ _ Hf0); lia).
  pose proof (cs_some s1 c Ec) as Hcs.
  pose proof (i_depth _ _ _ _ _ _ _ Hi) as Hdep. pose proof (i_idle _ _ _ _ _ _ _ Hi) as Hidle. rewrite Hcs in Hdep, Hidle.
  apply answers_bind, (answers_the_cc c); [done|]. destruct (Z.leb_spec NURL_RC_DROP_DEPTH (depth c)) as [Hdeep|Hsh].
  { apply (answers_upd_cc c); [done|]. split.
    - apply inv_defer; [done|done|]. unfold NURL_RC_DROP_DEPTH in *. lia.
    - eapply rc_frame_trans; [done|]. by apply (frame_state D s1 c). }
  apply answers_bind, (answers_upd_cc c); [done|]. set (s2 := with_state (Some (with_depth (depth c + 1) c)) s1).
  assert (inv H M [t] [] D s2) as Hi2 by (apply inv_depth; [done|done|unfold NURL_RC_DROP_DEPTH in *; lia|lia]).
  assert (answers (drop_value drop t;; nurl__rc_finish t) s2 (fun _ s' => inv H M [] [] D s' /\ frame D s2 s' /\
    t ∈ valued (heap s2) /\ t ∉ valued (heap s'))) as (x & s3 & Hr & Hi3 & Hf3 & _).
  { apply wp_release_value; [done| |done|done]. destruct Hq as [Hcol|?]; [left|by right]. by rewrite Hcs in Hcol. }
  apply bind_inv in Hr as ([] & s4 & Hr1 & Hr2). apply answers_bind, (answers_run _ _ _ _ _ Hr1).
  apply answers_bind, (answers_run _ _ _ _ _ Hr2). clear s4 Hr1 Hr2.
  assert (quiet D s3) as Hq3 by (apply (quiet_frame D s2); [destruct Hq as [Hcol|?]; [left; by rewrite Hcs in Hcol|by right]|done]).
  destruct (fr_cc _ _ _ Hf3) as [c3 Ec3]; [by eexists|]. destruct (frame_cs _ _ _ _ Hf3 Ec3) as [Hc3 Hd3]. cbn in Hc3, Hd3.
  apply answers_bind, (answers_the_cc c3); [done|]. apply answers_bind.
  apply (answers_mono _ _ (fun _ s' => inv H M [] [] D s' /\ frame D s3 s' /\ (depth c + 1 = 1 -> deferred (cs s') = []))).
  { rewrite Hd3. destruct (Z.eqb_spec (depth c + 1) 1) as [H1|H1].
    - apply answers_bind, answers_get. eapply answers_mono; [apply (wp_drain H M D _ s3 Hi3 Hq3)|].
      + pose proof (frame_slots _ _ _ Hf3) as Hs3. cbn in Hs3. lia.
      + by eexists.
      + rewrite (fr_depth _ _ _ Hf3). cbn. lia.
      + pose proof (valued_size (heap s3)). lia.
      + intros [] s' (? & ? & ?). done.
    - apply answers_ret. split; [done|]. split; [apply rc_frame_refl|done]. }
  intros [] s4 (Hi4 & Hf4 & Hemp). destruct (fr_cc _ _ _ Hf4) as [c4 Ec4]; [by eexists|].
  destruct (frame_cs _ _ _ _ Hf4 Ec4) as [Hc4 Hd4]. rewrite (cs_some s3 c3 Ec3) in Hc4, Hd4.
  apply answers_bind, (answers_upd_cc c4); [done|]. rewrite Hd4, Hd3.
  replace (depth c + 1 - 1) with (depth c) by lia. set (s5 := with_state (Some (with_depth (depth c) c4)) s4).
  assert (inv H M [] [] D s5) as Hi5.
  { apply inv_depth; [done|done|lia|]. intros Hz. rewrite <- (cs_some s4 c4 Ec4). apply Hemp. lia. }
  assert (frame D s s5) as Hf5.
  { eapply rc_frame_trans; [exact Hf0|]. destruct (rc_frame_trans _ _ _ _ Hf3 Hf4) as [A1 A2 A3 A4 A5 A6 At A7 A8].
    split; cbn in *; try done; [by rewrite Hcs, Hc4, Hc3|by rewrite Hcs]. }
  eapply answers_bind, answers_the_cc; [done|]. cbn [collecting with_depth]. destruct (collecting c4).
  - apply answers_ret. done.
  - eapply answers_mono; [by apply (wp_urgent _ _ _ _ Hi5)|]. intros [] s' ->. done.
Qed.
End level.
