(* ===== verification/RcLevel.v ===== *)
(** One level of the recursion, continued: a block becomes a suspect of the
    collector, a handle is dropped. *)

From S2P Require Import Prelude StateMonad Rc RcWord RcGraph RcTrial RcMark RcExact RcInv RcStep RcRelease RcSweep RcGarbage RcDrop.

Section suspect.
Context (kind_of : positive -> cc_kind).
Abbreviation inv := (inv kind_of).

(** The handles of the program keep a block out of every lonely set. *)
Lemma lonely_unheld H D m P u : counted kind_of H D m -> lonely kind_of D m P -> u ∈ P -> u ∉ H.
Proof.
  intros Hc HP Hu Hx. destruct (HP u Hu) as (HD & b & Hb & _ & Hle). pose proof (c_count _ _ _ _ Hc u b Hb HD) as Hn.
  apply occ_pos in Hx. pose proof (indeg_out_le kind_of m P u) as H1.
  assert (indeg (hs m) P u <= refs m u) as H2.
  { unfold refs. apply indeg_mono. intros v Hv. destruct (HP v Hv) as (_ & c & Hcv & _). by apply elem_of_dom_2 in Hcv. }
  lia.
Qed.

(** A block that no collectable handle counts is no suspect. *)
Lemma suspected_acyclic D m t :
  suspected kind_of [t] D m -> mem_cyclic (kind_of t) = false -> suspected kind_of [] D m.
Proof.
  intros Hs Ht P HP Hne. destruct (Hs P HP Hne) as (r & b & Hr & Hb & [Hp|Hx%list_elem_of_singleton]); [by exists r, b; auto|].
  subst r. destruct (HP t Hr) as (_ & c & _ & Hpos & Hle). rewrite indeg_zero in Hle; [lia|].
  intros u _ [_ Hcy]%out_hs. congruence.
Qed.

Section mark.
Context {m : gmap positive NurlCcHdr} {h : positive} {b b' : NurlCcHdr} (Hb : m !! h = Some b).
Context (Hst : strong b' = strong b) (Hv : value b' = value b) (Hw : weak b' = weak b).
Context (Hpur : nurl__cc_color (cc b') = NURL_CC_PURPLE).

Lemma suspected_marked D : suspected kind_of [h] D m -> suspected kind_of [] D (<[h := b']> m).
Proof using Hb Hst Hv Hpur.
  intros Hs P HP Hne. destruct (Hs P) as (r & c & Hr & Hc & Hp).
  - apply (lonely_before kind_of Hb D P b' HP). intros _ Hpos. unfold kids. rewrite Hv. split; [lia|done].
  - done.
  - destruct (decide (r = h)) as [->|Hrh]; [exists h, b'; rewrite lookup_insert_eq; auto|].
    exists r, c. rewrite lookup_insert_ne by done. split; [done|]. split; [done|].
    destruct Hp as [?|?%list_elem_of_singleton]; [by left|done].
Qed.

Context {M : list positive} {rs rs' : list positive} {D : gset positive}.
Context (Hbuf : cc_has NURL_CC_BUFFERED (cc b') = true).
Context (Hdead : cc_has NURL_CC_DEAD (cc b') = cc_has NURL_CC_DEAD (cc b)).
Context (Hfreed : cc_has NURL_CC_FREED (cc b') = cc_has NURL_CC_FREED (cc b)).
Context (Hcyc : mem_cyclic (kind_of h) = true) (HD : h ∉ D).
Context (Hrs : forall u i, u <> h -> rs' !! i = Some u <-> rs !! i = Some u).
Context (Hrh : forall i, rs' !! i = Some h <-> i = cc_index (cc b')).

Lemma flagged_marked : is_Some (value b) -> flagged kind_of M rs D m -> flagged kind_of M rs' D (<[h := b']> m).
Proof.
  intros Hval [Hg Hf Hc Hi Hr Hd Hcy HG]. split.
  - intros u c Hu HuD Hn. apply insert_inv in Hu as [[-> ->]|[Hne Hu]]; [|by apply (Hg u c)].
    rewrite <- Hv, Hn in Hval. by destruct Hval.
  - intros u c Hu. apply insert_inv in Hu as [[-> ->]|[Hne Hu]]; [|by apply (Hf u c)]. rewrite Hfreed, Hv. by apply (Hf h b).
  - intros u c Hu. apply insert_inv in Hu as [[-> ->]|[Hne Hu]]; [auto|by apply (Hc u c)].
  - intros u c Hu Hcb. apply insert_inv in Hu as [[-> ->]|[Hne Hu]]; [by apply (proj2 (Hrh _))|].
    apply (proj2 (Hrs u _ Hne)). by apply Hi.
  - intros i u Hu. destruct (decide (u = h)) as [->|Hne].
    + apply Hrh in Hu as ->. exists b'. by rewrite lookup_insert_eq.
    + rewrite lookup_insert_ne by done. by apply Hr, (proj1 (Hrs u i Hne)).
  - intros u c Hu. apply insert_inv in Hu as [[-> ->]|[Hne Hu]]; [|by apply (Hd u c)]. rewrite Hdead, Hv. by apply (Hd h b).
  - intros u c Hu. apply insert_inv in Hu as [[-> ->]|[Hne Hu]]; [done|by apply (Hcy u c)].
  - intros u Hu. rewrite lookup_insert_ne; [by apply HG|]. by intros ->.
Qed.
End mark.

(** The two ways a block is suspected: it is in the buffer already, or it
    becomes its last entry. *)
Definition marked (c : NurlCcState) (h : positive) (b : NurlCcHdr) : Z * list positive :=
  if cc_has NURL_CC_BUFFERED (cc b) then (nurl__cc_paint NURL_CC_PURPLE (cc b), roots c)
  else (cc_put_index (length (roots c)) (cc_set NURL_CC_BUFFERED (nurl__cc_paint NURL_CC_PURPLE (cc b))), roots c ++ [h]).

Lemma inv_marked H M D s h b c :
  inv H M [] [h] D s -> heap s !! h = Some b -> h ∉ D -> is_Some (value b) -> mem_cyclic (kind_of h) = true ->
  nurl__cc s = Some c ->
  let '(w, rs) := marked c h b in
  let s' := with_state (Some (with_roots rs c)) (with_heap (<[h := with_cc (fun _ => w) b]> (heap s)) s) in
  inv H M [] [] D s' /\ frame D s s'.
Proof.
  intros Hi Hb HD Hv Hcy Ec. pose proof Hi as [Hc Hp Hf Hs Hd Hid Hu Hn]. rewrite (cs_some s c Ec) in *.
  destruct (marked c h b) as [w rs] eqn:Em.
  assert (nurl__cc_color w = NURL_CC_PURPLE /\ cc_has NURL_CC_BUFFERED w = true /\
    cc_has NURL_CC_DEAD w = cc_has NURL_CC_DEAD (cc b) /\ cc_has NURL_CC_FREED w = cc_has NURL_CC_FREED (cc b) /\
    (forall u i, u <> h -> rs !! i = Some u <-> roots c !! i = Some u) /\
    (forall i, rs !! i = Some h <-> i = cc_index w)) as (H1 & H2 & H3 & H4 & H5 & H6).
  { unfold marked in Em. destruct (cc_has NURL_CC_BUFFERED (cc b)) eqn:E; injection Em as <- <-; autorewrite with ccw.
    - pose proof (f_index _ _ _ _ _ Hf h b Hb E). split_and!; try done. intros i.
      split; [intros Hx; by eapply roots_inj|by intros ->].
    - assert (forall i, roots c !! i <> Some h) as Hno.
      { intros i Hx. destruct (f_roots _ _ _ _ _ Hf i h Hx) as (b2 & Hb2 & ? & _). congruence. }
      split_and!; try done.
      + intros u i Hne. rewrite lookup_snoc_Some. split; [intros [[_ ?]|[_ ?]]; congruence|]. intros Hx. left.
        split; [by eapply lookup_lt_Some|done].
      + intros i. rewrite lookup_snoc_Some. split; [intros [[_ Hx]|[? _]]; [by destruct (Hno i)|done]|by right]. }
  cbn zeta. split.
  - split; unfold cs; cbn; try done.
    + apply (counted_strong kind_of Hb H H D); try done; [cbn; lia|by apply (c_held _ _ _ _ Hc)].
    + by apply (placed_keep Hb).
    + by apply (flagged_marked (b := b)) with (rs := roots c).
    + by apply (suspected_marked Hb).
    + intros u Hx. apply Hn. by apply (insert_some _ _ _ _ _ Hb) in Hx.
  - apply (rc_frame_trans D _ (with_heap (<[h := with_cc (fun _ => w) b]> (heap s)) s)); [|by apply (frame_state D _ c)].
    assert (cc_has RC_TAKEN w = cc_has RC_TAKEN (cc b)) as Ht.
    { unfold marked in Em. destruct (cc_has NURL_CC_BUFFERED (cc b)); injection Em as <- _; by autorewrite with ccw. }
    apply (frame_insert D s h b); [done|done|by left|done|done].
Qed.
End suspect.

Section level.
Context (kind_of : positive -> cc_kind).
Abbreviation inv := (inv kind_of).
Context {K : nat} {drop : positive -> M unit} {run : M unit} (Hdrop : drop_ok kind_of K drop) (Hrun : run_ok kind_of K run).

Lemma inv_purple H M D s h b :
  inv H M [] [h] D s -> heap s !! h = Some b -> nurl__cc_color (cc b) = NURL_CC_PURPLE -> inv H M [] [] D s.
Proof.
  intros [Hc Hpl Hf Hs Hd Hid Hu Hn] Hb Hp. split; try done. intros P HP Hne.
  destruct (Hs P HP Hne) as (r & c & Hr & Hcr & [?|Hx%list_elem_of_singleton]); [by exists r, c; auto|]. subst r.
  exists h, b. auto.
Qed.

Lemma put_put {A} (m : gmap positive A) h x y : <[h := y]> (<[h := x]> m) = <[h := y]> m.
Proof. apply insert_insert_eq. Qed.

(** What the steps of [nurl_cc_possible_root] do before a collection. *)
Lemma possible_root_steps s h b (Q : unit -> rt -> Prop) :
  heap s !! h = Some b -> nurl__cc_color (cc b) <> NURL_CC_PURPLE ->
  (let '(w, rs) := marked (cs s) h b in
   let s' := with_heap (<[h := with_cc (fun _ => w) b]> (heap s)) s in
   if cc_has NURL_CC_BUFFERED (cc b) then Q tt s'
   else answers (c ← the_cc;
                 if (threshold c <=? Z.of_nat (length (roots c))) && negb (collecting c) then run else mret tt)
          (with_state (Some (with_roots rs (cs s))) s') Q) ->
  answers (nurl_cc_possible_root run h) s Q.
Proof.
  intros Hb Hc HQ. unfold marked in HQ. unfold nurl_cc_possible_root. apply answers_bind, (answers_deref h b); [done|].
  rewrite (proj2 (Z.eqb_neq _ _) Hc). apply answers_bind, (answers_upd h b); [done|]. apply answers_bind.
  eapply answers_deref; [apply lookup_insert_eq|]. cbn [cc with_cc]. autorewrite with ccw.
  destruct (cc_has NURL_CC_BUFFERED (cc b)); [by apply answers_ret|].
  apply answers_bind. eapply answers_upd; [apply lookup_insert_eq|]. cbn [heap with_heap]. rewrite put_put.
  apply answers_bind. eapply answers_mono; [apply wp_cc_state|]. intros [] s1 ->.
  eapply answers_bind, answers_the_cc; [done|].
  apply answers_bind. eapply answers_upd; [apply lookup_insert_eq|]. cbn [heap with_heap with_state]. rewrite put_put.
  eapply answers_bind, answers_upd_cc; [done|]. exact HQ.
Qed.

Lemma wp_possible_root H M D s h b :
  inv H M [] [h] D s -> quiet D s -> (slot_count (heap s) <= K)%nat -> heap s !! h = Some b -> h ∉ D ->
  is_Some (value b) -> mem_cyclic (kind_of h) = true ->
  answers (nurl_cc_possible_root run h) s (fun _ s' => inv H M [] [] D s' /\ frame D s s').
Proof.
  intros Hi Hq Hk Hb HD Hv Hcy. destruct (Z.eq_dec (nurl__cc_color (cc b)) NURL_CC_PURPLE) as [Hp|Hp].
  { unfold nurl_cc_possible_root. apply answers_bind, (answers_deref h b); [done|]. rewrite (proj2 (Z.eqb_eq _ _) Hp).
    apply answers_ret. split; [by apply (inv_purple _ _ _ _ h b)|apply rc_frame_refl]. }
  apply (possible_root_steps s h b); [done..|].
  pose proof (inv_cc_state kind_of _ _ _ _ _ _ Hi) as Hi0. pose proof (frame_cc_state D s) as Hf0.
  pose proof (inv_marked kind_of H M D (with_state (Some (cs s)) s) h b (cs s) Hi0 Hb HD Hv Hcy eq_refl) as Hm.
  destruct (cc_has NURL_CC_BUFFERED (cc b)) eqn:Ebuf.
  { pose proof (f_index _ _ _ _ _ (i_flagged _ _ _ _ _ _ _ Hi) h b Hb Ebuf) as Hix.
    unfold marked in *. rewrite Ebuf in *. destruct s as [hp nx [c|] nb]; [|done]. by destruct c. }
  destruct (marked (cs s) h b) as [w rs]. cbn zeta in Hm |- *. destruct Hm as [Hi1 Hf1].
  set (s1 := with_state (Some (with_roots rs (cs s))) (with_heap (<[h := with_cc (fun _ => w) b]> (heap s)) s)).
  change (inv H M [] [] D s1) in Hi1. pose proof (rc_frame_trans D _ _ s1 Hf0 Hf1) as Hf. clear Hf1.
  apply answers_bind, (answers_the_cc (with_roots rs (cs s))); [done|].
  destruct ((_ <=? _) && negb _) eqn:Erun; [|by apply answers_ret].
  apply andb_true_iff in Erun as [_ Hcol%negb_true_iff]. destruct Hq as [Hq| ->]; [cbn in Hcol; congruence|].
  eapply answers_mono; [apply (Hrun s1 H M Hi1); [by eexists|]|].
  - pose proof (frame_slots _ _ _ Hf). lia.
  - intros [] s' (Hi' & Hf'). split; [done|by eapply rc_frame_trans].
Qed.
(** A handle on garbage is nothing to count. *)
Lemma dead_iff H M D s t b :
  inv (t :: H) M [] [] D s -> heap s !! t = Some b -> t ∈ D <-> mem_cyclic (kind_of t) = true /\ cc_has NURL_CC_DEAD (cc b) = true.
Proof.
  intros Hi Hb. pose proof (i_flagged _ _ _ _ _ _ _ Hi) as Hf. split.
  - intros HD. destruct (f_garbage _ _ _ _ _ Hf t HD) as (? & c & Hc & ? & _). by simplify_eq.
  - intros [_ Hd]. destruct (f_dead _ _ _ _ _ Hf t b Hb Hd) as [|Hn]; [done|]. destruct (decide (t ∈ D)) as [|HD]; [done|].
    destruct (held_count kind_of _ _ _ _ _ _ _ _ Hi Hb HD) as [_ Hv]. rewrite Hn in Hv. by destruct Hv.
Qed.

(** The count reaches zero on a value without collectable handles. *)
Lemma wp_drop_leaf H M D s t :
  inv H M [t] [] D s -> quiet D s -> (slot_count (heap s) <= K)%nat -> mem_rc_nested (kind_of t) = false ->
  answers (ks ← take_value t; b ← deref t; (if weak b =? 0 then nurl_free t else mret tt);; drop_slots drop ks) s
    (fun _ s' => inv H M [] [] D s' /\ frame D s s').
Proof.
  intros Hi Hq Hk Hleaf. apply answers_bind. eapply answers_mono; [by apply (wp_take kind_of)|].
  intros ks s1 (ts & -> & Hi1 & Hf1 & _ & Hsl & _). pose proof (mid_block _ _ _ _ _ _ _ _ Hi1) as (HD & HtM & b & Hb & Hvb & _).
  apply answers_bind, (answers_deref t b); [done|]. apply answers_bind.
  assert (cc_has NURL_CC_BUFFERED (cc b) = false) as Hnb.
  { destruct (cc_has _ _) eqn:E; [|done]. pose proof (f_cyclic _ _ _ _ _ (i_flagged _ _ _ _ _ _ _ Hi1) t b Hb E).
    by destruct (kind_of t). }
  apply (answers_mono _ _ (fun _ s2 => inv (ts ++ H) M [] [] D s2 /\ frame D s1 s2)).
  { destruct (Z.eqb_spec (weak b) 0) as [Hw|Hw].
    - apply (answers_free t b); [done|]. split; [apply (inv_delete kind_of _ (t :: M) M _ _ _ b); auto|by apply (frame_delete D s1 t b)].
    - apply answers_ret. split; [by apply (inv_forget kind_of _ _ _ _ t b)|apply rc_frame_refl]. }
  intros [] s2 (Hi2 & Hf2). pose proof (rc_frame_trans _ _ _ _ Hf1 Hf2) as Hf.
  eapply answers_mono; [apply (wp_drop_slots kind_of Hdrop H M D ts s2 Hi2)|].
  - by apply (quiet_frame D s).
  - intros Hne. pose proof (frame_slots _ _ _ Hf2). destruct ts; [done|]. cbn in Hsl. lia.
  - intros [] s' (Hi' & Hf'). split; [done|by eapply rc_frame_trans].
Qed.

Lemma wp_drop : (forall t, mem_resource (kind_of t) = false) -> drop_ok kind_of (S K) (Rc_drop_body kind_of drop run).
Proof.
  intros Hres s H M D t Hi Hq Hk. destruct (held_some kind_of _ _ _ _ _ _ t Hi (list_elem_of_here _ _)) as [b Hb].
  unfold Rc_drop_body. apply answers_bind.
  apply (answers_mono _ _ (fun r s' => s' = s /\ r = bool_decide (t ∈ D))).
  { destruct (mem_cyclic (kind_of t)) eqn:Hcy.
    - unfold nurl_cc_dead. apply answers_bind, (answers_deref t b); [done|]. apply answers_ret. split; [done|].
      apply eq_bool_prop_intro. rewrite bool_decide_spec, (dead_iff _ _ _ _ _ _ Hi Hb), Hcy, Is_true_true. tauto.
    - apply answers_ret. split; [done|]. symmetry. apply bool_decide_eq_false.
      rewrite (dead_iff _ _ _ _ _ _ Hi Hb), Hcy. by intros [? _]. }
  intros r s' [-> ->]. case_bool_decide as HD; [apply answers_ret; split; [by apply (inv_dead kind_of _ _ _ _ _ _ t)|apply rc_frame_refl]|].
  destruct (held_count kind_of _ _ _ _ _ _ _ _ Hi Hb HD) as [Hpos Hv]. pose proof (inv_dec kind_of H M D s t b Hi Hb HD) as Hi1.
  apply answers_bind, (answers_upd t b); [done|]. eapply answers_bind, answers_deref; [apply lookup_insert_eq|].
  assert (frame D s (with_heap (<[t := with_strong (strong b - 1) b]> (heap s)) s)) as Hf1 by (apply (frame_insert D s t b); [..|left| |]; done).
  set (s1 := with_heap (<[t := with_strong (strong b - 1) b]> (heap s)) s) in *.
  pose proof (quiet_frame _ _ _ Hq Hf1) as Hq1. pose proof (frame_slots _ _ _ Hf1) as Hk1.
  assert (forall m : ST rt unit, answers m s1 (fun _ s' => inv H M [] [] D s' /\ frame D s1 s') ->
    answers m s1 (fun _ s' => inv H M [] [] D s' /\ frame D s s')) as Hcut.
  { intros m Hm. eapply answers_mono; [exact Hm|]. intros [] s2 [? ?]. split; [done|by eapply rc_frame_trans]. }
  apply Hcut. cbn [strong with_strong]. destruct (Z.eqb_spec (strong b) 1) as [H1|H1].
  - rewrite (proj2 (Z.leb_le _ _)) by lia. destruct (mem_rc_nested (kind_of t)) eqn:Hn.
    + apply (wp_rc_drop_value kind_of Hdrop); [done|done|lia].
    + apply wp_drop_leaf; [done|done|lia|done].
  - rewrite (proj2 (Z.leb_gt _ _)) by lia. rewrite Hres. destruct (mem_cyclic (kind_of t)) eqn:Hcy.
    + eapply wp_possible_root; [done|done|lia|apply lookup_insert_eq|done..].
    + apply answers_ret. split; [|apply rc_frame_refl]. destruct Hi1. split; try done. by apply (suspected_acyclic kind_of _ _ t).
Qed.
End level.
