(* ===== verification/RcRun.v ===== *)
(** A collection as a whole, and the recursion of drops and collections closed:
    the fuel given is always enough. *)

From S2P Require Import Prelude StateMonad Rc RcWord RcGraph RcTrial RcMark RcExact RcInv RcStep RcRelease RcSweep RcGarbage RcDrop RcLevel.

Lemma frame_weaken D s s' : frame D s s' -> frame ∅ s s'.
Proof. intros []. by split. Qed.

Section run.
Context (kind_of : positive -> cc_kind).
Abbreviation inv := (inv kind_of).
Context {K : nat} {drop : positive -> M unit} (Hdrop : drop_ok kind_of K drop).

Lemma frame_any s h b b' :
  heap s !! h = Some b -> (value b' = value b \/ value b' = None) -> weak b' = weak b ->
  cc b' = cc b -> frame ∅ s (with_heap (<[h := b']> (heap s)) s).
Proof. intros Hb Hv Hw Hc. apply (frame_insert ∅ s h b); [done|apply not_elem_of_empty|done|done|by rewrite Hc]. Qed.

(** One block of the garbage: its count is cleared and its value dropped. *)
Lemma wp_drop_one H M D s h b ks :
  inv H M [] [] D s -> collecting (cs s) = true -> (slot_count (heap s) <= K)%nat ->
  heap s !! h = Some b -> h ∈ D -> value b = Some ks ->
  answers (upd h (with_strong 0);; drop_value drop h) s (fun _ s' => inv H M [] [] D s' /\ frame ∅ s s' /\
    (forall u, u ∈ D -> u <> h -> heap s' !! u = heap s !! u) /\
    (exists b', heap s' !! h = Some b' /\ value b' = None /\ strong b' = 0) /\
    (slot_count (heap s') + length ks <= slot_count (heap s))%nat).
Proof.
  intros Hi Hcol Hk Hb HD Hv. pose proof (inv_garbage_strong kind_of H M D s h b 0 Hi Hb HD) as Hi1.
  apply answers_bind, (answers_upd h b); [done|].
  assert (frame ∅ s (with_heap (<[h := with_strong 0 b]> (heap s)) s)) as Hf1 by (apply (frame_any s h b); auto).
  set (s1 := with_heap (<[h := with_strong 0 b]> (heap s)) s) in *. set (b1 := with_strong 0 b) in *.
  assert (heap s1 !! h = Some b1) as Hb1 by apply lookup_insert_eq.
  pose proof (inv_garbage_take kind_of H M D s1 h b1 Hi1 Hb1 HD) as Hi2.
  assert (frame ∅ s1 (with_heap (<[h := with_value None b1]> (heap s1)) s1)) as Hf2 by (apply (frame_any s1 h b1); auto).
  pose proof (slot_count_take kind_of (heap s1) h b1 Hb1) as Hsl. pose proof (frame_slots _ _ _ Hf1) as Hsl1.
  set (s2 := with_heap (<[h := with_value None b1]> (heap s1)) s1) in *.
  change (<[h := with_value None b1]> (heap s1)) with (heap s2) in Hsl.
  assert (kids b1 = ks) as Hkb by (unfold kids, b1; cbn; by rewrite Hv). rewrite Hkb in *.
  pose proof (c_slots _ _ _ _ (i_counted _ _ _ _ _ _ _ Hi) h b ks Hb Hv) as Hks.
  assert (length ks = length (strongs ks)) as Hlen by (rewrite Hks at 1; apply length_fmap).
  assert (answers (take_value h) s1 (fun r s' => r = Strong <$> strongs ks /\ s' = s2)) as Htake.
  { unfold take_value. apply answers_bind, (answers_deref h b1); [done|]. apply answers_bind.
    exists ks, s1. unfold of_option. cbn [value b1 with_strong]. rewrite Hv. split; [done|].
    apply answers_bind, (answers_upd h b1); [done|]. by apply answers_ret. }
  unfold drop_value. apply answers_bind. eapply answers_mono; [exact Htake|]. intros r s' [-> ->].
  assert (forall u, u ∈ D -> u <> h -> heap s2 !! u = heap s !! u) as Hoth.
  { intros u _ Hu. unfold s2, s1. cbn. by rewrite !lookup_insert_ne. }
  eapply answers_mono; [apply (wp_drop_slots kind_of Hdrop H M D _ s2 Hi2)|].
  - by left.
  - intros Hne. destruct (strongs ks); [done|]. cbn in Hlen. lia.
  - intros [] s3 (Hi3 & Hf3). pose proof (frame_slots _ _ _ Hf3). split; [done|]. split; [|split; [|split; [|lia]]].
    + eapply rc_frame_trans; [exact Hf1|]. eapply rc_frame_trans; [exact Hf2|]. by eapply frame_weaken.
    + intros u Hu Hne. rewrite (fr_garbage _ _ _ Hf3) by done. by apply Hoth.
    + rewrite (fr_garbage _ _ _ Hf3) by done. eexists. split; [apply lookup_insert_eq|done].
Qed.

Lemma wp_drop_garbage H M D g : forall s,
  inv H M [] [] D s -> collecting (cs s) = true -> (slot_count (heap s) <= K)%nat -> NoDup g ->
  (forall u, u ∈ g -> u ∈ D /\ exists b, heap s !! u = Some b /\ is_Some (value b)) ->
  dropped (D ∖ list_to_set g) (heap s) ->
  answers (drop_garbage drop g) s (fun _ s' => inv H M [] [] D s' /\ frame ∅ s s' /\ dropped D (heap s') /\
    (g = [] -> s' = s) /\
    forall u, u ∈ g -> hs (heap s) u <> [] -> (slot_count (heap s') < slot_count (heap s))%nat).
Proof.
  induction g as [|h g IH]; intros s Hi Hcol Hk Hnd Hg Hd; cbn [drop_garbage].
  { apply answers_ret. split; [done|]. split; [apply rc_frame_refl|]. split; [|split; [done|by intros u ?%elem_of_nil]].
    intros u Hu. apply Hd, elem_of_difference. split; [done|]. clear. set_solver. }
  apply NoDup_cons in Hnd as [Hh Hnd]. destruct (Hg h (list_elem_of_here _ _)) as (HD & b & Hb & ks & Hv).
  pose proof (wp_drop_one H M D s h b ks Hi Hcol Hk Hb HD Hv) as (x & s1 & Hr & Hi1 & Hf1 & Hoth & Hgone & Hsl).
  apply bind_inv in Hr as ([] & s0 & Hr1 & Hr2). apply answers_bind, (answers_run _ _ _ _ _ Hr1).
  apply answers_bind, (answers_run _ _ _ _ _ Hr2). clear s0 Hr1 Hr2.
  assert (forall u, u ∈ g -> u ∈ D /\ heap s1 !! u = heap s !! u) as Hg1.
  { intros u Hu. assert (u ∈ D) as HuD by (by apply Hg, list_elem_of_further). split; [done|].
    apply Hoth; [done|]. by intros ->. }
  eapply answers_mono; [apply (IH s1 Hi1)|].
  - by rewrite (fr_collecting _ _ _ Hf1).
  - lia.
  - done.
  - intros u Hu. destruct (Hg1 u Hu) as [? ->]. apply Hg. by apply list_elem_of_further.
  - intros u [HuD Hug]%elem_of_difference. destruct (decide (u = h)) as [->|Hne]; [done|].
    destruct (Hd u) as (c & Hc & ?); [|exists c; by rewrite Hoth]. apply elem_of_difference. split; [done|].
    rewrite elem_of_list_to_set in Hug |- *. by intros [->|?]%elem_of_cons.
  - intros [] s' (Hi' & Hf' & Hd' & _ & Hs'). split; [done|]. split; [by eapply rc_frame_trans|]. split; [done|]. split; [done|].
    intros u Hu Hne. pose proof (frame_slots _ _ _ Hf'). apply elem_of_cons in Hu as [->|Hu].
    + unfold hs, kids in Hne. rewrite Hb, Hv in Hne. destruct ks; [done|]. cbn in Hsl. lia.
    + specialize (Hs' u Hu). destruct (Hg1 u Hu) as [_ Heq]. unfold hs in Hs' at 1. rewrite Heq in Hs'.
      specialize (Hs' Hne). lia.
Qed.

Lemma wp_free_garbage H M g : forall s,
  inv H M [] [] (list_to_set g) s -> dropped (list_to_set g) (heap s) -> NoDup g -> (forall u, u ∈ g -> u ∉ H) ->
  answers (free_garbage g) s (fun _ s' => inv H M [] [] ∅ s' /\ frame ∅ s s' /\ (g = [] -> s' = s)).
Proof.
  induction g as [|h g IH]; intros s Hi Hd Hnd Hg; cbn [free_garbage].
  { apply answers_ret. split; [done|]. split; [apply rc_frame_refl|done]. }
  apply NoDup_cons in Hnd as [Hh Hnd]. assert (h ∈ (list_to_set (h :: g) : gset positive)) as HhD by set_solver.
  assert ((list_to_set (h :: g) : gset positive) ∖ {[h]} = list_to_set g) as HD.
  { apply set_eq. intros u. rewrite elem_of_difference, elem_of_singleton, !elem_of_list_to_set, elem_of_cons.
    split; [tauto|]. intros Hu. split; [by right|]. by intros ->. }
  assert (h ∉ H) as HhH by apply Hg, list_elem_of_here. destruct (Hd h HhD) as (b & Hb & Hv & Hs).
  apply answers_bind.
  apply (answers_mono _ _ (fun _ s1 => inv H M [] [] (list_to_set g) s1 /\ frame ∅ s s1 /\
    (forall u, u <> h -> heap s1 !! u = heap s !! u))).
  { unfold nurl__cc_free_block. apply answers_bind, (answers_deref h b); [done|].
    destruct (Z.eqb_spec (weak b) 0) as [Hw|Hw].
    - apply (answers_free h b); [done|]. rewrite <- HD. split; [by apply (inv_garbage_free kind_of _ _ _ _ h b)|].
      split; [by apply (frame_delete ∅ s h b); [|apply not_elem_of_empty|]|]. intros u Hu. cbn. by apply lookup_delete_ne.
    - apply answers_ret. rewrite <- HD. split; [by apply (inv_ungarbage kind_of _ _ _ _ h b)|]. split; [apply rc_frame_refl|done]. }
  intros [] s1 (Hi1 & Hf1 & Hoth). eapply answers_mono; [apply (IH s1 Hi1); [|done|]|].
  - intros u Hu. assert (u <> h) by (intros ->; by apply elem_of_list_to_set in Hu).
    rewrite Hoth by done. apply Hd. rewrite elem_of_list_to_set in Hu |- *. by apply list_elem_of_further.
  - intros u Hu. by apply Hg, list_elem_of_further.
  - intros [] s' (Hi' & Hf' & _). split; [done|]. split; [by eapply rc_frame_trans|done].
Qed.

(** What a collection has done when it is over. *)
Record run_post (H M : list positive) (s s' : rt) : Prop := {
  rp_inv : inv H M [] [] ∅ s';
  rp_frame : frame ∅ s s';
  rp_lonely P u : collecting (cs s) = false -> lonely kind_of ∅ (heap s) P -> u ∈ P -> u ∉ valued (heap s');
  rp_progress : collecting (cs s) = false -> roots (cs s') = [] \/ (slot_count (heap s') < slot_count (heap s))%nat }.

(** Trial deletion and the release of what it has found. *)
Lemma wp_collected H M s c :
  inv H M [] [] ∅ s -> nurl__cc s = Some c -> (slot_count (heap s) <= K)%nat ->
  let s1 := with_state (Some (with_collecting true (with_roots [] c))) s in
  answers ('(garbage, alive) ← trial_deletion kind_of (roots c); drop_garbage drop garbage;; free_garbage garbage;; mret alive) s1
    (fun _ s' => inv H M [] [] ∅ s' /\ frame ∅ s1 s' /\
      (forall P u, lonely kind_of ∅ (heap s) P -> u ∈ P -> u ∉ valued (heap s')) /\
      (roots (cs s') = [] \/ (slot_count (heap s') < slot_count (heap s))%nat)).
Proof.
  intros Hi Ec Hk s1. apply answers_bind. eapply answers_mono; [by apply (wp_trial kind_of H M s c)|].
  intros [g alive] s2 (Hi2 & Hnd & HgH & Hval & Hheld & Hfind & Ecc & Hf2). cbn [fst] in *. fold s1 in Hf2.
  pose proof (frame_slots _ _ _ Hf2) as Hsl2. cbn in Hsl2.
  apply answers_bind. eapply answers_mono; [apply (wp_drop_garbage H M (list_to_set g) g s2 Hi2)|].
  - by rewrite (cs_some s2 _ Ecc).
  - lia.
  - done.
  - intros u Hu. split; [by apply elem_of_list_to_set|by apply Hval].
  - intros u Hu. clear -Hu. set_solver.
  - intros [] s3 (Hi3 & Hf3 & Hd3 & He3 & Hs3). apply answers_bind.
    eapply answers_mono; [by apply (wp_free_garbage H M g s3)|]. intros [] s4 (Hi4 & Hf4 & He4). apply answers_ret.
    split; [done|]. split; [eapply rc_frame_trans; [done|]; by eapply rc_frame_trans|]. split.
    + intros P u HP Hu Hx%(frame_valued _ _ _ Hf4). apply elem_of_valued in Hx as (b & Hb & Hv).
      destruct (Hd3 u) as (b' & Hb' & Hn & _); [apply elem_of_list_to_set; by apply (Hfind P HP)|].
      simplify_eq. rewrite Hn in Hv. by destruct Hv.
    + destruct g as [|u g].
      * left. by rewrite He4, He3, (cs_some s2 _ Ecc).
      * right. destruct (Hheld u (list_elem_of_here _ _)) as (v & Hv & Huv). pose proof (frame_slots _ _ _ Hf4).
        specialize (Hs3 v Hv). destruct (hs (heap s2) v); [by apply elem_of_nil in Huv|]. specialize (Hs3 ltac:(done)). lia.
Qed.

(** Without suspects nothing is lonely. *)
Lemma lonely_none H M s P u :
  inv H M [] [] ∅ s -> roots (cs s) = [] -> lonely kind_of ∅ (heap s) P -> u ∈ P -> False.
Proof.
  intros Hi Hr HP Hu. pose proof (lonely_reached kind_of H M [] s P Hi HP u Hu ∅) as Hx.
  apply (not_elem_of_empty (C := gset positive) u), Hx; [intros v t []%not_elem_of_empty|].
  intros r [Hrs _]. rewrite Hr in Hrs. by apply elem_of_nil in Hrs.
Qed.

Lemma wp_cc_run run H M s :
  inv H M [] [] ∅ s -> is_Some (nurl__cc s) -> (slot_count (heap s) <= K)%nat ->
  answers (cc_run_body kind_of drop run) s (fun _ s' => run_post H M s s').
Proof.
  intros Hi [c Ec] Hk. pose proof (cs_some s c Ec) as Hcs. unfold cc_run_body. apply answers_bind, (answers_the_cc c); [done|].
  destruct (collecting c) eqn:Hcol; cbn [orb].
  { apply answers_ret. split; [done|apply rc_frame_refl|rewrite Hcs; congruence..]. }
  case_bool_decide as Hr.
  { apply answers_ret. split; [done|apply rc_frame_refl| |].
    - intros P u _ HP Hu. exfalso. by apply (lonely_none H M s P u Hi); [rewrite Hcs|..].
    - intros _. left. by rewrite Hcs. }
  apply answers_bind, (answers_upd_cc c); [done|]. unfold nurl__cc_run_roots. eapply answers_bind, answers_upd_cc; [done|].
  destruct (wp_collected H M s c Hi Ec Hk) as (alive & s4 & Hrun & Hi4 & Hf4 & Hl4 & Hp4).
  set (s1 := with_state (Some (with_collecting true (with_roots [] c))) s) in *.
  change (with_state (Some (with_collecting true (with_roots [] c))) (with_state (Some (with_roots [] c)) s)) with s1.
  apply bind_inv in Hrun as ([g al] & s2 & Ht & Hrun). apply answers_bind, (answers_run _ _ _ _ _ Ht).
  apply bind_inv in Hrun as ([] & s3 & Hdg & Hrun). apply answers_bind, (answers_run _ _ _ _ _ Hdg).
  apply bind_inv in Hrun as ([] & s3' & Hfg & Hrun). apply answers_bind, (answers_run _ _ _ _ _ Hfg).
  injection Hrun as <- ->. clear Ht Hdg Hfg.
  destruct (fr_cc _ _ _ Hf4) as [c4 Ec4]; [by eexists|]. destruct (frame_cs _ _ _ _ Hf4 Ec4) as [Hc4 Hd4]. cbn in Hc4, Hd4.
  eapply answers_bind, answers_upd_cc; [done|]. eapply answers_bind, answers_upd_cc; [done|].
  match goal with |- answers _ ?x _ => set (s5 := x) end.
  assert (inv H M [] [] ∅ s5) as Hi5.
  { unfold s5. apply (inv_state kind_of H M ∅ s4 c4); try done.
    - pose proof (i_depth _ _ _ _ _ _ _ Hi4) as Hd. by rewrite (cs_some s4 c4 Ec4) in Hd.
    - pose proof (i_idle _ _ _ _ _ _ _ Hi4) as Hd. by rewrite (cs_some s4 c4 Ec4) in Hd. }
  eapply answers_mono; [by apply (wp_urgent kind_of H M ∅ s5 Hi5)|]. intros [] s' ->. rewrite (cs_some s4 c4 Ec4) in Hp4.
  split; [done| |by intros P u _; apply Hl4|done].
  destruct Hf4 as [A1 A2 A3 A4 A5 A6 At A7 A8]. rewrite (cs_some s4 c4 Ec4) in A3.
  split; try done; unfold cs; cbn; by rewrite Ec.
Qed.
End run.

Section levels.
Context (kind_of : positive -> cc_kind) (Hres : forall t, mem_resource (kind_of t) = false).

Lemma run_ok_body K drop run : drop_ok kind_of K drop -> run_ok kind_of K (cc_run_body kind_of drop run).
Proof.
  intros Hd s H M Hi Hc Hk. eapply answers_mono; [by apply (wp_cc_run kind_of Hd run H M)|].
  intros [] s' [? ? _ _]. done.
Qed.

(** The fuel is enough. *)
Lemma fuel_ok n : (forall K, (3 * K <= n)%nat -> drop_ok kind_of K (Rc_drop_fuel kind_of n)) /\
  (forall K, (3 * K + 2 <= n)%nat -> run_ok kind_of K (cc_run_fuel kind_of n)).
Proof using Hres.
  induction n as [|n [IHd IHr]]; (split; intros K HK).
  - assert (K = 0%nat) as -> by lia. intros s H M D t _ _ Hx. lia.
  - lia.
  - destruct K as [|K]; [intros s H M D t _ _ Hx; lia|]. cbn [Rc_drop_fuel]. apply wp_drop; [|apply IHr; lia|done].
    apply IHd. lia.
  - cbn [cc_run_fuel]. apply run_ok_body, IHd. lia.
Qed.

Lemma wp_Rc_drop H M D s t :
  inv kind_of (t :: H) M [] [] D s -> quiet D s ->
  answers (Rc_drop kind_of t) s (fun _ s' => inv kind_of H M [] [] D s' /\ frame D s s').
Proof using Hres.
  intros Hi Hq. unfold Rc_drop. apply answers_bind, answers_get. unfold levels.
  apply (proj1 (fuel_ok _) (S (slot_count (heap s)))); [lia|done|done|lia].
Qed.

Lemma wp_cc_collect H M s :
  inv kind_of H M [] [] ∅ s -> is_Some (nurl__cc s) ->
  answers (nurl__cc_run kind_of) s (fun _ s' => run_post kind_of H M s s').
Proof using Hres.
  intros Hi Hc. unfold nurl__cc_run. apply answers_bind, answers_get. unfold levels.
  replace (3 * slot_count (heap s) + 3)%nat with (S (3 * slot_count (heap s) + 2)) by lia. cbn [cc_run_fuel].
  apply (wp_cc_run kind_of (K := slot_count (heap s))); [|done..]. apply (proj1 (fuel_ok _)). lia.
Qed.
End levels.
