(* ===== verification/RcClient.v ===== *)
(** What a program does with its handles: it makes values, shares, stores and
    drops handles, and asks for collections; each keeps the counts exact. *)

From S2P Require Import Prelude StateMonad Rc RcWord RcGraph RcTrial RcMark RcExact RcInv RcStep RcRelease RcSweep RcGarbage RcDrop RcLevel RcRun.

(** * Single changes between two operations *)

Lemma strongs_fmap ts : strongs (Strong <$> ts) = ts.
Proof. induction ts as [|t ts IH]; [done|]. cbn. by rewrite IH. Qed.

Lemma placed_live m h b b' M Zs df D :
  m !! h = Some b -> placed M Zs df D m -> strong b <> 0 -> strong b' <> 0 -> is_Some (value b) ->
  placed M Zs df D (<[h := b']> m).
Proof.
  intros Hb [Hz Hw Hnd Hm Hmnd] H0 H0' Hv. split; try done.
  - intros u c Hc HD Hc0 Hcv. apply insert_inv in Hc as [[-> ->]|[Hu Hc]]; [done|by apply (Hz u c)].
  - intros u (HD & c & Hc & Hcv & Hc0)%Hw. split; [done|]. exists c. rewrite lookup_insert_ne; [done|].
    intros ->. by simplify_eq.
  - intros u (HD & c & Hc & Hcv)%Hm. split; [done|]. exists c. rewrite lookup_insert_ne; [done|].
    intros ->. simplify_eq. rewrite Hcv in Hv. by destruct Hv.
Qed.

(** Two words that are the same to the collector. *)
Definition same_word (w w' : Z) : Prop :=
  nurl__cc_color w' = nurl__cc_color w /\ cc_has NURL_CC_BUFFERED w' = cc_has NURL_CC_BUFFERED w /\
  cc_has NURL_CC_DEAD w' = cc_has NURL_CC_DEAD w /\ cc_has NURL_CC_FREED w' = cc_has NURL_CC_FREED w /\ cc_index w' = cc_index w.

Lemma same_word_refl w : same_word w w.
Proof. by split_and!. Qed.

Lemma same_taken w : same_word w (cc_set RC_TAKEN w).
Proof. split_and!; by autorewrite with ccw. Qed.

Lemma same_restored w : same_word w (Z.lxor RC_TAKEN w).
Proof. split_and!; by autorewrite with ccw. Qed.

#[local] Hint Resolve same_word_refl : core.

Section changes.
Context (kind_of : positive -> cc_kind).
Abbreviation inv := (inv kind_of).

Lemma inv_perm H H' s : H ≡ₚ H' -> inv H [] [] [] ∅ s -> inv H' [] [] [] ∅ s.
Proof.
  intros Hp [[Hcount Hheld Hrefs Hnd Hval Hslots Hleaf] Hpl Hf Hs Hd Hid Hu Hn]. split; try done. split; try done.
  - intros u b. rewrite <- (occ_perm u _ _ Hp). apply Hcount.
  - intros t Ht. apply Hheld. by rewrite Hp.
Qed.

(** The flags do not depend on the value, as long as there is one, nor on the
    weak count while a gone block is still wanted. *)
Lemma flagged_value m h b b' rs :
  m !! h = Some b -> flagged kind_of [] rs ∅ m -> same_word (cc b) (cc b') -> (value b' = None <-> value b = None) ->
  (value b = None -> weak b' <> 0 \/ weak b' = weak b \/ cc_has NURL_CC_BUFFERED (cc b) = true) ->
  flagged kind_of [] rs ∅ (<[h := b']> m).
Proof.
  intros Hb [Hg Hf Hc Hi Hr Hd Hcy _] (E1 & E2 & E3 & E4 & E5) Hv Hw. split.
  - intros u c Hu _ Hn. apply insert_inv in Hu as [[-> ->]|[Hne Hu]]; [|by apply (Hg u c)].
    apply Hv in Hn. rewrite E2, E4. destruct (Hg h b Hb ltac:(set_solver) Hn) as [?|[[Hwb Hnb]|?]]; [auto..|by right; right].
    right. left. destruct (Hw Hn) as [?|[->|?]]; [done|done|congruence].
  - intros u c Hu. apply insert_inv in Hu as [[-> ->]|[Hne Hu]]; [rewrite E4, Hv; by apply (Hf h b)|by apply (Hf u c)].
  - intros u c Hu. apply insert_inv in Hu as [[-> ->]|[Hne Hu]]; [rewrite E1, E2, Hv; by apply (Hc h b)|by apply (Hc u c)].
  - intros u c Hu. apply insert_inv in Hu as [[-> ->]|[Hne Hu]]; [rewrite E2, E5; by apply (Hi h b)|by apply (Hi u c)].
  - intros i u (c & Hu & ?)%Hr. destruct (decide (u = h)) as [->|Hne].
    + exists b'. rewrite lookup_insert_eq, E2, E5. by simplify_eq.
    + exists c. by rewrite lookup_insert_ne.
  - intros u c Hu. apply insert_inv in Hu as [[-> ->]|[Hne Hu]]; [rewrite E3, Hv; by apply (Hd h b)|by apply (Hd u c)].
  - intros u c Hu. apply insert_inv in Hu as [[-> ->]|[Hne Hu]]; [rewrite E2; by apply (Hcy h b)|by apply (Hcy u c)].
  - intros u Hu. by apply elem_of_empty in Hu.
Qed.

(** The suspects stay suspects when a held block changes. *)
Lemma suspected_held H m h b b' :
  m !! h = Some b -> counted kind_of H ∅ (<[h := b']> m) -> h ∈ H -> suspected kind_of [] ∅ m -> same_word (cc b) (cc b') ->
  suspected kind_of [] ∅ (<[h := b']> m).
Proof.
  intros Hb Hc Hh Hs [Hcc _]. apply (suspected_keep kind_of Hb); [done| |rewrite Hcc; by left].
  intros P HP HhP. by destruct (lonely_unheld kind_of _ _ _ _ _ Hc HP HhP).
Qed.

Lemma alive_pos H M Zs Ts s t b : inv H M Zs Ts ∅ s -> heap s !! t = Some b -> 0 < strong b -> is_Some (value b).
Proof.
  intros Hi Hb Hpos. destruct (value b) eqn:Hv; [done|].
  pose proof (c_value _ _ _ _ (i_counted _ _ _ _ _ _ _ Hi) t b Hb ltac:(set_solver) Hv). lia.
Qed.

Lemma inv_clone H s t b :
  inv H [] [] [] ∅ s -> heap s !! t = Some b -> 0 < strong b ->
  inv (t :: H) [] [] [] ∅ (with_heap (<[t := with_strong (strong b + 1) b]> (heap s)) s).
Proof.
  intros Hi Hb Hpos. pose proof (alive_pos _ _ _ _ _ _ _ Hi Hb Hpos) as Hv.
  assert (counted kind_of (t :: H) ∅ (<[t := with_strong (strong b + 1) b]> (heap s))) as Hc.
  { apply (counted_strong kind_of Hb H (t :: H) ∅); [by apply Hi|done| | | |]; cbn.
    - rewrite decide_True by done. lia.
    - intros u Hu _. by rewrite decide_False.
    - intros u [->|Hu]%elem_of_cons; [by exists b|]. by apply (c_held _ _ _ _ (i_counted _ _ _ _ _ _ _ Hi)).
    - intros _ Hn. rewrite Hn in Hv. by destruct Hv. }
  apply (inv_heap kind_of _ _ _ _ _ _ _ _ _ _ _ Hi).
  - done.
  - intros Hp. apply (placed_live _ _ b); [done|done|lia|cbn; lia|done].
  - intros Hf. by apply (flagged_value _ _ b); auto.
  - intros Hs. by apply (suspected_held (t :: H) _ _ b); [..|apply list_elem_of_here| |].
  - intros u. by apply (insert_some _ _ _ _ _ Hb).
Qed.

(** A weak count changes while the block stays. *)
Lemma inv_weak H s t b z :
  inv H [] [] [] ∅ s -> heap s !! t = Some b -> (value b = None -> z <> 0 \/ cc_has NURL_CC_BUFFERED (cc b) = true) ->
  inv H [] [] [] ∅ (with_heap (<[t := with_weak z b]> (heap s)) s).
Proof.
  intros Hi Hb Hz. apply (inv_heap kind_of _ _ _ _ _ _ _ _ _ _ _ Hi).
  - intros Hc. apply (counted_strong kind_of Hb H H ∅); try done; [cbn; lia|by apply (c_held _ _ _ _ Hc)].
  - intros Hp. by apply (placed_keep Hb).
  - intros Hf. apply (flagged_value _ _ b); [done..|]. intros Hn. cbn. destruct (Hz Hn); auto.
  - intros Hs. apply (suspected_keep kind_of Hb); [done| |by left]. intros P HP Hh.
    destruct (HP t Hh) as (_ & c & Hc & Hle). rewrite lookup_insert_eq in Hc. simplify_eq. cbn in *. split; [lia|done].
  - intros u. by apply (insert_some _ _ _ _ _ Hb).
Qed.

(** The value of a held block is exchanged. *)
Lemma inv_replace H s t b ks v f :
  inv (v ++ H) [] [] [] ∅ s -> t ∈ H -> heap s !! t = Some b -> value b = Some ks ->
  (mem_rc_nested (kind_of t) = false -> v = []) -> same_word (cc b) (f (cc b)) ->
  inv (strongs ks ++ H) [] [] [] ∅ (with_heap (<[t := with_cc f (with_value (Some (Strong <$> v)) b)]> (heap s)) s).
Proof.
  intros Hi Ht Hb Hv Hfit Hw. pose proof (i_counted _ _ _ _ _ _ _ Hi) as Hcd.
  assert (kids b = ks) as Hk by (unfold kids; by rewrite Hv).
  set (b' := with_cc f (with_value (Some (Strong <$> v)) b)).
  assert (kids b' = Strong <$> v) as Hk' by done.
  assert (forall u, hs (<[t := b']> (heap s)) u = if decide (u = t) then v else hs (heap s) u) as Hhs.
  { intros u. rewrite hs_insert, Hk', strongs_fmap. done. }
  assert (counted kind_of (strongs ks ++ H) ∅ (<[t := b']> (heap s))) as Hc.
  { destruct Hcd as [Hcount Hheld Hrefs Hnd Hval Hslots Hleaf]. split.
    - intros u c Hc HD. rewrite (refs_value (heap s) t b b' u Hb), Hk, Hk', strongs_fmap, occ_app.
      assert (strong c = occ u (v ++ H) + refs (heap s) u) as ->; [|rewrite occ_app; lia].
      apply insert_inv in Hc as [[-> ->]|[Hu Hc]]; [by apply (Hcount t b)|by apply Hcount].
    - intros u Hu. apply (insert_some _ _ _ _ _ Hb). apply elem_of_app in Hu as [Hu|Hu].
      + apply (Hrefs t). unfold hs. by rewrite Hb, Hk.
      + apply Hheld, elem_of_app. by right.
    - intros u x. rewrite Hhs. intros Hx. apply (insert_some _ _ _ _ _ Hb). destruct (decide (u = t)); [|by apply (Hrefs u)].
      apply Hheld, elem_of_app. by left.
    - intros u x _ Hx. by apply elem_of_empty in Hx.
    - intros u c Hc HD Hn. apply insert_inv in Hc as [[-> ->]|[Hu Hc]]; [done|by apply (Hval u c)].
    - intros u c l Hc Hl. apply insert_inv in Hc as [[-> ->]|[Hu Hc]]; [|by apply (Hslots u c)].
      cbn in Hl. injection Hl as <-. by rewrite strongs_fmap.
    - intros u Hu. rewrite Hhs. destruct (decide (u = t)) as [->|]; [auto|by apply Hleaf]. }
  assert (t ∈ strongs ks ++ H) as Hin by (apply elem_of_app; by right).
  apply (inv_heap kind_of _ _ _ _ _ _ _ _ _ _ _ Hi).
  - done.
  - intros Hp. assert (0 < strong b) as Hpos.
    { rewrite (c_count _ _ _ _ Hcd t b Hb) by set_solver. pose proof (refs_nonneg (heap s) t).
      assert (0 < occ t (v ++ H)); [|lia]. apply occ_pos, elem_of_app. by right. }
    apply (placed_live _ _ b); [done|done|lia|cbn; lia|by exists ks].
  - intros Hf. apply (flagged_value _ _ b); [done..| |]; cbn; rewrite Hv; done.
  - intros Hs. by apply (suspected_held (strongs ks ++ H) _ _ b).
  - intros u. by apply (insert_some _ _ _ _ _ Hb).
Qed.

(** A new block takes the handles of its value. *)
Lemma counted_new H v m h :
  counted kind_of (v ++ H) ∅ m -> m !! h = None -> (mem_rc_nested (kind_of h) = false -> v = []) ->
  counted kind_of (h :: H) ∅ (<[h := Hdr 1 0 0 (Some (Strong <$> v))]> m).
Proof.
  intros [Hcount Hheld Hrefs Hnd Hval Hslots Hleaf] Hh Hfit. set (b := Hdr 1 0 0 (Some (Strong <$> v))).
  assert (occ h (v ++ H) = 0) as Hocc.
  { apply occ_none. intros Hx. destruct (Hheld h Hx). congruence. }
  assert (refs m h = 0) as Href.
  { pose proof (refs_nonneg m h). destruct (Z.eq_dec (refs m h) 0) as [|Hne]; [done|]. destruct (refs_elem m h) as [u Hu]; [lia|].
    destruct (Hrefs u h Hu). congruence. }
  assert (forall u, is_Some (m !! u) -> is_Some (<[h := b]> m !! u)) as Hsome.
  { intros u Hu. rewrite lookup_insert_ne; [done|]. intros ->. rewrite Hh in Hu. by destruct Hu. }
  split.
  - intros u c Hc HD. rewrite (refs_new m h b u Hh). cbn [kids value b default]. unfold kids; cbn. rewrite strongs_fmap.
    rewrite occ_app in Hocc. pose proof (occ_nonneg h v). pose proof (occ_nonneg h H).
    apply insert_inv in Hc as [[-> ->]|[Hu Hc]]; [rewrite decide_True by done; cbn; lia|].
    rewrite decide_False by done. specialize (Hcount u c Hc HD). rewrite occ_app in Hcount. lia.
  - intros u [->|Hu]%elem_of_cons; [rewrite lookup_insert_eq; by eexists|]. apply Hsome, Hheld, elem_of_app. by right.
  - intros u x. rewrite hs_insert. destruct (decide (u = h)); [|intros Hx; by apply Hsome, (Hrefs u)].
    unfold kids; cbn. rewrite strongs_fmap. intros Hx. apply Hsome, Hheld, elem_of_app. by left.
  - intros u x _ Hx. by apply elem_of_empty in Hx.
  - intros u c Hc HD Hn. apply insert_inv in Hc as [[-> ->]|[Hu Hc]]; [done|by apply (Hval u c)].
  - intros u c l Hc Hl. apply insert_inv in Hc as [[-> ->]|[Hu Hc]]; [|by apply (Hslots u c)].
    cbn in Hl. injection Hl as <-. by rewrite strongs_fmap.
  - intros u Hu. rewrite hs_insert. destruct (decide (u = h)) as [->|]; [|by apply Hleaf].
    unfold kids; cbn. rewrite strongs_fmap. auto.
Qed.

Lemma flagged_new m h v rs : m !! h = None -> flagged kind_of [] rs ∅ m -> flagged kind_of [] rs ∅ (<[h := Hdr 1 0 0 (Some v)]> m).
Proof.
  intros Hh [Hg Hf Hc Hi Hr Hd Hcy _]. split.
  1-4,6-7: intros u c Hu; apply insert_inv in Hu as [[-> ->]|[Hne Hu]]; [try done|eauto].
  - by left.
  - intros i u (c & Hu & ?)%Hr. exists c. rewrite lookup_insert_ne; [done|]. intros ->. congruence.
  - intros u Hu. by apply elem_of_empty in Hu.
Qed.

Lemma inv_new H v s :
  inv (v ++ H) [] [] [] ∅ s -> (mem_rc_nested (kind_of (next s)) = false -> v = []) ->
  inv (next s :: H) [] [] [] ∅
    (Rt (<[next s := Hdr 1 0 0 (Some (Strong <$> v))]> (heap s)) (Pos.succ (next s)) (nurl__cc s) (nurl__cc_batch s)).
Proof.
  intros [Hc Hp Hf Hs Hd Hid Hu Hn] Hfit. set (h := next s) in *.
  assert (heap s !! h = None) as Hh.
  { destruct (heap s !! h) eqn:E; [|done]. pose proof (Hn h ltac:(by eexists)). unfold h in *. lia. }
  pose proof (counted_new H v (heap s) h Hc Hh Hfit) as Hc'. split; cbn; try done.
  - destruct Hp as [Hz Hw Hnd Hm Hmnd]. split; try done.
    + intros u c Hcu HD. apply insert_inv in Hcu as [[-> ->]|[Hne Hcu]]; [done|by apply (Hz u c)].
    + intros u (HD & c & Hcu & ?)%Hw. split; [done|]. exists c. rewrite lookup_insert_ne; [done|]. intros ->. congruence.
    + intros u (HD & c & Hcu & ?)%Hm. split; [done|]. exists c. rewrite lookup_insert_ne; [done|]. intros ->. congruence.
  - by apply flagged_new.
  - intros P HP Hne.
    assert (h ∉ P) as HhP by (intros Hx; by destruct (lonely_unheld kind_of _ _ _ _ _ Hc' HP Hx (list_elem_of_here _ _))).
    destruct (Hs P) as (r & c & Hr & Hcr & Hx); [|done|].
    + intros u Hu'. assert (u <> h) as Huh by (by intros ->). destruct (HP u Hu') as (HD & c & Hcu & Hle).
      rewrite lookup_insert_ne in Hcu by done. split; [done|]. exists c. split; [done|].
      rewrite (indeg_same_hs kind_of (heap s)) in Hle; [done|]. intros w Hw. rewrite hs_insert, decide_False; [done|]. by intros ->.
    + exists r, c. split; [done|]. split; [|done]. rewrite lookup_insert_ne; [done|]. by intros ->.
  - intros u Hx. destruct (decide (u = h)) as [->|Hne]; [unfold h; lia|]. rewrite lookup_insert_ne in Hx by done.
    specialize (Hn u Hx). unfold h in *. lia.
Qed.
End changes.
