(* ===== verification/RcOps.v ===== *)
(** The program as a client of the handles: sequences of operations, each done
    only when the program owns the handles it takes. *)

From S2P Require Import Prelude StateMonad Rc RcWord RcGraph RcTrial RcMark RcExact RcInv RcStep RcRelease RcSweep RcGarbage RcDrop RcLevel RcRun RcClient.

Inductive rc_op :=
  | New (v : list positive) | Clone (t : positive) | Fetch (t u : positive) | Drop (t : positive)
  | Replace (t : positive) (v : list positive) | Take (t : positive) | Restore (t : positive) (v : list positive)
  | Downgrade (t : positive) | Upgrade (t : positive)
  | Share (t : positive) | WeakDrop (t : positive) | DropAll (ts : list positive) | Collect | Reclaim (e : Z).

(** The strong and the weak handles outside of values. *)
Record client := Client { held : list positive; weaks : list positive }.

Definition start : rt := Rt ∅ 1 None 0.

(** A handle is given away: it must be there. *)
Fixpoint give (t : positive) (H : list positive) : option (list positive) :=
  match H with [] => None | u :: H => if decide (t = u) then Some H else cons u <$> give t H end.

Fixpoint give_all (ts H : list positive) : option (list positive) :=
  match ts with [] => Some H | t :: ts => H' ← give t H; give_all ts H' end.

Lemma give_perm t H : forall H', give t H = Some H' -> H ≡ₚ t :: H'.
Proof.
  induction H as [|u H IH]; intros H' Hg; [done|]. cbn in Hg. destruct (decide (t = u)) as [->|]; [by injection Hg as ->|].
  destruct (give t H) as [H1|]; [|done]. injection Hg as <-. rewrite (IH H1 eq_refl). apply Permutation_swap.
Qed.

Lemma give_all_perm ts : forall H H', give_all ts H = Some H' -> H ≡ₚ ts ++ H'.
Proof.
  induction ts as [|t ts IH]; intros H H' Hg; cbn [give_all] in Hg; [by injection Hg as ->|].
  destruct (give t H) as [H1|] eqn:E; [|done]. cbn in Hg. rewrite (give_perm t H H1 E), (IH H1 H' Hg). done.
Qed.

Section ops.
Context (kind_of : positive -> cc_kind).

(** Only values of a nested type hold handles. *)
Definition fits (h : positive) (v : list positive) : bool := mem_rc_nested (kind_of h) || bool_decide (v = []).

Definition do_op (o : rc_op) (c : client) : ST rt client :=
  match o with
  | New v =>
      match give_all v (held c) with
      | Some H => n ← get_state next;
                  if fits n v then h ← rc_new (Strong <$> v); mret (Client (h :: H) (weaks c)) else mret c
      | None => mret c
      end
  | Clone t => if bool_decide (t ∈ held c) then rc_clone t;; mret (Client (t :: held c) (weaks c)) else mret c
  | Fetch t u =>
      if bool_decide (t ∈ held c)
      then o ← rc_get t;
           if bool_decide (u ∈ strongs (default [] o)) then rc_clone u;; mret (Client (u :: held c) (weaks c)) else mret c
      else mret c
  | Drop t =>
      match give t (held c) with Some H => Rc_drop kind_of t;; mret (Client H (weaks c)) | None => mret c end
  | Replace t v =>
      match give_all v (held c) with
      | Some H => if bool_decide (t ∈ H) && fits t v
                  then o ← rc_replace t (Strong <$> v);
                       mret (match o with Some old => Client (strongs old ++ H) (weaks c) | None => c end)
                  else mret c
      | None => mret c
      end
  | Take t =>
      if bool_decide (t ∈ held c)
      then o ← rc_take t; mret (match o with Some x => Client (strongs x ++ held c) (weaks c) | None => c end) else mret c
  | Restore t v =>
      match give_all v (held c) with
      | Some H => if bool_decide (t ∈ H) && fits t v
                  then ok ← rc_restore t (Strong <$> v); mret (if ok : bool then Client H (weaks c) else c) else mret c
      | None => mret c
      end
  | Downgrade t => if bool_decide (t ∈ held c) then rc_downgrade t;; mret (Client (held c) (t :: weaks c)) else mret c
  | Upgrade t =>
      if bool_decide (t ∈ weaks c)
      then ok ← weak_upgrade t; mret (if ok : bool then Client (t :: held c) (weaks c) else c) else mret c
  | Share t => if bool_decide (t ∈ weaks c) then Weak_share t;; mret (Client (held c) (t :: weaks c)) else mret c
  | WeakDrop t =>
      match give t (weaks c) with Some W => Weak_drop t;; mret (Client (held c) W) | None => mret c end
  | DropAll ts =>
      match give_all ts (held c) with
      | Some H => nurl__vec_drop_elems kind_of ts;; mret (Client H (weaks c)) | None => mret c end
  | Collect => nurl_cc_collect kind_of;; mret c
  | Reclaim e => _ ← nurl_cc_reclaim_fds kind_of e; mret c
  end.

Fixpoint do_ops (os : list rc_op) (c : client) : ST rt client :=
  match os with [] => mret c | o :: os => c' ← do_op o c; do_ops os c' end.

(** * Between two operations *)

Abbreviation inv := (inv kind_of).

Record cinv (c : client) (s : rt) : Prop := {
  ci_inv : inv (held c) [] [] [] ∅ s;
  ci_collecting : collecting (cs s) = false;
  ci_depth : depth (cs s) = 0;
  ci_batch : nurl__cc_batch s = 0;
  ci_weak t : weak_at (heap s) t = occ t (weaks c);
  ci_taken u b : heap s !! u = Some b -> cc_has RC_TAKEN (cc b) = true -> kids b = [] }.

Lemma cinv_start : cinv (Client [] []) start.
Proof.
  split; try done. split; try done; cbn.
  - split; try done; intros u; [intros Hu; by apply elem_of_nil in Hu|intros t Ht; by apply elem_of_nil in Ht..].
  - split; try done; [|constructor| |constructor]; intros u Hu; by apply elem_of_nil in Hu.
  - intros P HP Hne. destruct (set_choose_L P Hne) as [u Hu]. by destruct (HP u Hu) as (_ & b & Hb & _).
  - intros u [b Hb]. done.
Qed.

(** A call that has kept the invariant and the frame. *)
Lemma cinv_frame c c' s s' :
  cinv c s -> inv (held c') [] [] [] ∅ s' -> frame ∅ s s' -> weaks c' = weaks c -> cinv c' s'.
Proof.
  intros [Hi Hc Hd Hb Hw Ht] Hi' [F1 F2 F3 F4 F5 F6 Ft F7 F8] Hwk. split; try done; [congruence..| |].
  - intros t. rewrite F8, Hwk. apply Hw.
  - intros u b' Hb'. destruct (F6 u b' Hb') as (b0 & Hb0 & Hv). rewrite (Ft u b0 b') by done. intros Htk.
    unfold kids. destruct Hv as [->| ->]; [by apply (Ht u)|done].
Qed.

Lemma cinv_heap c c' s m :
  cinv c s -> inv (held c') [] [] [] ∅ (with_heap m s) -> (forall t, weak_at m t = occ t (weaks c')) ->
  (forall u b, m !! u = Some b -> cc_has RC_TAKEN (cc b) = true -> kids b = []) -> cinv c' (with_heap m s).
Proof. intros [Hi Hc Hd Hb Hw Ht] Hi' Hw' Ht'. by split. Qed.

(** A block changes. *)
Lemma cinv_put c c' s h b b' :
  cinv c s -> heap s !! h = Some b -> (cc_has RC_TAKEN (cc b') = true -> kids b' = []) ->
  inv (held c') [] [] [] ∅ (with_heap (<[h := b']> (heap s)) s) ->
  (forall t, weak_at (<[h := b']> (heap s)) t = occ t (weaks c')) -> cinv c' (with_heap (<[h := b']> (heap s)) s).
Proof.
  intros Hc Hb Hk Hi Hw. apply (cinv_heap c); [done..|]. intros u b2 Hu.
  apply insert_inv in Hu as [[-> ->]|[_ Hu]]; [done|by apply (ci_taken _ _ Hc u)].
Qed.

Lemma cinv_count c c' s h b b' :
  cinv c s -> heap s !! h = Some b -> cc b' = cc b -> kids b' = kids b ->
  inv (held c') [] [] [] ∅ (with_heap (<[h := b']> (heap s)) s) ->
  (forall t, weak_at (<[h := b']> (heap s)) t = occ t (weaks c')) -> cinv c' (with_heap (<[h := b']> (heap s)) s).
Proof. intros Hc Hb Hcc Hk. apply (cinv_put c c' s h b); [done|done|]. rewrite Hcc, Hk. apply (ci_taken _ _ Hc h b Hb). Qed.

Lemma weak_at_put m h b z t : m !! h = Some b ->
  weak_at (<[h := with_weak z b]> m) t = if decide (t = h) then z else weak_at m t.
Proof.
  intros Hb. unfold weak_at. destruct (decide (t = h)) as [->|]; [by rewrite lookup_insert_eq|by rewrite lookup_insert_ne].
Qed.

Lemma weak_block c s t : cinv c s -> t ∈ weaks c -> exists b, heap s !! t = Some b /\ 1 <= weak b.
Proof.
  intros Hi Ht%occ_pos. pose proof (ci_weak _ _ Hi t) as Hw. unfold weak_at in Hw.
  destruct (heap s !! t) as [b|] eqn:Hb; cbn in Hw; [exists b; split; [done|lia]|lia].
Qed.

Lemma weak_is c s t b : cinv c s -> heap s !! t = Some b -> weak b = occ t (weaks c).
Proof. intros Hi Hb. rewrite <- (ci_weak _ _ Hi t). unfold weak_at. by rewrite Hb. Qed.

(** * Each operation *)

Context (Hres : forall t, mem_resource (kind_of t) = false).

Lemma held_pos c s t : cinv c s -> t ∈ held c -> exists b, heap s !! t = Some b /\ 0 < strong b.
Proof.
  intros [Hi _ _ _ _ _] Ht. pose proof (i_counted _ _ _ _ _ _ _ Hi) as Hc. destruct (c_held _ _ _ _ Hc t Ht) as [b Hb].
  exists b. split; [done|]. rewrite (c_count _ _ _ _ Hc t b Hb) by set_solver. pose proof (refs_nonneg (heap s) t).
  apply occ_pos in Ht. lia.
Qed.

Lemma wp_clone c s t b :
  cinv c s -> heap s !! t = Some b -> 0 < strong b ->
  answers (rc_clone t) s (fun _ s' => cinv (Client (t :: held c) (weaks c)) s').
Proof.
  intros Hi Hb Hpos. unfold rc_clone. apply (answers_upd t b); [done|]. apply (cinv_count c _ s t b); [done..| |].
  - by apply (inv_clone kind_of); [apply Hi|..].
  - intros u. rewrite (weak_at_insert _ _ b) by done. apply (ci_weak _ _ Hi).
Qed.

Lemma wp_more_weak c s t b :
  cinv c s -> heap s !! t = Some b -> (value b = None -> 0 < weak b) ->
  answers (upd t (fun b => with_weak (weak b + 1) b)) s (fun _ s' => cinv (Client (held c) (t :: weaks c)) s').
Proof.
  intros Hi Hb Hpos. pose proof (weak_is c s t b Hi Hb) as Hw. pose proof (occ_nonneg t (weaks c)).
  apply (answers_upd t b); [done|]. apply (cinv_count c _ s t b); [done..| |].
  - apply (inv_weak kind_of); [apply Hi|done|]. intros Hn. left. specialize (Hpos Hn). lia.
  - intros u. rewrite (weak_at_put _ _ b) by done. cbn [weaks]. destruct (decide (u = t)) as [->|Hne].
    + rewrite occ_self. lia.
    + rewrite occ_other by done. apply (ci_weak _ _ Hi).
Qed.

Lemma held_weak c s t : cinv c s -> t ∈ held c ->
  answers (rc_downgrade t) s (fun _ s' => cinv (Client (held c) (t :: weaks c)) s').
Proof.
  intros Hi Ht. destruct (held_pos c s t Hi Ht) as (b & Hb & Hpos). apply (wp_more_weak c s t b Hi Hb). intros Hn.
  destruct (alive_pos kind_of _ _ _ _ _ _ _ (ci_inv _ _ Hi) Hb Hpos). congruence.
Qed.

Lemma wp_upgrade c s t : cinv c s -> t ∈ weaks c ->
  answers (weak_upgrade t) s (fun ok s' => cinv (if ok then Client (t :: held c) (weaks c) else c) s').
Proof.
  intros Hi Ht. destruct (weak_block c s t Hi Ht) as (b & Hb & _). unfold weak_upgrade.
  apply answers_bind, (answers_deref t b); [done|]. destruct (Z.leb_spec (strong b) 0); [by apply answers_ret|].
  apply answers_bind. eapply answers_mono; [by apply (wp_clone c s t b)|]. intros [] s' Hi'. by apply answers_ret.
Qed.

(** The last weak handle of a gone block frees it, unless the collector will. *)
Lemma wp_weak_drop c s t W :
  cinv c s -> weaks c ≡ₚ t :: W -> answers (Weak_drop t) s (fun _ s' => cinv (Client (held c) W) s').
Proof.
  intros Hi Hp. destruct (weak_block c s t Hi) as (b & Hb & Hge); [rewrite Hp; apply list_elem_of_here|].
  pose proof (weak_is c s t b Hi Hb) as Hw. pose proof (ci_inv _ _ Hi) as Hinv.
  assert (forall u, occ u (weaks c) = (if decide (u = t) then 1 else 0) + occ u W) as Hocc by (intros u; by rewrite (occ_perm u _ _ Hp)).
  assert (forall u, weak_at (<[t := with_weak (weak b - 1) b]> (heap s)) u = occ u W) as Hw'.
  { intros u. rewrite (weak_at_put _ _ b) by done. destruct (decide (u = t)) as [->|Hne].
    - rewrite Hw, Hocc, decide_True by done. lia.
    - rewrite (ci_weak _ _ Hi), Hocc, decide_False by done. lia. }
  unfold Weak_drop. apply answers_bind, (answers_upd t b); [done|]. eapply answers_bind, answers_deref; [apply lookup_insert_eq|].
  cbn [weak strong with_weak].
  assert (strong b <= 0 -> value b = None) as Hgone.
  { intros Hle. pose proof (i_placed _ _ _ _ _ _ _ Hinv) as [Hz _ _ _ _]. destruct (value b) eqn:Hv; [|done]. exfalso.
    assert (strong b = 0) as H0.
    { pose proof (c_count _ _ _ _ (i_counted _ _ _ _ _ _ _ Hinv) t b Hb ltac:(set_solver)).
      pose proof (occ_nonneg t (held c)). pose proof (refs_nonneg (heap s) t). lia. }
    specialize (Hz t b Hb ltac:(set_solver) H0 ltac:(by rewrite Hv)).
    rewrite (i_idle _ _ _ _ _ _ _ Hinv), app_nil_r in Hz by apply Hi. by apply elem_of_nil in Hz. }
  destruct (Z.eqb_spec (weak b - 1) 0) as [H1|H1]; cbn [andb].
  2:{ apply answers_ret, (cinv_count c _ s t b); [done..| |done]. apply (inv_weak kind_of); [done..|]. intros _. left. lia. }
  destruct (Z.leb_spec (strong b) 0) as [H2|H2].
  2:{ apply answers_ret, (cinv_count c _ s t b); [done..| |done]. apply (inv_weak kind_of); [done..|]. intros Hn.
      destruct (alive_pos kind_of _ _ _ _ _ _ _ Hinv Hb H2). congruence. }
  unfold nurl_cc_buffered. eapply answers_bind, answers_bind, answers_deref; [apply lookup_insert_eq|].
  apply answers_ret. cbn [cc with_weak]. destruct (cc_has NURL_CC_BUFFERED (cc b)) eqn:Hbuf.
  - apply answers_ret, (cinv_count c _ s t b); [done..| |done]. apply (inv_weak kind_of); [done..|]. intros _. by right.
  - eapply answers_free; [apply lookup_insert_eq|]. cbn [heap with_heap]. rewrite delete_insert_eq.
    change (with_heap (delete t (heap s)) (with_heap _ s)) with (with_heap (delete t (heap s)) s).
    apply (cinv_heap c); [done| | |].
    + apply (inv_delete kind_of _ [] [] _ _ _ b); auto; set_solver.
    + intros u. rewrite <- Hw'. unfold weak_at. destruct (decide (u = t)) as [->|Hne].
      * rewrite lookup_delete_eq, lookup_insert_eq. cbn. lia.
      * by rewrite lookup_delete_ne, lookup_insert_ne.
    + intros u b2 [_ Hu]%lookup_delete_Some. by apply (ci_taken _ _ Hi u).
Qed.

Lemma wp_new c s v H :
  cinv c s -> held c ≡ₚ v ++ H -> fits (next s) v = true ->
  answers (rc_new (Strong <$> v)) s (fun h s' => cinv (Client (h :: H) (weaks c)) s').
Proof.
  intros Hi Hp Hfit. unfold rc_new. apply answers_bind, answers_get, answers_bind, answers_put, answers_ret.
  pose proof (inv_perm kind_of _ _ _ Hp (ci_inv _ _ Hi)) as Hi'.
  assert (heap s !! next s = None) as Hn.
  { destruct (heap s !! next s) eqn:E; [|done]. pose proof (i_next _ _ _ _ _ _ _ Hi' (next s) ltac:(by eexists)). lia. }
  destruct Hi as [_ Hc Hd Hb Hw Ht]. split; [|done..| |].
  - apply (inv_new kind_of H v s Hi'). unfold fits in Hfit. intros Hx. rewrite Hx in Hfit. by apply bool_decide_eq_true in Hfit.
  - intros t. rewrite <- Hw. cbn. unfold weak_at. destruct (decide (t = next s)) as [->|Hne].
    + by rewrite lookup_insert_eq, Hn.
    + by rewrite lookup_insert_ne.
  - intros u b Hu. apply insert_inv in Hu as [[-> ->]|[_ Hu]]; [done|by apply (Ht u)].
Qed.

(** The value of a held block is exchanged, and perhaps checked out or back in. *)
Lemma exchanged c s t v H f b ks :
  cinv c s -> held c ≡ₚ v ++ H -> t ∈ H -> fits t v = true -> heap s !! t = Some b -> value b = Some ks ->
  same_word (cc b) (f (cc b)) -> (cc_has RC_TAKEN (f (cc b)) = true -> v = []) ->
  cinv (Client (strongs ks ++ H) (weaks c)) (with_heap (<[t := with_cc f (with_value (Some (Strong <$> v)) b)]> (heap s)) s).
Proof.
  intros Hi Hp Ht Hfit Hb Hks Hw Htk. apply (cinv_put c _ s t b); [done|done| | |].
  - intros Hx. unfold kids. cbn. by rewrite (Htk Hx).
  - apply (inv_replace kind_of H s t b ks v); [|done..| |done].
    + apply (inv_perm kind_of _ _ _ Hp), Hi.
    + unfold fits in Hfit. intros Hx. rewrite Hx in Hfit. by apply bool_decide_eq_true in Hfit.
  - intros u. rewrite (weak_at_insert _ _ b) by done. apply (ci_weak _ _ Hi).
Qed.

Lemma held_value c s t : cinv c s -> t ∈ held c -> exists b ks, heap s !! t = Some b /\ value b = Some ks.
Proof.
  intros Hi Ht. destruct (held_pos c s t Hi Ht) as (b & Hb & Hpos).
  destruct (alive_pos kind_of _ _ _ _ _ _ _ (ci_inv _ _ Hi) Hb Hpos) as [ks Hks]. eauto.
Qed.

Lemma answers_some {A} (o : option A) x (s : rt) (Q : A -> rt -> Prop) : o = Some x -> Q x s -> answers (of_option o) s Q.
Proof. intros -> HQ. by exists x, s. Qed.

Lemma wp_replace c s t v H :
  cinv c s -> held c ≡ₚ v ++ H -> t ∈ H -> fits t v = true ->
  answers (rc_replace t (Strong <$> v)) s (fun o s' =>
    cinv (match o with Some old => Client (strongs old ++ H) (weaks c) | None => c end) s').
Proof.
  intros Hi Hp Ht Hfit. destruct (held_value c s t Hi) as (b & ks & Hb & Hks); [rewrite Hp, elem_of_app; by right|].
  unfold rc_replace. apply answers_bind, (answers_deref t b); [done|]. destruct (cc_has RC_TAKEN (cc b)) eqn:Etk; [by apply answers_ret|].
  apply answers_bind, (answers_some _ ks); [done|]. apply answers_bind, (answers_upd t b); [done|]. apply answers_ret.
  apply (exchanged c s t v H (fun w => w) b ks); try done. congruence.
Qed.

Lemma wp_take_out c s t :
  cinv c s -> t ∈ held c ->
  answers (rc_take t) s (fun o s' =>
    cinv (match o with Some x => Client (strongs x ++ held c) (weaks c) | None => c end) s').
Proof.
  intros Hi Ht. destruct (held_value c s t Hi Ht) as (b & ks & Hb & Hks). unfold rc_take.
  apply answers_bind, (answers_deref t b); [done|]. destruct (cc_has RC_TAKEN (cc b)) eqn:Etk; [by apply answers_ret|].
  apply answers_bind, (answers_some _ ks); [done|]. apply answers_bind, (answers_upd t b); [done|].
  apply answers_bind. eapply answers_upd; [apply lookup_insert_eq|]. cbn [heap with_heap]. rewrite put_put. apply answers_ret.
  apply (exchanged c s t [] (held c) (cc_set RC_TAKEN) b ks); try done; [|apply same_taken].
  unfold fits. apply orb_true_r.
Qed.

(** What is put back takes the place of nothing. *)
Lemma wp_restore c s t v H :
  cinv c s -> held c ≡ₚ v ++ H -> t ∈ H -> fits t v = true ->
  answers (rc_restore t (Strong <$> v)) s (fun ok s' => cinv (if ok then Client H (weaks c) else c) s').
Proof.
  intros Hi Hp Ht Hfit. destruct (held_value c s t Hi) as (b & ks & Hb & Hks); [rewrite Hp, elem_of_app; by right|].
  unfold rc_restore. apply answers_bind, (answers_deref t b); [done|]. destruct (cc_has RC_TAKEN (cc b)) eqn:Etk; [|by apply answers_ret].
  assert (ks = []) as ->. { pose proof (ci_taken _ _ Hi t b Hb Etk) as Hk. unfold kids in Hk. by rewrite Hks in Hk. }
  apply answers_bind, (answers_upd t b); [done|]. apply answers_bind, (answers_some _ []); [done|].
  apply answers_bind. eapply answers_upd; [apply lookup_insert_eq|]. cbn [heap with_heap]. rewrite put_put. apply answers_ret.
  apply (exchanged c s t v H (Z.lxor RC_TAKEN) b []); try done; [apply same_restored|].
  rewrite taken_restored, Etk. done.
Qed.

Lemma wp_drop_elems H ts : forall s, inv (ts ++ H) [] [] [] ∅ s ->
  answers (drop_elems kind_of ts) s (fun _ s' => inv H [] [] [] ∅ s' /\ frame ∅ s s').
Proof using Hres.
  induction ts as [|t ts IH]; intros s Hi; cbn [drop_elems]; [apply answers_ret; split; [done|apply rc_frame_refl]|].
  apply answers_bind. eapply answers_mono; [apply (wp_Rc_drop kind_of Hres (ts ++ H) [] ∅ s t Hi); by right|].
  intros [] s1 (Hi1 & Hf1). eapply answers_mono; [by apply IH|]. intros [] s' (Hi' & Hf'). split; [done|by eapply rc_frame_trans].
Qed.

Lemma inv_batch H n s : inv H [] [] [] ∅ s -> inv H [] [] [] ∅ (with_batch n s).
Proof. intros []. by split. Qed.

Lemma wp_vec_drop H ts s : inv (ts ++ H) [] [] [] ∅ s -> 
  answers (nurl__vec_drop_elems kind_of ts) s (fun _ s' => inv H [] [] [] ∅ s' /\ frame ∅ s s').
Proof using Hres.
  intros Hi. unfold nurl__vec_drop_elems. apply answers_bind, answers_put, answers_bind.
  eapply answers_mono; [by apply (wp_drop_elems H ts), inv_batch|]. intros [] s1 (Hi1 & [A1 A2 A3 A4 A5 A6 At A7 A8]).
  apply answers_bind, answers_put, answers_bind, answers_get. cbn [nurl__cc_batch with_batch] in *.
  set (s2 := with_batch (nurl__cc_batch s1 - 1) s1).
  assert (inv H [] [] [] ∅ s2 /\ frame ∅ s s2) as [Hi2 Hf2].
  { split; [by apply inv_batch|]. split; try done. cbn. lia. }
  destruct (_ =? 0); [|by apply answers_ret]. unfold nurl__cc_batch_end. apply answers_bind, answers_get.
  destruct (nurl__cc s2) as [cc|] eqn:Ec; [|by apply answers_ret].
  pose proof (i_urgent _ _ _ _ _ _ _ Hi2) as Hu. rewrite (cs_some _ _ Ec) in Hu. rewrite Hu. by apply answers_ret.
Qed.

Lemma wp_collect H s : inv H [] [] [] ∅ s ->
  answers (nurl_cc_collect kind_of) s (fun _ s' => run_post kind_of H [] s s').
Proof using Hres.
  intros Hi. unfold nurl_cc_collect. apply answers_bind, answers_get. destruct (nurl__cc s) as [cc|] eqn:Ec.
  - apply (wp_cc_collect kind_of Hres); [done|by eexists].
  - apply answers_ret. split; [done|apply rc_frame_refl| |].
    + intros P u _ HP Hu. exfalso. apply (lonely_none kind_of H [] s P u Hi); [|done..]. unfold cs. by rewrite Ec.
    + intros _. left. unfold cs. by rewrite Ec.
Qed.

(** Files are closed by a collection when the program has run out of them. *)
Lemma wp_reclaim H s e : inv H [] [] [] ∅ s ->
  answers (nurl_cc_reclaim_fds kind_of e) s (fun _ s' => inv H [] [] [] ∅ s' /\ frame ∅ s s').
Proof using Hres.
  intros Hi. unfold nurl_cc_reclaim_fds. destruct (_ && _); [apply answers_ret; split; [done|apply rc_frame_refl]|].
  unfold nurl_cc_collect_for_fds. apply answers_bind, answers_get, answers_bind, answers_get.
  destruct (nurl__cc s) as [cc|] eqn:Ec; [|apply answers_ret; split; [done|apply rc_frame_refl]].
  destruct (_ || _); [apply answers_ret; split; [done|apply rc_frame_refl]|]. apply answers_bind.
  eapply answers_mono; [apply (wp_cc_collect kind_of Hres H []); [done|by eexists]|]. intros [] s' []. by apply answers_ret.
Qed.

Lemma do_op_ok o c s : cinv c s -> answers (do_op o c) s cinv.
Proof using Hres.
  intros Hi. pose proof (answers_ret c s cinv Hi) as Hskip.
  assert (forall (m : ST rt unit) c', weaks c' = weaks c ->
    answers m s (fun _ s' => inv (held c') [] [] [] ∅ s' /\ frame ∅ s s') -> answers (m;; mret c') s cinv) as Hcall.
  { intros m c' Hw Hm. apply answers_bind. eapply answers_mono; [exact Hm|]. intros [] s' [Hi' Hf]. apply answers_ret.
    by apply (cinv_frame c c' s). }
  assert (forall A (m : ST rt A) (k : A -> client), answers m s (fun x s' => cinv (k x) s') ->
    answers (x ← m; mret (k x)) s cinv) as Hdo.
  { intros A m k Hm. apply answers_bind. eapply answers_mono; [exact Hm|]. intros x s' Hx. by apply answers_ret. }
  destruct o as [v|t|t u|t|t v|t|t v|t|t|t|t|ts| |e]; cbn [do_op].
  - destruct (give_all v (held c)) as [H|] eqn:E; [|done]. apply answers_bind, answers_get.
    destruct (fits (next s) v) eqn:Ef; [|done]. apply (Hdo _ _ (fun h => Client (h :: H) (weaks c))).
    apply wp_new; [done|by apply give_all_perm|done].
  - case_bool_decide; [|done]. destruct (held_pos c s t Hi) as (b & Hb & Hpos); [done|].
    apply (Hdo _ _ (fun _ => _)). by apply (wp_clone c s t b).
  - case_bool_decide; [|done]. destruct (held_pos c s t Hi) as (b & Hb & Hpos); [done|].
    unfold rc_get. apply answers_bind, answers_bind, (answers_deref t b); [done|].
    destruct (cc_has RC_TAKEN (cc b)); [apply answers_ret; by rewrite bool_decide_false by apply not_elem_of_nil|].
    destruct (held_value c s t Hi) as (b2 & ks & Hb2 & Hks); [done|]. simplify_eq.
    apply answers_bind, (answers_some _ ks); [done|]. apply answers_ret. cbn [default]. case_bool_decide as Hu; [|done].
    apply (Hdo _ _ (fun _ => _)).
    destruct (counted_alive kind_of _ _ _ t u (i_counted _ _ _ _ _ _ _ (ci_inv _ _ Hi))) as (b' & Hb' & Hp' & _);
      [unfold hs, kids; by rewrite Hb, Hks|set_solver|]. by apply (wp_clone c s u b').
  - destruct (give t (held c)) as [H|] eqn:E; [|done]. apply (Hcall _ (Client H (weaks c))); [done|].
    apply (wp_Rc_drop kind_of Hres); [|by right]. apply (inv_perm kind_of (held c)); [by apply give_perm|apply Hi].
  - destruct (give_all v (held c)) as [H|] eqn:E; [|done]. destruct (bool_decide _ && _) eqn:Eb; [|done].
    apply andb_true_iff in Eb as [Ht%bool_decide_eq_true Hf]. 
    apply (Hdo _ _ (fun o => match o with Some old => Client (strongs old ++ H) (weaks c) | None => c end)).
    apply wp_replace; [done|by apply give_all_perm|done..].
  - case_bool_decide; [|done].
    apply (Hdo _ _ (fun o => match o with Some x => Client (strongs x ++ held c) (weaks c) | None => c end)). by apply wp_take_out.
  - destruct (give_all v (held c)) as [H|] eqn:E; [|done]. destruct (bool_decide _ && _) eqn:Eb; [|done].
    apply andb_true_iff in Eb as [Ht%bool_decide_eq_true Hf]. apply (Hdo _ _ (fun ok : bool => if ok then Client H (weaks c) else c)).
    apply wp_restore; [done|by apply give_all_perm|done..].
  - case_bool_decide; [|done]. apply (Hdo _ _ (fun _ => _)). by apply held_weak.
  - case_bool_decide; [|done]. apply (Hdo _ _ (fun ok : bool => if ok then Client (t :: held c) (weaks c) else c)). by apply wp_upgrade.
  - case_bool_decide; [|done]. destruct (weak_block c s t Hi) as (b & Hb & Hw); [done|]. apply (Hdo _ _ (fun _ => _)).
    apply (wp_more_weak c s t b Hi Hb). lia.
  - destruct (give t (weaks c)) as [W|] eqn:E; [|done]. apply (Hdo _ _ (fun _ => _)). by apply wp_weak_drop, give_perm.
  - destruct (give_all ts (held c)) as [H|] eqn:E; [|done]. apply (Hcall _ (Client H (weaks c))); [done|].
    apply wp_vec_drop. apply (inv_perm kind_of (held c)); [by apply give_all_perm|apply Hi].
  - apply (Hcall _ c); [done|]. eapply answers_mono; [apply (wp_collect (held c)), Hi|]. by intros [] s' [].
  - apply answers_bind. eapply answers_mono; [apply (wp_reclaim (held c)), Hi|]. intros x s' [Hi' Hf]. apply answers_ret.
    by apply (cinv_frame c c s).
Qed.

Lemma do_ops_ok os : forall c s, cinv c s -> answers (do_ops os c) s cinv.
Proof using Hres.
  induction os as [|o os IH]; intros c s Hi; cbn [do_ops]; [by apply answers_ret|].
  apply answers_bind. eapply answers_mono; [by apply do_op_ok|]. intros c' s' Hi'. by apply IH.
Qed.
End ops.
