(* ===== verification/RcThms.v ===== *)
(** What reference counting and the collector promise a program: no operation
    on owned handles faults, what is owned stays, what nothing owns goes. *)

From S2P Require Import Prelude StateMonad Rc RcWord RcGraph RcTrial RcMark RcExact RcInv RcStep RcRelease RcSweep RcGarbage RcDrop RcLevel RcRun RcClient RcOps.

(** A program owns what it holds and what the values it owns hold. *)
Definition owned (H : list positive) (m : gmap positive NurlCcHdr) (u : positive) : Prop :=
  forall P : gset positive, (forall t, t ∈ H -> t ∈ P) -> (forall v t, v ∈ P -> t ∈ hs m v -> t ∈ P) -> u ∈ P.

(** The counts of a state between two operations, and what they mean. *)
Record exact (c : client) (s : rt) : Prop := {
  ex_strong u b : heap s !! u = Some b -> strong b = occ u (held c) + refs (heap s) u;
  ex_weak u b : heap s !! u = Some b -> weak b = occ u (weaks c);
  ex_value u b : heap s !! u = Some b -> value b = None <-> strong b = 0;
  ex_held t : t ∈ held c -> t ∈ valued (heap s);
  ex_stored u t : t ∈ hs (heap s) u -> t ∈ valued (heap s);
  ex_gone u b : heap s !! u = Some b -> value b = None -> weak b <> 0 \/ u ∈ roots (cs s) }.

Section owned.
Context (kind_of : positive -> cc_kind).
Abbreviation inv := (inv kind_of).

(** Blocks that only each other hold. *)
Definition garbage_cycle (H : list positive) (m : gmap positive NurlCcHdr) (P : gset positive) : Prop :=
  forall u, u ∈ P -> mem_cyclic (kind_of u) = true /\ u ∉ H /\ u ∈ valued m /\ forall v, u ∈ hs m v -> v ∈ P.

(** The types of the values are ranked: a handle leads to the same rank or
    below, and below unless the type it leads to is cyclic. *)
Definition ranked (rank : positive -> nat) (m : gmap positive NurlCcHdr) : Prop :=
  forall v t, t ∈ hs m v -> (rank t <= rank v)%nat /\ (mem_cyclic (kind_of t) = false -> (rank t < rank v)%nat).

Section idle.
Context {H : list positive} {s : rt} (Hi : inv H [] [] [] ∅ s) (Hd : depth (cs s) = 0).

Lemma strong_is u b : heap s !! u = Some b -> strong b = occ u H + refs (heap s) u.
Proof using Hi. intros Hb. apply (c_count _ _ _ _ (i_counted _ _ _ _ _ _ _ Hi) u b Hb), not_elem_of_empty. Qed.

Lemma valued_counted u b : heap s !! u = Some b -> is_Some (value b) -> 0 < strong b.
Proof using Hi Hd.
  intros Hb Hv. rewrite (strong_is u b Hb). pose proof (occ_nonneg u H). pose proof (refs_nonneg (heap s) u).
  destruct (Z.eq_dec (occ u H + refs (heap s) u) 0) as [Hz|]; [|lia]. exfalso. rewrite <- (strong_is u b Hb) in Hz.
  pose proof (p_zero _ _ _ _ _ (i_placed _ _ _ _ _ _ _ Hi) u b Hb (not_elem_of_empty u) Hz Hv) as Hx.
  rewrite (i_idle _ _ _ _ _ _ _ Hi Hd) in Hx. by apply elem_of_nil in Hx.
Qed.

Lemma held_valued t : t ∈ H -> t ∈ valued (heap s).
Proof using Hi.
  intros Ht. destruct (held_some kind_of _ _ _ _ _ _ t Hi Ht) as [b Hb]. apply elem_of_valued. exists b. split; [done|].
  apply (alive_pos kind_of _ _ _ _ _ _ _ Hi Hb). rewrite (strong_is t b Hb). apply occ_pos in Ht.
  pose proof (refs_nonneg (heap s) t). lia.
Qed.

Lemma stored_valued u t : t ∈ hs (heap s) u -> t ∈ valued (heap s).
Proof using Hi.
  intros Ht. destruct (counted_alive kind_of H ∅ (heap s) u t (i_counted _ _ _ _ _ _ _ Hi) Ht) as (b & Hb & _ & Hv); [apply not_elem_of_empty|].
  apply elem_of_valued. by exists b.
Qed.

Lemma cycle_lonely P : garbage_cycle H (heap s) P -> lonely kind_of ∅ (heap s) P.
Proof using Hi Hd.
  intros HP u Hu. destruct (HP u Hu) as (Hcy & HuH & (b & Hb & Hv)%elem_of_valued & Hin). split; [apply not_elem_of_empty|].
  exists b. split; [done|]. split; [by apply (valued_counted u)|]. rewrite (strong_is u b Hb), occ_none by done.
  assert (P ⊆ dom (heap s)) as HPd.
  { intros v Hv'. destruct (HP v Hv') as (_ & _ & (c & Hc & _)%elem_of_valued & _). by apply elem_of_dom_2 in Hc. }
  unfold refs. rewrite (indeg_split _ P (dom (heap s)) u HPd), (indeg_zero _ (dom (heap s) ∖ P)).
  - rewrite Z.add_0_l, Z.add_0_r. apply ssum_le. intros v _. cbn. rewrite out_occ, Hcy. lia.
  - intros v [_ HvP]%elem_of_difference Hx. by apply HvP, Hin.
Qed.

(** With nothing lonely left every value is owned. *)
Lemma all_owned rank u :
  ranked rank (heap s) -> (forall P v, lonely kind_of ∅ (heap s) P -> v ∈ P -> False) -> u ∈ valued (heap s) -> owned H (heap s) u.
Proof using Hi Hd.
  intros Hrank Hno Hu P HPH HPc. destruct (decide (u ∈ P)) as [|HuP]; [done|]. exfalso.
  set (U := valued (heap s) ∖ P). assert (U ≢ ∅) as HU by (intros Hx; apply (not_elem_of_empty (C := gset positive) u); rewrite <- Hx; set_solver).
  set (R := fun x y => (rank y <= rank x)%nat). assert (Transitive R) as Htr by (intros a b c; unfold R; lia).
  assert (forall x y, Decision (R x y)) as Hdec by (intros x y; unfold R; apply _).
  destruct (minimal_exists_elem_of R U HU) as (x & Hx & Hmin). 
  set (Q := filter (fun v => rank v = rank x) U).
  assert (forall v, v ∈ U -> (rank v <= rank x)%nat) as Hmax.
  { intros v Hv. destruct (decide (rank v <= rank x)%nat) as [|Hlt]; [done|].
    assert (R v x) as Hvx by (unfold R; lia). exact (Hmin v Hv Hvx). }
  apply (Hno Q x); [|unfold Q; by apply elem_of_filter]. apply cycle_lonely. intros v [Hvx HvU]%elem_of_filter.
  apply elem_of_difference in HvU as [Hval HvP]. assert (v ∉ H) as HvH by (intros Hx'; by apply HvP, HPH).
  assert (forall w, v ∈ hs (heap s) w -> w ∈ U) as Hw.
  { intros w Hv. apply elem_of_difference. split; [|intros HwP; by apply HvP, (HPc w)]. apply elem_of_valued.
    unfold hs in Hv. destruct (heap s !! w) as [b|] eqn:Hb; [|by apply elem_of_nil in Hv]. exists b. split; [done|].
    unfold kids in Hv. destruct (value b); [done|by apply elem_of_nil in Hv]. }
  split; [|split; [done|split; [done|]]].
  - destruct (mem_cyclic (kind_of v)) eqn:Hcy; [done|]. exfalso. apply elem_of_valued in Hval as (b & Hb & Hv).
    pose proof (valued_counted v b Hb Hv) as Hpos. rewrite (strong_is v b Hb), occ_none in Hpos by done.
    destruct (refs_elem (heap s) v Hpos) as [w Hwv]. pose proof (Hmax w (Hw w Hwv)). destruct (Hrank w v Hwv) as [_ Hlt].
    specialize (Hlt Hcy). lia.
  - intros w Hwv. apply elem_of_filter. split; [|by apply Hw]. pose proof (Hmax w (Hw w Hwv)).
    destruct (Hrank w v Hwv) as [Hle _]. lia.
Qed.
End idle.

(** What is owned before a call that keeps the frame is there after it. *)
Lemma owned_valued H s s' u :
  inv H [] [] [] ∅ s' -> frame ∅ s s' -> owned H (heap s) u ->
  u ∈ valued (heap s') /\ exists b b', heap s !! u = Some b /\ heap s' !! u = Some b' /\ value b' = value b.
Proof.
  intros Hi Hf Ho. assert (forall v, v ∈ valued (heap s') -> exists b b', heap s !! v = Some b /\ heap s' !! v = Some b' /\ value b' = value b) as Hsame.
  { intros v (b' & Hb' & Hv)%elem_of_valued. destruct (fr_value _ _ _ Hf v b' Hb') as (b & Hb & [Heq|Hn]); [by exists b, b'|].
    rewrite Hn in Hv. by destruct Hv. }
  assert (u ∈ valued (heap s')) as Hu; [|by auto]. apply Ho; [by apply held_valued|]. intros v t Hv Ht.
  apply (stored_valued Hi v). destruct (Hsame v Hv) as (b & b' & Hb & Hb' & Heq). unfold hs in *. rewrite Hb in Ht.
  rewrite Hb'. unfold kids in *. by rewrite Heq.
Qed.

Lemma frame_hs s s' v t : frame ∅ s s' -> t ∈ hs (heap s') v -> t ∈ hs (heap s) v.
Proof.
  intros Hf. unfold hs, kids. destruct (heap s' !! v) as [b'|] eqn:Hb'; [|by intros ?%elem_of_nil].
  destruct (fr_value _ _ _ Hf v b' Hb') as (b & -> & [->| ->]); [done|by intros ?%elem_of_nil].
Qed.

Lemma owned_before H s s' u : frame ∅ s s' -> owned H (heap s') u -> owned H (heap s) u.
Proof. intros Hf Ho P HPH HPc. apply Ho; [done|]. intros v t Hv Ht. apply (HPc v t Hv). by apply (frame_hs s s'). Qed.

Lemma ranked_after rank s s' : frame ∅ s s' -> ranked rank (heap s) -> ranked rank (heap s').
Proof. intros Hf Hr v t Ht. by apply Hr, (frame_hs s s'). Qed.
End owned.

(** * The properties *)

Section thms.
Context (kind_of : positive -> cc_kind).
Abbreviation inv := (inv kind_of).

Lemma cinv_exact c s : cinv kind_of c s -> exact c s.
Proof.
  intros Hc. pose proof (ci_inv _ _ _ Hc) as Hi. pose proof (ci_depth _ _ _ Hc) as Hd. split.
  - intros u b. by apply (strong_is kind_of).
  - intros u b. by apply (weak_is kind_of).
  - intros u b Hb. split; [apply (c_value _ _ _ _ (i_counted _ _ _ _ _ _ _ Hi) u b Hb), not_elem_of_empty|].
    intros Hz. destruct (value b) eqn:Hv; [|done]. pose proof (valued_counted kind_of Hi Hd u b Hb ltac:(by rewrite Hv)). lia.
  - by apply (held_valued kind_of Hi).
  - by apply (stored_valued kind_of Hi).
  - intros u b Hb Hn. destruct (f_gone _ _ _ _ _ (i_flagged _ _ _ _ _ _ _ Hi) u b Hb (not_elem_of_empty u) Hn)
      as [[]%elem_of_nil|[[? _]|[_ Hbuf]]]; [by left|right].
    by eapply list_elem_of_lookup_2, (f_index _ _ _ _ _ (i_flagged _ _ _ _ _ _ _ Hi)).
Qed.

Context (Hres : forall t, mem_resource (kind_of t) = false).

(** The collections of [nurl_cc_context_end] come to an end with an empty buffer. *)
Lemma wp_collect_all H n : forall s,
  inv H [] [] [] ∅ s -> is_Some (nurl__cc s) -> collecting (cs s) = false ->
  roots (cs s) = [] \/ (slot_count (heap s) < n)%nat ->
  answers (collect_all kind_of n) s (fun _ s' => inv H [] [] [] ∅ s' /\ frame ∅ s s' /\ roots (cs s') = []).
Proof using Hres.
  induction n as [|n IH]; intros s Hi [c Ec] Hcol Hn; cbn [collect_all]; apply answers_bind, (answers_the_cc c); try done;
    rewrite (cs_some s c Ec) in *; rewrite Hcol, orb_false_r; case_bool_decide as Hr.
  - apply answers_ret. split; [done|]. split; [apply rc_frame_refl|by rewrite (cs_some s c Ec)].
  - destruct Hn; [done|lia].
  - apply answers_ret. split; [done|]. split; [apply rc_frame_refl|by rewrite (cs_some s c Ec)].
  - destruct Hn as [?|Hn]; [done|]. apply answers_bind.
    eapply answers_mono; [apply (wp_cc_collect kind_of Hres H [] s Hi); by eexists|].
    intros [] s1 [Hi1 Hf1 _ Hp]. rewrite (cs_some s c Ec) in Hp. eapply answers_mono; [apply (IH s1 Hi1)|].
    + apply (fr_cc _ _ _ Hf1). by eexists.
    + by rewrite (fr_collecting _ _ _ Hf1), (cs_some s c Ec).
    + destruct (Hp Hcol) as [?|?]; [by left|right; lia].
    + intros [] s' (Hi' & Hf' & Hr'). split; [done|]. split; [by eapply rc_frame_trans|done].
Qed.

Lemma wp_context_end c s :
  cinv kind_of c s -> answers (nurl_cc_context_end kind_of) s (fun _ s' => nurl__cc s' = None /\
    exists s1, heap s1 = heap s' /\ inv (held c) [] [] [] ∅ s1 /\ frame ∅ s s1 /\ roots (cs s1) = [] /\ depth (cs s1) = 0).
Proof using Hres.
  intros [Hi Hcol Hd Hb Hw _]. unfold nurl_cc_context_end. apply answers_bind, answers_get.
  destruct (nurl__cc s) as [cc|] eqn:Ec.
  2:{ apply answers_ret. split; [done|]. exists s. split_and!; try done; [apply rc_frame_refl|unfold cs; by rewrite Ec]. }
  apply answers_bind, answers_get, answers_bind.
  eapply answers_mono; [apply (wp_collect_all (held c) _ s Hi); [by eexists|done|right; lia]|].
  intros [] s1 (Hi1 & Hf1 & Hr1). destruct (fr_cc _ _ _ Hf1) as [c1 Ec1]; [by eexists|].
  destruct (frame_cs _ _ _ _ Hf1 Ec1) as [Hcol1 Hd1]. rewrite Hcol in Hcol1. rewrite Hd in Hd1.
  apply answers_bind, (answers_the_cc c1); [done|]. rewrite Hcol1, Hd1. cbn. apply answers_put. split; [done|].
  exists s1. split_and!; try done. by rewrite (cs_some s1 c1 Ec1).
Qed.

(** C8: no sequence of operations on owned handles faults: no value is traced
    or dropped twice, no block is touched after it has been freed, whatever
    the shape of the heap and whenever the collector runs.  The strong count
    of a block is the number of handles on it, held or in values, the weak
    count that of its weak handles; a value is there exactly as long as its
    count is positive; a block without a value stays only for weak handles or
    for the collector's buffer. *)
Theorem rc_ops_safe os : answers (do_ops kind_of os (Client [] [])) start (fun c s => exact c s).
Proof using Hres.
  eapply answers_mono; [apply (do_ops_ok kind_of Hres os), cinv_start|]. intros c s Hc. by apply cinv_exact.
Qed.

(** C9: where values own strong handles only and no resource, as in [rc_ops_safe],
    trial deletion, whenever the buffer is handed to it, answers, and the
    garbage it finds is exactly the blocks in cycles that only each other
    hold: every such block, no other, each once. *)
Theorem trial_deletion_exact os :
  answers (do_ops kind_of os (Client [] [])) start (fun c s =>
    answers (trial_deletion kind_of (roots (cs s))) s (fun r _ =>
      NoDup (fst r) /\ forall u, u ∈ fst r <-> exists P, garbage_cycle kind_of (held c) (heap s) P /\ u ∈ P)).
Proof using Hres.
  eapply answers_mono; [apply (do_ops_ok kind_of Hres os), cinv_start|]. intros c s [Hi _ Hd _ _ _].
  eapply answers_mono; [apply (trial_ok kind_of), (trial_pre_of_inv kind_of _ _ _ _ _ Hi)|].
  intros [g n] s' Hpost. cbn [fst]. split; [apply (to_nodup _ _ _ _ _ Hpost)|]. intros u. split.
  - intros Hu. exists (list_to_set g). split; [|by apply elem_of_list_to_set]. intros v Hv%elem_of_list_to_set.
    destruct (trial_sound kind_of Hi eq_refl Hpost v Hv) as (HvH & Hin & Hcy). split_and!; [done|done| |].
    + apply elem_of_valued, (trial_alive kind_of eq_refl Hpost v Hv).
    + intros w Hw. by apply elem_of_list_to_set, Hin.
  - intros (P & HP & Hu). apply (trial_finds kind_of Hi eq_refl Hpost P); [|done]. by apply (cycle_lonely kind_of Hi Hd).
Qed.

(** C10: where values own strong handles only and no resource, as in
    [rc_ops_safe], a collection the program asks for drops the values of every cycle that
    only its own blocks hold, and leaves everything the program owns as it
    was. *)
Theorem collect_frees_cycles os :
  answers (do_ops kind_of os (Client [] [])) start (fun c s =>
    answers (nurl_cc_collect kind_of) s (fun _ s' => exact c s' /\
      (forall P u, garbage_cycle kind_of (held c) (heap s) P -> u ∈ P -> u ∉ valued (heap s')) /\
      (forall u, owned (held c) (heap s) u -> exists b b', heap s !! u = Some b /\ heap s' !! u = Some b' /\
        value b' = value b /\ is_Some (value b')))).
Proof using Hres.
  eapply answers_mono; [apply (do_ops_ok kind_of Hres os), cinv_start|]. intros c s Hc.
  pose proof Hc as [Hi Hcol Hd Hb Hw _].
  eapply answers_mono; [by apply (wp_collect kind_of Hres (held c))|]. intros [] s' [Hi' Hf Hl _]. split_and!.
  - apply cinv_exact. by apply (cinv_frame kind_of c c s).
  - intros P u HP Hu. apply (Hl P u); [done| |done]. by apply (cycle_lonely kind_of Hi Hd).
  - intros u Ho. destruct (owned_valued kind_of (held c) s s' u Hi' Hf Ho) as [(b2 & Hb2 & Hv)%elem_of_valued (b & b' & ? & ? & ?)].
    exists b, b'. by simplify_eq.
Qed.

(** C11: where values own strong handles only and no resource, as in
    [rc_ops_safe], when the context of the program ends, the collections it starts come
    to an end, and what is left is what the program owns: the values of all
    other blocks have been dropped, whatever cycles they formed, provided the
    compiler calls a type cyclic when its values can lead back to themselves.
    A program that holds nothing leaves no block behind. *)
Theorem context_end_frees os :
  answers (do_ops kind_of os (Client [] [])) start (fun c s =>
    answers (nurl_cc_context_end kind_of) s (fun _ s' => nurl__cc s' = None /\
      (forall u, owned (held c) (heap s) u -> u ∈ valued (heap s')) /\
      forall rank, ranked kind_of rank (heap s) ->
        (forall u, u ∈ valued (heap s') -> owned (held c) (heap s) u) /\
        (held c = [] -> weaks c = [] -> heap s' = ∅))).
Proof using Hres.
  eapply answers_mono; [apply (do_ops_ok kind_of Hres os), cinv_start|]. intros c s Hc.
  eapply answers_mono; [by apply wp_context_end|]. intros [] s' (Hn & s1 & Hs1 & Hi1 & Hf1 & Hr1 & Hd1). rewrite <- Hs1.
  split; [done|]. split; [intros u Ho; by apply (owned_valued kind_of (held c) s s1)|]. intros rank Hrank.
  assert (forall u, u ∈ valued (heap s1) -> owned (held c) (heap s) u) as Hown.
  { intros u Hu. apply (owned_before _ s s1 u Hf1), (all_owned kind_of Hi1 Hd1 rank); [by apply (ranked_after kind_of rank s)| |done].
    intros P v. by apply (lonely_none kind_of (held c) [] s1). }
  split; [done|]. intros Hh Hwk. apply map_eq. intros u. rewrite lookup_empty. destruct (heap s1 !! u) as [b|] eqn:Hb; [|done].
  exfalso. destruct (value b) as [ks|] eqn:Hv.
  - assert (u ∈ (∅ : gset positive)) as []%not_elem_of_empty. apply (Hown u); [apply elem_of_valued; exists b; by rewrite Hv|..].
    + intros t. rewrite Hh. by intros ?%elem_of_nil.
    + intros v t Hx. by apply not_elem_of_empty in Hx.
  - pose proof (i_flagged _ _ _ _ _ _ _ Hi1) as Hfl.
    destruct (f_gone _ _ _ _ _ Hfl u b Hb (not_elem_of_empty u) Hv) as [[]%elem_of_nil|[[Hw _]|[_ Hbuf]]].
    + pose proof (fr_weak _ _ _ Hf1 u) as Hfw. rewrite (ci_weak _ _ _ Hc u), Hwk in Hfw. unfold weak_at in Hfw. by rewrite Hb in Hfw.
    + pose proof (f_index _ _ _ _ _ Hfl u b Hb Hbuf) as Hx. by rewrite Hr1 in Hx.
Qed.
End thms.

(** * Witnesses: two blocks that hold each other *)

Definition all_cyclic (_ : positive) : cc_kind := Cyclic.

Definition two_cycle : list rc_op := [New []; Clone 1; New [1%positive]; Clone 2; Replace 1 [2%positive]; Drop 1; Drop 2].

Example rc_ops_safe_witness :
  (forall t, mem_resource (all_cyclic t) = false) /\ answers (do_ops all_cyclic two_cycle (Client [] [])) start (fun c s => exact c s).
Proof. split; [done|]. exact (rc_ops_safe all_cyclic (fun _ => eq_refl) two_cycle). Defined.

(** Both are garbage, and are found. *)
Example trial_deletion_exact_witness :
  (forall t, mem_resource (all_cyclic t) = false) /\
  answers (do_ops all_cyclic two_cycle (Client [] [])) start (fun c s => roots (cs s) = [1%positive; 2%positive] /\
    answers (trial_deletion all_cyclic (roots (cs s))) s (fun r _ => NoDup (fst r) /\
      forall u, u ∈ fst r <-> exists P, garbage_cycle all_cyclic (held c) (heap s) P /\ u ∈ P)).
Proof.
  split; [done|]. destruct (trial_deletion_exact all_cyclic (fun _ => eq_refl) two_cycle) as (c & s & Hrun & Ht).
  exists c, s. split; [done|]. split; [|done]. vm_compute in Hrun. by injection Hrun as <- <-.
Defined.

Example collect_frees_cycles_witness :
  (forall t, mem_resource (all_cyclic t) = false) /\
  answers (do_ops all_cyclic (take 6 two_cycle) (Client [] [])) start (fun c s =>
    answers (nurl_cc_collect all_cyclic) s (fun _ s' => exact c s')).
Proof.
  split; [done|]. destruct (collect_frees_cycles all_cyclic (fun _ => eq_refl) (take 6 two_cycle)) as (c & s & Hrun & u & s' & Hc & Hex & _).
  exists c, s. split; [done|]. by exists u, s'.
Defined.

Example context_end_frees_witness :
  (forall t, mem_resource (all_cyclic t) = false) /\
  answers (do_ops all_cyclic two_cycle (Client [] [])) start (fun c s => held c = [] /\ size (heap s) = 2%nat /\
    answers (nurl_cc_context_end all_cyclic) s (fun _ s' => heap s' = ∅)).
Proof.
  split; [done|]. destruct (context_end_frees all_cyclic (fun _ => eq_refl) two_cycle) as (c & s & Hrun & u & s' & Hc & _ & _ & Hr).
  exists c, s. split; [done|]. vm_compute in Hrun. injection Hrun as <- <-. split; [done|]. split; [done|].
  exists u, s'. split; [done|]. apply (Hr (fun _ => 0%nat)); [|done..]. intros v t _. split; [done|]. intros Hx. discriminate Hx.
Defined.

(** * Outside of what the theorems assume *)

(** A value that owns a weak handle on the block that owns it: the last strong
    handle on that block is dropped, the value with it, and dropping the weak
    handle frees the block while its release is under way. *)
Definition weak_parent : ST rt unit :=
  p ← rc_new []; rc_downgrade p;; c ← rc_new [WeakTo p]; _ ← rc_replace p [Strong c]; Rc_drop all_cyclic p.

Example weak_parent_faults : weak_parent start = None.
Proof. vm_compute. reflexivity. Qed.

(** A resource that refers to a cycle the buffer holds: the run of its own
    does not give back the counts inside the cycle. *)
Definition third_resource (p : positive) : cc_kind := if (p =? 3)%positive then Resource else Cyclic.

Definition resource_program : list rc_op :=
  [New []; Clone 1; New [1%positive]; Replace 1 [2%positive]; Clone 1; Drop 1;
   New []; Clone 3; Replace 3 [3%positive; 1%positive]; Drop 3].

Example resource_faults : do_ops third_resource resource_program (Client [] []) start = None.
Proof. vm_compute. reflexivity. Qed.
