(* ===== verification/Float.v ===== *)
(** Doubles as bit patterns, and what it means to round a fraction to the
    nearest one.

    The pattern of a finite double without its sign, read as a number, counts
    the doubles from zero on; [sval] is the value in units of the smallest,
    2^-1074.  The pattern of infinity stands at 2^1024, one step past the
    largest finite double, which is where overflow rounds to it. *)

From S2P Require Import Prelude.

Definition INF : Z := 2047 * 2 ^ 52.

(** The significand and the exponent of a pattern: [M * 2 ^ F]. *)
Definition double_of (b : Z) : Z * Z :=
  let be := b / 2 ^ 52 in
  if be =? 0 then (b mod 2 ^ 52, -1074) else (b mod 2 ^ 52 + 2 ^ 52, be - 1075).

Definition sval (b : Z) : Z := let '(M, F) := double_of b in M * 2 ^ (F + 1074).

(** Twice the midpoint of [b] and the double after it. *)
Definition mid (b : Z) : Z := sval b + sval (b + 1).

(** [b] is the double nearest to [n / d], the even one of two. *)
Record rounds (n d b : Z) : Prop := {
  rn_range : 0 <= b <= INF;
  rn_lower : 0 < b -> mid (b - 1) * d <= n * 2 ^ 1075 /\ (Z.odd b = true -> mid (b - 1) * d < n * 2 ^ 1075);
  rn_upper : b < INF -> n * 2 ^ 1075 <= mid b * d /\ (Z.odd b = true -> n * 2 ^ 1075 < mid b * d) }.

(** The same by computation: the double at or below [n / d], and one more when
    the fraction lies past the midpoint, or on it and the double is odd. *)
Definition round_near (n d : Z) : Z :=
  let q := n * 2 ^ 1074 / d in
  let s := Z.max (Z.log2 q - 52) 0 in
  let b := s * 2 ^ 52 + q / 2 ^ s in
  if INF <=? b then INF
  else match n * 2 ^ 1075 ?= mid b * d with
       | Lt => b
       | Gt => b + 1
       | Eq => if Z.odd b then b + 1 else b
       end.

(** * The order of the doubles *)

(** A significand of 53 bits, or one more than there are. *)
Lemma sval_at s m : 0 <= s -> (s = 0 /\ 0 <= m \/ 2 ^ 52 <= m) -> m <= 2 ^ 53 -> sval (s * 2 ^ 52 + m) = m * 2 ^ s.
Proof.
  intros Hs Hm Hle. unfold sval, double_of.
  assert (forall be f, 0 < be -> 0 <= f < 2 ^ 52 ->
    (let '(M, F) := if (be * 2 ^ 52 + f) / 2 ^ 52 =? 0 then ((be * 2 ^ 52 + f) mod 2 ^ 52, -1074)
       else ((be * 2 ^ 52 + f) mod 2 ^ 52 + 2 ^ 52, (be * 2 ^ 52 + f) / 2 ^ 52 - 1075) in M * 2 ^ (F + 1074)) = (f + 2 ^ 52) * 2 ^ (be - 1)) as Hn.
  { intros be f Hbe Hf. rewrite Z.div_add_l, (Z.div_small f), Z.add_0_r, (Z.add_comm _ f), Z.mod_add, (Z.mod_small f) by lia.
    destruct (Z.eqb_spec be 0); [lia|]. f_equal. f_equal. lia. }
  destruct (decide (m < 2 ^ 52)) as [Hlt|Hge].
  - destruct Hm as [[-> Hm]|]; [|lia]. rewrite Z.mul_0_l, Z.add_0_l, Z.div_small, Z.mod_small by lia. done.
  - destruct (decide (m = 2 ^ 53)) as [->|Hne].
    + replace (s * 2 ^ 52 + 2 ^ 53) with ((s + 2) * 2 ^ 52 + 0) by lia. rewrite Hn by lia.
      replace (s + 2 - 1) with (s + 1) by lia. rewrite Z.pow_add_r by lia. lia.
    + replace (s * 2 ^ 52 + m) with ((s + 1) * 2 ^ 52 + (m - 2 ^ 52)) by lia. rewrite Hn by lia.
      f_equal; [lia|]. f_equal. lia.
Qed.

(** Every pattern has that form. *)
Lemma pattern_form b : 0 <= b -> exists s m, b = s * 2 ^ 52 + m /\ 0 <= s /\ (s = 0 /\ 0 <= m \/ 2 ^ 52 <= m) /\ m < 2 ^ 53.
Proof.
  intros Hb. pose proof (Z.div_mod b (2 ^ 52) ltac:(lia)). pose proof (Z.mod_pos_bound b (2 ^ 52) ltac:(lia)).
  pose proof (Z.div_pos b (2 ^ 52) Hb ltac:(lia)).
  destruct (Z.eq_dec (b / 2 ^ 52) 0) as [Hz|Hz].
  - exists 0, b. lia.
  - exists (b / 2 ^ 52 - 1), (b mod 2 ^ 52 + 2 ^ 52). lia.
Qed.

Lemma sval_step b : 0 <= b -> sval b < sval (b + 1).
Proof.
  intros Hb. destruct (pattern_form b Hb) as (s & m & -> & Hs & Hm & Hlt).
  rewrite sval_at by lia. rewrite <- Z.add_assoc, sval_at by lia.
  assert (0 < 2 ^ s) by (apply Z.pow_pos_nonneg; lia). nia.
Qed.

Lemma sval_mono_lt a b : 0 <= a < b -> sval a < sval b.
Proof.
  intros [Ha Hab]. replace b with (a + Z.of_nat (Z.to_nat (b - a))) by lia.
  assert (0 < Z.to_nat (b - a))%nat as Hk by lia. generalize dependent (Z.to_nat (b - a)). intros k Hk.
  induction k as [|k IH]; [lia|]. destruct k as [|k].
  - change (Z.of_nat 1) with 1. by apply sval_step.
  - rewrite Nat2Z.inj_succ, <- Z.add_1_r, Z.add_assoc. pose proof (sval_step (a + Z.of_nat (S k)) ltac:(lia)). specialize (IH ltac:(lia)). lia.
Qed.

Lemma sval_mono a b : 0 <= a <= b -> sval a <= sval b.
Proof. intros H. destruct (decide (a = b)) as [->|]; [lia|]. pose proof (sval_mono_lt a b). lia. Qed.

Lemma sval_nonneg b : 0 <= b -> 0 <= sval b.
Proof. intros Hb. change 0 with (sval 0). apply sval_mono. lia. Qed.

Lemma mid_mono a b : 0 <= a <= b -> mid a <= mid b.
Proof. intros H. unfold mid. pose proof (sval_mono a b H). pose proof (sval_mono (a + 1) (b + 1)). lia. Qed.

Lemma mid_bounds b : 0 <= b -> 2 * sval b < mid b < 2 * sval (b + 1).
Proof. intros Hb. unfold mid. pose proof (sval_step b Hb). lia. Qed.

(** The significand and the exponent are what the words of a pattern say. *)
Lemma double_of_bounds b : 0 <= b <= INF -> let '(M, F) := double_of b in 0 <= M < 2 ^ 53 /\ -1074 <= F <= 972.
Proof.
  intros Hb. unfold double_of. pose proof (Z.mod_pos_bound b (2 ^ 52) ltac:(lia)). pose proof (Z.div_pos b (2 ^ 52) ltac:(lia) ltac:(lia)).
  assert (b / 2 ^ 52 <= 2047) by (apply Z.div_le_upper_bound; unfold INF in *; lia).
  destruct (Z.eqb_spec (b / 2 ^ 52) 0); lia.
Qed.

Lemma sval_next b : 0 <= b -> let '(M, F) := double_of b in sval (b + 1) = (M + 1) * 2 ^ (F + 1074).
Proof.
  intros Hb. destruct (pattern_form b Hb) as (s & m & -> & Hs & Hm & Hlt). rewrite <- Z.add_assoc, sval_at by lia.
  unfold double_of. destruct (decide (m < 2 ^ 52)) as [Hsub|Hnorm].
  - destruct Hm as [[-> Hm]|]; [|lia]. rewrite Z.mul_0_l, Z.add_0_l, Z.div_small, Z.mod_small by lia. done.
  - replace (s * 2 ^ 52 + m) with ((s + 1) * 2 ^ 52 + (m - 2 ^ 52)) by lia.
    rewrite Z.div_add_l, (Z.div_small (m - 2 ^ 52)), Z.add_0_r, (Z.add_comm _ (m - 2 ^ 52)), Z.mod_add, (Z.mod_small (m - 2 ^ 52)) by lia.
    destruct (Z.eqb_spec (s + 1) 0); [lia|]. f_equal; [lia|]. f_equal. lia.
Qed.

Lemma double_of_odd b : 0 <= b -> let '(M, F) := double_of b in Z.odd M = Z.odd b.
Proof.
  intros Hb. unfold double_of. pose proof (Z.div_mod b (2 ^ 52) ltac:(lia)) as Hdm.
  assert (Z.odd (b mod 2 ^ 52) = Z.odd b) as Ho.
  { rewrite Hdm at 2. rewrite Z.odd_add, Z.odd_mul. change (Z.odd (2 ^ 52)) with false. by destruct (Z.odd (b mod 2 ^ 52)). }
  destruct (b / 2 ^ 52 =? 0); [done|]. rewrite Z.odd_add, Ho. change (Z.odd (2 ^ 52)) with false. apply xorb_false_r.
Qed.

(** * Rounding *)

(** Only the value of the fraction counts. *)
Lemma rounds_ext n d n' d' b : 0 < d -> 0 < d' -> n * d' = n' * d -> rounds n d b -> rounds n' d' b.
Proof.
  intros Hd Hd' He [Hr Hl Hu]. set (P := 2 ^ 1075) in *.
  assert (forall t, t * d <= n * P <-> t * d' <= n' * P) as Hle.
  { intros t. rewrite (Z.mul_le_mono_pos_r (t * d) _ d'), (Z.mul_le_mono_pos_r (t * d') _ d) by done.
    replace (n * P * d') with (n' * P * d) by lia. replace (t * d * d') with (t * d' * d) by lia. done. }
  assert (forall t, n * P <= t * d <-> n' * P <= t * d') as Hge.
  { intros t. rewrite (Z.mul_le_mono_pos_r _ (t * d) d'), (Z.mul_le_mono_pos_r _ (t * d') d) by done.
    replace (n * P * d') with (n' * P * d) by lia. replace (t * d * d') with (t * d' * d) by lia. done. }
  split; [done| |].
  - intros Hb. destruct (Hl Hb) as [H1 H2]. split; [by apply Hle|]. intros Ho. specialize (H2 Ho).
    destruct (Z.lt_ge_cases (mid (b - 1) * d') (n' * P)) as [|Hx]; [done|]. apply Hge in Hx. lia.
  - intros Hb. destruct (Hu Hb) as [H1 H2]. split; [by apply Hge|]. intros Ho. specialize (H2 Ho).
    destruct (Z.lt_ge_cases (n' * P) (mid b * d')) as [|Hx]; [done|]. apply Hle in Hx. lia.
Qed.

(** Larger fractions round to larger doubles. *)
Lemma rounds_mono n d n' d' b b' :
  0 < d -> 0 < d' -> n * d' <= n' * d -> rounds n d b -> rounds n' d' b' -> b <= b'.
Proof.
  intros Hd Hd' Hle [Hr Hl _] [Hr' _ Hu']. destruct (Z.le_gt_cases b b') as [|Hlt]; [done|]. exfalso.
  destruct (Hl ltac:(lia)) as [H1 H2]. destruct (Hu' ltac:(lia)) as [H3 H4].
  assert (0 < 2 ^ 1075) as HP by done. set (P := 2 ^ 1075) in *. clearbody P.
  pose proof (mid_mono b' (b - 1) ltac:(lia)) as Hm.
  assert (n * P * d' <= n' * P * d) by nia.
  assert (mid (b - 1) * d * d' <= n * P * d') by nia. assert (n' * P * d <= mid b' * d' * d) by nia.
  assert (mid (b - 1) <= mid b') by (apply (Z.mul_le_mono_pos_r _ _ (d * d')); [nia|lia]). assert (mid (b - 1) = mid b') as Heq by lia.
  assert (b = b' + 1) as ->.
  { destruct (Z.eq_dec b (b' + 1)) as [|Hne]; [done|]. exfalso.
    pose proof (mid_bounds b' ltac:(lia)). pose proof (mid_bounds (b - 1) ltac:(lia)).
    pose proof (sval_mono (b' + 1) (b - 1) ltac:(lia)). lia. }
  replace (b' + 1 - 1) with b' in * by lia.
  rewrite Z.odd_add in H2. change (Z.odd 1) with true in H2. rewrite xorb_true_r in H2. destruct (Z.odd b').
  - specialize (H4 eq_refl). nia.
  - specialize (H2 eq_refl). nia.
Qed.

Lemma rounds_unique n d b b' : 0 < d -> rounds n d b -> rounds n d b' -> b = b'.
Proof.
  intros Hd H1 H2. pose proof (rounds_mono n d n d b b' Hd Hd ltac:(lia) H1 H2).
  pose proof (rounds_mono n d n d b' b Hd Hd ltac:(lia) H2 H1). lia.
Qed.

(** Comparisons carried from one fraction to another. *)
Lemma cross_le M d1 d n1 n P : 0 < d1 -> 0 < d -> 0 < P -> n1 * d <= n * d1 -> M * d1 <= n1 * P -> M * d <= n * P.
Proof.
  intros Hd1 Hd HP H1 H2. apply (Z.mul_le_mono_pos_r _ _ d1); [done|]. assert (M * d1 * d <= n1 * P * d) by (apply Z.mul_le_mono_nonneg_r; lia).
  assert (n1 * d * P <= n * d1 * P) by (apply Z.mul_le_mono_nonneg_r; lia). lia.
Qed.

Lemma cross_lt M d1 d n1 n P : 0 < d1 -> 0 < d -> 0 < P -> n1 * d <= n * d1 -> M * d1 < n1 * P -> M * d < n * P.
Proof.
  intros Hd1 Hd HP H1 H2. apply (Z.mul_lt_mono_pos_r d1); [done|]. assert (M * d1 * d < n1 * P * d) by (by apply Z.mul_lt_mono_pos_r).
  assert (n1 * d * P <= n * d1 * P) by (apply Z.mul_le_mono_nonneg_r; lia). lia.
Qed.

Lemma cross_ge M d2 d n2 n P : 0 < d2 -> 0 < d -> 0 < P -> n * d2 <= n2 * d -> n2 * P <= M * d2 -> n * P <= M * d.
Proof. intros Hd2 Hd HP H1 H2. pose proof (cross_le (- M) d2 d (- n2) (- n) P Hd2 Hd HP ltac:(lia) ltac:(lia)). lia. Qed.

Lemma cross_gt M d2 d n2 n P : 0 < d2 -> 0 < d -> 0 < P -> n * d2 <= n2 * d -> n2 * P < M * d2 -> n * P < M * d.
Proof. intros Hd2 Hd HP H1 H2. pose proof (cross_lt (- M) d2 d (- n2) (- n) P Hd2 Hd HP ltac:(lia) ltac:(lia)). lia. Qed.

(** What lies between two fractions that round to the same does so too. *)
Lemma rounds_between n1 d1 n2 d2 n d b :
  0 < d1 -> 0 < d2 -> 0 < d -> n1 * d <= n * d1 -> n * d2 <= n2 * d -> rounds n1 d1 b -> rounds n2 d2 b -> rounds n d b.
Proof.
  intros Hd1 Hd2 Hd H1 H2 [Hr Hl _] [_ _ Hu]. assert (0 < 2 ^ 1075) as HP by done. split; [done| |].
  - intros Hb. destruct (Hl Hb) as [L1 L2]. split; [by apply (cross_le _ d1 _ n1)|intros Ho; apply (cross_lt _ d1 _ n1); auto].
  - intros Hb. destruct (Hu Hb) as [L1 L2]. split; [by apply (cross_ge _ d2 _ n2)|intros Ho; apply (cross_gt _ d2 _ n2); auto].
Qed.

(** From the double at or below the fraction. *)
Lemma rounds_from n d b b0 :
  0 < d -> 0 <= b0 < INF -> sval b0 * d <= n * 2 ^ 1074 < sval (b0 + 1) * d ->
  b = (match n * 2 ^ 1075 ?= mid b0 * d with Lt => b0 | Gt => b0 + 1 | Eq => if Z.odd b0 then b0 + 1 else b0 end) ->
  rounds n d b.
Proof.
  intros Hd Hb0 Hin ->. assert (n * 2 ^ 1075 = 2 * (n * 2 ^ 1074)) as EN by (change (2 ^ 1075) with (2 * 2 ^ 1074); ring).
  rewrite EN. set (N := n * 2 ^ 1074) in *. clearbody N. destruct Hin as [Hlo Hhi].
  assert (forall c, 0 < c <= b0 -> mid (c - 1) * d < 2 * N) as Hbelow.
  { clear EN. intros c Hc. pose proof (mid_bounds (c - 1) ltac:(lia)) as Hm. replace (c - 1 + 1) with c in Hm by lia.
    pose proof (sval_mono c b0 ltac:(lia)). nia. }
  assert (forall c, b0 + 1 <= c -> 2 * N < mid c * d) as Habove.
  { clear EN. intros c Hc. pose proof (mid_bounds c ltac:(lia)) as Hm. pose proof (sval_mono (b0 + 1) c ltac:(lia)). nia. }
  assert (Z.odd (b0 + 1) = negb (Z.odd b0)) as Hodd by (rewrite Z.odd_add; apply xorb_true_r).
  assert (0 <= b0 + 1 <= INF /\ 0 <= b0 <= INF) as [R1 R0] by lia.
  destruct (Z.compare_spec (2 * N) (mid b0 * d)) as [He|Hlt|Hgt]; [destruct (Z.odd b0) eqn:Eo| |]; (split; [done| |]); rewrite EN; clear EN;
    rewrite ?Hodd; try (intros Hb; pose proof (Hbelow b0 ltac:(lia)); lia); try (intros _; pose proof (Habove (b0 + 1) ltac:(lia)); lia).
  - intros _. replace (b0 + 1 - 1) with b0 by lia. split; [lia|done].
  - intros _. split; [lia|congruence].
  - intros _. replace (b0 + 1 - 1) with b0 by lia. split; [lia|intros _; lia].
Qed.

(** What is not below 2^1024 rounds to infinity. *)
Lemma rounds_inf n d : 0 < d -> sval INF * d <= n * 2 ^ 1074 -> rounds n d INF.
Proof.
  intros Hd Hn. split; [unfold INF; lia| |lia]. intros _. cut (mid (INF - 1) * d < n * 2 ^ 1075); [intros; lia|].
  pose proof (mid_bounds (INF - 1) ltac:(unfold INF; lia)) as Hmb. replace (INF - 1 + 1) with INF in Hmb by lia.
  change (2 ^ 1075) with (2 * 2 ^ 1074). revert Hn Hmb. generalize (2 ^ 1074), (sval INF), (mid (INF - 1)), (sval (INF - 1)). intros T I M J Hn Hmb. nia.
Qed.

Lemma round_near_rounds n d : 0 <= n -> 0 < d -> rounds n d (round_near n d).
Proof.
  intros Hn Hd. unfold round_near. set (N := n * 2 ^ 1074). set (q := N / d). set (s := Z.max (Z.log2 q - 52) 0).
  assert (0 <= N) as HN by (unfold N; nia).
  assert (0 <= q) as Hq by (apply Z.div_pos; lia).
  pose proof (Z.div_mod N d ltac:(lia)) as Hdm. fold q in Hdm. pose proof (Z.mod_pos_bound N d Hd) as Hmod.
  assert (0 < 2 ^ s) as Hs by (apply Z.pow_pos_nonneg; lia).
  pose proof (Z.div_mod q (2 ^ s) ltac:(lia)) as Hdm2. pose proof (Z.mod_pos_bound q (2 ^ s) Hs) as Hmod2. set (m := q / 2 ^ s) in *.
  assert (0 <= m < 2 ^ 53 /\ (s = 0 \/ 2 ^ 52 <= m)) as [Hm Hm'].
  { destruct (decide (q = 0)) as [Hq0|Hq0].
    { assert (m = 0) as -> by (unfold m; rewrite Hq0; apply Z.div_0_l; lia). split; [lia|left]. unfold s. by rewrite Hq0. }
    pose proof (Z.log2_spec q ltac:(lia)) as Hlog. pose proof (Z.log2_nonneg q).
    split.
    - split; [apply Z.div_pos; lia|]. apply Z.div_lt_upper_bound; [lia|]. rewrite <- Z.pow_add_r by lia.
      apply (Z.lt_le_trans _ (2 ^ Z.succ (Z.log2 q))); [lia|]. apply Z.pow_le_mono_r; lia.
    - destruct (decide (s = 0)); [by left|right]. apply Z.div_le_lower_bound; [lia|]. rewrite <- Z.pow_add_r by lia.
      replace (s + 52) with (Z.log2 q) by lia. lia. }
  assert (0 <= s) as Hs0 by lia.
  assert (sval (s * 2 ^ 52 + m) = m * 2 ^ s) as Hb by (apply sval_at; lia).
  assert (sval (s * 2 ^ 52 + m + 1) = (m + 1) * 2 ^ s) as Hb1 by (rewrite <- Z.add_assoc; apply sval_at; lia).
  assert (sval (s * 2 ^ 52 + m) * d <= N < sval (s * 2 ^ 52 + m + 1) * d) as Hin by (rewrite Hb, Hb1; nia).
  destruct (Z.leb_spec INF (s * 2 ^ 52 + m)) as [Hinf|Hfin].
  - pose proof (sval_mono INF (s * 2 ^ 52 + m) ltac:(unfold INF in *; lia)).
    apply rounds_inf; [done|]. change (sval INF * d <= N). nia.
  - apply (rounds_from _ _ _ (s * 2 ^ 52 + m)); [done|lia|done|done].
Qed.

Lemma round_near_eq n d b : 0 <= n -> 0 < d -> rounds n d b -> round_near n d = b.
Proof. intros Hn Hd Hr. by apply (rounds_unique n d); [| apply round_near_rounds |]. Qed.

(** A double rounds to itself. *)
Lemma rounds_exact n d b : 0 < d -> 0 <= b < INF -> n * 2 ^ 1074 = sval b * d -> rounds n d b.
Proof.
  intros Hd Hb He. pose proof (sval_step b ltac:(lia)). apply (rounds_from _ _ _ b); [done|done|rewrite He; clear He; nia|].
  replace (n * 2 ^ 1075) with (2 * (n * 2 ^ 1074)) by (change (2 ^ 1075) with (2 * 2 ^ 1074); ring). rewrite He. clear He.
  pose proof (mid_bounds b ltac:(lia)). destruct (Z.compare_spec (2 * (sval b * d)) (mid b * d)); nia || done.
Qed.

(** No finite double is nearer. *)
Lemma rounds_nearest n d b c :
  0 < d -> rounds n d b -> b < INF -> 0 <= c < INF ->
  Z.abs (n * 2 ^ 1074 - sval b * d) <= Z.abs (n * 2 ^ 1074 - sval c * d).
Proof.
  intros Hd [Hr Hl Hu] Hb Hc. change (2 ^ 1075) with (2 * 2 ^ 1074) in *.
  replace (n * (2 * 2 ^ 1074)) with (2 * (n * 2 ^ 1074)) in * by lia. set (N := n * 2 ^ 1074) in *.
  destruct (Z.lt_trichotomy c b) as [Hlt|[->|Hgt]]; [|lia|].
  - destruct (Hl ltac:(lia)) as [H _]. unfold mid in H. replace (b - 1 + 1) with b in H by lia.
    pose proof (sval_mono c (b - 1) ltac:(lia)). pose proof (sval_mono c b ltac:(lia)).
    assert (sval c * d <= sval (b - 1) * d) by nia. assert (sval c * d <= sval b * d) by nia. lia.
  - destruct (Hu Hb) as [H _]. unfold mid in H.
    pose proof (sval_mono (b + 1) c ltac:(lia)). pose proof (sval_mono b c ltac:(lia)).
    assert (sval (b + 1) * d <= sval c * d) by nia. assert (sval b * d <= sval c * d) by nia. lia.
Qed.

(** * The operations of C on finite doubles that are not negative *)

Definition double_u64 (w : Z) : Z := round_near w 1.
Definition double_mul (a b : Z) : Z := round_near (sval a * sval b) (2 ^ 2148).
Definition double_div (a b : Z) : Z := round_near (sval a) (sval b).

(** Integers up to 2^53 are doubles. *)
Lemma double_u64_exact w : 0 <= w <= 2 ^ 53 -> sval (double_u64 w) = w * 2 ^ 1074.
Proof.
  intros Hw. unfold double_u64. cut (exists b, 0 <= b < INF /\ sval b = w * 2 ^ 1074).
  { intros (b & Hb & He). rewrite (round_near_eq w 1 b); [done|lia|lia|]. apply rounds_exact; lia. }
  destruct (decide (w = 0)) as [->|Hw0]; [by exists 0|].
  destruct (decide (w = 2 ^ 53)) as [->|Hw53].
  { exists (1075 * 2 ^ 52 + 2 ^ 52). split; [unfold INF; lia|]. rewrite sval_at by lia.
    change 1075 with (1 + 1074) at 1. rewrite Z.pow_add_r by lia. lia. }
  pose proof (Z.log2_spec w ltac:(lia)) as Hlog. pose proof (Z.log2_nonneg w). set (l := Z.log2 w) in *.
  assert (l < 53) by (apply (Z.pow_lt_mono_r_iff 2); lia).
  assert (0 < 2 ^ (52 - l)) by (apply Z.pow_pos_nonneg; lia).
  assert (2 ^ l * 2 ^ (52 - l) = 2 ^ 52) by (rewrite <- Z.pow_add_r by lia; f_equal; lia).
  rewrite Z.pow_succ_r in Hlog by lia.
  exists ((1022 + l) * 2 ^ 52 + w * 2 ^ (52 - l)). split; [unfold INF; nia|].
  rewrite sval_at by (try right; nia). rewrite <- Z.mul_assoc, <- Z.pow_add_r by lia. do 2 f_equal. lia.
Qed.
