(* ===== verification/Atof.v ===== *)
(** Decimal text to a double, [src/stdlib/runtime_core.c] section 2c.

    A text is the list of its bytes, a double its bit pattern, a [nurl_big] the
    list of its [n] words, least significant first.  Words are wrapped where
    the C wraps them.  [None] is a loop that does not end within its fuel,
    which the theorems exclude. *)

From Stdlib Require Import String Ascii.
From S2P Require Import Prelude Dtoa Float Pow5Table.

Open Scope word_scope.

Definition NURL_ATOF_MAXSIG : nat := 800.
Definition NURL_BIG_W : nat := 232.

(** * Path B: one 128-bit product *)

(** [nurl__mul_wide] with a 128-bit type, as three words. *)
Definition nurl__mul_wide (w : Z) (mul : Z * Z) : Z * Z * Z :=
  let a := wrap 128 (w * snd mul) in
  let b := wrap 128 (w * fst mul) in
  let ah := wrap64 (Z.shiftr a 64) in
  let al := wrap64 a in
  let bh := wrap64 (Z.shiftr b 64) in
  let bl := wrap64 b in
  let m := al +w bh in
  (ah +w (if m <? al then 1 else 0), m, bl).

(** The product of two words by their halves, high word first. *)
Definition mul_halves (w c : Z) : Z * Z :=
  let a0 := Z.land w 4294967295 in
  let a1 := Z.shiftr w 32 in
  let c0 := Z.land c 4294967295 in
  let c1 := Z.shiftr c 32 in
  let p00 := a0 *w c0 in let p01 := a0 *w c1 in let p10 := a1 *w c0 in let p11 := a1 *w c1 in
  let t := Z.shiftr p00 32 + Z.land p01 4294967295 +w Z.land p10 4294967295 in
  (wrap64 (p11 + Z.shiftr p01 32 + Z.shiftr p10 32 + Z.shiftr t 32),
   Z.lor (wrap64 (Z.shiftl t 32)) (Z.land p00 4294967295)).

(** [nurl__mul_wide] without one. *)
Definition mul_wide_portable (w : Z) (mul : Z * Z) : Z * Z * Z :=
  let '(ah, al) := mul_halves w (snd mul) in
  let '(bh, bl) := mul_halves w (fst mul) in
  let m := al +w bh in
  (ah +w (if m <? al then 1 else 0), m, bl).

(** [while (!(x >> 63)) { x <<= 1; n++; }] *)
Fixpoint clz_loop (fuel : nat) (x n : Z) : option Z :=
  match fuel with
  | O => None
  | S f => if negb (Z.shiftr x 63 =? 0) then Some n else clz_loop f (wrap64 (Z.shiftl x 1)) (n + 1)
  end.

Definition nurl__clz64 (x : Z) : option Z := clz_loop 64 x 0.

Definition nz (b : bool) : Z := if b then 1 else 0.

(** The significand cut at bit [sh], the bit below and whether others are set. *)
Definition pack_cut (vhi vlo sh : Z) : Z * Z * Z :=
  if sh <? 64 then
    (Z.lor (wrap64 (Z.shiftl vhi (64 - sh))) (Z.shiftr vlo sh),
     Z.land (Z.shiftr vlo (sh - 1)) 1,
     if 2 <=? sh then nz (negb (Z.land vlo (wrap64 (Z.shiftl 1 (sh - 1)) - 1) =? 0)) else 0)
  else if sh <? 128 then
    let s2 := sh - 64 in
    let rest := nz (negb (vlo =? 0)) in
    (if negb (s2 =? 0) then Z.shiftr vhi s2 else vhi,
     if negb (s2 =? 0) then Z.land (Z.shiftr vhi (s2 - 1)) 1 else Z.shiftr vlo 63,
     if 2 <=? s2 then Z.lor rest (nz (negb (Z.land vhi (wrap64 (Z.shiftl 1 (s2 - 1)) - 1) =? 0))) else rest)
  else
    (0, Z.shiftr vhi 63,
     Z.lor (nz (negb (Z.land vhi 9223372036854775807 =? 0))) (nz (negb (vlo =? 0)))).

Definition nurl__pack128 (vhi vlo e2 : Z) : Z :=
  let ex := 127 + e2 in
  if 1024 <? ex then INF else
  let sh := 127 - 52 + (if ex <? -1022 then -1022 - ex else 0) in
  if 128 <? sh then 0 else
  let '(m, half, rest) := pack_cut vhi vlo sh in
  let m := if negb (half =? 0) && (negb (rest =? 0) || negb (Z.land m 1 =? 0)) then m +w 1 else m in
  if ex <? -1022 then m else
  let '(m, ex) := if 2 ^ 53 <=? m then (Z.shiftr m 1, ex + 1) else (m, ex) in
  if 1023 <? ex then INF else
  Z.lor (wrap64 (Z.shiftl (ex + 1023) 52)) (Z.land m (2 ^ 52 - 1)).

(** The table's entry and the binary exponent of the product with it. *)
Definition pow10_entry (q lz : Z) : option ((Z * Z) * Z) :=
  if 0 <=? q then
    if NURL_POW5_N <=? q then None
    else Some (NURL_POW5 !!! Z.to_nat q, nurl__pow5_bits q - 125 + q - lz)
  else if NURL_POW5_INV_N <=? - q then None
  else Some (NURL_POW5_INV !!! Z.to_nat (- q), - (124 + nurl__pow5_bits (- q)) + q - lz).

(** The product with the entry [T], its top 128 bits, and the two ends of what
    they can stand for: the pattern and [certain]. *)
Definition approx_window (w2 : Z) (T : Z * Z) (e2 : Z) : option (Z * bool) :=
  let '(hi, mid, lo) := nurl__mul_wide w2 T in
  c ← nurl__clz64 hi;
  let k := 64 - c in
  let vhi := Z.lor (wrap64 (Z.shiftl hi (64 - k))) (Z.shiftr mid k) in
  let vlo := Z.lor (wrap64 (Z.shiftl mid (64 - k))) (Z.shiftr lo k) in
  let delta := wrap64 (Z.shiftl 1 (64 - k)) + 1 in
  let ulo := vlo +w delta in
  let uhi := if ulo <? vlo then vhi +w 1 else vhi in
  let dlo := vlo -w delta in
  let dhi := if vlo <? dlo then vhi -w 1 else vhi in
  let up := nurl__pack128 uhi ulo (e2 + k) in
  let down := nurl__pack128 dhi dlo (e2 + k) in
  Some (up, up =? down).

Definition nurl__approx_pow10 (w q : Z) : option (Z * bool) :=
  lz ← nurl__clz64 w;
  match pow10_entry q lz with
  | None => Some (0, false)
  | Some (T, e2) => approx_window (wrap64 (Z.shiftl w lz)) T e2
  end.

(** * Path C: the decimal against a candidate, exactly *)

Definition nurl__big_u64 (v : Z) : list Z := nl_bn_set v.

(** [while (carry && b->n < NURL_BIG_W)]: a 64-bit carry is gone after two
    rounds, and a carry that finds no room is dropped. *)
Fixpoint big_carry (fuel : nat) (b : list Z) (carry : Z) : list Z :=
  match fuel with
  | O => b
  | S f =>
      if (carry =? 0) || (NURL_BIG_W <=? length b)%nat then b
      else big_carry f (b ++ [wrap32 carry]) (Z.shiftr carry 32)
  end.

Definition nurl__big_mul_add (b : list Z) (m add : Z) : list Z :=
  let '(r, carry) := mul_limbs b m add in big_carry 3 r carry.

(** [p5], the powers of five up to 5^13. *)
Definition p5_big : list Z :=
  [1; 5; 25; 125; 625; 3125; 15625; 78125; 390625; 1953125; 9765625; 48828125; 244140625; 1220703125].

(** [while (k >= 13)], [j] rounds. *)
Fixpoint mul_13s (j : nat) (b : list Z) : list Z :=
  match j with
  | O => b
  | S j' => mul_13s j' (nurl__big_mul_add b (p5_big !!! 13%nat) 0)
  end.

Definition nurl__big_mul_pow5 (b : list Z) (k : Z) : list Z :=
  let b := mul_13s (Z.to_nat (k / 13)) b in
  let k := k mod 13 in
  if 0 <? k then nurl__big_mul_add b (p5_big !!! Z.to_nat k) 0 else b.

Definition nurl__big_shl (b : list Z) (bits : Z) : list Z :=
  let words := Z.to_nat (Z.shiftr bits 5) in
  let sh := Z.land bits 31 in
  match b with
  | [] => []
  | _ :: _ =>
      let b1 :=
        if negb (sh =? 0) then
          let '(r, carry) := shl_limbs b sh 0 in
          if negb (carry =? 0) && (length r <? NURL_BIG_W)%nat then r ++ [carry] else r
        else b in
      let words := if (NURL_BIG_W <? length b1 + words)%nat then (NURL_BIG_W - length b1)%nat else words in
      replicate words 0 ++ b1
  end.

(** From the top word down; the lists are reversed. *)
Fixpoint cmp_tops (a b : list Z) : Z :=
  match a, b with
  | x :: a', y :: b' => if negb (x =? y) then (if x <? y then -1 else 1) else cmp_tops a' b'
  | _, _ => 0
  end.

Definition nurl__big_cmp (a b : list Z) : Z :=
  if negb (length a =? length b)%nat then (if (length a <? length b)%nat then -1 else 1)
  else cmp_tops (rev a) (rev b).

(** The two numbers that are compared, [SIG * 10^E] and [M * 2^F] over a common
    denominator and without the power of two both have. *)
Definition cmp_sides (sig : list Z) (E M F : Z) : list Z * list Z :=
  let sE := if E <? 0 then - E else 0 in
  let lsh := if 0 <? E then E else 0 in
  let rsh := F + sE in
  let t := if lsh <? rsh then lsh else rsh in
  let L := foldl (fun b d => nurl__big_mul_add b 10 d) (nurl__big_u64 0) sig in
  let L := if 0 <? lsh then nurl__big_mul_pow5 L lsh else L in
  let R := nurl__big_u64 M in
  let R := if 0 <? sE then nurl__big_mul_pow5 R sE else R in
  let L := if t <? lsh then nurl__big_shl L (lsh - t) else L in
  let R := if t <? rsh then nurl__big_shl R (rsh - t) else R in
  (L, R).

(** The sign of [SIG * 10^E - M * 2^F]. *)
Definition nurl__cmp_decimal (sig : list Z) (truncated : bool) (E M F : Z) : Z :=
  let '(L, R) := cmp_sides sig E M F in
  let c := nurl__big_cmp L R in
  if (c =? 0) && truncated then 1 else c.

Definition nurl__unpack (bits : Z) : Z * Z :=
  let be := Z.land (Z.shiftr bits 52) 2047 in
  let mant := Z.land bits (2 ^ 52 - 1) in
  if be =? 0 then (mant, -1074) else (Z.lor mant (2 ^ 52), be - 1075).

(** [nurl__cmp_decimal] against the double with the pattern [bits]. *)
Definition cmp_at (sig : list Z) (truncated : bool) (E bits : Z) : Z :=
  let '(M, F) := nurl__unpack bits in nurl__cmp_decimal sig truncated E M F.

(** [lo] and [hi] before the search. *)
Definition seed_bracket (sig : list Z) (truncated : bool) (E seed : Z) : Z * Z :=
  if negb (seed =? 0) then
    let a := if 4 <? seed then seed - 4 else 0 in
    let b := if seed + 4 <? INF then seed + 4 else INF in
    if ((a =? 0) || (0 <=? cmp_at sig truncated E a)) && (cmp_at sig truncated E b <? 0) then (a, b) else (0, INF)
  else (0, INF).

(** [while (hi - lo > 1)] *)
Fixpoint bisect (fuel : nat) (sig : list Z) (truncated : bool) (E lo hi : Z) : option Z :=
  match fuel with
  | O => None
  | S f =>
      if 1 <? hi - lo then
        let mid := lo + (hi - lo) / 2 in
        if 0 <=? cmp_at sig truncated E mid then bisect f sig truncated E mid hi else bisect f sig truncated E lo mid
      else Some lo
  end.

Definition nurl__parse_exact (sig : list Z) (truncated : bool) (E seed : Z) : option Z :=
  let '(lo, hi) := seed_bracket sig truncated E seed in
  lo ← bisect 64 sig truncated E lo hi;
  let '(M, F) := nurl__unpack lo in
  let c := nurl__cmp_decimal sig truncated E (2 * M + 1) (F - 1) in
  Some (if 0 <? c then lo + 1 else if c <? 0 then lo else if negb (Z.land M 1 =? 0) then lo + 1 else lo).

(** * The text *)

Definition nurl__inf : Z := INF.
Definition nurl__qnan : Z := 2047 * 2 ^ 52 + 2 ^ 51.

(** [neg ? -out : out] *)
Definition with_sign (neg : bool) (b : Z) : Z := if neg then b + 2 ^ 63 else b.

Definition lower (a : Z) : Z := if (65 <=? a) && (a <=? 90) then a + 32 else a.

(** Is [word] at the start of [p], ignoring case? *)
Fixpoint nurl__ci_prefix (p word : list Z) : bool :=
  match word, p with
  | [], _ => true
  | _ :: _, [] => false
  | c :: word', a :: p' => (lower a =? c) && nurl__ci_prefix p' word'
  end.

Definition is_digit (c : Z) : bool := (48 <=? c) && (c <=? 57).

Record scan := Scan {
  sig : list Z; sc_E : Z; sawdot : bool; sawdigit : bool; nonzero : bool; truncated : bool }.

Definition scan_start : scan := Scan [] 0 false false false false.

(** One byte of the loop over the digits; [None] is [break]. *)
Definition scan_byte (c : Z) (s : scan) : option scan :=
  let 'Scan sg E dot sd nzr tr := s in
  if c =? 46 then (if dot then None else Some (Scan sg E true sd nzr tr)) else
  if negb (is_digit c) then None else
  let d := c - 48 in
  let nzr := nzr || negb (d =? 0) in
  let E' := if dot then E - 1 else E in
  if (length sg =? 0)%nat && (d =? 0) then Some (Scan sg E' dot true nzr tr) else
  if (length sg <? NURL_ATOF_MAXSIG)%nat then Some (Scan (sg ++ [d]) E' dot true nzr tr)
  else Some (Scan sg (if dot then E else E + 1) dot true nzr (tr || negb (d =? 0))).

(** The loop from byte [i] on: the state, where it stopped and what is left. *)
Fixpoint scan_digits (p : list Z) (i : Z) (s : scan) : scan * Z * list Z :=
  match p with
  | [] => (s, i, [])
  | c :: p' => match scan_byte c s with None => (s, i, p) | Some s' => scan_digits p' (i + 1) s' end
  end.

(** The digits of the exponent from byte [j] on: [ev], [any] and where they end. *)
Fixpoint scan_exponent (p : list Z) (j ev : Z) (any : bool) : Z * bool * Z :=
  match p with
  | [] => (ev, any, j)
  | c :: p' =>
      if negb (is_digit c) then (ev, any, j)
      else scan_exponent p' (j + 1) (if ev <? 1000000 then ev * 10 + (c - 48) else ev) true
  end.

(** The exponent part after the digits: what it adds to [E], and [endpos]. *)
Definition exponent_part (p : list Z) (i : Z) (sd : bool) : Z * Z :=
  let endpos := if sd then i else 0 in
  match p with
  | c :: p' =>
      if sd && ((c =? 101) || (c =? 69)) then
        let '(eneg, p', j) :=
          match p' with
          | c' :: p'' => if (c' =? 45) || (c' =? 43) then (c' =? 45, p'', i + 2) else (false, p', i + 1)
          | [] => (false, p', i + 1)
          end in
        let '(ev, any, j) := scan_exponent p' j 0 false in
        if any then (if eneg then - ev else ev, j) else (0, endpos)
      else (0, endpos)
  | [] => (0, endpos)
  end.

(** [while (nsig > 1 && sig[nsig - 1] == 0) { nsig--; E++; }], on the digits
    from the last to the first. *)
Fixpoint strip_zeros (r : list Z) (E : Z) : list Z * Z :=
  match r with
  | d :: (_ :: _) as r' => if d =? 0 then strip_zeros r' (E + 1) else (r, E)
  | _ => (r, E)
  end.

(** The value of the first digits, at most nineteen of them. *)
Definition first_digits (sg : list Z) : Z := foldl (fun w d => w *w 10 +w d) 0 (take 19 sg).

(** [p10], the powers of ten that are doubles. *)
Definition p10 (k : Z) : Z := double_u64 (10 ^ k).

(** The three paths, for a magnitude in range. *)
Definition atof_paths (sg : list Z) (tr : bool) (E : Z) : option Z :=
  let nsig := Z.of_nat (length sg) in
  let w := first_digits sg in
  let nw := Z.of_nat (length (take 19 sg)) in
  if (nsig <=? 19) && negb tr then
    if (w <=? 2 ^ 53) && (-22 <=? E) && (E <=? 22) then
      Some (if 0 <=? E then double_mul (double_u64 w) (p10 E) else double_div (double_u64 w) (p10 (- E)))
    else
      '(seed, certain) ← nurl__approx_pow10 w E;
      if certain : bool then Some seed else nurl__parse_exact sg tr E seed
  else if (-400 <? E + nsig - 19) && (E + nsig - 19 <? 400) then
    '(seed, _) ← nurl__approx_pow10 w (E + nsig - nw);
    nurl__parse_exact sg tr E seed
  else nurl__parse_exact sg tr E 0.

(** From the digits to the magnitude's pattern. *)
Definition atof_value (sg : list Z) (tr : bool) (E : Z) : option Z :=
  let '(r, E) := strip_zeros (rev sg) E in
  let sg := rev r in
  let nsig := Z.of_nat (length sg) in
  if 320 <? E + nsig then Some nurl__inf else
  if E + nsig <? -350 then Some 0 else
  atof_paths sg tr E.

(** What the parser answers: the double, [consumed] and [range]. *)
Record number := Number { value : Z; consumed : Z; range : bool }.

Definition letters (s : list Z) (i : Z) (neg : bool) : option number :=
  if nurl__ci_prefix s [105; 110; 102; 105; 110; 105; 116; 121] then Some (Number (with_sign neg nurl__inf) (i + 8) false)
  else if nurl__ci_prefix s [105; 110; 102] then Some (Number (with_sign neg nurl__inf) (i + 3) false)
  else if nurl__ci_prefix s [110; 97; 110] then Some (Number (with_sign neg nurl__qnan) (i + 3) false)
  else None.

(** The digits and the exponent, from byte [i] on. *)
Definition decimal (s : list Z) (i : Z) (neg : bool) : option number :=
  let '(st, j, rest) := scan_digits s i scan_start in
  let '(ev, endpos) := exponent_part rest j (sawdigit st) in
  out ← (if (length (sig st) =? 0)%nat then Some 0 else atof_value (sig st) (truncated st) (sc_E st + ev));
  if endpos =? 0 then Some (Number 0 endpos false)
  else Some (Number (with_sign neg out) endpos (nonzero st && ((INF <=? out) || (out <? 2 ^ 52)))).

Definition nurl__atof_core (p : list Z) : option number :=
  match p with
  | [] => Some (Number 0 0 false)
  | c :: p' =>
      let '(neg, i, s) := if c =? 45 then (true, 1, p') else if c =? 43 then (false, 1, p') else (false, 0, p) in
      let c0 := match s with c0 :: _ => c0 | [] => 0 end in
      if negb (is_digit c0 || (c0 =? 46)) then
        match letters s i neg with Some r => Some r | None => decimal s i neg end
      else decimal s i neg
  end.

Definition nurl_fast_atof (p : list Z) : option Z := r ← nurl__atof_core p; Some (value r).

(** [out[0]] and [out[1]] with the value. *)
Definition nurl_fast_atof_ex (p : list Z) : option (Z * Z * Z) :=
  r ← nurl__atof_core p; Some (value r, consumed r, nz (range r)).

Definition bytes_of (s : String.string) : list Z := map (fun a => Z.of_nat (Ascii.nat_of_ascii a)) (String.list_ascii_of_string s).
