(* ===== verification/AtofBig.v ===== *)
(** The words of path C, [src/stdlib/runtime_core.c] section 2c: a [nurl_big]
    without a zero word on top, the operations on it while the number stays
    below the array's 7424 bits, and the comparison of a decimal with a
    scaled integer. *)

From S2P Require Import Prelude Dtoa Float Pow5Table Atof.

Record big (b : list Z) (v : Z) : Prop := {
  big_limbs : limbs_ok b;
  big_top : b = [] \/ limb ^ (Z.of_nat (length b) - 1) <= v;
  big_room : (length b <= NURL_BIG_W)%nat;
  big_val : bval b = v }.

Lemma big_nonneg b v : big b v -> 0 <= v.
Proof. intros [Hl _ _ <-]. by apply bval_bound. Qed.

(** A number that fits in [BIG_W] words. *)
Definition room : Z := 2 ^ 7424.

Lemma limb_room : limb ^ Z.of_nat NURL_BIG_W = room.
Proof. reflexivity. Qed.

Lemma limb_mono a b : 0 <= a <= b -> limb ^ a <= limb ^ b.
Proof. intros H. apply Z.pow_le_mono_r; [reflexivity|lia]. Qed.

Lemma limb_pos n : 0 <= n -> 0 < limb ^ n.
Proof. intros H. apply Z.pow_pos_nonneg; [reflexivity|lia]. Qed.

(** A word more for a carry, if there is one. *)
Lemma big_push r c v :
  limbs_ok r -> (length r <= NURL_BIG_W)%nat -> 0 <= c < 2 ^ 32 ->
  bval r + limb ^ Z.of_nat (length r) * c = v -> v < room ->
  (c = 0 -> r = [] \/ limb ^ (Z.of_nat (length r) - 1) <= v) ->
  big (if negb (c =? 0) && (length r <? NURL_BIG_W)%nat then r ++ [c] else r) v.
Proof.
  intros Hr Hlen Hc Hv Hroom Htop. pose proof (bval_bound r Hr) as Hb. pose proof (limb_pos (Z.of_nat (length r)) ltac:(lia)) as Hp.
  destruct (Z.eqb_spec c 0) as [->|Hc0]; simpl.
  - split; [done|by apply Htop|done|lia].
  - assert (length r < NURL_BIG_W)%nat as Hlt.
    { destruct (decide (length r = NURL_BIG_W)) as [He|]; [|lia]. rewrite He, limb_room in *. nia. }
    apply Nat.ltb_lt in Hlt as Hlt'. rewrite Hlt'. simpl. split.
    + apply Forall_app. split; [done|]. constructor; [unfold limb; lia|constructor].
    + right. rewrite length_app. simpl. replace (Z.of_nat (length r + 1) - 1) with (Z.of_nat (length r)) by lia. nia.
    + rewrite length_app. simpl. lia.
    + rewrite bval_app. simpl. lia.
Qed.

Lemma big_u64 v : 0 <= v < 2 ^ 64 -> big (nurl__big_u64 v) v.
Proof.
  intros Hv. destruct (bn_set_spec v Hv) as (H1 & H2 & H3). split; [done| |unfold nurl__big_u64, NURL_BIG_W; lia|done].
  unfold nurl__big_u64, nl_bn_set. rewrite Z.shiftr_div_pow2 by lia. rewrite (wrap_small 32 (v / 2 ^ 32)) by zdiv. unfold limb.
  destruct (Z.eqb_spec (v / 2 ^ 32) 0) as [He|He]; simpl.
  - destruct (Z.eqb_spec (wrap32 v) 0) as [He2|He2]; simpl; [by left|right].
    unfold wrap in He2. pose proof (Z.mod_pos_bound v (2 ^ 32)). zdiv.
  - right. change ((2 ^ 32) ^ (Z.of_nat 2 - 1)) with (2 ^ 32). zdiv.
Qed.

Lemma big_mul_add b v m add :
  big b v -> 0 < m < 2 ^ 32 -> 0 <= add < 2 ^ 32 -> v * m + add < room -> big (nurl__big_mul_add b m add) (v * m + add).
Proof.
  intros Hb Hm Hadd Hroom. pose proof (big_nonneg b v Hb) as Hv. destruct Hb as [Hl Ht Hlen Hval]. unfold nurl__big_mul_add.
  pose proof (mul_limbs_spec b m add Hl ltac:(lia) Hadd) as Hs. destruct (mul_limbs b m add) as [r c].
  destruct Hs as (S1 & S2 & S3 & S4). rewrite <- S2 in S4.
  assert (big_carry 3 r c = (if negb (c =? 0) && (length r <? NURL_BIG_W)%nat then r ++ [c] else r)) as ->.
  { cbn [big_carry]. rewrite wrap_small by lia. rewrite (Z.shiftr_div_pow2 c) by lia. rewrite (Z.div_small c) by lia.
    rewrite Nat.leb_antisym. destruct (c =? 0), (length r <? NURL_BIG_W)%nat; reflexivity. }
  apply big_push; [done|by rewrite S2|lia|by rewrite <- Hval|done|]. intros ->.
  destruct Ht as [->|Ht]; [left; by destruct r|right]. rewrite S2. nia.
Qed.

Lemma p5_entry k : 0 < k <= 13 -> p5_big !!! Z.to_nat k = 5 ^ k /\ 0 < 5 ^ k < 2 ^ 32.
Proof.
  intros Hk. split.
  - assert (k = 1 \/ k = 2 \/ k = 3 \/ k = 4 \/ k = 5 \/ k = 6 \/ k = 7 \/ k = 8 \/ k = 9 \/ k = 10 \/ k = 11 \/ k = 12 \/ k = 13) as Hc by lia.
    repeat (destruct Hc as [->|Hc]; [reflexivity|]). by subst.
  - split; [apply Z.pow_pos_nonneg; lia|]. apply (Z.le_lt_trans _ (5 ^ 13)); [apply Z.pow_le_mono_r; lia|lia].
Qed.

Lemma big_mul_13s j : forall b v, big b v -> v * 5 ^ (13 * Z.of_nat j) < room -> big (mul_13s j b) (v * 5 ^ (13 * Z.of_nat j)).
Proof.
  induction j as [|j IH]; intros b v Hb Hroom.
  - simpl. by rewrite Z.mul_1_r.
  - pose proof (big_nonneg b v Hb). replace (13 * Z.of_nat (S j)) with (13 + 13 * Z.of_nat j) in * by lia.
    rewrite Z.pow_add_r in * by lia. rewrite Z.mul_assoc in *. cbn [mul_13s].
    assert (0 < 5 ^ (13 * Z.of_nat j)) by (apply Z.pow_pos_nonneg; lia).
    apply IH; [|done]. change (p5_big !!! 13%nat) with (5 ^ 13).
    replace (v * 5 ^ 13) with (v * 5 ^ 13 + 0) by lia. apply big_mul_add; [done|lia|lia|nia].
Qed.

Lemma big_mul_pow5 b v k : big b v -> 0 <= k -> v * 5 ^ k < room -> big (nurl__big_mul_pow5 b k) (v * 5 ^ k).
Proof.
  intros Hb Hk Hroom. unfold nurl__big_mul_pow5. pose proof (big_nonneg b v Hb).
  pose proof (Z.div_mod k 13 ltac:(lia)) as Hdm. pose proof (Z.mod_pos_bound k 13 ltac:(lia)) as Hmod.
  pose proof (Z.div_pos k 13 Hk ltac:(lia)).
  assert (5 ^ k = 5 ^ (13 * Z.of_nat (Z.to_nat (k / 13))) * 5 ^ (k mod 13)) as Hp by (rewrite <- Z.pow_add_r by lia; f_equal; lia).
  assert (0 < 5 ^ (13 * Z.of_nat (Z.to_nat (k / 13)))) by (apply Z.pow_pos_nonneg; lia).
  assert (0 < 5 ^ (k mod 13)) by (apply Z.pow_pos_nonneg; lia).
  rewrite Hp, Z.mul_assoc in Hroom |- *.
  pose proof (big_mul_13s (Z.to_nat (k / 13)) b v Hb ltac:(nia)) as Hj.
  destruct (Z.ltb_spec 0 (k mod 13)) as [Hr|Hr].
  - destruct (p5_entry (k mod 13) ltac:(lia)) as [-> Hp5].
    rewrite <- (Z.add_0_r (_ * 5 ^ (k mod 13))). apply big_mul_add; [done|done|lia|lia].
  - replace (k mod 13) with 0 by lia. by rewrite Z.mul_1_r.
Qed.

(** Whole words below. *)
Lemma big_words b v k : big b v -> v <> 0 -> v * 2 ^ (32 * Z.of_nat k) < room ->
  big (replicate (if (NURL_BIG_W <? length b + k)%nat then (NURL_BIG_W - length b)%nat else k) 0 ++ b) (v * 2 ^ (32 * Z.of_nat k)).
Proof.
  intros [Hl Ht Hlen Hval] Hv Hroom. pose proof (bval_bound b Hl) as Hb. rewrite <- limb_pow in *.
  pose proof (limb_pos (Z.of_nat k) ltac:(lia)) as Hp.
  destruct Ht as [->|Ht]; [by simpl in Hval|].
  assert (0 < length b)%nat as Hpos by (destruct b; [by simpl in Hval|simpl; lia]).
  assert (limb ^ (Z.of_nat (length b + k) - 1) <= v * limb ^ Z.of_nat k) as Hle.
  { replace (Z.of_nat (length b + k) - 1) with (Z.of_nat (length b) - 1 + Z.of_nat k) by lia. rewrite Z.pow_add_r by lia. nia. }
  assert (length b + k <= NURL_BIG_W)%nat as Hfit.
  { destruct (Nat.le_gt_cases (length b + k) NURL_BIG_W) as [|Hgt]; [done|]. exfalso.
    pose proof (limb_mono (Z.of_nat NURL_BIG_W) (Z.of_nat (length b + k) - 1) ltac:(lia)) as Hm. rewrite limb_room in Hm. lia. }
  destruct (Nat.ltb_spec NURL_BIG_W (length b + k)); [lia|]. split.
  - apply Forall_app. split; [|done]. apply Forall_replicate. unfold limb. lia.
  - right. rewrite length_app, length_replicate. by rewrite Nat.add_comm.
  - rewrite length_app, length_replicate. lia.
  - rewrite bval_app, bval_zeros, length_replicate. lia.
Qed.

Lemma big_shl b v bits : big b v -> 0 <= bits -> v * 2 ^ bits < room -> big (nurl__big_shl b bits) (v * 2 ^ bits).
Proof.
  intros Hb Hbits Hroom. pose proof (big_nonneg b v Hb) as Hv. unfold nurl__big_shl.
  destruct b as [|w0 b0] eqn:Eb; [destruct Hb as [_ _ _ <-]; split; [constructor|by left|simpl; lia|done]|]. rewrite <- Eb in *.
  assert (v <> 0) as Hv0.
  { destruct Hb as [_ Ht _ _]. destruct Ht as [->|Ht]; [done|]. subst b. pose proof (limb_pos (Z.of_nat (length (w0 :: b0)) - 1) ltac:(simpl; lia)). lia. }
  change 31 with (Z.ones 5). rewrite Z.land_ones, Z.shiftr_div_pow2 by lia. change (2 ^ 5) with 32.
  pose proof (Z.mod_pos_bound bits 32 ltac:(lia)) as Hmod. pose proof (Z.div_pos bits 32 Hbits ltac:(lia)) as Hdiv.
  assert (2 ^ bits = 2 ^ (bits mod 32) * 2 ^ (32 * Z.of_nat (Z.to_nat (bits / 32)))) as Hp.
  { rewrite <- Z.pow_add_r by lia. f_equal. rewrite Z2Nat.id by lia. pose proof (Z.div_mod bits 32). lia. }
  rewrite Hp, Z.mul_assoc in Hroom |- *. set (sh := bits mod 32) in *. set (words := Z.to_nat (bits / 32)) in *.
  assert (0 < 2 ^ (32 * Z.of_nat words)) by (apply Z.pow_pos_nonneg; lia). assert (0 < 2 ^ sh) by (apply Z.pow_pos_nonneg; lia).
  apply big_words; [|nia|done]. destruct (Z.eqb_spec sh 0) as [->|Hsh]; simpl negb; cbv iota; [by rewrite Z.mul_1_r|].
  destruct Hb as [Hl Ht Hlen Hval]. pose proof (shl_limbs_spec b sh 0 Hl ltac:(lia) ltac:(lia)) as Hs. destruct (shl_limbs b sh 0) as [r c].
  destruct Hs as (S1 & S2 & S3 & S4). rewrite <- S2, Z.add_0_r, Hval in S4.
  assert (2 ^ sh <= 2 ^ 32) by (apply Z.pow_le_mono_r; lia).
  apply big_push; [done|by rewrite S2|lia|done|nia|]. intros _. destruct Ht as [->|Ht]; [done|right]. rewrite S2. nia.
Qed.

Lemma cmp_tops_spec ra : forall rb,
  length ra = length rb -> limbs_ok ra -> limbs_ok rb -> cmp_tops ra rb = Z.sgn (bval (rev ra) - bval (rev rb)).
Proof.
  induction ra as [|x ra IH]; intros [|y rb] Hlen Ha Hb; try done.
  apply Forall_cons in Ha as [Hx Ha]. apply Forall_cons in Hb as [Hy Hb]. injection Hlen as Hlen. cbn [cmp_tops rev].
  rewrite !bval_app, !length_rev, Hlen. cbn [bval].
  pose proof (bval_bound (rev ra) ltac:(by apply Forall_rev)) as B1. pose proof (bval_bound (rev rb) ltac:(by apply Forall_rev)) as B2.
  rewrite length_rev in B1, B2. rewrite Hlen in B1. set (p := limb ^ Z.of_nat (length rb)) in *.
  destruct (Z.eqb_spec x y) as [->|Hne]; simpl negb; cbv iota.
  - rewrite IH by done. f_equal. lia.
  - symmetry. destruct (Z.ltb_spec x y); [apply Z.sgn_neg|apply Z.sgn_pos]; nia.
Qed.

Lemma big_cmp_spec a x b y : big a x -> big b y -> nurl__big_cmp a b = Z.sgn (x - y).
Proof.
  assert (forall a x b y, big a x -> big b y -> (length a < length b)%nat -> x < y) as Hlt.
  { intros a' x' b' y' [Ha _ _ Hx] [_ Hb _ _] Hl. pose proof (bval_bound a' Ha) as B. destruct Hb as [->|Hb]; [simpl in Hl; lia|].
    pose proof (limb_mono (Z.of_nat (length a')) (Z.of_nat (length b') - 1) ltac:(lia)). lia. }
  intros Ha Hb. unfold nurl__big_cmp. destruct (Nat.eqb_spec (length a) (length b)) as [Hl|Hl]; simpl negb; cbv iota.
  - destruct Ha as [Ha _ _ <-], Hb as [Hb _ _ <-].
    rewrite cmp_tops_spec, !rev_involutive; [done|by rewrite !length_rev|by apply Forall_rev|by apply Forall_rev].
  - symmetry. destruct (Nat.ltb_spec (length a) (length b)) as [H|H]; [apply Z.sgn_neg|apply Z.sgn_pos].
    + pose proof (Hlt a x b y Ha Hb H). lia.
    + pose proof (Hlt b y a x Hb Ha ltac:(lia)). lia.
Qed.

(** * The decimal against a candidate *)

Definition digits_ok (l : list Z) : Prop := Forall (fun d => 0 <= d <= 9) l.

(** The number of a list of digits, most significant first. *)
Definition digits_val (l : list Z) : Z := foldl (fun a d => a * 10 + d) 0 l.

Lemma digits_val_snoc l d : digits_val (l ++ [d]) = digits_val l * 10 + d.
Proof. unfold digits_val. by rewrite foldl_app. Qed.

Lemma digits_val_bound l : digits_ok l -> 0 <= digits_val l < 10 ^ Z.of_nat (length l).
Proof.
  induction l as [|d l IH] using rev_ind; intros H; [by vm_compute|].
  apply Forall_app in H as [H1 H2]. apply Forall_cons in H2 as [H2 _]. specialize (IH H1).
  rewrite digits_val_snoc, length_app, Nat2Z.inj_add. simpl (Z.of_nat (length [d])). rewrite Z.pow_add_r by lia. lia.
Qed.

Lemma pow10_room a : 0 <= a <= 800 -> 10 ^ a < 2 ^ 2660.
Proof. intros H. apply (Z.le_lt_trans _ (10 ^ 800)); [apply Z.pow_le_mono_r; lia|]. by apply Z.ltb_lt; vm_compute. Qed.

Lemma big_digits l :
  digits_ok l -> (length l <= 800)%nat ->
  big (foldl (fun b d => nurl__big_mul_add b 10 d) (nurl__big_u64 0) l) (digits_val l).
Proof.
  induction l as [|d l IH] using rev_ind; intros H Hl; [apply (big_u64 0); lia|].
  rewrite length_app in Hl. simpl in Hl. pose proof (digits_val_bound _ H) as Hb.
  apply Forall_app in H as [H1 H2]. apply Forall_cons in H2 as [H2 _].
  rewrite foldl_app. simpl. rewrite digits_val_snoc in *. apply big_mul_add; [apply IH; [done|lia]|lia|lia|].
  rewrite length_app in Hb. simpl in Hb. pose proof (pow10_room (Z.of_nat (length l + 1)) ltac:(lia)).
  assert (2 ^ 2660 < room) by (by apply Z.ltb_lt; vm_compute). lia.
Qed.

(** [SIG * 10^E] against [M * 2^F], over a common denominator. *)
Definition cmp_exact (S E M F : Z) : Z :=
  Z.sgn (S * 10 ^ Z.max E 0 * 2 ^ Z.max (- F) 0 - M * 10 ^ Z.max (- E) 0 * 2 ^ Z.max F 0).

Lemma sgn_scale a p : 0 < p -> Z.sgn (a * p) = Z.sgn a.
Proof. intros Hp. rewrite Z.sgn_mul, (Z.sgn_pos p Hp). lia. Qed.

(** Three factors fit when their bits do. *)
Lemma room3 a b c i j k :
  0 <= a < 2 ^ i -> 0 < b <= 2 ^ j -> 0 < c <= 2 ^ k -> 0 <= i -> 0 <= j -> 0 <= k -> i + j + k <= 7424 -> a * b * c < room.
Proof.
  intros Ha Hb Hc Hi Hj Hk Hs. apply (Z.lt_le_trans _ (2 ^ (i + j + k))); [|unfold room; apply Z.pow_le_mono_r; lia].
  rewrite !Z.pow_add_r by lia. assert (a * b < 2 ^ i * 2 ^ j) by nia. nia.
Qed.

Lemma pow_bound b k K e : 0 < b -> 0 <= k <= K -> b ^ K <= 2 ^ e -> 0 < b ^ k <= 2 ^ e.
Proof. intros Hb Hk He. split; [apply Z.pow_pos_nonneg; lia|]. apply (Z.le_trans _ (b ^ K)); [apply Z.pow_le_mono_r; lia|done]. Qed.

Lemma big_if_pow5 b v k : big b v -> 0 <= k -> v * 5 ^ k < room -> big (if 0 <? k then nurl__big_mul_pow5 b k else b) (v * 5 ^ k).
Proof.
  intros Hb Hk Hr. destruct (Z.ltb_spec 0 k); [by apply big_mul_pow5|]. replace k with 0 by lia. by rewrite Z.mul_1_r.
Qed.

Lemma big_if_shl b v t k : big b v -> t <= k -> v * 2 ^ (k - t) < room -> big (if t <? k then nurl__big_shl b (k - t) else b) (v * 2 ^ (k - t)).
Proof.
  intros Hb Hk Hr. destruct (Z.ltb_spec t k); [apply big_shl; [done|lia|done]|]. replace (k - t) with 0 by lia. by rewrite Z.mul_1_r.
Qed.

(** The code scales both sides by the smaller power of two only. *)
Lemma cmp_scale S E M F :
  let sE := Z.max (- E) 0 in let lsh := Z.max E 0 in let t := Z.min lsh (F + sE) in
  Z.sgn (S * 5 ^ lsh * 2 ^ (lsh - t) - M * 5 ^ sE * 2 ^ (F + sE - t)) = cmp_exact S E M F.
Proof.
  intros sE lsh t. unfold cmp_exact. fold lsh sE.
  rewrite <- (sgn_scale _ (2 ^ (t + Z.max (- F) 0))) by (apply Z.pow_pos_nonneg; lia). f_equal.
  change 10 with (5 * 2). rewrite !Z.pow_mul_l.
  replace (S * (5 ^ lsh * 2 ^ lsh) * 2 ^ Z.max (- F) 0) with (S * 5 ^ lsh * (2 ^ lsh * 2 ^ Z.max (- F) 0)) by ring.
  replace (M * (5 ^ sE * 2 ^ sE) * 2 ^ Z.max F 0) with (M * 5 ^ sE * (2 ^ sE * 2 ^ Z.max F 0)) by ring.
  replace (2 ^ lsh * 2 ^ Z.max (- F) 0) with (2 ^ (lsh - t) * 2 ^ (t + Z.max (- F) 0)) by (rewrite <- !Z.pow_add_r by lia; f_equal; lia).
  replace (2 ^ sE * 2 ^ Z.max F 0) with (2 ^ (F + sE - t) * 2 ^ (t + Z.max (- F) 0)) by (rewrite <- !Z.pow_add_r by lia; f_equal; lia).
  ring.
Qed.

(** What the array's room covers. *)
Record cmp_pre (sg : list Z) (E M F : Z) : Prop := {
  cp_digits : digits_ok sg;
  cp_len : (length sg <= 800)%nat;
  cp_exp : -1150 <= E <= 320;
  cp_M : 0 <= M < 2 ^ 55;
  cp_F : -1075 <= F <= 972 }.

(** Both sides fit, and are what they stand for. *)
Lemma cmp_sides_spec sg E M F :
  cmp_pre sg E M F ->
  let sE := Z.max (- E) 0 in let lsh := Z.max E 0 in let t := Z.min lsh (F + sE) in
  let '(L, R) := cmp_sides sg E M F in
  big L (digits_val sg * 5 ^ lsh * 2 ^ (lsh - t)) /\ big R (M * 5 ^ sE * 2 ^ (F + sE - t)).
Proof.
  intros [Hd Hl HE HM HF] sE lsh t. unfold cmp_sides.
  assert ((if E <? 0 then - E else 0) = sE) as -> by (unfold sE; zcases; lia).
  assert ((if 0 <? E then E else 0) = lsh) as -> by (unfold lsh; zcases; lia).
  assert ((if lsh <? F + sE then lsh else F + sE) = t) as -> by (unfold t; zcases; lia).
  pose proof (digits_val_bound sg Hd) as HS. pose proof (pow10_room (Z.of_nat (length sg)) ltac:(lia)) as HS2.
  assert (0 <= digits_val sg < 2 ^ 2660) as HS3 by (clear - HS HS2; destruct HS; split; [done|by apply (Z.lt_trans _ (10 ^ Z.of_nat (length sg)))]).
  pose proof (big_digits sg Hd Hl) as BL. clear HS HS2. set (S := digits_val sg) in *.
  pose proof (pow_bound 5 lsh 320 960 ltac:(lia) ltac:(lia) ltac:(by apply Z.leb_le; vm_compute)) as HP1.
  pose proof (pow_bound 5 sE 1150 3450 ltac:(lia) ltac:(lia) ltac:(by apply Z.leb_le; vm_compute)) as HP2.
  pose proof (pow_bound 2 (lsh - t) 1400 1400 ltac:(lia) ltac:(lia) ltac:(lia)) as HQ1.
  pose proof (pow_bound 2 (F + sE - t) 2130 2130 ltac:(lia) ltac:(lia) ltac:(lia)) as HQ2.
  assert (0 < 1 <= 2 ^ 0) as H1 by lia.
  apply (big_if_pow5 _ _ lsh) in BL; [|lia|pose proof (room3 S (5 ^ lsh) 1 2660 960 0 HS3 HP1 H1); lia].
  apply (big_if_shl _ _ t lsh) in BL; [|lia|apply (room3 _ _ _ 2660 960 1400); done || lia].
  assert (big (nurl__big_u64 M) M) as BR by (apply big_u64; lia).
  apply (big_if_pow5 _ _ sE) in BR; [|lia|pose proof (room3 M (5 ^ sE) 1 55 3450 0 HM HP2 H1); lia].
  apply (big_if_shl _ _ t (F + sE)) in BR; [|lia|apply (room3 _ _ _ 55 3450 2130); done || lia].
  exact (conj BL BR).
Qed.

Lemma cmp_decimal_spec sg tr E M F :
  cmp_pre sg E M F ->
  nurl__cmp_decimal sg tr E M F = if (cmp_exact (digits_val sg) E M F =? 0) && tr then 1 else cmp_exact (digits_val sg) E M F.
Proof.
  intros Hpre. pose proof (cmp_sides_spec sg E M F Hpre) as H. cbv zeta in H. unfold nurl__cmp_decimal.
  destruct (cmp_sides sg E M F) as [L R]. destruct H as [BL BR]. rewrite (big_cmp_spec _ _ _ _ BL BR).
  pose proof (cmp_scale (digits_val sg) E M F) as Hs. cbv zeta in Hs. by rewrite Hs.
Qed.
