(* ===== verification/AtofExact.v ===== *)
(** Path C of the parser, [nurl__parse_exact] in [src/stdlib/runtime_core.c]:
    the binary search over the bit patterns answers the double nearest to the
    decimal, whatever the seed. *)

From S2P Require Import Prelude Dtoa Float Pow5Table Atof AtofBig.

(** The fraction [n / d] is the decimal that [sg], [E] and [truncated] keep:
    exactly, or with non-zero digits dropped after 800, of which the last [k]
    were zeros and are stripped. *)
Record stands (sg : list Z) (tr : bool) (E n d : Z) : Prop := {
  st_digits : digits_ok sg;
  st_len : (length sg <= 800)%nat;
  st_exp : -1150 <= E <= 320;
  st_n : 0 <= n;
  st_d : 0 < d;
  st_exact : tr = false -> n * 10 ^ Z.max (- E) 0 = digits_val sg * 10 ^ Z.max E 0 * d;
  st_trunc : tr = true -> exists k, 0 <= k /\ E < k /\ 10 ^ 799 <= digits_val sg * 10 ^ k /\
    digits_val sg * 10 ^ k * d < n * 10 ^ (k - E) < (digits_val sg * 10 ^ k + 1) * d }.

(** A candidate has fewer digits than are kept, so the dropped ones only break
    a tie. *)
Lemma trunc_step S k M F :
  10 ^ 799 <= S -> 0 <= k -> 0 <= M < 2 ^ 55 -> -1075 <= F ->
  S * 2 ^ Z.max (- F) 0 < M * 10 ^ k * 2 ^ Z.max F 0 -> (S + 1) * 2 ^ Z.max (- F) 0 <= M * 10 ^ k * 2 ^ Z.max F 0.
Proof.
  intros HS Hk HM HF Hlt. destruct (Z.le_gt_cases 0 F) as [H|H].
  { replace (Z.max (- F) 0) with 0 in * by lia. lia. }
  replace (Z.max F 0) with 0 in * by lia. replace (Z.max (- F) 0) with (- F) in * by lia.
  assert (0 < 2 ^ (- F)) as Hp by (apply Z.pow_pos_nonneg; lia).
  destruct (Z.le_gt_cases (- F) k) as [Hle|Hgt].
  - replace (M * 10 ^ k * 2 ^ 0) with (M * 5 ^ k * 2 ^ (k - - F) * 2 ^ (- F)) in *.
    { set (X := M * 5 ^ k * 2 ^ (k - - F)) in *. clearbody X. apply Z.mul_lt_mono_pos_r in Hlt; [|done]. apply Z.mul_le_mono_pos_r; [done|lia]. }
        change 10 with (5 * 2). rewrite Z.pow_mul_l. replace (2 ^ k) with (2 ^ (k - - F) * 2 ^ (- F)) by (rewrite <- Z.pow_add_r by lia; f_equal; lia). ring.
  - exfalso. change 10 with (5 * 2) in Hlt. rewrite Z.pow_mul_l in Hlt.
    assert (2 ^ k <= 2 ^ (- F)) by (apply Z.pow_le_mono_r; lia).
    assert (0 < 5 ^ k <= 5 ^ 1075) as H5 by (split; [apply Z.pow_pos_nonneg; lia|apply Z.pow_le_mono_r; lia]).
    assert (2 ^ 55 * 5 ^ 1075 < 10 ^ 799) as Hbig by (by apply Z.ltb_lt; vm_compute).
    assert (0 < 2 ^ k) by (apply Z.pow_pos_nonneg; lia).
    assert (M * 5 ^ k <= S) as HMS by (clear - HM H5 HS Hbig; apply (Z.le_trans _ (2 ^ 55 * 5 ^ 1075)); [apply Z.mul_le_mono_nonneg; lia|lia]).
    clear - HMS Hlt H Hp H0 H1 HM H5. assert (M * 5 ^ k * 2 ^ k <= S * 2 ^ (- F)); [|lia].
    apply Z.mul_le_mono_nonneg; lia.
Qed.

(** Zeros at the end of the digits change nothing. *)
Lemma cmp_exact_zeros S E M F k : 0 <= k -> E < k -> cmp_exact (S * 10 ^ k) (E - k) M F = cmp_exact S E M F.
Proof.
  intros Hk He. unfold cmp_exact. replace (Z.max (E - k) 0) with 0 by lia. replace (Z.max (- (E - k)) 0) with (k - E) by lia.
  rewrite <- (sgn_scale (S * 10 ^ Z.max E 0 * _ - _) (10 ^ (k - Z.max E 0))) by (apply Z.pow_pos_nonneg; lia). f_equal.
  replace (10 ^ (k - E)) with (10 ^ Z.max (- E) 0 * 10 ^ (k - Z.max E 0)) by (rewrite <- Z.pow_add_r by lia; f_equal; lia).
  replace (10 ^ k) with (10 ^ Z.max E 0 * 10 ^ (k - Z.max E 0)) by (rewrite <- Z.pow_add_r by lia; f_equal; lia). ring.
Qed.

Lemma cmp_pre_of sg tr E n d M F : stands sg tr E n d -> 0 <= M < 2 ^ 55 -> -1075 <= F <= 972 -> cmp_pre sg E M F.
Proof. intros []. by split. Qed.

(** The comparison is with the decimal itself. *)
Lemma cmp_decimal_value sg tr E n d M F :
  stands sg tr E n d -> 0 <= M < 2 ^ 55 -> -1075 <= F <= 972 ->
  nurl__cmp_decimal sg tr E M F = Z.sgn (n * 2 ^ 1075 - M * 2 ^ (F + 1075) * d).
Proof.
  intros Hst HM HF. rewrite (cmp_decimal_spec sg tr E M F (cmp_pre_of _ _ _ _ _ _ _ Hst HM HF)).
  destruct Hst as [_ _ HE Hn Hd Hex Htr]. set (S := digits_val sg) in *.
  assert (forall k, 0 <= k -> Z.sgn (n * 10 ^ k * 2 ^ Z.max (- F) 0 - M * 10 ^ k * 2 ^ Z.max F 0 * d) = Z.sgn (n * 2 ^ 1075 - M * 2 ^ (F + 1075) * d)) as Hscale.
  { intros k Hk. rewrite <- (sgn_scale (n * 2 ^ 1075 - _) (10 ^ k)) by (apply Z.pow_pos_nonneg; lia).
    rewrite <- (sgn_scale (n * 10 ^ k * _ - _) (2 ^ (1075 - Z.max (- F) 0))) by (apply Z.pow_pos_nonneg; lia). f_equal.
    replace (2 ^ (F + 1075)) with (2 ^ Z.max F 0 * 2 ^ (1075 - Z.max (- F) 0)) by (rewrite <- Z.pow_add_r by lia; f_equal; lia).
    replace (2 ^ 1075) with (2 ^ Z.max (- F) 0 * 2 ^ (1075 - Z.max (- F) 0)) by (rewrite <- Z.pow_add_r by lia; f_equal; lia). ring. }
  destruct tr; simpl; rewrite ?andb_true_r, ?andb_false_r.
  - destruct (Htr eq_refl) as (k & Hk & HEk & HS & Hlo & Hhi). rewrite <- (cmp_exact_zeros S E M F k) by done. rewrite <- (Hscale (k - E)) by lia.
    unfold cmp_exact. clear Htr Hex. set (T := S * 10 ^ k) in *. clearbody T. clear S. rename T into S.
    replace (Z.max (E - k) 0) with 0 by lia. replace (Z.max (- (E - k)) 0) with (k - E) by lia. rewrite Z.pow_0_r, Z.mul_1_r.
    pose proof (trunc_step S (k - E) M F HS ltac:(lia) HM ltac:(lia)) as Hstep.
    assert (0 < 2 ^ Z.max (- F) 0) as Hp by (apply Z.pow_pos_nonneg; lia).
    set (A := 2 ^ Z.max (- F) 0) in *. set (R := M * 10 ^ (k - E) * 2 ^ Z.max F 0) in *. set (N := n * 10 ^ (k - E)) in *. clearbody A R N. clear - Hstep Hp Hlo Hhi Hd.
    destruct (Z.lt_ge_cases (S * A) R) as [Hlt|Hge].
    + specialize (Hstep Hlt). rewrite (Z.sgn_neg (S * A - R)) by lia. simpl. symmetry. apply Z.sgn_neg. nia.
    + assert (0 < N * A - R * d) by nia. rewrite (Z.sgn_pos (N * A - R * d)) by done.
      destruct (Z.eqb_spec (Z.sgn (S * A - R)) 0) as [|Hne]; [done|]. apply Z.sgn_pos. destruct (Z.eq_dec (S * A - R) 0) as [Hz|]; [by rewrite Hz in Hne|lia].
  - unfold cmp_exact. rewrite <- (Hscale (Z.max (- E) 0)) by lia. rewrite (Hex eq_refl).
    rewrite <- (sgn_scale (S * _ * _ - _) d) by done. f_equal. ring.
Qed.

(** * The search *)

Lemma unpack_eq b : 0 <= b <= INF -> nurl__unpack b = double_of b.
Proof.
  intros Hb. unfold nurl__unpack, double_of. rewrite Z.shiftr_div_pow2 by lia.
  change 2047 with (Z.ones 11). change (2 ^ 52 - 1) with (Z.ones 52). rewrite !Z.land_ones by lia.
  rewrite (Z.mod_small (b / 2 ^ 52)).
  2:{ split; [apply Z.div_pos; lia|apply Z.div_lt_upper_bound; unfold INF in *; lia]. }
  destruct (b / 2 ^ 52 =? 0); [done|]. f_equal.
  pose proof (lor_low 1 (b mod 2 ^ 52) 52 ltac:(lia) (Z.mod_pos_bound b (2 ^ 52) ltac:(lia))) as H. rewrite Z.mul_1_l in H. rewrite Z.lor_comm, H. lia.
Qed.

Section search.
Context (sg : list Z) (tr : bool) (E n d : Z) (Hst : stands sg tr E n d).

Lemma cmp_at_spec b : 0 <= b <= INF -> cmp_at sg tr E b = Z.sgn (n * 2 ^ 1074 - sval b * d).
Proof.
  intros Hb. unfold cmp_at. rewrite unpack_eq by done. pose proof (double_of_bounds b Hb) as Hmf. unfold sval. destruct (double_of b) as [M F].
  rewrite (cmp_decimal_value _ _ _ n d) by (done || lia). rewrite <- (sgn_scale (n * 2 ^ 1074 - _) 2) by lia. f_equal.
  replace (F + 1075) with (Z.succ (F + 1074)) by lia. rewrite Z.pow_succ_r by lia. change (2 ^ 1075) with (2 * 2 ^ 1074).
  ring.
Qed.

Lemma cmp_at_ge b : 0 <= b <= INF -> (0 <=? cmp_at sg tr E b) = (sval b * d <=? n * 2 ^ 1074).
Proof. intros Hb. rewrite cmp_at_spec by done. destruct (Z.leb_spec (sval b * d) (n * 2 ^ 1074)); [apply Z.leb_le|apply Z.leb_gt]; lia. Qed.

Lemma cmp_at_lt b : 0 <= b <= INF -> (cmp_at sg tr E b <? 0) = (n * 2 ^ 1074 <? sval b * d).
Proof. intros Hb. rewrite cmp_at_spec by done. destruct (Z.ltb_spec (n * 2 ^ 1074) (sval b * d)); [apply Z.ltb_lt|apply Z.ltb_ge]; lia. Qed.

(** The double at or below the decimal is from [lo] on and before [hi]. *)
Record bracket (lo hi : Z) : Prop := {
  br_range : 0 <= lo < hi /\ hi <= INF;
  br_lo : sval lo * d <= n * 2 ^ 1074;
  br_hi : hi = INF \/ n * 2 ^ 1074 < sval hi * d }.

Lemma bracket_all : bracket 0 INF.
Proof. destruct Hst. split; [unfold INF; lia|change (sval 0) with 0; lia|by left]. Qed.

Lemma seed_bracket_ok seed : 0 <= seed <= INF -> let '(lo, hi) := seed_bracket sg tr E seed in bracket lo hi.
Proof.
  intros Hs. unfold seed_bracket. destruct (Z.eqb_spec seed 0) as [|Hs0]; simpl; [apply bracket_all|].
  set (a := if 4 <? seed then seed - 4 else 0). set (b := if seed + 4 <? INF then seed + 4 else INF).
  assert (0 <= a < b /\ b <= INF) as Hab by (unfold a, b; zcases; lia).
  rewrite cmp_at_ge, cmp_at_lt by lia.
  destruct (((a =? 0) || (sval a * d <=? n * 2 ^ 1074)) && (n * 2 ^ 1074 <? sval b * d)) eqn:Hc; [|apply bracket_all].
  apply andb_true_iff in Hc as [Ha Hb]. apply Z.ltb_lt in Hb. split; [done| |by right].
  apply orb_true_iff in Ha as [Ha|Ha]; [|by apply Z.leb_le in Ha]. apply Z.eqb_eq in Ha. rewrite Ha. apply (br_lo _ _ bracket_all).
Qed.

Lemma bisect_ok fuel : forall lo hi,
  bracket lo hi -> hi - lo <= 2 ^ Z.of_nat fuel -> exists lo', bisect (S fuel) sg tr E lo hi = Some lo' /\ bracket lo' (lo' + 1).
Proof.
  induction fuel as [|fuel IH]; intros lo hi Hbr Hf; destruct (br_range _ _ Hbr) as [Hlo Hhi].
  - exists lo. simpl in Hf. cbn [bisect]. destruct (Z.ltb_spec 1 (hi - lo)); [lia|]. replace (lo + 1) with hi by lia. done.
  - rewrite pow_of_S in Hf. cbn [bisect]. destruct (Z.ltb_spec 1 (hi - lo)) as [Hgt|].
    2:{ exists lo. replace (lo + 1) with hi by lia. done. }
    set (m := lo + (hi - lo) / 2).
    assert (lo < m < hi) as Hm by (unfold m; zdiv). assert (hi - m <= 2 ^ Z.of_nat fuel /\ m - lo <= 2 ^ Z.of_nat fuel) as [Hf1 Hf2] by (unfold m; zdiv).
    destruct Hbr as [_ H1 H2]. rewrite cmp_at_ge by lia. destruct (Z.leb_spec (sval m * d) (n * 2 ^ 1074)).
    + apply IH; [|done]. split; [lia|done|done].
    + apply IH; [|done]. split; [lia|done|by right].
Qed.

Lemma parse_exact_ok seed : 0 <= seed <= INF -> exists b, nurl__parse_exact sg tr E seed = Some b /\ rounds n d b.
Proof.
  intros Hs. unfold nurl__parse_exact. pose proof (seed_bracket_ok seed Hs) as Hbr. destruct (seed_bracket sg tr E seed) as [lo0 hi0].
  destruct (bisect_ok 63 lo0 hi0 Hbr) as (lo & -> & [Hr Hlo Hhi]).
  { destruct (br_range _ _ Hbr). unfold INF in *. change (Z.of_nat 63) with 63. lia. }
  cbn [mbind option_bind]. rewrite unpack_eq by lia.
  pose proof (double_of_bounds lo ltac:(lia)) as Hmf. pose proof (sval_next lo ltac:(lia)) as Hnext. pose proof (double_of_odd lo ltac:(lia)) as Hodd.
  assert (sval lo = let '(M, F) := double_of lo in M * 2 ^ (F + 1074)) as Hval by done. destruct (double_of lo) as [M F].
  rewrite (cmp_decimal_value _ _ _ n d) by (done || lia). destruct Hst as [_ _ _ Hn Hd _ _].
  replace (F - 1 + 1075) with (F + 1074) by lia.
  assert ((2 * M + 1) * 2 ^ (F + 1074) = mid lo) as -> by (unfold mid; rewrite Hnext, Hval; ring).
  change 1 with (Z.ones 1) at 2. rewrite Z.land_ones, Zmod_odd, Hodd by lia. eexists. split; [reflexivity|].
  destruct (Z.lt_ge_cases (n * 2 ^ 1074) (sval (lo + 1) * d)) as [Hlt|Hge].
  - apply (rounds_from _ _ _ lo); [done|lia|done|].
    destruct (Z.compare_spec (n * 2 ^ 1075) (mid lo * d)) as [He|He|He].
    + rewrite He, Z.sub_diag. simpl. by destruct (Z.odd lo).
    + by rewrite Z.sgn_neg by lia.
    + by rewrite Z.sgn_pos by lia.
  - destruct Hhi as [Hhi|]; [|lia]. pose proof (mid_bounds lo ltac:(lia)). rewrite Z.sgn_pos.
    + rewrite Hhi in *. by apply rounds_inf.
    + change (2 ^ 1075) with (2 * 2 ^ 1074). nia.
Qed.
End search.
