(* ===== verification/AtofPack.v ===== *)
(** The rounding of path B, [nurl__pack128] in [src/stdlib/runtime_core.c]: a
    128-bit significand times a power of two becomes the nearest double. *)

From S2P Require Import Prelude Dtoa Float Pow5Table Atof.

(** [X * 2^e] as a fraction. *)
Definition num (X e : Z) : Z := X * 2 ^ Z.max e 0.
Definition den (e : Z) : Z := 2 ^ Z.max (- e) 0.

Lemma den_pos e : 0 < den e.
Proof. apply Z.pow_pos_nonneg; lia. Qed.

(** The fraction with any two exponents that differ by [e]. *)
Lemma num_den X e i j : 0 <= i -> 0 <= j -> e = i - j -> num X e * 2 ^ j = X * 2 ^ i * den e.
Proof.
  intros Hi Hj ->. unfold num, den.
  replace (X * 2 ^ Z.max (i - j) 0 * 2 ^ j) with (X * (2 ^ Z.max (i - j) 0 * 2 ^ j)) by ring.
  replace (X * 2 ^ i * 2 ^ Z.max (- (i - j)) 0) with (X * (2 ^ i * 2 ^ Z.max (- (i - j)) 0)) by ring.
  f_equal. rewrite <- !Z.pow_add_r by lia. f_equal. lia.
Qed.

(** The significand cut at bit [sh] and rounded, half to even. *)
Definition rne (V sh : Z) : Z :=
  match 2 * (V mod 2 ^ sh) ?= 2 ^ sh with
  | Lt => V / 2 ^ sh
  | Gt => V / 2 ^ sh + 1
  | Eq => if Z.odd (V / 2 ^ sh) then V / 2 ^ sh + 1 else V / 2 ^ sh
  end.

Lemma rne_ge V sh : V / 2 ^ sh <= rne V sh <= V / 2 ^ sh + 1.
Proof. unfold rne. destruct (_ ?= _); [destruct (Z.odd _)| |]; lia. Qed.

(** Rounding by the bit below the cut and the bits below that. *)
Lemma rne_bits V sh half rest :
  0 < sh -> half = (V / 2 ^ (sh - 1)) mod 2 -> (rest = 0 <-> V mod 2 ^ (sh - 1) = 0) ->
  rne V sh = if negb (half =? 0) && (negb (rest =? 0) || Z.odd (V / 2 ^ sh)) then V / 2 ^ sh + 1 else V / 2 ^ sh.
Proof.
  intros Hsh Hh Hr. unfold rne. set (P := 2 ^ (sh - 1)) in *.
  assert (0 < P) as HP by (apply Z.pow_pos_nonneg; lia).
  assert (2 ^ sh = P * 2) as He by (replace sh with (sh - 1 + 1) at 1 by lia; rewrite Z.pow_add_r by lia; done).
  assert (V mod (P * 2) = V mod P + P * half) as Hm by (rewrite Hh; apply Z.rem_mul_r; lia).
  rewrite He, Hm. pose proof (Z.mod_pos_bound V P HP). pose proof (Z.mod_pos_bound (V / P) 2 ltac:(lia)) as Hb2. rewrite <- Hh in Hb2.
  destruct (Z.eqb_spec half 0) as [H0|H0]; simpl.
  - destruct (Z.compare_spec (2 * (V mod P + P * half)) (P * 2)); nia || done.
  - assert (half = 1) as -> by lia. destruct (Z.eqb_spec rest 0) as [Hr0|Hr0]; simpl.
    + apply Hr in Hr0. rewrite Hr0. destruct (Z.compare_spec (2 * (0 + P * 1)) (P * 2)); [done|lia|lia].
    + assert (V mod P <> 0) by tauto. destruct (Z.compare_spec (2 * (V mod P + P * 1)) (P * 2)); [lia|lia|done].
Qed.

(** Two words. *)
Definition words (hi lo V : Z) : Prop := 0 <= hi < 2 ^ 64 /\ 0 <= lo < 2 ^ 64 /\ hi * 2 ^ 64 + lo = V.

Lemma words_div hi lo V s : words hi lo V -> 0 <= s -> V / 2 ^ (64 + s) = hi / 2 ^ s.
Proof.
  intros (H1 & H2 & <-) Hs. rewrite Z.pow_add_r, <- Z.div_div by lia. by rewrite Z.div_add_l, (Z.div_small lo), Z.add_0_r by lia.
Qed.

Lemma words_mod hi lo V s : words hi lo V -> 0 <= s -> V mod 2 ^ (64 + s) = hi mod 2 ^ s * 2 ^ 64 + lo.
Proof.
  intros (H1 & H2 & <-) Hs. rewrite Z.pow_add_r by lia. assert (0 < 2 ^ s) by (apply Z.pow_pos_nonneg; lia).
  rewrite Z.rem_mul_r by lia. rewrite (Z.add_comm _ lo), Z.mod_add, (Z.mod_small lo), Z.div_add, (Z.div_small lo), Z.add_0_l by lia. lia.
Qed.

Lemma land_one x : Z.land x 1 = x mod 2.
Proof. change 1 with (Z.ones 1) at 1. by rewrite Z.land_ones. Qed.

Lemma nz_zero b : nz b = 0 <-> b = false.
Proof. destruct b; simpl; split; done. Qed.

(** What the code cuts is what [rne] needs. *)
Lemma pack_cut_spec hi lo V sh :
  words hi lo V -> 75 <= sh <= 128 ->
  let '(m, half, rest) := pack_cut hi lo sh in
  m = V / 2 ^ sh /\ half = (V / 2 ^ (sh - 1)) mod 2 /\ (rest = 0 <-> V mod 2 ^ (sh - 1) = 0).
Proof.
  intros Hw Hsh. pose proof Hw as (Hhi & Hlo & HV). unfold pack_cut.
  destruct (Z.ltb_spec sh 64); [lia|]. destruct (Z.ltb_spec sh 128) as [Hlt|Hge].
  - destruct (Z.eqb_spec (sh - 64) 0); [lia|]. destruct (Z.leb_spec 2 (sh - 64)); [|lia]. simpl negb. cbv iota.
    assert (0 < 2 ^ (sh - 64 - 1)) by (apply Z.pow_pos_nonneg; lia).
    assert (2 ^ (sh - 64 - 1) < 2 ^ 64) by (apply Z.pow_lt_mono_r; lia).
    rewrite !Z.shiftr_div_pow2, Z.shiftl_mul_pow2, Z.mul_1_l, wrap64_small by lia.
    replace (2 ^ (sh - 64 - 1) - 1) with (Z.ones (sh - 64 - 1)) by (rewrite Z.ones_equiv; lia).
    rewrite land_one, !Z.land_ones by lia.
    pose proof (words_div hi lo V (sh - 64) Hw ltac:(lia)) as E1. replace (64 + (sh - 64)) with sh in E1 by lia.
    pose proof (words_div hi lo V (sh - 64 - 1) Hw ltac:(lia)) as E2. pose proof (words_mod hi lo V (sh - 64 - 1) Hw ltac:(lia)) as E3.
    replace (64 + (sh - 64 - 1)) with (sh - 1) in E2, E3 by lia. rewrite E1, E2, E3.
    split; [done|]. split; [done|]. rewrite Z.lor_eq_0_iff, !nz_zero, !negb_false_iff, !Z.eqb_eq.
    pose proof (Z.mod_pos_bound hi (2 ^ (sh - 64 - 1)) ltac:(lia)). lia.
  - replace sh with 128 by lia. rewrite Z.shiftr_div_pow2 by lia. change 9223372036854775807 with (Z.ones 63). rewrite Z.land_ones by lia.
    change (2 ^ (128 - 1)) with (2 ^ (64 + 63)). change (2 ^ 128) with (2 ^ (64 + 64)).
    rewrite !(words_div hi lo), (words_mod hi lo) by (done || lia). rewrite (Z.div_small hi) by lia.
    assert (0 <= hi / 2 ^ 63 < 2) by zdiv. split; [done|]. split; [by rewrite Z.mod_small|].
    rewrite Z.lor_eq_0_iff, !nz_zero, !negb_false_iff, !Z.eqb_eq. pose proof (Z.mod_pos_bound hi (2 ^ 63) ltac:(lia)). lia.
Qed.

(** The pattern where neither shortcut applies: [s] steps of 2^52 and the
    rounded significand. *)
Lemma pack128_value hi lo V e :
  words hi lo V -> 2 ^ 127 - 2 ^ 70 <= V -> -1202 <= e <= 897 ->
  let s := Z.max (e + 1149) 0 in let sh := s - 1074 - e in
  nurl__pack128 hi lo e = Z.min INF (s * 2 ^ 52 + rne V sh).
Proof.
  intros Hw HV He s sh. pose proof Hw as (Hhi & Hlo & HVe). unfold nurl__pack128.
  destruct (Z.ltb_spec 1024 (127 + e)); [lia|].
  assert (127 - 52 + (if 127 + e <? -1022 then -1022 - (127 + e) else 0) = sh) as -> by (zcases; lia).
  assert (75 <= sh <= 128) as Hsh by lia. destruct (Z.ltb_spec 128 sh); [lia|].
  pose proof (pack_cut_spec hi lo V sh Hw Hsh) as Hc. destruct (pack_cut hi lo sh) as [[m half] rest]. destruct Hc as (-> & Hh & Hr).
  pose proof (rne_bits V sh half rest ltac:(lia) Hh Hr) as Hrne.
  assert (0 < 2 ^ sh) as Hp by (apply Z.pow_pos_nonneg; lia).
  assert (0 <= V / 2 ^ sh < 2 ^ 53) as Hm.
  { split; [apply Z.div_pos; lia|]. apply Z.div_lt_upper_bound; [done|].
    assert (2 ^ 75 <= 2 ^ sh) by (apply Z.pow_le_mono_r; lia). lia. }
  rewrite land_one, (Zmod_odd (V / 2 ^ sh)).
  assert (negb ((if Z.odd (V / 2 ^ sh) then 1 else 0) =? 0) = Z.odd (V / 2 ^ sh)) as -> by (by destruct (Z.odd _)).
  rewrite (wrap64_small (V / 2 ^ sh + 1)) by lia. rewrite <- Hrne. pose proof (rne_ge V sh) as Hge. set (m := rne V sh) in *.
  destruct (Z.ltb_spec (127 + e) (-1022)) as [Hsub|Hnorm].
  { replace s with 0 by lia. unfold INF. lia. }
  assert (sh = 75) as Hsh75 by lia.
  assert (2 ^ 52 <= m) as Hm52.
  { destruct (decide (V < 2 ^ 127)) as [Hlt|]; [|pose proof (Z.div_le_lower_bound V (2 ^ sh) (2 ^ 52) Hp); rewrite Hsh75 in *; lia].
    assert (V / 2 ^ sh = 2 ^ 52 - 1 /\ 2 ^ sh < 2 * (V mod 2 ^ sh)) as [Hd Hmo] by (rewrite Hsh75; zdiv).
    unfold m, rne. destruct (Z.compare_spec (2 * (V mod 2 ^ sh)) (2 ^ sh)); lia. }
  destruct (Z.leb_spec (2 ^ 53) m) as [Hover|Hfit]; cbv iota beta.
  - assert (m = 2 ^ 53) as -> by lia. change (Z.land (Z.shiftr (2 ^ 53) 1) (2 ^ 52 - 1)) with 0. rewrite Z.lor_0_r.
    destruct (Z.ltb_spec 1023 (127 + e + 1)); [unfold INF; lia|].
    rewrite Z.shiftl_mul_pow2, wrap64_small by lia. unfold INF. lia.
  - destruct (Z.ltb_spec 1023 (127 + e)); [unfold INF; lia|].
    change (2 ^ 52 - 1) with (Z.ones 52). rewrite Z.land_ones, Z.shiftl_mul_pow2, wrap64_small by lia.
    replace (m mod 2 ^ 52) with (m - 2 ^ 52) by zdiv. rewrite lor_low by lia. unfold INF. lia.
Qed.

(** Scaling a fraction to units of the cut. *)
Lemma rounds_scaled V e b s sh :
  0 <= s -> 0 <= sh -> e = s - 1074 - sh -> rounds (V * 2 ^ s) (2 ^ (sh + 1074)) b -> rounds (num V e) (den e) b.
Proof.
  intros Hs Hsh He. apply rounds_ext; [apply Z.pow_pos_nonneg; lia|apply den_pos|].
  symmetry. apply num_den; lia.
Qed.

(** From the double at or below. *)
Lemma pack_from V s sh b0 m k :
  0 <= b0 < INF -> 0 <= s -> 0 <= sh -> sval b0 = m * 2 ^ s -> sval (b0 + 1) = (m + 1) * 2 ^ s ->
  m * 2 ^ sh <= V < (m + 1) * 2 ^ sh -> Z.odd b0 = Z.odd m -> k = rne V sh - m ->
  rounds (V * 2 ^ s) (2 ^ (sh + 1074)) (b0 + k).
Proof.
  intros Hb Hs Hsh Hv Hv1 HV Hodd ->. assert (0 < 2 ^ s) as Hps by (apply Z.pow_pos_nonneg; lia).
  assert (0 < 2 ^ sh) as Hpsh by (apply Z.pow_pos_nonneg; lia). assert (0 < 2 ^ 1074) as HP by lia.
  assert (V / 2 ^ sh = m) as Hm by (symmetry; apply (Z.div_unique_pos V (2 ^ sh) m (V - m * 2 ^ sh)); lia).
  assert (V mod 2 ^ sh = V - m * 2 ^ sh) as Hr by (rewrite Z.mod_eq, Hm by lia; lia).
  rewrite Z.pow_add_r by lia. unfold rne. rewrite Hm, Hr.
  apply (rounds_from _ _ _ b0); [lia|done| |].
  - rewrite Hv, Hv1. assert (0 < 2 ^ s * 2 ^ 1074) as Hpp by (by apply Z.mul_pos_pos).
    replace (V * 2 ^ s * 2 ^ 1074) with (V * (2 ^ s * 2 ^ 1074)) by ring.
    replace (m * 2 ^ s * (2 ^ sh * 2 ^ 1074)) with (m * 2 ^ sh * (2 ^ s * 2 ^ 1074)) by ring.
    replace ((m + 1) * 2 ^ s * (2 ^ sh * 2 ^ 1074)) with ((m + 1) * 2 ^ sh * (2 ^ s * 2 ^ 1074)) by ring.
    split; [apply Z.mul_le_mono_pos_r; [done|apply HV]|apply Z.mul_lt_mono_pos_r; [done|apply HV]].
  - assert (mid b0 = (2 * m + 1) * 2 ^ s) as -> by (unfold mid; rewrite Hv, Hv1; ring). change (2 ^ 1075) with (2 * 2 ^ 1074).
    replace (V * 2 ^ s * (2 * 2 ^ 1074)) with ((2 * V) * (2 ^ s * 2 ^ 1074)) by ring.
    replace ((2 * m + 1) * 2 ^ s * (2 ^ sh * 2 ^ 1074)) with (((2 * m + 1) * 2 ^ sh) * (2 ^ s * 2 ^ 1074)) by ring.
    assert (0 < 2 ^ s * 2 ^ 1074) as Hpp by (by apply Z.mul_pos_pos). rewrite <- Zmult_compare_compat_r by lia.
    replace (2 * V ?= (2 * m + 1) * 2 ^ sh) with (2 * (V - m * 2 ^ sh) ?= 2 ^ sh).
    2:{ destruct (Z.compare_spec (2 * (V - m * 2 ^ sh)) (2 ^ sh)); symmetry; [apply Z.compare_eq_iff|apply Z.compare_lt_iff|apply Z.compare_gt_iff]; lia. }
    rewrite Hodd. destruct (_ ?= _); [destruct (Z.odd m)| |]; lia.
Qed.

Lemma pack_normal hi lo V e :
  words hi lo V -> 2 ^ 127 - 2 ^ 70 <= V -> -1202 <= e <= 897 -> rounds (num V e) (den e) (nurl__pack128 hi lo e).
Proof.
  intros Hw HV He. pose proof (pack128_value hi lo V e Hw HV He) as Hp. cbv zeta in Hp. destruct Hw as (Hhi & Hlo & HVe).
  set (s := Z.max (e + 1149) 0) in *. set (sh := s - 1074 - e) in *. assert (75 <= sh <= 128) as Hsh by lia.
  apply (rounds_scaled V e _ s sh); [lia|lia|lia|]. rewrite Hp. clear Hp.
  assert (0 < 2 ^ sh) as Hpsh by (apply Z.pow_pos_nonneg; lia). assert (0 < 2 ^ s) as Hps by (apply Z.pow_pos_nonneg; lia).
  assert (2 ^ 75 <= 2 ^ sh) by (apply Z.pow_le_mono_r; lia).
  pose proof (Z.div_mod V (2 ^ sh) ltac:(lia)) as Hdm. pose proof (Z.mod_pos_bound V (2 ^ sh) Hpsh) as Hmod. pose proof (rne_ge V sh) as Hrne.
  set (m := V / 2 ^ sh) in *. assert (0 <= m < 2 ^ 53) as Hm by (split; [apply Z.div_pos; lia|apply Z.div_lt_upper_bound; lia]).
  assert (Z.odd (s * 2 ^ 52 + m) = Z.odd m) as Hodd.
  { rewrite Z.odd_add, Z.odd_mul. change (Z.odd (2 ^ 52)) with false. rewrite andb_false_r. apply xorb_false_l. }
  destruct (decide (s = 0 \/ 2 ^ 52 <= m)) as [Hn|Hn].
  - assert (sval (s * 2 ^ 52 + m) = m * 2 ^ s) as Hv by (apply sval_at; lia).
    destruct (Z.le_gt_cases INF (s * 2 ^ 52 + m)) as [Hinf|Hfin].
    + rewrite Z.min_l by lia. apply rounds_inf; [apply Z.pow_pos_nonneg; lia|].
      pose proof (sval_mono INF (s * 2 ^ 52 + m) ltac:(unfold INF in *; lia)) as Hi. rewrite Hv in Hi. rewrite Z.pow_add_r by lia.
      assert (m * 2 ^ sh <= V) as HmV by lia. rewrite Z.mul_assoc. apply Z.mul_le_mono_nonneg_r; [lia|].
      apply (Z.le_trans _ (m * 2 ^ s * 2 ^ sh)); [by apply Z.mul_le_mono_pos_r|].
      replace (m * 2 ^ s * 2 ^ sh) with (m * 2 ^ sh * 2 ^ s) by ring. by apply Z.mul_le_mono_pos_r.
    + rewrite Z.min_r by lia. replace (s * 2 ^ 52 + rne V sh) with (s * 2 ^ 52 + m + (rne V sh - m)) by lia.
      apply (pack_from V s sh _ m); try done; try lia. rewrite <- Z.add_assoc. apply sval_at; lia.
  - assert (0 < s /\ m < 2 ^ 52) as [Hs1 Hm1] by lia. assert (sh = 75) as Hsh75 by lia.
    assert (m = 2 ^ 52 - 1 /\ 2 ^ sh < 2 * (V mod 2 ^ sh) /\ V < 2 ^ 127) as (Hd & Hmo & HVlt) by (unfold m in *; rewrite Hsh75 in *; zdiv).
    assert (rne V sh = 2 ^ 52) as Hr by (unfold rne; fold m; destruct (Z.compare_spec (2 * (V mod 2 ^ sh)) (2 ^ sh)); lia).
    rewrite Hr, Z.min_r by (unfold INF; lia).
    replace (s * 2 ^ 52 + 2 ^ 52) with ((s - 1) * 2 ^ 52 + (2 ^ 53 - 1) + 1) by lia.
    replace (V * 2 ^ s) with (2 * V * 2 ^ (s - 1)) by (replace s with (Z.succ (s - 1)) at 2 by lia; rewrite Z.pow_succ_r by lia; ring).
    apply (pack_from (2 * V) (s - 1) sh _ (2 ^ 53 - 1)); try lia.
    + unfold INF. lia.
    + rewrite sval_at by lia. lia.
    + rewrite <- Z.add_assoc. rewrite sval_at by lia. lia.
    + rewrite Z.odd_add, Z.odd_mul. change (Z.odd (2 ^ 52)) with false. by rewrite andb_false_r.
    + unfold rne. assert (2 * V / 2 ^ sh = 2 ^ 53 - 1 /\ 2 * (2 * V mod 2 ^ sh) ?= 2 ^ sh = Gt) as [-> ->]; [|lia].
      rewrite Hsh75 in *. split; [zdiv|]. apply Z.compare_gt_iff. zdiv.
Qed.
