(* ===== verification/AtofApprox.v ===== *)
(** Path B of the parser, [nurl__approx_pow10] in [src/stdlib/runtime_core.c]:
    the 128-bit product with a power of five, and why the answer it calls
    certain is the nearest double. *)

From S2P Require Import Prelude Dtoa Float Pow5Table Atof AtofPack.

Open Scope word_scope.

(** * Any exponent *)

Lemma sval_INF : sval INF = 2 ^ 2098.
Proof. reflexivity. Qed.

(** Below every double. *)
Lemma pack_tiny hi lo e : e < -1202 -> nurl__pack128 hi lo e = 0.
Proof.
  intros He. unfold nurl__pack128. destruct (Z.ltb_spec 1024 (127 + e)); [lia|].
  destruct (Z.ltb_spec (127 + e) (-1022)); [|lia]. by destruct (Z.ltb_spec 128 (127 - 52 + (-1022 - (127 + e)))); [|lia].
Qed.

(** Above every double. *)
Lemma scaled_inf X e n d :
  0 < d -> 897 <= e -> 2 ^ 127 <= X -> num X e * d <= n * den e -> rounds n d INF.
Proof.
  intros Hd He HX H. apply rounds_inf; [done|]. unfold num, den in H. rewrite sval_INF.
  replace (Z.max e 0) with e in H by lia. replace (Z.max (- e) 0) with 0 in H by lia. rewrite Z.mul_1_r in H.
  assert (2 ^ 897 <= 2 ^ e) by (apply Z.pow_le_mono_r; lia). change (2 ^ 2098) with (2 ^ 127 * 2 ^ 897 * 2 ^ 1074).
  assert (2 ^ 127 * 2 ^ 897 <= X * 2 ^ e) by (apply Z.mul_le_mono_nonneg; lia). nia.
Qed.

Lemma pack_rounds hi lo V e :
  words hi lo V -> 2 ^ 127 - 2 ^ 70 <= V -> rounds (num V e) (den e) (nurl__pack128 hi lo e).
Proof.
  intros Hw HV. destruct (Z.le_gt_cases e 897) as [Hle|Hgt].
  - destruct (Z.le_gt_cases (-1202) e) as [Hge|Hlt]; [by apply (pack_normal hi lo)|].
    rewrite pack_tiny by done.
    destruct Hw as (H1 & H2 & H3). split; [unfold INF; lia|lia|]. intros _. split; [|done].
    unfold num, den. replace (Z.max e 0) with 0 by lia. replace (Z.max (- e) 0) with (- e) by lia. change (mid 0) with 1.
    assert (2 ^ 1203 <= 2 ^ (- e)) by (apply Z.pow_le_mono_r; lia). change (2 ^ 1203) with (2 ^ 128 * 2 ^ 1075) in *.
    assert (V < 2 ^ 128) by lia. nia.
  - assert (nurl__pack128 hi lo e = INF) as -> by (unfold nurl__pack128; by destruct (Z.ltb_spec 1024 (127 + e)); [|lia]).
    apply (scaled_inf (2 * V) (e - 1)); [apply den_pos|lia|lia|].
    unfold num, den. replace (Z.max e 0) with (Z.succ (e - 1)) by lia. replace (Z.max (e - 1) 0) with (e - 1) by lia.
    rewrite Z.pow_succ_r by lia. replace (Z.max (- e) 0) with 0 by lia. replace (Z.max (- (e - 1)) 0) with 0 by lia. lia.
Qed.

(** A sum that wrapped is packed as a power of two. *)
Lemma pack_wrapped lo e :
  0 <= lo < 2 ^ 64 -> -1202 <= e <= 897 -> nurl__pack128 0 lo e = if e <? -1149 then 0 else (e + 1150) * 2 ^ 52.
Proof.
  intros Hlo He. unfold nurl__pack128. destruct (Z.ltb_spec 1024 (127 + e)); [lia|].
  set (sh := 127 - 52 + _). assert (75 <= sh <= 128) as Hsh by (unfold sh; zcases; lia). destruct (Z.ltb_spec 128 sh); [lia|].
  assert (words 0 lo lo) as Hw by (split; [lia|split; lia]).
  pose proof (pack_cut_spec 0 lo lo sh Hw Hsh) as Hc. destruct (pack_cut 0 lo sh) as [[m half] rest]. destruct Hc as (-> & -> & _).
  assert (2 ^ 64 < 2 ^ (sh - 1) /\ 2 ^ (sh - 1) <= 2 ^ sh) as [H1 H2] by (split; [apply Z.pow_lt_mono_r|apply Z.pow_le_mono_r]; lia).
  rewrite !(Z.div_small lo), Z.mod_0_l by lia. simpl negb. cbv iota beta. simpl andb. cbv iota.
  destruct (Z.ltb_spec (127 + e) (-1022)), (Z.ltb_spec e (-1149)); [done|lia|lia|]. change (2 ^ 53 <=? 0) with false. cbv iota beta zeta.
  destruct (Z.ltb_spec 1023 (127 + e)); [unfold INF; lia|]. rewrite Z.lor_0_r, Z.shiftl_mul_pow2, wrap64_small by lia. f_equal. lia.
Qed.

(** * The window *)

Section window.
Context (hi lo V delta e n d : Z).
Context (Hw : words hi lo V) (HV : 2 ^ 127 <= V) (Hdelta : 0 <= delta <= 32) (Hn : 0 <= n) (Hd : 0 < d).
Context (Hlow : num (V - delta) e * d <= n * den e) (Hhigh : n * den e <= num (V + delta) e * d).
Context (Htiny : e < -1202 -> n * den e <= num (2 ^ 128) e * d).

Lemma words_sub : words (if lo <? wrap64 (lo - delta) then wrap64 (hi - 1) else hi) (wrap64 (lo - delta)) (V - delta).
Proof.
  destruct Hw as (H1 & H2 & H3). unfold words. rewrite <- H3. destruct (Z.le_gt_cases delta lo) as [Hle|Hgt].
  - rewrite wrap64_small by lia. destruct (Z.ltb_spec lo (lo - delta)); lia.
  - replace (wrap64 (lo - delta)) with (lo - delta + 2 ^ 64) by (unfold wrap; apply (Z.mod_unique _ _ (-1)); lia).
    destruct (Z.ltb_spec lo (lo - delta + 2 ^ 64)); [|lia]. rewrite wrap64_small by lia. lia.
Qed.

Lemma words_add :
  let h := if wrap64 (lo + delta) <? lo then wrap64 (hi + 1) else hi in
  words h (wrap64 (lo + delta)) (V + delta) \/ h = 0 /\ 2 ^ 128 <= V + delta.
Proof.
  destruct Hw as (H1 & H2 & H3). unfold words. rewrite <- H3. destruct (Z.lt_ge_cases (lo + delta) (2 ^ 64)) as [Hle|Hgt].
  - left. rewrite wrap64_small by lia. destruct (Z.ltb_spec (lo + delta) lo); lia.
  - replace (wrap64 (lo + delta)) with (lo + delta - 2 ^ 64) by (unfold wrap; apply (Z.mod_unique _ _ 1); lia).
    destruct (Z.ltb_spec (lo + delta - 2 ^ 64) lo); [|lia]. destruct (decide (hi = 2 ^ 64 - 1)) as [->|].
    + right. split; [done|lia].
    + left. rewrite wrap64_small by lia. lia.
Qed.

(** The lower end decides when the upper one has wrapped. *)
Lemma wrapped_certain l b :
  2 ^ 128 <= V + delta -> 0 <= l < 2 ^ 64 -> b = nurl__pack128 0 l e -> rounds (num (V - delta) e) (den e) b -> rounds n d b.
Proof.
  intros Hover Hl Hb Hr. pose proof (den_pos e) as Hden. assert (2 ^ 128 - 64 <= V - delta) as Hv by lia.
  destruct (Z.le_gt_cases 897 e) as [Hbig|Hnb].
  { assert (b = INF) as ->.
    { rewrite Hb. destruct (decide (e = 897)) as [->|]; [by rewrite pack_wrapped by lia|]. unfold nurl__pack128. by destruct (Z.ltb_spec 1024 (127 + e)); [|lia]. }
    apply (scaled_inf (V - delta) e); [done|done|lia|done]. }
  destruct (Z.lt_ge_cases e (-1202)) as [Htin|Hsm].
  { rewrite Hb, pack_tiny by done. specialize (Htiny Htin). split; [unfold INF; lia|lia|]. intros _. split; [|done]. change (mid 0) with 1.
    unfold num, den in Htiny. replace (Z.max e 0) with 0 in Htiny by lia. replace (Z.max (- e) 0) with (- e) in Htiny by lia.
    assert (2 ^ 1203 <= 2 ^ (- e)) as Hp by (apply Z.pow_le_mono_r; lia). change (2 ^ 1203) with (2 ^ 128 * 2 ^ 1075) in Hp.
    assert (n * (2 ^ 128 * 2 ^ 1075) <= n * 2 ^ (- e)) by (apply Z.mul_le_mono_nonneg_l; lia). lia. }
  rewrite pack_wrapped in Hb by lia. exfalso.
  destruct Hr as [_ _ Hu]. destruct (Z.ltb_spec e (-1149)) as [Hs|Hs]; rewrite Hb in Hu.
  - destruct (Hu ltac:(unfold INF; lia)) as [H _]. change (mid 0) with 1 in H. unfold num, den in H.
    replace (Z.max e 0) with 0 in H by lia. replace (Z.max (- e) 0) with (- e) in H by lia.
    assert (2 ^ (- e) <= 2 ^ 1202) as Hp by (apply Z.pow_le_mono_r; lia). change (2 ^ 1202) with (2 ^ 127 * 2 ^ 1075) in Hp. lia.
  - destruct (Hu ltac:(unfold INF; lia)) as [H _]. pose proof (num_den (V - delta) e (e + 1149) 1149 ltac:(lia) ltac:(lia) ltac:(lia)) as Hnd.
    assert (mid ((e + 1150) * 2 ^ 52) = (2 ^ 53 + 1) * 2 ^ (e + 1149)) as Hmid.
    { unfold mid. replace ((e + 1150) * 2 ^ 52) with ((e + 1149) * 2 ^ 52 + 2 ^ 52) by lia. rewrite <- Z.add_assoc, !sval_at by lia. ring. }
    rewrite Hmid in H. change (2 ^ 1149) with (2 ^ 1075 * 2 ^ 74) in Hnd.
    assert (0 < 2 ^ (e + 1149) * den e) as Hpp by (apply Z.mul_pos_pos; [apply Z.pow_pos_nonneg; lia|done]).
    set (Q := 2 ^ (e + 1149)) in *. set (D := den e) in *. set (A := num (V - delta) e) in *. clearbody Q D A.
    assert ((V - delta) * (Q * D) <= (2 ^ 53 + 1) * 2 ^ 74 * (Q * D)) as Hx by lia. apply Z.mul_le_mono_pos_r in Hx; lia.
Qed.

Lemma window_certain :
  let uhi := if wrap64 (lo + delta) <? lo then wrap64 (hi + 1) else hi in
  let dhi := if lo <? wrap64 (lo - delta) then wrap64 (hi - 1) else hi in
  let up := nurl__pack128 uhi (wrap64 (lo + delta)) e in
  up = nurl__pack128 dhi (wrap64 (lo - delta)) e -> rounds n d up.
Proof.
  intros uhi dhi up Heq. pose proof (den_pos e) as Hden.
  pose proof (pack_rounds _ _ _ e words_sub ltac:(lia)) as Hdown. fold dhi in Hdown. rewrite <- Heq in Hdown.
  destruct words_add as [Hadd|[Hz Hover]].
  - pose proof (pack_rounds _ _ _ e Hadd ltac:(lia)) as Hup. fold uhi in Hup. fold up in Hup.
    by apply (rounds_between (num (V - delta) e) (den e) (num (V + delta) e) (den e)).
  - apply (wrapped_certain (wrap64 (lo + delta))); [done|apply wrap64_bound| |done]. unfold up, uhi. by rewrite Hz.
Qed.
End window.

Lemma wrapped_range lo e : 0 <= lo < 2 ^ 64 -> 0 <= nurl__pack128 0 lo e <= INF.
Proof.
  intros Hlo. destruct (Z.lt_ge_cases e (-1202)) as [H|H]; [rewrite pack_tiny by done; unfold INF; lia|].
  destruct (Z.le_gt_cases e 897) as [H2|H2].
  - rewrite pack_wrapped by done. destruct (Z.ltb_spec e (-1149)); unfold INF; lia.
  - unfold nurl__pack128. destruct (Z.ltb_spec 1024 (127 + e)); [unfold INF; lia|lia].
Qed.

(** * The product *)

Lemma clz_loop_ok fuel : forall x n,
  0 < x < 2 ^ 64 -> 2 ^ 64 <= x * 2 ^ Z.of_nat fuel -> exists j, clz_loop fuel x n = Some (n + j) /\ 0 <= j /\ 2 ^ 63 <= x * 2 ^ j < 2 ^ 64.
Proof.
  induction fuel as [|fuel IH]; intros x n Hx Hf; [simpl in Hf; lia|]. rewrite pow_of_S in Hf. cbn [clz_loop]. rewrite Z.shiftr_div_pow2 by lia.
  destruct (Z.eqb_spec (x / 2 ^ 63) 0) as [H0|H0]; simpl negb; cbv iota.
  - rewrite Z.shiftl_mul_pow2, wrap64_small by zdiv. destruct (IH (x * 2 ^ 1) (n + 1)) as (j & -> & Hj & Hb); [zdiv|lia|].
    exists (j + 1). split; [f_equal; lia|]. split; [lia|]. rewrite Z.pow_add_r by lia. lia.
  - exists 0. split; [f_equal; lia|]. split; [lia|]. zdiv.
Qed.

Lemma clz_ok x : 0 < x < 2 ^ 64 -> exists j, nurl__clz64 x = Some j /\ 0 <= j /\ 2 ^ 63 <= x * 2 ^ j < 2 ^ 64.
Proof. intros Hx. apply (clz_loop_ok 64 x 0 Hx). change (2 ^ Z.of_nat 64) with (2 ^ 64). lia. Qed.

Lemma mul_wide_spec w p :
  0 <= w < 2 ^ 64 -> pair_ok p = true -> word2 p <= 2 ^ 126 ->
  let '(hi, mid, lo) := nurl__mul_wide w p in
  0 <= hi < 2 ^ 62 /\ 0 <= mid < 2 ^ 64 /\ 0 <= lo < 2 ^ 64 /\ hi * 2 ^ 128 + mid * 2 ^ 64 + lo = w * word2 p.
Proof.
  intros Hw Hp Ht. unfold pair_ok in Hp. rewrite !andb_true_iff, !Z.leb_le, !Z.ltb_lt in Hp. destruct p as [p0 p1]. unfold word2 in *. simpl in *.
  unfold nurl__mul_wide. simpl fst. simpl snd. assert (p1 <= 2 ^ 62) as Hp1 by lia.
  rewrite (wrap_small 128 (w * p1)), (wrap_small 128 (w * p0)) by nia. rewrite !Z.shiftr_div_pow2 by lia.
  assert (0 <= w * p1 < 2 ^ 126) as Ha by nia. assert (0 <= w * p0 < 2 ^ 128) as Hb by nia.
  set (a := w * p1) in *. set (b := w * p0) in *. rewrite (wrap64_small (a / 2 ^ 64)), (wrap64_small (b / 2 ^ 64)) by zdiv. unfold wrap.
  assert ((if (a mod 2 ^ 64 + b / 2 ^ 64) mod 2 ^ 64 <? a mod 2 ^ 64 then 1 else 0) = (a mod 2 ^ 64 + b / 2 ^ 64) / 2 ^ 64) as ->.
  { destruct (Z.ltb_spec ((a mod 2 ^ 64 + b / 2 ^ 64) mod 2 ^ 64) (a mod 2 ^ 64)); zdiv. }
  assert (w * (p1 * 2 ^ 64 + p0) < 2 ^ 190) as Hlt by nia.
  assert (w * (p1 * 2 ^ 64 + p0) = a * 2 ^ 64 + b) as Hab by (unfold a, b; ring). rewrite Hab in *. clearbody a b. clear - Ha Hb Hlt.
  pose proof (Z.div_mod a (2 ^ 64) ltac:(lia)). pose proof (Z.mod_pos_bound a (2 ^ 64) ltac:(lia)). assert (0 <= a / 2 ^ 64 < 2 ^ 62) by zdiv.
  pose proof (Z.div_mod b (2 ^ 64) ltac:(lia)). pose proof (Z.mod_pos_bound b (2 ^ 64) ltac:(lia)). assert (0 <= b / 2 ^ 64 < 2 ^ 64) by zdiv.
  set (ah := a / 2 ^ 64) in *. set (al := a mod 2 ^ 64) in *. set (bh := b / 2 ^ 64) in *. set (bl := b mod 2 ^ 64) in *.
  pose proof (Z.div_mod (al + bh) (2 ^ 64) ltac:(lia)). pose proof (Z.mod_pos_bound (al + bh) (2 ^ 64) ltac:(lia)). assert (0 <= (al + bh) / 2 ^ 64 < 2) by zdiv.
  set (c := (al + bh) / 2 ^ 64) in *. set (m := (al + bh) mod 2 ^ 64) in *. clearbody ah al bh bl c m.
  rewrite (Z.mod_small (ah + c)) by lia. lia.
Qed.

(** The two ways of multiplying agree. *)
Lemma mul_halves_spec w c :
  0 <= w < 2 ^ 64 -> 0 <= c < 2 ^ 64 -> mul_halves w c = (w * c / 2 ^ 64, (w * c) mod 2 ^ 64).
Proof.
  intros Hw Hc. unfold mul_halves. change 4294967295 with (Z.ones 32). rewrite !Z.land_ones, !Z.shiftr_div_pow2, Z.shiftl_mul_pow2 by lia.
  pose proof (Z.div_mod w (2 ^ 32) ltac:(lia)) as Ew. pose proof (Z.mod_pos_bound w (2 ^ 32) ltac:(lia)). assert (0 <= w / 2 ^ 32 < 2 ^ 32) by zdiv.
  pose proof (Z.div_mod c (2 ^ 32) ltac:(lia)) as Ec. pose proof (Z.mod_pos_bound c (2 ^ 32) ltac:(lia)). assert (0 <= c / 2 ^ 32 < 2 ^ 32) by zdiv.
  set (a1 := w / 2 ^ 32) in *. set (a0 := w mod 2 ^ 32) in *. set (c1 := c / 2 ^ 32) in *. set (c0 := c mod 2 ^ 32) in *.
  rewrite !(wrap64_small (_ * _)) by nia.
  assert (w * c = a1 * c1 * 2 ^ 64 + (a0 * c1 + a1 * c0) * 2 ^ 32 + a0 * c0) as -> by (rewrite Ew, Ec; ring).
  assert (0 <= a0 * c0 <= (2 ^ 32 - 1) * (2 ^ 32 - 1) /\ 0 <= a0 * c1 <= (2 ^ 32 - 1) * (2 ^ 32 - 1) /\ 0 <= a1 * c0 <= (2 ^ 32 - 1) * (2 ^ 32 - 1) /\ 0 <= a1 * c1 <= (2 ^ 32 - 1) * (2 ^ 32 - 1)) as (B1 & B2 & B3 & B4) by (split_and!; nia).
  set (p00 := a0 * c0) in *. set (p01 := a0 * c1) in *. set (p10 := a1 * c0) in *. set (p11 := a1 * c1) in *. clearbody p00 p01 p10 p11. clear - B1 B2 B3 B4.
  set (t := p00 / 2 ^ 32 + p01 mod 2 ^ 32 + p10 mod 2 ^ 32). assert (0 <= t < 2 ^ 34) as Ht by (unfold t; zdiv).
  rewrite (wrap64_small t) by lia. rewrite (wrap64_small (p11 + _ + _ + _)) by (unfold t; zdiv).
  f_equal; [unfold t; zdiv|].
  assert (wrap64 (t * 2 ^ 32) = t mod 2 ^ 32 * 2 ^ 32) as -> by (unfold wrap; zdiv). rewrite lor_low by (lia || apply Z.mod_pos_bound; lia). unfold t. zdiv.
Qed.

Lemma mul_wide_portable_eq w p : 0 <= w < 2 ^ 64 -> pair_ok p = true -> mul_wide_portable w p = nurl__mul_wide w p.
Proof.
  intros Hw Hp. unfold pair_ok in Hp. rewrite !andb_true_iff, !Z.leb_le, !Z.ltb_lt in Hp. destruct p as [p0 p1]. simpl in Hp.
  unfold mul_wide_portable, nurl__mul_wide. simpl fst. simpl snd. rewrite !mul_halves_spec by lia.
  rewrite (wrap_small 128 (w * p1)), (wrap_small 128 (w * p0)) by nia. rewrite !Z.shiftr_div_pow2 by lia.
  assert (0 <= w * p1 < 2 ^ 128 /\ 0 <= w * p0 < 2 ^ 128) as [H1 H2] by nia.
  rewrite (wrap64_small (w * p1 / 2 ^ 64)), (wrap64_small (w * p0 / 2 ^ 64)) by zdiv. done.
Qed.

(** The top 128 bits of the product. *)
Lemma window_cut hi mid lo c :
  0 <= mid < 2 ^ 64 -> 0 <= lo < 2 ^ 64 -> 2 <= c <= 4 -> 2 ^ 63 <= hi * 2 ^ c < 2 ^ 64 ->
  let k := 64 - c in
  exists V, words (Z.lor (wrap64 (Z.shiftl hi (64 - k))) (Z.shiftr mid k)) (Z.lor (wrap64 (Z.shiftl mid (64 - k))) (Z.shiftr lo k)) V /\
    2 ^ 127 <= V /\ V * 2 ^ k <= hi * 2 ^ 128 + mid * 2 ^ 64 + lo < (V + 1) * 2 ^ k.
Proof.
  intros Hmid Hlo Hc Hhi k. replace (64 - k) with c by lia.
  assert (0 < 2 ^ c) as Hpc by (apply Z.pow_pos_nonneg; lia). assert (0 < 2 ^ k) as Hpk by (apply Z.pow_pos_nonneg; lia).
  assert (2 ^ k * 2 ^ c = 2 ^ 64) as Hck by (rewrite <- Z.pow_add_r by lia; f_equal; lia).
  rewrite !Z.shiftl_mul_pow2, !Z.shiftr_div_pow2 by lia. rewrite (wrap64_small (hi * 2 ^ c)) by lia.
  assert (wrap64 (mid * 2 ^ c) = mid mod 2 ^ k * 2 ^ c) as -> by (unfold wrap; rewrite <- Hck, Z.mul_mod_distr_r by lia; done).
  pose proof (Z.div_mod mid (2 ^ k) ltac:(lia)) as Em. pose proof (Z.mod_pos_bound mid (2 ^ k) Hpk) as Bm.
  pose proof (Z.div_mod lo (2 ^ k) ltac:(lia)) as El. pose proof (Z.mod_pos_bound lo (2 ^ k) Hpk) as Bl.
  assert (0 <= mid / 2 ^ k < 2 ^ c) as Bmd by (split; [apply Z.div_pos; lia|apply Z.div_lt_upper_bound; lia]).
  assert (0 <= lo / 2 ^ k < 2 ^ c) as Bld by (split; [apply Z.div_pos; lia|apply Z.div_lt_upper_bound; lia]).
  rewrite !lor_low by lia. set (mq := mid / 2 ^ k) in *. set (mr := mid mod 2 ^ k) in *. set (lq := lo / 2 ^ k) in *. set (lr := lo mod 2 ^ k) in *.
  exists ((hi * 2 ^ c + mq) * 2 ^ 64 + (mr * 2 ^ c + lq)). split; [|split].
  - assert (hi * 2 ^ c + mq < 2 ^ 64).
    { assert (hi < 2 ^ k) by (apply (Z.mul_lt_mono_pos_r (2 ^ c)); lia). assert ((hi + 1) * 2 ^ c <= 2 ^ k * 2 ^ c) by (apply Z.mul_le_mono_nonneg_r; lia). lia. }
    assert (mr * 2 ^ c + lq < 2 ^ 64).
    { assert ((mr + 1) * 2 ^ c <= 2 ^ k * 2 ^ c) by (apply Z.mul_le_mono_nonneg_r; lia). lia. }
    assert (0 <= mr * 2 ^ c) by (apply Z.mul_nonneg_nonneg; lia). unfold words. lia.
  - assert (0 <= mr * 2 ^ c) by (apply Z.mul_nonneg_nonneg; lia). lia.
  - assert (hi * 2 ^ 128 + mid * 2 ^ 64 + lo = ((hi * 2 ^ c + mq) * 2 ^ 64 + (mr * 2 ^ c + lq)) * 2 ^ k + lr) as ->; [|lia].
    change (2 ^ 128) with (2 ^ 64 * 2 ^ 64). rewrite <- Hck, Em, El at 1. fold mq mr lq lr. rewrite <- Hck. ring.
Qed.

(** Two exponents that differ by [e] again, for inequalities. *)
Lemma scaled_le X e n d i j :
  0 <= i -> 0 <= j -> e = i - j -> num X e * d <= n * den e <-> X * 2 ^ i * d <= n * 2 ^ j.
Proof.
  intros Hi Hj He. pose proof (num_den X e i j Hi Hj He) as H. pose proof (den_pos e) as Hp.
  assert (0 < 2 ^ j) as Hpj by (apply Z.pow_pos_nonneg; lia).
  rewrite (Z.mul_le_mono_pos_r (num X e * d) _ (2 ^ j)), (Z.mul_le_mono_pos_r (X * 2 ^ i * d) _ (den e)) by done.
  replace (num X e * d * 2 ^ j) with (num X e * 2 ^ j * d) by ring. rewrite H.
  replace (X * 2 ^ i * den e * d) with (X * 2 ^ i * d * den e) by ring. by replace (n * den e * 2 ^ j) with (n * 2 ^ j * den e) by ring.
Qed.

Lemma scaled_ge X e n d i j :
  0 <= i -> 0 <= j -> e = i - j -> n * den e <= num X e * d <-> n * 2 ^ j <= X * 2 ^ i * d.
Proof.
  intros Hi Hj He. pose proof (num_den X e i j Hi Hj He) as H. pose proof (den_pos e) as Hp.
  assert (0 < 2 ^ j) as Hpj by (apply Z.pow_pos_nonneg; lia).
  rewrite (Z.mul_le_mono_pos_r _ (num X e * d) (2 ^ j)), (Z.mul_le_mono_pos_r _ (X * 2 ^ i * d) (den e)) by done.
  replace (num X e * d * 2 ^ j) with (num X e * 2 ^ j * d) by ring. rewrite H.
  replace (X * 2 ^ i * den e * d) with (X * 2 ^ i * d * den e) by ring. by replace (n * den e * 2 ^ j) with (n * 2 ^ j * den e) by ring.
Qed.

(** The window is around a fraction that the product with the entry is near. *)
Lemma approx_window_ok w2 T e2 n d i j :
  2 ^ 63 <= w2 < 2 ^ 64 -> pair_ok T = true -> 2 ^ 124 <= word2 T <= 2 ^ 125 + 1 -> 0 <= n -> 0 < d ->
  0 <= i -> 0 <= j -> e2 = i - j ->
  (w2 * word2 T - w2) * 2 ^ i * d <= n * 2 ^ j <= (w2 * word2 T + w2) * 2 ^ i * d ->
  (e2 < -1260 -> n * 2 ^ j <= w2 * word2 T * 2 ^ i * d) ->
  exists b certain, approx_window w2 T e2 = Some (b, certain) /\ 0 <= b <= INF /\ (certain = true -> rounds n d b).
Proof.
  intros Hw HT Ht Hn Hd Hi Hj He Hin Htiny. unfold approx_window.
  pose proof (mul_wide_spec w2 T ltac:(lia) HT ltac:(lia)) as Hmul. destruct (nurl__mul_wide w2 T) as [[hi mid] lo].
  destruct Hmul as (Hhi & Hmid & Hlo & Hprod). set (P := w2 * word2 T) in *.
  assert (2 ^ 187 <= P < 2 ^ 190) as HP by nia. assert (2 ^ 59 <= hi) as Hhi2 by lia.
  destruct (clz_ok hi ltac:(lia)) as (c & -> & Hc0 & Hc). cbn [mbind option_bind].
  assert (2 <= c <= 4) as Hc24.
  { split; [destruct (Z.le_gt_cases 2 c) as [|Hlt]; [done|]|destruct (Z.le_gt_cases c 4) as [|Hgt]; [done|]]; exfalso.
    - assert (2 ^ c <= 2 ^ 1) by (apply Z.pow_le_mono_r; lia). nia.
    - assert (2 ^ 5 <= 2 ^ c) by (apply Z.pow_le_mono_r; lia). nia. }
  destruct (window_cut hi mid lo c Hmid Hlo Hc24 Hc) as (V & HVw & HV & HVP). rewrite Hprod in HVP. set (k := 64 - c) in *.
  set (vhi := Z.lor _ (Z.shiftr mid k)) in *. set (vlo := Z.lor _ (Z.shiftr lo k)) in *.
  assert (4 <= 2 ^ c <= 16) as H2c by (assert (c = 2 \/ c = 3 \/ c = 4) as [->|[->| ->]] by lia; lia).
  rewrite Z.shiftl_mul_pow2, Z.mul_1_l by lia. replace (64 - k) with c by lia. rewrite (wrap64_small (2 ^ c)) by lia. set (delta := 2 ^ c + 1).
  assert (2 ^ c * 2 ^ k = 2 ^ 64) as Hck by (rewrite <- Z.pow_add_r by lia; f_equal; lia).
  assert (0 < 2 ^ i * d) as Hid by (apply Z.mul_pos_pos; [apply Z.pow_pos_nonneg; lia|done]).
  assert (num (V - delta) (e2 + k) * d <= n * den (e2 + k)) as Hlow.
  { apply (scaled_le _ _ _ _ (i + k) j); [lia|lia|lia|]. rewrite (Z.pow_add_r 2 i k) by lia.
    replace ((V - delta) * (2 ^ i * 2 ^ k) * d) with ((V - delta) * 2 ^ k * (2 ^ i * d)) by ring.
    apply (Z.le_trans _ ((P - w2) * (2 ^ i * d))); [|lia]. apply Z.mul_le_mono_nonneg_r; [lia|]. unfold delta. lia. }
  assert (n * den (e2 + k) <= num (V + delta) (e2 + k) * d) as Hhigh.
  { apply (scaled_ge _ _ _ _ (i + k) j); [lia|lia|lia|]. rewrite (Z.pow_add_r 2 i k) by lia.
    replace ((V + delta) * (2 ^ i * 2 ^ k) * d) with ((V + delta) * 2 ^ k * (2 ^ i * d)) by ring.
    apply (Z.le_trans _ ((P + w2) * (2 ^ i * d))); [lia|]. apply Z.mul_le_mono_nonneg_r; [lia|]. unfold delta. lia. }
  assert (e2 + k < -1202 -> n * den (e2 + k) <= num (2 ^ 128) (e2 + k) * d) as Htin.
  { intros Hs. apply (scaled_ge _ _ _ _ (i + k) j); [lia|lia|lia|]. rewrite (Z.pow_add_r 2 i k) by lia. specialize (Htiny ltac:(lia)).
    replace (2 ^ 128 * (2 ^ i * 2 ^ k) * d) with (2 ^ 128 * 2 ^ k * (2 ^ i * d)) by ring.
    apply (Z.le_trans _ (P * (2 ^ i * d))); [lia|]. apply Z.mul_le_mono_nonneg_r; [lia|].
    destruct HVw as (W1 & W2 & W3). assert ((V + 1) * 2 ^ k <= 2 ^ 128 * 2 ^ k) by (apply Z.mul_le_mono_nonneg_r; lia). lia. }
  eexists _, _. split; [reflexivity|]. split.
  - destruct (words_add vhi vlo V delta HVw ltac:(lia)) as [Ha|[Hz _]].
    + apply (rn_range _ _ _ (pack_rounds _ _ _ _ Ha ltac:(lia))).
    + rewrite Hz. apply wrapped_range, wrap64_bound.
  - intros Hc1. apply Z.eqb_eq in Hc1. apply (window_certain vhi vlo V delta _ n d); try done; lia.
Qed.

Lemma pow5_entry q :
  0 <= q < NURL_POW5_N ->
  let T := NURL_POW5 !!! Z.to_nat q in let b := nurl__pow5_bits q in
  pair_ok T = true /\ 2 ^ 124 <= word2 T <= 2 ^ 125 + 1 /\ 1 <= b /\ word2 T * 2 ^ b <= 5 ^ q * 2 ^ 125 < (word2 T + 1) * 2 ^ b.
Proof.
  intros Hq T b. destruct (pow5_table_spec q Hq) as (H1 & H2 & H3). fold T b in H1, H2, H3.
  assert (1 <= b) as Hb by (destruct (Z.le_gt_cases 1 b) as [|Hlt]; [done|]; assert (5 ^ q < 1); [|assert (0 < 5 ^ q) by (apply Z.pow_pos_nonneg; lia); lia];
    destruct (decide (b = 0)) as [->|]; [lia|]; rewrite (Z.pow_neg_r 2 b) in H2 by lia; lia).
  assert (0 < 2 ^ b) as Hp by (apply Z.pow_pos_nonneg; lia).
  pose proof (Z.div_mod (5 ^ q * 2 ^ 125) (2 ^ b) ltac:(lia)) as Hdm. pose proof (Z.mod_pos_bound (5 ^ q * 2 ^ 125) (2 ^ b) Hp). rewrite <- H3 in Hdm.
  assert (2 ^ b = 2 * 2 ^ (b - 1)) as Hb2 by (rewrite <- Z.pow_succ_r by lia; f_equal; lia).
  split; [done|]. split; [|split; [done|lia]]. rewrite H3. split.
  - apply Z.div_le_lower_bound; [done|]. rewrite Hb2. lia.
  - apply Z.lt_le_incl, Z.div_lt_upper_bound; [done|]. lia.
Qed.

Lemma pow5_inv_entry p :
  0 <= p < NURL_POW5_INV_N ->
  let T := NURL_POW5_INV !!! Z.to_nat p in let b := nurl__pow5_bits p in
  pair_ok T = true /\ 2 ^ 124 <= word2 T <= 2 ^ 125 + 1 /\ 1 <= b /\ (word2 T - 1) * 5 ^ p <= 2 ^ (124 + b) < word2 T * 5 ^ p.
Proof.
  intros Hq T b. destruct (pow5_inv_table_spec p Hq) as (H1 & H2 & H3). fold T b in H1, H2, H3.
  assert (0 < 5 ^ p) as Hp by (apply Z.pow_pos_nonneg; lia).
  assert (1 <= b) as Hb by (destruct (Z.le_gt_cases 1 b) as [|Hlt]; [done|]; assert (5 ^ p < 1); [|lia];
    destruct (decide (b = 0)) as [->|]; [lia|]; rewrite (Z.pow_neg_r 2 b) in H2 by lia; lia).
  pose proof (Z.div_mod (2 ^ (124 + b)) (5 ^ p) ltac:(lia)) as Hdm. pose proof (Z.mod_pos_bound (2 ^ (124 + b)) (5 ^ p) Hp).
  assert (2 ^ (124 + b) = 2 ^ 124 * 2 ^ b) as E1 by (rewrite Z.pow_add_r by lia; done).
  assert (2 ^ b = 2 * 2 ^ (b - 1)) as Hb2 by (rewrite <- Z.pow_succ_r by lia; f_equal; lia).
  split; [done|]. split; [|split; [done|rewrite H3; lia]]. rewrite H3. split.
  - apply Z.le_trans with (2 ^ (124 + b) / 5 ^ p); [|lia]. apply Z.div_le_lower_bound; [done|]. rewrite E1. lia.
  - apply Zplus_le_compat_r. apply Z.div_le_upper_bound; [done|]. rewrite E1, Hb2. lia.
Qed.

Lemma approx_pos w2 q lz w :
  2 ^ 63 <= w2 < 2 ^ 64 -> w2 = w * 2 ^ lz -> 0 <= lz < 64 -> 0 <= q < NURL_POW5_N ->
  exists b certain, approx_window w2 (NURL_POW5 !!! Z.to_nat q) (nurl__pow5_bits q - 125 + q - lz) = Some (b, certain) /\
    0 <= b <= INF /\ (certain = true -> rounds (w * 10 ^ q) 1 b).
Proof.
  intros Hw2 Hw Hlz Hq. destruct (pow5_entry q Hq) as (E1 & E2 & E3 & E4).
  set (T := NURL_POW5 !!! Z.to_nat q) in *. set (b := nurl__pow5_bits q) in *.
  assert (0 < 2 ^ lz) as Hpl by (apply Z.pow_pos_nonneg; lia). assert (0 <= w) as Hw0 by nia.
  assert (0 < 2 ^ q) as Hpq by (apply Z.pow_pos_nonneg; lia).
  assert (w * 10 ^ q * 2 ^ (lz + 125) = w2 * (5 ^ q * 2 ^ 125) * 2 ^ q) as En.
  { rewrite Hw, Z.pow_add_r by lia. change 10 with (5 * 2). rewrite Z.pow_mul_l. ring. }
  assert (0 <= w2 * word2 T * 2 ^ b <= w2 * (5 ^ q * 2 ^ 125)) as B1.
  { split; [apply Z.mul_nonneg_nonneg; [nia|apply Z.pow_nonneg; lia]|]. rewrite <- Z.mul_assoc. apply Z.mul_le_mono_nonneg_l; lia. }
  assert (w2 * (5 ^ q * 2 ^ 125) <= (w2 * word2 T + w2) * 2 ^ b) as B2.
  { replace ((w2 * word2 T + w2) * 2 ^ b) with (w2 * ((word2 T + 1) * 2 ^ b)) by ring. apply Z.mul_le_mono_nonneg_l; lia. }
  assert (0 < 2 ^ b) as Hpb by (apply Z.pow_pos_nonneg; lia).
  apply (approx_window_ok _ _ _ _ _ (b + q) (lz + 125)); try done; try lia.
  - rewrite En, !Z.mul_1_r, Z.pow_add_r, !Z.mul_assoc by lia. rewrite !Z.mul_assoc in B1, B2.
    split; apply Z.mul_le_mono_nonneg_r; try lia.
Qed.

Lemma approx_neg w2 p lz w :
  2 ^ 63 <= w2 < 2 ^ 64 -> w2 = w * 2 ^ lz -> 0 <= lz < 64 -> 0 <= p < NURL_POW5_INV_N ->
  exists b certain, approx_window w2 (NURL_POW5_INV !!! Z.to_nat p) (- (124 + nurl__pow5_bits p) - p - lz) = Some (b, certain) /\
    0 <= b <= INF /\ (certain = true -> rounds w (10 ^ p) b).
Proof.
  intros Hw2 Hw Hlz Hq. destruct (pow5_inv_entry p Hq) as (E1 & E2 & E3 & E4).
  set (T := NURL_POW5_INV !!! Z.to_nat p) in *. set (b := nurl__pow5_bits p) in *.
  assert (0 < 2 ^ lz) as Hpl by (apply Z.pow_pos_nonneg; lia). assert (0 <= w) as Hw0 by nia.
  assert (0 < 2 ^ p) as Hpp by (apply Z.pow_pos_nonneg; lia). assert (0 < 5 ^ p) as Hp5 by (apply Z.pow_pos_nonneg; lia).
  assert (w * 2 ^ (124 + b + p + lz) = w2 * 2 ^ (124 + b) * 2 ^ p) as En.
  { rewrite Hw, (Z.pow_add_r 2 (124 + b + p)), (Z.pow_add_r 2 (124 + b) p) by lia. ring. }
  assert ((w2 * word2 T - w2) * 5 ^ p <= w2 * 2 ^ (124 + b)) as B1.
  { replace ((w2 * word2 T - w2) * 5 ^ p) with (w2 * ((word2 T - 1) * 5 ^ p)) by ring. apply Z.mul_le_mono_nonneg_l; lia. }
  assert (w2 * 2 ^ (124 + b) <= w2 * word2 T * 5 ^ p) as B2.
  { rewrite <- Z.mul_assoc. apply Z.mul_le_mono_nonneg_l; lia. }
  assert (forall X, X * 2 ^ 0 * 10 ^ p = X * 5 ^ p * 2 ^ p) as Ed.
  { intros X. change 10 with (5 * 2). rewrite Z.pow_mul_l. ring. }
  apply (approx_window_ok _ _ _ _ _ 0 (124 + b + p + lz)); try done; try lia; rewrite ?En, ?Ed.
  - split; apply Z.mul_le_mono_nonneg_r; try lia.
  - intros _. apply Z.mul_le_mono_nonneg_r; lia.
Qed.

(** [w * 10^q], and a certain answer is the nearest double. *)
Lemma approx_pow10_ok w q :
  0 < w < 2 ^ 64 ->
  exists b certain, nurl__approx_pow10 w q = Some (b, certain) /\ 0 <= b <= INF /\
    (certain = true -> rounds (w * 10 ^ Z.max q 0) (10 ^ Z.max (- q) 0) b).
Proof.
  intros Hw. unfold nurl__approx_pow10. destruct (clz_ok w Hw) as (lz & -> & Hlz0 & Hlz). cbn [mbind option_bind].
  assert (lz < 64) as Hlz64.
  { destruct (Z.lt_ge_cases lz 64) as [|Hge]; [done|]. assert (2 ^ 64 <= 2 ^ lz) by (apply Z.pow_le_mono_r; lia). nia. }
  rewrite Z.shiftl_mul_pow2, wrap64_small by lia. unfold pow10_entry.
  destruct (Z.leb_spec 0 q) as [Hq|Hq].
  - destruct (Z.leb_spec NURL_POW5_N q); [by exists 0, false|].
    replace (Z.max q 0) with q by lia. replace (Z.max (- q) 0) with 0 by lia. by apply (approx_pos _ q lz w).
  - destruct (Z.leb_spec NURL_POW5_INV_N (- q)); [by exists 0, false|].
    replace (Z.max q 0) with 0 by lia. replace (Z.max (- q) 0) with (- q) by lia. rewrite Z.mul_1_r.
    replace (- (124 + nurl__pow5_bits (- q)) + q - lz) with (- (124 + nurl__pow5_bits (- q)) - - q - lz) by lia.
    apply (approx_neg _ (- q) lz w); done || lia.
Qed.
