(* ===== verification/AtofValue.v ===== *)
(** The three paths of the parser together, from the digits to the double:
    [nurl__atof_core] in [src/stdlib/runtime_core.c] after the scan of the
    text. *)

From S2P Require Import Prelude Dtoa Float Pow5Table Atof AtofBig AtofExact AtofPack AtofApprox.

Open Scope word_scope.

(** [n / d] is what the scan kept: the digits times [10^E], or something
    strictly between them and the next number of as many digits. *)
Record kept (sg : list Z) (tr : bool) (E n d : Z) : Prop := {
  k_digits : digits_ok sg;
  k_len : (0 < length sg <= 800)%nat;
  k_head : 10 ^ (Z.of_nat (length sg) - 1) <= digits_val sg;
  k_n : 0 <= n;
  k_d : 0 < d;
  k_exact : tr = false -> n * 10 ^ Z.max (- E) 0 = digits_val sg * 10 ^ Z.max E 0 * d;
  k_trunc : tr = true -> length sg = 800%nat /\
    digits_val sg * 10 ^ Z.max E 0 * d < n * 10 ^ Z.max (- E) 0 < (digits_val sg + 1) * 10 ^ Z.max E 0 * d }.

Lemma pow10_pos e : 0 <= e -> 0 < 10 ^ e.
Proof. intros He. apply Z.pow_pos_nonneg; lia. Qed.

Section kept.
Context (sg : list Z) (tr : bool) (E n d : Z) (Hk : kept sg tr E n d).

Lemma kept_bounds :
  10 ^ (Z.of_nat (length sg) - 1) * 10 ^ Z.max E 0 * d <= n * 10 ^ Z.max (- E) 0 <= 10 ^ Z.of_nat (length sg) * 10 ^ Z.max E 0 * d.
Proof.
  destruct Hk as [Hd Hl Hh Hn Hdd Hex Htr]. pose proof (digits_val_bound sg Hd) as Hb.
  assert (0 < 10 ^ Z.max E 0 * d) as Hp by (apply Z.mul_pos_pos; [apply pow10_pos; lia|done]).
  assert (forall x, x * 10 ^ Z.max E 0 * d = x * (10 ^ Z.max E 0 * d)) as Ha by (intros; ring).
  assert (digits_val sg * (10 ^ Z.max E 0 * d) <= n * 10 ^ Z.max (- E) 0 <= (digits_val sg + 1) * (10 ^ Z.max E 0 * d)) as Hin.
  { destruct tr; [destruct (Htr eq_refl) as [_ H]|pose proof (Hex eq_refl) as H]; rewrite !Ha in H; lia. }
  rewrite !Ha. split; (eapply Z.le_trans; [|apply Hin]) || (eapply Z.le_trans; [apply Hin|]); apply Z.mul_le_mono_nonneg_r; lia.
Qed.

(** 10^320 and more. *)
Lemma kept_huge : 320 < E + Z.of_nat (length sg) -> rounds n d INF.
Proof.
  intros HE. destruct kept_bounds as [H _]. destruct Hk as [_ Hl _ Hn Hd _ _]. apply rounds_inf; [done|]. rewrite sval_INF.
  assert (0 < 10 ^ Z.max (- E) 0) as Hp by (apply pow10_pos; lia).
  assert (10 ^ 320 * d <= n) as Hbig.
  { apply (Z.mul_le_mono_pos_r _ _ (10 ^ Z.max (- E) 0) Hp).
    apply (Z.le_trans _ (10 ^ (Z.of_nat (length sg) - 1) * 10 ^ Z.max E 0 * d)); [|done].
    replace (10 ^ 320 * d * 10 ^ Z.max (- E) 0) with (10 ^ (320 + Z.max (- E) 0) * d) by (rewrite Z.pow_add_r by lia; ring).
    rewrite <- Z.pow_add_r by lia. apply Z.mul_le_mono_nonneg_r; [lia|]. apply Z.pow_le_mono_r; lia. }
  assert (2 ^ 2098 <= 10 ^ 320 * 2 ^ 1074) as Hc by (by apply Z.leb_le; vm_compute).
  apply (Z.le_trans _ (10 ^ 320 * 2 ^ 1074 * d)); [by apply Z.mul_le_mono_nonneg_r; [lia|]|].
  replace (10 ^ 320 * 2 ^ 1074 * d) with (10 ^ 320 * d * 2 ^ 1074) by ring. apply Z.mul_le_mono_nonneg_r; [lia|done].
Qed.

(** Less than half of the smallest double. *)
Lemma kept_tiny : E + Z.of_nat (length sg) < -350 -> rounds n d 0.
Proof.
  intros HE. destruct kept_bounds as [_ H]. destruct Hk as [_ Hl _ Hn Hd _ _].
  replace (Z.max E 0) with 0 in H by lia. replace (Z.max (- E) 0) with (- E) in H by lia. rewrite Z.mul_1_r in H.
  set (l := Z.of_nat (length sg)) in *. replace (- E) with (l + (- E - l)) in H by lia. rewrite Z.pow_add_r in H by lia.
  assert (n * 10 ^ (- E - l) <= d) as H2.
  { apply (Z.mul_le_mono_pos_r _ _ (10 ^ l)); [apply pow10_pos; lia|]. lia. }
  assert (10 ^ 351 <= 10 ^ (- E - l)) as H3 by (apply Z.pow_le_mono_r; lia).
  assert (2 ^ 1075 <= 10 ^ 351) as H4 by (by apply Z.leb_le; vm_compute).
  assert (n * 2 ^ 1075 <= n * 10 ^ (- E - l)) by (apply Z.mul_le_mono_nonneg_l; lia).
  split; [unfold INF; lia|lia|]. intros _. change (mid 0) with 1. split; [lia|done].
Qed.
End kept.

(** * Zeros at the end *)

Lemma strip_zeros_spec r : forall E,
  let '(r', E') := strip_zeros r E in exists k, r = replicate k 0 ++ r' /\ E' = E + Z.of_nat k /\ (r <> [] -> r' <> []).
Proof.
  induction r as [|x r IH]; intros E; [exists 0%nat; split_and!; simpl; done || lia|].
  destruct r as [|y r]; [exists 0%nat; split_and!; simpl; done || lia|].
  change (strip_zeros (x :: y :: r) E) with (if x =? 0 then strip_zeros (y :: r) (E + 1) else (x :: y :: r, E)).
  destruct (Z.eqb_spec x 0) as [->|]; [|exists 0%nat; split_and!; simpl; done || lia].
  specialize (IH (E + 1)). destruct (strip_zeros (y :: r) (E + 1)) as [r' E']. destruct IH as (k & Hr & HE & Hne).
  exists (S k). split; [simpl; by f_equal|]. split; [lia|]. intros _. by apply Hne.
Qed.

Lemma digits_val_zeros l k : digits_val (l ++ replicate k 0) = digits_val l * 10 ^ Z.of_nat k.
Proof.
  induction k as [|k IH]; [rewrite app_nil_r; simpl; lia|].
  replace (replicate (S k) 0) with (replicate k 0 ++ [0]) by (symmetry; apply (replicate_S_end k)).
  rewrite app_assoc, digits_val_snoc, IH, pow_of_S. lia.
Qed.

Lemma rev_zeros k : rev (replicate k 0) = replicate k 0.
Proof. induction k as [|k IH]; [done|]. simpl. rewrite IH. symmetry. apply (replicate_S_end k). Qed.

(** What path C needs is what is left. *)
Lemma kept_stands sg tr E n d sg' k :
  kept sg tr E n d -> sg = sg' ++ replicate k 0 -> sg' <> [] ->
  -350 <= E + Z.of_nat (length sg) <= 320 -> stands sg' tr (E + Z.of_nat k) n d.
Proof.
  intros [Hd Hl Hh Hn Hdd Hex Htr] Hsg Hne HE.
  assert (length sg = length sg' + k)%nat as Hlen by (rewrite Hsg, length_app, length_replicate; done).
  assert (0 < length sg')%nat as Hl' by (destruct sg'; [done|simpl; lia]).
  assert (digits_val sg = digits_val sg' * 10 ^ Z.of_nat k) as Hval by (rewrite Hsg; apply digits_val_zeros).
  split; try done; try lia.
  - rewrite Hsg in Hd. by apply Forall_app in Hd as [? _].
  - intros Ht. specialize (Hex Ht). rewrite Hval in Hex. set (E' := E + Z.of_nat k) in *.
    set (c := Z.max (- E) 0 - Z.max (- E') 0). assert (0 <= c) as Hc by lia.
    apply (Z.mul_reg_r _ _ (10 ^ c)); [apply Z.pow_nonzero; lia|].
    replace (n * 10 ^ Z.max (- E') 0 * 10 ^ c) with (n * 10 ^ Z.max (- E) 0) by (rewrite <- Z.mul_assoc, <- Z.pow_add_r by lia; do 2 f_equal; lia).
    rewrite Hex. replace (digits_val sg' * 10 ^ Z.max E' 0 * d * 10 ^ c) with (digits_val sg' * (10 ^ Z.max E' 0 * 10 ^ c) * d) by ring.
    rewrite <- (Z.mul_assoc (digits_val sg')), <- !Z.pow_add_r by lia. do 3 f_equal. lia.
  - intros Ht. destruct (Htr Ht) as [H8 H]. exists (Z.of_nat k). split; [lia|]. split; [lia|]. rewrite <- Hval.
    split; [by rewrite H8 in Hh|]. replace (Z.of_nat k - (E + Z.of_nat k)) with (- E) by lia.
    replace (Z.max E 0) with 0 in H by lia. replace (Z.max (- E) 0) with (- E) in H by lia. by rewrite !Z.mul_1_r in H.
Qed.

(** * The first digits *)

Lemma first_digits_spec sg : digits_ok sg -> first_digits sg = digits_val (take 19 sg) /\ 0 <= digits_val (take 19 sg) < 10 ^ 19.
Proof.
  intros Hd. assert (digits_ok (take 19 sg)) as Ht by (by apply Forall_take). unfold first_digits.
  pose proof (digits_val_bound _ Ht) as Hb.
  assert (10 ^ Z.of_nat (length (take 19 sg)) <= 10 ^ 19) as Hp by (apply Z.pow_le_mono_r; [lia|rewrite length_take; lia]).
  split; [|lia]. clear Hb. revert Hp Ht. generalize (take 19 sg). intros l. induction l as [|x l IH] using rev_ind; intros Hp Hl; [done|].
  pose proof (digits_val_bound _ Hl) as Hb. rewrite digits_val_snoc in *. apply Forall_app in Hl as [Hl Hx]. apply Forall_cons in Hx as [Hx _].
  pose proof (digits_val_bound l Hl) as Hb'. rewrite foldl_app. simpl. rewrite IH; [|rewrite length_app in Hp|done].
  - rewrite (wrap64_small (_ * 10)), wrap64_small by lia. done.
  - eapply Z.le_trans; [|exact Hp]. apply Z.pow_le_mono_r; lia.
Qed.

Lemma p10_table : forallb (fun k => sval (p10 (Z.of_nat k)) =? 10 ^ Z.of_nat k * 2 ^ 1074) (seq 0 23) = true.
Proof. by vm_compute. Qed.

(** The powers of ten up to 10^22 are doubles. *)
Lemma p10_exact k : 0 <= k <= 22 -> sval (p10 k) = 10 ^ k * 2 ^ 1074.
Proof.
  intros Hk. pose proof p10_table as H. rewrite forallb_forall in H.
  specialize (H (Z.to_nat k) ltac:(apply in_seq; lia)). apply Z.eqb_eq in H. by rewrite Z2Nat.id in H by lia.
Qed.

(** Path A: one correctly rounded operation on exact operands. *)
Lemma path_a_mul w k : 0 <= w <= 2 ^ 53 -> 0 <= k <= 22 -> rounds (w * 10 ^ k) 1 (double_mul (double_u64 w) (p10 k)).
Proof.
  intros Hw Hk. unfold double_mul. rewrite double_u64_exact, p10_exact by done. pose proof (pow10_pos k ltac:(lia)).
  eapply (rounds_ext _ (2 ^ 2148)); [lia|lia| |apply round_near_rounds; [|lia]].
  - change (2 ^ 2148) with (2 ^ 1074 * 2 ^ 1074). ring.
  - apply Z.mul_nonneg_nonneg; apply Z.mul_nonneg_nonneg; lia.
Qed.

Lemma path_a_div w k : 0 <= w <= 2 ^ 53 -> 0 <= k <= 22 -> rounds w (10 ^ k) (double_div (double_u64 w) (p10 k)).
Proof.
  intros Hw Hk. unfold double_div. rewrite double_u64_exact, p10_exact by done. pose proof (pow10_pos k ltac:(lia)).
  assert (0 < 10 ^ k * 2 ^ 1074) by (apply Z.mul_pos_pos; lia).
  apply (rounds_ext (w * 2 ^ 1074) (10 ^ k * 2 ^ 1074)); [done|done|ring|apply round_near_rounds; [lia|done]].
Qed.

(** * All three paths *)

Section value.
Context (sg : list Z) (tr : bool) (E n d : Z) (Hst : stands sg tr E n d).
Context (Hne : 0 < digits_val (take 19 sg)).

Lemma exact_rounds b :
  tr = false -> rounds (digits_val sg * 10 ^ Z.max E 0) (10 ^ Z.max (- E) 0) b -> rounds n d b.
Proof.
  intros Ht. destruct Hst as [_ _ _ Hn Hd Hex _]. apply rounds_ext; [apply pow10_pos; lia|done|]. rewrite (Hex Ht). ring.
Qed.

Lemma paths_ok : exists b, atof_paths sg tr E = Some b /\ rounds n d b.
Proof.
  unfold atof_paths. destruct (first_digits_spec sg (st_digits _ _ _ _ _ Hst)) as [-> Hw].
  destruct ((Z.of_nat (length sg) <=? 19) && negb tr) eqn:Hs.
  - apply andb_true_iff in Hs as [Hl Ht]. apply Z.leb_le in Hl. apply negb_true_iff in Ht.
    rewrite take_ge in * by lia.
    destruct ((digits_val sg <=? 2 ^ 53) && (-22 <=? E) && (E <=? 22)) eqn:Ha.
    + rewrite !andb_true_iff, !Z.leb_le in Ha. eexists. split; [reflexivity|]. apply exact_rounds; [done|]. destruct (Z.leb_spec 0 E).
      * replace (Z.max (- E) 0) with 0 by lia. replace (Z.max E 0) with E by lia. apply path_a_mul; lia.
      * replace (Z.max E 0) with 0 by lia. replace (Z.max (- E) 0) with (- E) by lia. rewrite Z.mul_1_r. apply path_a_div; lia.
    + destruct (approx_pow10_ok (digits_val sg) E ltac:(lia)) as (b & certain & -> & Hb & Hc). cbn [mbind option_bind].
      destruct certain; [|by apply (parse_exact_ok sg tr E n d Hst)]. exists b. split; [done|]. by apply exact_rounds, Hc.
  - destruct ((-400 <? E + Z.of_nat (length sg) - 19) && (E + Z.of_nat (length sg) - 19 <? 400)).
    + destruct (approx_pow10_ok (digits_val (take 19 sg)) (E + Z.of_nat (length sg) - Z.of_nat (length (take 19 sg))) ltac:(lia)) as (b & certain & -> & Hb & _).
      cbn [mbind option_bind]. by apply (parse_exact_ok sg tr E n d Hst).
    + apply (parse_exact_ok sg tr E n d Hst). unfold INF. lia.
Qed.
End value.

Lemma digits_val_app a b : digits_val (a ++ b) = digits_val a * 10 ^ Z.of_nat (length b) + digits_val b.
Proof.
  induction b as [|x b IH] using rev_ind; [rewrite app_nil_r; unfold digits_val; simpl; lia|].
  rewrite app_assoc, !digits_val_snoc, IH, length_app, Nat2Z.inj_add, Z.pow_add_r by lia. simpl (10 ^ Z.of_nat (length [x])). lia.
Qed.

(** A number without leading zeros starts with a positive number. *)
Lemma take_pos l k :
  digits_ok l -> l <> [] -> (0 < k)%nat -> 10 ^ (Z.of_nat (length l) - 1) <= digits_val l -> 0 < digits_val (take k l).
Proof.
  intros Hd Hne Hk Hh. rewrite <- (take_drop k l) in Hd. apply Forall_app in Hd as [Ht Hr].
  pose proof (digits_val_bound _ Ht) as Bt. pose proof (digits_val_bound _ Hr) as Br.
  pose proof (digits_val_app (take k l) (drop k l)) as Ha. rewrite take_drop in Ha.
  destruct (decide (digits_val (take k l) = 0)) as [H0|]; [|lia]. exfalso. rewrite H0 in Ha.
  assert (0 < length l)%nat by (destruct l; [done|simpl; lia]). rewrite length_drop in Br.
  assert (10 ^ Z.of_nat (length l - k) <= 10 ^ (Z.of_nat (length l) - 1)) by (apply Z.pow_le_mono_r; lia). lia.
Qed.

(** The number the code tests, before any zero is stripped, tells the magnitude. *)
Lemma atof_value_cases sg tr E :
  sg <> [] -> exists sg' k, sg = sg' ++ replicate k 0 /\ sg' <> [] /\
    atof_value sg tr E =
      if 320 <? E + Z.of_nat (length sg) then Some nurl__inf else if E + Z.of_nat (length sg) <? -350 then Some 0
      else atof_paths sg' tr (E + Z.of_nat k).
Proof.
  intros Hne. unfold atof_value. pose proof (strip_zeros_spec (rev sg) E) as H. destruct (strip_zeros (rev sg) E) as [r E'].
  destruct H as (k & Hr & -> & Hn).
  assert (sg = rev r ++ replicate k 0) as Hsg.
  { rewrite <- (rev_involutive sg), Hr, rev_app_distr. f_equal. apply rev_zeros. }
  exists (rev r), k. split; [done|]. assert (r <> []) as Hr0.
  { apply Hn. intros Hx. apply Hne. by rewrite <- (rev_involutive sg), Hx. }
  split; [intros Hx; apply Hr0; by rewrite <- (rev_involutive r), Hx|].
  assert (E + Z.of_nat (length sg) = E + Z.of_nat k + Z.of_nat (length (rev r))) as -> by (rewrite Hsg, length_app, length_replicate; lia).
  done.
Qed.

Lemma atof_value_ok sg tr E n d : kept sg tr E n d -> exists b, atof_value sg tr E = Some b /\ rounds n d b.
Proof.
  intros Hk. assert (sg <> []) as Hne by (destruct Hk as [_ Hl _ _ _ _ _]; by destruct sg; [simpl in Hl; lia|]).
  destruct (atof_value_cases sg tr E Hne) as (sg' & k & Hsg & Hne' & ->).
  destruct (Z.ltb_spec 320 (E + Z.of_nat (length sg))); [exists nurl__inf; split; [done|by apply (kept_huge sg tr E)]|].
  destruct (Z.ltb_spec (E + Z.of_nat (length sg)) (-350)); [exists 0; split; [done|by apply (kept_tiny sg tr E)]|].
  apply paths_ok; [by apply (kept_stands sg tr E n d sg' k)|].
  destruct Hk as [Hd _ Hh _ _ _ _]. rewrite Hsg in Hd. apply Forall_app in Hd as [Hd _]. apply take_pos; try done; [lia|].
  assert (0 < length sg')%nat by (by destruct sg'; [|simpl; lia]).
  rewrite Hsg, digits_val_zeros, length_app, length_replicate in Hh.
  apply (Z.mul_le_mono_pos_r _ _ (10 ^ Z.of_nat k)); [apply pow10_pos; lia|]. rewrite <- Z.pow_add_r by lia.
  by replace (Z.of_nat (length sg') - 1 + Z.of_nat k) with (Z.of_nat (length sg' + k) - 1) by lia.
Qed.
