(* ===== verification/AtofText.v ===== *)
(** The text of a number, [nurl__atof_core] in [src/stdlib/runtime_core.c]: a
    grammar by its parts, and the scan of the code against it. *)

From Stdlib Require Import String.
From S2P Require Import Prelude Dtoa Float Atof AtofBig AtofExact AtofPack AtofApprox AtofValue.

Open Scope word_scope.

(** * The grammar *)

(** The digits at the start, and the rest. *)
Fixpoint span (p : list Z) : list Z * list Z :=
  match p with
  | c :: p' => if is_digit c then let '(d, r) := span p' in (c :: d, r) else ([], p)
  | [] => ([], [])
  end.

(** [(e|E)[+-]?digits]: its value and its length, both 0 if it is not one. *)
Definition read_exponent (r : list Z) : Z * Z :=
  match r with
  | c :: r' =>
      if (c =? 101) || (c =? 69) then
        let '(eneg, k, r'') :=
          match r' with
          | c' :: t => if c' =? 45 then (true, 2, t) else if c' =? 43 then (false, 2, t) else (false, 1, r')
          | [] => (false, 1, r')
          end in
        let ds := fst (span r'') in
        if (length ds =? 0)%nat then (0, 0) else (if eneg then - dval ds else dval ds, k + len ds)
      else (0, 0)
  | [] => (0, 0)
  end.

(** [digits[.digits][exponent]]: the digits without the point, the power of ten
    they are multiplied by, and the length of the text. *)
Definition read_decimal (s : list Z) : option (list Z * Z * Z) :=
  let '(ip, r1) := span s in
  let '(dot, fp, r2) :=
    match r1 with
    | c :: r' => if c =? 46 then let '(fp, r2) := span r' in (1, fp, r2) else (0, [], r1)
    | [] => (0, [], r1)
    end in
  let D := ip ++ fp in
  if (length D =? 0)%nat then None
  else let '(x, m) := read_exponent r2 in Some (D, x - len fp, len ip + dot + len fp + m).

(** What a text says, with the bytes it takes. *)
Inductive meaning : Type :=
| Nothing
| Infinite (neg : bool) (used : Z)
| NotANumber (neg : bool) (used : Z)
| Decimal (neg : bool) (D : list Z) (X used : Z).

Definition meaning_of (p : list Z) : meaning :=
  let '(neg, i, s) :=
    match p with
    | c :: p' => if c =? 45 then (true, 1, p') else if c =? 43 then (false, 1, p') else (false, 0, p)
    | [] => (false, 0, p)
    end in
  if nurl__ci_prefix s (bytes_of "infinity"%string) then Infinite neg (i + 8)
  else if nurl__ci_prefix s (bytes_of "inf"%string) then Infinite neg (i + 3)
  else if nurl__ci_prefix s (bytes_of "nan"%string) then NotANumber neg (i + 3)
  else match read_decimal s with None => Nothing | Some (D, X, m) => Decimal neg D X (i + m) end.

(** * The digits *)

Lemma is_digit_spec c : is_digit c = true <-> 48 <= c <= 57.
Proof. unfold is_digit. rewrite andb_true_iff, !Z.leb_le. done. Qed.

Lemma span_spec p : let '(d, r) := span p in
  p = d ++ r /\ Forall isdigit d /\ match r with c :: _ => is_digit c = false | [] => True end.
Proof.
  induction p as [|c p IH]; [done|]. simpl. destruct (is_digit c) eqn:Hc; [|by split].
  destruct (span p) as [d r]. destruct IH as (-> & Hd & Hr). split; [done|]. split; [|done].
  constructor; [by apply is_digit_spec|done].
Qed.

Lemma dval_snoc D c : dval (D ++ [c]) = dval D * 10 + (c - 48).
Proof. rewrite dval_app. unfold len, dval. simpl. lia. Qed.

(** What the scan knows after the digits [D], [frac] of them behind the point. *)
Record scanned (D : list Z) (frac : Z) (s : scan) : Prop := {
  sc_digits : digits_ok (sig s);
  sc_len : (length (sig s) <= 800)%nat;
  sc_frac : 0 <= frac <= len D /\ (sawdot s = false -> frac = 0);
  sc_none : sig s = [] -> sc_E s = - frac /\ truncated s = false;
  sc_head : sig s <> [] -> 10 ^ (Z.of_nat (length (sig s)) - 1) <= digits_val (sig s);
  sc_dropped : 0 <= sc_E s + frac /\ sc_E s + frac + Z.of_nat (length (sig s)) <= len D;
  sc_full : 0 < sc_E s + frac -> length (sig s) = 800%nat;
  sc_exact : truncated s = false -> dval D = digits_val (sig s) * 10 ^ (sc_E s + frac);
  sc_trunc : truncated s = true -> length (sig s) = 800%nat /\
    digits_val (sig s) * 10 ^ (sc_E s + frac) < dval D < (digits_val (sig s) + 1) * 10 ^ (sc_E s + frac);
  sc_digit : sawdigit s = negb (length D =? 0)%nat;
  sc_nonzero : nonzero s = negb (dval D =? 0) }.

Definition fraction (s : scan) : Z := if sawdot s then 1 else 0.

Lemma scan_digit D frac s c :
  scanned D frac s -> Forall isdigit D -> isdigit c ->
  exists s', scan_byte c s = Some s' /\ scanned (D ++ [c]) (frac + fraction s) s' /\ sawdot s' = sawdot s.
Proof.
  intros [H1 H2 H3 H4 H5 H6 H7 H8 H9 H10 H11] HD Hc. destruct s as [sg E dot sd nzr tr]. unfold fraction. simpl in *.
  unfold isdigit in Hc. unfold scan_byte. destruct (Z.eqb_spec c 46); [lia|].
  assert (is_digit c = true) as -> by (by apply is_digit_spec). simpl negb. cbv iota.
  set (f := if dot then 1 else 0). assert (0 <= f <= 1) as Hf by (unfold f; destruct dot; lia).
  assert ((if dot then E - 1 else E) = E - f) as -> by (unfold f; destruct dot; lia).
  assert ((if dot then E else E + 1) = E + 1 - f) as -> by (unfold f; destruct dot; lia).
  assert (len (D ++ [c]) = len D + 1) as Hlen by (rewrite len_app; done).
  pose proof (dval_bound D HD) as HDb.
  assert (negb (length (D ++ [c]) =? 0)%nat = true) as Hne by (rewrite length_app; simpl; rewrite Nat.add_1_r; done).
  assert (nzr || negb (c - 48 =? 0) = negb (dval (D ++ [c]) =? 0)) as Hnz.
  { rewrite H11, dval_snoc. destruct (Z.eqb_spec (dval D) 0), (Z.eqb_spec (c - 48) 0), (Z.eqb_spec (dval D * 10 + (c - 48)) 0); done || lia. }
  assert (dot = false -> frac + f = 0) as Hdot by (intros Hd; unfold f; by rewrite Hd, (proj2 H3 Hd)).
  assert (0 <= frac + f <= len D + 1 /\ (dot = false -> frac + f = 0)) as Hfr by (split; [destruct H3; lia|done]).
  destruct ((length sg =? 0)%nat && (c - 48 =? 0)) eqn:Hlead; [|destruct (Nat.ltb_spec (length sg) NURL_ATOF_MAXSIG) as [Hlt|Hge]].
  - apply andb_true_iff in Hlead as [Hl Hz]. apply Nat.eqb_eq in Hl. apply Z.eqb_eq in Hz. apply nil_length_inv in Hl. subst sg.
    destruct (H4 eq_refl) as [-> ->]. eexists. split; [reflexivity|]. split; [|done]. specialize (H8 eq_refl).
    split; simpl; rewrite ?Hlen, ?Hne, ?Hnz; try done; try lia.
    + rewrite dval_snoc, H8. intros _. replace (- frac + frac) with 0 by lia. replace (- frac - f + (frac + f)) with 0 by lia. simpl. unfold digits_val; simpl. lia.
  - unfold NURL_ATOF_MAXSIG in Hlt. eexists. split; [reflexivity|]. split; [|done].
    assert (E + frac = 0) as HE0 by (destruct (Z.lt_ge_cases 0 (E + frac)) as [Hp|]; [specialize (H7 Hp); lia|lia]).
    assert (tr = false) as -> by (destruct tr; [destruct (H9 eq_refl); lia|done]). specialize (H8 eq_refl). rewrite HE0 in H8. simpl in H8.
    split; simpl; rewrite ?Hlen, ?Hne, ?Hnz, ?digits_val_snoc; try done; try lia.
    + apply Forall_app. split; [done|]. constructor; [lia|constructor].
    + rewrite length_app. simpl. lia.
    + intros _. rewrite length_app. simpl. replace (Z.of_nat (length sg + 1) - 1) with (Z.of_nat (length sg)) by lia.
      destruct sg as [|x sg]; [unfold digits_val; simpl in *; apply Z.eqb_neq in Hlead; lia|].
      specialize (H5 ltac:(done)).
      replace (Z.of_nat (length (x :: sg))) with (Z.succ (Z.of_nat (length (x :: sg)) - 1)) by lia. rewrite Z.pow_succ_r by (simpl; lia). lia.
    + rewrite length_app. simpl. lia.
    + rewrite dval_snoc, H8. intros _. replace (E - f + (frac + f)) with 0 by lia. lia.
  - unfold NURL_ATOF_MAXSIG in Hge. assert (length sg = 800)%nat as H800 by lia. eexists. split; [reflexivity|]. split; [|done].
    assert (E + 1 - f + (frac + f) = Z.succ (E + frac)) as HE by lia.
    assert (0 < 10 ^ (E + frac)) as Hp by (apply pow10_pos; lia).
    split; simpl; rewrite ?Hlen, ?Hne, ?Hnz, ?HE, ?Z.pow_succ_r, ?dval_snoc by lia; try done; try lia.
    + intros ->. simpl in H800. lia.
    + intros Ht. apply orb_false_iff in Ht as [Ht Hz]. specialize (H8 Ht). apply negb_false_iff, Z.eqb_eq in Hz. lia.
    + intros Ht. split; [done|]. destruct tr; simpl in Ht.
      * destruct (H9 eq_refl). nia.
      * specialize (H8 eq_refl). apply negb_true_iff, Z.eqb_neq in Ht. lia.
Qed.

Lemma scan_run l : forall D frac s p i,
  scanned D frac s -> Forall isdigit D -> Forall isdigit l ->
  exists s', scan_digits (l ++ p) i s = scan_digits p (i + len l) s' /\ scanned (D ++ l) (frac + fraction s * len l) s' /\ sawdot s' = sawdot s.
Proof.
  induction l as [|c l IH]; intros D frac s p i Hs HD Hl.
  - exists s. unfold len. simpl. by rewrite Z.mul_0_r, !Z.add_0_r, app_nil_r.
  - apply Forall_cons in Hl as [Hc Hl]. destruct (scan_digit D frac s c Hs HD Hc) as (s1 & H1 & H2 & H3).
    destruct (IH (D ++ [c]) (frac + fraction s) s1 p (i + 1) H2) as (s2 & H4 & H5 & H6); [apply Forall_app; split; [done|by apply Forall_singleton]|done|].
    exists s2. simpl. rewrite H1, H4, cons_middle, app_assoc. split; [|split; [|congruence]].
    + f_equal. unfold len. simpl. lia.
    + unfold fraction in H5. rewrite H3 in H5. fold (fraction s) in H5.
      replace (frac + fraction s * len (c :: l)) with (frac + fraction s + fraction s * len l) by (unfold len; simpl length; lia). done.
Qed.

Lemma scan_stop p i s :
  match p with c :: _ => is_digit c = false /\ (c = 46 -> sawdot s = true) | [] => True end -> scan_digits p i s = (s, i, p).
Proof.
  destruct p as [|c p]; [done|]. intros [Hc Hd]. destruct s as [sg E dot sd nzr tr]. simpl in *. unfold scan_byte.
  destruct (Z.eqb_spec c 46) as [->|]; [by rewrite Hd|]. by rewrite Hc.
Qed.

(** The loop stops where the digits of the grammar end. *)
Lemma scan_text p i :
  let '(ip, r1) := span p in
  let '(dot, fp, r2) :=
    match r1 with
    | c :: r' => if c =? 46 then let '(fp, r2) := span r' in (1, fp, r2) else (0, [], r1)
    | [] => (0, [], r1)
    end in
  exists s, scan_digits p i scan_start = (s, i + len ip + dot + len fp, r2) /\ scanned (ip ++ fp) (len fp) s /\
    Forall isdigit (ip ++ fp) /\ len p = len ip + dot + len fp + len r2 /\ 0 <= dot.
Proof.
  pose proof (span_spec p) as Hspan. destruct (span p) as [ip r1]. destruct Hspan as (-> & Hip & Hr1).
  assert (scanned [] 0 scan_start) as H0 by (split; simpl; done || lia || constructor; done).
  destruct (scan_run ip [] 0 scan_start r1 i H0 ltac:(constructor) Hip) as (s1 & E1 & S1 & D1). rewrite E1. simpl app in S1.
  change (fraction scan_start) with 0 in S1. rewrite Z.mul_0_l, Z.add_0_r in S1. change (sawdot scan_start) with false in D1.
  destruct r1 as [|c r'].
  { exists s1. rewrite scan_stop by done. rewrite !app_nil_r. unfold len at 2 3 5. simpl. rewrite !Z.add_0_r. split; [done|]. split; [done|]. split; [done|]. unfold len. simpl. lia. }
  destruct (Z.eqb_spec c 46) as [->|Hne].
  - pose proof (span_spec r') as Hspan. destruct (span r') as [fp r2]. destruct Hspan as (-> & Hfp & Hr2).
    destruct s1 as [sg E dot sd nzr tr]. simpl in D1. subst dot. cbn [scan_digits]. unfold scan_byte at 1. simpl (46 =? 46). cbv iota.
    set (s1 := Scan sg E true sd nzr tr).
    assert (scanned ip 0 s1) as S2 by (destruct S1 as [A1 A2 A3 A4 A5 A6 A7 A8 A9 A10 A11]; split; simpl in *; done || lia).
    destruct (scan_run fp ip 0 s1 r2 (i + len ip + 1) S2 Hip Hfp) as (s2 & E2 & S3 & D2). rewrite E2.
    exists s2. rewrite scan_stop by (destruct r2; [done|]; split; [done|by rewrite D2]).
    change (fraction s1) with 1 in S3. rewrite Z.mul_1_l in S3. split; [done|]. split; [done|]. split; [by apply Forall_app|].
    rewrite !len_app. unfold len. simpl. rewrite !length_app. lia.
  - exists s1. rewrite scan_stop by (split; done). rewrite app_nil_r. change (len []) with 0. rewrite !Z.add_0_r. split; [done|]. split; [done|]. split; [done|]. rewrite len_app. lia.
Qed.

(** * The exponent *)

Lemma scan_exponent_spec p : forall j ev any ds0,
  Forall isdigit ds0 -> (ev = dval ds0 \/ 1000000 <= ev <= dval ds0) -> any = negb (length ds0 =? 0)%nat ->
  let ds := fst (span p) in
  exists ev', scan_exponent p j ev any = (ev', negb (length (ds0 ++ ds) =? 0)%nat, j + len ds) /\
    (ev' = dval (ds0 ++ ds) \/ 1000000 <= ev' <= dval (ds0 ++ ds)).
Proof.
  induction p as [|c p IH]; intros j ev any ds0 H0 Hev ->; simpl.
  { exists ev. change (len []) with 0. by rewrite app_nil_r, Z.add_0_r. }
  destruct (is_digit c) eqn:Hc; simpl negb; cbv iota.
  2:{ exists ev. simpl. change (len []) with 0. by rewrite app_nil_r, Z.add_0_r. }
  apply is_digit_spec in Hc. pose proof (dval_bound _ H0) as Hb.
  destruct (IH (j + 1) (if ev <? 1000000 then ev * 10 + (c - 48) else ev) true (ds0 ++ [c])) as (ev' & E & Hev').
  - apply Forall_app. split; [done|by apply Forall_singleton].
  - rewrite dval_snoc. destruct (Z.ltb_spec ev 1000000); lia.
  - rewrite length_app. simpl. by rewrite Nat.add_1_r.
  - destruct (span p) as [ds r]. simpl in *. rewrite <- app_assoc in E, Hev'. simpl in E, Hev'. exists ev'. rewrite E. split; [|done].
    f_equal. unfold len. simpl. lia.
Qed.

(** The exponent the code adds is the one of the text, or both are past a million. *)
Definition near_exponent (ev x : Z) : Prop := ev = x \/ 1000000 <= ev <= x \/ x <= ev <= -1000000.

Lemma exponent_part_spec r i :
  let '(x, m) := read_exponent r in exists ev, exponent_part r i true = (ev, i + m) /\ near_exponent ev x /\ 0 <= m.
Proof.
  unfold read_exponent, exponent_part. destruct r as [|c r']; [exists 0; rewrite Z.add_0_r; split_and!; try done; by left|].
  simpl andb. destruct ((c =? 101) || (c =? 69)) eqn:Hc; [|exists 0; rewrite Z.add_0_r; split_and!; try done; by left].
  assert (exists eneg k r'',
    (match r' with c' :: t => if c' =? 45 then (true, 2, t) else if c' =? 43 then (false, 2, t) else (false, 1, r') | [] => (false, 1, r') end) = (eneg, k, r'') /\
    (match r' with c' :: p'' => if (c' =? 45) || (c' =? 43) then (c' =? 45, p'', i + 2) else (false, r', i + 1) | [] => (false, r', i + 1) end) = (eneg, r'', i + k) /\ 0 <= k) as (eneg & k & r'' & -> & -> & Hk).
  { destruct r' as [|c' t]; [by exists false, 1, []|]. destruct (Z.eqb_spec c' 45) as [->|]; [by exists true, 2, t|].
    destruct (Z.eqb_spec c' 43) as [->|]; [by exists false, 2, t|by exists false, 1, (c' :: t)]. }
  destruct (scan_exponent_spec r'' (i + k) 0 false [] ltac:(constructor) ltac:(by left) eq_refl) as (ev & -> & Hev). simpl app in *.
  destruct (Nat.eqb_spec (length (fst (span r''))) 0) as [H0|H0]; simpl negb; cbv iota.
  { exists 0. rewrite Z.add_0_r. split_and!; try done. by left. }
  exists (if eneg then - ev else ev). split; [f_equal; lia|]. split; [|unfold len; lia].
  unfold near_exponent. destruct eneg, Hev; lia.
Qed.

(** * The number *)

Section number.
Context (D : list Z) (frac x : Z) (s : scan) (Hs : scanned D frac s) (HD : Forall isdigit D).

Let X := x - frac.
Let n := dval D * 10 ^ Z.max X 0.
Let d := 10 ^ Z.max (- X) 0.

(** What the scan kept is what the text says. *)
Lemma scanned_kept : sig s <> [] -> kept (sig s) (truncated s) (sc_E s + x) n d.
Proof.
  intros Hne. destruct Hs as [H1 H2 H3 H4 H5 H6 H7 H8 H9 H10 H11]. pose proof (dval_bound D HD) as HDb.
  set (E := sc_E s) in *. set (Q := 10 ^ (Z.max X 0 + Z.max (- (E + x)) 0)).
  assert (n * 10 ^ Z.max (- (E + x)) 0 = dval D * Q) as En by (unfold n, Q; rewrite Z.pow_add_r by lia; ring).
  assert (forall y, y * 10 ^ Z.max (E + x) 0 * d = y * 10 ^ (E + frac) * Q) as Ed.
  { intros y. unfold d, Q, X. rewrite <- !Z.mul_assoc, <- !Z.pow_add_r by lia. do 2 f_equal. lia. }
  assert (0 < Q) as HQ by (apply pow10_pos; lia).
  split; try done.
  - destruct (sig s); [done|simpl in *; lia].
  - by apply H5.
  - apply Z.mul_nonneg_nonneg; [lia|apply Z.pow_nonneg; lia].
  - apply pow10_pos; lia.
  - intros Ht. by rewrite En, Ed, (H8 Ht).
  - intros Ht. destruct (H9 Ht) as [Hl [Ha Hb]]. split; [done|]. rewrite En, !Ed. split; by apply Z.mul_lt_mono_pos_r.
Qed.

Lemma number_ok ev :
  near_exponent ev x -> len D < 900000 ->
  exists b, (if (length (sig s) =? 0)%nat then Some 0 else atof_value (sig s) (truncated s) (sc_E s + ev)) = Some b /\ rounds n d b.
Proof.
  intros Hev Hlen. destruct (Nat.eqb_spec (length (sig s)) 0) as [H0|H0].
  { exists 0. split; [done|]. apply nil_length_inv in H0. apply rounds_exact; [apply pow10_pos; lia|unfold INF; lia|].
    assert (dval D = 0) as Hz by (rewrite (sc_exact _ _ _ Hs) by (by apply (sc_none _ _ _ Hs)); by rewrite H0).
    unfold n. rewrite Hz. done. }
  assert (sig s <> []) as Hne by (by destruct (sig s)). pose proof (scanned_kept Hne) as Hk.
  destruct (sc_dropped _ _ _ Hs) as [Hd1 Hd2]. pose proof (sc_frac _ _ _ Hs) as [Hf _]. pose proof (sc_len _ _ _ Hs) as Hl.
  destruct Hev as [->|Hev]; [by apply atof_value_ok|].
  destruct (atof_value_cases (sig s) (truncated s) (sc_E s + ev) Hne) as (sg' & k & _ & _ & ->).
  destruct Hev as [Hev|Hev].
  - destruct (Z.ltb_spec 320 (sc_E s + ev + Z.of_nat (length (sig s)))); [|lia]. exists nurl__inf. split; [done|].
    apply (kept_huge _ _ _ _ _ Hk). lia.
  - destruct (Z.ltb_spec 320 (sc_E s + ev + Z.of_nat (length (sig s)))); [lia|].
    destruct (Z.ltb_spec (sc_E s + ev + Z.of_nat (length (sig s))) (-350)); [|lia]. exists 0. split; [done|].
    apply (kept_tiny _ _ _ _ _ Hk). lia.
Qed.
End number.

Definition out_of_range (b : Z) : bool := (INF <=? b) || (b <? 2 ^ 52).

Lemma decimal_spec s i neg :
  0 <= i -> len s < 900000 ->
  match read_decimal s with
  | None => decimal s i neg = Some (Number 0 0 false)
  | Some (D, X, m) => exists b, rounds (dval D * 10 ^ Z.max X 0) (10 ^ Z.max (- X) 0) b /\
      decimal s i neg = Some (Number (with_sign neg b) (i + m) (negb (dval D =? 0) && out_of_range b))
  end.
Proof.
  intros Hi Hlen. unfold read_decimal, decimal. pose proof (scan_text s i) as Ht. destruct (span s) as [ip r1].
  destruct (match r1 with c :: r' => if c =? 46 then let '(fp, r2) := span r' in (1, fp, r2) else (0, [], r1) | [] => (0, [], r1) end) as [[dot fp] r2].
  destruct Ht as (st & -> & Hs & HD & Hl & Hdot). rewrite (sc_digit _ _ _ Hs).
  assert (0 <= len r2 /\ 0 <= len fp /\ 0 <= len ip) as (Hn1 & Hn2 & Hn3) by (unfold len; lia).
  destruct (Nat.eqb_spec (length (ip ++ fp)) 0) as [H0|H0]; simpl negb.
  - assert (exponent_part r2 (i + len ip + dot + len fp) false = (0, 0)) as -> by (by destruct r2).
    pose proof (sc_dropped _ _ _ Hs) as [H1 H2]. assert (length (sig st) = 0)%nat as -> by (unfold len in *; rewrite H0 in *; lia). done.
  - pose proof (exponent_part_spec r2 (i + len ip + dot + len fp)) as Hx. destruct (read_exponent r2) as [x m].
    destruct Hx as (ev & -> & Hev & Hm).
    assert (len (ip ++ fp) = len ip + len fp /\ 0 < len (ip ++ fp)) as [HlD HpD] by (split; [apply len_app|unfold len; lia]).
    destruct (number_ok (ip ++ fp) (len fp) x st Hs HD ev Hev ltac:(lia)) as (b & -> & Hb). exists b. split; [done|]. cbn [mbind option_bind].
    destruct (Z.eqb_spec (i + len ip + dot + len fp + m) 0); [lia|]. rewrite (sc_nonzero _ _ _ Hs). do 2 f_equal; lia.
Qed.

(** A digit and the point start no letters. *)
Lemma letters_none s i neg :
  (match s with c :: _ => is_digit c || (c =? 46) | [] => false end) = true -> letters s i neg = None.
Proof.
  destruct s as [|c s]; [done|]. intros Hc. unfold letters. simpl nurl__ci_prefix.
  assert (lower c = c /\ c < 58) as [-> Hlt].
  { apply orb_true_iff in Hc as [Hc|Hc]; [apply is_digit_spec in Hc|apply Z.eqb_eq in Hc]; unfold lower; destruct (Z.leb_spec 65 c); simpl; lia. }
  destruct (Z.eqb_spec c 105); [lia|]. destruct (Z.eqb_spec c 110); [lia|]. done.
Qed.

(** What the parser answers for a text, by its meaning. *)
Definition answers_meaning (mn : meaning) (r : number) : Prop :=
  match mn with
  | Nothing => r = Number 0 0 false
  | Infinite neg m => r = Number (with_sign neg INF) m false
  | NotANumber neg m => r = Number (with_sign neg nurl__qnan) m false
  | Decimal neg D X m => exists b, rounds (dval D * 10 ^ Z.max X 0) (10 ^ Z.max (- X) 0) b /\
      r = Number (with_sign neg b) m (negb (dval D =? 0) && out_of_range b)
  end.

Lemma atof_core_spec p : len p < 900000 -> exists r, nurl__atof_core p = Some r /\ answers_meaning (meaning_of p) r.
Proof.
  intros Hlen. unfold nurl__atof_core, meaning_of. destruct p as [|c p']; [by exists (Number 0 0 false)|].
  destruct (if c =? 45 then (true, 1, p') else if c =? 43 then (false, 1, p') else (false, 0, c :: p')) as [[neg i] s] eqn:Hs.
  assert (0 <= i /\ len s < 900000) as [Hi Hls].
  { unfold len in *. simpl length in *. destruct (c =? 45); [|destruct (c =? 43)]; injection Hs as <- <- <-; simpl length; lia. }
  clear Hs Hlen. pose proof (decimal_spec s i neg Hi Hls) as Hdec.
  assert (exists r, decimal s i neg = Some r /\
    answers_meaning (match read_decimal s with None => Nothing | Some (D, X, m) => Decimal neg D X (i + m) end) r) as Hd.
  { destruct (read_decimal s) as [[[D X] m]|]; [destruct Hdec as (b & Hb & ->); eexists; split; [done|by exists b]|by eexists]. }
  assert (negb (is_digit (match s with c0 :: _ => c0 | [] => 0 end) || ((match s with c0 :: _ => c0 | [] => 0 end) =? 46)) = false -> letters s i neg = None) as Hnone.
  { intros Hx. apply negb_false_iff in Hx. apply letters_none. by destruct s. }
  unfold letters in *. change (bytes_of "infinity"%string) with [105; 110; 102; 105; 110; 105; 116; 121].
  change (bytes_of "inf"%string) with [105; 110; 102]. change (bytes_of "nan"%string) with [110; 97; 110].
  destruct (negb _); destruct (nurl__ci_prefix s [105; 110; 102; 105; 110; 105; 116; 121]); try (by eexists; split); try (by specialize (Hnone eq_refl));
    destruct (nurl__ci_prefix s [105; 110; 102]); try (by eexists; split); try (by specialize (Hnone eq_refl));
    destruct (nurl__ci_prefix s [110; 97; 110]); try (by eexists; split); try (by specialize (Hnone eq_refl)); done.
Qed.

(** The digits of a meaning are digits. *)
Lemma meaning_nonneg p neg D X m : meaning_of p = Decimal neg D X m -> 0 <= dval D * 10 ^ Z.max X 0.
Proof.
  intros H. assert (Forall isdigit D) as HD.
  { unfold meaning_of in H.
    destruct (match p with c :: p' => if c =? 45 then (true, 1, p') else if c =? 43 then (false, 1, p') else (false, 0, p) | [] => (false, 0, p) end) as [[neg' i] s].
    destruct (nurl__ci_prefix s _); [done|]. destruct (nurl__ci_prefix s _); [done|]. destruct (nurl__ci_prefix s _); [done|].
    unfold read_decimal in H. pose proof (scan_text s 0) as Ht. destruct (span s) as [ip r1].
    destruct (match r1 with c :: r' => if c =? 46 then let '(fp, r2) := span r' in (1, fp, r2) else (0, [], r1) | [] => (0, [], r1) end) as [[dot fp] r2].
    destruct Ht as (_ & _ & _ & HD & _). destruct (length (ip ++ fp) =? 0)%nat; [done|]. destruct (read_exponent r2) as [x k]. by injection H as _ <- _ _. }
  apply Z.mul_nonneg_nonneg; [by apply dval_bound|apply Z.pow_nonneg; lia].
Qed.
