(* ===== verification/AtofPrint.v ===== *)
(** What the formatter of [src/unikernel/nolibc/dtoa.c] prints, read back by the
    parser of [src/stdlib/runtime_core.c]: the digits behind the point needed
    for the same double to come back. *)

From Stdlib Require Import String.
From S2P Require Import Prelude Dtoa Float Atof AtofBig AtofExact AtofPack AtofApprox AtofValue AtofText.

(** * The magnitude of a pattern *)

Definition magnitude (bits : Z) : Z := bits mod 2 ^ 63.
Definition negative (bits : Z) : bool := 2 ^ 63 <=? bits.

(** The distance to the double below. *)
Definition gap (b : Z) : Z := sval b - sval (b - 1).

Lemma magnitude_bits bits : is_double bits -> 0 <= magnitude bits < 2 ^ 63 /\ bits = with_sign (negative bits) (magnitude bits).
Proof.
  intros Hd. unfold is_double in Hd. unfold magnitude, negative, with_sign. pose proof (Z.mod_pos_bound bits (2 ^ 63) ltac:(lia)).
  split; [done|]. destruct (Z.leb_spec (2 ^ 63) bits); zdiv.
Qed.

Lemma finite_magnitude bits : is_finite bits -> magnitude bits < INF.
Proof.
  intros [Hd Hb]. unfold is_double in Hd. unfold dbl_be in Hb. rewrite Z.shiftr_div_pow2 in Hb by lia.
  change 2047 with (Z.ones 11) in Hb. rewrite Z.land_ones in Hb by lia. change (Z.ones 11) with 2047 in Hb. unfold magnitude, INF. zdiv.
Qed.

(** The two readings of a pattern agree. *)
Lemma dbl_scaled_sval bits : is_double bits -> dbl_scaled bits = sval (magnitude bits) * 5 ^ 1074.
Proof.
  intros Hd. unfold is_double in Hd. unfold dbl_scaled. f_equal. unfold sval, double_of, dbl_mant, dbl_e2, dbl_be.
  rewrite Z.shiftr_div_pow2 by lia. change 2047 with (Z.ones 11). change (2 ^ 52 - 1) with (Z.ones 52). rewrite !Z.land_ones by lia.
  assert (magnitude bits / 2 ^ 52 = bits / 2 ^ 52 mod 2 ^ 11) as -> by (unfold magnitude; zdiv).
  assert (magnitude bits mod 2 ^ 52 = bits mod 2 ^ 52) as -> by (unfold magnitude; zdiv).
  destruct (Z.eqb_spec (bits / 2 ^ 52 mod 2 ^ 11) 0); [done|]. f_equal.
  pose proof (lor_low 1 (bits mod 2 ^ 52) 52 ltac:(lia) (Z.mod_pos_bound bits (2 ^ 52) ltac:(lia))) as H. rewrite Z.mul_1_l in H. rewrite Z.lor_comm, H. lia.
Qed.

Lemma sign_of_neg bits : is_double bits -> sign_of bits = if negative bits then [45] else [].
Proof.
  intros Hd. unfold is_double in Hd. unfold sign_of, negative. rewrite Z.shiftr_div_pow2 by lia.
  destruct (Z.eqb_spec (bits / 2 ^ 63) 0), (Z.leb_spec (2 ^ 63) bits); simpl; try done; zdiv.
Qed.

(** The gaps do not shrink. *)
Lemma gap_next b : 0 < b -> gap b <= gap (b + 1).
Proof.
  intros Hb. unfold gap. replace (b + 1 - 1) with b by lia.
  pose proof (sval_next (b - 1) ltac:(lia)) as H1. pose proof (sval_next b ltac:(lia)) as H2.
  replace (b - 1 + 1) with b in H1 by lia. unfold sval at 2. unfold sval at 3.
  assert (let '(_, F) := double_of (b - 1) in let '(_, F') := double_of b in F <= F' /\ 0 <= F + 1074) as HF.
  { unfold double_of. pose proof (Z.div_le_mono (b - 1) b (2 ^ 52) ltac:(lia) ltac:(lia)). pose proof (Z.div_pos (b - 1) (2 ^ 52) ltac:(lia) ltac:(lia)).
    destruct (Z.eqb_spec ((b - 1) / 2 ^ 52) 0), (Z.eqb_spec (b / 2 ^ 52) 0); lia. }
  assert (sval b = let '(M, F) := double_of b in M * 2 ^ (F + 1074)) as Hb2 by done.
  destruct (double_of (b - 1)) as [M F], (double_of b) as [M' F']. destruct HF as [HF HF0].
  assert (2 ^ (F + 1074) <= 2 ^ (F' + 1074)) by (apply Z.pow_le_mono_r; lia). lia.
Qed.

(** Rounding is off by half a unit at most. *)
Lemma rhe_error A P : 0 < P -> 2 * Z.abs (rhe A P * P - A) <= P.
Proof.
  intros HP. unfold rhe. pose proof (Z.div_mod A P ltac:(lia)). pose proof (Z.mod_pos_bound A P HP).
  set (q := A / P) in *. set (r := A mod P) in *. clearbody q r. zcases; try destruct (Z.even q); lia.
Qed.

(** A decimal within half a unit of its last place rounds to the double it was
    made from if that unit is smaller than the gap. *)
Lemma rounds_printed b prec R :
  0 <= b < INF -> 0 <= prec -> (0 < b -> 2 ^ 1074 < gap b * 10 ^ prec) ->
  R = rhe (sval b * 5 ^ 1074 * 10 ^ prec) (10 ^ 1074) -> rounds R (10 ^ prec) b.
Proof.
  intros Hb Hp Hgap HR. pose proof (pow10_pos prec Hp) as Hp10.
  assert (2 * Z.abs (R * 2 ^ 1074 - sval b * 10 ^ prec) <= 2 ^ 1074) as Herr.
  { set (A := sval b * 5 ^ 1074 * 10 ^ prec) in *.
    assert (2 * Z.abs (R * 10 ^ 1074 - A) <= 10 ^ 1074) as H by (rewrite HR; by apply rhe_error).
    assert (10 ^ 1074 = 2 ^ 1074 * 5 ^ 1074) as HP by (by vm_compute).
    assert (0 < 5 ^ 1074) as H5 by (by apply Z.ltb_lt; vm_compute).
    rewrite HP in H. unfold A in H. clear A HR HP.
    revert H H5. clear Hgap. generalize (2 ^ 1074), (5 ^ 1074). intros T F H H5.
    replace (R * (T * F) - sval b * F * 10 ^ prec) with ((R * T - sval b * 10 ^ prec) * F) in H by ring.
    rewrite Z.abs_mul, (Z.abs_eq F), Z.mul_assoc in H by lia. by apply Z.mul_le_mono_pos_r in H. }
  clear HR. destruct (Z.eq_dec b 0) as [->|Hb0].
  { change (sval 0) with 0 in Herr. rewrite Z.mul_0_l, Z.sub_0_r in Herr. assert (R = 0) as -> by (clear - Herr; lia).
    apply rounds_exact; [done|lia|done]. }
  specialize (Hgap ltac:(lia)). pose proof (gap_next b ltac:(lia)) as Hg. unfold gap in Hgap, Hg. replace (b + 1 - 1) with b in Hg by lia.
  assert (mid (b - 1) * 10 ^ prec < R * 2 ^ 1075 < mid b * 10 ^ prec) as [Hlow Hup].
  { unfold mid. replace (b - 1 + 1) with b by lia. change (2 ^ 1075) with (2 * 2 ^ 1074). set (U := 2 ^ 1074) in *. clearbody U. split; nia. }
  split; [lia|intros _; split; [lia|done]|intros _; split; [lia|done]].
Qed.

(** * The text of the formatter *)

Lemma span_digits d r : Forall isdigit d -> match r with c :: _ => is_digit c = false | [] => True end -> span (d ++ r) = (d, r).
Proof.
  intros Hd Hr. induction Hd as [|c d Hc Hd IH]; simpl.
  - destruct r as [|c r]; [done|]. simpl. by rewrite Hr.
  - assert (is_digit c = true) as -> by (by apply is_digit_spec). by rewrite IH.
Qed.

(** An integer part, and a point with a fraction if there is one. *)
Definition plain (int frac : list Z) : list Z := int ++ (if 0 <? len frac then 46 :: frac else []).

Lemma read_plain int frac :
  int <> [] -> Forall isdigit int -> Forall isdigit frac -> read_decimal (plain int frac) = Some (int ++ frac, - len frac, len (plain int frac)).
Proof.
  intros Hne Hi Hf. unfold read_decimal, plain.
  assert ((length (int ++ frac) =? 0)%nat = false) as Hn by (destruct int; done).
  destruct (Z.ltb_spec 0 (len frac)) as [Hpos|H0].
  - rewrite span_digits by done. change (46 =? 46) with true. cbv iota. pose proof (span_digits frac [] Hf I) as Hs. rewrite app_nil_r in Hs. rewrite Hs.
    rewrite Hn. simpl read_exponent. cbv iota. do 2 f_equal. rewrite len_app. unfold len. simpl. lia.
  - assert (frac = []) as -> by (destruct frac; [done|unfold len in H0; simpl in H0; lia]).
    rewrite span_digits by done. rewrite Hn. simpl read_exponent. cbv iota. do 2 f_equal. rewrite !app_nil_r. unfold len. simpl. lia.
Qed.

Lemma ci_prefix_digit c p w : isdigit c -> match w with x :: _ => 58 <= x | [] => False end -> nurl__ci_prefix (c :: p) w = false.
Proof.
  intros Hc Hw. destruct w as [|x w]; [done|]. simpl. unfold isdigit in Hc. unfold lower.
  destruct (Z.leb_spec 65 c); [lia|]. simpl. destruct (Z.eqb_spec c x); [lia|done].
Qed.

(** A sign and a text that starts with a digit. *)
Lemma meaning_digit (neg : bool) c t : isdigit c ->
  meaning_of ((if neg then [45] else []) ++ c :: t) =
  match read_decimal (c :: t) with None => Nothing | Some (D, X, m) => Decimal neg D X (nz neg + m) end.
Proof.
  intros Hc. pose proof Hc as Hc'. unfold isdigit in Hc'. unfold meaning_of. destruct neg; simpl app; cbv beta iota.
  - change (45 =? 45) with true. cbv beta iota. by rewrite !ci_prefix_digit by (done || (simpl; lia)).
  - destruct (Z.eqb_spec c 45); [lia|]. destruct (Z.eqb_spec c 43); [lia|]. cbv beta iota. by rewrite !ci_prefix_digit by (done || (simpl; lia)).
Qed.

Lemma meaning_plain (neg : bool) int frac :
  int <> [] -> Forall isdigit int -> Forall isdigit frac ->
  meaning_of ((if neg then [45] else []) ++ plain int frac) =
  Decimal neg (int ++ frac) (- len frac) (len ((if neg then [45] else []) ++ plain int frac)).
Proof.
  intros Hne Hi Hf. pose proof (read_plain int frac Hne Hi Hf) as Hr. destruct int as [|c int]; [done|].
  assert (exists t, plain (c :: int) frac = c :: t) as [t Ht] by (by eexists).
  rewrite Ht in *. rewrite meaning_digit by (by apply Forall_cons in Hi as [? _]). rewrite Hr, len_app. by destruct neg.
Qed.

(** What [%f] prints. *)
Lemma format_plain bits prec :
  is_finite bits -> 0 <= prec ->
  exists int frac, nl_format_double bits ch_f prec false = sign_of bits ++ plain int frac /\
    Forall isdigit int /\ Forall isdigit frac /\ int <> [] /\ len frac = prec /\ len int <= 310 /\
    dval (int ++ frac) = rhe (dbl_scaled bits * 10 ^ prec) (10 ^ 1074).
Proof.
  intros Hf Hp. destruct (format_text bits prec false Hf Hp) as (int & frac & -> & Hi & Hfr & Hl & Hhead & Hv).
  exists int, frac. pose proof (dval_bound frac Hfr) as Hbf. pose proof (dval_bound int Hi) as Hbi. rewrite Hl in Hbf.
  split; [unfold plain; by rewrite Hl, orb_false_r|]. split; [done|]. split; [done|]. split; [by destruct Hhead as [->|[? _]]|]. split; [done|]. split; [|done].
  destruct Hhead as [->|[Hne Hh]]; [done|]. pose proof (dval_pos int Hi Hh Hne) as Hpos.
  destruct (Z.le_gt_cases (len int) 310) as [|Hgt]; [done|]. exfalso.
  assert (10 ^ 310 <= 10 ^ (len int - 1)) as Hbig by (apply Z.pow_le_mono_r; lia).
  destruct Hf as [Hd Hfin]. rewrite (dbl_scaled_sval bits Hd), dval_app, Hl in Hv.
  pose proof (finite_magnitude bits (conj Hd Hfin)) as Hm. destruct (magnitude_bits bits Hd) as [Hm0 _].
  pose proof (sval_mono (magnitude bits) INF ltac:(lia)) as Hs. pose proof (sval_nonneg (magnitude bits) ltac:(lia)) as Hs0.
  pose proof (pow10_pos prec Hp) as Hp10. rewrite sval_INF in Hs.
  assert (rhe (sval (magnitude bits) * 5 ^ 1074 * 10 ^ prec) (10 ^ 1074) <= 2 ^ 1024 * 10 ^ prec) as Hr.
  { apply rhe_le; [by apply Z.ltb_lt; vm_compute|]. replace (2 ^ 1024 * 10 ^ prec * 10 ^ 1074) with (2 ^ 1024 * 10 ^ 1074 * 10 ^ prec) by ring.
    apply Z.mul_le_mono_nonneg_r; [lia|]. replace (2 ^ 1024 * 10 ^ 1074) with (2 ^ 2098 * 5 ^ 1074) by (by vm_compute).
    apply Z.mul_le_mono_nonneg_r; [apply Z.pow_nonneg; lia|done]. }
  assert (2 ^ 1024 < 10 ^ 310) as Hc by (by apply Z.ltb_lt; vm_compute).
  assert (10 ^ 310 * 10 ^ prec <= dval int * 10 ^ prec) by (apply Z.mul_le_mono_nonneg_r; lia).
  assert (2 ^ 1024 * 10 ^ prec < 10 ^ 310 * 10 ^ prec) by (by apply Z.mul_lt_mono_pos_r). lia.
Qed.

Lemma print_parse bits prec :
  is_finite bits -> 0 <= prec < 800000 ->
  (0 < magnitude bits -> 2 ^ 1074 < gap (magnitude bits) * 10 ^ prec) ->
  nurl_fast_atof (nl_format_double bits ch_f prec false) = Some bits.
Proof.
  intros Hf [Hp Hmax] Hgap. pose proof (finite_magnitude bits Hf) as Hm. pose proof Hf as [Hd _].
  destruct (magnitude_bits bits Hd) as [Hm0 Hbits]. destruct (format_plain bits prec Hf Hp) as (int & frac & -> & Hi & Hfr & Hne & Hl & Hl310 & Hv).
  rewrite (sign_of_neg bits Hd). pose proof (meaning_plain (negative bits) int frac Hne Hi Hfr) as Hmean.
  set (p := (if negative bits then [45] else []) ++ plain int frac) in *.
  assert (len p < 900000) as Hlen.
  { unfold p. rewrite len_app. unfold plain. rewrite len_app.
    assert (len (if negative bits then [45] else []) <= 1) by (by destruct (negative bits)).
    assert (len (if 0 <? len frac then 46 :: frac else []) <= 1 + len frac) by (destruct (0 <? len frac); unfold len; simpl; lia). lia. }
  destruct (atof_core_spec p Hlen) as (r & E & Hr). rewrite Hmean in Hr. destruct Hr as (b & Hb & ->).
  unfold nurl_fast_atof. rewrite E. cbn [mbind option_bind value]. f_equal.
  rewrite Hl in Hb. replace (Z.max (- prec) 0) with 0 in Hb by lia. replace (Z.max (- - prec) 0) with prec in Hb by lia. rewrite Z.pow_0_r, Z.mul_1_r in Hb.
  rewrite Hbits at 2. f_equal. apply (rounds_unique (dval (int ++ frac)) (10 ^ prec)); [by apply pow10_pos|done|].
  apply rounds_printed; [lia|done|done|]. by rewrite <- (dbl_scaled_sval bits Hd).
Qed.
