(* ===== verification/AtofThms.v ===== *)
(** What the parser of decimal text promises: the correctly rounded double,
    whichever of its three paths answers. *)

From Stdlib Require Import String.
From S2P Require Import Prelude Dtoa Float Pow5Table Atof AtofBig AtofExact AtofPack AtofApprox AtofValue AtofText AtofPrint.

(** C12: The parser returns on every text of less than 900000 bytes, and answers
    what the grammar says the text is: nothing, an infinity, a NaN, or the
    double nearest to the decimal (half to even, infinity from the midpoint
    past the largest double on), with the number of bytes that belong to it,
    the sign on zero too, and [range] exactly when a decimal that is not zero
    became infinite or smaller than every normal double. *)
Theorem atof_correctly_rounded p :
  len p < 900000 ->
  exists r, nurl__atof_core p = Some r /\ nurl_fast_atof p = Some (value r) /\
    nurl_fast_atof_ex p = Some (value r, consumed r, nz (range r)) /\
    match meaning_of p with
    | Nothing => r = Number 0 0 false
    | Infinite neg m => r = Number (with_sign neg INF) m false
    | NotANumber neg m => r = Number (with_sign neg nurl__qnan) m false
    | Decimal neg D X m =>
        let n := dval D * 10 ^ Z.max X 0 in
        let d := 10 ^ Z.max (- X) 0 in
        let b := round_near n d in
        r = Number (with_sign neg b) m (negb (dval D =? 0) && out_of_range b) /\ rounds n d b /\
        forall c, 0 <= c < INF -> b < INF -> Z.abs (n * 2 ^ 1074 - sval b * d) <= Z.abs (n * 2 ^ 1074 - sval c * d)
    end.
Proof.
  intros Hp. destruct (atof_core_spec p Hp) as (r & E & Hr). exists r. unfold nurl_fast_atof, nurl_fast_atof_ex. rewrite E.
  split; [done|]. split; [done|]. split; [done|]. destruct (meaning_of p) as [|neg m|neg m|neg D X m] eqn:Hm; try exact Hr.
  destruct Hr as (b & Hb & ->). cbv zeta. set (n := dval D * 10 ^ Z.max X 0) in *. set (d := 10 ^ Z.max (- X) 0) in *.
  assert (0 < d) as Hd by (apply pow10_pos; lia). assert (0 <= n) as Hn by (by apply (meaning_nonneg p neg D X m)).
  rewrite (round_near_eq n d b Hn Hd Hb). split; [done|]. split; [done|]. intros c Hc Hfin. by apply rounds_nearest.
Qed.

(** C15: Path B, the 128-bit product with the table: when it calls its answer
    certain the answer is the double nearest to [w * 10^q], and otherwise it is
    some pattern up to infinity, fit to start the search. *)
Theorem certain_is_nearest w q :
  0 < w < 2 ^ 64 ->
  exists b certain, nurl__approx_pow10 w q = Some (b, certain) /\ 0 <= b <= INF /\
    (certain = true -> b = round_near (w * 10 ^ Z.max q 0) (10 ^ Z.max (- q) 0)).
Proof.
  intros Hw. destruct (approx_pow10_ok w q Hw) as (b & certain & E & Hb & Hc). exists b, certain. split; [done|]. split; [done|].
  intros Ht. symmetry. apply round_near_eq; [|apply pow10_pos; lia|by apply Hc].
  apply Z.mul_nonneg_nonneg; [lia|apply Z.pow_nonneg; lia].
Qed.

(** C16: Path C: the search over the bit patterns ends for every seed and finds
    the double nearest to the decimal, also when digits after the 800th were
    dropped: the seed only saves steps. *)
Theorem search_ignores_seed sg tr E n d seed :
  stands sg tr E n d -> 0 <= seed <= INF -> nurl__parse_exact sg tr E seed = Some (round_near n d).
Proof.
  intros Hst Hs. destruct (parse_exact_ok sg tr E n d Hst seed Hs) as (b & -> & Hb). f_equal. symmetry.
  apply round_near_eq; [by destruct Hst|by destruct Hst|done].
Qed.

(** C24: The comparison of path C is exact: for up to 800 digits and every
    exponent and candidate the parser meets, the two numbers it builds are lists
    of at most 232 words of 32 bits whose values are exactly the digits times
    [5^E 2^(E-t)] and [M] times [5^-E 2^(F-E-t)] (powers with a negative
    exponent left out), [t] the power of two both sides have: no carry is
    dropped and no shift cut short.  The answer is the sign of the difference of
    the decimal and the candidate, with a tie going up when digits were
    dropped. *)
Theorem comparison_exact sg tr E M F :
  digits_ok sg -> (length sg <= 800)%nat -> -1150 <= E <= 320 -> 0 <= M < 2 ^ 55 -> -1075 <= F <= 972 ->
  let t := Z.min (Z.max E 0) (F + Z.max (- E) 0) in
  let '(L, R) := cmp_sides sg E M F in
  (length L <= 232 /\ length R <= 232)%nat /\ Forall (fun w => 0 <= w < 2 ^ 32) (L ++ R) /\
  bval L = digits_val sg * 5 ^ Z.max E 0 * 2 ^ (Z.max E 0 - t) /\
  bval R = M * 5 ^ Z.max (- E) 0 * 2 ^ (F + Z.max (- E) 0 - t) /\
  let c := Z.sgn (digits_val sg * 10 ^ Z.max E 0 * 2 ^ Z.max (- F) 0 - M * 10 ^ Z.max (- E) 0 * 2 ^ Z.max F 0) in
  nurl__cmp_decimal sg tr E M F = if (c =? 0) && tr then 1 else c.
Proof.
  intros Hd Hl HE HM HF. assert (Hpre : cmp_pre sg E M F) by by split.
  pose proof (cmp_sides_spec sg E M F Hpre) as H. pose proof (cmp_decimal_spec sg tr E M F Hpre) as Hc. cbv zeta in H |- *.
  destruct (cmp_sides sg E M F) as [L R]. destruct H as [[L1 _ L2 L3] [R1 _ R2 R3]].
  split; [exact (conj L2 R2)|]. split; [by apply Forall_app|]. by split_and!.
Qed.

(** C23: What [%f] prints reads back as the same double, with 324 digits behind
    the point for every finite double, and with fewer as soon as the last of
    them is worth less than the distance to the double below. *)
Theorem print_parse_roundtrip bits prec :
  is_finite bits -> 0 <= prec < 800000 ->
  324 <= prec \/ (0 < magnitude bits -> 2 ^ 1074 < gap (magnitude bits) * 10 ^ prec) ->
  nurl_fast_atof (nl_format_double bits ch_f prec false) = Some bits.
Proof.
  intros Hf Hp [Hbig|Hgap]; apply print_parse; try done. intros Hm.
  assert (1 <= gap (magnitude bits)) as Hg.
  { unfold gap. pose proof (sval_step (magnitude bits - 1) ltac:(lia)) as H. replace (magnitude bits - 1 + 1) with (magnitude bits) in H by lia. lia. }
  assert (10 ^ 324 <= 10 ^ prec) as Hpow by (apply Z.pow_le_mono_r; lia).
  assert (2 ^ 1074 < 10 ^ 324) as Hc by (by apply Z.ltb_lt; vm_compute).
  apply (Z.lt_le_trans _ (1 * 10 ^ prec)); [lia|]. apply Z.mul_le_mono_nonneg_r; lia.
Qed.

(** * Witnesses *)

Definition demo_text : list Z := bytes_of "-12.50e-1x"%string.

Lemma atof_correctly_rounded_witness :
  len demo_text < 900000 /\ exists r, nurl_fast_atof demo_text = Some (value r) /\ r = Number (with_sign true (round_near 1250 1000)) 9 false.
Proof.
  split; [vm_compute; reflexivity|].
  destruct (atof_correctly_rounded demo_text ltac:(vm_compute; reflexivity)) as (r & _ & E & _ & H). exists r. split; [exact E|].
  assert (meaning_of demo_text = Decimal true (bytes_of "1250"%string) (-3) 9) as Hm by (vm_compute; reflexivity).
  rewrite Hm in H. destruct H as [H _]. rewrite H. vm_compute. reflexivity.
Defined.

Lemma certain_is_nearest_witness :
  exists b certain, nurl__approx_pow10 12345678901234567 (-30) = Some (b, certain) /\ b = round_near 12345678901234567 (10 ^ 30).
Proof.
  destruct (certain_is_nearest 12345678901234567 (-30) ltac:(lia)) as (b & certain & E & _ & H). exists b, certain. split; [exact E|].
  apply H. vm_compute in E. injection E as _ <-. reflexivity.
Defined.

(** One tenth. *)
Lemma tenth_stands : stands [1] false (-1) 1 10.
Proof. split; try done; [by repeat constructor|simpl; lia]. Qed.

Lemma search_ignores_seed_witness : nurl__parse_exact [1] false (-1) 7 = Some (round_near 1 10).
Proof. apply (search_ignores_seed [1] false (-1) 1 10 7); [exact tenth_stands|unfold INF; lia]. Defined.

(** One tenth against the double above it. *)
Lemma comparison_exact_witness :
  let '(L, R) := cmp_sides [1] (-1) 7205759403792794 (-56) in
  bval L = 2 ^ 55 /\ bval R = 7205759403792794 * 5 /\ nurl__cmp_decimal [1] false (-1) 7205759403792794 (-56) = -1.
Proof.
  pose proof (comparison_exact [1] false (-1) 7205759403792794 (-56)) as H. cbv zeta in H.
  destruct (cmp_sides [1] (-1) 7205759403792794 (-56)) as [L R].
  destruct H as (_ & _ & HL & HR & H); [repeat constructor; lia|simpl; lia|lia|lia|lia|].
  rewrite HL, HR, H. vm_compute. auto.
Defined.

(** A tenth needs 20 digits at most: the double below is 2^-57 away. *)
Lemma print_parse_roundtrip_witness : nurl_fast_atof (nl_format_double dbl_tenth ch_f 20 false) = Some dbl_tenth.
Proof.
  apply (print_parse_roundtrip dbl_tenth 20); [exact tenth_finite|lia|]. right. intros _. vm_compute. reflexivity.
Defined.
