(* ===== verification/Ryu.v ===== *)
(** The shortest decimal of a double, [src/stdlib/runtime_core.c] section 2b:
    the generator [nurl__shortest_decimal] and the text of [nurl_str_float].

    Words are wrapped where the C wraps them, booleans kept in C integers are
    booleans, a text is the list of its bytes.  [None] is a loop that does not
    end within its fuel, which the theorems exclude. *)

From S2P Require Import Prelude Dtoa Float Pow5Table Atof.

Open Scope word_scope.

(** * Arithmetic *)

Definition nurl__mul_shift (m : Z) (mul : Z * Z) (j : Z) : Z :=
  let s := j - 64 in
  let b0 := wrap 128 (m * fst mul) in
  let b2 := wrap 128 (m * snd mul) in
  wrap64 (Z.shiftr (wrap 128 (Z.shiftr b0 64 + b2)) s).

(** The same without a 128-bit type. *)
Definition mul_shift_portable (m : Z) (mul : Z * Z) (j : Z) : Z :=
  let s := j - 64 in
  let '(b0hi, _) := mul_halves m (fst mul) in
  let '(hi, lo) := mul_halves m (snd mul) in
  let carry := lo in
  let lo := lo +w b0hi in
  let hi := hi +w (if lo <? carry then 1 else 0) in
  if s =? 0 then lo else Z.lor (Z.shiftr lo s) (wrap64 (Z.shiftl hi (64 - s))).

Definition nurl__log10_pow2 (e : Z) : Z := Z.shiftr (wrap32 (e * 78913)) 18.
Definition nurl__log10_pow5 (e : Z) : Z := Z.shiftr (wrap32 (e * 732923)) 20.

(** [left] is [p] less the factors found so far. *)
Fixpoint multiple_of_pow5 (left : nat) (v : Z) : bool :=
  if v mod 5 =? 0 then
    match left with
    | O | S O => true
    | S l => multiple_of_pow5 l (v / 5)
    end
  else (left =? 0)%nat.

Definition nurl__multiple_of_pow5 (v p : Z) : bool := multiple_of_pow5 (Z.to_nat p) v.
Definition nurl__multiple_of_pow2 (v p : Z) : bool := Z.land v (wrap64 (Z.shiftl 1 p) - 1) =? 0.

(** * The generator *)

(** The significand and the exponent, with two bits for the halfway points. *)
Definition ryu_fields (mant biased_exp : Z) : Z * Z :=
  if biased_exp =? 0 then (mant, 1 - 1023 - 52 - 2) else (Z.lor (2 ^ 52) mant, biased_exp - 1023 - 52 - 2).

(** The value and the bounds of the interval, scaled to the exponent [e10]. *)
Record scaled := Scaled { vr : Z; vp : Z; vm : Z; e10 : Z; vm_tz : bool; vr_tz : bool }.

Definition scale_up (e2 mv mm_shift : Z) (accept_bounds : bool) : scaled :=
  let q := nurl__log10_pow2 e2 - nz (3 <? e2) in
  let k := NURL_POW5_INV_BITCOUNT + nurl__pow5_bits q - 1 in
  let i := - e2 + q + k in
  let T := NURL_POW5_INV !!! Z.to_nat q in
  let vr := nurl__mul_shift mv T i in
  let vp := nurl__mul_shift (mv +w 2) T i in
  let vm := nurl__mul_shift (mv - 1 -w mm_shift) T i in
  if q <=? 21 then
    if mv mod 5 =? 0 then Scaled vr vp vm q false (nurl__multiple_of_pow5 mv q)
    else if accept_bounds then Scaled vr vp vm q (nurl__multiple_of_pow5 (mv - 1 -w mm_shift) q) false
    else if nurl__multiple_of_pow5 (mv +w 2) q then Scaled vr (vp -w 1) vm q false false
    else Scaled vr vp vm q false false
  else Scaled vr vp vm q false false.

Definition scale_down (e2 mv mm_shift : Z) (accept_bounds : bool) : scaled :=
  let q := nurl__log10_pow5 (- e2) - nz (1 <? - e2) in
  let i := - e2 - q in
  let k := nurl__pow5_bits i - NURL_POW5_BITCOUNT in
  let j := q - k in
  let T := NURL_POW5 !!! Z.to_nat i in
  let vr := nurl__mul_shift mv T j in
  let vp := nurl__mul_shift (mv +w 2) T j in
  let vm := nurl__mul_shift (mv - 1 -w mm_shift) T j in
  if q <=? 1 then
    if accept_bounds then Scaled vr vp vm (q + e2) (mm_shift =? 1) true
    else Scaled vr (vp -w 1) vm (q + e2) false true
  else if q <? 63 then Scaled vr vp vm (q + e2) false (nurl__multiple_of_pow2 mv q)
  else Scaled vr vp vm (q + e2) false false.

(** The variables of the loops; [last] is [last_removed]. *)
Record trimming := Trimming { tr : Z; tp : Z; tm : Z; tr_tz : bool; tm_tz : bool; last : Z; removed : Z }.

(** Another digit goes: [vr], [vp] and [vm] by ten. *)
Definition drop_digit (t : trimming) (m_tz : bool) : trimming :=
  let vr10 := tr t / 10 in
  Trimming vr10 (tp t / 10) (tm t / 10) (tr_tz t && (last t =? 0)) m_tz (tr t - 10 * vr10) (removed t + 1).

(** [for (;;)] while the bounds differ, with the trailing zeros watched. *)
Fixpoint trim_exact (fuel : nat) (t : trimming) : option trimming :=
  match fuel with
  | O => None
  | S f =>
      if tp t / 10 <=? tm t / 10 then Some t
      else trim_exact f (drop_digit t (tm_tz t && (tm t - 10 * (tm t / 10) =? 0)))
  end.

(** [for (;;)] while the lower bound ends in a zero. *)
Fixpoint trim_zeros (fuel : nat) (t : trimming) : option trimming :=
  match fuel with
  | O => None
  | S f =>
      if negb (tm t - 10 * (tm t / 10) =? 0) then Some t
      else trim_zeros f (drop_digit t (tm_tz t))
  end.

(** The branch for bounds that are decimals themselves. *)
Definition finish_exact (accept_bounds : bool) (s : scaled) : option (Z * Z) :=
  t ← trim_exact 20 (Trimming (vr s) (vp s) (vm s) (vr_tz s) (vm_tz s) 0 0);
  t ← (if tm_tz t then trim_zeros 20 t else Some t);
  let last_removed := if tr_tz t && (last t =? 5) && (tr t mod 2 =? 0) then 4 else last t in
  let up := ((tr t =? tm t) && (negb accept_bounds || negb (tm_tz t))) || (5 <=? last_removed) in
  Some (tr t +w nz up, e10 s + removed t).

(** [for (;;)] of the common branch: the digits, [round_up] and [removed]. *)
Fixpoint trim_plain (fuel : nat) (vr vp vm : Z) (round_up : bool) (removed : Z) : option (Z * Z * bool * Z) :=
  match fuel with
  | O => None
  | S f =>
      if vp / 10 <=? vm / 10 then Some (vr, vm, round_up, removed)
      else trim_plain f (vr / 10) (vp / 10) (vm / 10) (5 <=? vr - 10 * (vr / 10)) (removed + 1)
  end.

Definition finish_plain (s : scaled) : option (Z * Z) :=
  let '(r, p, m, up, n) :=
    if vm s / 100 <? vp s / 100
    then (vr s / 100, vp s / 100, vm s / 100, 50 <=? vr s - 100 * (vr s / 100), 2)
    else (vr s, vp s, vm s, false, 0) in
  '(r, m, up, n) ← trim_plain 20 r p m up n;
  Some (r +w nz ((r =? m) || up), e10 s + n).

(** [digits] and [exp]. *)
Definition nurl__shortest_decimal (mant biased_exp : Z) : option (Z * Z) :=
  let '(m2, e2) := ryu_fields mant biased_exp in
  let even := Z.land m2 1 =? 0 in
  let accept_bounds := even in
  let mv := wrap64 (4 * m2) in
  let mm_shift := nz (negb (mant =? 0) || (biased_exp <=? 1)) in
  let s := if 0 <=? e2 then scale_up e2 mv mm_shift accept_bounds else scale_down e2 mv mm_shift accept_bounds in
  if vm_tz s || vr_tz s then finish_exact accept_bounds s else finish_plain s.

(** * The text *)

(** [do { digits[len++] = '0' + umag % 10; umag /= 10; } while (umag)]: least
    significant first. *)
Fixpoint put_digits (fuel : nat) (u : Z) : option (list Z) :=
  match fuel with
  | O => None
  | S f => if u / 10 =? 0 then Some [48 + u mod 10] else d ← put_digits f (u / 10); Some (48 + u mod 10 :: d)
  end.

(** Most significant first. *)
Definition digit_text (u : Z) : option (list Z) := d ← put_digits 20 u; Some (rev d).

(** The three layouts of the digits [d] with the decimal exponent [sci_exp]. *)
Definition style_e (d : list Z) (sci_exp : Z) : list Z :=
  let aexp := Z.abs sci_exp in
  take 1 d ++ (if (1 <? length d)%nat then 46 :: drop 1 d else []) ++
  [101; if sci_exp <? 0 then 45 else 43] ++
  (if 100 <=? aexp then [48 + aexp / 100] else []) ++ [48 + (aexp / 10) mod 10; 48 + aexp mod 10].

Definition style_f (d : list Z) (sci_exp : Z) : list Z :=
  if 0 <=? sci_exp then
    let ip := Z.to_nat (sci_exp + 1) in
    take ip d ++ (if (ip <? length d)%nat then 46 :: drop ip d else [])
  else [48; 46] ++ replicate (Z.to_nat (- sci_exp - 1)) 48 ++ d.

Definition nurl_str_float (bits : Z) : option (list Z) :=
  let neg := negb (Z.shiftr bits 63 =? 0) in
  let biased_exp := Z.land (Z.shiftr bits 52) 2047 in
  let mant := Z.land bits (2 ^ 52 - 1) in
  if biased_exp =? 2047 then
    Some (if negb (mant =? 0) then [110; 97; 110] else if neg then [45; 105; 110; 102] else [105; 110; 102])
  else
  let e2 := if biased_exp =? 0 then 1 - 1023 - 52 else biased_exp - 1023 - 52 in
  let mant := if biased_exp =? 0 then mant else Z.lor mant (2 ^ 52) in
  if (e2 <=? 0) && (if 64 <=? - e2 then mant =? 0 else Z.land mant (wrap64 (Z.shiftl 1 (- e2)) - 1) =? 0) then
    let umag := if 64 <=? - e2 then 0 else Z.shiftr mant (- e2) in
    d ← digit_text umag;
    Some ((if neg && negb ((length d =? 1)%nat && (d !!! 0%nat =? 48)) then [45] else []) ++ d)
  else
    '(digits, exp) ← nurl__shortest_decimal (Z.land bits (2 ^ 52 - 1)) biased_exp;
    d ← digit_text digits;
    let sci_exp := exp + Z.of_nat (length d) - 1 in
    let e_style := (sci_exp <? -4) || (Z.of_nat (length d) <=? sci_exp) in
    Some ((if neg then [45] else []) ++ (if e_style then style_e d sci_exp else style_f d sci_exp)).
