(* ===== verification/RyuTable.v ===== *)
(** Fractions that show how near the products of [nurl__shortest_decimal] in
    [src/stdlib/runtime_core.c] come to an integer, one row for the exponents
    that share a power of five.

    A row [(x, y, g, m1, u1, m2, u2)] holds two neighbouring fractions [u1 / m1]
    and [u2 / m2] around [2 ^ (y - x) / 5 ^ x] (the table for exponents from
    zero on) or [5 ^ x / 2 ^ y] (for those below); [RyuFloor] says what they
    are good for and checks every row. *)

From S2P Require Import Prelude.

Definition row : Type := Z * Z * Z * Z * Z * Z * Z.

Definition up_rows : list row := [
  (28, 97, 2, 17322448369349593, 274485150910356565, 135830161295206324, 2152314818687068877);
  (29, 100, 2, 17322448369349593, 219588120728285252, 135142804880308719, 1713138577230498373);
  (30, 103, 3, 211340797005910508, 2143250305418038741, 124728555159162543, 1264897822504897733);
  (31, 107, 2, 141617076456797712, 2297868441254741431, 19058156656207289, 309236271673405380);
  (32, 110, 2, 138905032258582562, 1803090406577292823, 19058156656207289, 247389017338724304);
  (33, 113, 3, 221276681963746425, 2297868441254741431, 196079502227204429, 2036205966874772588);
  (34, 117, 2, 101189398580669964, 1681297268375811839, 69692923909992469, 1157972319615874153);
  (35, 120, 2, 126486748225837455, 1681297268375811839, 120287623200327451, 1598896763043024058);
  (36, 123, 3, 257622840220807413, 2739515932600971611, 124936966969459954, 1328557713634091915);
  (37, 127, 2, 119005978950636841, 2024781809753304243, 62468483484729977, 1062846170907273532);
  (38, 130, 2, 90737231217683409, 1235051192264231110, 110802593102983238, 1508166745682431509);
  (39, 133, 3, 274609088205254161, 2990228176399508841, 183871856987570752, 2002187222588123953);
  (40, 137, 2, 136705195464576097, 2381740415133465402, 114919910617231720, 2002187222588123953);
  (41, 140, 2, 107975217810268167, 1504954887589147531, 143649888271539650, 2002187222588123953);
  (42, 143, 3, 89900080973018996, 1002419399553283803, 269224639705830129, 3001955045622964103);
  (43, 147, 2, 112375101216273745, 2004838799106567606, 33474728758268694, 597209117302460437);
  (44, 150, 2, 47818868418569699, 682493696182134955, 131505690314241434, 1876911930787055829);
  (45, 153, 3, 47818868418569699, 545994956945707964, 283929283939226040, 3241899323151325739);
  (46, 157, 2, 118801189403376209, 2170351660373663038, 58654613058640066, 1071547662777662701);
  (47, 160, 2, 44736941437028088, 653831131593932675, 101899591209572077, 1489264193961392727);
  (48, 163, 3, 11184235359257022, 130766226318786535, 285813248862719945, 3341732249469840208);
  (49, 167, 2, 5592117679628511, 104612981055029228, 140572000992795130, 2629711483057297831);
  (50, 170, 2, 27960588398142555, 418451924220116912, 116228706602812192, 1739452876849798611);
  (51, 173, 3, 252741883835843488, 3025982890378707959, 112938941845130713, 1352175193498240311);
  (52, 177, 2, 108210206511232339, 2072895736933006645, 49753470886169841, 953087153445701314);
  (53, 180, 2, 108210206511232339, 1658316589546405316, 89244390235520386, 1367666300832302643);
  (54, 183, 3, 76416200814496266, 936859895985022655, 223110975588800965, 2735332601664605286);
  (55, 187, 2, 38208100407248133, 749487916788018124, 116504292755196641, 2285341556980133545);
  (56, 190, 2, 18634052320261006, 292419605391991415, 135138345075457647, 2120692850976098251);
  (57, 193, 2, 9317026160130503, 116967842156796566, 137529800245838303, 1726577095581070333);
  (58, 196, 3, 241129884085333457, 2421754902153017310, 97272376642340471, 976941766762915523);
  (59, 200, 2, 29628471130537252, 476111174528894863, 122615999563184449, 1970363145329248244);
  (60, 203, 2, 37035588913171565, 476111174528894863, 107801763997915823, 1385846046451840650);
  (61, 206, 3, 73244927140943412, 753280383819262993, 254291618279802647, 2615237604799998506);
  (62, 210, 2, 91556158926179265, 1506560767638525986, 99678961462047544, 1640221853548441009);
  (63, 213, 2, 66636418560667379, 877204243401132587, 124598701827559430, 1640221853548441009);
  (64, 216, 3, 2168533823443832, 22837326650764833, 287642882511016423, 3029233113938468855);
  (65, 220, 2, 1355333639652395, 22837326650764833, 143977516707862553, 2426016357320477870);
  (66, 223, 2, 85125223614364957, 1147485744336275731, 78348555416102982, 1056136437733216399);
  (67, 226, 3, 179672583785362697, 1937585310561013251, 195871388540257455, 2112272875466432798);
  (68, 230, 2, 85786590703957659, 1480193222486642782, 63141801295597277, 1089471741054160485);
  (69, 233, 2, 123018688703846393, 1698087570697474879, 63141801295597277, 871577392843328388);
  (70, 236, 3, 182895576112095509, 2019678198841297096, 108049466851784114, 1193168020987150605);
  (71, 240, 2, 107063819931862258, 1891653959905723103, 54024733425892057, 954534416789720484);
  (72, 243, 2, 143960861379462717, 2034854602970172560, 246411729980464, 3482974734743573);
  (73, 246, 3, 269630843669499357, 3048937374151515832, 269938858331974937, 3052420348886259405);
  (74, 250, 2, 134776920001940231, 2438453304374263951, 135161938330034706, 2445419253843751097);
  (75, 253, 2, 33597975418461439, 486297470980955361, 136316993314318131, 1973053681801770028);
  (76, 256, 3, 260865582403194246, 3020617079657512955, 92875705310887051, 1075427195733691511);
  (77, 260, 2, 130432791201597123, 2416493663726010364, 83486433838209533, 1546730975535880431);
  (78, 263, 2, 53479806259951664, 792644927852378159, 96553331631337681, 1431054335029252770);
  (79, 266, 3, 66849757824939580, 792644927852378159, 230252847281216841, 2730133323728158534);
  (80, 270, 2, 83562197281174475, 1585289855704756318, 123482643368725868, 2342635644553002459);
  (81, 273, 2, 136253733720167483, 2067936640217009617, 9049785245369926, 137349502167996421);
  (82, 276, 3, 258932789572280077, 3143879221745619682, 70389313171426223, 854644556520403131);
  (83, 280, 2, 88301131943176751, 1715398621743291183, 58448100656925871, 1135453069558880894);
  (84, 283, 2, 103227647586302191, 1604297118268397062, 65911358478488591, 1024351566083986773);
  (85, 286, 3, 84569503032395391, 1051459473740953534, 207063147712419173, 2574432869038450313);
  (86, 290, 2, 96230843378587141, 1914313378859289770, 67077492513107766, 1334367826674879481);
  (87, 293, 2, 131962287330678278, 2100093178218595389, 35731443952091137, 568642475131163573);
  (88, 296, 2, 126480543091835143, 1610283853652452750, 50856293808715138, 647475625696184507);
  (89, 299, 3, 126810638806811494, 1291589167157165607, 253951373328599339, 2586540418549534621);
  (90, 303, 2, 126480543091835143, 2061163332675139520, 47636513481298398, 776298333988380727);
  (91, 306, 2, 122785913397540569, 1600763667058436535, 119091283703245995, 1552596667976761454);
  (92, 309, 3, 122785913397540569, 1280610933646749228, 179560582978442636, 1872749401388448761);
  (93, 313, 2, 128728175315686273, 2148138387750468639, 95722553407367022, 1597360415026428883);
  (94, 316, 2, 40433449306001381, 539783272094901679, 118006035600413412, 1575371013768152729);
  (95, 319, 3, 272102204736111639, 2906033908809158605, 69934958206104734, 746900820429551889);
  (96, 323, 2, 24316202305212451, 415512743094111553, 126204990904836933, 2156577795529984450);
  (97, 326, 2, 61946500607724797, 846828302200108443, 126204990904836933, 1725262236423987560);
  (98, 329, 3, 263850625005177222, 2885537353885122841, 217968746971730459, 2383761498969811910);
  (99, 333, 2, 110414453885303149, 1932032754297198077, 107554293086427310, 1881985644054500979);
  (100, 336, 2, 28318653671044747, 396415972907979035, 127292464360844540, 1781891423569106783);
  (101, 339, 3, 28318653671044747, 317132778326383228, 272390195135234663, 3050422536874639695);
  (102, 343, 2, 141593268355223735, 2537062226611065824, 16349615847501366, 292951729048544711);
  (103, 346, 2, 58534422291985843, 839053853215299503, 99408461910739258, 1424957311312388925);
  (104, 349, 3, 270596633118388680, 3103065017742987931, 49704230955369629, 569982924524955570);
  (105, 353, 2, 119418664743623296, 2191092338503059019, 49704230955369629, 911972679239928912);
  (106, 356, 2, 129263128096645082, 1897374754484498063, 119258026680203063, 1750515962475217585);
  (107, 359, 3, 221207923460907884, 2597581139474585097, 119258026680203063, 1400412769980174068);
  (108, 363, 2, 116619789788694625, 2191092338503059019, 31978022907488046, 600813988089222235);
  (109, 366, 2, 139653865661168344, 2099091522267073545, 15989011453744023, 240325595235688894);
  (110, 369, 3, 114858523684012201, 1381120685396170285, 194803580952732316, 2342423066338925861);
  (111, 373, 2, 114858523684012201, 2209793096633872456, 64322976253451597, 1237526518021989633);
  (112, 376, 2, 140126297399292503, 2156741108751851094, 76956863111091748, 1184474530139968271);
  (113, 379, 3, 217083160510384251, 2672972511113455492, 96196078888864685, 1184474530139968271);
  (114, 383, 2, 138763350660572017, 2733777201280159282, 57036173963958568, 1123669839973264481);
  (115, 386, 2, 95986220187603091, 1512819857040168737, 71295217454948210, 1123669839973264481);
  (116, 389, 2, 65816914457538598, 829861910810720391, 112421129179831927, 1417477769135808571);
  (117, 392, 3, 270115536576916407, 2724632075762196445, 105573250433069912, 1064908254140755663);
  (118, 396, 2, 138148973535579017, 2229594812938002986, 65983281520668695, 1064908254140755663);
  (119, 399, 2, 87115909771517089, 1124775236934650659, 80933499277275462, 1044952593209457331);
  (120, 402, 3, 168049409048792551, 1735782264115286392, 185191578620990603, 1912843725267100527);
  (121, 406, 2, 143706038270287789, 2374943358744340885, 4285542393049513, 70824584460725654);
  (122, 409, 2, 94852717472002751, 1254059100816850371, 116280429437250316, 1537357438659752987);
  (123, 412, 3, 182063039549940488, 1925661743849332089, 145350536796562895, 1537357438659752987);
  (124, 416, 2, 113789399718712805, 1925661743849332089, 54319017021592651, 919242506776139108);
  (125, 419, 2, 136384043906284098, 1846425318850568915, 12291912836516287, 166413155295817047);
  (126, 422, 3, 133017815021003791, 1440681501901975443, 197843608088865533, 2142792876263723320);
  (127, 426, 2, 107866585399235561, 1869240077154720107, 89977022689629972, 1559228524867237205);
  (128, 429, 2, 134436324892842931, 1863737619096826490, 22494255672407493, 311845704973447441);
  (129, 432, 3, 174198179175757564, 1931976048686602503, 286669457537795029, 3179358868580392267);
  (130, 436, 2, 96187767597769136, 1706860212246211693, 121559956371927819, 2157091885126993313);
  (131, 439, 2, 120234709497211420, 1706860212246211693, 25372188774158683, 360185338304625296);
  (132, 442, 3, 235782930394278668, 2677752567788396607, 85489543522764393, 970892355542184914);
  (133, 446, 2, 45673827136472304, 829937656239290033, 112033354446959119, 2035754510619633082);
  (134, 449, 2, 57092283920590380, 829937656239290033, 100614897662841043, 1462616077247848459);
  (135, 452, 3, 286164820404759778, 3327930768020432853, 214799465504021803, 2497993111781142820);
  (136, 456, 2, 17753413624958509, 330339033883061469, 143785811004187767, 2675432843317582636);
  (137, 459, 2, 129151874282079114, 1922510510972374697, 40384806157286569, 601154375440128821);
  (138, 462, 3, 238210727262062327, 2836738557815785517, 226115161770185833, 2692698205797362106);
  (139, 466, 2, 122129255004000287, 2327006987059997778, 45945170637154526, 875422789493152067);
  (140, 469, 2, 26605749524134249, 405549121128107871, 141468676117020564, 2156394700114412005);
  (141, 472, 3, 274497423737691809, 3347312244603961088, 35367169029255141, 431278940022882401);
  (142, 476, 2, 130516901735619449, 2546505929905655158, 23159471705328128, 451862795138702025);
  (143, 479, 2, 143076131160878429, 2233238525181464992, 5789867926332032, 90372559027740405);
  (144, 482, 3, 286930429255821777, 3582898606283627992, 1447466981583008, 18074511805548081);
  (145, 486, 2, 143812131451801861, 2873250002416098373, 904666863489380, 18074511805548081);
  (146, 489, 2, 143359798020057171, 2291370197210659466, 1130833579361725, 18074511805548081);
  (147, 492, 2, 140159347201133424, 1792173010691580271, 5654167896808625, 72298047222192324);
  (148, 495, 3, 199010705807733481, 2035749297693177971, 227281545291776606, 2324941486581947267);
  (149, 499, 2, 42684966580922589, 698622843521763470, 134704548581491696, 2204703020837722389);
  (150, 502, 2, 42684966580922589, 558898274817410776, 125695719145942031, 1645804746020311613);
  (151, 505, 3, 212835037755406511, 2229415083583258961, 212245242606200077, 2223237067896874818);
  (152, 509, 2, 53282483832502432, 893001636570580413, 105090479791988779, 1761291210395624254);
  (153, 512, 2, 66603104790628040, 893001636570580413, 78449237875737563, 1051832313688267238);
  (154, 515, 3, 83253880988285050, 893001636570580413, 261607776049964673, 2806069451405890699);
  (155, 519, 2, 98144284692801551, 1684351639785841258, 54995208888955537, 943827453248240197);
  (156, 522, 2, 38284873395439272, 525635818606816291, 121836550863020597, 1672766538565695624);
  (157, 525, 3, 47856091744299090, 525635818606816291, 255833607747058049, 2809993522951642114);
  (158, 529, 2, 119640229360747725, 2102543274427265164, 105832482213026216, 1859887555230199653);
  (159, 532, 2, 66723988254234617, 938079597449732270, 132290602766282770, 1859887555230199653);
  (160, 535, 3, 198725247584970771, 2235119394210092561, 132001259330736154, 1484655716250306745);
  (161, 539, 2, 132905457566819329, 2391720785669755679, 66000629665368077, 1187724573000245396);
  (162, 542, 2, 99453043616093703, 1431778143468000430, 115275052355373341, 1659560074266490577);
  (163, 545, 3, 99453043616093703, 1145422514774400344, 268410119964333805, 3091338217734491007);
  (164, 549, 2, 3743626360493413, 68985865317742005, 141620713833594280, 2609722913009712277);
  (165, 552, 2, 3743626360493413, 55188692254193604, 143333255047552133, 2113024682721969841);
  (166, 555, 3, 158437077068047309, 1868548673604266393, 139718945265580244, 1647793904587491977);
  (167, 559, 2, 61753670375826124, 1165280157965914719, 112895011206149181, 2130307651209069235);
  (168, 562, 2, 77192087969782655, 1165280157965914719, 112895011206149181, 1704246120967255388);
  (169, 565, 3, 172235637557748573, 2080034637945999818, 237608873969914795, 2869526278933170107);
  (170, 569, 2, 51230563940957921, 989912183375833985, 112202527089457634, 2168054380572847171);
  (171, 572, 2, 51230563940957921, 791929746700667188, 114637876891343082, 1772089507222513577);
  (172, 575, 3, 256152819704789605, 3167718986802668752, 105505315134272652, 1304733597485303341);
  (173, 579, 2, 88511916677042558, 1751335030950952997, 131881643917840815, 2609467194970606682);
  (174, 582, 2, 88955032225904069, 1408082165343091523, 132324759466702326, 2094587896558814471);
  (175, 585, 2, 11396326246276453, 144315286825473715, 137074352480056114, 1735815917084575787);
  (176, 588, 3, 11396326246276453, 115452229460378972, 279608039939696446, 2832612096958176021);
  (177, 592, 2, 132581804339444603, 2149024458034605362, 37800086554031169, 612703311175786793);
  (178, 595, 2, 42595472723368943, 552345553842078431, 103809487323417959, 1346122137018990310);
  (179, 598, 3, 212977363616844715, 2209382215368313724, 185685394543488026, 1926261088930033355);
  (180, 602, 2, 103746984295503871, 1721998906234580751, 92842697271744013, 1541008871144026684);
  (181, 605, 2, 49147420391811971, 652601555475721487, 120181543616036268, 1595824596246056327);
  (182, 608, 3, 245737101959059855, 2610406221902885948, 79192806295821038, 841246163629788455);
  (183, 612, 2, 138886664070205113, 2360575487464491149, 39596403147910519, 672996930903830764);
  (184, 615, 2, 123813573100349946, 1683509573119793605, 74168442639202649, 1008478150495529451);
  (185, 618, 3, 61906786550174973, 673403829247917442, 278281286423269082, 3027062044862935065);
  (186, 622, 2, 42598322384810081, 741395249523247871, 139140643211634541, 2421649635890348052);
  (187, 625, 2, 79523806741018013, 1107246844308954818, 66733902591516196, 929167076892018333);
  (188, 628, 3, 263042038867687552, 2929965044609604187, 83417378239395245, 929167076892018333);
  (189, 632, 2, 129087537247358006, 2300602434242828871, 17656868522473357, 314681305183387658);
  (190, 635, 2, 23443450050602823, 334247964775210711, 135171242713572431, 1927221150283972054);
  (191, 638, 3, 256876991081726125, 2929965044609604187, 79307346382087627, 904587646023673106);
  (192, 642, 2, 135546602516661779, 2473693299610834271, 37284304199110908, 680429695511221511);
  (193, 645, 2, 98262298317550871, 1434610883279690208, 46605380248888635, 680429695511221511);
  (194, 648, 3, 191473058815328141, 2236376219441706584, 106124990014942829, 1239523750371648157);
  (195, 652, 2, 127462007215039157, 2381978988222660422, 74119464214798337, 1385126519152601995);
  (196, 655, 2, 140797642965099362, 2104953684392140023, 74119464214798337, 1108101215322081596);
  (197, 658, 3, 279734964564074396, 3345676145777019403, 72259142848674009, 864231223007260643);
  (198, 662, 2, 71096441994846304, 1360520207561212395, 76909946263984829, 1471768953813235564);
  (199, 665, 2, 17774110498711576, 272104041512242479, 135712184337962081, 2077619234081547550);
  (200, 668, 3, 22217638123389470, 272104041512242479, 269018013078298901, 3294719636338692914);
  (201, 672, 2, 55544095308473675, 1088416166048969916, 103358165220082614, 2025358362467307611);
  (202, 675, 2, 57476601657689859, 901027726765302377, 105290671569298798, 1650581483899972533);
  (203, 678, 2, 112537570378859488, 1411349568898357359, 50229702848129169, 629937799633862569);
  (204, 681, 3, 140671962973574360, 1411349568898357359, 219036058416418401, 2197569722385118886);
  (205, 685, 2, 87919976858483975, 1411349568898357359, 95948090814540836, 1540222159358489915);
  (206, 688, 2, 127768589145162158, 1640820661261355657, 23987022703635209, 308044431871697983);
  (207, 691, 3, 255780476201662751, 2627812628483409354, 187857794859919398, 1929995177985100643);
  (208, 695, 2, 40462894692925763, 665126015796343613, 105478434913466628, 1733846569773310055);
  (209, 698, 2, 123205647279528844, 1620196121321388419, 26369608728366657, 346769313954662011);
  (210, 701, 3, 285855102741244340, 3007273377140036463, 140711649824864393, 1480324802019744194);
  (211, 705, 2, 2215901545757777, 37299018480438460, 142097063708274392, 2391839572212801873);
  (212, 708, 2, 2215901545757777, 29839214784350768, 142166904903218558, 1914412135663189585);
  (213, 711, 3, 167562471185752786, 1805110006653630647, 219723459004740753, 2367027722492373172);
  (214, 715, 2, 65605803626854516, 1130808747647139617, 117766791445842483, 2029877092989127657);
  (215, 718, 2, 82007254533568145, 1130808747647139617, 134168242352556112, 1850063423920730049);
  (216, 721, 3, 182633436297985229, 2014685052470149723, 167710302940695140, 1850063423920730049);
  (217, 725, 2, 28425354546231937, 501709987623681749, 124361815037173114, 2194996884970414851);
  (218, 728, 2, 73728485578641184, 1041051362142501069, 79058684004763867, 1116314135932776211);
  (219, 731, 3, 92160606973301480, 1041051362142501069, 244947776556706531, 2766943760602722893);
  (220, 735, 2, 57600379358313425, 1041051362142501069, 118226941968416996, 2136797020250854277);
  (221, 738, 2, 85644023224522601, 1238322775377830855, 116713850342521923, 1687559897814342566);
  (222, 741, 3, 252947341958805655, 2925882673192173421, 167303318734283054, 1935224452889908737);
  (223, 745, 2, 42323920647916032, 783308178698887621, 121990852300295411, 2257740560667421601);
  (224, 748, 2, 52904900809895040, 783308178698887621, 132571832462274419, 1962854084273714805);
  (225, 751, 3, 66131126012368800, 783308178698887621, 264834084487012019, 3136899624816747086);
  (226, 755, 2, 41331953757730500, 783308178698887621, 116039050959182219, 2199129956390799902);
  (227, 758, 2, 51664942197163125, 783308178698887621, 136705027838047469, 2072627236592194970);
  (228, 761, 3, 227919790198873586, 2764449983415101857, 197514869411931547, 2395667252034653230);
  (229, 765, 2, 140652037565404857, 2729560412990624978, 5686283184652669, 110350719026482019);
  (230, 768, 2, 39427721779840716, 612122514014014207, 107286859482944777, 1665647904133956490);
  (231, 771, 3, 156571511707745672, 1944640837321179399, 263858371190690449, 3277159160628344591);
  (232, 775, 2, 97857194817341045, 1944640837321179399, 126858298446412986, 2520957484755700187);
  (233, 778, 2, 86070113985336380, 1368324189886658611, 80643172020273769, 1282047831879611797);
  (234, 781, 2, 123678229012941959, 1572967941458352882, 139768815544213443, 1777611693030047153);
  (235, 784, 3, 243333811393066047, 2475819956019025757, 131723522278577701, 1340231853795360014);
  (236, 788, 2, 127188967343553809, 2070551440307376116, 18979594430333382, 308975121073410857);
  (237, 791, 2, 106298571140027014, 1384375794055089989, 47448986075833455, 617950242146821714);
  (238, 794, 3, 148047257721680417, 1542470705056950738, 192646094050423846, 2007135836822118797);
  (239, 798, 2, 129310526741171235, 2155611146583565358, 35230470838488838, 587293220070490983);
  (240, 801, 2, 91078116499452246, 1214620390675720733, 88076177096222095, 1174586440140981966);
  (241, 804, 3, 227695291248630615, 2429240781351441466, 66807617672974109, 712758654191536933);
  (242, 808, 2, 77034782009114717, 1314992737972557493, 137024290124661754, 2339020657168284319);
  (243, 811, 2, 72773463535722797, 993801226622679861, 124240334704485994, 1696637634468529055);
  (244, 814, 3, 150873575163185494, 1648274926351653911, 212993742515428491, 2326929980139065533);
  (245, 818, 2, 136459266773751183, 2385280657909547627, 34389238733458936, 601117006785295431);
  (246, 821, 2, 110667337723656981, 1547554322256460843, 42986548416823670, 601117006785295431);
  (247, 824, 3, 259519773841740923, 2903266354686706975, 107466371042059175, 1202234013570590862);
  (248, 828, 2, 120613733157463447, 2158903196965733292, 34726510171069369, 621580742633249467);
  (249, 831, 2, 42943611493197039, 614928981732993530, 108288081174271942, 1550625976132995699);
  (250, 834, 3, 156831907214438447, 1796597568826193111, 270720202935679855, 3101251952265991398);
  (251, 838, 2, 99887759353817743, 1830832603370070348, 71180184825775880, 1304654383439798287);
  (252, 841, 2, 82092713147373773, 1203735206008096621, 88975231032219850, 1304654383439798287);
  (253, 844, 3, 18802548815631924, 220563205715278991, 278845724027445397, 3270998384025433547);
  (254, 848, 2, 23503186019539905, 441126411430557982, 132371906207860727, 2484460783791179443);
  (255, 851, 2, 38968773056850158, 585117439044347485, 116296708243401423, 1746198988543852982);
  (256, 854, 3, 19484386528425079, 234046975617738994, 280999577344291018, 3375374489278836467);
  (257, 858, 2, 97421932642125395, 1872375804941911952, 137417976442268042, 2641069493044774843);
  (258, 861, 2, 126134877063116769, 1939373490689149186, 54352516010638334, 835691373850100125);
  (259, 864, 3, 274572805649813172, 3377332157068238297, 27176258005319167, 334276549540040050);
  (260, 868, 2, 130843616523154482, 2575068438172142177, 27176258005319167, 534842479264064080);
  (261, 871, 2, 122790133645964352, 1933257463055265281, 27176258005319167, 427873983411251264);
  (262, 874, 2, 142923840838939677, 1800200545409109146, 139402565432767756, 1755848239527057101);
  (263, 877, 3, 177774482197131616, 1791330084232698737, 174253206790959695, 1755848239527057101);
  (264, 881, 2, 111109051373207260, 1791330084232698737, 85365965692393887, 1376293115857132372);
  (265, 884, 2, 138886314216509075, 1791330084232698737, 113143228535695702, 1459300509532245645);
  (266, 887, 3, 262358364139500911, 2707079862746050087, 56571614267847851, 583720203812898258);
  (267, 891, 2, 48884224067945972, 807039632309572491, 110580765135728409, 1825600420937586185);
  (268, 894, 2, 61105280084932465, 807039632309572491, 110580765135728409, 1460480336750068948);
  (269, 897, 3, 98211893873029423, 1037696128511955867, 258268144059553776, 2728832961464408191);
  (270, 901, 2, 65928375865585201, 1114547213326247749, 95489214171635909, 1614285748138160442);
  (271, 904, 2, 139246961307683079, 1883223248284378937, 88099004595123232, 1191480891548145815);
  (272, 907, 3, 277764534711580043, 3005265605254561651, 22024751148780808, 238296178309629163);
  (273, 911, 2, 137356746138102392, 2377803949649081179, 13765469467988005, 238296178309629163);
  (274, 914, 2, 75635594938489613, 1047471617872926227, 68827347339940025, 953184713238516652);
  (275, 917, 3, 1702061899637397, 18857380926881915, 287968694011666024, 3190445282366963413);
  (276, 921, 2, 1702061899637397, 30171809483011064, 142535071965268531, 2526665473740720005);
  (277, 924, 2, 118074238222662683, 1674445998122531410, 54781964362237849, 776879380095243577);
  (278, 927, 3, 97996015008462982, 1111768579719749859, 273909821811189245, 3107517520380974308);
  (279, 931, 2, 83536122863447087, 1516352870686320046, 80726957328855184, 1465360724096339695);
  (280, 934, 2, 135136263666242291, 1962401455275529038, 20181739332213796, 293072144819267939);
  (281, 937, 3, 271363004158685414, 3152510746244470101, 25227174165267245, 293072144819267939);
  (282, 941, 2, 115908691556954223, 2154477302309087303, 126135870826336225, 2344577158554143512);
  (283, 944, 2, 95454333018190219, 1419422071855179908, 60511140595822612, 899810892172646163);
  (284, 947, 3, 261859969656702402, 3115121620263965485, 75638925744778265, 899810892172646163);
  (285, 951, 2, 130929984828351201, 2492097296211172388, 61816160973885031, 1176597460292499229);
  (286, 954, 2, 82743448377792143, 1259938885668203587, 75445785497211004, 1148816985167264443);
  (287, 957, 3, 158189233875003147, 1927004696668374424, 252496465746516902, 3075821681835638867);
  (288, 961, 2, 39926251252180870, 778187711501109981, 142218733374130799, 2771932430068955086);
  (289, 964, 2, 101054055126201052, 1575685598928248023, 102292482121949929, 1594995774854276084);
  (290, 967, 2, 126317568907751315, 1575685598928248023, 51765454558849403, 645722380312121658)].

Definition down_rows : list row := [
  (54, 121, 2, 92210493877757665, 1925444952630024586, 84464940210726499, 1763710245588101951);
  (54, 122, 0, 15491107334062332, 161734707041922635, 30246064541508337, 315783648147321753);
  (55, 124, 2, 73768395102206132, 962722476315012293, 113603584094798399, 1482595949748868219);
  (56, 126, 2, 133963507760566718, 2185381689346952549, 53408471436437813, 871266343232898091);
  (57, 129, 3, 251816008256307655, 2567462693419433879, 187371979197004531, 1910405020362406650);
  (58, 131, 2, 114807230710564655, 1463187764676142506, 86645575894481469, 1104274928743291373);
  (59, 133, 2, 45922892284225862, 731593882338071253, 104406813362624145, 1663296498351121553);
  (60, 135, 2, 25041529611701033, 498668228334808678, 133608509913501382, 2660632955020738909);
  (61, 138, 3, 253840063240323864, 3159301183355547587, 38418486198379933, 478157653129631473);
  (62, 140, 2, 27716920929036813, 431207055991663292, 125957023864482919, 1959581209656494073);
  (63, 142, 2, 27716920929036813, 539008819989579115, 117395771649008423, 2282986501650241542);
  (64, 145, 3, 182610764292124540, 2219510890804279001, 264134995653144319, 3210383033920514358);
  (65, 147, 2, 101086532931104761, 1535798434610054555, 45002078502594871, 683712456194224446);
  (66, 149, 2, 112303423816806739, 2132769537866525721, 67435860273998827, 1280683559450695612);
  (67, 152, 3, 184252943437043749, 2186982883452621521, 134871720547997654, 1600854449313369515);
  (68, 154, 2, 19752489155618438, 293064217069626003, 141352261584475461, 2097218712330854768);
  (69, 156, 2, 59874434965884593, 1110433112221965698, 100613348275180027, 1865978251317767079);
  (70, 159, 3, 239497739863538372, 2776082780554914245, 243818418194079627, 2826164926301118878);
  (71, 161, 2, 141850409593306009, 2055282858363361924, 3456542664433004, 50082145746204633);
  (72, 163, 2, 44961486707939621, 814313589068068279, 103749144073611258, 1879037906867159723);
  (73, 166, 3, 238633604197430121, 2701236671294602850, 71241783785754679, 806428413708693431);
  (74, 168, 2, 114683449004156201, 1622713296616605422, 133216861382391639, 1884951788386690859);
  (75, 170, 2, 15523324849537065, 274559078269108637, 136226948911090012, 2409428771926861733);
  (76, 173, 3, 220052903098590163, 2432529871612530233, 195215583339330859, 2157970793343421596);
  (77, 175, 2, 58912972475273615, 814051776604964036, 136302610864057244, 1883411715074312959);
  (78, 177, 2, 11782594495054723, 203512944151241009, 132819636129313671, 2294105530078129480);
  (79, 180, 3, 233937590338825859, 2525405576923417284, 139676834378388075, 1507840856167212239);
  (80, 182, 2, 122196122836115399, 1648916114987059366, 111741467502710460, 1507840856167212239);
  (81, 184, 2, 77499535835031215, 1307224715650218088, 89393174002168368, 1507840856167212239);
  (82, 187, 3, 15499907167006243, 163403089456277261, 281147991341172140, 2963917776060297887);
  (83, 189, 2, 61999628668024972, 817015447281386305, 133729134103265643, 1762248753116807353);
  (84, 191, 2, 78291505108516246, 1289632100199096829, 71729505435240671, 1181541632294276310);
  (85, 194, 3, 79603905043171361, 819531371112538083, 228312515652273163, 2350503645432793730);
  (86, 196, 2, 85903424729515913, 1105482064819287993, 77504065147723177, 997391596914467474);
  (87, 198, 2, 142867061098618813, 2298176327009962076, 12141069196827541, 195302665276206609);
  (88, 201, 3, 209726740895528371, 2108555618771820121, 133719359593819116, 1344390828781187647);
  (89, 203, 2, 30402952520683702, 382082394995316237, 130625432844561573, 1641606294474046051);
  (90, 205, 2, 121611810082734808, 1910411974976581185, 32205677073049055, 505922172367340572);
  (91, 207, 2, 138625927942009438, 2722110547923808203, 6441135414609811, 126480543091835143);
  (92, 210, 3, 165565483461051843, 2031941082343771063, 217094566777930331, 2664343797802946778);
  (93, 212, 2, 22807280028834671, 349884591721148837, 137694493181009939, 2112359802132432064);
  (94, 214, 2, 91229120115338684, 1749422958605744185, 100522194728472935, 1927628317417703364);
  (95, 217, 3, 264394285732881801, 3168789698128295860, 40208877891389174, 481907079354425841);
  (96, 219, 2, 20711754833465021, 310290345177648124, 140123756732091675, 2099245051594481081);
  (97, 221, 2, 20711754833465021, 387862931472060155, 132810760219138361, 2487107983066541236);
  (98, 224, 3, 43131555910599689, 504819963619347732, 265621520438276722, 3108884978833176545);
  (99, 226, 2, 43131555910599689, 631024954524184665, 108981482165182124, 1594425087975133349);
  (100, 228, 2, 133016267889649295, 2432574672532711812, 13169985250916487, 240850033362737171);
  (101, 231, 3, 132489701737455525, 1514340585606609857, 211772896319051332, 2420537503080041761);
  (102, 233, 2, 105991761389964420, 1514340585606609857, 79283194581595807, 1132746146841789880);
  (103, 235, 2, 84793409111971536, 1514340585606609857, 79283194581595807, 1415932683552237350);
  (104, 238, 3, 284991462262477785, 3181070781143656256, 248870012805538879, 2777883659228410665);
  (105, 240, 2, 56998292452495557, 795267695285914064, 140505664434722161, 1960402866853342365);
  (106, 242, 2, 56998292452495557, 994084619107392580, 89605214566779506, 1562769019210385333);
  (107, 245, 3, 113996584904991114, 1242605773884240725, 219879732029912053, 2396772015654705609);
  (108, 247, 2, 118864647573033219, 1619586866440632787, 112373897348977079, 1531147334326856946);
  (109, 249, 2, 114970197438599535, 1958153933965459103, 109777597259354623, 1869714401851683262);
  (110, 252, 3, 183952315901759256, 1958153933965459103, 247741834185674065, 2637186951631396366);
  (111, 254, 2, 120162797617844447, 1598901145374402300, 99096733674269626, 1318593475815698183);
  (112, 256, 2, 120162797617844447, 1998626431718002875, 31212267892277922, 519142903128497033);
  (113, 259, 3, 186955277400348979, 1943476716426438903, 115794853619895759, 1203734952131685982);
  (114, 261, 2, 56928339024362576, 739741764294752921, 87330684107714471, 1134797808017231017);
  (115, 263, 2, 142586789864064998, 2316012668445091269, 6080469016670379, 98764010930619524);
  (116, 266, 3, 244191468847998109, 2478974980419581768, 256352406881338867, 2602429994082856173);
  (117, 268, 2, 136786130882126259, 1735776221651411921, 107405337965871850, 1362942503873065289);
  (118, 270, 2, 115305063288951889, 1828984651095998579, 85924270372697480, 1362942503873065289);
  (119, 272, 2, 132489917363491385, 2626966439838264546, 68739416298157984, 1362942503873065289);
  (120, 275, 3, 105991933890793108, 1313483219919132273, 216972783014410799, 2688790544780680816);
  (121, 277, 2, 126192537622386813, 1954768803643094342, 45390122696011993, 703109688666378339);
  (122, 279, 2, 93871571651836885, 1817631447065509926, 123101211362573914, 2383603779154303849);
  (123, 282, 3, 75097257321469508, 908815723532754963, 264976737055515205, 3206708654826068552);
  (124, 284, 2, 141402987052568909, 2139047126544223401, 52995347411103041, 801677163706517138);
  (125, 286, 2, 130754681196571821, 2472458599758516692, 105990694822206082, 2004192909266292845);
  (126, 289, 3, 267849109532965415, 3165497729421848528, 274188856672787188, 3240422209145551191);
  (127, 291, 2, 53569821906593083, 791374432355462132, 132498632372473258, 1957371263329437579);
  (128, 293, 2, 53569821906593083, 989218040444327665, 116712870279297223, 2155214871418303112);
  (129, 296, 3, 148080856045238421, 1709034221961367441, 280477719207506243, 3237055980260270884);
  (130, 298, 2, 131011879142567216, 1890046685623831439, 49821946688313009, 718757763233835722);
  (131, 300, 2, 22511583644039081, 405955020386538928, 122155477020665099, 2202849428471128233);
  (132, 303, 3, 208955713419487607, 2355082561116080331, 186444129775448526, 2101360673374493501);
  (133, 305, 2, 88084602096602859, 1240971752493436873, 131146036905127556, 1847638785632906671);
  (134, 307, 2, 133107769384681021, 2344095589809254935, 43846127800346083, 772152634531585886);
  (135, 310, 3, 149704588914633791, 1647733769933244327, 175384511201384332, 1930381586328964715);
  (136, 312, 2, 124899655589057141, 1718395724032174424, 25679922286750541, 353309770494650485);
  (137, 314, 2, 124899655589057141, 2147994655040218030, 45523868947211861, 782908701502694091);
  (138, 317, 3, 220150599559271477, 2366311124553279223, 93149340932319029, 1001225171015755284);
  (139, 319, 2, 138860743274489570, 1865698539045401581, 93149340932319029, 1251531463769694105);
  (140, 321, 2, 111088594619591656, 1865698539045401581, 65377192277421115, 1097989694950767236);
  (141, 324, 3, 274373678557071725, 2880013093318507194, 26150876910968446, 274497423737691809);
  (142, 326, 2, 107176489533351237, 1406246832673856321, 104603507643873784, 1372487118688459045);
  (143, 328, 2, 85226595248785499, 1397806904177507002, 82653613359308046, 1355607261695760407);
  (144, 331, 3, 18074511805548081, 185275773642625024, 286682845578497753, 2938689939515892433);
  (145, 333, 2, 18074511805548081, 231594717053281280, 131743912712838565, 1688078467428173521);
  (146, 335, 2, 18074511805548081, 289493396316601600, 141544153781367014, 2267065260061376721);
  (147, 338, 3, 18074511805548081, 180933372697876000, 273464376744612233, 2737492029075854321);
  (148, 340, 2, 18074511805548081, 226166715872345000, 139243649451278230, 1742358479237536321);
  (149, 342, 2, 18074511805548081, 282708394840431250, 129469431366570665, 2025066874077967571);
  (150, 344, 2, 106011307963272509, 2072689917690600973, 69862284352176347, 1365918930589522848);
  (151, 347, 3, 225507920222977092, 2755649382985362397, 69862284352176347, 853699331618451780);
  (152, 349, 2, 124516508696640596, 1901950051366910617, 69862284352176347, 1067124164523064725);
  (153, 351, 2, 88682362088419627, 1693243579655949144, 122710499832375005, 2342954800757090923);
  (154, 354, 3, 88682362088419627, 1058277237284968215, 285019161820219635, 3401232038042059138);
  (155, 356, 2, 120360891812795327, 1795385083701905753, 114007664728087854, 1700616019021029569);
  (156, 358, 2, 95018068033294767, 1771692817531686707, 88664840948587294, 1653231486680591477);
  (157, 361, 3, 183682908981882061, 2140577690132673865, 252073490906868907, 2937578100760195796);
  (158, 363, 2, 46116930822758086, 671788639752575967, 113722698438594649, 1656606706692516844);
  (159, 365, 2, 14149004970487539, 257636963079446756, 142020708379569727, 2586032309524539567);
  (160, 368, 3, 272509949312871688, 3101306235683433079, 122105969685948305, 1389630015917062317);
  (161, 370, 2, 101561591752544061, 1444780266749432294, 97684775748758644, 1389630015917062317);
  (162, 372, 2, 137534049249019185, 2445640090562951549, 115671004496996206, 2056869898459408487);
  (163, 375, 3, 220054478798430696, 2445640090562951549, 143177814346800043, 1591248697857499248);
  (164, 377, 2, 90136894430664531, 1252203567169827113, 143177814346800043, 1989060872321874060);
  (165, 379, 2, 129380641283251642, 2246734003330764143, 143177814346800043, 2486326090402342575);
  (166, 382, 3, 204249591440492947, 2216784992446816839, 218046764504041348, 2366530046866553359);
  (167, 384, 2, 141324196250716916, 1917294883607343799, 13797173063548401, 187181318024670650);
  (168, 386, 2, 64807982338415807, 1099033430322174887, 92402328465512609, 1566986725383851512);
  (169, 389, 3, 122173237434567813, 1294906770995156326, 214575565900080422, 2274273474360063521);
  (170, 391, 2, 131609919775512297, 1743656997084910171, 12526283899291481, 165956658933664516);
  (171, 393, 2, 135351017178709392, 2241526973885903719, 12526283899291481, 207445823667080645);
  (172, 396, 3, 138343895101267068, 1431932222443572827, 197982436675166797, 2049222557638316840);
  (173, 398, 2, 71078628745980295, 919626583033993617, 126903807929186502, 1641901614013902433);
  (174, 400, 2, 56862902996784236, 919626583033993617, 112688082179990443, 1822470371758879637);
  (175, 403, 3, 283276791170343151, 2863343825538037805, 78985429907351113, 798379712288829066);
  (176, 405, 2, 129107802449607483, 1631266840841226169, 28863057365094743, 364682439880846496);
  (177, 407, 2, 80195796067610192, 1266584400960379673, 109058853432704935, 1722437450811437793);
  (178, 409, 2, 58384025381069205, 1152621138497615143, 87247082746163948, 1722437450811437793);
  (179, 412, 3, 197847775644755578, 2441202098138701027, 250064443162278003, 3085492577959243969);
  (180, 414, 2, 134612213701899031, 2076189746468359180, 20886667007008970, 322145239910271471);
  (181, 416, 2, 134612213701899031, 2595237183085448975, 16709333605607176, 322145239910271471);
  (182, 419, 3, 180835820883374150, 2178999185345151731, 157255244864115779, 1894862692448254543);
  (183, 421, 2, 23580576019258371, 355170616121121485, 121088080687440949, 1823828569224030246);
  (184, 423, 2, 115734925365359456, 2178999185345151731, 63220618004761221, 1190286118857461942);
  (185, 426, 3, 252475573674958206, 2970927248303362111, 84226340949000515, 991107090907836161);
  (186, 428, 2, 134558696346357485, 1979221651290489357, 67381072759200412, 991107090907836161);
  (187, 430, 2, 107646957077085988, 1979221651290489357, 40469333489928915, 744078450812172862);
  (188, 433, 3, 288138714436044023, 3311115321276806166, 32375466791943132, 372039225406086431);
  (189, 435, 2, 63454738907308598, 911479209826230221, 96478303037540563, 1385837668428331188);
  (190, 437, 2, 70059451733354991, 1257938626933313018, 96478303037540563, 1732297085535413985);
  (191, 440, 3, 280237806933419964, 3144846567333282545, 24579430868345227, 275831943017189369);
  (192, 442, 2, 70795219907691129, 993085599096212663, 98317723473380908, 1379159715085946845);
  (193, 444, 2, 79449763176091399, 1393109869646885449, 124281353278581718, 2179208256187292417);
  (194, 447, 3, 189883847225232685, 2080945957869741546, 234715437327723004, 2572257449457495901);
  (195, 449, 2, 75953538890093074, 1040472978934870773, 127639949650027175, 1748515218436821274);
  (196, 451, 2, 126379087850180713, 2164053642727971614, 51055979860010870, 874257609218410637);
  (197, 454, 3, 146801479794185061, 1571097929009584918, 228491047570202453, 2445355538227995555);
  (198, 456, 2, 107494590380638215, 1438034961939157651, 62036123069243969, 829903286861601548);
  (199, 458, 2, 85995672304510572, 1438034961939157651, 62036123069243969, 1037379108577001935);
  (200, 461, 3, 64004627996555137, 668935499299309361, 272104041512242479, 2843857679793852160);
  (201, 463, 2, 99190298889283833, 1295842077949465043, 57637914207652882, 752993340597616719);
  (202, 465, 2, 62731285238774686, 1024417709273540881, 83910185795918421, 1370274496857271357);
  (203, 468, 3, 263632481289384985, 2690740568527751131, 272104041512242479, 2777204765423683750);
  (204, 470, 2, 44254936035019503, 564604896012022009, 122396112961468982, 1561530776503707113);
  (205, 472, 2, 121840081869336703, 1943046158158987303, 66660419598595394, 1063067836257864561);
  (206, 474, 2, 128728536266049154, 2566124833466290493, 68956571064166211, 1374607173911516156);
  (207, 477, 3, 89191514800006081, 1111236519994205727, 227104656928338503, 2829495487383600922);
  (208, 479, 2, 81097537305670133, 1262992131843003094, 129819164633996474, 2021770191086989929);
  (209, 481, 2, 126486916218875703, 2462343267024763544, 35708158392464563, 695137062582744191);
  (210, 484, 3, 234214736134369285, 2849687421229412292, 107727819915493582, 1310722879338935077);
  (211, 486, 2, 46842947226873857, 712421855307353073, 103010649073857329, 1566661409543203874);
  (212, 488, 2, 142612966730969276, 2711203082965778997, 1864950924021923, 35454424732124432);
  (213, 491, 3, 287486186153447993, 3415859774516752083, 1864950924021923, 22159015457577770);
  (214, 493, 2, 119843346863836197, 1779946687495503794, 123573248711880043, 1835344226139448219);
  (215, 495, 2, 22476708633549701, 417287902551903736, 127303150559923889, 2363427205979240805);
  (216, 498, 3, 22476708633549701, 260804939094939835, 284601191976657146, 3302324986721024211);
  (217, 500, 2, 142331731202820293, 2064404707381220269, 52424896668621489, 760380011906521094);
  (218, 502, 2, 67417671814852415, 1222297356667240408, 104849793337242978, 1900950029766302735);
  (219, 505, 3, 13483534362970483, 152787169583405051, 285973437816154021, 3240476195911906584);
  (220, 507, 2, 53934137451881932, 763935847917025255, 132702479995865509, 1879629236061812003);
  (221, 509, 2, 97934592866923206, 1733960849678682391, 58900978470302261, 1042859194953221942);
  (222, 512, 3, 74514424228950639, 824562410527128826, 235603913881209044, 2607147987383054855);
  (223, 514, 2, 138950220089854001, 1921995801586874047, 128871591721806724, 1782585576855926029);
  (224, 516, 2, 127285981460758844, 2200816251048770083, 53564362362332145, 926145344610700019);
  (225, 519, 3, 245127578657889563, 2648960005745193828, 85702979779731432, 926145344610700019);
  (226, 521, 2, 127906370104646165, 1727767948135082913, 19536868092207233, 263905343174401562);
  (227, 523, 2, 109773152318480165, 1853529010971547314, 39073736184414466, 659763357936003905);
  (228, 526, 3, 87818521854784132, 926764505485773657, 231829885614701163, 2446542082020108781);
  (229, 528, 2, 111707362215671205, 1473584616837963533, 127859362987794118, 1686653293752941219);
  (230, 530, 2, 89365889772536964, 1473584616837963533, 60834945658391395, 1003128154562703874);
  (231, 533, 3, 215232746940108765, 2218153829008468369, 263900703466821881, 2719717906289820306);
  (232, 535, 2, 144079161858630197, 1856070632260604224, 5621407138691363, 72416639349572829);
  (233, 537, 2, 95441748537084299, 1536886252894598826, 71123041876311350, 1145285234179020599);
  (234, 540, 3, 237687832289706999, 2392160450782900015, 113796867002098160, 1145285234179020599);
  (235, 542, 2, 123890965287608839, 1558594020754849270, 91037493601678528, 1145285234179020599);
  (236, 544, 2, 61193190498193179, 962291122278222617, 119377212413941396, 1877261681782212527);
  (237, 546, 2, 136430520245491971, 2681791008345786727, 36114080582426915, 709888201015108786);
  (238, 549, 3, 280083856607469325, 3440974785559122007, 28891264465941532, 354944100507554393);
  (239, 551, 2, 84908035787435397, 1303923822024223493, 115565057863766128, 1774720502537771965);
  (240, 553, 2, 129721452844630489, 2490148473920059868, 80189237460480610, 1539322162280997729);
  (241, 556, 3, 193872842813014977, 2326003877340536282, 128302779936768976, 1539322162280997729);
  (242, 558, 2, 136814817383938054, 2051807457244044825, 12546543412104595, 188160111805364794);
  (243, 560, 2, 140636274599567401, 2636397161689028542, 5018617364841838, 94080055902682397);
  (244, 563, 3, 166641094189548209, 1952430609532399916, 206790033108282913, 2422830889045811901);
  (245, 565, 2, 101193724216650804, 1482030330018987931, 65447369972897405, 958507931896511964);
  (246, 567, 2, 142985416975013596, 2617611990612379835, 13089473994579481, 239626982974127991);
  (247, 570, 3, 261389961105445342, 2990766081650842871, 183052876531040595, 2094450498260741413);
  (248, 572, 2, 5115933961988509, 73169230107256116, 141326367262843967, 2021281268153485297);
  (249, 574, 2, 121246588149456788, 2167619728367997529, 116130654187468279, 2076158190733927384);
  (250, 577, 3, 286899064389105484, 3205698823734961221, 116130654187468279, 1297598869208704615);
  (251, 579, 2, 68307364080654882, 954049977263128303, 129800262253954235, 1812922207127069083);
  (252, 581, 2, 42347311629864035, 739331919797143108, 103840209803163388, 1812922207127069083);
  (253, 584, 3, 16938924651945614, 184832979949285777, 271379979671115833, 2961225188248743603);
  (254, 586, 2, 67755698607782456, 924164899746428885, 98317200029281763, 1341013481897364676);
  (255, 588, 2, 93531438897938670, 1594671640695111223, 98317200029281763, 1676266852371705845);
  (256, 591, 3, 266673790045571369, 2841672378514316279, 117023487808869497, 1247000737819205056);
  (257, 593, 2, 143124939351135397, 1906421825149912487, 117023487808869497, 1558750922274006320);
  (258, 595, 2, 137904649042682217, 2296109555718414067, 117023487808869497, 1948438652842507900);
  (259, 598, 3, 133728416795919673, 1391609609464520521, 234046975617738994, 2435548316053134875);
  (260, 600, 2, 33427654954004005, 434820128085106672, 133781807735630632, 1740206510301322541);
  (261, 602, 2, 6685530990800801, 108705032021276668, 140680902485275269, 2287435662251289293);
  (262, 605, 3, 13371061981601602, 135881290026595835, 285031421550880881, 2896586472468730918);
  (263, 607, 2, 53484247926406408, 679406450132979175, 115838957029223225, 1471493713263459822);
  (264, 609, 2, 130136287258657461, 2066389553648312893, 46335582811689290, 735746856631729911);
  (265, 611, 2, 139403403820995319, 2766923656218323594, 37068466249351432, 735746856631729911);
  (266, 614, 3, 239646924848615165, 2972868341664830578, 213540336319698183, 2649010855926114635);
  (267, 616, 2, 95858769939446066, 1486434170832415289, 91574977851335135, 1420007541901833076);
  (268, 618, 2, 127025141774045886, 2462144457505660679, 18314995570267027, 355001885475458269);
  (269, 621, 3, 175352026587434138, 2124294127647112813, 160935995574785177, 1949651777512202079);
  (270, 623, 2, 96089666457741785, 1455092351627105558, 67257604432443863, 1018486476289828723);
  (271, 625, 2, 38435866583096714, 727546175813552779, 115297275573339369, 2182443102817795418);
  (272, 628, 3, 192169008739532797, 2273459659028063110, 169105423954484614, 2000605415020122953);
  (273, 630, 2, 106075971329700405, 1568667622267077254, 39965867839736026, 591021341498151241);
  (274, 630, 0, 21215194265940081, 1568667622267077254, 18750673573795945, 1386439085223678951);
  (274, 631, 0, 21215194265940081, 784333811133538627, 16286152881651809, 602105274090140324);
  (274, 632, 0, 26144235650228353, 483281174088468465, 16286152881651809, 301052637045070162);
  (275, 635, 3, 183436478963942351, 2119286400986597454, 156006629291098945, 1802382654681095681);
  (276, 637, 2, 121033827247502773, 1747916673892698977, 124805303432879156, 1802382654681095681);
  (277, 639, 2, 97581357035077495, 1761533169089798153, 101352833220453878, 1829615645075294033);
  (278, 642, 3, 156130171256123992, 1761533169089798153, 159901647441500375, 1804084716580733078);
  (279, 644, 2, 88398036094147459, 1246684668708212496, 63960658976600150, 902042358290366539);
  (280, 646, 2, 139566563275427579, 2460398194175632159, 51168527181280120, 902042358290366539);
  (281, 649, 3, 211202501329219747, 2327035934863840821, 81869643490048192, 902042358290366539);
  (282, 651, 2, 51733143135668622, 712496788286737141, 137872715412262073, 1898857501582547777);
  (283, 653, 2, 141387457980923383, 2434080543184164082, 75842343419172278, 1305677144934642459);
  (284, 656, 3, 230338824312445882, 2478398979855444291, 62733320506822057, 674997790802961334);
  (285, 658, 2, 129775522029071587, 1745447833029943146, 125466641013644114, 1687494477007403335);
  (286, 660, 2, 107267522435599248, 1803401189052482957, 76141760811271963, 1280109196761187454);
  (287, 663, 3, 177184130922005754, 1861782492097132069, 240875587083546803, 2531027742000050352);
  (288, 665, 2, 45397069904185882, 596268621097106893, 104684377370989157, 1374978814208742261);
  (289, 667, 2, 134158433643300908, 2202632912373899097, 11857461493360655, 194677548277908842);
  (290, 670, 3, 284917313377306733, 2923633995210544108, 9485969194688524, 97338774138954421);
  (291, 672, 2, 72161013386962985, 925586047080544869, 110104890165717081, 1412279917775316974);
  (292, 674, 2, 57728810709570388, 925586047080544869, 138969295520502275, 2228142920759418652);
  (293, 677, 3, 258709101942382007, 2592482982796289504, 55587718208200910, 557035730189854663);
  (294, 679, 2, 125298578242699823, 1569496537925797891, 44470174566560728, 557035730189854663);
  (295, 681, 2, 16165680735227819, 253115201933985807, 129383656060559455, 2025833045147315894);
  (296, 683, 2, 58208092682567529, 1139246266121793491, 109961555106791311, 2152162788695451438);
  (297, 686, 3, 177229414222534847, 2167954006638968381, 262616806204630397, 3212452965099660214);
  (298, 688, 2, 91842022240439297, 1404318810222845685, 68309913585676440, 1044498958460691833);
  (299, 690, 2, 132827970391845161, 2538772731624075981, 54647930868541152, 1044498958460691833);
  (300, 693, 3, 90626368408815327, 1082602144166614972, 206145394588653290, 2462566360212229703);
  (301, 695, 2, 90626368408815327, 1353252680208268715, 74289947262107305, 1109313680003960988);
  (302, 697, 2, 139635631848939393, 2606337101026489870, 14857989452421461, 277328420000990247);
  (303, 700, 3, 254345204222397540, 2967139070519186417, 93302279960442307, 1088445292631034413);
  (304, 702, 2, 118609685145992434, 1729595374201193593, 42433239115962799, 618771848158996412);
  (305, 704, 2, 103374395939986507, 1884288336240942696, 42433239115962799, 773464810198745515);
  (306, 707, 3, 150592699337529684, 1715608978319216863, 197811002735072861, 2253537746487844541);
  (307, 709, 2, 69680740414520509, 992286681201765351, 94436606795086354, 1344821920421569195);
  (308, 711, 2, 140090109926913304, 2493686731470199847, 4951173276113169, 88133809804950961);
  (309, 714, 3, 263869441829742529, 2935644985371233670, 113469653973678082, 1262391803953444429);
  (310, 716, 2, 7386026776477273, 102715344366086203, 143665491282666862, 1997914556391601619);
  (311, 718, 2, 104070571376601557, 1809099279765499493, 74526464270692465, 1295522557935068478);
  (312, 721, 3, 282667607023895579, 3071075698416292165, 59621171416553972, 647761278967534239);
  (313, 723, 2, 130740211352630108, 1775553140481223687, 26936118578396445, 365813313589111877);
  (314, 725, 2, 136127435068309397, 2310894753998807578, 21548894862717156, 365813313589111877);
  (315, 728, 3, 18605929068575017, 197408515852572978, 284026733313187350, 3013517663060997253);
  (316, 730, 2, 37211858137150034, 493521289631432445, 132216622393849957, 1753519476346214849);
  (317, 732, 2, 78539925870780039, 1302042125941560491, 86772345063739981, 1438519929667519248);
  (318, 735, 3, 264499633495232032, 2740562055609079739, 86772345063739981, 899074956042199530);
  (319, 737, 2, 123154322410840809, 1595049766815089752, 50390367716639153, 652637623290409073);
  (320, 739, 2, 123154322410840809, 1993812208518862190, 89574023137647646, 1450162506697953949);
  (321, 742, 3, 38062984191445427, 385138951520084834, 264239384494690674, 2673696812176646471);
  (322, 744, 2, 76125968382890854, 962847378800212085, 113308350636165355, 1433133143968344444);
  (323, 746, 2, 123210512513698848, 1947970606064371537, 22661670127233071, 358283285992086111);
  (324, 748, 2, 101691780935332211, 2009696616982458856, 90646680508932284, 1791416429960430555);
  (325, 751, 3, 206049757375490981, 2545052661328852626, 104357976440158770, 1288992275714815841)].

