(* ===== verification/RyuFloor.v ===== *)
(** Why 125 bits are enough for [nurl__shortest_decimal] in
    [src/stdlib/runtime_core.c]: the truncated product has the same floor as
    the exact one, for every double.

    The product of a significand [m] with a table entry is off by little, so
    its floor can only be wrong when [m * a] is within that little of a
    multiple of some [N].  How near it comes for any [m] up to a bound is told
    by two vectors of the lattice of the pairs [(m, m * a mod N)]; the vectors
    are found by a computation and checked for each exponent. *)

From S2P Require Import Prelude Dtoa Float Pow5Table Atof AtofPack AtofApprox AtofValue Ryu RyuTable.

(** * How near a multiple comes *)

(** [m1 * a] is [r1] above a multiple of [N], [m2 * a] is [s2] below one, and
    the two vectors span the lattice. *)
Record spans (a N m1 r1 m2 s2 : Z) : Prop := {
  sp_N : 0 < N;
  sp_pos : 0 <= m1 /\ 0 <= m2 /\ 0 < r1 /\ 0 < s2;
  sp_det : m1 * s2 + m2 * r1 = N;
  sp_above : (N | m1 * a - r1);
  sp_below : (N | m2 * a + s2) }.

(** A point of the lattice in terms of the two vectors. *)
Lemma spans_point a N m1 r1 m2 s2 m y :
  spans a N m1 r1 m2 s2 -> (N | m * a - y) -> exists c1 c2, m = c1 * m1 + c2 * m2 /\ y = c1 * r1 - c2 * s2.
Proof.
  intros [HN _ Hdet [u1 H1] [u2 H2]] [u Hy].
  assert ((N | m * s2 + y * m2) /\ (N | m * r1 - y * m1)) as [[c1 Hc1] [c2 Hc2]].
  { split.
    - exists (m * u2 - u * m2). replace (m * s2 + y * m2) with (m * (m2 * a + s2) - (m * a - y) * m2) by ring. rewrite H2, Hy. ring.
    - exists (u * m1 - m * u1). replace (m * r1 - y * m1) with ((m * a - y) * m1 - m * (m1 * a - r1)) by ring. rewrite H1, Hy. ring. }
  exists c1, c2. split; apply (Z.mul_reg_r _ _ N); try lia.
  - replace ((c1 * m1 + c2 * m2) * N) with (m1 * (c1 * N) + m2 * (c2 * N)) by ring. rewrite <- Hc1, <- Hc2, <- Hdet. ring.
  - replace ((c1 * r1 - c2 * s2) * N) with (r1 * (c1 * N) - s2 * (c2 * N)) by ring. rewrite <- Hc1, <- Hc2, <- Hdet. ring.
Qed.

(** No multiple of [a] by less than [m1 + m2] is nearer to a multiple of [N]. *)
Lemma spans_bound a N m1 r1 m2 s2 m y :
  spans a N m1 r1 m2 s2 -> 0 < m < m1 + m2 -> (N | m * a - y) -> r1 <= y \/ y <= - s2.
Proof.
  intros Hs Hm Hy. destruct (spans_point _ _ _ _ _ _ m y Hs Hy) as (c1 & c2 & Em & Ey). destruct Hs as [_ (P1 & P2 & P3 & P4) _ _ _].
  destruct (Z.le_gt_cases r1 y) as [|H1]; [by left|]. destruct (Z.le_gt_cases y (- s2)) as [|H2]; [by right|]. exfalso.
  destruct (Z.le_gt_cases c1 0) as [Hc1|Hc1], (Z.le_gt_cases c2 0) as [Hc2|Hc2].
  - assert (c1 * m1 <= 0) by nia. assert (c2 * m2 <= 0) by nia. lia.
  - assert (c1 * r1 <= 0) by nia. assert (s2 <= c2 * s2) by nia. lia.
  - assert (r1 <= c1 * r1) by nia. assert (c2 * s2 <= 0) by nia. lia.
  - assert (m1 <= c1 * m1) by nia. assert (m2 <= c2 * m2) by nia. lia.
Qed.

(** * The rows of the table *)

(** The largest numerator: the upper bound of the largest significand. *)
Definition max_mv : Z := 2 ^ 55 + 2.

Definition up_q (e2 : Z) : Z := nurl__log10_pow2 e2 - nz (3 <? e2).
Definition up_k (q : Z) : Z := 124 + nurl__pow5_bits q.
Definition up_shift (e2 : Z) : Z := - e2 + up_q e2 + up_k (up_q e2).
Definition down_q (e2 : Z) : Z := nurl__log10_pow5 (- e2) - nz (1 <? - e2).
Definition down_i (e2 : Z) : Z := - e2 - down_q e2.
Definition down_k (i : Z) : Z := nurl__pow5_bits i - 125.

(** Two neighbouring fractions around [a / N] whose denominators together are
    more than [B]. *)
Definition neighbours (a N B m1 u1 m2 u2 : Z) : bool :=
  (0 <=? m1) && (0 <=? m2) && (m1 * u2 - m2 * u1 =? 1) && (B <? m1 + m2).

(** A row for [x = q], from the exponent [y] on to [y + g]. *)
Definition up_row_ok (r : row) : bool :=
  let '(q, e0, g, m1, u1, m2, u2) := r in
  let N := 5 ^ q in let a := 2 ^ (e0 - q) in let B := max_mv * 2 ^ g in
  (0 <=? q) && (q <=? e0) && (0 <=? g) && (0 <=? - e0 + q + up_k q) &&
  neighbours a N B m1 u1 m2 u2 && (0 <? m1 * a - u1 * N) && (B * N <? (u2 * N - m2 * a) * 2 ^ (- e0 + q + up_k q)).

(** A row for [x = i], for the powers of two from [y - g] to [y]. *)
Definition down_row_ok (r : row) : bool :=
  let '(i, p, g, m1, u1, m2, u2) := r in
  let N := 2 ^ p in let a := 5 ^ i in let B := max_mv * 2 ^ g in
  (0 <=? i) && (0 <=? g) && (g <=? p) && (0 <? down_k i) &&
  neighbours a N B m1 u1 m2 u2 && (B * 2 ^ down_k i <=? m1 * a - u1 * N) && (0 <? u2 * N - m2 * a).

Definition up_covers (q e2 : Z) (r : row) : bool :=
  let '(q', e0, g, _, _, _, _) := r in (q =? q') && (e0 <=? e2) && (e2 <=? e0 + g).
Definition down_covers (i q : Z) (r : row) : bool :=
  let '(i', p, g, _, _, _, _) := r in (i =? i') && (p - g <=? q) && (q <=? p).

(** The powers are carried along from row to row and from exponent to exponent,
    so that no check computes one from scratch. *)
Definition up_row_chk (N : Z) (r : row) : bool :=
  let '(q, e0, g, m1, u1, m2, u2) := r in
  let B := Z.shiftl max_mv g in
  (0 <=? q) && (q <=? e0) && (0 <=? g) && (0 <=? - e0 + q + up_k q) &&
  neighbours 0 0 B m1 u1 m2 u2 && (u1 * N <? Z.shiftl m1 (e0 - q)) && (B * N <? Z.shiftl (u2 * N - Z.shiftl m2 (e0 - q)) (- e0 + q + up_k q)).

Definition down_row_chk (a : Z) (r : row) : bool :=
  let '(i, p, g, m1, u1, m2, u2) := r in
  let B := Z.shiftl max_mv g in
  (0 <=? i) && (0 <=? g) && (g <=? p) && (0 <? down_k i) &&
  neighbours 0 0 B m1 u1 m2 u2 && (Z.shiftl B (down_k i) <=? m1 * a - Z.shiftl u1 p) && (m2 * a <? Z.shiftl u2 p).

Definition row_x (r : row) : Z := let '(x, _, _, _, _, _, _) := r in x.

(** [P] is five to the power of [x]. *)
Fixpoint scan_rows (chk : Z -> row -> bool) (x P : Z) (rs : list row) : bool :=
  match rs with
  | [] => true
  | r :: rs' => let P' := P * 5 ^ (row_x r - x) in (x <=? row_x r) && chk P' r && scan_rows chk (row_x r) P' rs'
  end.

Lemma scan_rows_ok chk rs : forall x, 0 <= x -> scan_rows chk x (5 ^ x) rs = true -> forall r, r ∈ rs -> chk (5 ^ row_x r) r = true.
Proof.
  induction rs as [|r0 rs IH]; intros x Hx H r Hr; [by apply not_elem_of_nil in Hr|]. cbn [scan_rows] in H. rewrite !andb_true_iff, Z.leb_le in H. destruct H as [[H1 H2] H3].
  rewrite <- Z.pow_add_r in H2, H3 by lia. replace (x + (row_x r0 - x)) with (row_x r0) in H2, H3 by lia. apply elem_of_cons in Hr as [->|Hr]; [done|]. apply (IH (row_x r0)); [lia|done|done].
Qed.

Lemma up_row_chk_ok r : up_row_chk (5 ^ row_x r) r = true -> up_row_ok r = true.
Proof.
  destruct r as [[[[[[q e0] g] m1] u1] m2] u2]. unfold up_row_chk, up_row_ok, neighbours. cbn [row_x]. rewrite !andb_true_iff, !Z.ltb_lt, !Z.leb_le.
  intros [[[[[[H1 H2] H3] H4] H5] H6] H7]. rewrite !Z.shiftl_mul_pow2 in * by lia. split_and!; try lia; by destruct H5 as [[[? ?] ?] ?].
Qed.

Lemma down_row_chk_ok r : down_row_chk (5 ^ row_x r) r = true -> down_row_ok r = true.
Proof.
  destruct r as [[[[[[i p] g] m1] u1] m2] u2]. unfold down_row_chk, down_row_ok, neighbours. cbn [row_x]. rewrite !andb_true_iff, !Z.ltb_lt, !Z.leb_le.
  intros [[[[[[H1 H2] H3] H4] H5] H6] H7]. rewrite !Z.shiftl_mul_pow2 in * by lia. split_and!; try lia; by destruct H5 as [[[? ?] ?] ?].
Qed.

Lemma up_rows_ok r : r ∈ up_rows -> up_row_ok r = true.
Proof. intros Hr. apply up_row_chk_ok. apply (scan_rows_ok up_row_chk up_rows 0); [done|by vm_compute|done]. Qed.

Lemma down_rows_ok r : r ∈ down_rows -> down_row_ok r = true.
Proof. intros Hr. apply down_row_chk_ok. apply (scan_rows_ok down_row_chk down_rows 0); [done|by vm_compute|done]. Qed.

(** What holds of every exponent: [P5] is the power of five, [P2] that of two,
    for exponents from zero on ... *)
Definition up_chk (e q P5 P2 : Z) : bool :=
  (0 <=? q) && (q <? 326) && (q <=? e) && (P5 <=? P2) && ((q =? 0) || (10 * P5 <=? P2)) && (118 <=? up_shift e) && (up_shift e <=? 125) &&
  ((max_mv * P5 <? 2 ^ up_shift e) || existsb (up_covers q e) up_rows).

Fixpoint up_scan (n : nat) (e q P5 P2 : Z) : bool :=
  match n with
  | O => true
  | S n' =>
      up_chk e q P5 P2 &&
      (let q' := up_q (e + 1) in if q' =? q then up_scan n' (e + 1) q P5 (2 * P2) else (q' =? q + 1) && up_scan n' (e + 1) q' (5 * P5) P2)
  end.

Lemma up_scan_ok n : forall e, up_scan n e (up_q e) (5 ^ up_q e) (2 ^ (e - up_q e)) = true ->
  forall x, e <= x < e + Z.of_nat n -> up_chk x (up_q x) (5 ^ up_q x) (2 ^ (x - up_q x)) = true.
Proof.
  induction n as [|n IH]; intros e H x Hx; [lia|]. cbn [up_scan] in H. apply andb_true_iff in H as [H1 H2].
  destruct (Z.eq_dec x e) as [->|Hne]; [done|]. apply (IH (e + 1)); [|lia]. cbv zeta in H2. unfold up_chk in H1. rewrite !andb_true_iff, !Z.leb_le in H1.
  destruct H1 as [[[[[[[Hq0 _] Hqe] _] _] _] _] _]. destruct (Z.eqb_spec (up_q (e + 1)) (up_q e)) as [E|E].
  - rewrite E. replace (2 ^ (e + 1 - up_q e)) with (2 * 2 ^ (e - up_q e)) by (rewrite <- Z.pow_succ_r by lia; f_equal; lia). done.
  - apply andb_true_iff in H2 as [E2%Z.eqb_eq H2]. rewrite E2 in *. replace (5 ^ (up_q e + 1)) with (5 * 5 ^ up_q e) by (rewrite <- Z.pow_succ_r by lia; f_equal; lia).
    replace (e + 1 - (up_q e + 1)) with (e - up_q e) by lia. done.
Qed.

(** ... and for those below, by their absolute value. *)
Definition down_chk (n q P5 P2 : Z) : bool :=
  let i := n - q in
  (0 <=? q) && (0 <=? i) && (i <? 326) && (P2 <=? P5) && ((q =? 0) || (10 * P2 <=? P5)) && (118 <=? q - down_k i) && (q - down_k i <=? 125) &&
  ((down_k i <=? 0) || existsb (down_covers i q) down_rows).

Fixpoint down_scan (k : nat) (n q P5 P2 : Z) : bool :=
  match k with
  | O => true
  | S k' =>
      down_chk n q P5 P2 &&
      (let q' := down_q (- (n + 1)) in if q' =? q then down_scan k' (n + 1) q (5 * P5) P2 else (q' =? q + 1) && down_scan k' (n + 1) q' P5 (2 * P2))
  end.

Lemma down_scan_ok k : forall n, down_scan k n (down_q (- n)) (5 ^ (n - down_q (- n))) (2 ^ down_q (- n)) = true ->
  forall x, n <= x < n + Z.of_nat k -> down_chk x (down_q (- x)) (5 ^ (x - down_q (- x))) (2 ^ down_q (- x)) = true.
Proof.
  induction k as [|k IH]; intros n H x Hx; [lia|]. cbn [down_scan] in H. apply andb_true_iff in H as [H1 H2].
  destruct (Z.eq_dec x n) as [->|Hne]; [done|]. apply (IH (n + 1)); [|lia]. cbv zeta in H2. unfold down_chk in H1. cbv zeta in H1. rewrite !andb_true_iff, !Z.leb_le in H1.
  destruct H1 as [[[[[[[Hq0 Hi0] _] _] _] _] _] _]. destruct (Z.eqb_spec (down_q (- (n + 1))) (down_q (- n))) as [E|E].
  - rewrite E. replace (5 ^ (n + 1 - down_q (- n))) with (5 * 5 ^ (n - down_q (- n))) by (rewrite <- Z.pow_succ_r by lia; f_equal; lia). done.
  - apply andb_true_iff in H2 as [E2%Z.eqb_eq H2]. rewrite E2 in *. replace (2 ^ (down_q (- n) + 1)) with (2 * 2 ^ down_q (- n)) by (rewrite <- Z.pow_succ_r by lia; f_equal; lia).
    replace (n + 1 - (down_q (- n) + 1)) with (n - down_q (- n)) by lia. done.
Qed.

Lemma up_all_ok e2 : 0 <= e2 < 970 -> up_chk e2 (up_q e2) (5 ^ up_q e2) (2 ^ (e2 - up_q e2)) = true.
Proof. intros He. apply (up_scan_ok 970 0); [by vm_compute|lia]. Qed.

Lemma down_all_ok e2 : -1076 <= e2 < 0 -> down_chk (- e2) (down_q e2) (5 ^ down_i e2) (2 ^ down_q e2) = true.
Proof. intros He. pose proof (down_scan_ok 1076 1 ltac:(by vm_compute) (- e2) ltac:(lia)) as H. by rewrite Z.opp_involutive in H. Qed.

(** * The floors *)

Lemma neighbours_spans a N B m1 u1 m2 u2 :
  0 < N -> neighbours a N B m1 u1 m2 u2 = true -> 0 < m1 * a - u1 * N -> 0 < u2 * N - m2 * a ->
  spans a N m1 (m1 * a - u1 * N) m2 (u2 * N - m2 * a) /\ B < m1 + m2.
Proof.
  unfold neighbours. rewrite !andb_true_iff, Z.ltb_lt, !Z.leb_le, Z.eqb_eq. intros HN [[[H1 H2] H3] H4] Hr Hs. split; [|done]. split.
  - done.
  - done.
  - replace (m1 * (u2 * N - m2 * a) + m2 * (m1 * a - u1 * N)) with ((m1 * u2 - m2 * u1) * N) by ring. rewrite H3. lia.
  - exists u1. ring.
  - exists u2. ring.
Qed.

Lemma mul_shift_spec m T j :
  0 <= m <= max_mv -> pair_ok T = true -> word2 T <= 2 ^ 125 + 1 -> 118 <= j -> nurl__mul_shift m T j = m * word2 T / 2 ^ j.
Proof.
  intros Hm HT Ht Hj. unfold pair_ok in HT. rewrite !andb_true_iff, !Z.leb_le, !Z.ltb_lt in HT. destruct T as [t0 t1]. unfold word2 in *. simpl fst in *. simpl snd in *.
  unfold nurl__mul_shift, max_mv in *. simpl fst. simpl snd.
  assert (t1 <= 2 ^ 61) as Ht1 by lia. assert (0 <= m * t1 <= (2 ^ 55 + 2) * 2 ^ 61) as B1 by nia. assert (0 <= m * t0 <= (2 ^ 55 + 2) * (2 ^ 64 - 1)) as B0 by nia.
  rewrite (wrap_small 128 (m * t0)), (wrap_small 128 (m * t1)) by lia. rewrite !Z.shiftr_div_pow2 by lia.
  assert (m * t0 / 2 ^ 64 + m * t1 = m * (t1 * 2 ^ 64 + t0) / 2 ^ 64) as ->.
  { replace (m * (t1 * 2 ^ 64 + t0)) with (m * t1 * 2 ^ 64 + m * t0) by ring. rewrite Z.div_add_l by lia. lia. }
  assert (0 <= m * (t1 * 2 ^ 64 + t0) <= (2 ^ 55 + 2) * (2 ^ 125 + 1)) as B by nia. set (P := m * (t1 * 2 ^ 64 + t0)) in *.
  rewrite (wrap_small 128 (P / 2 ^ 64)) by zdiv. rewrite Z.div_div by (try apply Z.pow_pos_nonneg; lia). rewrite <- Z.pow_add_r by lia.
  replace (64 + (j - 64)) with j by lia. apply wrap64_small.
  assert (2 ^ 118 <= 2 ^ j) as Hp by (apply Z.pow_le_mono_r; lia).
  split; [apply Z.div_pos; lia|]. apply Z.div_lt_upper_bound; lia.
Qed.

(** Distances scale with the exponent inside a row. *)
Lemma up_gap q e2 m r :
  up_q e2 = q -> 0 <= q <= e2 -> 0 < m <= max_mv -> up_row_ok r = true -> up_covers q e2 r = true ->
  0 <= up_shift e2 -> m * 5 ^ q < (5 ^ q - m * 2 ^ (e2 - q) mod 5 ^ q) * 2 ^ up_shift e2.
Proof.
  intros Hq Hqe Hm Hr Hc Hi. destruct r as [[[[[[q' e0] g] m1] u1] m2] u2]. unfold up_covers in Hc. unfold up_row_ok in Hr.
  rewrite !andb_true_iff, Z.eqb_eq, !Z.leb_le in Hc. destruct Hc as [[-> Hc1] Hc2].
  rewrite !andb_true_iff, !Z.leb_le, !Z.ltb_lt in Hr. destruct Hr as [[[[[[R1 R2] R3] R4] R5] R6] R7].
  set (N := 5 ^ q') in *. set (a := 2 ^ (e0 - q')) in *. set (s2 := u2 * N - m2 * a) in *. set (i0 := - e0 + q' + up_k q') in *. set (d := e2 - e0).
  assert (0 < N) as HN by (apply Z.pow_pos_nonneg; lia). assert (0 < 2 ^ g) as Hg by (apply Z.pow_pos_nonneg; lia).
  assert (0 < 2 ^ i0) as Hpi by (apply Z.pow_pos_nonneg; lia). assert (0 < 2 ^ d) as Hpd by (apply Z.pow_pos_nonneg; lia).
  assert (2 ^ d <= 2 ^ g) as Hdg by (apply Z.pow_le_mono_r; lia). assert (0 < max_mv) as Hmm by (unfold max_mv; lia).
  assert (0 < s2) as Hs2 by nia. destruct (neighbours_spans a N _ m1 u1 m2 u2 HN R5 R6 Hs2) as [Hsp HB].
  assert (m * 2 ^ (e2 - q') = m * 2 ^ d * a) as -> by (unfold a, d; rewrite <- Z.mul_assoc, <- Z.pow_add_r by lia; do 2 f_equal; lia).
  pose proof (Z.mod_pos_bound (m * 2 ^ d * a) N HN) as Hmod. set (r := (m * 2 ^ d * a) mod N) in *.
  assert (0 < m * 2 ^ d <= max_mv * 2 ^ g) as Hmd by (split; [apply Z.mul_pos_pos; lia|apply Z.mul_le_mono_nonneg; lia]).
  destruct (spans_bound a N m1 _ m2 _ (m * 2 ^ d) (r - N) Hsp ltac:(lia)) as [H|H].
  { exists (m * 2 ^ d * a / N + 1). unfold r. pose proof (Z.div_mod (m * 2 ^ d * a) N). lia. }
  { lia. }
  assert (2 ^ i0 = 2 ^ up_shift e2 * 2 ^ d) as Hi0 by (rewrite <- Z.pow_add_r by lia; f_equal; unfold i0, up_shift, d; rewrite Hq; lia).
  fold s2 in H. apply (Z.mul_lt_mono_pos_r (2 ^ d)); [done|].
  apply (Z.le_lt_trans _ (max_mv * 2 ^ g * N)); [|apply (Z.lt_le_trans _ (s2 * 2 ^ i0)); [done|]].
  - replace (m * N * 2 ^ d) with (m * 2 ^ d * N) by ring. apply Z.mul_le_mono_nonneg_r; lia.
  - rewrite <- Z.mul_assoc, <- Hi0. apply Z.mul_le_mono_nonneg_r; lia.
Qed.

Lemma down_gap q i m r :
  0 <= q -> 0 < m <= max_mv -> down_row_ok r = true -> down_covers i q r = true ->
  m * 2 ^ down_k i <= (m * 5 ^ i) mod 2 ^ q.
Proof.
  intros Hq Hm Hr Hc. destruct r as [[[[[[i' p] g] m1] u1] m2] u2]. unfold down_covers in Hc. unfold down_row_ok in Hr.
  rewrite !andb_true_iff, Z.eqb_eq, !Z.leb_le in Hc. destruct Hc as [[-> Hc1] Hc2].
  rewrite !andb_true_iff, !Z.leb_le, !Z.ltb_lt in Hr. destruct Hr as [[[[[[R1 R2] R3] R4] R5] R6] R7].
  set (N := 2 ^ p) in *. set (a := 5 ^ i') in *. set (r1 := m1 * a - u1 * N) in *. set (d := p - q).
  assert (0 < N) as HN by (apply Z.pow_pos_nonneg; lia). assert (0 < 2 ^ g) as Hg by (apply Z.pow_pos_nonneg; lia).
  assert (0 < 2 ^ down_k i') as Hpk by (apply Z.pow_pos_nonneg; lia). assert (0 < 2 ^ d) as Hpd by (apply Z.pow_pos_nonneg; lia).
  assert (2 ^ d <= 2 ^ g) as Hdg by (apply Z.pow_le_mono_r; lia). assert (0 < max_mv) as Hmm by (unfold max_mv; lia).
  assert (0 < r1) as Hr1 by (eapply Z.lt_le_trans; [|exact R6]; repeat apply Z.mul_pos_pos; done). destruct (neighbours_spans a N _ m1 u1 m2 u2 HN R5 Hr1 R7) as [Hsp HB].
  assert (N = 2 ^ q * 2 ^ d) as HNq by (unfold N, d; rewrite <- Z.pow_add_r by lia; f_equal; lia).
  assert (0 < 2 ^ q) as Hpq by (apply Z.pow_pos_nonneg; lia).
  pose proof (Z.mod_pos_bound (m * a) (2 ^ q) Hpq) as Hmod. pose proof (Z.div_mod (m * a) (2 ^ q) ltac:(lia)) as Hdm. set (r := (m * a) mod 2 ^ q) in *.
  assert (0 < m * 2 ^ d <= max_mv * 2 ^ g) as Hmd by (split; [apply Z.mul_pos_pos; lia|apply Z.mul_le_mono_nonneg; lia]).
  destruct (spans_bound a N m1 _ m2 _ (m * 2 ^ d) (r * 2 ^ d) Hsp ltac:(lia)) as [H|H].
  { exists (m * a / 2 ^ q). rewrite HNq. replace (m * 2 ^ d * a - r * 2 ^ d) with ((m * a - r) * 2 ^ d) by ring. replace (m * a - r) with (2 ^ q * (m * a / 2 ^ q)) by lia. ring. }
  2:{ assert (0 <= r * 2 ^ d) by (apply Z.mul_nonneg_nonneg; lia). lia. }
  fold r1 in H. apply (Z.mul_le_mono_pos_r _ _ (2 ^ d)); [done|]. apply (Z.le_trans _ (max_mv * 2 ^ g * 2 ^ down_k i')); [|lia].
  replace (m * 2 ^ down_k i' * 2 ^ d) with (m * 2 ^ d * 2 ^ down_k i') by ring. apply Z.mul_le_mono_nonneg_r; lia.
Qed.

(** The product with the table's entry, for exponents from zero on. *)
Lemma up_floor e2 m :
  0 <= e2 < 970 -> 0 < m <= max_mv ->
  let q := up_q e2 in
  0 <= q < 326 /\ q <= e2 /\ 10 ^ q <= 2 ^ e2 /\
  nurl__mul_shift m (NURL_POW5_INV !!! Z.to_nat q) (up_shift e2) = m * 2 ^ (e2 - q) / 5 ^ q.
Proof.
  intros He Hm q. pose proof (up_all_ok e2 He) as H. unfold up_chk in H. fold q in H. rewrite !andb_true_iff, !Z.leb_le, !Z.ltb_lt in H.
  destruct H as [[[[[[[H1 H2] H3] H4] _] H5] _] H6]. split; [done|]. split; [done|]. split.
  { replace (2 ^ e2) with (2 ^ (e2 - q) * 2 ^ q) by (rewrite <- Z.pow_add_r by lia; f_equal; lia). change 10 with (5 * 2). rewrite Z.pow_mul_l.
    apply Z.mul_le_mono_nonneg_r; [apply Z.pow_nonneg; lia|done]. }
  destruct (pow5_inv_entry q) as (E1 & E2 & _ & E4); [unfold NURL_POW5_INV_N; lia|].
  set (T := NURL_POW5_INV !!! Z.to_nat q) in *. set (i := up_shift e2) in *. rewrite mul_shift_spec by (done || lia).
  set (N := 5 ^ q) in *. set (a := 2 ^ (e2 - q)) in *. assert (0 < N) as HN by (apply Z.pow_pos_nonneg; lia).
  assert (0 < 2 ^ i) as Hpi by (apply Z.pow_pos_nonneg; lia).
  pose proof (Z.div_mod (m * a) N ltac:(lia)) as Hdm. pose proof (Z.mod_pos_bound (m * a) N HN) as Hmod.
  assert (m * N < (N - (m * a) mod N) * 2 ^ i) as Hgap.
  { apply orb_true_iff in H6 as [H6|H6].
    - apply Z.ltb_lt in H6. apply (Z.le_lt_trans _ (max_mv * N)); [apply Z.mul_le_mono_nonneg_r; lia|]. nia.
    - apply existsb_exists in H6 as (r & Hin & Hc). apply (up_gap q e2 m r); try done; [|lia]. by apply up_rows_ok, list_elem_of_In. }
  assert (2 ^ (124 + nurl__pow5_bits q) = a * 2 ^ i) as Hai by (unfold a; rewrite <- Z.pow_add_r by lia; f_equal; unfold i, up_shift, up_k; fold q; lia).
  rewrite Hai in E4. set (t := word2 T) in *. set (X := m * a / N) in *. set (r := (m * a) mod N) in *.
  symmetry. apply (Z.div_unique_pos (m * t) (2 ^ i) X (m * t - 2 ^ i * X)); [|lia]. clearbody X r. split.
  - cut (2 ^ i * X * N <= m * t * N); [intros Hx; apply Z.mul_le_mono_pos_r in Hx; lia|]. nia.
  - cut (m * t * N < (X + 1) * 2 ^ i * N); [intros Hx; apply Z.mul_lt_mono_pos_r in Hx; lia|]. nia.
Qed.

(** And for those below. *)
Lemma down_floor e2 m :
  -1076 <= e2 < 0 -> 0 < m <= max_mv ->
  let q := down_q e2 in let i := down_i e2 in
  0 <= q /\ 0 <= i < 326 /\ 2 ^ q <= 5 ^ i /\
  nurl__mul_shift m (NURL_POW5 !!! Z.to_nat i) (q - down_k i) = m * 5 ^ i / 2 ^ q.
Proof.
  intros He Hm q i. pose proof (down_all_ok e2 He) as H. unfold down_chk in H. cbv zeta in H. fold q in H. change (- e2 - q) with i in H. fold i in H.
  rewrite !andb_true_iff, !Z.leb_le, !Z.ltb_lt in H. destruct H as [[[[[[[H1 H2] H3] H4] _] H5] _] H6]. split; [done|]. split; [done|]. split; [done|].
  pose proof (pow5_table_spec i) as Hsp. destruct (pow5_entry i) as (E1 & E2 & _ & _); [unfold NURL_POW5_N; lia|].
  destruct Hsp as (_ & _ & E4); [unfold NURL_POW5_N; lia|]. cbv zeta in E4.
  set (T := NURL_POW5 !!! Z.to_nat i) in *. rewrite mul_shift_spec by (done || lia). set (k := down_k i) in *.
  assert (nurl__pow5_bits i = 125 + k) as Hb by (unfold k, down_k; lia). rewrite Hb in E4. set (t := word2 T) in *.
  assert (0 < 2 ^ (q - k)) as Hpj by (apply Z.pow_pos_nonneg; lia). assert (0 < 2 ^ q) as Hpq by (apply Z.pow_pos_nonneg; lia).
  destruct (Z.le_gt_cases k 0) as [Hk|Hk].
  - assert (0 <= 125 + k) as Hbk by (rewrite <- Hb; unfold nurl__pow5_bits; pose proof (Z.shiftr_nonneg (wrap32 (i * 1217359)) 19); pose proof (wrap_bound 32 (i * 1217359)); lia).
    assert (2 ^ 125 = 2 ^ (125 + k) * 2 ^ (- k)) as E by (rewrite <- Z.pow_add_r by lia; f_equal; lia).
    assert (0 < 2 ^ (125 + k)) by (apply Z.pow_pos_nonneg; lia). assert (0 < 2 ^ (- k)) by (apply Z.pow_pos_nonneg; lia).
    assert (t = 5 ^ i * 2 ^ (- k)) as -> by (rewrite E4, E, (Z.mul_comm (2 ^ (125 + k))), Z.mul_assoc; apply Z.div_mul; lia).
    replace (2 ^ (q - k)) with (2 ^ q * 2 ^ (- k)) by (rewrite <- Z.pow_add_r by lia; f_equal; lia).
    rewrite Z.mul_assoc. apply Z.div_mul_cancel_r; lia.
  - destruct (Z.leb_spec k 0); [lia|]. rewrite orb_false_l in H6. apply existsb_exists in H6 as (r & Hin & Hc). pose proof (down_rows_ok r ltac:(by apply list_elem_of_In)) as Hr.
    pose proof (down_gap q i m r H1 Hm Hr Hc) as Hgap. fold k in Hgap.
    assert (0 < 2 ^ k) as Hpk by (apply Z.pow_pos_nonneg; lia).
    assert (t = 5 ^ i / 2 ^ k) as Ht by (rewrite E4, Z.add_comm, Z.pow_add_r by lia; apply Z.div_mul_cancel_r; lia).
    pose proof (Z.div_mod (5 ^ i) (2 ^ k) ltac:(lia)) as Hdk. pose proof (Z.mod_pos_bound (5 ^ i) (2 ^ k) Hpk) as Hmk. rewrite <- Ht in Hdk.
    pose proof (Z.div_mod (m * 5 ^ i) (2 ^ q) ltac:(lia)) as Hdm. pose proof (Z.mod_pos_bound (m * 5 ^ i) (2 ^ q) Hpq) as Hmod.
    assert (2 ^ q = 2 ^ (q - k) * 2 ^ k) as Hq by (rewrite <- Z.pow_add_r by lia; f_equal; lia).
    set (rho := 5 ^ i mod 2 ^ k) in *. set (r' := (m * 5 ^ i) mod 2 ^ q) in *. set (X := m * 5 ^ i / 2 ^ q) in *.
    assert (m * rho <= m * 2 ^ k) as Hrho by (apply Z.mul_le_mono_nonneg_l; lia).
    assert (m * t * 2 ^ k = X * 2 ^ q + (r' - m * rho)) as Hsum by (replace (m * t * 2 ^ k) with (m * (2 ^ k * t)) by ring; lia).
    symmetry. apply (Z.div_unique_pos (m * t) (2 ^ (q - k)) X (m * t - 2 ^ (q - k) * X)); [|lia].
    assert (0 <= m * rho) by (apply Z.mul_nonneg_nonneg; lia).
    split.
    + cut (2 ^ (q - k) * X * 2 ^ k <= m * t * 2 ^ k); [intros Hx; apply Z.mul_le_mono_pos_r in Hx; lia|]. lia.
    + cut (m * t * 2 ^ k < (X + 1) * 2 ^ (q - k) * 2 ^ k); [intros Hx; apply Z.mul_lt_mono_pos_r in Hx; lia|]. lia.
Qed.

(** ** The power taken leaves a digit to remove *)

Lemma up_room e2 : 0 <= e2 < 970 -> let q := up_q e2 in q = 0 \/ 10 * 5 ^ q <= 2 ^ (e2 - q).
Proof. intros He q. pose proof (up_all_ok e2 He) as H. unfold up_chk in H. fold q in H. lia. Qed.

Lemma down_room e2 : -1076 <= e2 < 0 -> let q := down_q e2 in q = 0 \/ 10 * 2 ^ q <= 5 ^ down_i e2.
Proof. intros He q. pose proof (down_all_ok e2 He) as H. unfold down_chk in H. fold q in H. lia. Qed.

Lemma up_shifts e2 : 0 <= e2 < 970 -> 118 <= up_shift e2 <= 125.
Proof. intros He. pose proof (up_all_ok e2 He) as H. unfold up_chk in H. lia. Qed.

Lemma down_shifts e2 : -1076 <= e2 < 0 -> 118 <= down_q e2 - down_k (down_i e2) <= 125.
Proof. intros He. pose proof (down_all_ok e2 He) as H. unfold down_chk in H. change (- e2 - down_q e2) with (down_i e2) in H. lia. Qed.
