(* ===== verification/RyuLoop.v ===== *)
(** The loops of [nurl__shortest_decimal] in [src/stdlib/runtime_core.c]: they
    end, and the digits they leave are inside the interval that rounds to the
    double, with no shorter decimal in it. *)

From S2P Require Import Prelude Dtoa Float Pow5Table Atof AtofValue Ryu.

(** The value [lb / D] and the bounds [la / D] and [lc / D] of the interval.
    [eps] is 1 where the upper bound is an integer that does not belong to it,
    and [tz] says that the lower one is an integer that does.  What the flags
    do not record is not a multiple of ten. *)
Record interval (la lb lc D eps : Z) (accept tz : bool) : Prop := {
  iv_D : 0 < D;
  iv_la : 0 < la;
  iv_gaps : D <= lb - la <= lc - lb;
  iv_eps : 0 <= eps <= 1;
  iv_exact : eps = 1 -> lc mod D = 0;
  iv_accept : accept = true -> eps = 0;
  iv_tz : tz = true -> accept = true /\ la mod D = 0;
  iv_strict : accept = false -> eps = 1 \/ lc mod (D * 10) <> 0;
  iv_whole : accept = true -> tz = true \/ la mod (D * 10) <> 0;
  iv_room : lb mod D = 0 \/ 10 * D <= lb - la }.

Section loops.
Context (la lb lc D eps : Z) (accept tz : bool) (Hiv : interval la lb lc D eps accept tz).

(** [j] digits removed. *)
Definition cut (x : Z) (j : nat) : Z := x / (D * 10 ^ Z.of_nat j).

Lemma unit_pos j : 0 < D * 10 ^ Z.of_nat j.
Proof. pose proof Hiv as []. apply Z.mul_pos_pos; [done|apply pow10_pos; lia]. Qed.

Lemma cut_S x j : cut x (S j) = cut x j / 10.
Proof.
  unfold cut. rewrite Z.div_div by (pose proof (unit_pos j); lia). f_equal. rewrite pow_of_S. ring.
Qed.

Lemma cut_bounds x j : cut x j * (D * 10 ^ Z.of_nat j) <= x < (cut x j + 1) * (D * 10 ^ Z.of_nat j).
Proof.
  unfold cut. pose proof (unit_pos j) as H. pose proof (Z.div_mod x (D * 10 ^ Z.of_nat j) ltac:(lia)). pose proof (Z.mod_pos_bound x (D * 10 ^ Z.of_nat j) H). lia.
Qed.

Lemma cut_mono x y j : x <= y -> cut x j <= cut y j.
Proof. intros Hxy. apply Z.div_le_mono; [apply unit_pos|done]. Qed.

(** The lower bound is a number of [j] digits less, exactly. *)
Definition exact_at (j : nat) : bool := tz && (la mod (D * 10 ^ Z.of_nat j) =? 0).

Lemma exact_at_value j : exact_at j = true -> accept = true /\ la = cut la j * (D * 10 ^ Z.of_nat j).
Proof.
  unfold exact_at. rewrite andb_true_iff, Z.eqb_eq. intros [Ht Hm]. destruct (iv_tz _ _ _ _ _ _ _ Hiv Ht) as [Ha _]. split; [done|].
  unfold cut. pose proof (unit_pos j). pose proof (Z.div_mod la (D * 10 ^ Z.of_nat j) ltac:(lia)). lia.
Qed.

Lemma exact_at_S j : exact_at (S j) = exact_at j && (cut la j mod 10 =? 0).
Proof.
  unfold exact_at, cut. pose proof (unit_pos j) as Hp. destruct tz; [|done]. simpl andb.
  replace (D * 10 ^ Z.of_nat (S j)) with (D * 10 ^ Z.of_nat j * 10) by (rewrite pow_of_S; ring).
  rewrite Z.rem_mul_r by lia. pose proof (Z.mod_pos_bound la (D * 10 ^ Z.of_nat j) Hp). pose proof (Z.mod_pos_bound (la / (D * 10 ^ Z.of_nat j)) 10 ltac:(lia)).
  set (U := D * 10 ^ Z.of_nat j) in *. clearbody U.
  destruct (Z.eqb_spec (la mod U) 0), (Z.eqb_spec ((la / U) mod 10) 0), (Z.eqb_spec (la mod U + U * ((la / U) mod 10)) 0); simpl; try done; nia.
Qed.

(** * Where the loops stop *)

(** The last digit removed was 5 or more. *)
Definition half_up (j : nat) : bool := match j with O => false | S i => 5 <=? cut lb i mod 10 end.

Lemma half_up_value j : half_up j = true -> (2 * cut lb j + 1) * (D * 10 ^ Z.of_nat j) <= 2 * lb.
Proof.
  destruct j as [|i]; [done|]. unfold half_up. rewrite Z.leb_le. intros H. rewrite cut_S. pose proof (cut_bounds lb i) as [Hb _]. pose proof (unit_pos i) as Hp.
  replace (D * 10 ^ Z.of_nat (S i)) with (10 * (D * 10 ^ Z.of_nat i)) by (rewrite pow_of_S; ring).
  pose proof (Z.div_mod (cut lb i) 10 ltac:(lia)). set (U := D * 10 ^ Z.of_nat i) in *. clearbody U.
  assert ((10 * (cut lb i / 10) + 5) * U <= lb) by nia. lia.
Qed.

(** The end: the next digit cannot go, and either the bounds differ or the
    lower one is exact and ends in another digit than zero. *)
Record ended (j : nat) : Prop := {
  en_stop : cut (lc - eps) (S j) <= cut la (S j);
  en_gap : cut la j < cut (lc - eps) j \/ exact_at j = true;
  en_tz : exact_at (S j) = false }.

Definition output (j : nat) (up : bool) : Z :=
  cut lb j + nz (((cut lb j =? cut la j) && (negb accept || negb (exact_at j))) || up).

Definition inside (x : Z) : Prop := (la < x \/ accept = true /\ la = x) /\ (x < lc \/ accept = true /\ x = lc).

Section output.
Context (j : nat) (Hj : ended j) (up : bool) (Hup : up = true -> half_up j = true).

Lemma output_le_cut : output j up <= cut (lc - eps) j.
Proof.
  pose proof (unit_pos j) as Hp. pose proof Hiv as [H1 H2 H3 H4 _ H5 H6 _ _ _]. destruct Hj as [_ Hgap _].
  pose proof (cut_bounds la j) as Ba. pose proof (cut_bounds lb j) as Bb. pose proof (cut_bounds (lc - eps) j) as Bc.
  pose proof (cut_mono la lb j ltac:(lia)) as Mab. pose proof (cut_mono lb (lc - eps) j ltac:(lia)) as Mbc.
  unfold output. destruct (_ || up) eqn:Hn; simpl nz; [|lia].
  destruct (Z.lt_ge_cases (cut lb j) (cut (lc - eps) j)) as [|Hge]; [lia|]. exfalso. assert (cut lb j = cut (lc - eps) j) as He by lia.
  apply orb_true_iff in Hn as [Hn|Hn].
  - apply andb_true_iff in Hn as [Hn Hx]. apply Z.eqb_eq in Hn. destruct Hgap as [|Ht]; [lia|].
    destruct (exact_at_value j Ht) as [Ha _]. rewrite Ha, Ht in Hx. done.
  - pose proof (half_up_value j (Hup Hn)) as Hh. pose proof (exact_at_value j) as Hx. set (U := D * 10 ^ Z.of_nat j) in *. clearbody U. rewrite <- He in Bc.
    assert (cut la j = cut lb j) as Hm.
    { destruct (Z.lt_ge_cases (cut la j) (cut lb j)) as [Hlt|]; [|lia]. assert (la < cut lb j * U) by nia. lia. }
    destruct Hgap as [|Ht]; [lia|]. destruct (Hx Ht) as [Ha Hex]. specialize (H5 Ha). rewrite Hm in Hex. lia.
Qed.

Lemma output_upper : output j up * (D * 10 ^ Z.of_nat j) <= lc - eps.
Proof.
  pose proof (unit_pos j) as Hp. pose proof (cut_bounds (lc - eps) j) as [Hc _]. etrans; [|exact Hc]. apply Z.mul_le_mono_nonneg_r; [lia|exact output_le_cut].
Qed.

Lemma output_lower : la < output j up * (D * 10 ^ Z.of_nat j) \/ accept = true /\ la = output j up * (D * 10 ^ Z.of_nat j).
Proof.
  pose proof (unit_pos j) as Hp. pose proof Hiv as [H1 H2 H3 H4 _ H5 H6 _ _ _].
  pose proof (cut_bounds la j) as Ba. pose proof (cut_mono la lb j ltac:(lia)) as Mab.
  destruct (Z.lt_ge_cases (cut la j) (output j up)) as [Hlt|Hge].
  { left. assert ((cut la j + 1) * (D * 10 ^ Z.of_nat j) <= output j up * (D * 10 ^ Z.of_nat j)) by (apply Z.mul_le_mono_nonneg_r; lia). lia. }
  right. unfold output in *. destruct (_ || up) eqn:Hn; simpl nz in *; [lia|]. apply orb_false_iff in Hn as [Hn _].
  assert (cut lb j = cut la j) as He by lia. rewrite He, Z.eqb_refl in Hn. simpl in Hn. apply orb_false_iff in Hn as [_ Hn]. apply negb_false_iff in Hn.
  destruct (exact_at_value j Hn) as [Ha Hex]. split; [done|]. rewrite Z.add_0_r, He. done.
Qed.

(** Without a digit removed it is the floor of the value. *)
Lemma output_none : j = 0%nat -> output j up * (D * 10 ^ Z.of_nat j) <= lb.
Proof.
  intros ->. pose proof (cut_bounds lb 0) as Bb. destruct up; [by specialize (Hup eq_refl)|]. unfold output. rewrite orb_false_r.
  pose proof Hiv as [H1 H2 H3 H4 _ H5 H6 _ _ _]. pose proof (cut_bounds la 0) as Ba. simpl (10 ^ Z.of_nat 0) in *. rewrite Z.mul_1_r in *.
  destruct (Z.eqb_spec (cut lb 0) (cut la 0)) as [He|]; simpl; [|lia]. rewrite He in Bb. lia.
Qed.

(** The output is in the interval. *)
Lemma output_inside : inside (output j up * (D * 10 ^ Z.of_nat j)).
Proof.
  split; [exact output_lower|]. pose proof output_upper as Hu. pose proof Hiv as [H1 H2 H3 H4 _ H5 _ H7 _ _]. destruct (bool_dec accept true) as [Ea|Ea%not_true_is_false]; [specialize (H5 Ea); destruct (Z.lt_ge_cases (output j up * (D * 10 ^ Z.of_nat j)) lc); [by left|right; split; [done|lia]]|left].
  destruct (H7 Ea) as [|Hn]; [lia|]. destruct (Z.eq_dec (output j up * (D * 10 ^ Z.of_nat j)) lc) as [He|]; [exfalso|lia].
  destruct (Nat.eq_dec j 0%nat) as [E|E]; [pose proof (output_none E); lia|]. apply Hn. rewrite <- He. replace (10 ^ Z.of_nat j) with (10 * 10 ^ Z.of_nat (pred j)) by (rewrite <- pow_of_S; do 2 f_equal; lia).
  replace (output j up * (D * (10 * 10 ^ Z.of_nat (pred j)))) with (output j up * 10 ^ Z.of_nat (pred j) * (D * 10)) by ring. apply Z_mod_mult.
Qed.

(** No multiple of the next power of ten is. *)
Lemma output_shortest y : ~ inside (y * (D * 10 ^ Z.of_nat (S j))).
Proof.
  intros [Hl Hu]. pose proof (unit_pos (S j)) as Hp. pose proof (cut_bounds la (S j)) as Ba. pose proof (cut_bounds (lc - eps) (S j)) as Bc. destruct Hj as [Hs _ Ht].
  pose proof Hiv as [H1 H2 H3 H4 _ H5 H6 _ H8 _].
  assert (la <> y * (D * 10 ^ Z.of_nat (S j))) as Hne.
  { intros He. destruct Hl as [|[Ha _]]; [lia|]. unfold exact_at in Ht. destruct (H8 Ha) as [Ht'|Hn].
    - rewrite Ht', He, Z_mod_mult in Ht. done.
    - apply Hn. rewrite He, pow_of_S. replace (y * (D * (10 * 10 ^ Z.of_nat j))) with (y * 10 ^ Z.of_nat j * (D * 10)) by ring. apply Z_mod_mult. }
  set (U := D * 10 ^ Z.of_nat (S j)) in *. clearbody U. assert (cut la (S j) < y) by nia.
  assert ((cut (lc - eps) (S j) + 1) * U <= y * U) by (apply Z.mul_le_mono_nonneg_r; lia). destruct Hu as [|[Ha ?]]; [|specialize (H5 Ha)]; lia.
Qed.
(** ** The output is the nearest of its kind *)

Lemma tens_differ x y : 10 * D <= y - x -> cut x 1 < cut y 1.
Proof.
  intros Hxy. pose proof (unit_pos 1) as Hp. change (10 ^ Z.of_nat 1) with 10 in Hp. unfold cut. change (10 ^ Z.of_nat 1) with 10.
  assert (x / (D * 10) + 1 <= y / (D * 10)); [|lia]. apply Z.div_le_lower_bound; [done|]. pose proof (Z.mul_div_le x (D * 10) Hp). lia.
Qed.

(** Where no digit was removed the value is a whole number. *)
Lemma none_removed : j = 0%nat -> lb = cut lb j * (D * 10 ^ Z.of_nat j) /\ cut la j < cut lb j.
Proof.
  intros E. pose proof Hiv as [H1 H2 H3 H4 _ _ _ _ _ H9]. destruct Hj as [Hs _ _]. rewrite E in *. unfold cut in *. change (10 ^ Z.of_nat 0) with 1. rewrite !Z.mul_1_r.
  assert (la / D + 1 <= lb / D) by (apply Z.div_le_lower_bound; [done|]; pose proof (Z.mul_div_le la D H1); lia).
  split; [|lia]. destruct H9 as [H9|H9]; [pose proof (Z.div_mod lb D ltac:(lia)); lia|].
  pose proof (tens_differ la (lc - eps) ltac:(lia)). unfold cut in *. lia.
Qed.

(** A multiple that is inside and not above the value, when the digits of the
    value are those of the lower bound. *)
Lemma inside_exact y : inside (y * (D * 10 ^ Z.of_nat j)) -> y <= cut la j -> cut lb j = cut la j -> accept = true /\ exact_at j = true.
Proof.
  intros [Hl _] Hy He. pose proof (unit_pos j) as Hp. pose proof (cut_bounds la j) as Ba.
  assert (y * (D * 10 ^ Z.of_nat j) <= cut la j * (D * 10 ^ Z.of_nat j)) by (apply Z.mul_le_mono_nonneg_r; lia).
  destruct Hl as [|[Ha Hl]]; [lia|]. split; [done|]. pose proof Hiv as [_ _ _ _ _ _ _ _ H8 _].
  destruct (Nat.eq_dec j 0%nat) as [E|E]; [pose proof (none_removed E); lia|]. unfold exact_at. rewrite Hl, Z_mod_mult, andb_true_r.
  destruct (H8 Ha) as [|Hn]; [done|]. exfalso. apply Hn. rewrite Hl. replace (10 ^ Z.of_nat j) with (10 * 10 ^ Z.of_nat (pred j)) by (rewrite <- pow_of_S; do 2 f_equal; lia).
  replace (y * (D * (10 * 10 ^ Z.of_nat (pred j)))) with (y * 10 ^ Z.of_nat (pred j) * (D * 10)) by ring. apply Z_mod_mult.
Qed.

(** Not more than half a unit is cut off without rounding up. *)
Definition rounded_down : Prop := up = false -> j = 0%nat \/ 2 * lb <= (2 * cut lb j + 1) * (D * 10 ^ Z.of_nat j).

Lemma output_nearest y : rounded_down -> inside (y * (D * 10 ^ Z.of_nat j)) ->
  Z.abs (output j up * (D * 10 ^ Z.of_nat j) - lb) <= Z.abs (y * (D * 10 ^ Z.of_nat j) - lb).
Proof.
  intros Hdown Hy. pose proof (unit_pos j) as Hp. pose proof (cut_bounds lb j) as Bb. pose proof (inside_exact y Hy) as Hx. pose proof none_removed as H0.
  pose proof (half_up_value j) as Hh. unfold rounded_down in Hdown. unfold output. set (U := D * 10 ^ Z.of_nat j) in *. clearbody U.
  destruct (Z.le_gt_cases y (cut lb j)) as [Hle|Hgt].
  - assert (y * U <= cut lb j * U) by (apply Z.mul_le_mono_nonneg_r; lia). destruct up; [rewrite orb_true_r; simpl nz; specialize (Hh (Hup eq_refl)); lia|].
    rewrite orb_false_r. destruct (Z.eqb_spec (cut lb j) (cut la j)) as [E|]; simpl; [|lia].
    destruct (Hx ltac:(lia) E) as [Ha ->]. rewrite Ha. simpl. lia.
  - assert ((cut lb j + 1) * U <= y * U) by (apply Z.mul_le_mono_nonneg_r; lia). destruct (_ || up) eqn:Hn; simpl nz; [lia|].
    apply orb_false_iff in Hn as [_ Hn]. destruct (Hdown Hn) as [E|]; [destruct (H0 E)|]; lia.
Qed.
End output.
End loops.
