(* ===== verification/RyuTrim.v ===== *)
(** The loops of [nurl__shortest_decimal] in [src/stdlib/runtime_core.c] run:
    each one ends, and what they leave is the output of [RyuLoop]. *)

From S2P Require Import Prelude Dtoa Float Pow5Table Atof AtofValue Ryu RyuLoop.

Open Scope word_scope.

Section trim.
Context (la lb lc D eps : Z) (accept tz : bool) (Hiv : interval la lb lc D eps accept tz).
Context (rz : bool) (Hrz : rz = true -> lb mod D = 0).

#[local] Abbreviation cut := (cut D).
#[local] Abbreviation exact_at := (exact_at la D tz).

(** The variables after [j] digits. *)
Record at_digit (j : nat) (t : trimming) : Prop := {
  ad_r : tr t = cut lb j;
  ad_p : tp t = cut (lc - eps) j;
  ad_m : tm t = cut la j;
  ad_tz : tm_tz t = exact_at j;
  ad_rz : tr_tz t = true -> lb mod (D * 10 ^ Z.of_nat (pred j)) = 0;
  ad_last : last t = match j with O => 0 | S i => cut lb i mod 10 end;
  ad_removed : removed t = Z.of_nat j }.

Lemma last_digit x : x - 10 * (x / 10) = x mod 10.
Proof. rewrite Z.mod_eq by lia. done. Qed.

(** The digits of the value below the [j]th are zeros. *)
Lemma value_digits j : lb mod (D * 10 ^ Z.of_nat (pred j)) = 0 -> match j with O => 0 | S i => cut lb i mod 10 end = 0 -> lb mod (D * 10 ^ Z.of_nat j) = 0.
Proof.
  destruct j as [|i]; [done|]. simpl pred. intros H1 H2. pose proof (unit_pos _ _ _ _ _ _ _ Hiv i). rewrite pow_of_S.
  replace (D * (10 * 10 ^ Z.of_nat i)) with (D * 10 ^ Z.of_nat i * 10) by ring. rewrite Z.rem_mul_r by lia. unfold RyuLoop.cut in H2. rewrite H1, H2. lia.
Qed.

Lemma drop_digit_at j t m_tz : at_digit j t -> m_tz = exact_at (S j) -> at_digit (S j) (drop_digit t m_tz).
Proof.
  intros [Hr Hp Hm Ht Hrz' Hl Hn] Hz. unfold drop_digit. split; cbn [tr tp tm tr_tz tm_tz last removed].
  - rewrite (cut_S _ _ _ _ _ _ _ Hiv), Hr. done.
  - rewrite (cut_S _ _ _ _ _ _ _ Hiv), Hp. done.
  - rewrite (cut_S _ _ _ _ _ _ _ Hiv), Hm. done.
  - done.
  - rewrite andb_true_iff, Z.eqb_eq, Hl. intros [H1 H2]. apply (value_digits j); [by apply Hrz'|done].
  - rewrite last_digit, Hr. done.
  - lia.
Qed.

Lemma cut_le_start x j : 0 <= x -> cut x j <= cut x 0.
Proof.
  intros Hx. unfold RyuLoop.cut. pose proof (iv_D _ _ _ _ _ _ _ Hiv) as HD. simpl (10 ^ Z.of_nat 0). rewrite Z.mul_1_r.
  apply Z.div_le_compat_l; [done|]. pose proof (pow10_pos (Z.of_nat j) ltac:(lia)). nia.
Qed.

Lemma cut_nonneg x j : 0 <= x -> 0 <= cut x j.
Proof. intros Hx. apply Z.div_pos; [done|apply (unit_pos _ _ _ _ _ _ _ Hiv)]. Qed.

Lemma small_tenth x (f : nat) : 0 <= x < 10 ^ Z.of_nat (S f) -> 0 <= x / 10 < 10 ^ Z.of_nat f.
Proof. intros Hx. rewrite pow_of_S in Hx. split; [apply Z.div_pos; lia|]. apply Z.div_lt_upper_bound; lia. Qed.

(** * The loop to where the next digit cannot go *)

Lemma gap_start : cut la 0 < cut (lc - eps) 0.
Proof.
  pose proof Hiv as [H1 H2 H3 H4 H9 _ _ _ _ _]. unfold RyuLoop.cut. simpl (10 ^ Z.of_nat 0). rewrite Z.mul_1_r.
  assert (la / D + 1 <= (lc - eps) / D); [|lia]. apply Z.div_le_lower_bound; [done|]. pose proof (Z.div_mod la D ltac:(lia)). pose proof (Z.mod_pos_bound la D ltac:(lia)). lia.
Qed.

(** The state at the end of the first loop. *)
Record stopped (j : nat) (t : trimming) : Prop := {
  st_at : at_digit j t;
  st_stop : cut (lc - eps) (S j) <= cut la (S j);
  st_gap : cut la j < cut (lc - eps) j }.

Lemma trim_exact_stops f j t : at_digit j t -> tp t < 10 ^ Z.of_nat (S f) -> cut la j < cut (lc - eps) j ->
  exists k t', trim_exact (S f) t = Some t' /\ stopped k t'.
Proof.
  revert j t. induction f as [|f IH]; intros j t Ha Hf Hg; pose proof Ha as [Hr Hp Hm Ht Hrz' Hl Hn];
    assert (0 <= tp t) by (rewrite Hp; pose proof Hiv as []; apply cut_nonneg; lia); cbn [trim_exact].
  - pose proof (small_tenth (tp t) 0 ltac:(lia)) as Hs. simpl (10 ^ Z.of_nat 0) in Hs. assert (0 <= tm t / 10).
    { apply Z.div_pos; [|lia]. rewrite Hm. pose proof Hiv as []. apply cut_nonneg; lia. }
    rewrite (proj2 (Z.leb_le _ _)) by lia. exists j, t. split; [done|]. split; [done| |done]. rewrite !(cut_S _ _ _ _ _ _ _ Hiv), <- Hp, <- Hm. lia.
  - destruct (Z.leb_spec (tp t / 10) (tm t / 10)) as [Hs|Hs].
    + exists j, t. split; [done|]. split; [done| |done]. rewrite !(cut_S _ _ _ _ _ _ _ Hiv), <- Hp, <- Hm. done.
    + apply (IH (S j)).
      * apply drop_digit_at; [done|]. rewrite (exact_at_S _ _ _ _ _ _ _ Hiv), Ht, last_digit, Hm. done.
      * cbn [drop_digit tp]. apply small_tenth. lia.
      * rewrite !(cut_S _ _ _ _ _ _ _ Hiv), <- Hp, <- Hm. done.
Qed.

(** * The loop over the zeros of the lower bound *)

Lemma trim_zeros_step f t :
  trim_zeros (S f) t = if negb (tm t - 10 * (tm t / 10) =? 0) then Some t else trim_zeros f (drop_digit t (tm_tz t)).
Proof. done. Qed.

Lemma exact_pos j : exact_at j = true -> 1 <= cut la j.
Proof.
  intros He. destruct (exact_at_value _ _ _ _ _ _ _ Hiv j He) as [_ Hv]. pose proof (iv_la _ _ _ _ _ _ _ Hiv) as Hl. pose proof (unit_pos _ _ _ _ _ _ _ Hiv j). nia.
Qed.

Lemma trim_zeros_stops f j t : at_digit j t -> tm t < 10 ^ Z.of_nat (S f) -> tm_tz t = true -> cut (lc - eps) (S j) <= cut la (S j) ->
  exists k t', trim_zeros (S f) t = Some t' /\ at_digit k t' /\ ended la lc D eps tz k.
Proof.
  revert j t. induction f as [|f IH]; intros j t Ha Hf Hz Hs; pose proof Ha as [Hr Hp Hm Ht Hrz' Hl Hn];
    pose proof (exact_pos j ltac:(congruence)) as H1; rewrite <- Hm in H1; rewrite trim_zeros_step, last_digit.
  - change (10 ^ Z.of_nat 1) with 10 in Hf. rewrite Z.mod_small by lia. rewrite (proj2 (Z.eqb_neq _ _)) by lia. exists j, t.
    do 2 (split; [done|]). split; [done|right; congruence|]. rewrite (exact_at_S _ _ _ _ _ _ _ Hiv), <- Hm, Z.mod_small, (proj2 (Z.eqb_neq _ _)) by lia. apply andb_false_r.
  - destruct (Z.eqb_spec (tm t mod 10) 0) as [E|E]; simpl negb.
    + assert (exact_at (S j) = true) as He by (rewrite (exact_at_S _ _ _ _ _ _ _ Hiv), <- Ht, Hz, <- Hm, E; done). apply (IH (S j)).
      * apply drop_digit_at; [done|congruence].
      * cbn [drop_digit tm]. apply small_tenth. lia.
      * done.
      * rewrite !(cut_S _ _ _ _ _ _ _ Hiv _ (S j)). apply Z.div_le_mono; [lia|done].
    + exists j, t. do 2 (split; [done|]). split; [done|right; congruence|]. rewrite (exact_at_S _ _ _ _ _ _ _ Hiv), <- Hm, (proj2 (Z.eqb_neq _ _)) by done. apply andb_false_r.
Qed.

(** * The two branches *)

Lemma ended_of_stopped j t : stopped j t -> tm_tz t = false -> ended la lc D eps tz j.
Proof.
  intros [Ha Hs Hg] Hz. split; [done|by left|]. rewrite (exact_at_S _ _ _ _ _ _ _ Hiv), <- (ad_tz _ _ Ha), Hz. done.
Qed.

(** The scaled numbers are the digits before any is removed. *)
Definition starts (s : scaled) : Prop :=
  vr s = cut lb 0 /\ vp s = cut (lc - eps) 0 /\ vm s = cut la 0 /\ vm_tz s = tz /\ vr_tz s = rz /\ vp s < 2 ^ 64.

(** The result of either branch. *)
Definition finished (s : scaled) (o : option (Z * Z)) : Prop :=
  exists j up, o = Some (output la lb D accept tz j up, e10 s + Z.of_nat j) /\ ended la lc D eps tz j /\ (up = true -> half_up lb D j = true) /\ rounded_down lb D j up.

Lemma output_word j up : ended la lc D eps tz j -> (up = true -> half_up lb D j = true) -> cut (lc - eps) 0 < 2 ^ 64 ->
  cut lb j +w nz (((cut lb j =? cut la j) && (negb accept || negb (exact_at j))) || up) = output la lb D accept tz j up.
Proof.
  intros Hj Hup Hw. pose proof (output_le_cut _ _ _ _ _ _ _ Hiv j Hj up Hup) as Ho. unfold output in *. apply wrap_small. split.
  - apply Z.add_nonneg_nonneg; [|destruct (_ || up); done]. apply cut_nonneg. pose proof Hiv as []. lia.
  - eapply Z.le_lt_trans; [exact Ho|]. eapply Z.le_lt_trans; [|exact Hw]. apply cut_le_start. pose proof Hiv as []. lia.
Qed.

(** The last digit removed, when it does not round up. *)
Lemma low_digit k : (5 <=? cut lb k mod 10) = false -> 2 * lb <= (2 * cut lb (S k) + 1) * (D * 10 ^ Z.of_nat (S k)).
Proof.
  rewrite Z.leb_gt. intros H. pose proof (cut_bounds _ _ _ _ _ _ _ Hiv lb k) as Hb. pose proof (Z.div_mod (cut lb k) 10 ltac:(lia)) as Hd. rewrite (cut_S _ _ _ _ _ _ _ Hiv).
  rewrite pow_of_S. replace (D * (10 * 10 ^ Z.of_nat k)) with (10 * (D * 10 ^ Z.of_nat k)) by ring. pose proof (unit_pos _ _ _ _ _ _ _ Hiv k). set (U := D * 10 ^ Z.of_nat k) in *. clearbody U. nia.
Qed.

Lemma tie_digit k : cut lb k mod 10 = 5 -> lb mod (D * 10 ^ Z.of_nat k) = 0 -> 2 * lb <= (2 * cut lb (S k) + 1) * (D * 10 ^ Z.of_nat (S k)).
Proof.
  intros H Hz. pose proof (unit_pos _ _ _ _ _ _ _ Hiv k). pose proof (Z.div_mod lb (D * 10 ^ Z.of_nat k) ltac:(lia)) as Hb. fold (cut lb k) in Hb.
  pose proof (Z.div_mod (cut lb k) 10 ltac:(lia)) as Hd. rewrite (cut_S _ _ _ _ _ _ _ Hiv).
  rewrite pow_of_S. replace (D * (10 * 10 ^ Z.of_nat k)) with (10 * (D * 10 ^ Z.of_nat k)) by ring. set (U := D * 10 ^ Z.of_nat k) in *. clearbody U. nia.
Qed.

Lemma down_of_half j up : up = half_up lb D j -> rounded_down lb D j up.
Proof. intros -> Hu. destruct j as [|i]; [by left|right]. by apply low_digit. Qed.

Lemma finish_exact_runs s : starts s -> finished s (finish_exact accept s).
Proof.
  intros (Hr & Hp & Hm & Ht & Hz & Hw). unfold finish_exact. set (t0 := Trimming _ _ _ _ _ _ _).
  assert (exact_at 0 = tz) as H0.
  { unfold RyuLoop.exact_at. destruct tz; [|done]. simpl (10 ^ Z.of_nat 0). rewrite Z.mul_1_r. destruct (iv_tz _ _ _ _ _ _ _ Hiv eq_refl) as [_ ->]. done. }
  assert (at_digit 0 t0) as A0 by (split; unfold t0; cbn [tr tp tm tr_tz tm_tz last removed]; first [done|congruence|intros E; change (10 ^ Z.of_nat (pred 0)) with 1; rewrite Z.mul_1_r; apply Hrz; congruence]).
  destruct (trim_exact_stops 19 0 t0 A0) as (j & t & Ht1 & Hst); [eapply Z.lt_trans; [exact Hw|done]|apply gap_start|].
  rewrite Ht1. cbn [mbind option_bind].
  assert (exists k t', (if tm_tz t then trim_zeros 20 t else Some t) = Some t' /\ at_digit k t' /\ ended la lc D eps tz k) as (k & t' & He & Hk & Hend).
  { pose proof (st_at _ _ Hst) as Ha. destruct (tm_tz t) eqn:Hz'.
    - apply (trim_zeros_stops 19 j); [done| |done|apply Hst]. rewrite (ad_m _ _ Ha). eapply Z.lt_trans; [apply (st_gap _ _ Hst)|].
      change (10 ^ Z.of_nat 20) with (10 ^ 20). eapply Z.le_lt_trans; [apply cut_le_start; pose proof Hiv as []; lia|]. rewrite <- Hp. lia.
    - exists j, t. split; [done|]. split; [done|]. by apply (ended_of_stopped j t). }
  rewrite He. cbn [mbind option_bind]. destruct Hk as [Kr Kp Km Kt Kz Kl Kn]. rewrite Kr, Km, Kt, Kn, Kl.
  match goal with |- context [5 <=? ?l] => set (up := 5 <=? l) end.
  assert (up = true -> half_up lb D k = true) as Hup.
  { unfold up. destruct k as [|k]; [destruct (_ && _); done|]. unfold half_up. destruct (tr_tz t' && _ && _); [done|auto]. }
  assert (rounded_down lb D k up) as Hdown.
  { intros Hu. unfold up in Hu. destruct k as [|k]; [by left|right]. destruct (tr_tz t' && _ && _) eqn:E; [|by apply low_digit].
    rewrite !andb_true_iff, Z.eqb_eq in E. destruct E as [[E1 E2] _]. by apply tie_digit, Kz. }
  exists k, up. split; [|done]. rewrite output_word; [done..|]. rewrite <- Hp. lia.
Qed.

(** ** The branch of the plain loop *)

Lemma half_up_digit j : (5 <=? cut lb j - 10 * cut lb (S j)) = half_up lb D (S j).
Proof. rewrite (cut_S _ _ _ _ _ _ _ Hiv), last_digit. done. Qed.

Lemma trim_plain_step f r p m up n :
  trim_plain (S f) r p m up n = if p / 10 <=? m / 10 then Some (r, m, up, n) else trim_plain f (r / 10) (p / 10) (m / 10) (5 <=? r - 10 * (r / 10)) (n + 1).
Proof. done. Qed.

Lemma trim_plain_stops f j up : tz = false -> up = half_up lb D j -> cut (lc - eps) j < 10 ^ Z.of_nat (S f) -> cut la j < cut (lc - eps) j ->
  exists k up', trim_plain (S f) (cut lb j) (cut (lc - eps) j) (cut la j) up (Z.of_nat j) = Some (cut lb k, cut la k, up', Z.of_nat k) /\
    ended la lc D eps tz k /\ up' = half_up lb D k.
Proof.
  intros Htz. revert j up. induction f as [|f IH]; intros j up Hup Hf Hg; rewrite trim_plain_step, <- !(cut_S _ _ _ _ _ _ _ Hiv).
  - assert (0 <= cut (lc - eps) j) by (apply cut_nonneg; pose proof Hiv as []; lia). assert (0 <= cut la (S j)) by (apply cut_nonneg; pose proof Hiv as []; lia).
    assert (cut (lc - eps) (S j) = 0) as E by (rewrite (cut_S _ _ _ _ _ _ _ Hiv); change (10 ^ Z.of_nat 1) with 10 in Hf; apply Z.div_small; lia).
    rewrite (proj2 (Z.leb_le _ _)) by lia. exists j, up. split; [done|]. split; [|done]. split; [lia|by left|]. unfold RyuLoop.exact_at. by rewrite Htz.
  - destruct (Z.leb_spec (cut (lc - eps) (S j)) (cut la (S j))) as [Hs|Hs].
    + exists j, up. split; [done|]. split; [|done]. split; [done|by left|]. unfold RyuLoop.exact_at. by rewrite Htz.
    + rewrite half_up_digit. replace (Z.of_nat j + 1) with (Z.of_nat (S j)) by lia. apply IH; [done| |done].
      rewrite (cut_S _ _ _ _ _ _ _ Hiv). apply small_tenth. split; [apply cut_nonneg; pose proof Hiv as []; lia|done].
Qed.

Lemma cut_two x : cut x 0 / 100 = cut x 2.
Proof. rewrite !(cut_S _ _ _ _ _ _ _ Hiv), Z.div_div by lia. done. Qed.

Lemma fifty x : (50 <=? x - 100 * (x / 100)) = (5 <=? (x / 10) mod 10).
Proof.
  replace (x / 100) with (x / 10 / 10) by (rewrite Z.div_div by lia; done). pose proof (Z.div_mod x 10 ltac:(lia)). pose proof (Z.mod_pos_bound x 10 ltac:(lia)).
  pose proof (Z.div_mod (x / 10) 10 ltac:(lia)). destruct (Z.leb_spec 50 (x - 100 * (x / 10 / 10))), (Z.leb_spec 5 ((x / 10) mod 10)); [done|lia|lia|done].
Qed.

Lemma finish_plain_runs s : starts s -> tz = false -> finished s (finish_plain s).
Proof.
  intros (Hr & Hp & Hm & Ht & _ & Hw) Htz. unfold finish_plain. rewrite Hr, Hp, Hm in *. rewrite !cut_two.
  assert (forall j up, (j <= 2)%nat -> up = half_up lb D j -> cut la j < cut (lc - eps) j ->
    finished s ('(r, m, up, n) ← trim_plain 20 (cut lb j) (cut (lc - eps) j) (cut la j) up (Z.of_nat j); Some (r +w nz ((r =? m) || up), e10 s + n))) as Hgo.
  { intros j up _ Hup Hg. destruct (trim_plain_stops 19 j up Htz Hup) as (k & up' & -> & Hend & Hup'); [|done|].
    - change (10 ^ Z.of_nat 20) with (10 ^ 20). eapply Z.le_lt_trans; [apply cut_le_start; pose proof Hiv as []; lia|]. lia.
    - cbn [mbind option_bind]. exists k, up'. assert (up' = true -> half_up lb D k = true) as Hh by (by rewrite Hup'). split; [|by auto using down_of_half]. rewrite <- (output_word k up' Hend Hh Hw). unfold RyuLoop.exact_at. rewrite Htz. simpl. by rewrite orb_true_r, andb_true_r. }
  destruct (Z.ltb_spec (cut la 2) (cut (lc - eps) 2)) as [Hg|_].
  - apply (Hgo 2%nat); [lia| |done]. rewrite <- (cut_two lb), fifty. rewrite <- (cut_S _ _ _ _ _ _ _ Hiv). done.
  - apply (Hgo 0%nat false); [lia|done|apply gap_start].
Qed.

End trim.
