(* ===== verification/RyuScale.v ===== *)
(** The fields of a double as [nurl__shortest_decimal] of
    [src/stdlib/runtime_core.c] takes them apart, and the halfway points to its
    neighbours in their terms. *)

From S2P Require Import Prelude Dtoa Float Pow5Table Atof AtofValue Ryu RyuFloor RyuLoop RyuTrim.

Open Scope word_scope.

(** * The fields of a double *)

(** [m2], [e2] and [mm_shift] of the pattern [b]. *)
Record fields (b m2 e2 mm : Z) : Prop := {
  fd_m2 : 0 < m2 < 2 ^ 53;
  fd_e2 : -1076 <= e2 < 970;
  fd_mm : mm = 1 \/ mm = 0 /\ m2 = 2 ^ 52;
  fd_odd : Z.odd m2 = Z.odd b;
  fd_sval : sval b = m2 * 2 ^ (e2 + 1076);
  fd_lower : 2 * mid (b - 1) = (4 * m2 - 1 - mm) * 2 ^ (e2 + 1076);
  fd_upper : 2 * mid b = (4 * m2 + 2) * 2 ^ (e2 + 1076) }.

(** The neighbours of [s * 2 ^ 52 + M], in units of the smallest double. *)
Lemma mid_above s M : 0 <= s -> (s = 0 /\ 0 <= M \/ 2 ^ 52 <= M) -> M < 2 ^ 53 -> 2 * mid (s * 2 ^ 52 + M) = (4 * M + 2) * 2 ^ s.
Proof. intros Hs Hm Hl. unfold mid. rewrite <- Z.add_assoc, !sval_at by lia. ring. Qed.

Lemma mid_below s M : 0 <= s -> (s = 0 /\ 0 < M \/ 2 ^ 52 < M) -> M < 2 ^ 53 -> 2 * mid (s * 2 ^ 52 + M - 1) = (4 * M - 2) * 2 ^ s.
Proof.
  intros Hs Hm Hl. unfold mid. replace (s * 2 ^ 52 + M - 1 + 1) with (s * 2 ^ 52 + M) by ring. rewrite <- Z.add_sub_assoc, !sval_at by lia. ring.
Qed.

Lemma mid_below_power s : 0 < s -> 2 * mid (s * 2 ^ 52 + 2 ^ 52 - 1) = (4 * 2 ^ 52 - 1) * 2 ^ s.
Proof.
  intros Hs. unfold mid. replace (s * 2 ^ 52 + 2 ^ 52 - 1 + 1) with (s * 2 ^ 52 + 2 ^ 52) by ring. rewrite (sval_at s (2 ^ 52)) by lia.
  replace (s * 2 ^ 52 + 2 ^ 52 - 1) with ((s - 1) * 2 ^ 52 + (2 ^ 53 - 1)) by ring. rewrite sval_at by lia.
  replace (2 ^ s) with (2 * 2 ^ (s - 1)) by (rewrite <- Z.pow_succ_r by lia; f_equal; lia). ring.
Qed.

Lemma odd_block s M : Z.odd (s * 2 ^ 52 + M) = Z.odd M.
Proof. rewrite Z.odd_add, Z.odd_mul. change (Z.odd (2 ^ 52)) with false. by rewrite andb_false_r, xorb_false_l. Qed.

Lemma fields_spec b : 0 < b < INF ->
  let '(m2, e2) := ryu_fields (b mod 2 ^ 52) (b / 2 ^ 52) in
  fields b m2 e2 (nz (negb (b mod 2 ^ 52 =? 0) || (b / 2 ^ 52 <=? 1))).
Proof.
  intros Hb. pose proof (Z.mod_pos_bound b (2 ^ 52) ltac:(lia)) as Hm. pose proof (Z.div_mod b (2 ^ 52) ltac:(lia)) as Hdm. pose proof (Z.div_pos b (2 ^ 52) ltac:(lia) ltac:(lia)) as Hp.
  assert (b / 2 ^ 52 < 2047) as Hbe by (apply Z.div_lt_upper_bound; unfold INF in *; lia).
  unfold ryu_fields. set (m := b mod 2 ^ 52) in *. set (be := b / 2 ^ 52) in *. clearbody m be. subst b.
  destruct (Z.eqb_spec be 0) as [->|E0].
  - rewrite orb_true_r. simpl nz. assert (2 ^ 52 * 0 + m = 0 * 2 ^ 52 + m) as E by ring. split; [lia|lia|by left|by rewrite E, odd_block|rewrite E, sval_at by lia; f_equal; lia| |].
    + rewrite E, mid_below by lia. f_equal. lia.
    + rewrite E, mid_above by lia. done.
  - pose proof (lor_low 1 m 52 ltac:(lia) ltac:(lia)) as Elor. rewrite Z.mul_1_l in Elor. rewrite Elor. assert (be - 1023 - 52 - 2 + 1076 = be - 1) as Ee by lia. replace (2 ^ 52 * be + m) with ((be - 1) * 2 ^ 52 + (2 ^ 52 + m)) by ring.
    destruct (Z.eqb_spec m 0) as [->|Em]; simpl orb; [destruct (Z.leb_spec be 1)|]; simpl nz;
      (split; [lia|lia|(left; lia) || (right; lia)|by rewrite odd_block|by rewrite Ee, sval_at by lia| |by rewrite Ee, mid_above by lia]).
    + rewrite Ee, mid_below by lia. f_equal; lia.
    + rewrite Ee, Z.add_0_r, mid_below_power by lia. f_equal; lia.
    + rewrite Ee, mid_below by lia. f_equal; lia.
Qed.
