(* ===== verification/RyuSides.v ===== *)
(** The scaled interval of [nurl__shortest_decimal] in
    [src/stdlib/runtime_core.c]: the numbers and the flags its two branches
    compute are those of the halfway points. *)

From S2P Require Import Prelude Dtoa Float Pow5Table Atof AtofValue Ryu RyuFloor RyuLoop RyuTrim RyuScale.

Open Scope word_scope.

(** * Divisibility *)

Lemma multiple_of_pow5_spec left v : 0 < v -> multiple_of_pow5 left v = (v mod 5 ^ Z.of_nat left =? 0).
Proof.
  revert v. induction left as [|l IH]; intros v Hv; cbn [multiple_of_pow5].
  - change (5 ^ Z.of_nat 0) with 1. rewrite Z.mod_1_r. by destruct (v mod 5 =? 0).
  - rewrite Nat2Z.inj_succ, Z.pow_succ_r, Z.rem_mul_r by lia. destruct (Z.eqb_spec (v mod 5) 0) as [E|E].
    + rewrite E. destruct l as [|l]; [change (5 ^ Z.of_nat 0) with 1; by rewrite Z.mod_1_r|]. rewrite IH by (zdiv). 
      destruct (Z.eqb_spec ((v / 5) mod 5 ^ Z.of_nat (S l)) 0), (Z.eqb_spec (0 + 5 * ((v / 5) mod 5 ^ Z.of_nat (S l))) 0); lia || done.
    + simpl. symmetry. apply Z.eqb_neq. pose proof (Z.mod_pos_bound v 5 ltac:(lia)). pose proof (Z.mod_pos_bound (v / 5) (5 ^ Z.of_nat l) ltac:(apply Z.pow_pos_nonneg; lia)). lia.
Qed.

Lemma multiple_of_pow5_eq v p : 0 < v -> 0 <= p -> nurl__multiple_of_pow5 v p = (v mod 5 ^ p =? 0).
Proof. intros Hv Hp. unfold nurl__multiple_of_pow5. rewrite multiple_of_pow5_spec, Z2Nat.id by done. done. Qed.

Lemma multiple_of_pow2_eq v p : 0 <= p < 64 -> nurl__multiple_of_pow2 v p = (v mod 2 ^ p =? 0).
Proof.
  intros Hp. unfold nurl__multiple_of_pow2. rewrite Z.shiftl_1_l. assert (2 ^ p < 2 ^ 64) by (apply Z.pow_lt_mono_r; lia). assert (0 < 2 ^ p) by (apply Z.pow_pos_nonneg; lia).
  rewrite wrap64_small by lia. rewrite <- Z.land_ones by lia. unfold Z.ones. rewrite Z.shiftl_1_l. done.
Qed.

(** Powers of two count for nothing where powers of five are asked for. *)
Lemma fives_of m p q : 0 <= p -> 0 <= q -> (m * 2 ^ p) mod 5 ^ q = 0 -> m mod 5 ^ q = 0.
Proof.
  intros Hp Hq. assert (0 < 5 ^ q) as HN by (apply Z.pow_pos_nonneg; lia). rewrite !Z.mod_divide by lia.
  assert (Z.odd (5 ^ q) = true) as Ho by (destruct (Z.eq_dec q 0) as [->|]; [done|]; by rewrite Z.odd_pow by lia). apply Z.odd_spec in Ho as [k Hk].
  pattern p. apply natlike_ind; [by rewrite Z.mul_1_r|clear p Hp|done]. intros p Hp IH [c Hc]. apply IH. exists (m * 2 ^ p - k * c).
  rewrite Z.pow_succ_r in Hc by done. replace ((m * 2 ^ p - k * c) * 5 ^ q) with (m * 2 ^ p * 5 ^ q - k * (c * 5 ^ q)) by ring. rewrite <- Hc, Hk. ring.
Qed.

Lemma fives_of_ten m p q : 0 <= p -> 0 <= q -> (m * 2 ^ p) mod (5 ^ q * 10) = 0 -> m mod 5 ^ (q + 1) = 0.
Proof.
  intros Hp Hq H. assert (0 < 5 ^ (q + 1)) by (apply Z.pow_pos_nonneg; lia). apply (fives_of m p); [lia|lia|].
  replace (5 ^ q * 10) with (5 ^ (q + 1) * 2) in H by (rewrite Z.pow_add_r by lia; ring). rewrite Z.rem_mul_r in H by lia.
  pose proof (Z.mod_pos_bound (m * 2 ^ p) (5 ^ (q + 1)) ltac:(lia)). pose proof (Z.mod_pos_bound (m * 2 ^ p / 5 ^ (q + 1)) 2 ltac:(lia)). nia.
Qed.

Lemma fives_less m a b : 0 <= a <= b -> m mod 5 ^ b = 0 -> m mod 5 ^ a = 0.
Proof.
  intros Hab H. assert (0 < 5 ^ a) by (apply Z.pow_pos_nonneg; lia). assert (0 < 5 ^ (b - a)) by (apply Z.pow_pos_nonneg; lia). apply Z.mod_divide in H; [|apply Z.pow_nonzero; lia]. destruct H as [c ->].
  replace b with (b - a + a) by lia. rewrite Z.pow_add_r, Z.mul_assoc by lia. apply Z_mod_mult.
Qed.

Lemma fives_mul m P q : m mod 5 ^ q = 0 -> 0 <= q -> (m * P) mod 5 ^ q = 0.
Proof. intros H Hq. assert (0 < 5 ^ q) by (apply Z.pow_pos_nonneg; lia). rewrite <- Z.mul_mod_idemp_l, H by lia. done. Qed.

(** The bounds of a multiple of five are none. *)
Lemma five_apart m2 k : (4 * m2) mod 5 = 0 -> k = 2 \/ k = -1 \/ k = -2 -> (4 * m2 + k) mod 5 ^ 1 <> 0.
Proof. change (5 ^ 1) with 5. intros H Hk. zdiv. Qed.

(** No double's halfway point is a multiple of 5^23 here. *)
Lemma no_pow23_upper m2 : 0 < m2 < 2 ^ 53 -> Z.odd m2 = true -> (4 * m2 + 2) mod 5 ^ 23 <> 0.
Proof. intros Hm Ho H. apply Z.odd_spec in Ho as [k ->]. apply Z.mod_divide in H; [|done]. destruct H as [c Hc]. lia. Qed.

Lemma no_pow23_lower m2 mm : 0 < m2 < 2 ^ 53 -> (mm = 1 \/ mm = 0 /\ m2 = 2 ^ 52) -> Z.odd m2 = false -> (4 * m2 - 1 - mm) mod 5 ^ 23 <> 0.
Proof.
  intros Hm Hmm Ho H. assert (Z.even m2 = true) as He by (rewrite <- Z.negb_odd, Ho; done). apply Z.even_spec in He as [k ->].
  apply Z.mod_divide in H; [|done]. destruct H as [c Hc]. destruct Hmm as [->|[-> ?]]; lia.
Qed.

(** A product of odd numbers is not a multiple of two. *)
Lemma odd_not_even x i t : 0 <= i -> Z.odd x = true -> x * 5 ^ i <> 2 * t.
Proof.
  intros Hi Hx E. apply (f_equal Z.odd) in E. rewrite !Z.odd_mul, Hx in E. simpl in E. destruct (Z.eq_dec i 0) as [->|]; [done|]. by rewrite Z.odd_pow in E by lia.
Qed.

Lemma even_mod y P q : 0 <= q <= 1 -> (2 * y * P) mod 2 ^ q = 0.
Proof.
  intros Hq. assert (q = 0 \/ q = 1) as [-> | ->] by lia; [apply Z.mod_1_r|]. change (2 ^ 1) with 2. replace (2 * y * P) with (y * P * 2) by ring. apply Z_mod_mult.
Qed.

Lemma upper_not_whole q i m2 : 2 <= q -> 0 <= i -> ((4 * m2 + 2) * 5 ^ i) mod (2 ^ q * 10) <> 0.
Proof.
  intros Hq Hi Hz. assert (0 < 2 ^ (q - 2)) by (apply Z.pow_pos_nonneg; lia). replace (2 ^ q) with (4 * 2 ^ (q - 2)) in Hz by (change 4 with (2 ^ 2); rewrite <- Z.pow_add_r by lia; f_equal; lia).
  apply Z.mod_divide in Hz; [|lia]. destruct Hz as [c Hc]. apply (odd_not_even (2 * m2 + 1) i (c * 2 ^ (q - 2) * 10)); [done|by rewrite Z.odd_add, Z.odd_mul|lia].
Qed.

(** The lower bound, where it is not twice an odd number or [q] is more than 1. *)
Lemma lower_not_whole q i m2 mm : 0 <= q -> 0 <= i -> mm = 0 \/ mm = 1 /\ 2 <= q -> ((4 * m2 - 1 - mm) * 5 ^ i) mod (2 ^ q * 10) <> 0.
Proof.
  intros Hq Hi [->|[-> H2]].
  - intros Hz. assert (0 < 2 ^ q) by (apply Z.pow_pos_nonneg; lia). apply Z.mod_divide in Hz; [|lia]. destruct Hz as [c Hc].
    apply (odd_not_even (4 * m2 - 1) i (c * 2 ^ q * 5)); [done|by rewrite Z.odd_sub, Z.odd_mul|lia].
  - replace (4 * m2 - 1 - 1) with (4 * (m2 - 1) + 2) by ring. by apply upper_not_whole.
Qed.

(** * The two branches *)

(** The scaled numbers stand for the interval of [b]: the lower bound, the
    value and the upper bound times [kn / kd] are those of the double. *)
Record scaled_for (b : Z) (accept : bool) (s : scaled) (la lb lc D eps kn kd : Z) : Prop := {
  sf_iv : interval la lb lc D eps accept (vm_tz s);
  sf_starts : starts la lb lc D eps (vm_tz s) (vr_tz s) s;
  sf_rz : vr_tz s = true -> lb mod D = 0;
  sf_kn : 0 < kn;
  sf_kd : 0 < kd;
  sf_lower : 2 * mid (b - 1) * kd = la * kn * 2 ^ 1076;
  sf_value : 4 * sval b * kd = lb * kn * 2 ^ 1076;
  sf_upper : 2 * mid b * kd = lc * kn * 2 ^ 1076;
  sf_scale : forall j : nat, 10 ^ Z.max (e10 s + Z.of_nat j) 0 * kd = 10 ^ Z.of_nat j * D * kn * 10 ^ Z.max (- (e10 s + Z.of_nat j)) 0 }.

Section sides.
Context (b m2 e2 mm : Z) (Hf : fields b m2 e2 mm).

Lemma lower_pos : 0 < 4 * m2 - 1 - mm.
Proof. destruct Hf as [? _ ? _ _ _ _]. lia. Qed.

Lemma words_small : wrap64 (4 * m2) = 4 * m2 /\ 4 * m2 +w 2 = 4 * m2 + 2 /\ 4 * m2 - 1 -w mm = 4 * m2 - 1 - mm.
Proof. destruct Hf as [? _ ? _ _ _ _]. split_and!; apply wrap_small; lia. Qed.

(** What is left to check of the interval. *)
Lemma interval_of P D eps accept tz :
  0 < D -> D <= P -> D = 1 \/ 10 * D <= P -> 0 <= eps <= 1 -> (eps = 1 -> ((4 * m2 + 2) * P) mod D = 0) -> (accept = true -> eps = 0) ->
  (tz = true -> accept = true /\ ((4 * m2 - 1 - mm) * P) mod D = 0) ->
  (accept = false -> eps = 1 \/ ((4 * m2 + 2) * P) mod (D * 10) <> 0) ->
  (accept = true -> tz = true \/ ((4 * m2 - 1 - mm) * P) mod (D * 10) <> 0) ->
  interval ((4 * m2 - 1 - mm) * P) (4 * m2 * P) ((4 * m2 + 2) * P) D eps accept tz.
Proof.
  intros HD HP Hroom He H1 H2 H3 H4 H5. pose proof lower_pos as Hl. destruct Hf as [_ _ Hmm _ _ _ _]. split; try done.
  - apply Z.mul_pos_pos; lia.
  - destruct Hmm as [->|[-> _]]; lia.
  - destruct Hroom as [->|Hr]; [left; apply Z.mod_1_r|right]. destruct Hmm as [->|[-> _]]; lia.
Qed.

(** The upper bound as the code leaves it. *)
Lemma upper_left x D eps : 0 < D -> 0 < x -> D <= x -> x / D < 2 ^ 64 -> (eps = 0 \/ eps = 1 /\ x mod D = 0) ->
  (x - eps) / D = (if eps =? 1 then x / D -w 1 else x / D).
Proof.
  intros HD Hx HDx Hw [->|[-> Hz]]; simpl; [by rewrite Z.sub_0_r|]. pose proof (Z.div_mod x D ltac:(lia)) as Hd. rewrite Hz in Hd.
  assert (1 <= x / D) by (apply Z.div_le_lower_bound; lia). rewrite wrap64_small by lia. symmetry. apply (Z.div_unique_pos _ _ _ (D - 1)); lia.
Qed.

Lemma cut_zero D x : cut D x 0 = x / D.
Proof. unfold cut. change (10 ^ Z.of_nat 0) with 1. by rewrite Z.mul_1_r. Qed.

Lemma mul_shift_word m T j : nurl__mul_shift m T j < 2 ^ 64.
Proof. apply wrap_bound. lia. Qed.

Lemma upper_word (c : bool) x : x < 2 ^ 64 -> (if c then x -w 1 else x) < 2 ^ 64.
Proof. intros Hx. destruct c; [apply wrap_bound; lia|done]. Qed.

Section up.
Context (He : 0 <= e2) (q : Z) (Hq : 0 <= q <= e2) (Hpow : 10 ^ q <= 2 ^ e2) (Hroom : q = 0 \/ 10 * 5 ^ q <= 2 ^ (e2 - q)).

#[local] Abbreviation P := (2 ^ (e2 - q)).
#[local] Abbreviation D := (5 ^ q).
#[local] Abbreviation accept := (negb (Z.odd m2)).

Lemma up_le : 0 < D /\ D <= P.
Proof.
  assert (0 < D) by (apply Z.pow_pos_nonneg; lia). split; [done|]. assert (0 < 2 ^ q) by (apply Z.pow_pos_nonneg; lia).
  apply (Z.mul_le_mono_pos_r _ _ (2 ^ q)); [done|]. rewrite <- Z.pow_mul_l, <- Z.pow_add_r by lia. replace (e2 - q + q) with e2 by lia. done.
Qed.

(** The flags found describe the bounds. *)
Lemma up_for eps tz rz :
  eps = 0 \/ eps = 1 /\ accept = false /\ (4 * m2 + 2) mod D = 0 ->
  (tz = true -> accept = true /\ (4 * m2 - 1 - mm) mod D = 0) -> (rz = true -> (4 * m2) mod D = 0) ->
  (accept = false -> eps = 1 \/ (4 * m2 + 2) mod 5 ^ (q + 1) <> 0) ->
  (accept = true -> tz = true \/ (4 * m2 - 1 - mm) mod 5 ^ (q + 1) <> 0) ->
  (4 * m2 + 2) * P / D < 2 ^ 64 ->
  exists la lb lc D' eps' kn kd, scaled_for b accept
    (Scaled (4 * m2 * P / D) (if eps =? 1 then (4 * m2 + 2) * P / D -w 1 else (4 * m2 + 2) * P / D) ((4 * m2 - 1 - mm) * P / D) q tz rz) la lb lc D' eps' kn kd.
Proof.
  intros Heps Htz Hrz Hs Hwh Hw. destruct up_le as [HD HP]. pose proof lower_pos as Hl. pose proof Hf as [Hm He2 Hmm _ Hsv Hlo Hup].
  assert (interval ((4 * m2 - 1 - mm) * P) (4 * m2 * P) ((4 * m2 + 2) * P) D eps accept tz) as Hiv.
  { apply interval_of; [done|done| |lia| | | | |].
    - destruct Hroom as [->|]; [by left|by right].
    - intros E. destruct Heps as [|(_ & _ & Hz)]; [lia|]. apply fives_mul; [done|lia].
    - intros Ha. destruct Heps as [|(_ & Ha' & _)]; [done|congruence].
    - intros Ht. destruct (Htz Ht). split; [done|]. apply fives_mul; [done|lia].
    - intros Ha. destruct (Hs Ha) as [|Hn]; [by left|right]. intros Hz. apply Hn, (fives_of_ten _ (e2 - q) q); [lia|lia|done].
    - intros Ha. destruct (Hwh Ha) as [|Hn]; [by left|right]. intros Hz. apply Hn, (fives_of_ten _ (e2 - q) q); [lia|lia|done]. }
  assert (P * 2 ^ q * 2 ^ 1076 = 2 ^ (e2 + 1076)) as Epow by (rewrite <- !Z.pow_add_r by lia; f_equal; lia).
  exists ((4 * m2 - 1 - mm) * P), (4 * m2 * P), ((4 * m2 + 2) * P), D, eps, (2 ^ q), 1. split; [exact Hiv| | | | | | | |]; cbn [vm_tz vr_tz e10].
  - unfold starts. cbn [vr vp vm vm_tz vr_tz]. rewrite !cut_zero. split; [done|]. split.
    { symmetry. apply upper_left; try done; [nia|nia|]. destruct Heps as [|(E & _ & Hz)]; [by left|right]. split; [done|apply fives_mul; [done|lia]]. }
    do 3 (split; [done|]). by apply upper_word.
  - intros Hr. apply fives_mul; [by apply Hrz|lia].
  - apply Z.pow_pos_nonneg; lia.
  - lia.
  - rewrite Hlo, <- Epow. ring.
  - rewrite Hsv, <- Epow. ring.
  - rewrite Hup, <- Epow. ring.
  - intros j. replace (Z.max (q + Z.of_nat j) 0) with (q + Z.of_nat j) by lia. replace (Z.max (- (q + Z.of_nat j)) 0) with 0 by lia.
    rewrite Z.pow_add_r by lia. change 10 with (5 * 2) at 1. rewrite Z.pow_mul_l. ring.
Qed.

Lemma up_fives n : 22 <= q -> n mod 5 ^ 23 <> 0 -> n mod 5 ^ (q + 1) <> 0.
Proof. intros H22 Hn Hz. by apply Hn, (fives_less n 23 (q + 1)); [lia|]. Qed.
End up.

(** Where the exponent is not negative. *)
Lemma scale_up_for : 0 <= e2 -> exists la lb lc D eps kn kd,
  scaled_for b (negb (Z.odd m2)) (scale_up e2 (4 * m2) mm (negb (Z.odd m2))) la lb lc D eps kn kd.
Proof.
  intros He. pose proof Hf as [Hm He2 Hmm _ _ _ _]. pose proof lower_pos as Hl. destruct words_small as (_ & Eu & El).
  assert (0 < 4 * m2 + 2 <= max_mv /\ 0 < 4 * m2 <= max_mv /\ 0 < 4 * m2 - 1 - mm <= max_mv) as (B1 & B2 & B3) by (unfold max_mv; lia).
  destruct (up_floor e2 (4 * m2 + 2) ltac:(lia) B1) as (Hq & Hqe & Hpow & F1). destruct (up_floor e2 (4 * m2) ltac:(lia) B2) as (_ & _ & _ & F2).
  destruct (up_floor e2 (4 * m2 - 1 - mm) ltac:(lia) B3) as (_ & _ & _ & F3). pose proof (up_room e2 ltac:(lia)) as Hroom. cbv zeta in *.
  pose proof (mul_shift_word (4 * m2 + 2) (NURL_POW5_INV !!! Z.to_nat (up_q e2)) (up_shift e2)) as Hw. rewrite F1 in Hw.
  unfold scale_up. fold (up_q e2). rewrite Eu, El. set (q := up_q e2) in *.
  replace (- e2 + q + (NURL_POW5_INV_BITCOUNT + nurl__pow5_bits q - 1)) with (up_shift e2) by (unfold NURL_POW5_INV_BITCOUNT, up_shift, up_k; fold q; lia). rewrite F1, F2, F3.
  rewrite !multiple_of_pow5_eq by lia. pose proof (up_for He q ltac:(lia) Hpow Hroom) as Hup. clear F1 F2 F3.
  set (P := 2 ^ (e2 - q)) in *. set (D := 5 ^ q) in *. clearbody P.
  destruct (Z.leb_spec q 21) as [H21|H21].
  - destruct (Z.eqb_spec ((4 * m2) mod 5) 0) as [E5|E5]; [|destruct (Z.odd m2) eqn:Ho; simpl negb in *; cbv iota].
    + refine (Hup 0 false ((4 * m2) mod D =? 0) (or_introl eq_refl) _ _ _ _ Hw); [discriminate|by intros ->%Z.eqb_eq| | ].
      * intros _. right. intros Hz. apply (fives_less _ 1) in Hz; [|lia]. by apply (five_apart m2 2) in Hz; [|lia|lia].
      * intros _. right. intros Hz. apply (fives_less _ 1) in Hz; [|lia]. replace (4 * m2 - 1 - mm) with (4 * m2 + (-1 - mm)) in Hz by lia. by apply five_apart in Hz; [|lia|lia].
    + destruct (Z.eqb_spec ((4 * m2 + 2) mod D) 0) as [Ez|Ez].
      * refine (Hup 1 false false (or_intror (conj eq_refl (conj eq_refl Ez))) _ _ _ _ Hw); [discriminate|discriminate|by left|discriminate].
      * refine (Hup 0 false false (or_introl eq_refl) _ _ _ _ Hw); [discriminate|discriminate| |discriminate].
        intros _. right. intros Hz. apply Ez. apply (fives_less _ _ (q + 1)); [lia|exact Hz].
    + refine (Hup 0 ((4 * m2 - 1 - mm) mod D =? 0) false (or_introl eq_refl) _ _ _ _ Hw); [by intros ->%Z.eqb_eq|discriminate|discriminate|].
      intros _. destruct (Z.eqb_spec ((4 * m2 - 1 - mm) mod D) 0) as [Ez|Ez]; [by left|right]. intros Hz. apply Ez. apply (fives_less _ _ (q + 1)); [lia|exact Hz].
  - refine (Hup 0 false false (or_introl eq_refl) _ _ _ _ Hw); [discriminate|discriminate| | ].
    + intros Ho. right. apply up_fives; [lia|]. apply no_pow23_upper; [lia|by apply negb_false_iff].
    + intros Ho. right. apply up_fives; [lia|]. apply no_pow23_lower; [lia|done|by apply negb_true_iff].
Qed.

Section down.
Context (He : e2 < 0) (q i : Z) (Hq : 0 <= q) (Hi : i = - e2 - q) (Hi0 : 0 <= i) (Hpow : 2 ^ q <= 5 ^ i) (Hroom : q = 0 \/ 10 * 2 ^ q <= 5 ^ i).

#[local] Abbreviation P := (5 ^ i).
#[local] Abbreviation D := (2 ^ q).
#[local] Abbreviation accept := (negb (Z.odd m2)).

Lemma down_for eps tz rz :
  eps = 0 \/ eps = 1 /\ accept = false /\ ((4 * m2 + 2) * P) mod D = 0 ->
  (tz = true -> accept = true /\ ((4 * m2 - 1 - mm) * P) mod D = 0) -> (rz = true -> (4 * m2 * P) mod D = 0) ->
  (accept = false -> eps = 1 \/ ((4 * m2 + 2) * P) mod (D * 10) <> 0) ->
  (accept = true -> tz = true \/ ((4 * m2 - 1 - mm) * P) mod (D * 10) <> 0) ->
  (4 * m2 + 2) * P / D < 2 ^ 64 ->
  exists la lb lc D' eps' kn kd, scaled_for b accept
    (Scaled (4 * m2 * P / D) (if eps =? 1 then (4 * m2 + 2) * P / D -w 1 else (4 * m2 + 2) * P / D) ((4 * m2 - 1 - mm) * P / D) (q + e2) tz rz) la lb lc D' eps' kn kd.
Proof.
  intros Heps Htz Hrz Hs Hwh Hw. pose proof lower_pos as Hl. pose proof Hf as [Hm He2 Hmm _ Hsv Hlo Hup].
  assert (0 < D) as HD by (apply Z.pow_pos_nonneg; lia).
  assert (interval ((4 * m2 - 1 - mm) * P) (4 * m2 * P) ((4 * m2 + 2) * P) D eps accept tz) as Hiv.
  { apply interval_of; [done|done| |lia| | |done|done|done].
    - destruct Hroom as [->|]; [by left|by right].
    - intros E. destruct Heps as [|(_ & _ & Hz)]; [lia|done].
    - intros Ha. destruct Heps as [|(_ & Ha' & _)]; [done|congruence]. }
  assert (2 ^ (e2 + 1076) * 2 ^ (- e2) = 2 ^ 1076) as Epow by (rewrite <- !Z.pow_add_r by lia; f_equal; lia).
  exists ((4 * m2 - 1 - mm) * P), (4 * m2 * P), ((4 * m2 + 2) * P), D, eps, 1, (P * 2 ^ (- e2)). split; [exact Hiv| |exact Hrz|done| | | | |]; cbn [vm_tz vr_tz e10].
  - unfold starts. cbn [vr vp vm vm_tz vr_tz]. rewrite !cut_zero. split; [done|]. split.
    { symmetry. apply upper_left; try done; [nia|nia|]. destruct Heps as [|(E & _ & Hz)]; [by left|by right]. }
    do 3 (split; [done|]). by apply upper_word.
  - apply Z.mul_pos_pos; apply Z.pow_pos_nonneg; lia.
  - rewrite Hlo, <- Epow. ring.
  - rewrite Hsv, <- Epow. ring.
  - rewrite Hup, <- Epow. ring.
  - intros j. replace (P * 2 ^ (- e2)) with (10 ^ i * D) by (replace (- e2) with (i + q) by lia; rewrite Z.pow_add_r by lia; change 10 with (5 * 2); rewrite Z.pow_mul_l; ring).
    rewrite Z.mul_assoc, <- Z.pow_add_r by lia. rewrite Z.mul_1_r, <- Z.mul_assoc, (Z.mul_comm D), Z.mul_assoc, <- Z.pow_add_r by lia. do 2 f_equal. lia.
Qed.
End down.

(** Where it is. *)
Lemma scale_down_for : e2 < 0 -> exists la lb lc D eps kn kd,
  scaled_for b (negb (Z.odd m2)) (scale_down e2 (4 * m2) mm (negb (Z.odd m2))) la lb lc D eps kn kd.
Proof.
  intros He. pose proof Hf as [Hm He2 Hmm _ _ _ _]. pose proof lower_pos as Hl. destruct words_small as (_ & Eu & El).
  assert (0 < 4 * m2 + 2 <= max_mv /\ 0 < 4 * m2 <= max_mv /\ 0 < 4 * m2 - 1 - mm <= max_mv) as (B1 & B2 & B3) by (unfold max_mv; lia).
  destruct (down_floor e2 (4 * m2 + 2) ltac:(lia) B1) as (Hq & Hi & Hpow & F1). destruct (down_floor e2 (4 * m2) ltac:(lia) B2) as (_ & _ & _ & F2).
  destruct (down_floor e2 (4 * m2 - 1 - mm) ltac:(lia) B3) as (_ & _ & _ & F3). pose proof (down_room e2 ltac:(lia)) as Hroom. cbv zeta in *.
  pose proof (mul_shift_word (4 * m2 + 2) (NURL_POW5 !!! Z.to_nat (down_i e2)) (down_q e2 - down_k (down_i e2))) as Hw. rewrite F1 in Hw.
  unfold scale_down. fold (down_q e2). fold (down_i e2). rewrite Eu, El. set (q := down_q e2) in *. set (i := down_i e2) in *.
  change (nurl__pow5_bits i - NURL_POW5_BITCOUNT) with (down_k i). rewrite F1, F2, F3.
  pose proof (down_for He q i Hq eq_refl ltac:(lia) Hpow Hroom) as Hdn. clear F1 F2 F3.
  set (U := (4 * m2 + 2) * 5 ^ i / 2 ^ q) in *. assert (negb (Z.odd m2) = true \/ negb (Z.odd m2) = false) as Hacc by (destruct (Z.odd m2); auto).
  destruct (Z.leb_spec q 1) as [H1|H1]; [destruct Hacc as [Ha|Ha]; rewrite Ha in *; cbv iota|].
  - refine (Hdn 0 (mm =? 1) true (or_introl eq_refl) _ _ _ _ Hw); [|intros _|discriminate|intros _].
    + intros ->%Z.eqb_eq. split; [done|]. replace (4 * m2 - 1 - 1) with (2 * (2 * m2 - 1)) by ring. apply even_mod; lia.
    + replace (4 * m2) with (2 * (2 * m2)) by ring. apply even_mod; lia.
    + destruct (Z.eqb_spec mm 1); [by left|right]. destruct Hmm as [|[-> _]]; [done|]. apply (lower_not_whole q i m2 0); lia.
  - refine (Hdn 1 false true (or_intror (conj eq_refl (conj eq_refl _))) _ _ _ _ Hw); [|discriminate|intros _|by left|discriminate].
    + replace (4 * m2 + 2) with (2 * (2 * m2 + 1)) by ring. apply even_mod; lia.
    + replace (4 * m2) with (2 * (2 * m2)) by ring. apply even_mod; lia.
  - assert (forall rz : bool, (rz = true -> (4 * m2 * 5 ^ i) mod 2 ^ q = 0) -> exists la lb lc D eps kn kd,
      scaled_for b (negb (Z.odd m2)) (Scaled (4 * m2 * 5 ^ i / 2 ^ q) U ((4 * m2 - 1 - mm) * 5 ^ i / 2 ^ q) (q + e2) false rz) la lb lc D eps kn kd) as Hgo.
    { intros rz Hrz. refine (Hdn 0 false rz (or_introl eq_refl) _ Hrz _ _ Hw); [discriminate|intros _; right|intros _; right].
      - apply upper_not_whole; lia.
      - apply (lower_not_whole q i m2 mm); lia. }
    destruct (Z.ltb_spec q 63); apply Hgo; [|discriminate]. rewrite multiple_of_pow2_eq by lia. intros Hz%Z.eqb_eq.
    assert (0 < 2 ^ q) by (apply Z.pow_pos_nonneg; lia). rewrite <- Z.mul_mod_idemp_l, Hz by lia. done.
Qed.
End sides.
