(* ===== verification/RyuShortest.v ===== *)
(** The digits of [nurl__shortest_decimal] in [src/stdlib/runtime_core.c]: the
    decimal rounds to the double, none with a larger exponent does, none has
    fewer digits, and of those with its exponent it is the nearest. *)

From S2P Require Import Prelude Dtoa Float Pow5Table Atof AtofPack AtofValue Ryu RyuFloor RyuLoop RyuTrim RyuScale RyuSides.

Open Scope word_scope.

(** [D * 10 ^ X] rounds to the double [b]. *)
Definition reads_as (D X b : Z) : Prop := rounds (D * 10 ^ Z.max X 0) (10 ^ Z.max (- X) 0) b.

(** How far [D * 10 ^ X] is from the double, in units of the smallest double
    over the power of ten below. *)
Definition distance (D X b : Z) : Z := Z.abs (D * 10 ^ Z.max X 0 * 2 ^ 1074 - sval b * 10 ^ Z.max (- X) 0).

(** Rounding to [b] is being in its interval. *)
Lemma rounds_inside x kn kd la lc b : 0 < b < INF -> 0 < kn ->
  2 * mid (b - 1) * kd = la * kn * 2 ^ 1076 -> 2 * mid b * kd = lc * kn * 2 ^ 1076 ->
  rounds (x * kn) kd b <-> inside la lc (negb (Z.odd b)) x.
Proof.
  intros Hb Hk Hlo Hup. assert (2 ^ 1076 = 2 * 2 ^ 1075) as E2 by done. rewrite E2 in *. clear E2.
  assert (0 < kn * 2 ^ 1075) as HK by (apply Z.mul_pos_pos; [done|by apply Z.pow_pos_nonneg]).
  transitivity ((la * (kn * 2 ^ 1075) <= x * (kn * 2 ^ 1075) /\ (Z.odd b = true -> la * (kn * 2 ^ 1075) < x * (kn * 2 ^ 1075))) /\
    x * (kn * 2 ^ 1075) <= lc * (kn * 2 ^ 1075) /\ (Z.odd b = true -> x * (kn * 2 ^ 1075) < lc * (kn * 2 ^ 1075))).
  { replace (la * (kn * 2 ^ 1075)) with (mid (b - 1) * kd) by lia. replace (lc * (kn * 2 ^ 1075)) with (mid b * kd) by lia.
    replace (x * (kn * 2 ^ 1075)) with (x * kn * 2 ^ 1075) by ring. split; [intros [_ H1 H2]; split; [apply H1|apply H2]; lia|].
    intros [H1 H2]. split; [lia|done|done]. }
  rewrite <- !Z.mul_le_mono_pos_r, <- !Z.mul_lt_mono_pos_r by done. unfold inside. rewrite negb_true_iff. destruct (Z.odd b).
  - split; [intros [[_ H1] [_ H2]]; split; left; auto|]. intros [[H1|[? _]] [H2|[? _]]]; try done. lia.
  - split; [intros [[H1 _] [H2 _]]|intros [[H1|[_ ->]] [H2|[_ <-]]]]; [|split; split; (lia || done)..].
    split; [destruct (Z.eq_dec la x)|destruct (Z.eq_dec x lc)]; [by right|left; lia|by right|left; lia].
Qed.

Section scaled.
Context (b : Z) (Hb : 0 < b < INF) (s : scaled) (la lb lc D eps kn kd : Z).
Context (Hs : scaled_for b (negb (Z.odd b)) s la lb lc D eps kn kd).

Lemma reads_inside y (j : nat) : reads_as y (e10 s + Z.of_nat j) b <-> inside la lc (negb (Z.odd b)) (y * (D * 10 ^ Z.of_nat j)).
Proof.
  pose proof Hs as [_ _ _ Hkn Hkd Hlo _ Hup Hsc]. specialize (Hsc j). unfold reads_as. set (X := e10 s + Z.of_nat j) in *.
  assert (0 < 10 ^ Z.max (- X) 0) as Hd by (apply pow10_pos; lia). set (x := y * (D * 10 ^ Z.of_nat j)).
  transitivity (rounds (x * kn) kd b).
  { assert (y * 10 ^ Z.max X 0 * kd = x * kn * 10 ^ Z.max (- X) 0) as E by (rewrite <- Z.mul_assoc, Hsc; unfold x; ring). split; apply rounds_ext; done. }
  by apply rounds_inside.
Qed.

Lemma distance_scaled y (j : nat) :
  distance y (e10 s + Z.of_nat j) b * (4 * kd) =
  Z.abs (y * (D * 10 ^ Z.of_nat j) - lb) * (kn * 10 ^ Z.max (- (e10 s + Z.of_nat j)) 0 * 2 ^ 1076).
Proof.
  pose proof Hs as [_ _ _ Hkn Hkd _ Hv _ Hsc]. specialize (Hsc j). unfold distance. set (X := e10 s + Z.of_nat j) in *.
  assert (0 < 10 ^ Z.max (- X) 0) as Hd by (apply pow10_pos; lia). set (d := 10 ^ Z.max (- X) 0) in *. set (n := 10 ^ Z.max X 0) in *. clearbody d n.
  assert (0 < 2 ^ 1076) as HT by (by apply Z.pow_pos_nonneg).
  rewrite <- (Z.abs_eq (4 * kd)), <- (Z.abs_eq (kn * d * 2 ^ 1076)) by (apply Z.lt_le_incl; first [lia|apply Z.mul_pos_pos; [by apply Z.mul_pos_pos|done]]).
  rewrite <- !Z.abs_mul. f_equal. replace (2 ^ 1076) with (4 * 2 ^ 1074) in * by done. set (T := 2 ^ 1074) in *. clearbody T.
  replace ((y * n * T - sval b * d) * (4 * kd)) with (y * (n * kd) * 4 * T - 4 * sval b * kd * d) by ring. rewrite Hsc, Hv. ring.
Qed.

(** The digits and the exponent for a finished branch. *)
Lemma finished_shortest o : finished la lb lc D eps (negb (Z.odd b)) (vm_tz s) s o ->
  exists O X, o = Some (O, X) /\ 0 < O < 2 ^ 64 /\ reads_as O X b /\ (forall y t, X < t -> ~ reads_as y t b) /\
    (forall y, reads_as y X b -> distance O X b <= distance y X b).
Proof.
  pose proof Hs as [Hiv Hst _ Hkn Hkd _ _ _ _]. intros (j & up & -> & Hend & Hup & Hdown).
  pose proof (output_inside _ _ _ _ _ _ _ Hiv j Hend up Hup) as Hin. pose proof (unit_pos _ _ _ _ _ _ _ Hiv) as Hu.
  exists (output la lb D (negb (Z.odd b)) (vm_tz s) j up), (e10 s + Z.of_nat j). set (O := output _ _ _ _ _ _ _) in *. split; [done|]. split; [split|split; [|split]].
  - apply (Z.mul_pos_cancel_r _ (D * 10 ^ Z.of_nat j)); [apply Hu|]. pose proof (iv_la _ _ _ _ _ _ _ Hiv). destruct Hin as [[|[_ <-]] _]; lia.
  - eapply Z.le_lt_trans; [apply (output_le_cut _ _ _ _ _ _ _ Hiv j Hend up Hup)|]. destruct Hst as (_ & Hp & _ & _ & _ & Hw). rewrite Hp in Hw.
    eapply Z.le_lt_trans; [apply (cut_le_start _ _ _ _ _ _ _ Hiv)|exact Hw]. pose proof Hiv as []. lia.
  - by apply reads_inside.
  - intros y t Ht Hr. set (k := Z.to_nat (t - (e10 s + Z.of_nat j) - 1)). assert (t = e10 s + Z.of_nat (S j + k)) as E by (unfold k; lia). rewrite E in Hr.
    apply reads_inside in Hr. rewrite Nat2Z.inj_add, Z.pow_add_r in Hr by lia.
    apply (output_shortest _ _ _ _ _ _ _ Hiv j Hend (y * 10 ^ Z.of_nat k)). replace (y * 10 ^ Z.of_nat k * (D * 10 ^ Z.of_nat (S j))) with (y * (D * (10 ^ Z.of_nat (S j) * 10 ^ Z.of_nat k))) by ring. done.
  - intros y Hr. apply reads_inside in Hr. pose proof (output_nearest _ _ _ _ _ _ _ Hiv j Hend up Hup y Hdown Hr) as Hn. fold O in Hn.
    apply (Z.mul_le_mono_pos_r _ _ (4 * kd)); [lia|]. rewrite !distance_scaled. apply Z.mul_le_mono_nonneg_r; [|done].
    apply Z.mul_nonneg_nonneg; [apply Z.mul_nonneg_nonneg; [lia|apply Z.pow_nonneg; lia]|by apply Z.pow_nonneg].
Qed.
End scaled.

(** * The generator *)

Lemma shortest_ok b : 0 < b < INF ->
  exists O X, nurl__shortest_decimal (b mod 2 ^ 52) (b / 2 ^ 52) = Some (O, X) /\ 0 < O < 2 ^ 64 /\ reads_as O X b /\
    (forall y t, X < t -> ~ reads_as y t b) /\ (forall y, reads_as y X b -> distance O X b <= distance y X b).
Proof.
  intros Hb. pose proof (fields_spec b Hb) as Hf. unfold nurl__shortest_decimal. destruct (ryu_fields (b mod 2 ^ 52) (b / 2 ^ 52)) as [m2 e2].
  set (mm := nz (negb (b mod 2 ^ 52 =? 0) || (b / 2 ^ 52 <=? 1))) in *. pose proof (words_small b m2 e2 mm Hf) as (-> & _).
  assert ((Z.land m2 1 =? 0) = negb (Z.odd m2)) as -> by (rewrite (land_one m2), Zmod_odd; by destruct (Z.odd m2)).
  assert (exists la lb lc D eps kn kd, scaled_for b (negb (Z.odd m2))
    (if 0 <=? e2 then scale_up e2 (4 * m2) mm (negb (Z.odd m2)) else scale_down e2 (4 * m2) mm (negb (Z.odd m2))) la lb lc D eps kn kd) as (la & lb & lc & D & eps & kn & kd & Hs).
  { destruct (Z.leb_spec 0 e2); [by apply scale_up_for|by apply scale_down_for]. }
  rewrite (fd_odd _ _ _ _ Hf) in *. set (s := if 0 <=? e2 then _ else _) in *. clearbody s. pose proof Hs as [Hiv Hst Hrz _ _ _ _ _ _].
  apply (finished_shortest b Hb s la lb lc D eps kn kd Hs). destruct (vm_tz s || vr_tz s) eqn:Hz.
  - by apply (finish_exact_runs _ _ _ _ _ _ _ Hiv (vr_tz s)).
  - apply orb_false_iff in Hz as [Hz1 Hz2]. by apply (finish_plain_runs _ _ _ _ _ _ _ Hiv (vr_tz s)).
Qed.

(** * Fewest digits *)

Lemma reads_shift y t k b : 0 <= k -> 0 <= t + k -> reads_as y t b <-> rounds (y * 10 ^ (t + k)) (10 ^ k) b.
Proof.
  intros Hk Ht. unfold reads_as. assert (0 < 10 ^ Z.max (- t) 0) by (apply pow10_pos; lia). assert (0 < 10 ^ k) by (by apply pow10_pos).
  assert (y * 10 ^ Z.max t 0 * 10 ^ k = y * 10 ^ (t + k) * 10 ^ Z.max (- t) 0) as E by (rewrite <- !Z.mul_assoc, <- !Z.pow_add_r by lia; do 2 f_equal; lia).
  split; by apply rounds_ext.
Qed.

Lemma reads_pos y t b : 0 < b -> reads_as y t b -> 0 < y.
Proof.
  intros Hb [_ Hl _]. destruct (Hl Hb) as [H _]. pose proof (mid_bounds (b - 1) ltac:(lia)). pose proof (sval_nonneg (b - 1) ltac:(lia)).
  assert (0 < 10 ^ Z.max (- t) 0) by (apply pow10_pos; lia). assert (0 < 10 ^ Z.max t 0) by (apply pow10_pos; lia).
  destruct (Z.le_gt_cases y 0) as [Hy|]; [|done]. assert (0 < mid (b - 1) * 10 ^ Z.max (- t) 0) by (apply Z.mul_pos_pos; lia).
  assert (y * 10 ^ Z.max t 0 <= 0) by nia. assert (0 < 2 ^ 1075) by (by apply Z.pow_pos_nonneg). nia.
Qed.

(** Digits for which no larger exponent does are fewest. *)
Lemma fewest O X y t n b : 0 < b -> reads_as O X b -> (forall y t, X < t -> ~ reads_as y t b) -> reads_as y t b -> 0 <= n -> y < 10 ^ n -> O < 10 ^ n.
Proof.
  intros Hb Ho Hs Hy Hn Hlt. pose proof (reads_pos y t b Hb Hy) as Hpos. assert (0 < n) as Hn0 by (destruct (Z.eq_dec n 0) as [->|]; [simpl in Hlt|]; lia).
  assert (t <= X) as Ht by (destruct (Z.le_gt_cases t X); [done|exfalso; by apply (Hs y t)]).
  destruct (Z.lt_ge_cases O (10 ^ n)) as [|Hge]; [done|]. exfalso. apply (Hs 1 (X + n)); [lia|].
  set (k := Z.max 0 (- t)). assert (0 <= k /\ 0 <= t + k) as [Hk Htk] by lia.
  apply (reads_shift _ _ k); [done|lia|]. apply (reads_shift _ _ k) in Hy; [|done|done]. apply (reads_shift _ _ k) in Ho; [|done|lia].
  assert (0 < 10 ^ k) by (by apply pow10_pos). assert (0 < 10 ^ (t + k)) by (by apply pow10_pos).
  apply (rounds_between (y * 10 ^ (t + k)) (10 ^ k) (O * 10 ^ (X + k)) (10 ^ k)); try done.
  - apply Z.mul_le_mono_nonneg_r; [lia|]. rewrite Z.mul_1_l. replace (X + n + k) with (n + (X - t) + (t + k)) by lia. rewrite (Z.pow_add_r _ (n + (X - t))) by lia.
    apply Z.mul_le_mono_nonneg_r; [lia|]. assert (10 ^ n <= 10 ^ (n + (X - t))) by (apply Z.pow_le_mono_r; lia). lia.
  - apply Z.mul_le_mono_nonneg_r; [lia|]. rewrite Z.mul_1_l. replace (X + n + k) with (n + (X + k)) by lia. rewrite Z.pow_add_r by lia.
    apply Z.mul_le_mono_nonneg_r; [apply Z.pow_nonneg; lia|done].
Qed.

(** The exponent has at most three digits. *)
Lemma reads_exponent O X b : 0 < b < INF -> 0 < O < 2 ^ 64 -> reads_as O X b -> -400 < X < 400.
Proof.
  intros Hb Ho [_ Hl Hu]. destruct (Hl ltac:(lia)) as [L _]. destruct (Hu ltac:(lia)) as [U _]. clear Hl Hu.
  pose proof (mid_bounds (b - 1) ltac:(lia)) as M1. pose proof (sval_nonneg (b - 1) ltac:(lia)). pose proof (mid_bounds b ltac:(lia)) as M2.
  pose proof (sval_mono (b + 1) INF ltac:(lia)) as M3. assert (sval INF = 2 ^ 2098) as M4 by (by vm_compute). rewrite M4 in M3.
  split.
  - destruct (Z.lt_ge_cases (-400) X) as [|Hx]; [done|exfalso]. replace (Z.max X 0) with 0 in L by lia. rewrite Z.pow_0_r, Z.mul_1_r in L.
    assert (10 ^ 400 <= 10 ^ Z.max (- X) 0) by (apply Z.pow_le_mono_r; lia). assert (O * 2 ^ 1075 <= 2 ^ 64 * 2 ^ 1075) by (apply Z.mul_le_mono_nonneg_r; [by apply Z.pow_nonneg|lia]).
    assert (2 ^ 64 * 2 ^ 1075 < 10 ^ 400) by (by apply Z.ltb_lt; vm_compute).
    assert (1 * 10 ^ Z.max (- X) 0 <= mid (b - 1) * 10 ^ Z.max (- X) 0) by (apply Z.mul_le_mono_nonneg_r; [apply Z.pow_nonneg; lia|lia]). lia.
  - destruct (Z.lt_ge_cases X 400) as [|Hx]; [done|exfalso]. replace (Z.max (- X) 0) with 0 in U by lia. rewrite Z.pow_0_r, Z.mul_1_r in U.
    assert (10 ^ 400 <= 10 ^ Z.max X 0) by (apply Z.pow_le_mono_r; lia). assert (10 ^ 400 * 2 ^ 1075 <= O * 10 ^ Z.max X 0 * 2 ^ 1075).
    { apply Z.mul_le_mono_nonneg_r; [by apply Z.pow_nonneg|]. assert (1 * 10 ^ Z.max X 0 <= O * 10 ^ Z.max X 0) by (apply Z.mul_le_mono_nonneg_r; [apply Z.pow_nonneg; lia|lia]). lia. }
    assert (2 * 2 ^ 2098 < 10 ^ 400 * 2 ^ 1075) by (by apply Z.ltb_lt; vm_compute). lia.
Qed.
