(* ===== verification/RyuText.v ===== *)
(** The text of [nurl_str_float] in [src/stdlib/runtime_core.c] against the
    grammar of [AtofText]: what the digits and the layouts say. *)

From S2P Require Import Prelude Dtoa Float Pow5Table Atof AtofValue AtofText AtofPrint Ryu.

Open Scope word_scope.

(** * The digits *)

Lemma put_digits_ok f u : 0 <= u < 10 ^ Z.of_nat (S f) ->
  exists ds, put_digits (S f) u = Some ds /\ Forall isdigit ds /\ lval ds = u /\ (length ds <= S f)%nat /\ (0 < u -> 10 ^ (len ds - 1) <= u) /\ ds <> [].
Proof.
  revert u. induction f as [|f IH]; intros u Hu.
  - change (10 ^ Z.of_nat 1) with 10 in Hu. cbn [put_digits]. rewrite Z.div_small, Z.mod_small by lia. exists [48 + u]. simpl. split_and!; try done; [|lia|].
    + constructor; [unfold isdigit; lia|done].
    + intros H. change (10 ^ (len [48 + u] - 1)) with 1. lia.
  - rewrite pow_of_S in Hu. pose proof (Z.div_mod u 10 ltac:(lia)) as Hd. pose proof (Z.mod_pos_bound u 10 ltac:(lia)) as Hm.
    change (put_digits (S (S f)) u) with (if u / 10 =? 0 then Some [48 + u mod 10] else d ← put_digits (S f) (u / 10); Some (48 + u mod 10 :: d)).
    assert (isdigit (48 + u mod 10)) as Hc by (unfold isdigit; lia).
    destruct (Z.eqb_spec (u / 10) 0) as [E|E].
    + exists [48 + u mod 10]. simpl. split_and!; try done; [by constructor|lia|lia|]. intros H. change (10 ^ (len [48 + u mod 10] - 1)) with 1. lia.
    + destruct (IH (u / 10)) as (ds & -> & Hf & Hv & Hl & Hp & Hne); [split; [apply Z.div_pos; lia|apply Z.div_lt_upper_bound; lia]|].
      exists (48 + u mod 10 :: ds). cbn [mbind option_bind lval length]. split_and!; try done; [by constructor|lia|lia|]. intros H. specialize (Hp ltac:(pose proof (Z.div_pos u 10); lia)).
      unfold len in *. cbn [length]. rewrite Nat2Z.inj_succ. destruct ds as [|x ds]; [done|]. cbn [length] in *. rewrite Nat2Z.inj_succ in *.
      replace (Z.succ (Z.succ (Z.of_nat (length ds))) - 1) with (Z.succ (Z.of_nat (length ds))) by lia. rewrite Z.pow_succ_r by lia.
      replace (Z.succ (Z.of_nat (length ds)) - 1) with (Z.of_nat (length ds)) in Hp by lia. lia.
Qed.

Lemma digit_text_ok u : 0 <= u < 2 ^ 64 ->
  exists d, digit_text u = Some d /\ Forall isdigit d /\ dval d = u /\ 1 <= len d <= 20 /\ (0 < u -> 10 ^ (len d - 1) <= u).
Proof.
  intros Hu. destruct (put_digits_ok 19 u) as (ds & E & Hf & Hv & Hl & Hp & Hne); [change (10 ^ Z.of_nat 20) with (10 ^ 20); lia|].
  exists (rev ds). unfold digit_text. rewrite E. cbn [mbind option_bind]. split; [done|]. split; [by apply Forall_rev|]. unfold dval. rewrite rev_involutive, len_rev.
  split; [done|]. split; [|done]. unfold len. destruct ds; [done|]. cbn [length] in *. lia.
Qed.

(** * The layouts *)

(** The digits of an exponent: two, or three. *)
Definition exponent_digits (a : Z) : list Z := (if 100 <=? a then [48 + a / 100] else []) ++ [48 + (a / 10) mod 10; 48 + a mod 10].

Lemma exponent_digits_ok a : 0 <= a < 1000 -> Forall isdigit (exponent_digits a) /\ dval (exponent_digits a) = a.
Proof.
  intros Ha. unfold exponent_digits. pose proof (Z.mod_pos_bound (a / 10) 10 ltac:(lia)). pose proof (Z.mod_pos_bound a 10 ltac:(lia)).
  assert (isdigit (48 + (a / 10) mod 10) /\ isdigit (48 + a mod 10)) as [H1 H2] by (unfold isdigit; lia).
  destruct (Z.leb_spec 100 a); simpl app; unfold dval; simpl rev; cbn [app lval].
  - split; [|zdiv]. apply Forall_cons. split; [unfold isdigit; zdiv|]. by apply Forall_cons; split; [|apply Forall_singleton].
  - split; [|zdiv]. by apply Forall_cons; split; [|apply Forall_singleton].
Qed.

Lemma read_exponent_ok x : -1000 < x < 1000 ->
  exists k, read_exponent ([101; if x <? 0 then 45 else 43] ++ exponent_digits (Z.abs x)) = (x, k).
Proof.
  intros Hx. destruct (exponent_digits_ok (Z.abs x) ltac:(lia)) as [Hd Hv]. pose proof (span_digits _ [] Hd I) as Hs. rewrite app_nil_r in Hs.
  assert ((length (exponent_digits (Z.abs x)) =? 0)%nat = false) as Hn by (unfold exponent_digits; by destruct (100 <=? Z.abs x)).
  simpl app. unfold read_exponent. simpl orb. cbv iota. destruct (Z.ltb_spec x 0); simpl Z.eqb; cbv iota; rewrite Hs; cbn [fst]; rewrite Hn, Hv; eexists; f_equal; lia.
Qed.

Lemma read_style_e d x : Forall isdigit d -> 1 <= len d -> -1000 < x < 1000 ->
  exists m, read_decimal (style_e d x) = Some (d, x - len d + 1, m).
Proof.
  intros Hd Hl Hx. destruct d as [|c d]; [done|]. apply Forall_cons in Hd as [Hc Hd]. destruct (read_exponent_ok x Hx) as [k Hk].
  unfold style_e. fold (exponent_digits (Z.abs x)). set (es := [101; _] ++ _) in *. cbn [take drop]. rewrite take_0. unfold read_decimal.
  assert (exists t, es = 101 :: t) as [t Ht] by (by eexists). assert (match es with c :: _ => is_digit c = false | [] => True end) as Hes by (by rewrite Ht).
  assert (Forall isdigit [c]) as Hc1 by (by apply Forall_singleton). unfold len in *. cbn [length] in *.
  destruct d as [|c' d].
  - change (1 <? 1)%nat with false. cbv iota. rewrite app_nil_l. pose proof (span_digits [c] es Hc1 Hes) as ->. rewrite Ht. simpl Z.eqb. cbv iota.
    rewrite <- Ht, Hk. simpl. eexists. do 3 f_equal. lia.
  - change (1 <? S (length (c' :: d)))%nat with true. cbv iota. rewrite drop_0. pose proof (span_digits [c] ((46 :: c' :: d) ++ es) Hc1 eq_refl) as ->. simpl Z.eqb.
    pose proof (span_digits (c' :: d) es Hd Hes) as Hs. cbn [app] in Hs |- *. change (46 =? 46) with true. cbv beta iota. rewrite Hs. cbn [app length Nat.eqb]. cbv beta iota. rewrite Hk. eexists. do 3 f_equal. unfold len. cbn [length]. lia.
Qed.

(** The fixed layout is an integer part and a fraction. *)
Lemma style_f_plain d x : Forall isdigit d -> 1 <= len d -> -5 < x < len d ->
  exists int frac, style_f d x = plain int frac /\ int <> [] /\ Forall isdigit int /\ Forall isdigit frac /\ dval (int ++ frac) = dval d /\ - len frac = x - len d + 1.
Proof.
  intros Hd Hl Hx. unfold style_f, plain. destruct (Z.leb_spec 0 x) as [H0|H0].
  - set (ip := Z.to_nat (x + 1)). assert (ip <= length d)%nat as Hip by (unfold len in *; lia). exists (take ip d), (drop ip d). split.
    { f_equal. unfold len. rewrite length_drop. destruct (Nat.ltb_spec ip (length d)), (Z.ltb_spec 0 (Z.of_nat (length d - ip))); done || lia. }
    split; [intros E; apply (f_equal length) in E; rewrite length_take in E; simpl in E; unfold len in *; lia|].
    split; [by apply Forall_take|]. split; [by apply Forall_drop|]. rewrite take_drop. split; [done|]. unfold len in *. rewrite length_drop. lia.
  - exists [48], (replicate (Z.to_nat (- x - 1)) 48 ++ d). assert (Forall isdigit (replicate (Z.to_nat (- x - 1)) 48)) as Hz by (apply Forall_replicate; unfold isdigit; lia).
    assert (len (replicate (Z.to_nat (- x - 1)) 48 ++ d) = - x - 1 + len d) as Hlen by (rewrite len_app; unfold len at 1; rewrite length_replicate; lia).
    split; [rewrite Hlen; destruct (Z.ltb_spec 0 (- x - 1 + len d)); [done|lia]|]. split; [done|]. split; [apply Forall_singleton; unfold isdigit; lia|]. split; [by apply Forall_app|]. split.
    + change ([48] ++ replicate (Z.to_nat (- x - 1)) 48 ++ d) with (replicate (S (Z.to_nat (- x - 1))) 48 ++ d). rewrite dval_app, dval_zeros. lia.
    + lia.
Qed.
