(* ===== verification/RyuPrint.v ===== *)
(** [nurl_str_float] of [src/stdlib/runtime_core.c] and the parser: what the
    one writes for a double the other reads as that double. *)

From S2P Require Import Prelude Dtoa Float Pow5Table Atof AtofPack AtofValue AtofText AtofPrint Ryu RyuSides RyuShortest RyuText.

Open Scope word_scope.

(** * The words of a double *)

Lemma double_words bits : is_double bits ->
  Z.land (Z.shiftr bits 52) 2047 = magnitude bits / 2 ^ 52 /\ Z.land bits (2 ^ 52 - 1) = magnitude bits mod 2 ^ 52 /\
  negb (Z.shiftr bits 63 =? 0) = negative bits.
Proof.
  intros Hd. unfold is_double in Hd. rewrite !Z.shiftr_div_pow2 by lia. change 2047 with (Z.ones 11). change (2 ^ 52 - 1) with (Z.ones 52). rewrite !Z.land_ones by lia.
  unfold magnitude, negative. split; [zdiv|]. split; [zdiv|]. destruct (Z.eqb_spec (bits / 2 ^ 63) 0), (Z.leb_spec (2 ^ 63) bits); simpl; try done; zdiv.
Qed.

(** * What the parser reads *)

Lemma reads_text p neg D X m b : len p < 900000 -> meaning_of p = Decimal neg D X m -> reads_as (dval D) X b -> nurl_fast_atof p = Some (with_sign neg b).
Proof.
  intros Hp Hm Hb. destruct (atof_core_spec p Hp) as (r & E & Hr). rewrite Hm in Hr. destruct Hr as (b' & Hb' & ->).
  unfold nurl_fast_atof. rewrite E. cbn [mbind option_bind value]. do 2 f_equal. eapply rounds_unique; [|exact Hb'|exact Hb]. apply pow10_pos. lia.
Qed.

Definition sign (neg : bool) : list Z := if neg then [45] else [].

(** The text of the digits [d] and the exponent [X]. *)
Definition layout (d : list Z) (X : Z) : list Z :=
  let sci_exp := X + len d - 1 in
  if (sci_exp <? -4) || (len d <=? sci_exp) then style_e d sci_exp else style_f d sci_exp.

Lemma style_e_len d x : 1 <= len d <= 20 -> len (style_e d x) <= 26.
Proof.
  intros Hd. unfold style_e, len in *. rewrite !length_app, length_take. destruct (1 <? length d)%nat; cbn [length]; rewrite ?length_drop; destruct (100 <=? Z.abs x); cbn [length]; lia.
Qed.

Lemma style_f_len d x : 1 <= len d <= 20 -> -5 < x -> len (style_f d x) <= 26.
Proof.
  intros Hd Hx. unfold style_f, len in *. destruct (Z.leb_spec 0 x).
  - rewrite !length_app, length_take. destruct (_ <? _)%nat; cbn [length]; rewrite ?length_drop; lia.
  - rewrite !length_app, length_replicate. cbn [length]. lia.
Qed.

Lemma layout_ok neg d X : Forall isdigit d -> 1 <= len d <= 20 -> -400 < X < 400 ->
  (exists D m, meaning_of (sign neg ++ layout d X) = Decimal neg D X m /\ dval D = dval d) /\ len (sign neg ++ layout d X) <= 27.
Proof.
  intros Hd Hl HX. rewrite len_app. assert (len (sign neg) <= 1) as Hsg by (by destruct neg). unfold layout. set (x := X + len d - 1).
  destruct ((x <? -4) || (len d <=? x)) eqn:Hx.
  - pose proof (style_e_len d x Hl). split; [|lia]. destruct (read_style_e d x Hd ltac:(lia) ltac:(lia)) as [m Hm].
    destruct d as [|c d]; [done|]. assert (exists t, style_e (c :: d) x = c :: t) as [t Ht] by (by eexists). rewrite Ht in *.
    exists (c :: d), (nz neg + m). split; [|done]. unfold sign. rewrite meaning_digit by (by apply Forall_cons in Hd as [? _]). rewrite Hm. f_equal. lia.
  - apply orb_false_iff in Hx as [H1%Z.ltb_ge H2%Z.leb_gt]. pose proof (style_f_len d x Hl ltac:(lia)). split; [|lia].
    destruct (style_f_plain d x Hd ltac:(lia) ltac:(lia)) as (int & frac & -> & Hne & Hi & Hf & Hv & Hx).
    eexists _, _. split; [unfold sign; rewrite meaning_plain by done; rewrite Hx; f_equal; unfold x; lia|done].
Qed.

(** * Whole numbers *)

(** The test of the integer path, and the number it prints. *)
Lemma whole_value b : 0 <= b < INF ->
  let e2 := if b / 2 ^ 52 =? 0 then 1 - 1023 - 52 else b / 2 ^ 52 - 1023 - 52 in
  let mant := if b / 2 ^ 52 =? 0 then b mod 2 ^ 52 else Z.lor (b mod 2 ^ 52) (2 ^ 52) in
  (e2 <=? 0) && (if 64 <=? - e2 then mant =? 0 else Z.land mant (wrap64 (Z.shiftl 1 (- e2)) - 1) =? 0) = true ->
  let u := if 64 <=? - e2 then 0 else Z.shiftr mant (- e2) in
  sval b = u * 2 ^ 1074 /\ 0 <= u < 2 ^ 53.
Proof.
  intros Hb. pose proof (Z.mod_pos_bound b (2 ^ 52) ltac:(lia)) as Hm. assert (Z.lor (b mod 2 ^ 52) (2 ^ 52) = b mod 2 ^ 52 + 2 ^ 52) as El.
  { pose proof (lor_low 1 (b mod 2 ^ 52) 52 ltac:(lia) Hm) as E. rewrite Z.mul_1_l in E. rewrite Z.lor_comm, E. lia. }
  rewrite El. pose proof (double_of_bounds b ltac:(lia)) as Hdb. unfold sval. 
  assert (double_of b = (if b / 2 ^ 52 =? 0 then b mod 2 ^ 52 else b mod 2 ^ 52 + 2 ^ 52, if b / 2 ^ 52 =? 0 then 1 - 1023 - 52 else b / 2 ^ 52 - 1023 - 52)) as Ed.
  { unfold double_of. destruct (b / 2 ^ 52 =? 0); f_equal; lia. }
  rewrite Ed in *. cbv zeta. set (M := if _ =? 0 then b mod _ else _) in *. set (F := if _ =? 0 then 1 - _ - _ else _) in *. clearbody M F.
  rewrite andb_true_iff, Z.leb_le. intros [HF Hz]. destruct (Z.leb_spec 64 (- F)) as [H64|H64].
  - apply Z.eqb_eq in Hz as ->. lia.
  - assert (2 ^ (- F) < 2 ^ 64) by (apply Z.pow_lt_mono_r; lia). assert (0 < 2 ^ (- F)) by (apply Z.pow_pos_nonneg; lia).
    rewrite Z.shiftl_1_l, wrap64_small, Z.eqb_eq in Hz by lia. replace (2 ^ (- F) - 1) with (Z.ones (- F)) in Hz by (unfold Z.ones; rewrite Z.shiftl_1_l; lia).
    rewrite Z.land_ones in Hz by lia. rewrite Z.shiftr_div_pow2 by lia. pose proof (Z.div_mod M (2 ^ (- F)) ltac:(lia)) as Hd. rewrite Hz in Hd.
    replace (2 ^ 1074) with (2 ^ (- F) * 2 ^ (F + 1074)) by (rewrite <- Z.pow_add_r by lia; f_equal; lia). split.
    + rewrite Hd at 1. ring.
    + split; [apply Z.div_pos; lia|]. apply Z.div_lt_upper_bound; [done|]. nia.
Qed.

Lemma plain_digits neg d : Forall isdigit d -> 1 <= len d -> exists m, meaning_of (sign neg ++ d) = Decimal neg d 0 m.
Proof.
  intros Hd Hl. destruct d as [|c d]; [done|]. pose proof (meaning_plain neg (c :: d) [] ltac:(done) Hd ltac:(constructor)) as H. unfold plain in H. simpl (0 <? len []) in H. cbv iota in H.
  rewrite !app_nil_r in H. eexists. exact H.
Qed.

Lemma zero_text : digit_text 0 = Some [48].
Proof. done. Qed.

(** The text of a whole number: a zero has no sign. *)
Lemma whole_text neg u b : 0 <= u < 2 ^ 53 -> 0 <= b < INF -> sval b = u * 2 ^ 1074 ->
  exists d, digit_text u = Some d /\ len (sign (neg && negb ((length d =? 1)%nat && (d !!! 0%nat =? 48))) ++ d) <= 27 /\
    nurl_fast_atof (sign (neg && negb ((length d =? 1)%nat && (d !!! 0%nat =? 48))) ++ d) = Some (with_sign (neg && negb (u =? 0)) b).
Proof.
  intros Hu Hb Hv. destruct (digit_text_ok u ltac:(lia)) as (d & E & Hd & Hdv & Hl & _). exists d. split; [done|].
  assert (((length d =? 1)%nat && (d !!! 0%nat =? 48)) = (u =? 0)) as ->.
  { destruct (Z.eqb_spec u 0) as [Hz|Hn]; [rewrite Hz, zero_text in E; by injection E as <-|]. destruct d as [|c [|c' d]]; try done. simpl.
    destruct (Z.eqb_spec c 48) as [->|]; [|done]. by unfold dval in Hdv; simpl in Hdv. }
  assert (len (sign (neg && negb (u =? 0)) ++ d) <= 27) as Hlen by (rewrite len_app; assert (len (sign (neg && negb (u =? 0))) <= 1) by (by destruct (neg && _)); lia).
  split; [done|]. destruct (plain_digits (neg && negb (u =? 0)) d Hd ltac:(lia)) as [m Hm]. apply (reads_text _ _ d 0 m); [lia|done|].
  unfold reads_as. change (10 ^ Z.max 0 0) with 1. change (10 ^ Z.max (- 0) 0) with 1. rewrite Hdv, Z.mul_1_r. apply rounds_exact; [done|done|]. by rewrite Hv, Z.mul_1_r.
Qed.

(** * The whole function *)

(** The digits of the generator, laid out. *)
Lemma fraction_text neg b : 0 < b < INF ->
  exists O X d, nurl__shortest_decimal (b mod 2 ^ 52) (b / 2 ^ 52) = Some (O, X) /\ digit_text O = Some d /\
    len (sign neg ++ layout d X) <= 27 /\ nurl_fast_atof (sign neg ++ layout d X) = Some (with_sign neg b).
Proof.
  intros Hb. destruct (shortest_ok b Hb) as (O & X & E & HO & Hr & _). destruct (digit_text_ok O ltac:(lia)) as (d & Ed & Hd & Hv & Hl & _).
  destruct (layout_ok neg d X Hd Hl (reads_exponent O X b Hb HO Hr)) as [(D & m & Hm & HD) Hlen]. exists O, X, d. do 3 (split; [done|]).
  apply (reads_text _ _ D X m); [lia|done|]. by rewrite HD, Hv.
Qed.

(** The sign of the whole number, which the zero loses. *)
Lemma whole_sign neg u b : 0 <= b < 2 ^ 63 -> sval b = u * 2 ^ 1074 ->
  with_sign (neg && negb (u =? 0)) b = if with_sign neg b =? 2 ^ 63 then 0 else with_sign neg b.
Proof.
  intros Hb Hv. assert (u = 0 <-> b = 0) as Hz.
  { split; [intros ->|intros ->].
    - destruct (Z.eq_dec b 0) as [|Hn]; [done|]. pose proof (sval_mono_lt 0 b ltac:(lia)) as H. change (sval 0) with 0 in H. lia.
    - change (sval 0) with 0 in Hv. lia. }
  destruct (Z.eqb_spec u 0) as [E|E].
  - apply Hz in E as ->. by destruct neg.
  - rewrite andb_true_r. destruct (Z.eqb_spec (with_sign neg b) (2 ^ 63)) as [Ew|]; [|done]. unfold with_sign in Ew. destruct neg; lia.
Qed.

Lemma str_float_ok bits : is_double bits -> magnitude bits < INF ->
  exists text, nurl_str_float bits = Some text /\ len text <= 27 /\ nurl_fast_atof text = Some (if bits =? 2 ^ 63 then 0 else bits).
Proof.
  intros Hd Hf. destruct (double_words bits Hd) as (E1 & E2 & E3). destruct (magnitude_bits bits Hd) as [Hb Hbits]. unfold nurl_str_float. rewrite E1, E2, E3. clear E1 E2 E3.
  set (b := magnitude bits) in *. set (neg := negative bits) in *. assert (0 <= b / 2 ^ 52 < 2047) as Hbe by (split; [apply Z.div_pos; lia|apply Z.div_lt_upper_bound; unfold INF in *; lia]).
  destruct (Z.eqb_spec (b / 2 ^ 52) 2047) as [|_]; [lia|]. pose proof (whole_value b ltac:(lia)) as Hwhole. cbv zeta in Hwhole.
  set (e2 := if b / 2 ^ 52 =? 0 then 1 - 1023 - 52 else _) in *. set (mant := if b / 2 ^ 52 =? 0 then _ else Z.lor _ _) in *.
  set (test := (e2 <=? 0) && _) in *. set (u := if 64 <=? - e2 then 0 else _) in *. destruct test eqn:Ht.
  - destruct (Hwhole eq_refl) as [Hv Hu]. destruct (whole_text neg u b Hu ltac:(lia) Hv) as (d & -> & Hlen & Hr). cbn [mbind option_bind]. eexists. split; [reflexivity|]. split; [exact Hlen|].
    unfold sign in Hr. rewrite Hr. f_equal. rewrite Hbits. apply whole_sign; [lia|done].
  - assert (b <> 0) as Hb0 by (intros E; unfold test, e2, mant in Ht; rewrite E in Ht; done). clearbody test e2 mant u.
    destruct (fraction_text neg b ltac:(lia)) as (O & X & d & -> & Hdt & Hlen & Hr). cbn [mbind option_bind]. rewrite Hdt. cbn [mbind option_bind].
    eexists. split; [reflexivity|]. split; [exact Hlen|]. unfold sign, layout, len in Hr. rewrite Hr. f_equal. rewrite Hbits.
    destruct (Z.eqb_spec (with_sign neg b) (2 ^ 63)) as [E|]; [|done]. unfold with_sign in E. destruct neg; lia.
Qed.

(** The infinities, and what is no number. *)
Lemma str_float_special bits : is_double bits -> INF <= magnitude bits ->
  exists text, nurl_str_float bits = Some text /\ len text <= 27 /\ (INF < magnitude bits -> text = [110; 97; 110]) /\
    (magnitude bits <= INF -> nurl_fast_atof text = Some (if bits =? 2 ^ 63 then 0 else bits)).
Proof.
  intros Hd Hf. destruct (double_words bits Hd) as (E1 & E2 & E3). destruct (magnitude_bits bits Hd) as [Hb Hbits]. unfold nurl_str_float. rewrite E1, E2, E3. clear E1 E2 E3.
  unfold INF in Hf. assert (magnitude bits / 2 ^ 52 = 2047) as -> by zdiv. rewrite Z.eqb_refl. destruct (Z.eqb_spec (magnitude bits mod 2 ^ 52) 0) as [E|E]; simpl negb; cbv iota.
  - assert (magnitude bits = INF) as Hm by (unfold INF; zdiv). rewrite Hm in Hbits. eexists. split; [reflexivity|]. split; [by destruct (negative bits)|]. split; [rewrite Hm; lia|].
    intros _. destruct (negative bits); rewrite Hbits; by vm_compute.
  - eexists. split; [reflexivity|]. split; [done|]. split; [done|]. unfold INF. intros H. exfalso. apply E. zdiv.
Qed.
