(* ===== verification/RyuThms.v ===== *)
(** What the shortest decimal of a double promises. *)

From S2P Require Import Prelude Dtoa Float Pow5Table Atof AtofApprox AtofPack AtofValue AtofText AtofPrint Ryu RyuFloor RyuSides RyuShortest RyuText RyuPrint.

Open Scope word_scope.

(** * The product without a 128-bit type *)

Lemma portable_shift S s : 0 <= S < 2 ^ 128 -> 0 < s < 64 ->
  Z.lor (Z.shiftr (S mod 2 ^ 64) s) (wrap64 (Z.shiftl (S / 2 ^ 64) (64 - s))) = wrap64 (Z.shiftr S s).
Proof.
  intros HS Hs. rewrite Z.shiftl_mul_pow2, !Z.shiftr_div_pow2 by lia. unfold wrap. assert (0 < 2 ^ s) by (apply Z.pow_pos_nonneg; lia). assert (0 < 2 ^ (64 - s)) by (apply Z.pow_pos_nonneg; lia).
  assert (2 ^ 64 = 2 ^ s * 2 ^ (64 - s)) as E by (rewrite <- Z.pow_add_r by lia; f_equal; lia).
  pose proof (Z.mod_pos_bound S (2 ^ 64) ltac:(lia)) as Hl. pose proof (Z.div_mod S (2 ^ 64) ltac:(lia)) as Hd. set (hi := S / 2 ^ 64) in *. set (lo := S mod 2 ^ 64) in *. clearbody hi lo. subst S.
  rewrite E at 1. rewrite Z.mul_mod_distr_r, Z.lor_comm by lia. rewrite lor_low; [|lia|split; [apply Z.div_pos; lia|apply Z.div_lt_upper_bound; lia]].
  replace (2 ^ 64 * hi + lo) with (lo + hi * 2 ^ (64 - s) * 2 ^ s) by (rewrite E; ring). rewrite Z.div_add by lia. symmetry. 
  rewrite (Z.div_mod hi (2 ^ s)) at 1 by lia. replace (lo / 2 ^ s + (2 ^ s * (hi / 2 ^ s) + hi mod 2 ^ s) * 2 ^ (64 - s)) with (hi mod 2 ^ s * 2 ^ (64 - s) + lo / 2 ^ s + hi / 2 ^ s * 2 ^ 64) by (rewrite E; ring).
  rewrite Z.mod_add by lia. apply Z.mod_small. pose proof (Z.mod_pos_bound hi (2 ^ s) ltac:(lia)). assert (0 <= lo / 2 ^ s < 2 ^ (64 - s)) by (split; [apply Z.div_pos; lia|apply Z.div_lt_upper_bound; lia]).
  rewrite E. nia.
Qed.

Lemma portable_same m T j : 0 <= m < 2 ^ 64 -> pair_ok T = true -> 64 <= j < 128 -> mul_shift_portable m T j = nurl__mul_shift m T j.
Proof.
  intros Hm HT Hj. unfold pair_ok in HT. rewrite !andb_true_iff, !Z.leb_le, !Z.ltb_lt in HT. destruct T as [t0 t1]. simpl in HT.
  unfold mul_shift_portable, nurl__mul_shift. simpl fst. simpl snd. rewrite !mul_halves_spec by lia.
  rewrite (wrap_small 128 (m * t0)), (wrap_small 128 (m * t1)) by nia. rewrite (Z.shiftr_div_pow2 (m * t0)) by lia.
  assert (0 <= m * t0 <= (2 ^ 64 - 1) * (2 ^ 64 - 1) /\ 0 <= m * t1 <= (2 ^ 64 - 1) * (2 ^ 64 - 1)) as [B0 B1] by nia.
  set (b0 := m * t0 / 2 ^ 64) in *. assert (0 <= b0 <= 2 ^ 64 - 2) as Hb by (unfold b0; split; [apply Z.div_pos; lia|]; assert (m * t0 / 2 ^ 64 < 2 ^ 64 - 1); [apply Z.div_lt_upper_bound|]; lia). clearbody b0.
  set (P := m * t1) in *. clearbody P. rewrite (wrap_small 128 (b0 + P)) by lia.
  assert (P mod 2 ^ 64 +w b0 = (b0 + P) mod 2 ^ 64) as -> by (unfold wrap; rewrite Z.add_mod_idemp_l by lia; f_equal; lia).
  assert (P / 2 ^ 64 +w (if (b0 + P) mod 2 ^ 64 <? P mod 2 ^ 64 then 1 else 0) = (b0 + P) / 2 ^ 64) as ->.
  { destruct (Z.ltb_spec ((b0 + P) mod 2 ^ 64) (P mod 2 ^ 64)); rewrite wrap64_small by zdiv; zdiv. }
  destruct (Z.eqb_spec (j - 64) 0) as [->|Hn]; [by rewrite Z.shiftr_0_r|]. apply portable_shift; lia.
Qed.

(** * The properties *)

(** C13: The text of a double reads back as the double.  [nurl_str_float] returns
    for every bit pattern, with a text of at most 27 bytes (the buffer has 32);
    a NaN is written [nan], and for every other double, infinities and
    subnormals included, the parser's answer on the text is the very pattern,
    except that the negative zero is written without its sign. *)
Theorem str_float_roundtrip bits :
  is_double bits ->
  exists text, nurl_str_float bits = Some text /\ len text <= 27 /\
    (INF < magnitude bits -> text = [110; 97; 110]) /\
    (magnitude bits <= INF -> nurl_fast_atof text = Some (if bits =? 2 ^ 63 then 0 else bits)).
Proof.
  intros Hd. destruct (Z.lt_ge_cases (magnitude bits) INF) as [Hf|Hf].
  - destruct (str_float_ok bits Hd Hf) as (text & E & Hl & Hr). exists text. do 2 (split; [done|]). split; [lia|done].
  - by apply str_float_special.
Qed.

(** C14: The digits of [nurl__shortest_decimal]: for every positive finite double
    it ends with a decimal that rounds to the double; any other decimal that
    does has no larger exponent and no fewer digits, and of those with the same
    exponent none is nearer to the double. *)
Theorem shortest_decimal_best b :
  0 < b < INF ->
  exists O X, nurl__shortest_decimal (b mod 2 ^ 52) (b / 2 ^ 52) = Some (O, X) /\ 0 < O /\ reads_as O X b /\
    (forall y t, reads_as y t b -> t <= X /\ forall n, 0 <= n -> y < 10 ^ n -> O < 10 ^ n) /\
    (forall y, reads_as y X b -> distance O X b <= distance y X b).
Proof.
  intros Hb. destruct (shortest_ok b Hb) as (O & X & E & HO & Hr & Hs & Hn). exists O, X. split; [done|]. split; [lia|]. split; [done|]. split; [|done].
  intros y t Hy. split; [destruct (Z.le_gt_cases t X); [done|exfalso; by apply (Hs y t)]|]. intros n H0 Hlt. exact (fewest O X y t n b ltac:(lia) Hr Hs Hy H0 Hlt).
Qed.

(** C17: The product with the table's 125 bits is the exact floor: for every
    exponent a double has and every bound of its interval, with the index into
    the table in range and the shift between 54 and 61 places, and it is the
    same by halves of words. *)
Theorem product_exact e2 m :
  -1076 <= e2 < 970 -> 0 < m <= 2 ^ 55 + 2 ->
  if 0 <=? e2 then
    let q := nurl__log10_pow2 e2 - nz (3 <? e2) in
    let j := - e2 + q + (NURL_POW5_INV_BITCOUNT + nurl__pow5_bits q - 1) in
    let T := NURL_POW5_INV !!! Z.to_nat q in
    0 <= q < NURL_POW5_INV_N /\ 54 <= j - 64 <= 61 /\
    nurl__mul_shift m T j = m * 2 ^ e2 / 10 ^ q /\ mul_shift_portable m T j = m * 2 ^ e2 / 10 ^ q
  else
    let q := nurl__log10_pow5 (- e2) - nz (1 <? - e2) in
    let i := - e2 - q in
    let j := q - (nurl__pow5_bits i - NURL_POW5_BITCOUNT) in
    let T := NURL_POW5 !!! Z.to_nat i in
    0 <= i < NURL_POW5_N /\ 54 <= j - 64 <= 61 /\
    nurl__mul_shift m T j = m * 10 ^ i / 2 ^ (- e2) /\ mul_shift_portable m T j = m * 10 ^ i / 2 ^ (- e2).
Proof.
  intros He Hm. destruct (Z.leb_spec 0 e2) as [H0|H0]; cbv zeta.
  - destruct (up_floor e2 m ltac:(lia) ltac:(unfold max_mv; lia)) as (Hq & Hqe & _ & F). cbv zeta in *. pose proof (up_shifts e2 ltac:(lia)) as Hj. fold (up_q e2).
    replace (- e2 + up_q e2 + (NURL_POW5_INV_BITCOUNT + nurl__pow5_bits (up_q e2) - 1)) with (up_shift e2) by (unfold NURL_POW5_INV_BITCOUNT, up_shift, up_k; lia).
    destruct (pow5_inv_entry (up_q e2)) as (E1 & _); [unfold NURL_POW5_INV_N; lia|]. rewrite portable_same, F by (done || lia).
    replace (10 ^ up_q e2) with (5 ^ up_q e2 * 2 ^ up_q e2) by (rewrite <- Z.pow_mul_l; done).
    replace (2 ^ e2) with (2 ^ (e2 - up_q e2) * 2 ^ up_q e2) by (rewrite <- Z.pow_add_r by lia; f_equal; lia).
    rewrite Z.mul_assoc, Z.div_mul_cancel_r by (apply Z.pow_nonzero; lia). split; [unfold NURL_POW5_INV_N; lia|]. by split; [lia|].
  - destruct (down_floor e2 m ltac:(lia) ltac:(unfold max_mv; lia)) as (Hq & Hi & _ & F). cbv zeta in *. pose proof (down_shifts e2 ltac:(lia)) as Hj. fold (down_q e2). fold (down_i e2).
    change (nurl__pow5_bits (down_i e2) - NURL_POW5_BITCOUNT) with (down_k (down_i e2)).
    destruct (pow5_entry (down_i e2)) as (E1 & _); [unfold NURL_POW5_N; lia|]. rewrite portable_same, F by (done || lia).
    replace (10 ^ down_i e2) with (5 ^ down_i e2 * 2 ^ down_i e2) by (rewrite <- Z.pow_mul_l; done).
    replace (2 ^ (- e2)) with (2 ^ down_q e2 * 2 ^ down_i e2) by (rewrite <- Z.pow_add_r by lia; f_equal; unfold down_i; lia).
    rewrite Z.mul_assoc, Z.div_mul_cancel_r by (apply Z.pow_nonzero; lia). split; [unfold NURL_POW5_N; lia|]. by split; [lia|].
Qed.

(** * Witnesses *)

(** One tenth, and the smallest subnormal. *)
Lemma str_float_roundtrip_witness :
  nurl_str_float dbl_tenth = Some [48; 46; 49] /\ nurl_fast_atof [48; 46; 49] = Some dbl_tenth.
Proof.
  assert (nurl_str_float dbl_tenth = Some [48; 46; 49]) as E by (vm_compute; reflexivity). split; [exact E|].
  destruct (str_float_roundtrip dbl_tenth) as (text & Ht & _ & _ & H); [exact (proj1 tenth_finite)|]. rewrite E in Ht. injection Ht as <-.
  apply H. vm_compute. discriminate.
Defined.

Lemma shortest_decimal_best_witness : nurl__shortest_decimal 1 0 = Some (5, -324) /\ reads_as 5 (-324) 1 /\ forall y t, reads_as y t 1 -> t <= -324.
Proof.
  destruct (shortest_decimal_best 1 ltac:(unfold INF; lia)) as (O & X & E & _ & Hr & H & _).
  assert (nurl__shortest_decimal 1 0 = Some (5, -324)) as E1 by (vm_compute; reflexivity). change (1 mod 2 ^ 52) with 1 in E. change (1 / 2 ^ 52) with 0 in E.
  rewrite E1 in E. injection E as <- <-. split; [exact E1|]. split; [exact Hr|]. intros y t Hy. apply (H y t Hy).
Defined.

Lemma product_exact_witness : nurl__mul_shift 12345678901234 (NURL_POW5 !!! 14%nat) 118 = 12345678901234 * 10 ^ 14 / 2 ^ 40.
Proof.
  pose proof (product_exact (-40) 12345678901234 ltac:(lia) ltac:(lia)) as H. cbv zeta in H. destruct H as (_ & _ & H & _). exact H.
Defined.
